(* ===== verification/_CoqProject ===== *)
-Q . S2P
Prelude.v
Memory.v
Capability.v
Anonymity.v
Ipc.v
Ring.v
BootInfo.v
Allocator.v
Pmm.v
Elf.v
Heap.v
Paging.v
Process.v
Loading.v
Syscall.v
Scheduler.v
Dispatch.v
Security.v
AppInput.v
Devices.v
Ps2.v
InputQueues.v
Raster.v
Gop.v
Surface.v
Compositor.v
Composition.v
Block.v
Pci.v
Acpi.v
Module.v
Net.v
Files.v
Console.v
Kconsole.v
Runtime.v
Calculator.v
Notes.v
Snake.v
Programs.v
Arch.v
Shell.v
ShellSpec.v
Boot.v
SelfTest.v
KernelMain.v
StartOrder.v
Handover.v
Monitor.v
Ahci.v
Desktop.v
Session.v
Startup.v
