(* ===== verification/Prelude.v ===== *)
(** * ArgusOS kernel: a verification library

    ** The program

    ArgusOS (under src/src) is a small x86-64 kernel with a UEFI boot stage.  The
    boot stage takes the firmware's memory map and leaves boot services (boot.c,
    uefi_memory.c).  The kernel manages physical pages (pmm.c), a heap (heap.c) and
    page tables (paging.c); it reads the ACPI tables (acpi.c), routes interrupts
    (apic.c, arch.c), drives the serial port, keyboard, mouse, PCI bus and AHCI
    disk (serial.c, ps2.c, input.c, pci.c, ahci.c, block.c) and checks the Rust
    modules it links (module.c, net.c, ramfs.c, fat32.c).  User programs are ELF
    images (elf_loader.c) that run as processes (process.c) with capabilities
    (capability.c), message queues (ipc.c) and an anonymity policy (anonymity.c)
    under which no process reaches the network.  The user sees a framebuffer
    (gop.c) on which a compositor (compositor.c) shows the windows (surface.c,
    font5x7.c) of a desktop (desktop.c) and a text console (console.c, kconsole.c).
    kernel_main (kernel.c) starts these parts in order and ends in the shell
    (kernel_shell.c); before the kernel is entered the firmware monitor (main.c)
    offers its own commands.  The applications under src/user are a runtime of
    drawing and text functions (app_runtime.cpp) and three programs on it: a
    calculator, a note pad and a snake game.

    ** How it is modelled

    A C integer of width w is a [Z], reduced with [u8] ... [u64] wherever the source
    can wrap around.  The statics of a file are a record, an operation is a function
    from the old to the new record, a fallible operation returns the C result beside
    it.  Memory is a map from addresses to bytes (Memory.v); pointers are addresses.
    The definitions are executable.  A component that calls another uses its model,
    through a type class where the contract is what matters:

    - [PageAllocator] (Allocator.v): pages for Heap, Paging, Process, Ahci; Pmm.v is
      its instance.
    - [Hardware] (Devices.v): ports and device memory, for all drivers; [IoApic],
      [PciBus] (Pci.v), [Uart] (Kconsole.v), [Hba] and [AhciPort] (Ahci.v) state what
      a documented device does, each with a concrete device as instance.
    - [Firmware], [FirmwareSpec] (Boot.v): the UEFI services, and what their
      specification promises.
    - [Services] (Desktop.v): what the desktop asks of the rest of the kernel.  Its
      theorems hold whatever the answers are.
    - [MsrFile] (Arch.v): the model-specific registers.
    - [System] (Runtime.v): the system calls an application makes; [key_queue_system]
      (Programs.v) is an instance with the kernel's queue of keys.
    - [Kernel] (Shell.v), [Platform] (KernelMain.v), [FirmwareMachine] (Monitor.v):
      the calls that the shell, kernel_main and the monitor make, one constructor of
      [K.kcall], [B.bcall] and [U.ucall] per function called.  What the callee does is
      a parameter; [Counters], [Bytes], [Steady] and [ConsoleInput] state what a theorem
      needs of it, and each has an instance.

    A store past the end of an array has no result: the loaders of process.c return
    [None] where they would record a seventeenth page of an image ([record_page]), and
    so does every operation that called them.  The breakpoint of the shell's fault
    command and the traps of the self tests do not come back: they end in the exception
    report.  A disk that works may at any register access post received FISes and byte
    counts to the memory it was given, besides the data of its commands.

    ** Files

    - Prelude.v: words, loops ([for_range], [zfind], [zall], [zcount]), tactics.
      Memory.v: byte memory and memory.c.  Ring.v: ring indices.  Raster.v: rows of
      pixels.
    - Capability.v, Anonymity.v, Ipc.v: the files of these names.
    - BootInfo.v: boot_info.h and the memory map.  Allocator.v, Pmm.v: pmm.c.
      Heap.v: heap.c.  Elf.v: elf_loader.c.
    - Paging.v: paging.c.  Process.v (with Loading.v): the process table and the
      loaders of process.c.  Syscall.v: the system calls.  Scheduler.v (with
      Dispatch.v, AppInput.v): dispatch, waking, applications, input.
      Security.v: the network policy over whole histories.
    - Devices.v: apic.c, serial.c, interrupt handlers.  Ps2.v (with InputQueues.v):
      ps2.c, input.c.  Pci.v, Block.v, Ahci.v, Acpi.v, Module.v, Net.v: the files of
      these names.  Files.v: ramfs.c, fat32.c.
    - Gop.v: gop.c.  Surface.v: surface.c, font5x7.c.  Compositor.v (with
      Composition.v): compositor.c.  Console.v: console.c.  Kconsole.v: kconsole.c
      and the output side of serial.c.
    - Runtime.v: app_runtime.cpp.  Calculator.v, Notes.v, Snake.v: the
      programs of these names.  Programs.v: the three programs against the kernel's
      rules for surfaces and keys.
    - Arch.v: arch.c's descriptor tables and system-call registers, with the register
      loads of cpu.S.
    - Shell.v: kernel_shell.c; ShellSpec.v: its theorems.  Boot.v: boot.c,
      uefi_memory.c.  SelfTest.v: the page allocator's self test.  KernelMain.v:
      kernel.c; StartOrder.v: the order of its calls; Handover.v: boot.c, kernel.c and
      pmm.c together.  Monitor.v: main.c.
    - Desktop.v (with Session.v, the invariant, and Startup.v, its establishment):
      desktop.c.

    ** What the theorems show

    - Isolation: no history of processes, interrupts and user code leads to a process
      with a network capability; system calls change only the caller's own memory;
      loaded processes share no page; the loader's images satisfy the validator's
      rules, and the validator accepts exactly those.
    - Memory: page allocator, heap and page tables keep their invariants over every
      history and refine first-fit allocation; kfree takes back exactly what is held,
      whatever address it is given (unless the caller forged a block header in front of
      it); a mapped page translates to its frame.
    - Processes: the scheduler regains control (unless user code passes a system call a
      pointer that the range check should have refused), settles every dispatch, and
      lets no ready process wait for more than a round; loading and releasing is
      balanced, and leaves its array of pages only for files that the validator should
      have refused.
    - Communication: mailboxes are first-in first-out queues, revoked capabilities
      stay dead, keys reach an application once and in order, also under every
      interleaving of interrupt handler and reader.
    - Devices: ACPI tables are decoded exactly; network devices are quarantined at
      boot; the disk driver holds exactly its two DMA pages, reads what the disk
      holds, and fails for good; messages reach the serial wire.
    - Boot: the loader returns with everything given back, halts, or enters the kernel.
    - Start-up: the descriptor tables decode to the segments, gates and privilege
      levels that the kernel relies on, and the system-call registers hold the
      selectors they must.  The record the loader builds passes kernel_main's checks,
      and its page allocator passes the self test exactly when there is memory enough.
      Whatever the components do, kernel_main calls them in one order and reaches the
      shell only through all of them; when their answers are fixed, it stops at the
      first check that fails, with that check's message, or in the self test it was
      asked for, with the report of its exception.
    - Shell: numbers are parsed exactly, overflow included; the line editor hands over
      what an abstract editor holds; every turn runs the scheduler; what cat prints is
      printable; the verdict of the allocation probe.  The monitor's read_line returns
      what was typed on serial line and keyboard, within its buffer.
    - Applications: the calculator evaluates from left to right, the note pad and the
      snake keep their invariants (the snake never overlaps itself and refines an
      abstract game), every program's surface is one the kernel accepts, and a round of
      a program takes the keys that are queued.
    - Display: after a present the screen is the composition of the windows; the hit
      test agrees with it; the console shows what an abstract terminal shows; the
      desktop starts when it can, stays valid whatever happens, presents its windows
      with the pointer on top, except for the pixels that a key event leaves stale under
      the pointer, and shows of an application what it drew.

    ** Bounds and fuel

    Loops over an index are [for_range] or structural; they need no fuel.  Where the
    source loops on data the model counts: heap walks have one step per block the heap
    can hold ([heap_fuel]); descriptor, ACPI and PCI walks one step per byte of the
    table; a range check one step per page; starting an application 32 rounds, the
    memory map 4 attempts and the hand-off 4 attempts, AHCI_TIMEOUT polls of the
    disk, as in the source; a decimal number 20 digits, enough for 64 bits; the food of
    the snake 280 attempts, one per cell, as in the source.  The loops of the source
    that have no end (the shell, the monitor, an application's rounds, the poll for a
    key) are functions of a number of turns, and the theorems hold for every number;
    the timer test of kernel_main has its number of spins as a parameter.  The
    serial port is polled without bound in the source: the model polls up to a
    patience and returns nothing beyond it, and the theorems show that a port that
    becomes ready within the patience gets everything.  User code is a list of events
    (interrupts with register contents and stores); a dispatch that runs out of
    events has not returned.

    The desktop's surfaces live in the heap's memory, which holds the framebuffer too;
    the process model has the machine's memory.  The two are separate maps, and the
    bytes of an application's surface come to the desktop through [svc_byte].

    ** Findings

    elf_loader.c accepts images of more than sixteen pages ([elf_page_budget_bypass]);
    a user program can stop the kernel with a non-canonical pointer
    ([syscall_noncanonical_panic]); paging_mark_mmio lets a range that ends at 2^64
    through; nine punctuation keys are dead ([punctuation_keys_dead]); a key event
    leaves a stale picture behind the pointer ([key_event_restores_old_picture]); the
    desktop indexes its palette with bytes the application can change after they were
    checked ([published_surface_unchecked]); ahci_init gives DMA pages back without
    knowing that the port has stopped; after = the calculator discards the next number
    and applies its operator to the old result ([calculator_reuses_result]); the
    shell's alloc 1 reports a corruption that is not one
    ([allocation_probe_verdict]).

    ** Not modelled

    - The entry stubs and the context switch of cpu.S, and user_images.S: assembly; the
      C functions they call are modelled, and the register frame they build is the
      argument of these functions.
    - The Rust components (rust_*.rs), called through their ABI, which is modelled, and
      the build tool (tools/argus.py).
    - What a function called through [Kernel], [Platform] or [FirmwareMachine] does is
      not repeated there: it is the subject of that function's own file. *)

From stdpp Require Import base list gmap numbers.
From Stdlib Require Import ZArith Lia.

Open Scope Z_scope.

(** ** Machine words

    A C unsigned integer of width [w] is a [Z]; wherever the source can wrap
    around, the result is reduced explicitly with [u8], [u16], [u32], [u64]. *)

Definition u8 (x : Z) : Z := x mod 256.
Definition u16 (x : Z) : Z := x mod 65536.
Definition u32 (x : Z) : Z := x mod 4294967296.
Definition u64 (x : Z) : Z := x mod 18446744073709551616.

Definition UINT8_MAX : Z := 255.
Definition UINT32_MAX : Z := 4294967295.
Definition UINT64_MAX : Z := 18446744073709551615.

(** C truth value of an integer. *)
Definition nz (x : Z) : bool := negb (x =? 0).

(** C integer of a truth value. *)
Definition b2z (b : bool) : Z := if b then 1 else 0.

Declare Scope c_scope.
Delimit Scope c_scope with c.
Notation "x '!=?' y" := (negb (Z.eqb x y)) (at level 70, no associativity) : c_scope.
Notation "x '&' y" := (Z.land x y) (at level 54, left associativity) : c_scope.
Notation "x '>>' y" := (Z.shiftr x y) (at level 52, left associativity) : c_scope.
Notation "x '<<' y" := (Z.shiftl x y) (at level 52, left associativity) : c_scope.
Open Scope c_scope.

(** ** Proof automation *)

Create HintDb argus.
Create Rewrite HintDb words.
Create Rewrite HintDb arrays.

(** Turn boolean hypotheses into propositions, leaving arithmetic to [lia]. *)
Ltac b2p_step :=
  match goal with
  | H : true = false |- _ => discriminate H
  | H : false = true |- _ => discriminate H
  | H : true = true |- _ => clear H
  | H : false = false |- _ => clear H
  | H : nz _ = _ |- _ => unfold nz in H
  | H : (_ && _)%bool = true |- _ => apply andb_true_iff in H; destruct H
  | H : (_ || _)%bool = false |- _ => apply orb_false_iff in H; destruct H
  | H : (_ || _)%bool = true |- _ => apply orb_true_iff in H
  | H : (_ && _)%bool = false |- _ => apply andb_false_iff in H
  | H : negb _ = true |- _ => apply negb_true_iff in H
  | H : negb _ = false |- _ => apply negb_false_iff in H
  | H : (_ =? _) = true |- _ => apply Z.eqb_eq in H
  | H : (_ =? _) = false |- _ => apply Z.eqb_neq in H
  | H : (_ <? _) = true |- _ => apply Z.ltb_lt in H
  | H : (_ <? _) = false |- _ => apply Z.ltb_ge in H
  | H : (_ <=? _) = true |- _ => apply Z.leb_le in H
  | H : (_ <=? _) = false |- _ => apply Z.leb_gt in H
  end.
Ltac b2p := repeat b2p_step.

(** Case analysis on the first [if] of the goal, or of a hypothesis. *)
Ltac case_if :=
  match goal with
  | |- context [if ?b then _ else _] => destruct b eqn:?
  end.
Ltac case_if_in H :=
  match type of H with
  | context [if ?b then _ else _] => destruct b eqn:?
  end.

(** ** Counting loops

    [zrange lo n] is [lo; lo+1; ...; lo+n-1]: the values a C [for] loop over an
    unsigned counter takes.  [for_range lo n body s] runs [body] on each. *)

Fixpoint zrange (lo : Z) (n : nat) : list Z :=
  match n with
  | O => []
  | S n' => lo :: zrange (lo + 1) n'
  end.

Definition for_range {S : Type} (lo hi : Z) (body : Z -> S -> S) (s : S) : S :=
  fold_left (fun acc i => body i acc) (zrange lo (Z.to_nat (hi - lo))) s.

(** The first index of [lo, lo+n) that satisfies [p]: a loop with an early
    return. *)
Fixpoint zfind (p : Z -> bool) (lo : Z) (n : nat) : option Z :=
  match n with
  | O => None
  | S n' => if p lo then Some lo else zfind p (lo + 1) n'
  end.

(** All indices of [lo, lo+n) satisfy [p]: a loop that returns 0 on the first
    failure. *)
Fixpoint zall (p : Z -> bool) (lo : Z) (n : nat) : bool :=
  match n with
  | O => true
  | S n' => p lo && zall p (lo + 1) n'
  end.

(** How many indices of [lo, lo+n) satisfy [p]: a counting loop. *)
Fixpoint zcount (p : Z -> bool) (lo : Z) (n : nat) : Z :=
  match n with
  | O => 0
  | S n' => (if p lo then 1 else 0) + zcount p (lo + 1) n'
  end.

Lemma zrange_app lo a b : zrange lo (a + b) = zrange lo a ++ zrange (lo + Z.of_nat a) b.
Proof.
  revert lo. induction a as [|a IH]; intros lo; simpl.
  - f_equal; lia.
  - rewrite IH. do 3 f_equal; lia.
Qed.

Lemma zrange_length lo n : length (zrange lo n) = n.
Proof. revert lo. induction n; intros; simpl; auto. Qed.

Lemma elem_of_zrange i lo n : i ∈ zrange lo n <-> lo <= i < lo + Z.of_nat n.
Proof.
  revert lo. induction n as [|n IH]; intros lo; simpl.
  - rewrite elem_of_nil. lia.
  - rewrite elem_of_cons, IH. lia.
Qed.

Lemma zrange_lookup lo n k : (k < n)%nat -> zrange lo n !! k = Some (lo + Z.of_nat k).
Proof.
  revert lo k. induction n as [|n IH]; intros lo k Hk; [lia|].
  destruct k as [|k]; simpl.
  - f_equal; lia.
  - rewrite IH by lia. f_equal; lia.
Qed.

Lemma for_range_empty {S} lo hi (body : Z -> S -> S) s :
  hi <= lo -> for_range lo hi body s = s.
Proof. intros H. unfold for_range. by replace (Z.to_nat (hi - lo)) with 0%nat by lia. Qed.

Lemma for_range_step {S} lo hi (body : Z -> S -> S) s :
  lo < hi -> for_range lo hi body s = for_range (lo + 1) hi body (body lo s).
Proof.
  intros H. unfold for_range.
  replace (Z.to_nat (hi - lo)) with (Datatypes.S (Z.to_nat (hi - (lo + 1)))) by lia.
  reflexivity.
Qed.

(** Invariant rule for counting loops. *)
Lemma for_range_inv {S} (I : Z -> S -> Prop) lo hi body s :
  lo <= hi ->
  I lo s ->
  (forall i s', lo <= i < hi -> I i s' -> I (i + 1) (body i s')) ->
  I hi (for_range lo hi body s).
Proof.
  intros Hle H0 Hstep. remember (Z.to_nat (hi - lo)) as n eqn:Hn.
  revert lo s Hle H0 Hstep Hn. induction n as [|n IH]; intros lo s Hle H0 Hstep Hn.
  - assert (lo = hi) as -> by lia. by rewrite for_range_empty by lia.
  - rewrite for_range_step by lia. apply IH; [lia| |intros; apply Hstep; auto; lia|lia].
    apply Hstep; auto; lia.
Qed.

(** An invariant of a loop that holds for any bounds. *)
Lemma for_range_rel {S} (R : S -> S -> Prop) lo hi body s :
  (forall s, R s s) -> (forall s1 s2 s3, R s1 s2 -> R s2 s3 -> R s1 s3) -> (forall i s, R s (body i s)) ->
  R s (for_range lo hi body s).
Proof.
  intros Hr Ht Hb. destruct (Z.le_gt_cases lo hi); [|by rewrite for_range_empty by lia].
  apply (for_range_inv (fun _ => R s)); [done|done|]. eauto.
Qed.

Lemma zfind_Some p lo n i :
  zfind p lo n = Some i <->
  lo <= i < lo + Z.of_nat n /\ p i = true /\ (forall j, lo <= j < i -> p j = false).
Proof.
  revert lo. induction n as [|n IH]; intros lo; simpl.
  - split; [done|lia].
  - destruct (p lo) eqn:Hp.
    + split.
      * intros [= <-]. repeat split; [lia|lia|done|intros; lia].
      * intros (? & Hi & Hmin). f_equal. destruct (Z.eq_dec lo i); [done|].
        rewrite Hmin in Hp by lia. done.
    + rewrite IH. split.
      * intros (? & ? & Hmin). repeat split; [lia|lia|done|].
        intros j Hj. destruct (Z.eq_dec j lo); [by subst|]. apply Hmin; lia.
      * intros (Hr & Hi & Hmin). assert (i <> lo) by congruence.
        repeat split; [lia|lia|done|]. intros; apply Hmin; lia.
Qed.

Lemma zfind_None p lo n :
  zfind p lo n = None <-> (forall j, lo <= j < lo + Z.of_nat n -> p j = false).
Proof.
  revert lo. induction n as [|n IH]; intros lo; simpl.
  - split; [intros; lia|done].
  - destruct (p lo) eqn:Hp.
    + split; [done|]. intros H. rewrite H in Hp by lia. done.
    + rewrite IH. split; intros H j Hj.
      * destruct (Z.eq_dec j lo); [by subst|]. apply H; lia.
      * apply H; lia.
Qed.

Lemma zall_true p lo n :
  zall p lo n = true <-> (forall j, lo <= j < lo + Z.of_nat n -> p j = true).
Proof.
  revert lo. induction n as [|n IH]; intros lo; simpl.
  - split; [intros; lia|done].
  - rewrite andb_true_iff, IH. split.
    + intros [H1 H2] j Hj. destruct (Z.eq_dec j lo); [by subst|]. apply H2; lia.
    + intros H. split; [apply H; lia|intros; apply H; lia].
Qed.

Lemma zcount_ext p q lo n :
  (forall j, lo <= j < lo + Z.of_nat n -> p j = q j) -> zcount p lo n = zcount q lo n.
Proof.
  revert lo. induction n as [|n IH]; intros lo H; simpl; [done|].
  rewrite H by lia. f_equal. apply IH. intros; apply H; lia.
Qed.

Lemma zcount_app p lo a b :
  zcount p lo (a + b) = zcount p lo a + zcount p (lo + Z.of_nat a) b.
Proof.
  revert lo. induction a as [|a IH]; intros lo; cbn [zcount Nat.add].
  - by rewrite Z.add_0_r, Z.add_0_l.
  - rewrite IH. replace (lo + Z.of_nat (S a)) with (lo + 1 + Z.of_nat a) by lia. lia.
Qed.

Lemma zcount_bounds p lo n : 0 <= zcount p lo n <= Z.of_nat n.
Proof. revert lo. induction n as [|n IH]; intros lo; simpl; [lia|]. specialize (IH (lo + 1)). case_if; lia. Qed.

Lemma zcount_mono p q lo n :
  (forall j, lo <= j < lo + Z.of_nat n -> p j = true -> q j = true) ->
  zcount p lo n <= zcount q lo n.
Proof.
  revert lo. induction n as [|n IH]; intros lo H; simpl; [lia|].
  assert (zcount p (lo + 1) n <= zcount q (lo + 1) n) by (apply IH; intros; apply H; auto; lia).
  destruct (p lo) eqn:E; [rewrite (H lo) by (auto; lia)|case_if]; lia.
Qed.

Lemma zcount_all p lo n :
  (forall j, lo <= j < lo + Z.of_nat n -> p j = true) -> zcount p lo n = Z.of_nat n.
Proof.
  revert lo. induction n as [|n IH]; intros lo H; simpl; [lia|].
  rewrite H by lia. rewrite IH by (intros; apply H; lia). lia.
Qed.

Lemma zcount_none p lo n :
  (forall j, lo <= j < lo + Z.of_nat n -> p j = false) -> zcount p lo n = 0.
Proof.
  revert lo. induction n as [|n IH]; intros lo H; simpl; [lia|].
  rewrite H by lia. rewrite IH by (intros; apply H; lia). lia.
Qed.

Lemma zcount_pos p lo n j :
  lo <= j < lo + Z.of_nat n -> p j = true -> 1 <= zcount p lo n.
Proof.
  revert lo. induction n as [|n IH]; intros lo H Hp; simpl; [lia|].
  pose proof (zcount_bounds p (lo + 1) n).
  destruct (Z.eq_dec j lo) as [->|]; [rewrite Hp; lia|].
  assert (1 <= zcount p (lo + 1) n) by (apply IH; auto; lia). case_if; lia.
Qed.

(** A change of the predicate on one index changes the count by one. *)
Lemma zcount_split p lo n k m :
  lo <= k -> 0 <= m -> k + m <= lo + Z.of_nat n ->
  zcount p lo n =
    zcount p lo (Z.to_nat (k - lo)) + zcount p k (Z.to_nat m)
    + zcount p (k + m) (Z.to_nat (lo + Z.of_nat n - (k + m))).
Proof.
  intros H1 H2 H3.
  replace n with (Z.to_nat (k - lo) + (Z.to_nat m + Z.to_nat (lo + Z.of_nat n - (k + m))))%nat at 1 by lia.
  rewrite zcount_app, zcount_app.
  replace (lo + Z.of_nat (Z.to_nat (k - lo))) with k by lia.
  replace (k + Z.of_nat (Z.to_nat m)) with (k + m) by lia. lia.
Qed.

(** Changing the predicate only on [k, k+m) changes the count by what that range
    contributes. *)
Lemma zcount_range_update p q lo n k m :
  lo <= k -> 0 <= m -> k + m <= lo + Z.of_nat n ->
  (forall j, lo <= j < lo + Z.of_nat n -> ~ (k <= j < k + m) -> p j = q j) ->
  zcount q lo n = zcount p lo n - zcount p k (Z.to_nat m) + zcount q k (Z.to_nat m).
Proof.
  intros H1 H2 H3 He.
  rewrite (zcount_split q lo n k m), (zcount_split p lo n k m) by done.
  rewrite (zcount_ext p q lo (Z.to_nat (k - lo))) by (intros; apply He; lia).
  rewrite (zcount_ext p q (k + m)) by (intros; apply He; lia). lia.
Qed.

Lemma zcount_1 p k : zcount p k (Z.to_nat 1) = b2z (p k).
Proof. change (Z.to_nat 1) with 1%nat. cbn [zcount]. unfold b2z. case_if; lia. Qed.

Lemma zcount_S p lo n : zcount p lo (S n) = b2z (p lo) + zcount p (lo + 1) n.
Proof. reflexivity. Qed.

Lemma zcount_update p q lo n k :
  lo <= k < lo + Z.of_nat n ->
  (forall j, lo <= j < lo + Z.of_nat n -> j <> k -> p j = q j) ->
  zcount q lo n = zcount p lo n - b2z (p k) + b2z (q k).
Proof.
  intros Hk He. rewrite (zcount_range_update p q lo n k 1) by (try lia; intros; apply He; lia).
  by rewrite !zcount_1.
Qed.

(** The C test [lo <= x && x < hi]. *)
Lemma in_range_true lo x hi : lo <= x < hi -> (lo <=? x) && (x <? hi) = true.
Proof. intros. destruct (Z.leb_spec lo x), (Z.ltb_spec x hi); done || lia. Qed.
Lemma in_range_false lo x hi : ~ (lo <= x < hi) -> (lo <=? x) && (x <? hi) = false.
Proof. intros. destruct (Z.leb_spec lo x), (Z.ltb_spec x hi); done || lia. Qed.

(** ** Sums and pairwise relations *)

Definition zsum {A} (f : A -> Z) (l : list A) : Z := fold_right (fun x acc => f x + acc) 0 l.

Lemma zsum_app {A} (f : A -> Z) l k : zsum f (l ++ k) = zsum f l + zsum f k.
Proof. induction l as [|x l IH]; simpl; [done|]. rewrite IH. lia. Qed.

Lemma zsum_nonneg {A} (f : A -> Z) l : Forall (fun x => 0 <= f x) l -> 0 <= zsum f l.
Proof. induction 1; simpl; lia. Qed.

Lemma pairwise_snoc {A} (R : A -> A -> Prop) l x :
  ForallOrdPairs R (l ++ [x]) <-> ForallOrdPairs R l /\ Forall (fun y => R y x) l.
Proof.
  induction l as [|y l IH]; simpl.
  - split; [intros _; split; constructor|]. intros _. constructor; constructor.
  - split.
    + inversion_clear 1 as [|? ? Hy Hl]. apply IH in Hl as [Hl Hx].
      apply Forall_app in Hy as [Hy Hyx]. inversion_clear Hyx.
      split; constructor; done.
    + intros [Hl Hx]. inversion_clear Hl. inversion_clear Hx. constructor.
      * apply Forall_app. split; [done|]. by constructor.
      * apply IH. done.
Qed.

Lemma pairwise_lookup {A} (R : A -> A -> Prop) l i j x y :
  ForallOrdPairs R l -> (i < j)%nat -> l !! i = Some x -> l !! j = Some y -> R x y.
Proof.
  intros H. revert i j. induction H as [|a l Ha Hl IH]; intros i j Hij Hi Hj; [done|].
  destruct j as [|j]; [lia|]. destruct i as [|i]; simpl in *.
  - injection Hi as ->. by eapply Forall_lookup_1 in Ha.
  - eapply IH; [|done|done]. lia.
Qed.

Lemma pairwise_perm {A} (R : A -> A -> Prop) (l k : list A) :
  (forall x y, R x y -> R y x) -> l ≡ₚ k -> ForallOrdPairs R l -> ForallOrdPairs R k.
Proof.
  intros Hsym Hp. induction Hp as [|x l k Hp IH|x y l|l k j _ IH1 _ IH2]; intros H; [done|..].
  - inversion_clear H. constructor; [by rewrite <- Hp|auto].
  - inversion_clear H as [|? ? Hy H']. inversion_clear H' as [|? ? Hx Hl].
    inversion_clear Hy. constructor; [constructor; auto|by constructor].
  - auto.
Qed.

(** ** C arrays

    A C array is a list; [zget d a i] reads element [i] and [zset a i v] stores
    to it.  Outside the array a read gives the default [d] and a store does
    nothing: every theorem about an operation establishes the bound itself. *)

Definition zget {A} (d : A) (a : list A) (i : Z) : A := default d (a !! Z.to_nat i).
Definition zset {A} (a : list A) (i : Z) (v : A) : list A := <[Z.to_nat i := v]> a.

Lemma zset_length {A} (a : list A) i v : length (zset a i v) = length a.
Proof. apply length_insert. Qed.

Lemma zget_zset_eq {A} (d : A) a i v :
  0 <= i < Z.of_nat (length a) -> zget d (zset a i v) i = v.
Proof. intros. unfold zget, zset. rewrite list_lookup_insert_eq by lia. done. Qed.

Lemma zget_zset_ne {A} (d : A) a i j v :
  0 <= i -> 0 <= j -> i <> j -> zget d (zset a i v) j = zget d a j.
Proof. intros. unfold zget, zset. rewrite list_lookup_insert_ne by lia. done. Qed.

Lemma zget_lookup {A} (d : A) a i :
  0 <= i < Z.of_nat (length a) -> a !! Z.to_nat i = Some (zget d a i).
Proof.
  intros. unfold zget.
  destruct (a !! Z.to_nat i) eqn:E; [done|]. apply lookup_ge_None in E. lia.
Qed.

Lemma zget_Forall {A} (P : A -> Prop) d a i :
  Forall P a -> 0 <= i < Z.of_nat (length a) -> P (zget d a i).
Proof.
  intros HF Hi. eapply Forall_lookup_1; [exact HF|]. by apply zget_lookup.
Qed.

Lemma zset_Forall {A} (P : A -> Prop) a i v :
  Forall P a -> P v -> Forall P (zset a i v).
Proof. intros. unfold zset. by apply Forall_insert. Qed.

Lemma zset_zget {A} (d : A) a i : zset a i (zget d a i) = a.
Proof.
  unfold zset, zget. destruct (a !! Z.to_nat i) eqn:E; simpl.
  - by apply list_insert_id.
  - apply list_insert_ge. by apply lookup_ge_None.
Qed.

Lemma zset_zset {A} (a : list A) i v w : zset (zset a i v) i w = zset a i w.
Proof. apply list_insert_insert_eq. Qed.

(** A fixed array filled from the front: appending is a store at its length. *)
(** The first [n] elements, read one by one. *)
Lemma zget_prefix {A} (d : A) (l : list A) n :
  n <= Z.of_nat (length l) -> map (fun i => zget d l i) (zrange 0 (Z.to_nat n)) = take (Z.to_nat n) l.
Proof.
  intros Hn. apply list_eq. intros k. destruct (decide (k < Z.to_nat n)%nat) as [Hk|Hk].
  - rewrite list_lookup_fmap, zrange_lookup, lookup_take_lt by done. simpl.
    rewrite <- (Nat2Z.id k) at 2. rewrite (zget_lookup d) by lia. done.
  - rewrite !lookup_ge_None_2; [done| |]; rewrite ?length_take, ?length_fmap, ?length_map, ?zrange_length; lia.
Qed.

Lemma zset_fill {A} (l : list A) n d v :
  (length l < n)%nat ->
  zset (l ++ replicate (n - length l) d) (Z.of_nat (length l)) v
  = (l ++ [v]) ++ replicate (n - length (l ++ [v])) d.
Proof.
  intros Hn. unfold zset. rewrite Nat2Z.id, insert_app_r_alt by lia. rewrite Nat.sub_diag.
  rewrite length_app. simpl length. replace (n - length l)%nat with (S (n - (length l + 1))) by lia.
  simpl. by rewrite <- app_assoc.
Qed.

Lemma zget_fill {A} (l : list A) n d d' i :
  0 <= i < Z.of_nat (length l) -> zget d (l ++ replicate n d') i = zget d l i.
Proof. intros Hi. unfold zget. rewrite lookup_app_l by lia. done. Qed.

#[export] Hint Rewrite @zset_length : arrays.
#[export] Hint Rewrite @zget_zset_eq @zget_zset_ne using (autorewrite with arrays in *; lia) : arrays.
Ltac arrays := autorewrite with arrays.

(** ** Words: wrap-around lemmas *)

#[global] Arguments u8 : simpl never.
#[global] Arguments u16 : simpl never.
#[global] Arguments u32 : simpl never.
#[global] Arguments u64 : simpl never.
#[global] Arguments zget : simpl never.
#[global] Arguments zset : simpl never.
#[global] Arguments for_range : simpl never.
#[global] Arguments zfind : simpl never.
#[global] Arguments zall : simpl never.
#[global] Arguments zcount : simpl never.

Lemma u64_id x : 0 <= x <= UINT64_MAX -> u64 x = x.
Proof. unfold u64, UINT64_MAX. intros. apply Z.mod_small. lia. Qed.
Lemma u32_id x : 0 <= x <= UINT32_MAX -> u32 x = x.
Proof. unfold u32, UINT32_MAX. intros. apply Z.mod_small. lia. Qed.
Lemma u16_id x : 0 <= x < 65536 -> u16 x = x.
Proof. unfold u16. intros. apply Z.mod_small. lia. Qed.
Lemma u8_id x : 0 <= x < 256 -> u8 x = x.
Proof. unfold u8. intros. apply Z.mod_small. lia. Qed.
Lemma u64_range x : 0 <= u64 x <= UINT64_MAX.
Proof. unfold u64, UINT64_MAX. pose proof (Z.mod_pos_bound x 18446744073709551616). lia. Qed.
Lemma u32_range x : 0 <= u32 x <= UINT32_MAX.
Proof. unfold u32, UINT32_MAX. pose proof (Z.mod_pos_bound x 4294967296). lia. Qed.
Lemma u32_nonneg x : 0 <= u32 x.
Proof. apply u32_range. Qed.
Lemma u16_range x : 0 <= u16 x < 65536.
Proof. unfold u16. apply Z.mod_pos_bound. lia. Qed.
Lemma u8_range x : 0 <= u8 x < 256.
Proof. unfold u8. apply Z.mod_pos_bound. lia. Qed.

#[export] Hint Rewrite u64_id u32_id u16_id u8_id using (unfold UINT64_MAX, UINT32_MAX in *; lia) : words.
Ltac words := autorewrite with words.
Tactic Notation "words" "in" hyp(H) := autorewrite with words in H.

(** Masks and shifts as arithmetic. *)
Lemma land_ones_mod x k : 0 <= k -> x & (2 ^ k - 1) = x mod 2 ^ k.
Proof. intros. rewrite <- Z.land_ones by lia. by rewrite Z.ones_equiv. Qed.

(** The C test of one bit, [seen & (1u << id)]. *)
Lemma nz_land_bit seen id : 0 <= id -> nz (seen & (1 << id)) = Z.testbit seen id.
Proof.
  intros Hid. unfold nz. rewrite Z.shiftl_1_l. destruct (Z.testbit seen id) eqn:E.
  - apply negb_true_iff, Z.eqb_neq. intros H0. assert (Z.testbit (seen & 2 ^ id) id = false) as Hb by (rewrite H0; apply Z.bits_0).
    by rewrite Z.land_spec, E, Z.pow2_bits_true in Hb.
  - apply negb_false_iff, Z.eqb_eq. apply Z.bits_inj'. intros n Hn. rewrite Z.land_spec, Z.bits_0, Z.pow2_bits_eqb by done.
    destruct (Z.eqb_spec id n) as [<-|]; [by rewrite E|apply andb_false_r].
Qed.

(** A mask of the bits [k, w), such as [~(uint64_t)(PAGE_SIZE - 1)]. *)
Lemma land_field x k w :
  0 <= k <= w -> x & (2 ^ w - 2 ^ k) = x mod 2 ^ w / 2 ^ k * 2 ^ k.
Proof.
  intros Hk. replace (2 ^ w - 2 ^ k) with (Z.ones (w - k) << k).
  2: { rewrite Z.shiftl_mul_pow2, Z.ones_equiv, Z.mul_pred_l, <- Z.pow_add_r by lia.
       replace (w - k + k) with w by lia. done. }
  rewrite <- Z.shiftl_mul_pow2, <- Z.shiftr_div_pow2 by lia.
  apply Z.bits_inj'. intros n Hn. rewrite Z.land_spec, !Z.shiftl_spec by lia.
  destruct (Z.lt_ge_cases n k).
  - rewrite !(Z.testbit_neg_r _ (n - k)) by lia. apply andb_false_r.
  - rewrite Z.shiftr_spec, Z.testbit_ones by lia. replace (n - k + k) with n by lia.
    destruct (Z.lt_ge_cases n w).
    + rewrite Z.mod_pow2_bits_low by lia. destruct (Z.leb_spec 0 (n - k)), (Z.ltb_spec (n - k) (w - k));
        try lia. apply andb_true_r.
    + rewrite Z.mod_pow2_bits_high by lia. destruct (Z.ltb_spec (n - k) (w - k)); [lia|].
      by rewrite !andb_false_r.
Qed.

Lemma lor_add_disjoint a b k :
  0 <= k -> 0 <= a < 2 ^ k -> Z.lor (b << k) a = b * 2 ^ k + a.
Proof.
  intros Hk Ha. rewrite <- Z.shiftl_mul_pow2 by lia.
  assert (Z.land (b << k) a = 0) as H0.
  { apply Z.bits_inj'. intros n Hn. rewrite Z.land_spec, Z.bits_0.
    destruct (Z.lt_ge_cases n k).
    - rewrite Z.shiftl_spec_low by lia. done.
    - rewrite <- (Z.mod_small a (2 ^ k)) by lia.
      rewrite Z.mod_pow2_bits_high by lia. apply andb_false_r. }
  rewrite Z.add_nocarry_lxor by done. by rewrite Z.lxor_lor.
Qed.

Lemma lxor_range a b k : 0 <= k -> 0 <= a < 2 ^ k -> 0 <= b < 2 ^ k -> 0 <= Z.lxor a b < 2 ^ k.
Proof.
  intros Hk Ha Hb. split; [apply Z.lxor_nonneg; lia|].
  destruct (Z.eq_dec (Z.lxor a b) 0) as [->|Hne]; [apply Z.pow_pos_nonneg; lia|].
  assert (0 < Z.lxor a b) by (pose proof (Z.lxor_nonneg a b); lia).
  apply Z.log2_lt_pow2; [done|].
  pose proof (Z.log2_lxor a b ltac:(lia) ltac:(lia)) as Hl.
  eapply Z.le_lt_trans; [exact Hl|].
  destruct (Z.eq_dec k 0) as [->|]; [assert (a = 0) as -> by lia; assert (b = 0) as -> by lia; done|].
  apply Z.max_lub_lt.
  - destruct (Z.eq_dec a 0) as [->|]; [simpl; lia|apply Z.log2_lt_pow2; lia].
  - destruct (Z.eq_dec b 0) as [->|]; [simpl; lia|apply Z.log2_lt_pow2; lia].
Qed.

(** ** Generation counters

    A slot's 32-bit generation advances when the slot is freed and skips zero:
    [uint32_t next = generation + 1u; if (!next) next = 1u;]. *)

Definition next_generation (generation : Z) : Z :=
  let next := u32 (generation + 1) in if nz next then next else 1.
#[global] Arguments next_generation : simpl never.

Lemma next_generation_range g : 1 <= next_generation g <= UINT32_MAX.
Proof.
  unfold next_generation. pose proof (u32_range (g + 1)).
  case_if; b2p; unfold UINT32_MAX in *; lia.
Qed.

(** [gen_after n g]: generation [g] advanced [n] times.  Generations run
    through 1 .. 2^32-1 cyclically. *)
Fixpoint gen_after (n : nat) (g : Z) : Z :=
  match n with O => g | S n' => next_generation (gen_after n' g) end.

Lemma gen_after_eq n g :
  1 <= g <= UINT32_MAX -> gen_after n g = (g - 1 + Z.of_nat n) mod UINT32_MAX + 1.
Proof.
  intros Hg. induction n as [|n IH]; simpl gen_after.
  - rewrite Z.mod_small by lia. lia.
  - rewrite IH. unfold next_generation, u32, nz, UINT32_MAX in *.
    replace (g - 1 + Z.of_nat (S n)) with ((g - 1 + Z.of_nat n) + 1) by lia.
    pose proof (Z.mod_pos_bound (g - 1 + Z.of_nat n) 4294967295 ltac:(lia)).
    rewrite (Zplus_mod (g - 1 + Z.of_nat n) 1).
    set (x := (g - 1 + Z.of_nat n) mod 4294967295) in *.
    rewrite (Z.mod_small 1 4294967295) by lia.
    destruct (Z.eq_dec x 4294967294) as [->|]; [done|].
    rewrite !Z.mod_small by lia. destruct (Z.eqb_spec (x + 1 + 1) 0); simpl; lia.
Qed.

Lemma gen_after_fresh n g :
  1 <= g <= UINT32_MAX -> (0 < n)%nat -> Z.of_nat n < UINT32_MAX -> gen_after n g <> g.
Proof.
  intros Hg Hn Hlt Heq. rewrite gen_after_eq in Heq by done. unfold UINT32_MAX in *.
  Z.to_euclidean_division_equations. nia.
Qed.

Lemma gen_after_plus a b g : gen_after a (gen_after b g) = gen_after (a + b) g.
Proof. induction a; simpl; congruence. Qed.
