(* ===== verification/Memory.v ===== *)
(** * Physical memory and the freestanding memory routines (src/memory.c)

    The kernel runs identity mapped: a pointer is a physical address.  Memory
    is a finite map from addresses to bytes, with little-endian loads and
    stores of any width; an address never written reads as an unspecified
    constant (0). *)

From stdpp Require Import base list gmap numbers.
From Stdlib Require Import ZArith Lia.
From S2P Require Import Prelude.

Open Scope Z_scope.

(** ** Bytes and words *)

Definition mem : Type := gmap Z Z.

Definition mem_get (m : mem) (a : Z) : Z := u8 (default 0 ((m : gmap Z Z) !! a)).
Definition mem_set (m : mem) (a v : Z) : mem := <[a := u8 v]> (m : gmap Z Z).

(** [le_read get a n]: the [n] bytes from [a], little endian. *)
Fixpoint le_read (get : Z -> Z) (a : Z) (n : nat) : Z :=
  match n with
  | O => 0
  | S n' => get a + 256 * le_read get (a + 1) n'
  end.

(** The [n] little-endian bytes of [v]. *)
Fixpoint le_bytes (n : nat) (v : Z) : list Z :=
  match n with O => [] | S n' => v mod 256 :: le_bytes n' (v / 256) end.

Definition mem_load (n : nat) (m : mem) (a : Z) : Z := le_read (mem_get m) a n.

Fixpoint mem_store (n : nat) (m : mem) (a v : Z) : mem :=
  match n with
  | O => m
  | S n' => mem_store n' (mem_set m a v) (a + 1) (v / 256)
  end.

Abbreviation load64 := (mem_load 8).
Abbreviation load32 := (mem_load 4).
Abbreviation store64 := (mem_store 8).
Abbreviation store32 := (mem_store 4).

(** ** src/memory.c *)

Definition memset (m : mem) (destination value count : Z) : mem :=
  for_range 0 count (fun i m => mem_set m (destination + i) (u8 value)) m.

Definition memcpy (m : mem) (destination source count : Z) : mem :=
  for_range 0 count (fun i m => mem_set m (destination + i) (mem_get m (source + i))) m.

(** [while (count) { --count; output[count] = input[count]; }] *)
Fixpoint copy_down (m : mem) (output input : Z) (count : nat) : mem :=
  match count with
  | O => m
  | S c => copy_down (mem_set m (output + Z.of_nat c) (mem_get m (input + Z.of_nat c)))
             output input c
  end.

Definition memmove (m : mem) (destination source count : Z) : mem :=
  if destination <? source then
    for_range 0 count (fun i m => mem_set m (destination + i) (mem_get m (source + i))) m
  else if source <? destination then copy_down m destination source (Z.to_nat count)
  else m.

Fixpoint memcmp_from (m : mem) (first second : Z) (n : nat) : Z :=
  match n with
  | O => 0
  | S n' =>
      if mem_get m first <? mem_get m second then -1
      else if mem_get m second <? mem_get m first then 1
      else memcmp_from m (first + 1) (second + 1) n'
  end.
Definition memcmp (m : mem) (left right count : Z) : Z := memcmp_from m left right (Z.to_nat count).

(** ** Laws of loads and stores *)

Lemma mem_get_range m a : 0 <= mem_get m a < 256.
Proof. apply u8_range. Qed.

Lemma mem_get_set_eq m a v : mem_get (mem_set m a v) a = u8 v.
Proof. unfold mem_get, mem_set. rewrite lookup_insert_eq. simpl. apply u8_id, u8_range. Qed.

Lemma mem_get_set_ne m a b v : a <> b -> mem_get (mem_set m a v) b = mem_get m b.
Proof. intros. unfold mem_get, mem_set. by rewrite lookup_insert_ne. Qed.

Lemma mem_get_set m a b v :
  mem_get (mem_set m a v) b = if a =? b then u8 v else mem_get m b.
Proof.
  destruct (Z.eqb_spec a b) as [->|]; [apply mem_get_set_eq|by apply mem_get_set_ne].
Qed.

Lemma le_read_ext f g a n :
  (forall i, a <= i < a + Z.of_nat n -> f i = g i) -> le_read f a n = le_read g a n.
Proof.
  revert a. induction n as [|n IH]; intros a H; [done|]. cbn [le_read].
  rewrite H by lia. rewrite (IH (a + 1)) by (intros; apply H; lia). done.
Qed.

Lemma le_read_bound f a n :
  (forall i, 0 <= f i < 256) -> 0 <= le_read f a n < 256 ^ Z.of_nat n.
Proof.
  intros Hf. revert a. induction n as [|n IH]; intros a; [done|]. cbn [le_read].
  specialize (IH (a + 1)). specialize (Hf a).
  replace (Z.of_nat (S n)) with (Z.of_nat n + 1) by lia. rewrite Z.pow_add_r by lia. lia.
Qed.

Lemma mem_load_bound n m a : 0 <= mem_load n m a < 256 ^ Z.of_nat n.
Proof. apply le_read_bound. intros. apply mem_get_range. Qed.

Lemma mem_get_store_ne n m a v b :
  b < a \/ a + Z.of_nat n <= b -> mem_get (mem_store n m a v) b = mem_get m b.
Proof.
  revert m a v. induction n as [|n IH]; intros m a v H; [done|]. cbn [mem_store].
  rewrite IH by lia. apply mem_get_set_ne. lia.
Qed.

Lemma mem_get_store_ext n m m' a v x :
  mem_get m x = mem_get m' x -> mem_get (mem_store n m a v) x = mem_get (mem_store n m' a v) x.
Proof.
  revert m m' a v. induction n as [|n IH]; intros m m' a v H; [done|]. cbn [mem_store].
  apply IH. rewrite !mem_get_set. by rewrite H.
Qed.

Lemma mem_load_store_ne k n m a b v :
  a + Z.of_nat k <= b \/ b + Z.of_nat n <= a ->
  mem_load k (mem_store n m b v) a = mem_load k m a.
Proof. intros H. apply le_read_ext. intros i Hi. apply mem_get_store_ne. lia. Qed.

Lemma mem_load_set_ne k m a b v :
  a + Z.of_nat k <= b \/ b + 1 <= a -> mem_load k (mem_set m b v) a = mem_load k m a.
Proof. intros H. apply le_read_ext. intros i Hi. apply mem_get_set_ne. lia. Qed.

Lemma mem_load_store_eq n m a v :
  0 <= v < 256 ^ Z.of_nat n -> mem_load n (mem_store n m a v) a = v.
Proof.
  revert m a v. induction n as [|n IH]; intros m a v Hv.
  - simpl in *. unfold mem_load. simpl. lia.
  - cbn [mem_store]. unfold mem_load. cbn [le_read].
    rewrite mem_get_store_ne by lia. rewrite mem_get_set_eq.
    replace (Z.of_nat (S n)) with (Z.of_nat n + 1) in Hv by lia.
    rewrite Z.pow_add_r in Hv by lia.
    fold (mem_load n (mem_store n (mem_set m a v) (a + 1) (v / 256)) (a + 1)).
    rewrite IH.
    + unfold u8. pose proof (Z.div_mod v 256 ltac:(lia)). lia.
    + split; [apply Z.div_pos; lia|apply Z.div_lt_upper_bound; lia].
Qed.

Lemma load64_store64 m a v : 0 <= v <= UINT64_MAX -> load64 (store64 m a v) a = v.
Proof. intros H. apply mem_load_store_eq. change (256 ^ Z.of_nat 8) with (UINT64_MAX + 1). lia. Qed.
Lemma load32_store32 m a v : 0 <= v <= UINT32_MAX -> load32 (store32 m a v) a = v.
Proof. intros H. apply mem_load_store_eq. change (256 ^ Z.of_nat 4) with (UINT32_MAX + 1). lia. Qed.
Lemma load64_range m a : 0 <= load64 m a <= UINT64_MAX.
Proof. pose proof (mem_load_bound 8 m a) as H. change (256 ^ Z.of_nat 8) with (UINT64_MAX + 1) in H. lia. Qed.
Lemma load32_range m a : 0 <= load32 m a <= UINT32_MAX.
Proof. pose proof (mem_load_bound 4 m a) as H. change (256 ^ Z.of_nat 4) with (UINT32_MAX + 1) in H. lia. Qed.

#[global] Arguments mem_load : simpl never.
#[global] Arguments mem_store : simpl never.
#[global] Arguments mem_get : simpl never.
#[global] Arguments mem_set : simpl never.

(** Memory that was never written reads as zero. *)
Lemma load_empty n a : mem_load n ∅ a = 0.
Proof. unfold mem_load. revert a. induction n as [|n IH]; intros a; [done|]. simpl. rewrite IH. done. Qed.

(** ** What the copy loops do *)

Lemma memset_get m d v n a :
  0 <= n ->
  mem_get (memset m d v n) a = if (d <=? a) && (a <? d + n) then u8 v else mem_get m a.
Proof.
  intros Hn. unfold memset.
  set (body := fun _ _ => _).
  enough (forall b, mem_get (for_range 0 n body m) b
            = if (d <=? b) && (b <? d + n) then u8 v else mem_get m b) by done.
  apply (for_range_inv (fun i m' => forall b, mem_get m' b =
    if (d <=? b) && (b <? d + i) then u8 v else mem_get m b)); [lia| |].
  - intros b. destruct (_ && _)%bool eqn:E; [b2p; lia|done].
  - intros i m' Hi IH b. subst body. simpl. rewrite mem_get_set, IH.
    rewrite (u8_id (u8 v)) by apply u8_range.
    destruct (Z.eqb_spec (d + i) b).
    + destruct (_ && _)%bool eqn:E; [done|]. exfalso. lia.
    + destruct ((d <=? b) && (b <? d + i))%bool eqn:E1,
        ((d <=? b) && (b <? d + (i + 1)))%bool eqn:E2; try done; exfalso; lia.
Qed.

(** Copying upwards is right when the destination is below the source or the
    ranges do not overlap. *)
Lemma copy_up_get m d s n a :
  0 <= n -> d <= s \/ s + n <= d ->
  mem_get (for_range 0 n (fun i m => mem_set m (d + i) (mem_get m (s + i))) m) a
  = if (d <=? a) && (a <? d + n) then mem_get m (s + (a - d)) else mem_get m a.
Proof.
  intros Hn Hov. set (body := fun _ _ => _).
  enough (forall b, mem_get (for_range 0 n body m) b
            = if (d <=? b) && (b <? d + n) then mem_get m (s + (b - d)) else mem_get m b) by done.
  apply (for_range_inv (fun i m' => forall b, mem_get m' b =
    if (d <=? b) && (b <? d + i) then mem_get m (s + (b - d)) else mem_get m b)); [lia| |].
  - intros b. destruct (_ && _)%bool eqn:E; [b2p; lia|done].
  - intros i m' Hi IH b. subst body. simpl. rewrite mem_get_set, !IH.
    rewrite u8_id by (case_if; apply mem_get_range).
    destruct (Z.eqb_spec (d + i) b) as [<-|Hne].
    + assert (((d <=? s + i) && (s + i <? d + i))%bool = false) as -> by lia.
      assert (((d <=? d + i) && (d + i <? d + (i + 1)))%bool = true) as -> by lia.
      f_equal. lia.
    + destruct ((d <=? b) && (b <? d + i))%bool eqn:E1,
        ((d <=? b) && (b <? d + (i + 1)))%bool eqn:E2; try done; exfalso; lia.
Qed.

Lemma copy_down_get m d s n a :
  s <= d ->
  mem_get (copy_down m d s n) a
  = if (d <=? a) && (a <? d + Z.of_nat n) then mem_get m (s + (a - d)) else mem_get m a.
Proof.
  intros Hsd. revert m. induction n as [|n IH]; intros m; cbn [copy_down].
  - destruct (_ && _)%bool eqn:E; [b2p; lia|done].
  - replace (Z.of_nat (S n)) with (Z.of_nat n + 1) by lia. pose proof (Nat2Z.is_nonneg n) as Hn0. rewrite IH, !mem_get_set. rewrite !(u8_id (mem_get _ _)) by apply mem_get_range.
    destruct ((d <=? a) && (a <? d + Z.of_nat n))%bool eqn:E1.
    + destruct (Z.eqb_spec (d + Z.of_nat n) (s + (a - d))); [b2p; lia|].
      assert (((d <=? a) && (a <? d + (Z.of_nat n + 1)))%bool = true) as -> by (b2p; lia). done.
    + destruct (Z.eqb_spec (d + Z.of_nat n) a) as [<-|].
      * assert (((d <=? d + Z.of_nat n) && (d + Z.of_nat n <? d + (Z.of_nat n + 1)))%bool = true) as -> by (b2p; lia).
        f_equal. lia.
      * assert (((d <=? a) && (a <? d + (Z.of_nat n + 1)))%bool = false) as -> by (b2p; lia). done.
Qed.

(** [memmove] copies as if through a temporary buffer: whatever the overlap,
    every destination byte ends up with the byte its source address held before
    the call, and no other byte changes. *)
Theorem memmove_overlap_safe m d s n a :
  0 <= n ->
  mem_get (memmove m d s n) a
  = if (d <=? a) && (a <? d + n) then mem_get m (s + (a - d)) else mem_get m a.
Proof.
  intros Hn. unfold memmove. destruct (Z.ltb_spec d s); [by apply copy_up_get; [|lia]|].
  destruct (Z.ltb_spec s d).
  - rewrite copy_down_get by lia. by rewrite Z2Nat.id.
  - assert (s = d) as -> by lia. destruct (_ && _)%bool; [f_equal; lia|done].
Qed.

Lemma memmove_overlap_safe_witness :
  mem_get (memmove {[ 10 := 1; 11 := 2; 12 := 3 ]} 11 10 3) 13
  = if (11 <=? 13) && (13 <? 11 + 3) then mem_get {[ 10 := 1; 11 := 2; 12 := 3 ]} (10 + (13 - 11))
    else mem_get {[ 10 := 1; 11 := 2; 12 := 3 ]} 13.
Proof. apply (memmove_overlap_safe {[ 10 := 1; 11 := 2; 12 := 3 ]} 11 10 3 13). lia. Defined.
#[global] Arguments le_read : simpl never.
