(* ===== verification/Capability.v ===== *)
(** * Capability tables (src/capability.c, src/capability.h, src/capability_abi.h)

    A process owns a table of sixteen slots.  A slot is named from user space
    by a 64-bit handle that encodes a tag, the slot's generation, the object
    type and the slot number; revoking a slot advances its generation.  A
    nullable table pointer is an [option]. *)

From stdpp Require Import base list numbers.
From Stdlib Require Import ZArith Lia.
From S2P Require Import Prelude.

Open Scope Z_scope.

(** ** Data *)

(** [argus_capability_type_t].  The system call interface casts a register to
    this enumeration, so its values are integers with named constants. *)
Definition ARGUS_CAPABILITY_NONE : Z := 0.
Definition ARGUS_CAPABILITY_CLOCK : Z := 1.
Definition ARGUS_CAPABILITY_INPUT : Z := 2.
Definition ARGUS_CAPABILITY_SURFACE : Z := 3.
Definition ARGUS_CAPABILITY_IPC : Z := 4.
Definition ARGUS_CAPABILITY_ANONYMOUS_STREAM : Z := 5.
Definition ARGUS_CAPABILITY_RAW_NETWORK : Z := 6.

Definition ARGUS_CAP_RIGHT_READ : Z := 1.
Definition ARGUS_CAP_RIGHT_WRITE : Z := 2.
Definition ARGUS_CAP_RIGHT_WAIT : Z := 4.
Definition ARGUS_CAP_RIGHT_PRESENT : Z := 8.
Definition ARGUS_CAP_RIGHT_SEND : Z := 16.
Definition ARGUS_CAP_RIGHT_RECEIVE : Z := 32.
Definition ARGUS_CAP_RIGHT_CONNECT : Z := 64.

Definition ARGUS_CAPABILITY_MAX : Z := 16.
Definition CAPABILITY_HANDLE_TAG : Z := 0xA6C5.

Record argus_capability_entry_t := mk_entry {
  entry_object : Z;
  entry_generation : Z;
  entry_type : Z;
  entry_rights : Z }.

Definition entry0 : argus_capability_entry_t := mk_entry 0 0 0 0.

Record argus_capability_table_t := mk_table {
  principal : Z;
  entries : list argus_capability_entry_t }.

Definition table0 : argus_capability_table_t := mk_table 0 (replicate 16 entry0).

(** ** Operations *)

Definition allowed_rights (type : Z) : Z :=
  if type =? ARGUS_CAPABILITY_CLOCK then ARGUS_CAP_RIGHT_READ
  else if type =? ARGUS_CAPABILITY_INPUT then
    Z.lor ARGUS_CAP_RIGHT_READ ARGUS_CAP_RIGHT_WAIT
  else if type =? ARGUS_CAPABILITY_SURFACE then ARGUS_CAP_RIGHT_PRESENT
  else if type =? ARGUS_CAPABILITY_IPC then
    Z.lor ARGUS_CAP_RIGHT_SEND ARGUS_CAP_RIGHT_RECEIVE
  else if (type =? ARGUS_CAPABILITY_ANONYMOUS_STREAM)
          || (type =? ARGUS_CAPABILITY_RAW_NETWORK) then ARGUS_CAP_RIGHT_CONNECT
  else 0.

Definition initial_generation (principal slot : Z) : Z :=
  let mixed :=
    Z.lxor (Z.lxor (Z.lxor (u32 principal) (u32 (principal >> 32))) 0xA6C50001)
           (u32 (u32 (slot + 1) * 0x9E3779B9)) in
  if nz mixed then mixed else u32 (slot + 1).

Definition make_handle (slot : Z) (entry : argus_capability_entry_t) : Z :=
  Z.lor (Z.lor (Z.lor (CAPABILITY_HANDLE_TAG << 48) (entry_generation entry << 16))
               (entry_type entry << 8))
        (u32 (slot + 1)).

Definition set_entry (t : argus_capability_table_t) (slot : Z)
    (e : argus_capability_entry_t) : argus_capability_table_t :=
  mk_table (principal t) (zset (entries t) slot e).

Definition get_entry (t : argus_capability_table_t) (slot : Z) : argus_capability_entry_t :=
  zget entry0 (entries t) slot.

Definition capability_table_init (table : option argus_capability_table_t)
    (principal : Z) : option argus_capability_table_t :=
  match table with
  | None => None
  | Some _ =>
      Some (for_range 0 ARGUS_CAPABILITY_MAX
              (fun slot t =>
                 set_entry t slot
                   (mk_entry 0 (initial_generation principal slot) 0 0))
              (mk_table principal (replicate 16 entry0)))
  end.

Definition capability_grant (table : option argus_capability_table_t)
    (type rights object : Z) : Z * option argus_capability_table_t :=
  let valid := allowed_rights type in
  match table with
  | None => (0, None)
  | Some t =>
      if negb (nz (principal t)) || negb (nz valid) || negb (nz rights)
         || nz (rights & Z.lnot valid) then (0, Some t)
      else
        match zfind (fun slot => entry_type (get_entry t slot) =? ARGUS_CAPABILITY_NONE)
                    0 (Z.to_nat ARGUS_CAPABILITY_MAX) with
        | None => (0, Some t)
        | Some slot =>
            let entry := mk_entry object (entry_generation (get_entry t slot))
                                  (u16 type) rights in
            (make_handle slot entry, Some (set_entry t slot entry))
        end
  end.

(** The result is the out-parameter: [Some object] where the code returns 1. *)
Definition capability_resolve (table : option argus_capability_table_t)
    (handle type required_rights : Z) : option Z :=
  match table with
  | None => None
  | Some t =>
      if negb (nz handle) || negb (nz (principal t))
         || ((handle >> 48) !=? CAPABILITY_HANDLE_TAG) then None
      else
        let encoded_slot := u32 (handle & 0xFF) in
        if negb (nz encoded_slot) || (ARGUS_CAPABILITY_MAX <? encoded_slot) then None
        else
          let slot := encoded_slot - 1 in
          let entry := get_entry t slot in
          let generation := u32 ((handle >> 16) & 0xFFFFFFFF) in
          let encoded_type := u16 ((handle >> 8) & 0xFF) in
          if (entry_type entry !=? type) || (encoded_type !=? type)
             || (entry_generation entry !=? generation)
             || ((entry_rights entry & required_rights) !=? required_rights)
          then None
          else Some (entry_object entry)
  end.

Definition capability_find (table : option argus_capability_table_t)
    (type required_rights : Z) : Z :=
  match table with
  | None => 0
  | Some t =>
      if negb (nz (principal t)) then 0
      else
        match zfind (fun slot =>
                       (entry_type (get_entry t slot) =? type)
                       && ((entry_rights (get_entry t slot) & required_rights)
                             =? required_rights))
                    0 (Z.to_nat ARGUS_CAPABILITY_MAX) with
        | None => 0
        | Some slot => make_handle slot (get_entry t slot)
        end
  end.

Definition capability_revoke (table : option argus_capability_table_t)
    (handle : Z) : bool * option argus_capability_table_t :=
  match table with
  | None => (false, None)
  | Some t =>
      if negb (nz handle) || ((handle >> 48) !=? CAPABILITY_HANDLE_TAG)
      then (false, Some t)
      else
        let encoded_slot := u32 (handle & 0xFF) in
        if negb (nz encoded_slot) || (ARGUS_CAPABILITY_MAX <? encoded_slot)
        then (false, Some t)
        else
          let slot := encoded_slot - 1 in
          let entry := get_entry t slot in
          if (make_handle slot entry !=? handle)
             || (entry_type entry =? ARGUS_CAPABILITY_NONE)
          then (false, Some t)
          else
            (true, Some (set_entry t slot
                           (mk_entry 0 (next_generation (entry_generation entry)) 0 0)))
  end.

Definition capability_count_type (table : option argus_capability_table_t)
    (type : Z) : Z :=
  match table with
  | None => 0
  | Some t => zcount (fun slot => entry_type (get_entry t slot) =? type)
                     0 (Z.to_nat ARGUS_CAPABILITY_MAX)
  end.

Definition resolves (table : option argus_capability_table_t) (handle type rights : Z) : bool :=
  match capability_resolve table handle type rights with Some _ => true | None => false end.

Definition capability_self_test : bool :=
  let first := capability_table_init (Some table0) 11 in
  let second := capability_table_init (Some table0) 12 in
  let '(clock, first1) :=
    capability_grant first ARGUS_CAPABILITY_CLOCK ARGUS_CAP_RIGHT_READ 0x11223344 in
  let '(revoked, first2) := capability_revoke first1 clock in
  if negb (nz clock)
     || negb (match capability_resolve first1 clock ARGUS_CAPABILITY_CLOCK
                      ARGUS_CAP_RIGHT_READ with
              | Some object => object =? 0x11223344
              | None => false
              end)
     || resolves first1 clock ARGUS_CAPABILITY_CLOCK ARGUS_CAP_RIGHT_WRITE
     || resolves first1 (Z.lxor clock (1 << 20)) ARGUS_CAPABILITY_CLOCK
          ARGUS_CAP_RIGHT_READ
     || resolves second clock ARGUS_CAPABILITY_CLOCK ARGUS_CAP_RIGHT_READ
     || (capability_count_type first1 ARGUS_CAPABILITY_CLOCK !=? 1)
     || negb revoked
     || resolves first2 clock ARGUS_CAPABILITY_CLOCK ARGUS_CAP_RIGHT_READ
  then false
  else
    let '(replacement, first3) :=
      capability_grant first2 ARGUS_CAPABILITY_CLOCK ARGUS_CAP_RIGHT_READ 7 in
    nz replacement && (replacement !=? clock)
    && negb (nz (fst (capability_grant first3 ARGUS_CAPABILITY_RAW_NETWORK
                        ARGUS_CAP_RIGHT_READ 0))).

Example capability_self_test_passes : capability_self_test = true.
Proof. vm_compute. reflexivity. Qed.

#[global] Arguments capability_grant : simpl never.
#[global] Arguments capability_revoke : simpl never.
#[global] Arguments capability_resolve : simpl never.
#[global] Arguments capability_find : simpl never.
#[global] Arguments capability_count_type : simpl never.
#[global] Arguments make_handle : simpl never.
#[global] Arguments get_entry : simpl never.
#[global] Arguments set_entry : simpl never.

(** ** The table invariant *)

(** Rights are within what the type allows; an empty slot carries nothing; the
    generation is never zero. *)
Record entry_ok (e : argus_capability_entry_t) : Prop := {
  eo_generation : 1 <= entry_generation e <= UINT32_MAX;
  eo_type : 0 <= entry_type e <= 6;
  eo_rights_nonneg : 0 <= entry_rights e;
  eo_rights : entry_rights e & Z.lnot (allowed_rights (entry_type e)) = 0;
  eo_empty : entry_type e = ARGUS_CAPABILITY_NONE -> entry_object e = 0 }.

Definition table_ok (t : argus_capability_table_t) : Prop :=
  length (entries t) = 16%nat /\ Forall entry_ok (entries t).

Lemma get_entry_ok t slot : table_ok t -> 0 <= slot < 16 -> entry_ok (get_entry t slot).
Proof. intros [Hl HF] Hs. unfold get_entry. apply zget_Forall; [done|lia]. Qed.

Lemma set_entry_ok t slot e : table_ok t -> entry_ok e -> table_ok (set_entry t slot e).
Proof.
  intros [Hl HF] He. split; simpl; [by arrays|by apply zset_Forall].
Qed.

Lemma get_set_entry_eq t slot e :
  table_ok t -> 0 <= slot < 16 -> get_entry (set_entry t slot e) slot = e.
Proof. intros [Hl _] Hs. unfold get_entry, set_entry; simpl. apply zget_zset_eq. lia. Qed.

Lemma get_set_entry_ne t slot slot' e :
  0 <= slot -> 0 <= slot' -> slot <> slot' ->
  get_entry (set_entry t slot e) slot' = get_entry t slot'.
Proof. intros. unfold get_entry, set_entry; simpl. by apply zget_zset_ne. Qed.

Lemma allowed_rights_range type : 0 <= allowed_rights type < 128.
Proof. unfold allowed_rights. repeat case_if; vm_compute; intuition congruence. Qed.

Lemma allowed_rights_type type : allowed_rights type <> 0 -> 1 <= type <= 6.
Proof.
  unfold allowed_rights, ARGUS_CAPABILITY_CLOCK, ARGUS_CAPABILITY_INPUT,
    ARGUS_CAPABILITY_SURFACE, ARGUS_CAPABILITY_IPC,
    ARGUS_CAPABILITY_ANONYMOUS_STREAM, ARGUS_CAPABILITY_RAW_NETWORK.
  repeat case_if; b2p; lia.
Qed.

Lemma initial_generation_range p slot :
  0 <= slot < 16 -> 1 <= initial_generation p slot <= UINT32_MAX.
Proof.
  intros Hs. unfold initial_generation.
  set (m := Z.lxor _ _).
  assert (0 <= m < 2 ^ 32).
  { subst m. pose proof (u32_range p). pose proof (u32_range (p >> 32)).
    pose proof (u32_range (u32 (slot + 1) * 2654435769)). unfold UINT32_MAX in *.
    repeat (apply lxor_range; [lia| |]); lia. }
  case_if; b2p; unfold UINT32_MAX; [lia|]. words. lia.
Qed.

(** ** Handles *)

Lemma make_handle_eq slot e :
  0 <= slot < 16 -> 0 <= entry_generation e <= UINT32_MAX -> 0 <= entry_type e < 256 ->
  make_handle slot e =
    CAPABILITY_HANDLE_TAG * 2 ^ 48 + entry_generation e * 2 ^ 16
    + entry_type e * 2 ^ 8 + (slot + 1).
Proof.
  intros Hs Hg Ht. unfold make_handle, UINT32_MAX in *. words.
  assert (Z.lor (CAPABILITY_HANDLE_TAG << 48) (entry_generation e << 16)
          = (CAPABILITY_HANDLE_TAG * 2 ^ 32 + entry_generation e) << 16) as ->.
  { rewrite <- (lor_add_disjoint (entry_generation e) CAPABILITY_HANDLE_TAG 32) by lia.
    rewrite Z.shiftl_lor, Z.shiftl_shiftl by lia. done. }
  assert (forall x, Z.lor (x << 16) (entry_type e << 8) = (x * 2 ^ 8 + entry_type e) << 8) as ->.
  { intros x. rewrite <- (lor_add_disjoint (entry_type e) x 8) by lia.
    rewrite Z.shiftl_lor, Z.shiftl_shiftl by lia. done. }
  rewrite lor_add_disjoint by lia. lia.
Qed.

(** The four fields of a handle, as the decoders of the code compute them. *)
Definition handle_names (h slot : Z) (e : argus_capability_entry_t) : Prop :=
  h >> 48 = CAPABILITY_HANDLE_TAG /\ u32 (h & 0xFF) = slot + 1
  /\ u32 ((h >> 16) & 0xFFFFFFFF) = entry_generation e
  /\ u16 ((h >> 8) & 0xFF) = entry_type e.

Lemma handle_fields h :
  u32 (h & 0xFF) = h mod 2 ^ 8 /\ u32 ((h >> 16) & 0xFFFFFFFF) = (h / 2 ^ 16) mod 2 ^ 32
  /\ u16 ((h >> 8) & 0xFF) = (h / 2 ^ 8) mod 2 ^ 8 /\ h >> 48 = h / 2 ^ 48.
Proof.
  change 0xFF with (2 ^ 8 - 1). change 0xFFFFFFFF with (2 ^ 32 - 1).
  rewrite !land_ones_mod, !Z.shiftr_div_pow2 by lia.
  pose proof (Z.mod_pos_bound h (2 ^ 8) ltac:(lia)).
  pose proof (Z.mod_pos_bound (h / 2 ^ 16) (2 ^ 32) ltac:(lia)).
  pose proof (Z.mod_pos_bound (h / 2 ^ 8) (2 ^ 8) ltac:(lia)).
  rewrite u32_id, u32_id, u16_id by (unfold UINT32_MAX; lia). done.
Qed.

Lemma handle_names_iff h slot e :
  0 <= slot < 16 -> 0 <= entry_generation e <= UINT32_MAX -> 0 <= entry_type e < 256 ->
  handle_names h slot e <-> h = make_handle slot e.
Proof.
  intros Hs Hg Ht. rewrite make_handle_eq by done. unfold handle_names.
  destruct (handle_fields h) as (-> & -> & -> & ->).
  unfold UINT32_MAX, CAPABILITY_HANDLE_TAG in *.
  split.
  - intros (H1 & H2 & H3 & H4).
    Z.to_euclidean_division_equations. lia.
  - intros ->. Z.to_euclidean_division_equations. lia.
Qed.

Lemma make_handle_nonzero slot e :
  0 <= slot < 16 -> 0 <= entry_generation e <= UINT32_MAX -> 0 <= entry_type e < 256 ->
  0 < make_handle slot e <= UINT64_MAX.
Proof.
  intros. rewrite make_handle_eq by done.
  unfold UINT32_MAX, UINT64_MAX, CAPABILITY_HANDLE_TAG in *. lia.
Qed.

Lemma make_handle_inj slot e slot' e' :
  0 <= slot < 16 -> 0 <= slot' < 16 -> entry_ok e -> entry_ok e' ->
  make_handle slot e = make_handle slot' e' ->
  slot = slot' /\ entry_generation e = entry_generation e' /\ entry_type e = entry_type e'.
Proof.
  intros Hs Hs' [? ? _ _] [? ? _ _] Heq.
  rewrite !make_handle_eq in Heq by lia.
  unfold UINT32_MAX, CAPABILITY_HANDLE_TAG in *. lia.
Qed.

(** ** Resolution *)

Lemma resolve_char t h type r o :
  table_ok t -> principal t <> 0 ->
  capability_resolve (Some t) h type r = Some o <->
  exists slot, 0 <= slot < 16 /\ h = make_handle slot (get_entry t slot)
    /\ entry_type (get_entry t slot) = type
    /\ entry_rights (get_entry t slot) & r = r
    /\ o = entry_object (get_entry t slot).
Proof.
  intros Hok Hp. unfold capability_resolve, ARGUS_CAPABILITY_MAX. split.
  - intros H.
    destruct (negb (nz h) || _ || _) eqn:E1 in H; [done|].
    case_if_in H; [done|]. case_if_in H; [done|]. injection H as <-. b2p.
    pose proof (u32_range (h & 255)).
    set (slot := u32 (h & 255) - 1) in *.
    assert (0 <= slot < 16) as Hs by lia. exists slot.
    pose proof (get_entry_ok t slot Hok Hs) as [? ? _ _].
    repeat split; try lia.
    apply handle_names_iff; try lia.
    repeat split; unfold CAPABILITY_HANDLE_TAG in *; try lia.
  - intros (slot & Hs & Hh & Ht & Hr & ->).
    pose proof (get_entry_ok t slot Hok Hs) as [Hg Hty _ _].
    pose proof (make_handle_nonzero slot (get_entry t slot) Hs ltac:(lia) ltac:(lia)) as Hnz.
    rewrite <- Hh in Hnz.
    apply handle_names_iff in Hh as (H1 & H2 & H3 & H4); [|lia..].
    rewrite H1, H2, H3, H4.
    replace (slot + 1 - 1) with slot by lia. rewrite Ht, Hr.
    unfold nz. rewrite !Z.eqb_refl. simpl.
    destruct (Z.eqb_spec h 0); [lia|]. destruct (Z.eqb_spec (principal t) 0); [lia|].
    destruct (Z.eqb_spec (slot + 1) 0); [lia|]. destruct (Z.ltb_spec 16 (slot + 1)); [lia|].
    done.
Qed.

Lemma resolve_no_principal t h type r :
  principal t = 0 -> capability_resolve (Some t) h type r = None.
Proof.
  intros Hp. unfold capability_resolve.
  destruct (negb (nz h) || _ || _) eqn:E; [done|]. b2p. lia.
Qed.

(** ** Granting *)

Definition free_slot (t : argus_capability_table_t) : option Z :=
  zfind (fun slot => entry_type (get_entry t slot) =? ARGUS_CAPABILITY_NONE)
        0 (Z.to_nat ARGUS_CAPABILITY_MAX).

Definition grant_ok (t : argus_capability_table_t) (type rights : Z) : Prop :=
  principal t <> 0 /\ allowed_rights type <> 0 /\ rights <> 0
  /\ rights & Z.lnot (allowed_rights type) = 0.

Lemma grant_char t type rights object :
  capability_grant (Some t) type rights object =
    match decide (grant_ok t type rights), free_slot t with
    | left _, Some slot =>
        let e := mk_entry object (entry_generation (get_entry t slot)) type rights in
        (make_handle slot e, Some (set_entry t slot e))
    | _, _ => (0, Some t)
    end.
Proof.
  unfold capability_grant, grant_ok, free_slot, nz.
  destruct (decide _) as [(Hp & Ha & Hr & Hs)|Hn].
  - pose proof (allowed_rights_type type Ha).
    replace (u16 type) with type by (words; lia).
    rewrite Hs. apply Z.eqb_neq in Hp, Ha, Hr. rewrite Hp, Ha, Hr. done.
  - destruct (_ || _ || _ || _)%bool eqn:E; [done|]. b2p. exfalso. apply Hn. auto.
Qed.

Lemma free_slot_range t slot :
  free_slot t = Some slot ->
  0 <= slot < 16 /\ entry_type (get_entry t slot) = ARGUS_CAPABILITY_NONE.
Proof.
  unfold free_slot. intros (Hr & Hp & _)%zfind_Some. b2p.
  unfold ARGUS_CAPABILITY_MAX in *. split; [lia|done].
Qed.

Lemma granted_entry_ok t slot type rights object :
  table_ok t -> 0 <= slot < 16 -> 0 <= rights -> grant_ok t type rights ->
  entry_ok (mk_entry object (entry_generation (get_entry t slot)) type rights).
Proof.
  intros Hok Hs Hr (_ & Ha & _ & Hsub).
  pose proof (allowed_rights_type type Ha).
  pose proof (get_entry_ok t slot Hok Hs) as [? _ _ _ _].
  constructor; simpl; try lia. unfold ARGUS_CAPABILITY_NONE. lia.
Qed.

Lemma grant_preserves_ok t type rights object h t' :
  table_ok t -> 0 <= rights ->
  capability_grant (Some t) type rights object = (h, Some t') -> table_ok t'.
Proof.
  intros Hok Hr. rewrite grant_char.
  destruct (decide _) as [Hg|]; [|by intros [= <- <-]].
  destruct (free_slot t) as [slot|] eqn:Hf; [|by intros [= <- <-]].
  intros [= <- <-]. apply free_slot_range in Hf as [Hs _].
  apply set_entry_ok; [done|]. by apply granted_entry_ok.
Qed.

(** ** Revocation *)

Lemma revoke_char t h :
  table_ok t ->
  (exists slot, 0 <= slot < 16 /\ h = make_handle slot (get_entry t slot)
     /\ entry_type (get_entry t slot) <> ARGUS_CAPABILITY_NONE
     /\ capability_revoke (Some t) h =
          (true, Some (set_entry t slot
             (mk_entry 0 (next_generation (entry_generation (get_entry t slot))) 0 0))))
  \/ ((forall slot, 0 <= slot < 16 -> h = make_handle slot (get_entry t slot) ->
         entry_type (get_entry t slot) = ARGUS_CAPABILITY_NONE)
      /\ capability_revoke (Some t) h = (false, Some t)).
Proof.
  intros Hok.
  assert (forall slot, 0 <= slot < 16 -> h = make_handle slot (get_entry t slot) ->
    h <> 0 /\ h >> 48 = CAPABILITY_HANDLE_TAG /\ u32 (h & 255) = slot + 1) as Hdec.
  { intros slot Hs Hh. pose proof (get_entry_ok t slot Hok Hs) as [? ? _ _].
    pose proof (make_handle_nonzero slot (get_entry t slot) Hs ltac:(lia) ltac:(lia)).
    rewrite <- Hh in *. apply handle_names_iff in Hh as (H1 & H2 & _); lia. }
  unfold capability_revoke, nz, ARGUS_CAPABILITY_MAX.
  destruct (negb (negb (h =? 0)) || _)%bool eqn:E1.
  { right. split; [|done]. intros slot Hs Hh. destruct (Hdec slot Hs Hh) as (? & ? & ?).
    b2p. destruct E1; b2p; lia. }
  destruct (negb (negb (u32 (h & 255) =? 0)) || _)%bool eqn:E2.
  { right. split; [|done]. intros slot Hs Hh. destruct (Hdec slot Hs Hh) as (? & ? & ?).
    b2p. destruct E2; b2p; lia. }
  b2p. pose proof (u32_range (h & 255)). set (slot := u32 (h & 255) - 1) in *.
  destruct (negb (make_handle slot (get_entry t slot) =? h) || _)%bool eqn:E3.
  - right. split; [|done]. intros slot' Hs Hh. destruct (Hdec slot' Hs Hh) as (? & ? & ?).
    assert (slot = slot') as Hss by lia. rewrite <- Hss in *.
    b2p. destruct E3; b2p; congruence.
  - left. b2p. exists slot. repeat split; try lia; done.
Qed.

Lemma revoked_entry_ok g : entry_ok (mk_entry 0 (next_generation g) 0 0).
Proof. pose proof (next_generation_range g). constructor; simpl; try lia; done. Qed.

Lemma revoke_preserves_ok t h b t' :
  table_ok t -> capability_revoke (Some t) h = (b, Some t') -> table_ok t'.
Proof.
  intros Hok. destruct (revoke_char t h Hok) as [(slot & Hs & _ & _ & ->)|[_ ->]].
  - intros [= <- <-]. apply set_entry_ok; [done|apply revoked_entry_ok].
  - by intros [= <- <-].
Qed.

Lemma cap_init_char t0 p t :
  capability_table_init (Some t0) p = Some t ->
  principal t = p /\ length (entries t) = 16%nat /\
  forall slot, 0 <= slot < 16 -> get_entry t slot = mk_entry 0 (initial_generation p slot) 0 0.
Proof.
  simpl. intros [= <-]. unfold ARGUS_CAPABILITY_MAX.
  set (body := fun _ _ => _).
  destruct (for_range_inv (fun i s => principal s = p /\ length (entries s) = 16%nat /\
    forall slot, 0 <= slot < i -> get_entry s slot = mk_entry 0 (initial_generation p slot) 0 0)
    0 16 body (mk_table p (replicate 16 entry0))) as (? & ? & ?); [lia|by repeat split; intros; lia|..|done].
  intros i s Hi (Hp & Hl & He). subst body. simpl. arrays. repeat split; auto.
  intros slot Hslot. destruct (decide (slot = i)) as [->|].
  - unfold get_entry, set_entry; simpl. arrays. done.
  - rewrite get_set_entry_ne by lia. apply He. lia.
Qed.

Lemma cap_init_ok t0 p t : capability_table_init (Some t0) p = Some t -> table_ok t.
Proof.
  intros (Hp & Hl & He)%cap_init_char. split; [done|].
  apply Forall_lookup. intros i e Hi. pose proof (lookup_lt_Some _ _ _ Hi).
  specialize (He (Z.of_nat i) ltac:(lia)). unfold get_entry, zget in He.
  rewrite Nat2Z.id, Hi in He. simpl in He. subst e.
  pose proof (initial_generation_range p (Z.of_nat i) ltac:(lia)).
  constructor; simpl; try lia; done.
Qed.

(** ** Histories of a table *)

Inductive cap_op :=
  | OpGrant (type rights object : Z)
  | OpRevoke (handle : Z).

Definition cap_op_wf (op : cap_op) : Prop :=
  match op with OpGrant _ rights _ => 0 <= rights < 65536 | OpRevoke _ => True end.

Definition cap_exec (t : argus_capability_table_t) (op : cap_op) : argus_capability_table_t :=
  match op with
  | OpGrant type rights object => default t (snd (capability_grant (Some t) type rights object))
  | OpRevoke handle => default t (snd (capability_revoke (Some t) handle))
  end.

Definition cap_run (ops : list cap_op) (t : argus_capability_table_t) : argus_capability_table_t :=
  fold_left cap_exec ops t.

Lemma cap_exec_ok t op : table_ok t -> cap_op_wf op -> table_ok (cap_exec t op).
Proof.
  intros Hok Hwf. destruct op as [ty r o|h]; simpl in *.
  - destruct (capability_grant (Some t) ty r o) as [h t'] eqn:E; simpl.
    destruct t' as [t'|]; simpl; [|done]. eapply grant_preserves_ok; [done| |done]. lia.
  - destruct (capability_revoke (Some t) h) as [b t'] eqn:E; simpl.
    destruct t' as [t'|]; simpl; [|done]. by eapply revoke_preserves_ok.
Qed.

Lemma cap_run_ok ops t : table_ok t -> Forall cap_op_wf ops -> table_ok (cap_run ops t).
Proof.
  intros Hok HF. revert t Hok. induction HF as [|op ops Hwf _ IH]; intros t Hok; [done|].
  apply IH. by apply cap_exec_ok.
Qed.

Lemma cap_exec_generation t op slot :
  table_ok t -> 0 <= slot < 16 ->
  exists n, (n <= 1)%nat /\
    entry_generation (get_entry (cap_exec t op) slot)
    = gen_after n (entry_generation (get_entry t slot)).
Proof.
  intros Hok Hs. destruct op as [ty r o|h]; simpl.
  - rewrite grant_char. exists 0%nat. split; [lia|]. simpl.
    destruct (decide _); simpl; [|done]. destruct (free_slot t) as [s|] eqn:Hf; simpl; [|done].
    apply free_slot_range in Hf as [Hr _].
    destruct (decide (s = slot)) as [->|].
    + by rewrite get_set_entry_eq.
    + by rewrite get_set_entry_ne by lia.
  - destruct (revoke_char t h Hok) as [(s & Hr & _ & _ & ->)|[_ ->]]; simpl.
    + destruct (decide (s = slot)) as [->|].
      * exists 1%nat. split; [lia|]. by rewrite get_set_entry_eq.
      * exists 0%nat. split; [lia|]. by rewrite get_set_entry_ne by lia.
    + exists 0%nat. split; [lia|done].
Qed.

Lemma cap_run_generation ops t slot :
  table_ok t -> Forall cap_op_wf ops -> 0 <= slot < 16 ->
  exists n, (n <= length ops)%nat /\
    entry_generation (get_entry (cap_run ops t) slot)
    = gen_after n (entry_generation (get_entry t slot)).
Proof.
  intros Hok HF Hs. revert t Hok. induction HF as [|op ops Hwf _ IH]; intros t Hok; simpl.
  - exists 0%nat. split; [lia|done].
  - destruct (cap_exec_generation t op slot Hok Hs) as (a & Ha & HA).
    destruct (IH (cap_exec t op)) as (b & Hb & HB); [by apply cap_exec_ok|].
    exists (b + a)%nat. split; [lia|]. unfold cap_run in *. simpl.
    by rewrite HB, HA, gen_after_plus.
Qed.

(** ** Properties *)

(** A handle resolves exactly when it is the handle of a slot that holds
    the requested type with at least the requested rights, and then it yields
    the object stored in that slot; no other 64-bit value resolves. *)
Theorem capability_resolve_exact t h type r o :
  table_ok t -> principal t <> 0 ->
  capability_resolve (Some t) h type r = Some o <->
  exists slot, 0 <= slot < 16 /\ h = make_handle slot (get_entry t slot)
    /\ entry_type (get_entry t slot) = type
    /\ entry_rights (get_entry t slot) & r = r
    /\ o = entry_object (get_entry t slot).
Proof. apply resolve_char. Qed.

(** A successful grant returns a nonzero handle that resolves, with any
    subset of the granted rights, to the granted object, and leaves every
    handle that resolved before with the same meaning. *)
Theorem capability_grant_resolve t type rights object h t' :
  table_ok t -> 0 <= rights ->
  capability_grant (Some t) type rights object = (h, Some t') -> h <> 0 ->
  (forall r, rights & r = r -> capability_resolve (Some t') h type r = Some object)
  /\ (forall h0 ty r o, ty <> ARGUS_CAPABILITY_NONE ->
        capability_resolve (Some t) h0 ty r = Some o ->
        capability_resolve (Some t') h0 ty r = Some o).
Proof.
  intros Hok Hr0 Hg Hh. pose proof (grant_preserves_ok _ _ _ _ _ _ Hok Hr0 Hg) as Hok'.
  rewrite grant_char in Hg.
  destruct (decide _) as [Hgo|]; [|by injection Hg as <- <-].
  destruct (free_slot t) as [slot|] eqn:Hf; [|by injection Hg as <- <-].
  injection Hg as <- <-. apply free_slot_range in Hf as [Hs Hfree].
  destruct Hgo as (Hp & _). split.
  - intros r Hr. apply resolve_char; [done|done|]. exists slot.
    rewrite get_set_entry_eq by done. done.
  - intros h0 ty r o Hty (s & Hs' & -> & Ht & Hrr & ->)%resolve_char; [|done|done].
    apply resolve_char; [done|done|]. exists s.
    rewrite get_set_entry_ne by (try lia; intros ->; congruence). done.
Qed.

(** A grant fails (returns 0 and changes nothing) exactly when the table
    has no principal, the type takes no rights, the rights are empty or exceed
    what the type allows, or all sixteen slots are taken. *)
Theorem capability_grant_fails t type rights object :
  table_ok t -> 0 <= rights ->
  (fst (capability_grant (Some t) type rights object) = 0 <->
   principal t = 0 \/ allowed_rights type = 0 \/ rights = 0
   \/ rights & Z.lnot (allowed_rights type) <> 0
   \/ forall slot, 0 <= slot < 16 -> entry_type (get_entry t slot) <> ARGUS_CAPABILITY_NONE)
  /\ (fst (capability_grant (Some t) type rights object) = 0 ->
      snd (capability_grant (Some t) type rights object) = Some t).
Proof.
  intros Hok Hr. rewrite grant_char.
  destruct (decide _) as [Hg|Hn].
  - destruct (free_slot t) as [slot|] eqn:Hf; simpl.
    + apply free_slot_range in Hf as [Hs Hfree].
      pose proof (granted_entry_ok t slot type rights object Hok Hs Hr Hg) as [? ? _ _].
      pose proof (make_handle_nonzero slot (mk_entry object (entry_generation (get_entry t slot)) type rights) Hs) as Hnz.
      simpl in *. destruct Hg as (? & ? & ? & ?).
      split; [split|]; [lia| |lia].
      intros [?|[?|[?|[?|Hall]]]]; try done. exfalso. by apply (Hall slot Hs).
    + split; [|done]. split; [intros _|done]. do 4 right. intros slot Hs Hz.
      unfold free_slot in Hf. rewrite zfind_None in Hf. specialize (Hf slot).
      rewrite Hz in Hf. unfold ARGUS_CAPABILITY_MAX in Hf. specialize (Hf ltac:(lia)). done.
  - split; [|done]. split; [intros _|done]. unfold grant_ok in Hn.
    destruct (decide (principal t = 0)); [by auto|].
    destruct (decide (allowed_rights type = 0)); [by auto|].
    destruct (decide (rights = 0)); [by auto|].
    destruct (decide (rights & Z.lnot (allowed_rights type) = 0)); [|by auto 6].
    exfalso. auto.
Qed.

(** In every table reached from initialisation by any sequence of grants
    and revocations, each slot's rights stay within the rights its type allows
    and its generation is never zero. *)
Theorem capability_rights_confined t0 p t ops :
  capability_table_init (Some t0) p = Some t -> Forall cap_op_wf ops ->
  table_ok (cap_run ops t).
Proof. intros Hi HF. apply cap_run_ok; [|done]. by eapply cap_init_ok. Qed.

(** C9: once revoked, a handle no longer resolves, and it stays dead through
    any later sequence of fewer than 2^32 - 2 grants and revocations, even when
    its slot is reused. *)
Theorem capability_revoked_stays_dead t h t1 ops type r :
  table_ok t -> principal t <> 0 ->
  capability_revoke (Some t) h = (true, Some t1) ->
  Forall cap_op_wf ops -> Z.of_nat (length ops) < UINT32_MAX - 1 ->
  capability_resolve (Some (cap_run ops t1)) h type r = None.
Proof.
  intros Hok Hp Hrev HF Hlen.
  pose proof (revoke_preserves_ok _ _ _ _ Hok Hrev) as Hok1.
  pose proof (cap_run_ok ops t1 Hok1 HF) as Hok2.
  destruct (capability_resolve _ h type r) as [o|] eqn:E; [exfalso|done].
  destruct (decide (principal (cap_run ops t1) = 0)) as [H0|Hp2].
  { by rewrite resolve_no_principal in E. }
  apply resolve_char in E as (s & Hs & Hh & _); [|done..].
  destruct (revoke_char t h Hok) as [(slot & Hs0 & Hh0 & _ & Hr)|[_ Hr]];
    rewrite Hr in Hrev; [|done]. injection Hrev as <-.
  pose proof (get_entry_ok t slot Hok Hs0) as Hoke.
  pose proof (get_entry_ok _ s Hok2 Hs) as Hoke2.
  rewrite Hh0 in Hh. apply make_handle_inj in Hh as (<- & Hgen & _); [|done..].
  destruct (cap_run_generation ops _ slot Hok1 HF Hs0) as (n & Hn & HG).
  rewrite get_set_entry_eq in HG by done. simpl in HG.
  assert (gen_after n (next_generation (entry_generation (get_entry t slot)))
          = gen_after (S n) (entry_generation (get_entry t slot))) as Hshift.
  { replace (S n) with (n + 1)%nat by lia. by rewrite <- gen_after_plus. }
  apply (gen_after_fresh (S n) (entry_generation (get_entry t slot))); [|lia|lia|].
  - apply Hoke.
  - rewrite <- Hshift. lia.
Qed.

(** A lookup by type and rights returns a handle that resolves with those
    rights, and returns 0 only when no slot qualifies. *)
Theorem capability_find_sound_complete t type r :
  table_ok t -> principal t <> 0 ->
  (capability_find (Some t) type r <> 0 ->
     exists o, capability_resolve (Some t) (capability_find (Some t) type r) type r = Some o)
  /\ (capability_find (Some t) type r = 0 ->
      forall h o, capability_resolve (Some t) h type r <> Some o).
Proof.
  intros Hok Hp.
  assert (forall slot, 0 <= slot < 16 -> make_handle slot (get_entry t slot) <> 0) as Hnz.
  { intros slot Hs. pose proof (get_entry_ok t slot Hok Hs) as [? ? _ _].
    pose proof (make_handle_nonzero slot (get_entry t slot) Hs). lia. }
  unfold capability_find. destruct (negb (nz (principal t))) eqn:Hpb; [b2p; lia|]. clear Hpb.
  destruct (zfind _ _ _) as [slot|] eqn:Hf.
  - apply zfind_Some in Hf as (Hs & Hq & _). unfold ARGUS_CAPABILITY_MAX in Hs. b2p.
    split; [intros _|intros Hz; exfalso; apply (Hnz slot); [lia|done]].
    exists (entry_object (get_entry t slot)). apply resolve_char; [done|done|].
    exists slot. repeat split; try lia; done.
  - split; [done|]. intros _ h o (s & Hs & _ & Ht & Hr & _)%resolve_char; [|done|done].
    rewrite zfind_None in Hf. specialize (Hf s). unfold ARGUS_CAPABILITY_MAX in Hf.
    specialize (Hf ltac:(lia)). rewrite Ht, Hr, !Z.eqb_refl in Hf. done.
Qed.

(** ** Witnesses *)

(** The table and handle of the code's own self test. *)
Definition cap_sample_table : argus_capability_table_t :=
  default table0 (capability_table_init (Some table0) 11).
Definition cap_sample_grant : Z * option argus_capability_table_t :=
  capability_grant (Some cap_sample_table) ARGUS_CAPABILITY_CLOCK ARGUS_CAP_RIGHT_READ 0x11223344.
Definition cap_sample_handle : Z := fst cap_sample_grant.
Definition cap_sample_granted : argus_capability_table_t := default table0 (snd cap_sample_grant).
Definition cap_sample_revoked : argus_capability_table_t :=
  default table0 (snd (capability_revoke (Some cap_sample_granted) cap_sample_handle)).

Lemma cap_sample_table_ok : table_ok cap_sample_table.
Proof. by apply (cap_init_ok table0 11). Qed.
Lemma cap_sample_granted_ok : table_ok cap_sample_granted.
Proof.
  apply (grant_preserves_ok cap_sample_table ARGUS_CAPABILITY_CLOCK ARGUS_CAP_RIGHT_READ
           0x11223344 cap_sample_handle); [apply cap_sample_table_ok|done|vm_compute; reflexivity].
Qed.

Lemma capability_resolve_exact_witness :
  capability_resolve (Some cap_sample_granted) cap_sample_handle ARGUS_CAPABILITY_CLOCK
    ARGUS_CAP_RIGHT_READ = Some 0x11223344.
Proof.
  apply (capability_resolve_exact cap_sample_granted).
  - apply cap_sample_granted_ok.
  - vm_compute. discriminate.
  - exists 0. split; [lia|]. vm_compute. auto.
Defined.

Lemma capability_grant_resolve_witness :
  capability_resolve (Some cap_sample_granted) cap_sample_handle ARGUS_CAPABILITY_CLOCK
    ARGUS_CAP_RIGHT_READ = Some 0x11223344.
Proof.
  refine (proj1 (capability_grant_resolve cap_sample_table ARGUS_CAPABILITY_CLOCK
    ARGUS_CAP_RIGHT_READ 0x11223344 cap_sample_handle cap_sample_granted _ _ _ _) _ _);
    [apply cap_sample_table_ok|done|vm_compute; reflexivity|vm_compute; discriminate|reflexivity].
Defined.

Lemma capability_grant_fails_witness :
  fst (capability_grant (Some cap_sample_table) ARGUS_CAPABILITY_RAW_NETWORK
         ARGUS_CAP_RIGHT_READ 0) = 0.
Proof.
  apply (capability_grant_fails cap_sample_table ARGUS_CAPABILITY_RAW_NETWORK
           ARGUS_CAP_RIGHT_READ 0).
  - apply cap_sample_table_ok.
  - done.
  - do 3 right. left. vm_compute. discriminate.
Defined.

Lemma capability_rights_confined_witness :
  table_ok (cap_run [OpGrant ARGUS_CAPABILITY_CLOCK ARGUS_CAP_RIGHT_READ 7;
                     OpRevoke cap_sample_handle] cap_sample_table).
Proof.
  apply (capability_rights_confined table0 11 cap_sample_table).
  - reflexivity.
  - repeat constructor; simpl; unfold ARGUS_CAP_RIGHT_READ; lia.
Defined.

Lemma capability_revoked_stays_dead_witness :
  capability_resolve
    (Some (cap_run [OpGrant ARGUS_CAPABILITY_CLOCK ARGUS_CAP_RIGHT_READ 7] cap_sample_revoked))
    cap_sample_handle ARGUS_CAPABILITY_CLOCK ARGUS_CAP_RIGHT_READ = None.
Proof.
  apply (capability_revoked_stays_dead cap_sample_granted).
  - apply cap_sample_granted_ok.
  - vm_compute. discriminate.
  - vm_compute. reflexivity.
  - repeat constructor; simpl; unfold ARGUS_CAP_RIGHT_READ; lia.
  - done.
Defined.

Lemma capability_find_sound_complete_witness :
  exists o, capability_resolve (Some cap_sample_granted)
    (capability_find (Some cap_sample_granted) ARGUS_CAPABILITY_CLOCK ARGUS_CAP_RIGHT_READ)
    ARGUS_CAPABILITY_CLOCK ARGUS_CAP_RIGHT_READ = Some o.
Proof.
  apply (capability_find_sound_complete cap_sample_granted).
  - apply cap_sample_granted_ok.
  - vm_compute. discriminate.
  - vm_compute. discriminate.
Defined.
