(* ===== verification/Anonymity.v ===== *)
(** * Anonymity policy (src/anonymity.c, src/anonymity.h)

    The kernel keeps one word of state, the status of the anonymity transport;
    the operations thread it explicitly. *)

From stdpp Require Import base list numbers.
From Stdlib Require Import ZArith Lia.
From S2P Require Import Prelude Capability.

Open Scope Z_scope.

(** ** Data *)

(** [argus_security_role_t]; a zeroed process has role 0, which is none of them. *)
Definition ARGUS_SECURITY_ROLE_UTILITY : Z := 1.
Definition ARGUS_SECURITY_ROLE_BROWSER_UI : Z := 2.
Definition ARGUS_SECURITY_ROLE_RENDERER : Z := 3.
Definition ARGUS_SECURITY_ROLE_BROWSER_NETWORK : Z := 4.
Definition ARGUS_SECURITY_ROLE_TOR_TRANSPORT : Z := 5.

(** [argus_anonymity_transport_state_t] *)
Definition ARGUS_ANON_TRANSPORT_OFFLINE : Z := 0.
Definition ARGUS_ANON_TRANSPORT_BOOTSTRAPPING : Z := 1.
Definition ARGUS_ANON_TRANSPORT_READY : Z := 2.
Definition ARGUS_ANON_TRANSPORT_FAILED : Z := 3.

(** ** Operations *)

Definition anonymity_policy_init : Z := ARGUS_ANON_TRANSPORT_OFFLINE.

Definition anonymity_capability_allowed (role type rights : Z) : bool :=
  if rights !=? ARGUS_CAP_RIGHT_CONNECT then false
  else if type =? ARGUS_CAPABILITY_RAW_NETWORK then
    role =? ARGUS_SECURITY_ROLE_TOR_TRANSPORT
  else if type =? ARGUS_CAPABILITY_ANONYMOUS_STREAM then
    role =? ARGUS_SECURITY_ROLE_BROWSER_NETWORK
  else false.

(** Returns the C result and the new transport state. *)
Definition anonymity_transport_update (transport_state caller next_state authenticated : Z)
  : bool * Z :=
  if (caller !=? ARGUS_SECURITY_ROLE_TOR_TRANSPORT) || negb (nz authenticated)
     || (ARGUS_ANON_TRANSPORT_FAILED <? next_state)
  then (false, transport_state)
  else
    let valid :=
      ((transport_state =? ARGUS_ANON_TRANSPORT_OFFLINE)
         && (next_state =? ARGUS_ANON_TRANSPORT_BOOTSTRAPPING))
      || ((transport_state =? ARGUS_ANON_TRANSPORT_BOOTSTRAPPING)
            && ((next_state =? ARGUS_ANON_TRANSPORT_READY)
                || (next_state =? ARGUS_ANON_TRANSPORT_FAILED)
                || (next_state =? ARGUS_ANON_TRANSPORT_OFFLINE)))
      || ((transport_state =? ARGUS_ANON_TRANSPORT_READY)
            && ((next_state =? ARGUS_ANON_TRANSPORT_FAILED)
                || (next_state =? ARGUS_ANON_TRANSPORT_OFFLINE)))
      || ((transport_state =? ARGUS_ANON_TRANSPORT_FAILED)
            && ((next_state =? ARGUS_ANON_TRANSPORT_BOOTSTRAPPING)
                || (next_state =? ARGUS_ANON_TRANSPORT_OFFLINE))) in
    if negb valid then (false, transport_state) else (true, next_state).

Definition anonymity_connection_allowed (transport_state role type rights : Z) : bool :=
  (transport_state =? ARGUS_ANON_TRANSPORT_READY)
  && (type =? ARGUS_CAPABILITY_ANONYMOUS_STREAM)
  && anonymity_capability_allowed role type rights.

Definition anonymity_transport_state (transport_state : Z) : Z := transport_state.

Definition anonymity_clearnet_allowed : bool := false.
Definition anonymity_local_dns_allowed : bool := false.

(** The self test, with the state threaded through its calls in order; a call
    that returns 0 leaves the state as it was. *)
Definition anonymity_policy_self_test : bool * Z :=
  let s0 := anonymity_policy_init in
  let connect := ARGUS_CAP_RIGHT_CONNECT in
  let stream := ARGUS_CAPABILITY_ANONYMOUS_STREAM in
  let raw := ARGUS_CAPABILITY_RAW_NETWORK in
  let tor := ARGUS_SECURITY_ROLE_TOR_TRANSPORT in
  let net := ARGUS_SECURITY_ROLE_BROWSER_NETWORK in
  let '(u1, s1) := anonymity_transport_update s0 ARGUS_SECURITY_ROLE_BROWSER_UI
                     ARGUS_ANON_TRANSPORT_BOOTSTRAPPING 1 in
  let '(u2, s2) := anonymity_transport_update s1 tor ARGUS_ANON_TRANSPORT_READY 1 in
  let '(u3, s3) := anonymity_transport_update s2 tor ARGUS_ANON_TRANSPORT_BOOTSTRAPPING 1 in
  let '(u4, s4) := anonymity_transport_update s3 tor ARGUS_ANON_TRANSPORT_READY 1 in
  let '(u5, s5) := anonymity_transport_update s4 tor ARGUS_ANON_TRANSPORT_FAILED 1 in
  if anonymity_clearnet_allowed || anonymity_local_dns_allowed
     || anonymity_capability_allowed ARGUS_SECURITY_ROLE_UTILITY raw connect
     || anonymity_capability_allowed ARGUS_SECURITY_ROLE_RENDERER stream connect
     || negb (anonymity_capability_allowed tor raw connect)
     || negb (anonymity_capability_allowed net stream connect)
     || anonymity_connection_allowed s0 net stream connect
     || u1 || u2 || negb u3 || negb u4
     || negb (anonymity_connection_allowed s4 net stream connect)
     || anonymity_connection_allowed s4 ARGUS_SECURITY_ROLE_BROWSER_UI stream connect
     || negb u5
     || anonymity_connection_allowed s5 net stream connect
  then (false, s5)
  else
    let s := anonymity_policy_init in
    (s =? ARGUS_ANON_TRANSPORT_OFFLINE, s).

Example anonymity_policy_self_test_passes :
  anonymity_policy_self_test = (true, ARGUS_ANON_TRANSPORT_OFFLINE).
Proof. reflexivity. Qed.

(** ** Specification: the transport as a transition system *)

Inductive transport_step : Z -> Z -> Prop :=
  | ts_boot : transport_step ARGUS_ANON_TRANSPORT_OFFLINE ARGUS_ANON_TRANSPORT_BOOTSTRAPPING
  | ts_ready : transport_step ARGUS_ANON_TRANSPORT_BOOTSTRAPPING ARGUS_ANON_TRANSPORT_READY
  | ts_boot_fail : transport_step ARGUS_ANON_TRANSPORT_BOOTSTRAPPING ARGUS_ANON_TRANSPORT_FAILED
  | ts_boot_stop : transport_step ARGUS_ANON_TRANSPORT_BOOTSTRAPPING ARGUS_ANON_TRANSPORT_OFFLINE
  | ts_fail : transport_step ARGUS_ANON_TRANSPORT_READY ARGUS_ANON_TRANSPORT_FAILED
  | ts_stop : transport_step ARGUS_ANON_TRANSPORT_READY ARGUS_ANON_TRANSPORT_OFFLINE
  | ts_retry : transport_step ARGUS_ANON_TRANSPORT_FAILED ARGUS_ANON_TRANSPORT_BOOTSTRAPPING
  | ts_give : transport_step ARGUS_ANON_TRANSPORT_FAILED ARGUS_ANON_TRANSPORT_OFFLINE.
#[export] Hint Constructors transport_step : argus.

(** A request to update the transport: caller, next state, authenticated. *)
Definition transport_request : Type := Z * Z * Z.

Definition transport_exec (s : Z) (q : transport_request) : Z :=
  let '(caller, next, auth) := q in snd (anonymity_transport_update s caller next auth).

Definition transport_run (qs : list transport_request) (s : Z) : Z := fold_left transport_exec qs s.

Lemma update_char s caller next auth :
  anonymity_transport_update s caller next auth = (true, next) /\
    caller = ARGUS_SECURITY_ROLE_TOR_TRANSPORT /\ auth <> 0 /\ transport_step s next
  \/ anonymity_transport_update s caller next auth = (false, s) /\
    ~ (caller = ARGUS_SECURITY_ROLE_TOR_TRANSPORT /\ auth <> 0 /\ transport_step s next).
Proof.
  unfold anonymity_transport_update.
  destruct (negb (caller =? _) || _ || _) eqn:E1.
  { right. split; [done|]. intros (-> & Ha & Hs). b2p. destruct E1 as [E1|E1]; b2p.
    - destruct E1; b2p; done.
    - inversion Hs; subst; vm_compute in E1; done. }
  b2p. destruct (negb (_ || _)) eqn:E2.
  - right. split; [done|]. intros (_ & _ & Hs). inversion Hs; subst; vm_compute in E2; done.
  - left. repeat split; [done|done|].
    b2p. repeat match goal with H : _ \/ _ |- _ => destruct H; b2p end; subst;
      auto with argus.
Qed.

Lemma step_to_ready s : transport_step s ARGUS_ANON_TRANSPORT_READY -> s = ARGUS_ANON_TRANSPORT_BOOTSTRAPPING.
Proof. inversion 1; done. Qed.

Lemma transport_run_app a b s : transport_run (a ++ b) s = transport_run b (transport_run a s).
Proof. apply fold_left_app. Qed.

(** ** Properties *)

(** An update is accepted exactly when an authenticated Tor transport asks
    for an edge of the transition system; otherwise it returns 0 and leaves the
    state unchanged. *)
Theorem anonymity_update_refines s caller next auth :
  anonymity_transport_update s caller next auth
  = if decide (caller = ARGUS_SECURITY_ROLE_TOR_TRANSPORT /\ auth <> 0
               /\ (s, next) ∈ [(0, 1); (1, 2); (1, 3); (1, 0); (2, 3); (2, 0); (3, 1); (3, 0)])
    then (true, next) else (false, s).
Proof.
  assert ((s, next) ∈ [(0, 1); (1, 2); (1, 3); (1, 0); (2, 3); (2, 0); (3, 1); (3, 0)]
          <-> transport_step s next) as Hedges.
  { split.
    - rewrite !elem_of_cons, elem_of_nil. intros H.
      repeat destruct H as [H|H]; try (injection H as -> ->; constructor). done.
    - inversion 1; vm_compute; repeat constructor. }
  destruct (decide _) as [(Hc & Ha & He)|Hn];
    destruct (update_char s caller next auth) as [(-> & Hr)|(-> & Hr)]; try done.
  - exfalso. apply Hr. rewrite <- Hedges. done.
  - exfalso. apply Hn. rewrite Hedges. done.
Qed.

(** Fail closed.  After any sequence of update requests from boot, a
    connection is allowed only to the browser network role, for an anonymous
    stream with exactly the connect right, and only if the sequence contains an
    authenticated Tor request that moved the transport from bootstrapping to
    ready and nothing after it left that state. *)
Theorem anonymity_fail_closed qs role type rights :
  anonymity_connection_allowed (transport_run qs anonymity_policy_init) role type rights = true ->
  role = ARGUS_SECURITY_ROLE_BROWSER_NETWORK
  /\ type = ARGUS_CAPABILITY_ANONYMOUS_STREAM /\ rights = ARGUS_CAP_RIGHT_CONNECT
  /\ exists pre auth post,
       qs = pre ++ (ARGUS_SECURITY_ROLE_TOR_TRANSPORT, ARGUS_ANON_TRANSPORT_READY, auth) :: post
       /\ auth <> 0
       /\ transport_run pre anonymity_policy_init = ARGUS_ANON_TRANSPORT_BOOTSTRAPPING
       /\ forall k, transport_run (take k post) ARGUS_ANON_TRANSPORT_READY
                    = ARGUS_ANON_TRANSPORT_READY.
Proof.
  unfold anonymity_connection_allowed.
  intros [[Hready%Z.eqb_eq ->%Z.eqb_eq]%andb_true_iff Hcap]%andb_true_iff.
  unfold anonymity_capability_allowed in Hcap. case_if_in Hcap; [done|]. b2p.
  simpl in Hcap. b2p. repeat split; try done. clear -Hready.
  induction qs as [|q qs IH] using rev_ind; [done|].
  rewrite transport_run_app in Hready. simpl in Hready.
  destruct q as [[caller next] auth]. simpl in Hready.
  destruct (update_char (transport_run qs anonymity_policy_init) caller next auth)
    as [(Hu & -> & Ha & Hs)|(Hu & _)]; rewrite Hu in Hready; simpl in Hready.
  - subst next. exists qs, auth, []. repeat split; [done| |].
    + by apply step_to_ready.
    + intros k. by rewrite take_nil.
  - destruct (IH Hready) as (pre & a & post & -> & Ha & Hp & Hk).
    exists pre, a, (post ++ [(caller, next, auth)]). repeat split; [by rewrite <- app_assoc|done|done|].
    intros k. destruct (decide (k <= length post)%nat).
    + by rewrite take_app_le.
    + rewrite take_ge by (rewrite length_app; simpl; lia).
      rewrite transport_run_app. specialize (Hk (length post)). rewrite firstn_all in Hk.
      rewrite Hk. rewrite Hready in Hu. simpl. by rewrite Hu.
Qed.

Lemma anonymity_fail_closed_witness :
  exists pre auth post,
    [(5, 1, 1); (5, 2, 1); (2, 0, 1)]
      = pre ++ (ARGUS_SECURITY_ROLE_TOR_TRANSPORT, ARGUS_ANON_TRANSPORT_READY, auth) :: post
    /\ auth <> 0
    /\ transport_run pre anonymity_policy_init = ARGUS_ANON_TRANSPORT_BOOTSTRAPPING
    /\ forall k, transport_run (take k post) ARGUS_ANON_TRANSPORT_READY
                 = ARGUS_ANON_TRANSPORT_READY.
Proof.
  refine (proj2 (proj2 (proj2 (anonymity_fail_closed [(5, 1, 1); (5, 2, 1); (2, 0, 1)]
    ARGUS_SECURITY_ROLE_BROWSER_NETWORK ARGUS_CAPABILITY_ANONYMOUS_STREAM
    ARGUS_CAP_RIGHT_CONNECT _)))).
  vm_compute. reflexivity.
Defined.
