(* ===== verification/Ipc.v ===== *)
(** * Inter-process messages (src/ipc.c, src/ipc.h)

    Eight kernel endpoints, each a ring of eight fixed-size messages owned by
    one receiver.  The static array [endpoints] is the state [ipc_state] the
    operations thread.  A nullable data buffer is an [option]; the out-pointers
    of [ipc_receive] are given by whether they are non-null. *)

From stdpp Require Import base list numbers.
From Stdlib Require Import ZArith Lia.
From S2P Require Import Prelude.

Open Scope Z_scope.

(** ** Data *)

Definition ARGUS_IPC_ENDPOINT_MAX : Z := 8.
Definition ARGUS_IPC_QUEUE_CAPACITY : Z := 8.
Definition ARGUS_IPC_MESSAGE_MAX : Z := 64.
Definition IPC_ENDPOINT_TAG : Z := 0x4950.

Record ipc_message_t := mk_message {
  msg_sender_pid : Z;
  msg_length : Z;
  msg_data : list Z }.

Definition message0 : ipc_message_t := mk_message 0 0 (replicate 64 0).

Record ipc_endpoint_t := mk_endpoint {
  ep_receiver_pid : Z;
  ep_generation : Z;
  ep_head : Z;
  ep_tail : Z;
  ep_count : Z;
  ep_used : bool;
  ep_messages : list ipc_message_t }.

Definition endpoint0 : ipc_endpoint_t := mk_endpoint 0 0 0 0 0 false (replicate 8 message0).

Definition ipc_state : Type := list ipc_endpoint_t.

(** ** Operations *)

Definition make_endpoint (slot : Z) (endpoint : ipc_endpoint_t) : Z :=
  Z.lor (Z.lor (IPC_ENDPOINT_TAG << 48) (ep_generation endpoint << 8)) (u32 (slot + 1)).

Definition get_ep (s : ipc_state) (slot : Z) : ipc_endpoint_t := zget endpoint0 s slot.

(** The slot of the endpoint a handle names: [&endpoints[slot]] or null. *)
Definition resolve_endpoint (s : ipc_state) (handle : Z) : option Z :=
  if negb (nz handle) || ((handle >> 48) !=? IPC_ENDPOINT_TAG) then None
  else
    let encoded_slot := u32 (handle & 0xFF) in
    if negb (nz encoded_slot) || (ARGUS_IPC_ENDPOINT_MAX <? encoded_slot) then None
    else
      let slot := encoded_slot - 1 in
      if negb (ep_used (get_ep s slot)) || (make_endpoint slot (get_ep s slot) !=? handle)
      then None else Some slot.

Definition ipc_init (s : ipc_state) : ipc_state :=
  for_range 0 ARGUS_IPC_ENDPOINT_MAX
    (fun slot s =>
       zset s slot
         (mk_endpoint 0 (Z.lxor 0x49500001 (u32 (u32 (slot + 1) * 0x9E3779B9))) 0 0 0 false
            (replicate 8 message0)))
    s.

Definition ipc_endpoint_create (s : ipc_state) (receiver_pid : Z) : Z * ipc_state :=
  if negb (nz receiver_pid) then (0, s)
  else
    match zfind (fun slot => negb (ep_used (get_ep s slot)))
                0 (Z.to_nat ARGUS_IPC_ENDPOINT_MAX) with
    | None => (0, s)
    | Some slot =>
        let generation := ep_generation (get_ep s slot) in
        let endpoint :=
          mk_endpoint receiver_pid (if nz generation then generation else 1) 0 0 0 true
            (replicate 8 message0) in
        (make_endpoint slot endpoint, zset s slot endpoint)
    end.

Definition ipc_endpoint_destroy (s : ipc_state) (handle : Z) : bool * ipc_state :=
  match resolve_endpoint s handle with
  | None => (false, s)
  | Some slot =>
      (true, zset s slot
               (mk_endpoint 0 (next_generation (ep_generation (get_ep s slot))) 0 0 0 false
                  (replicate 8 message0)))
  end.

(** [for (index < length) destination[index] = source[index];] *)
Definition copy_bytes (destination source : list Z) (length : Z) : list Z :=
  for_range 0 length (fun index d => zset d index (zget 0 source index)) destination.

Definition ipc_send (s : ipc_state) (handle sender_pid : Z) (data : option (list Z))
    (length : Z) : bool * ipc_state :=
  match resolve_endpoint s handle, data with
  | Some slot, Some bytes =>
      let endpoint := get_ep s slot in
      if negb (nz sender_pid) || negb (nz length) || (ARGUS_IPC_MESSAGE_MAX <? length)
         || (ep_count endpoint =? ARGUS_IPC_QUEUE_CAPACITY)
      then (false, s)
      else
        let message := zget message0 (ep_messages endpoint) (ep_head endpoint) in
        let message' := mk_message sender_pid length
                          (copy_bytes (msg_data message) bytes length) in
        (true,
         zset s slot
           (mk_endpoint (ep_receiver_pid endpoint) (ep_generation endpoint)
              (u8 ((ep_head endpoint + 1) mod ARGUS_IPC_QUEUE_CAPACITY)) (ep_tail endpoint)
              (u8 (ep_count endpoint + 1)) (ep_used endpoint)
              (zset (ep_messages endpoint) (ep_head endpoint) message')))
  | _, _ => (false, s)
  end.

(** On success: the caller's buffer, the message length and the sender. *)
Definition ipc_receive (s : ipc_state) (handle receiver_pid : Z) (data : option (list Z))
    (capacity : Z) (length_ptr sender_ptr : bool) : option (list Z * Z * Z) * ipc_state :=
  match resolve_endpoint s handle, data with
  | Some slot, Some buffer =>
      let endpoint := get_ep s slot in
      if (ep_receiver_pid endpoint !=? receiver_pid) || negb length_ptr || negb sender_ptr
         || negb (nz (ep_count endpoint))
      then (None, s)
      else
        let message := zget message0 (ep_messages endpoint) (ep_tail endpoint) in
        if capacity <? msg_length message then (None, s)
        else
          (Some (copy_bytes buffer (msg_data message) (msg_length message),
                 msg_length message, msg_sender_pid message),
           zset s slot
             (mk_endpoint (ep_receiver_pid endpoint) (ep_generation endpoint)
                (ep_head endpoint) (u8 ((ep_tail endpoint + 1) mod ARGUS_IPC_QUEUE_CAPACITY))
                (u8 (ep_count endpoint - 1)) (ep_used endpoint) (ep_messages endpoint)))
  | _, _ => (None, s)
  end.

Definition ipc_pending (s : ipc_state) (handle receiver_pid : Z) : Z :=
  match resolve_endpoint s handle with
  | Some slot =>
      if ep_receiver_pid (get_ep s slot) =? receiver_pid then ep_count (get_ep s slot) else 0
  | None => 0
  end.

Definition ipc_self_test (s : ipc_state) : bool * ipc_state :=
  let s0 := ipc_init s in
  let '(endpoint, s1) := ipc_endpoint_create s0 41 in
  let sent := [0x41; 0x52; 0x47] in
  let '(sent_ok, s2) := ipc_send s1 endpoint 17 (Some sent) 3 in
  let '(r1, s3) := ipc_receive s2 endpoint 42 (Some [0; 0; 0]) 3 true true in
  let '(r2, s4) := ipc_receive s3 endpoint 41 (Some [0; 0; 0]) 2 true true in
  let '(r3, s5) := ipc_receive s4 endpoint 41 (Some [0; 0; 0]) 3 true true in
  let '(destroyed, s6) := ipc_endpoint_destroy s5 endpoint in
  let '(late, s7) := ipc_send s6 endpoint 17 (Some sent) 3 in
  if nz endpoint && sent_ok && (ipc_pending s2 endpoint 41 =? 1)
     && match r1 with None => true | Some _ => false end
     && match r2 with None => true | Some _ => false end
     && (ipc_pending s4 endpoint 41 =? 1)
     && match r3 with
        | Some (received, length, sender) =>
            (length =? 3) && (sender =? 17) && bool_decide (received = sent)
        | None => false
        end
     && (ipc_pending s5 endpoint 41 =? 0) && destroyed && negb late
  then (true, ipc_init s7) else (false, s7).

#[global] Arguments make_endpoint : simpl never.
#[global] Arguments get_ep : simpl never.
#[global] Arguments resolve_endpoint : simpl never.
#[global] Arguments ipc_endpoint_create : simpl never.
#[global] Arguments ipc_endpoint_destroy : simpl never.
#[global] Arguments ipc_send : simpl never.
#[global] Arguments ipc_receive : simpl never.
#[global] Arguments copy_bytes : simpl never.

Example ipc_self_test_passes : fst (ipc_self_test (replicate 8 endpoint0)) = true.
Proof. vm_compute. reflexivity. Qed.

(** ** Byte copies *)

Lemma copy_bytes_eq d src n :
  0 <= n -> n <= Z.of_nat (length d) -> n <= Z.of_nat (length src) ->
  copy_bytes d src n = take (Z.to_nat n) src ++ drop (Z.to_nat n) d.
Proof.
  intros H0 Hd Hs. unfold copy_bytes.
  apply (for_range_inv (fun i d' => d' = take (Z.to_nat i) src ++ drop (Z.to_nat i) d)); [lia|done|].
  intros i d' Hi ->. unfold zset, zget.
  replace (Z.to_nat (i + 1)) with (S (Z.to_nat i)) by lia.
  destruct (lookup_lt_is_Some_2 src (Z.to_nat i)) as [b Hb]; [lia|].
  destruct (lookup_lt_is_Some_2 d (Z.to_nat i)) as [c Hc]; [lia|].
  rewrite Hb. simpl. erewrite take_S_r by exact Hb.
  rewrite (drop_S _ _ _ Hc).
  rewrite insert_app_r_alt by (rewrite length_take; lia).
  rewrite length_take, Nat.min_l by lia. rewrite Nat.sub_diag. simpl.
  by rewrite <- app_assoc.
Qed.

(** ** The ring invariant and the abstract mailbox *)

Definition packet : Type := Z * list Z.
Definition packet_of (m : ipc_message_t) : packet :=
  (msg_sender_pid m, take (Z.to_nat (msg_length m)) (msg_data m)).

Record message_ok (m : ipc_message_t) : Prop := {
  mo_length : 0 <= msg_length m <= ARGUS_IPC_MESSAGE_MAX;
  mo_data : length (msg_data m) = 64%nat }.

Record endpoint_ok (e : ipc_endpoint_t) : Prop := {
  epo_generation : 1 <= ep_generation e <= UINT32_MAX;
  epo_tail : 0 <= ep_tail e < 8;
  epo_count : 0 <= ep_count e <= 8;
  epo_head : ep_head e = (ep_tail e + ep_count e) mod 8;
  epo_messages : length (ep_messages e) = 8%nat;
  epo_message : Forall message_ok (ep_messages e) }.

Definition ipc_ok (s : ipc_state) : Prop := length s = 8%nat /\ Forall endpoint_ok s.

Definition queue_of (e : ipc_endpoint_t) : list packet :=
  map (fun i => packet_of (zget message0 (ep_messages e) ((ep_tail e + i) mod 8)))
      (zrange 0 (Z.to_nat (ep_count e))).

Lemma message0_ok : message_ok message0.
Proof. constructor; [unfold ARGUS_IPC_MESSAGE_MAX; simpl; lia|done]. Qed.

Lemma fresh_endpoint_ok pid g used :
  1 <= g <= UINT32_MAX ->
  endpoint_ok (mk_endpoint pid g 0 0 0 used (replicate 8 message0)).
Proof.
  intros. constructor; simpl; try lia; try done.
  repeat constructor; unfold ARGUS_IPC_MESSAGE_MAX; simpl; lia.
Qed.

Lemma get_ep_ok s slot : ipc_ok s -> 0 <= slot < 8 -> endpoint_ok (get_ep s slot).
Proof. intros [Hl HF] Hs. unfold get_ep. apply zget_Forall; [done|lia]. Qed.

Lemma set_ep_ok s slot e : ipc_ok s -> endpoint_ok e -> ipc_ok (zset s slot e).
Proof. intros [Hl HF] He. split; [by arrays|by apply zset_Forall]. Qed.

Lemma get_set_ep_eq s slot e : ipc_ok s -> 0 <= slot < 8 -> get_ep (zset s slot e) slot = e.
Proof. intros [Hl _] Hs. unfold get_ep. apply zget_zset_eq. lia. Qed.

Lemma get_set_ep_ne s slot slot' e :
  0 <= slot -> 0 <= slot' -> slot <> slot' -> get_ep (zset s slot e) slot' = get_ep s slot'.
Proof. intros. unfold get_ep. by apply zget_zset_ne. Qed.

Lemma make_endpoint_eq slot e :
  0 <= slot < 8 -> 0 <= ep_generation e <= UINT32_MAX ->
  make_endpoint slot e = IPC_ENDPOINT_TAG * 2 ^ 48 + ep_generation e * 2 ^ 8 + (slot + 1).
Proof.
  intros Hs Hg. unfold make_endpoint, UINT32_MAX in *. words.
  assert (Z.lor (IPC_ENDPOINT_TAG << 48) (ep_generation e << 8)
          = (IPC_ENDPOINT_TAG * 2 ^ 40 + ep_generation e) << 8) as ->.
  { rewrite <- (lor_add_disjoint (ep_generation e) IPC_ENDPOINT_TAG 40) by lia.
    rewrite Z.shiftl_lor, Z.shiftl_shiftl by lia. done. }
  rewrite lor_add_disjoint by lia. lia.
Qed.

Lemma make_endpoint_inj slot e slot' e' :
  0 <= slot < 8 -> 0 <= slot' < 8 -> endpoint_ok e -> endpoint_ok e' ->
  make_endpoint slot e = make_endpoint slot' e' ->
  slot = slot' /\ ep_generation e = ep_generation e'.
Proof.
  intros Hs Hs' [? _ _ _ _ _] [? _ _ _ _ _] H.
  rewrite !make_endpoint_eq in H by lia. unfold UINT32_MAX, IPC_ENDPOINT_TAG in *. lia.
Qed.

(** A handle resolves exactly to the used slot whose handle it is. *)
Lemma ipc_resolve_iff s h slot :
  ipc_ok s ->
  resolve_endpoint s h = Some slot <->
  0 <= slot < 8 /\ ep_used (get_ep s slot) = true /\ h = make_endpoint slot (get_ep s slot).
Proof.
  intros Hok. unfold resolve_endpoint, ARGUS_IPC_ENDPOINT_MAX. split.
  - intros H. case_if_in H; [done|]. case_if_in H; [done|]. case_if_in H; [done|].
    injection H as <-. b2p. pose proof (u32_range (h & 255)).
    repeat split; try lia. done.
  - intros (Hs & Hu & Hh).
    pose proof (epo_generation _ (get_ep_ok s slot Hok Hs)) as Hg.
    pose proof (make_endpoint_eq slot (get_ep s slot) Hs ltac:(lia)) as He.
    rewrite <- Hh in He. unfold IPC_ENDPOINT_TAG, UINT32_MAX in *.
    assert (h >> 48 = 0x4950) as ->.
    { rewrite Z.shiftr_div_pow2 by lia. Z.to_euclidean_division_equations. lia. }
    assert (u32 (h & 0xFF) = slot + 1) as ->.
    { change 0xFF with (2 ^ 8 - 1). rewrite land_ones_mod by lia.
      assert (h mod 2 ^ 8 = slot + 1) as -> by (Z.to_euclidean_division_equations; lia).
      words. lia. }
    replace (slot + 1 - 1) with slot by lia. rewrite Hu, <- Hh, !Z.eqb_refl. unfold nz. simpl.
    destruct (Z.eqb_spec h 0); [lia|]. destruct (Z.eqb_spec (slot + 1) 0); [lia|].
    destruct (Z.ltb_spec 8 (slot + 1)); [lia|]. done.
Qed.

(** The abstract state: live mailboxes by handle, each with its receiver and
    its queue of packets in order of arrival. *)
Definition mailboxes : Type := Z -> option (Z * list packet).

Definition ipc_abs (s : ipc_state) : mailboxes := fun h =>
  match resolve_endpoint s h with
  | Some slot => Some (ep_receiver_pid (get_ep s slot), queue_of (get_ep s slot))
  | None => None
  end.

Definition mb_set (mb : mailboxes) (h : Z) (v : option (Z * list packet)) : mailboxes :=
  fun h' => if h' =? h then v else mb h'.

(** What storing an endpoint does to the abstract state: only the handle the
    slot had and the handle it gets change their meaning. *)
Lemma abs_change s slot e h' :
  ipc_ok s -> 0 <= slot < 8 -> endpoint_ok e ->
  ipc_abs (zset s slot e) h' =
    if ep_used e && (h' =? make_endpoint slot e)
    then Some (ep_receiver_pid e, queue_of e)
    else if ep_used (get_ep s slot) && (h' =? make_endpoint slot (get_ep s slot))
    then None else ipc_abs s h'.
Proof.
  intros Hok Hs He. pose proof (set_ep_ok s slot e Hok He) as Hok'.
  unfold ipc_abs. destruct (ep_used e && _)%bool eqn:E1.
  { b2p. rewrite (proj2 (ipc_resolve_iff _ h' slot Hok')); by rewrite get_set_ep_eq. }
  assert (forall sl, resolve_endpoint (zset s slot e) h' = Some sl <->
                     sl <> slot /\ resolve_endpoint s h' = Some sl) as Hiff.
  { intros sl. rewrite !ipc_resolve_iff by done. destruct (decide (sl = slot)) as [->|].
    - rewrite get_set_ep_eq by done. split; [|by intros [? _]].
      intros (_ & Hu & Hh). rewrite Hu, Hh, Z.eqb_refl in E1. done.
    - split.
      + intros (H1 & H2 & H3). rewrite get_set_ep_ne in H2, H3 by lia. done.
      + intros (_ & H1 & H2 & H3). rewrite get_set_ep_ne by lia. done. }
  destruct (ep_used (get_ep s slot) && _)%bool eqn:E2.
  - b2p. destruct (resolve_endpoint (zset s slot e) h') as [sl|] eqn:E; [|done].
    destruct (proj1 (Hiff sl) eq_refl) as [Hne E'].
    assert (resolve_endpoint s h' = Some slot) by (by apply ipc_resolve_iff). congruence.
  - destruct (resolve_endpoint s h') as [sl|] eqn:E.
    + assert (sl <> slot) as Hne.
      { intros ->. apply ipc_resolve_iff in E as (_ & Hu & Hh); [|done].
        rewrite Hu, <- Hh, Z.eqb_refl in E2. done. }
      rewrite (proj2 (Hiff sl) (conj Hne eq_refl)).
      apply ipc_resolve_iff in E as (? & _); [|done]. by rewrite get_set_ep_ne by lia.
    + destruct (resolve_endpoint (zset s slot e) h') as [sl|] eqn:E'; [|done].
      destruct (proj1 (Hiff sl) eq_refl) as [_ ?]. done.
Qed.

(** Replacing an endpoint by one with the same handle only changes what that
    handle names. *)
Lemma abs_update s h slot e :
  ipc_ok s -> resolve_endpoint s h = Some slot -> endpoint_ok e ->
  ep_generation e = ep_generation (get_ep s slot) -> ep_used e = true ->
  forall h', ipc_abs (zset s slot e) h' = mb_set (ipc_abs s) h (Some (ep_receiver_pid e, queue_of e)) h'.
Proof.
  intros Hok Hr Heok Hg Hu h'.
  pose proof (proj1 (ipc_resolve_iff _ _ _ Hok) Hr) as (Hs & Hused & Hh).
  rewrite abs_change by done.
  assert (make_endpoint slot e = h) as -> by (rewrite Hh; unfold make_endpoint; by rewrite Hg).
  rewrite Hu, Hused, <- Hh. unfold mb_set. simpl. by destruct (Z.eqb_spec h' h).
Qed.

(** Enqueueing at the head appends, dequeueing at the tail removes the front. *)
Lemma queue_of_push e m :
  endpoint_ok e -> ep_count e < 8 ->
  queue_of (mk_endpoint (ep_receiver_pid e) (ep_generation e)
              (u8 ((ep_head e + 1) mod 8)) (ep_tail e) (u8 (ep_count e + 1)) (ep_used e)
              (zset (ep_messages e) (ep_head e) m))
  = queue_of e ++ [packet_of m].
Proof.
  intros [_ Ht Hc Hh Hl _] Hlt. unfold queue_of; simpl. words.
  replace (Z.to_nat (ep_count e + 1)) with (Z.to_nat (ep_count e) + 1)%nat by lia.
  rewrite zrange_app, map_app. f_equal.
  - apply map_ext_in. intros i Hi%list_elem_of_In%elem_of_zrange.
    rewrite zget_zset_ne; [done| | |].
    + rewrite Hh. apply Z.mod_pos_bound. lia.
    + apply Z.mod_pos_bound. lia.
    + rewrite Hh. Z.to_euclidean_division_equations. lia.
  - cbn [zrange map]. do 2 f_equal.
    replace (ep_tail e + (0 + Z.of_nat (Z.to_nat (ep_count e)))) with (ep_tail e + ep_count e) by lia.
    rewrite <- Hh.
    rewrite zget_zset_eq; [done|]. rewrite Hl, Hh. pose proof (Z.mod_pos_bound (ep_tail e + ep_count e) 8). lia.
Qed.

Lemma queue_of_pop e :
  endpoint_ok e -> 0 < ep_count e ->
  queue_of e = packet_of (zget message0 (ep_messages e) (ep_tail e)) ::
    queue_of (mk_endpoint (ep_receiver_pid e) (ep_generation e) (ep_head e)
                (u8 ((ep_tail e + 1) mod 8)) (u8 (ep_count e - 1)) (ep_used e) (ep_messages e)).
Proof.
  intros [_ Ht Hc _ _ _] Hpos. unfold queue_of; simpl.
  pose proof (Z.mod_pos_bound (ep_tail e + 1) 8 ltac:(lia)). words.
  replace (Z.to_nat (ep_count e)) with (S (Z.to_nat (ep_count e - 1))) by lia.
  cbn [zrange map]. f_equal.
  - rewrite Z.add_0_r, Z.mod_small by lia. done.
  - generalize (Z.to_nat (ep_count e - 1)). intros n.
    assert (forall k, map (fun i => packet_of (zget message0 (ep_messages e) ((ep_tail e + i) mod 8))) (zrange (k + 1) n)
      = map (fun i => packet_of (zget message0 (ep_messages e) (((ep_tail e + 1) mod 8 + i) mod 8))) (zrange k n)) as Hshift.
    { induction n as [|n IH]; intros k; [done|]. cbn [zrange map]. f_equal; [|apply IH].
      do 2 f_equal. Z.to_euclidean_division_equations. lia. }
    apply (Hshift 0).
Qed.

(** ** Every operation preserves the invariant *)

Lemma pushed_endpoint_ok e sender len bytes :
  endpoint_ok e -> ep_count e < 8 -> 0 < len <= 64 -> len <= Z.of_nat (length bytes) ->
  endpoint_ok
    (mk_endpoint (ep_receiver_pid e) (ep_generation e)
       (u8 ((ep_head e + 1) mod 8)) (ep_tail e) (u8 (ep_count e + 1)) (ep_used e)
       (zset (ep_messages e) (ep_head e)
          (mk_message sender len
             (copy_bytes (msg_data (zget message0 (ep_messages e) (ep_head e))) bytes len)))).
Proof.
  intros [Hg Ht Hc Hh Hl HF] Hlt Hlen Hb.
  assert (0 <= ep_head e < 8) as Hhd by (rewrite Hh; apply Z.mod_pos_bound; lia).
  pose proof (zget_Forall message_ok message0 _ (ep_head e) HF ltac:(lia)) as [_ Hd].
  constructor; simpl; try lia; try done.
  - words. lia.
  - rewrite !u8_id by (pose proof (Z.mod_pos_bound (ep_head e + 1) 8); lia).
    rewrite Hh, Zplus_mod_idemp_l. f_equal. lia.
  - by arrays.
  - apply zset_Forall; [done|]. constructor; simpl; [unfold ARGUS_IPC_MESSAGE_MAX; lia|].
    rewrite copy_bytes_eq by lia. rewrite length_app, length_take, length_drop. lia.
Qed.

Lemma popped_endpoint_ok e :
  endpoint_ok e -> 0 < ep_count e ->
  endpoint_ok
    (mk_endpoint (ep_receiver_pid e) (ep_generation e) (ep_head e)
       (u8 ((ep_tail e + 1) mod 8)) (u8 (ep_count e - 1)) (ep_used e) (ep_messages e)).
Proof.
  intros [Hg Ht Hc Hh Hl HF] Hpos.
  pose proof (Z.mod_pos_bound (ep_tail e + 1) 8 ltac:(lia)).
  constructor; simpl; try lia; try done; words; try lia.
  rewrite Hh, Zplus_mod_idemp_l. f_equal. lia.
Qed.

(** ** The abstract operations *)

Definition mb_send (mb : mailboxes) (h sender : Z) (payload : list Z) : bool * mailboxes :=
  match mb h with
  | Some (receiver, q) =>
      if (sender =? 0) || bool_decide (payload = []) || (64 <? Z.of_nat (length payload))
         || (Z.of_nat (length q) =? 8)
      then (false, mb)
      else (true, mb_set mb h (Some (receiver, q ++ [(sender, payload)])))
  | None => (false, mb)
  end.

Definition mb_receive (mb : mailboxes) (h receiver capacity : Z) : option packet * mailboxes :=
  match mb h with
  | Some (r, p :: q) =>
      if (r =? receiver) && (Z.of_nat (length (snd p)) <=? capacity)
      then (Some p, mb_set mb h (Some (r, q))) else (None, mb)
  | _ => (None, mb)
  end.

Lemma queue_of_length e : 0 <= ep_count e -> Z.of_nat (length (queue_of e)) = ep_count e.
Proof. intros. unfold queue_of. rewrite length_map, zrange_length. lia. Qed.

Lemma send_refines s h sender bytes len :
  ipc_ok s -> 0 <= len <= Z.of_nat (length bytes) ->
  let '(b, s') := ipc_send s h sender (Some bytes) len in
  let '(b', mb) := mb_send (ipc_abs s) h sender (take (Z.to_nat len) bytes) in
  b = b' /\ ipc_ok s' /\ forall h', ipc_abs s' h' = mb h'.
Proof.
  intros Hok Hlen. unfold ipc_send, mb_send, ipc_abs at 1.
  destruct (resolve_endpoint s h) as [slot|] eqn:Hr; [|done].
  pose proof (proj1 (ipc_resolve_iff _ _ _ Hok) Hr) as (Hs & Hu & Hh).
  pose proof (get_ep_ok s slot Hok Hs) as Heok. set (e := get_ep s slot) in *.
  rewrite queue_of_length by apply Heok. rewrite length_take, Nat.min_l by lia.
  rewrite Z2Nat.id by lia. unfold nz, ARGUS_IPC_MESSAGE_MAX, ARGUS_IPC_QUEUE_CAPACITY.
  rewrite !negb_involutive.
  assert (bool_decide (take (Z.to_nat len) bytes = []) = (len =? 0)) as ->.
  { destruct (Z.eqb_spec len 0) as [->|Hne]; [done|].
    apply bool_decide_eq_false. intros Hnil%(f_equal length).
    rewrite length_take in Hnil. simpl in Hnil. lia. }
  destruct (_ || _ || _ || _)%bool eqn:E; [done|]. b2p.
  pose proof (epo_count _ Heok).
  set (m := mk_message _ _ _).
  assert (packet_of m = (sender, take (Z.to_nat len) bytes)) as Hm.
  { unfold packet_of, m; simpl. f_equal.
    pose proof (zget_Forall message_ok message0 (ep_messages e) (ep_head e) (epo_message _ Heok)) as Hd.
    rewrite (epo_messages _ Heok), (epo_head _ Heok) in Hd.
    destruct Hd as [_ Hd]; [apply Z.mod_pos_bound; lia|].
    rewrite copy_bytes_eq by (rewrite ?(epo_head _ Heok); lia).
    rewrite take_app_le by (rewrite length_take; lia).
    rewrite take_take. f_equal. lia. }
  split; [done|]. split.
  - apply set_ep_ok; [done|]. apply pushed_endpoint_ok; (done || lia).
  - intros h'. rewrite (abs_update s h slot); [|done|done|apply pushed_endpoint_ok; (done||lia)|done|done].
    rewrite queue_of_push by (done || lia). rewrite Hm. done.
Qed.

Lemma receive_refines s h receiver buffer capacity :
  ipc_ok s -> 0 <= capacity <= Z.of_nat (length buffer) ->
  let '(r, s') := ipc_receive s h receiver (Some buffer) capacity true true in
  let '(r', mb) := mb_receive (ipc_abs s) h receiver capacity in
  match r, r' with
  | Some (out, len, sender), Some p =>
      p = (sender, take (Z.to_nat len) out) /\ 0 <= len <= capacity
      /\ drop (Z.to_nat len) out = drop (Z.to_nat len) buffer
  | None, None => True
  | _, _ => False
  end
  /\ ipc_ok s' /\ forall h', ipc_abs s' h' = mb h'.
Proof.
  intros Hok Hcap. unfold ipc_receive, mb_receive, ipc_abs at 1.
  destruct (resolve_endpoint s h) as [slot|] eqn:Hr; [|done].
  pose proof (proj1 (ipc_resolve_iff _ _ _ Hok) Hr) as (Hs & Hu & Hh).
  pose proof (get_ep_ok s slot Hok Hs) as Heok. set (e := get_ep s slot) in *.
  pose proof (epo_count _ Heok). pose proof (epo_tail _ Heok).
  unfold nz. simpl negb. rewrite !orb_false_r, negb_involutive.
  destruct (Z.eqb_spec (ep_count e) 0) as [Hz|Hz].
  { rewrite orb_true_r. assert (queue_of e = []) as -> by (unfold queue_of; rewrite Hz; done). done. }
  rewrite orb_false_r, (queue_of_pop e Heok) by lia.
  set (m := zget message0 (ep_messages e) (ep_tail e)).
  assert (message_ok m) as [Hml Hmd].
  { apply zget_Forall; [apply Heok|]. rewrite (epo_messages _ Heok). lia. }
  unfold ARGUS_IPC_MESSAGE_MAX in Hml.
  destruct (Z.eqb_spec (ep_receiver_pid e) receiver) as [Hrcv|Hrcv]; [|done]. simpl.
  rewrite length_take, Nat.min_l, Z2Nat.id by lia.
  destruct (Z.ltb_spec capacity (msg_length m)), (Z.leb_spec (msg_length m) capacity); try lia; [done|].
  rewrite copy_bytes_eq by lia.
  split; [split_and!; try lia|split].
  - unfold packet_of. f_equal.
    rewrite take_app_le by (rewrite length_take; lia). rewrite take_take. f_equal. lia.
  - rewrite drop_app_ge by (rewrite length_take; lia).
    rewrite length_take, Nat.min_l, Nat.sub_diag by lia. done.
  - apply set_ep_ok; [done|]. by apply popped_endpoint_ok; [|lia].
  - intros h'. rewrite (abs_update s h slot); [done|done|done|by apply popped_endpoint_ok; [|lia]|done|done].
Qed.

Lemma create_refines s pid :
  ipc_ok s ->
  let '(h, s') := ipc_endpoint_create s pid in
  ipc_ok s' /\
  ((h = 0 /\ s' = s /\ (pid = 0 \/ forall slot, 0 <= slot < 8 -> ep_used (get_ep s slot) = true))
   \/ (h <> 0 /\ pid <> 0 /\ ipc_abs s h = None /\ forall h', ipc_abs s' h' = mb_set (ipc_abs s) h (Some (pid, [])) h')).
Proof.
  intros Hok. unfold ipc_endpoint_create. destruct (negb (nz pid)) eqn:Hp.
  { split; [done|]. left. b2p. auto. }
  destruct (zfind _ _ _) as [slot|] eqn:Hf.
  - apply zfind_Some in Hf as (Hs & Hfree & _). b2p. unfold ARGUS_IPC_ENDPOINT_MAX in Hs.
    assert (0 <= slot < 8) as Hs' by lia. pose proof (get_ep_ok s slot Hok Hs') as Heok.
    pose proof (epo_generation _ Heok) as Hg.
    destruct (nz (ep_generation (get_ep s slot))) eqn:Hgz; [|b2p; lia].
    set (e := mk_endpoint _ _ _ _ _ _ _).
    assert (endpoint_ok e) as He by by apply fresh_endpoint_ok.
    split; [by apply set_ep_ok|]. right.
    pose proof (make_endpoint_eq slot e Hs' ltac:(subst e; simpl; lia)) as Hme. simpl in Hme.
    repeat split; [unfold IPC_ENDPOINT_TAG in Hme; lia|done| |].
    + unfold ipc_abs. destruct (resolve_endpoint s _) as [sl|] eqn:E; [|done].
      apply ipc_resolve_iff in E as (Hsl & Hu & Heq); [|done].
      apply make_endpoint_inj in Heq as [-> _]; [congruence|lia|lia|done|by apply get_ep_ok].
    + intros h'. rewrite abs_change by done. rewrite Hfree. simpl.
      unfold mb_set. by destruct (h' =? make_endpoint slot e).
  - split; [done|]. left. repeat split. right. intros slot Hs.
    rewrite zfind_None in Hf. specialize (Hf slot). unfold ARGUS_IPC_ENDPOINT_MAX in Hf.
    specialize (Hf ltac:(lia)). by b2p.
Qed.

Lemma destroy_refines s h :
  ipc_ok s ->
  let '(b, s') := ipc_endpoint_destroy s h in
  ipc_ok s' /\ (b = true <-> is_Some (ipc_abs s h)) /\
  forall h', ipc_abs s' h' = if b then mb_set (ipc_abs s) h None h' else ipc_abs s h'.
Proof.
  intros Hok. unfold ipc_endpoint_destroy. destruct (resolve_endpoint s h) as [slot|] eqn:Hr.
  - pose proof (proj1 (ipc_resolve_iff _ _ _ Hok) Hr) as (Hs & Hused & Hh).
    assert (forall g, endpoint_ok (mk_endpoint 0 (next_generation g) 0 0 0 false (replicate 8 message0))) as He.
    { intros g. apply fresh_endpoint_ok, next_generation_range. }
    split; [by apply set_ep_ok|]. split.
    + unfold ipc_abs. rewrite Hr. split; [eauto|done].
    + intros h'. rewrite abs_change by done. rewrite Hused, <- Hh. done.
  - split; [done|]. split; [|done]. unfold ipc_abs. rewrite Hr. split; [done|]. by intros [? ?].
Qed.

Lemma ipc_init_ok s : length s = 8%nat -> ipc_ok (ipc_init s) /\ forall h, ipc_abs (ipc_init s) h = None.
Proof.
  intros Hl. unfold ipc_init, ARGUS_IPC_ENDPOINT_MAX.
  set (body := fun _ _ => _).
  set (g := fun slot => Z.lxor 0x49500001 (u32 (u32 (slot + 1) * 0x9E3779B9))).
  destruct (for_range_inv (fun i st => length st = 8%nat /\
    forall slot, 0 <= slot < i -> get_ep st slot = mk_endpoint 0 (g slot) 0 0 0 false (replicate 8 message0))
    0 8 body s) as (Hl' & He); [lia|by split; [|lia]|..].
  { intros i st Hi (Hlst & Hst). subst body. simpl. arrays. split; [done|].
    intros slot Hslot. destruct (decide (slot = i)) as [->|].
    - unfold get_ep. arrays. done.
    - rewrite get_set_ep_ne by lia. apply Hst. lia. }
  assert (forall slot, 0 <= slot < 8 -> 1 <= g slot <= UINT32_MAX) as Hg.
  { intros slot Hs. assert (zall (fun slot => (1 <=? g slot) && (g slot <=? UINT32_MAX)) 0 8 = true) as Hall
      by (vm_compute; reflexivity).
    rewrite zall_true in Hall. specialize (Hall slot ltac:(lia)). b2p. lia. }
  assert (ipc_ok (for_range 0 8 body s)) as Hok.
  { split; [done|]. apply Forall_lookup. intros i e Hi. pose proof (lookup_lt_Some _ _ _ Hi).
    specialize (He (Z.of_nat i) ltac:(lia)). unfold get_ep, zget in He.
    rewrite Nat2Z.id, Hi in He. simpl in He. subst e. apply fresh_endpoint_ok, Hg. lia. }
  split; [done|]. intros h. unfold ipc_abs. destruct (resolve_endpoint _ h) as [slot|] eqn:E; [|done].
  apply ipc_resolve_iff in E as (Hs & Hu & _); [|done]. by rewrite He in Hu.
Qed.

(** ** Histories *)

Inductive ipc_op :=
  | IpcCreate (pid : Z)
  | IpcDestroy (handle : Z)
  | IpcSend (handle sender : Z) (bytes : list Z) (length : Z)
  | IpcReceive (handle receiver : Z) (buffer : list Z) (capacity : Z).

(** The caller's buffers are at least as long as the lengths it passes. *)
Definition ipc_op_wf (op : ipc_op) : Prop :=
  match op with
  | IpcSend _ _ bytes len => 0 <= len <= Z.of_nat (length bytes)
  | IpcReceive _ _ buffer capacity => 0 <= capacity <= Z.of_nat (length buffer)
  | _ => True
  end.

Definition ipc_exec (s : ipc_state) (op : ipc_op) : ipc_state :=
  match op with
  | IpcCreate pid => snd (ipc_endpoint_create s pid)
  | IpcDestroy h => snd (ipc_endpoint_destroy s h)
  | IpcSend h p bytes len => snd (ipc_send s h p (Some bytes) len)
  | IpcReceive h p buffer capacity => snd (ipc_receive s h p (Some buffer) capacity true true)
  end.

Definition ipc_run (ops : list ipc_op) (s : ipc_state) : ipc_state := fold_left ipc_exec ops s.

(** The packets an operation puts into, and takes out of, the mailbox [h]. *)
Definition accepted (h : Z) (s : ipc_state) (op : ipc_op) : list packet :=
  match op with
  | IpcSend h' p bytes len =>
      if (h' =? h) && fst (ipc_send s h' p (Some bytes) len)
      then [(p, take (Z.to_nat len) bytes)] else []
  | _ => []
  end.

Definition delivered (h : Z) (s : ipc_state) (op : ipc_op) : list packet :=
  match op with
  | IpcReceive h' p buffer capacity =>
      match fst (ipc_receive s h' p (Some buffer) capacity true true) with
      | Some (out, len, sender) => if h' =? h then [(sender, take (Z.to_nat len) out)] else []
      | None => []
      end
  | _ => []
  end.

Fixpoint ipc_log (f : ipc_state -> ipc_op -> list packet) (ops : list ipc_op) (s : ipc_state) : list packet :=
  match ops with
  | [] => []
  | op :: ops' => f s op ++ ipc_log f ops' (ipc_exec s op)
  end.

Lemma ipc_exec_ok s op : ipc_ok s -> ipc_op_wf op -> ipc_ok (ipc_exec s op).
Proof.
  intros Hok Hwf. destruct op as [pid|h|h p b n|h p b n]; simpl in *.
  - pose proof (create_refines s pid Hok) as H. destruct (ipc_endpoint_create s pid). apply H.
  - pose proof (destroy_refines s h Hok) as H. destruct (ipc_endpoint_destroy s h). apply H.
  - pose proof (send_refines s h p b n Hok Hwf) as H.
    destruct (ipc_send s h p (Some b) n), (mb_send _ _ _ _). apply H.
  - pose proof (receive_refines s h p b n Hok Hwf) as H.
    destruct (ipc_receive _ _ _ _ _ _ _), (mb_receive _ _ _ _). apply H.
Qed.

Lemma ipc_run_ok ops s : ipc_ok s -> Forall ipc_op_wf ops -> ipc_ok (ipc_run ops s).
Proof.
  intros Hok HF. revert s Hok. induction HF as [|op ops Hwf _ IH]; intros s Hok; [done|].
  apply IH. by apply ipc_exec_ok.
Qed.

(** One step seen from a live mailbox that is not destroyed. *)
Lemma ipc_exec_mailbox s op h r q :
  ipc_ok s -> ipc_op_wf op -> ipc_abs s h = Some (r, q) -> op <> IpcDestroy h ->
  exists q', ipc_abs (ipc_exec s op) h = Some (r, q')
             /\ q ++ accepted h s op = delivered h s op ++ q'.
Proof.
  intros Hok Hwf Habs Hnd. destruct op as [pid|h'|h' p b n|h' p b n]; simpl in *.
  - pose proof (create_refines s pid Hok) as H. destruct (ipc_endpoint_create s pid) as [h' s'].
    exists q. rewrite app_nil_r. split; [|done].
    destruct H as [_ [(_ & -> & _)|(_ & _ & Hnone & ->)]]; [done|].
    unfold mb_set. destruct (Z.eqb_spec h h') as [->|]; [congruence|done].
  - pose proof (destroy_refines s h' Hok) as H. destruct (ipc_endpoint_destroy s h') as [b s'].
    exists q. rewrite app_nil_r. split; [|done]. destruct H as (_ & _ & ->).
    destruct b; [|done]. unfold mb_set. destruct (Z.eqb_spec h h') as [->|]; [done|done].
  - pose proof (send_refines s h' p b n Hok Hwf) as H.
    destruct (ipc_send s h' p (Some b) n) as [ok s']. simpl.
    unfold mb_send in H. destruct (Z.eqb_spec h' h) as [->|Hne]; simpl.
    + rewrite Habs in H. case_if_in H.
      * destruct H as (-> & _ & ->). exists q. by rewrite app_nil_r.
      * destruct H as (-> & _ & ->). unfold mb_set. rewrite Z.eqb_refl. eauto.
    + exists q. rewrite app_nil_r. split; [|done].
      destruct (ipc_abs s h') as [[? ?]|]; [case_if_in H|]; destruct H as (_ & _ & ->); try done.
      unfold mb_set. by destruct (Z.eqb_spec h h') as [->|].
  - pose proof (receive_refines s h' p b n Hok Hwf) as H.
    destruct (ipc_receive s h' p (Some b) n true true) as [res s']. simpl.
    unfold mb_receive in H. destruct (Z.eqb_spec h' h) as [->|Hne].
    + rewrite Habs in H. rewrite app_nil_r. destruct q as [|pk q].
      { destruct H as (Hm & _ & ->). exists []. destruct res as [[[? ?] ?]|]; [done|]. done. }
      case_if_in H; destruct H as (Hm & _ & ->); destruct res as [[[out len] sender]|]; try done.
      * destruct Hm as (-> & _). exists q. unfold mb_set. by rewrite Z.eqb_refl.
      * exists (pk :: q). done.
    + exists q. rewrite app_nil_r.
      assert (ipc_abs s' h = ipc_abs s h) as ->.
      { destruct (ipc_abs s h') as [[? [|? ?]]|]; [|case_if_in H|]; destruct H as (_ & _ & ->); try done.
        unfold mb_set. by destruct (Z.eqb_spec h h') as [->|]. }
      by destruct res as [[[? ?] ?]|].
Qed.

Lemma ipc_exec_generation s op slot :
  ipc_ok s -> 0 <= slot < 8 ->
  exists n, (n <= 1)%nat /\
    ep_generation (get_ep (ipc_exec s op) slot) = gen_after n (ep_generation (get_ep s slot)).
Proof.
  intros Hok Hs.
  assert (forall sl e, 0 <= sl < 8 -> ep_generation e = ep_generation (get_ep s sl) ->
    ep_generation (get_ep (zset s sl e) slot) = ep_generation (get_ep s slot)) as Hsame.
  { intros sl e Hsl Hg. destruct (decide (sl = slot)) as [->|];
      [by rewrite get_set_ep_eq|by rewrite get_set_ep_ne by lia]. }
  assert (forall h sl, resolve_endpoint s h = Some sl -> 0 <= sl < 8) as Hrange.
  { intros h sl Hr. by apply ipc_resolve_iff in Hr as (? & _). }
  destruct op as [pid|h|h p b n|h p b n]; simpl.
  - exists 0%nat. split; [lia|]. unfold ipc_endpoint_create. case_if; [done|].
    destruct (zfind _ _ _) as [sl|] eqn:Hf; [|done]. simpl.
    apply zfind_Some in Hf as (Hsl & _). unfold ARGUS_IPC_ENDPOINT_MAX in Hsl.
    apply Hsame; [lia|]. simpl.
    pose proof (epo_generation _ (get_ep_ok s sl Hok ltac:(lia))). case_if; [done|b2p; lia].
  - unfold ipc_endpoint_destroy. destruct (resolve_endpoint s h) as [sl|] eqn:Hr; simpl; [|by exists 0%nat; split; [lia|]].
    pose proof (Hrange _ _ Hr). destruct (decide (sl = slot)) as [->|].
    + exists 1%nat. split; [lia|]. by rewrite get_set_ep_eq.
    + exists 0%nat. split; [lia|]. by rewrite get_set_ep_ne by lia.
  - exists 0%nat. split; [lia|]. unfold ipc_send.
    destruct (resolve_endpoint s h) as [sl|] eqn:Hr; [|done]. case_if; [done|].
    apply Hsame; [by eapply Hrange|done].
  - exists 0%nat. split; [lia|]. unfold ipc_receive.
    destruct (resolve_endpoint s h) as [sl|] eqn:Hr; [|done]. case_if; [done|]. case_if; [done|].
    apply Hsame; [by eapply Hrange|done].
Qed.

Lemma ipc_run_generation ops s slot :
  ipc_ok s -> Forall ipc_op_wf ops -> 0 <= slot < 8 ->
  exists n, (n <= length ops)%nat /\
    ep_generation (get_ep (ipc_run ops s) slot) = gen_after n (ep_generation (get_ep s slot)).
Proof.
  intros Hok HF Hs. revert s Hok. induction HF as [|op ops Hwf _ IH]; intros s Hok; simpl.
  - exists 0%nat. split; [lia|done].
  - destruct (ipc_exec_generation s op slot Hok Hs) as (a & Ha & HA).
    destruct (IH (ipc_exec s op)) as (b & Hb & HB); [by apply ipc_exec_ok|].
    exists (b + a)%nat. split; [lia|]. unfold ipc_run in *. simpl.
    by rewrite HB, HA, gen_after_plus.
Qed.

(** ** Properties *)

(** The ring implements the abstract mailbox for sends: a send succeeds
    exactly when the handle is live, the sender is nonzero, the payload has 1
    to 64 bytes and the queue holds fewer than eight packets; it then appends
    the packet to that mailbox and changes no other; otherwise nothing changes. *)
Theorem ipc_send_refines s h sender bytes len :
  ipc_ok s -> 0 <= len <= Z.of_nat (length bytes) ->
  let '(b, s') := ipc_send s h sender (Some bytes) len in
  let '(b', mb) := mb_send (ipc_abs s) h sender (take (Z.to_nat len) bytes) in
  b = b' /\ ipc_ok s' /\ forall h', ipc_abs s' h' = mb h'.
Proof. apply send_refines. Qed.

(** Receives implement the abstract mailbox: only the owner of a live
    handle gets a packet, the oldest one, whole, and only when its buffer is
    large enough; bytes of the buffer past the message are untouched, a failed
    receive changes nothing and no other mailbox changes. *)
Theorem ipc_receive_refines s h receiver buffer capacity :
  ipc_ok s -> 0 <= capacity <= Z.of_nat (length buffer) ->
  let '(r, s') := ipc_receive s h receiver (Some buffer) capacity true true in
  let '(r', mb) := mb_receive (ipc_abs s) h receiver capacity in
  match r, r' with
  | Some (out, len, sender), Some p =>
      p = (sender, take (Z.to_nat len) out) /\ 0 <= len <= capacity
      /\ drop (Z.to_nat len) out = drop (Z.to_nat len) buffer
  | None, None => True
  | _, _ => False
  end
  /\ ipc_ok s' /\ forall h', ipc_abs s' h' = mb h'.
Proof. apply receive_refines. Qed.

(** C10: first in, first out, without loss or invention.  Through any history of
    creates, destroys of other handles, sends and receives, what was queued
    plus what was accepted on a mailbox equals what was delivered from it plus
    what is still queued, in order. *)
Theorem ipc_fifo ops s h r q :
  ipc_ok s -> Forall ipc_op_wf ops -> ipc_abs s h = Some (r, q) -> IpcDestroy h ∉ ops ->
  exists q', ipc_abs (ipc_run ops s) h = Some (r, q')
             /\ q ++ ipc_log (accepted h) ops s = ipc_log (delivered h) ops s ++ q'.
Proof.
  intros Hok HF. revert s q Hok. induction HF as [|op ops Hwf _ IH]; intros s q Hok Habs Hnd.
  - exists q. simpl. by rewrite app_nil_r.
  - apply not_elem_of_cons in Hnd as [Hne Hnd].
    destruct (ipc_exec_mailbox s op h r q) as (q1 & Habs1 & Hq1); [done..|by intros ->|].
    destruct (IH (ipc_exec s op) q1) as (q' & Habs' & Hq'); [by apply ipc_exec_ok|done..|].
    exists q'. split; [done|]. cbn [ipc_log]. rewrite app_assoc, Hq1, <- !app_assoc. by rewrite Hq'.
Qed.

(** A destroyed endpoint's handle stays dead: through any later history of
    fewer than 2^32 - 2 operations it names no mailbox, even when its slot is
    given to another receiver. *)
Theorem ipc_destroyed_stays_dead s h s1 ops :
  ipc_ok s -> ipc_endpoint_destroy s h = (true, s1) ->
  Forall ipc_op_wf ops -> Z.of_nat (length ops) < UINT32_MAX - 1 ->
  resolve_endpoint (ipc_run ops s1) h = None.
Proof.
  intros Hok Hd HF Hlen. pose proof (destroy_refines s h Hok) as Hr. rewrite Hd in Hr.
  destruct Hr as (Hok1 & _). pose proof (ipc_run_ok ops s1 Hok1 HF) as Hok2.
  destruct (resolve_endpoint (ipc_run ops s1) h) as [sl|] eqn:E; [exfalso|done].
  apply ipc_resolve_iff in E as (Hsl & _ & Hh); [|done].
  unfold ipc_endpoint_destroy in Hd. destruct (resolve_endpoint s h) as [slot|] eqn:Hres; [|done].
  injection Hd as <-. apply ipc_resolve_iff in Hres as (Hs & _ & Hh0); [|done].
  pose proof (get_ep_ok s slot Hok Hs) as He. pose proof (get_ep_ok _ sl Hok2 Hsl) as He2.
  rewrite Hh0 in Hh. apply make_endpoint_inj in Hh as (<- & Hgen); [|done..].
  destruct (ipc_run_generation ops _ slot Hok1 HF Hs) as (n & Hn & HG).
  rewrite get_set_ep_eq in HG by done. cbn [ep_generation] in HG.
  apply (gen_after_fresh (S n) (ep_generation (get_ep s slot))); [apply He|lia|lia|].
  replace (S n) with (n + 1)%nat by lia. rewrite <- gen_after_plus. simpl gen_after at 2. congruence.
Qed.

(** ** Witnesses *)

Definition ipc_sample_state : ipc_state := ipc_init (replicate 8 endpoint0).
Definition ipc_sample_handle : Z := fst (ipc_endpoint_create ipc_sample_state 41).
Definition ipc_sample_live : ipc_state := snd (ipc_endpoint_create ipc_sample_state 41).
Definition ipc_sample_sent : ipc_state :=
  snd (ipc_send ipc_sample_live ipc_sample_handle 17 (Some [0x41; 0x52; 0x47]) 3).

Lemma ipc_sample_live_ok : ipc_ok ipc_sample_live.
Proof. apply (ipc_exec_ok ipc_sample_state (IpcCreate 41)); [by apply ipc_init_ok|done]. Qed.
Lemma ipc_sample_sent_ok : ipc_ok ipc_sample_sent.
Proof.
  apply (ipc_exec_ok ipc_sample_live (IpcSend ipc_sample_handle 17 [0x41; 0x52; 0x47] 3));
    [apply ipc_sample_live_ok|simpl; lia].
Qed.

Lemma ipc_send_refines_witness :
  fst (ipc_send ipc_sample_live ipc_sample_handle 17 (Some [0x41; 0x52; 0x47]) 3)
  = fst (mb_send (ipc_abs ipc_sample_live) ipc_sample_handle 17 [0x41; 0x52; 0x47]).
Proof.
  pose proof (ipc_send_refines ipc_sample_live ipc_sample_handle 17 [0x41; 0x52; 0x47] 3
                ipc_sample_live_ok ltac:(simpl; lia)) as H.
  change (take (Z.to_nat 3) [0x41; 0x52; 0x47]) with [0x41; 0x52; 0x47] in H.
  destruct (ipc_send _ _ _ _ _), (mb_send _ _ _ _). apply H.
Defined.

Lemma ipc_receive_refines_witness :
  ipc_ok (snd (ipc_receive ipc_sample_sent ipc_sample_handle 41 (Some [0; 0; 0]) 3 true true)).
Proof.
  pose proof (ipc_receive_refines ipc_sample_sent ipc_sample_handle 41 [0; 0; 0] 3
                ipc_sample_sent_ok ltac:(simpl; lia)) as H.
  destruct (ipc_receive _ _ _ _ _ _ _), (mb_receive _ _ _ _). apply H.
Defined.

Lemma ipc_fifo_witness :
  exists q', ipc_abs (ipc_run [IpcSend ipc_sample_handle 17 [1; 2] 2; IpcReceive ipc_sample_handle 41 [0; 0; 0] 3]
                    ipc_sample_live) ipc_sample_handle = Some (41, q')
    /\ [] ++ [(17, [1; 2])] = [(17, [1; 2])] ++ q'.
Proof.
  apply (ipc_fifo [IpcSend ipc_sample_handle 17 [1; 2] 2; IpcReceive ipc_sample_handle 41 [0; 0; 0] 3]
           ipc_sample_live ipc_sample_handle 41 []).
  - apply ipc_sample_live_ok.
  - repeat constructor; simpl; lia.
  - vm_compute. reflexivity.
  - rewrite !not_elem_of_cons. repeat split; [discriminate..|apply not_elem_of_nil].
Defined.

Lemma ipc_destroyed_stays_dead_witness :
  resolve_endpoint (ipc_run [IpcCreate 42] (snd (ipc_endpoint_destroy ipc_sample_live ipc_sample_handle)))
    ipc_sample_handle = None.
Proof.
  apply (ipc_destroyed_stays_dead ipc_sample_live).
  - apply ipc_sample_live_ok.
  - vm_compute. reflexivity.
  - repeat constructor.
  - done.
Defined.
