(* ===== verification/Ring.v ===== *)
(** * Ring buffers

    The kernel's input queues (the keys of an application, the PS/2 key and
    mouse queues) are arrays of a power-of-two capacity with a head where the
    producer stores and a tail where the consumer loads; one cell stays empty.
    This file gives their contents as a list and what a push and a pop do. *)

From stdpp Require Import base list gmap numbers.
From Stdlib Require Import ZArith Lia.
From S2P Require Import Prelude.

Open Scope Z_scope.

Lemma zrange_succ n : zrange 0 (S n) = 0 :: map (fun i => i + 1) (zrange 0 n).
Proof.
  simpl. f_equal. generalize 0. induction n as [|n IH]; intros lo; simpl; [done|]. by rewrite IH.
Qed.

Section ring.
Context {A : Type} (d : A) (cap : Z).
Hypothesis Hcap : 0 < cap.
Implicit Types (cells : list A) (head tail : Z).

(** Distances and successors without the division. *)
Lemma ring_distance head tail :
  0 <= head < cap -> 0 <= tail < cap ->
  (head - tail) mod cap = if tail <=? head then head - tail else head - tail + cap.
Proof.
  intros Hh Ht. destruct (Z.leb_spec tail head); [apply Z.mod_small; lia|].
  rewrite <- (Z.mod_add _ 1) by lia. rewrite Z.mod_small; lia.
Qed.

Lemma ring_succ x : 0 <= x < cap -> (x + 1) mod cap = if x + 1 =? cap then 0 else x + 1.
Proof.
  intros Hx. destruct (Z.eqb_spec (x + 1) cap) as [->|]; [apply Z.mod_same; lia|apply Z.mod_small; lia].
Qed.

(** Two offsets from the tail name the same cell only when they are equal. *)
Lemma ring_offset_inj tail i j : 0 <= i < cap -> 0 <= j < cap -> (tail + i) mod cap = (tail + j) mod cap -> i = j.
Proof.
  intros Hi Hj E. rewrite <- (Z.mod_small i cap), <- (Z.mod_small j cap) by done.
  replace i with (tail + i - tail) by lia. replace j with (tail + j - tail) by lia.
  rewrite <- (Zminus_mod_idemp_l (tail + i)), <- (Zminus_mod_idemp_l (tail + j)). by rewrite E.
Qed.

Ltac ring_cases :=
  rewrite ?ring_succ, ?ring_distance in * by (rewrite ?ring_succ by lia; repeat case_if; b2p; lia);
  repeat match goal with
         | |- context [if ?b then _ else _] => destruct b eqn:?
         | H : context [if ?b then _ else _] |- _ => destruct b eqn:?
         end; b2p.

(** The elements waiting, oldest first. *)
Definition ring_contents cells head tail : list A :=
  map (fun i => zget d cells ((tail + i) mod cap)) (zrange 0 (Z.to_nat ((head - tail) mod cap))).

Lemma ring_contents_length cells head tail : Z.of_nat (length (ring_contents cells head tail)) = (head - tail) mod cap.
Proof. unfold ring_contents. rewrite length_map, zrange_length. pose proof (Z.mod_pos_bound (head - tail) cap). lia. Qed.

Lemma ring_contents_nil cells head tail :
  0 <= head < cap -> 0 <= tail < cap -> (ring_contents cells head tail = [] <-> head = tail).
Proof.
  intros Hh Ht. rewrite <- length_zero_iff_nil. pose proof (ring_contents_length cells head tail) as Hl. split.
  - intros H0. rewrite H0 in Hl. ring_cases; lia.
  - intros ->. ring_cases; lia.
Qed.

(** The distance from tail to head, one step on either side. *)
Lemma distance_tail head tail :
  0 <= head < cap -> 0 <= tail < cap -> tail <> head -> (head - (tail + 1) mod cap) mod cap = (head - tail) mod cap - 1.
Proof. intros. ring_cases; lia. Qed.

Lemma distance_head head tail :
  0 <= head < cap -> 0 <= tail < cap -> (head + 1) mod cap <> tail -> ((head + 1) mod cap - tail) mod cap = (head - tail) mod cap + 1.
Proof. intros. ring_cases; lia. Qed.

(** Taking the oldest element. *)
Lemma ring_pop cells head tail :
  0 <= head < cap -> 0 <= tail < cap -> tail <> head ->
  ring_contents cells head tail = zget d cells tail :: ring_contents cells head ((tail + 1) mod cap).
Proof.
  intros Hh Ht Hne. unfold ring_contents. rewrite distance_tail by done.
  assert (0 < (head - tail) mod cap) as Hp by (ring_cases; lia).
  replace (Z.to_nat ((head - tail) mod cap)) with (S (Z.to_nat ((head - tail) mod cap - 1))) by lia.
  rewrite zrange_succ. cbn [map]. rewrite Z.add_0_r, Z.mod_small by done. f_equal. rewrite map_map.
  apply map_ext. intros i. f_equal. rewrite Zplus_mod_idemp_l. f_equal. lia.
Qed.

(** Putting an element behind the others. *)
Lemma ring_push cells head tail v :
  Z.of_nat (length cells) = cap -> 0 <= head < cap -> 0 <= tail < cap -> (head + 1) mod cap <> tail ->
  ring_contents (zset cells head v) ((head + 1) mod cap) tail = ring_contents cells head tail ++ [v].
Proof.
  intros Hl Hh Ht Hne. unfold ring_contents. rewrite distance_head by done.
  set (n := (head - tail) mod cap). assert (0 <= n < cap) as Hn by (apply Z.mod_pos_bound; lia).
  replace (Z.to_nat (n + 1)) with (Z.to_nat n + 1)%nat by lia. rewrite zrange_app, map_app.
  assert ((tail + n) mod cap = head) as Hhead.
  { unfold n. rewrite Zplus_mod_idemp_r. replace (tail + (head - tail)) with head by lia. by apply Z.mod_small. }
  f_equal.
  - apply map_ext_in. intros i Hi. apply list_elem_of_In, elem_of_zrange in Hi.
    pose proof (Z.mod_pos_bound (tail + i) cap Hcap). apply zget_zset_ne; [lia|lia|].
    intros E. assert (i = n); [|lia]. eapply (ring_offset_inj tail); [lia|lia|]. congruence.
  - cbn [map zrange]. f_equal. replace (0 + Z.of_nat (Z.to_nat n)) with n by lia. rewrite Hhead. apply zget_zset_eq. lia.
Qed.

(** The ring is full when it holds [cap - 1] elements. *)
Lemma ring_full cells head tail :
  0 <= head < cap -> 0 <= tail < cap ->
  ((head + 1) mod cap = tail <-> Z.of_nat (length (ring_contents cells head tail)) = cap - 1).
Proof. intros Hh Ht. rewrite ring_contents_length. split; intros E; ring_cases; lia. Qed.

(** A store to the head's cell of a ring that is not full changes nothing the
    consumer can see. *)
Lemma ring_store_unseen cells head tail v :
  0 <= head < cap -> 0 <= tail < cap -> ring_contents (zset cells head v) head tail = ring_contents cells head tail.
Proof.
  intros Hh Ht. unfold ring_contents. apply map_ext_in. intros i Hi. apply list_elem_of_In, elem_of_zrange in Hi.
  pose proof (Z.mod_pos_bound (tail + i) cap Hcap). apply zget_zset_ne; [lia|lia|].
  pose proof (Z.mod_pos_bound (head - tail) cap Hcap). intros E.
  assert (i = (head - tail) mod cap); [|lia]. eapply (ring_offset_inj tail); [lia|lia|].
  rewrite <- E, Zplus_mod_idemp_r. replace (tail + (head - tail)) with head by lia. by rewrite Z.mod_small.
Qed.

End ring.
