(* ===== verification/BootInfo.v ===== *)
(** * The boot handoff record (src/boot_info.h, src/uefi_memory.h, src/efi.h)

    What the UEFI loader passes to the kernel: the final memory map as a buffer
    of descriptors [descriptor_size] bytes apart, the physical ranges that stay
    live, and the storage of the page allocator's bitmaps.  Null pointers are
    [None] (buffers) or 0 (addresses). *)

From stdpp Require Import base list numbers.
From Stdlib Require Import ZArith Lia.
From S2P Require Import Prelude Memory.

Open Scope Z_scope.

Definition ARGUS_BOOT_INFO_MAGIC : Z := 0x4152475553424F4F.
Definition ARGUS_PAGE_SIZE : Z := 4096.

Definition EfiConventionalMemory : Z := 7.
Definition EfiMemoryMappedIO : Z := 11.

Record physical_range_t := mk_range { range_base : Z; range_size : Z }.

Record memory_map_t := mk_map {
  map_buffer : option (list Z);
  map_size : Z;
  map_capacity : Z;
  map_key : Z;
  map_descriptor_size : Z;
  map_descriptor_version : Z }.

(** [EFI_MEMORY_DESCRIPTOR]: the compiler pads [Type] to eight bytes. *)
Record efi_memory_descriptor := mk_descriptor {
  md_type : Z;
  md_physical_start : Z;
  md_virtual_start : Z;
  md_number_of_pages : Z;
  md_attribute : Z }.

Definition read_descriptor (buffer : list Z) (offset : Z) : efi_memory_descriptor :=
  let get := zget 0 buffer in
  mk_descriptor (le_read get offset 4) (le_read get (offset + 8) 8)
    (le_read get (offset + 16) 8) (le_read get (offset + 24) 8) (le_read get (offset + 32) 8).

(** The descriptors the loop [while (p < end) { ...; p += descriptor_size; }]
    visits.  The step is positive, so [size] iterations are enough. *)
Fixpoint walk_descriptors (buffer : list Z) (p size step : Z) (fuel : nat)
  : list efi_memory_descriptor :=
  match fuel with
  | O => []
  | S f => if p <? size
           then read_descriptor buffer p :: walk_descriptors buffer (p + step) size step f
           else []
  end.

Definition map_descriptors (map : memory_map_t) : list efi_memory_descriptor :=
  match map_buffer map with
  | Some buffer => walk_descriptors buffer 0 (map_size map) (map_descriptor_size map)
                     (Z.to_nat (map_size map))
  | None => []
  end.

Record framebuffer_info_t := mk_framebuffer {
  fb_base : Z;
  fb_size : Z;
  fb_width : Z;
  fb_height : Z;
  fb_pitch_pixels : Z;
  fb_format : Z;
  fb_usable : Z }.

Record boot_info_t := mk_boot_info {
  bi_magic : Z;
  bi_version : Z;
  bi_boot_services_exited : Z;
  bi_kernel_self_test : Z;
  bi_memory_map : memory_map_t;
  bi_framebuffer : framebuffer_info_t;
  bi_acpi_rsdp : Z;
  bi_kernel_image : physical_range_t;
  bi_boot_info_storage : physical_range_t;
  bi_kernel_stack : physical_range_t;
  bi_kernel_stack_guard : physical_range_t;
  bi_pmm_bitmap_storage : physical_range_t;
  bi_memory_map_storage : physical_range_t;
  bi_pmm_page_count : Z;
  bi_pmm_bitmap_bytes : Z }.

(** Fuel: once the cursor has passed the end, or with fuel for every byte of
    the map, more fuel changes nothing. *)
Lemma walk_descriptors_fuel buffer p size step a b :
  0 < step -> size - p <= Z.of_nat a -> size - p <= Z.of_nat b ->
  walk_descriptors buffer p size step a = walk_descriptors buffer p size step b.
Proof.
  intros Hs. revert p b. induction a as [|a IH]; intros p b Ha Hb.
  - destruct b as [|b]; [done|]. cbn [walk_descriptors].
    destruct (Z.ltb_spec p size); [lia|done].
  - destruct b as [|b]; cbn [walk_descriptors].
    + destruct (Z.ltb_spec p size); [lia|done].
    + destruct (Z.ltb_spec p size); [|done]. f_equal. apply IH; lia.
Qed.

Lemma le_read_list_bound (bs : list Z) a n :
  Forall (fun b => 0 <= b < 256) bs -> 0 <= le_read (zget 0 bs) a n < 256 ^ Z.of_nat n.
Proof.
  intros HF. apply le_read_bound. intros i. unfold zget.
  destruct (bs !! Z.to_nat i) eqn:E; simpl; [|lia]. by eapply Forall_lookup_1 in HF.
Qed.

Lemma read_descriptor_bound buffer p :
  Forall (fun b => 0 <= b < 256) buffer ->
  0 <= md_physical_start (read_descriptor buffer p) <= UINT64_MAX
  /\ 0 <= md_number_of_pages (read_descriptor buffer p) <= UINT64_MAX.
Proof.
  intros HF. unfold read_descriptor. cbn [md_physical_start md_number_of_pages].
  pose proof (le_read_list_bound buffer (p + 8) 8 HF).
  pose proof (le_read_list_bound buffer (p + 24) 8 HF).
  change (256 ^ Z.of_nat 8) with 18446744073709551616 in *. unfold UINT64_MAX. lia.
Qed.

Lemma walk_descriptors_bound buffer p size step fuel :
  Forall (fun b => 0 <= b < 256) buffer ->
  Forall (fun d => 0 <= md_physical_start d <= UINT64_MAX
                   /\ 0 <= md_number_of_pages d <= UINT64_MAX)
    (walk_descriptors buffer p size step fuel).
Proof.
  intros HF. revert p. induction fuel as [|f IH]; intros p; cbn [walk_descriptors]; [constructor|].
  case_if; [|constructor]. constructor; [by apply read_descriptor_bound|apply IH].
Qed.
