(* ===== verification/Allocator.v ===== *)
(** * The page-allocator interface

    What the physical page allocator (src/pmm.c) promises to its clients: the
    kernel heap, the page tables and the process loader.  The clients' theorems
    are proved against this interface; Pmm.v provides the instance. *)

From stdpp Require Import base list gmap numbers.
From Stdlib Require Import ZArith Lia.
From S2P Require Import Prelude BootInfo.

Open Scope Z_scope.

(** The page numbers [p, p+n). *)
Definition page_run (p n : Z) : gset Z := list_to_set (zrange p (Z.to_nat n)).

Lemma elem_of_page_run q p n : q ∈ page_run p n <-> p <= q < p + n.
Proof. unfold page_run. rewrite elem_of_list_to_set, elem_of_zrange. lia. Qed.

(** A state of the allocator, its invariant, the pages it can still give out
    and the pages it has given out; allocation of [n] contiguous pages returns
    the address of the first or 0, release takes an address and a count. *)
Class PageAllocator (S : Type) := {
  pa_ok : S -> Prop;
  pa_free : S -> gset Z;
  pa_live : S -> gset Z;
  pa_alloc : S -> Z -> Z * S;
  pa_release : S -> Z -> Z -> bool * S }.

Class PageAllocatorLaws (S : Type) `{!PageAllocator S} : Prop := {
  pa_disjoint : forall s, pa_ok s -> pa_free s ## pa_live s;
  pa_alloc_spec : forall s n, pa_ok s -> 0 <= n ->
    let '(a, s') := pa_alloc s n in
    (a = 0 /\ s' = s /\ (n = 0 \/ forall p, ~ page_run p n ⊆ pa_free s))
    \/ exists p, a = p * ARGUS_PAGE_SIZE /\ 0 < p /\ 0 < n
         /\ (p + n) * ARGUS_PAGE_SIZE <= UINT64_MAX
         /\ page_run p n ⊆ pa_free s
         /\ pa_ok s' /\ pa_free s' = pa_free s ∖ page_run p n
         /\ pa_live s' = pa_live s ∪ page_run p n;
  pa_release_spec : forall s a n, pa_ok s -> 0 <= a -> 0 <= n ->
    let '(b, s') := pa_release s a n in
    let run := page_run (a / ARGUS_PAGE_SIZE) n in
    (b = false /\ s' = s /\ ~ (a mod ARGUS_PAGE_SIZE = 0 /\ 0 < n /\ run ⊆ pa_live s))
    \/ (b = true /\ a mod ARGUS_PAGE_SIZE = 0 /\ 0 < n /\ run ⊆ pa_live s
        /\ pa_ok s' /\ pa_free s' = pa_free s ∪ run /\ pa_live s' = pa_live s ∖ run) }.

Section derived.
Context {S : Type} `{PageAllocatorLaws S}.
Implicit Types s : S.

(** A successful allocation is page aligned, not null, and touches no page
    that was already handed out. *)
Lemma pa_alloc_fresh s n a s' :
  pa_ok s -> 0 <= n -> pa_alloc s n = (a, s') -> a <> 0 ->
  a mod ARGUS_PAGE_SIZE = 0 /\ 0 < a /\ a + n * ARGUS_PAGE_SIZE <= UINT64_MAX
  /\ page_run (a / ARGUS_PAGE_SIZE) n ## pa_live s
  /\ page_run (a / ARGUS_PAGE_SIZE) n ⊆ pa_live s' /\ pa_live s ⊆ pa_live s' /\ pa_ok s'.
Proof.
  intros Hok Hn Ha Hne. pose proof (pa_alloc_spec s n Hok Hn) as Hs. rewrite Ha in Hs.
  destruct Hs as [(-> & _)|(p & -> & Hp & Hn0 & Hmax & Hsub & Hok' & Hf & Hl)]; [done|].
  unfold ARGUS_PAGE_SIZE in *. rewrite Z.mod_mul, Z.div_mul by lia.
  pose proof (pa_disjoint s Hok). split_and!; try done; try lia; set_solver.
Qed.

Lemma pa_alloc_zero s n a s' :
  pa_ok s -> 0 <= n -> pa_alloc s n = (a, s') -> a = 0 -> s' = s.
Proof.
  intros Hok Hn Ha ->. pose proof (pa_alloc_spec s n Hok Hn) as Hs. rewrite Ha in Hs.
  destruct Hs as [(_ & -> & _)|(p & Hp & Hp0 & _)]; [done|]. unfold ARGUS_PAGE_SIZE in *. lia.
Qed.

Lemma pa_alloc_ok s n : pa_ok s -> 0 <= n -> pa_ok (snd (pa_alloc s n)).
Proof.
  intros Hok Hn. pose proof (pa_alloc_spec s n Hok Hn) as Hs.
  destruct (pa_alloc s n) as [a s']. simpl.
  destruct Hs as [(_ & -> & _)|(p & _ & _ & _ & _ & _ & Hok' & _)]; done.
Qed.

Lemma pa_release_ok s a n : pa_ok s -> 0 <= a -> 0 <= n -> pa_ok (snd (pa_release s a n)).
Proof.
  intros Hok Ha Hn. pose proof (pa_release_spec s a n Hok Ha Hn) as Hs.
  destruct (pa_release s a n) as [b s']. simpl.
  destruct Hs as [(_ & -> & _)|(_ & _ & _ & _ & Hok' & _)]; done.
Qed.

(** Releasing what was just allocated succeeds and gives back the same sets. *)
Lemma pa_alloc_release s n a s' :
  pa_ok s -> 0 <= n -> pa_alloc s n = (a, s') -> a <> 0 ->
  exists s'', pa_release s' a n = (true, s'') /\ pa_ok s''
    /\ pa_free s'' = pa_free s /\ pa_live s'' = pa_live s.
Proof.
  intros Hok Hn Ha Hne. pose proof (pa_alloc_spec s n Hok Hn) as Hs. rewrite Ha in Hs.
  destruct Hs as [(-> & _)|(p & -> & Hp & Hn0 & Hmax & Hsub & Hok' & Hf & Hl)]; [done|].
  pose proof (pa_release_spec s' (p * ARGUS_PAGE_SIZE) n Hok') as Hr.
  unfold ARGUS_PAGE_SIZE in *. rewrite Z.mod_mul, Z.div_mul in Hr by lia.
  pose proof (pa_disjoint s Hok) as Hdis.
  destruct (pa_release s' (p * 4096) n) as [b s''].
  destruct Hr as [(-> & _ & Hnot)|(-> & _ & _ & _ & Hok'' & Hf'' & Hl'')]; [lia|lia| |].
  - exfalso. apply Hnot. split_and!; [done|done|set_solver].
  - exists s''. split_and!; [done|done| |].
    + rewrite Hf'', Hf. apply set_eq. intros q. rewrite elem_of_union, elem_of_difference.
      destruct (decide (q ∈ page_run p n)); set_solver.
    + rewrite Hl'', Hl. set_solver.
Qed.
End derived.
