(* ===== verification/Pmm.v ===== *)
(** * Physical page allocator (src/pmm.c)

    Two bitmaps, one bit per page frame: whether the page is managed at all and
    whether it is in use.  The five static variables are the record
    [pmm_state]; the bitmaps are byte arrays. *)

From stdpp Require Import base list gmap numbers.
From Stdlib Require Import ZArith Lia.
From S2P Require Import Prelude Memory BootInfo Allocator.

Open Scope Z_scope.

(** ** State *)

Record pmm_state := mk_pmm {
  usable_bitmap : list Z;
  used_bitmap : list Z;
  page_count : Z;
  managed_count : Z;
  free_count : Z }.

Definition pmm0 : pmm_state := mk_pmm [] [] 0 0 0.

Definition with_usable (s : pmm_state) (b : list Z) : pmm_state :=
  mk_pmm b (used_bitmap s) (page_count s) (managed_count s) (free_count s).
Definition with_used (s : pmm_state) (b : list Z) : pmm_state :=
  mk_pmm (usable_bitmap s) b (page_count s) (managed_count s) (free_count s).
Definition with_counts (s : pmm_state) (managed free : Z) : pmm_state :=
  mk_pmm (usable_bitmap s) (used_bitmap s) (page_count s) managed free.

(** ** Operations *)

Definition bit_get (bitmap : list Z) (page : Z) : bool :=
  nz ((zget 0 bitmap (page >> 3) >> (page & 7)) & 1).

Definition bit_set (bitmap : list Z) (page : Z) : list Z :=
  zset bitmap (page >> 3) (Z.lor (zget 0 bitmap (page >> 3)) (u8 (1 << (page & 7)))).

Definition bit_clear (bitmap : list Z) (page : Z) : list Z :=
  zset bitmap (page >> 3) (zget 0 bitmap (page >> 3) & u8 (Z.lnot (1 << (page & 7)))).

Definition make_usable (s : pmm_state) (page : Z) : pmm_state :=
  if (page_count s <=? page) || bit_get (usable_bitmap s) page then s
  else
    let s := with_usable s (bit_set (usable_bitmap s) page) in
    let s := with_used s (bit_clear (used_bitmap s) page) in
    with_counts s (u64 (managed_count s + 1)) (u64 (free_count s + 1)).

Definition reserve_page (s : pmm_state) (page : Z) : pmm_state :=
  if (page_count s <=? page) || negb (bit_get (usable_bitmap s) page) then s
  else
    let s := with_usable s (bit_clear (usable_bitmap s) page) in
    let s := if negb (bit_get (used_bitmap s) page)
             then with_counts s (managed_count s) (u64 (free_count s - 1)) else s in
    let s := with_used s (bit_set (used_bitmap s) page) in
    with_counts s (u64 (managed_count s - 1)) (free_count s).

Definition reserve_range (s : pmm_state) (range : physical_range_t) : pmm_state :=
  if negb (nz (range_size range))
     || (u64 (page_count s * ARGUS_PAGE_SIZE) <=? range_base range) then s
  else
    let start := range_base range / ARGUS_PAGE_SIZE in
    let last_byte :=
      if UINT64_MAX - range_base range <? range_size range - 1 then UINT64_MAX
      else range_base range + range_size range - 1 in
    let end_ := last_byte / ARGUS_PAGE_SIZE + 1 in
    let end_ := if page_count s <? end_ then page_count s else end_ in
    for_range start end_ (fun page s => reserve_page s page) s.

(** One descriptor of the memory map in [pmm_init]. *)
Definition add_descriptor (s : pmm_state) (descriptor : efi_memory_descriptor) : pmm_state :=
  if md_type descriptor =? EfiConventionalMemory then
    let first := md_physical_start descriptor / ARGUS_PAGE_SIZE in
    let count := md_number_of_pages descriptor in
    if first <? page_count s then
      let count := if page_count s - first <? count then page_count s - first else count in
      for_range 0 count (fun i s => make_usable s (first + i)) s
    else s
  else s.

Definition pmm_init (s : pmm_state) (boot_info : option boot_info_t) : bool * pmm_state :=
  match boot_info with
  | None => (false, s)
  | Some bi =>
      if (bi_magic bi !=? ARGUS_BOOT_INFO_MAGIC)
         || negb (nz (bi_boot_services_exited bi))
         || match map_buffer (bi_memory_map bi) with None => true | Some _ => false end
         || negb (nz (map_descriptor_size (bi_memory_map bi)))
         || negb (nz (bi_pmm_page_count bi))
         || negb (nz (range_base (bi_pmm_bitmap_storage bi)))
         || negb (nz (bi_pmm_bitmap_bytes bi))
      then (false, s)
      else
        let s := mk_pmm (replicate (Z.to_nat (bi_pmm_bitmap_bytes bi)) 0)
                        (replicate (Z.to_nat (bi_pmm_bitmap_bytes bi)) 0xFF)
                        (bi_pmm_page_count bi) 0 0 in
        let s := fold_left add_descriptor (map_descriptors (bi_memory_map bi)) s in
        let s := reserve_range s (mk_range 0 0x100000) in
        let s := reserve_range s (bi_kernel_image bi) in
        let s := reserve_range s (bi_boot_info_storage bi) in
        let s := reserve_range s (bi_kernel_stack bi) in
        let s := reserve_range s (bi_pmm_bitmap_storage bi) in
        let s := reserve_range s (bi_memory_map_storage bi) in
        let s := reserve_range s (mk_range (fb_base (bi_framebuffer bi))
                                           (fb_size (bi_framebuffer bi))) in
        let s := if nz (bi_acpi_rsdp bi)
                 then reserve_range s (mk_range (bi_acpi_rsdp bi) ARGUS_PAGE_SIZE) else s in
        (nz (managed_count s), s)
  end.

(** The scan of [pmm_alloc_pages]: the start of the first run of [count] free
    pages among the [fuel] pages from [page], given the run that ends there. *)
Fixpoint alloc_scan (s : pmm_state) (count page run_start run_length : Z) (fuel : nat)
  : option Z :=
  match fuel with
  | O => None
  | S f =>
      if bit_get (usable_bitmap s) page && negb (bit_get (used_bitmap s) page) then
        let run_start := if negb (nz run_length) then page else run_start in
        let run_length := run_length + 1 in
        if run_length !=? count then alloc_scan s count (page + 1) run_start run_length f
        else Some run_start
      else alloc_scan s count (page + 1) run_start 0 f
  end.

Definition pmm_alloc_pages (s : pmm_state) (count : Z) : Z * pmm_state :=
  if negb (nz count) || (free_count s <? count) then (0, s)
  else
    match alloc_scan s count 0 0 0 (Z.to_nat (page_count s)) with
    | Some run_start =>
        let s := with_used s (for_range run_start (run_start + count)
                                (fun selected b => bit_set b selected) (used_bitmap s)) in
        let s := with_counts s (managed_count s) (u64 (free_count s - count)) in
        (u64 (run_start * ARGUS_PAGE_SIZE), s)
    | None => (0, s)
    end.

Definition pmm_alloc_page (s : pmm_state) : Z * pmm_state := pmm_alloc_pages s 1.

Definition pmm_release_pages (s : pmm_state) (address count : Z) : bool * pmm_state :=
  if nz (address & (ARGUS_PAGE_SIZE - 1)) then (false, s)
  else
    let first := address / ARGUS_PAGE_SIZE in
    if negb (nz count) || (page_count s <=? first) || (page_count s - first <? count)
    then (false, s)
    else if negb (zall (fun page => bit_get (usable_bitmap s) page
                                    && bit_get (used_bitmap s) page)
                       first (Z.to_nat count))
    then (false, s)
    else
      let s := with_used s (for_range first (first + count)
                              (fun page b => bit_clear b page) (used_bitmap s)) in
      (true, with_counts s (managed_count s) (u64 (free_count s + count))).

Definition pmm_free_page (s : pmm_state) (address : Z) : bool * pmm_state :=
  pmm_release_pages s address 1.

Definition pmm_validate (s : pmm_state) : bool :=
  let usable page := bit_get (usable_bitmap s) page in
  let free page := bit_get (usable_bitmap s) page && negb (bit_get (used_bitmap s) page) in
  let counted_managed := zcount usable 0 (Z.to_nat (page_count s)) in
  let counted_free := zcount free 0 (Z.to_nat (page_count s)) in
  (counted_managed =? managed_count s) && (counted_free =? free_count s)
  && (free_count s <=? managed_count s).

Definition pmm_managed_pages (s : pmm_state) : Z := managed_count s.
Definition pmm_free_pages (s : pmm_state) : Z := free_count s.

(** The self test; [pages] and [held] are its two local arrays. *)
Definition self_test_alloc (acc : pmm_state * bool * list Z * list bool) (i : Z)
  : pmm_state * bool * list Z * list bool :=
  let '(s, valid, pages, held) := acc in
  let '(page, s) := pmm_alloc_page s in
  let pages := zset pages i page in
  let held := zset held i (nz page) in
  let valid := nz page && valid in
  let valid := for_range 0 i
                 (fun previous v => if page =? zget 0 pages previous then false else v) valid in
  (s, valid, pages, held).

Definition self_test_free (acc : pmm_state * bool * list Z * list bool) (i : Z)
  : pmm_state * bool * list Z * list bool :=
  let '(s, valid, pages, held) := acc in
  if zget false held i then
    let '(freed, s) := pmm_free_page s (zget 0 pages i) in
    (s, freed && valid, pages, zset held i false)
  else acc.

Definition pmm_self_test (s : pmm_state) : bool * pmm_state :=
  let before := free_count s in
  if (before <? 16) || negb (pmm_validate s) then (false, s)
  else
    let '(b1, s) := pmm_release_pages s 0 0 in
    let '(b2, s) := if negb b1 then pmm_free_page s 1 else (true, s) in
    let '(b3, s) := if negb b1 && negb b2
                    then pmm_free_page s (u64 (page_count s * ARGUS_PAGE_SIZE)) else (true, s) in
    let valid := negb b1 && negb b2 && negb b3 in
    let acc := (s, valid, replicate 8 0, replicate 8 false) in
    let acc := fold_left self_test_alloc [0; 1; 2; 3; 4; 5; 6; 7] acc in
    let '(s, valid, pages, held) := fold_left self_test_free [0; 2; 4; 6] acc in
    let valid := pmm_validate s && valid in
    let '(run, s) := pmm_alloc_pages s 2 in
    let valid := nz run && valid in
    let valid := fold_left (fun v i => if run =? zget 0 pages i then false else v)
                   [0; 2; 4; 6] valid in
    let '(valid, s) :=
      if nz run then let '(r, s) := pmm_release_pages s run 2 in (r && valid, s)
      else (valid, s) in
    let '(s, valid, _, _) :=
      fold_left self_test_free [0; 1; 2; 3; 4; 5; 6; 7] (s, valid, pages, held) in
    let '(probe, s) := pmm_alloc_page s in
    let valid := nz probe && valid in
    let '(valid, s) :=
      if nz probe then
        let '(f1, s) := pmm_free_page s probe in
        let valid := f1 && valid in
        let '(f2, s) := pmm_free_page s probe in (negb f2 && valid, s)
      else (valid, s) in
    (valid && (free_count s =? before) && pmm_validate s, s).

#[global] Arguments bit_get : simpl never.
#[global] Arguments bit_set : simpl never.
#[global] Arguments bit_clear : simpl never.

(** ** Bitmaps as sets of pages *)

Lemma shiftr3 p : p >> 3 = p / 8.
Proof. by rewrite Z.shiftr_div_pow2. Qed.
Lemma land7 p : p & 7 = p mod 8.
Proof. change 7 with (2 ^ 3 - 1). by rewrite land_ones_mod. Qed.

Lemma land1 x : x & 1 = x mod 2.
Proof. change 1 with (Z.ones 1). by rewrite Z.land_ones. Qed.

Lemma bit_get_testbit b p :
  0 <= p -> bit_get b p = Z.testbit (zget 0 b (p / 8)) (p mod 8).
Proof.
  intros Hp. unfold bit_get, nz. rewrite shiftr3, land7.
  pose proof (Z.mod_pos_bound p 8 ltac:(lia)).
  rewrite land1, Z.shiftr_div_pow2 by lia. rewrite <- Z.testbit_spec' by lia.
  by destruct (Z.testbit _ _).
Qed.

Lemma testbit_pow2 k j : 0 <= k -> 0 <= j -> Z.testbit (1 << k) j = (k =? j).
Proof. intros. rewrite Z.shiftl_1_l. by apply Z.pow2_bits_eqb. Qed.

Lemma testbit_u8 x j : 0 <= j < 8 -> Z.testbit (u8 x) j = Z.testbit x j.
Proof. intros. unfold u8. change 256 with (2 ^ 8). apply Z.mod_pow2_bits_low. lia. Qed.

Lemma bit_byte_eq p q : 0 <= p -> 0 <= q -> p / 8 = q / 8 -> (p mod 8 =? q mod 8) = (p =? q).
Proof.
  intros Hp Hq He. destruct (Z.eqb_spec p q) as [->|]; [by rewrite Z.eqb_refl|].
  apply Z.eqb_neq. Z.to_euclidean_division_equations. lia.
Qed.

Definition bitmap_covers (b : list Z) (p : Z) : Prop := 0 <= p < 8 * Z.of_nat (length b).

Lemma bitmap_covers_byte b p : bitmap_covers b p -> 0 <= p / 8 < Z.of_nat (length b).
Proof. unfold bitmap_covers. intros. Z.to_euclidean_division_equations. lia. Qed.

Lemma bit_get_set b p q :
  bitmap_covers b p -> 0 <= q -> bit_get (bit_set b p) q = (p =? q) || bit_get b q.
Proof.
  intros Hp Hq. pose proof (bitmap_covers_byte b p Hp). destruct Hp as [Hp _].
  rewrite !bit_get_testbit by lia. unfold bit_set. rewrite shiftr3, land7.
  pose proof (Z.mod_pos_bound p 8 ltac:(lia)). pose proof (Z.mod_pos_bound q 8 ltac:(lia)).
  destruct (Z.eq_dec (p / 8) (q / 8)) as [He|Hne].
  - rewrite <- He, zget_zset_eq by lia.
    rewrite Z.lor_spec, testbit_u8, testbit_pow2, bit_byte_eq by lia. apply orb_comm.
  - assert (0 <= q / 8) by (apply Z.div_pos; lia).
    rewrite zget_zset_ne by lia. destruct (Z.eqb_spec p q); [congruence|done].
Qed.

Lemma bit_get_clear b p q :
  bitmap_covers b p -> 0 <= q -> bit_get (bit_clear b p) q = negb (p =? q) && bit_get b q.
Proof.
  intros Hp Hq. pose proof (bitmap_covers_byte b p Hp). destruct Hp as [Hp _].
  rewrite !bit_get_testbit by lia. unfold bit_clear. rewrite shiftr3, land7.
  pose proof (Z.mod_pos_bound p 8 ltac:(lia)). pose proof (Z.mod_pos_bound q 8 ltac:(lia)).
  destruct (Z.eq_dec (p / 8) (q / 8)) as [He|Hne].
  - rewrite <- He, zget_zset_eq by lia.
    rewrite Z.land_spec, testbit_u8, Z.lnot_spec, testbit_pow2, bit_byte_eq by lia.
    apply andb_comm.
  - assert (0 <= q / 8) by (apply Z.div_pos; lia).
    rewrite zget_zset_ne by lia. destruct (Z.eqb_spec p q); [congruence|done].
Qed.

Lemma bit_set_length b p : length (bit_set b p) = length b.
Proof. apply zset_length. Qed.
Lemma bit_clear_length b p : length (bit_clear b p) = length b.
Proof. apply zset_length. Qed.

Lemma bit_get_replicate0 n p : 0 <= p -> bit_get (replicate n 0) p = false.
Proof.
  intros. rewrite bit_get_testbit by lia. unfold zget.
  destruct (_ !! _) eqn:E; simpl; [apply lookup_replicate in E as [-> _]|]; apply Z.testbit_0_l.
Qed.

Lemma bit_get_replicateFF n p :
  bitmap_covers (replicate n 0xFF) p -> bit_get (replicate n 0xFF) p = true.
Proof.
  intros Hp. pose proof (bitmap_covers_byte _ p Hp) as Hb. rewrite length_replicate in Hb.
  destruct Hp as [Hp _]. rewrite bit_get_testbit by lia. unfold zget.
  rewrite lookup_replicate_2 by lia. simpl.
  pose proof (Z.mod_pos_bound p 8 ltac:(lia)). change 255 with (Z.ones 8).
  apply Z.ones_spec_low. lia.
Qed.

(** Setting or clearing the bits of a range. *)
Lemma bit_set_range b lo hi q :
  0 <= lo -> lo <= hi -> hi <= 8 * Z.of_nat (length b) -> 0 <= q ->
  let b' := for_range lo hi (fun p b => bit_set b p) b in
  length b' = length b /\ bit_get b' q = ((lo <=? q) && (q <? hi)) || bit_get b q.
Proof.
  intros Hlo Hle Hhi Hq.
  apply (for_range_inv (fun i b' => length b' = length b /\
    bit_get b' q = ((lo <=? q) && (q <? i)) || bit_get b q)); [done| |].
  - split; [done|]. destruct ((lo <=? q) && (q <? lo))%bool eqn:E; [lia|done].
  - intros i b' Hi [Hl IH]. rewrite bit_set_length. split; [done|].
    rewrite bit_get_set by (unfold bitmap_covers; lia). rewrite IH, orb_assoc. f_equal.
    destruct (Z.eqb_spec i q), (Z.leb_spec lo q), (Z.ltb_spec q i), (Z.ltb_spec q (i + 1)); simpl; lia.
Qed.

Lemma bit_clear_range b lo hi q :
  0 <= lo -> lo <= hi -> hi <= 8 * Z.of_nat (length b) -> 0 <= q ->
  let b' := for_range lo hi (fun p b => bit_clear b p) b in
  length b' = length b /\ bit_get b' q = negb ((lo <=? q) && (q <? hi)) && bit_get b q.
Proof.
  intros Hlo Hle Hhi Hq.
  apply (for_range_inv (fun i b' => length b' = length b /\
    bit_get b' q = negb ((lo <=? q) && (q <? i)) && bit_get b q)); [done| |].
  - split; [done|]. destruct ((lo <=? q) && (q <? lo))%bool eqn:E; [lia|done].
  - intros i b' Hi [Hl IH]. rewrite bit_clear_length. split; [done|].
    rewrite bit_get_clear by (unfold bitmap_covers; lia). rewrite IH, andb_assoc. f_equal.
    destruct (Z.eqb_spec i q), (Z.leb_spec lo q), (Z.ltb_spec q i), (Z.ltb_spec q (i + 1)); simpl; lia.
Qed.

(** ** The allocator invariant *)

Definition usable (s : pmm_state) (p : Z) : bool := bit_get (usable_bitmap s) p.
Definition used (s : pmm_state) (p : Z) : bool := bit_get (used_bitmap s) p.
Definition is_free (s : pmm_state) (p : Z) : bool := usable s p && negb (used s p).

(** The counters count the bits, unmanaged pages read as used, and page
    addresses fit in 64 bits. *)
Record pmm_core (s : pmm_state) : Prop := {
  pc_length : length (usable_bitmap s) = length (used_bitmap s);
  pc_covered : page_count s <= 8 * Z.of_nat (length (used_bitmap s));
  pc_count : 0 <= page_count s;
  pc_address : page_count s * ARGUS_PAGE_SIZE <= UINT64_MAX;
  pc_unusable : forall p, 0 <= p < page_count s -> usable s p = false -> used s p = true;
  pc_managed : managed_count s = zcount (usable s) 0 (Z.to_nat (page_count s));
  pc_free : free_count s = zcount (is_free s) 0 (Z.to_nat (page_count s)) }.

(** With the low megabyte reserved, page 0 is never handed out: address 0 can
    stand for failure. *)
Definition pmm_ok (s : pmm_state) : Prop := pmm_core s /\ usable s 0 = false.

Lemma pc_bounds s : pmm_core s ->
  0 <= free_count s <= managed_count s /\ managed_count s <= page_count s
  /\ page_count s < UINT64_MAX.
Proof.
  intros H. rewrite (pc_managed _ H), (pc_free _ H). pose proof (pc_count _ H).
  pose proof (zcount_bounds (usable s) 0 (Z.to_nat (page_count s))).
  pose proof (zcount_bounds (is_free s) 0 (Z.to_nat (page_count s))).
  assert (zcount (is_free s) 0 (Z.to_nat (page_count s)) <= zcount (usable s) 0 (Z.to_nat (page_count s))).
  { apply zcount_mono. unfold is_free. intros j _ ?. by b2p. }
  pose proof (pc_address _ H). unfold ARGUS_PAGE_SIZE, UINT64_MAX in *. lia.
Qed.

(** A new state with the same shape whose bits differ from [s] only at pages of
    [k, k+m) keeps the invariant when its counters were adjusted. *)
Lemma pmm_core_change s s' k m :
  pmm_core s -> 0 <= k -> 0 <= m -> k + m <= page_count s ->
  page_count s' = page_count s ->
  length (usable_bitmap s') = length (usable_bitmap s) ->
  length (used_bitmap s') = length (used_bitmap s) ->
  (forall p, 0 <= p -> ~ (k <= p < k + m) -> usable s' p = usable s p /\ used s' p = used s p) ->
  (forall p, k <= p < k + m -> usable s' p = false -> used s' p = true) ->
  managed_count s' = managed_count s - zcount (usable s) k (Z.to_nat m) + zcount (usable s') k (Z.to_nat m) ->
  free_count s' = free_count s - zcount (is_free s) k (Z.to_nat m) + zcount (is_free s') k (Z.to_nat m) ->
  pmm_core s'.
Proof.
  intros H Hk Hm Hkm Hpc Hl1 Hl2 Hsame Hun Hman Hfree.
  constructor; rewrite ?Hpc, ?Hl1, ?Hl2; try apply H.
  - intros p Hp Hu. destruct (decide (k <= p < k + m)); [by apply Hun|].
    destruct (Hsame p) as [E1 E2]; [lia|done|]. rewrite E1 in Hu. rewrite E2.
    by apply (pc_unusable _ H).
  - rewrite Hman, (pc_managed _ H). symmetry. apply zcount_range_update; try lia.
    intros j Hj Hn. symmetry. apply Hsame; lia.
  - rewrite Hfree, (pc_free _ H). symmetry. apply zcount_range_update; try lia.
    intros j Hj Hn. destruct (Hsame j) as [E1 E2]; [lia|done|]. unfold is_free. by rewrite E1, E2.
Qed.

Lemma make_usable_spec s page :
  pmm_core s -> 0 <= page ->
  let s' := make_usable s page in
  pmm_core s' /\ page_count s' = page_count s /\
  forall q, 0 <= q -> usable s' q = usable s q || ((q =? page) && (page <? page_count s)).
Proof.
  intros H Hp. unfold make_usable. simpl.
  destruct ((page_count s <=? page) || bit_get (usable_bitmap s) page)%bool eqn:E.
  - split; [done|]. split; [done|]. intros q Hq.
    destruct (Z.eqb_spec q page) as [->|]; [|by rewrite orb_false_r]. simpl.
    b2p. fold (usable s page) in E. destruct E as [E|E].
    + b2p. destruct (Z.ltb_spec page (page_count s)); [lia|]. by rewrite orb_false_r.
    + by rewrite E.
  - b2p. pose proof (pc_bounds s H). pose proof (pc_covered s H). pose proof (pc_length s H).
    assert (used s page = true) as Hused by (apply (pc_unusable s H); [lia|done]).
    set (s' := with_counts _ _ _).
    assert (forall q, 0 <= q -> usable s' q = (page =? q) || usable s q) as Hu.
    { intros q Hq. subst s'. unfold usable; simpl. apply bit_get_set; [unfold bitmap_covers; lia|done]. }
    assert (forall q, 0 <= q -> used s' q = negb (page =? q) && used s q) as Hd.
    { intros q Hq. subst s'. unfold used; simpl. apply bit_get_clear; [unfold bitmap_covers; lia|done]. }
    split; [|split; [done|]].
    + apply (pmm_core_change s s' page 1); try done; try lia.
      * subst s'; simpl. apply bit_set_length.
      * subst s'; simpl. apply bit_clear_length.
      * intros p Hp0 Hn. rewrite Hu, Hd by done. destruct (Z.eqb_spec page p); [lia|done].
      * intros p Hpp. rewrite Hu by lia. destruct (Z.eqb_spec page p); [done|lia].
      * rewrite !zcount_1. unfold b2z. rewrite Hu by done. rewrite Z.eqb_refl.
        fold (usable s page) in *. rewrite H1. subst s'; simpl.
        rewrite u64_id by (unfold UINT64_MAX in *; lia). lia.
      * rewrite !zcount_1. unfold b2z. unfold is_free. rewrite Hu, Hd by done.
        rewrite Z.eqb_refl. fold (usable s page) in *. rewrite H1. subst s'; simpl.
        rewrite u64_id by (unfold UINT64_MAX in *; lia). lia.
    + intros q Hq. rewrite Hu by done. rewrite (Z.eqb_sym q page).
      destruct (Z.eqb_spec page q); simpl; [|by rewrite orb_false_r].
      destruct (Z.ltb_spec page (page_count s)); [|lia]. by rewrite orb_true_r.
Qed.

Lemma reserve_page_spec s page :
  pmm_core s -> 0 <= page ->
  let s' := reserve_page s page in
  pmm_core s' /\ page_count s' = page_count s /\
  forall q, 0 <= q < page_count s -> usable s' q = usable s q && negb (q =? page).
Proof.
  intros H Hp. unfold reserve_page. simpl.
  destruct ((page_count s <=? page) || negb (bit_get (usable_bitmap s) page))%bool eqn:E.
  - split; [done|]. split; [done|]. intros q Hq.
    destruct (Z.eqb_spec q page) as [->|]; [|by rewrite andb_true_r]. simpl.
    b2p. fold (usable s page) in E. destruct E as [E|E]; b2p; [lia|]. by rewrite E.
  - b2p. pose proof (pc_bounds s H). pose proof (pc_covered s H). pose proof (pc_length s H).
    fold (usable s page) in *. rename H1 into Hup.
    set (s' := with_counts _ _ _).
    assert (forall q, 0 <= q -> usable s' q = negb (page =? q) && usable s q) as Hu.
    { intros q Hq. subst s'. unfold usable; simpl. case_if; simpl;
        apply bit_get_clear; (unfold bitmap_covers; lia) || done. }
    assert (forall q, 0 <= q -> used s' q = (page =? q) || used s q) as Hd.
    { intros q Hq. subst s'. unfold used; simpl. case_if; simpl;
        apply bit_get_set; (unfold bitmap_covers; lia) || done. }
    assert (1 <= managed_count s) as Hm1.
    { rewrite (pc_managed s H). apply (zcount_pos _ _ _ page); [lia|done]. }
    assert (is_free s page = true -> 1 <= free_count s) as Hf1.
    { intros Hf. rewrite (pc_free s H). apply (zcount_pos _ _ _ page); [lia|done]. }
    assert (managed_count s' = managed_count s - 1) as Hman.
    { subst s'. simpl. case_if; simpl; rewrite u64_id by lia; done. }
    assert (free_count s' = free_count s - b2z (is_free s page)) as Hfr.
    { subst s'. unfold is_free, used in *. rewrite Hup in *. simpl.
      destruct (bit_get (used_bitmap s) page) eqn:Eu; simpl in *; [lia|].
      specialize (Hf1 eq_refl). rewrite u64_id by lia. done. }
    split; [|split].
    + apply (pmm_core_change s s' page 1); try done; try lia.
      * subst s'; simpl. by case_if.
      * subst s'; simpl. case_if; simpl; apply bit_clear_length.
      * subst s'; simpl. case_if; simpl; apply bit_set_length.
      * intros p Hp0 Hn. rewrite Hu, Hd by done. destruct (Z.eqb_spec page p); [lia|done].
      * intros p Hpp _. rewrite Hd by lia. destruct (Z.eqb_spec page p); [done|lia].
      * rewrite Hman, !zcount_1, Hu, Hup, Z.eqb_refl by done. simpl. lia.
      * rewrite Hfr, !zcount_1. unfold is_free at 3. rewrite Hu, Z.eqb_refl by done. simpl. lia.
    + subst s'; simpl. by case_if.
    + intros q Hq. rewrite Hu by lia. rewrite (Z.eqb_sym page q). apply andb_comm.
Qed.

(** Page [q] holds a byte of the (64-bit clipped) range. *)
Definition range_covers (r : physical_range_t) (q : Z) : bool :=
  nz (range_size r) && (q * ARGUS_PAGE_SIZE <? range_base r + range_size r)
  && (range_base r <? (q + 1) * ARGUS_PAGE_SIZE).

Definition range_wf (r : physical_range_t) : Prop :=
  0 <= range_base r <= UINT64_MAX /\ 0 <= range_size r <= UINT64_MAX.

Lemma reserve_pages_spec s lo hi :
  pmm_core s -> 0 <= lo -> lo <= hi ->
  let s' := for_range lo hi (fun page s => reserve_page s page) s in
  pmm_core s' /\ page_count s' = page_count s /\
  forall q, 0 <= q < page_count s -> usable s' q = usable s q && negb ((lo <=? q) && (q <? hi)).
Proof.
  intros H Hlo Hle. apply (for_range_inv (fun i s' => pmm_core s' /\ page_count s' = page_count s /\
    forall q, 0 <= q < page_count s -> usable s' q = usable s q && negb ((lo <=? q) && (q <? i)))); [done| |].
  - split; [done|]. split; [done|]. intros q Hq.
    destruct ((lo <=? q) && (q <? lo))%bool eqn:E; [b2p; lia|]. by rewrite andb_true_r.
  - intros i s' Hi (H' & Hpc & Hu). destruct (reserve_page_spec s' i H') as (H'' & Hpc' & Hu'); [lia|].
    split; [done|]. split; [congruence|]. intros q Hq. rewrite Hu' by lia. rewrite Hu by lia.
    rewrite <- andb_assoc. f_equal.
    destruct (Z.leb_spec lo q), (Z.ltb_spec q i), (Z.eqb_spec q i), (Z.ltb_spec q (i + 1)); simpl; lia.
Qed.

Lemma reserve_range_spec s r :
  pmm_core s -> range_wf r ->
  let s' := reserve_range s r in
  pmm_core s' /\ page_count s' = page_count s /\
  forall q, 0 <= q < page_count s -> usable s' q = usable s q && negb (range_covers r q).
Proof.
  intros H [Hb Hs]. unfold reserve_range.
  pose proof (pc_address s H) as Ha. pose proof (pc_count s H). unfold ARGUS_PAGE_SIZE in *.
  rewrite u64_id by lia.
  destruct (negb (nz (range_size r)) || (page_count s * 4096 <=? range_base r))%bool eqn:E.
  - split; [done|]. split; [done|]. intros q Hq. unfold range_covers, ARGUS_PAGE_SIZE.
    assert (range_size r = 0 \/ page_count s * 4096 <= range_base r) by (b2p; destruct E; b2p; lia).
    destruct (_ && _ && _)%bool eqn:E2; [b2p; lia|]. by rewrite andb_true_r.
  - b2p. set (last := if UINT64_MAX - range_base r <? range_size r - 1 then UINT64_MAX
      else range_base r + range_size r - 1).
    set (hi := if page_count s <? last / 4096 + 1 then page_count s else last / 4096 + 1).
    assert (range_base r <= last <= UINT64_MAX /\
      (last = range_base r + range_size r - 1 \/ last = UINT64_MAX /\ UINT64_MAX < range_base r + range_size r)) as Hlast.
    { subst last. case_if; b2p; lia. }
    destruct (reserve_pages_spec s (range_base r / 4096) hi H) as (H' & Hpc & Hu).
    + apply Z.div_pos; lia.
    + subst hi. case_if; b2p; Z.to_euclidean_division_equations; lia.
    + split; [done|]. split; [done|]. intros q Hq. rewrite Hu by done. f_equal. f_equal.
      unfold range_covers, nz, ARGUS_PAGE_SIZE.
      assert ((range_base r / 4096 <=? q) = (range_base r <? (q + 1) * 4096)) as ->.
      { destruct (Z.leb_spec (range_base r / 4096) q), (Z.ltb_spec (range_base r) ((q + 1) * 4096));
          try done; Z.to_euclidean_division_equations; lia. }
      assert ((q <? hi) = (q * 4096 <? range_base r + range_size r)) as ->.
      { subst hi. unfold UINT64_MAX in *.
        destruct (Z.ltb_spec (q * 4096) (range_base r + range_size r)); case_if; b2p;
          (apply Z.ltb_lt || apply Z.ltb_ge); Z.to_euclidean_division_equations; lia. }
      destruct (Z.eqb_spec (range_size r) 0); [lia|]. simpl. apply andb_comm.
Qed.

(** ** Allocation *)

Definition free_run (s : pmm_state) (p n : Z) : Prop :=
  0 <= p /\ p + n <= page_count s /\ forall j, p <= j < p + n -> is_free s j = true.

(** State of the scan at [page]: the [run_length] pages before it are free, the
    one before those is not, and no run of [count] ends at or before [page]. *)
Definition scan_inv (s : pmm_state) (count page run_start run_length : Z) : Prop :=
  0 <= run_length < count /\ run_length <= page
  /\ (0 < run_length -> run_start = page - run_length)
  /\ (forall j, page - run_length <= j < page -> is_free s j = true)
  /\ (page - run_length = 0 \/ is_free s (page - run_length - 1) = false)
  /\ (forall q, q + count <= page -> ~ free_run s q count).

Lemma scan_inv_step s count page rs rl :
  scan_inv s count page rs rl -> 0 <= page -> is_free s page = true -> rl + 1 <> count ->
  scan_inv s count (page + 1) (if negb (nz rl) then page else rs) (rl + 1).
Proof.
  intros (H1 & H2 & H3 & H4 & H5 & H6) Hp Hf Hne.
  repeat split; try lia.
  - intros _. unfold nz. destruct (Z.eqb_spec rl 0); simpl; lia.
  - intros j Hj. destruct (Z.eq_dec j page) as [->|]; [done|]. apply H4. lia.
  - destruct H5 as [H5|H5]; [left; lia|right]. by replace (page + 1 - (rl + 1) - 1) with (page - rl - 1) by lia.
  - intros q Hq Hrun. destruct (Z.eq_dec (q + count) (page + 1)) as [He|]; [|apply (H6 q); [lia|done]].
    destruct Hrun as (Hq0 & _ & Hall). destruct H5 as [H5|H5]; [lia|].
    rewrite Hall in H5 by lia. done.
Qed.

Lemma scan_inv_reset s count page rs rl rs' :
  scan_inv s count page rs rl -> 0 <= page -> is_free s page = false ->
  scan_inv s count (page + 1) rs' 0.
Proof.
  intros (H1 & H2 & H3 & H4 & H5 & H6) Hp Hf. repeat split; try lia.
  - right. by replace (page + 1 - 0 - 1) with page by lia.
  - intros q Hq (Hq0 & Hqn & Hall).
    destruct (Z.eq_dec (q + count) (page + 1)) as [He|]; [|by apply (H6 q); [lia|split_and!]].
    rewrite Hall in Hf by lia. done.
Qed.

Lemma alloc_scan_spec s count fuel : forall page rs rl,
  0 < count -> 0 <= page -> page + Z.of_nat fuel = page_count s ->
  scan_inv s count page rs rl ->
  match alloc_scan s count page rs rl fuel with
  | Some start => free_run s start count /\ forall q, q < start -> ~ free_run s q count
  | None => forall q, ~ free_run s q count
  end.
Proof.
  induction fuel as [|f IH]; intros page rs rl Hc Hp Hend Hinv; cbn [alloc_scan].
  - intros q (Hq0 & Hqn & Hall). destruct Hinv as (_ & _ & _ & _ & _ & H6).
    apply (H6 q); [lia|by split_and!].
  - fold (usable s page) (used s page) (is_free s page).
    destruct (is_free s page) eqn:Hf.
    + destruct (Z.eqb_spec (rl + 1) count) as [He|Hne]; simpl.
      * destruct Hinv as (H1 & H2 & H3 & H4 & _ & H6).
        assert ((if negb (nz rl) then page else rs) = page - rl) as ->.
        { unfold nz. destruct (Z.eqb_spec rl 0); simpl; [lia|apply H3; lia]. }
        split.
        -- repeat split; try lia. intros j Hj. destruct (Z.eq_dec j page) as [->|]; [done|].
           apply H4. lia.
        -- intros q Hq Hrun. apply (H6 q); [lia|done].
      * apply IH; [done|lia|lia|by apply scan_inv_step].
    + apply IH; [done|lia|lia|by eapply scan_inv_reset].
Qed.

Lemma alloc_pages_spec s count :
  pmm_ok s -> 0 <= count ->
  let '(a, s') := pmm_alloc_pages s count in
  (a = 0 /\ s' = s /\ (count = 0 \/ forall q, ~ free_run s q count))
  \/ (exists p, a = p * ARGUS_PAGE_SIZE /\ 0 < p /\ 0 < count /\ free_run s p count
      /\ (forall q, q < p -> ~ free_run s q count)
      /\ pmm_ok s' /\ page_count s' = page_count s
      /\ free_count s' = free_count s - count /\ managed_count s' = managed_count s
      /\ forall q, 0 <= q -> usable s' q = usable s q
                    /\ used s' q = ((p <=? q) && (q <? p + count)) || used s q).
Proof.
  intros [H H0] Hc. unfold pmm_alloc_pages, nz. rewrite negb_involutive.
  pose proof (pc_bounds s H) as Hb. pose proof (pc_covered s H). pose proof (pc_count s H) as Hpc.
  destruct ((count =? 0) || (free_count s <? count))%bool eqn:E.
  { left. split_and!; try done. b2p. destruct E as [E|E]; b2p; [by left|right].
    intros q (Hq0 & Hqn & Hall). rewrite (pc_free s H) in E.
    rewrite (zcount_split (is_free s) 0 _ q count) in E by lia.
    rewrite (zcount_all (is_free s) q) in E by (intros; apply Hall; lia).
    pose proof (zcount_bounds (is_free s) 0 (Z.to_nat (q - 0))).
    pose proof (zcount_bounds (is_free s) (q + count) (Z.to_nat (0 + Z.of_nat (Z.to_nat (page_count s)) - (q + count)))). lia. }
  b2p. pose proof (alloc_scan_spec s count (Z.to_nat (page_count s)) 0 0 0) as Hscan.
  destruct (alloc_scan s count 0 0 0 _) as [p|].
  2:{ left. split_and!; try done. right. apply Hscan; try lia.
      repeat split; try lia. intros q Hq (Hq0 & _). lia. }
  right. destruct Hscan as [Hrun Hfirst]; try lia.
  { repeat split; try lia. intros q Hq (Hq0 & _). lia. }
  pose proof Hrun as (Hp0 & Hpn & Hall).
  assert (p <> 0) as Hpne.
  { intros ->. specialize (Hall 0 ltac:(lia)). unfold is_free in Hall. by rewrite H0 in Hall. }
  pose proof (pc_address s H). unfold ARGUS_PAGE_SIZE in *.
  exists p. set (s' := with_counts _ _ _).
  assert (forall q, 0 <= q -> used s' q = ((p <=? q) && (q <? p + count)) || used s q) as Hd.
  { intros q Hq. unfold used, s'; simpl. apply bit_set_range; lia. }
  assert (forall q, usable s' q = usable s q) as Hu by done.
  assert (free_count s' = free_count s - count) as Hfr by (unfold s'; simpl; by rewrite u64_id by lia).
  split_and!; try done; try lia.
  - rewrite u64_id by lia. lia.
  - split; [|exact H0]. apply (pmm_core_change s s' p count); try done; try lia.
    + unfold s'; simpl. by destruct (bit_set_range (used_bitmap s) p (p + count) 0); [lia..|].
    + intros q Hq Hn. rewrite Hu, Hd by done. split; [done|].
      destruct ((p <=? q) && (q <? p + count))%bool eqn:E2; [b2p; lia|done].
    + intros q Hq. rewrite Hd by lia. intros _.
      by destruct (Z.leb_spec p q), (Z.ltb_spec q (p + count)); try lia.
    + unfold s'; simpl. unfold usable. simpl. lia.
    + rewrite Hfr, (zcount_all (is_free s) p) by (intros; apply Hall; lia).
      rewrite (zcount_none (is_free s')); [lia|]. intros j Hj. unfold is_free. rewrite Hd by lia.
      destruct (Z.leb_spec p j), (Z.ltb_spec j (p + count)); try lia.
  - intros q Hq. split; [apply Hu|by apply Hd].
Qed.

(** ** Release *)

Definition used_run (s : pmm_state) (p n : Z) : Prop :=
  p + n <= page_count s /\ forall j, p <= j < p + n -> usable s j = true /\ used s j = true.

Lemma land_page a : a & (ARGUS_PAGE_SIZE - 1) = a mod ARGUS_PAGE_SIZE.
Proof. change (ARGUS_PAGE_SIZE - 1) with (2 ^ 12 - 1). by rewrite land_ones_mod. Qed.

Lemma pmm_release_pages_spec s a count :
  pmm_ok s -> 0 <= a -> 0 <= count ->
  let '(b, s') := pmm_release_pages s a count in
  (b = false /\ s' = s /\
     ~ (a mod ARGUS_PAGE_SIZE = 0 /\ 0 < count /\ used_run s (a / ARGUS_PAGE_SIZE) count))
  \/ (b = true /\ a mod ARGUS_PAGE_SIZE = 0 /\ 0 < count /\ used_run s (a / ARGUS_PAGE_SIZE) count
      /\ pmm_ok s' /\ page_count s' = page_count s
      /\ free_count s' = free_count s + count /\ managed_count s' = managed_count s
      /\ forall q, 0 <= q -> usable s' q = usable s q
           /\ used s' q = negb ((a / ARGUS_PAGE_SIZE <=? q) && (q <? a / ARGUS_PAGE_SIZE + count)) && used s q).
Proof.
  intros [H H0] Ha Hc. unfold pmm_release_pages. rewrite land_page. set (p := a / ARGUS_PAGE_SIZE).
  pose proof (pc_bounds s H) as Hb. pose proof (pc_covered s H). pose proof (pc_count s H) as Hpc.
  assert (0 <= p) as Hp0 by (apply Z.div_pos; unfold ARGUS_PAGE_SIZE; lia).
  destruct (nz (a mod ARGUS_PAGE_SIZE)) eqn:E1.
  { left. split_and!; try done. intros (? & _). b2p. lia. }
  destruct (negb (nz count) || _ || _)%bool eqn:E2.
  { left. split_and!; try done. intros (_ & Hpos & Hn & _). b2p. destruct E2 as [[E2|E2]%orb_true_iff|E2]; b2p; lia. }
  destruct (zall _ p (Z.to_nat count)) eqn:E3; simpl negb; cbv iota.
  2:{ left. split_and!; try done. intros (_ & Hpos & Hn & Hall).
      enough (zall (fun page => bit_get (usable_bitmap s) page && bit_get (used_bitmap s) page) p (Z.to_nat count) = true) by congruence.
      apply zall_true. intros j Hj. destruct (Hall j) as [Hj1 Hj2]; [lia|]. unfold usable, used in *. by rewrite Hj1, Hj2. }
  right. b2p. rewrite zall_true in E3.
  assert (forall j, p <= j < p + count -> usable s j = true /\ used s j = true) as Hall.
  { intros j Hj. specialize (E3 j ltac:(lia)). simpl in E3. by b2p. }
  set (s' := with_counts _ _ _).
  assert (forall q, 0 <= q -> used s' q = negb ((p <=? q) && (q <? p + count)) && used s q) as Hd.
  { intros q Hq. unfold used, s'; simpl. apply bit_clear_range; lia. }
  assert (forall q, usable s' q = usable s q) as Hu by done.
  assert (free_count s + count <= managed_count s) as Hle.
  { rewrite (pc_free s H), (pc_managed s H).
    rewrite (zcount_split (is_free s) 0 _ p count), (zcount_split (usable s) 0 _ p count) by lia.
    rewrite (zcount_all (usable s) p) by (intros; apply Hall; lia).
    rewrite (zcount_none (is_free s) p); [|intros j Hj; unfold is_free; destruct (Hall j) as [_ ->]; [lia|apply andb_false_r]].
    assert (forall lo n, zcount (is_free s) lo n <= zcount (usable s) lo n) as Hmono
      by (intros; apply zcount_mono; unfold is_free; intros j _ ?; by b2p).
    pose proof (Hmono 0 (Z.to_nat (p - 0))).
    pose proof (Hmono (p + count) (Z.to_nat (0 + Z.of_nat (Z.to_nat (page_count s)) - (p + count)))). lia. }
  assert (free_count s' = free_count s + count) as Hfr by (unfold s'; simpl; by rewrite u64_id by lia).
  split_and!; try done; try lia.
  - split; [lia|done].
  - split; [|exact H0]. apply (pmm_core_change s s' p count); try done; try lia.
    + unfold s'; simpl. by destruct (bit_clear_range (used_bitmap s) p (p + count) 0); [lia..|].
    + intros q Hq Hn. rewrite Hu, Hd by done. split; [done|].
      destruct ((p <=? q) && (q <? p + count))%bool eqn:E4; [b2p; lia|done].
    + intros q Hq. rewrite Hu. destruct (Hall q) as [-> _]; [lia|done].
    + unfold s'; simpl. unfold usable. simpl. lia.
    + rewrite Hfr, (zcount_none (is_free s) p).
      * rewrite (zcount_all (is_free s')); [lia|]. intros j Hj. unfold is_free. rewrite Hu, Hd by lia.
        destruct (Hall j) as [-> ->]; [lia|]. destruct (Z.leb_spec p j), (Z.ltb_spec j (p + count)); try lia.
      * intros j Hj. unfold is_free. destruct (Hall j) as [_ ->]; [lia|apply andb_false_r].
  - intros q Hq. split; [apply Hu|by apply Hd].
Qed.

(** ** Initialisation *)

(** No managed page is in use. *)
Definition pmm_fresh (s : pmm_state) : Prop := free_count s = managed_count s.

Lemma fresh_free s p :
  pmm_core s -> pmm_fresh s -> 0 <= p < page_count s -> usable s p = true -> used s p = false.
Proof.
  intros H Hf Hp Hu. destruct (used s p) eqn:E; [exfalso|done].
  unfold pmm_fresh in Hf. rewrite (pc_free s H), (pc_managed s H) in Hf.
  rewrite (zcount_split (is_free s) 0 _ p 1), (zcount_split (usable s) 0 _ p 1) in Hf by lia.
  rewrite !zcount_1 in Hf. unfold is_free at 2 in Hf. rewrite Hu, E in Hf. simpl in Hf.
  assert (forall lo n, zcount (is_free s) lo n <= zcount (usable s) lo n) as Hm
    by (intros; apply zcount_mono; unfold is_free; intros j _ ?; by b2p).
  pose proof (Hm 0 (Z.to_nat (p - 0))).
  pose proof (Hm (p + 1) (Z.to_nat (0 + Z.of_nat (Z.to_nat (page_count s)) - (p + 1)))). lia.
Qed.

Lemma make_usable_fresh s p : pmm_fresh s -> pmm_fresh (make_usable s p).
Proof. unfold pmm_fresh, make_usable. intros H. case_if; simpl; congruence. Qed.

Lemma reserve_page_fresh s p :
  pmm_core s -> 0 <= p -> pmm_fresh s -> pmm_fresh (reserve_page s p).
Proof.
  intros H Hp Hf. unfold reserve_page. case_if; [done|]. b2p. simpl.
  pose proof (fresh_free s p H Hf ltac:(lia) ltac:(done)) as Hu. unfold used in Hu. rewrite Hu.
  unfold pmm_fresh in *. simpl. congruence.
Qed.

Lemma reserve_range_fresh s r :
  pmm_core s -> range_wf r -> pmm_fresh s -> pmm_fresh (reserve_range s r).
Proof.
  intros H [Hb Hs] Hf. unfold reserve_range. case_if; [done|]. set (hi := if _ <? _ then _ else _).
  set (lo := range_base r / ARGUS_PAGE_SIZE).
  assert (0 <= lo) by (apply Z.div_pos; unfold ARGUS_PAGE_SIZE; lia).
  destruct (decide (lo <= hi)); [|by rewrite for_range_empty by lia].
  apply (for_range_inv (fun i s => pmm_core s /\ pmm_fresh s)); [done|done|].
  intros i s' Hi [H' Hf']. split; [apply reserve_page_spec; [done|lia]|apply reserve_page_fresh; [done|lia|done]].
Qed.

Definition descriptor_covers (d : efi_memory_descriptor) (q : Z) : bool :=
  (md_type d =? EfiConventionalMemory)
  && (md_physical_start d / ARGUS_PAGE_SIZE <=? q)
  && (q <? md_physical_start d / ARGUS_PAGE_SIZE + md_number_of_pages d).

Lemma add_descriptor_spec s d :
  pmm_core s -> pmm_fresh s -> 0 <= md_physical_start d -> 0 <= md_number_of_pages d ->
  let s' := add_descriptor s d in
  pmm_core s' /\ pmm_fresh s' /\ page_count s' = page_count s /\
  forall q, 0 <= q < page_count s -> usable s' q = usable s q || descriptor_covers d q.
Proof.
  intros H Hf Hps Hn. unfold add_descriptor, descriptor_covers.
  destruct (md_type d =? EfiConventionalMemory); simpl;
    [|by split_and!; try done; intros; rewrite orb_false_r].
  set (first := md_physical_start d / ARGUS_PAGE_SIZE).
  assert (0 <= first) by (apply Z.div_pos; unfold ARGUS_PAGE_SIZE; lia).
  destruct (Z.ltb_spec first (page_count s)).
  2:{ split_and!; try done. intros q Hq. destruct (Z.leb_spec first q); [lia|]. by rewrite orb_false_r. }
  set (count := if _ <? _ then _ else _).
  assert (0 <= count /\ count = Z.min (md_number_of_pages d) (page_count s - first)) as [Hc0 Hc]
    by (subst count; case_if; b2p; lia).
  destruct (for_range_inv (fun i s' => pmm_core s' /\ pmm_fresh s' /\ page_count s' = page_count s /\
    forall q, 0 <= q < page_count s -> usable s' q = usable s q || ((first <=? q) && (q <? first + i)))
    0 count (fun i s => make_usable s (first + i)) s) as (Hc' & Hf' & Hp' & Hu); [done| | |].
  - split_and!; try done. intros q Hq.
    destruct ((first <=? q) && (q <? first + 0))%bool eqn:E; [b2p; lia|]. by rewrite orb_false_r.
  - intros i s' Hi (Hc' & Hf' & Hp' & Hu).
    destruct (make_usable_spec s' (first + i) Hc') as (Hc'' & Hp'' & Hu''); [lia|].
    split_and!; [done|by apply make_usable_fresh|congruence|].
    intros q Hq. rewrite Hu'' by lia. rewrite Hu by lia. rewrite <- orb_assoc. f_equal.
    destruct (Z.leb_spec first q), (Z.ltb_spec q (first + i)), (Z.eqb_spec q (first + i)),
      (Z.ltb_spec (first + i) (page_count s')), (Z.ltb_spec q (first + (i + 1))); simpl; lia.
  - split_and!; try done. intros q Hq. rewrite Hu by done. do 2 f_equal.
    destruct (Z.ltb_spec q (first + count)), (Z.ltb_spec q (first + md_number_of_pages d)); lia.
Qed.

Lemma add_descriptors_spec ds s :
  pmm_core s -> pmm_fresh s ->
  Forall (fun d => 0 <= md_physical_start d <= UINT64_MAX /\ 0 <= md_number_of_pages d <= UINT64_MAX) ds ->
  let s' := fold_left add_descriptor ds s in
  pmm_core s' /\ pmm_fresh s' /\ page_count s' = page_count s /\
  forall q, 0 <= q < page_count s -> usable s' q = usable s q || existsb (fun d => descriptor_covers d q) ds.
Proof.
  intros H Hf HF. revert s H Hf. induction HF as [|d ds [Hd1 Hd2] _ IH]; intros s H Hf; simpl.
  - split_and!; try done. intros. by rewrite orb_false_r.
  - destruct (add_descriptor_spec s d H Hf) as (H' & Hf' & Hp' & Hu'); [lia|lia|].
    destruct (IH _ H' Hf') as (H'' & Hf'' & Hp'' & Hu''). split_and!; [done|done|congruence|].
    intros q Hq. rewrite Hu'' by lia. rewrite Hu' by lia. by rewrite orb_assoc.
Qed.

Lemma reserve_ranges_spec rs s :
  pmm_core s -> pmm_fresh s -> Forall range_wf rs ->
  let s' := fold_left reserve_range rs s in
  pmm_core s' /\ pmm_fresh s' /\ page_count s' = page_count s /\
  forall q, 0 <= q < page_count s -> usable s' q = usable s q && negb (existsb (fun r => range_covers r q) rs).
Proof.
  intros H Hf HF. revert s H Hf. induction HF as [|r rs Hr _ IH]; intros s H Hf; simpl.
  - split_and!; try done. intros. by rewrite andb_true_r.
  - destruct (reserve_range_spec s r H Hr) as (H' & Hp' & Hu').
    destruct (IH _ H' (reserve_range_fresh s r H Hr Hf)) as (H'' & Hf'' & Hp'' & Hu'').
    split_and!; [done|done|congruence|].
    intros q Hq. rewrite Hu'' by lia. rewrite Hu' by lia. by rewrite negb_orb, andb_assoc.
Qed.

(** The ranges [pmm_init] keeps reserved for ever. *)
Definition reserved_ranges (bi : boot_info_t) : list physical_range_t :=
  [mk_range 0 0x100000; bi_kernel_image bi; bi_boot_info_storage bi; bi_kernel_stack bi;
   bi_pmm_bitmap_storage bi; bi_memory_map_storage bi;
   mk_range (fb_base (bi_framebuffer bi)) (fb_size (bi_framebuffer bi))]
  ++ (if nz (bi_acpi_rsdp bi) then [mk_range (bi_acpi_rsdp bi) ARGUS_PAGE_SIZE] else []).

(** What the loader guarantees about the record: machine-width fields, bitmaps
    large enough for the pages they describe, page addresses within 64 bits. *)
Record boot_info_wf (bi : boot_info_t) : Prop := {
  bw_bytes : match map_buffer (bi_memory_map bi) with
             | Some buffer => Forall (fun b => 0 <= b < 256) buffer | None => True end;
  bw_ranges : Forall range_wf (reserved_ranges bi);
  bw_pages : 0 <= bi_pmm_page_count bi <= 8 * bi_pmm_bitmap_bytes bi;
  bw_address : bi_pmm_page_count bi * ARGUS_PAGE_SIZE <= UINT64_MAX }.

Definition boot_info_accepted (bi : boot_info_t) : Prop :=
  bi_magic bi = ARGUS_BOOT_INFO_MAGIC /\ bi_boot_services_exited bi <> 0
  /\ is_Some (map_buffer (bi_memory_map bi)) /\ map_descriptor_size (bi_memory_map bi) <> 0
  /\ bi_pmm_page_count bi <> 0 /\ range_base (bi_pmm_bitmap_storage bi) <> 0
  /\ bi_pmm_bitmap_bytes bi <> 0.

Definition pmm_blank (bi : boot_info_t) : pmm_state :=
  mk_pmm (replicate (Z.to_nat (bi_pmm_bitmap_bytes bi)) 0)
         (replicate (Z.to_nat (bi_pmm_bitmap_bytes bi)) 0xFF) (bi_pmm_page_count bi) 0 0.

Lemma pmm_blank_core bi : boot_info_wf bi -> pmm_core (pmm_blank bi).
Proof.
  intros [_ _ Hp Ha]. unfold pmm_blank. constructor; simpl; rewrite ?length_replicate; try lia.
  - intros p Hpp _. unfold used; simpl. apply bit_get_replicateFF.
    unfold bitmap_covers. rewrite length_replicate. lia.
  - rewrite zcount_none; [done|]. intros. unfold usable; simpl. apply bit_get_replicate0. lia.
  - rewrite zcount_none; [done|]. intros. unfold is_free, usable; simpl. by rewrite bit_get_replicate0 by lia.
Qed.

Lemma pmm_init_eq s bi :
  boot_info_accepted bi ->
  pmm_init s (Some bi) =
    let s' := fold_left reserve_range (reserved_ranges bi)
                (fold_left add_descriptor (map_descriptors (bi_memory_map bi)) (pmm_blank bi)) in
    (nz (managed_count s'), s').
Proof.
  intros (H1 & H2 & [buffer H3] & H4 & H5 & H6 & H7). unfold pmm_init.
  destruct (_ || _)%bool eqn:E.
  - exfalso. rewrite H1, H3 in E. unfold nz in E. rewrite Z.eqb_refl in E.
    b2p. repeat match goal with H : _ \/ _ |- _ => destruct H; b2p end; done.
  - unfold reserved_ranges, pmm_blank. destruct (nz (bi_acpi_rsdp bi)); reflexivity.
Qed.

Lemma pmm_init_rejects s bi :
  ~ boot_info_accepted bi -> pmm_init s (Some bi) = (false, s).
Proof.
  intros Hn. unfold pmm_init. destruct (_ || _)%bool eqn:E; [done|exfalso]. apply Hn.
  b2p. unfold boot_info_accepted. split_and!; try done.
  destruct (map_buffer _); [eauto|done].
Qed.

Lemma map_descriptors_bound bi :
  boot_info_wf bi ->
  Forall (fun d => 0 <= md_physical_start d <= UINT64_MAX /\ 0 <= md_number_of_pages d <= UINT64_MAX)
    (map_descriptors (bi_memory_map bi)).
Proof.
  intros [Hb _ _ _]. unfold map_descriptors. destruct (map_buffer _); [|constructor].
  by apply walk_descriptors_bound.
Qed.

Lemma pmm_init_spec s bi :
  boot_info_wf bi -> boot_info_accepted bi ->
  let '(b, s') := pmm_init s (Some bi) in
  pmm_ok s' /\ pmm_fresh s' /\ page_count s' = bi_pmm_page_count bi
  /\ b = nz (managed_count s')
  /\ forall q, 0 <= q < page_count s' ->
       usable s' q = existsb (fun d => descriptor_covers d q) (map_descriptors (bi_memory_map bi))
                     && negb (existsb (fun r => range_covers r q) (reserved_ranges bi)).
Proof.
  intros Hwf Hacc. rewrite pmm_init_eq by done. cbv zeta.
  destruct (add_descriptors_spec (map_descriptors (bi_memory_map bi)) (pmm_blank bi))
    as (H1 & H2 & H3 & H4); [by apply pmm_blank_core|done|by apply map_descriptors_bound|].
  destruct (reserve_ranges_spec (reserved_ranges bi) _ H1 H2) as (H5 & H6 & H7 & H8); [apply Hwf|].
  simpl in H3. rewrite H3 in *.
  assert (forall q, 0 <= q < bi_pmm_page_count bi ->
    usable (fold_left reserve_range (reserved_ranges bi)
      (fold_left add_descriptor (map_descriptors (bi_memory_map bi)) (pmm_blank bi))) q
    = existsb (fun d => descriptor_covers d q) (map_descriptors (bi_memory_map bi))
      && negb (existsb (fun r => range_covers r q) (reserved_ranges bi))) as Hu.
  { intros q Hq. rewrite H8 by done. rewrite H4 by done. f_equal.
    unfold usable, pmm_blank; simpl. by rewrite bit_get_replicate0 by lia. }
  destruct Hacc as (_ & _ & _ & _ & Hpc & _). destruct Hwf as [_ _ Hp _].
  split_and!; try done.
  - split; [done|]. rewrite Hu by lia.
    unfold reserved_ranges. simpl. by rewrite andb_false_r.
  - intros q Hq. apply Hu. by rewrite H7 in Hq.
Qed.

(** ** The allocator as sets of pages *)

Definition page_set (f : Z -> bool) (n : Z) : gset Z :=
  list_to_set (filter (fun p => f p = true) (zrange 0 (Z.to_nat n))).

Lemma elem_of_page_set f n p : p ∈ page_set f n <-> 0 <= p < n /\ f p = true.
Proof.
  unfold page_set. rewrite elem_of_list_to_set, list_elem_of_filter, elem_of_zrange.
  intuition lia.
Qed.

Definition free_set (s : pmm_state) : gset Z := page_set (is_free s) (page_count s).
Definition live_set (s : pmm_state) : gset Z :=
  page_set (fun p => usable s p && used s p) (page_count s).

Lemma free_run_set s p n : 0 < n -> free_run s p n <-> page_run p n ⊆ free_set s.
Proof.
  intros Hn. unfold free_run. split.
  - intros (Hp & Hpn & Hall) q Hq%elem_of_page_run. apply elem_of_page_set. split; [lia|]. by apply Hall.
  - intros Hsub.
    assert (forall q, p <= q < p + n -> 0 <= q < page_count s /\ is_free s q = true) as Hall.
    { intros q Hq. apply elem_of_page_set, Hsub. by apply elem_of_page_run. }
    pose proof (Hall p ltac:(lia)). pose proof (Hall (p + n - 1) ltac:(lia)).
    split_and!; try lia. intros j Hj. by apply Hall.
Qed.

Lemma used_run_set s p n : 0 < n -> 0 <= p -> used_run s p n <-> page_run p n ⊆ live_set s.
Proof.
  intros Hn Hp. unfold used_run. split.
  - intros (Hpn & Hall) q Hq%elem_of_page_run. apply elem_of_page_set. split; [lia|].
    destruct (Hall q) as [-> ->]; [lia|done].
  - intros Hsub.
    assert (forall q, p <= q < p + n -> 0 <= q < page_count s /\ usable s q && used s q = true) as Hall.
    { intros q Hq. apply (elem_of_page_set (fun p => usable s p && used s p)), Hsub. by apply elem_of_page_run. }
    pose proof (Hall (p + n - 1) ltac:(lia)). split; [lia|]. intros j Hj.
    destruct (Hall j Hj) as [_ ?]. by b2p.
Qed.

#[export] Instance pmm_allocator : PageAllocator pmm_state := {
  pa_ok := pmm_ok;
  pa_free := free_set;
  pa_live := live_set;
  pa_alloc := pmm_alloc_pages;
  pa_release := pmm_release_pages }.

Lemma alloc_sets s s' p n :
  page_count s' = page_count s ->
  free_run s p n ->
  (forall q, 0 <= q -> usable s' q = usable s q
     /\ used s' q = ((p <=? q) && (q <? p + n)) || used s q) ->
  free_set s' = free_set s ∖ page_run p n /\ live_set s' = live_set s ∪ page_run p n.
Proof.
  intros Hpc (Hp & Hpn & Hall) Hbits.
  assert (forall q, p <= q < p + n -> usable s q = true /\ used s q = false) as Hrun.
  { intros q Hq. specialize (Hall q Hq). unfold is_free in Hall. by b2p. }
  split; apply set_eq; intros q; rewrite ?elem_of_difference, ?elem_of_union;
    unfold free_set, live_set; rewrite !elem_of_page_set, elem_of_page_run, Hpc.
  - destruct (decide (p <= q < p + n)) as [Hin|Hout].
    + split; [intros [Hq Hf]|intros [_ ?]; lia]. unfold is_free in Hf. destruct (Hbits q) as [_ Hd]; [lia|].
      rewrite Hd, in_range_true in Hf by done. simpl in Hf. by rewrite andb_false_r in Hf.
    + assert (0 <= q -> is_free s' q = is_free s q) as Hsame.
      { intros Hq. unfold is_free. destruct (Hbits q Hq) as [-> ->].
        destruct ((p <=? q) && (q <? p + n))%bool eqn:E; [b2p; lia|done]. }
      split; [intros [Hq Hf]; rewrite Hsame in Hf by lia|intros [[Hq Hf] _]; rewrite Hsame by lia]; intuition.
  - destruct (decide (p <= q < p + n)) as [Hin|Hout].
    + split; [by right|intros _]. destruct (Hrun q Hin) as [Hu _]. destruct (Hbits q) as [-> ->]; [lia|].
      rewrite Hu, in_range_true by done. split; [lia|done].
    + assert (0 <= q -> usable s' q && used s' q = usable s q && used s q) as Hsame.
      { intros Hq. destruct (Hbits q Hq) as [-> ->].
        destruct ((p <=? q) && (q <? p + n))%bool eqn:E; [b2p; lia|done]. }
      split; [intros [Hq Hf]; rewrite Hsame in Hf by lia; by left|intros [[Hq Hf]|?]; [rewrite Hsame by lia; done|lia]].
Qed.

Lemma release_sets s s' p n :
  0 <= p -> page_count s' = page_count s -> used_run s p n ->
  (forall q, 0 <= q -> usable s' q = usable s q
     /\ used s' q = negb ((p <=? q) && (q <? p + n)) && used s q) ->
  free_set s' = free_set s ∪ page_run p n /\ live_set s' = live_set s ∖ page_run p n.
Proof.
  intros Hp Hpc (Hpn & Hall) Hbits.
  split; apply set_eq; intros q; rewrite ?elem_of_difference, ?elem_of_union;
    unfold free_set, live_set; rewrite !elem_of_page_set, elem_of_page_run, Hpc.
  - destruct (decide (p <= q < p + n)) as [Hin|Hout].
    + split; [by right|intros _]. destruct (Hall q Hin) as [Hu _]. unfold is_free.
      destruct (Hbits q) as [-> ->]; [lia|]. rewrite Hu, in_range_true by done. split; [lia|done].
    + assert (0 <= q -> is_free s' q = is_free s q) as Hsame.
      { intros Hq. unfold is_free. destruct (Hbits q Hq) as [-> ->].
        destruct ((p <=? q) && (q <? p + n))%bool eqn:E; [b2p; lia|done]. }
      split; [intros [Hq Hf]; rewrite Hsame in Hf by lia; by left|intros [[Hq Hf]|?]; [rewrite Hsame by lia; done|lia]].
  - destruct (decide (p <= q < p + n)) as [Hin|Hout].
    + split; [intros [Hq Hf]|intros [_ ?]; lia]. destruct (Hbits q) as [_ Hd]; [lia|].
      rewrite Hd, in_range_true in Hf by done. simpl in Hf. by rewrite andb_false_r in Hf.
    + assert (0 <= q -> usable s' q && used s' q = usable s q && used s q) as Hsame.
      { intros Hq. destruct (Hbits q Hq) as [-> ->].
        destruct ((p <=? q) && (q <? p + n))%bool eqn:E; [b2p; lia|done]. }
      split; [intros [Hq Hf]; rewrite Hsame in Hf by lia|intros [[Hq Hf] _]; rewrite Hsame by lia]; intuition.
Qed.

#[export] Instance pmm_allocator_laws : PageAllocatorLaws pmm_state.
Proof.
  split; simpl.
  - intros s _. intros q. unfold free_set, live_set. rewrite !elem_of_page_set. unfold is_free.
    intros [_ Hf] [_ Hl]. b2p. congruence.
  - intros s n Hok Hn. pose proof (alloc_pages_spec s n Hok Hn) as Hs.
    destruct (pmm_alloc_pages s n) as [a s'].
    destruct Hs as [(-> & -> & Hno)|(p & -> & Hp & Hn0 & Hrun & _ & Hok' & Hpc & _ & _ & Hbits)].
    + left. split_and!; [done|done|]. destruct (decide (n = 0)); [by left|right].
      destruct Hno as [?|Hno]; [done|]. intros p Hsub. apply (Hno p). apply free_run_set; [lia|done].
    + right. destruct (alloc_sets s s' p n Hpc Hrun Hbits) as [Hf Hl].
      exists p. split_and!; try done.
      * destruct Hrun as (_ & Hpn & _). pose proof (pc_address s (proj1 Hok)). unfold ARGUS_PAGE_SIZE in *. lia.
      * by apply free_run_set.
  - intros s a n Hok Ha Hn. pose proof (pmm_release_pages_spec s a n Hok Ha Hn) as Hs.
    assert (0 <= a / ARGUS_PAGE_SIZE) as Hp0 by (apply Z.div_pos; unfold ARGUS_PAGE_SIZE; lia).
    destruct (pmm_release_pages s a n) as [b s'].
    destruct Hs as [(-> & -> & Hno)|(-> & Hal & Hn0 & Hrun & Hok' & Hpc & _ & _ & Hbits)].
    + left. split_and!; [done|done|]. intros (H1 & H2 & H3). apply Hno. split_and!; try done.
      by apply used_run_set.
    + right. destruct (release_sets s s' _ n Hp0 Hpc Hrun Hbits) as [Hf Hl].
      split_and!; try done. by apply used_run_set.
Qed.

(** ** Histories *)

Inductive pmm_op :=
  | PmmAlloc (count : Z)
  | PmmRelease (address count : Z).

Definition pmm_op_wf (op : pmm_op) : Prop :=
  match op with
  | PmmAlloc count => 0 <= count
  | PmmRelease address count => 0 <= address /\ 0 <= count
  end.

Definition pmm_exec (s : pmm_state) (op : pmm_op) : pmm_state :=
  match op with
  | PmmAlloc count => snd (pmm_alloc_pages s count)
  | PmmRelease address count => snd (pmm_release_pages s address count)
  end.

Definition pmm_run (ops : list pmm_op) (s : pmm_state) : pmm_state := fold_left pmm_exec ops s.

(** No operation changes which pages are managed. *)
Lemma pmm_exec_spec s op :
  pmm_ok s -> pmm_op_wf op ->
  pmm_ok (pmm_exec s op) /\ page_count (pmm_exec s op) = page_count s
  /\ forall q, 0 <= q -> usable (pmm_exec s op) q = usable s q.
Proof.
  intros Hok Hwf. destruct op as [n|a n]; simpl in *.
  - pose proof (alloc_pages_spec s n Hok Hwf) as Hs. destruct (pmm_alloc_pages s n) as [a s'].
    destruct Hs as [(_ & -> & _)|(p & _ & _ & _ & _ & _ & Hok' & Hpc & _ & _ & Hb)]; [done|].
    split_and!; [done|done|]. intros q Hq. by apply Hb.
  - destruct Hwf as [Ha Hn]. pose proof (pmm_release_pages_spec s a n Hok Ha Hn) as Hs.
    destruct (pmm_release_pages s a n) as [b s'].
    destruct Hs as [(_ & -> & _)|(_ & _ & _ & _ & Hok' & Hpc & _ & _ & Hb)]; [done|].
    split_and!; [done|done|]. intros q Hq. by apply Hb.
Qed.

Lemma pmm_run_spec ops s :
  pmm_ok s -> Forall pmm_op_wf ops ->
  pmm_ok (pmm_run ops s) /\ page_count (pmm_run ops s) = page_count s
  /\ forall q, 0 <= q -> usable (pmm_run ops s) q = usable s q.
Proof.
  intros Hok HF. revert s Hok. induction HF as [|op ops Hwf _ IH]; intros s Hok; [done|].
  destruct (pmm_exec_spec s op Hok Hwf) as (Hok' & Hpc & Hu).
  destruct (IH _ Hok') as (H1 & H2 & H3). split_and!; [done|by rewrite <- Hpc|].
  intros q Hq. rewrite <- Hu by done. by apply H3.
Qed.

Lemma pmm_validate_ok s : pmm_core s -> pmm_validate s = true.
Proof.
  intros H. unfold pmm_validate.
  change (fun page => bit_get (usable_bitmap s) page) with (usable s).
  change (fun page => bit_get (usable_bitmap s) page && negb (bit_get (used_bitmap s) page))
    with (is_free s).
  rewrite <- (pc_managed s H), <- (pc_free s H), !Z.eqb_refl.
  pose proof (pc_bounds s H). simpl. lia.
Qed.

Lemma zcount_size f n : 0 <= n -> Z.of_nat (size (page_set f n)) = zcount f 0 (Z.to_nat n).
Proof.
  intros Hn. unfold page_set. generalize (Z.to_nat n) as k. generalize 0 as lo. intros lo k.
  rewrite size_list_to_set.
  2:{ apply list.NoDup_filter. clear. revert lo. induction k as [|k IH]; intros lo; cbn [zrange]; constructor; [|done].
      rewrite elem_of_zrange. lia. }
  revert lo. induction k as [|k IH]; intros lo; [done|].
  cbn [zrange]. rewrite zcount_S, filter_cons. specialize (IH (lo + 1)).
  case_decide as Hd; cbn [length]; [rewrite Hd|destruct (f lo); [done|]]; simpl b2z; lia.
Qed.

(** ** Properties *)

(** After a successful start the allocator manages exactly the pages that
    some conventional-memory descriptor covers and that no reserved range (low
    megabyte, kernel image, boot record, stack, bitmaps, memory map, frame
    buffer, ACPI root) touches; none is in use, and the counters agree. *)
Theorem pmm_init_correct s bi :
  boot_info_wf bi -> boot_info_accepted bi ->
  let '(b, s') := pmm_init s (Some bi) in
  pmm_ok s' /\ pmm_fresh s' /\ page_count s' = bi_pmm_page_count bi
  /\ b = nz (managed_count s')
  /\ forall q, 0 <= q < page_count s' ->
       usable s' q = existsb (fun d => descriptor_covers d q) (map_descriptors (bi_memory_map bi))
                     && negb (existsb (fun r => range_covers r q) (reserved_ranges bi)).
Proof. apply pmm_init_spec. Qed.

(** Allocation is first fit and complete.  It fails (returns 0, changing
    nothing) exactly when the count is 0 or no run of that many free pages
    exists; otherwise it returns the address of the lowest such run, marks
    exactly those pages used and lowers the free count by the run's length. *)
Theorem pmm_alloc_first_fit s count :
  pmm_ok s -> 0 <= count ->
  let '(a, s') := pmm_alloc_pages s count in
  (a = 0 <-> count = 0 \/ forall p, ~ page_run p count ⊆ free_set s)
  /\ (a = 0 -> s' = s)
  /\ (a <> 0 ->
      exists p, a = p * ARGUS_PAGE_SIZE /\ page_run p count ⊆ free_set s
        /\ (forall q, q < p -> ~ page_run q count ⊆ free_set s)
        /\ pmm_ok s' /\ free_set s' = free_set s ∖ page_run p count
        /\ live_set s' = live_set s ∪ page_run p count
        /\ free_count s' = free_count s - count).
Proof.
  intros Hok Hc. pose proof (alloc_pages_spec s count Hok Hc) as Hs.
  destruct (pmm_alloc_pages s count) as [a s'].
  destruct Hs as [(-> & -> & Hno)|(p & -> & Hp & Hn & Hrun & Hfirst & Hok' & Hpc & Hfc & _ & Hbits)].
  - split_and!; [|done|done]. split; [intros _|done].
    destruct (decide (count = 0)); [by left|right]. destruct Hno as [?|Hno]; [done|].
    intros p Hsub. apply (Hno p). apply free_run_set; [lia|done].
  - destruct (alloc_sets s s' p count Hpc Hrun Hbits) as [Hf Hl]. unfold ARGUS_PAGE_SIZE.
    assert (page_run p count ⊆ free_set s) as Hsub by by apply free_run_set.
    split_and!; [|lia|].
    + split; [lia|]. intros [?|Hno]; [lia|]. exfalso. by apply (Hno p).
    + intros _. exists p. split_and!; try done. intros q Hq. rewrite <- free_run_set by done. by apply Hfirst.
Qed.

(** Release is exact.  It succeeds only for a page-aligned address whose
    whole run is allocated, and then frees exactly that run; anything else (a
    misaligned address, a zero count, a page never managed, already free, or
    past the end: a double or invalid free) returns 0 and changes nothing. *)
Theorem pmm_release_exact s a count :
  pmm_ok s -> 0 <= a -> 0 <= count ->
  let '(b, s') := pmm_release_pages s a count in
  let run := page_run (a / ARGUS_PAGE_SIZE) count in
  (b = true <-> a mod ARGUS_PAGE_SIZE = 0 /\ 0 < count /\ run ⊆ live_set s)
  /\ (b = false -> s' = s)
  /\ (b = true -> pmm_ok s' /\ free_set s' = free_set s ∪ run
                  /\ live_set s' = live_set s ∖ run /\ free_count s' = free_count s + count).
Proof.
  intros Hok Ha Hc. pose proof (pmm_release_pages_spec s a count Hok Ha Hc) as Hs.
  assert (0 <= a / ARGUS_PAGE_SIZE) as Hp0 by (apply Z.div_pos; unfold ARGUS_PAGE_SIZE; lia).
  destruct (pmm_release_pages s a count) as [b s'].
  destruct Hs as [(-> & -> & Hno)|(-> & Hal & Hn & Hrun & Hok' & Hpc & Hfc & _ & Hbits)].
  - split_and!; [|done|done]. split; [done|]. intros (H1 & H2 & H3). exfalso. apply Hno.
    split_and!; try done. by apply used_run_set.
  - destruct (release_sets s s' _ count Hp0 Hpc Hrun Hbits) as [Hf Hl].
    split_and!; [|done|done]. split; [intros _|done]. split_and!; try done. by apply used_run_set.
Qed.

(** Freeing what was just allocated always succeeds and restores the free
    pages; freeing it a second time is rejected. *)
Theorem pmm_alloc_release_roundtrip s count a s1 :
  pmm_ok s -> 0 <= count -> pmm_alloc_pages s count = (a, s1) -> a <> 0 ->
  exists s2, pmm_release_pages s1 a count = (true, s2)
    /\ free_set s2 = free_set s /\ live_set s2 = live_set s
    /\ pmm_release_pages s2 a count = (false, s2).
Proof.
  intros Hok Hc Ha Hne.
  destruct (@pa_alloc_release pmm_state pmm_allocator pmm_allocator_laws s count a s1 Hok Hc Ha Hne) as (s2 & Hr & Hok2 & Hf & Hl).
  simpl in *. exists s2. split_and!; try done.
  destruct (@pa_alloc_fresh pmm_state pmm_allocator pmm_allocator_laws s count a s1 Hok Hc Ha Hne) as (Hal & Hpos & _ & Hdis & Hsub & _).
  simpl in *. pose proof (pmm_release_pages_spec s2 a count Hok2 ltac:(lia) Hc) as Hs.
  destruct (pmm_release_pages s2 a count) as [b s3].
  destruct Hs as [(-> & -> & _)|(-> & _ & Hn & Hrun & _)]; [done|exfalso].
  assert (0 <= a / ARGUS_PAGE_SIZE) by (apply Z.div_pos; unfold ARGUS_PAGE_SIZE; lia).
  apply used_run_set in Hrun; [|done|done]. rewrite Hl in Hrun.
  assert (a / ARGUS_PAGE_SIZE ∈ page_run (a / ARGUS_PAGE_SIZE) count) as Hin
    by (apply elem_of_page_run; lia).
  exact (Hdis _ Hin (Hrun _ Hin)).
Qed.

(** C7: from boot and through any sequence of allocations and releases, the
    kernel's own consistency check succeeds, the free counter is the number of
    free pages, and no page of a reserved range is ever handed out. *)
Theorem pmm_history_valid s0 bi ops :
  boot_info_wf bi -> boot_info_accepted bi -> Forall pmm_op_wf ops ->
  let s := pmm_run ops (snd (pmm_init s0 (Some bi))) in
  pmm_validate s = true /\ free_count s = Z.of_nat (size (free_set s))
  /\ forall q, q ∈ live_set s -> existsb (fun r => range_covers r q) (reserved_ranges bi) = false.
Proof.
  intros Hwf Hacc HF. pose proof (pmm_init_spec s0 bi Hwf Hacc) as Hi.
  destruct (pmm_init s0 (Some bi)) as [b s1]. cbn [snd].
  destruct Hi as (Hok & _ & Hpc & _ & Hu).
  destruct (pmm_run_spec ops s1 Hok HF) as ([Hcore _] & Hpc' & Hu').
  cbv zeta. split_and!.
  - by apply pmm_validate_ok.
  - unfold free_set. rewrite zcount_size by apply (pc_count _ Hcore). apply (pc_free _ Hcore).
  - intros q (Hq & Huq)%(elem_of_page_set (fun p => usable _ p && used _ p)).
    b2p. rewrite Hu' in H by lia. rewrite Hu in H by lia. by b2p.
Qed.

(** ** Witnesses

    A 2 MiB machine: one conventional descriptor of 512 pages, with the kernel,
    the boot record, the stack, the bitmaps and the map in the second megabyte. *)

Definition sample_descriptor (type start pages : Z) : list Z :=
  le_bytes 8 type ++ le_bytes 8 start ++ le_bytes 8 0 ++ le_bytes 8 pages ++ le_bytes 8 0xF.

Definition sample_boot_info : boot_info_t :=
  mk_boot_info ARGUS_BOOT_INFO_MAGIC 2 1 0
    (mk_map (Some (sample_descriptor 7 0 512)) 40 40 1 40 1)
    (mk_framebuffer 0 0 0 0 0 0 0) 0
    (mk_range 0x110000 0x8000) (mk_range 0x120000 0x1000) (mk_range 0x121000 0x11000)
    (mk_range 0x121000 0x1000) (mk_range 0x140000 0x1000) (mk_range 0x141000 0x1000)
    512 64.

Definition sample_pmm : pmm_state := snd (pmm_init pmm0 (Some sample_boot_info)).

Example sample_pmm_starts :
  fst (pmm_init pmm0 (Some sample_boot_info)) = true
  /\ free_count sample_pmm = 228 /\ fst (pmm_self_test sample_pmm) = true.
Proof. vm_compute. auto. Qed.

Lemma sample_boot_info_wf : boot_info_wf sample_boot_info.
Proof.
  constructor.
  - cbn [sample_boot_info bi_memory_map map_buffer].
    apply (bool_decide_unpack _). vm_compute. exact I.
  - unfold range_wf. apply (bool_decide_unpack _). vm_compute. exact I.
  - simpl. lia.
  - by vm_compute.
Qed.

Lemma sample_boot_info_accepted : boot_info_accepted sample_boot_info.
Proof. unfold boot_info_accepted. simpl. split_and!; done. Qed.

Lemma sample_pmm_ok : pmm_ok sample_pmm.
Proof.
  pose proof (pmm_init_spec pmm0 sample_boot_info sample_boot_info_wf sample_boot_info_accepted) as H.
  unfold sample_pmm. destruct (pmm_init _ _). apply H.
Qed.

Lemma pmm_init_correct_witness : pmm_fresh sample_pmm.
Proof.
  pose proof (pmm_init_correct pmm0 sample_boot_info sample_boot_info_wf
                sample_boot_info_accepted) as H.
  unfold sample_pmm. destruct (pmm_init _ _). apply H.
Defined.

Lemma pmm_alloc_first_fit_witness :
  fst (pmm_alloc_pages sample_pmm 20) = 0x142000
  /\ free_count (snd (pmm_alloc_pages sample_pmm 20)) = free_count sample_pmm - 20.
Proof.
  assert (fst (pmm_alloc_pages sample_pmm 20) = 0x142000) as Ha by (vm_compute; reflexivity).
  split; [exact Ha|].
  pose proof (pmm_alloc_first_fit sample_pmm 20 sample_pmm_ok ltac:(lia)) as H.
  destruct (pmm_alloc_pages sample_pmm 20) as [a s]. cbn [fst snd] in *.
  destruct H as (_ & _ & H). destruct (H ltac:(lia)) as (p & _ & _ & _ & _ & _ & _ & Hfc).
  exact Hfc.
Defined.

Lemma pmm_release_exact_witness :
  fst (pmm_release_pages sample_pmm 0x150000 1) = false
  /\ snd (pmm_release_pages sample_pmm 0x150000 1) = sample_pmm.
Proof.
  assert (fst (pmm_release_pages sample_pmm 0x150000 1) = false) as Hf by (vm_compute; reflexivity).
  split; [exact Hf|].
  pose proof (pmm_release_exact sample_pmm 0x150000 1 sample_pmm_ok
                ltac:(lia) ltac:(lia)) as H.
  destruct (pmm_release_pages sample_pmm 0x150000 1) as [b s]. destruct H as (_ & H & _).
  exact (H Hf).
Defined.

Lemma pmm_alloc_release_roundtrip_witness :
  exists s2, pmm_release_pages (snd (pmm_alloc_pages sample_pmm 20)) 0x142000 20 = (true, s2)
    /\ free_set s2 = free_set sample_pmm /\ live_set s2 = live_set sample_pmm
    /\ pmm_release_pages s2 0x142000 20 = (false, s2).
Proof.
  apply (pmm_alloc_release_roundtrip sample_pmm 20).
  - apply sample_pmm_ok.
  - lia.
  - vm_compute. reflexivity.
  - lia.
Defined.

Lemma pmm_history_valid_witness :
  pmm_validate (pmm_run [PmmAlloc 3; PmmAlloc 1; PmmRelease 0x142000 1]
                  (snd (pmm_init pmm0 (Some sample_boot_info)))) = true.
Proof.
  assert (Forall pmm_op_wf [PmmAlloc 3; PmmAlloc 1; PmmRelease 0x142000 1]) as HF
    by (repeat constructor; simpl; lia).
  destruct (pmm_history_valid pmm0 sample_boot_info _ sample_boot_info_wf
              sample_boot_info_accepted HF) as [Hv _].
  exact Hv.
Defined.
