(* ===== verification/Elf.v ===== *)
(** * The user-image validator (src/elf_loader.c, src/elf_loader.h)

    [elf_validate_user_image] reads an untrusted ELF64 file and fills an image
    description the process loader maps page by page.  The file is a list of
    bytes; the packed headers are read from it field by field, little endian.
    Null pointers are [None].  On rejection the image keeps whatever the scan had
    already written, as in the source. *)

From stdpp Require Import base list numbers.
From Stdlib Require Import ZArith Lia.
From S2P Require Import Prelude Memory BootInfo.

Open Scope Z_scope.

Definition ELF_CLASS_64 : Z := 2.
Definition ELF_DATA_LITTLE_ENDIAN : Z := 1.
Definition ELF_CURRENT_VERSION : Z := 1.
Definition ELF_TYPE_EXECUTABLE : Z := 2.
Definition ELF_MACHINE_X86_64 : Z := 62.
Definition ELF_PROGRAM_LOAD : Z := 1.
Definition ELF_PROGRAM_GNU_STACK : Z := 0x6474E551.
Definition ELF_FLAG_EXECUTE : Z := 1.
Definition ELF_FLAG_WRITE : Z := 2.
Definition ELF_FLAG_READ : Z := 4.
Definition ELF_PAGE_SIZE : Z := 4096.
Definition ELF_HEADER_SIZE : Z := 64.
Definition ELF_PROGRAM_HEADER_SIZE : Z := 56.
Definition ARGUS_ELF_MAX_SEGMENTS : Z := 8.
Definition ARGUS_ELF_MAX_IMAGE_PAGES : Z := 16.

Record elf64_header_t := mk_header {
  eh_identification : list Z;
  eh_type : Z;
  eh_machine : Z;
  eh_version : Z;
  eh_entry : Z;
  eh_program_header_offset : Z;
  eh_section_header_offset : Z;
  eh_flags : Z;
  eh_header_size : Z;
  eh_program_header_size : Z;
  eh_program_header_count : Z;
  eh_section_header_size : Z;
  eh_section_header_count : Z;
  eh_section_name_index : Z }.

Record elf64_program_header_t := mk_program {
  ph_type : Z;
  ph_flags : Z;
  ph_offset : Z;
  ph_virtual_address : Z;
  ph_physical_address : Z;
  ph_file_size : Z;
  ph_memory_size : Z;
  ph_alignment : Z }.

Record argus_elf_segment_t := mk_segment {
  seg_file_offset : Z;
  seg_file_size : Z;
  seg_virtual_address : Z;
  seg_memory_size : Z;
  seg_flags : Z;
  seg_page_count : Z }.

Record argus_elf_image_t := mk_image {
  img_entry : Z;
  img_segment_count : Z;
  img_total_pages : Z;
  img_segments : list argus_elf_segment_t }.

Definition segment0 : argus_elf_segment_t := mk_segment 0 0 0 0 0 0.
Definition image0 : argus_elf_image_t := mk_image 0 0 0 (replicate 8 segment0).

#[export] Instance program_eq_dec : EqDecision elf64_program_header_t.
Proof. solve_decision. Defined.
#[export] Instance segment_eq_dec : EqDecision argus_elf_segment_t.
Proof. solve_decision. Defined.
#[export] Instance image_eq_dec : EqDecision argus_elf_image_t.
Proof. solve_decision. Defined.

(** The casts of the byte pointer to the packed header types. *)
Definition read_header (bytes : list Z) : elf64_header_t :=
  let get := zget 0 bytes in
  mk_header (map get (zrange 0 16)) (le_read get 16 2) (le_read get 18 2) (le_read get 20 4)
    (le_read get 24 8) (le_read get 32 8) (le_read get 40 8) (le_read get 48 4)
    (le_read get 52 2) (le_read get 54 2) (le_read get 56 2) (le_read get 58 2)
    (le_read get 60 2) (le_read get 62 2).

Definition read_program (bytes : list Z) (o : Z) : elf64_program_header_t :=
  let get := zget 0 bytes in
  mk_program (le_read get o 4) (le_read get (o + 4) 4) (le_read get (o + 8) 8)
    (le_read get (o + 16) 8) (le_read get (o + 24) 8) (le_read get (o + 32) 8)
    (le_read get (o + 40) 8) (le_read get (o + 48) 8).

Definition add_overflows (left right : Z) : bool := UINT64_MAX - right <? left.

Definition ranges_overlap (first_start first_size second_start second_size : Z) : bool :=
  (first_start <? u64 (second_start + second_size)) &&
  (second_start <? u64 (first_start + first_size)).

(** The identification and header test of the first lines. *)
Definition header_rejected (h : elf64_header_t) : bool :=
  let id := zget 0 (eh_identification h) in
  (id 0 !=? 0x7F) || (id 1 !=? 69) || (id 2 !=? 76) || (id 3 !=? 70) ||
  (id 4 !=? ELF_CLASS_64) || (id 5 !=? ELF_DATA_LITTLE_ENDIAN) ||
  (id 6 !=? ELF_CURRENT_VERSION) || (eh_type h !=? ELF_TYPE_EXECUTABLE) ||
  (eh_machine h !=? ELF_MACHINE_X86_64) || (eh_version h !=? ELF_CURRENT_VERSION) ||
  (eh_flags h !=? 0) || (eh_header_size h !=? ELF_HEADER_SIZE) ||
  (eh_program_header_size h !=? ELF_PROGRAM_HEADER_SIZE) ||
  negb (nz (eh_program_header_count h)) ||
  (ARGUS_ELF_MAX_SEGMENTS + 1 <? eh_program_header_count h).

(** The test on a [PT_GNU_STACK] header. *)
Definition stack_rejected (stack_seen : bool) (p : elf64_program_header_t) : bool :=
  stack_seen || (ph_flags p !=? Z.lor ELF_FLAG_READ ELF_FLAG_WRITE) ||
  nz (ph_offset p) || nz (ph_virtual_address p) || nz (ph_physical_address p) ||
  nz (ph_file_size p) || nz (ph_memory_size p).

(** The test on a [PT_LOAD] header; the 32-bit complement [~7u] is written out. *)
Definition load_rejected (size user_min user_max : Z) (p : elf64_program_header_t) : bool :=
  negb (nz (ph_memory_size p)) || (ph_memory_size p <? ph_file_size p) ||
  negb (nz (ph_flags p & ELF_FLAG_READ)) ||
  nz (ph_flags p & (UINT32_MAX - 7)) ||
  (nz (ph_flags p & ELF_FLAG_WRITE) && nz (ph_flags p & ELF_FLAG_EXECUTE)) ||
  nz (ph_offset p & (ELF_PAGE_SIZE - 1)) ||
  nz (ph_virtual_address p & (ELF_PAGE_SIZE - 1)) ||
  (ph_alignment p !=? ELF_PAGE_SIZE) ||
  add_overflows (ph_offset p) (ph_file_size p) ||
  (size <? u64 (ph_offset p + ph_file_size p)) ||
  add_overflows (ph_virtual_address p) (ph_memory_size p) ||
  (ph_virtual_address p <? user_min) ||
  (user_max <? u64 (ph_virtual_address p + ph_memory_size p)).

(** [(memory_size + ELF_PAGE_SIZE - 1u) & ~(uint64_t)(ELF_PAGE_SIZE - 1u)] *)
Definition round_up (memory_size : Z) : Z :=
  u64 (u64 (memory_size + ELF_PAGE_SIZE) - 1) & (UINT64_MAX - (ELF_PAGE_SIZE - 1)).

Definition segment_pages (rounded_size : Z) : Z := u32 (rounded_size / ELF_PAGE_SIZE).

(** [!page_count || total_pages > ARGUS_ELF_MAX_IMAGE_PAGES - page_count], in
    32-bit unsigned arithmetic. *)
Definition over_budget (total_pages page_count : Z) : bool :=
  negb (nz page_count) || (u32 (ARGUS_ELF_MAX_IMAGE_PAGES - page_count) <? total_pages).

Definition overlaps_prior (image : argus_elf_image_t) (va rounded_size : Z) : bool :=
  negb (zall (fun prior =>
    let other := zget segment0 (img_segments image) prior in
    negb (ranges_overlap va rounded_size (seg_virtual_address other)
            (u64 (seg_page_count other * ELF_PAGE_SIZE))))
    0 (Z.to_nat (img_segment_count image))).

Definition segment_of (p : elf64_program_header_t) (page_count : Z) : argus_elf_segment_t :=
  mk_segment (ph_offset p) (ph_file_size p) (ph_virtual_address p) (ph_memory_size p)
    (ph_flags p) page_count.

Definition add_segment (image : argus_elf_image_t) (p : elf64_program_header_t) (page_count : Z)
  : argus_elf_image_t :=
  mk_image (img_entry image) (u32 (img_segment_count image + 1))
    (u32 (img_total_pages image + page_count))
    (zset (img_segments image) (img_segment_count image) (segment_of p page_count)).

Definition holds_entry (entry : Z) (p : elf64_program_header_t) : bool :=
  nz (ph_flags p & ELF_FLAG_EXECUTE) && (ph_virtual_address p <=? entry) &&
  (entry <? u64 (ph_virtual_address p + ph_file_size p)).

(** The locals of the scan loop. *)
Record scan := mk_scan {
  sc_image : argus_elf_image_t;
  sc_entry_is_executable : bool;
  sc_stack_seen : bool }.

(** One iteration: [inl] is the early [return 0] with the image as it stands,
    [inr] goes on with the next header. *)
Definition scan_program (size user_min user_max entry : Z) (p : elf64_program_header_t)
  (s : scan) : argus_elf_image_t + scan :=
  let image := sc_image s in
  if ph_type p =? ELF_PROGRAM_GNU_STACK then
    if stack_rejected (sc_stack_seen s) p then inl image
    else inr (mk_scan image (sc_entry_is_executable s) true)
  else if ph_type p !=? ELF_PROGRAM_LOAD then inl image
  else if (img_segment_count image =? ARGUS_ELF_MAX_SEGMENTS) ||
          load_rejected size user_min user_max p then inl image
  else if add_overflows (ph_memory_size p) (ELF_PAGE_SIZE - 1) then inl image
  else
    let rounded_size := round_up (ph_memory_size p) in
    let page_count := segment_pages rounded_size in
    if over_budget (img_total_pages image) page_count then inl image
    else if overlaps_prior image (ph_virtual_address p) rounded_size then inl image
    else inr (mk_scan (add_segment image p page_count)
                (sc_entry_is_executable s || holds_entry entry p) (sc_stack_seen s)).

Fixpoint scan_programs (size user_min user_max entry : Z) (ps : list elf64_program_header_t)
  (s : scan) : argus_elf_image_t + scan :=
  match ps with
  | [] => inr s
  | p :: ps' =>
      match scan_program size user_min user_max entry p s with
      | inl image => inl image
      | inr s' => scan_programs size user_min user_max entry ps' s'
      end
  end.

(** The program headers the loop visits, in order. *)
Definition programs (bytes : list Z) (h : elf64_header_t) : list elf64_program_header_t :=
  map (fun index => read_program bytes
         (eh_program_header_offset h + index * ELF_PROGRAM_HEADER_SIZE))
    (zrange 0 (Z.to_nat (eh_program_header_count h))).

Definition elf_validate_user_image (bytes : option (list Z)) (size user_min user_max : Z)
  (image : option argus_elf_image_t) : bool * option argus_elf_image_t :=
  match bytes, image with
  | Some bytes, Some img =>
      if (size <? ELF_HEADER_SIZE) || (user_max <=? user_min) then (false, Some img)
      else
        let header := read_header bytes in
        if header_rejected header then (false, Some img)
        else
          let table_size := eh_program_header_count header * ELF_PROGRAM_HEADER_SIZE in
          let offset := eh_program_header_offset header in
          if add_overflows offset table_size || (size <? u64 (offset + table_size))
          then (false, Some img)
          else
            match scan_programs size user_min user_max (eh_entry header)
                    (programs bytes header) (mk_scan image0 false false) with
            | inl img' => (false, Some img')
            | inr s =>
                let img' := sc_image s in
                if negb (nz (img_segment_count img')) || negb (sc_entry_is_executable s) ||
                   negb (sc_stack_seen s)
                then (false, Some img')
                else (true, Some (mk_image (eh_entry header) (img_segment_count img')
                                    (img_total_pages img') (img_segments img')))
            end
  | _, img => (false, img)
  end.

#[global] Arguments le_read : simpl never.

(** ** What the tests mean in plain arithmetic *)

Definition program_wf (p : elf64_program_header_t) : Prop :=
  0 <= ph_type p <= UINT32_MAX /\ 0 <= ph_flags p <= UINT32_MAX /\
  0 <= ph_offset p <= UINT64_MAX /\ 0 <= ph_virtual_address p <= UINT64_MAX /\
  0 <= ph_physical_address p <= UINT64_MAX /\ 0 <= ph_file_size p <= UINT64_MAX /\
  0 <= ph_memory_size p <= UINT64_MAX /\ 0 <= ph_alignment p <= UINT64_MAX.

Definition is_stack (p : elf64_program_header_t) : bool := ph_type p =? ELF_PROGRAM_GNU_STACK.
Definition is_load (p : elf64_program_header_t) : bool := ph_type p =? ELF_PROGRAM_LOAD.

(** A stack header asks for a readable, writable, non-executable stack and
    nothing else. *)
Definition stack_ok (p : elf64_program_header_t) : Prop :=
  ph_flags p = 6 /\ ph_offset p = 0 /\ ph_virtual_address p = 0 /\
  ph_physical_address p = 0 /\ ph_file_size p = 0 /\ ph_memory_size p = 0.

(** A load header: readable, never both writable and executable, page aligned,
    its bytes inside the file and its memory inside the user window. *)
Definition load_ok (size user_min user_max : Z) (p : elf64_program_header_t) : Prop :=
  0 < ph_memory_size p /\ ph_file_size p <= ph_memory_size p /\
  (ph_flags p = 4 \/ ph_flags p = 5 \/ ph_flags p = 6) /\
  ph_offset p mod 4096 = 0 /\ ph_virtual_address p mod 4096 = 0 /\ ph_alignment p = 4096 /\
  ph_offset p + ph_file_size p <= size /\
  user_min <= ph_virtual_address p /\ ph_virtual_address p + ph_memory_size p <= user_max.

Definition page_span (p : elf64_program_header_t) : Z := (ph_memory_size p + 4095) / 4096.

(** The pages of two load headers do not meet. *)
Definition pages_disjoint (p q : elf64_program_header_t) : Prop :=
  ph_virtual_address p + page_span p * 4096 <= ph_virtual_address q \/
  ph_virtual_address q + page_span q * 4096 <= ph_virtual_address p.

Definition runs_entry (entry : Z) (p : elf64_program_header_t) : Prop :=
  ph_flags p = 5 /\ ph_virtual_address p <= entry < ph_virtual_address p + ph_file_size p.

Lemma flags_small f : 0 <= f <= UINT32_MAX -> f & (UINT32_MAX - 7) = 0 -> f = f & 7.
Proof.
  intros Hf H. replace f with (f & (2 ^ 32 - 1)) at 1.
  - change (2 ^ 32 - 1) with (Z.lor (UINT32_MAX - 7) 7). by rewrite Z.land_lor_distr_r, H.
  - rewrite land_ones_mod by lia. apply Z.mod_small. unfold UINT32_MAX in *. lia.
Qed.

Lemma flags_ok f :
  0 <= f <= UINT32_MAX ->
  (nz (f & ELF_FLAG_READ) = true /\ nz (f & (UINT32_MAX - 7)) = false /\
   nz (f & ELF_FLAG_WRITE) && nz (f & ELF_FLAG_EXECUTE) = false)
  <-> f = 4 \/ f = 5 \/ f = 6.
Proof.
  intros Hf. split.
  - intros (Hr & Hx & Hwx). assert (f & (UINT32_MAX - 7) = 0) as H0 by (b2p; done).
    pose proof (flags_small f Hf H0) as Hs.
    pose proof (land_ones_mod f 3 ltac:(lia)) as Hm. change (2 ^ 3 - 1) with 7 in Hm.
    rewrite Hm in Hs.
    pose proof (Z.mod_pos_bound f (2 ^ 3) ltac:(lia)) as Hb. change (2 ^ 3) with 8 in *.
    assert (f = 0 \/ f = 1 \/ f = 2 \/ f = 3 \/ f = 4 \/ f = 5 \/ f = 6 \/ f = 7) as Hc by lia.
    destruct Hc as [->|[->|[->|[->|[->|[->|[->| ->]]]]]]]; try (vm_compute in Hr; done);
      try (vm_compute in Hwx; done); auto.
  - intros [->|[->| ->]]; by vm_compute.
Qed.

Lemma page_mask x : x & (ELF_PAGE_SIZE - 1) = x mod 4096.
Proof. apply (land_ones_mod x 12). lia. Qed.

Lemma add_overflows_false a b :
  0 <= a -> 0 <= b -> add_overflows a b = false <-> a + b <= UINT64_MAX.
Proof. intros. unfold add_overflows. rewrite Z.ltb_ge. lia. Qed.

Lemma stack_rejected_false seen p :
  stack_rejected seen p = false <-> seen = false /\ stack_ok p.
Proof.
  unfold stack_rejected, stack_ok. change (Z.lor ELF_FLAG_READ ELF_FLAG_WRITE) with 6.
  rewrite !orb_false_iff, negb_false_iff, Z.eqb_eq. unfold nz.
  rewrite !negb_false_iff, !Z.eqb_eq. tauto.
Qed.

Lemma load_rejected_false size user_min user_max p :
  program_wf p -> 0 <= size <= UINT64_MAX -> user_max <= UINT64_MAX ->
  load_rejected size user_min user_max p = false <-> load_ok size user_min user_max p.
Proof.
  intros (_ & Hf & Ho & Hv & _ & Hfs & Hms & _) Hs Hu. unfold load_rejected, load_ok.
  rewrite !orb_false_iff, !page_mask, !add_overflows_false by lia.
  pose proof (flags_ok (ph_flags p) Hf) as Hfl. rewrite <- Hfl.
  rewrite !negb_false_iff, !Z.ltb_ge, Z.eqb_eq.
  assert (forall x, nz x = false <-> x = 0) as Hnz
    by (intros x; unfold nz; rewrite negb_false_iff; apply Z.eqb_eq).
  rewrite (Hnz (ph_offset p mod 4096)), (Hnz (ph_virtual_address p mod 4096)).
  assert (nz (ph_memory_size p) = true <-> 0 < ph_memory_size p) as ->
    by (unfold nz; rewrite negb_true_iff, Z.eqb_neq; lia).
  unfold ELF_PAGE_SIZE. split.
  - intros H. destruct_and! H. rewrite u64_id in * by lia. tauto.
  - intros H. destruct_and! H. rewrite !u64_id by lia. split_and!; try done; lia.
Qed.

Lemma round_up_eq m :
  0 <= m -> m + 4095 <= UINT64_MAX -> round_up m = (m + 4095) / 4096 * 4096.
Proof.
  intros Hm Ho. unfold round_up, ELF_PAGE_SIZE.
  assert (u64 (u64 (m + 4096) - 1) = m + 4095) as ->.
  { unfold u64, UINT64_MAX in *. rewrite Zminus_mod_idemp_l, Z.mod_small by lia. lia. }
  change (UINT64_MAX - (4096 - 1)) with (2 ^ 64 - 2 ^ 12).
  rewrite land_field by lia. rewrite Z.mod_small by (unfold UINT64_MAX in *; lia). done.
Qed.

(** ** The scan, as a function of the headers already seen *)

Definition loads (ps : list elf64_program_header_t) : list elf64_program_header_t :=
  List.filter is_load ps.
Definition stacks (ps : list elf64_program_header_t) : list elf64_program_header_t :=
  List.filter is_stack ps.

Definition image_of (entry : Z) (ps : list elf64_program_header_t) : argus_elf_image_t :=
  mk_image entry (Z.of_nat (length (loads ps))) (u32 (zsum page_span (loads ps)))
    (map (fun p => segment_of p (page_span p)) (loads ps)
     ++ replicate (8 - length (loads ps)) segment0).

Definition scan_of (entry : Z) (ps : list elf64_program_header_t) : scan :=
  mk_scan (image_of 0 ps) (existsb (holds_entry entry) (loads ps)) (existsb is_stack ps).

Section scanning.
Context (size user_min user_max entry : Z).
Hypothesis Hsize : 0 <= size <= UINT64_MAX.
Hypothesis Hwin : user_max <= 2 ^ 43.

(** What the iteration for [p] asks for after the headers [before]. *)
Definition step_ok (before : list elf64_program_header_t) (p : elf64_program_header_t) : Prop :=
  (is_stack p = true /\ existsb is_stack before = false /\ stack_ok p) \/
  (is_load p = true /\ (length (loads before) < 8)%nat /\ load_ok size user_min user_max p /\
   over_budget (u32 (zsum page_span (loads before))) (page_span p) = false /\
   Forall (fun q => pages_disjoint q p) (loads before)).

Fixpoint headers_ok (before ps : list elf64_program_header_t) : Prop :=
  match ps with
  | [] => True
  | p :: ps' => step_ok before p /\ headers_ok (before ++ [p]) ps'
  end.

Lemma page_span_bounds p :
  load_ok size user_min user_max p -> 0 <= ph_virtual_address p ->
  1 <= page_span p <= 2 ^ 31 + 1 /\ page_span p * 4096 < ph_memory_size p + 4096.
Proof.
  intros (H1 & _ & _ & _ & _ & _ & _ & _ & H2) Hv. unfold page_span.
  Z.to_euclidean_division_equations. lia.
Qed.

Lemma load_pages p :
  program_wf p -> load_ok size user_min user_max p ->
  add_overflows (ph_memory_size p) (ELF_PAGE_SIZE - 1) = false /\
  round_up (ph_memory_size p) = page_span p * 4096 /\
  segment_pages (round_up (ph_memory_size p)) = page_span p.
Proof.
  intros Hwf Hl. destruct (page_span_bounds p Hl ltac:(apply Hwf)) as [Hb1 Hb2].
  assert (ph_memory_size p + 4095 <= UINT64_MAX) as Hm.
  { destruct Hl as (_ & _ & _ & _ & _ & _ & _ & _ & H2).
    destruct Hwf as (_ & _ & _ & ? & _). unfold UINT64_MAX. lia. }
  assert (0 <= ph_memory_size p) as H0 by apply Hwf.
  rewrite round_up_eq by done. change (2 ^ 31) with 2147483648 in Hb1.
  split_and!; [apply add_overflows_false; unfold ELF_PAGE_SIZE; lia|done|].
  unfold segment_pages, ELF_PAGE_SIZE. fold (page_span p). rewrite Z.div_mul by lia.
  apply u32_id. unfold UINT32_MAX. lia.
Qed.

Lemma ranges_overlap_false p q :
  program_wf p -> program_wf q ->
  load_ok size user_min user_max p -> load_ok size user_min user_max q ->
  ranges_overlap (ph_virtual_address p) (page_span p * 4096) (ph_virtual_address q)
    (u64 (page_span q * ELF_PAGE_SIZE)) = false <-> pages_disjoint q p.
Proof.
  intros Hp Hq Lp Lq.
  destruct (page_span_bounds p Lp ltac:(apply Hp)) as [Hp1 Hp2].
  destruct (page_span_bounds q Lq ltac:(apply Hq)) as [Hq1 Hq2].
  destruct Hp as (_ & _ & _ & ? & _), Hq as (_ & _ & _ & ? & _).
  destruct Lp as (_ & _ & _ & _ & _ & _ & _ & _ & ?), Lq as (_ & _ & _ & _ & _ & _ & _ & _ & ?).
  unfold ranges_overlap, pages_disjoint, ELF_PAGE_SIZE.
  assert (2 ^ 43 < UINT64_MAX - 2 ^ 44) by (vm_compute; done).
  rewrite (u64_id (page_span q * 4096)) by lia. rewrite !u64_id by lia.
  rewrite andb_false_iff, !Z.ltb_ge. lia.
Qed.

Definition loads_ok (ps : list elf64_program_header_t) : Prop :=
  Forall program_wf ps /\ Forall (load_ok size user_min user_max) (loads ps).

Lemma loads_wf ps : loads_ok ps -> Forall program_wf (loads ps).
Proof.
  intros [H _]. unfold loads. apply List.Forall_forall. intros p Hp.
  apply List.filter_In in Hp as [Hp _]. by eapply List.Forall_forall in H.
Qed.

Lemma loads_snoc ps p :
  loads (ps ++ [p]) = loads ps ++ (if is_load p then [p] else []).
Proof. unfold loads. rewrite List.filter_app. simpl. by destruct (is_load p). Qed.

Lemma is_stack_not_load p : is_stack p = true -> is_load p = false.
Proof. unfold is_stack, is_load. intros ->%Z.eqb_eq. done. Qed.

Lemma overlaps_prior_false before p :
  loads_ok before -> program_wf p -> load_ok size user_min user_max p ->
  overlaps_prior (image_of 0 before) (ph_virtual_address p) (page_span p * 4096) = false
  <-> Forall (fun q => pages_disjoint q p) (loads before).
Proof.
  intros Hb Hp Lp. pose proof (loads_wf before Hb) as Hw. destruct Hb as [_ Hl].
  unfold overlaps_prior, image_of. cbn [img_segments img_segment_count].
  rewrite negb_false_iff, zall_true, Nat2Z.id, Forall_lookup.
  rewrite Forall_lookup in Hw, Hl.
  assert (forall i q, loads before !! i = Some q ->
    zget segment0 (map (fun p0 => segment_of p0 (page_span p0)) (loads before)
      ++ replicate (8 - length (loads before)) segment0) (Z.of_nat i)
    = segment_of q (page_span q)) as Hg.
  { intros i q Hi. pose proof (lookup_lt_Some _ _ _ Hi).
    rewrite zget_fill by (rewrite length_map; lia).
    unfold zget. rewrite Nat2Z.id, list_lookup_fmap, Hi. done. }
  split.
  - intros H i q Hi. pose proof (lookup_lt_Some _ _ _ Hi).
    specialize (H (Z.of_nat i) ltac:(lia)). rewrite (Hg _ _ Hi) in H.
    cbn [segment_of seg_virtual_address seg_page_count] in H.
    rewrite negb_true_iff in H. eapply ranges_overlap_false; eauto.
  - intros H j Hj. destruct (lookup_lt_is_Some_2 (loads before) (Z.to_nat j) ltac:(lia)) as [q Hq].
    replace j with (Z.of_nat (Z.to_nat j)) by lia. rewrite (Hg _ _ Hq).
    cbn [segment_of seg_virtual_address seg_page_count]. rewrite negb_true_iff.
    eapply ranges_overlap_false; eauto.
Qed.

Lemma add_segment_image before p :
  is_load p = true -> (length (loads before) < 8)%nat ->
  add_segment (image_of 0 before) p (page_span p) = image_of 0 (before ++ [p]).
Proof.
  intros Hp Hn. unfold add_segment, image_of.
  cbn [img_entry img_segment_count img_total_pages img_segments]. rewrite loads_snoc, Hp.
  set (f := fun p => segment_of p (page_span p)).
  pose proof (zset_fill (map f (loads before)) 8 segment0 (f p)) as Hf.
  rewrite !length_app, !length_map in Hf. specialize (Hf Hn).
  change (segment_of p (page_span p)) with (f p). rewrite Hf.
  rewrite zsum_app, length_app, map_app. simpl length. cbn [zsum fold_right map].
  f_equal.
  - rewrite u32_id by (unfold UINT32_MAX; lia). lia.
  - unfold u32. rewrite Zplus_mod_idemp_l. f_equal. lia.
Qed.

(** One iteration of the source loop is [step_ok] and adds the header. *)
Lemma scan_program_step before p r :
  loads_ok before -> program_wf p -> (length (loads before) <= 8)%nat ->
  scan_program size user_min user_max entry p (scan_of entry before) = inr r
  <-> step_ok before p /\ r = scan_of entry (before ++ [p]).
Proof.
  intros Hb Hp Hn. unfold scan_program, step_ok. fold (is_stack p).
  change (ph_type p !=? ELF_PROGRAM_LOAD) with (negb (is_load p)).
  change (sc_image (scan_of entry before)) with (image_of 0 before).
  change (sc_stack_seen (scan_of entry before)) with (existsb is_stack before).
  change (sc_entry_is_executable (scan_of entry before))
    with (existsb (holds_entry entry) (loads before)).
  destruct (is_stack p) eqn:Es.
  - pose proof (is_stack_not_load p Es) as El.
    assert (scan_of entry (before ++ [p]) = mk_scan (image_of 0 before)
             (existsb (holds_entry entry) (loads before)) true) as ->.
    { unfold scan_of, image_of. rewrite loads_snoc, El, app_nil_r, existsb_app. simpl.
      by rewrite Es, orb_true_r. }
    destruct (stack_rejected _ _) eqn:Er.
    + split; [done|]. intros [[(_ & Hx & Hy)|(Hx & _)] _]; [|congruence].
      rewrite (proj2 (stack_rejected_false _ _)) in Er; done.
    + apply stack_rejected_false in Er as [E1 E2]. split.
      * intros [= <-]. split; [left; auto|done].
      * intros [_ ->]. done.
  - destruct (is_load p) eqn:El; cbn [negb].
    2: { split; [done|]. intros [[(? & _)|(? & _)] _]; congruence. }
    change (img_segment_count (image_of 0 before)) with (Z.of_nat (length (loads before))).
    unfold ARGUS_ELF_MAX_SEGMENTS.
    destruct (Z.eqb_spec (Z.of_nat (length (loads before))) 8) as [E8|E8]; cbn [orb].
    { split; [done|]. intros [[(? & _)|(_ & ? & _)] _]; [congruence|lia]. }
    destruct (load_rejected _ _ _ _) eqn:Er.
    { split; [done|]. intros [[(? & _)|(_ & _ & Hl & _)] _]; [congruence|].
      apply load_rejected_false in Hl; [congruence|done|done|]. unfold UINT64_MAX. lia. }
    apply load_rejected_false in Er; [|done|done|unfold UINT64_MAX; lia].
    destruct (load_pages p Hp Er) as (-> & -> & ->).
    change (img_total_pages (image_of 0 before)) with (u32 (zsum page_span (loads before))).
    destruct (over_budget _ _) eqn:Eb.
    { split; [done|]. intros [[(? & _)|(_ & _ & _ & ? & _)] _]; congruence. }
    destruct (overlaps_prior _ _ _) eqn:Eo.
    { split; [done|]. intros [[(? & _)|(_ & _ & _ & _ & Hd)] _]; [congruence|].
      apply overlaps_prior_false in Hd; [congruence|done|done|done]. }
    apply overlaps_prior_false in Eo; [|done|done|done].
    rewrite (add_segment_image before p El) by lia.
    assert (scan_of entry (before ++ [p]) = mk_scan (image_of 0 (before ++ [p]))
             (existsb (holds_entry entry) (loads before) || holds_entry entry p)
             (existsb is_stack before)) as ->.
    { unfold scan_of. rewrite loads_snoc, El, !existsb_app. simpl. rewrite Es.
      by rewrite !orb_false_r. }
    split.
    + intros [= <-]. split; [|done]. right. split_and!; try done. lia.
    + intros [_ ->]. done.
Qed.

Lemma step_ok_loads before p :
  loads_ok before -> program_wf p -> step_ok before p ->
  (length (loads before) <= 8)%nat ->
  loads_ok (before ++ [p]) /\ (length (loads (before ++ [p])) <= 8)%nat.
Proof.
  intros [Hw Hl] Hp Hs Hn. unfold loads_ok. rewrite loads_snoc, !Forall_app.
  destruct Hs as [(Hs & _)|(-> & H8 & Hok & _)].
  - rewrite (is_stack_not_load p Hs), app_nil_r. split_and!; auto.
  - rewrite length_app. simpl. split_and!; auto. lia.
Qed.

Lemma scan_programs_char ps before r :
  loads_ok before -> Forall program_wf ps -> (length (loads before) <= 8)%nat ->
  scan_programs size user_min user_max entry ps (scan_of entry before) = inr r
  <-> headers_ok before ps /\ r = scan_of entry (before ++ ps).
Proof.
  revert before. induction ps as [|p ps IH]; intros before Hb Hps Hn; cbn [scan_programs headers_ok].
  - rewrite app_nil_r. split; [intros [= <-]; auto|intros [_ ->]; done].
  - inversion_clear Hps as [|? ? Hp Hps'].
    destruct (scan_program _ _ _ _ p (scan_of entry before)) as [img|s'] eqn:E.
    + split; [done|]. intros [[Hs _] _].
      destruct (scan_program_step before p (scan_of entry (before ++ [p])) Hb Hp Hn) as [_ H].
      rewrite H in E; done.
    + apply scan_program_step in E as [Hs ->]; [|done|done|done].
      destruct (step_ok_loads before p Hb Hp Hs Hn) as [Hb' Hn'].
      rewrite IH by done. rewrite <- app_assoc. simpl. tauto.
Qed.
End scanning.

(** ** The whole header list *)

Record image_layout (size user_min user_max : Z) (ps : list elf64_program_header_t) : Prop := {
  il_headers : Forall (fun p => (is_stack p = true /\ stack_ok p)
                       \/ (is_load p = true /\ load_ok size user_min user_max p)) ps;
  il_stack : (length (stacks ps) <= 1)%nat;
  il_count : (length (loads ps) <= 8)%nat;
  il_disjoint : ForallOrdPairs pages_disjoint (loads ps) }.

Lemma stacks_snoc ps p : stacks (ps ++ [p]) = stacks ps ++ (if is_stack p then [p] else []).
Proof. unfold stacks. rewrite List.filter_app. simpl. by destruct (is_stack p). Qed.

Lemma no_stack ps : existsb is_stack ps = false <-> length (stacks ps) = 0%nat.
Proof.
  induction ps as [|p ps IH]; simpl; [done|]. unfold stacks in *. simpl.
  destruct (is_stack p); simpl; [done|exact IH].
Qed.

Section layout.
Context (size user_min user_max : Z).
Local Abbreviation layout := (image_layout size user_min user_max).
Local Abbreviation step := (step_ok size user_min user_max).

Lemma layout_step before p : layout before -> step before p -> layout (before ++ [p]).
Proof.
  intros [H1 H2 H3 H4] Hs. constructor.
  - apply Forall_app. split; [done|]. constructor; [|constructor].
    destruct Hs as [(? & _ & ?)|(? & _ & ? & _)]; auto.
  - rewrite stacks_snoc, length_app. destruct Hs as [(_ & Hn & _)|(Hl & _)].
    + apply no_stack in Hn. destruct (is_stack p); simpl; lia.
    + destruct (is_stack p) eqn:E; [|simpl; lia].
      apply is_stack_not_load in E. congruence.
  - rewrite loads_snoc, length_app. destruct Hs as [(Hs & _)|(_ & ? & _)].
    + rewrite (is_stack_not_load p Hs). simpl. lia.
    + destruct (is_load p); simpl; lia.
  - rewrite loads_snoc. destruct Hs as [(Hs & _)|(-> & _ & _ & _ & Hd)].
    + by rewrite (is_stack_not_load p Hs), app_nil_r.
    + by apply pairwise_snoc.
Qed.

Lemma layout_prefix a b : layout (a ++ b) -> layout a.
Proof.
  intros H. induction b as [|p b IH] using rev_ind; [by rewrite app_nil_r in H|].
  apply IH. rewrite app_assoc in H. destruct H as [H1 H2 H3 H4].
  rewrite stacks_snoc, length_app in H2. rewrite loads_snoc in H3, H4. rewrite length_app in H3.
  constructor; [by apply Forall_app in H1 as [? _]|lia|lia|].
  destruct (is_load p); [by apply pairwise_snoc in H4 as [? _]|by rewrite app_nil_r in H4].
Qed.

Lemma layout_loads ps p : layout ps -> In p (loads ps) -> load_ok size user_min user_max p.
Proof.
  intros [H _ _ _] Hp. unfold loads in Hp.
  apply List.filter_In in Hp as [Hp Hl].
  eapply List.Forall_forall in H; [|exact Hp]. destruct H as [[Hs _]|[_ ?]]; [|done].
  apply is_stack_not_load in Hs. congruence.
Qed.

Lemma layout_spans ps : layout ps -> Forall (fun p => 1 <= page_span p) (loads ps).
Proof.
  intros Hl. apply Forall_forall. intros p Hp. destruct (layout_loads ps p Hl Hp) as [H _].
  unfold page_span. Z.to_euclidean_division_equations. lia.
Qed.

Lemma layout_sum ps : layout ps -> 0 <= zsum page_span (loads ps).
Proof.
  intros H%layout_spans. apply zsum_nonneg. eapply Forall_impl; [|exact H]. simpl. lia.
Qed.

(** The page budget, when no single segment exceeds it. *)
Lemma budget_ok total pages :
  0 <= total <= 16 -> 1 <= pages <= 16 -> over_budget (u32 total) pages = false <-> total + pages <= 16.
Proof.
  intros. unfold over_budget, nz, ARGUS_ELF_MAX_IMAGE_PAGES.
  rewrite !u32_id by (unfold UINT32_MAX; lia).
  rewrite orb_false_iff, negb_involutive, Z.eqb_neq, Z.ltb_ge. lia.
Qed.

Lemma layout_unstep before p :
  layout (before ++ [p]) -> zsum page_span (loads (before ++ [p])) <= 16 -> step before p.
Proof.
  intros Hl Hsum. pose proof (layout_prefix before [p] Hl) as Hb.
  pose proof (layout_sum before Hb) as Hs0. destruct Hl as [H1 H2 H3 H4].
  apply Forall_app in H1 as [_ Hp]. inversion_clear Hp as [|? ? Hp' _].
  rewrite stacks_snoc, length_app in H2. rewrite loads_snoc in H3, H4, Hsum.
  rewrite length_app in H3. rewrite zsum_app in Hsum.
  destruct Hp' as [[Hs Hok]|[Hload Hok]]; [left|right].
  - split_and!; try done. apply no_stack. rewrite Hs in H2. simpl in H2. lia.
  - rewrite Hload in *. simpl in H3, Hsum.
    assert (1 <= page_span p) as Hsp
      by (destruct Hok; unfold page_span; Z.to_euclidean_division_equations; lia).
    split_and!; [done|lia|done| |by apply pairwise_snoc in H4 as [_ ?]].
    apply budget_ok; lia.
Qed.

Lemma headers_layout ps before :
  layout before -> headers_ok size user_min user_max before ps -> layout (before ++ ps).
Proof.
  revert before. induction ps as [|p ps IH]; intros before Hb H; [by rewrite app_nil_r|].
  destruct H as [Hs H]. replace (before ++ p :: ps) with ((before ++ [p]) ++ ps)
    by (by rewrite <- app_assoc). apply IH; [by apply layout_step|done].
Qed.

Lemma headers_sum ps before :
  layout before -> zsum page_span (loads before) <= 16 ->
  Forall (fun p => page_span p <= 16) (loads ps) ->
  headers_ok size user_min user_max before ps -> zsum page_span (loads (before ++ ps)) <= 16.
Proof.
  revert before. induction ps as [|p ps IH]; intros before Hb H0 HF H; [by rewrite app_nil_r|].
  destruct H as [Hs H]. replace (before ++ p :: ps) with ((before ++ [p]) ++ ps)
    by (by rewrite <- app_assoc). pose proof (layout_step before p Hb Hs) as Hb'.
  apply IH; [done| | |done].
  - rewrite loads_snoc, zsum_app. pose proof (layout_sum before Hb).
    destruct Hs as [(Hs & _)|(Hp & _ & Hok & Hbud & _)].
    + rewrite (is_stack_not_load p Hs). simpl. lia.
    + rewrite Hp. simpl. unfold loads in HF. simpl in HF. rewrite Hp in HF.
      inversion_clear HF. apply budget_ok in Hbud; [lia|lia|].
      destruct Hok. unfold page_span in *. Z.to_euclidean_division_equations. lia.
  - unfold loads in *. simpl in HF. destruct (is_load p); [by inversion_clear HF|done].
Qed.

Lemma layout_headers ps before :
  layout (before ++ ps) -> zsum page_span (loads (before ++ ps)) <= 16 ->
  headers_ok size user_min user_max before ps.
Proof.
  revert before. induction ps as [|p ps IH]; intros before Hl Hsum; [done|].
  replace (before ++ p :: ps) with ((before ++ [p]) ++ ps) in * by (by rewrite <- app_assoc).
  split; [|by apply IH]. pose proof (layout_prefix _ _ Hl) as Hl'.
  apply layout_unstep; [done|].
  assert (Forall (fun q => 0 <= page_span q) (loads ps)) as HF.
  { pose proof (layout_spans _ Hl) as HF. unfold loads in HF.
    rewrite List.filter_app, Forall_app in HF. destruct HF as [_ HF].
    eapply Forall_impl; [|exact HF]. simpl. lia. }
  unfold loads in Hsum. rewrite List.filter_app, zsum_app in Hsum.
  pose proof (zsum_nonneg _ _ HF). unfold loads in *. lia.
Qed.
End layout.

(** ** The validator *)

Definition header_ok (h : elf64_header_t) : Prop :=
  (forall i v, (i, v) ∈ [(0, 0x7F); (1, 69); (2, 76); (3, 70); (4, 2); (5, 1); (6, 1)] ->
     zget 0 (eh_identification h) i = v) /\
  eh_type h = 2 /\ eh_machine h = 62 /\ eh_version h = 1 /\ eh_flags h = 0 /\
  eh_header_size h = 64 /\ eh_program_header_size h = 56 /\
  1 <= eh_program_header_count h <= 9.

(** The input of the loader: a file of [size] bytes and a window of user
    addresses below 2^43 (ARGUS_USER_BASE is 2^39). *)
Definition elf_input (bytes : list Z) (size user_min user_max : Z) : Prop :=
  Forall (fun b => 0 <= b < 256) bytes /\ size = Z.of_nat (length bytes) /\ size <= UINT64_MAX /\
  0 <= user_min /\ user_max <= 2 ^ 43.

Definition elf_programs (bytes : list Z) : list elf64_program_header_t :=
  programs bytes (read_header bytes).
Definition elf_entry (bytes : list Z) : Z := eh_entry (read_header bytes).

(** The files the loader means to accept. *)
Record acceptable (bytes : list Z) (size user_min user_max : Z) : Prop := {
  ac_size : 64 <= size;
  ac_window : user_min < user_max;
  ac_header : header_ok (read_header bytes);
  ac_table : eh_program_header_offset (read_header bytes)
             + eh_program_header_count (read_header bytes) * 56 <= size;
  ac_layout : image_layout size user_min user_max (elf_programs bytes);
  ac_stack : length (stacks (elf_programs bytes)) = 1%nat;
  ac_loads : (1 <= length (loads (elf_programs bytes)))%nat;
  ac_entry : List.Exists (runs_entry (elf_entry bytes)) (loads (elf_programs bytes)) }.

Lemma header_rejected_false bytes :
  Forall (fun b => 0 <= b < 256) bytes ->
  header_rejected (read_header bytes) = false <-> header_ok (read_header bytes).
Proof.
  intros HF. assert (0 <= eh_program_header_count (read_header bytes)) as Hc
    by apply (le_read_list_bound bytes 56 2 HF).
  unfold header_rejected, header_ok. set (h := read_header bytes) in *.
  unfold ELF_CLASS_64, ELF_DATA_LITTLE_ENDIAN, ELF_CURRENT_VERSION, ELF_TYPE_EXECUTABLE,
    ELF_MACHINE_X86_64, ELF_HEADER_SIZE, ELF_PROGRAM_HEADER_SIZE, ARGUS_ELF_MAX_SEGMENTS, nz.
  rewrite !orb_false_iff, !negb_false_iff, negb_true_iff, !Z.eqb_eq, Z.eqb_neq, Z.ltb_ge.
  split.
  - intros H. destruct_and! H. split_and!; try lia. intros i v Hin.
    rewrite !elem_of_cons, elem_of_nil in Hin.
    destruct_or! Hin; try done; injection Hin as -> ->; done.
  - intros [Hid H]. destruct_and! H.
    split_and!; try done; try lia; apply Hid; rewrite !elem_of_cons; tauto.
Qed.

Lemma elf_programs_wf bytes :
  Forall (fun b => 0 <= b < 256) bytes -> Forall program_wf (elf_programs bytes).
Proof.
  intros HF. unfold elf_programs, programs. apply List.Forall_map, List.Forall_forall.
  intros i _. unfold read_program, program_wf.
  cbn [ph_type ph_flags ph_offset ph_virtual_address ph_physical_address ph_file_size
       ph_memory_size ph_alignment].
  assert (forall a, 0 <= le_read (zget 0 bytes) a 4 <= UINT32_MAX) as H4.
  { intros a. pose proof (le_read_list_bound bytes a 4 HF) as H.
    change (256 ^ Z.of_nat 4) with 4294967296 in H. unfold UINT32_MAX. lia. }
  assert (forall a, 0 <= le_read (zget 0 bytes) a 8 <= UINT64_MAX) as H8.
  { intros a. pose proof (le_read_list_bound bytes a 8 HF) as H.
    change (256 ^ Z.of_nat 8) with 18446744073709551616 in H. unfold UINT64_MAX. lia. }
  split_and!; apply H4 || apply H8.
Qed.

Lemma holds_entry_iff size user_min user_max entry p :
  program_wf p -> load_ok size user_min user_max p -> user_max <= 2 ^ 43 ->
  holds_entry entry p = true <-> runs_entry entry p.
Proof.
  intros Hp Hl Hm. unfold holds_entry, runs_entry.
  destruct Hp as (_ & _ & _ & Hv & _ & Hf & _). destruct Hl as (_ & Hfm & Hfl & _ & _ & _ & _ & _ & Hmax).
  rewrite u64_id by (unfold UINT64_MAX; lia). rewrite !andb_true_iff, Z.leb_le, Z.ltb_lt.
  assert (nz (ph_flags p & ELF_FLAG_EXECUTE) = true <-> ph_flags p = 5) as ->; [|lia].
  destruct Hfl as [-> |[-> | ->]]; by vm_compute.
Qed.

Section validator.
Context (bytes : list Z) (size user_min user_max : Z).
Hypothesis Hin : elf_input bytes size user_min user_max.
Local Abbreviation ps := (elf_programs bytes).

Lemma loads_ok_nil : loads_ok size user_min user_max [].
Proof. split; constructor. Qed.
Lemma layout_nil : image_layout size user_min user_max [].
Proof. constructor; simpl; try lia; constructor. Qed.

Lemma entry_found :
  image_layout size user_min user_max ps ->
  existsb (holds_entry (elf_entry bytes)) (loads ps) = true
  <-> List.Exists (runs_entry (elf_entry bytes)) (loads ps).
Proof.
  intros Hl. destruct Hin as (HF & _ & _ & _ & Hm). pose proof (elf_programs_wf bytes HF) as Hw.
  rewrite existsb_exists, List.Exists_exists.
  assert (forall p, In p (loads ps) -> holds_entry (elf_entry bytes) p = true
                    <-> runs_entry (elf_entry bytes) p) as He.
  { intros p Hp. eapply holds_entry_iff; [|by eapply layout_loads|done].
    unfold loads in Hp. apply List.filter_In in Hp as [Hp _]. by eapply List.Forall_forall in Hw. }
  split; intros (p & Hp & Hx); exists p; split; try done; by apply He.
Qed.

(** The validator accepts exactly when the header tests, the table bound and
    the scan succeed, and then returns the image of the headers. *)
Lemma validate_char img0 :
  let '(ok, img) := elf_validate_user_image (Some bytes) size user_min user_max (Some img0) in
  (ok = true <->
    64 <= size /\ user_min < user_max /\ header_ok (read_header bytes) /\
    eh_program_header_offset (read_header bytes)
      + eh_program_header_count (read_header bytes) * 56 <= size /\
    headers_ok size user_min user_max [] ps /\
    (1 <= length (loads ps))%nat /\ existsb (holds_entry (elf_entry bytes)) (loads ps) = true /\
    existsb is_stack ps = true)
  /\ (ok = true -> img = Some (image_of (elf_entry bytes) ps)).
Proof.
  destruct Hin as (HF & Hsz & Hmax & Hmin & Hwin).
  unfold elf_validate_user_image. unfold ELF_HEADER_SIZE, ELF_PROGRAM_HEADER_SIZE.
  destruct (Z.ltb_spec size 64); [split; [split; [done|lia]|done]|].
  destruct (Z.leb_spec user_max user_min); [split; [split; [done|lia]|done]|]. cbn [orb].
  destruct (header_rejected _) eqn:Eh.
  { split; [|done]. split; [done|]. intros (_ & _ & Hh & _).
    apply header_rejected_false in Hh; [congruence|done]. }
  apply header_rejected_false in Eh; [|done].
  assert (0 <= eh_program_header_offset (read_header bytes)) as Ho
    by apply (le_read_list_bound bytes 32 8 HF).
  assert (1 <= eh_program_header_count (read_header bytes) <= 9) as Hc by apply Eh.
  set (off := eh_program_header_offset (read_header bytes)) in *.
  set (n := eh_program_header_count (read_header bytes)) in *.
  destruct (add_overflows off (n * 56)) eqn:Ea; cbn [orb].
  { split; [|done]. split; [done|]. intros (_ & _ & _ & Ht & _). exfalso.
    unfold add_overflows in Ea. b2p. lia. }
  apply add_overflows_false in Ea; [|lia|lia]. rewrite u64_id by lia.
  destruct (Z.ltb_spec size (off + n * 56)); [split; [split; [done|lia]|done]|].
  fold (elf_programs bytes). fold (elf_entry bytes).
  change (mk_scan image0 false false) with (scan_of (elf_entry bytes) []).
  pose proof (fun r => scan_programs_char size user_min user_max (elf_entry bytes)
    ltac:(lia) Hwin ps [] r loads_ok_nil (elf_programs_wf bytes HF) ltac:(simpl; lia)) as Hsc.
  destruct (scan_programs _ _ _ _ ps _) as [img|r].
  { split; [|done]. split; [done|]. intros (_ & _ & _ & _ & Hh & _).
    destruct (Hsc (scan_of (elf_entry bytes) ps)) as [_ Hs]. by specialize (Hs (conj Hh eq_refl)). }
  destruct (proj1 (Hsc r) eq_refl) as [Hh ->]. simpl app.
  unfold scan_of. cbn [sc_image sc_entry_is_executable sc_stack_seen].
  change (img_segment_count (image_of 0 ps)) with (Z.of_nat (length (loads ps))).
  destruct (existsb _ (loads ps)) eqn:E1, (existsb is_stack ps) eqn:E2;
    unfold nz; destruct (Z.eqb_spec (Z.of_nat (length (loads ps))) 0); cbn [negb orb];
    (split; [split; try done|try done]); try (intros (_ & _ & _ & _ & _ & ? & ? & ?); done || lia).
  intros _. split_and!; try done. lia.
Qed.
End validator.

Lemma seg_lookup entry ps i p :
  loads ps !! i = Some p ->
  zget segment0 (img_segments (image_of entry ps)) (Z.of_nat i) = segment_of p (page_span p).
Proof.
  intros Hi. pose proof (lookup_lt_Some _ _ _ Hi). unfold image_of. cbn [img_segments].
  rewrite zget_fill by (rewrite length_map; lia).
  unfold zget. by rewrite Nat2Z.id, list_lookup_fmap, Hi.
Qed.

(** C39: [elf_validate_user_image] is exactly the loader's policy.  For files
    whose segments each fit the sixteen-page budget, it returns 1 if and only if
    the file is acceptable (a complete header and header table, one
    non-executable stack header, one to eight load segments that are readable,
    never writable and executable together, aligned, inside the file and the
    user window and pairwise disjoint, and an entry point inside the file bytes
    of an executable segment) and its pages together number at most sixteen; the
    image it fills then lists the load segments in file order. *)
Theorem elf_validate_correct bytes size user_min user_max img0 :
  elf_input bytes size user_min user_max ->
  Forall (fun p => page_span p <= 16) (loads (elf_programs bytes)) ->
  let '(ok, img) := elf_validate_user_image (Some bytes) size user_min user_max (Some img0) in
  (ok = true <-> acceptable bytes size user_min user_max
                 /\ zsum page_span (loads (elf_programs bytes)) <= ARGUS_ELF_MAX_IMAGE_PAGES)
  /\ (ok = true -> img = Some (image_of (elf_entry bytes) (elf_programs bytes))).
Proof.
  intros Hin HF. pose proof (validate_char bytes size user_min user_max Hin img0) as Hv.
  destruct (elf_validate_user_image _ _ _ _ _) as [ok img]. destruct Hv as [Hv Himg].
  split; [|done]. rewrite Hv. unfold ARGUS_ELF_MAX_IMAGE_PAGES. clear Hv Himg.
  assert (existsb is_stack (elf_programs bytes) = true
          <-> length (stacks (elf_programs bytes)) <> 0%nat) as Hst.
  { rewrite <- no_stack. by destruct (existsb _ _). }
  split.
  - intros (H1 & H2 & H3 & H4 & Hh & H5 & H6 & H7).
    pose proof (headers_layout size user_min user_max _ _ (layout_nil _ _ _) Hh) as Hl.
    pose proof (headers_sum size user_min user_max _ _ (layout_nil _ _ _) ltac:(simpl; lia) HF Hh) as Hs.
    simpl app in *. split; [|done]. apply entry_found with (2 := Hl) in H6; [|done].
    constructor; try done. destruct Hl as [_ Hl _ _]. apply Hst in H7. lia.
  - intros [[H1 H2 H3 H4 H5 H6 H7 H8] Hs]. split_and!; try done.
    + by apply layout_headers.
    + by apply (entry_found _ _ _ _ Hin H5).
    + apply Hst. lia.
Qed.

(** Whatever the file contains, an accepted image is safe to map: one to
    eight segments, each readable and never both writable and executable, page
    aligned, its file bytes inside the file, all its pages inside the user
    window, the pages of different segments disjoint, and the entry point in
    the file bytes of a segment that is executable and not writable. *)
Theorem elf_accepted_image_safe bytes size user_min user_max img0 img :
  elf_input bytes size user_min user_max -> user_max mod 4096 = 0 ->
  elf_validate_user_image (Some bytes) size user_min user_max (Some img0) = (true, Some img) ->
  let seg i := zget segment0 (img_segments img) i in
  let pages_end i := seg_virtual_address (seg i) + seg_page_count (seg i) * 4096 in
  1 <= img_segment_count img <= ARGUS_ELF_MAX_SEGMENTS
  /\ (forall i, 0 <= i < img_segment_count img ->
        (seg_flags (seg i) = 4 \/ seg_flags (seg i) = 5 \/ seg_flags (seg i) = 6)
        /\ seg_virtual_address (seg i) mod 4096 = 0
        /\ user_min <= seg_virtual_address (seg i) /\ pages_end i <= user_max
        /\ seg_file_size (seg i) <= seg_memory_size (seg i) <= seg_page_count (seg i) * 4096
        /\ seg_file_offset (seg i) + seg_file_size (seg i) <= size)
  /\ (forall i j, 0 <= i < j -> j < img_segment_count img ->
        pages_end i <= seg_virtual_address (seg j) \/ pages_end j <= seg_virtual_address (seg i))
  /\ exists i, 0 <= i < img_segment_count img /\ seg_flags (seg i) = 5
        /\ seg_virtual_address (seg i) <= img_entry img
              < seg_virtual_address (seg i) + seg_file_size (seg i).
Proof.
  intros Hin Hal Hv. pose proof (validate_char bytes size user_min user_max Hin img0) as Hc.
  rewrite Hv in Hc. destruct Hc as [[Hc _] Hi]. specialize (Hi eq_refl). injection Hi as ->.
  destruct (Hc eq_refl) as (_ & _ & _ & _ & Hh & H1 & H2 & _). clear Hc Hv.
  pose proof (headers_layout size user_min user_max _ _ (layout_nil _ _ _) Hh) as Hl.
  simpl app in Hl. apply entry_found with (2 := Hl) in H2; [|done].
  pose proof (il_count _ _ _ _ Hl) as Hn. pose proof (il_disjoint _ _ _ _ Hl) as Hd.
  set (L := loads (elf_programs bytes)) in *. cbv zeta.
  change (img_segment_count (image_of (elf_entry bytes) (elf_programs bytes)))
    with (Z.of_nat (length L)).
  assert (forall i, 0 <= i < Z.of_nat (length L) -> exists p, L !! Z.to_nat i = Some p /\
     zget segment0 (img_segments (image_of (elf_entry bytes) (elf_programs bytes))) i
     = segment_of p (page_span p)) as Hseg.
  { intros i Hi. destruct (lookup_lt_is_Some_2 L (Z.to_nat i) ltac:(lia)) as [p Hp].
    exists p. split; [done|]. rewrite <- (Z2Nat.id i) at 1 by lia. by apply seg_lookup. }
  unfold ARGUS_ELF_MAX_SEGMENTS. split_and!; [lia|lia| | |].
  - intros i Hi. destruct (Hseg i Hi) as (p & Hp & ->).
    assert (load_ok size user_min user_max p) as Hok.
    { eapply layout_loads; [exact Hl|]. apply list_elem_of_In. by eapply list_elem_of_lookup_2. }
    destruct Hok as (Hm & Hf & Hfl & _ & Hva & _ & Hfo & Hlo & Hhi).
    cbn [segment_of seg_flags seg_virtual_address seg_page_count seg_memory_size seg_file_size
         seg_file_offset]. unfold page_span.
    split_and!; try done; Z.to_euclidean_division_equations; lia.
  - intros i j Hij Hj. destruct (Hseg i ltac:(lia)) as (p & Hp & ->).
    destruct (Hseg j ltac:(lia)) as (q & Hq & ->).
    cbn [segment_of seg_virtual_address seg_page_count].
    apply (pairwise_lookup _ L (Z.to_nat i) (Z.to_nat j) p q Hd ltac:(lia) Hp Hq).
  - apply Exists_exists in H2 as (p & Hp & Hfl & Hr). apply list_elem_of_In, list_elem_of_lookup_1 in Hp as [i Hi].
    exists (Z.of_nat i). pose proof (lookup_lt_Some _ _ _ Hi). split; [lia|].
    by rewrite (seg_lookup _ _ _ _ Hi).
Qed.

(** ** The page budget

    The budget test subtracts in 32-bit unsigned arithmetic, so it wraps around
    for a segment of more than sixteen pages and then lets it through. *)

(** The page counts of an accepted image are unsigned. *)
Lemma scan_page_counts size user_min user_max entry ps s s' :
  Forall (fun g => 0 <= seg_page_count g) (img_segments (sc_image s)) ->
  scan_programs size user_min user_max entry ps s = inr s' ->
  Forall (fun g => 0 <= seg_page_count g) (img_segments (sc_image s')).
Proof.
  revert s. induction ps as [|p ps IH]; intros s Hs; cbn [scan_programs]; [by intros [= <-]|].
  destruct (scan_program _ _ _ _ p s) as [?|s1] eqn:E; [done|]. apply IH. revert E. unfold scan_program. cbv zeta.
  repeat (case_if; try done); intros [= <-]; [done|].
  cbn [sc_image add_segment img_segments]. apply zset_Forall; [done|].
  cbn [segment_of seg_page_count]. apply u32_range.
Qed.

Lemma validate_page_counts bytes size user_min user_max img0 img :
  elf_validate_user_image (Some bytes) size user_min user_max (Some img0) = (true, Some img) ->
  Forall (fun g => 0 <= seg_page_count g) (img_segments img).
Proof.
  unfold elf_validate_user_image. cbv zeta. repeat (case_if; try done).
  destruct (scan_programs _ _ _ _ _ _) as [?|s'] eqn:E; [done|]. case_if; [done|]. intros [= <-].
  cbn [img_segments]. eapply scan_page_counts; [|exact E]. by apply Forall_replicate.
Qed.

(** The loader's window: ARGUS_USER_BASE + USER_CODE_OFFSET up to the guard page
    below USER_STACK_OFFSET (src/process.c, load_elf_app). *)
Definition window_min : Z := 2 ^ 39 + 0x1000.
Definition window_max : Z := 2 ^ 39 + 0x200000 - 4096.

Definition program_bytes (type flags offset va fsz msz align : Z) : list Z :=
  le_bytes 4 type ++ le_bytes 4 flags ++ le_bytes 8 offset ++ le_bytes 8 va ++ le_bytes 8 0
  ++ le_bytes 8 fsz ++ le_bytes 8 msz ++ le_bytes 8 align.

(** A file of one executable segment (the file itself) of [memory_size] bytes
    and a stack header. *)
Definition sample_elf (memory_size : Z) : list Z :=
  [0x7F; 69; 76; 70; 2; 1; 1; 0; 0; 0; 0; 0; 0; 0; 0; 0]
  ++ le_bytes 2 2 ++ le_bytes 2 62 ++ le_bytes 4 1 ++ le_bytes 8 (window_min + 0x80)
  ++ le_bytes 8 64 ++ le_bytes 8 0 ++ le_bytes 4 0 ++ le_bytes 2 64 ++ le_bytes 2 56
  ++ le_bytes 2 2 ++ le_bytes 2 0 ++ le_bytes 2 0 ++ le_bytes 2 0
  ++ program_bytes 1 5 0 window_min 176 memory_size 4096
  ++ program_bytes 0x6474E551 6 0 0 0 0 0.

Definition sample_validate (memory_size : Z) : bool * option argus_elf_image_t :=
  elf_validate_user_image (Some (sample_elf memory_size)) 176 window_min window_max (Some image0).

(** The sixteen-page limit is not enforced.  For every page count from 17
    up to the whole user window (510 pages), the validator accepts a file with
    one segment of that many pages under the loader's own window, and reports a
    total above [ARGUS_ELF_MAX_IMAGE_PAGES], the size of the array the loader
    stores the pages in. *)
Theorem elf_page_budget_bypass n :
  17 <= n <= 510 ->
  exists img, elf_validate_user_image (Some (sample_elf (n * 4096))) 176 window_min window_max
                (Some image0) = (true, Some img)
    /\ img_total_pages img = n /\ ARGUS_ELF_MAX_IMAGE_PAGES < img_total_pages img.
Proof.
  intros Hn.
  assert (zall (fun n => match sample_validate (n * 4096) with
                         | (true, Some img) => img_total_pages img =? n
                         | _ => false end) 17 494 = true) as H by (vm_compute; reflexivity).
  rewrite zall_true in H. specialize (H n ltac:(lia)). fold (sample_validate (n * 4096)).
  destruct (sample_validate (n * 4096)) as [[|] [img|]]; try done. apply Z.eqb_eq in H.
  exists img. unfold ARGUS_ELF_MAX_IMAGE_PAGES. split_and!; [done|done|lia].
Qed.

Lemma elf_page_budget_bypass_witness :
  exists img, sample_validate (17 * 4096) = (true, Some img) /\ img_total_pages img = 17.
Proof.
  destruct (elf_page_budget_bypass 17 ltac:(lia)) as (img & H1 & H2 & _). exists img. split; assumption.
Defined.

Lemma sample_elf_input : elf_input (sample_elf 0x2000) 176 window_min window_max.
Proof.
  unfold elf_input. split_and!; try (vm_compute; congruence).
  apply (bool_decide_unpack _). vm_compute. exact I.
Qed.

Lemma elf_validate_correct_witness :
  fst (sample_validate 0x2000) = true
  /\ acceptable (sample_elf 0x2000) 176 window_min window_max.
Proof.
  assert (Forall (fun p => page_span p <= 16) (loads (elf_programs (sample_elf 0x2000)))) as HF
    by (apply (bool_decide_unpack _); vm_compute; exact I).
  pose proof (elf_validate_correct (sample_elf 0x2000) 176 window_min window_max image0
                sample_elf_input HF) as H.
  fold (sample_validate 0x2000) in H.
  assert (fst (sample_validate 0x2000) = true) as Ht by (vm_compute; reflexivity).
  destruct (sample_validate 0x2000) as [ok img]. cbn [fst] in *. subst ok.
  split; [reflexivity|]. destruct H as [[H _] _]. apply H. reflexivity.
Defined.

Lemma elf_accepted_image_safe_witness :
  exists img, sample_validate 0x2000 = (true, Some img)
    /\ 1 <= img_segment_count img <= ARGUS_ELF_MAX_SEGMENTS.
Proof.
  set (r := sample_validate 0x2000).
  assert (r = sample_validate 0x2000) as E by reflexivity. vm_compute in r.
  exists (match snd r with Some i => i | None => image0 end). split; [reflexivity|].
  apply (elf_accepted_image_safe (sample_elf 0x2000) 176 window_min window_max image0).
  - apply sample_elf_input.
  - vm_compute. reflexivity.
  - exact (eq_sym E).
Defined.
