(* ===== verification/Heap.v ===== *)
(** * The kernel heap (src/heap.c, src/heap.h)

    A heap of contiguous pages taken from the page allocator, tiled by blocks:
    a 32-byte header (size at 0, previous at 8, next at 16, magic at 24, free at
    28) followed by the payload.  The headers live in memory, in the same bytes
    the payloads do, so the model keeps them there: every field access is a load
    or a store at the block's address.  The module's static variables are the
    fields of [heap_state]. *)

From stdpp Require Import base list gmap numbers.
From Stdlib Require Import ZArith Lia.
From S2P Require Import Prelude Memory BootInfo Allocator Pmm.

Open Scope Z_scope.

Definition HEAP_BLOCK_MAGIC : Z := 0xA86B10C5.
Definition HEAP_ALIGNMENT : Z := 16.
(** [sizeof(heap_block_t)] *)
Definition HEADER : Z := 32.

Record heap_state := mk_heap {
  heap_base : Z;
  heap_size : Z;
  first_block : Z;
  heap_mem : mem }.

Definition with_mem (h : heap_state) (m : mem) : heap_state :=
  mk_heap (heap_base h) (heap_size h) (first_block h) m.

(** The fields of the [heap_block_t] at [a]. *)
Definition block_size (m : mem) (a : Z) : Z := load64 m a.
Definition block_previous (m : mem) (a : Z) : Z := load64 m (a + 8).
Definition block_next (m : mem) (a : Z) : Z := load64 m (a + 16).
Definition block_magic (m : mem) (a : Z) : Z := load32 m (a + 24).
Definition block_free (m : mem) (a : Z) : Z := load32 m (a + 28).
Definition set_size (m : mem) (a v : Z) : mem := store64 m a v.
Definition set_previous (m : mem) (a v : Z) : mem := store64 m (a + 8) v.
Definition set_next (m : mem) (a v : Z) : mem := store64 m (a + 16) v.
Definition set_magic (m : mem) (a v : Z) : mem := store32 m (a + 24) v.
Definition set_free (m : mem) (a v : Z) : mem := store32 m (a + 28) v.

Definition align_size (size : Z) : Z :=
  if UINT64_MAX - (HEAP_ALIGNMENT - 1) <? size then 0
  else u64 (u64 (size + HEAP_ALIGNMENT) - 1) & (UINT64_MAX - (HEAP_ALIGNMENT - 1)).

Definition block_in_heap (h : heap_state) (address : Z) : bool :=
  nz (heap_base h) && (heap_base h <=? address) &&
  (address <=? u64 (heap_base h + heap_size h - HEADER)).

(** [if (next) next->previous = block;] *)
Definition relink (m : mem) (next block : Z) : mem :=
  if nz next then set_previous m next block else m.

Definition merge_with_next (m : mem) (block : Z) : mem :=
  let next := block_next m block in
  if negb (nz next) || negb (nz (block_free m next)) ||
     (block_magic m next !=? HEAP_BLOCK_MAGIC) then m
  else
    let m := set_size m block (u64 (block_size m block + (HEADER + block_size m next))) in
    let m := set_next m block (block_next m next) in
    let m := relink m (block_next m block) block in
    set_magic m next 0.

Definition heap_init {S} `{PageAllocator S} (pa : S) (h : heap_state) (pages : Z)
  : bool * S * heap_state :=
  if negb (nz pages) || (UINT64_MAX / ARGUS_PAGE_SIZE <? pages) then (false, pa, h)
  else
    let '(address, pa) := pa_alloc pa pages in
    if address =? 0 then (false, pa, h)
    else
      let size := u64 (pages * ARGUS_PAGE_SIZE) in
      let m := set_size (heap_mem h) address (u64 (size - HEADER)) in
      let m := set_previous m address 0 in
      let m := set_next m address 0 in
      let m := set_magic m address HEAP_BLOCK_MAGIC in
      let m := set_free m address 1 in
      (true, pa, mk_heap address size address m).

(** The split of a block that has room for [size] and another block. *)
Definition split_block (m : mem) (block size : Z) : mem :=
  let split := u64 (block + HEADER + size) in
  let m := set_size m split (u64 (u64 (block_size m block - size) - HEADER)) in
  let m := set_previous m split block in
  let m := set_next m split (block_next m block) in
  let m := set_magic m split HEAP_BLOCK_MAGIC in
  let m := set_free m split 1 in
  let m := relink m (block_next m split) split in
  let m := set_next m block split in
  set_size m block size.

(** The loop of [kmalloc].  Blocks of a tiled heap are at least [HEADER] bytes
    apart, so [heap_size / HEADER + 1] iterations reach the end of the list. *)
Fixpoint kmalloc_walk (fuel : nat) (m : mem) (block size : Z) : Z * mem :=
  match fuel with
  | O => (0, m)
  | S f =>
      if block =? 0 then (0, m)
      else if negb (nz (block_free m block)) || (block_magic m block !=? HEAP_BLOCK_MAGIC)
              || (block_size m block <? size)
      then kmalloc_walk f m (block_next m block) size
      else
        let m := if u64 (size + HEADER + HEAP_ALIGNMENT) <=? block_size m block
                 then split_block m block size else m in
        (u64 (block + HEADER), set_free m block 0)
  end.

Definition heap_fuel (h : heap_state) : nat := Z.to_nat (heap_size h / HEADER + 1).

Definition kmalloc (h : heap_state) (requested_size : Z) : Z * heap_state :=
  let size := align_size requested_size in
  if negb (nz size) || negb (nz (first_block h)) then (0, h)
  else
    let '(p, m) := kmalloc_walk (heap_fuel h) (heap_mem h) (first_block h) size in
    (p, with_mem h m).

Definition kfree (h : heap_state) (address : Z) : bool * heap_state :=
  if address =? 0 then (false, h)
  else if negb (nz (first_block h)) || (address <? u64 (heap_base h + HEADER)) ||
          (u64 (heap_base h + heap_size h) <=? address) ||
          nz (address & (HEAP_ALIGNMENT - 1)) then (false, h)
  else
    let block := u64 (address - HEADER) in
    let m := heap_mem h in
    if negb (block_in_heap h block) || (block_magic m block !=? HEAP_BLOCK_MAGIC) ||
       nz (block_free m block) then (false, h)
    else
      let m := set_free m block 1 in
      let m := merge_with_next m block in
      let m := if nz (block_previous m block) && nz (block_free m (block_previous m block))
               then merge_with_next m (block_previous m block) else m in
      (true, with_mem h m).

Definition heap_total_bytes (h : heap_state) : Z :=
  if HEADER <? heap_size h then heap_size h - HEADER else 0.

(** The two counting loops differ in the flag they ask for. *)
Fixpoint sum_blocks (fuel : nat) (m : mem) (want : bool) (block total : Z) : Z :=
  match fuel with
  | O => total
  | S f =>
      if block =? 0 then total
      else sum_blocks f m want (block_next m block)
             (if (block_magic m block =? HEAP_BLOCK_MAGIC) &&
                 Bool.eqb (nz (block_free m block)) want
              then u64 (total + block_size m block) else total)
  end.
Definition heap_free_bytes (h : heap_state) : Z :=
  sum_blocks (heap_fuel h) (heap_mem h) true (first_block h) 0.
Definition heap_used_bytes (h : heap_state) : Z :=
  sum_blocks (heap_fuel h) (heap_mem h) false (first_block h) 0.

(** One iteration's test in [heap_validate]; [previous] is 0 on the first. *)
Definition validate_block (h : heap_state) (previous cursor blocks block : Z) : bool :=
  let m := heap_mem h in
  let finish := u64 (heap_base h + heap_size h) in
  (u64 (blocks + 1) <=? heap_size h / HEADER) && block_in_heap h block &&
  (block =? cursor) && (block_magic m block =? HEAP_BLOCK_MAGIC) &&
  (block_previous m block =? previous) && nz (block_size m block) &&
  negb (nz (block_size m block & (HEAP_ALIGNMENT - 1))) &&
  (block_size m block <=? u64 (u64 (finish - block) - HEADER)) &&
  negb (nz previous && nz (block_free m previous) && nz (block_free m block)).

(** The loop; it stops at the latest when [blocks] passes [maximum_blocks]. *)
Fixpoint validate_walk (fuel : nat) (h : heap_state) (previous cursor blocks block : Z) : bool :=
  match fuel with
  | O => false
  | S f =>
      if block =? 0 then cursor =? u64 (heap_base h + heap_size h)
      else if validate_block h previous cursor blocks block then
        let m := heap_mem h in
        let cursor := u64 (block + HEADER + block_size m block) in
        if nz (block_next m block) && (block_next m block !=? cursor) then false
        else validate_walk f h block cursor (u64 (blocks + 1)) (block_next m block)
      else false
  end.

Definition heap_validate (h : heap_state) : bool :=
  if negb (nz (first_block h)) || (first_block h !=? heap_base h) then false
  else validate_walk (S (heap_fuel h)) h 0 (heap_base h) 0 (first_block h).

(** ** [heap_self_test]

    The states of the three loops; [ts_valid] is the source's [valid]. *)

Record test_state := mk_test {
  ts_heap : heap_state;
  ts_random : Z;
  ts_slots : list Z;
  ts_sizes : list Z;
  ts_valid : bool }.

Definition byte_at (h : heap_state) (a : Z) : Z := mem_get (heap_mem h) a.
Definition put_byte (h : heap_state) (a v : Z) : heap_state := with_mem h (mem_set (heap_mem h) a v).

(** [valid = kfree(p) && valid] *)
Definition free_valid (h : heap_state) (p : Z) (valid : bool) : bool * heap_state :=
  let '(ok, h) := kfree h p in (ok && valid, h).

(** One iteration of the random workload. *)
Definition random_step (t : test_state) : test_state :=
  let random := u32 (u32 (ts_random t * 1664525) + 1013904223) in
  let slot := (random >> 8) & 63 in
  let p := zget 0 (ts_slots t) slot in
  let t' :=
    if nz p then
      let final_value := u8 (Z.lxor slot 0xA5) in
      let size := zget 0 (ts_sizes t) slot in
      let valid :=
        if size =? 1 then (byte_at (ts_heap t) p =? final_value) && ts_valid t
        else (byte_at (ts_heap t) p =? u8 (slot + 1)) &&
             (byte_at (ts_heap t) (p + (size - 1)) =? final_value) && ts_valid t in
      let '(valid, h) := free_valid (ts_heap t) p valid in
      mk_test h random (zset (ts_slots t) slot 0) (ts_sizes t) valid
    else
      let size := (random & 2047) + 1 in
      let '(allocation, h) := kmalloc (ts_heap t) size in
      if nz allocation then
        let h := put_byte h allocation (u8 (slot + 1)) in
        let h := put_byte h (allocation + (size - 1)) (u8 (Z.lxor slot 0xA5)) in
        mk_test h random (zset (ts_slots t) slot allocation) (zset (ts_sizes t) slot size) (ts_valid t)
      else mk_test h random (ts_slots t) (ts_sizes t) (ts_valid t) in
  mk_test (ts_heap t') (ts_random t') (ts_slots t') (ts_sizes t')
    (heap_validate (ts_heap t') && ts_valid t').

(** [while (allocated < 256u) { ... }]: the pointers obtained, in order. *)
Fixpoint exhaust (fuel : nat) (h : heap_state) (size : Z) : list Z * heap_state :=
  match fuel with
  | O => ([], h)
  | S f =>
      let '(p, h) := kmalloc h size in
      if p =? 0 then ([], h) else let '(ps, h) := exhaust f h size in (p :: ps, h)
  end.

(** Every second allocation is replaced by a smaller one. *)
Definition replace_step (replacement_size i : Z) (s : list Z * (bool * heap_state))
  : list Z * (bool * heap_state) :=
  let '(ps, (valid, h)) := s in
  let '(valid, h) := free_valid h (zget 0 ps (2 * i)) valid in
  let '(p, h) := kmalloc h replacement_size in
  (zset ps (2 * i) p, (nz p && valid, h)).

Definition free_all (ps : list Z) (s : bool * heap_state) : bool * heap_state :=
  fold_left (fun '(valid, h) p => if nz p then free_valid h p valid else (valid, h)) ps s.

Definition heap_self_test (h : heap_state) : bool * heap_state :=
  let free_before := heap_free_bytes h in
  let used_before := heap_used_bytes h in
  if negb (heap_validate h) then (false, h)
  else
    let '(a, h) := kmalloc h 1 in
    let '(b, h) := kmalloc h 33 in
    let '(c, h) := kmalloc h 4096 in
    if negb (nz a) || negb (nz b) || negb (nz c) || nz (a & 15) || nz (b & 15) || nz (c & 15)
    then (false, h)
    else
      let h := put_byte h a 0xA1 in
      let h := put_byte h b 0xB2 in
      let h := put_byte h (b + 32) 0xB3 in
      let h := put_byte h c 0xC4 in
      let h := put_byte h (c + 4095) 0xC5 in
      let valid := (byte_at h a =? 0xA1) && (byte_at h b =? 0xB2) && (byte_at h (b + 32) =? 0xB3) &&
                   (byte_at h c =? 0xC4) && (byte_at h (c + 4095) =? 0xC5) in
      let '(bad, h) := kfree h (a + 1) in
      let '(bad, h) := if bad then (bad, h) else kfree h 0 in
      let valid := negb bad && valid in
      let '(valid, h) := free_valid h b valid in
      let '(valid, h) := free_valid h a valid in
      let '(valid, h) := free_valid h c valid in
      let '(bad, h) := kfree h c in
      let valid := negb bad && heap_validate h && valid in
      let t := for_range 0 512 (fun _ t => random_step t)
                 (mk_test h 0xA86B10C5 (replicate 64 0) (replicate 64 0) valid) in
      let '(valid, h) := free_all (ts_slots t) (ts_valid t, ts_heap t) in
      let exhaustion_size := Z.max (heap_total_bytes h / 128) 2048 in
      let '(exhaustion, h) := exhaust 256 h exhaustion_size in
      let allocated := Z.of_nat (length exhaustion) in
      let '(valid, h) :=
        if nz allocated && (allocated <? 256)
        then let '(extra, h) := kmalloc h exhaustion_size in (negb (nz extra) && valid, h)
        else (false, h) in
      let replacement_size := Z.max (exhaustion_size / 4) 512 in
      let '(exhaustion, (valid, h)) :=
        for_range 0 ((allocated + 1) / 2) (replace_step replacement_size) (exhaustion, (valid, h)) in
      let '(valid, h) := free_all exhaustion (valid, h) in
      (valid && heap_validate h && (heap_free_bytes h =? free_before) &&
       (heap_used_bytes h =? used_before), h).

#[global] Arguments HEAP_BLOCK_MAGIC : simpl never.

(** ** Abstract view: the list of blocks that tile the heap *)

Record block := mk_block { bl_size : Z; bl_free : bool }.

#[export] Instance block_eq_dec : EqDecision block.
Proof. solve_decision. Defined.

Definition block_wf (b : block) : Prop := 0 < bl_size b /\ bl_size b mod 16 = 0.

(** The address after a block, and after a list of blocks, that starts at [cur]. *)
Definition block_end (cur : Z) (b : block) : Z := cur + HEADER + bl_size b.
Definition blocks_end (cur : Z) (bs : list block) : Z := fold_left block_end bs cur.

#[global] Arguments block_end : simpl never.
#[global] Arguments blocks_end : simpl never.

(** First fit on the abstract list: the payload address and the new list. *)
Fixpoint abs_malloc (size cur : Z) (bs : list block) : option (Z * list block) :=
  match bs with
  | [] => None
  | b :: bs' =>
      if bl_free b && (size <=? bl_size b) then
        Some (cur + HEADER,
              if size + HEADER + HEAP_ALIGNMENT <=? bl_size b
              then mk_block size false :: mk_block (bl_size b - size - HEADER) true :: bs'
              else mk_block (bl_size b) false :: bs')
      else match abs_malloc size (block_end cur b) bs' with
           | Some (p, r) => Some (p, b :: r)
           | None => None
           end
  end.

(** [b] absorbs the following block when that one is free. *)
Definition merge_next (b : block) (bs : list block) : list block :=
  match bs with
  | n :: r => if bl_free n then mk_block (bl_size b + HEADER + bl_size n) (bl_free b) :: r
              else b :: bs
  | [] => [b]
  end.

(** Freeing the block between [before] and [after]. *)
Definition abs_free (before : list block) (b : block) (after : list block) : list block :=
  let freed := merge_next (mk_block (bl_size b) true) after in
  match rev before with
  | l :: r => if bl_free l then rev r ++ merge_next l freed else before ++ freed
  | [] => freed
  end.

(** ** The blocks in memory *)

(** The header at [a]. *)
Definition header (m : mem) (a previous next : Z) (b : block) : Prop :=
  block_size m a = bl_size b /\ block_previous m a = previous /\ block_next m a = next
  /\ block_magic m a = HEAP_BLOCK_MAGIC /\ nz (block_free m a) = bl_free b.

(** The linked blocks [bs] start at [cur]; [previous] precedes them and the last
    one's [next] is [after]. *)
Fixpoint seg (m : mem) (previous cur : Z) (bs : list block) (after : Z) : Prop :=
  match bs with
  | [] => True
  | b :: bs' =>
      header m cur previous (match bs' with [] => after | _ => block_end cur b end) b
      /\ seg m cur (block_end cur b) bs' after
  end.

(** The address of the last block, or [previous] when there is none. *)
Fixpoint seg_last (previous cur : Z) (bs : list block) : Z :=
  match bs with [] => previous | b :: bs' => seg_last cur (block_end cur b) bs' end.

(** A heap whose memory is tiled by [bs]. *)
Record rep (h : heap_state) (bs : list block) : Prop := {
  rep_base : 0 < heap_base h /\ heap_base h mod 16 = 0;
  rep_max : heap_base h + heap_size h <= UINT64_MAX;
  rep_first : first_block h = heap_base h;
  rep_some : bs <> [];
  rep_wf : Forall block_wf bs;
  rep_end : blocks_end (heap_base h) bs = heap_base h + heap_size h;
  rep_seg : seg (heap_mem h) 0 (heap_base h) bs 0 }.

(** Free neighbours have been merged. *)
Fixpoint coalesced (bs : list block) : bool :=
  match bs with
  | b :: ((n :: _) as bs') => negb (bl_free b && bl_free n) && coalesced bs'
  | _ => true
  end.

(** The bytes of the payloads in use. *)
Fixpoint live_byte (cur : Z) (bs : list block) (x : Z) : Prop :=
  match bs with
  | [] => False
  | b :: bs' => (bl_free b = false /\ cur + HEADER <= x < block_end cur b)
                \/ live_byte (block_end cur b) bs' x
  end.

Lemma blocks_end_cons cur b bs : blocks_end cur (b :: bs) = blocks_end (block_end cur b) bs.
Proof. reflexivity. Qed.
Lemma blocks_end_app cur l k : blocks_end cur (l ++ k) = blocks_end (blocks_end cur l) k.
Proof. apply fold_left_app. Qed.

Lemma blocks_end_ge cur bs :
  Forall block_wf bs -> cur + HEADER * Z.of_nat (length bs) <= blocks_end cur bs.
Proof.
  intros H. revert cur. induction H as [|b bs Hb H IH]; intros cur.
  - unfold blocks_end. simpl. lia.
  - rewrite blocks_end_cons. specialize (IH (block_end cur b)). destruct Hb.
    unfold block_end, HEADER in *. simpl length. lia.
Qed.

Lemma blocks_end_mod cur bs :
  Forall block_wf bs -> cur mod 16 = 0 -> blocks_end cur bs mod 16 = 0.
Proof.
  intros H. revert cur. induction H as [|b bs Hb H IH]; intros cur Hc; [done|].
  rewrite blocks_end_cons. apply IH. destruct Hb as [_ Hb]. unfold block_end, HEADER.
  Z.to_euclidean_division_equations. lia.
Qed.

Lemma seg_last_app p cur l k :
  seg_last p cur (l ++ k) = seg_last (seg_last p cur l) (blocks_end cur l) k.
Proof.
  revert p cur. induction l as [|b l IH]; intros p cur; [done|].
  simpl. rewrite IH, blocks_end_cons. done.
Qed.

Lemma seg_app m p cur l k after :
  seg m p cur (l ++ k) after <->
  seg m p cur l (match k with [] => after | _ => blocks_end cur l end)
  /\ seg m (seg_last p cur l) (blocks_end cur l) k after.
Proof.
  revert p cur. induction l as [|b l IH]; intros p cur.
  - simpl. tauto.
  - simpl app. cbn [seg seg_last]. rewrite IH, blocks_end_cons.
    destruct l as [|b' l].
    + simpl. destruct k; tauto.
    + simpl. tauto.
Qed.

Lemma live_byte_app cur l k x :
  live_byte cur (l ++ k) x <-> live_byte cur l x \/ live_byte (blocks_end cur l) k x.
Proof.
  revert cur. induction l as [|b l IH]; intros cur; [simpl; tauto|].
  simpl. rewrite IH, blocks_end_cons. tauto.
Qed.

Lemma live_byte_bounds cur bs x :
  Forall block_wf bs -> live_byte cur bs x -> cur + HEADER <= x < blocks_end cur bs.
Proof.
  intros H. revert cur. induction H as [|b bs Hb H IH]; intros cur; [done|].
  cbn [live_byte]. rewrite blocks_end_cons. pose proof (blocks_end_ge (block_end cur b) bs H).
  destruct Hb. unfold block_end, HEADER in *. intros [[_ ?]|Hx]; [lia|].
  specialize (IH _ Hx). lia.
Qed.

(** Memory that keeps the bytes of the segment keeps the segment. *)
Lemma seg_frame m m' p cur bs after :
  Forall block_wf bs ->
  (forall a, cur <= a < blocks_end cur bs -> ~ live_byte cur bs a -> mem_get m' a = mem_get m a) ->
  seg m p cur bs after -> seg m' p cur bs after.
Proof.
  intros H. revert p cur. induction H as [|b bs Hb H IH]; intros p cur Hm Hs; [done|].
  rewrite blocks_end_cons in Hm. pose proof (blocks_end_ge (block_end cur b) bs H) as Hge.
  destruct Hb as [Hb _]. destruct Hs as [Hh Hs]. cbn [live_byte] in Hm. split.
  - assert (forall a, cur <= a < cur + HEADER -> mem_get m' a = mem_get m a) as Hhd.
    { intros a Ha. apply Hm; [unfold block_end, HEADER in *; lia|].
      intros [[_ ?]|Hl]; [lia|]. apply live_byte_bounds in Hl; [|done].
      unfold block_end, HEADER in *. lia. }
    unfold header, block_size, block_previous, block_next, block_magic, block_free in *.
    assert (forall k a, cur <= a -> a + Z.of_nat k <= cur + HEADER ->
              mem_load k m' a = mem_load k m a) as Hld.
    { intros k a H1 H2. apply le_read_ext. intros i Hi. apply Hhd. lia. }
    unfold HEADER in Hld. rewrite !Hld by lia. done.
  - apply IH; [|done]. intros a Ha Hl. apply Hm; [unfold block_end, HEADER in *; lia|].
    intros [[_ ?]|?]; [lia|done].
Qed.

(** ** Field updates *)

Ltac fields := unfold block_size, block_previous, block_next, block_magic, block_free,
  set_size, set_previous, set_next, set_magic, set_free in *.

(** Resolve one load through a chain of stores. *)
Ltac load_stores :=
  repeat first
    [ rewrite load64_store64 by (unfold UINT64_MAX in *; lia)
    | rewrite load32_store32 by (unfold UINT32_MAX, HEAP_BLOCK_MAGIC in *; lia)
    | rewrite mem_load_store_ne by (simpl Z.of_nat; unfold HEADER in *; lia) ].

(** [m'] keeps what lies outside [lo, hi) and the payloads in use. *)
Definition keeps (m m' : mem) (lo hi : Z) (bs : list block) : Prop :=
  forall x, x < lo \/ hi <= x \/ live_byte lo bs x -> mem_get m' x = mem_get m x.

Lemma keeps_refl m lo hi bs : keeps m m lo hi bs.
Proof. by intros x _. Qed.

Lemma block_wf_size b : block_wf b -> 0 < bl_size b.
Proof. by intros [? _]. Qed.

Lemma set_previous_seg m p q cur b bs after :
  Forall block_wf (b :: bs) -> 0 <= q <= UINT64_MAX ->
  seg m p cur (b :: bs) after -> seg (set_previous m cur q) q cur (b :: bs) after.
Proof.
  intros Hwf Hq [Hh Hs]. inversion_clear Hwf as [|? ? Hb Hbs].
  pose proof (block_wf_size b Hb). split.
  - destruct Hh as (H1 & H2 & H3 & H4 & H5). unfold header. fields.
    split_and!; load_stores; done.
  - eapply seg_frame; [done| |exact Hs]. intros x Hx _. fields. apply mem_get_store_ne.
    unfold block_end, HEADER in *. simpl Z.of_nat. lia.
Qed.

(** The [next] pointer in front of the blocks [r] at [d]. *)
Definition link (d : Z) (r : list block) : Z := match r with [] => 0 | _ => d end.

Lemma link_range d r : 0 < d <= UINT64_MAX -> 0 <= link d r <= UINT64_MAX.
Proof. intros. unfold link, UINT64_MAX in *. destruct r; lia. Qed.

(** Relinking the tail touches only the [previous] field at [d]. *)
Lemma relink_get m d r q x :
  x < d + 8 \/ d + 16 <= x \/ r = [] -> mem_get (relink m (link d r) q) x = mem_get m x.
Proof.
  intros Hx. unfold relink, link. destruct r as [|b r]; [done|]. case_if; [|done]. fields.
  apply mem_get_store_ne. simpl Z.of_nat. destruct Hx as [?|[?|?]]; [lia..|done].
Qed.

Lemma relink_load k m d r q x :
  x + Z.of_nat k <= d + 8 -> mem_load k (relink m (link d r) q) x = mem_load k m x.
Proof. intros Hx. apply le_read_ext. intros i Hi. apply relink_get. lia. Qed.

(** The tail after a change below it. *)
Lemma relink_tail m m1 m2 q a d r :
  seg m q d r 0 -> Forall block_wf r -> 0 <= a <= UINT64_MAX -> 0 < d ->
  (forall x, d <= x -> mem_get m1 x = mem_get m x) ->
  (forall x, d <= x -> mem_get m2 x = mem_get (relink m1 (link d r) a) x) ->
  seg m2 a d r 0.
Proof.
  intros Hs Hw Ha Hd H1 H2. destruct r as [|b r]; [done|].
  eapply seg_frame; [done| |eapply (set_previous_seg m q a); done].
  intros x Hb _. rewrite H2 by lia. unfold relink, link.
  assert (nz d = true) as -> by (unfold nz; lia). apply mem_get_store_ext, H1. lia.
Qed.

(** Where the bytes kept by a change of the block at [a] and its tail may lie. *)
Lemma kept_byte a b r x :
  Forall block_wf (b :: r) ->
  x < a \/ blocks_end a (b :: r) <= x \/ live_byte a (b :: r) x ->
  x < a \/ (a + 32 <= x < block_end a b /\ bl_free b = false)
  \/ (block_end a b <= x /\ (r = [] \/ block_end a b + 32 <= x)).
Proof.
  intros Hw Hx. rewrite blocks_end_cons in Hx. inversion_clear Hw as [|? ? Wb Wr].
  pose proof (blocks_end_ge (block_end a b) r Wr) as Hge. unfold HEADER in Hge.
  destruct Hx as [?|[?|[[? ?]|Hl]]]; [auto| |unfold HEADER in *; auto|].
  - right. right. destruct r; [|simpl length in Hge]; split; auto; lia.
  - apply live_byte_bounds in Hl; [|done]. unfold HEADER in Hl. right. right. split; [lia|]. right. lia.
Qed.

Lemma merge_spec m p a b bs :
  seg m p a (b :: bs) 0 -> Forall block_wf (b :: bs) -> 0 < a ->
  blocks_end a (b :: bs) <= UINT64_MAX ->
  seg (merge_with_next m a) p a (merge_next b bs) 0
  /\ keeps m (merge_with_next m a) a (blocks_end a (b :: bs)) (b :: bs).
Proof.
  intros [Hb Hs] Hwf Ha Hmax. unfold merge_with_next. cbv zeta. destruct bs as [|n r].
  { destruct (Hb) as (_ & _ & -> & _). split; [by split|apply keeps_refl]. }
  set (c := block_end a b) in *. destruct Hs as [Hn Hr]. set (d := block_end c n) in *.
  inversion_clear Hwf as [|? ? Wb Wnr]. pose proof (Forall_inv Wnr) as Wn. pose proof (Forall_inv_tail Wnr) as Wr.
  pose proof (blocks_end_ge d r Wr) as Hge. pose proof (block_wf_size b Wb). pose proof (block_wf_size n Wn).
  assert (c = a + 32 + bl_size b /\ d = c + 32 + bl_size n) as [Hc Hd] by done.
  assert (d <= UINT64_MAX) as Hdm by (rewrite !blocks_end_cons in Hmax; fold c d in Hmax; unfold HEADER in *; lia).
  destruct (Hb) as (B1 & B2 & B3 & B4 & B5). destruct (Hn) as (N1 & N2 & N3 & N4 & N5).
  rewrite B3, N4, N5, Z.eqb_refl. assert (nz c = true) as -> by (unfold nz; lia). cbn [negb orb].
  unfold merge_next. destruct (bl_free n) eqn:En; cbn [negb orb].
  2: { split; [by split; [|split]|apply keeps_refl]. }
  rewrite B1, N1. unfold HEADER. rewrite u64_id by lia. fold (link d r) in N3.
  pose proof (link_range d r ltac:(lia)) as Hl.
  set (m1 := set_size m a _). assert (block_next m1 c = link d r) as -> by (unfold m1; fields; load_stores; done).
  set (m2 := set_next m1 a _). assert (block_next m2 a = link d r) as -> by (unfold m2; fields; load_stores; done).
  assert (block_end a (mk_block (bl_size b + 32 + bl_size n) (bl_free b)) = d) as Hend
    by (unfold block_end, HEADER; simpl; lia).
  split; [split; rewrite Hend; [fold (link d r)|]|].
  - unfold header, m2, m1 in *. fields. cbn [bl_size bl_free].
    split_and!; load_stores; (rewrite relink_load by (simpl Z.of_nat; lia)); load_stores; done || lia.
  - eapply (relink_tail m m2); [exact Hr|done|lia|lia| |]; intros x Hx; unfold m2, m1; fields;
      repeat (rewrite mem_get_store_ne by (simpl Z.of_nat; lia)); done.
  - intros x Hx.
    assert (x < a \/ a + 32 <= x < c \/ c + 32 <= x < d \/ (d <= x /\ (r = [] \/ d + 32 <= x))) as Hx'.
    { pose proof (kept_byte c n r x Wnr) as Hk. fold d in Hk. rewrite En in Hk.
      destruct Hx as [?|[He|[[_ Hp]|Hv]]]; [by left| |right; left; exact Hp|]; right; right.
      - pose proof (blocks_end_ge c (n :: r) Wnr). change (blocks_end c (n :: r) <= x) in He.
        destruct (Hk ltac:(auto)) as [?|[[_ ?]|?]]; [unfold HEADER in *; lia|done|auto].
      - pose proof (live_byte_bounds _ _ _ Wnr Hv). fold c in H1.
        destruct (Hk ltac:(auto)) as [?|[[_ ?]|?]]; [unfold HEADER in *; lia|done|auto]. }
    unfold m2, m1. fields. rewrite mem_get_store_ne by (simpl Z.of_nat; lia).
    rewrite relink_get by (destruct Hx' as [?|[?|[?|[? [?|?]]]]]; auto; lia).
    rewrite !mem_get_store_ne by (simpl Z.of_nat; lia). done.
Qed.

Lemma split_spec m p a b r size :
  seg m p a (b :: r) 0 -> Forall block_wf (b :: r) -> 0 < a ->
  blocks_end a (b :: r) <= UINT64_MAX -> bl_free b = true ->
  0 < size -> size + HEADER + HEAP_ALIGNMENT <= bl_size b ->
  let m' := set_free (split_block m a size) a 0 in
  seg m' p a (mk_block size false :: mk_block (bl_size b - size - HEADER) true :: r) 0
  /\ keeps m m' a (blocks_end a (b :: r)) (b :: r).
Proof.
  intros [Hh Hr] Hwf Ha Hmax Hfree Hs Hroom. unfold split_block, HEAP_ALIGNMENT, HEADER in *. cbv zeta.
  pose proof (Forall_inv Hwf) as Wb. pose proof (Forall_inv_tail Hwf) as Wr. set (d := block_end a b) in *.
  pose proof (blocks_end_ge d r Wr) as Hge. unfold HEADER in Hge.
  assert (d = a + 32 + bl_size b) as Hd by done.
  assert (d <= UINT64_MAX) as Hdm by (rewrite blocks_end_cons in Hmax; fold d in Hmax; lia).
  destruct Hh as (B1 & B2 & B3 & B4 & B5). fold (link d r) in B3.
  pose proof (link_range d r ltac:(lia)) as Hl.
  rewrite (u64_id (a + 32 + size)) by lia. set (c := a + 32 + size) in *.
  rewrite B1, (u64_id (bl_size b - size)), u64_id by lia.
  set (m1 := set_previous (set_size m c _) c a).
  assert (block_next m1 a = link d r) as -> by (unfold m1; fields; load_stores; done).
  set (m2 := set_free (set_magic (set_next m1 c _) c HEAP_BLOCK_MAGIC) c 1).
  assert (block_next m2 c = link d r) as -> by (unfold m2, m1; fields; load_stores; done).
  cbn [seg]. change (block_end a (mk_block size false)) with c.
  assert (block_end c (mk_block (bl_size b - size - 32) true) = d) as ->
    by (unfold block_end, HEADER; simpl; lia). fold (link d r).
  split; [split; [|split]|].
  - unfold header, m2, m1. fields. cbn [bl_size bl_free].
    split_and!; load_stores; try (rewrite relink_load by (simpl Z.of_nat; lia)); load_stores; done.
  - unfold header, m2, m1. fields. cbn [bl_size bl_free].
    split_and!; load_stores; rewrite relink_load by (simpl Z.of_nat; lia); load_stores; done.
  - eapply (relink_tail m m2); [exact Hr|done|lia|lia| |]; intros x Hx; unfold m2, m1; fields;
      repeat (rewrite mem_get_store_ne by (simpl Z.of_nat; lia)); done.
  - intros x Hx. apply kept_byte in Hx; [|done]. rewrite Hfree in Hx. fold d in Hx.
    assert (x < a \/ (d <= x /\ (r = [] \/ d + 32 <= x))) as Hx' by (destruct Hx as [?|[[_ ?]|?]]; auto; done).
    unfold m2, m1. fields. rewrite !mem_get_store_ne by (simpl Z.of_nat; lia).
    rewrite relink_get by (destruct Hx' as [?|[? [?|?]]]; auto; lia).
    rewrite !mem_get_store_ne by (simpl Z.of_nat; lia). done.
Qed.

Lemma set_free_spec m p cur b bs v after :
  Forall block_wf (b :: bs) -> 0 <= v <= UINT32_MAX -> seg m p cur (b :: bs) after ->
  seg (set_free m cur v) p cur (mk_block (bl_size b) (nz v) :: bs) after
  /\ keeps m (set_free m cur v) cur (blocks_end cur (b :: bs)) (b :: bs).
Proof.
  intros Hwf Hv [Hh Hs]. pose proof (Forall_inv Hwf) as Wb. pose proof (Forall_inv_tail Hwf) as Wr.
  pose proof (block_wf_size b Wb). split; [split|].
  - destruct Hh as (H1 & H2 & H3 & H4 & H5). unfold header. fields. cbn [bl_size bl_free].
    change (block_end cur (mk_block (bl_size b) (nz v))) with (block_end cur b).
    split_and!; load_stores; done.
  - eapply seg_frame; [done| |exact Hs]. intros x Hx _. fields.
    change (block_end cur (mk_block (bl_size b) (nz v))) with (block_end cur b) in Hx.
    unfold block_end, HEADER in Hx. rewrite mem_get_store_ne by (simpl Z.of_nat; lia). done.
  - intros x Hx. apply kept_byte in Hx; [|done]. unfold block_end, HEADER in Hx. fields.
    rewrite mem_get_store_ne; [done|]. simpl Z.of_nat. lia.
Qed.

(** The loop is first fit on the abstract list. *)
Lemma kmalloc_walk_spec fuel m p cur bs size :
  seg m p cur bs 0 -> Forall block_wf bs -> 16 <= cur -> blocks_end cur bs <= UINT64_MAX ->
  (length bs < fuel)%nat -> 0 < size -> size mod 16 = 0 ->
  match abs_malloc size cur bs with
  | None => kmalloc_walk fuel m (link cur bs) size = (0, m)
  | Some (ptr, bs') =>
      exists m', kmalloc_walk fuel m (link cur bs) size = (ptr, m') /\ seg m' p cur bs' 0
        /\ Forall block_wf bs' /\ blocks_end cur bs' = blocks_end cur bs /\ bs' <> []
        /\ keeps m m' cur (blocks_end cur bs) bs
  end.
Proof.
  intros Hs Hwf Hc Hmax Hf Hsz Hmod. revert fuel p cur Hs Hc Hmax Hf.
  induction bs as [|b bs IH]; intros fuel p cur Hs Hc Hmax Hf; (destruct fuel as [|fuel]; [lia|]);
    [done|].
  pose proof (Forall_inv Hwf) as Wb. pose proof (Forall_inv_tail Hwf) as Wr.
  pose proof (blocks_end_ge (block_end cur b) bs Wr) as Hge. pose proof (block_wf_size b Wb) as Hb0.
  destruct (Hs) as [(B1 & B2 & B3 & B4 & B5) Hr]. fold (link (block_end cur b) bs) in B3.
  cbn [link kmalloc_walk abs_malloc]. destruct (Z.eqb_spec cur 0); [lia|].
  rewrite B1, B4, B5, Z.eqb_refl. cbn [negb]. rewrite orb_false_r, Z.ltb_antisym, <- negb_andb.
  destruct (bl_free b && (size <=? bl_size b)) eqn:Efit; cbn [negb].
  - b2p. rewrite blocks_end_cons in Hmax. unfold HEADER, HEAP_ALIGNMENT.
    assert (cur + 32 + bl_size b = block_end cur b) as Hbe by done. unfold HEADER in Hge.
    rewrite !u64_id by lia. destruct (Z.leb_spec (size + 32 + 16) (bl_size b)) as [Hroom|Hroom].
    + destruct (split_spec m p cur b bs size Hs Hwf ltac:(lia)) as [Hs' Hk]; try done.
      eexists. split_and!; [done|exact Hs'| |  |done|exact Hk].
      * repeat constructor; simpl; try done; try (unfold HEADER; lia).
        destruct Wb as [_ Wb]. unfold HEADER. Z.to_euclidean_division_equations. lia.
      * rewrite !blocks_end_cons. f_equal. unfold block_end, HEADER. simpl. lia.
    + destruct (set_free_spec m p cur b bs 0 0 Hwf ltac:(done) Hs) as [Hs' Hk].
      eexists. split_and!; [done|exact Hs'| |done|done|exact Hk]. constructor; [|done].
      destruct Wb. split; done.
  - rewrite B3. rewrite blocks_end_cons in *.
    specialize (IH Wr fuel cur (block_end cur b) Hr ltac:(unfold block_end, HEADER; lia) Hmax ltac:(simpl in Hf; lia)).
    destruct (abs_malloc size (block_end cur b) bs) as [[ptr r]|] eqn:Ea; [|done].
    destruct IH as (m' & -> & Hs' & Hw' & He' & Hne & Hk).
    exists m'. split_and!; [done| |by constructor|by rewrite blocks_end_cons|done|].
    + split; [|done].
      assert (forall k a, cur <= a -> a + Z.of_nat k <= cur + 32 -> mem_load k m' a = mem_load k m a) as Hld.
      { intros k a H1 H2. apply le_read_ext. intros i Hi. apply Hk. unfold block_end, HEADER. lia. }
      destruct r as [|r0 r]; [done|]. destruct bs as [|b1 bs]; [done|].
      unfold header. fields. rewrite !Hld by (simpl Z.of_nat; lia). split_and!; done.
    + intros x Hx. apply Hk. cbn [live_byte] in Hx. unfold block_end, HEADER in *.
      destruct Hx as [?|[?|[[_ ?]|?]]]; auto; left; lia.
Qed.

(** ** Operations on the represented heap *)

Lemma align_size_eq n :
  0 <= n <= UINT64_MAX ->
  align_size n = if UINT64_MAX - 15 <? n then 0 else (n + 15) / 16 * 16.
Proof.
  intros Hn. unfold align_size, HEAP_ALIGNMENT. change (16 - 1) with 15. case_if; [done|]. b2p.
  assert (u64 (u64 (n + 16) - 1) = n + 15) as ->.
  { unfold u64, UINT64_MAX in *. rewrite Zminus_mod_idemp_l, Z.mod_small by lia. lia. }
  change (UINT64_MAX - 15) with (2 ^ 64 - 2 ^ 4).
  rewrite land_field by lia. rewrite Z.mod_small by (unfold UINT64_MAX in *; lia). done.
Qed.

Lemma abs_malloc_None size cur bs :
  abs_malloc size cur bs = None <-> Forall (fun b => bl_free b = true -> bl_size b < size) bs.
Proof.
  revert cur. induction bs as [|b bs IH]; intros cur; simpl; [done|].
  destruct (bl_free b && (size <=? bl_size b)) eqn:E.
  - split; [done|]. intros H. apply Forall_inv in H. b2p. specialize (H ltac:(done)). lia.
  - rewrite Forall_cons_iff, <- (IH (block_end cur b)).
    assert (bl_free b = true -> bl_size b < size) as Hb.
    { intros Hf. rewrite Hf in E. b2p. destruct E; [done|]. b2p. lia. }
    destruct (abs_malloc size (block_end cur b) bs) as [[? ?]|]; split; try done. by intros [_ ?].
Qed.

Lemma rep_bound h bs b : rep h bs -> In b bs -> bl_size b < UINT64_MAX.
Proof.
  intros [[Hb _] Hm _ _ Hw He _] Hin. rewrite <- He in Hm. clear He.
  apply List.in_split in Hin as (l & r & ->). apply Forall_app in Hw as [Wl Wbr].
  pose proof (Forall_inv Wbr). pose proof (Forall_inv_tail Wbr) as Wr.
  rewrite blocks_end_app, blocks_end_cons in Hm. pose proof (blocks_end_ge (heap_base h) l Wl).
  pose proof (blocks_end_ge (block_end (blocks_end (heap_base h) l) b) r Wr).
  unfold block_end, HEADER in *. lia.
Qed.

Lemma rep_fuel h bs : rep h bs -> (length bs < heap_fuel h)%nat.
Proof.
  intros [_ _ _ _ Hw He _]. pose proof (blocks_end_ge (heap_base h) bs Hw) as Hge.
  unfold heap_fuel, HEADER in *. rewrite He in Hge. Z.to_euclidean_division_equations. lia.
Qed.

Lemma rep_base16 h bs : rep h bs -> 16 <= heap_base h.
Proof. intros [[Hb Hm] _ _ _ _ _ _]. Z.to_euclidean_division_equations. lia. Qed.

Lemma with_mem_id h : with_mem h (heap_mem h) = h.
Proof. by destruct h. Qed.

(** The abstract [kmalloc]: first fit for the rounded size. *)
Definition abs_kmalloc (base n : Z) (bs : list block) : option (Z * list block) :=
  if n =? 0 then None else abs_malloc ((n + 15) / 16 * 16) base bs.

Lemma kmalloc_spec h bs n :
  rep h bs -> 0 <= n <= UINT64_MAX ->
  match abs_kmalloc (heap_base h) n bs with
  | None => kmalloc h n = (0, h)
  | Some (p, bs') =>
      exists m', kmalloc h n = (p, with_mem h m') /\ rep (with_mem h m') bs'
        /\ keeps (heap_mem h) m' (heap_base h) (heap_base h + heap_size h) bs
  end.
Proof.
  intros Hrep Hn. unfold kmalloc, abs_kmalloc. rewrite align_size_eq by done.
  pose proof (rep_base16 h bs Hrep). rewrite (rep_first _ _ Hrep).
  assert (nz (heap_base h) = true) as -> by (unfold nz; lia). cbn [negb]. rewrite orb_false_r.
  destruct (Z.eqb_spec n 0) as [->|Hn0]; [done|]. set (size := (n + 15) / 16 * 16).
  assert (0 < size /\ size mod 16 = 0) as [Hs Hsm]
    by (unfold size; rewrite Z.mod_mul by lia; Z.to_euclidean_division_equations; lia).
  destruct (Z.ltb_spec (UINT64_MAX - 15) n) as [Hbig|Hsmall].
  - cbn [nz negb Z.eqb]. assert (abs_malloc size (heap_base h) bs = None) as ->; [|done].
    apply abs_malloc_None, List.Forall_forall. intros b Hb _. pose proof (rep_bound h bs b Hrep Hb).
    unfold size, UINT64_MAX in *. Z.to_euclidean_division_equations. lia.
  - assert (nz size = true) as -> by (unfold nz; lia). cbn [negb].
    pose proof (kmalloc_walk_spec (heap_fuel h) (heap_mem h) 0 (heap_base h) bs size) as Hw.
    rewrite (rep_end _ _ Hrep) in Hw.
    specialize (Hw (rep_seg _ _ Hrep) (rep_wf _ _ Hrep) ltac:(lia) (rep_max _ _ Hrep) (rep_fuel _ _ Hrep) Hs Hsm).
    assert (link (heap_base h) bs = heap_base h) as Hl
      by (pose proof (rep_some _ _ Hrep); by destruct bs). rewrite Hl in Hw.
    destruct (abs_malloc size (heap_base h) bs) as [[p bs']|].
    + destruct Hw as (m' & -> & Hseg & Hwf & He & Hne & Hk). exists m'. split_and!; [done| |done].
      destruct Hrep. constructor; simpl; done.
    + rewrite Hw. by rewrite with_mem_id.
Qed.

(** Replacing the tail of the block list. *)
Lemma rep_replace h l t t' m' :
  rep h (l ++ t) -> t <> [] -> t' <> [] -> Forall block_wf t' ->
  seg m' (seg_last 0 (heap_base h) l) (blocks_end (heap_base h) l) t' 0 ->
  blocks_end (blocks_end (heap_base h) l) t' = heap_base h + heap_size h ->
  keeps (heap_mem h) m' (blocks_end (heap_base h) l) (heap_base h + heap_size h) t ->
  rep (with_mem h m') (l ++ t')
  /\ keeps (heap_mem h) m' (heap_base h) (heap_base h + heap_size h) (l ++ t).
Proof.
  intros [Hb Hm Hf Hn Hw He Hs] Ht Ht' Hw' Hs' He' Hk. apply Forall_app in Hw as [Wl Wt].
  pose proof (blocks_end_ge (heap_base h) l Wl) as Hge. unfold HEADER in Hge.
  split.
  - constructor; simpl; try done.
    + intros [_ ?]%app_eq_nil. done.
    + by apply Forall_app.
    + by rewrite blocks_end_app.
    + apply seg_app. split; [|done]. apply seg_app in Hs as [Hl _].
      destruct t as [|t0 t]; [done|]. destruct t' as [|t0' t']; [done|].
      eapply seg_frame; [done| |exact Hl]. intros x Hx _. apply Hk. lia.
  - intros x Hx. apply Hk. rewrite live_byte_app in Hx.
    destruct Hx as [?|[?|[Hl|?]]]; auto; left; [lia|]. apply live_byte_bounds in Hl; [|done]. lia.
Qed.

Lemma merge_next_wf b r :
  Forall block_wf (b :: r) -> Forall block_wf (merge_next b r) /\ merge_next b r <> []
  /\ forall cur, blocks_end cur (merge_next b r) = blocks_end cur (b :: r).
Proof.
  intros Hw. unfold merge_next. destruct r as [|n r]; [done|]. destruct (bl_free n); [|done].
  pose proof (Forall_inv Hw) as [? ?]. apply Forall_inv_tail in Hw.
  pose proof (Forall_inv Hw) as [? ?]. apply Forall_inv_tail in Hw. split_and!; [|done|].
  - constructor; [|done]. split; simpl; unfold HEADER in *; [lia|].
    Z.to_euclidean_division_equations. lia.
  - intros cur. rewrite !blocks_end_cons. f_equal. unfold block_end, HEADER. simpl. lia.
Qed.

Lemma rep_tail_end h l t :
  rep h (l ++ t) -> blocks_end (blocks_end (heap_base h) l) t = heap_base h + heap_size h.
Proof. intros Hr. by rewrite <- blocks_end_app, (rep_end _ _ Hr). Qed.

(** Merging at the represented level. *)
Lemma rep_merge h l b r :
  rep h (l ++ b :: r) ->
  rep (with_mem h (merge_with_next (heap_mem h) (blocks_end (heap_base h) l))) (l ++ merge_next b r)
  /\ keeps (heap_mem h) (merge_with_next (heap_mem h) (blocks_end (heap_base h) l))
       (heap_base h) (heap_base h + heap_size h) (l ++ b :: r).
Proof.
  intros Hr. pose proof (rep_tail_end _ _ _ Hr) as He. pose proof (rep_wf _ _ Hr) as Hw.
  apply Forall_app in Hw as [Wl Wt]. pose proof (proj1 (seg_app _ _ _ _ _ _) (rep_seg _ _ Hr)) as [_ Hs].
  pose proof (blocks_end_ge (heap_base h) l Wl) as Hge. unfold HEADER in Hge.
  pose proof (rep_base16 _ _ Hr). pose proof (rep_max _ _ Hr).
  destruct (merge_spec _ _ _ _ _ Hs Wt) as [Hs' Hk]; [lia|lia|]. rewrite He in Hk.
  destruct (merge_next_wf b r Wt) as (Hw' & Hne & He'). eapply rep_replace; try done.
  by rewrite He'.
Qed.

Lemma rep_set_free h l b r v :
  rep h (l ++ b :: r) -> 0 <= v <= UINT32_MAX ->
  rep (with_mem h (set_free (heap_mem h) (blocks_end (heap_base h) l) v))
    (l ++ mk_block (bl_size b) (nz v) :: r)
  /\ keeps (heap_mem h) (set_free (heap_mem h) (blocks_end (heap_base h) l) v)
       (heap_base h) (heap_base h + heap_size h) (l ++ b :: r).
Proof.
  intros Hr Hv. pose proof (rep_tail_end _ _ _ Hr) as He. pose proof (rep_wf _ _ Hr) as Hw.
  apply Forall_app in Hw as [Wl Wt]. pose proof (proj1 (seg_app _ _ _ _ _ _) (rep_seg _ _ Hr)) as [_ Hs].
  destruct (set_free_spec _ _ _ _ _ v _ Wt Hv Hs) as [Hs' Hk]. rewrite He in Hk.
  eapply rep_replace; try done. constructor; [apply (Forall_inv Wt)|apply (Forall_inv_tail Wt)].
Qed.

(** What the header of a block says. *)
Lemma rep_header h l b r :
  rep h (l ++ b :: r) ->
  header (heap_mem h) (blocks_end (heap_base h) l) (seg_last 0 (heap_base h) l)
    (link (block_end (blocks_end (heap_base h) l) b) r) b.
Proof. intros Hr. pose proof (proj1 (seg_app _ _ _ _ _ _) (rep_seg _ _ Hr)) as [_ [Hh _]]. exact Hh. Qed.

(** Where a block lies. *)
Lemma rep_place h l b r :
  rep h (l ++ b :: r) ->
  let a := blocks_end (heap_base h) l in
  heap_base h <= a /\ a mod 16 = 0 /\ 0 < bl_size b
  /\ a + 32 + bl_size b <= heap_base h + heap_size h <= UINT64_MAX.
Proof.
  intros Hr. pose proof (rep_tail_end _ _ _ Hr) as He. pose proof (rep_wf _ _ Hr) as Hw.
  apply Forall_app in Hw as [Wl Wt]. pose proof (blocks_end_ge (heap_base h) l Wl).
  pose proof (Forall_inv Wt) as [? ?]. pose proof (blocks_end_ge (block_end (blocks_end (heap_base h) l) b) r (Forall_inv_tail Wt)).
  rewrite blocks_end_cons in He. pose proof (rep_max _ _ Hr). destruct (rep_base _ _ Hr) as [_ Hm].
  pose proof (blocks_end_mod _ _ Wl Hm). unfold block_end, HEADER in *. split_and!; lia.
Qed.

Lemma page16 x : x & (HEAP_ALIGNMENT - 1) = x mod 16.
Proof. apply (land_ones_mod x 4). lia. Qed.

(** The pointer tests of [kfree] on the payload address of a block: only the
    free flag decides. *)
Lemma kfree_guards h l b r :
  rep h (l ++ b :: r) ->
  kfree h (blocks_end (heap_base h) l + HEADER) =
  if bl_free b then (false, h)
  else
    let a := blocks_end (heap_base h) l in
    let m := merge_with_next (set_free (heap_mem h) a 1) a in
    (true, with_mem h (if nz (block_previous m a) && nz (block_free m (block_previous m a))
                       then merge_with_next m (block_previous m a) else m)).
Proof.
  intros Hr. pose proof (rep_place _ _ _ _ Hr) as (H1 & H2 & H3 & H4). pose proof (rep_base16 _ _ Hr).
  pose proof (rep_header _ _ _ _ Hr) as (_ & _ & _ & Hmg & Hfr).
  set (a := blocks_end (heap_base h) l) in *. unfold kfree, HEADER.
  destruct (Z.eqb_spec (a + 32) 0); [lia|]. rewrite (rep_first _ _ Hr).
  assert (nz (heap_base h) = true) as Hnz by (unfold nz; lia). rewrite Hnz.
  rewrite !u64_id by lia. rewrite page16. replace ((a + 32) mod 16) with 0
    by (Z.to_euclidean_division_equations; lia).
  destruct (Z.ltb_spec (a + 32) (heap_base h + 32)); [lia|].
  destruct (Z.leb_spec (heap_base h + heap_size h) (a + 32)); [lia|]. cbn [negb orb nz Z.eqb].
  replace (a + 32 - 32) with a by lia. unfold block_in_heap, HEADER. rewrite Hnz, u64_id by lia.
  destruct (Z.leb_spec (heap_base h) a), (Z.leb_spec a (heap_base h + heap_size h - 32)); try lia.
  rewrite Hmg, Z.eqb_refl, Hfr. cbn [andb orb negb]. by destruct (bl_free b).
Qed.

Lemma live_merge_next cur b r x :
  bl_free b = true -> live_byte cur (merge_next b r) x -> live_byte cur (b :: r) x.
Proof.
  intros Hb. unfold merge_next. destruct r as [|n r]; [done|]. destruct (bl_free n); [|done].
  cbn [live_byte bl_free]. rewrite Hb. intros [[? _]|H]; [done|]. right. right.
  replace (block_end (block_end cur b) n)
    with (block_end cur (mk_block (bl_size b + HEADER + bl_size n) true)); [done|].
  unfold block_end. simpl. lia.
Qed.

Lemma merge_next_free b r :
  exists f fs, merge_next b r = f :: fs /\ bl_free f = bl_free b.
Proof.
  unfold merge_next. destruct r as [|n r]; [by exists b, []|]. destruct (bl_free n); eauto.
Qed.

Lemma live_snoc_mono cur l t t' x :
  (forall y, live_byte (blocks_end cur l) t' y -> live_byte (blocks_end cur l) t y) ->
  live_byte cur (l ++ t') x -> live_byte cur (l ++ t) x.
Proof. intros H. rewrite !live_byte_app. intros [?|?]; auto. Qed.

(** Freeing a block in use always succeeds and performs [abs_free]. *)
Lemma kfree_spec h l b r :
  rep h (l ++ b :: r) -> bl_free b = false ->
  exists m', kfree h (blocks_end (heap_base h) l + HEADER) = (true, with_mem h m')
    /\ rep (with_mem h m') (abs_free l b r)
    /\ keeps (heap_mem h) m' (heap_base h) (heap_base h + heap_size h) (abs_free l b r).
Proof.
  intros Hr Hb. rewrite (kfree_guards _ _ _ _ Hr), Hb. cbv zeta. eexists. split; [reflexivity|].
  set (a := blocks_end (heap_base h) l).
  destruct (rep_set_free h l b r 1 Hr ltac:(done)) as [Hr1 Hk1]. fold a in Hr1, Hk1.
  set (m1 := set_free (heap_mem h) a 1) in *. change (nz 1) with true in Hr1.
  destruct (rep_merge _ _ _ _ Hr1) as [Hr2 Hk2]. simpl in Hr2, Hk2. fold a in Hr2, Hk2.
  set (m2 := merge_with_next m1 a) in *. set (freed := merge_next (mk_block (bl_size b) true) r) in *.
  assert (forall x, live_byte (heap_base h) (l ++ freed) x -> live_byte (heap_base h) (l ++ b :: r) x) as Hlive.
  { intros x. apply live_snoc_mono. intros y Hy%live_merge_next; [|done].
    destruct Hy as [[? _]|Hy]; [done|]. by right. }
  assert (keeps (heap_mem h) m2 (heap_base h) (heap_base h + heap_size h) (l ++ freed)) as Hk12.
  { intros x Hx. rewrite Hk2.
    - apply Hk1. destruct Hx as [?|[?|?]]; auto.
    - destruct Hx as [?|[?|Hx]]; auto. right. right. revert Hx. apply live_snoc_mono.
      intros y. by apply live_merge_next. }
  destruct (merge_next_free (mk_block (bl_size b) true) r) as (f & fs & Hf & Hff). fold freed in Hf.
  rewrite Hf in Hr2. pose proof (rep_header _ _ _ _ Hr2) as (_ & Hprev & _). simpl in Hprev.
  fold a in Hprev. change (heap_mem (with_mem h m2)) with m2 in Hprev. rewrite Hprev. unfold abs_free. fold freed.
  destruct l as [|x l] using rev_ind; [simpl; rewrite Hf; rewrite Hf in Hk12; done|]. clear IHl.
  rewrite rev_app_distr. cbn [rev app]. rewrite seg_last_app. cbn [seg_last].
  set (c := blocks_end (heap_base h) l) in *.
  rewrite <- app_assoc in Hr2. simpl in Hr2. pose proof (rep_header _ _ _ _ Hr2) as (_ & _ & _ & _ & Hxf).
  pose proof (rep_place _ _ _ _ Hr2) as (Hc1 & _). pose proof (rep_base16 _ _ Hr2). simpl in *. fold c in Hc1, Hxf.
  assert (nz c = true) as -> by (unfold nz; lia). rewrite Hxf. cbn [andb].
  destruct (bl_free x) eqn:Ex; [|by rewrite Hf, <- app_assoc in *].
  destruct (rep_merge _ _ _ _ Hr2) as [Hr3 Hk3]. simpl in Hr3, Hk3. fold c in Hr3, Hk3.
  rewrite rev_involutive, Hf. split; [done|]. intros y Hy.
  assert (live_byte (heap_base h) (l ++ merge_next x (f :: fs)) y -> live_byte (heap_base h) (l ++ x :: f :: fs) y) as Hm
    by (apply live_snoc_mono; intros z; by apply live_merge_next).
  rewrite Hk3 by (destruct Hy as [?|[?|?]]; auto). apply Hk12. rewrite Hf, <- app_assoc. simpl.
  destruct Hy as [?|[?|?]]; auto.
Qed.

(** ** [heap_validate] *)

Definition geometry (h : heap_state) : Prop :=
  0 < heap_base h /\ heap_base h mod 16 = 0 /\ 0 <= heap_size h
  /\ heap_base h + heap_size h <= UINT64_MAX.

(** The block before the list and its first block are not both free. *)
Definition junction (m : mem) (previous : Z) (bs : list block) : bool :=
  match bs with
  | b :: _ => negb (nz previous && nz (block_free m previous) && bl_free b)
  | [] => true
  end.

Lemma coalesced_cons m cur b bs :
  0 < cur -> nz (block_free m cur) = bl_free b ->
  coalesced (b :: bs) = junction m cur bs && coalesced bs.
Proof.
  intros Hc Hf. destruct bs as [|n bs]; [done|]. simpl. rewrite Hf.
  assert (nz cur = true) as -> by (unfold nz; lia). done.
Qed.

(** The test of one block, without wrap-around. *)
Lemma validate_block_iff h previous cur blocks block :
  geometry h -> 0 <= blocks -> blocks < UINT64_MAX -> heap_base h <= cur ->
  validate_block h previous cur blocks block = true <->
  let m := heap_mem h in
  block = cur /\ blocks + 1 <= heap_size h / 32 /\
  block_magic m cur = HEAP_BLOCK_MAGIC /\ block_previous m cur = previous /\
  0 < block_size m cur /\ block_size m cur mod 16 = 0 /\
  cur + 32 + block_size m cur <= heap_base h + heap_size h /\
  nz previous && nz (block_free m previous) && nz (block_free m cur) = false.
Proof.
  intros (Hb & _ & Hs0 & Hmax) Hbl Hblm Hcur. unfold validate_block, block_in_heap, HEADER. cbv zeta.
  rewrite !andb_true_iff, page16, !Z.leb_le, !Z.eqb_eq.
  rewrite (u64_id (blocks + 1)) by lia. rewrite (u64_id (heap_base h + heap_size h)) by lia.
  pose proof (load64_range (heap_mem h) block : 0 <= block_size (heap_mem h) block <= _) as Hr.
  split.
  - intros H. destruct_and! H. subst cur.
    remember (nz previous && nz (block_free (heap_mem h) previous) && nz (block_free (heap_mem h) block))
      as both eqn:Hboth. clear Hboth. b2p.
    assert (32 <= heap_size h) as H32.
    { assert (1 <= heap_size h / 32) by lia. Z.to_euclidean_division_equations. lia. }
    rewrite (u64_id (heap_base h + heap_size h - 32)) in * by lia.
    rewrite (u64_id (heap_base h + heap_size h - block)), u64_id in * by lia.
    split_and!; try done; lia.
  - intros (-> & H1 & H2 & H3 & H4 & H5 & H6 & H7).
    rewrite (u64_id (heap_base h + heap_size h - 32)) by lia.
    rewrite (u64_id (heap_base h + heap_size h - cur)), u64_id by lia. rewrite H7.
    assert (nz (heap_base h) = true /\ nz (block_size (heap_mem h) cur) = true) as [-> ->] by (unfold nz; lia).
    rewrite H5. split_and!; try done; lia.
Qed.

Lemma validate_walk_sound fuel h previous cur blocks block :
  geometry h -> 0 <= blocks -> heap_base h <= cur -> blocks < UINT64_MAX ->
  validate_walk fuel h previous cur blocks block = true ->
  exists bs, block = link cur bs /\ seg (heap_mem h) previous cur bs 0 /\ Forall block_wf bs
    /\ blocks_end cur bs = heap_base h + heap_size h
    /\ junction (heap_mem h) previous bs = true /\ coalesced bs = true.
Proof.
  intros Hg. revert previous cur blocks block.
  induction fuel as [|fuel IH]; intros previous cur blocks block Hbl Hcur Hblm; [done|].
  cbn [validate_walk]. destruct (Z.eqb_spec block 0) as [->|Hne].
  { intros H. b2p. exists []. split_and!; try done. rewrite u64_id in H; [done|].
    destruct Hg as (? & _ & ? & ?). lia. }
  destruct (validate_block _ _ _ _ _) eqn:Ev; [|done].
  apply validate_block_iff in Ev; [|done|done|done|done].
  destruct Ev as (-> & H1 & H2 & H3 & H4 & H5 & H6 & H7). cbv zeta.
  pose proof Hg as (Hb & _ & Hs0 & Hmax). unfold HEADER. rewrite (u64_id (cur + 32 + _)) by lia.
  assert (heap_size h / 32 < UINT64_MAX) by (Z.to_euclidean_division_equations; lia).
  rewrite (u64_id (blocks + 1)) by lia.
  set (b := mk_block (block_size (heap_mem h) cur) (nz (block_free (heap_mem h) cur))).
  change (cur + 32 + block_size (heap_mem h) cur) with (block_end cur b) in *.
  destruct (nz (block_next _ _) && _) eqn:En; [done|]. intros Hw.
  apply IH in Hw as (bs & Hlink & Hseg & Hwf & Hend & Hj & Hco); [|lia|unfold block_end, HEADER in *; simpl in *; lia|lia].
  exists (b :: bs). split_and!; [done| |by constructor|done| |].
  - split; [|done]. unfold header. fold (link (block_end cur b) bs). split_and!; done.
  - simpl. by rewrite H7.
  - rewrite (coalesced_cons (heap_mem h) cur) by (done || lia). by rewrite Hj, Hco.
Qed.

Lemma validate_walk_complete fuel h bs previous cur blocks :
  geometry h -> 0 <= blocks -> heap_base h + 32 * blocks <= cur -> (length bs < fuel)%nat ->
  seg (heap_mem h) previous cur bs 0 -> Forall block_wf bs ->
  blocks_end cur bs = heap_base h + heap_size h ->
  junction (heap_mem h) previous bs = true -> coalesced bs = true ->
  validate_walk fuel h previous cur blocks (link cur bs) = true.
Proof.
  intros Hg. pose proof Hg as (Hb & _ & Hs0 & Hmax). revert fuel previous cur blocks.
  induction bs as [|b bs IH]; intros fuel previous cur blocks Hbl Hcur Hf Hs Hw He Hj Hc;
    (destruct fuel as [|fuel]; [simpl in Hf; lia|]).
  { simpl. unfold blocks_end in He. simpl in He. rewrite u64_id by lia. lia. }
  pose proof (Forall_inv Hw) as [Wb1 Wb2]. pose proof (Forall_inv_tail Hw) as Wr.
  destruct Hs as [(B1 & B2 & B3 & B4 & B5) Hs]. fold (link (block_end cur b) bs) in B3.
  rewrite blocks_end_cons in He. pose proof (blocks_end_ge (block_end cur b) bs Wr) as Hge.
  rewrite (coalesced_cons (heap_mem h) cur) in Hc by (done || lia). apply andb_true_iff in Hc as [Hj' Hc].
  assert (cur + 32 + bl_size b = block_end cur b) as Hbe by done. unfold HEADER in Hge.
  assert (blocks + 1 <= heap_size h / 32) by (apply Z.div_le_lower_bound; lia).
  cbn [link validate_walk]. destruct (Z.eqb_spec cur 0); [lia|].
  assert (validate_block h previous cur blocks cur = true) as ->.
  { apply validate_block_iff; [done|lia|lia|lia|].
    cbv zeta. rewrite B1, B5. simpl in Hj. apply negb_true_iff in Hj. split_and!; try done; lia. }
  cbv zeta. rewrite B1, B3. unfold HEADER. rewrite Hbe, !u64_id
    by (unfold UINT64_MAX in *; Z.to_euclidean_division_equations; lia).
  assert (nz (link (block_end cur b) bs) && (link (block_end cur b) bs !=? block_end cur b) = false) as ->
    by (destruct bs; simpl; [done|]; by rewrite Z.eqb_refl, andb_false_r).
  apply IH; try done; [lia|lia|simpl in Hf; lia].
Qed.

Lemma rep_geometry h bs : rep h bs -> geometry h.
Proof.
  intros Hr. pose proof (rep_base _ _ Hr) as [? ?]. pose proof (rep_max _ _ Hr).
  pose proof (blocks_end_ge (heap_base h) bs (rep_wf _ _ Hr)) as Hge. rewrite (rep_end _ _ Hr) in Hge.
  unfold HEADER in Hge. split_and!; try done; lia.
Qed.

Lemma heap_validate_iff h :
  geometry h -> heap_validate h = true <-> exists bs, rep h bs /\ coalesced bs = true.
Proof.
  intros Hg. unfold heap_validate. pose proof Hg as (Hb & Hm & Hs0 & Hmax). split.
  - case_if; [done|]. b2p. intros Hv. rewrite H0 in Hv.
    apply validate_walk_sound in Hv as (bs & Hl & Hs & Hw & He & _ & Hc); [|done|lia|lia|done].
    exists bs. split; [|done]. constructor; try done; try lia. destruct bs; [simpl in Hl; lia|done].
  - intros (bs & Hr & Hc). rewrite (rep_first _ _ Hr), Z.eqb_refl.
    assert (nz (heap_base h) = true) as -> by (unfold nz; lia). cbn [negb orb].
    replace (validate_walk (S (heap_fuel h)) h 0 (heap_base h) 0 (heap_base h))
      with (validate_walk (S (heap_fuel h)) h 0 (heap_base h) 0 (link (heap_base h) bs))
      by (pose proof (rep_some _ _ Hr); by destruct bs).
    pose proof (rep_fuel _ _ Hr). destruct Hr. apply validate_walk_complete; try done; try lia.
    by destruct bs.
Qed.

(** ** Coalescing is kept *)

Definition head_free (bs : list block) : bool :=
  match bs with b :: _ => bl_free b | [] => false end.

Lemma coalesced_step b bs :
  coalesced (b :: bs) = negb (bl_free b && head_free bs) && coalesced bs.
Proof. destruct bs; simpl; [by rewrite andb_false_r|done]. Qed.

Lemma abs_malloc_coalesced size cur bs p bs' :
  abs_malloc size cur bs = Some (p, bs') -> coalesced bs = true ->
  coalesced bs' = true /\ (head_free bs' = true -> head_free bs = true).
Proof.
  revert cur bs'. induction bs as [|b bs IH]; intros cur bs'; [done|].
  cbn [abs_malloc]. rewrite coalesced_step, andb_true_iff, negb_true_iff. intros H [Hj Hc].
  destruct (bl_free b && (size <=? bl_size b)) eqn:E.
  - apply andb_true_iff in E as [E _]. rewrite E in Hj. simpl in Hj. injection H as <- <-.
    case_if; rewrite !coalesced_step; simpl; rewrite ?Hj, Hc; done.
  - destruct (abs_malloc size (block_end cur b) bs) as [[q r]|] eqn:Ea; [|done].
    injection H as <- <-. destruct (IH _ _ Ea Hc) as [Hc' Hh]. split; [|done].
    rewrite coalesced_step, Hc', andb_true_r, negb_true_iff.
    destruct (bl_free b); [|done]. simpl in *. destruct (head_free r); [|done]. rewrite Hh in Hj; done.
Qed.

Lemma coalesced_app l t :
  coalesced (l ++ t) = true <->
  coalesced l = true /\ coalesced t = true /\ (head_free (rev l) && head_free t = false).
Proof.
  induction l as [|b l IH]; [simpl; tauto|].
  change ((b :: l) ++ t) with (b :: l ++ t). rewrite !coalesced_step, !andb_true_iff, IH.
  destruct l as [|b' l]; [simpl; rewrite andb_false_r, negb_true_iff; tauto|].
  change (rev (b :: b' :: l)) with (rev (b' :: l) ++ [b]).
  change (head_free ((b' :: l) ++ t)) with (head_free (b' :: l)).
  assert (head_free (rev (b' :: l) ++ [b]) = head_free (rev (b' :: l))) as ->.
  { destruct (rev (b' :: l)) eqn:E; [|done]. apply (f_equal length) in E. rewrite length_rev in E. done. }
  tauto.
Qed.

Lemma merge_next_coalesced b r :
  bl_free b = true -> coalesced r = true -> coalesced (merge_next b r) = true.
Proof.
  intros Hb Hc. unfold merge_next. destruct r as [|n r]; [done|]. destruct (bl_free n) eqn:En.
  - rewrite coalesced_step, En in *. simpl in *. by rewrite Hb.
  - rewrite coalesced_step. simpl head_free. by rewrite En, andb_false_r, Hc.
Qed.

Lemma abs_free_coalesced l b r :
  coalesced (l ++ b :: r) = true -> bl_free b = false -> coalesced (abs_free l b r) = true.
Proof.
  intros (Hl & Hbr & _)%coalesced_app Hb. rewrite coalesced_step, Hb in Hbr. simpl in Hbr.
  unfold abs_free. set (freed := merge_next _ r).
  assert (coalesced freed = true) as Hf by by apply merge_next_coalesced.
  destruct (rev l) as [|x l0] eqn:Er; [done|]. destruct (bl_free x) eqn:Ex.
  - apply (f_equal (@rev _)) in Er. rewrite rev_involutive in Er. subst l. simpl in Hl.
    apply coalesced_app in Hl as (Hl0 & _ & Hj). rewrite rev_involutive in Hj. simpl in Hj.
    rewrite Ex, andb_true_r in Hj. apply coalesced_app. rewrite rev_involutive, Hj. split_and!; try done.
    by apply merge_next_coalesced.
  - apply coalesced_app. rewrite Er. simpl. by rewrite Ex.
Qed.

(** ** The allocations in use *)

Fixpoint used_blocks (cur : Z) (bs : list block) : list (Z * Z) :=
  match bs with
  | [] => []
  | b :: bs' => (if bl_free b then [] else [(cur + HEADER, bl_size b)])
                ++ used_blocks (block_end cur b) bs'
  end.

Lemma used_blocks_app cur l t :
  used_blocks cur (l ++ t) = used_blocks cur l ++ used_blocks (blocks_end cur l) t.
Proof.
  revert cur. induction l as [|b l IH]; intros cur; [done|]. simpl. by rewrite IH, app_assoc.
Qed.

Lemma used_blocks_in cur bs p s :
  In (p, s) (used_blocks cur bs) <->
  exists l b r, bs = l ++ b :: r /\ bl_free b = false /\ p = blocks_end cur l + HEADER /\ s = bl_size b.
Proof.
  revert cur. induction bs as [|b bs IH]; intros cur; simpl.
  - split; [done|]. intros ([|? ?] & ? & ? & ? & _); done.
  - rewrite in_app_iff, IH. split.
    + intros [H|(l & b' & r & -> & H & -> & ->)].
      * destruct (bl_free b) eqn:E; [done|]. destruct H as [[= <- <-]|[]]. exists [], b, bs. done.
      * exists (b :: l), b', r. done.
    + intros ([|b0 l] & b' & r & Heq & H & -> & ->); injection Heq as -> ->.
      * left. rewrite H. left. done.
      * right. exists l, b', r. done.
Qed.

Lemma merge_next_used cur b r :
  bl_free b = true -> used_blocks cur (merge_next b r) = used_blocks cur (b :: r).
Proof.
  intros Hb. unfold merge_next. destruct r as [|n r]; [done|]. destruct (bl_free n) eqn:En; [|done].
  simpl. rewrite Hb, En. simpl. f_equal. unfold block_end. simpl. lia.
Qed.

Lemma abs_malloc_used size cur bs p bs' :
  abs_malloc size cur bs = Some (p, bs') ->
  exists s, size <= s /\ used_blocks cur bs' ≡ₚ (p, s) :: used_blocks cur bs.
Proof.
  revert cur bs'. induction bs as [|b bs IH]; intros cur bs'; [done|]. cbn [abs_malloc].
  destruct (bl_free b && (size <=? bl_size b)) eqn:E.
  - b2p. intros [= <- <-]. case_if; simpl; rewrite H.
    + exists size. split; [lia|]. simpl. f_equiv. f_equiv. unfold block_end. simpl. lia.
    + exists (bl_size b). done.
  - destruct (abs_malloc size (block_end cur b) bs) as [[q r]|] eqn:Ea; [|done].
    intros [= <- <-]. destruct (IH _ _ Ea) as (s & Hs & Hp). exists s. split; [done|]. simpl.
    rewrite Hp. by rewrite Permutation_middle.
Qed.

Lemma abs_free_used cur l b r :
  bl_free b = false ->
  used_blocks cur (l ++ b :: r) ≡ₚ (blocks_end cur l + HEADER, bl_size b) :: used_blocks cur (abs_free l b r).
Proof.
  intros Hb. rewrite used_blocks_app. simpl used_blocks at 2. rewrite Hb. simpl.
  rewrite <- Permutation_middle. constructor.
  assert (used_blocks cur (abs_free l b r)
          = used_blocks cur l ++ used_blocks (block_end (blocks_end cur l) b) r) as ->; [|done].
  unfold abs_free. set (freed := merge_next _ r).
  assert (forall c, used_blocks c freed = used_blocks (block_end c b) r) as Hf
    by (intros c; unfold freed; by rewrite merge_next_used).
  destruct (rev l) as [|x l0] eqn:Er;
    (apply (f_equal (@rev _)) in Er; rewrite rev_involutive in Er; subst l).
  - simpl. by rewrite Hf.
  - destruct (bl_free x) eqn:Ex.
    + simpl rev. rewrite !used_blocks_app, blocks_end_app, merge_next_used by done. simpl.
      rewrite Ex, Hf. simpl. by rewrite app_nil_r.
    + by rewrite used_blocks_app, Hf.
Qed.

(** ** Initialisation and accounting *)

Definition free_size (b : block) : Z := if bl_free b then bl_size b else 0.
Definition used_size (b : block) : Z := if bl_free b then 0 else bl_size b.

Lemma blocks_end_sum cur bs :
  blocks_end cur bs
  = cur + zsum free_size bs + zsum used_size bs + HEADER * Z.of_nat (length bs).
Proof.
  revert cur. induction bs as [|b bs IH]; intros cur; [simpl; unfold blocks_end; simpl; lia|].
  rewrite blocks_end_cons, IH. unfold block_end, free_size, used_size. simpl. destruct (bl_free b); lia.
Qed.

Lemma sum_blocks_spec fuel m (want : bool) p cur bs total :
  seg m p cur bs 0 -> Forall block_wf bs -> 0 < cur -> (length bs < fuel)%nat -> 0 <= total ->
  total + zsum (if want then free_size else used_size) bs <= UINT64_MAX ->
  sum_blocks fuel m want (link cur bs) total
  = total + zsum (if want then free_size else used_size) bs.
Proof.
  set (f := if want then free_size else used_size).
  revert fuel p cur total. induction bs as [|b bs IH]; intros fuel p cur total Hs Hw Hc Hf Ht Hm;
    (destruct fuel as [|fuel]; [simpl in *; lia|]); [simpl; lia|].
  destruct Hs as [(B1 & B2 & B3 & B4 & B5) Hs]. fold (link (block_end cur b) bs) in B3.
  pose proof (Forall_inv Hw) as [? ?]. apply Forall_inv_tail in Hw.
  assert (Forall (fun b => 0 <= f b) bs) as Hpos.
  { eapply Forall_impl; [|exact Hw]. intros b' [? _]. unfold f, free_size, used_size.
    destruct want, (bl_free b'); lia. }
  apply zsum_nonneg in Hpos. cbn [link sum_blocks]. destruct (Z.eqb_spec cur 0); [lia|].
  rewrite B1, B3, B4, B5, Z.eqb_refl. cbn [andb]. cbn [zsum fold_right] in *. fold (zsum f bs) in *.
  assert ((if Bool.eqb (bl_free b) want then u64 (total + bl_size b) else total) = total + f b) as ->.
  { unfold f, free_size, used_size in *. destruct want, (bl_free b); simpl in *; try rewrite u64_id; lia. }
  rewrite (IH fuel cur (block_end cur b)); try done; try (unfold block_end, HEADER; lia).
  - simpl in Hf. lia.
  - unfold f, free_size, used_size in *. destruct want, (bl_free b); lia.
Qed.

Lemma heap_bytes_spec h bs :
  rep h bs -> heap_free_bytes h = zsum free_size bs /\ heap_used_bytes h = zsum used_size bs.
Proof.
  intros Hr. pose proof (rep_end _ _ Hr) as He. rewrite blocks_end_sum in He.
  pose proof (rep_max _ _ Hr). destruct (rep_base _ _ Hr) as [? _]. unfold HEADER in He.
  assert (Forall (fun b => 0 <= free_size b) bs /\ Forall (fun b => 0 <= used_size b) bs) as [Hf Hu].
  { split; (eapply Forall_impl; [|exact (rep_wf _ _ Hr)]); intros b [? _];
      unfold free_size, used_size; destruct (bl_free b); lia. }
  apply zsum_nonneg in Hf, Hu. unfold heap_free_bytes, heap_used_bytes. rewrite (rep_first _ _ Hr).
  assert (link (heap_base h) bs = heap_base h) as <- by (pose proof (rep_some _ _ Hr); by destruct bs).
  split; rewrite (sum_blocks_spec _ _ _ 0); try done; try lia;
    try apply (rep_seg _ _ Hr); try apply (rep_wf _ _ Hr); try apply (rep_fuel _ _ Hr).
Qed.

Section init.
Context {S : Type} `{PageAllocatorLaws S}.
Implicit Types pa : S.

(** A heap that starts is one free block that fills the pages taken from the
    allocator; one that does not leaves everything alone. *)
Lemma heap_init_spec pa h pages :
  pa_ok pa -> 0 <= pages ->
  let '(ok, pa', h') := heap_init pa h pages in
  (ok = false /\ pa' = pa /\ h' = h)
  \/ (ok = true /\ 0 < pages /\ rep h' [mk_block (pages * 4096 - 32) true]
      /\ heap_size h' = pages * 4096 /\ heap_base h' mod 4096 = 0 /\ pa_ok pa'
      /\ pa_live pa' = pa_live pa ∪ page_run (heap_base h' / 4096) pages
      /\ page_run (heap_base h' / 4096) pages ## pa_live pa).
Proof.
  intros Hok Hp. unfold heap_init. case_if; [by left|]. b2p.
  pose proof (pa_alloc_spec pa pages Hok Hp) as Ha.
  destruct (pa_alloc pa pages) as [a pa'].
  destruct Ha as [(-> & -> & _)|(p & -> & Hp0 & Hn0 & Hmax & Hsub & Hok' & Hf & Hl)]; [by left|].
  unfold ARGUS_PAGE_SIZE in *. destruct (Z.eqb_spec (p * 4096) 0); [lia|]. right.
  rewrite !u64_id by (rewrite ?u64_id; unfold UINT64_MAX, HEADER in *; lia).
  cbn [heap_base heap_size]. rewrite Z.mod_mul, Z.div_mul by lia.
  pose proof (pa_disjoint pa Hok). split_and!; try done; [|set_solver].
  constructor; cbn [heap_base heap_size first_block heap_mem]; try done.
  - split; [lia|]. Z.to_euclidean_division_equations. lia.
  - lia.
  - constructor; [|done]. split; simpl; [lia|]. Z.to_euclidean_division_equations. lia.
  - unfold blocks_end, block_end, HEADER. simpl. lia.
  - split; [|done]. unfold header, HEADER. fields. cbn [bl_size bl_free].
    split_and!; load_stores; done.
Qed.
End init.

(** ** A client of the heap

    The history of a client that allocates, frees and writes inside what it
    holds.  [live] lists its allocations with the sizes it asked for.  It may
    free any address: what it holds, what it has freed already, the middle of an
    allocation, an address outside the heap. *)

Inductive heap_op :=
  | HeapMalloc (n : Z)
  | HeapFree (a : Z)
  | HeapStore (i : nat) (offset v : Z).

Definition heap_exec (op : heap_op) (st : heap_state * list (Z * Z)) : heap_state * list (Z * Z) :=
  let '(h, live) := st in
  match op with
  | HeapMalloc n => let '(p, h') := kmalloc h n in (h', if p =? 0 then live else live ++ [(p, n)])
  | HeapFree a =>
      let '(ok, h') := kfree h a in (h', if ok then filter (fun x => fst x <> a) live else live)
  | HeapStore i offset v =>
      match live !! i with
      | Some (p, n) => if (0 <=? offset) && (offset <? n)
                       then (with_mem h (mem_set (heap_mem h) (p + offset) v), live) else st
      | None => st
      end
  end.

Definition heap_run (ops : list heap_op) (st : heap_state * list (Z * Z)) := fold_left (fun st op => heap_exec op st) ops st.

(** A block of the list begins at [x]. *)
Fixpoint begins_block (fuel : nat) (m : mem) (block x : Z) : bool :=
  match fuel with
  | O => false
  | S f => if block =? 0 then false else (block =? x) || begins_block f m (block_next m block) x
  end.

(** The magic word in front of [a], where [kfree] looks for it, is not the data
    of a client or what the memory held before: when it is there, a block begins
    there.  (Bytes that imitate a whole header cannot be told from one.) *)
Definition unforged (h : heap_state) (a : Z) : bool :=
  (a <? heap_base h + HEADER) || (heap_base h + heap_size h <=? a) || nz (a mod 16) ||
  (block_magic (heap_mem h) (a - HEADER) !=? HEAP_BLOCK_MAGIC) ||
  begins_block (heap_fuel h) (heap_mem h) (first_block h) (a - HEADER).

Definition heap_op_wf (h : heap_state) (op : heap_op) : Prop :=
  match op with
  | HeapMalloc n => 0 <= n <= UINT64_MAX
  | HeapFree a => unforged h a = true
  | HeapStore _ _ _ => True
  end.

(** Each operation in the state it finds. *)
Fixpoint heap_ops_wf (ops : list heap_op) (st : heap_state * list (Z * Z)) : Prop :=
  match ops with
  | [] => True
  | op :: ops => heap_op_wf (fst st) op /\ heap_ops_wf ops (heap_exec op st)
  end.

(** The client's view matches the blocks in use: [owned] lists them with their
    real sizes in the client's order. *)
Definition client_ok (st : heap_state * list (Z * Z)) : Prop :=
  exists bs owned, rep (fst st) bs /\ coalesced bs = true
    /\ owned ≡ₚ used_blocks (heap_base (fst st)) bs
    /\ Forall2 (fun a o => fst a = fst o /\ 0 < snd a <= snd o) (snd st) owned.

Lemma rep_store h bs x v :
  rep h bs -> live_byte (heap_base h) bs x -> rep (with_mem h (mem_set (heap_mem h) x v)) bs.
Proof.
  intros [Hb Hm Hf Hn Hw He Hs] Hx. constructor; try done. simpl.
  eapply seg_frame; [done| |exact Hs]. intros a _ Ha. apply mem_get_set_ne. intros ->. done.
Qed.

Lemma used_live cur bs p s x :
  In (p, s) (used_blocks cur bs) -> p <= x < p + s -> live_byte cur bs x.
Proof.
  intros (l & b & r & -> & Hb & -> & ->)%used_blocks_in Hx. apply live_byte_app. right.
  left. split; [done|]. unfold block_end. lia.
Qed.

Lemma abs_kmalloc_coalesced base n bs p bs' :
  abs_kmalloc base n bs = Some (p, bs') -> coalesced bs = true -> coalesced bs' = true.
Proof.
  unfold abs_kmalloc. case_if; [done|]. intros H Hc. by eapply abs_malloc_coalesced.
Qed.

(** An owned pointer is the payload of some block in use. *)
Lemma owned_block st bs owned i p n :
  owned ≡ₚ used_blocks (heap_base (fst st)) bs ->
  Forall2 (fun a o => fst a = fst o /\ 0 < snd a <= snd o) (snd st) owned ->
  snd st !! i = Some (p, n) ->
  exists s l b r, owned !! i = Some (p, s) /\ 0 < n <= s /\ bs = l ++ b :: r /\ bl_free b = false
    /\ p = blocks_end (heap_base (fst st)) l + HEADER /\ s = bl_size b.
Proof.
  intros Hp HF Hi. destruct (Forall2_lookup_l _ _ _ _ _ HF Hi) as ([q s] & Ho & Heq & Hn).
  simpl in *. subst q.
  assert (In (p, s) (used_blocks (heap_base (fst st)) bs)) as Hin.
  { eapply Permutation_in; [exact Hp|]. apply list_elem_of_In. by eapply list_elem_of_lookup_2. }
  apply used_blocks_in in Hin as (l & b & r & -> & Hb & -> & ->). eexists _, l, b, r. done.
Qed.

Lemma used_blocks_sorted cur bs :
  Forall block_wf bs ->
  Forall (fun o => cur + HEADER <= fst o) (used_blocks cur bs)
  /\ ForallOrdPairs (fun a o => fst a + snd a <= fst o) (used_blocks cur bs).
Proof.
  intros Hw. revert cur. induction Hw as [|b bs [Hb _] Hw IH]; intros cur; [split; constructor|].
  destruct (IH (block_end cur b)) as [H1 H2]. simpl.
  assert (Forall (fun o => cur + HEADER <= fst o) (used_blocks (block_end cur b) bs)) as H1'.
  { eapply Forall_impl; [|exact H1]. simpl. unfold block_end, HEADER. intros; lia. }
  destruct (bl_free b); [done|]. split; [constructor; [simpl; lia|done]|]. constructor; [|done].
  eapply Forall_impl; [|exact H1]. simpl. unfold block_end, HEADER. intros; lia.
Qed.

(** A pointer is in use once. *)
Lemma used_blocks_nodup cur bs : Forall block_wf bs -> NoDup (fst <$> used_blocks cur bs).
Proof.
  intros Hw. revert cur. induction Hw as [|b bs [Hb Hm] Hw IH]; intros cur; [constructor|].
  simpl. destruct (bl_free b); [apply IH|]. simpl. constructor; [|apply IH].
  destruct (used_blocks_sorted (block_end cur b) bs Hw) as [H1 _].
  intros ([p s] & Heq & Hin)%list_elem_of_fmap. simpl in Heq. subst p.
  rewrite List.Forall_forall in H1. specialize (H1 _ (proj1 (list_elem_of_In _ _) Hin)).
  simpl in H1. unfold block_end, HEADER in H1. lia.
Qed.

Lemma begins_block_spec fuel m p cur bs x :
  begins_block fuel m (link cur bs) x = true -> Forall block_wf bs -> 0 < cur -> seg m p cur bs 0 ->
  exists l b r, bs = l ++ b :: r /\ x = blocks_end cur l.
Proof.
  revert fuel p cur. induction bs as [|b bs IH]; intros [|fuel] p cur; try done.
  cbn [begins_block link]. intros Hx Hw Hc [(_ & _ & Hn & _) Hs]. destruct (Z.eqb_spec cur 0); [lia|].
  apply orb_true_iff in Hx as [Hx|Hx]; [apply Z.eqb_eq in Hx as ->; by exists [], b, bs|].
  assert (block_next m cur = link (block_end cur b) bs) as Hl by (rewrite Hn; by destruct bs).
  rewrite Hl in Hx. apply Forall_cons_iff in Hw as [[Hb _] Hw].
  destruct (IH fuel cur (block_end cur b) Hx Hw ltac:(unfold block_end, HEADER; lia) Hs) as (l & c & r & -> & ->).
  by exists (b :: l), c, r.
Qed.

(** [kfree] of any address that is not a forgery frees the block in use whose
    payload begins there, and refuses every other address without a trace. *)
Lemma kfree_any h bs a :
  rep h bs -> unforged h a = true ->
  (exists l b r, bs = l ++ b :: r /\ bl_free b = false /\ a = blocks_end (heap_base h) l + HEADER)
  \/ (kfree h a = (false, h) /\ ~ a ∈ fst <$> used_blocks (heap_base h) bs).
Proof.
  intros Hr Hu. destruct (decide (a ∈ fst <$> used_blocks (heap_base h) bs)) as [Hin|Hin].
  { left. apply list_elem_of_fmap in Hin as ([p s] & -> & Hin%list_elem_of_In).
    apply used_blocks_in in Hin as (l & b & r & -> & Hb & -> & _). by exists l, b, r. }
  right. split; [|done]. pose proof (rep_max _ _ Hr). pose proof (rep_base16 _ _ Hr) as Hb16.
  assert (32 <= heap_size h) as Hsz.
  { pose proof (rep_end _ _ Hr). pose proof (blocks_end_ge (heap_base h) bs (rep_wf _ _ Hr)).
    pose proof (rep_some _ _ Hr). unfold HEADER in *. destruct bs; [done|]. cbn [length] in *. lia. }
  destruct (begins_block (heap_fuel h) (heap_mem h) (first_block h) (a - HEADER)) eqn:Eb.
  - assert (first_block h = link (heap_base h) bs) as Hf
      by (rewrite (rep_first _ _ Hr); pose proof (rep_some _ _ Hr); by destruct bs).
    rewrite Hf in Eb. destruct (begins_block_spec _ _ _ _ _ _ Eb (rep_wf _ _ Hr) ltac:(lia) (rep_seg _ _ Hr))
      as (l & b & r & -> & Ha).
    replace a with (blocks_end (heap_base h) l + HEADER) in * by lia.
    rewrite (kfree_guards _ _ _ _ Hr). destruct (bl_free b) eqn:Ef; [done|]. exfalso. apply Hin.
    apply list_elem_of_fmap. exists (blocks_end (heap_base h) l + HEADER, bl_size b). split; [done|].
    apply list_elem_of_In, used_blocks_in. by exists l, b, r.
  - unfold unforged in Hu. rewrite Eb, orb_false_r in Hu. unfold kfree.
    case_if; [done|]. case_if; [done|]. rewrite page16 in *. b2p. unfold HEADER in *.
    rewrite (u64_id (heap_base h + heap_size h)) in * by lia.
    destruct (Z.le_gt_cases (heap_base h + 32) a).
    + rewrite (u64_id (a - 32)) by lia.
      destruct (Z.ltb_spec a (heap_base h + 32)), (Z.leb_spec (heap_base h + heap_size h) a); try lia.
      destruct Hu as [Hu|Hu]; [unfold nz in Hu; cbn [orb] in Hu; lia|]. rewrite Hu, orb_true_r. done.
    + rewrite (u64_id (heap_base h + 32)) in * by lia. lia.
Qed.

Lemma filter_Forall2_fst (a : Z) (l k : list (Z * Z)) :
  Forall2 (fun x o => fst x = fst o /\ 0 < snd x <= snd o) l k ->
  Forall2 (fun x o => fst x = fst o /\ 0 < snd x <= snd o)
    (filter (fun x => fst x <> a) l) (filter (fun x => fst x <> a) k).
Proof.
  induction 1 as [|x o l k [Hf Hs] HF IH]; [constructor|]. rewrite !filter_cons, Hf.
  case_decide; [by constructor|done].
Qed.

(** Freeing a block in use removes its pointer and no other. *)
Lemma filter_used cur l b r (owned : list (Z * Z)) :
  Forall block_wf (l ++ b :: r) -> bl_free b = false -> owned ≡ₚ used_blocks cur (l ++ b :: r) ->
  filter (fun x => fst x <> blocks_end cur l + HEADER) owned ≡ₚ used_blocks cur (abs_free l b r).
Proof.
  intros Hw Hb Hp. pose proof (abs_free_used cur l b r Hb) as Hu. rewrite Hp, Hu.
  rewrite filter_cons_False by (simpl; tauto). pose proof (used_blocks_nodup cur _ Hw) as Hn.
  rewrite Hu in Hn. inversion_clear Hn as [|? ? Hna _]. simpl in Hna. revert Hna.
  generalize (used_blocks cur (abs_free l b r)). intros k. induction k as [|x k IH]; intros Hna; [done|].
  rewrite fmap_cons, not_elem_of_cons in Hna. destruct Hna as [Hx Hk].
  rewrite filter_cons_True by congruence. by rewrite IH.
Qed.

Lemma client_exec op st : client_ok st -> heap_op_wf (fst st) op -> client_ok (heap_exec op st).
Proof.
  intros (bs & owned & Hr & Hc & Hp & HF) Hop. destruct st as [h live]. simpl in Hr, Hp, HF.
  cbn [fst] in Hop. destruct op as [n|a|i offset v]; cbn [heap_exec].
  - pose proof (kmalloc_spec h bs n Hr Hop) as Hm. destruct (abs_kmalloc (heap_base h) n bs) as [[p bs']|] eqn:Ea.
    + destruct Hm as (m' & -> & Hr' & _). pose proof (abs_kmalloc_coalesced _ _ _ _ _ Ea Hc) as Hc'.
      unfold abs_kmalloc in Ea. destruct (Z.eqb_spec n 0); [done|].
      destruct (abs_malloc_used _ _ _ _ _ Ea) as (s & Hs & Hu).
      assert (p <> 0) as Hp0.
      { assert (In (p, s) (used_blocks (heap_base h) bs')) as Hin
          by (eapply Permutation_in; [symmetry; exact Hu|left; done]).
        apply used_blocks_in in Hin as (l & b & r & -> & _ & -> & _).
        pose proof (rep_place _ _ _ _ Hr') as [? _]. pose proof (rep_base16 _ _ Hr). simpl in *. unfold HEADER. lia. }
      destruct (Z.eqb_spec p 0); [done|]. exists bs', (owned ++ [(p, s)]). simpl. split_and!; try done.
      * rewrite Hu, Hp. by rewrite Permutation_app_comm.
      * apply Forall2_app; [done|]. constructor; [|constructor]. simpl in Hop |- *.
        split; [done|]. Z.to_euclidean_division_equations. lia.
    + rewrite Hm. simpl. exists bs, owned. done.
  - destruct (kfree_any h bs a Hr Hop) as [(l & b & r & -> & Hb & ->)|[Hk _]]; [|rewrite Hk; by exists bs, owned].
    destruct (kfree_spec h l b r Hr Hb) as (m' & -> & Hr' & _).
    exists (abs_free l b r), (filter (fun x => fst x <> blocks_end (heap_base h) l + HEADER) owned).
    simpl. split_and!; [done|by apply abs_free_coalesced| |by apply filter_Forall2_fst].
    apply filter_used; [apply (rep_wf _ _ Hr)|done|done].
  - destruct (live !! i) as [[p n]|] eqn:Hi; [|by exists bs, owned].
    case_if; [|by exists bs, owned]. b2p.
    destruct (owned_block (h, live) bs owned i p n Hp HF Hi) as (s & l & b & r & Ho & Hn & -> & Hb & -> & ->).
    exists (l ++ b :: r), owned. simpl in *. split_and!; try done. apply rep_store; [done|].
    eapply used_live; [|instantiate (1 := bl_size b)].
    + apply used_blocks_in. exists l, b, r. done.
    + lia.
Qed.

Lemma client_run ops st : client_ok st -> heap_ops_wf ops st -> client_ok (heap_run ops st).
Proof.
  unfold heap_run. revert st. induction ops as [|op ops IH]; intros st Hst; [done|].
  cbn [heap_ops_wf fold_left]. intros [Hop Hops]. apply IH; [by apply client_exec|done].
Qed.

Lemma abs_malloc_Some size cur bs p bs' :
  abs_malloc size cur bs = Some (p, bs') ->
  exists l b r, bs = l ++ b :: r /\ bl_free b = true /\ size <= bl_size b
    /\ Forall (fun c => bl_free c = true -> bl_size c < size) l
    /\ p = blocks_end cur l + HEADER
    /\ bs' = l ++ (if size + HEADER + HEAP_ALIGNMENT <=? bl_size b
                   then [mk_block size false; mk_block (bl_size b - size - HEADER) true]
                   else [mk_block (bl_size b) false]) ++ r.
Proof.
  revert cur bs'. induction bs as [|b bs IH]; intros cur bs'; [done|]. cbn [abs_malloc].
  destruct (bl_free b && (size <=? bl_size b)) eqn:E.
  - b2p. intros [= <- <-]. exists [], b, bs. split_and!; try done. by case_if.
  - destruct (abs_malloc size (block_end cur b) bs) as [[q r]|] eqn:Ea; [|done].
    intros [= <- <-]. destruct (IH _ _ Ea) as (l & c & r' & -> & Hc & Hs & Hl & -> & ->).
    exists (b :: l), c, r'. split_and!; try done. constructor; [|done].
    intros Hb. rewrite Hb in E. simpl in E. b2p. lia.
Qed.

(** [kmalloc] is first fit and touches nothing in use.  It returns null, and
    then changes nothing, exactly when the request is zero or no free block has
    room for the request rounded up to sixteen bytes; otherwise it returns the
    16-byte aligned payload of the first free block with room, splits the rest
    off as a new free block when it can hold a header and sixteen bytes, and
    leaves every byte outside the heap and of every allocation unchanged. *)
Theorem kmalloc_first_fit h bs n :
  rep h bs -> 0 <= n <= UINT64_MAX ->
  let size := (n + 15) / 16 * 16 in
  let '(p, h') := kmalloc h n in
  (p = 0 <-> n = 0 \/ Forall (fun b => bl_free b = true -> bl_size b < size) bs)
  /\ (p = 0 -> h' = h)
  /\ (p <> 0 ->
      p mod 16 = 0
      /\ (exists l b r, bs = l ++ b :: r /\ bl_free b = true /\ size <= bl_size b
           /\ Forall (fun c => bl_free c = true -> bl_size c < size) l
           /\ p = blocks_end (heap_base h) l + HEADER
           /\ rep h' (l ++ (if size + HEADER + HEAP_ALIGNMENT <=? bl_size b
                   then [mk_block size false; mk_block (bl_size b - size - HEADER) true]
                   else [mk_block (bl_size b) false]) ++ r))
      /\ keeps (heap_mem h) (heap_mem h') (heap_base h) (heap_base h + heap_size h) bs).
Proof.
  intros Hr Hn. pose proof (kmalloc_spec h bs n Hr Hn) as Hs. unfold abs_kmalloc in Hs. cbv zeta.
  set (size := (n + 15) / 16 * 16) in *. destruct (Z.eqb_spec n 0) as [->|Hn0].
  { rewrite Hs. split_and!; [split; auto|done|done]. }
  destruct (abs_malloc size (heap_base h) bs) as [[p bs']|] eqn:Ea.
  - destruct Hs as (m' & -> & Hr' & Hk).
    destruct (abs_malloc_Some _ _ _ _ _ Ea) as (l & b & r & -> & Hb & Hsz & Hl & -> & ->).
    pose proof (rep_place _ _ _ _ Hr) as (H1 & H2 & _). pose proof (rep_base16 _ _ Hr).
    assert (blocks_end (heap_base h) l + HEADER <> 0) as Hp0 by (unfold HEADER; lia).
    split_and!; [|done|].
    + split; [done|]. intros [?|HF]; [done|]. apply abs_malloc_None with (cur := heap_base h) in HF. congruence.
    + intros _. split_and!; [unfold HEADER; Z.to_euclidean_division_equations; lia| |exact Hk].
      exists l, b, r. split_and!; done.
  - rewrite Hs. apply abs_malloc_None in Ea. split_and!; [|done|done]. split; auto.
Qed.

(** [kfree] on the payload of a block: a block in use is freed, merged with
    a free successor and a free predecessor, and nothing else in use changes; a
    block that is already free (a double free) is refused and nothing changes. *)
Theorem kfree_exact h l b r :
  rep h (l ++ b :: r) ->
  let '(ok, h') := kfree h (blocks_end (heap_base h) l + HEADER) in
  ok = negb (bl_free b)
  /\ (bl_free b = true -> h' = h)
  /\ (bl_free b = false ->
      rep h' (abs_free l b r)
      /\ keeps (heap_mem h) (heap_mem h') (heap_base h) (heap_base h + heap_size h) (abs_free l b r)).
Proof.
  intros Hr. destruct (bl_free b) eqn:Hb.
  - by rewrite (kfree_guards _ _ _ _ Hr), Hb.
  - destruct (kfree_spec _ _ _ _ Hr Hb) as (m' & -> & Hr' & Hk). done.
Qed.

(** [heap_validate] is exact: it returns 1 if and only if the headers in
    memory describe a list of blocks, correctly linked both ways, that tiles
    the heap without gap or overlap and has no two free neighbours. *)
Theorem heap_validate_exact h :
  geometry h -> heap_validate h = true <-> exists bs, rep h bs /\ coalesced bs = true.
Proof. apply heap_validate_iff. Qed.

(** Freeing what [kmalloc] just returned succeeds and restores the block
    list the heap had before, so allocation never fragments by itself. *)
Theorem kmalloc_kfree_roundtrip h bs n p h1 :
  rep h bs -> coalesced bs = true -> 0 <= n <= UINT64_MAX ->
  kmalloc h n = (p, h1) -> p <> 0 ->
  exists h2, kfree h1 p = (true, h2) /\ rep h2 bs.
Proof.
  intros Hr Hc Hn Hk Hp. pose proof (kmalloc_spec h bs n Hr Hn) as Hs. unfold abs_kmalloc in Hs.
  rewrite Hk in Hs. destruct (Z.eqb_spec n 0); [by injection Hs as -> _|].
  destruct (abs_malloc _ (heap_base h) bs) as [[q bs']|] eqn:Ea; [|by injection Hs as -> _].
  destruct Hs as (m' & [= <- ->] & Hr' & _).
  destruct (abs_malloc_Some _ _ _ _ _ Ea) as (l & b & r & -> & Hb & Hsz & Hl & -> & ->).
  apply coalesced_app in Hc as (_ & Hbr & Hj). simpl in Hj. rewrite Hb, andb_true_r in Hj.
  rewrite coalesced_step, Hb in Hbr. simpl in Hbr. apply andb_true_iff in Hbr as [Hh _]. apply negb_true_iff in Hh.
  assert (forall t, match rev l with
            | x :: k => if bl_free x then rev k ++ merge_next x t else l ++ t
            | [] => t end = l ++ t) as Hlast.
  { intros t. destruct (rev l) as [|x k] eqn:Er; [|by simpl in Hj; rewrite Hj].
    apply (f_equal (@rev _)) in Er. rewrite rev_involutive in Er. by subst l. }
  set (size := (n + 15) / 16 * 16) in *. destruct (size + HEADER + HEAP_ALIGNMENT <=? bl_size b) eqn:E.
  - destruct (kfree_spec _ _ _ _ Hr' eq_refl) as (m2 & Hf & Hr2 & _). eexists. split; [exact Hf|].
    unfold abs_free in Hr2. rewrite Hlast in Hr2. unfold merge_next in Hr2. cbn [bl_free bl_size] in Hr2.
    replace (size + HEADER + (bl_size b - size - HEADER)) with (bl_size b) in Hr2 by lia.
    destruct b as [sz fr]. simpl in *. by subst fr.
  - destruct (kfree_spec _ _ _ _ Hr' eq_refl) as (m2 & Hf & Hr2 & _). eexists. split; [exact Hf|].
    unfold abs_free in Hr2. rewrite Hlast in Hr2. unfold merge_next in Hr2. cbn [bl_free bl_size] in Hr2.
    destruct b as [sz fr]. simpl in *. subst fr. destruct r as [|c r]; [done|]. simpl in Hh. by rewrite Hh in Hr2.
Qed.

(** ** Histories *)

Lemma heap_exec_base op st :
  heap_base (fst (heap_exec op st)) = heap_base (fst st)
  /\ heap_size (fst (heap_exec op st)) = heap_size (fst st).
Proof.
  destruct st as [h live]. destruct op as [n|a|i offset v]; cbn [heap_exec].
  - unfold kmalloc. case_if; [done|]. by destruct (kmalloc_walk _ _ _ _).
  - assert (heap_base (snd (kfree h a)) = heap_base h /\ heap_size (snd (kfree h a)) = heap_size h) as Hk
      by (unfold kfree; by repeat case_if).
    by destruct (kfree h a).
  - destruct (live !! i) as [[p n]|]; [|done]. by case_if.
Qed.

Lemma heap_run_base ops st :
  heap_base (fst (heap_run ops st)) = heap_base (fst st)
  /\ heap_size (fst (heap_run ops st)) = heap_size (fst st).
Proof.
  unfold heap_run. revert st. induction ops as [|op ops IH]; intros st; [done|]. simpl.
  destruct (heap_exec_base op st) as [<- <-]. apply IH.
Qed.

(** Two allocations never meet. *)
Lemma owned_disjoint st bs owned i j p n q k :
  rep (fst st) bs -> owned ≡ₚ used_blocks (heap_base (fst st)) bs ->
  Forall2 (fun a o => fst a = fst o /\ 0 < snd a <= snd o) (snd st) owned ->
  i <> j -> snd st !! i = Some (p, n) -> snd st !! j = Some (q, k) -> p + n <= q \/ q + k <= p.
Proof.
  intros Hr Hp HF Hij Hi Hj. set (R := fun a o : Z * Z => fst a + snd a <= fst o \/ fst o + snd o <= fst a).
  assert (ForallOrdPairs R owned) as HR.
  { apply (pairwise_perm R (used_blocks (heap_base (fst st)) bs)); [unfold R; intros; lia|by symmetry|].
    destruct (used_blocks_sorted (heap_base (fst st)) bs (rep_wf _ _ Hr)) as [_ HF2].
    clear -HF2 R. induction HF2 as [|a l Ha _ IH]; constructor; [|done].
    eapply Forall_impl; [|exact Ha]. unfold R. auto. }
  destruct (Forall2_lookup_l _ _ _ _ _ HF Hi) as ([p' s] & Ho & Heq & Hn).
  destruct (Forall2_lookup_l _ _ _ _ _ HF Hj) as ([q' t] & Ho' & Heq' & Hn').
  simpl in *. subst p' q'. assert (R (p, s) (q, t) \/ R (q, t) (p, s)) as Hd.
  { destruct (Nat.lt_total i j) as [?|[?|?]]; [left|done|right];
      eapply (pairwise_lookup R owned); eassumption. }
  unfold R in Hd. simpl in Hd. lia.
Qed.

(** The pointers [kfree] accepts are those the client holds. *)
Lemma kfree_held st bs owned a :
  rep (fst st) bs -> owned ≡ₚ used_blocks (heap_base (fst st)) bs ->
  Forall2 (fun a o => fst a = fst o /\ 0 < snd a <= snd o) (snd st) owned -> unforged (fst st) a = true ->
  (fst (kfree (fst st) a) = true <-> a ∈ fst <$> snd st)
  /\ (~ a ∈ fst <$> snd st -> kfree (fst st) a = (false, fst st)).
Proof.
  intros Hr Hp HF Hu. destruct st as [h live]. cbn [fst snd] in *.
  assert (fst <$> live = fst <$> owned) as Hl.
  { clear -HF. induction HF as [|x o l k [Hx _] HF IH]; [done|]. by rewrite !fmap_cons, Hx, IH. }
  assert (a ∈ fst <$> live <-> a ∈ fst <$> used_blocks (heap_base h) bs) as Hin by (rewrite Hl; by rewrite Hp).
  destruct (kfree_any h bs a Hr Hu) as [(l & b & r & -> & Hb & ->)|[Hk Hn]].
  - assert (blocks_end (heap_base h) l + HEADER ∈ fst <$> live) as Ha.
    { apply Hin, list_elem_of_fmap. exists (blocks_end (heap_base h) l + HEADER, bl_size b). split; [done|].
      apply list_elem_of_In, used_blocks_in. by exists l, b, r. }
    destruct (kfree_spec h l b r Hr Hb) as (m' & -> & _). split; [done|]. intros []. exact Ha.
  - rewrite Hk. split; [|done]. rewrite Hin. done.
Qed.

(** C8: the heap is sound over its whole life.  Started on pages of the page
    allocator, after any sequence of allocations, frees and writes inside held
    allocations: [heap_validate] returns 1, the free bytes, the used bytes and
    the headers add up to the heap, the allocations held are 16-byte aligned, lie
    in the heap's pages and are pairwise disjoint, and [kfree] accepts exactly
    the pointers held.  The frees are of any address, double frees and invalid
    pointers among them, as long as the bytes in front of the address do not
    forge the magic word of a header where no block begins ([unforged]). *)
Theorem heap_history_sound {S} `{PageAllocatorLaws S} (pa pa' : S) h0 pages h ops :
  pa_ok pa -> 0 <= pages -> heap_init pa h0 pages = (true, pa', h) -> heap_ops_wf ops (h, []) ->
  let '(h', live) := heap_run ops (h, []) in
  heap_validate h' = true
  /\ (exists blocks, 1 <= blocks
        /\ heap_free_bytes h' + heap_used_bytes h' + HEADER * blocks = pages * ARGUS_PAGE_SIZE)
  /\ page_run (heap_base h / ARGUS_PAGE_SIZE) pages ⊆ pa_live pa'
  /\ (forall i p n, live !! i = Some (p, n) -> p mod 16 = 0 /\ 0 < n
        /\ heap_base h < p /\ p + n <= heap_base h + pages * ARGUS_PAGE_SIZE)
  /\ (forall i j p n q k, i <> j -> live !! i = Some (p, n) -> live !! j = Some (q, k) ->
        p + n <= q \/ q + k <= p)
  /\ (forall a, unforged h' a = true ->
        (fst (kfree h' a) = true <-> a ∈ fst <$> live) /\ (~ a ∈ fst <$> live -> kfree h' a = (false, h'))).
Proof.
  intros Hok Hp Hi Hops. pose proof (heap_init_spec pa h0 pages Hok Hp) as Hs. rewrite Hi in Hs.
  destruct Hs as [(? & _)|(_ & Hp0 & Hr & Hsz & Hal & Hok' & Hl & Hd)]; [done|].
  assert (client_ok (h, [])) as Hc by (eexists _, []; split_and!; [exact Hr|done|done|constructor]).
  pose proof (client_run ops _ Hc Hops) as (bs & owned & Hr' & Hco & Hperm & HF).
  destruct (heap_run_base ops (h, [])) as [Hb Hs]. simpl in Hb, Hs.
  destruct (heap_run ops (h, [])) as [h' live]. simpl in *. unfold ARGUS_PAGE_SIZE.
  split_and!.
  - apply heap_validate_iff; [by eapply rep_geometry|]. eauto.
  - exists (Z.of_nat (length bs)). destruct (heap_bytes_spec h' bs Hr') as [-> ->].
    pose proof (rep_end _ _ Hr') as He. rewrite blocks_end_sum in He.
    pose proof (rep_some _ _ Hr'). destruct bs as [|b bs]; [done|]. cbn [length] in *. lia.
  - rewrite Hl. set_solver.
  - intros i p n Hlk. destruct (owned_block (h', live) bs owned i p n Hperm HF Hlk)
      as (s & l & b & r & _ & Hn & -> & _ & -> & ->). simpl in *.
    pose proof (rep_place _ _ _ _ Hr') as (H1 & H2 & H3 & H4). unfold HEADER in *.
    split_and!; try lia. Z.to_euclidean_division_equations. lia.
  - intros i j p n q k Hij H1 H2. by apply (owned_disjoint (h', live) bs owned i j).
  - intros a Ha. by apply (kfree_held (h', live) bs owned).
Qed.

(** Allocations are isolated.  In any state of such a history, an operation
    leaves every byte of every allocation as it was, unless it frees that
    allocation or stores to that very byte. *)
Theorem heap_op_isolated st op j p n offset :
  client_ok st -> heap_op_wf (fst st) op -> snd st !! j = Some (p, n) -> 0 <= offset < n ->
  op <> HeapFree p -> (forall v, op <> HeapStore j offset v) ->
  mem_get (heap_mem (fst (heap_exec op st))) (p + offset) = mem_get (heap_mem (fst st)) (p + offset).
Proof.
  intros (bs & owned & Hr & Hc & Hp & HF) Hop Hj Hoff Hnf Hns. destruct st as [h live]. simpl in *.
  destruct (owned_block (h, live) bs owned j p n Hp HF Hj) as (s & l & b & r & Ho & Hn & Hbs & Hb & Hpe & Hs).
  assert (In (p, s) (used_blocks (heap_base h) bs)) as Hin
    by (apply used_blocks_in; exists l, b, r; done).
  destruct op as [req|a|i off v]; cbn [heap_exec].
  - pose proof (kmalloc_spec h bs req Hr Hop) as Hm. destruct (abs_kmalloc _ _ _) as [[q bs']|].
    + destruct Hm as (m' & -> & _ & Hk). simpl. apply Hk. right. right. eapply used_live; [done|lia].
    + by rewrite Hm.
  - destruct (kfree_any h bs a Hr Hop) as [(l' & b' & r' & -> & Hb' & ->)|[Hk' _]]; [|by rewrite Hk'].
    destruct (kfree_spec h l' b' r' Hr Hb') as (m' & Hk' & _ & Hk). rewrite Hk'. simpl.
    apply Hk. right. right. apply (used_live _ _ p s); [|lia].
    eapply Permutation_in in Hin; [|apply (abs_free_used _ _ _ _ Hb')].
    destruct Hin as [Heq|?]; [|done]. injection Heq as Heq _. by rewrite Heq in Hnf.
  - destruct (live !! i) as [[q k]|] eqn:Hi; [|done]. case_if; [|done]. b2p. simpl.
    apply mem_get_set_ne. destruct (decide (i = j)) as [->|Hij].
    + intros Heq. simplify_eq. apply (Hns v). f_equal. lia.
    + destruct (owned_disjoint (h, live) _ owned i j _ _ _ _ Hr Hp HF Hij Hi Hj); simpl in *; lia.
Qed.

(** ** Witnesses: a heap of sixteen pages on the sample machine of Pmm.v *)

Definition heap0 : heap_state := mk_heap 0 0 0 ∅.
Definition sample_init := heap_init sample_pmm heap0 16.
Definition sample_heap : heap_state := snd sample_init.

Example sample_heap_starts :
  fst (fst sample_init) = true /\ heap_base sample_heap = 0x100000
  /\ fst (heap_self_test sample_heap) = true.
Proof. vm_compute. auto. Qed.

Lemma sample_rep : rep sample_heap [mk_block 65504 true].
Proof.
  pose proof (heap_init_spec sample_pmm heap0 16 sample_pmm_ok ltac:(lia)) as H.
  assert (fst (fst sample_init) = true) as Ht by (vm_compute; reflexivity).
  unfold sample_heap, sample_init in *. destruct (heap_init sample_pmm heap0 16) as [[ok pa] h].
  simpl in Ht. subst ok. destruct H as [(? & _)|(_ & _ & Hr & _)]; [done|]. exact Hr.
Qed.

Lemma sample_geometry : geometry sample_heap.
Proof. eapply rep_geometry, sample_rep. Qed.

Lemma kmalloc_first_fit_witness :
  fst (kmalloc sample_heap 100) <> 0
  /\ fst (kmalloc sample_heap 100) mod 16 = 0.
Proof.
  assert (fst (kmalloc sample_heap 100) <> 0) as Hne by (vm_compute; discriminate).
  split; [exact Hne|].
  pose proof (kmalloc_first_fit sample_heap _ 100 sample_rep ltac:(unfold UINT64_MAX; lia)) as H.
  cbv zeta in H. destruct (kmalloc sample_heap 100) as [p h]. destruct H as (_ & _ & H).
  apply (H Hne).
Defined.

Lemma kfree_exact_witness :
  fst (kfree sample_heap (blocks_end (heap_base sample_heap) [] + HEADER)) = false.
Proof.
  pose proof (kfree_exact sample_heap [] (mk_block 65504 true) [] sample_rep) as H.
  destruct (kfree sample_heap _) as [ok h]. destruct H as [H _]. exact H.
Defined.

Lemma heap_validate_exact_witness : heap_validate sample_heap = true.
Proof.
  apply (heap_validate_exact sample_heap sample_geometry).
  exists [mk_block 65504 true]. split; [apply sample_rep|reflexivity].
Defined.

Lemma kmalloc_kfree_roundtrip_witness :
  exists h2, kfree (snd (kmalloc sample_heap 100)) 0x100020 = (true, h2)
    /\ rep h2 [mk_block 65504 true].
Proof.
  apply (kmalloc_kfree_roundtrip sample_heap _ 100 0x100020 (snd (kmalloc sample_heap 100)) sample_rep).
  - reflexivity.
  - unfold UINT64_MAX. lia.
  - assert (fst (kmalloc sample_heap 100) = 0x100020) as Ha by (vm_compute; reflexivity).
    destruct (kmalloc sample_heap 100) as [p h]. simpl in *. by subst p.
  - lia.
Defined.

(** Two allocations, a write that stops one byte short of the next header, a
    free, the same free again, a free inside an allocation and one far away. *)
Definition sample_ops : list heap_op :=
  [HeapMalloc 100; HeapMalloc 40; HeapStore 1 39 7; HeapFree 0x100020; HeapFree 0x100020;
   HeapFree 0x1000C0; HeapFree 64].

Lemma sample_ops_wf : heap_ops_wf sample_ops (sample_heap, []).
Proof. unfold UINT64_MAX. vm_compute. intuition congruence. Qed.

Lemma heap_history_sound_witness :
  heap_validate (fst (heap_run sample_ops (sample_heap, []))) = true
  /\ kfree (fst (heap_run sample_ops (sample_heap, []))) 0x100020 = (false, fst (heap_run sample_ops (sample_heap, []))).
Proof.
  assert (heap_init sample_pmm heap0 16 = (true, snd (fst sample_init), sample_heap)) as Hi.
  { assert (fst (fst sample_init) = true) as Ht by (vm_compute; reflexivity).
    unfold sample_heap, sample_init in *. destruct (heap_init sample_pmm heap0 16) as [[ok pa] h].
    simpl in *. by subst ok. }
  pose proof (heap_history_sound sample_pmm (snd (fst sample_init)) heap0 16 sample_heap sample_ops
                sample_pmm_ok ltac:(lia) Hi sample_ops_wf) as H.
  assert (unforged (fst (heap_run sample_ops (sample_heap, []))) 0x100020 = true) as Hu by (vm_compute; reflexivity).
  assert (fst <$> snd (heap_run sample_ops (sample_heap, [])) = [0x1000B0]) as Hl by (vm_compute; reflexivity).
  destruct (heap_run _ _) as [h live]. cbn [fst snd] in *. destruct H as (H1 & _ & _ & _ & _ & H2).
  split; [exact H1|]. apply H2; [exact Hu|]. rewrite Hl. intros Hin%list_elem_of_singleton. discriminate Hin.
Defined.

Lemma heap_op_isolated_witness :
  mem_get (heap_mem (fst (heap_exec (HeapMalloc 40) (heap_exec (HeapMalloc 100) (sample_heap, []))))) (0x100020 + 99)
  = mem_get (heap_mem (fst (heap_exec (HeapMalloc 100) (sample_heap, [])))) (0x100020 + 99).
Proof.
  apply (heap_op_isolated (heap_exec (HeapMalloc 100) (sample_heap, [])) (HeapMalloc 40) 0 0x100020 100 99).
  - apply client_exec; [|simpl; unfold UINT64_MAX; lia].
    eexists _, []. split_and!; [exact sample_rep|reflexivity|done|constructor].
  - simpl. unfold UINT64_MAX. lia.
  - vm_compute. reflexivity.
  - lia.
  - discriminate.
  - discriminate.
Defined.
