(* ===== verification/Paging.v ===== *)
(** * Page tables (src/paging.c, src/paging.h)

    Four-level x86-64 tables live in physical memory, in pages taken from the
    page allocator; an entry is a 64-bit load or store in a table page.  The
    kernel space maps physical memory one to one with large pages; a user space
    copies the kernel's root and adds 4 KiB pages under one root slot.  The model
    is written against the allocator's interface; the registers the assembly
    helpers set (CR3, the NX and write-protect bits) are fields of the machine,
    and [cpu_has_nx] is a parameter. *)

From stdpp Require Import base list gmap numbers.
From Stdlib Require Import ZArith Lia.
From S2P Require Import Prelude Memory BootInfo Allocator Pmm.

Open Scope Z_scope.

Definition PAGE_PRESENT : Z := 1.
Definition PAGE_WRITABLE : Z := 2.
Definition PAGE_USER : Z := 4.
Definition PAGE_PWT : Z := 8.
Definition PAGE_PCD : Z := 16.
Definition PAGE_LARGE : Z := 128.
Definition PAGE_NX : Z := 2 ^ 63.
Definition PAGE_ADDRESS_MASK : Z := 0x000FFFFFFFFFF000.
Definition LARGE_ADDRESS_MASK : Z := 0x000FFFFFFFE00000.
Definition LARGE_PAGE_SIZE : Z := 0x200000.
Definition ARGUS_USER_TABLE_MAX_PAGES : Z := 16.
Definition ARGUS_USER_BASE : Z := 0x0000008000000000.

(** [~x] in 64 bits. *)
Definition not64 (x : Z) : Z := UINT64_MAX - x.

Record acpi_info_t := mk_acpi {
  acpi_local_apic_address : Z;
  acpi_io_apic_address : Z;
  acpi_io_apic_gsi_base : Z;
  acpi_keyboard_gsi : Z;
  acpi_mouse_gsi : Z;
  acpi_enabled_cpu_count : Z;
  acpi_interrupt_override_count : Z;
  acpi_madt_flags : Z;
  acpi_keyboard_flags : Z;
  acpi_mouse_flags : Z }.

Record paging_info_t := mk_paging {
  pi_root_table : Z;
  pi_mapped_bytes : Z;
  pi_table_pages : Z;
  pi_stack_guard_page : Z;
  pi_nx_enabled : bool }.

Record paging_user_space_t := mk_space {
  us_root_table : Z;
  us_user_base : Z;
  us_table_pages : list Z;
  us_table_page_count : Z;
  us_nx_enabled : bool }.

Definition space0 : paging_user_space_t := mk_space 0 0 (replicate 16 0) 0 false.

(** Physical memory, the page allocator, the module's [table_pages] counter and
    the control registers. *)
Record machine (S : Type) := mk_machine {
  mc_pa : S;
  mc_mem : mem;
  mc_table_pages : Z;
  mc_cr3 : Z;
  mc_nx : bool;
  mc_write_protect : bool }.
Arguments mk_machine {S}.
Arguments mc_pa {S}.
Arguments mc_mem {S}.
Arguments mc_table_pages {S}.
Arguments mc_cr3 {S}.
Arguments mc_nx {S}.
Arguments mc_write_protect {S}.

(** [table[index]] *)
Definition entry (m : mem) (table index : Z) : Z := load64 m (table + 8 * index).
Definition set_entry (m : mem) (table index v : Z) : mem := store64 m (table + 8 * index) v.

Definition zero_page (m : mem) (address : Z) : mem :=
  for_range 0 512 (fun i m => set_entry m address i 0) m.

Definition has (e flag : Z) : bool := nz (e & flag).
Definition table_of (e : Z) : Z := e & PAGE_ADDRESS_MASK.

Definition pml4_index (a : Z) : Z := (a >> 39) & 0x1FF.
Definition pdpt_index (a : Z) : Z := (a >> 30) & 0x1FF.
Definition pd_index (a : Z) : Z := (a >> 21) & 0x1FF.
Definition pt_index (a : Z) : Z := (a >> 12) & 0x1FF.

Definition overlaps (base size other_base other_size : Z) : bool :=
  if negb (nz size) || negb (nz other_size) then false
  else
    let finish := if UINT64_MAX - size <? base then UINT64_MAX else base + size in
    let other_end := if UINT64_MAX - other_size <? other_base then UINT64_MAX
                     else other_base + other_size in
    (base <? other_end) && (other_base <? finish).

Definition range_is_mmio (boot_info : boot_info_t) (acpi : acpi_info_t) (base : Z) : bool :=
  overlaps base LARGE_PAGE_SIZE (fb_base (bi_framebuffer boot_info)) (fb_size (bi_framebuffer boot_info))
  || overlaps base LARGE_PAGE_SIZE (acpi_local_apic_address acpi) ARGUS_PAGE_SIZE
  || overlaps base LARGE_PAGE_SIZE (acpi_io_apic_address acpi) ARGUS_PAGE_SIZE
  || existsb (fun d =>
       (md_type d =? EfiMemoryMappedIO) &&
       (md_number_of_pages d <=? UINT64_MAX / ARGUS_PAGE_SIZE) &&
       overlaps base LARGE_PAGE_SIZE (md_physical_start d)
         (u64 (md_number_of_pages d * ARGUS_PAGE_SIZE)))
       (map_descriptors (bi_memory_map boot_info)).

Definition range_end (range : physical_range_t) : Z :=
  if UINT64_MAX - range_size range <? range_base range then UINT64_MAX
  else range_base range + range_size range.

Section operations.
Context {S : Type} `{PageAllocator S}.
Implicit Types mc : machine S.

Definition with_memory mc (m : mem) : machine S :=
  mk_machine (mc_pa mc) m (mc_table_pages mc) (mc_cr3 mc) (mc_nx mc) (mc_write_protect mc).
Definition with_pa mc (pa : S) : machine S :=
  mk_machine pa (mc_mem mc) (mc_table_pages mc) (mc_cr3 mc) (mc_nx mc) (mc_write_protect mc).
Definition load_cr3 mc (root : Z) : machine S :=
  mk_machine (mc_pa mc) (mc_mem mc) (mc_table_pages mc) root (mc_nx mc) (mc_write_protect mc).
Definition with_table_pages mc (n : Z) : machine S :=
  mk_machine (mc_pa mc) (mc_mem mc) n (mc_cr3 mc) (mc_nx mc) (mc_write_protect mc).

(** ** Kernel space *)

Definition allocate_table mc : Z * machine S :=
  let '(address, pa) := pa_alloc (mc_pa mc) 1 in
  let mc := with_pa mc pa in
  if address =? 0 then (0, mc)
  else (address, with_table_pages (with_memory mc (zero_page (mc_mem mc) address))
                   (u64 (mc_table_pages mc + 1))).

(** [if (!(table[index] & PAGE_PRESENT)) { allocate; link }]; [false] is the
    [return 0] when no page is left. *)
Definition ensure_kernel mc (table index : Z) : bool * machine S :=
  if has (entry (mc_mem mc) table index) PAGE_PRESENT then (true, mc)
  else
    let '(address, mc) := allocate_table mc in
    if address =? 0 then (false, mc)
    else (true, with_memory mc (set_entry (mc_mem mc) table index
                  (Z.lor (Z.lor address PAGE_PRESENT) PAGE_WRITABLE))).

Definition map_large_page mc (root physical flags : Z) : bool * machine S :=
  let '(ok, mc) := ensure_kernel mc root (pml4_index physical) in
  if negb ok then (false, mc) else
  let pdpt := table_of (entry (mc_mem mc) root (pml4_index physical)) in
  let '(ok, mc) := ensure_kernel mc pdpt (pdpt_index physical) in
  if negb ok then (false, mc) else
  let pd := table_of (entry (mc_mem mc) pdpt (pdpt_index physical)) in
  (true, with_memory mc (set_entry (mc_mem mc) pd (pd_index physical)
     (Z.lor (Z.lor (Z.lor (Z.lor physical flags) PAGE_PRESENT) PAGE_WRITABLE) PAGE_LARGE))).

(** [for (i < 512) pt[i] = (large_base + i * ARGUS_PAGE_SIZE) | leaf_flags] *)
Definition fill_table (m : mem) (pt large_base leaf_flags : Z) : mem :=
  for_range 0 512 (fun i m =>
    set_entry m pt i (Z.lor (u64 (large_base + i * ARGUS_PAGE_SIZE)) leaf_flags)) m.

Definition unmap_4k_page mc (root physical : Z) : bool * machine S :=
  let m := mc_mem mc in
  let e4 := entry m root (pml4_index physical) in
  if negb (has e4 PAGE_PRESENT) then (false, mc)
  else
    let e3 := entry m (table_of e4) (pdpt_index physical) in
    if negb (has e3 PAGE_PRESENT) then (false, mc)
    else
      let pd := table_of e3 in
      let e2 := entry m pd (pd_index physical) in
      if negb (has e2 PAGE_PRESENT) then (false, mc)
      else if has e2 PAGE_LARGE then
        let large_base := e2 & LARGE_ADDRESS_MASK in
        let leaf_flags := (e2 & not64 PAGE_ADDRESS_MASK) & not64 PAGE_LARGE in
        let '(pt, mc) := allocate_table mc in
        if pt =? 0 then (false, mc)
        else
          let m := fill_table (mc_mem mc) pt large_base leaf_flags in
          let m := set_entry m pd (pd_index physical) (Z.lor (Z.lor pt PAGE_PRESENT) PAGE_WRITABLE) in
          (true, with_memory mc (set_entry m pt (pt_index physical) 0))
      else (true, with_memory mc (set_entry m (table_of e2) (pt_index physical) 0)).

(** The highest address the kernel must reach, rounded to large pages; 0 when
    [paging_init] refuses it. *)
Definition paging_maximum (boot_info : boot_info_t) (acpi : acpi_info_t) : Z :=
  let fb := bi_framebuffer boot_info in
  let candidates :=
    [range_end (bi_kernel_image boot_info); range_end (bi_boot_info_storage boot_info);
     range_end (bi_kernel_stack boot_info); range_end (bi_pmm_bitmap_storage boot_info);
     range_end (bi_memory_map_storage boot_info);
     range_end (mk_range (fb_base fb) (fb_size fb));
     u64 (acpi_local_apic_address acpi + ARGUS_PAGE_SIZE);
     u64 (acpi_io_apic_address acpi + ARGUS_PAGE_SIZE)] in
  let maximum := fold_left (fun maximum c => if maximum <? c then c else maximum) candidates
                   (u64 (bi_pmm_page_count boot_info * ARGUS_PAGE_SIZE)) in
  if negb (nz maximum) || (1 << 47 <? maximum) then 0
  else if UINT64_MAX - (LARGE_PAGE_SIZE - 1) <? maximum then 0
  else u64 (u64 (maximum + LARGE_PAGE_SIZE) - 1) & not64 (LARGE_PAGE_SIZE - 1).

Definition map_flags (boot_info : boot_info_t) (acpi : acpi_info_t) (nx : bool) (address : Z) : Z :=
  let image := bi_kernel_image boot_info in
  Z.lor
    (if nx && negb (overlaps address LARGE_PAGE_SIZE (range_base image) (range_size image))
     then PAGE_NX else 0)
    (if range_is_mmio boot_info acpi address then Z.lor PAGE_PCD PAGE_PWT else 0).

(** The loop over the large pages, with its early [return 0]. *)
Fixpoint map_all (boot_info : boot_info_t) (acpi : acpi_info_t) (nx : bool) (root : Z)
  (addresses : list Z) mc : bool * machine S :=
  match addresses with
  | [] => (true, mc)
  | address :: rest =>
      match map_large_page mc root address (map_flags boot_info acpi nx address) with
      | (true, mc) => map_all boot_info acpi nx root rest mc
      | (false, mc) => (false, mc)
      end
  end.

Definition stack_guard_rejected (boot_info : boot_info_t) : bool :=
  let stack := bi_kernel_stack boot_info in
  let guard := bi_kernel_stack_guard boot_info in
  (range_size stack <? 2 * ARGUS_PAGE_SIZE) || (range_base guard !=? range_base stack) ||
  (range_size guard !=? ARGUS_PAGE_SIZE) || nz (range_base guard & (ARGUS_PAGE_SIZE - 1)) ||
  negb (overlaps (range_base stack) (range_size stack) (range_base guard) (range_size guard)).

Definition paging_init (has_nx : bool) mc (boot_info : boot_info_t) (acpi : acpi_info_t)
  : option paging_info_t * machine S :=
  if stack_guard_rejected boot_info then (None, mc)
  else
    let maximum := paging_maximum boot_info acpi in
    if maximum =? 0 then (None, mc)
    else
      let '(root, mc) := allocate_table (with_table_pages mc 0) in
      if root =? 0 then (None, mc)
      else
        let addresses := map (fun i => i * LARGE_PAGE_SIZE)
                           (zrange 0 (Z.to_nat (maximum / LARGE_PAGE_SIZE))) in
        match map_all boot_info acpi has_nx root addresses mc with
        | (false, mc) => (None, mc)
        | (true, mc) =>
            let guard := range_base (bi_kernel_stack_guard boot_info) in
            match unmap_4k_page mc root guard with
            | (false, mc) => (None, mc)
            | (true, mc) =>
                let mc := mk_machine (mc_pa mc) (mc_mem mc) (mc_table_pages mc) root
                            (mc_nx mc || has_nx) true in
                (Some (mk_paging root maximum (mc_table_pages mc) guard has_nx), mc)
            end
        end.

Definition mark_mmio_rejected (paging_info : paging_info_t) (physical size : Z) : bool :=
  negb (nz (pi_root_table paging_info)) || negb (nz size) ||
  (pi_mapped_bytes paging_info <=? physical) ||
  (UINT64_MAX - physical <? u64 (size - 1)) ||
  (pi_mapped_bytes paging_info <? u64 (physical + size)).

(** One iteration of [paging_mark_mmio]: [None] is its [return 0]. *)
Definition mark_large (m : mem) (root address : Z) : option mem :=
  let e4 := entry m root (pml4_index address) in
  if negb (has e4 PAGE_PRESENT) then None
  else
    let e3 := entry m (table_of e4) (pdpt_index address) in
    if negb (has e3 PAGE_PRESENT) then None
    else
      let pd := table_of e3 in
      let e2 := entry m pd (pd_index address) in
      if negb (has e2 PAGE_PRESENT) then None
      else if has e2 PAGE_LARGE then
        Some (set_entry m pd (pd_index address) (Z.lor e2 (Z.lor PAGE_PCD PAGE_PWT)))
      else
        let pt := table_of e2 in
        Some (for_range 0 512 (fun i m =>
          if has (entry m pt i) PAGE_PRESENT
          then set_entry m pt i (Z.lor (entry m pt i) (Z.lor PAGE_PCD PAGE_PWT)) else m) m).

Fixpoint mark_from (count : nat) (m : mem) (root address : Z) : bool * mem :=
  match count with
  | O => (true, m)
  | Datatypes.S c =>
      match mark_large m root address with
      | None => (false, m)
      | Some m => mark_from c m root (u64 (address + LARGE_PAGE_SIZE))
      end
  end.

Definition paging_mark_mmio mc (paging_info : option paging_info_t) (physical size : Z)
  : bool * machine S :=
  match paging_info with
  | None => (false, mc)
  | Some info =>
      if mark_mmio_rejected info physical size then (false, mc)
      else
        let first := physical & not64 (LARGE_PAGE_SIZE - 1) in
        let last := u64 (u64 (physical + size) - 1) & not64 (LARGE_PAGE_SIZE - 1) in
        let '(ok, m) := mark_from (Z.to_nat ((last - first) / LARGE_PAGE_SIZE + 1)) (mc_mem mc)
                          (pi_root_table info) first in
        if ok then (true, load_cr3 (with_memory mc m) (pi_root_table info))
        else (false, with_memory mc m)
  end.

(** ** User spaces *)

Definition add_table (u : paging_user_space_t) (address : Z) : paging_user_space_t :=
  mk_space (us_root_table u) (us_user_base u)
    (zset (us_table_pages u) (us_table_page_count u) address)
    (u32 (us_table_page_count u + 1)) (us_nx_enabled u).

Definition allocate_user_table mc (u : paging_user_space_t)
  : Z * paging_user_space_t * machine S :=
  if ARGUS_USER_TABLE_MAX_PAGES <=? us_table_page_count u then (0, u, mc)
  else
    let '(address, pa) := pa_alloc (mc_pa mc) 1 in
    let mc := with_pa mc pa in
    if address =? 0 then (0, u, mc)
    else (address, add_table u address, with_memory mc (zero_page (mc_mem mc) address)).

(** [pmm_free_page] on every table page, last first. *)
Definition release_pages (pa : S) (addresses : list Z) : S :=
  fold_left (fun pa a => snd (pa_release pa a 1)) addresses pa.

Definition paging_user_space_destroy mc (u : paging_user_space_t)
  : paging_user_space_t * machine S :=
  let pages := map (fun i => zget 0 (us_table_pages u) i)
                 (zrange 0 (Z.to_nat (us_table_page_count u))) in
  (space0, with_pa mc (release_pages (mc_pa mc) (rev pages))).

(** [for (index < 512) destination[index] = source[index]] *)
Definition copy_table (m : mem) (destination source : Z) : mem :=
  for_range 0 512 (fun i m => set_entry m destination i (entry m source i)) m.

Definition paging_user_space_create mc (kernel_space : option paging_info_t)
  (user_space : option paging_user_space_t)
  : bool * option paging_user_space_t * machine S :=
  match kernel_space, user_space with
  | Some k, Some _ =>
      if negb (nz (pi_root_table k)) then (false, user_space, mc)
      else
        let u := mk_space 0 0 (replicate 16 0) 0 (pi_nx_enabled k) in
        let '(root, u, mc) := allocate_user_table mc u in
        if root =? 0 then (false, Some u, mc)
        else
          let mc := with_memory mc (copy_table (mc_mem mc) root (pi_root_table k)) in
          if has (entry (mc_mem mc) root (ARGUS_USER_BASE >> 39)) PAGE_PRESENT then
            let '(u, mc) := paging_user_space_destroy mc u in (false, Some u, mc)
          else (true, Some (mk_space root ARGUS_USER_BASE (us_table_pages u)
                              (us_table_page_count u) (us_nx_enabled u)), mc)
  | _, _ => (false, user_space, mc)
  end.

(** The block that descends one level, allocating the next table when the
    entry is not present; [false] is its [return 0]. *)
Definition ensure_user mc (u : paging_user_space_t) (table index : Z)
  : bool * paging_user_space_t * machine S :=
  if has (entry (mc_mem mc) table index) PAGE_PRESENT then (true, u, mc)
  else
    let '(address, u, mc) := allocate_user_table mc u in
    if address =? 0 then (false, u, mc)
    else (true, u, with_memory mc (set_entry (mc_mem mc) table index
            (Z.lor (Z.lor (Z.lor address PAGE_PRESENT) PAGE_WRITABLE) PAGE_USER))).

Definition leaf_flags (nx_enabled writable executable : bool) : Z :=
  let flags := Z.lor PAGE_PRESENT PAGE_USER in
  let flags := if writable then Z.lor flags PAGE_WRITABLE else flags in
  if negb executable && nx_enabled then Z.lor flags PAGE_NX else flags.

Definition map_page_rejected (u : paging_user_space_t) (va pa : Z) : bool :=
  negb (nz (us_root_table u)) || nz (va & (ARGUS_PAGE_SIZE - 1)) ||
  nz (pa & (ARGUS_PAGE_SIZE - 1)) || (va <? us_user_base u) ||
  (u64 (us_user_base u + (1 << 39)) <=? va).

Definition paging_user_map_page mc (u : paging_user_space_t) (virtual_address physical_address : Z)
  (writable executable : bool) : bool * paging_user_space_t * machine S :=
  if map_page_rejected u virtual_address physical_address then (false, u, mc)
  else
    let pml4 := us_root_table u in
    let i4 := pml4_index virtual_address in
    let '(ok, u, mc) := ensure_user mc u pml4 i4 in
    if negb ok then (false, u, mc) else
    let e4 := entry (mc_mem mc) pml4 i4 in
    if negb (has e4 PAGE_USER) then (false, u, mc) else
    let pdpt := table_of e4 in
    let i3 := pdpt_index virtual_address in
    let '(ok, u, mc) := ensure_user mc u pdpt i3 in
    if negb ok then (false, u, mc) else
    let e3 := entry (mc_mem mc) pdpt i3 in
    if negb (has e3 PAGE_USER) || has e3 PAGE_LARGE then (false, u, mc) else
    let pd := table_of e3 in
    let i2 := pd_index virtual_address in
    let '(ok, u, mc) := ensure_user mc u pd i2 in
    if negb ok then (false, u, mc) else
    let e2 := entry (mc_mem mc) pd i2 in
    if negb (has e2 PAGE_USER) || has e2 PAGE_LARGE then (false, u, mc) else
    let pt := table_of e2 in
    let i1 := pt_index virtual_address in
    if has (entry (mc_mem mc) pt i1) PAGE_PRESENT then (false, u, mc)
    else (true, u, with_memory mc (set_entry (mc_mem mc) pt i1
            (Z.lor physical_address (leaf_flags (us_nx_enabled u) writable executable)))).

(** The physical address and the entry flags, or [None] for [return 0]. *)
Definition paging_user_translate (m : mem) (u : option paging_user_space_t) (virtual_address : Z)
  : option (Z * Z) :=
  match u with
  | None => None
  | Some u =>
      if negb (nz (us_root_table u)) then None
      else
        let e4 := entry m (us_root_table u) (pml4_index virtual_address) in
        if negb (has e4 PAGE_PRESENT) || negb (has e4 PAGE_USER) then None
        else
          let e3 := entry m (table_of e4) (pdpt_index virtual_address) in
          if negb (has e3 PAGE_PRESENT) || negb (has e3 PAGE_USER) || has e3 PAGE_LARGE then None
          else
            let e2 := entry m (table_of e3) (pd_index virtual_address) in
            if negb (has e2 PAGE_PRESENT) || negb (has e2 PAGE_USER) || has e2 PAGE_LARGE then None
            else
              let e1 := entry m (table_of e2) (pt_index virtual_address) in
              if negb (has e1 PAGE_PRESENT) || negb (has e1 PAGE_USER) then None
              else Some (Z.lor (table_of e1) (virtual_address & (ARGUS_PAGE_SIZE - 1)),
                         e1 & not64 PAGE_ADDRESS_MASK)
  end.

Definition paging_user_activate mc (u : option paging_user_space_t) : machine S :=
  match u with
  | Some u => if nz (us_root_table u) then load_cr3 mc (us_root_table u) else mc
  | None => mc
  end.

Definition paging_kernel_activate mc (k : option paging_info_t) : machine S :=
  match k with
  | Some k => if nz (pi_root_table k) then load_cr3 mc (pi_root_table k) else mc
  | None => mc
  end.
End operations.

#[global] Arguments entry : simpl never.
#[global] Arguments set_entry : simpl never.
#[global] Arguments zero_page : simpl never.
#[global] Arguments has : simpl never.
#[global] Arguments release_pages : simpl never.
#[global] Arguments table_of : simpl never.

(** ** Table pages as arrays of entries *)

(** A page-aligned address that an entry can hold. *)
Definition frame (t : Z) : Prop := t mod 4096 = 0 /\ 0 < t < 2 ^ 52.

Lemma entry_range m t i : 0 <= entry m t i <= UINT64_MAX.
Proof. apply load64_range. Qed.

Lemma frames_apart t t' i j :
  t mod 4096 = 0 -> t' mod 4096 = 0 -> 0 <= i < 512 -> 0 <= j < 512 ->
  t <> t' \/ i <> j -> t + 8 * i + 8 <= t' + 8 * j \/ t' + 8 * j + 8 <= t + 8 * i.
Proof. intros. Z.to_euclidean_division_equations. lia. Qed.

Lemma entry_set m t i v t' j :
  t mod 4096 = 0 -> t' mod 4096 = 0 -> 0 <= i < 512 -> 0 <= j < 512 -> 0 <= v <= UINT64_MAX ->
  entry (set_entry m t i v) t' j = if (t =? t') && (i =? j) then v else entry m t' j.
Proof.
  intros Ht Ht' Hi Hj Hv. unfold entry, set_entry.
  destruct (Z.eqb_spec t t') as [->|Hne]; [destruct (Z.eqb_spec i j) as [->|Hne]|]; cbn [andb].
  - by apply load64_store64.
  - apply mem_load_store_ne. simpl Z.of_nat. lia.
  - apply mem_load_store_ne. simpl Z.of_nat.
    destruct (frames_apart t t' i j) as [?|?]; auto; lia.
Qed.

(** A store to an entry touches only its page. *)
Lemma set_entry_get m t i v x :
  t mod 4096 = 0 -> 0 <= i < 512 -> x / 4096 <> t / 4096 ->
  mem_get (set_entry m t i v) x = mem_get m x.
Proof.
  intros Ht Hi Hx. apply mem_get_store_ne. simpl Z.of_nat. Z.to_euclidean_division_equations. lia.
Qed.

Lemma zero_page_entry m t t' j :
  t mod 4096 = 0 -> t' mod 4096 = 0 -> 0 <= j < 512 ->
  entry (zero_page m t) t' j = if t =? t' then 0 else entry m t' j.
Proof.
  intros Ht Ht' Hj. unfold zero_page. set (body := fun _ _ => _).
  pose (I := fun i m' => entry m' t' j = if (t =? t') && (j <? i) then 0 else entry m t' j).
  assert (I 512 (for_range 0 512 body m)) as HI.
  { apply for_range_inv; [lia| |].
    - unfold I. destruct (Z.ltb_spec j 0); [lia|]. by rewrite andb_false_r.
    - intros i m' Hi Hm. unfold I, body in *.
      rewrite entry_set by (unfold UINT64_MAX; (done || lia)). rewrite Hm.
      destruct (t =? t'); [|done]. cbn [andb].
      destruct (Z.eqb_spec i j), (Z.ltb_spec j i), (Z.ltb_spec j (i + 1)); try done; lia. }
  unfold I in HI. rewrite HI. destruct (Z.ltb_spec j 512); [|lia]. by rewrite andb_true_r.
Qed.

Lemma zero_page_get m t x :
  t mod 4096 = 0 -> x / 4096 <> t / 4096 -> mem_get (zero_page m t) x = mem_get m x.
Proof.
  intros Ht Hx. unfold zero_page.
  apply (for_range_inv (fun _ m' => mem_get m' x = mem_get m x)); [lia|done|].
  intros i m' Hi Hm. by rewrite set_entry_get.
Qed.

#[global] Opaque zero_page.

(** ** Entry bits *)

Lemma table_of_eq e : table_of e = e mod 2 ^ 52 / 4096 * 4096.
Proof.
  unfold table_of. change PAGE_ADDRESS_MASK with (2 ^ 52 - 2 ^ 12). by rewrite land_field.
Qed.

(** A frame with low flag bits. *)
Lemma frame_lor t f : t mod 4096 = 0 -> 0 <= f < 4096 -> Z.lor t f = t + f.
Proof.
  intros Ht Hf. replace t with ((t / 4096) << 12) at 1.
  - rewrite (lor_add_disjoint f (t / 4096) 12) by lia. Z.to_euclidean_division_equations. lia.
  - rewrite Z.shiftl_mul_pow2 by lia. Z.to_euclidean_division_equations. lia.
Qed.

Lemma has_add t f flag k :
  t mod 4096 = 0 -> 0 <= f < 4096 -> flag = 2 ^ k -> 0 <= k < 12 -> has (t + f) flag = has f flag.
Proof.
  intros Ht Hf -> Hk. unfold has. f_equal. apply Z.bits_inj'. intros n Hn.
  rewrite !Z.land_spec. destruct (Z.eq_dec n k) as [->|].
  - f_equal. rewrite <- (Z.mod_pow2_bits_low (t + f) 12) by lia.
    replace ((t + f) mod 2 ^ 12) with f; [done|].
    change (2 ^ 12) with 4096. Z.to_euclidean_division_equations. lia.
  - rewrite Z.pow2_bits_false by lia. by rewrite !andb_false_r.
Qed.

(** ** The shape of a user space

    Tables are named by the path of indices that leads to them from the root;
    [sh_leaf] holds the present entries of the last level. *)

Record shape := mk_shape {
  sh_tabs : gmap (list Z) Z;
  sh_leaf : gmap (list Z) Z }.

Definition tables (u : paging_user_space_t) : list Z :=
  take (Z.to_nat (us_table_page_count u)) (us_table_pages u).

Definition page_of (a : Z) : Z := a / 4096.
Definition own (u : paging_user_space_t) : gset Z := list_to_set (map page_of (tables u)).

Definition USER_SLOT : Z := 1.

(** The entries of the tree: under the root, only the user slot. *)
Definition slot_ok (p : list Z) (i : Z) : Prop := 0 <= i < 512 /\ (p = [] -> i = USER_SLOT).

(** Moving one page from the free pages to the space's own. *)
Lemma grow_free (F O : gset Z) c : c ∈ F -> F ∖ {[c]} ∪ (O ∪ {[c]}) = F ∪ O.
Proof. intros. apply set_eq. intros q. destruct (decide (q = c)); set_solver. Qed.

Lemma grow_live (F L O : gset Z) c :
  F ## L -> c ∈ F -> (L ∪ {[c]}) ∖ (O ∪ {[c]}) = L ∖ O.
Proof. intros. apply set_eq. intros q. destruct (decide (q = c)); set_solver. Qed.

Lemma regain_free (F : gset Z) c : c ∈ F -> F ∖ {[c]} ∪ {[c]} = F.
Proof. intros. apply set_eq. intros q. destruct (decide (q = c)); set_solver. Qed.

Lemma regain_live (F L : gset Z) c : F ## L -> c ∈ F -> (L ∪ {[c]}) ∖ {[c]} = L.
Proof. intros. apply set_eq. intros q. destruct (decide (q = c)); set_solver. Qed.

Section spaces.
Context {S : Type} `{PageAllocatorLaws S}.
Implicit Types mc : machine S.

Record space_ok mc (u : paging_user_space_t) (g : shape) : Prop := {
  so_pa : pa_ok (mc_pa mc);
  so_bound : forall q, q ∈ pa_free (mc_pa mc) ∪ pa_live (mc_pa mc) -> 0 < q < 2 ^ 40;
  so_base : us_user_base u = ARGUS_USER_BASE;
  so_root : sh_tabs g !! [] = Some (us_root_table u);
  so_frame : forall p t, sh_tabs g !! p = Some t -> (length p <= 3)%nat /\ frame t;
  so_entries : forall p t i, sh_tabs g !! p = Some t -> (length p < 3)%nat -> slot_ok p i ->
    match sh_tabs g !! (p ++ [i]) with
    | Some c => entry (mc_mem mc) t i = c + 7
    | None => has (entry (mc_mem mc) t i) PAGE_PRESENT = false
    end;
  so_leaves : forall p t i, sh_tabs g !! p = Some t -> length p = 3%nat -> 0 <= i < 512 ->
    match sh_leaf g !! (p ++ [i]) with
    | Some e => entry (mc_mem mc) t i = e /\ has e PAGE_PRESENT = true /\ has e PAGE_USER = true
    | None => has (entry (mc_mem mc) t i) PAGE_PRESENT = false
    end;
  so_inj : forall p q t, sh_tabs g !! p = Some t -> sh_tabs g !! q = Some t -> p = q;
  so_prefix : forall p i c, sh_tabs g !! (p ++ [i]) = Some c -> is_Some (sh_tabs g !! p) /\ slot_ok p i;
  so_leaf_prefix : forall p i e, sh_leaf g !! (p ++ [i]) = Some e -> is_Some (sh_tabs g !! p);
  so_pages : length (us_table_pages u) = 16%nat /\ 0 <= us_table_page_count u <= 16;
  so_tables : forall t, t ∈ tables u <-> exists p, sh_tabs g !! p = Some t;
  so_nodup : NoDup (tables u);
  so_live : own u ⊆ pa_live (mc_pa mc) }.

Lemma frame_page_inj t t' : t mod 4096 = 0 -> t' mod 4096 = 0 -> page_of t = page_of t' -> t = t'.
Proof. unfold page_of. intros. Z.to_euclidean_division_equations. lia. Qed.

Lemma elem_of_own u q : q ∈ own u <-> exists t, t ∈ tables u /\ q = page_of t.
Proof.
  unfold own. rewrite elem_of_list_to_set. rewrite list_elem_of_fmap. naive_solver.
Qed.

Lemma tables_add u a :
  length (us_table_pages u) = 16%nat -> 0 <= us_table_page_count u < 16 ->
  tables (add_table u a) = tables u ++ [a].
Proof.
  intros Hl Hc. unfold tables, add_table. cbn [us_table_page_count us_table_pages].
  rewrite u32_id by (unfold UINT32_MAX; lia).
  replace (Z.to_nat (us_table_page_count u + 1)) with (Datatypes.S (Z.to_nat (us_table_page_count u))) by lia.
  unfold zset. erewrite take_S_r by (apply list_lookup_insert_eq; lia).
  by rewrite take_insert_ge by lia.
Qed.

(** A page taken from the allocator for a table. *)
Lemma alloc_user_spec mc u a u' mc' :
  pa_ok (mc_pa mc) ->
  (forall q, q ∈ pa_free (mc_pa mc) ∪ pa_live (mc_pa mc) -> 0 < q < 2 ^ 40) ->
  0 <= us_table_page_count u <= 16 -> own u ⊆ pa_live (mc_pa mc) ->
  allocate_user_table mc u = (a, u', mc') ->
  (a = 0 /\ u' = u /\ mc' = mc /\ (us_table_page_count u = 16 \/ pa_free (mc_pa mc) = ∅))
  \/ (exists pa', frame a /\ ~ a ∈ tables u /\ page_of a ∈ pa_free (mc_pa mc)
      /\ us_table_page_count u < 16 /\ u' = add_table u a
      /\ mc' = with_memory (with_pa mc pa') (zero_page (mc_mem mc) a)
      /\ pa_ok pa' /\ pa_free pa' = pa_free (mc_pa mc) ∖ {[page_of a]}
      /\ pa_live pa' = pa_live (mc_pa mc) ∪ {[page_of a]}).
Proof.
  intros Hpa Hbound Hcnt Hlive. unfold allocate_user_table, ARGUS_USER_TABLE_MAX_PAGES.
  destruct (Z.leb_spec 16 (us_table_page_count u)) as [Hge|Hlt].
  { intros [= <- <- <-]. left. split_and!; try done. left. lia. }
  pose proof (pa_alloc_spec (mc_pa mc) 1 Hpa ltac:(lia)) as Ha.
  destruct (pa_alloc (mc_pa mc) 1) as [x pa'].
  destruct Ha as [(-> & -> & Hno)|(p & -> & Hp & _ & _ & Hsub & Hok' & Hf & Hl)].
  { intros [= <- <- <-]. left. split_and!; try done; [by destruct mc|]. right.
    destruct Hno as [?|Hno]; [lia|]. apply set_eq. intros q. split; [|set_solver]. intros Hq. exfalso.
    apply (Hno q). intros z Hz%elem_of_page_run. assert (z = q) as -> by lia. done. }
  assert (page_run p 1 = {[p]}) as Hrun.
  { apply set_eq. intros q. rewrite elem_of_page_run, elem_of_singleton. lia. }
  rewrite Hrun in *. assert (p ∈ pa_free (mc_pa mc)) as Hpf by set_solver.
  pose proof (Hbound p ltac:(set_solver)) as Hb. unfold ARGUS_PAGE_SIZE.
  destruct (Z.eqb_spec (p * 4096) 0); [lia|]. intros [= <- <- <-]. right.
  assert (page_of (p * 4096) = p) as Hpg by (unfold page_of; rewrite Z.div_mul by lia; done).
  rewrite Hpg. exists pa'. split_and!; try done.
  - split; [apply Z.mod_mul; lia|lia].
  - intros Hin. pose proof (pa_disjoint _ Hpa) as Hd.
    assert (p ∈ own u) as Hown by (apply elem_of_own; eauto). set_solver.
Qed.

(** Linking a fresh zeroed table at path [p ++ [i]]. *)
Definition link_table (g : shape) (p : list Z) (i c : Z) : shape :=
  mk_shape (<[p ++ [i] := c]> (sh_tabs g)) (sh_leaf g).

Lemma link_value c : frame c ->
  Z.lor (Z.lor (Z.lor c PAGE_PRESENT) PAGE_WRITABLE) PAGE_USER = c + 7
  /\ 0 <= c + 7 <= UINT64_MAX /\ has (c + 7) PAGE_PRESENT = true
  /\ has (c + 7) PAGE_USER = true /\ has (c + 7) PAGE_LARGE = false /\ table_of (c + 7) = c.
Proof.
  intros [Hm Hc]. rewrite <- !Z.lor_assoc.
  change (Z.lor PAGE_PRESENT (Z.lor PAGE_WRITABLE PAGE_USER)) with 7.
  rewrite frame_lor by (done || lia).
  rewrite (has_add c 7 PAGE_PRESENT 0), (has_add c 7 PAGE_USER 2), (has_add c 7 PAGE_LARGE 7) by (done || lia).
  assert (2 ^ 53 < UINT64_MAX) by done. split_and!; try done; try lia.
  rewrite table_of_eq, Z.mod_small by (Z.to_euclidean_division_equations; lia).
  Z.to_euclidean_division_equations. lia.
Qed.

Lemma snoc_path_ne (p : list Z) i : p ++ [i] <> p.
Proof. intros Hp%(f_equal length). rewrite length_app in Hp. simpl in Hp. lia. Qed.

Lemma link_space mc u g p t i c pa' :
  space_ok mc u g -> sh_tabs g !! p = Some t -> (length p < 3)%nat -> slot_ok p i ->
  sh_tabs g !! (p ++ [i]) = None -> us_table_page_count u < 16 ->
  frame c -> ~ c ∈ tables u -> page_of c ∈ pa_free (mc_pa mc) ->
  pa_ok pa' -> pa_free pa' = pa_free (mc_pa mc) ∖ {[page_of c]} ->
  pa_live pa' = pa_live (mc_pa mc) ∪ {[page_of c]} ->
  space_ok (with_memory (with_pa mc pa') (set_entry (zero_page (mc_mem mc) c) t i (c + 7)))
    (add_table u c) (link_table g p i c).
Proof.
  intros Hok Hp Hlen Hi Hnew Hcnt Hc Hcn Hcf Hpa Hf Hl.
  destruct (so_pages _ _ _ Hok) as [Hl16 Hc16]. pose proof (tables_add u c Hl16 ltac:(lia)) as Ht.
  destruct (link_value c Hc) as (_ & Hcr & Hcp & _).
  assert (forall q s, sh_tabs g !! q = Some s -> frame s /\ s <> c) as Hold.
  { intros q s Hq. split; [by apply (so_frame _ _ _ Hok q)|]. intros ->. apply Hcn, (so_tables _ _ _ Hok). eauto. }
  assert (forall q s j, sh_tabs g !! q = Some s -> 0 <= j < 512 -> ~ (s = t /\ i = j) ->
    entry (set_entry (zero_page (mc_mem mc) c) t i (c + 7)) s j = entry (mc_mem mc) s j) as Hkeep.
  { intros q s j Hq Hj Hne. destruct (Hold _ _ Hq) as [[? ?] ?]. destruct (Hold _ _ Hp) as [[? ?] ?].
    destruct Hi, Hc. rewrite entry_set, zero_page_entry by done.
    destruct (Z.eqb_spec t s), (Z.eqb_spec i j), (Z.eqb_spec c s); cbn [andb]; naive_solver. }
  assert (forall j, 0 <= j < 512 ->
    entry (set_entry (zero_page (mc_mem mc) c) t i (c + 7)) c j = 0) as Hzero.
  { intros j Hj. destruct (Hold _ _ Hp) as [[? ?] ?]. destruct Hi, Hc. rewrite entry_set, zero_page_entry by done.
    rewrite Z.eqb_refl. destruct (Z.eqb_spec t c); [done|]. done. }
  constructor; cbn [with_memory with_pa mc_pa mc_mem link_table sh_tabs sh_leaf add_table us_user_base us_root_table];
    try apply Hok; try done.
  - intros q Hq. apply (so_bound _ _ _ Hok). rewrite Hf, Hl in Hq. set_solver.
  - rewrite lookup_insert_ne by (destruct p; done). apply Hok.
  - intros q s [[<- <-]|[_ Hq]]%lookup_insert_Some; [|by apply (so_frame _ _ _ Hok)].
    rewrite length_app. simpl. split; [lia|done].
  - intros q s j Hq Hlq Hj. apply lookup_insert_Some in Hq as [[<- <-]|[Hne Hq]].
    + rewrite lookup_insert_ne by (intros Heq; symmetry in Heq; by apply snoc_path_ne in Heq).
      destruct (sh_tabs g !! ((p ++ [i]) ++ [j])) as [d|] eqn:Hd.
      * apply (so_prefix _ _ _ Hok) in Hd as [[? ?] _]. congruence.
      * by rewrite Hzero by apply Hj.
    + destruct (decide (q ++ [j] = p ++ [i])) as [Heq|Hne'].
      * rewrite Heq, lookup_insert_eq. apply app_inj_tail in Heq as [-> ->]. simplify_eq.
        destruct (Hold _ _ Hp) as [[? _] _]. destruct Hi as [Hi _].
        rewrite entry_set by done. by rewrite !Z.eqb_refl.
      * rewrite lookup_insert_ne by done. rewrite (Hkeep q); [by apply Hok|done|apply Hj|].
        intros [-> ->]. apply Hne'. by rewrite (so_inj _ _ _ Hok q p t).
  - intros q s j Hq Hlq Hj. apply lookup_insert_Some in Hq as [[<- <-]|[Hne Hq]].
    + destruct (sh_leaf g !! ((p ++ [i]) ++ [j])) as [d|] eqn:Hd.
      * apply (so_leaf_prefix _ _ _ Hok) in Hd as [? ?]. congruence.
      * by rewrite Hzero.
    + rewrite (Hkeep q); [by apply Hok|done|done|]. intros [-> _].
      assert (q = p) as -> by by apply (so_inj _ _ _ Hok _ _ t). lia.
  - intros q r s Hq Hr. apply lookup_insert_Some in Hq as [[<- <-]|[_ Hq]], Hr as [[<- ?]|[_ Hr]]; subst; try done.
    + by apply Hold in Hr as [_ ?].
    + by apply Hold in Hq as [_ ?].
    + by apply (so_inj _ _ _ Hok _ _ s).
  - intros q j d [[Heq <-]|[_ Hq]]%lookup_insert_Some.
    + apply app_inj_tail in Heq as [-> ->]. split; [|done]. apply lookup_insert_is_Some'. right. by exists t.
    + apply (so_prefix _ _ _ Hok) in Hq as [? ?]. split; [|done]. apply lookup_insert_is_Some'. by right.
  - intros q j e Hq%(so_leaf_prefix _ _ _ Hok). apply lookup_insert_is_Some'. by right.
  - unfold add_table. cbn [us_table_pages us_table_page_count]. rewrite zset_length, u32_id by (unfold UINT32_MAX; lia). lia.
  - intros s. rewrite Ht, elem_of_app, list_elem_of_singleton, (so_tables _ _ _ Hok).
    setoid_rewrite lookup_insert_Some. split.
    + intros [[q Hq]| ->]; [|by exists (p ++ [i]); left]. exists q. right. split; [|done]. congruence.
    + intros [q [[_ <-]|[_ Hq]]]; eauto.
  - rewrite Ht. apply list.NoDup_app. split_and!; [apply Hok| |apply NoDup_singleton].
    intros s Hs ->%list_elem_of_singleton. done.
  - intros q (s & Hs & ->)%elem_of_own. rewrite Ht, elem_of_app, list_elem_of_singleton in Hs.
    rewrite Hl. destruct Hs as [Hs| ->]; [|set_solver]. apply elem_of_union. left.
    apply (so_live _ _ _ Hok), elem_of_own. eauto.
Qed.

(** How an operation on a user space may change the machine: it takes free
    pages for its own tables, writes only inside its own tables and leaves the
    kernel's root entries alone. *)
Record grows mc (u : paging_user_space_t) mc' (u' : paging_user_space_t) : Prop := {
  gr_root : us_root_table u' = us_root_table u;
  gr_nx : us_nx_enabled u' = us_nx_enabled u;
  gr_own : own u ⊆ own u';
  gr_free : pa_free (mc_pa mc') ∪ own u' = pa_free (mc_pa mc) ∪ own u;
  gr_live : pa_live (mc_pa mc') ∖ own u' = pa_live (mc_pa mc) ∖ own u;
  gr_mem : forall x, ~ page_of x ∈ own u' -> mem_get (mc_mem mc') x = mem_get (mc_mem mc) x;
  gr_kernel : forall j, 0 <= j < 512 -> j <> USER_SLOT ->
    entry (mc_mem mc') (us_root_table u) j = entry (mc_mem mc) (us_root_table u) j }.

Lemma grows_refl mc u : grows mc u mc u.
Proof. by constructor. Qed.

Lemma grows_trans mc1 u1 mc2 u2 mc3 u3 :
  grows mc1 u1 mc2 u2 -> grows mc2 u2 mc3 u3 -> grows mc1 u1 mc3 u3.
Proof.
  intros [A1 A2 A3 A4 A5 A6 A7] [B1 B2 B3 B4 B5 B6 B7]. constructor; try congruence.
  - set_solver.
  - intros x Hx. rewrite B6 by done. apply A6. set_solver.
  - intros j Hj Hne. rewrite A1 in B7. by rewrite B7, A7.
Qed.

(** One level down: the entry links the table of the longer path. *)
Lemma ensure_spec mc u g p t i ok u' mc' :
  space_ok mc u g -> sh_tabs g !! p = Some t -> (length p < 3)%nat -> slot_ok p i ->
  ensure_user mc u t i = (ok, u', mc') ->
  (ok = false /\ u' = u /\ mc' = mc /\ (us_table_page_count u = 16 \/ pa_free (mc_pa mc) = ∅))
  \/ (ok = true /\ exists c g', space_ok mc' u' g' /\ sh_tabs g' !! (p ++ [i]) = Some c
        /\ sh_tabs g ⊆ sh_tabs g' /\ sh_leaf g' = sh_leaf g
        /\ entry (mc_mem mc') t i = c + 7 /\ frame c /\ grows mc u mc' u').
Proof.
  intros Hok Hp Hlen Hi. pose proof (so_entries _ _ _ Hok p t i Hp Hlen Hi) as He. unfold ensure_user.
  destruct (so_frame _ _ _ Hok p t Hp) as [_ Ht].
  destruct (sh_tabs g !! (p ++ [i])) as [c|] eqn:Hc.
  - destruct (so_frame _ _ _ Hok _ c Hc) as [_ Hfc]. rewrite He.
    destruct (link_value c Hfc) as (_ & _ & -> & _). intros [= <- <- <-]. right.
    split; [done|]. exists c, g. split_and!; try done; apply grows_refl.
  - rewrite He. destruct (allocate_user_table mc u) as [[c u1] mc1] eqn:Ha.
    apply alloc_user_spec in Ha; try apply Hok.
    destruct Ha as [(-> & -> & -> & Hfull)|(pa' & Hfc & Hcn & Hcf & Hcnt & -> & -> & Hpa & Hf & Hl)].
    { intros [= <- <- <-]. by left. }
    destruct (link_value c Hfc) as (Hlv & Hr & _). destruct Hfc as [Hcm Hc0].
    destruct (Z.eqb_spec c 0); [lia|]. rewrite Hlv. intros [= <- <- <-]. right. split; [done|].
    destruct (so_pages _ _ _ Hok) as [Hl16 Hc16]. pose proof (tables_add u c Hl16 ltac:(lia)) as Htb.
    assert (own (add_table u c) = own u ∪ {[page_of c]}) as Hown.
    { unfold own. rewrite Htb, map_app, list_to_set_app_L. simpl. set_solver. }
    exists c, (link_table g p i c). split_and!; [|apply lookup_insert_eq|by apply insert_subseteq|done| |done|].
    + by apply (link_space mc u g p t i c).
    + simpl. destruct Ht, Hi. rewrite entry_set by done. by rewrite !Z.eqb_refl.
    + pose proof (pa_disjoint _ (so_pa _ _ _ Hok)) as Hd. pose proof (so_live _ _ _ Hok) as Hlv'.
      assert (page_of t ∈ own u) as Hto.
      { apply elem_of_own. exists t. split; [|done]. apply (so_tables _ _ _ Hok). eauto. }
      constructor; cbn [with_memory with_pa mc_pa mc_mem]; rewrite ?Hown.
      * reflexivity.
      * reflexivity.
      * apply union_subseteq_l.
      * rewrite Hf. by apply grow_free.
      * rewrite Hl. by apply (grow_live (pa_free (mc_pa mc))).
      * intros x Hx. destruct Ht as [Ht _], Hi as [Hi _].
        rewrite not_elem_of_union, not_elem_of_singleton in Hx. destruct Hx as [Hx1 Hx2].
        rewrite set_entry_get; [by apply zero_page_get|done|done|]. intros Heq. apply Hx1.
        unfold page_of. by rewrite Heq.
      * intros j Hj Hne. pose proof (so_root _ _ _ Hok) as Hroot.
        destruct (so_frame _ _ _ Hok [] _ Hroot) as [_ [Hrm _]]. destruct Ht as [Ht _], Hi as [Hi1 Hi2].
        rewrite entry_set by done. destruct ((t =? us_root_table u) && (i =? j)) eqn:E.
        { b2p. subst. exfalso. apply Hne, Hi2. by apply (so_inj _ _ _ Hok _ _ (us_root_table u)). }
        rewrite zero_page_entry by done. destruct (Z.eqb_spec c (us_root_table u)) as [Hcr|]; [|done].
        exfalso. apply Hcn, (so_tables _ _ _ Hok). exists []. by rewrite Hcr.
Qed.
End spaces.

(** ** Virtual addresses *)

Definition path (va : Z) : list Z := [pml4_index va; pdpt_index va; pd_index va; pt_index va].

(** The user half: 512 GiB from ARGUS_USER_BASE. *)
Definition in_window (va : Z) : Prop := 2 ^ 39 <= va < 2 ^ 40.

Lemma index_eq a k : 0 <= k -> (a >> k) & 0x1FF = a / 2 ^ k mod 512.
Proof.
  intros. change 0x1FF with (2 ^ 9 - 1). rewrite land_ones_mod by lia. by rewrite Z.shiftr_div_pow2.
Qed.

Lemma path_eq va :
  path va = [va / 2 ^ 39 mod 512; va / 2 ^ 30 mod 512; va / 2 ^ 21 mod 512; va / 2 ^ 12 mod 512].
Proof. unfold path, pml4_index, pdpt_index, pd_index, pt_index. by rewrite !index_eq by lia. Qed.

Lemma window_slot va : in_window va -> pml4_index va = USER_SLOT.
Proof.
  intros [H1 H2]. unfold pml4_index, USER_SLOT. rewrite index_eq by lia.
  assert (va / 2 ^ 39 = 1) as ->; [|done]. change (2 ^ 40) with (2 * 2 ^ 39) in H2.
  symmetry. apply Z.div_unique with (va - 2 ^ 39); lia.
Qed.

Lemma index_range va :
  0 <= pml4_index va < 512 /\ 0 <= pdpt_index va < 512 /\ 0 <= pd_index va < 512 /\ 0 <= pt_index va < 512.
Proof.
  unfold pml4_index, pdpt_index, pd_index, pt_index. rewrite !index_eq by lia.
  split_and!; apply Z.mod_pos_bound; lia.
Qed.

(** The path determines the page. *)
Lemma path_inj va va' : in_window va -> in_window va' -> path va = path va' <-> page_of va = page_of va'.
Proof.
  unfold in_window. intros H1 H2. rewrite !path_eq. unfold page_of.
  change (2 ^ 39) with 549755813888 in *. change (2 ^ 40) with 1099511627776 in *.
  change (2 ^ 30) with 1073741824. change (2 ^ 21) with 2097152. change (2 ^ 12) with 4096. split.
  - intros [= E1 E2 E3 E4]. Z.to_euclidean_division_equations. lia.
  - intros Hp.
    assert (forall k, 0 < k -> va / (4096 * k) = va' / (4096 * k)) as Hk.
    { intros k Hk. rewrite <- !Z.div_div by lia. by rewrite Hp. }
    pose proof (Hk (134217728) ltac:(lia)) as A1. pose proof (Hk 262144 ltac:(lia)) as A2.
    pose proof (Hk 512 ltac:(lia)) as A3. change (4096 * 134217728) with 549755813888 in A1.
    change (4096 * 262144) with 1073741824 in A2. change (4096 * 512) with 2097152 in A3.
    by rewrite A1, A2, A3, Hp.
Qed.

(** Bits outside the address mask do not meet a frame. *)
Definition frame0 (p : Z) : Prop := p mod 4096 = 0 /\ 0 <= p < 2 ^ 52.

Lemma frame_table_of p : frame0 p -> table_of p = p.
Proof.
  intros [Hm Hp]. rewrite table_of_eq, Z.mod_small by lia. Z.to_euclidean_division_equations. lia.
Qed.

Lemma frame_land p f : frame0 p -> PAGE_ADDRESS_MASK & f = 0 -> p & f = 0.
Proof.
  intros Hp Hf. rewrite <- (frame_table_of p Hp). unfold table_of.
  by rewrite <- Z.land_assoc, Hf, Z.land_0_r.
Qed.

(** What a leaf entry holds: its frame, its flags, and the present and user bits. *)
Lemma leaf_entry_bits p nx w x :
  frame0 p ->
  let flags := leaf_flags nx w x in
  let e := Z.lor p flags in
  0 <= e <= UINT64_MAX /\ has e PAGE_PRESENT = true /\ has e PAGE_USER = true
  /\ table_of e = p /\ e & not64 PAGE_ADDRESS_MASK = flags.
Proof.
  intros Hp. cbv zeta.
  assert (0 <= leaf_flags nx w x <= 2 ^ 63 + 7) as Hr by (destruct nx, w, x; vm_compute; split; discriminate).
  assert (PAGE_ADDRESS_MASK & leaf_flags nx w x = 0) as Hd by (destruct nx, w, x; reflexivity).
  assert (Z.lor p (leaf_flags nx w x) = p + leaf_flags nx w x) as He.
  { rewrite Z.add_nocarry_lxor by by apply frame_land. by rewrite Z.lxor_lor by by apply frame_land. }
  split_and!.
  - rewrite He. destruct Hp as [_ Hp]. lia.
  - rewrite He. destruct Hp as [_ Hp]. unfold UINT64_MAX.
    change (2 ^ 52) with 4503599627370496 in Hp. change (2 ^ 63) with 9223372036854775808 in Hr. lia.
  - unfold has. rewrite Z.land_lor_distr_l, (frame_land p) by done. by destruct nx, w, x.
  - unfold has. rewrite Z.land_lor_distr_l, (frame_land p) by done. by destruct nx, w, x.
  - unfold table_of. rewrite Z.land_lor_distr_l. fold (table_of p). rewrite frame_table_of by done.
    rewrite Z.land_comm in Hd. by rewrite Hd, Z.lor_0_r.
  - rewrite Z.land_lor_distr_l, (frame_land p) by done. by destruct nx, w, x.
Qed.

Lemma page_low va : va & (ARGUS_PAGE_SIZE - 1) = va mod 4096.
Proof. apply (land_ones_mod va 12). lia. Qed.

Section translation.
Context {S : Type} `{PageAllocatorLaws S}.
Implicit Types mc : machine S.

(** A child of the tree, as [paging_user_translate] sees it. *)
Lemma entry_child mc u g p t i :
  space_ok mc u g -> sh_tabs g !! p = Some t -> (length p < 3)%nat -> slot_ok p i ->
  let e := entry (mc_mem mc) t i in
  match sh_tabs g !! (p ++ [i]) with
  | Some c => has e PAGE_PRESENT = true /\ has e PAGE_USER = true /\ has e PAGE_LARGE = false
              /\ table_of e = c
  | None => has e PAGE_PRESENT = false
  end.
Proof.
  intros Hok Hp Hl Hi. pose proof (so_entries _ _ _ Hok p t i Hp Hl Hi) as He. cbv zeta.
  destruct (sh_tabs g !! (p ++ [i])) as [c|] eqn:Hc; [|done]. rewrite He.
  destruct (so_frame _ _ _ Hok _ _ Hc) as [_ Hf]. destruct (link_value c Hf) as (_ & _ & ? & ? & ? & ?). done.
Qed.

(** Translation is a lookup of the path among the leaves. *)
Lemma translate_spec mc u g va :
  space_ok mc u g -> in_window va ->
  paging_user_translate (mc_mem mc) (Some u) va =
  match sh_leaf g !! path va with
  | Some e => Some (Z.lor (table_of e) (va mod 4096), e & not64 PAGE_ADDRESS_MASK)
  | None => None
  end.
Proof.
  intros Hok Hw. pose proof (index_range va) as (_ & H3 & H2 & H1).
  pose proof (window_slot va Hw) as H4. pose proof (so_root _ _ _ Hok) as Hr.
  destruct (so_frame _ _ _ Hok _ _ Hr) as [_ [_ Hr0]]. unfold paging_user_translate.
  assert (nz (us_root_table u) = true) as -> by (unfold nz; lia). cbn [negb]. rewrite page_low.
  assert (forall a b c d, sh_leaf g !! [a; b; c; d] <> None -> is_Some (sh_tabs g !! [a; b; c])
          /\ is_Some (sh_tabs g !! [a; b]) /\ is_Some (sh_tabs g !! [a])) as Hpre.
  { intros a b c d Hl. destruct (sh_leaf g !! [a; b; c; d]) as [e|] eqn:E; [|done].
    apply (so_leaf_prefix _ _ _ Hok [a; b; c] d) in E as [x3 E3]. split; [eauto|].
    destruct (so_prefix _ _ _ Hok [a; b] c x3 E3) as [[x2 E2] _]. split; [eauto|].
    by destruct (so_prefix _ _ _ Hok [a] b x2 E2). }
  unfold path. rewrite H4. pose proof (Hpre USER_SLOT (pdpt_index va) (pd_index va) (pt_index va)) as Hp.
  set (L := sh_leaf g !! _) in *.
  pose proof (entry_child mc u g [] _ USER_SLOT Hok Hr ltac:(simpl; lia) ltac:(split; done)) as E4.
  simpl app in E4. destruct (sh_tabs g !! [USER_SLOT]) as [t3|] eqn:T3.
  2: { rewrite E4. simpl. destruct L; [|done]. destruct Hp as (_ & _ & [? ?]); done. }
  destruct E4 as (-> & -> & _ & ->). cbn [negb orb].
  pose proof (entry_child mc u g _ _ (pdpt_index va) Hok T3 ltac:(simpl; lia) ltac:(split; done)) as E3.
  simpl app in E3. destruct (sh_tabs g !! [USER_SLOT; pdpt_index va]) as [t2|] eqn:T2.
  2: { rewrite E3. simpl. destruct L; [|done]. destruct Hp as (_ & [? ?] & _); done. }
  destruct E3 as (-> & -> & -> & ->). cbn [negb orb].
  pose proof (entry_child mc u g _ _ (pd_index va) Hok T2 ltac:(simpl; lia) ltac:(split; done)) as E2.
  simpl app in E2. destruct (sh_tabs g !! [USER_SLOT; pdpt_index va; pd_index va]) as [t1|] eqn:T1.
  2: { rewrite E2. simpl. destruct L; [|done]. destruct Hp as ([? ?] & _); done. }
  destruct E2 as (-> & -> & -> & ->). cbn [negb orb].
  pose proof (so_leaves _ _ _ Hok _ _ (pt_index va) T1 eq_refl H1) as E1. simpl app in E1. fold L in E1.
  destruct L as [e|]; [destruct E1 as (-> & -> & ->); done|by rewrite E1].
Qed.

(** Writing a leaf. *)
Lemma leaf_space mc u g p t i e :
  space_ok mc u g -> sh_tabs g !! p = Some t -> length p = 3%nat -> 0 <= i < 512 ->
  0 <= e <= UINT64_MAX -> has e PAGE_PRESENT = true -> has e PAGE_USER = true ->
  let mc' := with_memory mc (set_entry (mc_mem mc) t i e) in
  space_ok mc' u (mk_shape (sh_tabs g) (<[p ++ [i] := e]> (sh_leaf g))) /\ grows mc u mc' u.
Proof.
  intros Hok Hp Hl Hi He Hpr Hus. cbv zeta. destruct (so_frame _ _ _ Hok _ _ Hp) as [_ [Ht _]].
  assert (forall q s j, sh_tabs g !! q = Some s -> 0 <= j < 512 ->
    entry (set_entry (mc_mem mc) t i e) s j =
    if (bool_decide (q = p)) && (i =? j) then e else entry (mc_mem mc) s j) as Hset.
  { intros q s j Hq Hj. destruct (so_frame _ _ _ Hok _ _ Hq) as [_ [Hs _]].
    rewrite entry_set by done. destruct (bool_decide_reflect (q = p)) as [->|Hne].
    - simplify_eq. by rewrite Z.eqb_refl.
    - destruct (Z.eqb_spec t s) as [->|]; [|done]. by destruct (Hne (so_inj _ _ _ Hok q p s Hq Hp)). }
  split.
  - constructor; cbn [with_memory mc_pa mc_mem sh_tabs sh_leaf]; try apply Hok.
    + intros q s j Hq Hlq Hj. rewrite (Hset q) by (done || apply Hj).
      destruct (bool_decide_reflect (q = p)) as [->|]; [lia|]. by apply Hok.
    + intros q s j Hq Hlq Hj. rewrite (Hset q) by done.
      destruct (bool_decide_reflect (q = p)) as [->|Hne], (Z.eqb_spec i j) as [->|Hne']; cbn [andb].
      * by rewrite lookup_insert_eq.
      * rewrite lookup_insert_ne; [by apply Hok|]. by intros [_ ?]%app_inj_tail.
      * rewrite lookup_insert_ne; [by apply Hok|]. intros [? _]%app_inj_tail. congruence.
      * rewrite lookup_insert_ne; [by apply Hok|]. intros [? _]%app_inj_tail. congruence.
    + intros q j e' [[Heq _]|[_ Hq]]%lookup_insert_Some; [|by apply (so_leaf_prefix _ _ _ Hok q j e')].
      apply app_inj_tail in Heq as [-> ->]. by exists t.
  - constructor; cbn [with_memory mc_pa mc_mem]; try reflexivity.
    + intros x Hx. apply set_entry_get; [done|done|]. intros Heq. apply Hx, elem_of_own.
      exists t. split; [|done]. apply (so_tables _ _ _ Hok). eauto.
    + intros j Hj Hne. rewrite (Hset []) by (done || apply Hok).
      destruct (bool_decide_reflect ([] = p)) as [<-|]; [done|done].
Qed.

Lemma map_page_accepted u va pa :
  us_user_base u = ARGUS_USER_BASE -> map_page_rejected u va pa = false ->
  in_window va /\ va mod 4096 = 0 /\ pa mod 4096 = 0.
Proof.
  unfold map_page_rejected, in_window. intros ->. rewrite !page_low.
  change (u64 (ARGUS_USER_BASE + (1 << 39))) with (2 ^ 40). change ARGUS_USER_BASE with (2 ^ 39).
  intros Hr. b2p. split_and!; lia.
Qed.

(** The whole of [paging_user_map_page]. *)
Lemma map_page_spec mc u g va pa w x ok u' mc' :
  space_ok mc u g -> 0 <= pa < 2 ^ 52 ->
  paging_user_map_page mc u va pa w x = (ok, u', mc') ->
  exists g', space_ok mc' u' g' /\ grows mc u mc' u' /\
  (ok = false /\ sh_leaf g' = sh_leaf g /\
     (map_page_rejected u va pa = true \/ sh_leaf g !! path va <> None
      \/ us_table_page_count u' = 16 \/ pa_free (mc_pa mc') = ∅)
   \/ ok = true /\ map_page_rejected u va pa = false /\ sh_leaf g !! path va = None
      /\ sh_leaf g' = <[path va := Z.lor pa (leaf_flags (us_nx_enabled u) w x)]> (sh_leaf g)).
Proof.
  intros Hok Hpa. unfold paging_user_map_page.
  destruct (map_page_rejected u va pa) eqn:Hrej.
  { intros [= <- <- <-]. exists g. split_and!; [done|apply grows_refl|]. left. auto. }
  destruct (map_page_accepted u va pa (so_base _ _ _ Hok) Hrej) as (Hw & Hva & Hpm).
  pose proof (index_range va) as (_ & I3 & I2 & I1). pose proof (window_slot va Hw) as I4.
  pose proof (so_root _ _ _ Hok) as Hr. rewrite I4.
  destruct (ensure_user mc u (us_root_table u) USER_SLOT) as [[ok1 u1] mc1] eqn:E1.
  apply (ensure_spec mc u g [] _ USER_SLOT) in E1; [|done|done|simpl; lia|by split].
  destruct E1 as [(-> & -> & -> & Hfull)|(-> & c3 & g1 & Hok1 & T3 & Hsub1 & Hl1 & Ee1 & F3 & G1)].
  { intros [= <- <- <-]. exists g. split_and!; [done|apply grows_refl|]. left. tauto. }
  destruct (link_value c3 F3) as (_ & _ & _ & U3 & _ & A3). cbn [negb]. rewrite Ee1, U3, A3. cbn [negb].
  destruct (ensure_user mc1 u1 c3 (pdpt_index va)) as [[ok2 u2] mc2] eqn:E2.
  apply (ensure_spec mc1 u1 g1 [USER_SLOT]) in E2; [|done|done|simpl; lia|by split].
  destruct E2 as [(-> & -> & -> & Hfull)|(-> & c2 & g2 & Hok2 & T2 & Hsub2 & Hl2 & Ee2 & F2 & G2)].
  { intros [= <- <- <-]. exists g1. split_and!; [done|done|]. left. tauto. }
  destruct (link_value c2 F2) as (_ & _ & _ & U2 & L2 & A2). cbn [negb]. rewrite Ee2, U2, L2, A2. cbn [negb orb].
  destruct (ensure_user mc2 u2 c2 (pd_index va)) as [[ok3 u3] mc3] eqn:E3.
  apply (ensure_spec mc2 u2 g2 [USER_SLOT; pdpt_index va]) in E3; [|done|done|simpl; lia|by split].
  pose proof (grows_trans _ _ _ _ _ _ G1 G2) as G12.
  destruct E3 as [(-> & -> & -> & Hfull)|(-> & c1 & g3 & Hok3 & T1 & Hsub3 & Hl3 & Ee3 & F1 & G3)].
  { intros [= <- <- <-]. exists g2. split_and!; [done|done|]. left. rewrite Hl2, Hl1. tauto. }
  destruct (link_value c1 F1) as (_ & _ & _ & U1 & L1 & A1). cbn [negb]. rewrite Ee3, U1, L1, A1. cbn [negb orb].
  pose proof (grows_trans _ _ _ _ _ _ G12 G3) as G123. rewrite Hl2, Hl1 in Hl3.
  simpl app in T1. pose proof (so_leaves _ _ _ Hok3 _ _ (pt_index va) T1 eq_refl I1) as Hlf. simpl app in Hlf.
  assert (path va = [USER_SLOT; pdpt_index va; pd_index va; pt_index va]) as Hpath by (unfold path; by rewrite I4).
  rewrite <- Hpath, Hl3 in Hlf. destruct (sh_leaf g !! path va) as [e|] eqn:El.
  { destruct Hlf as (-> & -> & _). intros [= <- <- <-]. exists g3. split_and!; [done|done|]. left. split_and!; auto. }
  rewrite Hlf. intros [= <- <- <-].
  destruct (leaf_entry_bits pa (us_nx_enabled u3) w x ltac:(split; [done|lia])) as (Er & Ep & Eu & _).
  destruct (leaf_space mc3 u3 g3 _ c1 (pt_index va) _ Hok3 T1 eq_refl I1 Er Ep Eu) as [Hok4 G4].
  eexists. split_and!; [exact Hok4|by eapply grows_trans|]. right. split_and!; try done.
  simpl. by rewrite <- Hpath, Hl3, (gr_nx _ _ _ _ G123).
Qed.

(** ** Creation and destruction *)

Lemma copy_table_entry m d s t j :
  d mod 4096 = 0 -> s mod 4096 = 0 -> t mod 4096 = 0 -> 0 <= j < 512 -> d <> s ->
  entry (copy_table m d s) t j = if d =? t then entry m s j else entry m t j.
Proof.
  intros Hd Hs Ht Hj Hne. unfold copy_table. set (body := fun _ _ => _).
  pose (I := fun i m' => forall t j, t mod 4096 = 0 -> 0 <= j < 512 ->
    entry m' t j = if (d =? t) && (j <? i) then entry m s j else entry m t j).
  assert (I 512 (for_range 0 512 body m)) as HI.
  { apply for_range_inv; [lia| |].
    - intros t' j' _ Hj'. destruct (Z.ltb_spec j' 0); [lia|]. by rewrite andb_false_r.
    - intros i m' Hi Hm t' j' Ht' Hj'. unfold body. rewrite entry_set by (done || apply entry_range).
      rewrite !Hm by done. destruct (Z.eqb_spec d t') as [->|]; cbn [andb]; [|done].
      destruct (Z.eqb_spec t' s); [done|]. cbn [andb].
      destruct (Z.eqb_spec i j') as [Hij|Hij].
      + subst j'. by destruct (Z.ltb_spec i (i + 1)); [|lia].
      + by destruct (Z.ltb_spec j' i), (Z.ltb_spec j' (i + 1)); try lia. }
  rewrite (HI t j) by done. destruct (Z.ltb_spec j 512); [|lia]. by rewrite andb_true_r.
Qed.

Lemma copy_table_get m d s x :
  d mod 4096 = 0 -> page_of x <> page_of d -> mem_get (copy_table m d s) x = mem_get m x.
Proof.
  intros Hd Hx. unfold copy_table.
  apply (for_range_inv (fun _ m' => mem_get m' x = mem_get m x)); [lia|done|].
  intros i m' Hi Hm. by rewrite set_entry_get.
Qed.

(** Releasing pages that are all in use. *)
Lemma pa_release_pages_spec (pa : S) l :
  pa_ok pa -> NoDup l -> Forall (fun a => a mod 4096 = 0 /\ 0 <= a) l ->
  list_to_set (map page_of l) ⊆ pa_live pa ->
  let pa' := release_pages pa l in
  pa_ok pa' /\ pa_free pa' = pa_free pa ∪ list_to_set (map page_of l)
  /\ pa_live pa' = pa_live pa ∖ list_to_set (map page_of l).
Proof.
  revert pa. induction l as [|a l IH]; intros pa Hok Hnd Hal Hlive.
  { simpl. split_and!; [done|clear; set_solver|clear; set_solver]. }
  change (release_pages pa (a :: l)) with (release_pages (snd (pa_release pa a 1)) l).
  cbn [map list_to_set] in *. apply list.NoDup_cons in Hnd as [Hna Hnd].
  pose proof (Forall_inv Hal) as [Ham Ha0]. apply Forall_inv_tail in Hal.
  assert (page_run (a / ARGUS_PAGE_SIZE) 1 = {[page_of a]}) as Hrun.
  { apply set_eq. intros q. unfold page_of, ARGUS_PAGE_SIZE. rewrite elem_of_page_run, elem_of_singleton. lia. }
  pose proof (pa_release_spec pa a 1 Hok Ha0 ltac:(lia)) as Hr. rewrite Hrun in Hr.
  destruct (pa_release pa a 1) as [b pa1]. cbn [snd].
  destruct Hr as [(_ & _ & Hno)|(_ & _ & _ & _ & Hok1 & Hf1 & Hl1)].
  { exfalso. apply Hno. split_and!; [done|lia|clear -Hlive; set_solver]. }
  assert (~ page_of a ∈ (list_to_set (map page_of l) : gset Z)) as Hnp.
  { rewrite elem_of_list_to_set, list_elem_of_fmap. intros (b' & Heq & Hb). apply Hna.
    rewrite List.Forall_forall in Hal. destruct (Hal b') as [Hbm _]; [by apply list_elem_of_In|].
    by rewrite (frame_page_inj a b' Ham Hbm Heq). }
  destruct (IH pa1 Hok1 Hnd Hal) as (Hok2 & Hf2 & Hl2).
  { rewrite Hl1. clear -Hlive Hnp. set_solver. }
  cbv zeta. rewrite Hf2, Hl2, Hf1, Hl1. split_and!; [done|clear; set_solver|clear; set_solver].
Qed.

Lemma tables_list u :
  0 <= us_table_page_count u <= Z.of_nat (length (us_table_pages u)) ->
  map (fun i => zget 0 (us_table_pages u) i) (zrange 0 (Z.to_nat (us_table_page_count u))) = tables u.
Proof.
  intros Hc. apply zget_prefix. lia.
Qed.

(** Destroying a space gives all its pages back. *)
Lemma destroy_spec mc u g :
  space_ok mc u g ->
  let '(u', mc') := paging_user_space_destroy mc u in
  u' = space0 /\ pa_ok (mc_pa mc') /\ mc_mem mc' = mc_mem mc
  /\ pa_free (mc_pa mc') = pa_free (mc_pa mc) ∪ own u
  /\ pa_live (mc_pa mc') = pa_live (mc_pa mc) ∖ own u.
Proof.
  intros Hok. unfold paging_user_space_destroy. destruct (so_pages _ _ _ Hok) as [Hl Hc].
  rewrite tables_list by (rewrite Hl; simpl; lia).
  assert (list_to_set (map page_of (rev (tables u))) = own u) as Hset.
  { unfold own. apply set_eq. intros q. rewrite !elem_of_list_to_set, map_rev, !list_elem_of_In. symmetry. apply in_rev. }
  destruct (pa_release_pages_spec (mc_pa mc) (rev (tables u))) as (H1 & H2 & H3).
  - apply Hok.
  - apply NoDup_ListNoDup, NoDup_rev, NoDup_ListNoDup, Hok.
  - apply List.Forall_forall. intros t Ht%in_rev%list_elem_of_In.
    apply (so_tables _ _ _ Hok) in Ht as [p Hp]. destruct (so_frame _ _ _ Hok p t Hp) as [_ [? ?]]. split; [done|lia].
  - rewrite Hset. apply Hok.
  - rewrite Hset in H2, H3. done.
Qed.

Definition machine_ok mc : Prop :=
  pa_ok (mc_pa mc) /\ forall q, q ∈ pa_free (mc_pa mc) ∪ pa_live (mc_pa mc) -> 0 < q < 2 ^ 40.

(** The kernel's root table is a page that is not free. *)
Definition kernel_ok mc (k : paging_info_t) : Prop :=
  frame (pi_root_table k) /\ ~ page_of (pi_root_table k) ∈ pa_free (mc_pa mc).

Definition space_new (root : Z) : shape := mk_shape {[ [] := root ]} ∅.

Lemma new_space_ok mc root pages nx :
  machine_ok mc -> frame root -> page_of root ∈ pa_live (mc_pa mc) -> length pages = 15%nat ->
  has (entry (mc_mem mc) root USER_SLOT) PAGE_PRESENT = false ->
  space_ok mc (mk_space root ARGUS_USER_BASE (root :: pages) 1 nx) (space_new root).
Proof.
  intros [Hpa Hb] Hr Hlive Hlen Hslot.
  assert (forall p t, sh_tabs (space_new root) !! p = Some t -> p = [] /\ t = root) as Hone.
  { intros p t Hp. simpl in Hp. apply lookup_singleton_Some in Hp as [? ?]. done. }
  constructor; cbn [us_user_base us_root_table us_table_pages us_table_page_count]; try done.
  - intros p t [-> ->]%Hone. split; [simpl; lia|done].
  - intros p t i [-> ->]%Hone _ [_ Hi]. rewrite (Hi eq_refl). simpl app.
    by destruct (sh_tabs (space_new root) !! [USER_SLOT]) eqn:E.
  - by intros p t i [-> ->]%Hone.
  - by intros p q t [-> ->]%Hone [-> _]%Hone.
  - intros p i c [Hp _]%Hone. by destruct p.
  - simpl. rewrite Hlen. split; [done|lia].
  - intros t. change (tables _) with [root]. rewrite list_elem_of_singleton. split.
    + intros ->. exists []. apply lookup_singleton_eq.
    + by intros [p [_ ->]%Hone].
  - change (tables _) with [root]. apply NoDup_singleton.
  - unfold own. change (tables _) with [root]. simpl. set_solver.
Qed.

Lemma create_spec mc k u0 ok u' mc' :
  machine_ok mc -> kernel_ok mc k ->
  paging_user_space_create mc (Some k) (Some u0) = (ok, u', mc') ->
  (ok = false /\ pa_ok (mc_pa mc') /\ pa_free (mc_pa mc') = pa_free (mc_pa mc)
    /\ pa_live (mc_pa mc') = pa_live (mc_pa mc)
    /\ forall x, ~ page_of x ∈ pa_free (mc_pa mc) -> mem_get (mc_mem mc') x = mem_get (mc_mem mc) x)
  \/ (ok = true /\ exists u g, u' = Some u /\ space_ok mc' u g /\ sh_leaf g = ∅
      /\ us_nx_enabled u = pi_nx_enabled k /\ own u ⊆ pa_free (mc_pa mc)
      /\ pa_free (mc_pa mc') ∪ own u = pa_free (mc_pa mc)
      /\ pa_live (mc_pa mc') ∖ own u = pa_live (mc_pa mc)
      /\ (forall x, ~ page_of x ∈ own u -> mem_get (mc_mem mc') x = mem_get (mc_mem mc) x)
      /\ forall j, 0 <= j < 512 -> entry (mc_mem mc') (us_root_table u) j
                                 = entry (mc_mem mc) (pi_root_table k) j).
Proof.
  intros Hm [[Hkm Hk0] Hkf]. pose proof Hm as [Hpa Hb]. unfold paging_user_space_create.
  assert (nz (pi_root_table k) = true) as -> by (unfold nz; lia). cbn [negb].
  set (u1 := mk_space 0 0 (replicate 16 0) 0 (pi_nx_enabled k)).
  destruct (allocate_user_table mc u1) as [[root u2] mc1] eqn:Ha.
  apply alloc_user_spec in Ha; [|done|done|simpl; lia|by apply empty_subseteq].
  destruct Ha as [(-> & -> & -> & _)|(pa1 & Hr & _ & Hrf & _ & -> & -> & Hpa1 & Hf1 & Hl1)].
  { intros [= <- <- <-]. left. done. }
  pose proof (pa_disjoint _ Hpa) as Hd. destruct Hr as [Hrm Hr0]. destruct (Z.eqb_spec root 0); [lia|].
  set (mc1 := with_memory (with_pa mc pa1) (zero_page (mc_mem mc) root)).
  assert (root <> pi_root_table k) as Hne by (intros ->; done).
  set (mc2 := with_memory mc1 (copy_table (mc_mem mc1) root (pi_root_table k))).
  assert (forall j, 0 <= j < 512 -> entry (mc_mem mc2) root j = entry (mc_mem mc) (pi_root_table k) j) as Hcopy.
  { intros j Hj. unfold mc2. cbn [with_memory mc_mem]. rewrite copy_table_entry, Z.eqb_refl by done. cbn [mc1 with_memory mc_mem].
    rewrite zero_page_entry by done. destruct (Z.eqb_spec root (pi_root_table k)); done. }
  change (ARGUS_USER_BASE >> 39) with USER_SLOT. destruct (has _ PAGE_PRESENT) eqn:Hslot.
  - unfold paging_user_space_destroy. rewrite tables_list by (simpl; vm_compute; split; discriminate).
    intros [= <- <- <-]. left. change (rev (tables (add_table u1 root))) with [root].
    destruct (pa_release_pages_spec pa1 [root] Hpa1) as (R1 & R2 & R3).
    + apply NoDup_singleton.
    + constructor; [split; [exact Hrm|lia]|constructor].
    + rewrite Hl1. cbn [map list_to_set]. rewrite union_empty_r_L. apply union_subseteq_r.
    + cbn [with_pa mc_pa].
      change (mc_pa mc2) with pa1. rewrite R2, R3, Hf1, Hl1. cbn [map list_to_set].
      rewrite union_empty_r_L.
      split_and!; [reflexivity|exact R1|by apply regain_free|by apply (regain_live (pa_free (mc_pa mc)))|].
      intros x Hx. assert (page_of x <> page_of root) as Hxr by (by intros Heq; apply Hx; rewrite Heq).
      unfold mc2. cbn [with_memory with_pa mc_mem]. rewrite copy_table_get by done. by apply zero_page_get.
  - intros [= <- <- <-]. right. split; [reflexivity|]. set (u := mk_space root _ _ _ _).
    assert (own u = {[page_of root]}) as Hown
      by (unfold own; change (tables u) with [root]; simpl; apply union_empty_r_L).
    exists u, (space_new root). split_and!; [reflexivity| |reflexivity|reflexivity|..].
    + apply new_space_ok; [|by split| |reflexivity|exact Hslot].
      * split; [exact Hpa1|]. intros q. change (mc_pa mc2) with pa1. rewrite Hf1, Hl1.
        intros Hq. apply Hb. clear -Hq Hrf. set_solver.
      * change (mc_pa mc2) with pa1. rewrite Hl1. clear. set_solver.
    + rewrite Hown. clear -Hrf. set_solver.
    + rewrite Hown. change (mc_pa mc2) with pa1. rewrite Hf1. by apply regain_free.
    + rewrite Hown. change (mc_pa mc2) with pa1. rewrite Hl1. by apply (regain_live (pa_free (mc_pa mc))).
    + rewrite Hown. intros x Hx. unfold mc2. cbn [with_memory mc_mem].
      rewrite not_elem_of_singleton in Hx. rewrite copy_table_get by done.
      by apply zero_page_get.
    + exact Hcopy.
Qed.

(** An operation on one space leaves another space as it was. *)
Lemma other_space_ok mc mc' (O : gset Z) u' v g :
  pa_free (mc_pa mc') ∪ own u' = pa_free (mc_pa mc) ∪ O ->
  pa_live (mc_pa mc') ∖ own u' = pa_live (mc_pa mc) ∖ O ->
  (forall x, ~ page_of x ∈ own u' -> mem_get (mc_mem mc') x = mem_get (mc_mem mc) x) ->
  machine_ok mc' -> space_ok mc v g -> O ## own v -> space_ok mc' v g /\ own u' ## own v.
Proof.
  intros Hfree Hlive Hmem [Hpa Hb] Hv Hd.
  pose proof (pa_disjoint _ (so_pa _ _ _ Hv)) as Hfl. pose proof (so_live _ _ _ Hv) as Hlv.
  assert (own u' ## own v) as Hd'.
  { intros q Hq Hqv. assert (q ∈ pa_free (mc_pa mc) ∪ O) as Hq' by (rewrite <- Hfree; by apply elem_of_union_r).
    apply elem_of_union in Hq' as [?|?]; [apply (Hfl q); [done|by apply Hlv]|by apply (Hd q)]. }
  split; [|done].
  assert (forall p t i, sh_tabs g !! p = Some t -> 0 <= i < 512 -> entry (mc_mem mc') t i = entry (mc_mem mc) t i) as He.
  { intros p t i Hp Hi. apply le_read_ext. intros x Hx. simpl Z.of_nat in Hx. apply Hmem.
    destruct (so_frame _ _ _ Hv p t Hp) as [_ [Ht _]].
    assert (page_of x = page_of t) as -> by (unfold page_of; Z.to_euclidean_division_equations; lia).
    intros Hq. apply (Hd' (page_of t) Hq), elem_of_own. exists t. split; [|done]. apply (so_tables _ _ _ Hv). eauto. }
  constructor; try apply Hv; try done.
  - intros p t i Hp Hl Hi. rewrite (He p) by (done || apply Hi). by apply Hv.
  - intros p t i Hp Hl Hi. rewrite (He p) by done. by apply Hv.
  - intros q Hq. assert (q ∈ pa_live (mc_pa mc) ∖ O) as Hq'.
    { apply elem_of_difference. split; [by apply Hlv|]. intros ?. by apply (Hd q). }
    rewrite <- Hlive in Hq'. by apply elem_of_difference in Hq' as [? _].
Qed.

Lemma space_machine_ok mc u g : space_ok mc u g -> machine_ok mc.
Proof. intros Hok. split; apply Hok. Qed.

Lemma lor_offset p o : frame0 p -> 0 <= o < 4096 -> Z.lor p o = p + o.
Proof. intros [? _] ?. by apply frame_lor. Qed.

Lemma window_offset va o : in_window va -> va mod 4096 = 0 -> 0 <= o < 4096 ->
  in_window (va + o) /\ page_of (va + o) = page_of va /\ (va + o) mod 4096 = o.
Proof.
  unfold in_window, page_of. change (2 ^ 39) with (134217728 * 4096). change (2 ^ 40) with (268435456 * 4096).
  intros. Z.to_euclidean_division_equations. lia.
Qed.

(** C4: [paging_user_map_page] followed by [paging_user_translate] is exact.
    When it returns 1, every address of the new page translates to the same
    offset of the physical page, with exactly the requested permissions: user
    accessible, writable only if asked, executable only if asked (when the
    processor supports NX); the page was not mapped before; and every address
    of every other page translates as it did.  When it returns 0, every
    address translates as it did. *)
Theorem user_map_translate mc u g va pa w x ok u' mc' :
  space_ok mc u g -> 0 <= pa < 2 ^ 52 ->
  paging_user_map_page mc u va pa w x = (ok, u', mc') ->
  (ok = true ->
    paging_user_translate (mc_mem mc) (Some u) va = None
    /\ forall o, 0 <= o < 4096 -> exists flags,
        paging_user_translate (mc_mem mc') (Some u') (va + o) = Some (pa + o, flags)
        /\ has flags PAGE_USER = true /\ has flags PAGE_WRITABLE = w
        /\ has flags PAGE_NX = negb x && us_nx_enabled u)
  /\ (forall va', in_window va' -> ok = false \/ page_of va' <> page_of va ->
       paging_user_translate (mc_mem mc') (Some u') va' = paging_user_translate (mc_mem mc) (Some u) va').
Proof.
  intros Hok Hpa Hm. pose proof (map_page_spec mc u g va pa w x ok u' mc' Hok Hpa Hm) as (g' & Hok' & Hg & Hcase).
  destruct Hcase as [(-> & Hl & _)|(-> & Hrej & Hn & Hl)].
  - split; [done|]. intros va' Hw' _. rewrite (translate_spec _ _ _ _ Hok' Hw'), (translate_spec _ _ _ _ Hok Hw').
    by rewrite Hl.
  - destruct (map_page_accepted u va pa (so_base _ _ _ Hok) Hrej) as (Hw & Hva & Hpm).
    assert (frame0 pa) as Hf by (split; done). split.
    + intros _. split; [by rewrite (translate_spec _ _ _ _ Hok Hw), Hn|]. intros o Ho.
      destruct (window_offset va o Hw Hva Ho) as (Hwo & Hpo & Hmo).
      exists (leaf_flags (us_nx_enabled u) w x).
      rewrite (translate_spec _ _ _ _ Hok' Hwo), Hl, (proj2 (path_inj (va + o) va Hwo Hw) Hpo), lookup_insert_eq.
      destruct (leaf_entry_bits pa (us_nx_enabled u) w x Hf) as (_ & _ & _ & Ht & Hfl).
      rewrite Ht, Hfl, Hmo, lor_offset by done. split; [done|]. by destruct (us_nx_enabled u), w, x.
    + intros va' Hw' [?|Hne]; [done|].
      rewrite (translate_spec _ _ _ _ Hok' Hw'), (translate_spec _ _ _ _ Hok Hw'), Hl, lookup_insert_ne; [done|].
      intros Heq. apply Hne. symmetry. by apply path_inj.
Qed.

(** [paging_user_map_page] refuses only for a reason: bad arguments (no
    root, misaligned addresses, an address outside the space's 512 GiB), a
    page that is already mapped, or no page left for a table (the space has
    its sixteen tables or the allocator is empty). *)
Theorem user_map_refusal mc u g va pa w x u' mc' :
  space_ok mc u g -> 0 <= pa < 2 ^ 52 ->
  paging_user_map_page mc u va pa w x = (false, u', mc') ->
  map_page_rejected u va pa = true
  \/ paging_user_translate (mc_mem mc) (Some u) va <> None
  \/ us_table_page_count u' = ARGUS_USER_TABLE_MAX_PAGES \/ pa_free (mc_pa mc') = ∅.
Proof.
  intros Hok Hpa Hm. pose proof (map_page_spec mc u g va pa w x _ u' mc' Hok Hpa Hm) as (g' & _ & _ & Hcase).
  destruct Hcase as [(_ & _ & Hwhy)|(? & _)]; [|done].
  destruct (map_page_rejected u va pa) eqn:Hrej; [by left|].
  destruct (map_page_accepted u va pa (so_base _ _ _ Hok) Hrej) as (Hw & _).
  destruct Hwhy as [?|[Hl|[?|?]]]; [done| |tauto|tauto]. right. left.
  rewrite (translate_spec _ _ _ _ Hok Hw). by destruct (sh_leaf g !! path va).
Qed.

(** User spaces are isolated from each other and from the kernel.  With
    two spaces on the machine whose tables are different pages, mapping a page
    in one changes no translation of the other and no root entry outside the
    one user slot, touches no memory outside its own tables, and their tables
    stay different pages. *)
Theorem user_spaces_isolated mc u gu v gv va pa w x ok u' mc' :
  space_ok mc u gu -> space_ok mc v gv -> own u ## own v -> 0 <= pa < 2 ^ 52 ->
  paging_user_map_page mc u va pa w x = (ok, u', mc') ->
  (forall va', in_window va' ->
    paging_user_translate (mc_mem mc') (Some v) va' = paging_user_translate (mc_mem mc) (Some v) va')
  /\ (forall j, 0 <= j < 512 -> j <> USER_SLOT ->
      entry (mc_mem mc') (us_root_table u') j = entry (mc_mem mc) (us_root_table u) j)
  /\ (forall a, ~ page_of a ∈ own u' -> mem_get (mc_mem mc') a = mem_get (mc_mem mc) a)
  /\ own u' ## own v.
Proof.
  intros Hu Hv Hd Hpa Hm. pose proof (map_page_spec _ _ _ _ _ _ _ _ _ _ Hu Hpa Hm) as (g' & Hu' & Hg & _).
  destruct (other_space_ok _ _ _ _ _ _ (gr_free _ _ _ _ Hg) (gr_live _ _ _ _ Hg) (gr_mem _ _ _ _ Hg)
              (space_machine_ok _ _ _ Hu') Hv Hd) as [Hv' Hd'].
  split_and!; [| |apply Hg|done].
  - intros va' Hw. by rewrite (translate_spec _ _ _ _ Hv' Hw), (translate_spec _ _ _ _ Hv Hw).
  - intros j Hj Hne. rewrite (gr_root _ _ _ _ Hg). by apply Hg.
Qed.

(** A history of mappings in one space. *)
Definition map_all_user (ops : list (Z * Z * (bool * bool))) (s : paging_user_space_t * machine S)
  : paging_user_space_t * machine S :=
  fold_left (fun '(u, mc) '(va, pa, (w, x)) =>
    let '(_, u', mc') := paging_user_map_page mc u va pa w x in (u', mc')) ops s.

Lemma map_all_grows ops u mc g :
  space_ok mc u g -> Forall (fun o => 0 <= snd (fst o) < 2 ^ 52) ops ->
  exists g', space_ok (snd (map_all_user ops (u, mc))) (fst (map_all_user ops (u, mc))) g'
    /\ grows mc u (snd (map_all_user ops (u, mc))) (fst (map_all_user ops (u, mc))).
Proof.
  revert u mc g. induction ops as [|[[va pa] [w x]] ops IH]; intros u mc g Hok HF.
  { exists g. split; [done|apply grows_refl]. }
  pose proof (Forall_inv HF) as Hpa. apply Forall_inv_tail in HF. simpl in Hpa. unfold map_all_user. simpl.
  destruct (paging_user_map_page mc u va pa w x) as [[ok u1] mc1] eqn:E.
  destruct (map_page_spec _ _ _ _ _ _ _ _ _ _ Hok Hpa E) as (g1 & Hok1 & Hg1 & _).
  destruct (IH u1 mc1 g1 Hok1 HF) as (g2 & Hok2 & Hg2). exists g2. split; [done|]. by eapply grows_trans.
Qed.

(** A user space never leaks and never gives back a page it does not own.
    Create a space, map any pages in it, destroy it: whatever the mappings
    returned, the allocator's free pages and pages in use are exactly those
    before the creation, and the kernel's memory is as it was. *)
Theorem user_space_lifecycle mc k u0 u mc1 ops :
  machine_ok mc -> kernel_ok mc k -> Forall (fun o => 0 <= snd (fst o) < 2 ^ 52) ops ->
  paging_user_space_create mc (Some k) (Some u0) = (true, Some u, mc1) ->
  let '(u2, mc2) := map_all_user ops (u, mc1) in
  let '(u3, mc3) := paging_user_space_destroy mc2 u2 in
  u3 = space0 /\ pa_free (mc_pa mc3) = pa_free (mc_pa mc)
  /\ pa_live (mc_pa mc3) = pa_live (mc_pa mc)
  /\ forall a, ~ page_of a ∈ pa_free (mc_pa mc) -> mem_get (mc_mem mc3) a = mem_get (mc_mem mc) a.
Proof.
  intros Hm Hk HF Hc. destruct (create_spec _ _ _ _ _ _ Hm Hk Hc) as [(? & _)|(_ & u1 & g & [= <-] & Hok & _ & _ & Hsub & Hf & Hl & Hmem & _)]; [done|].
  destruct (map_all_grows ops u mc1 g Hok HF) as (g' & Hok' & Hg).
  destruct (map_all_user ops (u, mc1)) as [u2 mc2]. cbn [fst snd] in *.
  pose proof (destroy_spec mc2 u2 g' Hok') as Hd. destruct (paging_user_space_destroy mc2 u2) as [u3 mc3].
  destruct Hd as (-> & _ & Hm3 & Hf3 & Hl3). pose proof (gr_free _ _ _ _ Hg) as Hgf. pose proof (gr_live _ _ _ _ Hg) as Hgl.
  split_and!; [done|by rewrite Hf3, Hgf|by rewrite Hl3, Hgl|].
  intros a Ha. rewrite Hm3, (gr_mem _ _ _ _ Hg), Hmem; [done| |].
  - intros Ho. by apply Ha, Hsub.
  - intros Ho. apply Ha. rewrite <- Hf, <- Hgf. by apply elem_of_union_r.
Qed.
End translation.

(** ** Witnesses: two spaces on the sample machine of Pmm.v *)

#[local] Opaque sample_pmm.

Definition sample_machine : machine pmm_state := mk_machine sample_pmm ∅ 0 0 false false.
Definition sample_kernel : paging_info_t := mk_paging 0x110000 0x200000 1 0 true.
Definition sample_create := paging_user_space_create sample_machine (Some sample_kernel) (Some space0).
Definition sample_space : paging_user_space_t := default space0 (snd (fst sample_create)).
Definition sample_mc : machine pmm_state := snd sample_create.
Definition sample_create2 := paging_user_space_create sample_mc (Some sample_kernel) (Some space0).
Definition sample_space2 : paging_user_space_t := default space0 (snd (fst sample_create2)).
Definition sample_mc2 : machine pmm_state := snd sample_create2.

Lemma sample_machine_ok : machine_ok sample_machine.
Proof.
  split; [exact sample_pmm_ok|]. intros q Hq.
  assert (Forall (fun q => 0 < q < 2 ^ 40) (elements (free_set sample_pmm ∪ live_set sample_pmm))) as HF
    by (apply (bool_decide_unpack _); vm_compute; exact I).
  change (q ∈ free_set sample_pmm ∪ live_set sample_pmm) in Hq.
  set (E := free_set sample_pmm ∪ live_set sample_pmm) in *. clearbody E.
  rewrite List.Forall_forall in HF. apply HF. rewrite <- list_elem_of_In. by apply elem_of_elements.
Qed.

Lemma sample_kernel_ok : kernel_ok sample_machine sample_kernel.
Proof.
  split; [split; [reflexivity|vm_compute; split; reflexivity]|].
  apply (bool_decide_unpack _). vm_compute. exact I.
Qed.

Lemma sample_create_eq : sample_create = (true, Some sample_space, sample_mc).
Proof.
  assert (fst (fst sample_create) = true /\ is_Some (snd (fst sample_create))) as [H1 [u H2]]
    by (vm_compute; split; [reflexivity|eexists; reflexivity]).
  unfold sample_mc, sample_space. destruct sample_create as [[ok u'] mc]. simpl in *. by subst.
Qed.

#[local] Opaque sample_space sample_mc.

Lemma sample_space_ok : exists g, space_ok sample_mc sample_space g.
Proof.
  pose proof (create_spec sample_machine sample_kernel space0 _ _ _ sample_machine_ok sample_kernel_ok sample_create_eq) as H.
  destruct H as [(? & _)|(_ & u & g & Hu & Hok & _)]; [done|].
  apply (inj Some) in Hu. subst u. exists g. exact Hok.
Qed.

Lemma sample_create2_eq : sample_create2 = (true, Some sample_space2, sample_mc2).
Proof.
  assert (fst (fst sample_create2) = true /\ is_Some (snd (fst sample_create2))) as [H1 [u H2]]
    by (vm_compute; split; [reflexivity|eexists; reflexivity]).
  unfold sample_mc2, sample_space2. destruct sample_create2 as [[ok u'] mc]. simpl in *. by subst.
Qed.

#[local] Opaque sample_space2 sample_mc2.

Lemma sample_kernel_ok2 : kernel_ok sample_mc sample_kernel.
Proof.
  destruct sample_kernel_ok as [Hf Hn]. split; [exact Hf|].
  pose proof (create_spec sample_machine sample_kernel space0 _ _ _ sample_machine_ok sample_kernel_ok sample_create_eq) as H.
  destruct H as [(? & _)|(_ & u & g & _ & _ & _ & _ & _ & Hfree & _)]; [done|].
  intros Hin. apply Hn. rewrite <- Hfree. by apply elem_of_union_l.
Qed.

(** Both spaces are well formed after the second creation, on different pages. *)
Lemma sample_spaces_ok :
  exists g g2, space_ok sample_mc2 sample_space g /\ space_ok sample_mc2 sample_space2 g2
    /\ own sample_space ## own sample_space2.
Proof.
  destruct sample_space_ok as [g Hg].
  pose proof (create_spec sample_mc sample_kernel space0 true (Some sample_space2) sample_mc2
                (space_machine_ok _ _ _ Hg) sample_kernel_ok2 sample_create2_eq) as H.
  destruct H as [(? & _)|(_ & u & g2 & Hu & Hok & _ & _ & _ & Hf & Hl & Hmem & _)]; [done|].
  apply (inj Some) in Hu. subst u.
  destruct (other_space_ok sample_mc sample_mc2 ∅ sample_space2 sample_space g) as [H1 H2].
  - rewrite union_empty_r_L. exact Hf.
  - rewrite difference_empty_L. exact Hl.
  - exact Hmem.
  - by eapply space_machine_ok.
  - exact Hg.
  - apply disjoint_empty_l.
  - exists g, g2. split_and!; [done|done|by symmetry].
Qed.

Definition sample_map := paging_user_map_page sample_mc sample_space (ARGUS_USER_BASE + 0x1000) 0x150000 true false.

Example sample_map_works :
  fst (fst sample_map) = true
  /\ paging_user_translate (mc_mem (snd sample_map)) (Some (snd (fst sample_map))) (ARGUS_USER_BASE + 0x1234)
     = Some (0x150234, Z.lor 7 PAGE_NX).
Proof. vm_compute. auto. Qed.

Lemma sample_map_eq : sample_map = (true, snd (fst sample_map), snd sample_map).
Proof.
  assert (fst (fst sample_map) = true) as H by (vm_compute; reflexivity).
  destruct sample_map as [[ok u] mc]. simpl in *. by subst.
Qed.

Lemma user_map_translate_witness :
  paging_user_translate (mc_mem (snd sample_map)) (Some (snd (fst sample_map))) (ARGUS_USER_BASE + 0x5000)
  = paging_user_translate (mc_mem sample_mc) (Some sample_space) (ARGUS_USER_BASE + 0x5000).
Proof.
  destruct sample_space_ok as [g Hg].
  destruct (user_map_translate sample_mc sample_space g (ARGUS_USER_BASE + 0x1000) 0x150000 true false
              true (snd (fst sample_map)) (snd sample_map) Hg ltac:(lia) sample_map_eq) as [_ H].
  apply H; [split; vm_compute; congruence|right; vm_compute; discriminate].
Defined.

Lemma user_map_refusal_witness :
  map_page_rejected sample_space (ARGUS_USER_BASE + 1) 0x150000 = true
  \/ paging_user_translate (mc_mem sample_mc) (Some sample_space) (ARGUS_USER_BASE + 1) <> None
  \/ us_table_page_count sample_space = ARGUS_USER_TABLE_MAX_PAGES \/ pa_free (mc_pa sample_mc) = ∅.
Proof.
  destruct sample_space_ok as [g Hg].
  apply (user_map_refusal sample_mc sample_space g (ARGUS_USER_BASE + 1) 0x150000 true true).
  - exact Hg.
  - lia.
  - unfold paging_user_map_page.
    assert (map_page_rejected sample_space (ARGUS_USER_BASE + 1) 0x150000 = true) as -> by (vm_compute; reflexivity).
    reflexivity.
Defined.

Lemma user_spaces_isolated_witness :
  let '(_, u', mc') := paging_user_map_page sample_mc2 sample_space (ARGUS_USER_BASE + 0x1000) 0x150000 true false in
  own u' ## own sample_space2.
Proof.
  destruct sample_spaces_ok as (g & g2 & H1 & H2 & H3).
  destruct (paging_user_map_page _ _ _ _ _ _) as [[ok u'] mc'] eqn:E.
  destruct (user_spaces_isolated sample_mc2 sample_space g sample_space2 g2 (ARGUS_USER_BASE + 0x1000)
              0x150000 true false ok u' mc' H1 H2 H3 ltac:(lia) E) as (_ & _ & _ & H). exact H.
Defined.

Lemma user_space_lifecycle_witness :
  let '(u2, mc2) := map_all_user [(ARGUS_USER_BASE + 0x1000, 0x150000, (true, false))] (sample_space, sample_mc) in
  pa_free (mc_pa (snd (paging_user_space_destroy mc2 u2))) = pa_free sample_pmm.
Proof.
  assert (Forall (fun o => 0 <= snd (fst o) < 2 ^ 52)
            [(ARGUS_USER_BASE + 0x1000, 0x150000, (true, false))]) as HF
    by (constructor; [simpl; lia|constructor]).
  pose proof (user_space_lifecycle sample_machine sample_kernel space0 sample_space sample_mc _
                sample_machine_ok sample_kernel_ok HF sample_create_eq) as H.
  destruct (map_all_user _ _) as [u2 mc2]. destruct (paging_user_space_destroy mc2 u2) as [u3 mc3].
  exact (proj1 (proj2 H)).
Defined.
