(* ===== verification/Process.v ===== *)
(** * Processes: data, loading and release (src/process.c, src/process.h)

    A process owns an address space, the pages of its image, its stack and its
    surface, a capability table, an IPC endpoint and an input ring.  The source's
    one flat struct is grouped here into records: the memory it owns, the input
    ring, the fault report and the rest.  Loading and releasing thread the machine
    (memory, page allocator, control registers) and the IPC endpoints through the
    calls in the order the source makes them.  A load is an [option]: [None] is a
    store past the array of image pages. *)

From stdpp Require Import base list gmap numbers.
From Stdlib Require Import ZArith Lia.
From S2P Require Import Prelude Memory Capability Anonymity Ipc BootInfo Allocator Pmm Elf Paging.

Open Scope Z_scope.

Definition PROCESS_PROBE_COUNT : Z := 2.
Definition APP_PROCESS_COUNT : Z := 3.
Definition APP_PROCESS_FIRST : Z := PROCESS_PROBE_COUNT.
Definition PROCESS_TEST_SLOT : Z := APP_PROCESS_FIRST.
Definition USER_CODE_OFFSET : Z := 0x1000.
Definition USER_STACK_OFFSET : Z := 0x200000.
Definition USER_SURFACE_OFFSET : Z := 0x400000.
Definition USER_WRITE_LIMIT : Z := 128.
Definition APP_INPUT_CAPACITY : Z := 32.
Definition APP_START_DISPATCH_LIMIT : Z := 32.
Definition X86_PAGE_WRITABLE : Z := 2.
Definition X86_PAGE_NO_EXECUTE : Z := 2 ^ 63.
Definition ARGUS_PROCESS_MAX : Z := 8.
Definition ARGUS_APP_SURFACE_ADDRESS : Z := 0x0000008000400000.
Definition ARGUS_APP_SURFACE_WIDTH : Z := 320.
Definition ARGUS_APP_SURFACE_HEIGHT : Z := 224.
Definition ARGUS_APP_SURFACE_STRIDE : Z := ARGUS_APP_SURFACE_WIDTH.
Definition ARGUS_APP_SURFACE_BYTES : Z := 320 * 224.
Definition ARGUS_APP_PALETTE_COUNT : Z := 8.
Definition ARGUS_APP_ABI_VERSION : Z := 1.
Definition ARGUS_APP_PRESENT_MAGIC : Z := 0x41505031.
Definition ARGUS_APP_ID_SNAKE : Z := 1.
Definition ARGUS_APP_ID_CALCULATOR : Z := 2.
Definition ARGUS_APP_ID_NOTES : Z := 3.

Inductive argus_process_state_t :=
  | ARGUS_PROCESS_UNUSED
  | ARGUS_PROCESS_READY
  | ARGUS_PROCESS_RUNNING
  | ARGUS_PROCESS_BLOCKED
  | ARGUS_PROCESS_EXITED
  | ARGUS_PROCESS_FAULTED.

#[export] Instance process_state_eq_dec : EqDecision argus_process_state_t.
Proof. solve_decision. Defined.

(** [state == s] *)
Definition is_state (s s' : argus_process_state_t) : bool := bool_decide (s = s').

Record arch_user_context_t := mk_context {
  cx_r15 : Z; cx_r14 : Z; cx_r13 : Z; cx_r12 : Z; cx_r11 : Z;
  cx_r10 : Z; cx_r9 : Z; cx_r8 : Z; cx_rdi : Z; cx_rsi : Z;
  cx_rbp : Z; cx_rdx : Z; cx_rcx : Z; cx_rbx : Z; cx_rax : Z;
  cx_rip : Z; cx_rflags : Z; cx_rsp : Z }.

Definition context0 : arch_user_context_t := mk_context 0 0 0 0 0 0 0 0 0 0 0 0 0 0 0 0 0 0.

Record interrupt_frame_t := mk_frame {
  fr_r15 : Z; fr_r14 : Z; fr_r13 : Z; fr_r12 : Z; fr_r11 : Z;
  fr_r10 : Z; fr_r9 : Z; fr_r8 : Z; fr_rdi : Z; fr_rsi : Z;
  fr_rbp : Z; fr_rdx : Z; fr_rcx : Z; fr_rbx : Z; fr_rax : Z;
  fr_vector : Z; fr_error_code : Z; fr_rip : Z; fr_cs : Z; fr_rflags : Z;
  fr_rsp : Z; fr_ss : Z }.

Definition set_rax (c : arch_user_context_t) (v : Z) : arch_user_context_t :=
  mk_context
    (cx_r15 c) (cx_r14 c) (cx_r13 c) (cx_r12 c) (cx_r11 c) (cx_r10 c) (cx_r9 c) (cx_r8 c)
    (cx_rdi c) (cx_rsi c) (cx_rbp c) (cx_rdx c) (cx_rcx c) (cx_rbx c) v (cx_rip c)
    (cx_rflags c) (cx_rsp c).

(** The memory a process owns. *)
Record process_memory := mk_memory {
  pm_address_space : paging_user_space_t;
  pm_image_physical : list Z;
  pm_image_page_count : Z;
  pm_stack_physical : Z;
  pm_surface_physical : Z;
  pm_surface_page_count : Z;
  pm_code_virtual : Z;
  pm_stack_virtual : Z }.

(** The ring of keys waiting for an application. *)
Record input_ring := mk_ring {
  ring_keys : list Z;
  ring_head : Z;
  ring_tail : Z;
  ring_delivered : Z }.

Record fault_report := mk_fault {
  fault_vector : Z;
  fault_error : Z;
  fault_rip : Z;
  fault_address : Z }.

Record process_t := mk_process {
  pr_pid : Z;
  pr_state : argus_process_state_t;
  pr_memory : process_memory;
  pr_app_id : Z;
  pr_present_sequence : Z;
  pr_present_valid : bool;
  pr_active : bool;
  pr_input : input_ring;
  pr_wait_deadline : Z;
  pr_context : arch_user_context_t;
  pr_exit_status : Z;
  pr_yields : Z;
  pr_fault : fault_report;
  pr_security_role : Z;
  pr_capabilities : argus_capability_table_t;
  pr_ipc_endpoint : Z }.

Definition memory0 : process_memory := mk_memory space0 (replicate 16 0) 0 0 0 0 0 0.
Definition ring0 : input_ring := mk_ring (replicate 32 0) 0 0 0.
(** [(process_t){0}] *)
Definition process0 : process_t :=
  mk_process 0 ARGUS_PROCESS_UNUSED memory0 0 0 false false ring0 0 context0 0 0
    (mk_fault 0 0 0 0) 0 table0 0.

(** Field updates. *)
Definition set_state (p : process_t) v : process_t :=
  mk_process
    (pr_pid p) v (pr_memory p) (pr_app_id p) (pr_present_sequence p) (pr_present_valid p)
    (pr_active p) (pr_input p) (pr_wait_deadline p) (pr_context p) (pr_exit_status p)
    (pr_yields p) (pr_fault p) (pr_security_role p) (pr_capabilities p) (pr_ipc_endpoint p).
Definition set_memory (p : process_t) v : process_t :=
  mk_process
    (pr_pid p) (pr_state p) v (pr_app_id p) (pr_present_sequence p) (pr_present_valid p)
    (pr_active p) (pr_input p) (pr_wait_deadline p) (pr_context p) (pr_exit_status p)
    (pr_yields p) (pr_fault p) (pr_security_role p) (pr_capabilities p) (pr_ipc_endpoint p).
Definition set_present_sequence (p : process_t) v : process_t :=
  mk_process
    (pr_pid p) (pr_state p) (pr_memory p) (pr_app_id p) v (pr_present_valid p)
    (pr_active p) (pr_input p) (pr_wait_deadline p) (pr_context p) (pr_exit_status p)
    (pr_yields p) (pr_fault p) (pr_security_role p) (pr_capabilities p) (pr_ipc_endpoint p).
Definition set_present_valid (p : process_t) v : process_t :=
  mk_process
    (pr_pid p) (pr_state p) (pr_memory p) (pr_app_id p) (pr_present_sequence p) v
    (pr_active p) (pr_input p) (pr_wait_deadline p) (pr_context p) (pr_exit_status p)
    (pr_yields p) (pr_fault p) (pr_security_role p) (pr_capabilities p) (pr_ipc_endpoint p).
Definition set_active (p : process_t) v : process_t :=
  mk_process
    (pr_pid p) (pr_state p) (pr_memory p) (pr_app_id p) (pr_present_sequence p)
    (pr_present_valid p) v (pr_input p) (pr_wait_deadline p) (pr_context p)
    (pr_exit_status p) (pr_yields p) (pr_fault p) (pr_security_role p) (pr_capabilities p)
    (pr_ipc_endpoint p).
Definition set_input (p : process_t) v : process_t :=
  mk_process
    (pr_pid p) (pr_state p) (pr_memory p) (pr_app_id p) (pr_present_sequence p)
    (pr_present_valid p) (pr_active p) v (pr_wait_deadline p) (pr_context p)
    (pr_exit_status p) (pr_yields p) (pr_fault p) (pr_security_role p) (pr_capabilities p)
    (pr_ipc_endpoint p).
Definition set_wait_deadline (p : process_t) v : process_t :=
  mk_process
    (pr_pid p) (pr_state p) (pr_memory p) (pr_app_id p) (pr_present_sequence p)
    (pr_present_valid p) (pr_active p) (pr_input p) v (pr_context p) (pr_exit_status p)
    (pr_yields p) (pr_fault p) (pr_security_role p) (pr_capabilities p) (pr_ipc_endpoint p).
Definition set_context (p : process_t) v : process_t :=
  mk_process
    (pr_pid p) (pr_state p) (pr_memory p) (pr_app_id p) (pr_present_sequence p)
    (pr_present_valid p) (pr_active p) (pr_input p) (pr_wait_deadline p) v
    (pr_exit_status p) (pr_yields p) (pr_fault p) (pr_security_role p) (pr_capabilities p)
    (pr_ipc_endpoint p).
Definition set_exit_status (p : process_t) v : process_t :=
  mk_process
    (pr_pid p) (pr_state p) (pr_memory p) (pr_app_id p) (pr_present_sequence p)
    (pr_present_valid p) (pr_active p) (pr_input p) (pr_wait_deadline p) (pr_context p) v
    (pr_yields p) (pr_fault p) (pr_security_role p) (pr_capabilities p) (pr_ipc_endpoint p).
Definition set_yields (p : process_t) v : process_t :=
  mk_process
    (pr_pid p) (pr_state p) (pr_memory p) (pr_app_id p) (pr_present_sequence p)
    (pr_present_valid p) (pr_active p) (pr_input p) (pr_wait_deadline p) (pr_context p)
    (pr_exit_status p) v (pr_fault p) (pr_security_role p) (pr_capabilities p)
    (pr_ipc_endpoint p).
Definition set_fault (p : process_t) v : process_t :=
  mk_process
    (pr_pid p) (pr_state p) (pr_memory p) (pr_app_id p) (pr_present_sequence p)
    (pr_present_valid p) (pr_active p) (pr_input p) (pr_wait_deadline p) (pr_context p)
    (pr_exit_status p) (pr_yields p) v (pr_security_role p) (pr_capabilities p)
    (pr_ipc_endpoint p).
Definition set_capabilities (p : process_t) v : process_t :=
  mk_process
    (pr_pid p) (pr_state p) (pr_memory p) (pr_app_id p) (pr_present_sequence p)
    (pr_present_valid p) (pr_active p) (pr_input p) (pr_wait_deadline p) (pr_context p)
    (pr_exit_status p) (pr_yields p) (pr_fault p) (pr_security_role p) v
    (pr_ipc_endpoint p).
Definition set_ipc_endpoint (p : process_t) v : process_t :=
  mk_process
    (pr_pid p) (pr_state p) (pr_memory p) (pr_app_id p) (pr_present_sequence p)
    (pr_present_valid p) (pr_active p) (pr_input p) (pr_wait_deadline p) (pr_context p)
    (pr_exit_status p) (pr_yields p) (pr_fault p) (pr_security_role p) (pr_capabilities p)
    v.
Definition put_address_space (o : process_memory) v : process_memory :=
  mk_memory
    v (pm_image_physical o) (pm_image_page_count o) (pm_stack_physical o)
    (pm_surface_physical o) (pm_surface_page_count o) (pm_code_virtual o)
    (pm_stack_virtual o).
Definition put_image_physical (o : process_memory) v : process_memory :=
  mk_memory
    (pm_address_space o) v (pm_image_page_count o) (pm_stack_physical o)
    (pm_surface_physical o) (pm_surface_page_count o) (pm_code_virtual o)
    (pm_stack_virtual o).
Definition put_image_page_count (o : process_memory) v : process_memory :=
  mk_memory
    (pm_address_space o) (pm_image_physical o) v (pm_stack_physical o)
    (pm_surface_physical o) (pm_surface_page_count o) (pm_code_virtual o)
    (pm_stack_virtual o).
Definition put_stack_physical (o : process_memory) v : process_memory :=
  mk_memory
    (pm_address_space o) (pm_image_physical o) (pm_image_page_count o) v
    (pm_surface_physical o) (pm_surface_page_count o) (pm_code_virtual o)
    (pm_stack_virtual o).
Definition put_surface_physical (o : process_memory) v : process_memory :=
  mk_memory
    (pm_address_space o) (pm_image_physical o) (pm_image_page_count o)
    (pm_stack_physical o) v (pm_surface_page_count o) (pm_code_virtual o)
    (pm_stack_virtual o).
Definition put_surface_page_count (o : process_memory) v : process_memory :=
  mk_memory
    (pm_address_space o) (pm_image_physical o) (pm_image_page_count o)
    (pm_stack_physical o) (pm_surface_physical o) v (pm_code_virtual o)
    (pm_stack_virtual o).
Definition put_code_virtual (o : process_memory) v : process_memory :=
  mk_memory
    (pm_address_space o) (pm_image_physical o) (pm_image_page_count o)
    (pm_stack_physical o) (pm_surface_physical o) (pm_surface_page_count o) v
    (pm_stack_virtual o).
Definition put_stack_virtual (o : process_memory) v : process_memory :=
  mk_memory
    (pm_address_space o) (pm_image_physical o) (pm_image_page_count o)
    (pm_stack_physical o) (pm_surface_physical o) (pm_surface_page_count o)
    (pm_code_virtual o) v.

Definition grant_process_capability (p : process_t) (type rights object : Z) : Z * process_t :=
  if ((type =? ARGUS_CAPABILITY_ANONYMOUS_STREAM) || (type =? ARGUS_CAPABILITY_RAW_NETWORK)) &&
     negb (anonymity_capability_allowed (pr_security_role p) type rights)
  then (0, p)
  else
    let '(handle, table) := capability_grant (Some (pr_capabilities p)) type rights object in
    (handle, set_capabilities p (default (pr_capabilities p) table)).

(** [process_capability_policy_self_test]: the candidate's role is assigned
    before each group of grants. *)
Definition with_role (p : process_t) (role : Z) : process_t :=
  mk_process (pr_pid p) (pr_state p) (pr_memory p) (pr_app_id p) (pr_present_sequence p)
    (pr_present_valid p) (pr_active p) (pr_input p) (pr_wait_deadline p) (pr_context p)
    (pr_exit_status p) (pr_yields p) (pr_fault p) role (pr_capabilities p) (pr_ipc_endpoint p).

Definition process_capability_policy_self_test : bool :=
  let connect := ARGUS_CAP_RIGHT_CONNECT in
  let raw_network := ARGUS_CAPABILITY_RAW_NETWORK in
  let stream := ARGUS_CAPABILITY_ANONYMOUS_STREAM in
  let table := default table0 (capability_table_init (Some (pr_capabilities process0)) 0x53454355) in
  let candidate := with_role (set_capabilities process0 table) ARGUS_SECURITY_ROLE_UTILITY in
  let '(first, candidate) := grant_process_capability candidate raw_network connect 1 in
  if nz first then false else
  let '(second, candidate) := grant_process_capability candidate stream connect 2 in
  if nz second then false else
  let candidate := with_role candidate ARGUS_SECURITY_ROLE_TOR_TRANSPORT in
  let '(raw, candidate) := grant_process_capability candidate raw_network connect 3 in
  if negb (nz raw) then false else
  let '(revoked, table) := capability_revoke (Some (pr_capabilities candidate)) raw in
  if negb revoked then false else
  let candidate := with_role (set_capabilities candidate (default table0 table))
                     ARGUS_SECURITY_ROLE_BROWSER_NETWORK in
  let '(anonymous, candidate) := grant_process_capability candidate stream connect 4 in
  nz anonymous && fst (capability_revoke (Some (pr_capabilities candidate)) anonymous).

Example process_capability_policy_self_test_passes : process_capability_policy_self_test = true.
Proof. vm_compute. reflexivity. Qed.

(** The byte loop of the source's own [zero_page]. *)
Definition zero_bytes (m : mem) (physical : Z) : mem := memset m physical 0 ARGUS_PAGE_SIZE.

(** [for (index < amount) destination[index] = source[offset + index]] *)
Definition copy_image (m : mem) (destination : Z) (source : list Z) (offset amount : Z) : mem :=
  for_range 0 amount (fun i m => mem_set m (destination + i) (zget 0 source (offset + i))) m.

Section loading.
Context {S : Type} `{PageAllocator S}.
Implicit Types mc : machine S.

(** [pmm_free_page] on the recorded image pages that are set. *)
Definition release_image (pa : S) (pages : list Z) : S :=
  fold_left (fun pa a => if nz a then snd (pa_release pa a 1) else pa) pages pa.

Definition release_process mc (ipc : ipc_state) (p : process_t) : process_t * machine S * ipc_state :=
  let o := pr_memory p in
  let ipc := if nz (pr_ipc_endpoint p) then snd (ipc_endpoint_destroy ipc (pr_ipc_endpoint p)) else ipc in
  let '(_, mc) := paging_user_space_destroy mc (pm_address_space o) in
  let pages := map (fun i => zget 0 (pm_image_physical o) i)
                 (zrange 0 (Z.to_nat (pm_image_page_count o))) in
  let pa := release_image (mc_pa mc) pages in
  let pa := if nz (pm_stack_physical o) then snd (pa_release pa (pm_stack_physical o) 1) else pa in
  let pa := if nz (pm_surface_physical o) && nz (pm_surface_page_count o)
            then snd (pa_release pa (pm_surface_physical o) (pm_surface_page_count o)) else pa in
  (process0, with_pa mc pa, ipc).

(** The early [release_process(process); return 0;] *)
Definition fail_process mc ipc (p : process_t) : bool * process_t * machine S * ipc_state :=
  let '(p, mc, ipc) := release_process mc ipc p in (false, p, mc, ipc).

(** The loop that zeroes and maps the surface pages. *)
Fixpoint map_surface (pages : list Z) mc (p : process_t) : bool * process_t * machine S :=
  match pages with
  | [] => (true, p, mc)
  | page :: rest =>
      let o := pr_memory p in
      let physical := u64 (pm_surface_physical o + page * ARGUS_PAGE_SIZE) in
      let mc := with_memory mc (zero_bytes (mc_mem mc) physical) in
      let space := pm_address_space o in
      let '(ok, space, mc) :=
        paging_user_map_page mc space
          (u64 (us_user_base space + USER_SURFACE_OFFSET + page * ARGUS_PAGE_SIZE)) physical true false in
      let p := set_memory p (put_address_space o space) in
      if ok then map_surface rest mc p else (false, p, mc)
  end.

(** The four grants an application gets, in order, stopping at the first
    failure. *)
Fixpoint grant_all (p : process_t) (grants : list (Z * Z * Z)) : bool * process_t :=
  match grants with
  | [] => (true, p)
  | (type, rights, object) :: rest =>
      let '(handle, p) := grant_process_capability p type rights object in
      if nz handle then grant_all p rest else (false, p)
  end.

Definition app_grants (p : process_t) : list (Z * Z * Z) :=
  [(ARGUS_CAPABILITY_CLOCK, ARGUS_CAP_RIGHT_READ, 0);
   (ARGUS_CAPABILITY_INPUT, Z.lor ARGUS_CAP_RIGHT_READ ARGUS_CAP_RIGHT_WAIT, pr_app_id p);
   (ARGUS_CAPABILITY_SURFACE, ARGUS_CAP_RIGHT_PRESENT, pm_surface_physical (pr_memory p));
   (ARGUS_CAPABILITY_IPC, ARGUS_CAP_RIGHT_RECEIVE, pr_ipc_endpoint p)].

(** The part of [prepare_process] for applications. *)
Definition prepare_app mc ipc (p : process_t) : bool * process_t * machine S * ipc_state :=
  let count := (ARGUS_APP_SURFACE_BYTES + ARGUS_PAGE_SIZE - 1) / ARGUS_PAGE_SIZE in
  let p := set_memory p (put_surface_page_count (pr_memory p) count) in
  let '(surface, pa) := pa_alloc (mc_pa mc) count in
  let mc := with_pa mc pa in
  let p := set_memory p (put_surface_physical (pr_memory p) surface) in
  if surface =? 0 then fail_process mc ipc p
  else
    let '(ok, p, mc) := map_surface (zrange 0 (Z.to_nat count)) mc p in
    if negb ok then fail_process mc ipc p
    else
      let '(endpoint, ipc) := ipc_endpoint_create ipc (pr_pid p) in
      let p := set_ipc_endpoint p endpoint in
      if endpoint =? 0 then fail_process mc ipc p
      else
        let '(ok, p) := grant_all p (app_grants p) in
        if ok then (true, p, mc, ipc) else fail_process mc ipc p.

Definition prepare_process mc ipc (kernel_paging : option paging_info_t) (p : process_t) (pid app_id : Z)
  : bool * process_t * machine S * ipc_state :=
  match kernel_paging with
  | None => (false, p, mc, ipc)
  | Some _ =>
      if negb (nz pid) then (false, p, mc, ipc)
      else
        let table := default table0 (capability_table_init (Some (pr_capabilities process0)) pid) in
        let p := mk_process pid ARGUS_PROCESS_UNUSED memory0 app_id 0 false false ring0 0 context0 0 0
                   (mk_fault 0 0 0 0) ARGUS_SECURITY_ROLE_UTILITY table 0 in
        let '(ok, space, mc) := paging_user_space_create mc kernel_paging (Some space0) in
        let p := set_memory p (put_address_space memory0 (default space0 space)) in
        if negb ok then (false, p, mc, ipc)
        else
          let base := us_user_base (pm_address_space (pr_memory p)) in
          let '(stack, pa) := pa_alloc (mc_pa mc) 1 in
          let mc := with_pa mc pa in
          let stack_virtual := u64 (base + USER_STACK_OFFSET) in
          let p := set_memory p (put_stack_physical (put_stack_virtual (pr_memory p) stack_virtual) stack) in
          if stack =? 0 then fail_process mc ipc p
          else
            let mc := with_memory mc (zero_bytes (mc_mem mc) stack) in
            let '(ok, space, mc) := paging_user_map_page mc (pm_address_space (pr_memory p)) stack_virtual
                                      stack true false in
            let p := set_memory p (put_address_space (pr_memory p) space) in
            if negb ok then fail_process mc ipc p
            else if nz app_id then prepare_app mc ipc p else (true, p, mc, ipc)
  end.

Definition initialize_context (p : process_t) (instruction_pointer : Z) : process_t :=
  let c := pr_context p in
  set_state
    (set_context p
      (mk_context (cx_r15 c) (cx_r14 c) (cx_r13 c) (cx_r12 c) (cx_r11 c) (cx_r10 c) (cx_r9 c) (cx_r8 c)
         (pr_pid p) (cx_rsi c) (cx_rbp c) (cx_rdx c) (cx_rcx c) (cx_rbx c) (cx_rax c)
         instruction_pointer 0x202 (u64 (pm_stack_virtual (pr_memory p) + ARGUS_PAGE_SIZE - 8))))
    ARGUS_PROCESS_READY.

(** [process->image_physical[process->image_page_count++] = physical;]  The
    array has [ARGUS_ELF_MAX_IMAGE_PAGES] elements.  [None] is the store past its
    end, which C leaves undefined: the loader has no result from there on, and
    neither has an operation that called it. *)
Definition record_page (p : process_t) (physical : Z) : option process_t :=
  let o := pr_memory p in
  if pm_image_page_count o <? ARGUS_ELF_MAX_IMAGE_PAGES then
    Some (set_memory p
            (put_image_page_count
               (put_image_physical o (zset (pm_image_physical o) (pm_image_page_count o) physical))
               (u32 (pm_image_page_count o + 1))))
  else None.

(** One page of an image: allocate, record, zero, copy, map. *)
Definition load_page mc (p : process_t) (source : list Z) (offset amount va : Z) (writable executable : bool)
  : option (bool * process_t * machine S) :=
  let '(physical, pa) := pa_alloc (mc_pa mc) 1 in
  let mc := with_pa mc pa in
  if physical =? 0 then Some (false, p, mc)
  else
    match record_page p physical with
    | None => None
    | Some p =>
        let mc := with_memory mc (copy_image (zero_bytes (mc_mem mc) physical) physical source offset amount) in
        let '(ok, space, mc) := paging_user_map_page mc (pm_address_space (pr_memory p)) va physical
                                  writable executable in
        Some (ok, set_memory p (put_address_space (pr_memory p) space), mc)
    end.

(** The page loop of [load_flat_probe]; [copied] bytes are in place. *)
Fixpoint load_flat_pages (pages : list Z) mc (p : process_t) (image : list Z) (copied : Z)
  : option (bool * process_t * machine S) :=
  match pages with
  | [] => Some (true, p, mc)
  | page :: rest =>
      let amount := Z.min (Z.of_nat (length image) - copied) ARGUS_PAGE_SIZE in
      match load_page mc p image copied amount
              (u64 (pm_code_virtual (pr_memory p) + page * ARGUS_PAGE_SIZE)) false true with
      | Some (true, p, mc) => load_flat_pages rest mc p image (copied + amount)
      | r => r
      end
  end.

Definition load_flat_probe mc ipc (kernel_paging : option paging_info_t) (p : process_t) (pid : Z)
  (image : list Z) : option (bool * process_t * machine S * ipc_state) :=
  let size := Z.of_nat (length image) in
  if size =? 0 then Some (false, p, mc, ipc)
  else
    let pages := u32 ((size + ARGUS_PAGE_SIZE - 1) / ARGUS_PAGE_SIZE) in
    if negb (nz pages) || (ARGUS_ELF_MAX_IMAGE_PAGES <? pages) then Some (false, p, mc, ipc)
    else
      let '(ok, p, mc, ipc) := prepare_process mc ipc kernel_paging p pid 0 in
      if negb ok then Some (false, p, mc, ipc)
      else
        let base := us_user_base (pm_address_space (pr_memory p)) in
        let p := set_memory p (put_code_virtual (pr_memory p) (u64 (base + USER_CODE_OFFSET))) in
        match load_flat_pages (zrange 0 (Z.to_nat pages)) mc p image 0 with
        | None => None
        | Some (ok, p, mc) =>
            if negb ok then Some (fail_process mc ipc p)
            else Some (true, initialize_context p (pm_code_virtual (pr_memory p)), mc, ipc)
        end.

(** The pages of one ELF segment; bytes past [file_size] stay zero. *)
Fixpoint load_segment_pages (pages : list Z) mc (p : process_t) (image : list Z)
  (segment : argus_elf_segment_t) (copied : Z) : option (bool * process_t * machine S) :=
  match pages with
  | [] => Some (true, p, mc)
  | page :: rest =>
      let amount := if copied <? seg_file_size segment
                    then Z.min (seg_file_size segment - copied) ARGUS_PAGE_SIZE else 0 in
      match load_page mc p image (seg_file_offset segment + copied) amount
              (u64 (seg_virtual_address segment + page * ARGUS_PAGE_SIZE))
              (has (seg_flags segment) ELF_FLAG_WRITE) (has (seg_flags segment) ELF_FLAG_EXECUTE) with
      | Some (true, p, mc) => load_segment_pages rest mc p image segment (copied + amount)
      | r => r
      end
  end.

Fixpoint load_segments (segments : list argus_elf_segment_t) mc (p : process_t) (image : list Z)
  : option (bool * process_t * machine S) :=
  match segments with
  | [] => Some (true, p, mc)
  | segment :: rest =>
      match load_segment_pages (zrange 0 (Z.to_nat (seg_page_count segment))) mc p image segment 0 with
      | Some (true, p, mc) => load_segments rest mc p image
      | r => r
      end
  end.

Definition load_elf_app mc ipc (kernel_paging : option paging_info_t) (p : process_t) (pid app_id : Z)
  (bytes : list Z) : option (bool * process_t * machine S * ipc_state) :=
  let size := Z.of_nat (length bytes) in
  if size =? 0 then Some (false, p, mc, ipc)
  else
    match elf_validate_user_image (Some bytes) size (ARGUS_USER_BASE + USER_CODE_OFFSET)
            (ARGUS_USER_BASE + USER_STACK_OFFSET - ARGUS_PAGE_SIZE) (Some image0) with
    | (true, Some image) =>
        let '(ok, p, mc, ipc) := prepare_process mc ipc kernel_paging p pid app_id in
        if negb ok then Some (false, p, mc, ipc)
        else
          let first := zget segment0 (img_segments image) 0 in
          let p := set_memory p (put_code_virtual (pr_memory p) (seg_virtual_address first)) in
          let segments := take (Z.to_nat (img_segment_count image)) (img_segments image) in
          match load_segments segments mc p bytes with
          | None => None
          | Some (ok, p, mc) =>
              if negb ok then Some (fail_process mc ipc p)
              else Some (true, initialize_context p (img_entry image), mc, ipc)
          end
    | _ => Some (false, p, mc, ipc)
    end.
End loading.
