(* ===== verification/Loading.v ===== *)
(** * Loading and releasing processes: ownership of pages (src/process.c)

    The loader of Process.v takes pages from the allocator for the page tables,
    the stack, the surface and the image of a process; [release_process] gives
    them back.  [owned] says which pages a process under construction holds,
    relative to the machine it started from; every step of the loader keeps it,
    and releasing an owned process restores the allocator. *)

From stdpp Require Import base list gmap numbers.
From Stdlib Require Import ZArith Lia.
From S2P Require Import Prelude Memory Capability Anonymity Ipc BootInfo Allocator Pmm Elf Paging Process.

Open Scope Z_scope.

(** ** Regions *)

(** A run of pages: its address and its page count. *)
Definition run (r : Z * Z) : gset Z := page_run (page_of (fst r)) (snd r).
Definition frames (rs : list (Z * Z)) : gset Z := ⋃ (run <$> rs).

(** What [release_process] gives back besides the tables, in its order. *)
Definition regions (o : process_memory) : list (Z * Z) :=
  ((fun a => (a, 1)) <$> take (Z.to_nat (pm_image_page_count o)) (pm_image_physical o))
  ++ (if nz (pm_stack_physical o) then [(pm_stack_physical o, 1)] else [])
  ++ (if nz (pm_surface_physical o) && nz (pm_surface_page_count o)
      then [(pm_surface_physical o, pm_surface_page_count o)] else []).

Record regions_ok (rs : list (Z * Z)) : Prop := {
  ro_each : Forall (fun r => fst r mod 4096 = 0 /\ 0 < fst r /\ 0 < snd r) rs;
  ro_apart : ForallOrdPairs (fun r r' => run r ## run r') rs }.

Lemma elem_of_frames q rs : q ∈ frames rs <-> exists r, r ∈ rs /\ q ∈ run r.
Proof. unfold frames. rewrite elem_of_union_list. setoid_rewrite list_elem_of_fmap. naive_solver. Qed.

Lemma frames_cons r rs : frames (r :: rs) = run r ∪ frames rs.
Proof. done. Qed.

Lemma frames_perm rs rs' : rs ≡ₚ rs' -> frames rs = frames rs'.
Proof. intros Hp. apply set_eq. intros q. rewrite !elem_of_frames. by setoid_rewrite Hp. Qed.

Lemma regions_ok_perm rs rs' : rs ≡ₚ rs' -> regions_ok rs -> regions_ok rs'.
Proof.
  intros Hp [H1 H2]. constructor; [by rewrite <- Hp|].
  eapply pairwise_perm; [|exact Hp|exact H2]. intros x y ?. by symmetry.
Qed.

Lemma regions_ok_cons r rs :
  fst r mod 4096 = 0 -> 0 < fst r -> 0 < snd r -> run r ## frames rs -> regions_ok rs -> regions_ok (r :: rs).
Proof.
  intros Hm Hp Hn Hd [H1 H2]. constructor; [by constructor|]. constructor; [|done].
  apply List.Forall_forall. intros r' Hr' q Hq Hq'. apply (Hd q Hq). apply elem_of_frames.
  exists r'. split; [by apply list_elem_of_In|done].
Qed.

(** The translation of a user address by the process's tables. *)
Definition user_translate (m : mem) (p : process_t) (va : Z) : option (Z * Z) :=
  paging_user_translate m (Some (pm_address_space (pr_memory p))) va.

Section ownership.
Context {S : Type} `{PageAllocatorLaws S}.
Implicit Types mc : machine S.

Definition release_regions (pa : S) (rs : list (Z * Z)) : S :=
  fold_left (fun pa r => snd (pa_release pa (fst r) (snd r))) rs pa.

(** Releasing regions that are in use frees exactly their pages. *)
Lemma release_regions_spec (pa : S) rs :
  pa_ok pa -> regions_ok rs -> frames rs ⊆ pa_live pa ->
  pa_ok (release_regions pa rs) /\ pa_free (release_regions pa rs) = pa_free pa ∪ frames rs
  /\ pa_live (release_regions pa rs) = pa_live pa ∖ frames rs.
Proof.
  revert pa. induction rs as [|r rs IH]; intros pa Hok [He Ha] Hlive.
  { change (frames []) with (∅ : gset Z). simpl. split_and!; [done|clear; set_solver|clear; set_solver]. }
  change (release_regions pa (r :: rs)) with (release_regions (snd (pa_release pa (fst r) (snd r))) rs).
  rewrite frames_cons in Hlive |- *. apply Forall_cons_iff in He as [(Hm & Hp & Hn) He].
  assert (run r ## frames rs) as Hd.
  { inversion_clear Ha as [|? ? Hr _]. intros q Hq (r' & Hr' & Hq')%elem_of_frames.
    rewrite List.Forall_forall in Hr. apply (Hr r' (proj1 (list_elem_of_In _ _) Hr') q Hq Hq'). }
  pose proof (pa_release_spec pa (fst r) (snd r) Hok ltac:(lia) ltac:(lia)) as Hs. cbv zeta in Hs.
  change (page_run (fst r / ARGUS_PAGE_SIZE) (snd r)) with (run r) in Hs.
  destruct (pa_release pa (fst r) (snd r)) as [b pa1]. cbn [snd].
  destruct Hs as [(_ & _ & Hno)|(_ & _ & _ & _ & Hok1 & Hf1 & Hl1)].
  { exfalso. apply Hno. split_and!; [done|done|clear -Hlive; set_solver]. }
  inversion_clear Ha as [|? ? _ Ha'].
  destruct (IH pa1 Hok1) as (H1 & H2 & H3); [by constructor|rewrite Hl1; clear -Hlive Hd; set_solver|].
  rewrite H2, H3, Hf1, Hl1. split_and!; [done|clear; set_solver|clear; set_solver].
Qed.

Lemma release_image_regions (pa : S) l :
  Forall (fun a => 0 < a) l -> release_image pa l = release_regions pa ((fun a => (a, 1)) <$> l).
Proof.
  intros Hl. revert pa. induction Hl as [|a l Ha Hl IH]; intros pa; [done|].
  unfold release_image, release_regions in *. cbn [fold_left fmap list_fmap fst snd].
  assert (nz a = true) as -> by (unfold nz; lia). apply IH.
Qed.

Lemma release_regions_app (pa : S) rs rs' :
  release_regions pa (rs ++ rs') = release_regions (release_regions pa rs) rs'.
Proof. apply fold_left_app. Qed.

(** The releases of [release_process] are those of its regions. *)
Lemma release_process_regions mc ipc p :
  let o := pr_memory p in
  regions_ok (regions o) -> pm_image_page_count o <= Z.of_nat (length (pm_image_physical o)) ->
  let mc1 := snd (paging_user_space_destroy mc (pm_address_space o)) in
  exists ipc', release_process mc ipc p =
    (process0, with_pa mc1 (release_regions (mc_pa mc1) (regions o)), ipc').
Proof.
  intros o [He _] Hn mc1. unfold release_process. fold o. cbv zeta.
  set (ipc1 := if nz (pr_ipc_endpoint p) then _ else ipc). exists ipc1. clearbody ipc1.
  rewrite zget_prefix by done. subst mc1. destruct (paging_user_space_destroy mc (pm_address_space o)) as [u mc1]. cbn [snd].
  rewrite release_image_regions.
  - unfold regions. rewrite !release_regions_app. set (pa1 := release_regions (mc_pa mc1) _).
    repeat case_if; reflexivity.
  - unfold regions in He. apply Forall_app in He as [He _]. apply Forall_fmap in He.
    eapply Forall_impl; [|exact He]. simpl. tauto.
Qed.

(** Stores outside the tables of a space leave the space as it is. *)
Lemma space_frame mc u g m :
  space_ok mc u g -> (forall x, page_of x ∈ own u -> mem_get m x = mem_get (mc_mem mc) x) ->
  space_ok (with_memory mc m) u g.
Proof.
  intros Hok Hm.
  assert (forall p t i, sh_tabs g !! p = Some t -> 0 <= i < 512 -> entry m t i = entry (mc_mem mc) t i) as He.
  { intros p t i Hp Hi. apply le_read_ext. intros x Hx. simpl Z.of_nat in Hx. apply Hm.
    destruct (so_frame _ _ _ Hok p t Hp) as [_ [Ht _]]. apply elem_of_own. exists t. split.
    - apply (so_tables _ _ _ Hok). eauto.
    - unfold page_of. Z.to_euclidean_division_equations. lia. }
  constructor; try apply Hok; cbn [with_memory mc_mem].
  - intros p t i Hp Hl Hi. rewrite (He p) by (done || apply Hi). by apply Hok.
  - intros p t i Hp Hl Hi. rewrite (He p) by done. by apply Hok.
Qed.

(** The space does not depend on pages the allocator hands out elsewhere. *)
Lemma space_pa mc u g pa' :
  space_ok mc u g -> pa_ok pa' -> pa_free pa' ∪ pa_live pa' ⊆ pa_free (mc_pa mc) ∪ pa_live (mc_pa mc) ->
  own u ⊆ pa_live pa' -> space_ok (with_pa mc pa') u g.
Proof.
  intros Hok Hpa Hsub Hlive. constructor; try apply Hok; cbn [with_pa mc_pa]; [done| |done].
  intros q Hq. apply (so_bound _ _ _ Hok). by apply Hsub.
Qed.

(** ** Ownership *)

(** The process [p], whose tables have shape [g], under construction on [mc]
    since the machine was [mc0]. *)
Record owned mc0 (kp : paging_info_t) mc (p : process_t) (g : shape) : Prop := {
  ow_space : space_ok mc (pm_address_space (pr_memory p)) g;
  ow_regions : regions_ok (regions (pr_memory p));
  ow_live : frames (regions (pr_memory p)) ⊆ pa_live (mc_pa mc);
  ow_apart : frames (regions (pr_memory p)) ## own (pm_address_space (pr_memory p));
  ow_leaf : forall q e, sh_leaf g !! q = Some e -> page_of (table_of e) ∈ frames (regions (pr_memory p));
  ow_image : length (pm_image_physical (pr_memory p)) = 16%nat /\ 0 <= pm_image_page_count (pr_memory p) <= 16;
  ow_root : forall j, 0 <= j < 512 -> j <> USER_SLOT ->
    entry (mc_mem mc) (us_root_table (pm_address_space (pr_memory p))) j = entry (mc_mem mc0) (pi_root_table kp) j;
  ow_free : pa_free (mc_pa mc) ∪ (own (pm_address_space (pr_memory p)) ∪ frames (regions (pr_memory p)))
            = pa_free (mc_pa mc0);
  ow_given : pa_live (mc_pa mc) ∖ (own (pm_address_space (pr_memory p)) ∪ frames (regions (pr_memory p)))
             = pa_live (mc_pa mc0);
  ow_memory : forall x, ~ page_of x ∈ pa_free (mc_pa mc0) -> mem_get (mc_mem mc) x = mem_get (mc_mem mc0) x }.

(** The machine is as it was, but for the contents of free pages. *)
Definition restored mc0 mc : Prop :=
  pa_ok (mc_pa mc) /\ pa_free (mc_pa mc) = pa_free (mc_pa mc0) /\ pa_live (mc_pa mc) = pa_live (mc_pa mc0)
  /\ forall x, ~ page_of x ∈ pa_free (mc_pa mc0) -> mem_get (mc_mem mc) x = mem_get (mc_mem mc0) x.

(** Releasing an owned process restores the machine. *)
Lemma owned_release mc0 kp mc p g ipc :
  owned mc0 kp mc p g ->
  exists mc' ipc', release_process mc ipc p = (process0, mc', ipc') /\ restored mc0 mc'.
Proof.
  intros Ho. destruct (ow_image _ _ _ _ _ Ho) as [Hl Hc].
  destruct (release_process_regions mc ipc p (ow_regions _ _ _ _ _ Ho) ltac:(rewrite Hl; lia)) as [ipc' Hr].
  pose proof (destroy_spec mc _ g (ow_space _ _ _ _ _ Ho)) as Hd. revert Hr. cbv zeta.
  destruct (paging_user_space_destroy _ _) as [u mc1]. cbn [snd]. intros Hr.
  destruct Hd as (_ & Hpa1 & Hm1 & Hf1 & Hl1). eexists _, ipc'. split; [exact Hr|].
  destruct (release_regions_spec (mc_pa mc1) (regions (pr_memory p)) Hpa1 (ow_regions _ _ _ _ _ Ho)) as (R1 & R2 & R3).
  { rewrite Hl1. pose proof (ow_live _ _ _ _ _ Ho) as H1. pose proof (ow_apart _ _ _ _ _ Ho) as H2.
    clear -H1 H2. set_solver. }
  unfold restored. cbn [with_pa mc_pa mc_mem]. rewrite R2, R3, Hf1, Hl1, Hm1.
  split_and!; [done| | |apply Ho].
  - rewrite <- (ow_free _ _ _ _ _ Ho), union_assoc_L. done.
  - rewrite <- (ow_given _ _ _ _ _ Ho). clear. set_solver.
Qed.

(** The loader's steps keep ownership: allocate a region, write owned frames,
    map an owned frame. *)
Lemma owned_alloc mc0 kp mc p g n a pa' p' :
  owned mc0 kp mc p g -> 0 < n -> pa_alloc (mc_pa mc) n = (a, pa') -> a <> 0 ->
  pm_address_space (pr_memory p') = pm_address_space (pr_memory p) ->
  regions (pr_memory p') ≡ₚ (a, n) :: regions (pr_memory p) ->
  length (pm_image_physical (pr_memory p')) = 16%nat /\ 0 <= pm_image_page_count (pr_memory p') <= 16 ->
  owned mc0 kp (with_pa mc pa') p' g.
Proof.
  intros Ho Hn Ha Hne Hu Hr Hi. pose proof (pa_alloc_spec (mc_pa mc) n) as Hs. rewrite Ha in Hs.
  pose proof (ow_space _ _ _ _ _ Ho) as Hok. pose proof (so_pa _ _ _ Hok) as Hpa.
  destruct Hs as [(-> & _)|(q & -> & Hq & _ & Hmax & Hsub & Hpa' & Hf & Hl)]; [done|lia|done|].
  pose proof (pa_disjoint _ Hpa) as Hd.
  assert (run (q * ARGUS_PAGE_SIZE, n) = page_run q n) as Hrun
    by (unfold run, page_of, ARGUS_PAGE_SIZE; cbn [fst snd]; by rewrite Z.div_mul).
  pose proof (ow_live _ _ _ _ _ Ho) as Hlv. pose proof (ow_apart _ _ _ _ _ Ho) as Hap.
  pose proof (so_live _ _ _ Hok) as Hown. pose proof (ow_free _ _ _ _ _ Ho) as Hfree.
  pose proof (ow_given _ _ _ _ _ Ho) as Hgiv.
  assert (frames (regions (pr_memory p')) = page_run q n ∪ frames (regions (pr_memory p))) as Hfr
    by (rewrite (frames_perm _ _ Hr), frames_cons, Hrun; done).
  remember (frames (regions (pr_memory p))) as F eqn:HF. remember (page_run q n) as R eqn:HR.
  constructor; rewrite ?Hfr, ?Hu; cbn [with_pa mc_pa mc_mem].
  - apply space_pa; [done|done| |]; rewrite ?Hf, Hl; clear -Hsub Hown; set_solver.
  - eapply regions_ok_perm; [symmetry; exact Hr|]. apply regions_ok_cons; cbn [fst snd].
    + unfold ARGUS_PAGE_SIZE. apply Z.mod_mul. lia.
    + unfold ARGUS_PAGE_SIZE. lia.
    + done.
    + rewrite Hrun, <- HF. clear -Hsub Hd Hlv. set_solver.
    + apply Ho.
  - rewrite Hl. clear -Hlv. set_solver.
  - clear -Hsub Hd Hown Hap. set_solver.
  - intros x e He. apply elem_of_union_r. rewrite HF. by apply (ow_leaf _ _ _ _ _ Ho x).
  - done.
  - apply Ho.
  - rewrite Hf, <- Hfree. apply set_eq. intros x. destruct (decide (x ∈ R)) as [Hx|Hx]; clear -Hsub Hx; set_solver.
  - rewrite Hl, <- Hgiv. clear -Hsub Hd. set_solver.
  - apply Ho.
Qed.

Lemma owned_memory mc0 kp mc p g m :
  owned mc0 kp mc p g ->
  (forall x, ~ page_of x ∈ frames (regions (pr_memory p)) -> mem_get m x = mem_get (mc_mem mc) x) ->
  owned mc0 kp (with_memory mc m) p g.
Proof.
  intros Ho Hm. pose proof (ow_space _ _ _ _ _ Ho) as Hok.
  assert (forall x, page_of x ∈ own (pm_address_space (pr_memory p)) -> mem_get m x = mem_get (mc_mem mc) x) as Hm1.
  { intros x Hx. apply Hm. intros Hf. by apply (ow_apart _ _ _ _ _ Ho (page_of x)). }
  constructor; try apply Ho; cbn [with_memory mc_mem].
  - by apply space_frame.
  - intros j Hj Hne. rewrite <- (ow_root _ _ _ _ _ Ho j Hj Hne). apply le_read_ext. intros x Hx. simpl Z.of_nat in Hx.
    apply Hm1, elem_of_own. eexists. pose proof (so_root _ _ _ Hok) as Hrt.
    split; [apply (so_tables _ _ _ Hok); eauto|].
    destruct (so_frame _ _ _ Hok _ _ Hrt) as [_ [Hm0 _]]. unfold page_of. Z.to_euclidean_division_equations. lia.
  - intros x Hx. rewrite Hm; [by apply Ho|]. intros Hf. apply Hx. rewrite <- (ow_free _ _ _ _ _ Ho).
    clear -Hf. set_solver.
Qed.

Lemma owned_map mc0 kp mc p g va a w x ok u' mc' :
  owned mc0 kp mc p g -> 0 <= a -> page_of a ∈ frames (regions (pr_memory p)) ->
  paging_user_map_page mc (pm_address_space (pr_memory p)) va a w x = (ok, u', mc') ->
  exists g', owned mc0 kp mc' (set_memory p (put_address_space (pr_memory p) u')) g'.
Proof.
  intros Ho Ha Hin Hm. pose proof (ow_space _ _ _ _ _ Ho) as Hok.
  pose proof (ow_live _ _ _ _ _ Ho) as Hlv. pose proof (ow_apart _ _ _ _ _ Ho) as Hap.
  pose proof (ow_free _ _ _ _ _ Ho) as Hfree. pose proof (ow_given _ _ _ _ _ Ho) as Hgiv.
  assert (0 <= a < 2 ^ 52) as Hab.
  { pose proof (so_bound _ _ _ Hok (page_of a) ltac:(clear -Hin Hlv; set_solver)) as Hb.
    unfold page_of in Hb. change (2 ^ 52) with (2 ^ 40 * 4096). Z.to_euclidean_division_equations. lia. }
  destruct (map_page_spec _ _ _ _ _ _ _ _ _ _ Hok Hab Hm) as (g' & Hok' & Hg & Hcase).
  pose proof (gr_free _ _ _ _ Hg) as Gf. pose proof (gr_live _ _ _ _ Hg) as Gl. exists g'.
  set (u := pm_address_space (pr_memory p)) in *.
  assert (regions (pr_memory (set_memory p (put_address_space (pr_memory p) u'))) = regions (pr_memory p)) as Hreg by done.
  constructor; rewrite ?Hreg; cbn [set_memory put_address_space pr_memory pm_address_space].
  - done.
  - apply Ho.
  - intros q Hq. assert (q ∈ pa_live (mc_pa mc') ∖ own u') as Hq'
      by (rewrite Gl; apply elem_of_difference; split; [by apply Hlv|by intros ?; apply (Hap q)]).
    by apply elem_of_difference in Hq' as [? _].
  - intros q Hq Hqo. assert (q ∈ pa_live (mc_pa mc') ∖ own u') as Hq'
      by (rewrite Gl; apply elem_of_difference; split; [by apply Hlv|by intros ?; apply (Hap q)]).
    by apply elem_of_difference in Hq' as [_ ?].
  - destruct Hcase as [(_ & Hl & _)|(_ & Hrej & _ & Hl)]; intros q e; rewrite Hl; [apply Ho|].
    destruct (map_page_accepted u va a (so_base _ _ _ Hok) Hrej) as (_ & _ & Hpm).
    intros [[_ <-]|[_ He]]%lookup_insert_Some; [|by apply (ow_leaf _ _ _ _ _ Ho q)].
    destruct (leaf_entry_bits a (us_nx_enabled u) w x) as (_ & _ & _ & -> & _); [by split|done].
  - apply Ho.
  - intros j Hj Hne. rewrite (gr_root _ _ _ _ Hg), (gr_kernel _ _ _ _ Hg) by done. by apply Ho.
  - rewrite union_assoc_L, Gf, <- union_assoc_L. done.
  - rewrite <- Hgiv. clear -Gl. set_solver.
  - intros b Hb. rewrite (gr_mem _ _ _ _ Hg); [by apply Ho|]. intros Hbo. apply Hb. rewrite <- Hfree.
    clear -Gf Hbo. set_solver.
Qed.

(** ** The loader *)

Lemma owned_same mc0 kp mc p p' g :
  owned mc0 kp mc p g ->
  pm_address_space (pr_memory p') = pm_address_space (pr_memory p) ->
  regions (pr_memory p') = regions (pr_memory p) ->
  pm_image_physical (pr_memory p') = pm_image_physical (pr_memory p) ->
  pm_image_page_count (pr_memory p') = pm_image_page_count (pr_memory p) -> owned mc0 kp mc p' g.
Proof. intros [] Hu Hr Hi Hc. constructor; rewrite ?Hu, ?Hr, ?Hi, ?Hc; done. Qed.

Lemma zero_bytes_get m a x : a mod 4096 = 0 -> page_of x <> page_of a -> mem_get (zero_bytes m a) x = mem_get m x.
Proof.
  intros Ha Hx. unfold zero_bytes. rewrite memset_get by (unfold ARGUS_PAGE_SIZE; lia).
  destruct ((a <=? x) && (x <? a + ARGUS_PAGE_SIZE)) eqn:E; [|done]. b2p. exfalso. apply Hx.
  unfold page_of, ARGUS_PAGE_SIZE in *. Z.to_euclidean_division_equations. lia.
Qed.

Lemma copy_image_get m a l off n x :
  a mod 4096 = 0 -> n <= 4096 -> page_of x <> page_of a -> mem_get (copy_image m a l off n) x = mem_get m x.
Proof.
  intros Ha Hn Hx. unfold copy_image. destruct (Z.le_gt_cases 0 n).
  - apply (for_range_inv (fun _ m' => mem_get m' x = mem_get m x)); [lia|done|].
    intros i m' Hi Hm. rewrite mem_get_set_ne; [done|]. intros <-. apply Hx.
    unfold page_of. Z.to_euclidean_division_equations. lia.
  - rewrite for_range_empty by lia. done.
Qed.

(** A region of an owned process: aligned, its pages owned, below 2^52. *)
Lemma owned_region mc0 kp mc p g a n i :
  owned mc0 kp mc p g -> (a, n) ∈ regions (pr_memory p) -> 0 <= i < n ->
  a mod 4096 = 0 /\ 0 < a /\ a + i * 4096 < 2 ^ 52
  /\ page_of (a + i * 4096) ∈ frames (regions (pr_memory p)).
Proof.
  intros Ho Hin Hi. destruct (ow_regions _ _ _ _ _ Ho) as [He _]. rewrite List.Forall_forall in He.
  destruct (He (a, n)) as (Hm & Hp & _); [by apply list_elem_of_In|]. cbn [fst] in *.
  assert (page_of (a + i * 4096) ∈ frames (regions (pr_memory p))) as Hf.
  { apply elem_of_frames. exists (a, n). split; [done|]. unfold run. cbn [fst snd]. rewrite elem_of_page_run.
    unfold page_of. Z.to_euclidean_division_equations. lia. }
  split_and!; [done|done| |done].
  pose proof (ow_space _ _ _ _ _ Ho) as Hok. pose proof (ow_live _ _ _ _ _ Ho) as Hlv.
  pose proof (so_bound _ _ _ Hok _ (elem_of_union_r _ _ _ (Hlv _ Hf))) as Hb.
  unfold page_of in Hb. change (2 ^ 52) with (2 ^ 40 * 4096). Z.to_euclidean_division_equations. lia.
Qed.

(** What loading promises: on success the process owns its pages, [n] of them
    image pages; on failure nothing is kept. *)
Definition loaded mc0 kp (n : Z) (r : bool * process_t * machine S * ipc_state) : Prop :=
  let '(ok, p, mc, _) := r in
  if ok then (exists g, owned mc0 kp mc p g) /\ pm_image_page_count (pr_memory p) = n else restored mc0 mc.

Lemma fail_loaded mc0 kp n mc p g ipc : owned mc0 kp mc p g -> loaded mc0 kp n (fail_process mc ipc p).
Proof.
  intros Ho. unfold fail_process. destruct (owned_release mc0 kp mc p g ipc Ho) as (mc' & ipc' & -> & Hr). done.
Qed.

Lemma map_surface_owned pages mc0 kp mc p g n :
  owned mc0 kp mc p g -> (pm_surface_physical (pr_memory p), n) ∈ regions (pr_memory p) ->
  Forall (fun i => 0 <= i < n) pages ->
  let '(_, p', mc') := map_surface pages mc p in
  (exists g', owned mc0 kp mc' p' g') /\ pm_image_page_count (pr_memory p') = pm_image_page_count (pr_memory p).
Proof.
  revert mc p g. induction pages as [|i pages IH]; intros mc p g Ho Hin HF; simpl map_surface; [split; [by exists g|done]|].
  apply Forall_cons_iff in HF as [Hi HF].
  destruct (owned_region _ _ _ _ _ _ _ i Ho Hin Hi) as (Hm & Hp & Hb & Hf).
  assert (u64 (pm_surface_physical (pr_memory p) + i * ARGUS_PAGE_SIZE) = pm_surface_physical (pr_memory p) + i * 4096) as ->
    by (apply u64_id; unfold ARGUS_PAGE_SIZE, UINT64_MAX; change (2 ^ 52) with 4503599627370496 in Hb; lia).
  set (a := pm_surface_physical (pr_memory p) + i * 4096) in *.
  assert (owned mc0 kp (with_memory mc (zero_bytes (mc_mem mc) a)) p g) as Ho1.
  { apply owned_memory; [done|]. intros x Hx. apply zero_bytes_get; [|by intros Heq; rewrite Heq in Hx].
    unfold a. rewrite Z.mod_add; [done|lia]. }
  destruct (paging_user_map_page _ _ _ _ _ _) as [[ok u'] mc'] eqn:Em.
  assert (0 <= a) as Ha by (unfold a; lia).
  destruct (owned_map _ _ _ _ _ _ _ _ _ _ _ _ Ho1 Ha Hf Em) as [g' Ho'].
  destruct ok; [|split; [by exists g'|done]]. specialize (IH mc' _ g' Ho' Hin HF).
  destruct (map_surface pages mc' _) as [[? ?] ?]. done.
Qed.

Lemma grant_memory p t r o h p' : grant_process_capability p t r o = (h, p') -> pr_memory p' = pr_memory p.
Proof.
  unfold grant_process_capability. case_if; [by intros [= _ <-]|].
  destruct (capability_grant _ _ _ _) as [? ?]. by intros [= _ <-].
Qed.

Lemma grant_all_memory grants p : pr_memory (snd (grant_all p grants)) = pr_memory p.
Proof.
  revert p. induction grants as [|[[t r] o] grants IH]; intros p; [done|]. simpl.
  destruct (grant_process_capability p t r o) as [h p'] eqn:E. apply grant_memory in E.
  case_if; [by rewrite IH|done].
Qed.

(** A failed allocation changes nothing. *)
Lemma with_pa_failed mc n pa' :
  pa_ok (mc_pa mc) -> 0 <= n -> pa_alloc (mc_pa mc) n = (0, pa') -> with_pa mc pa' = mc.
Proof. intros Hok Hn Ha. rewrite (pa_alloc_zero _ _ _ _ Hok Hn Ha eq_refl). by destruct mc. Qed.

Lemma prepare_app_loaded mc0 kp mc ipc p g :
  owned mc0 kp mc p g -> pm_surface_physical (pr_memory p) = 0 ->
  loaded mc0 kp (pm_image_page_count (pr_memory p)) (prepare_app mc ipc p).
Proof.
  intros Ho Hs. unfold prepare_app. cbv zeta.
  change ((ARGUS_APP_SURFACE_BYTES + ARGUS_PAGE_SIZE - 1) / ARGUS_PAGE_SIZE) with 18.
  set (p1 := set_memory p (put_surface_page_count (pr_memory p) 18)).
  assert (owned mc0 kp mc p1 g) as Ho1.
  { eapply owned_same; [exact Ho|done| |done|done]. unfold regions, p1.
    cbn [set_memory pr_memory put_surface_page_count pm_image_page_count pm_image_physical pm_stack_physical
         pm_surface_physical pm_surface_page_count]. by rewrite Hs. }
  destruct (pa_alloc (mc_pa mc) 18) as [a pa'] eqn:Ea.
  set (p2 := set_memory p1 (put_surface_physical (pr_memory p1) a)).
  destruct (Z.eqb_spec a 0) as [->|Hne].
  { rewrite (with_pa_failed mc 18 pa' (so_pa _ _ _ (ow_space _ _ _ _ _ Ho)) ltac:(done) Ea).
    apply (fail_loaded _ _ _ _ _ g). eapply owned_same; [exact Ho1|done| |done|done].
    unfold regions, p2, p1. cbn [set_memory pr_memory put_surface_physical put_surface_page_count pm_image_page_count
      pm_image_physical pm_stack_physical pm_surface_physical pm_surface_page_count]. by rewrite Hs. }
  assert (regions (pr_memory p2) = regions (pr_memory p1) ++ [(a, 18)]) as Hr.
  { unfold regions, p2, p1. cbn [set_memory pr_memory put_surface_physical put_surface_page_count pm_image_page_count
      pm_image_physical pm_stack_physical pm_surface_physical pm_surface_page_count]. rewrite Hs.
    assert (nz a = true) as -> by (unfold nz; lia). cbn [nz Z.eqb negb andb]. by rewrite app_nil_r, app_assoc. }
  assert (owned mc0 kp (with_pa mc pa') p2 g) as Ho2.
  { eapply owned_alloc; [exact Ho1| |exact Ea|done|done| |apply Ho1]; [lia|]. rewrite Hr. by rewrite Permutation_app_comm. }
  pose proof (map_surface_owned (zrange 0 (Z.to_nat 18)) mc0 kp (with_pa mc pa') p2 g 18 Ho2) as Hm.
  destruct (map_surface _ _ p2) as [[ok p3] mc3]. destruct Hm as [[g3 Ho3] Hcnt].
  { rewrite Hr. apply elem_of_app. right. by apply list_elem_of_singleton. }
  { apply List.Forall_forall. intros i Hi%list_elem_of_In%elem_of_zrange. lia. }
  destruct ok; cbn [negb]; [|by eapply fail_loaded].
  destruct (ipc_endpoint_create ipc (pr_pid p3)) as [e ipc'].
  assert (owned mc0 kp mc3 (set_ipc_endpoint p3 e) g3) as Ho4 by (by eapply owned_same; [exact Ho3|..]).
  case_if; [by eapply fail_loaded|].
  destruct (grant_all _ _) as [ok p4] eqn:Eg. pose proof (grant_all_memory (app_grants (set_ipc_endpoint p3 e)) (set_ipc_endpoint p3 e)) as Hmem.
  rewrite Eg in Hmem. cbn [snd] in Hmem.
  assert (owned mc0 kp mc3 p4 g3) as Ho5 by (eapply owned_same; [exact Ho4|..]; by rewrite Hmem).
  destruct ok; [|by eapply fail_loaded]. split; [by exists g3|]. by rewrite Hmem.
Qed.

Lemma restored_refl mc : pa_ok (mc_pa mc) -> restored mc mc.
Proof. intros ?. unfold restored. by split_and!. Qed.

(** A fresh address space is owned with no region. *)
Lemma owned_created mc kp u p mc' :
  machine_ok mc -> kernel_ok mc kp -> paging_user_space_create mc (Some kp) (Some space0) = (true, Some u, mc') ->
  pr_memory p = put_address_space memory0 u -> exists g, owned mc kp mc' p g.
Proof.
  intros Hm Hk Hc Hp. destruct (create_spec _ _ _ _ _ _ Hm Hk Hc)
    as [(? & _)|(_ & u1 & g' & [= <-] & Hok & Hl & _ & Hsub & Hf & Hg & Hmem & Hroot)]; [done|].
  exists g'. assert (regions (put_address_space memory0 u) = []) as Hr by done.
  constructor; rewrite ?Hp, ?Hr; cbn [put_address_space pm_address_space memory0 pm_image_physical pm_image_page_count].
  - done.
  - by constructor; constructor.
  - apply empty_subseteq.
  - apply disjoint_empty_l.
  - intros q e. rewrite Hl. done.
  - split; [done|lia].
  - intros j Hj _. by apply Hroot.
  - change (frames []) with (∅ : gset Z). by rewrite union_empty_r_L.
  - change (frames []) with (∅ : gset Z). by rewrite union_empty_r_L.
  - intros x Hx. apply Hmem. intros Hin. by apply Hx, Hsub.
Qed.

Lemma prepare_process_loaded mc kp ipc p pid app_id :
  machine_ok mc -> kernel_ok mc kp -> loaded mc kp 0 (prepare_process mc ipc (Some kp) p pid app_id).
Proof.
  intros Hm Hk. unfold prepare_process. case_if; [by apply restored_refl, Hm|].
  set (p0 := mk_process pid _ _ _ _ _ _ _ _ _ _ _ _ _ _ _). clearbody p0.
  destruct (paging_user_space_create mc (Some kp) (Some space0)) as [[ok u] mc1] eqn:Ec.
  destruct ok.
  2: { destruct (create_spec _ _ _ _ _ _ Hm Hk Ec) as [(_ & H1 & H2 & H3 & H4)|(? & _)]; done. }
  destruct (create_spec _ _ _ _ _ _ Hm Hk Ec) as [(? & _)|(_ & u1 & g' & -> & _)]; [done|]. cbn [negb default].
  set (p1 := set_memory p0 (put_address_space memory0 u1)).
  destruct (owned_created _ _ _ p1 _ Hm Hk Ec eq_refl) as [g Ho].
  destruct (pa_alloc (mc_pa mc1) 1) as [a pa'] eqn:Ea. cbv zeta.
  set (sv := u64 _). set (p2 := set_memory p1 (put_stack_physical (put_stack_virtual (pr_memory p1) sv) a)).
  destruct (Z.eqb_spec a 0) as [->|Hne].
  { rewrite (with_pa_failed mc1 1 pa' (so_pa _ _ _ (ow_space _ _ _ _ _ Ho)) ltac:(done) Ea).
    apply (fail_loaded _ _ _ _ _ g). by eapply owned_same; [exact Ho|..]. }
  assert (regions (pr_memory p2) = [(a, 1)]) as Hr.
  { unfold regions, p2, p1. cbn -[nz]. assert (nz a = true) as -> by (unfold nz; lia). done. }
  assert (owned mc kp (with_pa mc1 pa') p2 g) as Ho2.
  { eapply owned_alloc; [exact Ho| |exact Ea|done|done| |apply Ho]; [lia|]. by rewrite Hr. }
  destruct (owned_region _ _ _ _ _ a 1 0 Ho2) as (Hma & Hpa & _ & Hfa);
    [rewrite Hr; by apply list_elem_of_singleton|lia|]. rewrite Z.mul_0_l, Z.add_0_r in Hfa.
  assert (owned mc kp (with_memory (with_pa mc1 pa') (zero_bytes (mc_mem (with_pa mc1 pa')) a)) p2 g) as Ho3.
  { apply owned_memory; [done|]. intros x Hx. apply zero_bytes_get; [done|by intros Heq; rewrite Heq in Hx]. }
  destruct (paging_user_map_page _ _ _ _ _ _) as [[ok u2] mc3] eqn:Em.
  assert (0 <= a) as Ha0 by lia.
  destruct (owned_map _ _ _ _ _ _ _ _ _ _ _ _ Ho3 Ha0 Hfa Em) as [g3 Ho4].
  destruct ok; cbn [negb]; [|by eapply fail_loaded].
  case_if; [|split; [by exists g3|done]]. exact (prepare_app_loaded mc kp mc3 ipc _ g3 Ho4 eq_refl).
Qed.

(** Recording a page puts it after the image pages, while the array has room. *)
Lemma record_page_regions p a :
  let o := pr_memory p in
  length (pm_image_physical o) = 16%nat -> 0 <= pm_image_page_count o <= 16 ->
  match record_page p a with
  | None => pm_image_page_count o = 16
  | Some p' =>
      let o' := pr_memory p' in
      regions o' ≡ₚ (a, 1) :: regions o /\ length (pm_image_physical o') = 16%nat
      /\ pm_image_page_count o' = pm_image_page_count o + 1 /\ pm_image_page_count o' <= 16
      /\ pm_address_space o' = pm_address_space o
  end.
Proof.
  intros o Hl Hc. unfold record_page. fold o. cbv zeta. unfold ARGUS_ELF_MAX_IMAGE_PAGES.
  destruct (Z.ltb_spec (pm_image_page_count o) 16) as [Hlt|]; [|lia].
  cbn [set_memory pr_memory put_image_page_count put_image_physical pm_image_page_count pm_image_physical pm_address_space].
  rewrite u32_id by (unfold UINT32_MAX; lia). split_and!; [|by rewrite zset_length|done|lia|done].
  unfold regions. cbn [put_image_page_count put_image_physical pm_image_page_count pm_image_physical pm_stack_physical
    pm_surface_physical pm_surface_page_count].
  set (n := pm_image_page_count o) in *. replace (Z.to_nat (n + 1)) with (Datatypes.S (Z.to_nat n)) by lia.
  rewrite (take_S_r _ _ a) by (unfold zset; rewrite list_lookup_insert_eq; [done|lia]).
  unfold zset. rewrite take_insert_ge by lia. rewrite fmap_app. cbn [fmap list_fmap].
  rewrite <- app_assoc. symmetry. apply Permutation_middle.
Qed.

(** What a loop over [n] pages promises: it stays inside the array unless the
    pages do not fit, and what it has loaded is owned. *)
Definition pages_loaded mc0 kp (p : process_t) (n : Z) (r : option (bool * process_t * machine S)) : Prop :=
  match r with
  | None => 16 < pm_image_page_count (pr_memory p) + n
  | Some (ok, p', mc') =>
      (exists g', owned mc0 kp mc' p' g')
      /\ (ok = true -> pm_image_page_count (pr_memory p') = pm_image_page_count (pr_memory p) + n)
  end.

(** One page of an image. *)
Lemma load_page_owned mc0 kp mc p g src off n va w x :
  owned mc0 kp mc p g -> n <= 4096 -> pages_loaded mc0 kp p 1 (load_page mc p src off n va w x).
Proof.
  intros Ho Hn. destruct (ow_image _ _ _ _ _ Ho) as [Hl Hc]. unfold load_page.
  destruct (pa_alloc (mc_pa mc) 1) as [a pa'] eqn:Ea. destruct (Z.eqb_spec a 0) as [->|Hne].
  { rewrite (with_pa_failed mc 1 pa' (so_pa _ _ _ (ow_space _ _ _ _ _ Ho)) ltac:(done) Ea). split; [by exists g|done]. }
  pose proof (record_page_regions p a Hl ltac:(lia)) as Hrec. destruct (record_page p a) as [p1|]; [|simpl; lia].
  destruct Hrec as (Hr & Hl1 & Hc1 & Hb1 & Hu).
  assert (owned mc0 kp (with_pa mc pa') p1 g) as Ho1.
  { eapply owned_alloc; [exact Ho| |exact Ea|done|done|done|]; [lia|]. split; [done|lia]. }
  destruct (owned_region _ _ _ _ _ a 1 0 Ho1) as (Hma & Hpa & _ & Hfa); [rewrite Hr; by left|lia|].
  rewrite Z.mul_0_l, Z.add_0_r in Hfa. cbn [with_pa mc_mem]. set (m := copy_image _ _ _ _ _).
  assert (owned mc0 kp (with_memory (with_pa mc pa') m) p1 g) as Ho2.
  { apply owned_memory; [done|]. intros y Hy. assert (page_of y <> page_of a) by (by intros Heq; rewrite Heq in Hy).
    unfold m. rewrite copy_image_get by done. by apply zero_bytes_get. }
  destruct (paging_user_map_page _ _ _ _ _ _) as [[ok u'] mc'] eqn:Em. assert (0 <= a) as Ha by lia.
  destruct (owned_map _ _ _ _ _ _ _ _ _ _ _ _ Ho2 Ha Hfa Em) as [g' Ho']. split; [by exists g'|].
  intros _. exact Hc1.
Qed.

(** A page, then the rest. *)
Lemma pages_loaded_bind mc0 kp p n m r (f : process_t -> machine S -> option (bool * process_t * machine S)) :
  0 <= m -> pages_loaded mc0 kp p n r ->
  (forall p' mc' g', owned mc0 kp mc' p' g' -> pages_loaded mc0 kp p' m (f p' mc')) ->
  pages_loaded mc0 kp p (n + m)
    match r with Some (true, p', mc') => f p' mc' | Some (false, p', mc') => Some (false, p', mc') | None => None end.
Proof.
  intros Hm Hr Hf. destruct r as [[[[] p1] mc1]|]; cbn [pages_loaded] in Hr |- *.
  - destruct Hr as [[g1 Ho1] Hc1]. specialize (Hc1 eq_refl). specialize (Hf p1 mc1 g1 Ho1).
    destruct (f p1 mc1) as [[[ok p2] mc2]|]; cbn [pages_loaded] in Hf |- *; [|lia].
    destruct Hf as [H1 H2]. split; [done|]. intros Hok. rewrite (H2 Hok). lia.
  - split; [apply Hr|done].
  - lia.
Qed.

Lemma load_flat_pages_owned pages mc0 kp mc p g image copied :
  owned mc0 kp mc p g -> pages_loaded mc0 kp p (Z.of_nat (length pages)) (load_flat_pages pages mc p image copied).
Proof.
  revert mc p g copied. induction pages as [|i pages IH]; intros mc p g copied Ho; cbn [load_flat_pages].
  { split; [by exists g|]. simpl. lia. }
  cbn [length]. cbv zeta. rewrite Nat2Z.inj_succ, <- Z.add_1_l. eapply pages_loaded_bind; [lia| |].
  - eapply load_page_owned; [exact Ho|unfold ARGUS_PAGE_SIZE; lia].
  - intros p1 mc1 g1 Ho1. by eapply IH.
Qed.

Lemma load_segment_pages_owned pages mc0 kp mc p g image seg copied :
  owned mc0 kp mc p g ->
  pages_loaded mc0 kp p (Z.of_nat (length pages)) (load_segment_pages pages mc p image seg copied).
Proof.
  revert mc p g copied. induction pages as [|i pages IH]; intros mc p g copied Ho; cbn [load_segment_pages].
  { split; [by exists g|]. simpl. lia. }
  cbn [length]. cbv zeta. rewrite Nat2Z.inj_succ, <- Z.add_1_l. eapply pages_loaded_bind; [lia| |].
  - eapply load_page_owned; [exact Ho|unfold ARGUS_PAGE_SIZE; case_if; lia].
  - intros p1 mc1 g1 Ho1. by eapply IH.
Qed.

Lemma load_segments_owned segments mc0 kp mc p g image :
  owned mc0 kp mc p g -> Forall (fun s => 0 <= seg_page_count s) segments ->
  pages_loaded mc0 kp p (zsum seg_page_count segments) (load_segments segments mc p image).
Proof.
  revert mc p g. induction segments as [|s segments IH]; intros mc p g Ho HF; cbn [load_segments].
  { split; [by exists g|]. simpl. lia. }
  apply Forall_cons_iff in HF as [Hs HF]. cbn [zsum fold_right]. fold (zsum seg_page_count segments).
  pose proof (zsum_nonneg seg_page_count segments HF) as Hz. eapply pages_loaded_bind; [done| |].
  - pose proof (load_segment_pages_owned (zrange 0 (Z.to_nat (seg_page_count s))) mc0 kp mc p g image s 0 Ho) as Hp.
    rewrite zrange_length, Z2Nat.id in Hp by done. exact Hp.
  - intros p1 mc1 g1 Ho1. by eapply IH.
Qed.

(** The guard on the size keeps the probes inside the array: their load always
    has a result. *)
Lemma load_flat_probe_loaded mc kp ipc p pid image :
  machine_ok mc -> kernel_ok mc kp ->
  exists r, load_flat_probe mc ipc (Some kp) p pid image = Some r
    /\ loaded mc kp (u32 ((Z.of_nat (length image) + ARGUS_PAGE_SIZE - 1) / ARGUS_PAGE_SIZE)) r.
Proof.
  intros Hm Hk. unfold load_flat_probe. cbv zeta. case_if; [eexists; split; [done|by apply restored_refl, Hm]|].
  set (pages := u32 _). case_if; [eexists; split; [done|by apply restored_refl, Hm]|]. b2p.
  unfold ARGUS_ELF_MAX_IMAGE_PAGES in *.
  pose proof (u32_range ((Z.of_nat (length image) + ARGUS_PAGE_SIZE - 1) / ARGUS_PAGE_SIZE)) as Hpr. fold pages in Hpr.
  pose proof (prepare_process_loaded mc kp ipc p pid 0 Hm Hk) as Hp.
  destruct (prepare_process _ _ _ _ _ _) as [[[ok p1] mc1] ipc1]. destruct ok; cbn [negb]; [|by eexists].
  destruct Hp as [[g Ho] Hc]. set (p2 := set_memory p1 _).
  assert (owned mc kp mc1 p2 g) as Ho2 by (by eapply owned_same; [exact Ho|..]).
  pose proof (load_flat_pages_owned (zrange 0 (Z.to_nat pages)) mc kp mc1 p2 g image 0 Ho2) as Hl.
  rewrite zrange_length in Hl. unfold pages_loaded in Hl.
  change (pm_image_page_count (pr_memory p2)) with (pm_image_page_count (pr_memory p1)) in Hl.
  destruct (load_flat_pages _ _ _ _ _) as [[[ok p3] mc3]|]; [|lia]. destruct Hl as [[g3 Ho3] Hc3].
  destruct ok; cbn [negb]; eexists; (split; [done|]); [|by eapply fail_loaded]. split.
  - exists g3. by eapply owned_same; [exact Ho3|..].
  - cbn [initialize_context set_state set_context pr_memory]. rewrite Hc3 by done. lia.
Qed.

(** The validator accepts the file although its segments have more pages than
    the sixteen the loader has room for (see [elf_page_budget_bypass]). *)
Definition oversized (bytes : list Z) : Prop :=
  exists image, elf_validate_user_image (Some bytes) (Z.of_nat (length bytes)) (ARGUS_USER_BASE + USER_CODE_OFFSET)
    (ARGUS_USER_BASE + USER_STACK_OFFSET - ARGUS_PAGE_SIZE) (Some image0) = (true, Some image)
  /\ ARGUS_ELF_MAX_IMAGE_PAGES < zsum seg_page_count (take (Z.to_nat (img_segment_count image)) (img_segments image)).

Lemma load_elf_app_loaded mc kp ipc p pid app_id bytes :
  machine_ok mc -> kernel_ok mc kp ->
  match load_elf_app mc ipc (Some kp) p pid app_id bytes with
  | None => oversized bytes
  | Some r => exists n, loaded mc kp n r
  end.
Proof.
  intros Hm Hk. unfold load_elf_app. cbv zeta. case_if; [cbv iota beta; exists 0; by apply restored_refl, Hm|].
  destruct (elf_validate_user_image _ _ _ _ _) as [[] [image|]] eqn:Ev;
    try (cbv iota beta; exists 0; by apply restored_refl, Hm).
  set (segments := take _ _).
  assert (Forall (fun s => 0 <= seg_page_count s) segments) as HF by (eapply Forall_take, validate_page_counts, Ev).
  pose proof (prepare_process_loaded mc kp ipc p pid app_id Hm Hk) as Hp.
  destruct (prepare_process _ _ _ _ _ _) as [[[ok p1] mc1] ipc1]. destruct ok; cbn [negb]; [|cbv iota beta; by exists 0].
  destruct Hp as [[g Ho] Hc]. set (p2 := set_memory p1 _).
  assert (owned mc kp mc1 p2 g) as Ho2 by (by eapply owned_same; [exact Ho|..]).
  pose proof (load_segments_owned segments mc kp mc1 p2 g bytes Ho2 HF) as Hl. unfold pages_loaded in Hl.
  change (pm_image_page_count (pr_memory p2)) with (pm_image_page_count (pr_memory p1)) in Hl.
  destruct (load_segments _ _ _ _) as [[[ok p3] mc3]|].
  - destruct Hl as [[g3 Ho3] Hc3].
    destruct ok; cbn [negb]; exists (zsum seg_page_count segments); [|by eapply fail_loaded]. split.
    + exists g3. by eapply owned_same; [exact Ho3|..].
    + cbn [initialize_context set_state set_context pr_memory]. rewrite Hc3 by done. lia.
  - exists image. split; [done|]. unfold ARGUS_ELF_MAX_IMAGE_PAGES. fold segments. lia.
Qed.

(** ** What the loader guarantees *)

(** C14: loading never leaks.  Whether [load_elf_app] fails, at any of its steps,
    or succeeds and [release_process] is called later, the allocator's free
    pages and pages in use end up exactly as before the load, and no memory
    outside the pages that were free has changed.  The load has one of these
    outcomes unless the validator accepted a file of more than sixteen pages:
    only then can the loader store past its array of pages ([None]). *)
Theorem process_load_release mc kp ipc p pid app_id bytes :
  machine_ok mc -> kernel_ok mc kp ->
  match load_elf_app mc ipc (Some kp) p pid app_id bytes with
  | Some (true, p1, mc1, ipc1) =>
      let '(p2, mc2, _) := release_process mc1 ipc1 p1 in p2 = process0 /\ restored mc mc2
  | Some (false, _, mc1, _) => restored mc mc1
  | None => oversized bytes
  end.
Proof.
  intros Hm Hk. pose proof (load_elf_app_loaded mc kp ipc p pid app_id bytes Hm Hk) as Hl.
  destruct (load_elf_app _ _ _ _ _ _ _) as [[[[ok p1] mc1] ipc1]|]; [|done]. destruct Hl as [n Hl].
  destruct ok; [|done].
  destruct Hl as [[g Ho] _]. destruct (owned_release _ _ _ _ _ ipc1 Ho) as (mc2 & ipc2 & -> & Hr). done.
Qed.

(** A successful load, of a probe or of an application. *)
Inductive loads mc kp : machine S -> process_t -> Prop :=
  | loads_probe ipc p pid image ipc' p' mc' :
      load_flat_probe mc ipc (Some kp) p pid image = Some (true, p', mc', ipc') -> loads mc kp mc' p'
  | loads_app ipc p pid app_id bytes ipc' p' mc' :
      load_elf_app mc ipc (Some kp) p pid app_id bytes = Some (true, p', mc', ipc') ->
      loads mc kp mc' p'.

Lemma loads_owned mc kp mc' p' :
  machine_ok mc -> kernel_ok mc kp -> loads mc kp mc' p' -> exists g, owned mc kp mc' p' g.
Proof.
  intros Hm Hk [ipc p pid image ipc' p1 mc1 Hl|ipc p pid app_id bytes ipc' p1 mc1 Hl].
  - destruct (load_flat_probe_loaded mc kp ipc p pid image Hm Hk) as (r & Hr & H'). rewrite Hl in Hr.
    injection Hr as <-. apply H'.
  - pose proof (load_elf_app_loaded mc kp ipc p pid app_id bytes Hm Hk) as H'. rewrite Hl in H'.
    destruct H' as [n H']. apply H'.
Qed.

(** An owned process reaches its own frames only. *)
Lemma owned_translate mc0 kp mc p g va a f :
  owned mc0 kp mc p g -> in_window va -> user_translate (mc_mem mc) p va = Some (a, f) ->
  page_of a ∈ frames (regions (pr_memory p)).
Proof.
  intros Ho Hw. unfold user_translate. rewrite (translate_spec mc _ g va (ow_space _ _ _ _ _ Ho) Hw).
  destruct (sh_leaf g !! path va) as [e|] eqn:E; [|done]. intros [= <- _].
  rewrite frame_lor; [|rewrite table_of_eq; apply Z.mod_mul; lia|apply Z.mod_pos_bound; lia].
  replace (page_of (table_of e + va mod 4096)) with (page_of (table_of e)); [by apply (ow_leaf _ _ _ _ _ Ho _ _ E)|].
  pose proof (table_of_eq e) as Ht. unfold page_of. Z.to_euclidean_division_equations. lia.
Qed.

(** C3: processes are isolated.  Load one process and then another: no user
    address of the first and no user address of the second translate to the same
    physical page, the second load changes no translation of the first and none
    of the bytes the first can reach.  The loads are any that return 1: a probe,
    or an application of any size the loader has room for (a load that would
    store past its array of pages returns nothing, see [record_page]). *)
Theorem process_isolation mc kp mc1 p1 mc2 p2 :
  machine_ok mc -> kernel_ok mc kp -> loads mc kp mc1 p1 -> loads mc1 kp mc2 p2 ->
  (forall va a f, in_window va -> user_translate (mc_mem mc1) p1 va = Some (a, f) ->
     user_translate (mc_mem mc2) p1 va = Some (a, f) /\ mem_get (mc_mem mc2) a = mem_get (mc_mem mc1) a)
  /\ (forall va va' a a' f f', in_window va -> in_window va' ->
       user_translate (mc_mem mc2) p1 va = Some (a, f) ->
       user_translate (mc_mem mc2) p2 va' = Some (a', f') -> page_of a <> page_of a').
Proof.
  intros Hm Hk L1 L2. destruct (loads_owned _ _ _ _ Hm Hk L1) as [g1 O1].
  pose proof (space_machine_ok _ _ _ (ow_space _ _ _ _ _ O1)) as Hm1.
  assert (kernel_ok mc1 kp) as Hk1.
  { destruct Hk as [? Hn]. split; [done|]. intros Hin. apply Hn. rewrite <- (ow_free _ _ _ _ _ O1). by apply elem_of_union_l. }
  destruct (loads_owned _ _ _ _ Hm1 Hk1 L2) as [g2 O2]. pose proof (ow_space _ _ _ _ _ O1) as S1.
  pose proof (pa_disjoint _ (so_pa _ _ _ S1)) as Hd. pose proof (ow_live _ _ _ _ _ O1) as Hl1.
  pose proof (so_live _ _ _ S1) as Hs1. pose proof (ow_free _ _ _ _ _ O2) as Hf2.
  assert (space_ok (with_memory mc1 (mc_mem mc2)) (pm_address_space (pr_memory p1)) g1) as S1'.
  { apply space_frame; [done|]. intros x Hx. apply (ow_memory _ _ _ _ _ O2). intros Hf. by apply (Hd (page_of x)), Hs1. }
  assert (forall va, in_window va -> user_translate (mc_mem mc2) p1 va = user_translate (mc_mem mc1) p1 va) as Ht.
  { intros va Hw. unfold user_translate. rewrite (translate_spec _ _ _ _ S1 Hw). exact (translate_spec _ _ _ _ S1' Hw). }
  split.
  - intros va a f Hw Ha. rewrite Ht by done. split; [done|]. apply (ow_memory _ _ _ _ _ O2). intros Hf.
    apply (Hd _ Hf), Hl1. exact (owned_translate _ _ _ _ _ _ _ _ O1 Hw Ha).
  - intros va va' a a' f f' Hw Hw' Ha Ha' Heq. rewrite Ht in Ha by done.
    assert (page_of a ∈ frames (regions (pr_memory p1))) 
      as H1 by exact (owned_translate _ _ _ _ _ _ _ _ O1 Hw Ha).
    assert (page_of a' ∈ frames (regions (pr_memory p2))) 
      as H2 by exact (owned_translate _ _ _ _ _ _ _ _ O2 Hw' Ha').
    apply (Hd (page_of a)); [|by apply Hl1]. rewrite <- Hf2, Heq. clear -H2. set_solver.
Qed.
End ownership.

(** ** Witnesses: two probes and an application on the sample machine *)

#[local] Opaque sample_pmm.

Definition sample_ipc : ipc_state := ipc_init (replicate 8 endpoint0).
Definition sample_code : list Z := [0x90; 0xEB; 0xFD].

(** The result of a load; the process and the machine are those before it when
    there is none. *)
Definition load_result mc (r : option (bool * process_t * machine pmm_state * ipc_state)) :=
  default (false, process0, mc, sample_ipc) r.

Definition sample_load1 := load_result sample_machine
  (load_flat_probe sample_machine sample_ipc (Some sample_kernel) process0 1 sample_code).
Definition sample_p1 : process_t := snd (fst (fst sample_load1)).
Definition sample_m1 : machine pmm_state := snd (fst sample_load1).
Definition sample_load2 := load_result sample_m1
  (load_flat_probe sample_m1 sample_ipc (Some sample_kernel) process0 2 sample_code).
Definition sample_p2 : process_t := snd (fst (fst sample_load2)).
Definition sample_m2 : machine pmm_state := snd (fst sample_load2).

(** A result of the loader whose status is 1. *)
Lemma loaded_eq mc r :
  let r' := load_result mc r in
  fst (fst (fst r')) = true -> r = Some (true, snd (fst (fst r')), snd (fst r'), snd r').
Proof. destruct r as [[[[ok a] b] c]|]; [simpl; by intros ->|done]. Qed.

Lemma sample_loads : loads sample_machine sample_kernel sample_m1 sample_p1.
Proof.
  assert (fst (fst (fst sample_load1)) = true) as E by (vm_compute; reflexivity).
  exact (loads_probe sample_machine sample_kernel sample_ipc process0 1 sample_code (snd sample_load1) sample_p1
           sample_m1 (loaded_eq sample_machine _ E)).
Qed.

Lemma sample_loads2 : loads sample_m1 sample_kernel sample_m2 sample_p2.
Proof.
  assert (fst (fst (fst sample_load2)) = true) as E by (vm_compute; reflexivity).
  exact (loads_probe sample_m1 sample_kernel sample_ipc process0 2 sample_code (snd sample_load2) sample_p2
           sample_m2 (loaded_eq sample_m1 _ E)).
Qed.

(** Both probes see their own code at the same address. *)
Example sample_translations :
  user_translate (mc_mem sample_m2) sample_p1 (ARGUS_USER_BASE + USER_CODE_OFFSET + 1) = Some (1069057, 5)
  /\ user_translate (mc_mem sample_m2) sample_p2 (ARGUS_USER_BASE + USER_CODE_OFFSET + 1) = Some (1097729, 5).
Proof. vm_compute. auto. Qed.

#[local] Opaque sample_m1 sample_p1 sample_m2 sample_p2.

Lemma process_isolation_witness :
  exists a a', user_translate (mc_mem sample_m2) sample_p1 (ARGUS_USER_BASE + USER_CODE_OFFSET + 1) = Some (a, 5)
    /\ user_translate (mc_mem sample_m2) sample_p2 (ARGUS_USER_BASE + USER_CODE_OFFSET + 1) = Some (a', 5)
    /\ page_of a <> page_of a'.
Proof.
  destruct sample_translations as [H1 H2]. exists 1069057, 1097729. split; [exact H1|split; [exact H2|]].
  destruct (process_isolation sample_machine sample_kernel sample_m1 sample_p1 sample_m2 sample_p2
              sample_machine_ok sample_kernel_ok sample_loads sample_loads2) as [_ H].
  set (va := ARGUS_USER_BASE + USER_CODE_OFFSET + 1) in *.
  assert (in_window va) as Hw by (split; vm_compute; congruence).
  exact (H va va 1069057 1097729 5 5 Hw Hw H1 H2).
Defined.

Lemma process_load_release_witness :
  match load_elf_app sample_machine sample_ipc (Some sample_kernel) process0 1 1 (sample_elf 0x2000) with
  | Some (true, p1, mc1, ipc1) =>
      let '(p2, mc2, _) := release_process mc1 ipc1 p1 in p2 = process0 /\ restored sample_machine mc2
  | Some (false, _, mc1, _) => restored sample_machine mc1
  | None => oversized (sample_elf 0x2000)
  end.
Proof.
  apply (process_load_release sample_machine sample_kernel sample_ipc process0 1 1 (sample_elf 0x2000)).
  - exact sample_machine_ok.
  - exact sample_kernel_ok.
Defined.

(** Applications of two and of sixteen pages load; one of seventeen pages makes
    the loader store past the array that records the pages. *)
Example sample_app_loads :
  let load n := load_elf_app sample_machine sample_ipc (Some sample_kernel) process0 1 1 (sample_elf (n * 4096)) in
  let pages n := (fun r => (fst (fst (fst r)), pm_image_page_count (pr_memory (snd (fst (fst r)))))) <$> load n in
  pages 2 = Some (true, 2) /\ pages 16 = Some (true, 16) /\ pages 17 = None.
Proof. vm_compute. auto 10. Qed.
