(* ===== verification/Syscall.v ===== *)
(** * System calls and user interrupts (src/process.c)

    The scheduler's static variables, the checks of user memory, the system-call
    handler and the handler for interrupts taken in user mode.  User memory is
    read and written through the process's page tables, as the processor does
    with the process's CR3 loaded.  The timer ([apic_timer_ticks]) and the serial
    port ([serial_putc]) are a field each. *)

From stdpp Require Import base list gmap numbers.
From Stdlib Require Import ZArith Lia.
From S2P Require Import Prelude Memory Capability Anonymity Ipc BootInfo Allocator Pmm Elf Paging Process Loading.

Open Scope Z_scope.

Definition ARGUS_SYSCALL_WRITE : Z := 1.
Definition ARGUS_SYSCALL_GETPID : Z := 2.
Definition ARGUS_SYSCALL_YIELD : Z := 3.
Definition ARGUS_SYSCALL_EXIT : Z := 4.
Definition ARGUS_SYSCALL_CLOCK_TICKS : Z := 5.
Definition ARGUS_SYSCALL_INPUT_POLL : Z := 6.
Definition ARGUS_SYSCALL_APP_PRESENT : Z := 7.
Definition ARGUS_SYSCALL_EVENT_WAIT : Z := 8.
Definition ARGUS_SYSCALL_CAPABILITY_QUERY : Z := 9.
Definition ARGUS_SYSCALL_IPC_SEND : Z := 10.
Definition ARGUS_SYSCALL_IPC_RECEIVE : Z := 11.
Definition ARGUS_SYSCALL_ANONYMOUS_CONNECT : Z := 12.
Definition ARGUS_APIC_TIMER_VECTOR : Z := 0x40.

(** The [ARCH_USER_ACTION_*] codes.  [KERNEL_PANIC] is not one of them: it is a
    call that raises an exception in kernel mode, where [interrupt_dispatch]
    calls [kernel_exception_panic], which does not return. *)
Inductive user_action :=
  | KERNEL_PANIC
  | ACTION_RETURN
  | ACTION_YIELD
  | ACTION_EXIT
  | ACTION_WAIT
  | ACTION_PREEMPT
  | ACTION_FAULT.

#[export] Instance user_action_eq_dec : EqDecision user_action.
Proof. solve_decision. Defined.

(** The event counters. *)
Record counters := mk_counters {
  n_completed : Z;
  n_syscalls : Z;
  n_yields : Z;
  n_switches : Z;
  n_writes : Z;
  n_faults : Z;
  n_preemptions : Z;
  n_waits : Z;
  n_wakeups : Z;
  n_denials : Z }.

Definition counters0 : counters := mk_counters 0 0 0 0 0 0 0 0 0 0.

(** Each [++counter], on its width. *)
Definition count_completed (c : counters) : counters :=
  mk_counters (u32 (n_completed c + 1)) (n_syscalls c) (n_yields c) (n_switches c) (n_writes c)
    (n_faults c) (n_preemptions c) (n_waits c) (n_wakeups c) (n_denials c).
Definition count_syscalls (c : counters) : counters :=
  mk_counters (n_completed c) (u64 (n_syscalls c + 1)) (n_yields c) (n_switches c) (n_writes c)
    (n_faults c) (n_preemptions c) (n_waits c) (n_wakeups c) (n_denials c).
Definition count_yields (c : counters) : counters :=
  mk_counters (n_completed c) (n_syscalls c) (u64 (n_yields c + 1)) (n_switches c) (n_writes c)
    (n_faults c) (n_preemptions c) (n_waits c) (n_wakeups c) (n_denials c).
Definition count_switches (c : counters) : counters :=
  mk_counters (n_completed c) (n_syscalls c) (n_yields c) (u64 (n_switches c + 1)) (n_writes c)
    (n_faults c) (n_preemptions c) (n_waits c) (n_wakeups c) (n_denials c).
Definition count_writes (c : counters) : counters :=
  mk_counters (n_completed c) (n_syscalls c) (n_yields c) (n_switches c) (u64 (n_writes c + 1))
    (n_faults c) (n_preemptions c) (n_waits c) (n_wakeups c) (n_denials c).
Definition count_faults (c : counters) : counters :=
  mk_counters (n_completed c) (n_syscalls c) (n_yields c) (n_switches c) (n_writes c)
    (u64 (n_faults c + 1)) (n_preemptions c) (n_waits c) (n_wakeups c) (n_denials c).
Definition count_preemptions (c : counters) : counters :=
  mk_counters (n_completed c) (n_syscalls c) (n_yields c) (n_switches c) (n_writes c) (n_faults c)
    (u64 (n_preemptions c + 1)) (n_waits c) (n_wakeups c) (n_denials c).
Definition count_waits (c : counters) : counters :=
  mk_counters (n_completed c) (n_syscalls c) (n_yields c) (n_switches c) (n_writes c) (n_faults c)
    (n_preemptions c) (u64 (n_waits c + 1)) (n_wakeups c) (n_denials c).
Definition count_wakeups (c : counters) : counters :=
  mk_counters (n_completed c) (n_syscalls c) (n_yields c) (n_switches c) (n_writes c) (n_faults c)
    (n_preemptions c) (n_waits c) (u64 (n_wakeups c + 1)) (n_denials c).
Definition count_denials (c : counters) : counters :=
  mk_counters (n_completed c) (n_syscalls c) (n_yields c) (n_switches c) (n_writes c) (n_faults c)
    (n_preemptions c) (n_waits c) (n_wakeups c) (u64 (n_denials c + 1)).

(** The flags [address_spaces_isolated], [scheduler_ready],
    [process_self_test_passed], [preemption_enabled] and
    [security_boundaries_ready]. *)
Record kernel_flags := mk_flags {
  f_isolated : bool;
  f_scheduler_ready : bool;
  f_self_test_passed : bool;
  f_preemption : bool;
  f_security_ready : bool }.

(** [current_process] is [None] for -1. *)
Record kernel (S : Type) := mk_kernel {
  k_processes : list process_t;
  k_kernel_paging : option paging_info_t;
  k_current : option Z;
  k_configured : Z;
  k_cursor : Z;
  k_focused : Z;
  k_next_pid : Z;
  k_counters : counters;
  k_flags : kernel_flags;
  k_machine : machine S;
  k_ipc : ipc_state;
  k_transport : Z;
  k_ticks : Z;
  k_serial : list Z }.
Arguments mk_kernel {S}.
Arguments k_processes {S}.
Arguments k_kernel_paging {S}.
Arguments k_current {S}.
Arguments k_configured {S}.
Arguments k_cursor {S}.
Arguments k_focused {S}.
Arguments k_next_pid {S}.
Arguments k_counters {S}.
Arguments k_flags {S}.
Arguments k_machine {S}.
Arguments k_ipc {S}.
Arguments k_transport {S}.
Arguments k_ticks {S}.
Arguments k_serial {S}.

Section kernel_ops.
Context {S : Type} `{PageAllocator S}.
Implicit Types k : kernel S.

Definition k_set_processes (k : kernel S) v : kernel S :=
  mk_kernel
    v (k_kernel_paging k) (k_current k) (k_configured k) (k_cursor k) (k_focused k)
    (k_next_pid k) (k_counters k) (k_flags k) (k_machine k) (k_ipc k) (k_transport k)
    (k_ticks k) (k_serial k).
Definition k_set_current (k : kernel S) v : kernel S :=
  mk_kernel
    (k_processes k) (k_kernel_paging k) v (k_configured k) (k_cursor k) (k_focused k)
    (k_next_pid k) (k_counters k) (k_flags k) (k_machine k) (k_ipc k) (k_transport k)
    (k_ticks k) (k_serial k).
Definition k_set_configured (k : kernel S) v : kernel S :=
  mk_kernel
    (k_processes k) (k_kernel_paging k) (k_current k) v (k_cursor k) (k_focused k)
    (k_next_pid k) (k_counters k) (k_flags k) (k_machine k) (k_ipc k) (k_transport k)
    (k_ticks k) (k_serial k).
Definition k_set_cursor (k : kernel S) v : kernel S :=
  mk_kernel
    (k_processes k) (k_kernel_paging k) (k_current k) (k_configured k) v (k_focused k)
    (k_next_pid k) (k_counters k) (k_flags k) (k_machine k) (k_ipc k) (k_transport k)
    (k_ticks k) (k_serial k).
Definition k_set_focused (k : kernel S) v : kernel S :=
  mk_kernel
    (k_processes k) (k_kernel_paging k) (k_current k) (k_configured k) (k_cursor k) v
    (k_next_pid k) (k_counters k) (k_flags k) (k_machine k) (k_ipc k) (k_transport k)
    (k_ticks k) (k_serial k).
Definition k_set_next_pid (k : kernel S) v : kernel S :=
  mk_kernel
    (k_processes k) (k_kernel_paging k) (k_current k) (k_configured k) (k_cursor k)
    (k_focused k) v (k_counters k) (k_flags k) (k_machine k) (k_ipc k) (k_transport k)
    (k_ticks k) (k_serial k).
Definition k_set_counters (k : kernel S) v : kernel S :=
  mk_kernel
    (k_processes k) (k_kernel_paging k) (k_current k) (k_configured k) (k_cursor k)
    (k_focused k) (k_next_pid k) v (k_flags k) (k_machine k) (k_ipc k) (k_transport k)
    (k_ticks k) (k_serial k).
Definition k_set_flags (k : kernel S) v : kernel S :=
  mk_kernel
    (k_processes k) (k_kernel_paging k) (k_current k) (k_configured k) (k_cursor k)
    (k_focused k) (k_next_pid k) (k_counters k) v (k_machine k) (k_ipc k) (k_transport k)
    (k_ticks k) (k_serial k).
Definition k_set_machine (k : kernel S) v : kernel S :=
  mk_kernel
    (k_processes k) (k_kernel_paging k) (k_current k) (k_configured k) (k_cursor k)
    (k_focused k) (k_next_pid k) (k_counters k) (k_flags k) v (k_ipc k) (k_transport k)
    (k_ticks k) (k_serial k).
Definition k_set_ipc (k : kernel S) v : kernel S :=
  mk_kernel
    (k_processes k) (k_kernel_paging k) (k_current k) (k_configured k) (k_cursor k)
    (k_focused k) (k_next_pid k) (k_counters k) (k_flags k) (k_machine k) v (k_transport k)
    (k_ticks k) (k_serial k).
Definition k_set_serial (k : kernel S) v : kernel S :=
  mk_kernel
    (k_processes k) (k_kernel_paging k) (k_current k) (k_configured k) (k_cursor k)
    (k_focused k) (k_next_pid k) (k_counters k) (k_flags k) (k_machine k) (k_ipc k)
    (k_transport k) (k_ticks k) v.

Definition get_process k (i : Z) : process_t := zget process0 (k_processes k) i.
Definition put_process k (i : Z) (p : process_t) : kernel S := k_set_processes k (zset (k_processes k) i p).
Definition count k (f : counters -> counters) : kernel S := k_set_counters k (f (k_counters k)).

(** ** User memory *)

Definition user_byte (m : mem) (p : process_t) (va : Z) : Z :=
  match user_translate m p va with Some (pa, _) => mem_get m pa | None => 0 end.
Definition user_bytes (m : mem) (p : process_t) (va length : Z) : list Z :=
  map (fun i => user_byte m p (va + i)) (zrange 0 (Z.to_nat length)).
Definition user_store (m : mem) (p : process_t) (va v : Z) : mem :=
  match user_translate m p va with Some (pa, _) => mem_set m pa v | None => m end.
Definition user_stores (m : mem) (p : process_t) (va : Z) (bytes : list Z) : mem :=
  fold_left (fun m '(i, b) => user_store m p (va + Z.of_nat i) b) (zip (seq 0 (length bytes)) bytes) m.

(** The page loop of [user_range_readable] and [user_range_writable]; it makes
    at most [count] steps to the last page, where it stops. *)
Fixpoint range_pages (fuel : nat) (m : mem) (p : process_t) (writable : bool) (page last_page : Z) : bool :=
  match fuel with
  | O => false
  | Datatypes.S f =>
      match user_translate m p page with
      | None => false
      | Some (_, flags) =>
          if writable && negb (has flags X86_PAGE_WRITABLE) then false
          else if page =? last_page then true
          else if UINT64_MAX - ARGUS_PAGE_SIZE <? page then false
          else range_pages f m p writable (page + ARGUS_PAGE_SIZE) last_page
      end
  end.

Definition user_range (m : mem) (p : process_t) (writable : bool) (address length : Z) : bool :=
  if negb (nz length) || (UINT64_MAX - (length - 1) <? address) then false
  else
    let last := address + length - 1 in
    let page := address & not64 (ARGUS_PAGE_SIZE - 1) in
    let last_page := last & not64 (ARGUS_PAGE_SIZE - 1) in
    range_pages (Z.to_nat ((last_page - page) / ARGUS_PAGE_SIZE + 1)) m p writable page last_page.

Definition user_range_readable (m : mem) (p : process_t) (address length : Z) : bool :=
  user_range m p false address length.
Definition user_range_writable (m : mem) (p : process_t) (address length : Z) : bool :=
  user_range m p true address length.

(** ** Handler helpers *)

(** [process_capability]: the object, or [None]. *)
Definition process_capability (p : process_t) (handle type rights expected_object : Z) : option Z :=
  match capability_resolve (Some (pr_capabilities p)) handle type rights with
  | None => None
  | Some resolved =>
      if (expected_object !=? UINT64_MAX) && (resolved !=? expected_object) then None else Some resolved
  end.
Definition capable (p : process_t) (handle type rights expected_object : Z) : bool :=
  match process_capability p handle type rights expected_object with Some _ => true | None => false end.

Definition app_input_poll (p : process_t) : Z * process_t :=
  let r := pr_input p in
  if ring_tail r =? ring_head r then (0, p)
  else (zget 0 (ring_keys r) (ring_tail r),
        set_input p (mk_ring (ring_keys r) (ring_head r)
                       (u8 ((ring_tail r + 1) & (APP_INPUT_CAPACITY - 1))) (u64 (ring_delivered r + 1)))).

Definition app_surface_valid (m : mem) (p : process_t) : bool :=
  nz (pm_surface_physical (pr_memory p)) &&
  zall (fun i => mem_get m (pm_surface_physical (pr_memory p) + i) <? ARGUS_APP_PALETTE_COUNT)
    0 (Z.to_nat ARGUS_APP_SURFACE_BYTES).

Definition app_mapping_isolated (m : mem) (p : process_t) : bool :=
  let surface := pm_surface_physical (pr_memory p) in
  if negb (nz (pr_app_id p)) || negb (nz surface) then false
  else
    match user_translate m p ARGUS_APP_SURFACE_ADDRESS with
    | None => false
    | Some (physical, flags) =>
        (physical =? surface) && has flags X86_PAGE_WRITABLE &&
        (negb (us_nx_enabled (pm_address_space (pr_memory p))) || has flags X86_PAGE_NO_EXECUTE) &&
        match user_translate m p (ARGUS_APP_SURFACE_ADDRESS + ARGUS_APP_SURFACE_BYTES - 1) with
        | None => false
        | Some (last_physical, _) => last_physical =? u64 (surface + ARGUS_APP_SURFACE_BYTES - 1)
        end
    end.

Definition save_interrupt_context (p : process_t) (f : interrupt_frame_t) : process_t :=
  set_context p
    (mk_context (fr_r15 f) (fr_r14 f) (fr_r13 f) (fr_r12 f) (fr_r11 f) (fr_r10 f) (fr_r9 f) (fr_r8 f)
       (fr_rdi f) (fr_rsi f) (fr_rbp f) (fr_rdx f) (fr_rcx f) (fr_rbx f) (fr_rax f)
       (fr_rip f) (fr_rflags f) (fr_rsp f)).

(** The process [current_process] names, when it is a configured slot. *)
Definition current_slot k : option Z :=
  match k_current k with
  | Some i => if i <? k_configured k then Some i else None
  | None => None
  end.

(** [cr2] is what [cpu_read_cr2] returns. *)
Definition process_on_user_interrupt k (frame : option interrupt_frame_t) (cr2 : Z) : user_action * kernel S :=
  match frame, current_slot k with
  | Some f, Some i =>
      let p := get_process k i in
      if negb ((fr_cs f & 3) =? 3) || negb (is_state (pr_state p) ARGUS_PROCESS_RUNNING)
      then (ACTION_RETURN, k)
      else if fr_vector f <? 32 then
        let p := save_interrupt_context p f in
        let p := set_fault p (mk_fault (fr_vector f) (fr_error_code f) (fr_rip f)
                                (if fr_vector f =? 14 then cr2 else 0)) in
        let p := set_active (set_state p ARGUS_PROCESS_FAULTED) false in
        (ACTION_FAULT, count (put_process k i p) count_faults)
      else if (fr_vector f =? ARGUS_APIC_TIMER_VECTOR) && f_preemption (k_flags k) then
        let p := set_state (save_interrupt_context p f) ARGUS_PROCESS_READY in
        (ACTION_PREEMPT, count (put_process k i p) count_preemptions)
      else (ACTION_RETURN, k)
  | _, _ => (ACTION_RETURN, k)
  end.
(** ** The system-call handler *)

(** What a handler leaves: the action, the caller's context and the kernel. *)
Definition outcome : Type := user_action * arch_user_context_t * kernel S.

(** [context->rax = value; return ARCH_USER_ACTION_RETURN;] *)
Definition return_value (c : arch_user_context_t) k (value : Z) : outcome :=
  (ACTION_RETURN, set_rax c value, k).

(** The addresses the processor accepts: bits 63..47 are equal.  An access
    through any other address raises #GP, here in kernel mode. *)
Definition canonical (va : Z) : bool := (va <? 2 ^ 47) || (2 ^ 64 - 2 ^ 47 <=? va).
Definition touching (c : arch_user_context_t) k (address length : Z) (o : outcome) : outcome :=
  if canonical address && canonical (address + length - 1) then o else (KERNEL_PANIC, c, k).

(** A user pointer as the argument of a kernel function. *)
Definition user_pointer (address : Z) (bytes : list Z) : option (list Z) :=
  if nz address then Some bytes else None.

Definition syscall_write k (p : process_t) (c : arch_user_context_t) : outcome :=
  let m := mc_mem (k_machine k) in
  let address := cx_rdi c in
  let length := cx_rsi c in
  if negb (nz length) || (USER_WRITE_LIMIT <? length) || negb (user_range_readable m p address length)
  then return_value c k UINT64_MAX
  else
    touching c k address length
      (let k := k_set_serial k (k_serial k ++ user_bytes m p address length) in
       return_value c (count k count_writes) length).

Definition syscall_yield k (i : Z) (p : process_t) (c : arch_user_context_t) : outcome :=
  let c := set_rax c 0 in
  let p := set_state (set_context p c) ARGUS_PROCESS_READY in
  let p := set_yields p (u64 (pr_yields p + 1)) in
  (ACTION_YIELD, c, count (put_process k i p) count_yields).

Definition syscall_exit k (i : Z) (p : process_t) (c : arch_user_context_t) : outcome :=
  let p := set_state (set_exit_status p (cx_rdi c)) ARGUS_PROCESS_EXITED in
  (ACTION_EXIT, c, count (put_process k i (set_active p false)) count_completed).

Definition syscall_clock_ticks k (p : process_t) (c : arch_user_context_t) : outcome :=
  return_value c k
    (if nz (pr_app_id p) && capable p (cx_rdi c) ARGUS_CAPABILITY_CLOCK ARGUS_CAP_RIGHT_READ 0
     then k_ticks k else UINT64_MAX).

Definition syscall_input_poll k (i : Z) (p : process_t) (c : arch_user_context_t) : outcome :=
  if nz (pr_app_id p) && capable p (cx_rdi c) ARGUS_CAPABILITY_INPUT ARGUS_CAP_RIGHT_READ (pr_app_id p)
  then let '(key, p) := app_input_poll p in return_value c (put_process k i p) key
  else return_value c k UINT64_MAX.

(** A field of the [argus_app_present_v1_t] in user memory. *)
Definition user_load32 (m : mem) (p : process_t) (va : Z) : Z := le_read (user_byte m p) va 4.

Definition syscall_app_present k (i : Z) (p : process_t) (c : arch_user_context_t) : outcome :=
  let m := mc_mem (k_machine k) in
  if negb (nz (pr_app_id p)) ||
     negb (capable p (cx_rdx c) ARGUS_CAPABILITY_SURFACE ARGUS_CAP_RIGHT_PRESENT
             (pm_surface_physical (pr_memory p))) ||
     (cx_rsi c !=? 16) || negb (user_range_readable m p (cx_rdi c) (cx_rsi c))
  then return_value c k UINT64_MAX
  else
    touching c k (cx_rdi c) (cx_rsi c)
   (let request := cx_rdi c in
    let magic := user_load32 m p request in
    let abi_version := user_load32 m p (request + 4) in
    let sequence := user_load32 m p (request + 8) in
    let flags := user_load32 m p (request + 12) in
    if (magic !=? ARGUS_APP_PRESENT_MAGIC) || (abi_version !=? ARGUS_APP_ABI_VERSION) ||
       (flags !=? 0) || (sequence =? 0) ||
       (pr_present_valid p && (sequence <=? pr_present_sequence p)) || negb (app_surface_valid m p)
    then return_value c k UINT64_MAX
    else
      let p := set_present_valid (set_present_sequence p sequence) true in
      return_value c (put_process k i p) 0).

Definition syscall_event_wait k (i : Z) (p : process_t) (c : arch_user_context_t) : outcome :=
  if negb (nz (pr_app_id p)) ||
     negb (capable p (cx_rdi c) ARGUS_CAPABILITY_INPUT ARGUS_CAP_RIGHT_WAIT (pr_app_id p))
  then return_value c k UINT64_MAX
  else
    let deadline := cx_rsi c in
    let now := k_ticks k in
    if (ring_tail (pr_input p) !=? ring_head (pr_input p)) ||
       ((deadline !=? UINT64_MAX) && (deadline <=? now))
    then return_value c k 0
    else
      let c := set_rax c 0 in
      let p := set_wait_deadline (set_context p c) deadline in
      let p := set_state p ARGUS_PROCESS_BLOCKED in
      (ACTION_WAIT, c, count (put_process k i p) count_waits).

Definition syscall_capability_query k (p : process_t) (c : arch_user_context_t) : outcome :=
  let type := u32 (cx_rdi c) in
  return_value c k
    (if (ARGUS_CAPABILITY_NONE <? type) && (type <=? ARGUS_CAPABILITY_RAW_NETWORK)
     then capability_find (Some (pr_capabilities p)) type (u16 (cx_rsi c)) else 0).

Definition syscall_ipc_send k (p : process_t) (c : arch_user_context_t) : outcome :=
  let m := mc_mem (k_machine k) in
  match process_capability p (cx_rdi c) ARGUS_CAPABILITY_IPC ARGUS_CAP_RIGHT_SEND UINT64_MAX with
  | None => return_value c k UINT64_MAX
  | Some endpoint =>
      if negb (nz (cx_rdx c)) || (ARGUS_IPC_MESSAGE_MAX <? cx_rdx c) ||
         negb (user_range_readable m p (cx_rsi c) (cx_rdx c))
      then return_value c k UINT64_MAX
      else
        let '(sent, ipc) :=
          ipc_send (k_ipc k) endpoint (pr_pid p)
            (user_pointer (cx_rsi c) (user_bytes m p (cx_rsi c) (cx_rdx c))) (u32 (cx_rdx c)) in
        if sent then touching c k (cx_rsi c) (cx_rdx c) (return_value c (k_set_ipc k ipc) (cx_rdx c))
        else return_value c (k_set_ipc k ipc) UINT64_MAX
  end.

(** [ipc_receive] stores the message's bytes through the user pointer. *)
Definition syscall_ipc_receive k (p : process_t) (c : arch_user_context_t) : outcome :=
  let m := mc_mem (k_machine k) in
  match process_capability p (cx_rdi c) ARGUS_CAPABILITY_IPC ARGUS_CAP_RIGHT_RECEIVE (pr_ipc_endpoint p) with
  | None => return_value c k UINT64_MAX
  | Some endpoint =>
      if ipc_pending (k_ipc k) endpoint (pr_pid p) =? 0 then return_value c k 0
      else if negb (nz (cx_rdx c)) || (ARGUS_IPC_MESSAGE_MAX <? cx_rdx c) ||
              negb (user_range_writable m p (cx_rsi c) (cx_rdx c))
      then return_value c k UINT64_MAX
      else
        match ipc_receive (k_ipc k) endpoint (pr_pid p)
                (user_pointer (cx_rsi c) (user_bytes m p (cx_rsi c) (cx_rdx c)))
                (u32 (cx_rdx c)) true true with
        | (None, ipc) => return_value c (k_set_ipc k ipc) UINT64_MAX
        | (Some (buffer, received, _), ipc) =>
            touching c k (cx_rsi c) received
              (let m := user_stores m p (cx_rsi c) (take (Z.to_nat received) buffer) in
               let k := k_set_machine (k_set_ipc k ipc) (with_memory (k_machine k) m) in
               return_value c k received)
        end
  end.

(** The capability and the policy are consulted, and the connection is refused
    whatever they answer. *)
Definition syscall_anonymous_connect k (p : process_t) (c : arch_user_context_t) : outcome :=
  let capability_valid :=
    capable p (cx_rdi c) ARGUS_CAPABILITY_ANONYMOUS_STREAM ARGUS_CAP_RIGHT_CONNECT UINT64_MAX in
  let _ := capability_valid &&
             anonymity_connection_allowed (k_transport k) (pr_security_role p)
               ARGUS_CAPABILITY_ANONYMOUS_STREAM ARGUS_CAP_RIGHT_CONNECT in
  return_value c (count k count_denials) UINT64_MAX.

Definition syscall_dispatch k (context : option arch_user_context_t)
  : user_action * option arch_user_context_t * kernel S :=
  match context, current_slot k with
  | Some c, Some i =>
      let p := get_process k i in
      let k := count k count_syscalls in
      let rax := cx_rax c in
      let '(action, c, k) :=
        if rax =? ARGUS_SYSCALL_WRITE then syscall_write k p c
        else if rax =? ARGUS_SYSCALL_GETPID then return_value c k (pr_pid p)
        else if rax =? ARGUS_SYSCALL_YIELD then syscall_yield k i p c
        else if rax =? ARGUS_SYSCALL_EXIT then syscall_exit k i p c
        else if rax =? ARGUS_SYSCALL_CLOCK_TICKS then syscall_clock_ticks k p c
        else if rax =? ARGUS_SYSCALL_INPUT_POLL then syscall_input_poll k i p c
        else if rax =? ARGUS_SYSCALL_APP_PRESENT then syscall_app_present k i p c
        else if rax =? ARGUS_SYSCALL_EVENT_WAIT then syscall_event_wait k i p c
        else if rax =? ARGUS_SYSCALL_CAPABILITY_QUERY then syscall_capability_query k p c
        else if rax =? ARGUS_SYSCALL_IPC_SEND then syscall_ipc_send k p c
        else if rax =? ARGUS_SYSCALL_IPC_RECEIVE then syscall_ipc_receive k p c
        else if rax =? ARGUS_SYSCALL_ANONYMOUS_CONNECT then syscall_anonymous_connect k p c
        else return_value c k UINT64_MAX in
      (action, Some c, k)
  | _, _ => (ACTION_EXIT, context, k)
  end.
End kernel_ops.

#[global] Arguments user_translate : simpl never.
#[global] Arguments user_range : simpl never.
#[global] Arguments user_stores : simpl never.
#[global] Arguments user_bytes : simpl never.

(** ** Ranges of user memory *)

Lemma index_page va k : 12 <= k -> (va >> k) & 0x1FF = page_of va / 2 ^ (k - 12) mod 512.
Proof.
  intros Hk. rewrite index_eq by lia. unfold page_of. change 4096 with (2 ^ 12).
  rewrite Z.div_div by lia. rewrite <- Z.pow_add_r by lia. by replace (12 + (k - 12)) with k by lia.
Qed.

(** Every address of a page translates to the same frame with the same flags. *)
Lemma translate_uniform m u va va' :
  page_of va = page_of va' ->
  match paging_user_translate m u va, paging_user_translate m u va' with
  | Some (_, f), Some (_, f') => f = f'
  | None, None => True
  | _, _ => False
  end.
Proof.
  intros Hp. destruct u as [u|]; [|done]. unfold paging_user_translate.
  assert (pml4_index va = pml4_index va' /\ pdpt_index va = pdpt_index va'
          /\ pd_index va = pd_index va' /\ pt_index va = pt_index va') as (-> & -> & -> & ->).
  { unfold pml4_index, pdpt_index, pd_index, pt_index. rewrite !index_page by lia. by rewrite Hp. }
  repeat case_if; done.
Qed.

Lemma page_base a : 0 <= a <= UINT64_MAX -> a & not64 (ARGUS_PAGE_SIZE - 1) = page_of a * 4096.
Proof.
  intros Ha. unfold page_of. change (not64 (ARGUS_PAGE_SIZE - 1)) with (2 ^ 64 - 2 ^ 12).
  rewrite land_field by lia. change (2 ^ 12) with 4096. rewrite Z.mod_small; [done|]. unfold UINT64_MAX in *. lia.
Qed.

(** The address is mapped for user code, and writable when asked. *)
Definition accessible (m : mem) (p : process_t) (w : bool) (va : Z) : bool :=
  match user_translate m p va with
  | Some (_, flags) => implb w (has flags X86_PAGE_WRITABLE)
  | None => false
  end.

Lemma accessible_page m p w va va' : page_of va = page_of va' -> accessible m p w va = accessible m p w va'.
Proof.
  intros Hp. unfold accessible, user_translate.
  pose proof (translate_uniform m (Some (pm_address_space (pr_memory p))) va va' Hp) as Hu.
  destruct (paging_user_translate _ _ va) as [[? ?]|], (paging_user_translate _ _ va') as [[? ?]|]; by subst.
Qed.

Lemma range_pages_true m p w n q :
  0 <= q -> (q + Z.of_nat n) * 4096 <= UINT64_MAX ->
  range_pages (S n) m p w (q * 4096) ((q + Z.of_nat n) * 4096) = true <->
  forall j, q <= j <= q + Z.of_nat n -> accessible m p w (j * 4096) = true.
Proof.
  revert q. induction n as [|n IH]; intros q Hq Hm; cbn [range_pages].
  all: destruct (user_translate m p (q * 4096)) as [[pa f]|] eqn:Ht;
    [|split; [done|]; intros Hj; specialize (Hj q ltac:(lia)); unfold accessible in Hj; by rewrite Ht in Hj].
  all: assert (accessible m p w (q * 4096) = negb (w && negb (has f X86_PAGE_WRITABLE))) as Hq1
    by (unfold accessible; rewrite Ht; by destruct w, (has f _)).
  all: destruct (w && negb (has f X86_PAGE_WRITABLE));
    [split; [done|]; intros Hj; specialize (Hj q ltac:(lia)); by rewrite Hq1 in Hj|].
  - replace (q + Z.of_nat 0) with q by lia. rewrite Z.eqb_refl. split; [|done].
    intros _ j Hj. by replace j with q by lia.
  - destruct (Z.eqb_spec (q * 4096) ((q + Z.of_nat (S n)) * 4096)) as [?|_]; [lia|].
    assert ((UINT64_MAX - ARGUS_PAGE_SIZE <? q * 4096) = false) as ->
      by (apply Z.ltb_ge; unfold ARGUS_PAGE_SIZE; lia).
    replace (q * 4096 + ARGUS_PAGE_SIZE) with ((q + 1) * 4096) by (unfold ARGUS_PAGE_SIZE; lia).
    replace (q + Z.of_nat (S n)) with (q + 1 + Z.of_nat n) by lia. rewrite (IH (q + 1)) by lia. split.
    + intros Hj j Hj'. destruct (Z.eq_dec j q) as [->|]; [done|]. apply Hj. lia.
    + intros Hj j Hj'. apply Hj. lia.
Qed.

Lemma user_range_true m p w a len :
  0 <= a <= UINT64_MAX -> 0 <= len <= UINT64_MAX ->
  user_range m p w a len = true <->
  0 < len /\ a + len - 1 <= UINT64_MAX /\ forall i, 0 <= i < len -> accessible m p w (a + i) = true.
Proof.
  intros Ha Hl. unfold user_range, nz. destruct (Z.eqb_spec len 0) as [->|]; [by split; [|lia]|].
  destruct (Z.ltb_spec (UINT64_MAX - (len - 1)) a); cbn [negb orb]; [split; [done|lia]|].
  rewrite !page_base by lia. set (q := page_of a). set (l := page_of (a + len - 1)).
  assert (q <= l) as Hql by (unfold q, l, page_of; apply Z.div_le_mono; lia).
  assert (0 <= q) as Hq0 by (unfold q, page_of; apply Z.div_pos; lia).
  assert (l * 4096 <= a + len - 1) as Hlm by (unfold l, page_of; Z.to_euclidean_division_equations; lia).
  replace ((l * 4096 - q * 4096) / ARGUS_PAGE_SIZE + 1) with (Z.of_nat (S (Z.to_nat (l - q))))
    by (unfold ARGUS_PAGE_SIZE; Z.to_euclidean_division_equations; lia).
  rewrite Nat2Z.id. replace l with (q + Z.of_nat (Z.to_nat (l - q))) at 2 by lia.
  rewrite range_pages_true by lia. replace (q + Z.of_nat (Z.to_nat (l - q))) with l by lia. split.
  - intros Hj. split_and!; [lia|lia|]. intros i Hi.
    rewrite (accessible_page m p w _ (page_of (a + i) * 4096)).
    + apply Hj. unfold q, l, page_of. split; apply Z.div_le_mono; lia.
    + unfold page_of. rewrite Z.div_mul; lia.
  - intros (_ & _ & Hi) j Hj. rewrite (accessible_page m p w _ (a + Z.max 0 (j * 4096 - a))).
    + apply Hi. unfold q, l, page_of in *. Z.to_euclidean_division_equations. lia.
    + unfold q, l, page_of in *. Z.to_euclidean_division_equations. lia.
Qed.

(** ** What a system call can change *)

(** The cases of a handler: one goal per outcome, the outcome substituted. *)
Ltac outcome_cases :=
  repeat match goal with
    | |- (_, _, _) = (_, _, _) -> _ => intros [= <- _ <-]
    | |- (if ?b then _ else _) = _ -> _ => destruct b eqn:?
    | |- (let '(_, _) := ?x in _) = _ -> _ => destruct x eqn:?
    | |- match ?x with Some _ => _ | None => _ end = _ -> _ => destruct x eqn:?
    end.

Section confinement.
Context {S : Type} `{PageAllocatorLaws S}.
Implicit Types (k : kernel S) (mc : machine S).

(** User code cannot reach the tables of the space it runs in: the tables are
    a tree, only the user slot of the root is a user entry, and no leaf maps a
    table. *)
Definition tables_hidden mc (p : process_t) : Prop :=
  let u := pm_address_space (pr_memory p) in
  exists g, space_ok mc u g
    /\ (forall j, 0 <= j < 512 -> j <> USER_SLOT -> has (entry (mc_mem mc) (us_root_table u) j) PAGE_USER = false)
    /\ forall q e, sh_leaf g !! q = Some e -> ~ page_of (table_of e) ∈ own u.

Lemma owned_state mc0 kp mc p g st : owned mc0 kp mc p g -> owned mc0 kp mc (set_state p st) g.
Proof. intros Ho. by eapply owned_same; [exact Ho|..]. Qed.

(** A process the loader made is such a process, on a kernel root with no user
    entry. *)
Lemma owned_hidden mc0 kp mc p g :
  owned mc0 kp mc p g ->
  (forall j, 0 <= j < 512 -> j <> USER_SLOT -> has (entry (mc_mem mc0) (pi_root_table kp) j) PAGE_USER = false) ->
  tables_hidden mc p.
Proof.
  intros Ho Hk. exists g. split_and!; [apply Ho| |].
  - intros j Hj Hne. rewrite (ow_root _ _ _ _ _ Ho j Hj Hne). by apply Hk.
  - intros q e He Hin. apply (ow_apart _ _ _ _ _ Ho _ (ow_leaf _ _ _ _ _ Ho q e He) Hin).
Qed.

Lemma canonical_window va :
  0 <= va <= UINT64_MAX -> canonical va = true -> pml4_index va = USER_SLOT -> in_window va.
Proof.
  unfold canonical, pml4_index, USER_SLOT, in_window, UINT64_MAX. intros Hva Hc. rewrite index_eq by lia.
  apply orb_true_iff in Hc. rewrite Z.ltb_lt, Z.leb_le in Hc. change (2 ^ 39) with 549755813888 in *.
  change (2 ^ 40) with 1099511627776 in *. change (2 ^ 47) with 140737488355328 in *.
  change (2 ^ 64) with 18446744073709551616 in *. intros Hi. Z.to_euclidean_division_equations. lia.
Qed.

Lemma page_of_lor p o : p mod 4096 = 0 -> 0 <= o < 4096 -> page_of (Z.lor p o) = page_of p.
Proof. intros Hp Ho. rewrite frame_lor by done. unfold page_of. Z.to_euclidean_division_equations. lia. Qed.

Lemma hidden_translate mc p va pa f :
  tables_hidden mc p -> 0 <= va <= UINT64_MAX -> canonical va = true ->
  user_translate (mc_mem mc) p va = Some (pa, f) ->
  in_window va /\ ~ page_of pa ∈ own (pm_address_space (pr_memory p)).
Proof.
  intros (g & Hok & Hroot & Hleaf) Hva Hc Ht. set (u := pm_address_space (pr_memory p)) in *.
  assert (in_window va) as Hw.
  { apply canonical_window; [done|done|]. destruct (Z.eq_dec (pml4_index va) USER_SLOT) as [|Hne]; [done|].
    pose proof (index_range va) as (H4 & _). specialize (Hroot _ H4 Hne). revert Ht.
    unfold user_translate, paging_user_translate. fold u. case_if; [done|]. rewrite Hroot, orb_true_r. done. }
  split; [done|]. revert Ht. unfold user_translate. fold u. rewrite (translate_spec mc u g va Hok Hw).
  destruct (sh_leaf g !! path va) as [e|] eqn:E; [|done]. intros [= <- _].
  rewrite page_of_lor; [by apply (Hleaf _ _ E)| |apply Z.mod_pos_bound; lia].
  rewrite table_of_eq. apply Z.mod_mul. lia.
Qed.

(** Memory that agrees on the tables translates alike. *)
Lemma hidden_frame mc p m :
  tables_hidden mc p ->
  (forall x, page_of x ∈ own (pm_address_space (pr_memory p)) -> mem_get m x = mem_get (mc_mem mc) x) ->
  tables_hidden (with_memory mc m) p
  /\ forall va, 0 <= va <= UINT64_MAX -> canonical va = true -> user_translate m p va = user_translate (mc_mem mc) p va.
Proof.
  intros (g & Hok & Hroot & Hleaf) Hm. set (u := pm_address_space (pr_memory p)) in *.
  pose proof (space_frame mc u g m Hok Hm) as Hok'.
  assert (forall j, 0 <= j < 512 -> entry m (us_root_table u) j = entry (mc_mem mc) (us_root_table u) j) as He.
  { intros j Hj. apply le_read_ext. intros x Hx. simpl Z.of_nat in Hx. apply Hm, elem_of_own.
    pose proof (so_root _ _ _ Hok) as Hr. exists (us_root_table u). split; [apply (so_tables _ _ _ Hok); eauto|].
    destruct (so_frame _ _ _ Hok _ _ Hr) as [_ [Hm0 _]]. unfold page_of. Z.to_euclidean_division_equations. lia. }
  split.
  - exists g. split_and!; [done| |done]. intros j Hj Hne. cbn [with_memory mc_mem]. fold u. rewrite He by done. by apply Hroot.
  - intros va Hva Hc. pose proof (index_range va) as (H4 & _).
    destruct (Z.eq_dec (pml4_index va) USER_SLOT) as [Heq|Hne].
    + pose proof (canonical_window va Hva Hc Heq) as Hw. unfold user_translate. fold u.
      rewrite (translate_spec mc u g va Hok Hw). exact (translate_spec _ u g va Hok' Hw).
    + unfold user_translate, paging_user_translate. fold u. rewrite He by done. rewrite (Hroot _ H4 Hne), orb_true_r.
      done.
Qed.

(** Stores through user addresses reach only what those addresses translate to. *)
Lemma user_stores_spec mc p bytes va :
  tables_hidden mc p ->
  (forall i, 0 <= i < Z.of_nat (length bytes) -> 0 <= va + i <= UINT64_MAX /\ canonical (va + i) = true) ->
  let m' := user_stores (mc_mem mc) p va bytes in
  (forall x, page_of x ∈ own (pm_address_space (pr_memory p)) -> mem_get m' x = mem_get (mc_mem mc) x)
  /\ forall x, mem_get m' x = mem_get (mc_mem mc) x
       \/ exists i f, 0 <= i < Z.of_nat (length bytes) /\ user_translate (mc_mem mc) p (va + i) = Some (x, f).
Proof.
  intros Hh Hc. unfold user_stores. cbv zeta.
  induction bytes as [|b l IH] using rev_ind; [split; [done|by left]|].
  rewrite length_app in Hc |- *. cbn [length] in Hc |- *. destruct IH as [IH1 IH2]; [intros i Hi; apply Hc; lia|].
  rewrite seq_app, zip_with_app by (by rewrite length_seq). rewrite fold_left_app. cbn [zip_with fold_left seq Nat.add].
  set (m1 := fold_left _ (zip (seq 0 (length l)) l) (mc_mem mc)) in *.
  destruct (Hc (Z.of_nat (length l)) ltac:(lia)) as [Hr Hcan].
  destruct (hidden_frame mc p m1 Hh IH1) as [Hh1 Ht1]. specialize (Ht1 _ Hr Hcan). unfold user_store.
  destruct (user_translate m1 p (va + Z.of_nat (length l))) as [[pa f]|] eqn:Et.
  2: { split; [done|]. intros x. destruct (IH2 x) as [|(i & f & ? & ?)]; [by left|right; exists i, f; split; [lia|done]]. }
  destruct (hidden_translate _ _ _ _ _ Hh1 Hr Hcan Et) as [_ Hpa]. split.
  - intros x Hx. rewrite mem_get_set_ne; [by apply IH1|]. by intros ->.
  - intros x. destruct (Z.eq_dec pa x) as [->|Hne].
    + right. exists (Z.of_nat (length l)), f. split; [lia|]. by rewrite <- Ht1.
    + rewrite mem_get_set_ne by done.
      destruct (IH2 x) as [|(i & f' & ? & ?)]; [by left|right; exists i, f'; split; [lia|done]].
Qed.

(** The fields of a process that no system call changes. *)
Definition same_identity (p p' : process_t) : Prop :=
  pr_pid p' = pr_pid p /\ pr_memory p' = pr_memory p /\ pr_app_id p' = pr_app_id p
  /\ pr_security_role p' = pr_security_role p /\ pr_capabilities p' = pr_capabilities p
  /\ pr_ipc_endpoint p' = pr_ipc_endpoint p.

(** From [k] to [k'] only process [i] moved, it kept its identity, and memory
    changed at most at the addresses [W]. *)
Record confined k (i : Z) (W : Z -> Prop) k' : Prop := {
  cf_length : length (k_processes k') = length (k_processes k);
  cf_others : forall j, 0 <= j -> j <> i -> get_process k' j = get_process k j;
  cf_self : same_identity (get_process k i) (get_process k' i);
  cf_scheduler : k_configured k' = k_configured k /\ k_cursor k' = k_cursor k
                 /\ k_current k' = k_current k /\ k_focused k' = k_focused k /\ k_next_pid k' = k_next_pid k;
  cf_policy : k_transport k' = k_transport k /\ k_flags k' = k_flags k /\ k_kernel_paging k' = k_kernel_paging k;
  cf_pages : mc_pa (k_machine k') = mc_pa (k_machine k) /\ mc_cr3 (k_machine k') = mc_cr3 (k_machine k);
  cf_memory : forall x, mem_get (mc_mem (k_machine k')) x = mem_get (mc_mem (k_machine k)) x \/ W x }.

Lemma confined_refl k i W : confined k i W k.
Proof. constructor; try done. intros. by left. Qed.

Lemma confined_count k i W f k' : confined k i W k' -> confined k i W (count k' f).
Proof. intros []. by constructor. Qed.

Lemma confined_serial k i W b k' : confined k i W k' -> confined k i W (k_set_serial k' b).
Proof. intros []. by constructor. Qed.

Lemma confined_ipc k i W s k' : confined k i W k' -> confined k i W (k_set_ipc k' s).
Proof. intros []. by constructor. Qed.

Lemma get_put k i p :
  0 <= i < Z.of_nat (length (k_processes k)) -> get_process (put_process k i p) i = p.
Proof. intros Hi. apply zget_zset_eq. lia. Qed.

Lemma get_put_ne k i j p : 0 <= i -> 0 <= j -> j <> i -> get_process (put_process k i p) j = get_process k j.
Proof. intros. apply zget_zset_ne; lia. Qed.

Lemma confined_put k i W p :
  0 <= i < Z.of_nat (length (k_processes k)) -> same_identity (get_process k i) p ->
  confined k i W (put_process k i p).
Proof.
  intros Hi Hp. constructor; try done.
  - apply zset_length.
  - intros j Hj Hne. apply get_put_ne; lia.
  - by rewrite get_put.
  - intros. by left.
Qed.

Lemma confined_started k i W f k' : confined (count k f) i W k' -> confined k i W k'.
Proof. intros []. by constructor. Qed.

(** The registers of a user context are 64-bit words. *)
Definition context_wf (c : arch_user_context_t) : Prop :=
  0 <= cx_rdi c <= UINT64_MAX /\ 0 <= cx_rsi c <= UINT64_MAX /\ 0 <= cx_rdx c <= UINT64_MAX.

(** The addresses the caller names as its receive buffer and may write itself. *)
Definition buffer k (p : process_t) (c : arch_user_context_t) (x : Z) : Prop :=
  exists j f, 0 <= j < cx_rdx c /\ user_translate (mc_mem (k_machine k)) p (cx_rsi c + j) = Some (x, f)
              /\ has f X86_PAGE_WRITABLE = true.

Lemma receive_bounds s h pid data cap b n sender s' :
  ipc_receive s h pid data cap true true = (Some (b, n, sender), s') -> n <= cap.
Proof.
  unfold ipc_receive. destruct (resolve_endpoint s h), data; try done. cbv zeta.
  case_if; [done|]. case_if; [done|]. intros [= _ <- _ _]. b2p. lia.
Qed.

Lemma canonical_between a n i :
  0 <= n <= 64 -> 0 <= i < n -> canonical a = true -> canonical (a + n - 1) = true -> canonical (a + i) = true.
Proof.
  unfold canonical. rewrite !orb_true_iff, !Z.ltb_lt, !Z.leb_le.
  change (2 ^ 47) with 140737488355328. change (2 ^ 64) with 18446744073709551616. lia.
Qed.

(** [IPC_RECEIVE] is the one call that writes user memory. *)
Lemma receive_confined k i c a c' k' :
  let p := get_process k i in
  tables_hidden (k_machine k) p -> context_wf c ->
  syscall_ipc_receive k p c = (a, c', k') -> confined k i (buffer k p c) k'.
Proof.
  intros p Hh (_ & Hsi & Hdx). unfold syscall_ipc_receive, return_value.
  destruct (process_capability _ _ _ _ _) as [e|]; [|intros [= _ _ <-]; apply confined_refl].
  case_if; [intros [= _ _ <-]; apply confined_refl|].
  destruct (negb (nz (cx_rdx c)) || _ || _) eqn:Hg; [intros [= _ _ <-]; apply confined_refl|].
  destruct (ipc_receive _ _ _ _ _ _ _) as [[[[b n] sd]|] s'] eqn:Hr;
    [|intros [= _ _ <-]; apply confined_ipc, confined_refl].
  unfold touching. destruct (canonical _ && canonical _) eqn:Hcan; [|intros [= _ _ <-]; apply confined_refl].
  apply andb_true_iff in Hcan as [Hc1 Hc2]. intros [= _ _ <-]. apply receive_bounds in Hr.
  apply orb_false_iff in Hg as [Hg Hw]. apply orb_false_iff in Hg as [_ Hmax].
  apply negb_false_iff in Hw. unfold user_range_writable in Hw. rewrite user_range_true in Hw by done.
  destruct Hw as (Hpos & Hend & Hacc). unfold ARGUS_IPC_MESSAGE_MAX in Hmax. apply Z.ltb_ge in Hmax.
  rewrite u32_id in Hr by (unfold UINT32_MAX; lia).
  assert (Z.of_nat (length (take (Z.to_nat n) b)) <= Z.max 0 n) as Hlen by (rewrite length_take; lia).
  destruct (user_stores_spec (k_machine k) p (take (Z.to_nat n) b) (cx_rsi c) Hh) as [_ Hm].
  { intros j Hj. split; [lia|]. apply (canonical_between _ n); [lia|lia|done|done]. }
  constructor; try done. intros x. cbn [k_set_machine k_machine with_memory mc_mem]. cbv zeta in Hm.
  destruct (Hm x) as [|(j & f & Hj & Ht)]; [by left|right]. exists j, f. split; [lia|split; [done|]].
  specialize (Hacc j ltac:(lia)). unfold accessible in Hacc. by rewrite Ht in Hacc.
Qed.

Lemma poll_identity p key p' : app_input_poll p = (key, p') -> same_identity p p'.
Proof. unfold app_input_poll. case_if; intros [= _ <-]; done. Qed.

Lemma poll_state p key p' : app_input_poll p = (key, p') -> pr_state p' = pr_state p.
Proof. unfold app_input_poll. case_if; intros [= _ <-]; done. Qed.

Lemma get_count k f i : get_process (count k f) i = get_process k i.
Proof. done. Qed.

(** What every handler promises to the scheduler. *)
Lemma syscall_confined_gen k i c a c' k' :
  tables_hidden (k_machine k) (get_process k i) -> context_wf c ->
  0 <= i < Z.of_nat (length (k_processes k)) -> current_slot k = Some i ->
  syscall_dispatch k (Some c) = (a, c', k') -> confined k i (buffer k (get_process k i) c) k'.
Proof.
  intros Hh Hc Hi Hcur. unfold syscall_dispatch. rewrite Hcur.
  set (k0 := count k count_syscalls). set (p := get_process k i) in *.
  assert (forall o : outcome, (let '(x, y, z) := o in (x, Some y, z)) = (a, c', k') ->
            exists y, o = (a, y, k')) as Hout.
  { intros [[x y] z] [= -> _ ->]. by exists y. }
  intros Ho. apply Hout in Ho as [y Ho]. apply (confined_started _ _ _ count_syscalls). fold k0. revert Ho.
  assert (0 <= i < Z.of_nat (length (k_processes k0))) as Hi0 by done.
  assert (get_process k0 i = p) as Hp by done.
  destruct (Z.eqb_spec (cx_rax c) ARGUS_SYSCALL_IPC_RECEIVE) as [->|Hne].
  { exact (receive_confined k0 i c a y k' Hh Hc). }
  unfold syscall_write, syscall_yield, syscall_exit, syscall_clock_ticks, syscall_input_poll, syscall_app_present,
    syscall_event_wait, syscall_capability_query, syscall_ipc_send, syscall_anonymous_connect, touching, return_value.
  outcome_cases; repeat first [apply confined_refl|apply confined_count|apply confined_serial|apply confined_ipc
    |apply confined_put; [done|]]; try done. by eapply poll_identity.
Qed.

(** C2: a system call is confined to its caller.  Whatever the registers hold,
    the handler leaves every other process, the scheduler's position, the
    transport policy and the page allocator alone; the caller keeps its pid,
    address space, application, role, capabilities and endpoint; and memory
    changes only at addresses that the caller's own page tables map writable
    inside the buffer it passed. *)
Theorem syscall_confined k i c a c' k' :
  tables_hidden (k_machine k) (get_process k i) -> context_wf c ->
  0 <= i < Z.of_nat (length (k_processes k)) -> current_slot k = Some i ->
  syscall_dispatch k (Some c) = (a, c', k') ->
  (forall j, 0 <= j -> j <> i -> get_process k' j = get_process k j)
  /\ same_identity (get_process k i) (get_process k' i)
  /\ mc_pa (k_machine k') = mc_pa (k_machine k) /\ k_transport k' = k_transport k
  /\ k_cursor k' = k_cursor k /\ k_configured k' = k_configured k
  /\ forall x, mem_get (mc_mem (k_machine k')) x = mem_get (mc_mem (k_machine k)) x
       \/ exists j f, 0 <= j < cx_rdx c
            /\ user_translate (mc_mem (k_machine k)) (get_process k i) (cx_rsi c + j) = Some (x, f)
            /\ has f X86_PAGE_WRITABLE = true.
Proof.
  intros Hh Hc Hi Hcur Ho. destruct (syscall_confined_gen _ _ _ _ _ _ Hh Hc Hi Hcur Ho).
  split_and!; try done; naive_solver.
Qed.
End confinement.

(** ** Pointers the checks accept and the processor does not *)

Section pointers.
Context {S : Type} `{PageAllocator S}.
Implicit Types k : kernel S.

(** The walk reads bits 12 to 47 of an address only. *)
Lemma translate_high m p va n :
  user_translate m p (va + n * 2 ^ 48) = user_translate m p va.
Proof.
  unfold user_translate, paging_user_translate, pml4_index, pdpt_index, pd_index, pt_index.
  assert (forall s, 12 <= s <= 39 -> ((va + n * 2 ^ 48) >> s) & 0x1FF = (va >> s) & 0x1FF) as Hi.
  { intros s Hs. rewrite !index_eq by lia. replace (n * 2 ^ 48) with (n * 2 ^ (39 - s) * 512 * 2 ^ s).
    - rewrite Z.div_add by lia. apply Z.mod_add. lia.
    - rewrite <- !Z.mul_assoc. f_equal. change 512 with (2 ^ 9). rewrite <- !Z.pow_add_r by lia. f_equal. lia. }
  rewrite !Hi by lia. rewrite !page_low. replace ((va + n * 2 ^ 48) mod 4096) with (va mod 4096); [done|].
  change (2 ^ 48) with (68719476736 * 4096). rewrite Z.mul_assoc. symmetry. apply Z.mod_add. lia.
Qed.

(** C40: a user program can stop the kernel.  [user_range_readable] looks at bits
    12 to 47 of an address only, so it accepts the non-canonical alias
    [va + 2^48] of any mapped address [va]; the handler then dereferences the
    alias in kernel mode, which the processor refuses with a general protection
    fault, and [interrupt_dispatch] panics. *)
Theorem syscall_noncanonical_panic k i c va :
  current_slot k = Some i -> 0 <= va < 2 ^ 47 ->
  user_translate (mc_mem (k_machine k)) (get_process k i) va <> None ->
  cx_rax c = ARGUS_SYSCALL_WRITE -> cx_rdi c = va + 2 ^ 48 -> cx_rsi c = 1 ->
  user_range_readable (mc_mem (k_machine k)) (get_process k i) (cx_rdi c) (cx_rsi c) = true
  /\ fst (fst (syscall_dispatch k (Some c))) = KERNEL_PANIC.
Proof.
  intros Hcur Hva Ht Hax Hdi Hsi. rewrite Hdi, Hsi.
  assert (user_range_readable (mc_mem (k_machine k)) (get_process k i) (va + 2 ^ 48) 1 = true) as Hr.
  { unfold user_range_readable. apply user_range_true; [unfold UINT64_MAX; lia|unfold UINT64_MAX; lia|].
    split_and!; [lia|unfold UINT64_MAX; lia|]. intros j Hj. replace (va + 2 ^ 48 + j) with (va + 1 * 2 ^ 48) by lia.
    unfold accessible. rewrite translate_high. by destruct (user_translate _ _ va) as [[? ?]|]. }
  split; [done|]. unfold syscall_dispatch. rewrite Hcur, Hax. rewrite Z.eqb_refl. unfold syscall_write.
  cbn [count k_set_counters k_machine k_set_serial]. rewrite Hdi, Hsi, Hr. unfold touching.
  assert (canonical (va + 2 ^ 48) = false) as ->; [|done].
  unfold canonical. change (2 ^ 47) with 140737488355328 in *. change (2 ^ 64) with 18446744073709551616.
  change (2 ^ 48) with 281474976710656. apply orb_false_iff. rewrite Z.ltb_ge, Z.leb_gt. lia.
Qed.

(** The call's pointer argument lies in the lower half with room for the longest
    transfer. *)
Definition pointers_canonical (c : arch_user_context_t) : Prop :=
  (cx_rax c = ARGUS_SYSCALL_WRITE \/ cx_rax c = ARGUS_SYSCALL_APP_PRESENT -> cx_rdi c + 128 <= 2 ^ 47)
  /\ (cx_rax c = ARGUS_SYSCALL_IPC_SEND \/ cx_rax c = ARGUS_SYSCALL_IPC_RECEIVE -> cx_rsi c + 128 <= 2 ^ 47).

Lemma touching_canonical c k a n o : a + 128 <= 2 ^ 47 -> n <= 128 -> touching c k a n o = o.
Proof.
  intros Ha Hn. unfold touching, canonical.
  destruct (Z.ltb_spec a (2 ^ 47)), (Z.ltb_spec (a + n - 1) (2 ^ 47)); (done || lia).
Qed.

(** Such a call never stops the kernel. *)
Lemma syscall_no_panic k c i :
  current_slot k = Some i -> context_wf c -> pointers_canonical c ->
  fst (fst (syscall_dispatch k (Some c))) <> KERNEL_PANIC.
Proof.
  intros Hcur (_ & Hsi & Hdx) [Hp1 Hp2]. unfold syscall_dispatch. rewrite Hcur.
  assert (forall o : user_action * arch_user_context_t * kernel S, fst (fst o) <> KERNEL_PANIC ->
            fst (fst (let '(a, x, k) := o in (a, Some x, k))) <> KERNEL_PANIC) as Hout by (by intros [[? ?] ?]).
  apply Hout. destruct (Z.eqb_spec (cx_rax c) ARGUS_SYSCALL_WRITE) as [E|_].
  { unfold syscall_write. case_if; [done|]. rewrite touching_canonical; [done|by apply Hp1; left|].
    b2p. unfold USER_WRITE_LIMIT in *. lia. }
  repeat match goal with |- fst (fst (if (?b =? ?x) then _ else _)) <> _ => destruct (Z.eqb_spec b x) as [E|_] end;
    try done.
  - unfold syscall_input_poll. case_if; [|done]. by destruct (app_input_poll _).
  - unfold syscall_app_present. case_if; [done|]. b2p. rewrite touching_canonical; [by case_if|by apply Hp1; right|lia].
  - unfold syscall_event_wait. case_if; [done|]. by case_if.
  - unfold syscall_ipc_send. destruct (process_capability _ _ _ _ _); [|done]. case_if; [done|].
    destruct (ipc_send _ _ _ _ _) as [[] ?]; [|done]. b2p. unfold ARGUS_IPC_MESSAGE_MAX in *.
    rewrite touching_canonical; [done|by apply Hp2; left|lia].
  - unfold syscall_ipc_receive. destruct (process_capability _ _ _ _ _); [|done]. case_if; [done|].
    case_if; [done|]. destruct (ipc_receive _ _ _ _ _ _ _) as [[[[b n] sd]|] s'] eqn:Hr; [|done].
    apply receive_bounds in Hr. b2p. unfold ARGUS_IPC_MESSAGE_MAX in *.
    rewrite u32_id in Hr by (unfold UINT32_MAX; lia). rewrite touching_canonical; [done|by apply Hp2; right|lia].
Qed.
End pointers.

(** ** Witnesses: a probe running on the sample machine *)

#[local] Opaque sample_m1 sample_p1.

Definition sample_state (i : Z) : kernel pmm_state :=
  mk_kernel (set_state sample_p1 ARGUS_PROCESS_RUNNING :: replicate 7 process0) (Some sample_kernel) (Some i) 1 0 0 2
    counters0 (mk_flags true true true true true) sample_m1 sample_ipc 0 7 [].
Definition sample_call (rax rdi rsi rdx : Z) : arch_user_context_t :=
  mk_context 0 0 0 0 0 0 0 0 rdi rsi 0 rdx 0 0 rax 0 0 0.

Lemma sample_hidden : tables_hidden sample_m1 (get_process (sample_state 0) 0).
Proof.
  destruct (loads_owned _ _ _ _ sample_machine_ok sample_kernel_ok sample_loads) as [g Ho].
  apply (owned_hidden sample_machine sample_kernel _ _ g); [exact (owned_state _ _ _ _ _ _ Ho)|].
  intros j Hj _. unfold has, entry, sample_machine. cbn [mc_mem]. rewrite load_empty. done.
Qed.

Lemma syscall_confined_witness :
  let '(_, _, k') := syscall_dispatch (sample_state 0) (Some (sample_call ARGUS_SYSCALL_YIELD 0 0 0)) in
  same_identity (get_process (sample_state 0) 0) (get_process k' 0).
Proof.
  destruct (syscall_dispatch _ _) as [[a c'] k'] eqn:E.
  destruct (syscall_confined (sample_state 0) 0 (sample_call ARGUS_SYSCALL_YIELD 0 0 0) a c' k') as (_ & H & _).
  - exact sample_hidden.
  - unfold context_wf. simpl. unfold UINT64_MAX. lia.
  - simpl. lia.
  - reflexivity.
  - exact E.
  - exact H.
Defined.

Lemma syscall_noncanonical_panic_witness :
  fst (fst (syscall_dispatch (sample_state 0)
    (Some (sample_call ARGUS_SYSCALL_WRITE (ARGUS_USER_BASE + USER_CODE_OFFSET + 2 ^ 48) 1 0)))) = KERNEL_PANIC.
Proof.
  apply (syscall_noncanonical_panic (sample_state 0) 0 _ (ARGUS_USER_BASE + USER_CODE_OFFSET)).
  - reflexivity.
  - split; [discriminate|reflexivity].
  - vm_compute. discriminate.
  - reflexivity.
  - reflexivity.
  - reflexivity.
Defined.
