(* ===== verification/Scheduler.v ===== *)
(** * The scheduler and the application interface (src/process.c)

    Initialisation, dispatch, the round-robin choice, waking, starting and
    stopping applications, input and status.  A run of user code is the list of
    the events in which it meets the kernel: stores to its own memory, system
    calls and interrupts.  [None] is a dispatch from which control does not come
    back: user code that has not met the kernel again, or a kernel panic; for the
    operations that load a process it is also a store past the array of image
    pages (see [record_page]). *)

From stdpp Require Import base list gmap numbers.
From Stdlib Require Import ZArith Lia.
From S2P Require Import Prelude Memory Capability Anonymity Ipc BootInfo Allocator Pmm Elf Paging Process Loading Syscall.

Open Scope Z_scope.

Definition ARGUS_APIC_SPURIOUS_VECTOR : Z := 0xFF.

(** What user code does between two dispatches.  An interrupt carries CR2 and
    the value of the tick counter after its handler ran. *)
Inductive user_event :=
  | USER_STORE (va v : Z)
  | USER_SYSCALL (c : arch_user_context_t)
  | USER_INTERRUPT (f : interrupt_frame_t) (cr2 ticks : Z).

(** The program images linked into the kernel. *)
Record user_images := mk_images {
  im_probe : list Z;
  im_fault_probe : list Z;
  im_spin_probe : list Z;
  im_snake : list Z;
  im_calculator : list Z;
  im_notes : list Z }.

(** [app_catalog] *)
Definition app_catalog (im : user_images) : list (Z * list Z) :=
  [(ARGUS_APP_ID_SNAKE, im_snake im); (ARGUS_APP_ID_CALCULATOR, im_calculator im); (ARGUS_APP_ID_NOTES, im_notes im)].

Definition find_catalog (im : user_images) (app_id : Z) : option (list Z) :=
  match zfind (fun i => fst (zget (0, []) (app_catalog im) i) =? app_id) 0 (Z.to_nat APP_PROCESS_COUNT) with
  | Some i => Some (snd (zget (0, []) (app_catalog im) i))
  | None => None
  end.

Definition app_slot (im : user_images) (app_id : Z) : Z :=
  match zfind (fun i => fst (zget (0, []) (app_catalog im) i) =? app_id) 0 (Z.to_nat APP_PROCESS_COUNT) with
  | Some i => APP_PROCESS_FIRST + i
  | None => ARGUS_PROCESS_MAX
  end.

Section scheduler.
Context {S : Type} `{PageAllocator S}.
Implicit Types k : kernel S.

(** The vectors with a registered handler, the images and the outcome of
    [arch_syscall_init]. *)
Variable handled : Z -> bool.
Variable im : user_images.
Variable syscall_init_ok : bool.

Definition k_set_ticks k (t : Z) : kernel S :=
  mk_kernel
    (k_processes k) (k_kernel_paging k) (k_current k) (k_configured k) (k_cursor k)
    (k_focused k) (k_next_pid k) (k_counters k) (k_flags k) (k_machine k) (k_ipc k)
    (k_transport k) t (k_serial k).

(** ** Dispatch *)

(** [interrupt_dispatch] of src/arch.c. *)
Definition interrupt_dispatch k (frame : option interrupt_frame_t) (cr2 ticks : Z) : user_action * kernel S :=
  match frame with
  | None => (ACTION_RETURN, k)
  | Some f =>
      if fr_vector f =? ARGUS_APIC_SPURIOUS_VECTOR then (ACTION_RETURN, k)
      else if (fr_vector f <? 256) && handled (fr_vector f) then
        let k := k_set_ticks k ticks in
        if (fr_cs f & 3) =? 3 then process_on_user_interrupt k frame cr2 else (ACTION_RETURN, k)
      else if (fr_vector f <? 32) && ((fr_cs f & 3) =? 3) then process_on_user_interrupt k frame cr2
      else (KERNEL_PANIC, k)
  end.

(** A store by user code: the processor lets it through when the page is
    writable for user code. *)
Definition user_writes k (va v : Z) : kernel S :=
  match k_current k with
  | Some i =>
      let p := get_process k i in
      let m := mc_mem (k_machine k) in
      if (0 <=? va) && (va <=? UINT64_MAX) && canonical va && accessible m p true va
      then k_set_machine k (with_memory (k_machine k) (user_store m p va v)) else k
  | None => k
  end.

(** [arch_resume_user]: run user code until the kernel takes control. *)
Fixpoint arch_resume_user k (events : list user_event) : option (user_action * kernel S * list user_event) :=
  match events with
  | [] => None
  | USER_STORE va v :: rest => arch_resume_user (user_writes k va v) rest
  | USER_SYSCALL c :: rest =>
      let '(action, _, k) := syscall_dispatch k (Some c) in
      match action with
      | KERNEL_PANIC => None
      | ACTION_RETURN => arch_resume_user k rest
      | _ => Some (action, k, rest)
      end
  | USER_INTERRUPT f cr2 ticks :: rest =>
      let '(action, k) := interrupt_dispatch k (Some f) cr2 ticks in
      match action with
      | KERNEL_PANIC => None
      | ACTION_RETURN => arch_resume_user k rest
      | _ => Some (action, k, rest)
      end
  end.

(** The pairs of action and state [dispatch_process] expects. *)
Definition action_matches (action : user_action) (state : argus_process_state_t) : bool :=
  match action with
  | ACTION_YIELD => is_state state ARGUS_PROCESS_READY
  | ACTION_EXIT => is_state state ARGUS_PROCESS_EXITED
  | ACTION_WAIT => is_state state ARGUS_PROCESS_BLOCKED
  | ACTION_PREEMPT => is_state state ARGUS_PROCESS_READY
  | ACTION_FAULT => is_state state ARGUS_PROCESS_FAULTED
  | _ => false
  end.

Definition dispatch_process k (index : Z) (events : list user_event) : option (bool * kernel S * list user_event) :=
  if (k_configured k <=? index) || negb (is_state (pr_state (get_process k index)) ARGUS_PROCESS_READY)
  then Some (false, k, events)
  else
    let k := k_set_current k (Some index) in
    let k := put_process k index (set_state (get_process k index) ARGUS_PROCESS_RUNNING) in
    let space := pm_address_space (pr_memory (get_process k index)) in
    let k := k_set_machine k (paging_user_activate (k_machine k) (Some space)) in
    match arch_resume_user k events with
    | None => None
    | Some (action, k, rest) =>
        let k := k_set_machine k (paging_kernel_activate (k_machine k) (k_kernel_paging k)) in
        let k := count (k_set_current k None) count_switches in
        Some (action_matches action (pr_state (get_process k index)), k, rest)
    end.

(** ** Waking and choosing *)

(** The process waits for a key and its deadline has not come. *)
Definition still_waiting (p : process_t) (now : Z) : bool :=
  (ring_tail (pr_input p) =? ring_head (pr_input p)) &&
  ((pr_wait_deadline p =? UINT64_MAX) || (now <? pr_wait_deadline p)).

Definition wake_process k (now index : Z) : kernel S :=
  let p := get_process k index in
  if negb (is_state (pr_state p) ARGUS_PROCESS_BLOCKED) then k
  else if still_waiting p now then k
  else count (put_process k index (set_state p ARGUS_PROCESS_READY)) count_wakeups.

Definition wake_blocked_processes k : kernel S :=
  let now := k_ticks k in
  for_range APP_PROCESS_FIRST (k_configured k) (fun index k => wake_process k now index) k.

(** The process can be given the processor. *)
Definition eligible (p : process_t) : bool :=
  is_state (pr_state p) ARGUS_PROCESS_READY && negb (nz (pr_app_id p) && negb (pr_active p)).

(** [None] is -1. *)
Definition next_ready_process k (start : Z) : option Z :=
  let n := k_configured k in
  match zfind (fun offset => eligible (get_process k (u32 (start + offset) mod n))) 0 (Z.to_nat n) with
  | Some offset => Some (u32 (start + offset) mod n)
  | None => None
  end.

Definition process_run_ready_once k (events : list user_event) : option (bool * kernel S * list user_event) :=
  if negb (f_scheduler_ready (k_flags k)) || negb (f_self_test_passed (k_flags k)) ||
     (match k_current k with Some _ => true | None => false end)
  then Some (false, k, events)
  else
    let k := wake_blocked_processes k in
    match next_ready_process k (k_cursor k) with
    | None => Some (false, k, events)
    | Some selected =>
        let k := k_set_cursor k (u32 (selected + 1) mod k_configured k) in
        dispatch_process k selected events
    end.

(** ** Applications *)

(** The slot of a started application. *)
Definition find_app k (app_id : Z) : option Z :=
  let slot := app_slot im app_id in
  if (ARGUS_PROCESS_MAX <=? slot) || is_state (pr_state (get_process k slot)) ARGUS_PROCESS_UNUSED
  then None else Some slot.

(** [release_process(&processes[slot])] *)
Definition release_slot k (slot : Z) : kernel S :=
  let '(p, mc, ipc) := release_process (k_machine k) (k_ipc k) (get_process k slot) in
  put_process (k_set_ipc (k_set_machine k mc) ipc) slot p.

(** [load_...(&processes[slot], next_pid++, ...)] with the loader as argument. *)
Definition load_slot k (slot : Z)
  (load : machine S -> ipc_state -> option paging_info_t -> process_t -> Z ->
          option (bool * process_t * machine S * ipc_state))
  : option (bool * kernel S) :=
  let pid := k_next_pid k in
  let k := k_set_next_pid k (u64 (pid + 1)) in
  match load (k_machine k) (k_ipc k) (k_kernel_paging k) (get_process k slot) pid with
  | None => None
  | Some (ok, p, mc, ipc) => Some (ok, put_process (k_set_ipc (k_set_machine k mc) ipc) slot p)
  end.

Definition load_probe_slot k (slot : Z) (image : list Z) : option (bool * kernel S) :=
  load_slot k slot (fun mc ipc kp p pid => load_flat_probe mc ipc kp p pid image).
Definition load_app_slot k (slot app_id : Z) (image : list Z) : option (bool * kernel S) :=
  load_slot k slot (fun mc ipc kp p pid => load_elf_app mc ipc kp p pid app_id image).

(** The loop of [start_app_internal]; [fuel] is the attempts left.  [true] is
    the early [return 1], [false] leaves the loop. *)
Fixpoint start_attempts (fuel : nat) k (slot : Z) (events : list user_event) : option (bool * kernel S * list user_event) :=
  match fuel with
  | O => Some (false, k, events)
  | Datatypes.S fuel =>
      let p := get_process k slot in
      if pr_present_valid p && is_state (pr_state p) ARGUS_PROCESS_BLOCKED then Some (true, k, events)
      else if negb (is_state (pr_state p) ARGUS_PROCESS_READY) then Some (false, k, events)
      else
        match dispatch_process k slot events with
        | None => None
        | Some (true, k, events) => start_attempts fuel k slot events
        | Some (false, k, events) => Some (false, k, events)
        end
  end.

Definition start_app_internal k (app_id : Z) (events : list user_event) : option (bool * kernel S * list user_event) :=
  let slot := app_slot im app_id in
  match find_catalog im app_id with
  | None => Some (false, k, events)
  | Some image =>
      if (ARGUS_PROCESS_MAX <=? slot) || negb (is_state (pr_state (get_process k slot)) ARGUS_PROCESS_UNUSED)
      then Some (false, k, events)
      else
        match load_app_slot k slot app_id image with
        | None => None
        | Some (false, k) => Some (false, k, events)
        | Some (true, k) =>
            let k := if k_configured k <=? slot then k_set_configured k (slot + 1) else k in
            if negb (app_mapping_isolated (mc_mem (k_machine k)) (get_process k slot))
            then Some (false, release_slot k slot, events)
            else
              match start_attempts (Z.to_nat APP_START_DISPATCH_LIMIT) k slot events with
              | None => None
              | Some (true, k, events) => Some (true, k, events)
              | Some (false, k, events) =>
                  let p := get_process k slot in
                  Some (pr_present_valid p && (is_state (pr_state p) ARGUS_PROCESS_READY ||
                                               is_state (pr_state p) ARGUS_PROCESS_BLOCKED), k, events)
              end
        end
  end.

Definition process_app_count : Z := APP_PROCESS_COUNT.

Definition process_app_online k (app_id : Z) : bool :=
  match find_app k app_id with
  | None => false
  | Some slot =>
      let p := get_process k slot in
      (is_state (pr_state p) ARGUS_PROCESS_READY || is_state (pr_state p) ARGUS_PROCESS_BLOCKED ||
       is_state (pr_state p) ARGUS_PROCESS_RUNNING) && pr_present_valid p
  end.

Definition process_app_set_active k (app_id : Z) : kernel S :=
  for_range APP_PROCESS_FIRST (k_configured k)
    (fun index k =>
       let p := get_process k index in
       put_process k index (set_active p ((pr_app_id p =? app_id) && process_app_online k app_id)))
    (k_set_focused k app_id).

(** The guard [!process_self_test_passed || current_process >= 0]. *)
Definition api_refused k : bool :=
  negb (f_self_test_passed (k_flags k)) || match k_current k with Some _ => true | None => false end.

Definition process_app_start k (app_id : Z) (events : list user_event) : option (bool * kernel S * list user_event) :=
  if api_refused k then Some (false, k, events)
  else
    match find_app k app_id with
    | Some slot =>
        if process_app_online k app_id then Some (true, k, events)
        else
          match start_app_internal (release_slot k slot) app_id events with
          | Some (true, k, events) =>
              Some (true, if k_focused k =? app_id then process_app_set_active k app_id else k, events)
          | r => r
          end
    | None =>
        match start_app_internal k app_id events with
        | Some (true, k, events) =>
            Some (true, if k_focused k =? app_id then process_app_set_active k app_id else k, events)
        | r => r
        end
    end.

Definition process_app_stop k (app_id : Z) : bool * kernel S :=
  if api_refused k then (false, k)
  else
    match find_catalog im app_id with
    | None => (false, k)
    | Some _ =>
        match find_app k app_id with
        | None => (true, k)
        | Some slot => (true, release_slot k slot)
        end
    end.

Definition process_app_restart k (app_id : Z) (events : list user_event) : option (bool * kernel S * list user_event) :=
  if api_refused k then Some (false, k, events)
  else
    let was_active := k_focused k =? app_id in
    let k := match find_app k app_id with Some slot => release_slot k slot | None => k end in
    match start_app_internal k app_id events with
    | Some (true, k, events) => Some (true, if was_active then process_app_set_active k app_id else k, events)
    | r => r
    end.

(** The status record; [None] is [return 0]. *)
Record argus_process_app_status_t := mk_status {
  st_state : argus_process_state_t;
  st_pid : Z;
  st_fault : fault_report }.

Definition process_app_status k (app_id : Z) (status : bool) : option argus_process_app_status_t :=
  if negb status then None
  else
    match find_catalog im app_id with
    | None => None
    | Some _ =>
        match find_app k app_id with
        | None => Some (mk_status ARGUS_PROCESS_UNUSED 0 (mk_fault 0 0 0 0))
        | Some slot =>
            let p := get_process k slot in
            Some (mk_status (pr_state p) (pr_pid p) (pr_fault p))
        end
    end.

Definition process_app_input k (app_id key : Z) : bool * kernel S :=
  match find_app k app_id with
  | None => (false, k)
  | Some slot =>
      let p := get_process k slot in
      if negb (pr_active p) || negb (pr_present_valid p) || negb (nz key) ||
         (negb (is_state (pr_state p) ARGUS_PROCESS_READY) && negb (is_state (pr_state p) ARGUS_PROCESS_BLOCKED))
      then (false, k)
      else
        let r := pr_input p in
        let next := u8 ((ring_head r + 1) & (APP_INPUT_CAPACITY - 1)) in
        if next =? ring_tail r then (false, k)
        else
          let r := mk_ring (zset (ring_keys r) (ring_head r) key) next (ring_tail r) (ring_delivered r) in
          let p := set_input p r in
          if is_state (pr_state p) ARGUS_PROCESS_BLOCKED
          then (true, count (put_process k slot (set_state p ARGUS_PROCESS_READY)) count_wakeups)
          else (true, put_process k slot p)
  end.

Definition process_app_input_count k (app_id : Z) : Z :=
  match find_app k app_id with Some slot => ring_delivered (pr_input (get_process k slot)) | None => 0 end.

(** The surface's address and sequence; [out] are the two result pointers. *)
Definition process_app_surface k (app_id : Z) (out : bool) : option (Z * Z) :=
  match find_app k app_id with
  | None => None
  | Some slot =>
      if negb (process_app_online k app_id) || negb out then None
      else
        let p := get_process k slot in
        Some (pm_surface_physical (pr_memory p), pr_present_sequence p)
  end.

(** ** Counts *)

Definition used_slot k (index : Z) : bool := negb (is_state (pr_state (get_process k index)) ARGUS_PROCESS_UNUSED).

Definition process_count k : Z := zcount (used_slot k) 0 (Z.to_nat (k_configured k)).

Definition capability_total k (type : Z) : Z :=
  for_range 0 (k_configured k)
    (fun index total =>
       if used_slot k index
       then u32 (total + capability_count_type (Some (pr_capabilities (get_process k index))) type) else total) 0.

Definition process_raw_network_capability_count k : Z := capability_total k ARGUS_CAPABILITY_RAW_NETWORK.
Definition process_anonymous_stream_capability_count k : Z := capability_total k ARGUS_CAPABILITY_ANONYMOUS_STREAM.

Definition process_security_boundaries_online k : bool :=
  f_security_ready (k_flags k) && f_self_test_passed (k_flags k) &&
  (PROCESS_PROBE_COUNT <=? n_denials (k_counters k)) &&
  negb (nz (process_raw_network_capability_count k)) && negb (nz (process_anonymous_stream_capability_count k)).

Definition process_scheduler_online k : bool :=
  f_scheduler_ready (k_flags k) && f_self_test_passed (k_flags k) && f_preemption (k_flags k).

(** ** Initialisation and the boot self test *)

Definition validate_address_space_isolation k : bool :=
  let m := mc_mem (k_machine k) in
  let first := get_process k 0 in
  let second := get_process k 1 in
  let o1 := pr_memory first in
  let o2 := pr_memory second in
  let nx := us_nx_enabled (pm_address_space o1) in
  (k_configured k =? PROCESS_PROBE_COUNT) &&
  (us_root_table (pm_address_space o1) !=? us_root_table (pm_address_space o2)) &&
  (pm_code_virtual o1 =? pm_code_virtual o2) && (pm_stack_virtual o1 =? pm_stack_virtual o2) &&
  match user_translate m first (pm_code_virtual o1), user_translate m second (pm_code_virtual o2),
        user_translate m first (pm_stack_virtual o1), user_translate m second (pm_stack_virtual o2) with
  | Some (first_code, code_flags), Some (second_code, _), Some (first_stack, stack_flags), Some (second_stack, _) =>
      negb (has code_flags X86_PAGE_WRITABLE) && (negb nx || negb (has code_flags X86_PAGE_NO_EXECUTE)) &&
      has stack_flags X86_PAGE_WRITABLE && (negb nx || has stack_flags X86_PAGE_NO_EXECUTE) &&
      (first_code !=? second_code) && (first_stack !=? second_stack) &&
      match user_translate m first (u64 (pm_stack_virtual o1 - ARGUS_PAGE_SIZE)) with Some _ => false | None => true end &&
      match user_translate m first (zget 0 (pm_image_physical o1) 0) with Some _ => false | None => true end
  | _, _, _, _ => false
  end.

(** The self tests [process_init] runs, in order, stopping at the first that
    fails; they leave the IPC endpoints and the transport policy initialised. *)
Definition security_self_tests k : bool * kernel S :=
  if negb capability_self_test then (false, k)
  else
    let '(ipc_ok, ipc) := ipc_self_test (k_ipc k) in
    let k := k_set_ipc k ipc in
    if negb ipc_ok then (false, k)
    else
      let '(policy_ok, transport) := anonymity_policy_self_test in
      let k := mk_kernel (k_processes k) (k_kernel_paging k) (k_current k) (k_configured k) (k_cursor k)
                 (k_focused k) (k_next_pid k) (k_counters k) (k_flags k) (k_machine k) (k_ipc k)
                 transport (k_ticks k) (k_serial k) in
      (policy_ok && process_capability_policy_self_test, k).

(** The loop that loads the probes; on failure the slots up to [index] are
    released. *)
Fixpoint load_probes (slots : list Z) k : option (bool * kernel S) :=
  match slots with
  | [] => Some (true, k)
  | index :: rest =>
      match load_probe_slot k index (im_probe im) with
      | None => None
      | Some (true, k) => load_probes rest (k_set_configured k (u32 (k_configured k + 1)))
      | Some (false, k) => Some (false, for_range 0 (index + 1) (fun release k => release_slot k release) k)
      end
  end.

Definition process_init k (kernel_space : option paging_info_t) : option (bool * kernel S) :=
  match kernel_space with
  | None => Some (false, k)
  | Some space =>
      if negb (nz (pi_root_table space)) then Some (false, k)
      else
        let k := mk_kernel (k_processes k) kernel_space None 0 0 0 1 counters0
                   (mk_flags false false false false false) (k_machine k) (k_ipc k) (k_transport k)
                   (k_ticks k) (k_serial k) in
        let '(ready, k) := security_self_tests k in
        let k := k_set_flags k (mk_flags false false false false ready) in
        if negb ready then Some (false, k)
        else
          let k := k_set_processes k (replicate (Z.to_nat ARGUS_PROCESS_MAX) process0) in
          if negb syscall_init_ok then Some (false, k)
          else
            match load_probes (zrange 0 (Z.to_nat PROCESS_PROBE_COUNT)) k with
            | None => None
            | Some (false, k) => Some (false, k)
            | Some (true, k) =>
                let isolated := validate_address_space_isolation k in
                Some (isolated, k_set_flags k (mk_flags isolated isolated false false true))
            end
  end.

(** The dispatch loop of the self test. *)
Fixpoint run_probes (fuel : nat) k (next : Z) (events : list user_event) : option (bool * kernel S * list user_event) :=
  match fuel with
  | O => Some (true, k, events)
  | Datatypes.S fuel =>
      match next_ready_process k next with
      | None => Some (true, k, events)
      | Some selected =>
          match dispatch_process k selected events with
          | Some (true, k, events) => run_probes fuel k (u32 (selected + 1) mod k_configured k) events
          | r => r
          end
      end
  end.

Definition probes_passed k : bool :=
  let c := k_counters k in
  (n_completed c =? PROCESS_PROBE_COUNT) && (k_configured k =? PROCESS_PROBE_COUNT) &&
  (n_syscalls c =? 12) && (n_yields c =? 2) && (n_writes c =? 4) && (n_switches c =? 4) &&
  zall (fun index =>
          let p := get_process k index in
          is_state (pr_state p) ARGUS_PROCESS_EXITED && (pr_exit_status p =? 0) && (pr_yields p =? 1))
    0 (Z.to_nat PROCESS_PROBE_COUNT) &&
  f_isolated (k_flags k) && (n_denials c =? 2) && f_security_ready (k_flags k).

(** Load a probe in the test slot, dispatch it once, and release it when the
    check holds. *)
Definition run_test_probe k (image : list Z) (before : kernel S -> kernel S) (check : kernel S -> bool)
  (events : list user_event) : option (bool * kernel S * list user_event) :=
  match load_probe_slot k PROCESS_TEST_SLOT image with
  | None => None
  | Some (false, k) => Some (false, k, events)
  | Some (true, k) =>
      let k := before (k_set_configured k (PROCESS_TEST_SLOT + 1)) in
      match dispatch_process k PROCESS_TEST_SLOT events with
      | Some (true, k, events) =>
          if check k then Some (true, k_set_configured (release_slot k PROCESS_TEST_SLOT) PROCESS_PROBE_COUNT, events)
          else Some (false, k, events)
      | r => r
      end
  end.

Fixpoint start_all_apps (apps : list Z) k (events : list user_event) : option (bool * kernel S * list user_event) :=
  match apps with
  | [] => Some (true, k, events)
  | app :: rest =>
      match start_app_internal k (fst (zget (0, []) (app_catalog im) app)) events with
      | Some (true, k, events) =>
          let index := APP_PROCESS_FIRST + app in
          let surface i := pm_surface_physical (pr_memory (get_process k i)) in
          if nz app && (surface index =? surface (index - 1)) then Some (false, k, events)
          else start_all_apps rest k events
      | r => r
      end
  end.

Definition enable_preemption k : kernel S :=
  let f := k_flags k in
  k_set_flags k (mk_flags (f_isolated f) (f_scheduler_ready f) (f_self_test_passed f) true (f_security_ready f)).

Definition process_run_self_test k (events : list user_event) : option (bool * kernel S * list user_event) :=
  if negb (f_scheduler_ready (k_flags k)) || (match k_current k with Some _ => true | None => false end)
  then Some (false, k, events)
  else
    match run_probes 16 k 0 events with
    | Some (true, k, events) =>
        if negb (probes_passed k) then Some (false, k, events)
        else
          let test k := get_process k PROCESS_TEST_SLOT in
          match run_test_probe k (im_fault_probe im) (fun k => k)
                  (fun k => (n_faults (k_counters k) =? 1) && is_state (pr_state (test k)) ARGUS_PROCESS_FAULTED &&
                            (fault_vector (pr_fault (test k)) =? 6)) events with
          | Some (true, k, events) =>
              match run_test_probe k (im_spin_probe im) enable_preemption
                      (fun k => (n_preemptions (k_counters k) =? 1) &&
                                is_state (pr_state (test k)) ARGUS_PROCESS_READY) events with
              | Some (true, k, events) =>
                  match start_all_apps (zrange 0 (Z.to_nat APP_PROCESS_COUNT)) k events with
                  | Some (true, k, events) =>
                      let f := k_flags k in
                      let k := k_set_flags k (mk_flags (f_isolated f) (f_scheduler_ready f) true
                                                (f_preemption f) (f_security_ready f)) in
                      Some (true, k_set_cursor k 0, events)
                  | r => r
                  end
              | r => r
              end
          | r => r
          end
    | r => r
    end.
End scheduler.
