(* ===== verification/Dispatch.v ===== *)
(** * Dispatch, preemption and fairness

    Theorems on Scheduler.v: what a dispatch leaves behind, when the kernel gets
    the processor back, and that the round-robin choice starves nobody. *)

From stdpp Require Import base list gmap numbers.
From Stdlib Require Import ZArith Lia.
From S2P Require Import Prelude Memory Capability Anonymity Ipc BootInfo Allocator Pmm Elf Paging Process Loading Syscall Scheduler.

Open Scope Z_scope.


Section dispatch.
Context {S : Type} `{PageAllocatorLaws S}.
Implicit Types k : kernel S.
Variable handled : Z -> bool.

(** From [k] to [k'] only process [i] moved, and it kept its identity. *)
Abbreviation kept k i k' := (confined k i (fun _ => True) k').

Lemma kept_trans k i k1 k2 : kept k i k1 -> kept k1 i k2 -> kept k i k2.
Proof.
  intros A B. constructor.
  - rewrite (cf_length _ _ _ _ B). apply A.
  - intros j Hj Hne. rewrite (cf_others _ _ _ _ B j Hj Hne). by apply A.
  - pose proof (cf_self _ _ _ _ A). pose proof (cf_self _ _ _ _ B). unfold same_identity in *. naive_solver congruence.
  - pose proof (cf_scheduler _ _ _ _ A). pose proof (cf_scheduler _ _ _ _ B). naive_solver congruence.
  - pose proof (cf_policy _ _ _ _ A). pose proof (cf_policy _ _ _ _ B). naive_solver congruence.
  - pose proof (cf_pages _ _ _ _ A). pose proof (cf_pages _ _ _ _ B). naive_solver congruence.
  - intros. by right.
Qed.

Lemma kept_weaken k i W k' : confined k i W k' -> kept k i k'.
Proof. intros []. constructor; try done. intros. by right. Qed.

(** Process [i] has the processor. *)
Definition running k (i : Z) : Prop :=
  k_current k = Some i /\ 0 <= i < k_configured k /\ k_configured k <= Z.of_nat (length (k_processes k))
  /\ pr_state (get_process k i) = ARGUS_PROCESS_RUNNING.

Lemma running_slot k i : running k i -> current_slot k = Some i.
Proof. intros (Hc & Hi & _). unfold current_slot. rewrite Hc. by destruct (Z.ltb_spec i (k_configured k)); [|lia]. Qed.

(** The state an action leaves its process in. *)
Definition settles (a : user_action) (before after : argus_process_state_t) : Prop :=
  match a with
  | KERNEL_PANIC => True
  | ACTION_RETURN => after = before
  | _ => action_matches a after = true
  end.

Lemma receive_kept k i c a c' k' :
  syscall_ipc_receive k (get_process k i) c = (a, c', k') ->
  kept k i k' /\ settles a (pr_state (get_process k i)) (pr_state (get_process k' i)).
Proof.
  unfold syscall_ipc_receive, touching, return_value. cbv zeta.
  destruct (process_capability _ _ _ _ _) as [e|]; [|intros [= <- _ <-]; split; [apply confined_refl|done]].
  case_if; [intros [= <- _ <-]; split; [apply confined_refl|done]|].
  case_if; [intros [= <- _ <-]; split; [apply confined_refl|done]|].
  destruct (ipc_receive _ _ _ _ _ _ _) as [[[[b n] sd]|] s']; [case_if|];
    intros [= <- _ <-]; (split; [|done]); try (by constructor; try done; intros; right).
Qed.

(** A system call moves its caller as its action says. *)
Lemma syscall_kept k i c a c' k' :
  0 <= i < Z.of_nat (length (k_processes k)) -> current_slot k = Some i ->
  syscall_dispatch k (Some c) = (a, c', k') ->
  kept k i k' /\ settles a (pr_state (get_process k i)) (pr_state (get_process k' i)).
Proof.
  intros Hi Hcur. unfold syscall_dispatch. rewrite Hcur.
  set (k0 := count k count_syscalls). set (p := get_process k i) in *.
  assert (forall o : user_action * arch_user_context_t * kernel S,
            (let '(x, y, z) := o in (x, Some y, z)) = (a, c', k') -> exists y, o = (a, y, k')) as Hout.
  { intros [[x y] z] [= -> _ ->]. by exists y. }
  intros Ho. apply Hout in Ho as [y Ho].
  enough (kept k0 i k' /\ settles a (pr_state p) (pr_state (get_process k' i))) as [Hk Hs]
    by (split; [by apply (confined_started _ _ _ count_syscalls)|done]).
  revert Ho. destruct (Z.eqb_spec (cx_rax c) ARGUS_SYSCALL_IPC_RECEIVE) as [->|Hne].
  { exact (receive_kept k0 i c a y k'). }
  assert (0 <= i < Z.of_nat (length (k_processes k0))) as Hi0 by done.
  assert (get_process k0 i = p) as Hp by done.
  unfold syscall_write, syscall_yield, syscall_exit, syscall_clock_ticks, syscall_input_poll, syscall_app_present,
    syscall_event_wait, syscall_capability_query, syscall_ipc_send, syscall_anonymous_connect, touching, return_value.
  outcome_cases; (split; [repeat first [apply confined_refl|apply confined_count|apply confined_serial|apply confined_ipc
    |apply confined_put; [done|]]; try done|try done; rewrite ?get_count, get_put by done; try done]).
  - by eapply poll_identity.
  - by eapply poll_state.
Qed.

(** So does an interrupt taken in user mode. *)
Lemma interrupt_kept k i f cr2 a k' :
  0 <= i < Z.of_nat (length (k_processes k)) -> current_slot k = Some i ->
  process_on_user_interrupt k f cr2 = (a, k') ->
  kept k i k' /\ settles a (pr_state (get_process k i)) (pr_state (get_process k' i)).
Proof.
  intros Hi Hcur. unfold process_on_user_interrupt. rewrite Hcur.
  destruct f as [f|]; [|intros [= <- <-]; split; [apply confined_refl|done]]. cbv zeta.
  case_if; [intros [= <- <-]; split; [apply confined_refl|done]|].
  case_if; [|case_if]; intros [= <- <-]; (split; [|by rewrite ?get_count, ?get_put by done]).
  - by apply confined_count, confined_put.
  - by apply confined_count, confined_put.
  - apply confined_refl.
Qed.

Lemma dispatch_interrupt_kept k i f cr2 t a k' :
  0 <= i < Z.of_nat (length (k_processes k)) -> current_slot k = Some i ->
  interrupt_dispatch handled k f cr2 t = (a, k') ->
  kept k i k' /\ settles a (pr_state (get_process k i)) (pr_state (get_process k' i)).
Proof.
  intros Hi Hcur. unfold interrupt_dispatch.
  assert (kept k i (k_set_ticks k t)) as Hk by (by constructor; try done; intros; left).
  destruct f as [f|]; [|intros [= <- <-]; split; [apply confined_refl|done]].
  case_if; [intros [= <- <-]; split; [apply confined_refl|done]|].
  case_if; [case_if|case_if].
  - intros Hp. apply (interrupt_kept (k_set_ticks k t) i) in Hp as [H1 H2]; [|done|done].
    split; [by eapply kept_trans|done].
  - intros [= <- <-]. done.
  - by apply interrupt_kept.
  - intros [= <- <-]. split; [apply confined_refl|done].
Qed.

Lemma kept_running k i k' :
  running k i -> kept k i k' -> pr_state (get_process k' i) = ARGUS_PROCESS_RUNNING -> running k' i.
Proof.
  intros (Hc & Hi & Hl & _) Hk Hs. pose proof (cf_scheduler _ _ _ _ Hk) as (H1 & _ & H2 & _).
  rewrite <- (cf_length _ _ _ _ Hk) in Hl. unfold running. by rewrite H1, H2.
Qed.

Lemma user_writes_kept k i va v : kept k i (user_writes k va v).
Proof.
  unfold user_writes. destruct (k_current k); [|apply confined_refl]. cbv zeta. case_if; [|apply confined_refl].
  constructor; try done. intros. by right.
Qed.

Lemma user_writes_process k va v j : get_process (user_writes k va v) j = get_process k j.
Proof. unfold user_writes. destruct (k_current k); [|done]. cbv zeta. by case_if. Qed.

(** When user code gives the processor back, the action and the state agree. *)
Lemma resume_settles events k i a k' rest :
  running k i -> arch_resume_user handled k events = Some (a, k', rest) ->
  kept k i k' /\ action_matches a (pr_state (get_process k' i)) = true.
Proof.
  revert k. induction events as [|e events IH]; intros k Hr; [done|].
  pose proof (running_slot _ _ Hr) as Hcur. pose proof Hr as (_ & Hi & Hl & Hst).
  assert (0 <= i < Z.of_nat (length (k_processes k))) as Hi' by lia.
  assert (forall (r : user_action) k1, kept k i k1 -> settles r (pr_state (get_process k i)) (pr_state (get_process k1 i)) ->
            match r with
            | KERNEL_PANIC => None
            | ACTION_RETURN => arch_resume_user handled k1 events
            | _ => Some (r, k1, events)
            end = Some (a, k', rest) ->
            kept k i k' /\ action_matches a (pr_state (get_process k' i)) = true) as Hstep.
  { intros r k1 Hk Hs Ho. destruct r; try done; try (injection Ho as <- <- <-; done).
    destruct (IH k1) as [H1 H2]; [|done|].
    - apply (kept_running k); [done|done|]. simpl in Hs. by rewrite Hs.
    - split; [by eapply kept_trans|done]. }
  destruct e as [va v|c|f cr2 t]; cbn [arch_resume_user].
  - intros Ho. pose proof (user_writes_kept k i va v) as Hk. destruct (IH (user_writes k va v)) as [H1 H2]; [|done|].
    + apply (kept_running k); [done|done|]. by rewrite user_writes_process.
    + split; [by eapply kept_trans|done].
  - destruct (syscall_dispatch k (Some c)) as [[r c'] k1] eqn:E.
    apply (syscall_kept k i) in E as [Hk Hs]; [|done|done]. by apply Hstep.
  - destruct (interrupt_dispatch handled k (Some f) cr2 t) as [r k1] eqn:E.
    apply (dispatch_interrupt_kept k i) in E as [Hk Hs]; [|done|done]. by apply Hstep.
Qed.

(** What a dispatch leaves: the facts the rest of the development uses. *)
Record dispatched k (i : Z) k' : Prop := {
  dp_length : length (k_processes k') = length (k_processes k);
  dp_others : forall j, 0 <= j -> j <> i -> get_process k' j = get_process k j;
  dp_self : same_identity (get_process k i) (get_process k' i);
  dp_current : k_current k' = None;
  dp_scheduler : k_configured k' = k_configured k /\ k_cursor k' = k_cursor k /\ k_focused k' = k_focused k
                 /\ k_next_pid k' = k_next_pid k;
  dp_policy : k_transport k' = k_transport k /\ k_flags k' = k_flags k /\ k_kernel_paging k' = k_kernel_paging k;
  dp_pages : mc_pa (k_machine k') = mc_pa (k_machine k) }.

Lemma activate_pa (mc : machine S) u : mc_pa (paging_user_activate mc u) = mc_pa mc.
Proof. unfold paging_user_activate. destruct u; [|done]. by case_if. Qed.

Lemma kernel_activate_pa (mc : machine S) kp : mc_pa (paging_kernel_activate mc kp) = mc_pa mc.
Proof. unfold paging_kernel_activate. destruct kp; [|done]. by case_if. Qed.

(** The kernel while process [i] runs. *)
Definition enter k (i : Z) : kernel S :=
  let k := k_set_current k (Some i) in
  let k := put_process k i (set_state (get_process k i) ARGUS_PROCESS_RUNNING) in
  k_set_machine k (paging_user_activate (k_machine k) (Some (pm_address_space (pr_memory (get_process k i))))).

Definition leave k : kernel S :=
  count (k_set_current (k_set_machine k (paging_kernel_activate (k_machine k) (k_kernel_paging k))) None) count_switches.

Lemma dispatch_unfold k i events :
  0 <= i < k_configured k -> pr_state (get_process k i) = ARGUS_PROCESS_READY ->
  dispatch_process handled k i events =
  match arch_resume_user handled (enter k i) events with
  | None => None
  | Some (a, k1, rest) => Some (action_matches a (pr_state (get_process k1 i)), leave k1, rest)
  end.
Proof.
  intros Hi Hs. unfold dispatch_process. rewrite Hs. destruct (Z.leb_spec (k_configured k) i); [lia|]. done.
Qed.

Lemma enter_running k i :
  0 <= i < k_configured k -> k_configured k <= Z.of_nat (length (k_processes k)) -> running (enter k i) i.
Proof.
  intros Hi Hl. unfold running, enter. cbv zeta. split_and!; try done; try (simpl; lia).
  - simpl. rewrite zset_length. lia.
  - match goal with |- pr_state (get_process (k_set_machine ?a _) i) = _ =>
      change (pr_state (get_process a i) = ARGUS_PROCESS_RUNNING) end. rewrite get_put by (simpl; lia). done.
Qed.

Lemma dispatch_spec k i events b k' rest :
  0 <= i < k_configured k -> k_configured k <= Z.of_nat (length (k_processes k)) ->
  pr_state (get_process k i) = ARGUS_PROCESS_READY ->
  dispatch_process handled k i events = Some (b, k', rest) ->
  b = true /\ dispatched k i k' /\ exists a, action_matches a (pr_state (get_process k' i)) = true.
Proof.
  intros Hi Hl Hs. rewrite dispatch_unfold by done.
  destruct (arch_resume_user handled (enter k i) events) as [[[a k1] r]|] eqn:E; [|done]. intros [= <- <- <-].
  apply (resume_settles _ _ i) in E as [Hk Ha]; [|by apply enter_running].
  split; [done|]. split; [|by exists a].
  assert (forall j, 0 <= j -> j <> i -> get_process (enter k i) j = get_process k j) as Ho.
  { intros j Hj Hne. exact (get_put_ne (k_set_current k (Some i)) i j _ (proj1 Hi) Hj Hne). }
  assert (same_identity (get_process k i) (get_process (enter k i) i)) as Hid.
  { unfold enter. cbv zeta. set (k2 := put_process _ _ _).
    change (same_identity (get_process k i) (get_process k2 i)). unfold k2. rewrite get_put by (simpl; lia). done. }
  pose proof (cf_scheduler _ _ _ _ Hk) as (C1 & C2 & _ & C4 & C5). pose proof (cf_policy _ _ _ _ Hk) as (P1 & P2 & P3).
  constructor.
  - etransitivity; [exact (cf_length _ _ _ _ Hk)|]. apply zset_length.
  - intros j Hj Hne. etransitivity; [exact (cf_others _ _ _ _ Hk j Hj Hne)|]. by apply Ho.
  - pose proof (cf_self _ _ _ _ Hk) as Hself. unfold same_identity, leave in *. rewrite !get_count.
    change (get_process (k_set_current (k_set_machine k1 _) None) i) with (get_process k1 i). naive_solver congruence.
  - done.
  - done.
  - done.
  - unfold leave. cbn [count k_set_counters k_set_current k_machine k_set_machine]. rewrite kernel_activate_pa.
    rewrite (proj1 (cf_pages _ _ _ _ Hk)). unfold enter. cbn [k_set_machine k_machine]. apply activate_pa.
Qed.

(** The states a process can have when it is not on the processor and its slot
    is in use. *)
Definition at_rest (s : argus_process_state_t) : Prop :=
  s ∈ [ARGUS_PROCESS_READY; ARGUS_PROCESS_BLOCKED; ARGUS_PROCESS_EXITED; ARGUS_PROCESS_FAULTED].

(** C12: a dispatch always settles.  When [dispatch_process] is given a ready
    process and user code gives the processor back, whatever the user code did:
    it returns 1, no process is current, the process is ready, blocked, exited
    or faulted and never left running, it keeps its pid, memory, role and
    capabilities, and every other process is as it was. *)
Theorem dispatch_settles k i events b k' rest :
  0 <= i < k_configured k -> k_configured k <= Z.of_nat (length (k_processes k)) ->
  pr_state (get_process k i) = ARGUS_PROCESS_READY ->
  dispatch_process handled k i events = Some (b, k', rest) ->
  b = true /\ k_current k' = None
  /\ at_rest (pr_state (get_process k' i))
  /\ same_identity (get_process k i) (get_process k' i)
  /\ forall j, 0 <= j -> j <> i -> get_process k' j = get_process k j.
Proof.
  intros Hi Hl Hs Hd. destruct (dispatch_spec _ _ _ _ _ _ Hi Hl Hs Hd) as (Hb & [] & a & Ha).
  split_and!; try done. apply list_elem_of_In. unfold action_matches, is_state in Ha.
  destruct a; try done; apply bool_decide_eq_true in Ha; rewrite Ha; simpl; auto.
Qed.

(** What can happen while user code runs: any store, any system call with
    64-bit registers, and the interrupts the processor delivers, which are taken
    in user mode on a processor exception, on the spurious vector or on a vector
    the kernel has a handler for. *)
Definition deliverable (e : user_event) : Prop :=
  match e with
  | USER_STORE _ _ => True
  | USER_SYSCALL c => context_wf c
  | USER_INTERRUPT f _ _ =>
      fr_cs f & 3 = 3 /\ (fr_vector f = ARGUS_APIC_SPURIOUS_VECTOR \/ handled (fr_vector f) = true \/ fr_vector f < 32)
      /\ fr_vector f < 256
  end.

(** A system call whose pointer argument is not in the lower half, or within the
    last 128 bytes of it. *)
Definition stray_call (e : user_event) : Prop :=
  match e with USER_SYSCALL c => ~ pointers_canonical c | _ => False end.

#[local] Instance pointers_canonical_dec c : Decision (pointers_canonical c).
Proof. unfold pointers_canonical. apply _. Defined.
#[local] Instance stray_call_dec e : Decision (stray_call e).
Proof. destruct e; apply _. Defined.

Lemma interrupt_no_panic k f cr2 t :
  deliverable (USER_INTERRUPT f cr2 t) -> fst (interrupt_dispatch handled k (Some f) cr2 t) <> KERNEL_PANIC.
Proof.
  intros (Hcs & Hv & Hb). unfold interrupt_dispatch.
  assert (forall k, fst (process_on_user_interrupt k (Some f) cr2) <> KERNEL_PANIC) as Hp.
  { intros k0. unfold process_on_user_interrupt. destruct (current_slot k0); [|done]. cbv zeta.
    case_if; [done|]. case_if; [done|]. by case_if. }
  destruct (Z.eqb_spec (fr_vector f) ARGUS_APIC_SPURIOUS_VECTOR); [done|]. rewrite Hcs. cbn [Z.eqb Pos.eqb].
  destruct (Z.ltb_spec (fr_vector f) 256); [|lia]. cbn [andb]. destruct (handled (fr_vector f)); [apply Hp|].
  destruct (Z.ltb_spec (fr_vector f) 32); [apply Hp|]. destruct Hv as [?|[?|?]]; (done || lia).
Qed.

(** The timer interrupt, taken in user mode. *)
Definition timer_frame (f : interrupt_frame_t) : Prop :=
  fr_vector f = ARGUS_APIC_TIMER_VECTOR /\ fr_cs f & 3 = 3.

Lemma timer_preempts k i f cr2 t :
  running k i -> f_preemption (k_flags k) = true -> handled ARGUS_APIC_TIMER_VECTOR = true -> timer_frame f ->
  fst (interrupt_dispatch handled k (Some f) cr2 t) = ACTION_PREEMPT.
Proof.
  intros Hr Hp Hh [Hv Hcs]. unfold interrupt_dispatch. rewrite Hv, Hh, Hcs. cbn -[process_on_user_interrupt].
  unfold process_on_user_interrupt. assert (current_slot (k_set_ticks k t) = Some i) as -> by (by apply running_slot).
  rewrite Hcs, Hv. change (get_process (k_set_ticks k t) i) with (get_process k i).
  destruct Hr as (_ & _ & _ & ->). cbn -[get_process]. by rewrite Hp.
Qed.

Lemma resume_returns pre k i f cr2 t post :
  running k i -> f_preemption (k_flags k) = true -> handled ARGUS_APIC_TIMER_VECTOR = true -> timer_frame f ->
  Forall (fun e => deliverable e /\ ~ stray_call e) pre ->
  is_Some (arch_resume_user handled k (pre ++ USER_INTERRUPT f cr2 t :: post)).
Proof.
  intros Hr Hp Hh Hf Hpre. revert k Hr Hp. induction Hpre as [|e pre [He Hns] Hpre IH]; intros k Hr Hp.
  - cbn [app arch_resume_user]. pose proof (timer_preempts k i f cr2 t Hr Hp Hh Hf) as Ha.
    destruct (interrupt_dispatch _ _ _ _ _) as [a k1]. simpl in Ha. subst a. by eexists.
  - pose proof (running_slot _ _ Hr) as Hcur. pose proof Hr as (_ & Hi & Hl & Hst).
    assert (0 <= i < Z.of_nat (length (k_processes k))) as Hi' by lia.
    assert (forall a k1, kept k i k1 -> settles a (pr_state (get_process k i)) (pr_state (get_process k1 i)) ->
              a <> KERNEL_PANIC ->
              is_Some match a with
                | KERNEL_PANIC => None
                | ACTION_RETURN => arch_resume_user handled k1 (pre ++ USER_INTERRUPT f cr2 t :: post)
                | _ => Some (a, k1, pre ++ USER_INTERRUPT f cr2 t :: post)
                end) as Hstep.
    { intros a k1 Hk Hs Hne. destruct a; try done; try (by eexists). apply IH.
      - apply (kept_running k); [done|done|]. simpl in Hs. by rewrite Hs.
      - by rewrite (proj1 (proj2 (cf_policy _ _ _ _ Hk))). }
    destruct e as [va v|c|f' cr2' t']; cbn [app arch_resume_user].
    + pose proof (user_writes_kept k i va v) as Hk. apply IH.
      * apply (kept_running k); [done|done|]. by rewrite user_writes_process.
      * by rewrite (proj1 (proj2 (cf_policy _ _ _ _ Hk))).
    + pose proof (syscall_no_panic k c i Hcur He (dec_stable Hns)) as Hn.
      destruct (syscall_dispatch k (Some c)) as [[a c'] k1] eqn:E.
      apply (syscall_kept k i) in E as [Hk Hs]; [|done|done]. by apply Hstep.
    + pose proof (interrupt_no_panic k f' cr2' t' He) as Hn.
      destruct (interrupt_dispatch _ _ _ _ _) as [a k1] eqn:E.
      apply (dispatch_interrupt_kept k i) in E as [Hk Hs]; [|done|done]. by apply Hstep.
Qed.

(** C13: the kernel always gets the processor back, but for one thing user code
    can do.  With preemption enabled and the timer handled, a dispatched process
    that is interrupted by the timer after any finite run of stores, system calls
    and other interrupts gives the processor back, [dispatch_process] returning 1,
    unless the run contains a system call whose pointer argument lies outside the
    lower half or in its last 128 bytes (such a call can stop the kernel, see
    [syscall_noncanonical_panic]). *)
Theorem preemption_regains_control k i pre f cr2 t post :
  0 <= i < k_configured k -> k_configured k <= Z.of_nat (length (k_processes k)) ->
  pr_state (get_process k i) = ARGUS_PROCESS_READY ->
  f_preemption (k_flags k) = true -> handled ARGUS_APIC_TIMER_VECTOR = true ->
  timer_frame f -> Forall deliverable pre ->
  (exists k' rest, dispatch_process handled k i (pre ++ USER_INTERRUPT f cr2 t :: post) = Some (true, k', rest))
  \/ Exists stray_call pre.
Proof.
  intros Hi Hl Hs Hp Hh Hf Hpre. destruct (decide (Exists stray_call pre)) as [He|He]; [by right|left].
  assert (Forall (fun e => deliverable e /\ ~ stray_call e) pre) as Hpre'.
  { apply Forall_and; [done|]. by apply Forall_Exists_neg. }
  assert (is_Some (dispatch_process handled k i (pre ++ USER_INTERRUPT f cr2 t :: post))) as [[[b k'] rest] Hd].
  { rewrite dispatch_unfold by done.
    destruct (resume_returns pre (enter k i) i f cr2 t post (enter_running k i Hi Hl) Hp Hh Hf Hpre') as [[[a k1] r] ->].
    by eexists. }
  rewrite Hd. destruct (dispatch_spec _ _ _ _ _ _ Hi Hl Hs Hd) as (-> & _). by exists k', rest.
Qed.

(** ** Fairness *)

(** The choice is the first eligible process at or after the cursor, cyclically. *)
Lemma next_ready_spec k start i :
  0 <= start < k_configured k -> k_configured k <= 8 -> next_ready_process k start = Some i ->
  exists off, 0 <= off < k_configured k /\ i = (start + off) mod k_configured k /\ eligible (get_process k i) = true
    /\ forall o, 0 <= o < off -> eligible (get_process k ((start + o) mod k_configured k)) = false.
Proof.
  intros Hs Hn. unfold next_ready_process. cbv zeta.
  destruct (zfind _ 0 _) as [off|] eqn:E; [|done]. intros [= <-]. apply zfind_Some in E as (Hr & He & Hb).
  assert (forall o, 0 <= o < k_configured k -> u32 (start + o) = start + o) as Hu
    by (intros o Ho; apply u32_id; unfold UINT32_MAX; lia).
  exists off. rewrite Hu in * by lia. split_and!; [lia|lia|done|done|].
  intros o Ho. rewrite <- (Hb o ltac:(lia)), Hu; [done|lia].
Qed.

(** An eligible process is chosen, or it is closer to the new cursor. *)
Lemma next_ready_closer k start i j :
  0 <= start < k_configured k -> k_configured k <= 8 -> 0 <= j < k_configured k ->
  eligible (get_process k j) = true -> next_ready_process k start = Some i ->
  i = j \/ (j - (i + 1) mod k_configured k) mod k_configured k < (j - start) mod k_configured k.
Proof.
  intros Hs Hn Hj He Hi. destruct (next_ready_spec k start i Hs Hn Hi) as (off & Ho & -> & _ & Hb).
  set (n := k_configured k) in *. set (d := (j - start) mod n).
  assert (0 <= d < n) as Hd by (apply Z.mod_pos_bound; lia).
  assert ((start + d) mod n = j) as Hjd.
  { unfold d. rewrite Zplus_mod_idemp_r. replace (start + (j - start)) with j by lia. by apply Z.mod_small. }
  destruct (Z.lt_trichotomy off d) as [Hlt|[->|Hgt]].
  - right. rewrite Zminus_mod_idemp_r, <- Hjd, Zminus_mod_idemp_l, Zminus_mod.
    rewrite Zplus_mod_idemp_l, <- Zminus_mod. replace (start + d - (start + off + 1)) with (d - off - 1) by lia.
    rewrite Z.mod_small; lia.
  - by left.
  - exfalso. rewrite <- Hjd, (Hb d) in He by lia. done.
Qed.

(** What waking does to each process. *)
Definition woken (now : Z) (p : process_t) : process_t :=
  if is_state (pr_state p) ARGUS_PROCESS_BLOCKED && negb (still_waiting p now)
  then set_state p ARGUS_PROCESS_READY else p.

Lemma wake_process_get k now i j :
  0 <= i < Z.of_nat (length (k_processes k)) -> 0 <= j ->
  get_process (wake_process k now i) j = if j =? i then woken now (get_process k i) else get_process k j.
Proof.
  intros Hi Hj. unfold wake_process, woken. cbv zeta.
  destruct (is_state _ _), (still_waiting _ _); cbn [negb andb];
    (destruct (Z.eqb_spec j i) as [->|Hne]; [try done|done || (rewrite get_count; apply get_put_ne; lia)]).
  rewrite get_count. by apply get_put.
Qed.

Lemma wake_spec k :
  0 <= k_configured k <= Z.of_nat (length (k_processes k)) ->
  let k' := wake_blocked_processes k in
  length (k_processes k') = length (k_processes k) /\ k_configured k' = k_configured k /\ k_cursor k' = k_cursor k
  /\ k_current k' = k_current k /\ k_flags k' = k_flags k
  /\ forall j, 0 <= j -> get_process k' j = if (APP_PROCESS_FIRST <=? j) && (j <? k_configured k)
                                         then woken (k_ticks k) (get_process k j) else get_process k j.
Proof.
  intros Hn. unfold wake_blocked_processes. cbv zeta. destruct (Z.le_gt_cases APP_PROCESS_FIRST (k_configured k)).
  - apply (for_range_inv (fun i k' => length (k_processes k') = length (k_processes k)
      /\ k_configured k' = k_configured k /\ k_cursor k' = k_cursor k
      /\ k_current k' = k_current k /\ k_flags k' = k_flags k
      /\ forall j, 0 <= j -> get_process k' j = if (APP_PROCESS_FIRST <=? j) && (j <? i)
                                         then woken (k_ticks k) (get_process k j) else get_process k j)); [done| |].
    + split_and!; try done. intros j Hj. destruct (_ && _) eqn:E; [b2p; lia|done].
    + intros i k' Hi (H1 & H2 & H3 & H4 & H5 & H6).
      assert (0 <= i < Z.of_nat (length (k_processes k'))) as Hi'
        by (rewrite H1; unfold APP_PROCESS_FIRST, PROCESS_PROBE_COUNT in *; lia).
      split_and!; [| | | | |].
      6: { intros j Hj. rewrite wake_process_get, !H6 by lia.
           destruct (Z.eqb_spec j i) as [->|Hne].
           - destruct (Z.leb_spec APP_PROCESS_FIRST i), (Z.ltb_spec i i), (Z.ltb_spec i (i + 1)); try lia. done.
           - destruct (Z.leb_spec APP_PROCESS_FIRST j), (Z.ltb_spec j i), (Z.ltb_spec j (i + 1)); try lia; done. }
      all: unfold wake_process; cbv zeta; repeat case_if; try done. rewrite <- H1. apply zset_length.
  - rewrite for_range_empty by lia. split_and!; try done. intros j Hj.
    destruct (_ && _) eqn:E; [b2p; lia|done].
Qed.

(** What ends a wait: a key in the ring, or a deadline that has come. *)
Definition wait_over (now : Z) (p : process_t) : Prop :=
  ring_tail (pr_input p) <> ring_head (pr_input p)
  \/ (pr_wait_deadline p <> UINT64_MAX /\ pr_wait_deadline p <= now).

(** No wake-up is lost or invented.  After [wake_blocked_processes] an
    application that was blocked is ready exactly when a key is waiting for it
    or its deadline has come, and it differs in nothing else; every other
    process is as it was. *)
Theorem wake_exact k j :
  0 <= k_configured k <= Z.of_nat (length (k_processes k)) -> APP_PROCESS_FIRST <= j < k_configured k ->
  let p := get_process k j in
  let p' := get_process (wake_blocked_processes k) j in
  (pr_state p = ARGUS_PROCESS_BLOCKED ->
     (pr_state p' = ARGUS_PROCESS_READY <-> wait_over (k_ticks k) p)
     /\ (pr_state p' = ARGUS_PROCESS_READY \/ p' = p) /\ p' = set_state p (pr_state p'))
  /\ (pr_state p <> ARGUS_PROCESS_BLOCKED -> p' = p).
Proof.
  intros Hn Hj p p'. destruct (wake_spec k Hn) as (_ & _ & _ & _ & _ & Hw).
  assert (p' = woken (k_ticks k) p) as ->.
  { unfold p'. rewrite Hw by (unfold APP_PROCESS_FIRST, PROCESS_PROBE_COUNT in *; lia).
    rewrite in_range_true by done. done. }
  unfold woken, wait_over, is_state. split; intros Hs.
  - rewrite Hs. cbn [bool_decide]. rewrite bool_decide_eq_true_2 by done. cbn [andb]. unfold still_waiting.
    destruct (Z.eqb_spec (ring_tail (pr_input p)) (ring_head (pr_input p))) as [Ht|Ht]; cbn [andb negb].
    2: { split_and!; [|by left|by destruct p]. split; [by left|done]. }
    destruct (Z.eqb_spec (pr_wait_deadline p) UINT64_MAX) as [Hu|Hu]; cbn [orb negb].
    { split_and!; [|by right|by destruct p]. rewrite Hs. split; [done|]. intros [?|[? _]]; done. }
    destruct (Z.ltb_spec (k_ticks k) (pr_wait_deadline p)); cbn [negb].
    + split_and!; [|by right|by destruct p]. rewrite Hs. split; [done|]. intros [?|[_ ?]]; [done|lia].
    + split_and!; [|by left|by destruct p]. split; [by right|done].
  - rewrite bool_decide_eq_false_2 by done. done.
Qed.

(** The scheduler's variables are in range. *)
Definition sched_ok k : Prop :=
  0 <= k_cursor k < k_configured k /\ k_configured k <= 8 /\ length (k_processes k) = 8%nat.

(** A run of the scheduler: each round runs one process; [P] holds at the start
    of every round; the list is who ran. *)
Inductive rounds (P : kernel S -> Prop) : kernel S -> list Z -> kernel S -> Prop :=
  | rounds_nil k : rounds P k [] k
  | rounds_cons k events i k1 rest l k2 :
      P k -> next_ready_process (wake_blocked_processes k) (k_cursor k) = Some i ->
      process_run_ready_once handled k events = Some (true, k1, rest) ->
      rounds P k1 l k2 -> rounds P k (i :: l) k2.

(** One round moves the cursor past the process it ran. *)
Lemma run_once_spec k events i k1 rest :
  sched_ok k -> next_ready_process (wake_blocked_processes k) (k_cursor k) = Some i ->
  process_run_ready_once handled k events = Some (true, k1, rest) ->
  sched_ok k1 /\ k_configured k1 = k_configured k /\ k_cursor k1 = (i + 1) mod k_configured k.
Proof.
  intros (Hc & Hn & Hl) Hi. unfold process_run_ready_once. case_if; [done|].
  destruct (wake_spec k ltac:(lia)) as (W1 & W2 & W3 & _). cbv zeta. set (k0 := wake_blocked_processes k) in *.
  rewrite W3, Hi. set (k2 := k_set_cursor k0 _). intros Hd.
  destruct (next_ready_spec k0 (k_cursor k) i ltac:(lia) ltac:(lia) Hi) as (off & _ & Heq & He & _).
  assert (0 <= i < k_configured k0) as Hir by (rewrite Heq; apply Z.mod_pos_bound; lia).
  unfold eligible, is_state in He. apply andb_true_iff in He as [He%bool_decide_eq_true _].
  destruct (dispatch_spec k2 i events true k1 rest) as (_ & D & _); [done|simpl; lia|done|done|].
  pose proof (dp_scheduler _ _ _ D) as (D1 & D2 & _). pose proof (dp_length _ _ _ D) as D3.
  assert (k_cursor k2 = (i + 1) mod k_configured k) as Hcur.
  { change (k_cursor k2) with (u32 (i + 1) mod k_configured k0). rewrite u32_id by (unfold UINT32_MAX; lia). by rewrite W2. }
  assert (k_configured k1 = k_configured k) as Hcf by (rewrite D1; exact W2).
  split; [|split; [done|by rewrite D2]].
  split; [rewrite D2, Hcur, Hcf; apply Z.mod_pos_bound; lia|split; [lia|]].
  rewrite D3. change (length (k_processes k2)) with (length (k_processes k0)). by rewrite W1.
Qed.

Lemma waiting_decreases P k l k' j :
  rounds P k l k' -> sched_ok k -> 0 <= j < k_configured k ->
  (forall k, P k -> eligible (get_process (wake_blocked_processes k) j) = true) ->
  (j - k_cursor k) mod k_configured k < Z.of_nat (length l) -> j ∈ l.
Proof.
  intros Hr Hok Hj HP. revert Hok Hj. induction Hr as [k|k events i k1 rest l k2 Hp Hi Ho Hr IH]; intros Hok Hj Hd.
  { simpl in Hd. pose proof (Z.mod_pos_bound (j - k_cursor k) (k_configured k)). destruct Hok. lia. }
  destruct (run_once_spec _ _ _ _ _ Hok Hi Ho) as (Hok1 & Hc1 & Hcur). destruct Hok as (Hc & Hn & Hl).
  destruct (wake_spec k ltac:(lia)) as (_ & W2 & _).
  pose proof (next_ready_closer (wake_blocked_processes k) (k_cursor k) i j) as Hcl. rewrite W2 in Hcl.
  destruct (Hcl Hc Hn Hj (HP k Hp) Hi) as [->|Hlt]; [by left|]. right.
  apply IH; [done|lia|]. rewrite Hc1, Hcur. cbn [length] in Hd. lia.
Qed.

(** C11: bounded waiting.  A process that stays eligible is run within as many
    rounds of [process_run_ready_once] as there are configured processes, however
    the user code behaves. *)
Theorem bounded_waiting k l k' j :
  sched_ok k -> 0 <= j < k_configured k ->
  rounds (fun k => eligible (get_process (wake_blocked_processes k) j) = true) k l k' ->
  k_configured k <= Z.of_nat (length l) -> j ∈ l.
Proof.
  intros Hok Hj Hr Hl. apply (waiting_decreases _ k l k' j Hr Hok Hj); [done|].
  pose proof (Z.mod_pos_bound (j - k_cursor k) (k_configured k)). lia.
Qed.
End dispatch.

(** ** Witnesses: two probes that yield in turn *)

#[local] Opaque sample_m2 sample_p1 sample_p2.

Definition sample_kernel2 (cursor : Z) : kernel pmm_state :=
  mk_kernel (sample_p1 :: sample_p2 :: replicate 6 process0) (Some sample_kernel) None 2 cursor 0 3
    counters0 (mk_flags true true true true true) sample_m2 sample_ipc 0 7 [].
Definition sample_handled (v : Z) : bool := v =? ARGUS_APIC_TIMER_VECTOR.
Definition sample_yield : user_event := USER_SYSCALL (sample_call ARGUS_SYSCALL_YIELD 0 0 0).
Definition sample_timer : interrupt_frame_t :=
  mk_frame 0 0 0 0 0 0 0 0 0 0 0 0 0 0 0 ARGUS_APIC_TIMER_VECTOR 0 0x8000001000 0x23 0x202 0x8000200FF8 0x1B.

Lemma dispatch_settles_witness :
  exists k' rest, dispatch_process sample_handled (sample_kernel2 0) 0 [sample_yield] = Some (true, k', rest)
    /\ k_current k' = None.
Proof.
  destruct (dispatch_process sample_handled (sample_kernel2 0) 0 [sample_yield]) as [[[b k'] rest]|] eqn:E.
  2: { exfalso. assert (match dispatch_process sample_handled (sample_kernel2 0) 0 [sample_yield] with
                        | Some _ => true | None => false end = true) as H by (vm_compute; reflexivity).
       rewrite E in H. discriminate H. }
  destruct (dispatch_settles sample_handled (sample_kernel2 0) 0 [sample_yield] b k' rest) as (Hb & Hc & _).
  - split; [discriminate|reflexivity].
  - discriminate.
  - vm_compute. reflexivity.
  - exact E.
  - subst b. exists k', rest. split; [reflexivity|exact Hc].
Defined.

(** A store and a system call (the clock), then the timer. *)
Definition sample_pre : list user_event := [USER_STORE 0x8000200000 65; USER_SYSCALL (sample_call ARGUS_SYSCALL_CLOCK_TICKS 0 0 0)].

Lemma preemption_regains_control_witness :
  exists k' rest, dispatch_process sample_handled (sample_kernel2 0) 1
    (sample_pre ++ USER_INTERRUPT sample_timer 0 8 :: []) = Some (true, k', rest).
Proof.
  destruct (preemption_regains_control sample_handled (sample_kernel2 0) 1 sample_pre sample_timer 0 8 []) as [H|H].
  - split; [discriminate|reflexivity].
  - discriminate.
  - vm_compute. reflexivity.
  - reflexivity.
  - reflexivity.
  - split; reflexivity.
  - constructor; [exact I|constructor; [|constructor]]. split_and!; discriminate.
  - exact H.
  - exfalso. apply Forall_Exists_neg in H; [exact H|]. constructor; [intros []|constructor; [|constructor]].
    intros Hn. apply Hn. split; intros [?|?]; discriminate.
Defined.

(** The state after one round of the scheduler. *)
Definition after_round (k : kernel pmm_state) : kernel pmm_state :=
  match process_run_ready_once sample_handled k [sample_yield] with Some (_, k', _) => k' | None => k end.

Lemma after_round_eq k :
  match process_run_ready_once sample_handled k [sample_yield] with Some (true, _, []) => true | _ => false end = true ->
  process_run_ready_once sample_handled k [sample_yield] = Some (true, after_round k, []).
Proof.
  unfold after_round. destruct (process_run_ready_once _ _ _) as [[[[] k'] [|]]|]; done.
Qed.

Lemma bounded_waiting_witness : 1 ∈ [0; 1].
Proof.
  set (k := sample_kernel2 0).
  apply (bounded_waiting sample_handled k [0; 1] (after_round (after_round k)) 1).
  - split; [split; [discriminate|reflexivity]|split; [discriminate|reflexivity]].
  - split; [discriminate|reflexivity].
  - apply (rounds_cons _ _ k [sample_yield] 0 (after_round k) []); [vm_compute; reflexivity|vm_compute; reflexivity| |].
    { apply after_round_eq. vm_compute. reflexivity. }
    apply (rounds_cons _ _ (after_round k) [sample_yield] 1 (after_round (after_round k)) []);
      [vm_compute; reflexivity|vm_compute; reflexivity| |apply rounds_nil].
    apply after_round_eq. vm_compute. reflexivity.
  - discriminate.
Defined.

(** An application blocked on its input with a key in its ring. *)
Definition sample_blocked : process_t :=
  set_input (set_state (with_role process0 1) ARGUS_PROCESS_BLOCKED) (mk_ring (replicate 32 65) 1 0 0).
Definition sample_kernel3 : kernel pmm_state :=
  mk_kernel (sample_p1 :: sample_p2 :: sample_blocked :: replicate 5 process0) (Some sample_kernel) None 3 0 1 4
    counters0 (mk_flags true true true true true) sample_m2 sample_ipc 0 7 [].

Lemma wake_exact_witness : pr_state (get_process (wake_blocked_processes sample_kernel3) 2) = ARGUS_PROCESS_READY.
Proof.
  destruct (wake_exact sample_kernel3 2) as [H _].
  - split; discriminate.
  - split; [discriminate|reflexivity].
  - destruct H as [H _]; [reflexivity|]. apply H. left. discriminate.
Defined.
