(* ===== verification/Security.v ===== *)
(** * The network boundary over the kernel's whole life

    No process ever holds a network capability.  The proof follows the
    capability tables through every operation of process.c: loading, releasing,
    system calls, dispatch, the application interface, the boot self test. *)

From stdpp Require Import base list gmap numbers.
From Stdlib Require Import ZArith Lia.
From S2P Require Import Prelude Memory Capability Anonymity Ipc BootInfo Allocator Pmm Elf Paging Process Loading Syscall Scheduler Dispatch.

Open Scope Z_scope.

(** ** Tables without network capabilities *)

Definition local_entry (e : argus_capability_entry_t) : Prop :=
  entry_type e <> ARGUS_CAPABILITY_ANONYMOUS_STREAM /\ entry_type e <> ARGUS_CAPABILITY_RAW_NETWORK.
Definition offline (p : process_t) : Prop := Forall local_entry (entries (pr_capabilities p)).

Lemma offline_table p p' : pr_capabilities p' = pr_capabilities p -> offline p -> offline p'.
Proof. unfold offline. by intros ->. Qed.

Lemma offline_process0 : offline process0.
Proof. unfold offline. apply Forall_replicate. by split. Qed.
#[export] Hint Resolve offline_process0 : argus.

Lemma init_offline t0 pid : Forall local_entry (entries (default table0 (capability_table_init (Some t0) pid))).
Proof.
  cbn [capability_table_init default id].
  apply (for_range_inv (fun _ t => Forall local_entry (entries t))); [unfold ARGUS_CAPABILITY_MAX; lia| |].
  - apply Forall_replicate. by split.
  - intros i t _ Ht. apply zset_Forall; [done|]. by split.
Qed.

Lemma grant_offline p type rights object h p' :
  grant_process_capability p type rights object = (h, p') ->
  1 <= type <= 4 -> offline p -> offline p'.
Proof.
  unfold grant_process_capability, offline. intros Hg Ht Hp. revert Hg.
  case_if; [by intros [= _ <-]|]. unfold capability_grant. cbv zeta.
  case_if; [by intros [= _ <-]|]. destruct (zfind _ _ _) as [slot|]; [|by intros [= _ <-]].
  intros [= _ <-]. cbn [set_capabilities pr_capabilities default id set_entry entries].
  apply zset_Forall; [done|]. rewrite u16_id by lia.
  unfold local_entry, ARGUS_CAPABILITY_ANONYMOUS_STREAM, ARGUS_CAPABILITY_RAW_NETWORK. simpl. lia.
Qed.

Lemma grant_all_offline grants p :
  Forall (fun g => 1 <= fst (fst g) <= 4) grants -> offline p -> offline (snd (grant_all p grants)).
Proof.
  intros HF. revert p. induction HF as [|[[t r] o] grants Ht HF IH]; intros p Hp; [done|]. simpl.
  destruct (grant_process_capability p t r o) as [h p'] eqn:E.
  pose proof (grant_offline _ _ _ _ _ _ E Ht Hp). case_if; [by apply IH|done].
Qed.

(** ** Loading *)

Section security.
Context {S : Type} `{PageAllocatorLaws S}.
Implicit Types (k : kernel S) (mc : machine S).

(** The loader's result, when the slot held an offline process. *)
Definition offline_result (r : bool * process_t * machine S * ipc_state) : Prop := offline (snd (fst (fst r))).

Lemma fail_offline mc ipc p : offline_result (fail_process mc ipc p).
Proof.
  unfold fail_process, release_process. destruct (paging_user_space_destroy _ _). apply offline_process0.
Qed.

Lemma map_surface_caps pages mc p :
  pr_capabilities (snd (fst (map_surface pages mc p))) = pr_capabilities p.
Proof.
  revert mc p. induction pages as [|i pages IH]; intros mc p; [done|]. cbn [map_surface]. cbv zeta.
  destruct (paging_user_map_page _ _ _ _ _ _) as [[[] u] mc']; [|done]. by rewrite IH.
Qed.

Lemma prepare_app_offline mc ipc p : offline p -> offline_result (prepare_app mc ipc p).
Proof.
  intros Hp. unfold prepare_app. cbv zeta. destruct (pa_alloc _ _) as [a pa']. case_if; [apply fail_offline|].
  set (p2 := set_memory _ _). pose proof (map_surface_caps (zrange 0 (Z.to_nat ((ARGUS_APP_SURFACE_BYTES + ARGUS_PAGE_SIZE - 1) / ARGUS_PAGE_SIZE))) (with_pa mc pa') p2) as Hc.
  destruct (map_surface _ _ p2) as [[[] p3] mc3]; cbn [negb]; [|apply fail_offline]. cbn [fst snd] in Hc.
  destruct (ipc_endpoint_create _ _) as [e ipc']. case_if; [apply fail_offline|].
  set (p4 := set_ipc_endpoint p3 e).
  assert (offline p4) as Hp4 by (unfold offline in *; change (pr_capabilities p4) with (pr_capabilities p3); by rewrite Hc).
  pose proof (grant_all_offline (app_grants p4) p4) as Hg.
  destruct (grant_all p4 (app_grants p4)) as [[] p5]; [|apply fail_offline].
  apply Hg; [|done]. unfold app_grants. repeat constructor; done.
Qed.

Lemma prepare_offline mc ipc kp p pid app_id :
  offline p -> offline_result (prepare_process mc ipc kp p pid app_id).
Proof.
  intros Hp. unfold prepare_process. destruct kp as [kp|]; [|done]. case_if; [done|]. cbv zeta.
  set (p0 := mk_process _ _ _ _ _ _ _ _ _ _ _ _ _ _ _ _).
  assert (offline p0) as Hp0 by apply init_offline. clearbody p0.
  destruct (paging_user_space_create _ _ _) as [[[] u] mc1]; cbn [negb]; [|done].
  destruct (pa_alloc _ _) as [a pa']. case_if; [apply fail_offline|].
  destruct (paging_user_map_page _ _ _ _ _ _) as [[[] u2] mc3]; cbn [negb]; [|apply fail_offline].
  case_if; [by apply prepare_app_offline|done].
Qed.

(** The results of the page loops and of the loaders, when there is one. *)
Definition same_caps (p : process_t) (r : option (bool * process_t * machine S)) : Prop :=
  match r with Some (_, p', _) => pr_capabilities p' = pr_capabilities p | None => True end.
Definition offline_load (r : option (bool * process_t * machine S * ipc_state)) : Prop :=
  match r with Some r => offline_result r | None => True end.

Lemma load_page_caps mc p src off n va w x : same_caps p (load_page mc p src off n va w x).
Proof.
  unfold load_page. destruct (pa_alloc _ _) as [a pa']. case_if; [done|]. cbv zeta. unfold record_page. cbv zeta.
  case_if; [|done]. destruct (paging_user_map_page _ _ _ _ _ _) as [[ok u] mc']. done.
Qed.

(** A page, or a segment, then the rest. *)
Lemma same_caps_bind p r (f : process_t -> machine S -> option (bool * process_t * machine S)) :
  same_caps p r -> (forall p' mc', same_caps p' (f p' mc')) ->
  same_caps p match r with Some (true, p', mc') => f p' mc' | Some (false, p', mc') => Some (false, p', mc') | None => None end.
Proof.
  intros Hr Hf. destruct r as [[[[] p1] mc1]|]; [|done|done]. specialize (Hf p1 mc1). cbn [same_caps] in Hr.
  destruct (f p1 mc1) as [[[ok p2] mc2]|]; cbn [same_caps] in *; congruence.
Qed.

Lemma load_flat_pages_caps pages mc p image copied : same_caps p (load_flat_pages pages mc p image copied).
Proof.
  revert mc p copied. induction pages as [|i pages IH]; intros mc p copied; [done|]. cbn [load_flat_pages]. cbv zeta.
  apply same_caps_bind; [apply load_page_caps|intros; apply IH].
Qed.

Lemma load_segment_pages_caps pages mc p image seg copied : same_caps p (load_segment_pages pages mc p image seg copied).
Proof.
  revert mc p copied. induction pages as [|i pages IH]; intros mc p copied; [done|]. cbn [load_segment_pages]. cbv zeta.
  apply same_caps_bind; [apply load_page_caps|intros; apply IH].
Qed.

Lemma load_segments_caps segments mc p image : same_caps p (load_segments segments mc p image).
Proof.
  revert mc p. induction segments as [|s segments IH]; intros mc p; [done|]. cbn [load_segments].
  apply same_caps_bind; [apply load_segment_pages_caps|intros; apply IH].
Qed.

Lemma load_flat_probe_offline mc ipc kp p pid image :
  offline p -> offline_load (load_flat_probe mc ipc kp p pid image).
Proof.
  intros Hp. unfold load_flat_probe. cbv zeta. case_if; [done|]. case_if; [done|].
  pose proof (prepare_offline mc ipc kp p pid 0 Hp) as Hq.
  destruct (prepare_process _ _ _ _ _ _) as [[[[] p1] mc1] ipc1]; cbn [negb]; [|done].
  match goal with |- context [load_flat_pages ?a ?b ?c ?d ?e] =>
    pose proof (load_flat_pages_caps a b c d e) as Hc; destruct (load_flat_pages a b c d e) as [[[[] p3] mc3]|] end;
    cbn [negb]; [|apply fail_offline|done].
  by eapply offline_table, Hq.
Qed.

Lemma load_elf_app_offline mc ipc kp p pid app_id bytes :
  offline p -> offline_load (load_elf_app mc ipc kp p pid app_id bytes).
Proof.
  intros Hp. unfold load_elf_app. cbv zeta. case_if; [done|].
  destruct (elf_validate_user_image _ _ _ _ _) as [[] [image|]]; try done.
  pose proof (prepare_offline mc ipc kp p pid app_id Hp) as Hq.
  destruct (prepare_process _ _ _ _ _ _) as [[[[] p1] mc1] ipc1]; cbn [negb]; [|done].
  match goal with |- context [load_segments ?a ?b ?c ?d] =>
    pose proof (load_segments_caps a b c d) as Hc; destruct (load_segments a b c d) as [[[[] p3] mc3]|] end;
    cbn [negb]; [|apply fail_offline|done].
  by eapply offline_table, Hq.
Qed.

(** The probes stay inside the array of image pages: [process_init] always
    returns. *)

Definition image_count (p : process_t) : Z := pm_image_page_count (pr_memory p).

Lemma map_surface_count pages mc p : image_count (snd (fst (map_surface pages mc p))) = image_count p.
Proof.
  revert mc p. induction pages as [|i pages IH]; intros mc p; [done|]. cbn [map_surface]. cbv zeta.
  destruct (paging_user_map_page _ _ _ _ _ _) as [[[] u] mc']; [|done]. by rewrite IH.
Qed.

Lemma prepare_count mc ipc kp p pid :
  let '(ok, p', _, _) := prepare_process mc ipc kp p pid 0 in ok = true -> image_count p' = 0.
Proof.
  unfold prepare_process. destruct kp as [kp|]; [|done]. case_if; [done|]. cbv zeta.
  destruct (paging_user_space_create _ _ _) as [[[] u] mc1]; cbn [negb]; [|done].
  unfold fail_process, release_process. destruct (pa_alloc _ _) as [a pa'].
  case_if; [by destruct (paging_user_space_destroy _ _)|].
  destruct (paging_user_map_page _ _ _ _ _ _) as [[[] u2] mc3]; cbn [negb nz Z.eqb]; [done|].
  by destruct (paging_user_space_destroy _ _).
Qed.

Lemma load_flat_pages_defined pages mc p image copied :
  0 <= image_count p -> image_count p + Z.of_nat (length pages) <= 16 -> load_flat_pages pages mc p image copied <> None.
Proof.
  revert mc p copied. induction pages as [|i pages IH]; intros mc p copied H0 Hc; [done|].
  cbn [load_flat_pages length] in *. cbv zeta. unfold load_page.
  destruct (pa_alloc _ _) as [a pa']. case_if; [done|]. unfold record_page, ARGUS_ELF_MAX_IMAGE_PAGES.
  fold (image_count p). destruct (Z.ltb_spec (image_count p) 16); [|lia]. cbv zeta.
  destruct (paging_user_map_page _ _ _ _ _ _) as [[[] u] mc']; [|done].
  apply IH; unfold image_count; cbn [set_memory put_address_space put_image_page_count pr_memory pm_image_page_count];
    fold (image_count p); rewrite u32_id by (unfold UINT32_MAX; lia); lia.
Qed.

Lemma load_flat_probe_defined mc ipc kp p pid image : load_flat_probe mc ipc kp p pid image <> None.
Proof.
  unfold load_flat_probe. cbv zeta. case_if; [done|]. case_if; [done|]. b2p. unfold ARGUS_ELF_MAX_IMAGE_PAGES in *.
  pose proof (prepare_count mc ipc kp p pid) as Hc.
  destruct (prepare_process _ _ _ _ _ _) as [[[[] p1] mc1] ipc1]; cbn [negb]; [|done]. specialize (Hc eq_refl).
  match goal with |- context [load_flat_pages ?a ?b ?c ?d ?e] =>
    pose proof (load_flat_pages_defined a b c d e) as Hd; destruct (load_flat_pages a b c d e) as [[[[] p3] mc3]|] end;
    [done|done|].
  intros _. apply Hd; [| |done]; unfold image_count in *; cbn [set_memory put_code_virtual pr_memory pm_image_page_count];
    rewrite Hc; [done|]. rewrite zrange_length.
  pose proof (u32_range ((Z.of_nat (length image) + ARGUS_PAGE_SIZE - 1) / ARGUS_PAGE_SIZE)). lia.
Qed.

(** ** The kernel *)

Variable handled : Z -> bool.
Variable im : user_images.
Variable syscall_init_ok : bool.

Record kernel_inv k : Prop := {
  ki_length : length (k_processes k) = 8%nat;
  ki_configured : 0 <= k_configured k <= 8;
  ki_offline : forall j, 0 <= j -> offline (get_process k j) }.

(** The result of an operation that may not return. *)
Definition keeps_inv (r : option (bool * kernel S * list user_event)) : Prop :=
  match r with Some (_, k, _) => kernel_inv k | None => True end.

Lemma inv_same k k' :
  k_processes k' = k_processes k -> k_configured k' = k_configured k -> kernel_inv k -> kernel_inv k'.
Proof.
  intros Hp Hc [H1 H2 H3]. constructor; rewrite ?Hp, ?Hc; try done.
  intros j Hj. unfold get_process. rewrite Hp. by apply H3.
Qed.

Lemma inv_put k i p : 0 <= i -> kernel_inv k -> offline p -> kernel_inv (put_process k i p).
Proof.
  intros Hi [H1 H2 H3] Hp. constructor; [by rewrite <- H1; apply zset_length|done|].
  intros j Hj. destruct (Z.eq_dec j i) as [->|Hne]; [|rewrite get_put_ne by lia; by apply H3].
  destruct (Z.lt_ge_cases i 8); [rewrite get_put by (rewrite H1; lia); done|].
  unfold get_process. cbn [put_process k_set_processes k_processes]. unfold zset.
  rewrite list_insert_ge by (rewrite H1; lia). apply H3. lia.
Qed.

Lemma inv_dispatch k i events : 0 <= i -> kernel_inv k -> keeps_inv (dispatch_process handled k i events).
Proof.
  intros Hi0 Hk. destruct (dispatch_process handled k i events) as [[[b k'] rest]|] eqn:E; [|done]. cbn [keeps_inv].
  destruct (Z.lt_ge_cases i (k_configured k)) as [Hi|Hi];
    [destruct (decide (pr_state (get_process k i) = ARGUS_PROCESS_READY)) as [Hs|Hs]|].
  - destruct Hk as [H1 H2 H3]. assert (k_configured k <= Z.of_nat (length (k_processes k))) as Hl by (rewrite H1; lia).
    destruct (dispatch_spec handled k i events b k' rest (conj Hi0 Hi) Hl Hs E) as (_ & D & _).
    constructor; [by rewrite (dp_length _ _ _ D)|by rewrite (proj1 (dp_scheduler _ _ _ D))|].
    intros j Hj. destruct (Z.eq_dec j i) as [->|Hne]; [|rewrite (dp_others _ _ _ D) by done; by apply H3].
    eapply offline_table; [|by apply (H3 i)]. apply (dp_self _ _ _ D).
  - revert E. unfold dispatch_process, is_state. rewrite bool_decide_eq_false_2 by done. rewrite orb_true_r.
    by intros [= _ <- _].
  - revert E. unfold dispatch_process. destruct (Z.leb_spec (k_configured k) i); [|lia]. by intros [= _ <- _].
Qed.

Lemma inv_release k slot : 0 <= slot -> kernel_inv k -> kernel_inv (release_slot k slot).
Proof.
  intros Hs Hk. unfold release_slot, release_process. destruct (paging_user_space_destroy _ _) as [u mc].
  apply inv_put; [done| |apply offline_process0]. by eapply inv_same; [..|exact Hk].
Qed.

(** The result of an operation that may store past the array of image pages. *)
Definition keeps_inv_load (r : option (bool * kernel S)) : Prop :=
  match r with Some (_, k) => kernel_inv k | None => True end.

Lemma inv_load_slot k slot load :
  0 <= slot -> kernel_inv k -> (forall mc ipc kp p pid, offline p -> offline_load (load mc ipc kp p pid)) ->
  keeps_inv_load (load_slot k slot load).
Proof.
  intros Hs Hk Hl. unfold load_slot. cbv zeta.
  match goal with |- context [load ?a ?b ?c ?d ?e] =>
    pose proof (Hl a b c d e) as Hr; destruct (load a b c d e) as [[[[ok p] mc] ipc]|] end; [|done].
  cbn [keeps_inv_load]. apply inv_put; [done|by eapply inv_same; [..|exact Hk]|].
  apply Hr. exact (ki_offline _ Hk slot Hs).
Qed.

Lemma inv_load_app k slot app_id image :
  0 <= slot -> kernel_inv k -> keeps_inv_load (load_app_slot k slot app_id image).
Proof. intros Hs Hk. apply inv_load_slot; [done|done|]. intros. by apply load_elf_app_offline. Qed.

Lemma inv_load_probe k slot image :
  0 <= slot -> kernel_inv k -> keeps_inv_load (load_probe_slot k slot image).
Proof. intros Hs Hk. apply inv_load_slot; [done|done|]. intros. by apply load_flat_probe_offline. Qed.

Lemma inv_configured k n : 0 <= n <= 8 -> kernel_inv k -> kernel_inv (k_set_configured k n).
Proof. intros Hn []. by constructor. Qed.

Lemma inv_attempts fuel k slot events :
  0 <= slot -> kernel_inv k -> keeps_inv (start_attempts handled fuel k slot events).
Proof.
  intros Hs. revert k events. induction fuel as [|fuel IH]; intros k events Hk; [done|]. cbn [start_attempts]. cbv zeta.
  case_if; [done|]. case_if; [done|]. pose proof (inv_dispatch k slot events Hs Hk) as Hd.
  destruct (dispatch_process _ _ _ _) as [[[[] k1] rest]|]; [by apply IH|done|done].
Qed.

Lemma app_slot_range app_id : 2 <= app_slot im app_id <= 8.
Proof.
  unfold app_slot. destruct (zfind _ _ _) as [i|] eqn:E; [|done]. apply zfind_Some in E as [Hi _].
  unfold APP_PROCESS_FIRST, PROCESS_PROBE_COUNT, APP_PROCESS_COUNT in *. lia.
Qed.

Lemma inv_start_app k app_id events :
  kernel_inv k -> keeps_inv (start_app_internal handled im k app_id events).
Proof.
  intros Hk. pose proof (app_slot_range app_id) as Hs. unfold start_app_internal. cbv zeta.
  destruct (find_catalog im app_id) as [image|]; [|done]. case_if; [done|].
  pose proof (inv_load_app k (app_slot im app_id) app_id image ltac:(lia) Hk) as H1.
  destruct (load_app_slot _ _ _ _) as [[[] k1]|]; [|done|done]. cbn [keeps_inv_load] in H1.
  set (k2 := if k_configured k1 <=? _ then _ else k1).
  assert (kernel_inv k2) as H2.
  { unfold k2. case_if; [|done]. apply inv_configured; [|done]. b2p. unfold ARGUS_PROCESS_MAX in *. lia. }
  case_if; [apply inv_release; [lia|done]|].
  pose proof (inv_attempts (Z.to_nat APP_START_DISPATCH_LIMIT) k2 (app_slot im app_id) events ltac:(lia) H2) as H3.
  by destruct (start_attempts _ _ _ _ _) as [[[[] k3] rest]|].
Qed.

Lemma inv_set_active k app_id : kernel_inv k -> kernel_inv (process_app_set_active im k app_id).
Proof.
  intros Hk. unfold process_app_set_active.
  assert (kernel_inv (k_set_focused k app_id)) as Hk0 by (by eapply inv_same; [..|exact Hk]).
  destruct (Z.le_gt_cases APP_PROCESS_FIRST (k_configured k)); [|rewrite for_range_empty; [done|lia]].
  apply (for_range_inv (fun _ k' => kernel_inv k')); [done|done|].
  intros i k' Hi Hk'. cbv zeta. apply inv_put; [unfold APP_PROCESS_FIRST, PROCESS_PROBE_COUNT in *; lia|done|].
  eapply offline_table; [|apply (ki_offline _ Hk' i)]; [done|unfold APP_PROCESS_FIRST, PROCESS_PROBE_COUNT in *; lia].
Qed.

(** Focus is restored after a start. *)
Lemma inv_refocus r (b : kernel S -> bool) app_id :
  keeps_inv r ->
  keeps_inv match r with
            | Some (true, k, events) =>
                Some (true, if b k then process_app_set_active im k app_id else k, events)
            | Some (false, k, events) => Some (false, k, events)
            | None => None
            end.
Proof.
  intros Hr. destruct r as [[[[] k] rest]|]; [|done|done]. cbn [keeps_inv] in *. case_if; [by apply inv_set_active|done].
Qed.

Lemma find_app_range k app_id slot : find_app im k app_id = Some slot -> 0 <= slot.
Proof.
  unfold find_app. cbv zeta. pose proof (app_slot_range app_id). case_if; [done|]. intros [= <-]. lia.
Qed.

Lemma inv_app_start k app_id events : kernel_inv k -> keeps_inv (process_app_start handled im k app_id events).
Proof.
  intros Hk. unfold process_app_start. case_if; [done|].
  destruct (find_app im k app_id) as [slot|] eqn:E.
  - case_if; [done|]. apply (inv_refocus _ (fun k => k_focused k =? app_id)), inv_start_app, inv_release; [|done].
    by eapply find_app_range.
  - by apply (inv_refocus _ (fun k => k_focused k =? app_id)), inv_start_app.
Qed.

Lemma inv_app_stop k app_id : kernel_inv k -> kernel_inv (snd (process_app_stop im k app_id)).
Proof.
  intros Hk. unfold process_app_stop. case_if; [done|]. destruct (find_catalog _ _); [|done].
  destruct (find_app im k app_id) as [slot|] eqn:E; [|done]. apply inv_release; [by eapply find_app_range|done].
Qed.

Lemma inv_app_restart k app_id events : kernel_inv k -> keeps_inv (process_app_restart handled im k app_id events).
Proof.
  intros Hk. unfold process_app_restart. case_if; [done|]. cbv zeta.
  apply (inv_refocus _ (fun _ => k_focused k =? app_id)), inv_start_app.
  destruct (find_app im k app_id) as [slot|] eqn:E; [|done]. apply inv_release; [by eapply find_app_range|done].
Qed.

Lemma inv_app_input k app_id key : kernel_inv k -> kernel_inv (snd (process_app_input im k app_id key)).
Proof.
  intros Hk. unfold process_app_input. destruct (find_app im k app_id) as [slot|] eqn:E; [|done].
  apply find_app_range in E. cbv zeta. case_if; [done|]. case_if; [done|].
  assert (forall p', pr_capabilities p' = pr_capabilities (get_process k slot) -> kernel_inv (put_process k slot p')) as Hp.
  { intros p' Hc. apply inv_put; [done|done|]. eapply offline_table; [exact Hc|]. by apply Hk. }
  case_if; cbn [snd]; [|by apply Hp]. by eapply inv_same; [..|apply Hp].
Qed.

Lemma inv_wake k : kernel_inv k -> kernel_inv (wake_blocked_processes k).
Proof.
  intros Hk. destruct Hk as [H1 H2 H3]. destruct (wake_spec k) as (W1 & W2 & _ & _ & _ & W); [rewrite H1; lia|].
  constructor; [by rewrite W1|by rewrite W2|]. intros j Hj. rewrite W by done.
  case_if; [|by apply H3]. unfold woken. case_if; by apply H3.
Qed.

Lemma next_ready_range k start i : kernel_inv k -> next_ready_process k start = Some i -> 0 <= i.
Proof.
  intros Hk. unfold next_ready_process. cbv zeta. destruct (zfind _ _ _) as [o|] eqn:E; [|done]. intros [= <-].
  apply zfind_Some in E as [Ho _]. apply Z.mod_pos_bound. lia.
Qed.

Lemma inv_run_once k events : kernel_inv k -> keeps_inv (process_run_ready_once handled k events).
Proof.
  intros Hk. unfold process_run_ready_once. case_if; [done|]. cbv zeta. pose proof (inv_wake k Hk) as Hw.
  destruct (next_ready_process _ _) as [i|] eqn:E; [|done].
  apply inv_dispatch; [by eapply next_ready_range|]. by eapply inv_same; [..|exact Hw].
Qed.

Lemma inv_run_probes fuel k next events : kernel_inv k -> keeps_inv (run_probes handled fuel k next events).
Proof.
  revert k next events. induction fuel as [|fuel IH]; intros k next events Hk; [done|]. cbn [run_probes].
  destruct (next_ready_process k next) as [i|] eqn:E; [|done].
  pose proof (inv_dispatch k i events (next_ready_range _ _ _ Hk E) Hk) as Hd.
  destruct (dispatch_process _ _ _ _) as [[[[] k1] rest]|]; [by apply IH|done|done].
Qed.

Lemma inv_test_probe k image before check events :
  kernel_inv k -> (forall k, kernel_inv k -> kernel_inv (before k)) ->
  keeps_inv (run_test_probe handled k image before check events).
Proof.
  intros Hk Hb. unfold run_test_probe.
  pose proof (inv_load_probe k PROCESS_TEST_SLOT image ltac:(done) Hk) as H1.
  destruct (load_probe_slot _ _ _) as [[[] k1]|]; [|done|done]. cbn [keeps_inv_load] in H1. cbv zeta.
  pose proof (inv_dispatch (before (k_set_configured k1 (PROCESS_TEST_SLOT + 1))) PROCESS_TEST_SLOT events) as Hd.
  destruct (dispatch_process _ _ _ _) as [[[[] k2] rest]|]; [|by apply Hd; [|by apply Hb, inv_configured]|done].
  assert (kernel_inv k2) as H2 by (apply Hd; [done|]; by apply Hb, inv_configured).
  case_if; [|done]. apply inv_configured; [done|]. by apply inv_release.
Qed.

Lemma inv_start_all apps k events : kernel_inv k -> keeps_inv (start_all_apps handled im apps k events).
Proof.
  revert k events. induction apps as [|a apps IH]; intros k events Hk; [done|]. cbn [start_all_apps].
  match goal with |- context [start_app_internal handled im k ?x events] =>
    pose proof (inv_start_app k x events Hk) as Hs; destruct (start_app_internal handled im k x events) as [[[[] k1] rest]|] end;
    [|done|done].
  cbv zeta. case_if; [done|]. by apply IH.
Qed.

Lemma inv_self_test k events : kernel_inv k -> keeps_inv (process_run_self_test handled im k events).
Proof.
  intros Hk. unfold process_run_self_test. case_if; [done|].
  pose proof (inv_run_probes 16 k 0 events Hk) as H1.
  destruct (run_probes _ _ _ _ _) as [[[[] k1] e1]|]; [|done|done]. case_if; [done|]. cbv zeta.
  match goal with |- context [run_test_probe handled k1 ?a ?b ?c e1] =>
    pose proof (inv_test_probe k1 a b c e1 H1 ltac:(done)) as H2;
    destruct (run_test_probe handled k1 a b c e1) as [[[[] k2] e2]|] end; [|done|done].
  assert (forall k, kernel_inv k -> kernel_inv (enable_preemption k)) as Hp
    by (intros k0 H0; by eapply inv_same; [..|exact H0]).
  match goal with |- context [run_test_probe handled k2 ?a ?b ?c e2] =>
    pose proof (inv_test_probe k2 a b c e2 H2 Hp) as H3;
    destruct (run_test_probe handled k2 a b c e2) as [[[[] k3] e3]|] end; [|done|done].
  pose proof (inv_start_all (zrange 0 (Z.to_nat APP_PROCESS_COUNT)) k3 e3 H3) as H4.
  destruct (start_all_apps _ _ _ _ _) as [[[[] k4] e4]|]; [|done|done].
  by eapply inv_same; [..|exact H4].
Qed.

Lemma inv_load_probes slots k :
  Forall (fun i => 0 <= i < 8) slots -> k_configured k + Z.of_nat (length slots) <= 8 -> kernel_inv k ->
  keeps_inv_load (load_probes im slots k).
Proof.
  intros HF. revert k. induction HF as [|i slots Hi HF IH]; intros k Hc Hk; [done|]. cbn [load_probes length] in *.
  pose proof (inv_load_probe k i (im_probe im) (proj1 Hi) Hk) as H1.
  assert (match load_probe_slot k i (im_probe im) with Some (_, k') => k_configured k' = k_configured k | None => True end) as Hck.
  { unfold load_probe_slot, load_slot. cbv zeta. by destruct (load_flat_probe _ _ _ _ _ _) as [[[[? ?] ?] ?]|]. }
  destruct (load_probe_slot k i (im_probe im)) as [[[] k1]|]; cbn [keeps_inv_load] in *; [| |done].
  - pose proof (ki_configured _ H1). rewrite u32_id by (unfold UINT32_MAX; lia).
    apply IH; [cbn [k_set_configured k_configured]; lia|]. apply inv_configured; [lia|done].
  - apply (for_range_inv (fun _ k => kernel_inv k)); [lia|done|]. intros j k' Hj Hk'. apply inv_release; [lia|done].
Qed.

Lemma inv_init k space : kernel_inv k -> keeps_inv_load (process_init im syscall_init_ok k space).
Proof.
  intros Hk. unfold process_init. destruct space as [space|]; [|done]. case_if; [done|]. cbv zeta.
  set (k0 := mk_kernel _ _ _ _ _ _ _ _ _ _ _ _ _ _).
  assert (kernel_inv k0) as H0.
  { destruct Hk as [H1 _ H3]. constructor; [done|done|]. intros j Hj. by apply H3. }
  assert (k_processes (snd (security_self_tests k0)) = k_processes k0
          /\ k_configured (snd (security_self_tests k0)) = 0) as [Hp Hc].
  { unfold security_self_tests. case_if; [done|]. destruct (ipc_self_test _) as [[] ipc]; cbn [negb]; [|done].
    by destruct anonymity_policy_self_test. }
  destruct (security_self_tests k0) as [ready k1]. cbn [snd] in Hp, Hc.
  assert (kernel_inv k1) as H1 by (by eapply inv_same; [..|exact H0]).
  case_if; [by eapply inv_same; [..|exact H1]|].
  set (k2 := k_set_processes _ _). assert (kernel_inv k2) as H2.
  { constructor; [done|cbn; by rewrite Hc|]. intros j Hj. unfold get_process, k2, zget. cbn [k_set_processes k_processes].
    destruct (_ !! _) as [p|] eqn:E; [|apply offline_process0]. apply lookup_replicate in E as [-> _]. apply offline_process0. }
  case_if; [done|].
  pose proof (inv_load_probes (zrange 0 (Z.to_nat PROCESS_PROBE_COUNT)) k2) as H3.
  destruct (load_probes _ _ k2) as [[[] k3]|]; cbn [keeps_inv_load] in *; [| |done].
  - eapply inv_same; [..|apply H3]; [done|done| | |done]; [by repeat constructor|]. cbn. by rewrite Hc.
  - apply H3; [by repeat constructor| |done]. cbn. by rewrite Hc.
Qed.

Lemma load_probes_defined slots k : load_probes im slots k <> None.
Proof.
  revert k. induction slots as [|i slots IH]; intros k; [done|]. cbn [load_probes]. unfold load_probe_slot, load_slot.
  cbv zeta. match goal with |- context [load_flat_probe ?a ?b ?c ?d ?e ?f] =>
    pose proof (load_flat_probe_defined a b c d e f) as Hd; destruct (load_flat_probe a b c d e f) as [[[[[] ?] ?] ?]|] end;
    [apply IH|done|done].
Qed.

Lemma process_init_defined k space : process_init im syscall_init_ok k space <> None.
Proof.
  unfold process_init. destruct space as [space|]; [|done]. case_if; [done|]. cbv zeta.
  destruct (security_self_tests _) as [ready k1]. case_if; [done|]. case_if; [done|].
  match goal with |- context [load_probes im ?a ?b] =>
    pose proof (load_probes_defined a b) as Hd; by destruct (load_probes im a b) as [[[] k3]|] end.
Qed.

(** ** The kernel's life *)

(** [transport_state] is written by [anonymity_transport_update] alone. *)
Definition k_set_transport k (t : Z) : kernel S :=
  mk_kernel
    (k_processes k) (k_kernel_paging k) (k_current k) (k_configured k) (k_cursor k)
    (k_focused k) (k_next_pid k) (k_counters k) (k_flags k) (k_machine k) (k_ipc k)
    t (k_ticks k) (k_serial k).

(** The entry points of process.c, the timer and the transport, in any order,
    with any user code.  An operation with no result (control does not come back,
    or the loader stores past its array of image pages) ends the history. *)
Inductive kernel_step k : kernel S -> Prop :=
  | step_init space b k' : process_init im syscall_init_ok k space = Some (b, k') -> kernel_step k k'
  | step_self_test events b k' rest :
      process_run_self_test handled im k events = Some (b, k', rest) -> kernel_step k k'
  | step_run events b k' rest : process_run_ready_once handled k events = Some (b, k', rest) -> kernel_step k k'
  | step_start app events b k' rest : process_app_start handled im k app events = Some (b, k', rest) -> kernel_step k k'
  | step_restart app events b k' rest :
      process_app_restart handled im k app events = Some (b, k', rest) -> kernel_step k k'
  | step_stop app : kernel_step k (snd (process_app_stop im k app))
  | step_active app : kernel_step k (process_app_set_active im k app)
  | step_input app key : kernel_step k (snd (process_app_input im k app key))
  | step_ticks t : kernel_step k (k_set_ticks k t)
  | step_transport q : kernel_step k (k_set_transport k (transport_exec (k_transport k) q)).

(** The static variables before [process_init]. *)
Definition boot_kernel mc (ipc : ipc_state) (ticks : Z) : kernel S :=
  mk_kernel (replicate 8 process0) None None 0 0 0 0 counters0 (mk_flags false false false false false)
    mc ipc ARGUS_ANON_TRANSPORT_OFFLINE ticks [].

Definition reachable mc ipc ticks : kernel S -> Prop := rtc kernel_step (boot_kernel mc ipc ticks).

Lemma step_inv k k' : kernel_inv k -> kernel_step k k' -> kernel_inv k'.
Proof.
  intros Hk [space b k1 E|ev b k1 r E|ev b k1 r E|app ev b k1 r E|app ev b k1 r E|app|app|app key|t|q].
  - pose proof (inv_init k space Hk) as Hi. by rewrite E in Hi.
  - pose proof (inv_self_test k ev Hk) as Hi. by rewrite E in Hi.
  - pose proof (inv_run_once k ev Hk) as Hi. by rewrite E in Hi.
  - pose proof (inv_app_start k app ev Hk) as Hi. by rewrite E in Hi.
  - pose proof (inv_app_restart k app ev Hk) as Hi. by rewrite E in Hi.
  - by apply inv_app_stop.
  - by apply inv_set_active.
  - by apply inv_app_input.
  - by eapply inv_same; [..|exact Hk].
  - by eapply inv_same; [..|exact Hk].
Qed.

Lemma boot_inv mc ipc ticks : kernel_inv (boot_kernel mc ipc ticks).
Proof.
  constructor; [done|done|]. intros j Hj. unfold get_process, zget, boot_kernel. cbn [k_processes].
  destruct (_ !! _) as [p|] eqn:E; [|apply offline_process0]. apply lookup_replicate in E as [-> _]. apply offline_process0.
Qed.

Lemma reachable_inv mc ipc ticks k : reachable mc ipc ticks k -> kernel_inv k.
Proof.
  intros Hr. pose proof (boot_inv mc ipc ticks) as Hb. induction Hr as [k|k1 k2 k3 Hs Hr IH]; [done|].
  apply IH. by eapply step_inv.
Qed.

(** ** Consequences *)

Lemma get_entry_local p j : offline p -> local_entry (get_entry (pr_capabilities p) j).
Proof.
  intros Hp. unfold get_entry, zget. destruct (_ !! _) as [e|] eqn:E; [|by split]. by eapply Forall_lookup_1 in E.
Qed.

Lemma offline_count p type :
  offline p -> type = ARGUS_CAPABILITY_ANONYMOUS_STREAM \/ type = ARGUS_CAPABILITY_RAW_NETWORK ->
  capability_count_type (Some (pr_capabilities p)) type = 0.
Proof.
  intros Hp Ht. apply zcount_none. intros j Hj. apply Z.eqb_neq.
  destruct (get_entry_local p j Hp) as [H1 H2]. destruct Ht as [->| ->]; done.
Qed.

Lemma offline_resolve p h type r :
  offline p -> type = ARGUS_CAPABILITY_ANONYMOUS_STREAM \/ type = ARGUS_CAPABILITY_RAW_NETWORK ->
  capability_resolve (Some (pr_capabilities p)) h type r = None.
Proof.
  intros Hp Ht. unfold capability_resolve. case_if; [done|]. cbv zeta. case_if; [done|].
  match goal with |- context [get_entry _ ?j] => destruct (get_entry_local p j Hp) as [H1 H2] end.
  destruct Ht as [->| ->].
  - apply Z.eqb_neq in H1. rewrite H1. done.
  - apply Z.eqb_neq in H2. rewrite H2. done.
Qed.

Lemma offline_total k type :
  kernel_inv k -> type = ARGUS_CAPABILITY_ANONYMOUS_STREAM \/ type = ARGUS_CAPABILITY_RAW_NETWORK ->
  capability_total k type = 0.
Proof.
  intros Hk Ht. pose proof (ki_configured _ Hk). unfold capability_total.
  apply (for_range_inv (fun _ t => t = 0)); [lia|done|]. intros i t Hi ->. case_if; [|done].
  rewrite offline_count; [done|apply Hk; lia|done].
Qed.

(** C1: the network boundary never opens.  After any sequence of the kernel's
    process operations, with any user code and any transport updates, no process
    holds a raw-network or anonymous-stream capability: both counts are zero, no
    handle of any process resolves to either type, whatever the rights, and so
    the counts never keep [process_security_boundaries_online] from holding. *)
Theorem network_fail_closed mc ipc ticks k :
  reachable mc ipc ticks k ->
  process_raw_network_capability_count k = 0 /\ process_anonymous_stream_capability_count k = 0
  /\ (forall i h type r, 0 <= i ->
       type = ARGUS_CAPABILITY_ANONYMOUS_STREAM \/ type = ARGUS_CAPABILITY_RAW_NETWORK ->
       capability_resolve (Some (pr_capabilities (get_process k i))) h type r = None)
  /\ process_security_boundaries_online k =
     f_security_ready (k_flags k) && f_self_test_passed (k_flags k) && (PROCESS_PROBE_COUNT <=? n_denials (k_counters k)).
Proof.
  intros Hr. apply reachable_inv in Hr as Hk.
  assert (process_raw_network_capability_count k = 0) as H1 by (apply offline_total; auto).
  assert (process_anonymous_stream_capability_count k = 0) as H2 by (apply offline_total; auto).
  split_and!; [done|done| |].
  - intros i h type r Hi Ht. apply offline_resolve; [by apply Hk|done].
  - unfold process_security_boundaries_online. rewrite H1, H2. cbn [nz Z.eqb negb]. by rewrite !andb_true_r.
Qed.
End security.

Definition sample_images : user_images := mk_images sample_code [0x0F; 0x0B] sample_code sample_code sample_code sample_code.

Definition sample_init := process_init sample_images true (boot_kernel sample_machine sample_ipc 0) (Some sample_kernel).

Lemma some_default {A} (o : option A) (a : A) : o <> None -> o = Some (default a o).
Proof. by destruct o. Qed.

Lemma sample_init_ends : sample_init = Some (default (false, boot_kernel sample_machine sample_ipc 0) sample_init).
Proof. exact (some_default _ _ (process_init_defined sample_images true _ _)). Qed.

#[local] Opaque process_init.

Lemma network_fail_closed_witness :
  process_raw_network_capability_count
    (snd (default (false, boot_kernel sample_machine sample_ipc 0) sample_init)) = 0.
Proof.
  pose proof sample_init_ends as E. destruct (default _ sample_init) as [b k]. cbn [snd].
  pose proof (rtc_once (R := kernel_step sample_handled sample_images true) _ _
    (step_init sample_handled sample_images true (boot_kernel sample_machine sample_ipc 0) (Some sample_kernel) b k E)) as Hr.
  exact (proj1 (network_fail_closed sample_handled sample_images true sample_machine sample_ipc 0 k Hr)).
Defined.
