(* ===== verification/AppInput.v ===== *)
(** * The input ring of an application

    [process_app_input] puts keys into a ring of 32 cells and the [INPUT_POLL]
    system call takes them out.  The ring is a bounded queue of 31 keys. *)

From stdpp Require Import base list gmap numbers.
From Stdlib Require Import ZArith Lia.
From S2P Require Import Prelude Memory Capability Anonymity Ipc Ring BootInfo Allocator Pmm Elf Paging Process Loading Syscall Scheduler.

Open Scope Z_scope.

(** The keys waiting, oldest first. *)
Definition ring_queue (r : input_ring) : list Z :=
  ring_contents 0 32 (ring_keys r) (ring_head r) (ring_tail r).

Record ring_ok (r : input_ring) : Prop := {
  rk_length : length (ring_keys r) = 32%nat;
  rk_head : 0 <= ring_head r < 32;
  rk_tail : 0 <= ring_tail r < 32;
  rk_keys : Forall (fun key => key <> 0) (ring_queue r) }.

Lemma queue_length r : Z.of_nat (length (ring_queue r)) = (ring_head r - ring_tail r) mod 32.
Proof. apply ring_contents_length. lia. Qed.

Lemma ring_next x : 0 <= x < 32 -> u8 ((x + 1) & (APP_INPUT_CAPACITY - 1)) = (x + 1) mod 32.
Proof.
  intros Hx. change (APP_INPUT_CAPACITY - 1) with (2 ^ 5 - 1). rewrite land_ones_mod by lia. change (2 ^ 5) with 32.
  apply u8_id. pose proof (Z.mod_pos_bound (x + 1) 32). lia.
Qed.

(** Taking the oldest key. *)
Lemma queue_pop r n :
  0 <= ring_tail r < 32 -> ring_tail r <> ring_head r -> 0 <= ring_head r < 32 ->
  ring_queue r = zget 0 (ring_keys r) (ring_tail r)
                 :: ring_queue (mk_ring (ring_keys r) (ring_head r) ((ring_tail r + 1) mod 32) n).
Proof.
  intros Ht Hne Hh. by apply ring_pop.
Qed.

(** Putting a key behind the others. *)
Lemma queue_push r key n :
  ring_ok r -> (ring_head r + 1) mod 32 <> ring_tail r ->
  ring_queue (mk_ring (zset (ring_keys r) (ring_head r) key) ((ring_head r + 1) mod 32) (ring_tail r) n)
  = ring_queue r ++ [key].
Proof.
  intros [Hl Hh Ht _] Hne. apply ring_push; done || lia.
Qed.

(** [app_input_poll] takes the head of the queue, or returns 0. *)
Lemma poll_refines p :
  ring_ok (pr_input p) ->
  let '(key, p') := app_input_poll p in
  ring_ok (pr_input p') /\
  match ring_queue (pr_input p) with
  | [] => key = 0 /\ p' = p
  | x :: q => key = x /\ ring_queue (pr_input p') = q
  end.
Proof.
  intros Hr. unfold app_input_poll. cbv zeta. set (r := pr_input p) in *.
  destruct (Z.eqb_spec (ring_tail r) (ring_head r)) as [He|Hne].
  - split; [done|]. destruct (ring_queue r) as [|x q] eqn:E; [done|].
    pose proof (queue_length r) as Hq. rewrite E, He, Z.sub_diag in Hq. cbn [length] in Hq.
    change (0 mod 32) with 0 in Hq. lia.
  - rewrite ring_next by apply Hr. pose proof (queue_pop r (u64 (ring_delivered r + 1)) (rk_tail _ Hr) Hne (rk_head _ Hr)) as Hq.
    rewrite Hq. split; [|done]. constructor; [apply Hr|apply Hr|cbn; apply Z.mod_pos_bound; lia|].
    pose proof (rk_keys _ Hr) as Hk. rewrite Hq in Hk. by apply Forall_cons_iff in Hk as [_ Hk].
Qed.

Section input.
Context {S : Type} `{PageAllocator S}.
Implicit Types k : kernel S.
Variable im : user_images.

(** A started application's slot. *)
Lemma find_app_slot k app_id slot :
  length (k_processes k) = 8%nat -> find_app im k app_id = Some slot -> 0 <= slot < Z.of_nat (length (k_processes k)).
Proof.
  intros Hl. unfold find_app, app_slot. cbv zeta. case_if; [done|]. intros [= <-]. b2p.
  unfold ARGUS_PROCESS_MAX in *. destruct (zfind _ _ _) as [i|] eqn:E; [|lia].
  apply zfind_Some in E as [Hi _]. unfold APP_PROCESS_FIRST, PROCESS_PROBE_COUNT in *. lia.
Qed.

Lemma app_input_spec k app_id key :
  length (k_processes k) = 8%nat ->
  (forall slot, find_app im k app_id = Some slot -> ring_ok (pr_input (get_process k slot))) ->
  let '(ok, k') := process_app_input im k app_id key in
  (ok = true <-> exists slot, find_app im k app_id = Some slot
     /\ let p := get_process k slot in
        pr_active p = true /\ pr_present_valid p = true /\ key <> 0
        /\ (pr_state p = ARGUS_PROCESS_READY \/ pr_state p = ARGUS_PROCESS_BLOCKED)
        /\ (length (ring_queue (pr_input p)) < 31)%nat)
  /\ (ok = false -> k' = k)
  /\ (ok = true -> forall slot, find_app im k app_id = Some slot ->
       let p' := get_process k' slot in
       ring_ok (pr_input p') /\ ring_queue (pr_input p') = ring_queue (pr_input (get_process k slot)) ++ [key]
       /\ pr_state p' = ARGUS_PROCESS_READY
       /\ forall j, 0 <= j -> j <> slot -> get_process k' j = get_process k j).
Proof.
  intros Hl Hring. unfold process_app_input.
  destruct (find_app im k app_id) as [slot|] eqn:Ef.
  2: { split_and!; [split; [done|by intros (? & ? & _)]|done|done]. }
  specialize (Hring slot eq_refl). cbv zeta.
  pose proof (find_app_slot _ _ _ Hl Ef) as Hs.
  set (p := get_process k slot) in *. set (r := pr_input p) in *.
  pose proof (queue_length r) as Hq. rewrite ring_next by apply Hring.
  pose proof (rk_head _ Hring) as Hh. pose proof (rk_tail _ Hring) as Ht. fold r in Hh, Ht.
  assert ((ring_head r + 1) mod 32 = ring_tail r <-> ~ (length (ring_queue r) < 31)%nat) as Hfull
    by (Z.to_euclidean_division_equations; lia).
  destruct (negb (pr_active p) || _ || _ || _) eqn:Hg.
  { split_and!; [|done|done]. split; [done|]. intros (s & [= <-] & Ha & Hv & Hk & Hst & _). fold p in Ha, Hv, Hst. exfalso.
    unfold is_state, nz in Hg. rewrite Ha, Hv in Hg. apply Z.eqb_neq in Hk. rewrite Hk in Hg.
    destruct Hst as [Hst|Hst]; rewrite Hst in Hg; done. }
  apply orb_false_iff in Hg as [Hg Hst]. apply orb_false_iff in Hg as [Hg Hk].
  apply orb_false_iff in Hg as [Ha%negb_false_iff Hv%negb_false_iff].
  assert (key <> 0) as Hk0 by (unfold nz in Hk; lia).
  destruct (Z.eqb_spec ((ring_head r + 1) mod 32) (ring_tail r)) as [Hf|Hf].
  { split_and!; [|done|done]. split; [done|]. intros (s & [= <-] & _ & _ & _ & _ & Hlen). by apply Hfull in Hf. }
  set (r' := mk_ring _ _ _ _). pose proof (queue_push r key (ring_delivered r) Hring Hf) as Hpush. fold r' in Hpush.
  assert (ring_ok r') as Hr'.
  { constructor; [cbn; rewrite zset_length; apply Hring|cbn; apply Z.mod_pos_bound; lia|done|].
    rewrite Hpush. apply Forall_app. split; [apply Hring|by constructor]. }
  assert (pr_state p = ARGUS_PROCESS_READY \/ pr_state p = ARGUS_PROCESS_BLOCKED) as Hst'.
  { unfold is_state in Hst. destruct (pr_state p); try done; auto. }
  assert (exists s, Some slot = Some s /\ pr_active (get_process k s) = true /\ pr_present_valid (get_process k s) = true
    /\ key <> 0 /\ (pr_state (get_process k s) = ARGUS_PROCESS_READY \/ pr_state (get_process k s) = ARGUS_PROCESS_BLOCKED)
    /\ (length (ring_queue (pr_input (get_process k s))) < 31)%nat) as Hex.
  { exists slot. split_and!; try done. fold p r. destruct (decide (length (ring_queue r) < 31)%nat) as [|Hn]; [done|].
    by apply Hfull in Hn. }
  assert (forall p', pr_input p' = r' -> pr_state p' = ARGUS_PROCESS_READY ->
    forall s, Some slot = Some s -> ring_ok (pr_input (get_process (put_process k slot p') s))
      /\ ring_queue (pr_input (get_process (put_process k slot p') s)) = ring_queue (pr_input (get_process k s)) ++ [key]
      /\ pr_state (get_process (put_process k slot p') s) = ARGUS_PROCESS_READY
      /\ forall j, 0 <= j -> j <> s -> get_process (put_process k slot p') j = get_process k j) as Hres.
  { intros p' Hi' Hs' s [= <-]. rewrite get_put by done. rewrite Hi'. split_and!; [done|done|done|].
    intros j Hj Hne. apply get_put_ne; lia. }
  destruct (is_state (pr_state (set_input p r')) ARGUS_PROCESS_BLOCKED) eqn:Eb.
  - split_and!; [done|done|]. intros _. by apply (Hres (set_state (set_input p r') ARGUS_PROCESS_READY)).
  - split_and!; [done|done|]. intros _. apply Hres; [done|]. destruct Hst' as [|Hb]; [done|].
    unfold is_state in Eb. cbn in Eb. by rewrite Hb in Eb.
Qed.

(** [process_app_input] accepts a key exactly when the application is
    started, focused, presented, ready or blocked, the key is not 0, and fewer
    than 31 keys wait; it then appends the key to the application's queue, makes
    a blocked application ready, and touches nothing else of the process table.
    A refused key changes nothing. *)
Theorem app_input_exact k app_id key :
  length (k_processes k) = 8%nat ->
  (forall slot, find_app im k app_id = Some slot -> ring_ok (pr_input (get_process k slot))) ->
  let '(ok, k') := process_app_input im k app_id key in
  (ok = true <-> exists slot, find_app im k app_id = Some slot
     /\ let p := get_process k slot in
        pr_active p = true /\ pr_present_valid p = true /\ key <> 0
        /\ (pr_state p = ARGUS_PROCESS_READY \/ pr_state p = ARGUS_PROCESS_BLOCKED)
        /\ (length (ring_queue (pr_input p)) < 31)%nat)
  /\ (ok = false -> k' = k)
  /\ (ok = true -> forall slot, find_app im k app_id = Some slot ->
       let p' := get_process k' slot in
       ring_ok (pr_input p') /\ ring_queue (pr_input p') = ring_queue (pr_input (get_process k slot)) ++ [key]
       /\ pr_state p' = ARGUS_PROCESS_READY
       /\ forall j, 0 <= j -> j <> slot -> get_process k' j = get_process k j).
Proof. apply app_input_spec. Qed.

(** A history: keys sent by the kernel, polls by the application. *)
Inductive input_op :=
  | OP_KEY (key : Z)
  | OP_POLL.

(** The keys accepted, the keys polled and the kernel after the operation. *)
Definition input_exec (app_id : Z) k (op : input_op) : list Z * list Z * kernel S :=
  match op with
  | OP_KEY key => let '(ok, k') := process_app_input im k app_id key in (if ok then [key] else [], [], k')
  | OP_POLL =>
      match find_app im k app_id with
      | None => ([], [], k)
      | Some slot =>
          let '(key, p) := app_input_poll (get_process k slot) in
          ([], if nz key then [key] else [], put_process k slot p)
      end
  end.

Fixpoint input_run (app_id : Z) (ops : list input_op) k : list Z * list Z * kernel S :=
  match ops with
  | [] => ([], [], k)
  | op :: rest =>
      let '(a, b, k) := input_exec app_id k op in
      let '(a', b', k) := input_run app_id rest k in (a ++ a', b ++ b', k)
  end.

(** The application [slot] is started and its ring is well formed. *)
Definition started k (app_id slot : Z) : Prop :=
  length (k_processes k) = 8%nat /\ find_app im k app_id = Some slot /\ ring_ok (pr_input (get_process k slot)).

Lemma find_app_put k app_id slot p :
  length (k_processes k) = 8%nat -> find_app im k app_id = Some slot -> pr_state p <> ARGUS_PROCESS_UNUSED ->
  find_app im (put_process k slot p) app_id = Some slot.
Proof.
  intros Hl Hf Hp. pose proof (find_app_slot _ _ _ Hl Hf) as Hs. revert Hf. unfold find_app. cbv zeta.
  case_if; [done|]. intros [= <-]. rewrite get_put by done. apply orb_false_iff in Heqb as [-> _].
  unfold is_state. by rewrite bool_decide_eq_false_2.
Qed.

Lemma find_app_state k app_id slot :
  find_app im k app_id = Some slot -> pr_state (get_process k slot) <> ARGUS_PROCESS_UNUSED.
Proof.
  unfold find_app. cbv zeta. case_if; [done|]. intros [= <-]. apply orb_false_iff in Heqb as [_ Hs].
  unfold is_state in Hs. by apply bool_decide_eq_false in Hs.
Qed.

Lemma input_exec_fifo app_id k slot op :
  started k app_id slot ->
  let '(a, b, k') := input_exec app_id k op in
  started k' app_id slot
  /\ b ++ ring_queue (pr_input (get_process k' slot)) = ring_queue (pr_input (get_process k slot)) ++ a.
Proof.
  intros (Hl & Hf & Hr). pose proof (find_app_slot _ _ _ Hl Hf) as Hs. destruct op as [key|]; cbn [input_exec].
  - pose proof (app_input_spec k app_id key Hl) as Hi. rewrite Hf in Hi.
    specialize (Hi ltac:(by intros s [= <-])). destruct (process_app_input im k app_id key) as [[] k'] eqn:E.
    + destruct Hi as (_ & _ & Hi). destruct (Hi eq_refl slot eq_refl) as (H1 & H2 & H3 & H4). split; [|done].
      assert (length (k_processes k') = 8%nat /\ find_app im k' app_id = Some slot) as [Hl' Hf']; [|done].
      revert E H3. unfold process_app_input. rewrite Hf. cbv zeta. case_if; [done|]. case_if; [done|].
      assert (forall p, length (k_processes (put_process k slot p)) = 8%nat) as Hlp by (intros p; by rewrite <- Hl; apply zset_length).
      case_if; intros [= <-] H3; (split; [apply Hlp|]).
      * by apply (find_app_put k).
      * apply find_app_put; [done|done|]. rewrite get_put in H3 by done. by rewrite H3.
    + destruct Hi as (_ & Hi & _). rewrite (Hi eq_refl). split; [done|]. by rewrite app_nil_r.
  - rewrite Hf. pose proof (poll_refines (get_process k slot) Hr) as Hp.
    destruct (app_input_poll (get_process k slot)) as [key p] eqn:E. destruct Hp as [Hr' Hp].
    assert (pr_state p <> ARGUS_PROCESS_UNUSED) as Hu by (rewrite (poll_state _ _ _ E); by eapply find_app_state).
    split.
    + split_and!; [by rewrite <- Hl; apply zset_length|by apply find_app_put|by rewrite get_put].
    + rewrite get_put by done. rewrite app_nil_r.
      destruct (ring_queue (pr_input (get_process k slot))) as [|x q] eqn:Eq.
      * destruct Hp as [-> ->]. by rewrite Eq.
      * destruct Hp as [-> ->]. pose proof (rk_keys _ Hr) as Hk. rewrite Eq in Hk. apply Forall_cons_iff in Hk as [Hx _].
        assert (nz x = true) as -> by (unfold nz; lia). done.
Qed.

(** Input is delivered in order, once, without loss.  Over any history of
    keys sent to a started application and polls by it, the keys polled followed
    by the keys still waiting are the keys that were waiting followed by the
    keys accepted. *)
Theorem app_input_fifo app_id ops k slot :
  started k app_id slot ->
  let '(accepted, polled, k') := input_run app_id ops k in
  polled ++ ring_queue (pr_input (get_process k' slot)) = ring_queue (pr_input (get_process k slot)) ++ accepted.
Proof.
  revert k. induction ops as [|op ops IH]; intros k Hk; cbn [input_run]; [by rewrite app_nil_r|].
  pose proof (input_exec_fifo app_id k slot op Hk) as Hs. destruct (input_exec app_id k op) as [[a b] k1].
  destruct Hs as [Hk1 Heq]. specialize (IH k1 Hk1). destruct (input_run app_id ops k1) as [[a' b'] k2].
  rewrite <- app_assoc, IH, !app_assoc, Heq. done.
Qed.

(** A surface the kernel has accepted is not looked at again: after a store of the
    application into its own surface page, [process_app_surface] still hands the
    surface out, with a pixel that [app_surface_valid] refuses. *)
Theorem published_surface_unchecked k app_id slot a seq i v :
  find_app im k app_id = Some slot -> process_app_surface im k app_id true = Some (a, seq) ->
  0 <= i < ARGUS_APP_SURFACE_BYTES -> ARGUS_APP_PALETTE_COUNT <= v < 256 ->
  let m := mem_set (mc_mem (k_machine k)) (a + i) v in
  let k' := k_set_machine k (with_memory (k_machine k) m) in
  process_app_surface im k' app_id true = Some (a, seq) /\ app_surface_valid m (get_process k' slot) = false.
Proof.
  intros Hf Hp Hi Hv m k'. split; [exact Hp|]. unfold process_app_surface in Hp. rewrite Hf in Hp. case_if_in Hp; [done|].
  injection Hp as <- <-. unfold app_surface_valid. change (get_process k' slot) with (get_process k slot).
  apply andb_false_iff. right. apply not_true_iff_false. rewrite zall_true. intros Hall.
  specialize (Hall i ltac:(lia)). unfold m in Hall. rewrite mem_get_set_eq, u8_id in Hall by (unfold ARGUS_APP_PALETTE_COUNT in *; lia). b2p. lia.
Qed.
End input.

(** ** Witnesses: a focused application with an empty ring *)

#[local] Opaque sample_m2.

Definition sample_app : process_t :=
  mk_process 5 ARGUS_PROCESS_BLOCKED memory0 1 1 true true ring0 UINT64_MAX context0 0 0 (mk_fault 0 0 0 0) 1 table0 0.
Definition sample_kernel4 : kernel pmm_state :=
  mk_kernel (process0 :: process0 :: sample_app :: replicate 5 process0) (Some sample_kernel) None 3 0 1 6
    counters0 (mk_flags true true true true true) sample_m2 sample_ipc 0 7 [].
Definition no_images : user_images := mk_images [] [] [] [] [] [].

Lemma sample_started : started no_images sample_kernel4 1 2.
Proof.
  split_and!; [done|vm_compute; reflexivity|]. constructor; [done|done|done|]. vm_compute. constructor.
Qed.

Lemma app_input_exact_witness : fst (process_app_input no_images sample_kernel4 1 65) = true.
Proof.
  pose proof (app_input_exact no_images sample_kernel4 1 65 (proj1 sample_started)) as H.
  destruct (process_app_input no_images sample_kernel4 1 65) as [ok k'].
  destruct H as [[_ H] _].
  - intros slot Hs. destruct sample_started as (_ & Hf & Hr). rewrite Hf in Hs. injection Hs as <-. exact Hr.
  - apply H. exists 2. split; [vm_compute; reflexivity|]. cbv zeta.
    split; [reflexivity|]. split; [reflexivity|]. split; [discriminate|]. split; [right; reflexivity|].
    vm_compute. lia.
Defined.

Lemma app_input_fifo_witness :
  let '(accepted, polled, k') := input_run no_images 1 [OP_KEY 65; OP_KEY 66; OP_POLL] sample_kernel4 in
  accepted = [65; 66] /\ polled = [65] /\ ring_queue (pr_input (get_process k' 2)) = [66].
Proof.
  pose proof (app_input_fifo no_images 1 [OP_KEY 65; OP_KEY 66; OP_POLL] sample_kernel4 2 sample_started) as H.
  assert (fst (input_run no_images 1 [OP_KEY 65; OP_KEY 66; OP_POLL] sample_kernel4) = ([65; 66], [65])) as E
    by (vm_compute; reflexivity).
  destruct (input_run _ _ _ _) as [[a b] k']. simpl in E. injection E as -> ->.
  split; [reflexivity|]. split; [reflexivity|]. simpl in H. injection H as H. exact H.
Defined.
