(* ===== verification/Devices.v ===== *)
(** * Device access, interrupt handlers, serial port and APIC
      (src/cpu.S primitives, src/arch.c, src/serial.c, src/apic.c)

    The machine behind the I/O instructions is not part of the program: it is a
    type [D] of machine states with one operation per primitive the C code
    declares [extern] ([cpu_in8], [cpu_out8], ...), collected in the class
    [Hardware].  Every register access is a step of that state, in program
    order, so the definitions below say exactly which accesses the drivers make
    and in which order. *)

From stdpp Require Import base list gmap numbers.
From Stdlib Require Import ZArith Lia.
From S2P Require Import Prelude Memory BootInfo Allocator Pmm Paging Scheduler Syscall.

Open Scope Z_scope.

Class Hardware (D : Type) := {
  hw_in8 : D -> Z -> Z * D;
  hw_out8 : D -> Z -> Z -> D;
  hw_in32 : D -> Z -> Z * D;
  hw_out16 : D -> Z -> Z -> D;
  hw_out32 : D -> Z -> Z -> D;
  hw_rdmsr : D -> Z -> Z * D;
  hw_wrmsr : D -> Z -> Z -> D;
  hw_load32 : D -> Z -> Z * D;
  hw_store32 : D -> Z -> Z -> D }.

Section devices.
Context {D : Type} `{Hardware D}.
Implicit Types hw : D.

(** The primitives at the width of their C types. *)
Definition cpu_in8 hw (port : Z) : Z * D := let '(v, hw) := hw_in8 hw port in (u8 v, hw).
Definition cpu_out8 hw (port value : Z) : D := hw_out8 hw port (u8 value).
Definition cpu_in32 hw (port : Z) : Z * D := let '(v, hw) := hw_in32 hw port in (u32 v, hw).
Definition cpu_out16 hw (port value : Z) : D := hw_out16 hw port (u16 value).
Definition cpu_out32 hw (port value : Z) : D := hw_out32 hw port (u32 value).
Definition cpu_rdmsr hw (msr : Z) : Z * D := let '(v, hw) := hw_rdmsr hw msr in (u64 v, hw).
Definition cpu_wrmsr hw (msr value : Z) : D := hw_wrmsr hw msr (u64 value).
(** A volatile 32-bit access to a device register. *)
Definition mmio_read hw (address : Z) : Z * D := let '(v, hw) := hw_load32 hw address in (u32 v, hw).
Definition mmio_write hw (address value : Z) : D := hw_store32 hw address (u32 value).

Lemma cpu_in8_range hw port : 0 <= fst (cpu_in8 hw port) < 256.
Proof. unfold cpu_in8. destruct (hw_in8 hw port). apply u8_range. Qed.

(** ** Interrupt handlers (src/arch.c)

    A handler is the address of its function, 0 for none. *)

Definition interrupt_register (handlers : list Z) (vector handler : Z) : bool * list Z :=
  if (vector <? 32) || negb (nz handler) || nz (zget 0 handlers vector) then (false, handlers)
  else (true, zset handlers vector handler).

Definition interrupt_unregister (handlers : list Z) (vector handler : Z) : bool * list Z :=
  if negb (nz handler) || (zget 0 handlers vector !=? handler) then (false, handlers)
  else (true, zset handlers vector 0).

(** ** Serial port (src/serial.c) *)

Definition COM1_PORT : Z := 0x3F8.

(** Returns [uart_available]. *)
Definition serial_init hw : bool * D :=
  let hw := cpu_out8 hw (COM1_PORT + 1) 0x00 in
  let hw := cpu_out8 hw (COM1_PORT + 3) 0x80 in
  let hw := cpu_out8 hw (COM1_PORT + 0) 0x01 in
  let hw := cpu_out8 hw (COM1_PORT + 1) 0x00 in
  let hw := cpu_out8 hw (COM1_PORT + 3) 0x03 in
  let hw := cpu_out8 hw (COM1_PORT + 2) 0xC7 in
  let hw := cpu_out8 hw (COM1_PORT + 4) 0x03 in
  let hw := cpu_out8 hw (COM1_PORT + 7) 0x5A in
  let '(v, hw) := cpu_in8 hw (COM1_PORT + 7) in
  (v =? 0x5A, hw).

Definition serial_getc_nonblocking (uart_available : bool) hw : Z * D :=
  if negb uart_available then (-1, hw)
  else
    let '(status, hw) := cpu_in8 hw (COM1_PORT + 5) in
    if negb (nz (status & 0x01)) then (-1, hw)
    else
      let '(value, hw) := cpu_in8 hw COM1_PORT in
      (if value =? 127 then 8 else value, hw).

(** ** Local and I/O APIC (src/apic.c) *)

Definition IA32_APIC_BASE_MSR : Z := 0x1B.
Definition APIC_ENABLE : Z := 1 << 11.
Definition APIC_X2_MODE : Z := 1 << 10.
Definition APIC_TPR : Z := 0x080.
Definition APIC_ID : Z := 0x020.
Definition APIC_EOI : Z := 0x0B0.
Definition APIC_SVR : Z := 0x0F0.
Definition APIC_LVT_TIMER : Z := 0x320.
Definition APIC_INITIAL_COUNT : Z := 0x380.
Definition APIC_DIVIDE_CONFIG : Z := 0x3E0.
Definition IOAPIC_REDIRECT_WRITABLE_LOW : Z := 0x1AFFF.

(** The module's static variables. *)
Record apic_state := mk_apic { lapic : Z; x2apic_mode : bool; timer_ticks : Z }.

Definition apic_read (a : apic_state) hw (offset : Z) : Z * D :=
  if x2apic_mode a then let '(v, hw) := cpu_rdmsr hw (0x800 + offset / 16) in (u32 v, hw)
  else mmio_read hw (lapic a + 4 * (offset / 4)).

Definition apic_write (a : apic_state) hw (offset value : Z) : D :=
  if x2apic_mode a then cpu_wrmsr hw (0x800 + offset / 16) value
  else mmio_write hw (lapic a + 4 * (offset / 4)) value.

Definition ioapic_read hw (ioapic reg : Z) : Z * D :=
  let hw := mmio_write hw ioapic reg in mmio_read hw (ioapic + 16).

Definition ioapic_write hw (ioapic reg value : Z) : D :=
  let hw := mmio_write hw ioapic reg in mmio_write hw (ioapic + 16) value.

(** [timer_handler] is the address of the static handler. *)
Definition apic_init (timer_handler : Z) (a : apic_state) (handlers : list Z) hw (acpi : option acpi_info_t)
    : Z * (apic_state * list Z * D) :=
  match acpi with
  | None => (0, (a, handlers, hw))
  | Some acpi =>
      if negb (nz (acpi_local_apic_address acpi)) then (0, (a, handlers, hw))
      else
        let '(registered, handlers) := interrupt_register handlers ARGUS_APIC_TIMER_VECTOR timer_handler in
        if negb registered then (0, (a, handlers, hw))
        else
          let '(apic_base, hw) := cpu_rdmsr hw IA32_APIC_BASE_MSR in
          let a := mk_apic (acpi_local_apic_address acpi) (nz (apic_base & APIC_X2_MODE)) 0 in
          let hw := cpu_wrmsr hw IA32_APIC_BASE_MSR (Z.lor apic_base APIC_ENABLE) in
          let hw := apic_write a hw APIC_TPR 0 in
          let hw := apic_write a hw APIC_SVR (Z.lor 0x100 ARGUS_APIC_SPURIOUS_VECTOR) in
          let hw := apic_write a hw APIC_DIVIDE_CONFIG 0x3 in
          let hw := apic_write a hw APIC_LVT_TIMER (Z.lor 0x20000 ARGUS_APIC_TIMER_VECTOR) in
          let hw := apic_write a hw APIC_INITIAL_COUNT 1000000 in
          let '(svr, hw) := apic_read a hw APIC_SVR in
          (svr & 0x100, (a, handlers, hw))
  end.

(** The conditions [apic_route_gsi] checks before it touches a register. *)
Definition route_rejected (a : apic_state) (acpi : acpi_info_t) (gsi flags vector : Z) : bool :=
  negb (nz (acpi_io_apic_address acpi)) || negb (nz (lapic a)) || (vector <? 32) ||
  (vector =? ARGUS_APIC_SPURIOUS_VECTOR) || (gsi <? acpi_io_apic_gsi_base acpi) ||
  ((flags & 3) =? 2) || (((flags >> 2) & 3) =? 2).

(** [low |= ...]: the low word of the redirection entry. *)
Definition route_low (flags vector : Z) : Z :=
  let low := vector in
  let low := if (flags & 3) =? 3 then Z.lor low (1 << 13) else low in
  if ((flags >> 2) & 3) =? 3 then Z.lor low (1 << 15) else low.

Definition apic_route_gsi (a : apic_state) hw (acpi : option acpi_info_t) (gsi flags vector : Z) : bool * D :=
  match acpi with
  | None => (false, hw)
  | Some acpi =>
      if route_rejected a acpi gsi flags vector then (false, hw)
      else
        let ioapic := acpi_io_apic_address acpi in
        let redirection := gsi - acpi_io_apic_gsi_base acpi in
        let '(version, hw) := ioapic_read hw ioapic 1 in
        let maximum := (version >> 16) & 0xFF in
        if (maximum <? redirection) || (119 <? redirection) then (false, hw)
        else
          let '(apic_id, hw) := apic_read a hw APIC_ID in
          let apic_id := if negb (x2apic_mode a) then apic_id >> 24 else apic_id in
          if 0xFF <? apic_id then (false, hw)
          else
            let low := route_low flags vector in
            let low_register := u8 (0x10 + redirection * 2) in
            let hw := ioapic_write hw ioapic low_register (1 << 16) in
            let hw := ioapic_write hw ioapic (u8 (low_register + 1)) (u32 (apic_id << 24)) in
            let hw := ioapic_write hw ioapic low_register low in
            let '(readback, hw) := ioapic_read hw ioapic low_register in
            if (readback & IOAPIC_REDIRECT_WRITABLE_LOW) !=? low
            then (false, ioapic_write hw ioapic low_register (Z.lor low (1 << 16)))
            else (true, hw)
  end.

Definition apic_eoi (a : apic_state) hw : D := apic_write a hw APIC_EOI 0.

Definition apic_timer_interrupt (a : apic_state) hw : apic_state * D :=
  let a := mk_apic (lapic a) (x2apic_mode a) (u64 (timer_ticks a + 1)) in
  (a, apic_eoi a hw).

Definition apic_timer_ticks (a : apic_state) : Z := timer_ticks a.

End devices.

(** ** An I/O APIC

    The documented behaviour of the device's two windows: a write to the select
    register (at offset 0) chooses a register, the data window (at offset 16)
    reads and writes the chosen one.  The local APIC is a plain array of
    registers elsewhere in memory. *)
Class IoApic (D : Type) `{Hardware D} (ioapic : Z) (select : D -> Z) (reg : D -> Z -> Z) := {
  io_select : forall hw v, select (hw_store32 hw ioapic v) = v;
  io_select_reg : forall hw v r, reg (hw_store32 hw ioapic v) r = reg hw r;
  io_write : forall hw v r, reg (hw_store32 hw (ioapic + 16) v) r = if r =? select hw then v else reg hw r;
  io_write_select : forall hw v, select (hw_store32 hw (ioapic + 16) v) = select hw;
  io_read : forall hw, fst (hw_load32 hw (ioapic + 16)) = reg hw (select hw);
  io_read_reg : forall hw a r, reg (snd (hw_load32 hw a)) r = reg hw r;
  io_read_select : forall hw a, select (snd (hw_load32 hw a)) = select hw;
  io_msr_reg : forall hw m r, reg (snd (hw_rdmsr hw m)) r = reg hw r }.

Section routing.
Context {D : Type} `{IoApic D ioapic select reg}.
Implicit Types hw : D.

Lemma ioapic_write_reg hw r v q :
  0 <= r <= UINT32_MAX -> 0 <= v <= UINT32_MAX -> reg (ioapic_write hw ioapic r v) q = if q =? r then v else reg hw q.
Proof.
  intros Hr Hv. unfold ioapic_write, mmio_write. cbv zeta. rewrite io_write, io_select, io_select_reg, !u32_id by done. done.
Qed.

Lemma ioapic_read_reg hw r q : reg (snd (ioapic_read hw ioapic r)) q = reg hw q.
Proof.
  unfold ioapic_read, mmio_read, mmio_write. cbv zeta. set (hw1 := hw_store32 _ _ _).
  pose proof (io_read_reg hw1 (ioapic + 16) q) as E. destruct (hw_load32 hw1 (ioapic + 16)). cbn [snd] in *.
  rewrite E. apply io_select_reg.
Qed.

Lemma ioapic_read_value hw r : 0 <= r <= UINT32_MAX -> fst (ioapic_read hw ioapic r) = u32 (reg hw r).
Proof.
  intros Hr. unfold ioapic_read, mmio_read, mmio_write. cbv zeta. rewrite u32_id by done. set (hw1 := hw_store32 _ _ _).
  pose proof (io_read hw1) as E. destruct (hw_load32 hw1 (ioapic + 16)). cbn [fst] in *. rewrite E. unfold hw1.
  by rewrite io_select, io_select_reg.
Qed.

Lemma apic_read_reg a hw offset q : reg (snd (apic_read a hw offset)) q = reg hw q.
Proof.
  unfold apic_read, cpu_rdmsr, mmio_read. destruct (x2apic_mode a).
  - pose proof (io_msr_reg hw (0x800 + offset / 16) q) as E. by destruct (hw_rdmsr hw _).
  - pose proof (io_read_reg hw (lapic a + 4 * (offset / 4)) q) as E. by destruct (hw_load32 hw _).
Qed.

(** Facts about every byte, by enumeration. *)
Lemma all_bytes (p : Z -> bool) : forallb p (zrange 0 256) = true -> forall v, 0 <= v < 256 -> p v = true.
Proof.
  intros Hp v Hv. rewrite forallb_forall in Hp. apply Hp, list_elem_of_In, elem_of_zrange. lia.
Qed.

(** The low word has no bits outside the writable ones and the mask bit clear. *)
Lemma route_low_bits flags vector :
  0 <= vector < 256 ->
  0 <= route_low flags vector < 65536 /\ route_low flags vector & IOAPIC_REDIRECT_WRITABLE_LOW = route_low flags vector.
Proof.
  intros Hv. unfold route_low.
  enough (forall b1 b2 : bool, let low := if b1 then Z.lor vector (1 << 13) else vector in
    let low := if b2 then Z.lor low (1 << 15) else low in
    (0 <=? low) && (low <? 65536) && ((low & IOAPIC_REDIRECT_WRITABLE_LOW) =? low) = true) as Hall.
  { specialize (Hall (flags & 3 =? 3) ((flags >> 2) & 3 =? 3)). cbv zeta in Hall. b2p. lia. }
  intros b1 b2. cbv zeta. revert vector Hv. destruct b1, b2; apply all_bytes; vm_compute; reflexivity.
Qed.

(** On an I/O APIC, [apic_route_gsi] programs exactly one redirection entry.
    When it succeeds the entry's low word has the vector with the polarity and
    trigger the flags ask for, unmasked, and its high word names a destination of
    eight bits; when it fails before programming, nothing changed; no register
    of another entry ever changes. *)
Theorem route_gsi_exact a hw acpi gsi flags vector :
  acpi_io_apic_address acpi = ioapic -> 0 <= gsi <= UINT32_MAX -> 0 <= acpi_io_apic_gsi_base acpi -> 0 <= vector < 256 ->
  let low := 0x10 + 2 * (gsi - acpi_io_apic_gsi_base acpi) in
  let '(b, hw') := apic_route_gsi a hw (Some acpi) gsi flags vector in
  (b = true -> 32 <= vector /\ vector <> ARGUS_APIC_SPURIOUS_VECTOR /\ reg hw' low = route_low flags vector
               /\ exists id, 0 <= id <= 0xFF /\ reg hw' (low + 1) = u32 (id << 24))
  /\ (b = false -> forall q, reg hw' q = reg hw q)
  /\ (forall q, q <> low -> q <> low + 1 -> reg hw' q = reg hw q).
Proof.
  intros Hio Hgsi Hbase Hv low. unfold apic_route_gsi. rewrite Hio.
  destruct (route_rejected a acpi gsi flags vector) eqn:Er; [done|]. unfold route_rejected in Er. b2p.
  pose proof (ioapic_read_reg hw 1) as R1. destruct (ioapic_read hw ioapic 1) as [version hw1]. cbn [snd] in R1.
  case_if; [by split_and!|]. b2p.
  pose proof (apic_read_reg a hw1 APIC_ID) as R2.
  assert (0 <= fst (apic_read a hw1 APIC_ID)) as Hid0.
  { unfold apic_read, cpu_rdmsr, mmio_read. destruct (x2apic_mode a); [destruct (hw_rdmsr _ _)|destruct (hw_load32 _ _)];
      apply u32_range. }
  destruct (apic_read a hw1 APIC_ID) as [id0 hw2]. cbn [fst snd] in *.
  set (id := if negb (x2apic_mode a) then id0 >> 24 else id0).
  assert (0 <= id) as Hid by (unfold id; case_if; [apply Z.shiftr_nonneg|]; lia). clearbody id.
  case_if; [split_and!; [done|intros _ q|intros q _ _]; by rewrite R2, R1|]. b2p. cbv zeta.
  destruct (route_low_bits flags vector Hv) as [Hlow Hmask].
  rewrite !(u8_id (0x10 + (gsi - acpi_io_apic_gsi_base acpi) * 2)) by lia. rewrite u8_id by lia.
  replace (0x10 + (gsi - acpi_io_apic_gsi_base acpi) * 2) with low by (unfold low; lia).
  assert (0 <= low <= UINT32_MAX /\ 0 <= low + 1 <= UINT32_MAX) as [Hl0 Hl1] by (unfold low, UINT32_MAX; lia).
  pose proof (u32_range (id << 24)) as Hhi.
  set (hw5 := ioapic_write _ _ low (route_low flags vector)).
  assert (forall q, reg hw5 q = if q =? low then route_low flags vector else if q =? low + 1 then u32 (id << 24) else reg hw q) as R5.
  { intros q. unfold hw5. change (1 << 16) with 65536.
    rewrite !ioapic_write_reg by (done || (unfold UINT32_MAX; lia)). destruct (Z.eqb_spec q low); [done|]. by rewrite R2, R1. }
  pose proof (ioapic_read_reg hw5 low) as R6. pose proof (ioapic_read_value hw5 low Hl0) as V6.
  destruct (ioapic_read hw5 ioapic low) as [readback hw6]. cbn [fst snd] in *.
  rewrite R5, Z.eqb_refl, u32_id in V6 by (unfold UINT32_MAX; lia).
  assert (forall q, reg hw6 q = if q =? low then route_low flags vector else if q =? low + 1 then u32 (id << 24) else reg hw q)
    as Rq by (intros q; by rewrite R6).
  assert (forall q, q <> low -> q <> low + 1 -> reg hw6 q = reg hw q) as Hother.
  { intros q Hq1 Hq2. rewrite Rq. by destruct (Z.eqb_spec q low), (Z.eqb_spec q (low + 1)). }
  subst readback. rewrite Hmask.
  rewrite Z.eqb_refl. cbn [negb]. split_and!; [|done|done]. intros _. split_and!; [lia|done| |].
  - by rewrite Rq, Z.eqb_refl.
  - exists id. split; [lia|]. rewrite Rq, Z.eqb_refl. by destruct (Z.eqb_spec (low + 1) low); [lia|].
Qed.
End routing.

(** ** A machine with an I/O APIC of 24 entries *)

Record board := mk_board { bd_select : Z; bd_regs : Z -> Z }.
Definition board_ioapic : Z := 0xFEC00000.
#[export] Instance board_hardware : Hardware board := {
  hw_in8 b _ := (0xFF, b);
  hw_out8 b _ _ := b;
  hw_in32 b _ := (UINT32_MAX, b);
  hw_out16 b _ _ := b;
  hw_out32 b _ _ := b;
  hw_rdmsr b _ := (0, b);
  hw_wrmsr b _ _ := b;
  hw_load32 b a := (if a =? board_ioapic + 16 then bd_regs b (bd_select b) else 0, b);
  hw_store32 b a v :=
    if a =? board_ioapic then mk_board v (bd_regs b)
    else if a =? board_ioapic + 16
    then mk_board (bd_select b) (fun r => if r =? bd_select b then v else bd_regs b r)
    else b }.

#[export] Instance board_has_ioapic : IoApic board board_ioapic bd_select bd_regs.
Proof. by constructor. Qed.

Definition sample_board : board := mk_board 0 (fun r => if r =? 1 then 0x170011 else 0x10000).
Definition sample_acpi : acpi_info_t := mk_acpi 0xFEE00000 board_ioapic 0 1 12 1 0 1 0 0.

Lemma route_gsi_exact_witness :
  bd_regs (snd (apic_route_gsi (mk_apic 0xFEE00000 false 0) sample_board (Some sample_acpi) 1 0 0x41)) 0x12 = 0x41.
Proof.
  pose proof (route_gsi_exact (mk_apic 0xFEE00000 false 0) sample_board sample_acpi 1 0 0x41) as H.
  assert (fst (apic_route_gsi (mk_apic 0xFEE00000 false 0) sample_board (Some sample_acpi) 1 0 0x41) = true) as E
    by (vm_compute; reflexivity).
  destruct (apic_route_gsi _ _ _ _ _ _) as [b hw']. cbn [fst snd] in *.
  destruct H as (Hb & _); [reflexivity|unfold UINT32_MAX; lia|cbn; lia|lia|]. destruct (Hb E) as (_ & _ & Hr & _). exact Hr.
Defined.
