(* ===== verification/Ps2.v ===== *)
(** * PS/2 keyboard and mouse (src/ps2.c, src/input_keys.h)

    The scan-code and mouse-packet decoders, the two input queues between the
    interrupt handler and the readers, and the controller's set-up sequences over
    the machine of Devices.v. *)

From stdpp Require Import base list gmap numbers.
From Stdlib Require Import ZArith Lia.
From S2P Require Import Prelude Memory Ring BootInfo Allocator Pmm Paging Scheduler Devices.

Open Scope Z_scope.

Definition PS2_DATA_PORT : Z := 0x60.
Definition PS2_STATUS_PORT : Z := 0x64.
Definition PS2_KEY_QUEUE_CAPACITY : Z := 64.
Definition PS2_MOUSE_QUEUE_CAPACITY : Z := 32.
Definition ARGUS_PS2_KEYBOARD_VECTOR : Z := 0x41.
Definition ARGUS_PS2_MOUSE_VECTOR : Z := 0x42.

Definition ARGUS_KEY_UP : Z := 0x80.
Definition ARGUS_KEY_DOWN : Z := 0x81.
Definition ARGUS_KEY_LEFT : Z := 0x82.
Definition ARGUS_KEY_RIGHT : Z := 0x83.
Definition ARGUS_KEY_ESCAPE : Z := 0x84.

(** ** State *)

Record ps2_mouse_event_t := mk_event { ev_dx : Z; ev_dy : Z; ev_buttons : Z }.
Definition event0 : ps2_mouse_event_t := mk_event 0 0 0.

Record keyboard_state := mk_keyboard {
  left_shift : bool;
  right_shift : bool;
  caps_lock : bool;
  extended_prefix : bool }.

(** A queue with its head, tail and count of dropped elements. *)
Record queue_state (A : Type) := mk_queue { q_cells : list A; q_head : Z; q_tail : Z; q_dropped : Z }.
Arguments mk_queue {A}.
Arguments q_cells {A}.
Arguments q_head {A}.
Arguments q_tail {A}.
Arguments q_dropped {A}.

Record mouse_state := mk_mouse { mouse_packet : list Z; mouse_packet_index : Z; mouse_packets : Z }.

Record ps2_state := mk_ps2 {
  controller_available : bool;
  keyboard_available : bool;
  keyboard_irq_online : bool;
  mouse_available : bool;
  mouse_irq_online : bool;
  keyboard : keyboard_state;
  keys : queue_state Z;
  mouse : mouse_state;
  mouse_events : queue_state ps2_mouse_event_t }.

Definition set_keyboard_part (s : ps2_state) kb q :=
  mk_ps2 (controller_available s) (keyboard_available s) (keyboard_irq_online s) (mouse_available s) (mouse_irq_online s)
    kb q (mouse s) (mouse_events s).
Definition set_mouse_part (s : ps2_state) ms q :=
  mk_ps2 (controller_available s) (keyboard_available s) (keyboard_irq_online s) (mouse_available s) (mouse_irq_online s)
    (keyboard s) (keys s) ms q.
Definition set_available (s : ps2_state) controller kb kb_irq ms ms_irq :=
  mk_ps2 controller kb kb_irq ms ms_irq (keyboard s) (keys s) (mouse s) (mouse_events s).

(** ** Scan codes *)

Definition letters : list Z :=
  replicate 16 0 ++ [113; 119; 101; 114; 116; 121; 117; 105; 111; 112; 0; 0; 0; 0;
                     97; 115; 100; 102; 103; 104; 106; 107; 108; 0; 0; 0; 0; 0;
                     122; 120; 99; 118; 98; 110; 109].
(** The two literals with their terminating zero: [sizeof(normal)] is 17. *)
Definition normal : list Z := [0; 0; 49; 50; 51; 52; 53; 54; 55; 56; 57; 48; 45; 61; 0; 0; 0].
Definition upper : list Z := [0; 0; 33; 64; 35; 36; 37; 94; 38; 42; 40; 41; 95; 43; 0; 0; 0].

Definition translate_letter (scan_code : Z) (shifted : bool) : Z :=
  if (Z.of_nat (length letters) <=? scan_code) || negb (nz (zget 0 letters scan_code)) then 0
  else
    let value := zget 0 letters scan_code in
    if shifted then value - 97 + 65 else value.

Definition translate_symbol (scan_code : Z) (shifted : bool) : Z :=
  if Z.of_nat (length normal) <=? scan_code then 0
  else
    let value := if shifted then zget 0 upper scan_code else zget 0 normal scan_code in
    if nz value then value
    else if scan_code =? 0x1A then (if shifted then 123 else 91)
    else if scan_code =? 0x1B then (if shifted then 125 else 93)
    else if scan_code =? 0x27 then (if shifted then 58 else 59)
    else if scan_code =? 0x28 then (if shifted then 34 else 39)
    else if scan_code =? 0x29 then (if shifted then 126 else 96)
    else if scan_code =? 0x2B then (if shifted then 124 else 92)
    else if scan_code =? 0x33 then (if shifted then 60 else 44)
    else if scan_code =? 0x34 then (if shifted then 62 else 46)
    else if scan_code =? 0x35 then (if shifted then 63 else 47)
    else 0.

Definition decode_scan_code (k : keyboard_state) (scan_code : Z) : Z * keyboard_state :=
  if scan_code =? 0xE0 then (-1, mk_keyboard (left_shift k) (right_shift k) (caps_lock k) true)
  else if extended_prefix k then
    let k := mk_keyboard (left_shift k) (right_shift k) (caps_lock k) false in
    let released := nz (scan_code & 0x80) in
    let scan_code := scan_code & 0x7F in
    if released then (-1, k)
    else if scan_code =? 0x48 then (ARGUS_KEY_UP, k)
    else if scan_code =? 0x50 then (ARGUS_KEY_DOWN, k)
    else if scan_code =? 0x4B then (ARGUS_KEY_LEFT, k)
    else if scan_code =? 0x4D then (ARGUS_KEY_RIGHT, k)
    else (-1, k)
  else
    let released := nz (scan_code & 0x80) in
    let scan_code := scan_code & 0x7F in
    if scan_code =? 0x2A then (-1, mk_keyboard (negb released) (right_shift k) (caps_lock k) (extended_prefix k))
    else if scan_code =? 0x36 then (-1, mk_keyboard (left_shift k) (negb released) (caps_lock k) (extended_prefix k))
    else if released then (-1, k)
    else if scan_code =? 0x01 then (ARGUS_KEY_ESCAPE, k)
    else if scan_code =? 0x3A then (-1, mk_keyboard (left_shift k) (right_shift k) (negb (caps_lock k)) (extended_prefix k))
    else if scan_code =? 0x1C then (10, k)
    else if scan_code =? 0x0E then (8, k)
    else if scan_code =? 0x0F then (9, k)
    else if scan_code =? 0x39 then (32, k)
    else
      let shifted := left_shift k || right_shift k in
      let letter := translate_letter scan_code (xorb shifted (caps_lock k)) in
      if nz letter then (letter, k)
      else
        let symbol := translate_symbol scan_code shifted in
        (if nz symbol then symbol else -1, k).

(** ** Queues

    The producer is the interrupt handler and the consumer the reading code; a
    step of the producer is never interrupted by the consumer. *)

Definition queue_next (capacity index : Z) : Z := u8 (u32 (index + 1) & (capacity - 1)).

Definition queue_push {A} (capacity : Z) (q : queue_state A) (element : A) : queue_state A :=
  let head := q_head q in
  let next := queue_next capacity head in
  if next =? q_tail q then mk_queue (q_cells q) (q_head q) (q_tail q) (u64 (q_dropped q + 1))
  else mk_queue (zset (q_cells q) head element) next (q_tail q) (q_dropped q).

Definition queue_pop {A} (d : A) (capacity : Z) (q : queue_state A) : option A * queue_state A :=
  let tail := q_tail q in
  if tail =? q_head q then (None, q)
  else (Some (zget d (q_cells q) tail), mk_queue (q_cells q) (q_head q) (queue_next capacity tail) (q_dropped q)).

Definition queue_key (q : queue_state Z) (character : Z) : queue_state Z := queue_push PS2_KEY_QUEUE_CAPACITY q character.
Definition dequeue_key (q : queue_state Z) : Z * queue_state Z :=
  let '(character, q) := queue_pop 0 PS2_KEY_QUEUE_CAPACITY q in (default (-1) character, q).
Definition queue_mouse_event (q : queue_state ps2_mouse_event_t) (event : ps2_mouse_event_t) :=
  queue_push PS2_MOUSE_QUEUE_CAPACITY q event.
Definition dequeue_mouse_event (q : queue_state ps2_mouse_event_t) := queue_pop event0 PS2_MOUSE_QUEUE_CAPACITY q.

(** ** Mouse packets *)

(** The event of a complete packet: 16-bit arithmetic on bytes never wraps. *)
Definition packet_event (packet : list Z) : ps2_mouse_event_t :=
  let dx := if nz (zget 0 packet 0 & 0x10) then zget 0 packet 1 - 256 else zget 0 packet 1 in
  let raw_dy := if nz (zget 0 packet 0 & 0x20) then zget 0 packet 2 - 256 else zget 0 packet 2 in
  mk_event dx (- raw_dy) (u8 (zget 0 packet 0 & 0x07)).

Definition decode_mouse_byte (ms : mouse_state) (q : queue_state ps2_mouse_event_t) (value : Z)
    : mouse_state * queue_state ps2_mouse_event_t :=
  if negb (nz (mouse_packet_index ms)) && negb (nz (value & 0x08)) then (ms, q)
  else
    let packet := zset (mouse_packet ms) (mouse_packet_index ms) value in
    let index := u8 (mouse_packet_index ms + 1) in
    if index <? 3 then (mk_mouse packet index (mouse_packets ms), q)
    else
      let ms := mk_mouse packet 0 (u64 (mouse_packets ms + 1)) in
      if nz (zget 0 packet 0 & 0xC0) then (ms, q)
      else (ms, queue_mouse_event q (packet_event packet)).

(** ** Routing *)

Definition route_data_byte (s : ps2_state) (status value : Z) : ps2_state :=
  if nz (status & 0x20) then
    if mouse_available s
    then let '(ms, q) := decode_mouse_byte (mouse s) (mouse_events s) value in set_mouse_part s ms q
    else s
  else if negb (keyboard_available s) then s
  else
    let '(character, k) := decode_scan_code (keyboard s) value in
    set_keyboard_part s k (if 0 <=? character then queue_key (keys s) (u8 character) else keys s).

(** ** The controller *)

Section controller.
Context {D : Type} `{Hardware D}.
Implicit Types hw : D.

Fixpoint drain_loop (count : nat) (s : ps2_state) hw : ps2_state * D :=
  match count with
  | O => (s, hw)
  | S count' =>
      let '(status, hw) := cpu_in8 hw PS2_STATUS_PORT in
      if negb (nz (status & 1)) then (s, hw)
      else
        let '(value, hw) := cpu_in8 hw PS2_DATA_PORT in
        drain_loop count' (route_data_byte s status value) hw
  end.
Definition drain_controller (s : ps2_state) hw : ps2_state * D := drain_loop 64 s hw.

(** [for (spin < limit) if (test(status)) return 1;] *)
Fixpoint spin_until (spins : nat) (test : Z -> bool) hw : bool * D :=
  match spins with
  | O => (false, hw)
  | S spins' =>
      let '(status, hw) := cpu_in8 hw PS2_STATUS_PORT in
      if test status then (true, hw) else spin_until spins' test hw
  end.
Definition wait_input_empty hw : bool * D := spin_until (Z.to_nat 100000) (fun status => negb (nz (status & 2))) hw.
Definition wait_output_full hw : bool * D := spin_until (Z.to_nat 100000) (fun status => nz (status & 1)) hw.

Definition controller_command hw (command : Z) : bool * D :=
  let '(ready, hw) := wait_input_empty hw in
  if negb ready then (false, hw) else (true, cpu_out8 hw PS2_STATUS_PORT command).

Definition controller_read_byte hw : option Z * D :=
  let '(ready, hw) := wait_output_full hw in
  if negb ready then (None, hw) else let '(value, hw) := cpu_in8 hw PS2_DATA_PORT in (Some value, hw).

Definition controller_read_config hw : option Z * D :=
  let '(sent, hw) := controller_command hw 0x20 in
  if negb sent then (None, hw) else controller_read_byte hw.

Definition controller_write_config hw (configuration : Z) : bool * D :=
  let '(sent, hw) := controller_command hw 0x60 in
  if negb sent then (false, hw)
  else
    let '(ready, hw) := wait_input_empty hw in
    if negb ready then (false, hw) else (true, cpu_out8 hw PS2_DATA_PORT configuration).

Definition configure_keyboard_port hw : bool * D :=
  let '(sent, hw) := controller_command hw 0xAE in
  if negb sent then (false, hw)
  else
    let '(configuration, hw) := controller_read_config hw in
    match configuration with
    | None => (false, hw)
    | Some configuration =>
        let configuration := u8 (Z.lor configuration (Z.lor 1 (1 << 6))) in
        controller_write_config hw (configuration & u8 (Z.lnot (1 << 4)))
    end.

Fixpoint mouse_response_loop (spins : nat) (s : ps2_state) hw : option Z * (ps2_state * D) :=
  match spins with
  | O => (None, (s, hw))
  | S spins' =>
      let '(status, hw) := cpu_in8 hw PS2_STATUS_PORT in
      if negb (nz (status & 1)) then mouse_response_loop spins' s hw
      else
        let '(value, hw) := cpu_in8 hw PS2_DATA_PORT in
        if nz (status & 0x20) then (Some value, (s, hw))
        else mouse_response_loop spins' (route_data_byte s status value) hw
  end.
Definition read_mouse_response (s : ps2_state) hw := mouse_response_loop (Z.to_nat 200000) s hw.

Fixpoint mouse_command_loop (attempts : nat) (s : ps2_state) hw (command : Z) : bool * (ps2_state * D) :=
  match attempts with
  | O => (false, (s, hw))
  | S attempts' =>
      let '(sent, hw) := controller_command hw 0xD4 in
      if negb sent then (false, (s, hw))
      else
        let '(ready, hw) := wait_input_empty hw in
        if negb ready then (false, (s, hw))
        else
          let hw := cpu_out8 hw PS2_DATA_PORT command in
          let '(response, (s, hw)) := read_mouse_response s hw in
          match response with
          | None => (false, (s, hw))
          | Some response =>
              if response =? 0xFA then (true, (s, hw))
              else if response !=? 0xFE then (false, (s, hw))
              else mouse_command_loop attempts' s hw command
          end
  end.
Definition send_mouse_command (s : ps2_state) hw (command : Z) := mouse_command_loop 3 s hw command.

Definition configure_mouse_port (s : ps2_state) hw : bool * (ps2_state * D) :=
  let '(ok, hw) := controller_command hw 0xA8 in
  if negb ok then (false, (s, hw)) else
  let '(ok, hw) := controller_command hw 0xA9 in
  if negb ok then (false, (s, hw)) else
  let '(response, hw) := controller_read_byte hw in
  if match response with Some r => nz r | None => true end then (false, (s, hw)) else
  let '(configuration, hw) := controller_read_config hw in
  match configuration with
  | None => (false, (s, hw))
  | Some configuration =>
      let configuration := u8 (Z.lor configuration (1 << 1)) in
      let '(ok, hw) := controller_write_config hw (configuration & u8 (Z.lnot (1 << 5))) in
      if negb ok then (false, (s, hw))
      else
        let '(ok, (s, hw)) := send_mouse_command s hw 0xF6 in
        if negb ok then (false, (s, hw)) else send_mouse_command s hw 0xF4
  end.

(** The handler of both vectors. *)
Definition ps2_interrupt (a : apic_state) (s : ps2_state) hw : ps2_state * D :=
  let '(s, hw) := drain_controller s hw in (s, apic_eoi a hw).

(** [for (i < 32u && (status & 1u)) (void)cpu_in8(PS2_DATA_PORT);] *)
Fixpoint discard_loop (count : nat) hw : D :=
  match count with
  | O => hw
  | S count' =>
      let '(status, hw) := cpu_in8 hw PS2_STATUS_PORT in
      if negb (nz (status & 1)) then hw
      else let '(_, hw) := cpu_in8 hw PS2_DATA_PORT in discard_loop count' hw
  end.

(** [ps2_handler] is the address of [ps2_interrupt]. *)
Definition ps2_keyboard_init (ps2_handler : Z) (a : apic_state) (s : ps2_state) (handlers : list Z) hw
    (acpi : option acpi_info_t) : bool * (ps2_state * list Z * D) :=
  let s := set_available s false false false (mouse_available s) (mouse_irq_online s) in
  let '(status, hw) := cpu_in8 hw PS2_STATUS_PORT in
  if status =? 0xFF then (false, (s, handlers, hw))
  else
    let hw := discard_loop 32 hw in
    let s := set_keyboard_part s (mk_keyboard false false false false) (mk_queue (q_cells (keys s)) 0 0 0) in
    let s := set_available s true true false (mouse_available s) (mouse_irq_online s) in
    match acpi with
    | None => (true, (s, handlers, hw))
    | Some info =>
        let '(registered, handlers) := interrupt_register handlers ARGUS_PS2_KEYBOARD_VECTOR ps2_handler in
        if negb registered then (true, (s, handlers, hw))
        else
          let '(configured, hw) := configure_keyboard_port hw in
          let '(routed, hw) := if configured
            then apic_route_gsi a hw acpi (acpi_keyboard_gsi info) (acpi_keyboard_flags info) ARGUS_PS2_KEYBOARD_VECTOR
            else (false, hw) in
          if routed
          then (true, (set_available s true true true (mouse_available s) (mouse_irq_online s), handlers, hw))
          else (true, (s, snd (interrupt_unregister handlers ARGUS_PS2_KEYBOARD_VECTOR ps2_handler), hw))
    end.

Definition ps2_mouse_init (ps2_handler : Z) (a : apic_state) (s : ps2_state) (handlers : list Z) hw
    (acpi : option acpi_info_t) : bool * (ps2_state * list Z * D) :=
  let s := set_available s (controller_available s) (keyboard_available s) (keyboard_irq_online s) false false in
  let s := set_mouse_part s (mk_mouse (mouse_packet (mouse s)) 0 0) (mk_queue (q_cells (mouse_events s)) 0 0 0) in
  if negb (controller_available s) then (false, (s, handlers, hw))
  else
    let '(configured, (s, hw)) := configure_mouse_port s hw in
    if negb configured then (false, (s, handlers, hw))
    else
      let s := set_available s (controller_available s) (keyboard_available s) (keyboard_irq_online s) true false in
      match acpi with
      | None => (true, (s, handlers, hw))
      | Some info =>
          let '(registered, handlers) := interrupt_register handlers ARGUS_PS2_MOUSE_VECTOR ps2_handler in
          if negb registered then (true, (s, handlers, hw))
          else
            let '(routed, hw) := apic_route_gsi a hw acpi (acpi_mouse_gsi info) (acpi_mouse_flags info) ARGUS_PS2_MOUSE_VECTOR in
            if routed
            then (true, (set_available s (controller_available s) (keyboard_available s) (keyboard_irq_online s) true true, handlers, hw))
            else (true, (s, snd (interrupt_unregister handlers ARGUS_PS2_MOUSE_VECTOR ps2_handler), hw))
      end.

Definition ps2_getc_nonblocking (s : ps2_state) hw : Z * (ps2_state * D) :=
  if negb (keyboard_available s) then (-1, (s, hw))
  else
    let '(s, hw) := if negb (keyboard_irq_online s) then drain_controller s hw else (s, hw) in
    let '(character, q) := dequeue_key (keys s) in
    (character, (set_keyboard_part s (keyboard s) q, hw)).

Definition ps2_mouse_get_event (s : ps2_state) hw : option ps2_mouse_event_t * (ps2_state * D) :=
  if negb (mouse_available s) then (None, (s, hw))
  else
    let '(s, hw) := if negb (mouse_irq_online s) then drain_controller s hw else (s, hw) in
    let '(event, q) := dequeue_mouse_event (mouse_events s) in
    (event, (set_mouse_part s (mouse s) q, hw)).

(** src/input.c: the serial port first, then the keyboard. *)
Definition input_getc_nonblocking (uart_available : bool) (s : ps2_state) hw : Z * (ps2_state * D) :=
  let '(value, hw) := serial_getc_nonblocking uart_available hw in
  if 0 <=? value then (value, (s, hw)) else ps2_getc_nonblocking s hw.

Definition input_init (ps2_handler : Z) (a : apic_state) (s : ps2_state) (handlers : list Z) hw
    (acpi : option acpi_info_t) : ps2_state * list Z * D :=
  let '(_, (s, handlers, hw)) := ps2_keyboard_init ps2_handler a s handlers hw acpi in
  let '(_, (s, handlers, hw)) := ps2_mouse_init ps2_handler a s handlers hw acpi in
  (s, handlers, hw).

Definition input_pointer_event_nonblocking (s : ps2_state) hw : option ps2_mouse_event_t * (ps2_state * D) :=
  ps2_mouse_get_event s hw.

End controller.
