(* ===== verification/InputQueues.v ===== *)
(** * Theorems on the PS/2 driver

    The queues between the interrupt handler and the readers deliver what they
    accept, in order, under every interleaving of the two sides' memory
    accesses; mouse packets decode to the movement they encode; and the keyboard
    decoder's table misses the punctuation keys. *)

From stdpp Require Import base list gmap numbers relations.
From Stdlib Require Import ZArith Lia.
From S2P Require Import Prelude Memory Ring BootInfo Allocator Pmm Paging Scheduler Devices Ps2.

Open Scope Z_scope.

(** ** The queue, access by access *)

Section spsc.
Context {A : Type} (d : A) (capacity : Z).

(** Where the producer is in [queue_key]: it has loaded the head, has seen that
    the queue has room, or has stored the element but not published it. *)
Inductive producer :=
| P_IDLE
| P_LOADED (element : A) (head : Z)
| P_ROOM (element : A) (head : Z)
| P_STORED (element : A) (head : Z).

(** Where the consumer is in [dequeue_key]. *)
Inductive consumer :=
| C_IDLE
| C_LOADED (tail : Z)
| C_FOUND (tail : Z)
| C_READ (tail : Z) (element : A).

Record spsc := mk_spsc {
  sq : queue_state A;
  sq_producer : producer;
  sq_consumer : consumer;
  sq_accepted : list A;
  sq_delivered : list A }.

(** One load or store of either side; the two sides interleave freely. *)
Inductive spsc_step : spsc -> spsc -> Prop :=
| put_load q c acc del v :
    spsc_step (mk_spsc q P_IDLE c acc del) (mk_spsc q (P_LOADED v (q_head q)) c acc del)
| put_full q c acc del v h :
    queue_next capacity h = q_tail q ->
    spsc_step (mk_spsc q (P_LOADED v h) c acc del)
      (mk_spsc (mk_queue (q_cells q) (q_head q) (q_tail q) (u64 (q_dropped q + 1))) P_IDLE c acc del)
| put_room q c acc del v h :
    queue_next capacity h <> q_tail q ->
    spsc_step (mk_spsc q (P_LOADED v h) c acc del) (mk_spsc q (P_ROOM v h) c acc del)
| put_store q c acc del v h :
    spsc_step (mk_spsc q (P_ROOM v h) c acc del)
      (mk_spsc (mk_queue (zset (q_cells q) h v) (q_head q) (q_tail q) (q_dropped q)) (P_STORED v h) c acc del)
| put_publish q c acc del v h :
    spsc_step (mk_spsc q (P_STORED v h) c acc del)
      (mk_spsc (mk_queue (q_cells q) (queue_next capacity h) (q_tail q) (q_dropped q)) P_IDLE c (acc ++ [v]) del)
| take_load q p acc del :
    spsc_step (mk_spsc q p C_IDLE acc del) (mk_spsc q p (C_LOADED (q_tail q)) acc del)
| take_empty q p acc del t :
    t = q_head q -> spsc_step (mk_spsc q p (C_LOADED t) acc del) (mk_spsc q p C_IDLE acc del)
| take_found q p acc del t :
    t <> q_head q -> spsc_step (mk_spsc q p (C_LOADED t) acc del) (mk_spsc q p (C_FOUND t) acc del)
| take_read q p acc del t :
    spsc_step (mk_spsc q p (C_FOUND t) acc del) (mk_spsc q p (C_READ t (zget d (q_cells q) t)) acc del)
| take_release q p acc del t v :
    spsc_step (mk_spsc q p (C_READ t v) acc del)
      (mk_spsc (mk_queue (q_cells q) (q_head q) (queue_next capacity t) (q_dropped q)) p C_IDLE acc (del ++ [v])).

Hypothesis Hcap : 1 < capacity <= 128.
Hypothesis Hpow : forall x, x & (capacity - 1) = x mod capacity.

Lemma queue_next_eq i : 0 <= i < capacity -> queue_next capacity i = (i + 1) mod capacity.
Proof.
  intros Hi. unfold queue_next. rewrite u32_id by (unfold UINT32_MAX; lia). rewrite Hpow. apply u8_id.
  pose proof (Z.mod_pos_bound (i + 1) capacity). lia.
Qed.

Record queue_ok (q : queue_state A) : Prop := {
  qo_length : Z.of_nat (length (q_cells q)) = capacity;
  qo_head : 0 <= q_head q < capacity;
  qo_tail : 0 <= q_tail q < capacity }.

Definition contents (q : queue_state A) : list A := ring_contents d capacity (q_cells q) (q_head q) (q_tail q).

(** What each side may rely on at each point. *)
Definition producer_ok (q : queue_state A) (p : producer) : Prop :=
  match p with
  | P_IDLE => True
  | P_LOADED _ h => h = q_head q
  | P_ROOM _ h => h = q_head q /\ (h + 1) mod capacity <> q_tail q
  | P_STORED v h => h = q_head q /\ (h + 1) mod capacity <> q_tail q /\ zget d (q_cells q) h = v
  end.
Definition consumer_ok (q : queue_state A) (c : consumer) : Prop :=
  match c with
  | C_IDLE => True
  | C_LOADED t => t = q_tail q
  | C_FOUND t => t = q_tail q /\ t <> q_head q
  | C_READ t v => t = q_tail q /\ t <> q_head q /\ zget d (q_cells q) t = v
  end.

Record spsc_ok (s : spsc) : Prop := {
  ss_queue : queue_ok (sq s);
  ss_producer : producer_ok (sq s) (sq_producer s);
  ss_consumer : consumer_ok (sq s) (sq_consumer s);
  ss_history : sq_accepted s = sq_delivered s ++ contents (sq s) }.

Lemma next_range i : 0 <= (i + 1) mod capacity < capacity.
Proof. apply Z.mod_pos_bound. lia. Qed.

Lemma next_inj i j : 0 <= i < capacity -> 0 <= j < capacity -> (i + 1) mod capacity = (j + 1) mod capacity -> i = j.
Proof. intros Hi Hj E. rewrite !ring_succ in E by lia. repeat (case_if_in E); b2p; lia. Qed.

Lemma spsc_step_ok s s' : spsc_step s s' -> spsc_ok s -> spsc_ok s'.
Proof.
  intros [q c acc del v|q c acc del v h Hf|q c acc del v h Hr|q c acc del v h|q c acc del v h|q p acc del|q p acc del t He
         |q p acc del t Hne|q p acc del t|q p acc del t v] [[Hl Hh Ht] Hp Hc Hi]; cbn [sq sq_producer sq_consumer sq_accepted sq_delivered] in *.
  - by constructor.
  - by constructor.
  - cbn in Hp. subst h. constructor; try done. cbn. by rewrite <- queue_next_eq.
  - destruct Hp as [-> Hroom]. constructor; try done; cbn.
    + constructor; cbn; [by rewrite zset_length|done|done].
    + split_and!; [done|done|]. apply zget_zset_eq. lia.
    + destruct c as [|t|t|t v']; try done. destruct Hc as (-> & Hne & Hv). split_and!; [done|done|]. cbn. rewrite zget_zset_ne by lia. done.
    + unfold contents in *. cbn. rewrite ring_store_unseen by lia. done.
  - destruct Hp as (-> & Hroom & Hv). pose proof (next_range (q_head q)). rewrite queue_next_eq by done. constructor; cbn; try done.
    + destruct c as [|t|t|t v']; try done; [destruct Hc as (-> & Hne)|destruct Hc as (-> & Hne & Hc)]; split_and!; done || congruence.
    + unfold contents in *. cbn. rewrite Hi, <- app_assoc. f_equal.
      rewrite <- (ring_push d capacity ltac:(lia) (q_cells q) (q_head q) (q_tail q) v) by done.
      f_equal. rewrite <- Hv. apply zset_zget.
  - by constructor.
  - by constructor.
  - cbn in Hc. subst t. by constructor.
  - destruct Hc as [-> Hne]. by constructor.
  - destruct Hc as (-> & Hne & Hv). pose proof (next_range (q_tail q)). rewrite queue_next_eq by done. constructor; cbn; try done.
    + destruct p as [|e h|e h|e h]; try done; cbn in *; [destruct Hp as (-> & Hroom)|destruct Hp as (-> & Hroom & Hp)];
        split_and!; try done; intros E; apply next_inj in E; try done; lia.
    + unfold contents in *. cbn. rewrite Hi, <- app_assoc. f_equal. rewrite ring_pop by (done || lia). by rewrite Hv.
Qed.

Definition spsc_start (cells : list A) : spsc := mk_spsc (mk_queue cells 0 0 0) P_IDLE C_IDLE [] [].

Lemma spsc_reachable_ok cells s :
  Z.of_nat (length cells) = capacity -> rtc spsc_step (spsc_start cells) s -> spsc_ok s.
Proof.
  intros Hl Hr. assert (spsc_ok (spsc_start cells)) as H0.
  { constructor; [constructor; cbn; done || lia|done|done|]. unfold contents, ring_contents. cbn. by rewrite Z.mod_0_l by lia. }
  revert H0. induction Hr as [|s1 s2 s3 H1 _ IH]; [done|]. intros H0. by apply IH, (spsc_step_ok s1).
Qed.

(** Run without interference, each side is the function of the driver. *)
Lemma push_steps q c acc del v :
  queue_ok q ->
  exists acc', rtc spsc_step (mk_spsc q P_IDLE c acc del) (mk_spsc (queue_push capacity q v) P_IDLE c acc' del).
Proof.
  intros [Hl Hh Ht]. unfold queue_push. cbv zeta. destruct (Z.eqb_spec (queue_next capacity (q_head q)) (q_tail q)) as [He|Hne].
  - exists acc. eapply rtc_l; [apply (put_load _ _ _ _ v)|]. eapply rtc_l; [by apply put_full|apply rtc_refl].
  - exists (acc ++ [v]). eapply rtc_l; [apply (put_load _ _ _ _ v)|]. eapply rtc_l; [by apply put_room|].
    eapply rtc_l; [apply put_store|]. eapply rtc_l; [apply put_publish|apply rtc_refl].
Qed.

Lemma pop_steps q p acc del :
  exists del', rtc spsc_step (mk_spsc q p C_IDLE acc del) (mk_spsc (snd (queue_pop d capacity q)) p C_IDLE acc del')
    /\ del' = del ++ match fst (queue_pop d capacity q) with Some v => [v] | None => [] end.
Proof.
  unfold queue_pop. cbv zeta. destruct (Z.eqb_spec (q_tail q) (q_head q)) as [He|Hne]; cbn [fst snd].
  - exists del. split; [|by rewrite app_nil_r]. eapply rtc_l; [apply take_load|]. eapply rtc_l; [by apply take_empty|apply rtc_refl].
  - eexists. split; [|done]. eapply rtc_l; [apply take_load|]. eapply rtc_l; [by apply take_found|].
    eapply rtc_l; [apply take_read|]. eapply rtc_l; [apply take_release|apply rtc_refl].
Qed.
End spsc.

Arguments P_IDLE {A}.
Arguments C_IDLE {A}.
Arguments mk_spsc {A}.
Arguments sq {A}.
Arguments sq_accepted {A}.
Arguments sq_delivered {A}.
Arguments spsc_start {A}.

Lemma key_capacity x : x & (PS2_KEY_QUEUE_CAPACITY - 1) = x mod PS2_KEY_QUEUE_CAPACITY.
Proof. change (PS2_KEY_QUEUE_CAPACITY - 1) with (2 ^ 6 - 1). by rewrite land_ones_mod by lia. Qed.
Lemma mouse_capacity x : x & (PS2_MOUSE_QUEUE_CAPACITY - 1) = x mod PS2_MOUSE_QUEUE_CAPACITY.
Proof. change (PS2_MOUSE_QUEUE_CAPACITY - 1) with (2 ^ 5 - 1). by rewrite land_ones_mod by lia. Qed.

(** However the interrupt handler's and the reader's loads and stores
    interleave, the reader gets the accepted keys in order, each once: what was
    accepted is what was delivered followed by what is in the queue, and a key
    is dropped only when sixty-three are waiting. *)
Theorem key_queue_fifo cells s :
  Z.of_nat (length cells) = PS2_KEY_QUEUE_CAPACITY ->
  rtc (spsc_step 0 PS2_KEY_QUEUE_CAPACITY) (spsc_start cells) s ->
  sq_accepted s = sq_delivered s ++ contents 0 PS2_KEY_QUEUE_CAPACITY (sq s)
  /\ (forall v, queue_key (sq s) v = mk_queue (q_cells (sq s)) (q_head (sq s)) (q_tail (sq s)) (u64 (q_dropped (sq s) + 1))
        <-> length (contents 0 PS2_KEY_QUEUE_CAPACITY (sq s)) = 63%nat)
  /\ (fst (dequeue_key (sq s)) = match contents 0 PS2_KEY_QUEUE_CAPACITY (sq s) with [] => -1 | v :: _ => v end).
Proof.
  intros Hl Hr. destruct (spsc_reachable_ok 0 PS2_KEY_QUEUE_CAPACITY ltac:(done) key_capacity cells s Hl Hr) as [[Hc Hh Ht] _ _ Hi].
  split_and!; [done| |].
  - intros v. pose proof (ring_full 0 PS2_KEY_QUEUE_CAPACITY ltac:(done) (q_cells (sq s)) _ _ Hh Ht) as Hf.
    unfold queue_key, queue_push. cbv zeta. rewrite (queue_next_eq PS2_KEY_QUEUE_CAPACITY ltac:(done) key_capacity) by done. unfold contents.
    destruct (Z.eqb_spec ((q_head (sq s) + 1) mod PS2_KEY_QUEUE_CAPACITY) (q_tail (sq s))) as [He|Hne].
    + split; [intros _|done]. apply Hf in He. unfold PS2_KEY_QUEUE_CAPACITY in *. lia.
    + split; [|intros E; exfalso; apply Hne, Hf; rewrite E; done]. intros [= _ E].
      rewrite ring_succ in E by done. case_if_in E; b2p; unfold PS2_KEY_QUEUE_CAPACITY in *; lia.
  - unfold dequeue_key, queue_pop. cbv zeta. unfold contents.
    destruct (Z.eqb_spec (q_tail (sq s)) (q_head (sq s))) as [He|Hne]; cbn [fst default].
    + by rewrite (proj2 (ring_contents_nil 0 PS2_KEY_QUEUE_CAPACITY ltac:(done) (q_cells (sq s)) _ _ Hh Ht)).
    + by rewrite (ring_pop 0 PS2_KEY_QUEUE_CAPACITY ltac:(done)).
Qed.

(** A run: the handler queues two keys, the reader takes one. *)
Definition sample_cells : list Z := replicate 64 0.
Lemma sample_run : exists s, rtc (spsc_step 0 PS2_KEY_QUEUE_CAPACITY) (spsc_start sample_cells) s /\ sq_delivered s = [97].
Proof.
  destruct (push_steps 0 PS2_KEY_QUEUE_CAPACITY (mk_queue sample_cells 0 0 0) C_IDLE [] [] 97) as [acc1 R1];
    [by constructor|].
  destruct (push_steps 0 PS2_KEY_QUEUE_CAPACITY (queue_push PS2_KEY_QUEUE_CAPACITY (mk_queue sample_cells 0 0 0) 97)
    C_IDLE acc1 [] 98) as [acc2 R2]; [by constructor|].
  edestruct (pop_steps 0 PS2_KEY_QUEUE_CAPACITY) as [del' [R3 E]].
  eexists. split; [etrans; [exact R1|etrans; [exact R2|exact R3]]|]. rewrite E. vm_compute. reflexivity.
Qed.

Lemma key_queue_fifo_witness : exists s, sq_delivered s = [97] /\
  sq_accepted s = [97] ++ contents 0 PS2_KEY_QUEUE_CAPACITY (sq s).
Proof.
  destruct sample_run as (s & Hr & Hd). exists s. split; [exact Hd|].
  destruct (key_queue_fifo sample_cells s eq_refl Hr) as [H _]. rewrite Hd in H. exact H.
Defined.

(** ** Mouse packets *)

(** The packet a mouse sends for a movement: a header with the buttons, the two
    sign bits and the bit that marks a first byte, then the low bytes of the
    movement, upwards being positive. *)
Definition encode_packet (e : ps2_mouse_event_t) : list Z :=
  [8 + ev_buttons e + 16 * b2z (ev_dx e <? 0) + 32 * b2z (- ev_dy e <? 0); ev_dx e mod 256; (- ev_dy e) mod 256].

Definition feed (st : mouse_state * queue_state ps2_mouse_event_t) (bytes : list Z) :=
  fold_left (fun st value => decode_mouse_byte (fst st) (snd st) value) bytes st.

Lemma header_bits b (sx sy : bool) :
  0 <= b < 8 ->
  let h := 8 + b + 16 * b2z sx + 32 * b2z sy in
  nz (h & 0x08) = true /\ nz (h & 0xC0) = false /\ nz (h & 0x10) = sx /\ nz (h & 0x20) = sy /\ h & 0x07 = b.
Proof.
  intros Hb. assert (b = 0 \/ b = 1 \/ b = 2 \/ b = 3 \/ b = 4 \/ b = 5 \/ b = 6 \/ b = 7) as Hc by lia.
  destruct sx, sy; repeat destruct Hc as [->|Hc]; try (by vm_compute); subst; by vm_compute.
Qed.

Lemma signed_byte v : -256 <= v <= 255 -> (if v <? 0 then v mod 256 - 256 else v mod 256) = v.
Proof.
  intros Hv. destruct (Z.ltb_spec v 0); [|by rewrite Z.mod_small by lia].
  rewrite <- (Z.mod_add v 1) by lia. rewrite Z.mod_small; lia.
Qed.

(** A movement survives the wire: from a packet boundary, the three bytes a
    mouse sends for an event put exactly that event into the queue and bring the
    decoder back to a boundary; a byte that cannot start a packet is ignored
    there, so the decoder finds the boundary again. *)
Theorem mouse_packet_roundtrip ms q e :
  length (mouse_packet ms) = 3%nat -> mouse_packet_index ms = 0 ->
  0 <= ev_buttons e < 8 -> -256 <= ev_dx e <= 255 -> -256 <= - ev_dy e <= 255 ->
  feed (ms, q) (encode_packet e)
  = (mk_mouse (encode_packet e) 0 (u64 (mouse_packets ms + 1)), queue_mouse_event q e)
  /\ forall v, v & 0x08 = 0 -> decode_mouse_byte ms q v = (ms, q).
Proof.
  intros Hl Hi Hb Hx Hy. split; [|intros v Hv; unfold decode_mouse_byte; by rewrite Hi, Hv].
  destruct ms as [pk idx n]. cbn in Hl, Hi. subst idx. destruct pk as [|p0 [|p1 [|p2 [|]]]]; try done.
  destruct (header_bits (ev_buttons e) (ev_dx e <? 0) (- ev_dy e <? 0) Hb) as (H1 & H2 & H3 & H4 & H5).
  unfold encode_packet. set (h := 8 + _ + _ + _) in *. set (vx := ev_dx e mod 256). set (vy := (- ev_dy e) mod 256).
  assert (decode_mouse_byte (mk_mouse [p0; p1; p2] 0 n) q h = (mk_mouse [h; p1; p2] 1 n, q)) as S1
    by (unfold decode_mouse_byte; cbn [mouse_packet_index]; by rewrite H1).
  assert (decode_mouse_byte (mk_mouse [h; p1; p2] 1 n) q vx = (mk_mouse [h; vx; p2] 2 n, q)) as S2 by done.
  assert (packet_event [h; vx; vy] = e) as Hev.
  { unfold packet_event. change (zget 0 [h; vx; vy] 0) with h. change (zget 0 [h; vx; vy] 1) with vx.
    change (zget 0 [h; vx; vy] 2) with vy. unfold vx, vy. rewrite H3, H4, H5, !signed_byte by lia.
    rewrite u8_id by lia. destruct e as [dx dy b]. cbn. f_equal. lia. }
  unfold feed. cbn [fold_left fst snd]. rewrite S1. cbn [fst snd]. rewrite S2. cbn [fst snd].
  unfold decode_mouse_byte. cbn [mouse_packet mouse_packet_index mouse_packets].
  change (zset [h; vx; p2] 2 vy) with [h; vx; vy]. change (zget 0 [h; vx; vy] 0) with h. rewrite H2, Hev. done.
Qed.

Lemma mouse_packet_roundtrip_witness :
  feed (mk_mouse [0; 0; 0] 0 0, mk_queue (replicate 32 event0) 0 0 0) [41; 5; 249]
  = (mk_mouse [41; 5; 249] 0 1, queue_mouse_event (mk_queue (replicate 32 event0) 0 0 0) (mk_event 5 7 1)).
Proof.
  apply (mouse_packet_roundtrip (mk_mouse [0; 0; 0] 0 0) (mk_queue (replicate 32 event0) 0 0 0) (mk_event 5 7 1));
    cbn; reflexivity || lia.
Defined.

(** ** The keyboard *)

(** The scan codes of the keys [ ] ; ' ` \ , . and / that [translate_symbol]
    lists in its [switch]. *)
Definition punctuation_codes : list Z := [0x1A; 0x1B; 0x27; 0x28; 0x29; 0x2B; 0x33; 0x34; 0x35].

(** The nine punctuation keys produce nothing: [translate_symbol] returns before
    its [switch] for every scan code past its seventeen-byte table, so pressing
    one of them, with or without shift, is decoded as no key. *)
Theorem punctuation_keys_dead k code :
  code ∈ punctuation_codes -> extended_prefix k = false ->
  decode_scan_code k code = (-1, k) /\ forall shifted, translate_symbol code shifted = 0.
Proof.
  intros Hc Hk. destruct k as [l r c p]. cbn in Hk. subst p. unfold punctuation_codes in Hc.
  rewrite !elem_of_cons, elem_of_nil in Hc.
  destruct Hc as [->|[->|[->|[->|[->|[->|[->|[->|[->|[]]]]]]]]]]; destruct l, r, c; split; try intros []; vm_compute; reflexivity.
Qed.

Lemma punctuation_keys_dead_witness : decode_scan_code (mk_keyboard false false false false) 0x34 = (-1, mk_keyboard false false false false).
Proof.
  apply (punctuation_keys_dead (mk_keyboard false false false false) 0x34); [|reflexivity].
  unfold punctuation_codes. rewrite !elem_of_cons. tauto.
Defined.
