(* ===== verification/Raster.v ===== *)
(** * Pixel planes: rectangles of 32-bit pixels in memory

    Surfaces (src/surface.c) and the framebuffer (src/gop.c) are both planes: a
    base address and a stride in pixels, pixel (x, y) being the 32-bit word at
    [base + 4 * (y * stride + x)].  This file holds the row loops the two
    sources share, character for character, and what they do to a plane. *)

From stdpp Require Import base list gmap numbers.
From Stdlib Require Import ZArith Lia.
From S2P Require Import Prelude Memory.

Open Scope Z_scope.

Definition pixel_address (base stride x y : Z) : Z := base + 4 * (y * stride + x).

(** The pixel (x, y) of a plane. *)
Definition pixel (m : mem) (base stride x y : Z) : Z := load32 m (pixel_address base stride x y).

(** [for (xx < width) row[xx] = color;] *)
Definition fill_row (m : mem) (row width color : Z) : mem :=
  for_range 0 width (fun xx m => store32 m (row + 4 * xx) color) m.

(** [for (yy < height) { row = pixels + (y + yy) * stride + x; ... }] *)
Definition fill_rows (m : mem) (base stride x y width height color : Z) : mem :=
  for_range 0 height (fun yy m =>
    fill_row m (pixel_address base stride x (u32 (y + yy))) width color) m.

(** [for (xx < width) destination[xx] = source[xx];] *)
Definition copy_row (m : mem) (destination source width : Z) : mem :=
  for_range 0 width (fun xx m => store32 m (destination + 4 * xx) (load32 m (source + 4 * xx))) m.

(** [for (column = width; column > 0u; --column)
       destination[column - 1u] = source[column - 1u];] *)
Fixpoint copy_row_down (m : mem) (destination source : Z) (column : nat) : mem :=
  match column with
  | O => m
  | S c => copy_row_down (store32 m (destination + 4 * Z.of_nat c) (load32 m (source + 4 * Z.of_nat c)))
             destination source c
  end.

(** [for (yy < rows)], each row copied from [pixels] rows below. *)
Definition scroll_rows (m : mem) (base stride x y width rows pixels : Z) : mem :=
  for_range 0 rows (fun yy m =>
    copy_row m (pixel_address base stride x (u32 (y + yy)))
      (pixel_address base stride x (u32 (u32 (y + yy) + pixels))) width) m.

(** ** Words of memory *)

Lemma mem_load_store_wrap n m a v : mem_load n (mem_store n m a v) a = v mod 256 ^ Z.of_nat n.
Proof.
  revert m a v. induction n as [|n IH]; intros m a v.
  - unfold mem_load. cbn [le_read]. change (256 ^ Z.of_nat 0) with 1. by rewrite Z.mod_1_r.
  - change (mem_store (S n) m a v) with (mem_store n (mem_set m a v) (a + 1) (v / 256)).
    set (m' := mem_store n _ _ _).
    change (mem_load (S n) m' a) with (mem_get m' a + 256 * mem_load n m' (a + 1)). unfold m'.
    rewrite IH, mem_get_store_ne, mem_get_set_eq by lia.
    replace (Z.of_nat (S n)) with (1 + Z.of_nat n) by lia. rewrite Z.pow_add_r by lia.
    change (256 ^ 1) with 256. rewrite Z.rem_mul_r by lia. done.
Qed.

Lemma load32_store32_eq m a v : load32 (store32 m a v) a = u32 v.
Proof. apply mem_load_store_wrap. Qed.

Lemma load32_u32 m a : u32 (load32 m a) = load32 m a.
Proof. apply u32_id. pose proof (load32_range m a). lia. Qed.

(** ** Addresses *)

Lemma pixel_address_inj base stride x y x' y' :
  0 <= x < stride -> 0 <= x' < stride ->
  pixel_address base stride x y = pixel_address base stride x' y' -> x = x' /\ y = y'.
Proof.
  intros Hx Hx' H. unfold pixel_address in H. assert (y * stride + x = y' * stride + x') as E by lia.
  assert (y = y') by nia. subst. lia.
Qed.

(** A store to a pixel of a plane. *)
Lemma pixel_store m base stride x y v x' y' :
  0 <= x < stride -> 0 <= x' < stride ->
  pixel (store32 m (pixel_address base stride x y) v) base stride x' y'
  = if (x' =? x) && (y' =? y) then u32 v else pixel m base stride x' y'.
Proof.
  intros Hx Hx'. unfold pixel. destruct ((x' =? x) && (y' =? y)) eqn:E.
  - b2p. subst. apply load32_store32_eq.
  - apply mem_load_store_ne. unfold pixel_address. apply andb_false_iff in E as [E|E]; apply Z.eqb_neq in E; [|nia].
    destruct (Z.eq_dec y y') as [->|]; nia.
Qed.

Definition in_rect (x y width height px py : Z) : bool :=
  (x <=? px) && (px <? x + width) && ((y <=? py) && (py <? y + height)).

Lemma in_rect_true x y w h px py :
  in_rect x y w h px py = true <-> x <= px < x + w /\ y <= py < y + h.
Proof. unfold in_rect. rewrite !andb_true_iff, !Z.leb_le, !Z.ltb_lt. lia. Qed.
Lemma in_rect_false x y w h px py :
  in_rect x y w h px py = false <-> ~ (x <= px < x + w /\ y <= py < y + h).
Proof. rewrite <- in_rect_true. by destruct (in_rect x y w h px py). Qed.

(** The bytes of a plane's rows [y, y + height). *)
Definition in_rows (base stride y height a : Z) : Prop :=
  pixel_address base stride 0 y <= a < pixel_address base stride 0 (y + height).

(** Memory that agrees outside the rows. *)
Definition same_outside (base stride y height : Z) (m m' : mem) : Prop :=
  forall a, ~ in_rows base stride y height a -> mem_get m' a = mem_get m a.

Lemma same_outside_refl base stride y height m : same_outside base stride y height m m.
Proof. by intros a _. Qed.

Lemma same_outside_trans base stride y height m1 m2 m3 :
  same_outside base stride y height m1 m2 -> same_outside base stride y height m2 m3 ->
  same_outside base stride y height m1 m3.
Proof. intros H1 H2 a Ha. by rewrite H2, H1. Qed.

Lemma same_outside_wider base stride y height y' height' m m' :
  0 <= stride -> y' <= y -> y + height <= y' + height' ->
  same_outside base stride y height m m' -> same_outside base stride y' height' m m'.
Proof.
  intros Hs Hy Hh H a Ha. apply H. intros Hin. apply Ha. unfold in_rows, pixel_address in *. nia.
Qed.

Lemma same_outside_store base stride x y height v m yy :
  0 <= x < stride -> y <= yy < y + height ->
  same_outside base stride y height m (store32 m (pixel_address base stride x yy) v).
Proof.
  intros Hx Hy a Ha. apply mem_get_store_ne. unfold in_rows, pixel_address in *. change (Z.of_nat 4) with 4.
  destruct (Z.lt_ge_cases a (base + 4 * (yy * stride + x))); [by left|right].
  apply Z.nlt_ge. intros Hlt. apply Ha. nia.
Qed.

(** A word outside the rows is unchanged. *)
Lemma same_outside_load base stride y height m m' a :
  same_outside base stride y height m m' ->
  a + 4 <= pixel_address base stride 0 y \/ pixel_address base stride 0 (y + height) <= a ->
  load32 m' a = load32 m a.
Proof. intros H Ha. apply le_read_ext. intros i Hi. apply H. unfold in_rows. lia. Qed.

#[export] Hint Resolve same_outside_refl : argus.

(** ** Filling *)

Lemma pixel_address_add base stride x y k : pixel_address base stride x y + 4 * k = pixel_address base stride (x + k) y.
Proof. unfold pixel_address. lia. Qed.

Lemma fill_row_spec m base stride x y width color :
  0 <= x -> 0 <= width -> x + width <= stride ->
  let m' := fill_row m (pixel_address base stride x y) width color in
  same_outside base stride y 1 m m' /\
  forall px py, 0 <= px < stride ->
    pixel m' base stride px py = if in_rect x y width 1 px py then u32 color else pixel m base stride px py.
Proof.
  intros Hx Hw Hs. unfold fill_row.
  apply (for_range_inv (fun i m' => same_outside base stride y 1 m m' /\ forall px py, 0 <= px < stride ->
    pixel m' base stride px py = if in_rect x y i 1 px py then u32 color else pixel m base stride px py)); [lia| |].
  - split; [auto with argus|]. intros px py Hp. destruct (in_rect x y 0 1 px py) eqn:E; [apply in_rect_true in E; lia|done].
  - intros i m' Hi [H1 H2]. rewrite pixel_address_add. split.
    + eapply same_outside_trans; [exact H1|]. apply same_outside_store; lia.
    + intros px py Hp. rewrite pixel_store, H2 by lia.
      destruct ((px =? x + i) && (py =? y)) eqn:E1, (in_rect x y i 1 px py) eqn:E2, (in_rect x y (i + 1) 1 px py) eqn:E3;
        try done; rewrite ?in_rect_true, ?in_rect_false in *; lia.
Qed.

Lemma fill_rows_spec m base stride x y width height color :
  0 <= x -> 0 <= y -> 0 <= width -> 0 <= height -> x + width <= stride -> y + height <= UINT32_MAX + 1 ->
  let m' := fill_rows m base stride x y width height color in
  same_outside base stride y height m m' /\
  forall px py, 0 <= px < stride ->
    pixel m' base stride px py = if in_rect x y width height px py then u32 color else pixel m base stride px py.
Proof.
  intros Hx Hy Hw Hh Hs Hu. unfold fill_rows.
  apply (for_range_inv (fun i m' => same_outside base stride y height m m' /\ forall px py, 0 <= px < stride ->
    pixel m' base stride px py = if in_rect x y width i px py then u32 color else pixel m base stride px py)); [lia| |].
  - split; [auto with argus|]. intros px py Hp.
    destruct (in_rect x y width 0 px py) eqn:E; [apply in_rect_true in E; lia|done].
  - intros i m' Hi [H1 H2]. rewrite u32_id by lia.
    destruct (fill_row_spec m' base stride x (y + i) width color Hx Hw Hs) as [F1 F2]. split.
    + eapply same_outside_trans; [exact H1|]. eapply same_outside_wider; [| | |exact F1]; lia.
    + intros px py Hp. rewrite F2, H2 by lia.
      destruct (in_rect x (y + i) width 1 px py) eqn:E1, (in_rect x y width i px py) eqn:E2,
        (in_rect x y width (i + 1) px py) eqn:E3;
        try done; rewrite ?in_rect_true, ?in_rect_false in *; lia.
Qed.

(** ** Copying rows *)

Lemma copy_row_spec m base stride x y sx sy width :
  0 <= x -> 0 <= sx -> 0 <= width -> x + width <= stride -> sx + width <= stride ->
  y <> sy \/ x <= sx ->
  let m' := copy_row m (pixel_address base stride x y) (pixel_address base stride sx sy) width in
  same_outside base stride y 1 m m' /\
  forall px py, 0 <= px < stride ->
    pixel m' base stride px py
    = if in_rect x y width 1 px py then pixel m base stride (sx + (px - x)) sy else pixel m base stride px py.
Proof.
  intros Hx Hsx Hw Hs Hss Hov. unfold copy_row.
  apply (for_range_inv (fun i m' => same_outside base stride y 1 m m' /\ forall px py, 0 <= px < stride ->
    pixel m' base stride px py
    = if in_rect x y i 1 px py then pixel m base stride (sx + (px - x)) sy else pixel m base stride px py)); [lia| |].
  - split; [auto with argus|]. intros px py Hp. destruct (in_rect x y 0 1 px py) eqn:E; [apply in_rect_true in E; lia|done].
  - intros i m' Hi [H1 H2]. rewrite !pixel_address_add. split.
    + eapply same_outside_trans; [exact H1|]. apply same_outside_store; lia.
    + intros px py Hp. rewrite pixel_store, H2 by lia.
      change (load32 m' (pixel_address base stride (sx + i) sy)) with (pixel m' base stride (sx + i) sy).
      rewrite H2 by lia. destruct (in_rect x y i 1 (sx + i) sy) eqn:E0; [apply in_rect_true in E0; lia|].
      unfold pixel at 1. rewrite load32_u32. fold (pixel m base stride (sx + i) sy).
      destruct ((px =? x + i) && (py =? y)) eqn:E1, (in_rect x y i 1 px py) eqn:E2, (in_rect x y (i + 1) 1 px py) eqn:E3;
        try done; rewrite ?in_rect_true, ?in_rect_false in *; try lia.
      f_equal. lia.
Qed.

Lemma copy_row_down_spec m base stride x y sx sy n :
  0 <= x -> 0 <= sx -> x + Z.of_nat n <= stride -> sx + Z.of_nat n <= stride ->
  y <> sy \/ sx <= x ->
  let m' := copy_row_down m (pixel_address base stride x y) (pixel_address base stride sx sy) n in
  same_outside base stride y 1 m m' /\
  forall px py, 0 <= px < stride ->
    pixel m' base stride px py
    = if in_rect x y (Z.of_nat n) 1 px py then pixel m base stride (sx + (px - x)) sy else pixel m base stride px py.
Proof.
  intros Hx Hsx Hs Hss Hov. revert m. induction n as [|n IH]; intros m; cbn [copy_row_down].
  - split; [auto with argus|]. intros px py Hp.
    destruct (in_rect x y (Z.of_nat 0) 1 px py) eqn:E; [apply in_rect_true in E; lia|done].
  - rewrite !pixel_address_add. set (m1 := store32 _ _ _). destruct (IH ltac:(lia) ltac:(lia) m1) as [H1 H2]. split.
    + eapply same_outside_trans; [|exact H1]. apply same_outside_store; lia.
    + intros px py Hp. rewrite H2 by done.
      assert (forall qx qy, 0 <= qx < stride -> pixel m1 base stride qx qy
        = if (qx =? x + Z.of_nat n) && (qy =? y) then pixel m base stride (sx + Z.of_nat n) sy
          else pixel m base stride qx qy) as H3.
      { intros qx qy Hq. unfold m1. rewrite pixel_store by lia. by rewrite load32_u32. }
      destruct (in_rect x y (Z.of_nat n) 1 px py) eqn:E1.
      * apply in_rect_true in E1. rewrite H3 by lia.
        destruct ((_ =? _) && _) eqn:E2; [b2p; lia|].
        destruct (in_rect x y (Z.of_nat (S n)) 1 px py) eqn:E3; [done|]. apply in_rect_false in E3. lia.
      * apply in_rect_false in E1. rewrite H3 by lia. destruct ((_ =? _) && _) eqn:E2.
        -- b2p. subst. destruct (in_rect x y _ 1 _ y) eqn:E3; [f_equal; lia|]. apply in_rect_false in E3. lia.
        -- destruct (in_rect x y (Z.of_nat (S n)) 1 px py) eqn:E3; [|done].
           apply in_rect_true in E3. apply andb_false_iff in E2 as [E2|E2]; apply Z.eqb_neq in E2; lia.
Qed.

Lemma scroll_rows_spec m base stride x y width rows pixels :
  0 <= x -> 0 <= y -> 0 <= width -> 0 <= rows -> 0 < pixels -> x + width <= stride ->
  y + rows + pixels <= UINT32_MAX + 1 ->
  let m' := scroll_rows m base stride x y width rows pixels in
  same_outside base stride y rows m m' /\
  forall px py, 0 <= px < stride ->
    pixel m' base stride px py
    = if in_rect x y width rows px py then pixel m base stride px (py + pixels) else pixel m base stride px py.
Proof.
  intros Hx Hy Hw Hr Hp Hs Hu. unfold scroll_rows.
  apply (for_range_inv (fun i m' => same_outside base stride y rows m m' /\ forall px py, 0 <= px < stride ->
    pixel m' base stride px py
    = if in_rect x y width i px py then pixel m base stride px (py + pixels) else pixel m base stride px py)); [lia| |].
  - split; [auto with argus|]. intros px py Hpx.
    destruct (in_rect x y width 0 px py) eqn:E; [apply in_rect_true in E; lia|done].
  - intros i m' Hi [H1 H2]. rewrite !u32_id by (rewrite ?u32_id; lia).
    destruct (copy_row_spec m' base stride x (y + i) x (y + i + pixels) width) as [F1 F2]; try lia. split.
    + eapply same_outside_trans; [exact H1|]. eapply same_outside_wider; [| | |exact F1]; lia.
    + intros px py Hpx. rewrite F2 by lia.
      destruct (in_rect x (y + i) width 1 px py) eqn:E1.
      * apply in_rect_true in E1. assert (py = y + i) as -> by lia. rewrite H2 by lia.
        destruct (in_rect x y width i (x + (px - x)) (y + i + pixels)) eqn:E2; [apply in_rect_true in E2; lia|].
        destruct (in_rect x y width (i + 1) px (y + i)) eqn:E3; [f_equal; lia|apply in_rect_false in E3; lia].
      * rewrite H2 by lia. destruct (in_rect x y width i px py) eqn:E2, (in_rect x y width (i + 1) px py) eqn:E3;
          try done; rewrite ?in_rect_true, ?in_rect_false in *; lia.
Qed.

(** Two nested loops visit every cell of a [W] by [H] rectangle once: an invariant
    indexed by the set of cells visited. *)
Lemma scan_inv {S} (I : (Z -> Z -> bool) -> S -> Prop) (W H : Z) (body : Z -> Z -> S -> S) s :
  0 <= W -> 0 <= H ->
  (forall f g s, (forall x y, f x y = g x y) -> I f s -> I g s) ->
  I (fun _ _ => false) s ->
  (forall x y done s, 0 <= x < W -> 0 <= y < H -> done x y = false -> I done s ->
     I (fun x' y' => done x' y' || (x' =? x) && (y' =? y)) (body y x s)) ->
  I (in_rect 0 0 W H) (for_range 0 H (fun y s => for_range 0 W (fun x s => body y x s) s) s).
Proof.
  intros HW HH Hext H0 Hstep. apply (for_range_inv (fun j => I (in_rect 0 0 W j))); [done| |].
  { eapply Hext; [|exact H0]. intros x y. symmetry. apply in_rect_false. lia. }
  intros j s1 Hj H1.
  eapply (Hext (fun x y => in_rect 0 0 W j x y || in_rect 0 j W 1 x y)).
  { intros x y. apply eq_true_iff_eq. rewrite orb_true_iff, !in_rect_true. lia. }
  apply (for_range_inv (fun i => I (fun x y => in_rect 0 0 W j x y || in_rect 0 j i 1 x y))); [done| |].
  { eapply Hext; [|exact H1]. intros x y. apply eq_true_iff_eq. rewrite orb_true_iff, !in_rect_true. lia. }
  intros i s2 Hi H2. eapply Hext; [|refine (Hstep i j _ s2 Hi Hj _ H2)].
  - intros x y. cbn. apply eq_true_iff_eq. rewrite !orb_true_iff, andb_true_iff, !in_rect_true, !Z.eqb_eq. lia.
  - cbn. apply orb_false_iff. rewrite !in_rect_false. lia.
Qed.
