(* ===== verification/Gop.v ===== *)
(** * The framebuffer (src/gop.c, src/gop.h)

    The graphics-output state [G] and the drawing operations on it.  The
    framebuffer is memory at [fb_base]; what the firmware's LocateProtocol
    answers is an argument of [gop_init]. *)

From stdpp Require Import base list gmap numbers.
From Stdlib Require Import ZArith Lia.
From S2P Require Import Prelude Memory Raster.

Open Scope Z_scope.

Inductive EFI_GRAPHICS_PIXEL_FORMAT :=
| PixelRedGreenBlueReserved8BitPerColor
| PixelBlueGreenRedReserved8BitPerColor
| PixelBitMask
| PixelBltOnly
| PixelFormatMax.

Record EFI_PIXEL_BITMASK := mk_masks { RedMask : Z; GreenMask : Z; BlueMask : Z; ReservedMask : Z }.

(** [EFI_GRAPHICS_OUTPUT_PROTOCOL_MODE] with the mode information it points to. *)
Record gop_mode := mk_mode {
  HorizontalResolution : Z;
  VerticalResolution : Z;
  PixelFormat : EFI_GRAPHICS_PIXEL_FORMAT;
  PixelInformation : EFI_PIXEL_BITMASK;
  PixelsPerScanLine : Z;
  FrameBufferBase : Z;
  FrameBufferSize : Z }.

Record argus_gop_t := mk_gop {
  gop_fb : Z;
  gop_width : Z;
  gop_height : Z;
  gop_pitch_pixels : Z;
  gop_format : EFI_GRAPHICS_PIXEL_FORMAT;
  gop_masks : EFI_PIXEL_BITMASK;
  gop_fb_base : Z;
  gop_fb_size : Z;
  gop_usable : bool }.

Definition set_usable (g : argus_gop_t) (usable : bool) : argus_gop_t :=
  mk_gop (gop_fb g) (gop_width g) (gop_height g) (gop_pitch_pixels g) (gop_format g) (gop_masks g)
    (gop_fb_base g) (gop_fb_size g) usable.

(** [while ((mask & 1u) == 0u) { mask >>= 1; ++s; }]: a 32-bit mask has its
    lowest bit within 32 steps. *)
Fixpoint shift_loop (fuel : nat) (mask s : Z) : Z :=
  match fuel with
  | O => s
  | S fuel' => if (mask & 1) =? 0 then shift_loop fuel' (mask >> 1) (s + 1) else s
  end.
Definition bit_shift (mask : Z) : Z := if negb (nz mask) then 0 else shift_loop 32 mask 0.

(** [while (mask) { n += mask & 1u; mask >>= 1; }] *)
Fixpoint count_loop (fuel : nat) (mask n : Z) : Z :=
  match fuel with
  | O => n
  | S fuel' => if nz mask then count_loop fuel' (mask >> 1) (n + (mask & 1)) else n
  end.
Definition bit_count (mask : Z) : Z := count_loop 32 mask 0.

Definition mask_is_contiguous (mask : Z) : bool :=
  if negb (nz mask) then false
  else let mask := mask >> bit_shift mask in (mask & u32 (mask + 1)) =? 0.

Definition pixel_format_is_usable (i : gop_mode) : bool :=
  match PixelFormat i with
  | PixelRedGreenBlueReserved8BitPerColor | PixelBlueGreenRedReserved8BitPerColor => true
  | PixelBitMask =>
      let red := RedMask (PixelInformation i) in
      let green := GreenMask (PixelInformation i) in
      let blue := BlueMask (PixelInformation i) in
      let reserved := ReservedMask (PixelInformation i) in
      let colors := Z.lor (Z.lor red green) blue in
      mask_is_contiguous red && mask_is_contiguous green && mask_is_contiguous blue &&
      negb (nz (red & green)) && negb (nz (red & blue)) && negb (nz (green & blue)) &&
      negb (nz (colors & reserved))
  | _ => false
  end.

Definition scale_to_mask (v mask : Z) : Z :=
  if negb (nz mask) then 0
  else
    let shift := bit_shift mask in
    let bits := bit_count mask in
    let maxv := if 32 <=? bits then 0xffffffff else (1 << bits) - 1 in
    let scaled := u32 (u64 (v * maxv + 127) / 255) in
    u32 (scaled << shift) & mask.

(** [located] is the mode of the protocol the firmware located: [None] when
    there is no protocol, no boot services or no mode. *)
Definition gop_init (g : argus_gop_t) (located : option gop_mode) : bool * argus_gop_t :=
  match located with
  | None => (false, set_usable g false)
  | Some i =>
      let g := mk_gop (gop_fb g) (HorizontalResolution i) (VerticalResolution i) (PixelsPerScanLine i)
                 (PixelFormat i) (PixelInformation i) (FrameBufferBase i) (FrameBufferSize i) false in
      if negb (pixel_format_is_usable i) || negb (nz (gop_width g)) || negb (nz (gop_height g)) ||
         (gop_pitch_pixels g <? gop_width g) || negb (nz (gop_fb_base g)) || nz (gop_fb_base g & 3)
      then (false, g)
      else
        let pixel_count := u64 (gop_pitch_pixels g * gop_height g) in
        if UINT64_MAX / 4 <? pixel_count then (false, g)
        else
          let required_bytes := u64 (pixel_count * 4) in
          if (gop_fb_size g <? required_bytes) || (UINT64_MAX - required_bytes <? gop_fb_base g)
          then (false, g)
          else (true, mk_gop (gop_fb_base g) (gop_width g) (gop_height g) (gop_pitch_pixels g)
                        (gop_format g) (gop_masks g) (gop_fb_base g) (gop_fb_size g) true)
  end.

Definition gop_rgb (g : argus_gop_t) (r gr b : Z) : Z :=
  match gop_format g with
  | PixelRedGreenBlueReserved8BitPerColor => Z.lor (Z.lor r (gr << 8)) (b << 16)
  | PixelBlueGreenRedReserved8BitPerColor => Z.lor (Z.lor b (gr << 8)) (r << 16)
  | PixelBitMask =>
      Z.lor (Z.lor (scale_to_mask r (RedMask (gop_masks g))) (scale_to_mask gr (GreenMask (gop_masks g))))
        (scale_to_mask b (BlueMask (gop_masks g)))
  | _ => 0
  end.

Definition gop_getpixel (g : argus_gop_t) (m : mem) (x y : Z) : Z :=
  if negb (gop_usable g) || (gop_width g <=? x) || (gop_height g <=? y) then 0
  else pixel m (gop_fb g) (gop_pitch_pixels g) x y.

Definition gop_putpixel (g : argus_gop_t) (m : mem) (x y packed : Z) : mem :=
  if negb (gop_usable g) || (gop_width g <=? x) || (gop_height g <=? y) then m
  else store32 m (pixel_address (gop_fb g) (gop_pitch_pixels g) x y) packed.

(** [gop_fill] is the loop of [gop_fill_rect] over the whole screen. *)
Definition gop_fill (g : argus_gop_t) (m : mem) (packed : Z) : mem :=
  if negb (gop_usable g) then m
  else for_range 0 (gop_height g) (fun y m =>
         fill_row m (pixel_address (gop_fb g) (gop_pitch_pixels g) 0 y) (gop_width g) packed) m.

Definition gop_fill_rect (g : argus_gop_t) (m : mem) (x y w h packed : Z) : mem :=
  if negb (gop_usable g) || (gop_width g <=? x) || (gop_height g <=? y) then m
  else
    let w := if gop_width g - x <? w then gop_width g - x else w in
    let h := if gop_height g - y <? h then gop_height g - y else h in
    fill_rows m (gop_fb g) (gop_pitch_pixels g) x y w h packed.

Definition gop_scroll_rect_up (g : argus_gop_t) (m : mem) (x y w h pixels fill_color : Z) : mem :=
  if negb (gop_usable g) || negb (nz pixels) || (gop_width g <=? x) || (gop_height g <=? y) then m
  else
    let w := if gop_width g - x <? w then gop_width g - x else w in
    let h := if gop_height g - y <? h then gop_height g - y else h in
    if negb (nz w) || negb (nz h) then m
    else if h <=? pixels then gop_fill_rect g m x y w h fill_color
    else
      let rows := h - pixels in
      let m := scroll_rows m (gop_fb g) (gop_pitch_pixels g) x y w rows pixels in
      gop_fill_rect g m x (u32 (y + rows)) w pixels fill_color.

Definition gop_scroll_up (g : argus_gop_t) (m : mem) (pixels fill_color : Z) : mem :=
  gop_scroll_rect_up g m 0 0 (gop_width g) (gop_height g) pixels fill_color.

Definition move_rect_rejected (g : argus_gop_t) (sx sy dx dy width height : Z) : bool :=
  negb (gop_usable g) || negb (nz width) || negb (nz height) ||
  (gop_width g <=? sx) || (gop_height g <=? sy) || (gop_width g <=? dx) || (gop_height g <=? dy) ||
  (gop_width g - sx <? width) || (gop_height g - sy <? height) ||
  (gop_width g - dx <? width) || (gop_height g - dy <? height).

(** One row of [gop_move_rect]. *)
Definition move_row (g : argus_gop_t) (m : mem) (sx sy dx dy width offset_y : Z) : mem :=
  let source := pixel_address (gop_fb g) (gop_pitch_pixels g) sx (u32 (sy + offset_y)) in
  let destination := pixel_address (gop_fb g) (gop_pitch_pixels g) dx (u32 (dy + offset_y)) in
  if (dy =? sy) && (sx <? dx) then copy_row_down m destination source (Z.to_nat width)
  else copy_row m destination source width.

Definition gop_move_rect (g : argus_gop_t) (m : mem)
    (source_x source_y destination_x destination_y width height : Z) : bool * mem :=
  if move_rect_rejected g source_x source_y destination_x destination_y width height then (false, m)
  else if (source_x =? destination_x) && (source_y =? destination_y) then (true, m)
  else
    let reverse_y := source_y <? destination_y in
    (true, for_range 0 height (fun row m =>
       move_row g m source_x source_y destination_x destination_y width
         (if reverse_y then height - 1 - row else row)) m).

(** ** Geometry *)

(** What [gop_init] establishes of a usable framebuffer. *)
Record gop_ok (g : argus_gop_t) : Prop := {
  go_usable : gop_usable g = true;
  go_width : 0 < gop_width g <= gop_pitch_pixels g;
  go_pitch : gop_pitch_pixels g <= UINT32_MAX;
  go_height : 0 < gop_height g <= UINT32_MAX;
  go_base : gop_fb g = gop_fb_base g /\ 0 < gop_fb_base g /\ gop_fb_base g mod 4 = 0;
  go_size : 4 * (gop_pitch_pixels g * gop_height g) <= gop_fb_size g;
  go_end : gop_fb_base g + 4 * (gop_pitch_pixels g * gop_height g) <= UINT64_MAX }.

Record mode_wf (i : gop_mode) : Prop := {
  mw_width : 0 <= HorizontalResolution i <= UINT32_MAX;
  mw_height : 0 <= VerticalResolution i <= UINT32_MAX;
  mw_pitch : 0 <= PixelsPerScanLine i <= UINT32_MAX;
  mw_base : 0 <= FrameBufferBase i <= UINT64_MAX }.

Lemma gop_init_ok g i g' : mode_wf i -> gop_init g (Some i) = (true, g') -> gop_ok g'.
Proof.
  intros [Hw Hh Hp Hb]. unfold gop_init. cbv zeta. cbn [gop_width gop_height gop_pitch_pixels gop_fb_base gop_fb_size].
  case_if; [done|]. case_if; [done|]. case_if; [done|]. intros [= <-].
  assert (FrameBufferBase i & 3 = FrameBufferBase i mod 4) as Hm by (change 3 with (2 ^ 2 - 1); by rewrite land_ones_mod).
  rewrite Hm in *. b2p.
  assert (0 <= PixelsPerScanLine i * VerticalResolution i <= UINT32_MAX * UINT32_MAX) by nia.
  rewrite (u64_id (PixelsPerScanLine i * _)) in * by (unfold UINT32_MAX, UINT64_MAX in *; lia).
  assert (PixelsPerScanLine i * VerticalResolution i <= UINT64_MAX / 4) as Hq by done.
  change (UINT64_MAX / 4) with 4611686018427387903 in Hq.
  rewrite (u64_id (_ * 4)) in * by (unfold UINT64_MAX; lia).
  constructor; cbn [gop_usable gop_width gop_height gop_pitch_pixels gop_fb gop_fb_base gop_fb_size]; try done; lia.
Qed.

(** The screen: what the framebuffer shows at (x, y). *)
Definition screen (g : argus_gop_t) (m : mem) (x y : Z) : Z := pixel m (gop_fb g) (gop_pitch_pixels g) x y.

(** The framebuffer's bytes. *)
Definition framebuffer_byte (g : argus_gop_t) (a : Z) : Prop :=
  in_rows (gop_fb g) (gop_pitch_pixels g) 0 (gop_height g) a.

Lemma framebuffer_byte_bounds g a :
  gop_ok g -> framebuffer_byte g a -> gop_fb_base g <= a < gop_fb_base g + gop_fb_size g.
Proof.
  intros [_ _ _ _ (Hb & _ & _) Hs _] Ha. unfold framebuffer_byte, in_rows, pixel_address in Ha. rewrite Hb in Ha.
  rewrite Z.add_0_l in Ha. split; [lia|]. eapply Z.lt_le_trans; [apply Ha|]. lia.
Qed.

Lemma gop_putpixel_spec g m x y packed :
  gop_ok g -> 0 <= x -> 0 <= y ->
  let m' := gop_putpixel g m x y packed in
  same_outside (gop_fb g) (gop_pitch_pixels g) 0 (gop_height g) m m' /\
  forall px py, 0 <= px < gop_width g -> 0 <= py < gop_height g ->
    screen g m' px py = if (px =? x) && (py =? y) then u32 packed else screen g m px py.
Proof.
  intros [Hu Hw Hp Hh _ _ _] Hx Hy. unfold gop_putpixel, screen. rewrite Hu. cbn [negb orb]. cbv zeta. case_if.
  - split; [auto with argus|]. intros px py Hpx Hpy. destruct (_ && _) eqn:E; [b2p; lia|done].
  - b2p. split; [apply same_outside_store; lia|]. intros px py Hpx Hpy. apply pixel_store; lia.
Qed.

Lemma gop_fill_rect_spec g m x y w h packed :
  gop_ok g -> 0 <= x -> 0 <= y -> 0 <= w -> 0 <= h ->
  let m' := gop_fill_rect g m x y w h packed in
  same_outside (gop_fb g) (gop_pitch_pixels g) 0 (gop_height g) m m' /\
  forall px py, 0 <= px < gop_width g -> 0 <= py < gop_height g ->
    screen g m' px py = if in_rect x y w h px py then u32 packed else screen g m px py.
Proof.
  intros [Hu Hw Hp Hh _ _ _] Hx Hy Hw0 Hh0. unfold gop_fill_rect, screen. rewrite Hu. cbn [negb orb]. cbv zeta. case_if.
  - split; [auto with argus|]. intros px py Hpx Hpy.
    destruct (in_rect x y w h px py) eqn:E; [apply in_rect_true in E; b2p; lia|done].
  - b2p. set (w' := if _ : bool then _ else w). set (h' := if _ : bool then _ else h).
    assert (0 <= w' <= w /\ x + w' <= gop_width g /\ (w' < w -> x + w' = gop_width g)) as Hw'
      by (unfold w'; case_if; b2p; lia).
    assert (0 <= h' <= h /\ y + h' <= gop_height g /\ (h' < h -> y + h' = gop_height g)) as Hh'
      by (unfold h'; case_if; b2p; lia).
    destruct (fill_rows_spec m (gop_fb g) (gop_pitch_pixels g) x y w' h' packed) as [F1 F2]; try lia. split.
    + eapply same_outside_wider; [| | |exact F1]; lia.
    + intros px py Hpx Hpy. rewrite F2 by lia.
      destruct (in_rect x y w' h' px py) eqn:E1, (in_rect x y w h px py) eqn:E2;
        try done; rewrite ?in_rect_true, ?in_rect_false in *; lia.
Qed.

Lemma move_row_spec g m sx sy dx dy width o :
  gop_ok g -> 0 <= sx -> 0 <= sy -> 0 <= dx -> 0 <= dy -> 0 <= o -> 0 <= width ->
  sx + width <= gop_width g -> dx + width <= gop_width g ->
  sy + o < gop_height g -> dy + o < gop_height g ->
  let m' := move_row g m sx sy dx dy width o in
  same_outside (gop_fb g) (gop_pitch_pixels g) (dy + o) 1 m m' /\
  forall px py, 0 <= px < gop_pitch_pixels g ->
    screen g m' px py
    = if in_rect dx (dy + o) width 1 px py then screen g m (sx + (px - dx)) (sy + o) else screen g m px py.
Proof.
  intros [_ Hw Hp Hh _ _ _] ? ? ? ? ? ? ? ? ? ?. unfold move_row, screen. cbv zeta. rewrite !u32_id by lia. case_if.
  - b2p. destruct (copy_row_down_spec m (gop_fb g) (gop_pitch_pixels g) dx (dy + o) sx (sy + o) (Z.to_nat width))
      as [F1 F2]; try lia. split; [done|]. intros px py Hpx. rewrite F2 by done. by rewrite Z2Nat.id.
  - apply andb_false_iff in Heqb. rewrite Z.eqb_neq, Z.ltb_ge in Heqb. apply copy_row_spec; lia.
Qed.

Lemma move_rect_accepted g sx sy dx dy width height :
  gop_ok g -> 0 <= sx -> 0 <= sy -> 0 <= dx -> 0 <= dy -> 0 <= width -> 0 <= height ->
  move_rect_rejected g sx sy dx dy width height = false <->
  0 < width /\ 0 < height /\ sx + width <= gop_width g /\ sy + height <= gop_height g
  /\ dx + width <= gop_width g /\ dy + height <= gop_height g.
Proof.
  intros [Hu _ _ _ _ _ _] **. unfold move_rect_rejected, nz. rewrite Hu.
  rewrite !orb_false_iff, !Z.leb_gt, !Z.ltb_ge, !negb_involutive, !Z.eqb_neq. cbn [negb]. lia.
Qed.

(** [gop_move_rect] is a two-dimensional memmove: it succeeds exactly when both
    rectangles lie on the screen, and then, however they overlap, every pixel of
    the destination shows what its source pixel showed before, no other pixel
    changes and nothing outside the framebuffer is written. *)
Theorem gop_move_rect_overlap_safe g m sx sy dx dy width height :
  gop_ok g -> 0 <= sx -> 0 <= sy -> 0 <= dx -> 0 <= dy -> 0 <= width -> 0 <= height ->
  let '(b, m') := gop_move_rect g m sx sy dx dy width height in
  (b = true <-> 0 < width /\ 0 < height /\ sx + width <= gop_width g /\ sy + height <= gop_height g
                /\ dx + width <= gop_width g /\ dy + height <= gop_height g)
  /\ (b = false -> m' = m)
  /\ (forall a, ~ framebuffer_byte g a -> mem_get m' a = mem_get m a)
  /\ (b = true -> forall px py, 0 <= px < gop_width g -> 0 <= py < gop_height g ->
        screen g m' px py = if in_rect dx dy width height px py then screen g m (sx + (px - dx)) (sy + (py - dy))
                            else screen g m px py).
Proof.
  intros Hok Hsx Hsy Hdx Hdy Hw Hh. pose proof Hok as [Hu Hgw _ Hgh _ _ _]. unfold gop_move_rect.
  pose proof (move_rect_accepted g sx sy dx dy width height Hok Hsx Hsy Hdx Hdy Hw Hh) as Hacc.
  destruct (move_rect_rejected _ _ _ _ _ _ _) eqn:Hr.
  { repeat split; try done; intros Hc; by apply Hacc in Hc. }
  pose proof (proj1 Hacc eq_refl) as Hin. case_if.
  { b2p. subst. split; [by rewrite <- Hacc|]. repeat split; try done. intros _ px py Hpx Hpy. case_if; [f_equal; lia|done]. }
  set (rev := sy <? dy). set (body := fun _ _ => _).
  enough (same_outside (gop_fb g) (gop_pitch_pixels g) 0 (gop_height g) m (for_range 0 height body m)
    /\ forall px py, 0 <= px < gop_pitch_pixels g -> screen g (for_range 0 height body m) px py
         = if in_rect dx (dy + (if rev then 0 else 0)) width height px py
           then screen g m (sx + (px - dx)) (sy + (py - dy)) else screen g m px py) as [E1 E2].
  { split; [by rewrite <- Hacc|]. repeat split; try done. intros _ px py Hpx Hpy. rewrite E2 by lia.
    destruct rev; by rewrite Z.add_0_r. }
  replace (if rev then 0 else 0) with (if rev then height - height else 0) by (destruct rev; lia).
  apply (for_range_inv (fun i m' => same_outside (gop_fb g) (gop_pitch_pixels g) 0 (gop_height g) m m'
    /\ forall px py, 0 <= px < gop_pitch_pixels g -> screen g m' px py
         = if in_rect dx (dy + (if rev then height - i else 0)) width i px py
           then screen g m (sx + (px - dx)) (sy + (py - dy)) else screen g m px py)); [lia| |].
  - split; [auto with argus|]. intros px py Hp. case_if; [|done]. match goal with H : in_rect _ _ _ 0 _ _ = true |- _ => apply in_rect_true in H end. lia.
  - intros i m' Hi [H1 H2]. unfold body. set (o := if rev then height - 1 - i else i).
    assert (0 <= o < height) by (unfold o; destruct rev; lia).
    destruct (move_row_spec g m' sx sy dx dy width o) as [F1 F2]; try lia; [done|]. split.
    + eapply same_outside_trans; [exact H1|]. eapply same_outside_wider; [| | |exact F1]; lia.
    + intros px py Hp. rewrite F2 by done.
      destruct (in_rect dx (dy + o) width 1 px py) eqn:Eo.
      * apply in_rect_true in Eo. rewrite H2 by lia.
        assert (in_rect dx (dy + (if rev then height - i else 0)) width i (sx + (px - dx)) (sy + o) = false) as ->.
        { apply in_rect_false. unfold o, rev in *. destruct (Z.ltb_spec sy dy); lia. }
        assert (in_rect dx (dy + (if rev then height - (i + 1) else 0)) width (i + 1) px py = true) as ->.
        { apply in_rect_true. unfold o, rev in *. destruct (Z.ltb_spec sy dy); lia. }
        f_equal. lia.
      * rewrite H2 by done. apply in_rect_false in Eo.
        destruct (in_rect dx (dy + (if rev then height - i else 0)) width i px py) eqn:E1,
          (in_rect dx (dy + (if rev then height - (i + 1) else 0)) width (i + 1) px py) eqn:E2;
          try done; rewrite ?in_rect_true, ?in_rect_false in *; unfold o in *; destruct rev; lia.
Qed.

Definition sample_screen : argus_gop_t :=
  mk_gop 0x1000 8 6 8 PixelBlueGreenRedReserved8BitPerColor (mk_masks 0 0 0 0) 0x1000 4096 true.
Lemma sample_screen_ok : gop_ok sample_screen.
Proof. constructor; cbn; unfold UINT32_MAX, UINT64_MAX; lia || done. Qed.

(** A move of overlapping rectangles, one row down and one column right. *)
Lemma gop_move_rect_overlap_safe_witness :
  screen sample_screen (snd (gop_move_rect sample_screen (gop_putpixel sample_screen ∅ 1 1 9) 0 0 1 1 3 3)) 2 2 = 9.
Proof.
  pose proof (gop_move_rect_overlap_safe sample_screen (gop_putpixel sample_screen ∅ 1 1 9) 0 0 1 1 3 3 sample_screen_ok
    ltac:(lia) ltac:(lia) ltac:(lia) ltac:(lia) ltac:(lia) ltac:(lia)) as H.
  destruct (gop_move_rect _ _ _ _ _ _ _ _) as [b m'] eqn:E. destruct H as (Hb & _ & _ & Hp). cbn [snd].
  assert (b = true) as -> by (apply Hb; cbn; lia).
  rewrite (Hp eq_refl 2 2) by (cbn; lia). vm_compute. reflexivity.
Defined.
