(* ===== verification/Surface.v ===== *)
(** * Surfaces and the font (src/surface.c, src/surface.h, src/font5x7.c)

    A surface is a plane of pixels in the kernel heap with a record of the
    region drawn since the last composition.  Surfaces are objects the rest of
    the kernel holds pointers to (windows, the panel, the console), so they live
    in a store from addresses to records; an address that holds no surface
    stands for a null pointer. *)

From stdpp Require Import base list gmap numbers.
From Stdlib Require Import ZArith Lia.
From S2P Require Import Prelude Memory BootInfo Allocator Pmm Heap Raster Gop.

Open Scope Z_scope.

(** ** src/font5x7.c *)

(** The glyphs, a character code with its seven rows. *)
Definition glyphs : list (Z * list Z) := [
   (48, [0xe; 0x11; 0x13; 0x15; 0x19; 0x11; 0xe]); (49, [0x4; 0xc; 0x4; 0x4; 0x4; 0x4; 0xe]);
   (50, [0xe; 0x11; 0x1; 0x2; 0x4; 0x8; 0x1f]); (51, [0x1e; 0x1; 0x1; 0xe; 0x1; 0x1; 0x1e]);
   (52, [0x2; 0x6; 0xa; 0x12; 0x1f; 0x2; 0x2]); (53, [0x1f; 0x10; 0x10; 0x1e; 0x1; 0x1; 0x1e]);
   (54, [0xe; 0x10; 0x10; 0x1e; 0x11; 0x11; 0xe]); (55, [0x1f; 0x1; 0x2; 0x4; 0x8; 0x8; 0x8]);
   (56, [0xe; 0x11; 0x11; 0xe; 0x11; 0x11; 0xe]); (57, [0xe; 0x11; 0x11; 0xf; 0x1; 0x1; 0xe]);
   (65, [0xe; 0x11; 0x11; 0x1f; 0x11; 0x11; 0x11]); (66, [0x1e; 0x11; 0x11; 0x1e; 0x11; 0x11; 0x1e]);
   (67, [0xf; 0x10; 0x10; 0x10; 0x10; 0x10; 0xf]); (68, [0x1e; 0x11; 0x11; 0x11; 0x11; 0x11; 0x1e]);
   (69, [0x1f; 0x10; 0x10; 0x1e; 0x10; 0x10; 0x1f]); (70, [0x1f; 0x10; 0x10; 0x1e; 0x10; 0x10; 0x10]);
   (71, [0xf; 0x10; 0x10; 0x17; 0x11; 0x11; 0xf]); (72, [0x11; 0x11; 0x11; 0x1f; 0x11; 0x11; 0x11]);
   (73, [0xe; 0x4; 0x4; 0x4; 0x4; 0x4; 0xe]); (74, [0x1; 0x1; 0x1; 0x1; 0x11; 0x11; 0xe]);
   (75, [0x11; 0x12; 0x14; 0x18; 0x14; 0x12; 0x11]); (76, [0x10; 0x10; 0x10; 0x10; 0x10; 0x10; 0x1f]);
   (77, [0x11; 0x1b; 0x15; 0x15; 0x11; 0x11; 0x11]); (78, [0x11; 0x19; 0x15; 0x13; 0x11; 0x11; 0x11]);
   (79, [0xe; 0x11; 0x11; 0x11; 0x11; 0x11; 0xe]); (80, [0x1e; 0x11; 0x11; 0x1e; 0x10; 0x10; 0x10]);
   (81, [0xe; 0x11; 0x11; 0x11; 0x15; 0x12; 0xd]); (82, [0x1e; 0x11; 0x11; 0x1e; 0x14; 0x12; 0x11]);
   (83, [0xf; 0x10; 0x10; 0xe; 0x1; 0x1; 0x1e]); (84, [0x1f; 0x4; 0x4; 0x4; 0x4; 0x4; 0x4]);
   (85, [0x11; 0x11; 0x11; 0x11; 0x11; 0x11; 0xe]); (86, [0x11; 0x11; 0x11; 0x11; 0x11; 0xa; 0x4]);
   (87, [0x11; 0x11; 0x11; 0x15; 0x15; 0x15; 0xa]); (88, [0x11; 0x11; 0xa; 0x4; 0xa; 0x11; 0x11]);
   (89, [0x11; 0x11; 0xa; 0x4; 0x4; 0x4; 0x4]); (90, [0x1f; 0x1; 0x2; 0x4; 0x8; 0x10; 0x1f]);
   (46, [0; 0; 0; 0; 0; 0xc; 0xc]); (44, [0; 0; 0; 0; 0xc; 0x4; 0x8]);
   (58, [0; 0xc; 0xc; 0; 0xc; 0xc; 0]); (59, [0; 0xc; 0xc; 0; 0xc; 0x4; 0x8]);
   (45, [0; 0; 0; 0x1f; 0; 0; 0]); (95, [0; 0; 0; 0; 0; 0; 0x1f]);
   (43, [0; 0x4; 0x4; 0x1f; 0x4; 0x4; 0]); (61, [0; 0; 0x1f; 0; 0x1f; 0; 0]);
   (47, [0x1; 0x2; 0x2; 0x4; 0x8; 0x8; 0x10]); (92, [0x10; 0x8; 0x8; 0x4; 0x2; 0x2; 0x1]);
   (40, [0x2; 0x4; 0x8; 0x8; 0x8; 0x4; 0x2]); (41, [0x8; 0x4; 0x2; 0x2; 0x2; 0x4; 0x8]);
   (91, [0xe; 0x8; 0x8; 0x8; 0x8; 0x8; 0xe]); (93, [0xe; 0x2; 0x2; 0x2; 0x2; 0x2; 0xe]);
   (60, [0x2; 0x4; 0x8; 0x10; 0x8; 0x4; 0x2]); (62, [0x8; 0x4; 0x2; 0x1; 0x2; 0x4; 0x8]);
   (33, [0x4; 0x4; 0x4; 0x4; 0x4; 0; 0x4]); (63, [0xe; 0x11; 0x1; 0x2; 0x4; 0; 0x4]);
   (35, [0xa; 0xa; 0x1f; 0xa; 0x1f; 0xa; 0xa]); (42, [0; 0xa; 0x4; 0x1f; 0x4; 0xa; 0]);
   (64, [0xe; 0x11; 0x17; 0x15; 0x17; 0x10; 0xe]); (37, [0x19; 0x19; 0x2; 0x4; 0x8; 0x13; 0x13]);
   (38, [0xc; 0x12; 0x14; 0x8; 0x15; 0x12; 0xd]); (124, [0x4; 0x4; 0x4; 0x4; 0x4; 0x4; 0x4]);
   (39, [0x4; 0x4; 0x8; 0; 0; 0; 0]); (34, [0xa; 0xa; 0x14; 0; 0; 0; 0])].

Definition font5x7_row (c row : Z) : Z :=
  if 7 <=? row then 0
  else
    let c := if (97 <=? c) && (c <=? 122) then c - 97 + 65 else c in
    if c =? 32 then 0
    else match find (fun g => fst g =? c) glyphs with
         | Some g => zget 0 (snd g) row
         | None => if (row =? 0) || (row =? 6) then 0x1F else 0x11
         end.

(** ** src/surface.c *)

Record argus_rect_t := mk_rect { rect_x : Z; rect_y : Z; rect_width : Z; rect_height : Z }.

Record argus_surface_t := mk_surface {
  sf_pixels : Z;
  sf_width : Z;
  sf_height : Z;
  sf_stride : Z;
  sf_dirty : bool;
  sf_damage : argus_rect_t }.

Definition rect0 : argus_rect_t := mk_rect 0 0 0 0.
Definition surface0 : argus_surface_t := mk_surface 0 0 0 0 false rect0.

(** What drawing works on: the surface objects, the framebuffer and the kernel
    heap with the memory behind it. *)
Record display := mk_display {
  dp_surfaces : gmap Z argus_surface_t;
  dp_gop : argus_gop_t;
  dp_heap : heap_state }.

Definition dp_mem (d : display) : mem := heap_mem (dp_heap d).
Definition surface_at (d : display) (surface : Z) : option argus_surface_t := dp_surfaces d !! surface.
Definition put_surface (d : display) (surface : Z) (s : argus_surface_t) : display :=
  mk_display (<[surface := s]> (dp_surfaces d)) (dp_gop d) (dp_heap d).
Definition put_mem (d : display) (m : mem) : display :=
  mk_display (dp_surfaces d) (dp_gop d) (with_mem (dp_heap d) m).
Definition put_heap (d : display) (h : heap_state) : display := mk_display (dp_surfaces d) (dp_gop d) h.

Definition set_damage (s : argus_surface_t) (dirty : bool) (damage : argus_rect_t) : argus_surface_t :=
  mk_surface (sf_pixels s) (sf_width s) (sf_height s) (sf_stride s) dirty damage.

Definition minimum (left right : Z) : Z := if left <? right then left else right.
Definition maximum (left right : Z) : Z := if right <? left then left else right.

(** The fields [surface_valid] looks at. *)
Definition valid_fields (s : argus_surface_t) : bool :=
  nz (sf_pixels s) && nz (sf_width s) && nz (sf_height s) && (sf_width s <=? sf_stride s).
Definition surface_valid (d : display) (surface : Z) : bool :=
  match surface_at d surface with Some s => valid_fields s | None => false end.

Definition surface_init (d : display) (surface width height : Z) : bool * display :=
  match surface_at d surface with
  | None => (false, d)
  | Some _ =>
      if negb (nz width) || negb (nz height) then (false, d)
      else
        let pixels := u64 (width * height) in
        if UINT64_MAX / 4 <? pixels then (false, d)
        else
          let '(storage, h) := kmalloc (dp_heap d) (u64 (pixels * 4)) in
          let d := put_heap d h in
          if negb (nz storage) then (false, d)
          else (true, put_surface d surface (mk_surface storage width height width false rect0))
  end.

Definition surface_destroy (d : display) (surface : Z) : display :=
  match surface_at d surface with
  | None => d
  | Some s =>
      let d := if nz (sf_pixels s) then put_heap d (snd (kfree (dp_heap d) (sf_pixels s))) else d in
      put_surface d surface surface0
  end.

(** The new damage of a surface that is already dirty. *)
Definition join_damage (damage : argus_rect_t) (x y width height : Z) : argus_rect_t :=
  let left := minimum (rect_x damage) x in
  let top := minimum (rect_y damage) y in
  let right := maximum (u32 (rect_x damage + rect_width damage)) (u32 (x + width)) in
  let bottom := maximum (u32 (rect_y damage + rect_height damage)) (u32 (y + height)) in
  mk_rect left top (u32 (right - left)) (u32 (bottom - top)).

(** [!surface_valid(surface) || x >= surface->width || y >= surface->height] *)
Definition off_surface (s : argus_surface_t) (x y : Z) : bool :=
  negb (valid_fields s) || (sf_width s <=? x) || (sf_height s <=? y).

Definition surface_mark_dirty (d : display) (surface x y width height : Z) : display :=
  match surface_at d surface with
  | None => d
  | Some s =>
      if off_surface s x y then d
      else
        let width := minimum width (sf_width s - x) in
        let height := minimum height (sf_height s - y) in
        if negb (nz width) || negb (nz height) then d
        else if negb (sf_dirty s) then put_surface d surface (set_damage s true (mk_rect x y width height))
        else put_surface d surface (set_damage s (sf_dirty s) (join_damage (sf_damage s) x y width height))
  end.

Definition surface_take_damage (d : display) (surface : Z) : option argus_rect_t * display :=
  match surface_at d surface with
  | None => (None, d)
  | Some s =>
      if negb (valid_fields s) || negb (sf_dirty s) then (None, d)
      else (Some (sf_damage s), put_surface d surface (set_damage s false rect0))
  end.

Definition surface_clear (d : display) (surface color : Z) : display :=
  match surface_at d surface with
  | None => d
  | Some s =>
      if negb (valid_fields s) then d
      else
        let m := for_range 0 (sf_height s) (fun y m =>
                   fill_row m (pixel_address (sf_pixels s) (sf_stride s) 0 y) (sf_width s) color) (dp_mem d) in
        surface_mark_dirty (put_mem d m) surface 0 0 (sf_width s) (sf_height s)
  end.

Definition surface_fill_rect (d : display) (surface x y width height color : Z) : display :=
  match surface_at d surface with
  | None => d
  | Some s =>
      if off_surface s x y then d
      else
        let width := minimum width (sf_width s - x) in
        let height := minimum height (sf_height s - y) in
        if negb (nz width) || negb (nz height) then d
        else
          let m := fill_rows (dp_mem d) (sf_pixels s) (sf_stride s) x y width height color in
          surface_mark_dirty (put_mem d m) surface x y width height
  end.

Definition surface_putpixel (d : display) (surface x y color : Z) : display :=
  match surface_at d surface with
  | None => d
  | Some s =>
      if off_surface s x y then d
      else
        let m := store32 (dp_mem d) (pixel_address (sf_pixels s) (sf_stride s) x y) color in
        surface_mark_dirty (put_mem d m) surface x y 1 1
  end.

Definition surface_getpixel (d : display) (surface x y : Z) : Z :=
  match surface_at d surface with
  | None => 0
  | Some s => if off_surface s x y then 0 else pixel (dp_mem d) (sf_pixels s) (sf_stride s) x y
  end.

Definition surface_scroll_rect_up (d : display) (surface x y width height pixels fill_color : Z) : display :=
  match surface_at d surface with
  | None => d
  | Some s =>
      if negb (valid_fields s) || negb (nz pixels) || (sf_width s <=? x) || (sf_height s <=? y) then d
      else
        let width := minimum width (sf_width s - x) in
        let height := minimum height (sf_height s - y) in
        if negb (nz width) || negb (nz height) then d
        else if height <=? pixels then surface_fill_rect d surface x y width height fill_color
        else
          let rows := height - pixels in
          let m := scroll_rows (dp_mem d) (sf_pixels s) (sf_stride s) x y width rows pixels in
          let d := surface_fill_rect (put_mem d m) surface x (u32 (y + rows)) width pixels fill_color in
          surface_mark_dirty d surface x y width height
  end.

(** One character of [surface_draw_text]. *)
Definition draw_character (d : display) (surface character x y scale color : Z) : display :=
  for_range 0 7 (fun row d =>
    let bits := font5x7_row character row in
    for_range 0 5 (fun column d =>
      if nz (bits & (1 << (4 - column)))
      then surface_fill_rect d surface (u32 (x + u32 (column * scale))) (u32 (y + u32 (row * scale))) scale scale color
      else d) d) d.

(** The text up to its terminating zero. *)
Fixpoint draw_characters (d : display) (surface : Z) (text : list Z) (x y scale color : Z) : display :=
  match text with
  | [] => d
  | character :: text' =>
      if character =? 0 then d
      else
        let d := draw_character d surface character x y scale color in
        if u32 (UINT32_MAX - u32 (6 * scale)) <? x then d
        else draw_characters d surface text' (u32 (x + u32 (6 * scale))) y scale color
  end.

Definition surface_draw_text (d : display) (surface : Z) (text : list Z) (x y scale color : Z) : display :=
  if negb (surface_valid d surface) || negb (nz scale) then d
  else draw_characters d surface text x y scale color.

(** [test] is the address of the routine's local surface object. *)
Definition surface_self_test (d : display) (test : Z) : bool * display :=
  let '(ok, d) := surface_init (put_surface d test surface0) test 8 8 in
  if negb ok then (false, d)
  else
    let d := surface_clear d test 0x11 in
    let d := surface_fill_rect d test 2 2 3 3 0x22 in
    let valid := (surface_getpixel d test 0 0 =? 0x11) && (surface_getpixel d test 2 2 =? 0x22) &&
                 (surface_getpixel d test 4 4 =? 0x22) && (surface_getpixel d test 5 5 =? 0x11) in
    let d := surface_scroll_rect_up d test 2 2 3 3 1 0x33 in
    let valid := (surface_getpixel d test 2 4 =? 0x33) && valid in
    let '(taken, d) := surface_take_damage d test in
    let valid := match taken with
                 | Some damage => (rect_x damage =? 0) && (rect_y damage =? 0) &&
                                  (rect_width damage =? 8) && (rect_height damage =? 8) && valid
                 | None => false
                 end in
    let '(again, d) := surface_take_damage d test in
    let valid := match again with Some _ => false | None => valid end in
    (valid, surface_destroy d test).

(** ** Well-formed surfaces and their damage *)

Record surface_ok (s : argus_surface_t) : Prop := {
  so_pixels : 0 < sf_pixels s;
  so_width : 0 < sf_width s <= sf_stride s;
  so_stride : sf_stride s <= UINT32_MAX;
  so_height : 0 < sf_height s <= UINT32_MAX;
  so_damage : sf_dirty s = true ->
    0 <= rect_x (sf_damage s) /\ 0 <= rect_y (sf_damage s)
    /\ 0 < rect_width (sf_damage s) /\ 0 < rect_height (sf_damage s)
    /\ rect_x (sf_damage s) + rect_width (sf_damage s) <= sf_width s
    /\ rect_y (sf_damage s) + rect_height (sf_damage s) <= sf_height s }.

Lemma valid_of_ok s : surface_ok s -> valid_fields s = true.
Proof.
  intros [Hp Hw _ Hh _]. unfold valid_fields, nz. rewrite !andb_true_iff, !negb_true_iff, !Z.eqb_neq, Z.leb_le. lia.
Qed.

Definition covers (r : argus_rect_t) (x y : Z) : bool :=
  in_rect (rect_x r) (rect_y r) (rect_width r) (rect_height r) x y.
Definition damaged (s : argus_surface_t) (x y : Z) : bool := sf_dirty s && covers (sf_damage s) x y.

Lemma covers_true r x y :
  covers r x y = true <->
  rect_x r <= x < rect_x r + rect_width r /\ rect_y r <= y < rect_y r + rect_height r.
Proof. apply in_rect_true. Qed.

Definition surface_pixel (m : mem) (s : argus_surface_t) (x y : Z) : Z := pixel m (sf_pixels s) (sf_stride s) x y.

Definition on_surface (s : argus_surface_t) (x y : Z) : Prop := 0 <= x < sf_width s /\ 0 <= y < sf_height s.

Lemma minimum_min a b : minimum a b = Z.min a b.
Proof. unfold minimum. destruct (Z.ltb_spec a b); lia. Qed.
Lemma maximum_max a b : maximum a b = Z.max a b.
Proof. unfold maximum. destruct (Z.ltb_spec b a); lia. Qed.

(** The C test [!width || !height]. *)
Lemma empty_true w h : negb (nz w) || negb (nz h) = true -> w = 0 \/ h = 0.
Proof. unfold nz. destruct (Z.eqb_spec w 0), (Z.eqb_spec h 0); auto; done. Qed.

Lemma off_surface_true s x y : surface_ok s -> 0 <= x -> 0 <= y -> off_surface s x y = true -> ~ on_surface s x y.
Proof. intros Hok Hx Hy. unfold off_surface, on_surface. rewrite (valid_of_ok s Hok). cbn [negb orb]. intros H. b2p. lia. Qed.
Lemma off_surface_false s x y : surface_ok s -> 0 <= x -> 0 <= y -> off_surface s x y = false -> on_surface s x y.
Proof. intros Hok Hx Hy. unfold off_surface, on_surface. rewrite (valid_of_ok s Hok). cbn [negb orb]. intros H. b2p. lia. Qed.

(** The smallest rectangle around two. *)
Lemma join_damage_spec r x y w h W H :
  0 <= rect_x r -> 0 <= rect_y r -> 0 < rect_width r -> 0 < rect_height r ->
  rect_x r + rect_width r <= W -> rect_y r + rect_height r <= H ->
  0 <= x -> 0 <= y -> 0 < w -> 0 < h -> x + w <= W -> y + h <= H -> W <= UINT32_MAX -> H <= UINT32_MAX ->
  join_damage r x y w h
  = mk_rect (Z.min (rect_x r) x) (Z.min (rect_y r) y)
      (Z.max (rect_x r + rect_width r) (x + w) - Z.min (rect_x r) x)
      (Z.max (rect_y r + rect_height r) (y + h) - Z.min (rect_y r) y).
Proof.
  intros. unfold join_damage. cbv zeta. rewrite !minimum_min, !maximum_max.
  rewrite (u32_id (rect_x r + _)), (u32_id (rect_y r + _)), (u32_id (x + w)), (u32_id (y + h)) by lia.
  rewrite !u32_id by lia. done.
Qed.

(** ** What drawing does: [redraw]

    [redraw p s d s' d']: the surface [s] at [p] was drawn on.  It is the same
    plane, its damage has grown, every pixel that changed is inside its damage,
    and nothing outside its rows changed. *)
Record redraw (p : Z) (s : argus_surface_t) (d : display) (s' : argus_surface_t) (d' : display) : Prop := {
  rd_gop : dp_gop d' = dp_gop d;
  rd_heap : dp_heap d' = with_mem (dp_heap d) (dp_mem d');
  rd_surfaces : dp_surfaces d' = <[p := s']> (dp_surfaces d);
  rd_plane : sf_pixels s' = sf_pixels s /\ sf_width s' = sf_width s /\ sf_height s' = sf_height s
             /\ sf_stride s' = sf_stride s;
  rd_ok : surface_ok s';
  rd_grows : forall x y, damaged s x y = true -> damaged s' x y = true;
  rd_changed : forall x y, on_surface s x y -> damaged s' x y = false ->
                 surface_pixel (dp_mem d') s x y = surface_pixel (dp_mem d) s x y;
  rd_outside : same_outside (sf_pixels s) (sf_stride s) 0 (sf_height s) (dp_mem d) (dp_mem d') }.

Lemma redraw_refl p s d : surface_at d p = Some s -> surface_ok s -> redraw p s d s d.
Proof.
  intros Hp Hok. constructor; try done; [by destruct d as [? ? []]|by rewrite insert_id].
Qed.

Lemma redraw_trans p s d s1 d1 s2 d2 : redraw p s d s1 d1 -> redraw p s1 d1 s2 d2 -> redraw p s d s2 d2.
Proof.
  intros [G1 H1 S1 (A & B & C & D) O1 I1 X1 M1] [G2 H2 S2 (A' & B' & C' & D') O2 I2 X2 M2].
  assert (forall m x y, surface_pixel m s1 x y = surface_pixel m s x y) as Hpx
    by (intros; unfold surface_pixel; by rewrite A, D).
  constructor; try congruence.
  - rewrite H2, H1. by destruct d2 as [? ? []].
  - by rewrite S2, S1, insert_insert_eq.
  - split_and!; congruence.
  - auto.
  - intros x y Hxy Hd. rewrite <- !Hpx, X2, !Hpx; [|by unfold on_surface in *; rewrite B, C|done].
    apply X1; [done|]. destruct (damaged s1 x y) eqn:E; [|done]. by rewrite (I2 _ _ E) in Hd.
  - rewrite A, C, D in M2. by eapply same_outside_trans.
Qed.

Lemma redraw_at p s d s' d' : redraw p s d s' d' -> surface_at d' p = Some s'.
Proof. intros H. unfold surface_at. rewrite (rd_surfaces _ _ _ _ _ H). apply lookup_insert_eq. Qed.

Lemma redraw_others p s d s' d' q : redraw p s d s' d' -> q <> p -> surface_at d' q = surface_at d q.
Proof. intros H Hq. unfold surface_at. rewrite (rd_surfaces _ _ _ _ _ H). by rewrite lookup_insert_ne. Qed.

(** ** Marking *)

Lemma mark_damage_spec s x y w h :
  surface_ok s -> on_surface s x y -> 0 < w -> 0 < h -> x + w <= sf_width s -> y + h <= sf_height s ->
  let s' := if negb (sf_dirty s) then set_damage s true (mk_rect x y w h)
            else set_damage s (sf_dirty s) (join_damage (sf_damage s) x y w h) in
  surface_ok s' /\ forall px py, damaged s px py = true \/ in_rect x y w h px py = true -> damaged s' px py = true.
Proof.
  intros [Hp Hw Hs Hh Hd] [Hx Hy] Hw0 Hh0 Hxw Hyh. cbv zeta. destruct (sf_dirty s) eqn:E; cbn [negb].
  - destruct (Hd eq_refl) as (D1 & D2 & D3 & D4 & D5 & D6).
    rewrite (join_damage_spec _ _ _ _ _ (sf_width s) (sf_height s)) by lia. split.
    + constructor; cbn; try done. intros _. lia.
    + intros px py. unfold damaged. rewrite E. cbn. unfold covers. rewrite !in_rect_true. cbn. lia.
  - split; [constructor; cbn; try done; intros _; lia|].
    intros px py [Hb|Hb]; [unfold damaged in Hb; by rewrite E in Hb|]. exact Hb.
Qed.

(** A store confined to the rows and the marked rectangle, followed by the
    marking. *)
Lemma mark_redraw p s d m x y w h :
  surface_at d p = Some s -> surface_ok s -> on_surface s x y -> 0 < w -> 0 < h ->
  same_outside (sf_pixels s) (sf_stride s) 0 (sf_height s) (dp_mem d) m ->
  (forall px py, on_surface s px py -> in_rect x y w h px py = false ->
     surface_pixel m s px py = surface_pixel (dp_mem d) s px py) ->
  exists s', redraw p s d s' (surface_mark_dirty (put_mem d m) p x y w h)
    /\ dp_mem (surface_mark_dirty (put_mem d m) p x y w h) = m.
Proof.
  intros Hp Hok Hxy Hw Hh Hout Hpx. unfold surface_mark_dirty.
  change (surface_at (put_mem d m) p) with (surface_at d p). rewrite Hp.
  destruct (off_surface s x y) eqn:Eo; [exfalso; destruct Hxy; eapply off_surface_true in Eo; unfold on_surface in *; try done; lia|].
  cbv zeta. rewrite !minimum_min. destruct Hxy as [Hx Hy].
  set (w' := Z.min w _). set (h' := Z.min h _).
  assert (0 < w' <= w /\ x + w' <= sf_width s /\ (w' < w -> x + w' = sf_width s)) as Hw' by lia.
  assert (0 < h' <= h /\ y + h' <= sf_height s /\ (h' < h -> y + h' = sf_height s)) as Hh' by lia.
  assert (negb (nz w') || negb (nz h') = false) as ->.
  { unfold nz. destruct (Z.eqb_spec w' 0), (Z.eqb_spec h' 0); done || lia. }
  destruct (mark_damage_spec s x y w' h' Hok) as [Hok' Hd']; [done|lia|lia|lia|lia|].
  exists (if negb (sf_dirty s) then set_damage s true (mk_rect x y w' h')
          else set_damage s (sf_dirty s) (join_damage (sf_damage s) x y w' h')).
  set (s' := if _ : bool then _ else _) in *.
  assert ((if negb (sf_dirty s) then put_surface (put_mem d m) p (set_damage s true (mk_rect x y w' h'))
    else put_surface (put_mem d m) p (set_damage s (sf_dirty s) (join_damage (sf_damage s) x y w' h')))
    = put_surface (put_mem d m) p s') as -> by (unfold s'; by destruct (sf_dirty s)).
  split; [|done]. constructor; try done.
  - unfold s'. by destruct (negb (sf_dirty s)).
  - intros px py Hd. apply Hd'. by left.
  - intros px py Hon Hd. apply Hpx; [done|]. destruct (in_rect x y w h px py) eqn:E; [|done].
    rewrite Hd' in Hd; [done|]. right. destruct Hon as [Hox Hoy]. rewrite in_rect_true in *. lia.
Qed.

(** ** Exact effect of the drawing operations *)

(** [drawn p s d d' f]: [d'] is a redraw of the surface, and [f] says which
    pixels have new values. *)
Definition drawn (p : Z) (s : argus_surface_t) (d d' : display) (f : Z -> Z -> Z) : Prop :=
  (exists s', redraw p s d s' d') /\
  forall x y, on_surface s x y -> surface_pixel (dp_mem d') s x y = f x y.

Lemma drawn_nothing p s d f :
  surface_at d p = Some s -> surface_ok s ->
  (forall x y, on_surface s x y -> f x y = surface_pixel (dp_mem d) s x y) -> drawn p s d d f.
Proof. intros Hp Hok Hf. split; [exists s; by apply redraw_refl|]. intros. by rewrite Hf. Qed.

Lemma drawn_marked p s d m x y w h f :
  surface_at d p = Some s -> surface_ok s -> on_surface s x y -> 0 < w -> 0 < h ->
  same_outside (sf_pixels s) (sf_stride s) 0 (sf_height s) (dp_mem d) m ->
  (forall px py, on_surface s px py -> surface_pixel m s px py = f px py) ->
  (forall px py, on_surface s px py -> in_rect x y w h px py = false -> f px py = surface_pixel (dp_mem d) s px py) ->
  drawn p s d (surface_mark_dirty (put_mem d m) p x y w h) f.
Proof.
  intros Hp Hok Hxy Hw Hh Hout Hf Hsame.
  destruct (mark_redraw p s d m x y w h) as (s' & Hr & Hm); try done.
  { intros. by rewrite Hf, Hsame. }
  split; [by exists s'|]. intros. by rewrite Hm, Hf.
Qed.

Lemma fill_rect_drawn d p s x y w h color :
  surface_at d p = Some s -> surface_ok s -> 0 <= x -> 0 <= y -> 0 <= w -> 0 <= h ->
  drawn p s d (surface_fill_rect d p x y w h color)
    (fun px py => if in_rect x y w h px py then u32 color else surface_pixel (dp_mem d) s px py).
Proof.
  intros Hp Hok Hx Hy Hw Hh. pose proof Hok as [_ Hsw Hss Hsh _]. unfold surface_fill_rect. rewrite Hp.
  destruct (off_surface s x y) eqn:Eo.
  { apply off_surface_true in Eo; [|done..]. apply drawn_nothing; [done..|]. intros px py [Hpx Hpy].
    case_if; [|done]. match goal with H : in_rect _ _ _ _ _ _ = true |- _ => apply in_rect_true in H end.
    exfalso. apply Eo. unfold on_surface. lia. }
  apply off_surface_false in Eo as Hxy; [|done..]. pose proof Hxy as [Hx1 Hy1]. cbv zeta. rewrite !minimum_min.
  set (w' := Z.min w _). set (h' := Z.min h _).
  assert (0 <= w' <= w /\ x + w' <= sf_width s /\ (w' < w -> x + w' = sf_width s)) as Hw' by lia.
  assert (0 <= h' <= h /\ y + h' <= sf_height s /\ (h' < h -> y + h' = sf_height s)) as Hh' by lia.
  assert (forall px py, on_surface s px py -> in_rect x y w h px py = in_rect x y w' h' px py) as Hin.
  { intros px py [Hpx Hpy]. apply eq_true_iff_eq. rewrite !in_rect_true. lia. }
  destruct (negb (nz w') || negb (nz h')) eqn:Ee.
  { apply empty_true in Ee. apply drawn_nothing; [done..|]. intros px py Hon. rewrite (Hin _ _ Hon).
    case_if; [|done]. match goal with H : in_rect _ _ _ _ _ _ = true |- _ => apply in_rect_true in H end. lia. }
  b2p. destruct (fill_rows_spec (dp_mem d) (sf_pixels s) (sf_stride s) x y w' h' color) as [F1 F2]; try lia.
  apply drawn_marked; [done|done|done|lia|lia| | |].
  - eapply same_outside_wider; [| | |exact F1]; lia.
  - intros px py Hon. rewrite (Hin _ _ Hon). unfold surface_pixel. destruct Hon. rewrite F2 by lia. done.
  - intros px py Hon Hr. by rewrite (Hin _ _ Hon), Hr.
Qed.

Lemma clear_drawn d p s color :
  surface_at d p = Some s -> surface_ok s -> drawn p s d (surface_clear d p color) (fun _ _ => u32 color).
Proof.
  intros Hp Hok. pose proof Hok as [_ Hsw Hss Hsh _]. unfold surface_clear. rewrite Hp, (valid_of_ok s Hok). cbn [negb].
  cbv zeta. set (m := for_range _ _ _ _).
  assert (same_outside (sf_pixels s) (sf_stride s) 0 (sf_height s) (dp_mem d) m /\
    forall px py, on_surface s px py -> surface_pixel m s px py = u32 color) as [F1 F2].
  { unfold m. enough (same_outside (sf_pixels s) (sf_stride s) 0 (sf_height s) (dp_mem d) m /\
      forall px py, 0 <= px < sf_width s -> 0 <= py < sf_height s -> surface_pixel m s px py = u32 color) as [A B]
      by (split; [done|intros ? ? []; by apply B]).
    unfold m. apply (for_range_inv (fun i m => same_outside (sf_pixels s) (sf_stride s) 0 (sf_height s) (dp_mem d) m /\
      forall px py, 0 <= px < sf_width s -> 0 <= py < i -> surface_pixel m s px py = u32 color)); [lia| |].
    - split; [auto with argus|lia].
    - intros i m' Hi [H1 H2].
      destruct (fill_row_spec m' (sf_pixels s) (sf_stride s) 0 i (sf_width s) color) as [F1 F2]; try lia. split.
      + eapply same_outside_trans; [exact H1|]. eapply same_outside_wider; [| | |exact F1]; lia.
      + intros px py Hpx Hpy. unfold surface_pixel. rewrite F2 by lia.
        destruct (in_rect 0 i (sf_width s) 1 px py) eqn:E; [done|]. apply in_rect_false in E. apply H2; lia. }
  apply drawn_marked; [done|done| |lia|lia|done|done|].
  - unfold on_surface. lia.
  - intros px py [Hpx Hpy] Hr. apply in_rect_false in Hr. lia.
Qed.

Lemma putpixel_drawn d p s x y color :
  surface_at d p = Some s -> surface_ok s -> 0 <= x -> 0 <= y ->
  drawn p s d (surface_putpixel d p x y color)
    (fun px py => if (px =? x) && (py =? y) then u32 color else surface_pixel (dp_mem d) s px py).
Proof.
  intros Hp Hok Hx Hy. pose proof Hok as [_ Hsw Hss Hsh _]. unfold surface_putpixel. rewrite Hp.
  destruct (off_surface s x y) eqn:Eo.
  { apply off_surface_true in Eo; [|done..]. apply drawn_nothing; [done..|]. intros px py Hon. case_if; [|done].
    b2p. by subst. }
  apply off_surface_false in Eo as [Hx1 Hy1]; [|done..]. cbv zeta. apply drawn_marked; [done|done|done|lia|lia| | |].
  - apply same_outside_store; lia.
  - intros px py [Hpx Hpy]. apply pixel_store; lia.
  - intros px py _ Hr. apply in_rect_false in Hr. case_if; [b2p; lia|done].
Qed.

(** A redraw seen with the memory it started from: only the damage is new. *)
Lemma redraw_damage p s d m s' d' :
  surface_at d p = Some s -> redraw p s (put_mem d m) s' d' -> redraw p s d s' (put_mem d' (dp_mem d)).
Proof.
  intros Hp [G H S P O I _ _]. constructor; try done.
  cbn. rewrite H. cbn. by destruct (dp_heap d).
Qed.

Lemma scroll_drawn d p s x y w h pixels color :
  surface_at d p = Some s -> surface_ok s -> 0 <= x -> 0 <= y -> 0 <= w -> 0 <= h -> 0 < pixels ->
  drawn p s d (surface_scroll_rect_up d p x y w h pixels color)
    (fun px py => if in_rect x y w h px py
                  then if py + pixels <? Z.min (y + h) (sf_height s) then surface_pixel (dp_mem d) s px (py + pixels)
                       else u32 color
                  else surface_pixel (dp_mem d) s px py).
Proof.
  intros Hp Hok Hx Hy Hw Hh Hpix. pose proof Hok as [_ Hsw Hss Hsh _]. unfold surface_scroll_rect_up. rewrite Hp.
  replace (negb (valid_fields s) || negb (nz pixels) || (sf_width s <=? x) || (sf_height s <=? y))
    with (off_surface s x y)
    by (unfold off_surface, nz; destruct (Z.eqb_spec pixels 0); [lia|cbn [negb]; by rewrite orb_false_r]).
  destruct (off_surface s x y) eqn:Eo.
  { apply off_surface_true in Eo; [|done..]. apply drawn_nothing; [done..|]. intros px py [Hpx Hpy].
    destruct (in_rect x y w h px py) eqn:E; [|done]. apply in_rect_true in E. exfalso. apply Eo. unfold on_surface. lia. }
  apply off_surface_false in Eo as Hxy; [|done..]. pose proof Hxy as [Hx1 Hy1]. cbv zeta. rewrite !minimum_min.
  set (w' := Z.min w _). set (h' := Z.min h _).
  assert (0 <= w' <= w /\ x + w' <= sf_width s /\ (w' < w -> x + w' = sf_width s)) as Hw' by lia.
  assert (0 <= h' <= h /\ y + h' <= sf_height s /\ Z.min (y + h) (sf_height s) = y + h') as (Hh' & Hyh & Hmin) by lia.
  assert (forall px py, on_surface s px py -> in_rect x y w h px py = in_rect x y w' h' px py) as Hin.
  { intros px py [Hpx Hpy]. apply eq_true_iff_eq. rewrite !in_rect_true. lia. }
  rewrite Hmin. destruct (negb (nz w') || negb (nz h')) eqn:Ee.
  { apply empty_true in Ee. apply drawn_nothing; [done..|]. intros px py Hon. rewrite (Hin _ _ Hon).
    destruct (in_rect x y w' h' px py) eqn:E; [|done]. apply in_rect_true in E. lia. }
  b2p. destruct (Z.leb_spec h' pixels) as [Hbig|Hsmall].
  { destruct (fill_rect_drawn d p s x y w' h' color Hp Hok Hx Hy) as [R F]; [lia..|]. split; [done|].
    intros px py Hon. rewrite F, (Hin _ _ Hon) by done. destruct (in_rect x y w' h' px py) eqn:E; [|done].
    apply in_rect_true in E. destruct (Z.ltb_spec (py + pixels) (y + h')); [lia|done]. }
  destruct (scroll_rows_spec (dp_mem d) (sf_pixels s) (sf_stride s) x y w' (h' - pixels) pixels) as [F1 F2]; try lia.
  set (m := scroll_rows _ _ _ _ _ _ _ _) in *. rewrite u32_id by lia.
  destruct (fill_rect_drawn (put_mem d m) p s x (y + (h' - pixels)) w' pixels color Hp Hok) as [[s2 R2] P2]; try lia.
  set (d2 := surface_fill_rect _ _ _ _ _ _ _) in *.
  pose proof (redraw_damage _ _ _ _ _ _ Hp R2) as R1. pose proof (rd_plane _ _ _ _ _ R2) as (A & B & C & D).
  assert (forall m' px py, surface_pixel m' s2 px py = surface_pixel m' s px py) as Hs2
    by (intros; unfold surface_pixel; by rewrite A, D).
  assert (forall px py, on_surface s px py -> surface_pixel (dp_mem d2) s px py
    = if in_rect x y w' h' px py
      then if py + pixels <? y + h' then surface_pixel (dp_mem d) s px (py + pixels) else u32 color
      else surface_pixel (dp_mem d) s px py) as Hd2.
  { intros px py Hon. rewrite P2 by done. change (dp_mem (put_mem d m)) with m. unfold surface_pixel at 1.
    destruct Hon as [Hpx Hpy]. rewrite F2 by lia. fold (surface_pixel (dp_mem d) s px (py + pixels)).
    destruct (in_rect x (y + (h' - pixels)) w' pixels px py) eqn:E1, (in_rect x y w' (h' - pixels) px py) eqn:E2,
      (in_rect x y w' h' px py) eqn:E3, (Z.ltb_spec (py + pixels) (y + h')); try done;
      rewrite ?in_rect_true, ?in_rect_false in *; lia. }
  assert (put_mem (put_mem d2 (dp_mem d)) (dp_mem d2) = d2) as Hback by (by destruct d2 as [? ? []]).
  destruct (mark_redraw p s2 (put_mem d2 (dp_mem d)) (dp_mem d2) x y w' h') as (s3 & R3 & M3).
  - by eapply redraw_at.
  - by eapply rd_ok.
  - unfold on_surface in *. by rewrite B, C.
  - lia.
  - lia.
  - rewrite A, C, D. eapply same_outside_trans; [|apply (rd_outside _ _ _ _ _ R2)].
    eapply same_outside_wider; [| | |exact F1]; lia.
  - intros px py Hon Hr. rewrite !Hs2. unfold on_surface in Hon. rewrite B, C in Hon. rewrite Hd2 by done. by rewrite Hr.
  - rewrite Hback in R3, M3. split; [exists s3; by eapply redraw_trans|].
    intros px py Hon. rewrite M3, Hd2, (Hin _ _ Hon) by done. done.
Qed.

(** Loops of redraws. *)
Lemma redraw_range p d s lo hi body :
  surface_at d p = Some s -> surface_ok s ->
  (forall i d1 s1, lo <= i < hi -> surface_at d1 p = Some s1 -> surface_ok s1 -> exists s2, redraw p s1 d1 s2 (body i d1)) ->
  exists s', redraw p s d s' (for_range lo hi body d).
Proof.
  intros Hp Hok Hb. destruct (Z.le_gt_cases lo hi).
  - apply (for_range_inv (fun _ d' => exists s', redraw p s d s' d')); [done|exists s; by apply redraw_refl|].
    intros i d1 Hi [s1 R1]. destruct (Hb i d1 s1) as [s2 R2]; [done|by eapply redraw_at|by eapply rd_ok|].
    exists s2. by eapply redraw_trans.
  - rewrite for_range_empty by lia. exists s. by apply redraw_refl.
Qed.

Lemma draw_character_redraw d p s c x y scale color :
  surface_at d p = Some s -> surface_ok s -> 0 <= scale ->
  exists s', redraw p s d s' (draw_character d p c x y scale color).
Proof.
  intros Hp Hok Hs. unfold draw_character. apply redraw_range; [done..|]. intros row d1 s1 _ Hp1 Hok1. cbv zeta.
  apply redraw_range; [done..|]. intros col d2 s2 _ Hp2 Hok2. case_if; [|exists s2; by apply redraw_refl].
  pose proof (u32_range (x + u32 (col * scale))). pose proof (u32_range (y + u32 (row * scale))).
  apply fill_rect_drawn; try done; lia.
Qed.

Lemma draw_characters_redraw d p s text x y scale color :
  surface_at d p = Some s -> surface_ok s -> 0 <= scale ->
  exists s', redraw p s d s' (draw_characters d p text x y scale color).
Proof.
  intros Hp Hok Hs. revert d s x Hp Hok. induction text as [|c text IH]; intros d s x Hp Hok; cbn [draw_characters];
    [exists s; by apply redraw_refl|].
  case_if; [exists s; by apply redraw_refl|]. destruct (draw_character_redraw d p s c x y scale color Hp Hok Hs) as [s1 R1].
  cbv zeta. case_if; [by exists s1|]. edestruct IH as [s2 R2]; [by eapply redraw_at|by eapply rd_ok|].
  exists s2. by eapply redraw_trans.
Qed.

Lemma draw_text_redraw d p s text x y scale color :
  surface_at d p = Some s -> surface_ok s -> 0 <= scale ->
  exists s', redraw p s d s' (surface_draw_text d p text x y scale color).
Proof.
  intros. unfold surface_draw_text. case_if; [exists s; by apply redraw_refl|]. by apply draw_characters_redraw.
Qed.

Lemma getpixel_pixel d p s x y :
  surface_at d p = Some s -> surface_ok s -> 0 <= x -> 0 <= y ->
  surface_getpixel d p x y = if in_rect 0 0 (sf_width s) (sf_height s) x y then surface_pixel (dp_mem d) s x y else 0.
Proof.
  intros Hp Hok Hx Hy. unfold surface_getpixel. rewrite Hp. destruct (off_surface s x y) eqn:E.
  - apply off_surface_true in E; [|done..]. case_if; [|done].
    match goal with H : in_rect _ _ _ _ _ _ = true |- _ => apply in_rect_true in H end. exfalso. apply E. unfold on_surface. lia.
  - apply off_surface_false in E; [|done..]. case_if; [done|].
    match goal with H : in_rect _ _ _ _ _ _ = false |- _ => apply in_rect_false in H end. exfalso. unfold on_surface in E. lia.
Qed.

Lemma drawn_getpixel d p s d' f x y :
  surface_at d p = Some s -> surface_ok s -> drawn p s d d' f -> 0 <= x -> 0 <= y ->
  surface_getpixel d' p x y = if in_rect 0 0 (sf_width s) (sf_height s) x y then f x y else 0.
Proof.
  intros Hp Hok [[s' R] F] Hx Hy. pose proof (rd_plane _ _ _ _ _ R) as (A & B & C & D).
  rewrite (getpixel_pixel d' p s') by eauto using redraw_at, rd_ok. rewrite B, C.
  destruct (in_rect 0 0 (sf_width s) (sf_height s) x y) eqn:E; [|done]. apply in_rect_true in E.
  replace (surface_pixel (dp_mem d') s' x y) with (surface_pixel (dp_mem d') s x y)
    by (unfold surface_pixel; by rewrite A, D).
  apply F. unfold on_surface. lia.
Qed.

(** A surface's own bytes. *)
Definition surface_byte (s : argus_surface_t) (a : Z) : Prop :=
  in_rows (sf_pixels s) (sf_stride s) 0 (sf_height s) a.

(** [surface_fill_rect] paints exactly its rectangle clipped to the surface: a
    pixel inside it reads as the colour, every other pixel as before, and no
    byte outside the surface's own changes. *)
Theorem surface_fill_rect_exact d p s x y w h color :
  surface_at d p = Some s -> surface_ok s -> 0 <= x -> 0 <= y -> 0 <= w -> 0 <= h ->
  let d' := surface_fill_rect d p x y w h color in
  (forall px py, 0 <= px -> 0 <= py ->
     surface_getpixel d' p px py
     = if in_rect x y w h px py && in_rect 0 0 (sf_width s) (sf_height s) px py then u32 color
       else surface_getpixel d p px py)
  /\ forall a, ~ surface_byte s a -> mem_get (dp_mem d') a = mem_get (dp_mem d) a.
Proof.
  intros Hp Hok Hx Hy Hw Hh d'. subst d'. pose proof (fill_rect_drawn d p s x y w h color Hp Hok Hx Hy Hw Hh) as Hd. split.
  - intros px py Hpx Hpy. rewrite (drawn_getpixel _ _ _ _ _ _ _ Hp Hok Hd Hpx Hpy).
    rewrite (getpixel_pixel d p s) by done. destruct (in_rect x y w h px py), (in_rect 0 0 _ _ px py); done.
  - destruct Hd as [[s' R] _]. apply (rd_outside _ _ _ _ _ R).
Qed.

(** [surface_scroll_rect_up] moves the part of its rectangle that lies on the
    surface up by [pixels] rows, reading each row before it is overwritten, and
    fills the rows that come free; no other pixel changes. *)
Theorem surface_scroll_exact d p s x y w h pixels color :
  surface_at d p = Some s -> surface_ok s -> 0 <= x -> 0 <= y -> 0 <= w -> 0 <= h -> 0 < pixels ->
  let d' := surface_scroll_rect_up d p x y w h pixels color in
  (forall px py, 0 <= px < sf_width s -> 0 <= py < sf_height s ->
     surface_getpixel d' p px py
     = if in_rect x y w h px py
       then if py + pixels <? Z.min (y + h) (sf_height s) then surface_getpixel d p px (py + pixels) else u32 color
       else surface_getpixel d p px py)
  /\ forall a, ~ surface_byte s a -> mem_get (dp_mem d') a = mem_get (dp_mem d) a.
Proof.
  intros Hp Hok Hx Hy Hw Hh Hpix d'. subst d'. pose proof (scroll_drawn d p s x y w h pixels color Hp Hok Hx Hy Hw Hh Hpix) as Hd.
  split; [|destruct Hd as [[s' R] _]; apply (rd_outside _ _ _ _ _ R)].
  intros px py Hpx Hpy. rewrite (drawn_getpixel _ _ _ _ _ _ _ Hp Hok Hd) by lia.
  assert (forall qy, 0 <= qy < sf_height s -> surface_getpixel d p px qy = surface_pixel (dp_mem d) s px qy) as Hg.
  { intros qy Hq. rewrite (getpixel_pixel d p s) by (done || lia). case_if; [done|].
    match goal with H : in_rect _ _ _ _ _ _ = false |- _ => apply in_rect_false in H end. lia. }
  rewrite (Hg py) by lia. assert (in_rect 0 0 (sf_width s) (sf_height s) px py = true) as -> by (apply in_rect_true; lia).
  destruct (in_rect x y w h px py) eqn:E; [|done]. destruct (Z.ltb_spec (py + pixels) (Z.min (y + h) (sf_height s))); [|done].
  by rewrite Hg by lia.
Qed.

(** ** A concrete display: two surfaces and a framebuffer *)

Definition sample_gop : argus_gop_t :=
  mk_gop 0x900000 8 6 8 PixelBlueGreenRedReserved8BitPerColor (mk_masks 0 0 0 0) 0x900000 4096 true.
Definition sample_surface : argus_surface_t := mk_surface 0x800000 4 4 4 false rect0.
Definition sample_panel : argus_surface_t := mk_surface 0x810000 8 2 8 false rect0.
Definition sample_display : display :=
  mk_display {[ 16 := sample_surface; 32 := sample_panel ]} sample_gop sample_heap.

(** The self test passes on a heap of sixteen pages. *)
Example surface_self_test_passes : fst (surface_self_test sample_display 48) = true.
Proof. vm_compute. reflexivity. Qed.

Lemma sample_surface_ok : surface_ok sample_surface.
Proof. constructor; cbn; unfold UINT32_MAX; lia || done. Qed.

Lemma surface_fill_rect_exact_witness :
  surface_getpixel (surface_fill_rect sample_display 16 1 1 9 9 7) 16 3 3 = 7.
Proof.
  destruct (surface_fill_rect_exact sample_display 16 sample_surface 1 1 9 9 7) as [H _].
  - reflexivity.
  - exact sample_surface_ok.
  - lia.
  - lia.
  - lia.
  - lia.
  - rewrite (H 3 3); [reflexivity|lia|lia].
Defined.

Lemma surface_scroll_exact_witness :
  surface_getpixel (surface_scroll_rect_up (surface_putpixel sample_display 16 2 2 5) 16 0 0 4 4 1 9) 16 2 1
  = surface_getpixel (surface_putpixel sample_display 16 2 2 5) 16 2 2.
Proof.
  set (d := surface_putpixel sample_display 16 2 2 5).
  destruct (surface_scroll_exact d 16 (set_damage sample_surface true (mk_rect 2 2 1 1)) 0 0 4 4 1 9) as [H _].
  - vm_compute. reflexivity.
  - constructor; cbn; unfold UINT32_MAX; lia || done.
  - lia.
  - lia.
  - lia.
  - lia.
  - lia.
  - rewrite (H 2 1); [reflexivity|cbn; lia|cbn; lia].
Defined.
