(* ===== verification/Compositor.v ===== *)
(** * The window compositor (src/compositor.c, src/compositor.h)

    The compositor keeps the windows with their stacking order, an optional
    panel, and a bounded list of damaged rectangles, and redraws the damaged
    pixels of the framebuffer from the surfaces.  Surfaces are referred to by
    address (see Surface.v), 0 being the null pointer; the compositor object
    itself is passed as a value, so the null checks on it are not modelled. *)

From stdpp Require Import base list gmap numbers.
From Stdlib Require Import ZArith Lia.
From S2P Require Import Prelude Memory Heap Raster Gop Surface.

Open Scope Z_scope.

Definition ARGUS_COMPOSITOR_MAX_WINDOWS : Z := 8.
Definition ARGUS_COMPOSITOR_MAX_DAMAGE : Z := 16.

Record argus_compositor_window_t := mk_window {
  win_surface : Z;
  win_x : Z;
  win_y : Z;
  win_visible : bool }.
Definition window0 : argus_compositor_window_t := mk_window 0 0 0 false.

Record argus_compositor_t := mk_compositor {
  cp_width : Z;
  cp_height : Z;
  cp_work_height : Z;
  cp_background : Z;
  cp_windows : list argus_compositor_window_t;
  cp_z_order : list Z;
  cp_window_count : Z;
  cp_panel : Z;
  cp_panel_y : Z;
  cp_damage : list argus_rect_t;
  cp_damage_count : Z;
  cp_frame_count : Z;
  cp_damage_pixels : Z;
  cp_last_damage_count : Z }.

Definition set_windows (c : argus_compositor_t) ws zs n :=
  mk_compositor (cp_width c) (cp_height c) (cp_work_height c) (cp_background c) ws zs n (cp_panel c) (cp_panel_y c)
    (cp_damage c) (cp_damage_count c) (cp_frame_count c) (cp_damage_pixels c) (cp_last_damage_count c).
Definition set_panel (c : argus_compositor_t) panel y :=
  mk_compositor (cp_width c) (cp_height c) (cp_work_height c) (cp_background c) (cp_windows c) (cp_z_order c)
    (cp_window_count c) panel y (cp_damage c) (cp_damage_count c) (cp_frame_count c) (cp_damage_pixels c)
    (cp_last_damage_count c).
Definition set_damages (c : argus_compositor_t) damage n :=
  mk_compositor (cp_width c) (cp_height c) (cp_work_height c) (cp_background c) (cp_windows c) (cp_z_order c)
    (cp_window_count c) (cp_panel c) (cp_panel_y c) damage n (cp_frame_count c) (cp_damage_pixels c)
    (cp_last_damage_count c).
Definition set_statistics (c : argus_compositor_t) frames pixels last :=
  mk_compositor (cp_width c) (cp_height c) (cp_work_height c) (cp_background c) (cp_windows c) (cp_z_order c)
    (cp_window_count c) (cp_panel c) (cp_panel_y c) (cp_damage c) (cp_damage_count c) frames pixels last.

(** [compositor->windows[id]], [compositor->damage[i]] and the stored order. *)
Definition window_at (c : argus_compositor_t) (id : Z) := zget window0 (cp_windows c) id.
Definition damage_at (c : argus_compositor_t) (i : Z) := zget rect0 (cp_damage c) i.
Definition z_at (c : argus_compositor_t) (i : Z) := zget 0 (cp_z_order c) i.

(** [window->surface->width] and [height]. *)
Definition surface_width (d : display) (p : Z) : Z := match surface_at d p with Some s => sf_width s | None => 0 end.
Definition surface_height (d : display) (p : Z) : Z := match surface_at d p with Some s => sf_height s | None => 0 end.

Definition rectangles_touch (left right : argus_rect_t) : bool :=
  let left_right := u64 (rect_x left + rect_width left) in
  let left_bottom := u64 (rect_y left + rect_height left) in
  let right_right := u64 (rect_x right + rect_width right) in
  let right_bottom := u64 (rect_y right + rect_height right) in
  (rect_x left <=? right_right) && (rect_x right <=? left_right) &&
  (rect_y left <=? right_bottom) && (rect_y right <=? left_bottom).

Definition compositor_init (c : argus_compositor_t) (width height work_height background : Z)
    : bool * argus_compositor_t :=
  if negb (nz width) || negb (nz height) || negb (nz work_height) || (height <? work_height) then (false, c)
  else (true, mk_compositor width height work_height background (replicate 8 window0) (replicate 8 0) 0 0 0
                (replicate 16 rect0) 0 0 0 0).

Definition compositor_damage_all (c : argus_compositor_t) : argus_compositor_t :=
  set_damages c (zset (cp_damage c) 0 (mk_rect 0 0 (cp_width c) (cp_height c))) 1.

Definition compositor_damage (c : argus_compositor_t) (x y width height : Z) : argus_compositor_t :=
  if (cp_width c <=? x) || (cp_height c <=? y) then c
  else
    let width := minimum width (cp_width c - x) in
    let height := minimum height (cp_height c - y) in
    if negb (nz width) || negb (nz height) then c
    else
      let incoming := mk_rect x y width height in
      match zfind (fun i => rectangles_touch (damage_at c i) incoming) 0 (Z.to_nat (cp_damage_count c)) with
      | Some i => set_damages c (zset (cp_damage c) i (join_damage (damage_at c i) x y width height)) (cp_damage_count c)
      | None =>
          if cp_damage_count c =? ARGUS_COMPOSITOR_MAX_DAMAGE then compositor_damage_all c
          else set_damages c (zset (cp_damage c) (cp_damage_count c) incoming) (u32 (cp_damage_count c + 1))
      end.

Definition compositor_add_window (c : argus_compositor_t) (d : display) (surface x y : Z)
    : option Z * argus_compositor_t :=
  if negb (surface_valid d surface) || (ARGUS_COMPOSITOR_MAX_WINDOWS <=? cp_window_count c) ||
     (cp_width c <? surface_width d surface) || (cp_work_height c <? surface_height d surface)
  then (None, c)
  else
    let x := if cp_width c - surface_width d surface <? x then cp_width c - surface_width d surface else x in
    let y := if cp_work_height c - surface_height d surface <? y then cp_work_height c - surface_height d surface else y in
    let id := cp_window_count c in
    let c := set_windows c (zset (cp_windows c) id (mk_window surface x y true))
               (zset (cp_z_order c) id (u8 id)) (u32 (cp_window_count c + 1)) in
    (Some id, compositor_damage c x y (surface_width d surface) (surface_height d surface)).

Definition compositor_set_panel (c : argus_compositor_t) (d : display) (surface y : Z) : bool * argus_compositor_t :=
  if negb (surface_valid d surface) || (surface_width d surface !=? cp_width c) || (cp_height c <=? y) ||
     (cp_height c - y <? surface_height d surface)
  then (false, c)
  else (true, compositor_damage (set_panel c surface y) 0 y (surface_width d surface) (surface_height d surface)).

(** [compositor_damage] of a window's rectangle. *)
Definition damage_window (c : argus_compositor_t) (d : display) (w : argus_compositor_window_t) : argus_compositor_t :=
  compositor_damage c (win_x w) (win_y w) (surface_width d (win_surface w)) (surface_height d (win_surface w)).

Definition compositor_move_window (c : argus_compositor_t) (d : display) (window_id x y : Z) : bool * argus_compositor_t :=
  if cp_window_count c <=? window_id then (false, c)
  else
    let window := window_at c window_id in
    if negb (win_visible window) || negb (surface_valid d (win_surface window)) then (false, c)
    else
      let w := surface_width d (win_surface window) in
      let h := surface_height d (win_surface window) in
      let x := if u32 (cp_width c - w) <? x then u32 (cp_width c - w) else x in
      let y := if u32 (cp_work_height c - h) <? y then u32 (cp_work_height c - h) else y in
      if (x =? win_x window) && (y =? win_y window) then (true, c)
      else
        let c := damage_window c d window in
        let window := mk_window (win_surface window) x y (win_visible window) in
        let c := set_windows c (zset (cp_windows c) window_id window) (cp_z_order c) (cp_window_count c) in
        (true, damage_window c d window).

Definition compositor_raise_window (c : argus_compositor_t) (d : display) (window_id : Z) : bool * argus_compositor_t :=
  if cp_window_count c <=? window_id then (false, c)
  else
    match zfind (fun i => z_at c i =? window_id) 0 (Z.to_nat (cp_window_count c)) with
    | None => (false, c)
    | Some position =>
        if u32 (position + 1) =? cp_window_count c then (true, c)
        else
          let z := for_range position (cp_window_count c - 1) (fun i z => zset z i (zget 0 z (u32 (i + 1)))) (cp_z_order c) in
          let z := zset z (cp_window_count c - 1) (u8 window_id) in
          let c := set_windows c (cp_windows c) z (cp_window_count c) in
          (true, damage_window c d (window_at c window_id))
    end.

Definition compositor_set_window_visible (c : argus_compositor_t) (d : display) (window_id visible : Z)
    : bool * argus_compositor_t :=
  if cp_window_count c <=? window_id then (false, c)
  else
    let window := window_at c window_id in
    let next := nz visible in
    if Bool.eqb (win_visible window) next then (true, c)
    else
      let c := damage_window c d window in
      (true, set_windows c (zset (cp_windows c) window_id (mk_window (win_surface window) (win_x window) (win_y window) next))
               (cp_z_order c) (cp_window_count c)).

Definition compositor_window_visible (c : argus_compositor_t) (window_id : Z) : bool :=
  (window_id <? cp_window_count c) && win_visible (window_at c window_id).

Definition compositor_visible_window_count (c : argus_compositor_t) : Z :=
  zcount (fun id => win_visible (window_at c id)) 0 (Z.to_nat (cp_window_count c)).

(** [x] and [y] inside the window, with the source's wrap-around. *)
Definition inside_window (d : display) (w : argus_compositor_window_t) (x y : Z) : bool :=
  negb ((x <? win_x w) || (y <? win_y w) ||
        (u32 (win_x w + surface_width d (win_surface w)) <=? x) ||
        (u32 (win_y w + surface_height d (win_surface w)) <=? y)).

(** [for (i = window_count; i > 0u; --i)]: from the top window down. *)
Fixpoint window_search (c : argus_compositor_t) (d : display) (x y : Z) (i : nat) : option (Z * Z * Z) :=
  match i with
  | O => None
  | S i' =>
      let id := z_at c (Z.of_nat i') in
      let window := window_at c id in
      if negb (win_visible window) || negb (surface_valid d (win_surface window)) || negb (inside_window d window x y)
      then window_search c d x y i'
      else Some (id, x - win_x window, y - win_y window)
  end.
Definition compositor_window_at (c : argus_compositor_t) (d : display) (x y : Z) : option (Z * Z * Z) :=
  if (cp_width c <=? x) || (cp_work_height c <=? y) then None
  else window_search c d x y (Z.to_nat (cp_window_count c)).

Definition collect_window (id : Z) (st : argus_compositor_t * display) : argus_compositor_t * display :=
  let '(c, d) := st in
  let window := window_at c id in
  let '(taken, d) := surface_take_damage d (win_surface window) in
  match taken with
  | Some damage =>
      if win_visible window
      then (compositor_damage c (u32 (win_x window + rect_x damage)) (u32 (win_y window + rect_y damage))
              (rect_width damage) (rect_height damage), d)
      else (c, d)
  | None => (c, d)
  end.
Definition collect_surface_damage (c : argus_compositor_t) (d : display) : argus_compositor_t * display :=
  let '(c, d) := for_range 0 (cp_window_count c) collect_window (c, d) in
  if nz (cp_panel c) then
    let '(taken, d) := surface_take_damage d (cp_panel c) in
    match taken with
    | Some damage =>
        (compositor_damage c (rect_x damage) (u32 (cp_panel_y c + rect_y damage)) (rect_width damage) (rect_height damage), d)
    | None => (c, d)
    end
  else (c, d).

Definition composed_pixel (c : argus_compositor_t) (d : display) (x y : Z) : Z :=
  let pixel := for_range 0 (cp_window_count c) (fun i pixel =>
    let window := window_at c (z_at c i) in
    if negb (win_visible window) || negb (inside_window d window x y) then pixel
    else surface_getpixel d (win_surface window) (x - win_x window) (y - win_y window)) (cp_background c) in
  if nz (cp_panel c) && (cp_panel_y c <=? y) && (y <? u32 (cp_panel_y c + surface_height d (cp_panel c)))
  then surface_getpixel d (cp_panel c) x (y - cp_panel_y c)
  else pixel.

(** The loops over one damaged rectangle. *)
Definition present_rect (c : argus_compositor_t) (r : argus_rect_t) (d : display) : display :=
  for_range (rect_y r) (u32 (rect_y r + rect_height r)) (fun y d =>
    for_range (rect_x r) (u32 (rect_x r + rect_width r)) (fun x d =>
      put_mem d (gop_putpixel (dp_gop d) (dp_mem d) x y (composed_pixel c d x y))) d) d.

Definition compositor_present (c : argus_compositor_t) (d : display) : bool * argus_compositor_t * display :=
  if negb (gop_usable (dp_gop d)) then (false, c, d)
  else
    let '(c, d) := collect_surface_damage c d in
    if negb (nz (cp_damage_count c)) then (true, set_statistics c (cp_frame_count c) (cp_damage_pixels c) 0, d)
    else
      let '(pixels, d) := for_range 0 (cp_damage_count c) (fun i '(pixels, d) =>
        let damage := damage_at c i in
        (u64 (pixels + u64 (rect_width damage * rect_height damage)), present_rect c damage d)) (0, d) in
      let presented := cp_damage_count c in
      (true, set_statistics (set_damages c (cp_damage c) 0) (u64 (cp_frame_count c + 1))
               (u64 (cp_damage_pixels c + pixels)) presented, d).

(** The loop of [compositor_validate] with the identifiers [seen]. *)
Fixpoint validate_windows (c : argus_compositor_t) (d : display) (i : Z) (n : nat) (seen : Z) : bool :=
  match n with
  | O => true
  | S n' =>
      let id := z_at c i in
      let window := window_at c id in
      if (cp_window_count c <=? id) || nz (seen & (1 << id)) then false
      else if negb (surface_valid d (win_surface window)) ||
              (u32 (cp_width c - surface_width d (win_surface window)) <? win_x window) ||
              (u32 (cp_work_height c - surface_height d (win_surface window)) <? win_y window) then false
      else validate_windows c d (i + 1) n' (Z.lor seen (1 << id))
  end.

Definition compositor_validate (c : argus_compositor_t) (d : display) : bool :=
  if negb (nz (cp_width c)) || negb (nz (cp_height c)) || negb (nz (cp_work_height c)) ||
     (cp_height c <? cp_work_height c) || (ARGUS_COMPOSITOR_MAX_WINDOWS <? cp_window_count c) ||
     (ARGUS_COMPOSITOR_MAX_DAMAGE <? cp_damage_count c) then false
  else if negb (validate_windows c d 0 (Z.to_nat (cp_window_count c)) 0) then false
  else negb (nz (cp_panel c) &&
             (negb (surface_valid d (cp_panel c)) || (surface_width d (cp_panel c) !=? cp_width c) ||
              (u32 (cp_height c - surface_height d (cp_panel c)) <? cp_panel_y c))).

Definition compositor_window_x (c : argus_compositor_t) (window_id : Z) : Z :=
  if window_id <? cp_window_count c then win_x (window_at c window_id) else 0.
Definition compositor_window_y (c : argus_compositor_t) (window_id : Z) : Z :=
  if window_id <? cp_window_count c then win_y (window_at c window_id) else 0.
