(* ===== verification/Composition.v ===== *)
(** * Correctness of composition

    Theorems on Compositor.v and Surface.v together: whatever the desktop draws
    and however it arranges its windows, presenting makes the screen show the
    composition; the compositor's own validation always succeeds; and hit
    testing agrees with what is drawn. *)

From stdpp Require Import base list gmap numbers relations.
From Stdlib Require Import ZArith Lia.
From S2P Require Import Prelude Memory Heap Raster Gop Surface Compositor.

Open Scope Z_scope.

(** ** The damage list *)

Definition rect_inside (r : argus_rect_t) (W H : Z) : Prop :=
  0 <= rect_x r /\ 0 <= rect_y r /\ 0 < rect_width r /\ 0 < rect_height r
  /\ rect_x r + rect_width r <= W /\ rect_y r + rect_height r <= H.

Record damage_ok (c : argus_compositor_t) : Prop := {
  dk_width : 0 < cp_width c <= UINT32_MAX;
  dk_height : 0 < cp_height c <= UINT32_MAX;
  dk_length : length (cp_damage c) = 16%nat;
  dk_count : 0 <= cp_damage_count c <= 16;
  dk_rects : forall i, 0 <= i < cp_damage_count c -> rect_inside (damage_at c i) (cp_width c) (cp_height c) }.

(** Some damaged rectangle contains the point. *)
Definition covered (c : argus_compositor_t) (x y : Z) : Prop :=
  exists i, 0 <= i < cp_damage_count c /\ covers (damage_at c i) x y = true.

(** Storing a rectangle in the list. *)
Lemma damage_store c i n r :
  damage_ok c -> 0 <= i < n -> i <= cp_damage_count c -> n <= 16 -> n <= Z.max (cp_damage_count c) (i + 1) ->
  rect_inside r (cp_width c) (cp_height c) ->
  let c' := set_damages c (zset (cp_damage c) i r) n in
  damage_ok c' /\
  (forall x y, covers r x y = true -> covered c' x y) /\
  (forall j x y, 0 <= j < n -> j <> i -> covers (damage_at c j) x y = true -> covered c' x y).
Proof.
  intros [Hw Hh Hl Hc Hr] Hi Hic Hn Hmax Hin c'. split_and!.
  - constructor; try done; [unfold c'; cbn; by rewrite zset_length|unfold c'; cbn; lia|].
    intros j Hj. unfold c', damage_at in *. cbn in *. destruct (Z.eq_dec j i) as [->|Hne].
    + by rewrite zget_zset_eq by lia.
    + rewrite zget_zset_ne by lia. apply Hr. lia.
  - intros x y Hxy. exists i. split; [done|]. unfold c', damage_at. cbn. by rewrite zget_zset_eq by lia.
  - intros j x y Hj Hne Hxy. exists j. split; [done|]. unfold c', damage_at. cbn. by rewrite zget_zset_ne by lia.
Qed.

Lemma damage_all_spec c :
  damage_ok c ->
  damage_ok (compositor_damage_all c) /\
  forall x y, 0 <= x < cp_width c -> 0 <= y < cp_height c -> covered (compositor_damage_all c) x y.
Proof.
  intros Hok. pose proof Hok as [Hw Hh _ Hc _].
  destruct (damage_store c 0 1 (mk_rect 0 0 (cp_width c) (cp_height c)) Hok) as (H1 & H2 & _);
    [lia|lia|lia|lia|unfold rect_inside; cbn; lia|].
  split; [done|]. intros x y Hx Hy. apply H2. apply covers_true. cbn. lia.
Qed.

(** The rectangle [compositor_damage] stores when it merges. *)
Lemma join_inside r x y w h W H :
  rect_inside r W H -> 0 <= x -> 0 <= y -> 0 < w -> 0 < h -> x + w <= W -> y + h <= H -> W <= UINT32_MAX -> H <= UINT32_MAX ->
  rect_inside (join_damage r x y w h) W H /\
  forall px py, covers r px py = true \/ in_rect x y w h px py = true -> covers (join_damage r x y w h) px py = true.
Proof.
  intros (H1 & H2 & H3 & H4 & H5 & H6) **. rewrite (join_damage_spec _ _ _ _ _ W H) by lia. split.
  - unfold rect_inside. cbn. lia.
  - intros px py. rewrite !covers_true, in_rect_true. cbn. lia.
Qed.

(** Damaging covers the rectangle, keeps what was covered and changes nothing
    else of the compositor. *)
Lemma compositor_damage_spec c x y w h :
  damage_ok c -> 0 <= x -> 0 <= y -> 0 <= w -> 0 <= h ->
  let c' := compositor_damage c x y w h in
  damage_ok c' /\ c' = set_damages c (cp_damage c') (cp_damage_count c') /\
  (forall px py, covered c px py -> covered c' px py) /\
  (forall px py, 0 <= px < cp_width c -> 0 <= py < cp_height c -> in_rect x y w h px py = true -> covered c' px py).
Proof.
  intros Hok Hx Hy Hw Hh. pose proof Hok as [Hcw Hch Hl Hc Hr]. unfold compositor_damage. cbv zeta.
  destruct ((cp_width c <=? x) || (cp_height c <=? y)) eqn:Eo.
  { split_and!; [done|by destruct c|done|]. intros px py Hpx Hpy Hin. apply in_rect_true in Hin.
    apply orb_true_iff in Eo. rewrite !Z.leb_le in Eo. lia. }
  b2p. rewrite !minimum_min. set (w' := Z.min w _). set (h' := Z.min h _).
  assert (0 <= w' <= w /\ x + w' <= cp_width c /\ (w' < w -> x + w' = cp_width c)) as Hw' by lia.
  assert (0 <= h' <= h /\ y + h' <= cp_height c /\ (h' < h -> y + h' = cp_height c)) as Hh' by lia.
  assert (forall px py, 0 <= px < cp_width c -> 0 <= py < cp_height c -> in_rect x y w h px py = true ->
    in_rect x y w' h' px py = true) as Hin by (intros px py Hpx Hpy; rewrite !in_rect_true; lia).
  clearbody w' h'. destruct (negb (nz w') || negb (nz h')) eqn:Ee.
  { apply empty_true in Ee. split_and!; [done|by destruct c|done|]. intros px py Hpx Hpy Hi.
    apply Hin in Hi; [|done..]. apply in_rect_true in Hi. lia. }
  b2p. destruct (zfind _ _ _) as [i|] eqn:Ef.
  - apply zfind_Some in Ef as (Hi & _ & _). pose proof (Hr i ltac:(lia)) as Hri.
    destruct (join_inside (damage_at c i) x y w' h' (cp_width c) (cp_height c) Hri) as [J1 J2]; [lia..|].
    destruct (damage_store c i (cp_damage_count c) _ Hok ltac:(lia) ltac:(lia) ltac:(lia) ltac:(lia) J1) as (S1 & S2 & S3).
    split_and!; [done|done| |].
    + intros px py (j & Hj & Hcov). destruct (Z.eq_dec j i) as [->|Hne]; [apply S2, J2; by left|].
      eapply S3; [| |exact Hcov]; lia.
    + intros px py Hpx Hpy Hi'. apply S2, J2. right. by apply Hin.
  - destruct (Z.eqb_spec (cp_damage_count c) ARGUS_COMPOSITOR_MAX_DAMAGE) as [Hfull|Hfull];
      unfold ARGUS_COMPOSITOR_MAX_DAMAGE in *.
    + destruct (damage_all_spec c Hok) as [A1 A2]. split_and!; [done|done| |by intros; apply A2].
      intros px py (j & Hj & Hcov). apply covers_true in Hcov. destruct (Hr j Hj) as (? & ? & ? & ? & ? & ?). apply A2; lia.
    + rewrite u32_id by (unfold UINT32_MAX; lia).
      destruct (damage_store c (cp_damage_count c) (cp_damage_count c + 1) (mk_rect x y w' h') Hok)
        as (S1 & S2 & S3); [lia|lia|lia|lia|unfold rect_inside; cbn; lia|].
      split_and!; [done|done| |].
      * intros px py (j & Hj & Hcov). eapply S3; [| |exact Hcov]; lia.
      * intros px py Hpx Hpy Hi'. apply S2. unfold covers. cbn. by apply Hin.
Qed.

(** ** The display and the scene *)

Definition plane_end (s : argus_surface_t) : Z := sf_pixels s + 4 * (sf_stride s * sf_height s).

(** The surfaces in use are well formed and share no memory with each other or
    with the framebuffer. *)
Record display_ok (d : display) : Prop := {
  do_gop : gop_ok (dp_gop d);
  do_null : surface_at d 0 = None;
  do_surfaces : forall p s, surface_at d p = Some s -> valid_fields s = true -> surface_ok s;
  do_apart : forall p q s t, p <> q -> surface_at d p = Some s -> surface_at d q = Some t ->
    valid_fields s = true -> valid_fields t = true -> plane_end s <= sf_pixels t \/ plane_end t <= sf_pixels s;
  do_screen : forall p s, surface_at d p = Some s -> valid_fields s = true ->
    plane_end s <= gop_fb (dp_gop d)
    \/ gop_fb (dp_gop d) + 4 * (gop_pitch_pixels (dp_gop d) * gop_height (dp_gop d)) <= sf_pixels s }.

(** A window lies inside a [W] by [H] area. *)
Definition fits (d : display) (w : argus_compositor_window_t) (W H : Z) : Prop :=
  exists s, surface_at d (win_surface w) = Some s /\ surface_ok s
    /\ 0 <= win_x w /\ win_x w + sf_width s <= W /\ 0 <= win_y w /\ win_y w + sf_height s <= H.

(** The windows from bottom to top. *)
Definition layers (c : argus_compositor_t) : list Z := take (Z.to_nat (cp_window_count c)) (cp_z_order c).

Record scene_ok (c : argus_compositor_t) (d : display) : Prop := {
  sc_work : 0 < cp_work_height c <= cp_height c;
  sc_background : 0 <= cp_background c <= UINT32_MAX;
  sc_lengths : length (cp_windows c) = 8%nat /\ length (cp_z_order c) = 8%nat;
  sc_count : 0 <= cp_window_count c <= 8;
  sc_layers : layers c ≡ₚ zrange 0 (Z.to_nat (cp_window_count c));
  sc_fits : forall id, 0 <= id < cp_window_count c -> fits d (window_at c id) (cp_width c) (cp_work_height c);
  sc_panel : cp_panel c <> 0 -> exists s, surface_at d (cp_panel c) = Some s /\ surface_ok s
    /\ sf_width s = cp_width c /\ 0 <= cp_panel_y c /\ cp_panel_y c + sf_height s <= cp_height c;
  sc_distinct : forall i j, 0 <= i < cp_window_count c -> 0 <= j < cp_window_count c -> i <> j ->
    win_surface (window_at c i) <> win_surface (window_at c j);
  sc_panel_apart : forall i, 0 <= i < cp_window_count c -> win_surface (window_at c i) <> cp_panel c }.

Lemma elem_of_layers c d id : scene_ok c d -> id ∈ layers c -> 0 <= id < cp_window_count c.
Proof.
  intros H Hid. rewrite (sc_layers _ _ H) in Hid. apply elem_of_zrange in Hid. pose proof (sc_count _ _ H). lia.
Qed.

Lemma surface_width_at d p s : surface_at d p = Some s -> surface_width d p = sf_width s.
Proof. intros H. unfold surface_width. by rewrite H. Qed.
Lemma surface_height_at d p s : surface_at d p = Some s -> surface_height d p = sf_height s.
Proof. intros H. unfold surface_height. by rewrite H. Qed.

(** The window's rectangle on the screen. *)
Definition in_window (d : display) (w : argus_compositor_window_t) (x y : Z) : bool :=
  in_rect (win_x w) (win_y w) (surface_width d (win_surface w)) (surface_height d (win_surface w)) x y.

Lemma inside_window_in d w W H x y :
  fits d w W H -> W <= UINT32_MAX -> H <= UINT32_MAX -> inside_window d w x y = in_window d w x y.
Proof.
  intros (s & Hs & [_ Hw _ Hh _] & Hx & Hxw & Hy & Hyh) HW HH. unfold inside_window, in_window.
  rewrite (surface_width_at _ _ _ Hs), (surface_height_at _ _ _ Hs), !u32_id by lia.
  apply eq_true_iff_eq. rewrite in_rect_true, negb_true_iff, !orb_false_iff, !Z.ltb_ge, !Z.leb_gt. lia.
Qed.

(** One layer of the composition. *)
Definition layer (c : argus_compositor_t) (d : display) (x y : Z) (below id : Z) : Z :=
  let w := window_at c id in
  if win_visible w && in_window d w x y then surface_getpixel d (win_surface w) (x - win_x w) (y - win_y w) else below.

(** The reference composition: the layers painted in order, the panel last. *)
Definition composition (c : argus_compositor_t) (d : display) (x y : Z) : Z :=
  if nz (cp_panel c) && in_rect 0 (cp_panel_y c) (cp_width c) (surface_height d (cp_panel c)) x y
  then surface_getpixel d (cp_panel c) x (y - cp_panel_y c)
  else fold_left (layer c d x y) (layers c) (cp_background c).

Lemma composed_pixel_eq c d x y :
  damage_ok c -> scene_ok c d -> 0 <= x < cp_width c -> 0 <= y < cp_height c ->
  composed_pixel c d x y = composition c d x y.
Proof.
  intros [HW HH _ _ _] Hsc Hx Hy. unfold composed_pixel, composition.
  replace (for_range 0 _ _ (cp_background c)) with (fold_left (layer c d x y) (layers c) (cp_background c)).
  2: { unfold for_range, layers. rewrite Z.sub_0_r. pose proof (sc_lengths _ _ Hsc) as [_ Hz]. pose proof (sc_count _ _ Hsc).
       rewrite <- (zget_prefix 0 (cp_z_order c)) by lia.
       assert (forall i, 0 <= i < cp_window_count c -> 0 <= z_at c i < cp_window_count c) as Hin.
       { intros i Hi. apply (elem_of_layers c d); [done|]. unfold layers. rewrite <- (zget_prefix 0) by lia.
         apply list_elem_of_In, in_map_iff. exists i. split; [done|]. apply list_elem_of_In, elem_of_zrange. lia. }
       assert (forall i, i ∈ zrange 0 (Z.to_nat (cp_window_count c)) -> 0 <= i < cp_window_count c) as Hr
         by (intros i Hi; apply elem_of_zrange in Hi; lia).
       generalize (cp_background c) as bg. induction (zrange 0 _) as [|i l IH]; intros bg; [done|]. cbn [map fold_left].
       rewrite IH by (intros; apply Hr; by constructor). f_equal. unfold layer. fold (z_at c i). cbv zeta.
       rewrite (inside_window_in _ _ (cp_width c) (cp_work_height c)).
       - by destruct (win_visible _), (in_window _ _ _ _).
       - apply (sc_fits _ _ Hsc), Hin, Hr. by constructor.
       - lia.
       - pose proof (sc_work _ _ Hsc). lia. }
  unfold nz. destruct (Z.eqb_spec (cp_panel c) 0) as [|Hp]; [done|]. cbn [negb andb].
  destruct (sc_panel _ _ Hsc Hp) as (s & Hs & [_ _ _ Hh _] & Hw & Hpy & Hph).
  rewrite (surface_height_at _ _ _ Hs), u32_id by lia.
  replace ((cp_panel_y c <=? y) && (y <? cp_panel_y c + sf_height s))
    with (in_rect 0 (cp_panel_y c) (cp_width c) (sf_height s) x y); [done|].
  apply eq_true_iff_eq. rewrite in_rect_true, andb_true_iff, Z.leb_le, Z.ltb_lt. lia.
Qed.

(** Composition, layer by layer. *)
Lemma layers_ext c d c' d' x y l bg (P : Prop) :
  (forall id, id ∈ l -> (forall below, layer c' d' x y below id = layer c d x y below id) \/ P) ->
  fold_left (layer c' d' x y) l bg = fold_left (layer c d x y) l bg \/ P.
Proof.
  revert bg. induction l as [|id l IH]; intros bg H; [by left|]. cbn [fold_left].
  destruct (H id) as [E|HP]; [by constructor| |by right]. rewrite E. apply IH. intros; apply H. by constructor.
Qed.

Lemma layers_skip c d x y l1 id l2 bg :
  win_visible (window_at c id) && in_window d (window_at c id) x y = false ->
  fold_left (layer c d x y) (l1 ++ id :: l2) bg = fold_left (layer c d x y) (l1 ++ l2) bg.
Proof. intros H. rewrite !fold_left_app. cbn [fold_left]. unfold layer at 2. by rewrite H. Qed.

Lemma composition_eq c c' d x y :
  cp_panel c' = cp_panel c -> cp_panel_y c' = cp_panel_y c -> cp_width c' = cp_width c ->
  fold_left (layer c' d x y) (layers c') (cp_background c') = fold_left (layer c d x y) (layers c) (cp_background c) ->
  composition c' d x y = composition c d x y.
Proof. intros E1 E2 E3 E4. unfold composition. by rewrite E1, E2, E3, E4. Qed.

(** ** What is still to be drawn *)

Definition surface_damaged (d : display) (p x y : Z) : bool :=
  match surface_at d p with Some s => damaged s x y | None => false end.

(** A pixel of the screen that the next presentation redraws: it is in the
    compositor's damage, or in the damage of the panel or of a visible window. *)
Inductive pending (c : argus_compositor_t) (d : display) (x y : Z) : Prop :=
| pending_covered : covered c x y -> pending c d x y
| pending_window id : 0 <= id < cp_window_count c -> win_visible (window_at c id) = true ->
    surface_damaged d (win_surface (window_at c id)) (x - win_x (window_at c id)) (y - win_y (window_at c id)) = true ->
    pending c d x y
| pending_panel : cp_panel c <> 0 -> surface_damaged d (cp_panel c) x (y - cp_panel_y c) = true -> pending c d x y.

Definition on_screen (c : argus_compositor_t) (d : display) (x y : Z) : Prop :=
  0 <= x < cp_width c /\ 0 <= y < cp_height c /\ x < gop_width (dp_gop d) /\ y < gop_height (dp_gop d).

(** Every pixel shows the composition or is about to be redrawn, for what is shown
    given as a function [v] of the coordinates. *)
Definition current (v : Z -> Z -> Z) (c : argus_compositor_t) (d : display) : Prop :=
  forall x y, on_screen c d x y -> pending c d x y \/ v x y = composition c d x y.

Record ui_view (v : Z -> Z -> Z) (c : argus_compositor_t) (d : display) : Prop := {
  ui_display : display_ok d;
  ui_damage : damage_ok c;
  ui_scene : scene_ok c d;
  ui_current : current v c d }.
Arguments ui_display {v} c d.
Arguments ui_damage {v} c d.
Arguments ui_scene {v} c d.
Arguments ui_current {v} c d.

(** What the framebuffer shows. *)
Definition ui_ok (c : argus_compositor_t) (d : display) : Prop := ui_view (screen (dp_gop d) (dp_mem d)) c d.

(** What is shown may be replaced by what agrees with it on the screen. *)
Lemma ui_view_ext v v' c d : ui_view v c d -> (forall x y, on_screen c d x y -> v' x y = v x y) -> ui_view v' c d.
Proof.
  intros [] Hv. constructor; try done. intros x y Hxy. rewrite Hv by done. auto.
Qed.

(** Arranging windows and drawing on surfaces change nothing that is shown. *)
Section View.
Context {v : Z -> Z -> Z}.
#[local] Abbreviation view_ok := (ui_view v).

(** The general step: what stays pending stays pending, and where the
    composition changed is pending. *)
Lemma current_step c d c' d' :
  cp_width c' = cp_width c -> cp_height c' = cp_height c -> dp_gop d' = dp_gop d ->
  (forall x y, on_screen c d x y -> pending c d x y -> pending c' d' x y) ->
  (forall x y, on_screen c d x y -> composition c' d' x y = composition c d x y \/ pending c' d' x y) ->
  current v c d -> current v c' d'.
Proof.
  intros Hw Hh Hg Hp Hc Hcur x y Hxy. assert (on_screen c d x y) as Hxy'
    by (unfold on_screen in *; by rewrite <- Hw, <- Hh, <- Hg).
  destruct (Hcur x y Hxy') as [Hpd|Heq]; [left; auto|]. destruct (Hc x y Hxy') as [E|Hpd]; [right|by left].
  by rewrite E.
Qed.

(** ** Drawing on a surface *)

Lemma plane_load s m m' a :
  same_outside (sf_pixels s) (sf_stride s) 0 (sf_height s) m m' ->
  a + 4 <= sf_pixels s \/ plane_end s <= a -> load32 m' a = load32 m a.
Proof. intros H Ha. eapply same_outside_load; [exact H|]. unfold pixel_address, plane_end in *. lia. Qed.

(** The address of a pixel lies in its plane. *)
Lemma pixel_in_plane base stride width height x y :
  0 <= x < width -> width <= stride -> 0 <= y < height ->
  base <= pixel_address base stride x y /\ pixel_address base stride x y + 4 <= base + 4 * (stride * height).
Proof. intros. unfold pixel_address. nia. Qed.

(** Two states of the surface objects that differ at most in the damage they
    record. *)
Record same_planes (d d' : display) : Prop := {
  sp_gop : dp_gop d' = dp_gop d;
  sp_from : forall q t, surface_at d' q = Some t -> exists u, surface_at d q = Some u
    /\ sf_pixels t = sf_pixels u /\ sf_width t = sf_width u /\ sf_height t = sf_height u /\ sf_stride t = sf_stride u
    /\ (surface_ok u -> surface_ok t);
  sp_none : forall q, surface_at d q = None <-> surface_at d' q = None }.

Lemma same_planes_refl d : same_planes d d.
Proof. constructor; [done| |done]. intros q t Hq. by exists t. Qed.

Lemma same_planes_trans d1 d2 d3 : same_planes d1 d2 -> same_planes d2 d3 -> same_planes d1 d3.
Proof.
  intros [G1 F1 N1] [G2 F2 N2]. constructor; [by rewrite G2| |intros q; by rewrite N1, N2]. intros q t Ht.
  destruct (F2 q t Ht) as (u & Hu & A & B & C & D & E). destruct (F1 q u Hu) as (w & Hw & A' & B' & C' & D' & E').
  exists w. split_and!; try congruence. auto.
Qed.

Lemma same_planes_put d d' p s s' :
  dp_gop d' = dp_gop d -> dp_surfaces d' = <[p := s']> (dp_surfaces d) -> surface_at d p = Some s ->
  sf_pixels s' = sf_pixels s -> sf_width s' = sf_width s -> sf_height s' = sf_height s -> sf_stride s' = sf_stride s ->
  (surface_ok s -> surface_ok s') -> same_planes d d'.
Proof.
  intros Hg Hs Hp A B C D E. constructor; [done| |]; intros q; unfold surface_at in *; rewrite Hs.
  - intros t. destruct (Z.eq_dec q p) as [->|Hne]; [rewrite lookup_insert_eq; intros [= <-]; by exists s|].
    rewrite lookup_insert_ne by done. intros Ht. by exists t.
  - destruct (Z.eq_dec q p) as [->|Hne]; [by rewrite lookup_insert_eq, Hp|by rewrite lookup_insert_ne].
Qed.

Section SamePlanes.
Context (d d' : display) (H : same_planes d d').

Lemma same_planes_to q u : surface_at d q = Some u ->
  exists t, surface_at d' q = Some t /\ sf_pixels t = sf_pixels u /\ sf_width t = sf_width u /\ sf_height t = sf_height u
    /\ sf_stride t = sf_stride u /\ (surface_ok u -> surface_ok t).
Proof.
  intros Hu. destruct (surface_at d' q) as [t|] eqn:Ht.
  - destruct (sp_from _ _ H q t Ht) as (u' & Hu' & E). rewrite Hu in Hu'. injection Hu' as <-. by exists t.
  - apply (sp_none _ _ H) in Ht. congruence.
Qed.

Lemma same_planes_dims q : surface_width d' q = surface_width d q /\ surface_height d' q = surface_height d q.
Proof.
  unfold surface_width, surface_height. destruct (surface_at d q) as [u|] eqn:Hu.
  - destruct (same_planes_to q u Hu) as (t & -> & _ & -> & -> & _). done.
  - apply (sp_none _ _ H) in Hu. by rewrite Hu.
Qed.

Lemma same_planes_in_window w x y : in_window d' w x y = in_window d w x y.
Proof. unfold in_window. by destruct (same_planes_dims (win_surface w)) as [-> ->]. Qed.

Lemma same_planes_display : display_ok d -> display_ok d'.
Proof.
  intros Hd. pose proof (sp_gop _ _ H) as Hg. constructor; rewrite ?Hg.
  - apply (do_gop _ Hd).
  - apply (sp_none _ _ H), (do_null _ Hd).
  - intros q t Ht Hvt. destruct (sp_from _ _ H q t Ht) as (u & Hu & A & B & C & D & Hok). apply Hok.
    eapply (do_surfaces _ Hd); [exact Hu|]. unfold valid_fields in *. by rewrite <- A, <- B, <- C, <- D.
  - intros q1 q2 t1 t2 Hne Ht1 Ht2. unfold valid_fields, plane_end.
    destruct (sp_from _ _ H q1 t1 Ht1) as (u1 & Hu1 & -> & -> & -> & -> & _).
    destruct (sp_from _ _ H q2 t2 Ht2) as (u2 & Hu2 & -> & -> & -> & -> & _). by apply (do_apart _ Hd q1 q2).
  - intros q t Ht. unfold valid_fields, plane_end. destruct (sp_from _ _ H q t Ht) as (u & Hu & -> & -> & -> & -> & _).
    by apply (do_screen _ Hd q).
Qed.

Lemma same_planes_scene c : scene_ok c d -> scene_ok c d'.
Proof.
  intros []. constructor; try done.
  - intros id Hid. destruct (sc_fits0 id Hid) as (u & Hu & Hok & Hf).
    destruct (same_planes_to _ _ Hu) as (t & Ht & _ & E1 & E2 & _ & E3). exists t. rewrite E1, E2. auto.
  - intros Hne. destruct (sc_panel0 Hne) as (u & Hu & Hok & Hf).
    destruct (same_planes_to _ _ Hu) as (t & Ht & _ & E1 & E2 & _ & E3). exists t. rewrite E1, E2. auto.
Qed.

(** With the same pixels, the same composition. *)
Lemma same_planes_composition c x y (P : Prop) :
  scene_ok c d -> 0 <= x < cp_width c ->
  (cp_panel c <> 0 -> cp_panel_y c <= y -> surface_getpixel d' (cp_panel c) x (y - cp_panel_y c)
     = surface_getpixel d (cp_panel c) x (y - cp_panel_y c) \/ P) ->
  (forall id, 0 <= id < cp_window_count c -> let w := window_at c id in
     win_visible w = true -> win_x w <= x -> win_y w <= y ->
     surface_getpixel d' (win_surface w) (x - win_x w) (y - win_y w)
     = surface_getpixel d (win_surface w) (x - win_x w) (y - win_y w) \/ P) ->
  composition c d' x y = composition c d x y \/ P.
Proof.
  intros Hsc Hx Hpan Hwin. unfold composition. destruct (same_planes_dims (cp_panel c)) as [_ ->].
  destruct (nz (cp_panel c) && _) eqn:E.
  - apply andb_true_iff in E as [E1 E2]. apply in_rect_true in E2. apply Hpan; [|lia]. unfold nz in E1. by b2p.
  - apply layers_ext. intros id Hid. apply (elem_of_layers _ _ _ Hsc) in Hid. unfold layer. cbv zeta.
    rewrite same_planes_in_window. destruct (win_visible _) eqn:Ev; [|by left]. cbn [andb].
    destruct (in_window d _ x y) eqn:Ei; [|by left]. apply in_rect_true in Ei.
    edestruct (Hwin id Hid Ev) as [E'|HP]; [lia|lia| |by right]. left. by rewrite E'.
Qed.
End SamePlanes.

Section Redraw.
Context (d d' : display) (p : Z) (s s' : argus_surface_t).
Context (Hd : display_ok d) (Hp : surface_at d p = Some s) (Hv : valid_fields s = true) (Hr : redraw p s d s' d').

Lemma redraw_screen x y :
  0 <= x < gop_width (dp_gop d) -> 0 <= y < gop_height (dp_gop d) ->
  screen (dp_gop d) (dp_mem d') x y = screen (dp_gop d) (dp_mem d) x y.
Proof.
  intros Hx Hy. unfold screen, pixel. eapply plane_load; [apply (rd_outside _ _ _ _ _ Hr)|].
  pose proof (do_gop _ Hd) as [_ Hw _ _ _ _ _].
  destruct (pixel_in_plane (gop_fb (dp_gop d)) (gop_pitch_pixels (dp_gop d)) (gop_width (dp_gop d))
              (gop_height (dp_gop d)) x y) as [A B]; [done|lia|done|].
  destruct (do_screen _ Hd p s Hp Hv); [right|left]; lia.
Qed.

Lemma redraw_planes : same_planes d d'.
Proof.
  pose proof (rd_plane _ _ _ _ _ Hr) as (A & B & C & D).
  eapply same_planes_put; [apply (rd_gop _ _ _ _ _ Hr)|apply (rd_surfaces _ _ _ _ _ Hr)|exact Hp|done..|].
  intros _. apply (rd_ok _ _ _ _ _ Hr).
Qed.

Lemma redraw_other_pixel q x y : q <> p -> 0 <= x -> 0 <= y -> surface_getpixel d' q x y = surface_getpixel d q x y.
Proof.
  intros Hq Hx Hy. unfold surface_getpixel. rewrite (redraw_others _ _ _ _ _ _ Hr Hq).
  destruct (surface_at d q) as [t|] eqn:Ht; [|done]. destruct (off_surface t x y) eqn:Eo; [done|].
  assert (valid_fields t = true) as Hvt by (unfold off_surface in Eo; by destruct (valid_fields t)).
  apply off_surface_false in Eo as [Hx1 Hy1]; [|by eapply (do_surfaces _ Hd)|done|done].
  pose proof (do_surfaces _ Hd _ _ Ht Hvt) as [_ Hw _ _ _].
  unfold pixel. eapply plane_load; [apply (rd_outside _ _ _ _ _ Hr)|].
  destruct (pixel_in_plane (sf_pixels t) (sf_stride t) (sf_width t) (sf_height t) x y) as [A B]; [lia|lia|lia|].
  pose proof (do_apart _ Hd q p t s Hq Ht Hp Hvt Hv) as Hap. unfold plane_end in *. lia.
Qed.

Lemma redraw_own_pixel x y :
  0 <= x -> 0 <= y -> surface_getpixel d' p x y = surface_getpixel d p x y \/ damaged s' x y = true.
Proof.
  intros Hx Hy. destruct (damaged s' x y) eqn:E; [by right|left]. destruct (rd_plane _ _ _ _ _ Hr) as (A & B & C & D).
  pose proof (do_surfaces _ Hd _ _ Hp Hv) as Hok.
  rewrite (getpixel_pixel d' p s'), (getpixel_pixel d p s) by eauto using redraw_at, rd_ok. rewrite B, C.
  destruct (in_rect 0 0 (sf_width s) (sf_height s) x y) eqn:Ein; [|done]. apply in_rect_true in Ein.
  replace (surface_pixel (dp_mem d') s' x y) with (surface_pixel (dp_mem d') s x y)
    by (unfold surface_pixel; by rewrite A, D).
  apply (rd_changed _ _ _ _ _ Hr); [unfold on_surface; lia|done].
Qed.

Lemma redraw_damaged q x y : surface_damaged d q x y = true -> surface_damaged d' q x y = true.
Proof.
  unfold surface_damaged. destruct (Z.eq_dec q p) as [->|Hne].
  - rewrite (redraw_at _ _ _ _ _ Hr), Hp. apply (rd_grows _ _ _ _ _ Hr).
  - by rewrite (redraw_others _ _ _ _ _ _ Hr Hne).
Qed.

(** Any surface's pixel is unchanged or damaged. *)
Lemma redraw_pixel q x y :
  0 <= x -> 0 <= y -> surface_getpixel d' q x y = surface_getpixel d q x y \/ surface_damaged d' q x y = true.
Proof.
  intros Hx Hy. destruct (Z.eq_dec q p) as [->|Hne]; [|left; by apply redraw_other_pixel].
  unfold surface_damaged. rewrite (redraw_at _ _ _ _ _ Hr). by apply redraw_own_pixel.
Qed.

Lemma redraw_composition c x y :
  scene_ok c d -> 0 <= x < cp_width c -> 0 <= y < cp_height c ->
  composition c d' x y = composition c d x y \/ pending c d' x y.
Proof.
  intros Hsc Hx Hy. apply same_planes_composition; [apply redraw_planes|done|done| |].
  - intros Hne Hpy. destruct (redraw_pixel (cp_panel c) x (y - cp_panel_y c)) as [E|Hdm]; [lia|lia|by left|right].
    by apply pending_panel.
  - intros id Hid w Hvis Hwx Hwy.
    destruct (redraw_pixel (win_surface w) (x - win_x w) (y - win_y w)) as [E|Hdm]; [lia|lia|by left|right].
    by apply (pending_window _ _ _ _ id).
Qed.

Lemma redraw_step c : view_ok c d -> view_ok c d'.
Proof.
  intros [_ Hdm Hsc Hcur]. pose proof redraw_planes.
  constructor; [by eapply same_planes_display|done|by eapply same_planes_scene|].
  eapply current_step; [done|done|apply (rd_gop _ _ _ _ _ Hr)| | |exact Hcur].
  - intros x y _ [Hc|id Hid Hvis Hd1|Hpn Hd1]; [by apply pending_covered| |].
    + eapply pending_window; [done|done|by apply redraw_damaged].
    + apply pending_panel; [done|by apply redraw_damaged].
  - intros x y (? & ? & ? & ?). by apply redraw_composition.
Qed.

End Redraw.

(** ** Arranging windows *)

Lemma current_arrange c c' d :
  view_ok c d -> damage_ok c' -> scene_ok c' d -> cp_width c' = cp_width c -> cp_height c' = cp_height c ->
  (forall x y, covered c x y -> covered c' x y) ->
  (forall x y, on_screen c d x y ->
     covered c' x y \/
     (composition c' d x y = composition c d x y /\
      forall id, 0 <= id < cp_window_count c -> win_visible (window_at c id) = true ->
        in_window d (window_at c id) x y = true -> id < cp_window_count c' /\ window_at c' id = window_at c id) /\
     (cp_panel c <> 0 -> cp_panel c' = cp_panel c /\ cp_panel_y c' = cp_panel_y c)) ->
  view_ok c' d.
Proof.
  intros [Hdp Hdm Hsc Hcur] Hdm' Hsc' Hw Hh Hcov Harr. constructor; try done.
  eapply (current_step c d); [done|done|done| | |exact Hcur].
  - intros x y Hxy Hpd. destruct (Harr x y Hxy) as [Hc|[[_ Hwin] Hpan]]; [by apply pending_covered|].
    destruct Hpd as [Hc|id Hid Hv Hdam|Hpn Hdam]; [by apply pending_covered, Hcov| |].
    + destruct (Hwin id Hid Hv) as [Hid' E].
      { destruct (sc_fits _ _ Hsc id Hid) as (s & Hs & Hok & Hf). unfold surface_damaged in Hdam. rewrite Hs in Hdam.
        apply andb_true_iff in Hdam as [Hdirty Hdam]. apply covers_true in Hdam. pose proof (so_damage _ Hok Hdirty).
        unfold in_window. rewrite (surface_width_at _ _ _ Hs), (surface_height_at _ _ _ Hs). apply in_rect_true. lia. }
      apply (pending_window _ _ _ _ id); rewrite ?E; try done. lia.
    + destruct (Hpan Hpn) as [E1 E2]. apply pending_panel; by rewrite E1, ?E2.
  - intros x y Hxy. destruct (Harr x y Hxy) as [Hc|[[Hc _] _]]; [right; by apply pending_covered|by left].
Qed.

Lemma damage_step c d x y w h :
  view_ok c d -> 0 <= x -> 0 <= y -> 0 <= w -> 0 <= h -> view_ok (compositor_damage c x y w h) d.
Proof.
  intros Hui Hx Hy Hw Hh. destruct (compositor_damage_spec c x y w h (ui_damage _ _ Hui) Hx Hy Hw Hh) as (D1 & D2 & D3 & _).
  rewrite D2 in *. apply (current_arrange c); try done.
  - destruct (ui_scene _ _ Hui). by constructor.
  - intros px py _. right. split; [split; [done|]|done]. by intros id [? ?].
Qed.

Lemma damage_all_step c d : view_ok c d -> view_ok (compositor_damage_all c) d.
Proof.
  intros Hui. destruct (damage_all_spec c (ui_damage _ _ Hui)) as [D1 D2]. apply (current_arrange c); try done.
  - destruct (ui_scene _ _ Hui). by constructor.
  - intros x y (i & Hi & Hcov). pose proof (ui_damage _ _ Hui) as [_ _ _ _ Hr]. destruct (Hr i Hi) as (? & ? & ? & ? & ? & ?).
    apply covers_true in Hcov. apply D2; lia.
  - intros x y (? & ? & _). left. by apply D2.
Qed.

(** The rectangle of a window that fits is covered by damaging it. *)
Lemma damage_window_spec c d w W H :
  damage_ok c -> fits d w W H -> W <= cp_width c -> H <= cp_height c ->
  let c' := damage_window c d w in
  damage_ok c' /\ c' = set_damages c (cp_damage c') (cp_damage_count c') /\
  (forall x y, covered c x y -> covered c' x y) /\ (forall x y, in_window d w x y = true -> covered c' x y).
Proof.
  intros Hok (s & Hs & [_ Hw _ Hh _] & Hx & Hxw & Hy & Hyh) HW HH. unfold damage_window, in_window.
  rewrite (surface_width_at _ _ _ Hs), (surface_height_at _ _ _ Hs).
  destruct (compositor_damage_spec c (win_x w) (win_y w) (sf_width s) (sf_height s) Hok) as (D1 & D2 & D3 & D4); [lia..|].
  split_and!; try done. intros x y Hin. pose proof Hin as Hin'. apply in_rect_true in Hin'. apply D4; [lia|lia|done].
Qed.

(** Replacing one window record. *)
Definition put_window (c : argus_compositor_t) (id : Z) (w : argus_compositor_window_t) : argus_compositor_t :=
  set_windows c (zset (cp_windows c) id w) (cp_z_order c) (cp_window_count c).

Lemma window_at_put c d id w j :
  scene_ok c d -> 0 <= id < cp_window_count c -> 0 <= j ->
  window_at (put_window c id w) j = if j =? id then w else window_at c j.
Proof.
  intros Hsc Hid Hj. pose proof (sc_lengths _ _ Hsc) as [Hl _]. pose proof (sc_count _ _ Hsc).
  unfold window_at, put_window. cbn. destruct (Z.eqb_spec j id) as [->|]; [by rewrite zget_zset_eq by lia|].
  by rewrite zget_zset_ne by lia.
Qed.

Lemma put_window_scene c d id w :
  scene_ok c d -> 0 <= id < cp_window_count c -> win_surface w = win_surface (window_at c id) ->
  fits d w (cp_width c) (cp_work_height c) -> scene_ok (put_window c id w) d.
Proof.
  intros Hsc Hid Hws Hf. pose proof (window_at_put c d id w) as Hat.
  assert (forall j, 0 <= j -> win_surface (window_at (put_window c id w) j) = win_surface (window_at c j)) as Hs.
  { intros j Hj. rewrite Hat by done. destruct (Z.eqb_spec j id) as [->|]; done. }
  pose proof Hsc as []. constructor; try done.
  - cbn. by rewrite zset_length.
  - intros j Hj. change (cp_window_count (put_window c id w)) with (cp_window_count c) in Hj.
    rewrite Hat by (done || lia). destruct (Z.eqb_spec j id); [done|by apply sc_fits0].
  - intros i j Hi Hj. cbn in Hi, Hj. rewrite !Hs by lia. by apply sc_distinct0.
  - intros i Hi. cbn in Hi. rewrite Hs by lia. by apply sc_panel_apart0.
Qed.

(** Where neither the old nor the new record of a window shows, replacing it
    changes nothing. *)
Lemma put_window_composition c d id w x y :
  scene_ok c d -> 0 <= id < cp_window_count c ->
  in_window d (window_at c id) x y = false -> in_window d w x y = false ->
  composition (put_window c id w) d x y = composition c d x y.
Proof.
  intros Hsc Hid Hold Hnew. apply composition_eq; [done..|]. change (layers (put_window c id w)) with (layers c).
  change (cp_background (put_window c id w)) with (cp_background c).
  destruct (layers_ext c d (put_window c id w) d x y (layers c) (cp_background c) False) as [E|[]]; [|done].
  intros j Hj. left. intros below. apply (elem_of_layers _ _ _ Hsc) in Hj. unfold layer. cbv zeta.
  rewrite (window_at_put c d) by (done || lia). destruct (Z.eqb_spec j id) as [->|]; [|done].
  by rewrite Hold, Hnew, !andb_false_r.
Qed.

(** A window record is replaced and both its old and its new rectangle are
    damaged. *)
Lemma put_window_step c c' d id w :
  view_ok c d -> 0 <= id < cp_window_count c -> win_surface w = win_surface (window_at c id) ->
  fits d w (cp_width c) (cp_work_height c) ->
  damage_ok c' -> c' = set_damages (put_window c id w) (cp_damage c') (cp_damage_count c') ->
  (forall x y, covered c x y -> covered c' x y) ->
  (forall x y, in_window d (window_at c id) x y = true -> covered c' x y) ->
  (forall x y, in_window d w x y = true -> covered c' x y) ->
  view_ok c' d.
Proof.
  intros Hui Hid Hws Hf Hdm Hc' Hcov Hold Hnew. pose proof (ui_scene _ _ Hui) as Hsc.
  assert (scene_ok c' d) as Hsc'.
  { rewrite Hc'. destruct (put_window_scene c d id w Hsc Hid Hws Hf). by constructor. }
  apply (current_arrange c); try done; [by rewrite Hc'|by rewrite Hc'|].
  intros x y _. destruct (in_window d (window_at c id) x y) eqn:Eo; [left; auto|].
  destruct (in_window d w x y) eqn:En; [left; auto|]. right. split; [split|by rewrite Hc'].
  - rewrite Hc'. by apply (put_window_composition c).
  - intros j Hj Hv Hin. rewrite Hc'. split; [apply Hj|].
    change (window_at (set_damages ?a ?b ?c) j) with (window_at a j). rewrite (window_at_put c d) by (done || lia).
    destruct (Z.eqb_spec j id) as [->|]; [congruence|done].
Qed.

Lemma set_visible_step c d id visible :
  view_ok c d -> 0 <= id -> view_ok (snd (compositor_set_window_visible c d id visible)) d.
Proof.
  intros Hui Hid. unfold compositor_set_window_visible. case_if; [done|]. b2p. cbv zeta. case_if; [done|]. cbn [snd].
  pose proof (ui_scene _ _ Hui) as Hsc. pose proof (sc_work _ _ Hsc).
  destruct (damage_window_spec c d (window_at c id) (cp_width c) (cp_work_height c) (ui_damage _ _ Hui))
    as (D1 & D2 & D3 & D4); [by apply (sc_fits _ _ Hsc)|lia|lia|].
  set (c1 := damage_window c d (window_at c id)) in *.
  set (w := mk_window _ _ _ _). apply (put_window_step c _ d id w); try done.
  - by apply (sc_fits _ _ Hsc).
  - destruct D1. by constructor.
  - rewrite D2. done.
Qed.

Lemma move_step c d id x y :
  view_ok c d -> 0 <= id -> 0 <= x -> 0 <= y -> view_ok (snd (compositor_move_window c d id x y)) d.
Proof.
  intros Hui Hid Hx Hy. unfold compositor_move_window. case_if; [done|]. b2p. cbv zeta. case_if; [done|].
  pose proof (ui_scene _ _ Hui) as Hsc. pose proof (sc_work _ _ Hsc) as Hwk. pose proof (ui_damage _ _ Hui) as [HW HH _ _ _].
  destruct (sc_fits _ _ Hsc id ltac:(lia)) as (s & Hs & Hok & Hf). pose proof Hok as [_ Hsw _ Hsh _].
  rewrite (surface_width_at _ _ _ Hs), (surface_height_at _ _ _ Hs), !(u32_id (_ - _)) by lia.
  set (x' := if _ : bool then _ else x). set (y' := if _ : bool then _ else y). case_if; [done|]. cbn [snd].
  assert (0 <= x' /\ x' + sf_width s <= cp_width c) as Hx' by (unfold x'; case_if; b2p; lia).
  assert (0 <= y' /\ y' + sf_height s <= cp_work_height c) as Hy' by (unfold y'; case_if; b2p; lia).
  clearbody x' y'.
  destruct (damage_window_spec c d (window_at c id) (cp_width c) (cp_work_height c) (ui_damage _ _ Hui))
    as (D1 & D2 & D3 & D4); [apply (sc_fits _ _ Hsc); lia|lia|lia|].
  set (c1 := damage_window c d (window_at c id)) in *. set (w := mk_window _ _ _ _).
  assert (fits d w (cp_width c) (cp_work_height c)) as Hfw by (exists s; unfold w; cbn; split_and!; try done; lia).
  set (c2 := set_windows c1 _ _ _).
  assert (c2 = set_damages (put_window c id w) (cp_damage c1) (cp_damage_count c1)) as E2 by (unfold c2; by rewrite D2).
  assert (damage_ok c2) as D5 by (destruct D1; unfold c2; by constructor).
  destruct (damage_window_spec c2 d w (cp_width c) (cp_work_height c) D5 Hfw) as (F1 & F2 & F3 & F4); [rewrite E2; cbn; lia..|].
  apply (put_window_step c _ d id w); try done; try lia.
  - rewrite F2 at 1. rewrite E2. done.
  - intros px py Hcv. apply F3. by apply D3.
  - intros px py Hin. apply F3. by apply D4.
Qed.

(** The loop that closes the gap in the stacking order. *)
Lemma rotate_get z position n id j :
  length z = 8%nat -> 0 <= position < n -> n <= 8 -> 0 <= j < 8 ->
  zget 0 (zset (for_range position (n - 1) (fun i z => zset z i (zget 0 z (u32 (i + 1)))) z) (n - 1) id) j
  = if j =? n - 1 then id else if (position <=? j) && (j <? n - 1) then zget 0 z (j + 1) else zget 0 z j.
Proof.
  intros Hl Hp Hn Hj. set (z1 := for_range _ _ _ _).
  assert (length z1 = 8%nat /\ forall k, 0 <= k < 8 ->
    zget 0 z1 k = if (position <=? k) && (k <? n - 1) then zget 0 z (k + 1) else zget 0 z k) as [Hl1 H1].
  { unfold z1. apply (for_range_inv (fun i z1 => length z1 = 8%nat /\ forall k, 0 <= k < 8 ->
      zget 0 z1 k = if (position <=? k) && (k <? i) then zget 0 z (k + 1) else zget 0 z k)); [lia| |].
    - split; [done|]. intros k Hk. rewrite in_range_false by lia. done.
    - intros i z2 Hi [H1 H2]. rewrite u32_id by (unfold UINT32_MAX; lia). split; [by rewrite zset_length|].
      intros k Hk. destruct (Z.eq_dec k i) as [->|Hne].
      + rewrite zget_zset_eq, H2 by lia. rewrite in_range_false, in_range_true by lia. done.
      + rewrite zget_zset_ne, H2 by lia.
        destruct (Z.leb_spec position k), (Z.ltb_spec k i), (Z.ltb_spec k (i + 1)); done || lia. }
  destruct (Z.eqb_spec j (n - 1)) as [->|Hne]; [by rewrite zget_zset_eq by lia|].
  rewrite zget_zset_ne by lia. by apply H1.
Qed.

Lemma rotate_layers z position n id :
  length z = 8%nat -> 0 <= position < n -> n <= 8 -> zget 0 z position = id ->
  let z' := zset (for_range position (n - 1) (fun i z => zset z i (zget 0 z (u32 (i + 1)))) z) (n - 1) id in
  length z' = 8%nat /\
  exists l1 l2, take (Z.to_nat n) z = l1 ++ id :: l2 /\ take (Z.to_nat n) z' = l1 ++ l2 ++ [id].
Proof.
  intros Hl Hp Hn Hid z'. assert (length z' = 8%nat) as Hl'.
  { unfold z'. rewrite zset_length. unfold z' in *. clear z'.
    apply (for_range_inv (fun _ z1 => length z1 = 8%nat)); [lia|done|]. intros i z1 _ H1. by rewrite zset_length. }
  split; [done|]. set (L := take (Z.to_nat n) z). assert (length L = Z.to_nat n) as HL by (unfold L; rewrite length_take; lia).
  exists (take (Z.to_nat position) L), (drop (Datatypes.S (Z.to_nat position)) L). split.
  - symmetry. apply take_drop_middle. unfold L. rewrite lookup_take_lt by lia. rewrite (zget_lookup 0) by lia. by rewrite Hid.
  - apply list_eq. intros k. destruct (decide (k < Z.to_nat n)%nat) as [Hk|Hk].
    2: { rewrite !lookup_ge_None_2; [done| |]; rewrite ?length_app, ?length_take, ?length_drop; simpl; lia. }
    rewrite lookup_take_lt by lia. rewrite <- (Nat2Z.id k) at 1. rewrite (zget_lookup 0) by lia.
    unfold z'. rewrite rotate_get by lia.
    assert (forall j, 0 <= j < n -> L !! Z.to_nat j = Some (zget 0 z j)) as HLj
      by (intros j Hj; unfold L; rewrite lookup_take_lt by lia; apply zget_lookup; lia).
    destruct (Z.eqb_spec (Z.of_nat k) (n - 1)) as [Hlast|Hlast].
    + rewrite lookup_app_r, lookup_app_r by (rewrite ?length_take, ?length_drop; lia).
      rewrite length_take, length_drop. by replace (_ - _ - _)%nat with 0%nat by lia.
    + destruct (Z.leb_spec position (Z.of_nat k)); cbn [andb].
      * destruct (Z.ltb_spec (Z.of_nat k) (n - 1)); [|lia].
        rewrite lookup_app_r, lookup_app_l by (rewrite ?length_take, ?length_drop; lia).
        rewrite lookup_drop, length_take, <- HLj by lia. f_equal. lia.
      * rewrite lookup_app_l by (rewrite length_take; lia). rewrite lookup_take_lt, <- HLj by lia. f_equal. lia.
Qed.

Lemma raise_step c d id : view_ok c d -> 0 <= id -> view_ok (snd (compositor_raise_window c d id)) d.
Proof.
  intros Hui Hid. unfold compositor_raise_window. case_if; [done|]. b2p.
  destruct (zfind _ _ _) as [position|] eqn:Ef; [|done]. case_if; [done|]. cbv zeta. cbn [snd].
  pose proof (ui_scene _ _ Hui) as Hsc. pose proof (sc_lengths _ _ Hsc) as [_ Hl]. pose proof (sc_count _ _ Hsc).
  pose proof (sc_work _ _ Hsc). apply zfind_Some in Ef as (Hpos & Hat & _). b2p.
  rewrite u8_id by lia.
  destruct (rotate_layers (cp_z_order c) position (cp_window_count c) id) as (Hl' & l1 & l2 & E1 & E2); [done|lia|lia|done|].
  set (z' := zset _ _ _) in *. set (c1 := set_windows c (cp_windows c) z' (cp_window_count c)).
  assert (scene_ok c1 d) as Hsc1.
  { pose proof (sc_layers _ _ Hsc) as Hperm. unfold layers in Hperm. rewrite E1 in Hperm.
    destruct Hsc as [? ? [? _] ? ? ? ? ? ?]. constructor; try done.
    change (layers c1) with (take (Z.to_nat (cp_window_count c)) z'). rewrite E2, app_assoc.
    rewrite <- Permutation_cons_append, Permutation_middle. exact Hperm. }
  assert (damage_ok c1) as Hdm1 by (destruct (ui_damage _ _ Hui); by constructor).
  destruct (damage_window_spec c1 d (window_at c1 id) (cp_width c) (cp_work_height c) Hdm1) as (D1 & D2 & D3 & D4);
    [apply (sc_fits _ _ Hsc); lia|cbn; lia|cbn; lia|].
  set (c2 := damage_window _ _ _) in *. apply (current_arrange c); try done; try (by rewrite D2).
  - rewrite D2. destruct Hsc1. by constructor.
  - intros x y _. destruct (in_window d (window_at c id) x y) eqn:Ein; [left; by apply D4|right].
    rewrite D2. split; [split|done].
    + apply composition_eq; [done..|]. change (layers c) with (take (Z.to_nat (cp_window_count c)) (cp_z_order c)).
      change (layers (set_damages c1 ?a ?b)) with (take (Z.to_nat (cp_window_count c)) z'). rewrite E1, E2.
      change (layer (set_damages c1 ?a ?b) d x y) with (layer c d x y).
      change (cp_background (set_damages c1 ?a ?b)) with (cp_background c).
      rewrite app_assoc, !layers_skip by (by rewrite Ein, andb_false_r). by rewrite app_nil_r.
    + by intros j [? ?].
Qed.

(** ** New windows and the panel *)

(** A surface no window and no panel shows. *)
Definition unused (c : argus_compositor_t) (p : Z) : Prop :=
  p <> cp_panel c /\ forall i, 0 <= i < cp_window_count c -> win_surface (window_at c i) <> p.

Lemma surface_valid_at d p : surface_valid d p = true -> exists s, surface_at d p = Some s /\ valid_fields s = true.
Proof. unfold surface_valid. destruct (surface_at d p) as [s|]; [|done]. by exists s. Qed.

(** The compositor with one more window on top. *)
Definition push_window (c : argus_compositor_t) (w : argus_compositor_window_t) : argus_compositor_t :=
  set_windows c (zset (cp_windows c) (cp_window_count c) w)
    (zset (cp_z_order c) (cp_window_count c) (cp_window_count c)) (cp_window_count c + 1).

Lemma push_window_at c d w j :
  scene_ok c d -> cp_window_count c < 8 -> 0 <= j ->
  window_at (push_window c w) j = if j =? cp_window_count c then w else window_at c j.
Proof.
  intros Hsc Hn Hj. pose proof (sc_lengths _ _ Hsc) as [Hl _]. pose proof (sc_count _ _ Hsc).
  unfold window_at, push_window. cbn. destruct (Z.eqb_spec j (cp_window_count c)) as [->|];
    [by rewrite zget_zset_eq by lia|by rewrite zget_zset_ne by lia].
Qed.

Lemma push_window_layers c d w :
  scene_ok c d -> cp_window_count c < 8 -> layers (push_window c w) = layers c ++ [cp_window_count c].
Proof.
  intros Hsc Hn. pose proof (sc_lengths _ _ Hsc) as [_ Hl]. pose proof (sc_count _ _ Hsc). unfold layers, push_window, zset. cbn.
  replace (Z.to_nat (cp_window_count c + 1)) with (Datatypes.S (Z.to_nat (cp_window_count c))) by lia.
  rewrite (take_S_r _ _ (cp_window_count c)) by (apply list_lookup_insert_eq; lia). by rewrite take_insert_ge by lia.
Qed.

Lemma push_window_scene c d w :
  scene_ok c d -> cp_window_count c < 8 -> unused c (win_surface w) ->
  fits d w (cp_width c) (cp_work_height c) -> scene_ok (push_window c w) d.
Proof.
  intros Hsc Hn [Hu1 Hu2] Hf. pose proof (push_window_at c d w) as Hat. pose proof (push_window_layers c d w Hsc Hn) as Hly.
  pose proof (sc_count _ _ Hsc). pose proof (sc_layers _ _ Hsc) as Hperm.
  destruct Hsc as [? ? [? ?] ? ? ? ? ? ?] eqn:E. clear E.
  assert (forall j, 0 <= j < cp_window_count c + 1 -> j = cp_window_count c /\ window_at (push_window c w) j = w
    \/ 0 <= j < cp_window_count c /\ window_at (push_window c w) j = window_at c j) as Hcase.
  { intros j Hj. rewrite Hat by (done || lia). destruct (Z.eqb_spec j (cp_window_count c)); [by left|right; split; [lia|done]]. }
  constructor; try done.
  - split; cbn; by rewrite zset_length.
  - cbn. lia.
  - rewrite Hly, Hperm. cbn. replace (Z.to_nat (cp_window_count c + 1)) with (Z.to_nat (cp_window_count c) + 1)%nat by lia.
    rewrite zrange_app. cbn [zrange]. by replace (0 + Z.of_nat (Z.to_nat (cp_window_count c))) with (cp_window_count c) by lia.
  - intros j Hj. destruct (Hcase j Hj) as [[_ ->]|[Hj' ->]]; [done|by apply sc_fits0].
  - intros i j Hi Hj Hne. destruct (Hcase i Hi) as [[-> ->]|[Hi' ->]], (Hcase j Hj) as [[-> ->]|[Hj' ->]]; auto; try lia.
    intros E. by apply (Hu2 j).
  - intros i Hi. destruct (Hcase i Hi) as [[-> ->]|[Hi' ->]]; [done|by apply sc_panel_apart0].
Qed.

Lemma add_window_step c d p x y :
  view_ok c d -> unused c p -> 0 <= x -> 0 <= y -> view_ok (snd (compositor_add_window c d p x y)) d.
Proof.
  intros Hui Hun Hx Hy. unfold compositor_add_window. case_if; [done|]. cbv zeta. cbn [snd].
  unfold ARGUS_COMPOSITOR_MAX_WINDOWS in *. b2p.
  pose proof (ui_scene _ _ Hui) as Hsc. pose proof (sc_count _ _ Hsc). pose proof (sc_work _ _ Hsc).
  destruct (surface_valid_at d p) as (s & Hs & Hv); [done|]. pose proof (do_surfaces _ (ui_display _ _ Hui) _ _ Hs Hv) as Hok.
  rewrite (surface_width_at _ _ _ Hs), (surface_height_at _ _ _ Hs) in *. pose proof Hok as [_ Hsw _ Hsh _].
  set (x' := if _ : bool then _ else x). set (y' := if _ : bool then _ else y).
  assert (0 <= x' /\ x' + sf_width s <= cp_width c) as Hx' by (unfold x'; case_if; b2p; lia).
  assert (0 <= y' /\ y' + sf_height s <= cp_work_height c) as Hy' by (unfold y'; case_if; b2p; lia).
  clearbody x' y'. rewrite u8_id, u32_id by (unfold UINT32_MAX; lia). set (w := mk_window p x' y' true).
  assert (fits d w (cp_width c) (cp_work_height c)) as Hfw by (exists s; unfold w; cbn; split_and!; try done; lia).
  change (set_windows c _ _ _) with (push_window c w).
  pose proof (push_window_scene c d w Hsc ltac:(lia) Hun Hfw) as Hsc1.
  assert (damage_ok (push_window c w)) as Hdm1 by (destruct (ui_damage _ _ Hui); by constructor).
  destruct (damage_window_spec (push_window c w) d w (cp_width c) (cp_work_height c) Hdm1 Hfw) as (D1 & D2 & D3 & D4);
    [cbn; lia|cbn; lia|].
  replace (compositor_damage (push_window c w) x' y' (sf_width s) (sf_height s)) with (damage_window (push_window c w) d w)
    by (unfold damage_window, w; cbn; by rewrite (surface_width_at _ _ _ Hs), (surface_height_at _ _ _ Hs)).
  set (c2 := damage_window _ _ _) in *. apply (current_arrange c); try done; try (by rewrite D2).
  - rewrite D2. destruct Hsc1. by constructor.
  - intros px py _. destruct (in_window d w px py) eqn:Ein; [left; by apply D4|right]. rewrite D2.
    split; [split|done].
    + apply composition_eq; [done..|]. change (layers (set_damages ?a ?b ?e)) with (layers a).
      rewrite (push_window_layers c d w) by (done || lia). change (layer (set_damages ?a ?b ?e)) with (layer a).
      rewrite layers_skip, app_nil_r by (rewrite (push_window_at c d) by (done || lia); by rewrite Z.eqb_refl, Ein, andb_false_r).
      destruct (layers_ext c d (push_window c w) d px py (layers c) (cp_background c) False) as [E|[]]; [|done].
      intros j Hj. left. intros below. apply (elem_of_layers _ _ _ Hsc) in Hj. unfold layer.
      rewrite (push_window_at c d) by (done || lia). by destruct (Z.eqb_spec j (cp_window_count c)); [lia|].
    + intros j Hj _ _. split; [cbn; lia|]. change (window_at (set_damages ?a ?b ?e) j) with (window_at a j).
      rewrite (push_window_at c d) by (done || lia). by destruct (Z.eqb_spec j (cp_window_count c)); [lia|].
Qed.

Lemma set_panel_step c d p y :
  view_ok c d -> unused c p -> cp_panel c = 0 -> 0 <= y -> view_ok (snd (compositor_set_panel c d p y)) d.
Proof.
  intros Hui [_ Hun] Hno Hy. unfold compositor_set_panel. case_if; [done|]. cbn [snd]. b2p.
  pose proof (ui_scene _ _ Hui) as Hsc. destruct (surface_valid_at d p) as (s & Hs & Hv); [done|].
  pose proof (do_surfaces _ (ui_display _ _ Hui) _ _ Hs Hv) as Hok.
  rewrite (surface_width_at _ _ _ Hs), (surface_height_at _ _ _ Hs) in *. pose proof Hok as [_ Hsw _ Hsh _].
  set (c1 := set_panel c p y). assert (damage_ok c1) as Hdm1 by (destruct (ui_damage _ _ Hui); by constructor).
  destruct (compositor_damage_spec c1 0 y (sf_width s) (sf_height s) Hdm1) as (D1 & D2 & D3 & D4); [lia..|].
  set (c2 := compositor_damage _ _ _ _ _) in *. apply (current_arrange c); try done; try (by rewrite D2).
  - rewrite D2. destruct Hsc. constructor; try done. intros _. exists s. cbn. split_and!; try done. lia.
  - intros px py (Hpx & Hpy & _). destruct (in_rect 0 y (sf_width s) (sf_height s) px py) eqn:Ein; [left; by apply D4|right].
    split; [split|by rewrite Hno].
    + rewrite D2. unfold composition. cbn [set_damages c1 set_panel cp_panel cp_panel_y cp_width cp_background cp_window_count].
      rewrite Hno, (surface_height_at _ _ _ Hs). change (nz 0) with false. cbn [andb].
      replace (cp_width c) with (sf_width s) by done. by rewrite Ein, andb_false_r.
    + rewrite D2. by intros j [? ?].
Qed.

(** ** Presenting: collecting the damage *)

(** The surface object after its damage was taken. *)
Definition calmed (d : display) (p : Z) (s : argus_surface_t) : display := put_surface d p (set_damage s false rect0).

Lemma calmed_planes d p s : surface_at d p = Some s -> same_planes d (calmed d p s).
Proof.
  intros Hp. eapply (same_planes_put d _ p s); try done. intros []. constructor; try done.
Qed.

Lemma calmed_getpixel d p s q x y :
  surface_at d p = Some s -> surface_getpixel (calmed d p s) q x y = surface_getpixel d q x y.
Proof.
  intros Hp. unfold surface_getpixel, surface_at, calmed in *. cbn. destruct (Z.eq_dec q p) as [->|Hne].
  - by rewrite lookup_insert_eq, Hp.
  - by rewrite lookup_insert_ne.
Qed.

Lemma calmed_damaged d p s q x y :
  surface_damaged (calmed d p s) q x y = if q =? p then false else surface_damaged d q x y.
Proof.
  unfold surface_damaged, surface_at, calmed. cbn. destruct (Z.eqb_spec q p) as [->|Hne].
  - by rewrite lookup_insert_eq.
  - by rewrite lookup_insert_ne.
Qed.

Lemma calmed_composition c d p s x y :
  scene_ok c d -> surface_at d p = Some s -> 0 <= x < cp_width c -> composition c (calmed d p s) x y = composition c d x y.
Proof.
  intros Hsc Hp Hx.
  destruct (same_planes_composition d (calmed d p s) (calmed_planes d p s Hp) c x y False) as [E|[]]; [done|done| | |done];
    intros; left; by apply calmed_getpixel.
Qed.

(** Taking a surface's damage after its part of the screen is covered. *)
Lemma calm_step c c' d p s :
  view_ok c d -> surface_at d p = Some s -> surface_ok s ->
  damage_ok c' -> c' = set_damages c (cp_damage c') (cp_damage_count c') ->
  (forall x y, covered c x y -> covered c' x y) ->
  (forall id x y, 0 <= id < cp_window_count c -> on_screen c d x y -> let w := window_at c id in
     win_surface w = p -> win_visible w = true -> damaged s (x - win_x w) (y - win_y w) = true -> covered c' x y) ->
  (forall x y, cp_panel c = p -> on_screen c d x y -> damaged s x (y - cp_panel_y c) = true -> covered c' x y) ->
  view_ok c' (calmed d p s).
Proof.
  intros [Hdp Hdm Hsc Hcur] Hp Hok Hdm' Hc' Hcov Hwin Hpan. pose proof (calmed_planes d p s Hp) as Hpl.
  constructor; [by eapply same_planes_display|done| |].
  - rewrite Hc'. destruct (same_planes_scene _ _ Hpl c Hsc). by constructor.
  - eapply (current_step c d); [by rewrite Hc'|by rewrite Hc'|done| | |exact Hcur].
    + intros x y Hxy [Hc|id Hid Hv Hdam|Hpn Hdam]; [by apply pending_covered, Hcov| |].
      * destruct (Z.eq_dec (win_surface (window_at c id)) p) as [E|Hne].
        -- apply pending_covered, (Hwin id); try done. unfold surface_damaged in Hdam. by rewrite E, Hp in Hdam.
        -- rewrite Hc'. apply (pending_window _ _ _ _ id); try done. change (window_at (set_damages ?a ?b ?e) id) with (window_at a id).
           rewrite calmed_damaged. by destruct (Z.eqb_spec (win_surface (window_at c id)) p).
      * destruct (Z.eq_dec (cp_panel c) p) as [E|Hne].
        -- apply pending_covered, Hpan; try done. unfold surface_damaged in Hdam. by rewrite E, Hp in Hdam.
        -- rewrite Hc'. apply pending_panel; [done|]. cbn [set_damages cp_panel cp_panel_y].
           rewrite calmed_damaged. by destruct (Z.eqb_spec (cp_panel c) p).
    + intros x y (Hx & _). left. rewrite Hc'. by apply (calmed_composition c).
Qed.

(** A surface with nothing to take. *)
Definition calm (d : display) (p : Z) : Prop := forall s, surface_at d p = Some s -> sf_dirty s = false.

Lemma calm_calmed d p q s : calm d q \/ q = p -> calm (calmed d p s) q.
Proof.
  intros Hq t. unfold surface_at, calmed. cbn. destruct (Z.eq_dec q p) as [->|Hne].
  - rewrite lookup_insert_eq. by intros [= <-].
  - rewrite lookup_insert_ne by done. destruct Hq as [Hq|]; [apply Hq|done].
Qed.

Lemma take_damage_eq d p s :
  surface_at d p = Some s -> surface_ok s ->
  surface_take_damage d p = if sf_dirty s then (Some (sf_damage s), calmed d p s) else (None, d).
Proof.
  intros Hp Hok. unfold surface_take_damage. rewrite Hp, (valid_of_ok s Hok). by destruct (sf_dirty s).
Qed.

(** What one step of the collection does. *)
Definition collected (c : argus_compositor_t) (d : display) (p : Z) (st : argus_compositor_t * display) : Prop :=
  view_ok (fst st) (snd st) /\ (exists dm n, fst st = set_damages c dm n) /\
  dp_gop (snd st) = dp_gop d /\ calm (snd st) p /\ (forall q, calm d q -> calm (snd st) q) /\
  (forall x y, 0 <= x < cp_width c -> composition (fst st) (snd st) x y = composition c d x y).

Lemma take_step c d p s ox oy :
  view_ok c d -> surface_at d p = Some s -> surface_ok s ->
  0 <= ox -> ox + sf_width s <= cp_width c -> 0 <= oy -> oy + sf_height s <= cp_height c ->
  (forall id, 0 <= id < cp_window_count c -> win_surface (window_at c id) = p ->
     win_x (window_at c id) = ox /\ win_y (window_at c id) = oy) ->
  (cp_panel c = p -> cp_panel_y c = oy /\ ox = 0) -> sf_dirty s = true ->
  collected c d p (compositor_damage c (u32 (ox + rect_x (sf_damage s))) (u32 (oy + rect_y (sf_damage s)))
                     (rect_width (sf_damage s)) (rect_height (sf_damage s)), calmed d p s).
Proof.
  intros Hui Hp Hok Hox Hoxw Hoy Hoyh Hwin Hpan Hdirty. pose proof (so_damage _ Hok Hdirty) as (D1 & D2 & D3 & D4 & D5 & D6).
  pose proof (ui_damage _ _ Hui) as Hdm. pose proof Hdm as [HW HH _ _ _]. rewrite !u32_id by lia.
  destruct (compositor_damage_spec c (ox + rect_x (sf_damage s)) (oy + rect_y (sf_damage s)) (rect_width (sf_damage s))
              (rect_height (sf_damage s)) Hdm) as (E1 & E2 & E3 & E4); [lia..|].
  set (c' := compositor_damage _ _ _ _ _) in *.
  assert (forall x y, on_screen c d x y -> damaged s (x - ox) (y - oy) = true -> covered c' x y) as Hin.
  { intros x y (Hx & Hy & _) Hd. apply andb_true_iff in Hd as [_ Hd]. apply covers_true in Hd. apply E4; [done|done|].
    apply in_rect_true. lia. }
  assert (view_ok c' (calmed d p s)) as Hui'.
  { apply (calm_step c); try done.
    - intros id x y Hid Hxy w Hw Hv Hd. destruct (Hwin id Hid Hw) as [Ex Ey]. apply Hin; [done|]. by rewrite <- Ex, <- Ey.
    - intros x y Hpp Hxy Hd. destruct (Hpan Hpp) as [Ey ->]. apply Hin; [done|]. by rewrite <- Ey, Z.sub_0_r. }
  split_and!; cbn [fst snd]; [done|by eexists _, _|done|apply calm_calmed; by right|intros q Hq; apply calm_calmed; by left|].
  intros x y Hx. rewrite E2. apply (calmed_composition c); [apply (ui_scene _ _ Hui)|done|done].
Qed.

Lemma collected_skip c d p s c' :
  view_ok c d -> surface_at d p = Some s -> sf_dirty s = false -> c' = c -> collected c d p (c', d).
Proof.
  intros Hui Hp Hd ->. split_and!; try done; cbn [fst snd].
  - exists (cp_damage c), (cp_damage_count c). by destruct c.
  - intros t Ht. congruence.
Qed.

Lemma collect_window_spec c d id :
  view_ok c d -> 0 <= id < cp_window_count c -> collected c d (win_surface (window_at c id)) (collect_window id (c, d)).
Proof.
  intros Hui Hid. pose proof (ui_scene _ _ Hui) as Hsc. pose proof (sc_work _ _ Hsc).
  destruct (sc_fits _ _ Hsc id Hid) as (s & Hs & Hok & Hf). unfold collect_window. rewrite (take_damage_eq _ _ _ Hs Hok).
  destruct (sf_dirty s) eqn:Ed; [|by eapply collected_skip]. destruct (win_visible (window_at c id)) eqn:Ev.
  - apply take_step; try done; try lia.
    + intros j Hj Hw. destruct (Z.eq_dec j id) as [->|Hne]; [done|]. by destruct (sc_distinct _ _ Hsc j id Hj Hid Hne).
    + intros Hpp. by destruct (sc_panel_apart _ _ Hsc id Hid).
  - split_and!; cbn [fst snd]; [|by exists (cp_damage c), (cp_damage_count c); destruct c|done|apply calm_calmed; by right
      |intros q Hq; apply calm_calmed; by left|intros x y Hx; by apply calmed_composition].
    apply (calm_step c); try done; [apply (ui_damage _ _ Hui)|by destruct c| |].
    + intros j x y Hj _ w Hw Hv. destruct (Z.eq_dec j id) as [E|Hne]; [unfold w in Hv; congruence|].
      by destruct (sc_distinct _ _ Hsc j id Hj Hid Hne).
    + intros x y Hpp. by destruct (sc_panel_apart _ _ Hsc id Hid).
Qed.

(** After the collection the damage list is all there is to redraw. *)
Lemma collect_spec c d :
  view_ok c d ->
  let st := collect_surface_damage c d in
  view_ok (fst st) (snd st) /\ (exists dm n, fst st = set_damages c dm n) /\ dp_gop (snd st) = dp_gop d /\
  (forall x y, 0 <= x < cp_width c -> composition (fst st) (snd st) x y = composition c d x y) /\
  (forall x y, pending (fst st) (snd st) x y -> covered (fst st) x y).
Proof.
  intros Hui. pose proof (sc_count _ _ (ui_scene _ _ Hui)) as Hn. unfold collect_surface_damage.
  set (st1 := for_range 0 (cp_window_count c) collect_window (c, d)).
  assert (view_ok (fst st1) (snd st1) /\ (exists dm n, fst st1 = set_damages c dm n) /\ dp_gop (snd st1) = dp_gop d /\
    (forall x y, 0 <= x < cp_width c -> composition (fst st1) (snd st1) x y = composition c d x y) /\
    forall id, 0 <= id < cp_window_count c -> calm (snd st1) (win_surface (window_at c id))) as (U1 & (dm & n & S1) & G1 & C1 & K1).
  { apply (for_range_inv (fun i st => view_ok (fst st) (snd st) /\ (exists dm n, fst st = set_damages c dm n) /\
      dp_gop (snd st) = dp_gop d /\
      (forall x y, 0 <= x < cp_width c -> composition (fst st) (snd st) x y = composition c d x y) /\
      forall id, 0 <= id < i -> calm (snd st) (win_surface (window_at c id)))); [lia| |].
    - split_and!; try done; [by exists (cp_damage c), (cp_damage_count c); destruct c|lia].
    - intros i [c1 d1] Hi (U & (dm & n & S) & G & C & K). cbn [fst snd] in *. subst c1.
      destruct (collect_window_spec (set_damages c dm n) d1 i U) as (U' & (dm' & n' & S') & G' & K1 & K2 & C'); [done|].
      split_and!; [done|by exists dm', n'; rewrite S'|congruence| |].
      + intros x y Hx. rewrite C' by done. by apply C.
      + intros id Hid. destruct (Z.eq_dec id i) as [->|]; [exact K1|apply K2, K; lia]. }
  destruct st1 as [c1 d1]. cbn [fst snd] in *. subst c1. cbn [set_damages cp_panel cp_panel_y].
  assert (forall c2 d2, (forall id, 0 <= id < cp_window_count c -> calm d2 (win_surface (window_at c id))) ->
    (cp_panel c <> 0 -> calm d2 (cp_panel c)) -> (exists dm n, c2 = set_damages c dm n) ->
    forall x y, pending c2 d2 x y -> covered c2 x y) as Hcov.
  { intros c2 d2 Hk Hkp (dm2 & n2 & ->) x y [Hc|id Hid Hv Hdam|Hpn Hdam]; [done| |]; exfalso; revert Hdam; unfold surface_damaged, damaged.
    - destruct (surface_at d2 _) as [t|] eqn:Ht; [|done]. by rewrite (Hk id Hid t Ht).
    - destruct (surface_at d2 _) as [t|] eqn:Ht; [|done]. by rewrite (Hkp Hpn t Ht). }
  destruct (nz (cp_panel c)) eqn:Ep.
  2: { split_and!; cbn [fst snd]; try done; [by exists dm, n|]. apply Hcov; [done| |by exists dm, n].
       intros Hne. unfold nz in Ep. b2p. done. }
  unfold nz in Ep. b2p. pose proof (ui_scene _ _ U1) as Hsc1.
  destruct (sc_panel _ _ Hsc1) as (s & Hs & Hok & Hw & Hpy & Hph); [done|]. cbn [set_damages cp_panel cp_panel_y cp_width cp_height] in *.
  rewrite (take_damage_eq _ _ _ Hs Hok).
  assert (collected (set_damages c dm n) d1 (cp_panel c)
    (if sf_dirty s then (compositor_damage (set_damages c dm n) (rect_x (sf_damage s)) (u32 (cp_panel_y c + rect_y (sf_damage s)))
       (rect_width (sf_damage s)) (rect_height (sf_damage s)), calmed d1 (cp_panel c) s) else (set_damages c dm n, d1)))
    as (U2 & (dm2 & n2 & S2) & G2 & K2 & K3 & C2).
  { destruct (sf_dirty s) eqn:Ed; [|by eapply collected_skip]. pose proof (so_damage _ Hok Ed).
    pose proof (ui_damage _ _ U1) as [HW _ _ _ _]. cbn [set_damages cp_width] in HW.
    assert (u32 (0 + rect_x (sf_damage s)) = rect_x (sf_damage s)) as Erx by (rewrite Z.add_0_l; apply u32_id; lia).
    rewrite <- Erx at 1.
    apply take_step; try done; cbn [set_damages cp_width cp_height]; try lia.
    intros id Hid Hw'. by destruct (sc_panel_apart _ _ Hsc1 id Hid). }
  destruct (sf_dirty s); cbn [fst snd] in *;
    (split_and!; [done|by exists dm2, n2; rewrite S2|congruence|intros x y Hx; etrans; [by apply C2|by apply C1]|];
     apply Hcov; [intros id Hid; by apply K3, K1|done|by exists dm2, n2; rewrite S2]).
Qed.

End View.

(** ** Presenting: painting *)

Lemma getpixel_range d p x y : 0 <= surface_getpixel d p x y <= UINT32_MAX.
Proof.
  unfold surface_getpixel. destruct (surface_at d p); [|unfold UINT32_MAX; lia]. case_if; [unfold UINT32_MAX; lia|apply load32_range].
Qed.

Lemma composition_range c d x y : scene_ok c d -> 0 <= composition c d x y <= UINT32_MAX.
Proof.
  intros Hsc. unfold composition. case_if; [apply getpixel_range|]. pose proof (sc_background _ _ Hsc) as Hb. revert Hb.
  generalize (cp_background c). induction (layers c) as [|id l IH]; intros bg Hb; [done|]. cbn [fold_left]. apply IH.
  unfold layer. cbv zeta. case_if; [apply getpixel_range|done].
Qed.

(** [painted d m]: the framebuffer alone was written. *)
Definition painted (d : display) (m : mem) : Prop :=
  same_outside (gop_fb (dp_gop d)) (gop_pitch_pixels (dp_gop d)) 0 (gop_height (dp_gop d)) (dp_mem d) m.

Lemma painted_composition c d m x y :
  display_ok d -> scene_ok c d -> painted d m -> 0 <= x < cp_width c ->
  composition c (put_mem d m) x y = composition c d x y.
Proof.
  intros Hd Hsc Hm Hx.
  assert (forall q qx qy, 0 <= qx -> 0 <= qy -> surface_getpixel (put_mem d m) q qx qy = surface_getpixel d q qx qy) as Hg.
  { intros q qx qy Hqx Hqy. unfold surface_getpixel. change (surface_at (put_mem d m) q) with (surface_at d q).
    destruct (surface_at d q) as [t|] eqn:Ht; [|done]. destruct (off_surface t qx qy) eqn:Eo; [done|].
    assert (valid_fields t = true) as Hvt by (unfold off_surface in Eo; by destruct (valid_fields t)).
    pose proof (do_surfaces _ Hd _ _ Ht Hvt) as Hok. pose proof Hok as [_ Hw _ _ _].
    apply off_surface_false in Eo as [Hx1 Hy1]; [|done..].
    destruct (pixel_in_plane (sf_pixels t) (sf_stride t) (sf_width t) (sf_height t) qx qy) as [A B]; [lia|lia|lia|].
    unfold pixel. eapply same_outside_load; [exact Hm|]. pose proof (do_screen _ Hd q t Ht Hvt) as Hs.
    unfold plane_end, pixel_address in *. lia. }
  destruct (same_planes_composition d (put_mem d m)) with (c := c) (x := x) (y := y) (P := False) as [E|[]]; try done.
  - constructor; try done. intros q t Ht. by exists t.
  - intros. left. apply Hg; lia.
  - intros. left. apply Hg; lia.
Qed.

Lemma painted_scene c d m : scene_ok c d -> scene_ok c (put_mem d m).
Proof. intros []. by constructor. Qed.

(** Painting one rectangle. *)
Lemma present_rect_spec c d r :
  display_ok d -> damage_ok c -> scene_ok c d -> rect_inside r (cp_width c) (cp_height c) ->
  exists m, present_rect c r d = put_mem d m /\ painted d m /\
    forall x y, 0 <= x < gop_width (dp_gop d) -> 0 <= y < gop_height (dp_gop d) ->
      screen (dp_gop d) m x y = if covers r x y then composition c d x y else screen (dp_gop d) (dp_mem d) x y.
Proof.
  intros Hd Hdm Hsc (R1 & R2 & R3 & R4 & R5 & R6). pose proof Hdm as [HW HH _ _ _]. pose proof (do_gop _ Hd) as Hg.
  unfold present_rect. rewrite !u32_id by lia.
  set (shown := fun (done : Z -> Z -> bool) (d1 : display) => exists m, d1 = put_mem d m /\ painted d m /\
    forall x y, 0 <= x < gop_width (dp_gop d) -> 0 <= y < gop_height (dp_gop d) ->
      screen (dp_gop d) m x y = if done x y then composition c d x y else screen (dp_gop d) (dp_mem d) x y).
  assert (forall done done' d1, (forall x y, done x y = done' x y) -> shown done d1 -> shown done' d1) as Hext.
  { intros f g d1 Hfg (m & E & P & S). exists m. split_and!; try done. intros. rewrite <- Hfg. by apply S. }
  change (shown (covers r) (for_range (rect_y r) (rect_y r + rect_height r) (fun y d => for_range (rect_x r) (rect_x r + rect_width r)
    (fun x d => put_mem d (gop_putpixel (dp_gop d) (dp_mem d) x y (composed_pixel c d x y))) d) d)).
  apply (Hext (in_rect (rect_x r) (rect_y r) (rect_width r) (rect_y r + rect_height r - rect_y r))).
  { intros x y. apply eq_true_iff_eq. unfold covers. rewrite !in_rect_true. lia. }
  apply (for_range_inv (fun j d1 => shown (in_rect (rect_x r) (rect_y r) (rect_width r) (j - rect_y r)) d1)); [lia| |].
  - exists (dp_mem d). split_and!; [by destruct d as [? ? []]|apply same_outside_refl|]. intros x y Hx Hy.
    destruct (in_rect _ _ _ _ x y) eqn:E; [apply in_rect_true in E; lia|done].
  - intros j d1 Hj H1.
    eapply (Hext (fun x y => in_rect (rect_x r) (rect_y r) (rect_width r) (j - rect_y r) x y
                             || in_rect (rect_x r) j (rect_x r + rect_width r - rect_x r) 1 x y)).
    { intros x y. apply eq_true_iff_eq. rewrite orb_true_iff, !in_rect_true. lia. }
    apply (for_range_inv (fun i d2 => shown (fun x y => in_rect (rect_x r) (rect_y r) (rect_width r) (j - rect_y r) x y
                             || in_rect (rect_x r) j (i - rect_x r) 1 x y) d2)); [lia| |].
    { eapply Hext; [|exact H1]. intros x y. apply eq_true_iff_eq. rewrite orb_true_iff, !in_rect_true. lia. }
    intros i d2 Hi (m & -> & Pm & Sm). change (dp_gop (put_mem d m)) with (dp_gop d). change (dp_mem (put_mem d m)) with m.
    rewrite composed_pixel_eq by (try done; try (by apply painted_scene); lia). rewrite painted_composition by (done || lia).
    destruct (gop_putpixel_spec (dp_gop d) m i j (composition c d i j) Hg) as [Q1 Q2]; [lia|lia|].
    eexists. split; [reflexivity|]. split; [by eapply same_outside_trans|]. intros x y Hx Hy. rewrite Q2, Sm by done.
    rewrite u32_id by (by apply composition_range).
    destruct ((x =? i) && (y =? j)) eqn:Ex.
    + b2p. subst. destruct (_ || _) eqn:Eb; [done|]. apply orb_false_iff in Eb as [_ Eb]. apply in_rect_false in Eb. lia.
    + destruct (in_rect (rect_x r) (rect_y r) (rect_width r) (j - rect_y r) x y); [done|]. cbn [orb].
      destruct (in_rect (rect_x r) j (i - rect_x r) 1 x y) eqn:E1, (in_rect (rect_x r) j (i + 1 - rect_x r) 1 x y) eqn:E2; try done;
        rewrite ?in_rect_true, ?in_rect_false in *; apply andb_false_iff in Ex; rewrite !Z.eqb_neq in Ex; lia.
Qed.

Lemma painted_display d m : display_ok d -> display_ok (put_mem d m).
Proof. intros []. by constructor. Qed.

Lemma painted_trans d m m' : painted d m -> painted (put_mem d m) m' -> painted d m'.
Proof. apply same_outside_trans. Qed.

(** Painting the rectangles of the list. *)
Lemma present_loop_spec c d n :
  display_ok d -> damage_ok c -> scene_ok c d -> 0 <= n <= cp_damage_count c ->
  exists k m, for_range 0 n (fun i '(pixels, d) =>
      let damage := damage_at c i in
      (u64 (pixels + u64 (rect_width damage * rect_height damage)), present_rect c damage d)) (0, d) = (k, put_mem d m) /\
    painted d m /\
    forall x y, on_screen c d x y ->
      screen (dp_gop d) m x y = composition c d x y
      \/ screen (dp_gop d) m x y = screen (dp_gop d) (dp_mem d) x y
         /\ forall i, 0 <= i < n -> covers (damage_at c i) x y = false.
Proof.
  intros Hd Hdm Hsc Hn.
  apply (for_range_inv (fun n st => exists k m, st = (k, put_mem d m) /\ painted d m /\
    forall x y, on_screen c d x y ->
      screen (dp_gop d) m x y = composition c d x y
      \/ screen (dp_gop d) m x y = screen (dp_gop d) (dp_mem d) x y
         /\ forall i, 0 <= i < n -> covers (damage_at c i) x y = false)); [lia| |].
  - exists 0, (dp_mem d). split_and!; [by destruct d as [? ? []]|apply same_outside_refl|]. intros x y _. right. split; [done|lia].
  - intros i st Hi (k & m & -> & Pm & Sm). cbv zeta.
    destruct (present_rect_spec c (put_mem d m) (damage_at c i)) as (m' & -> & Pm' & Sm').
    { by apply painted_display. } { done. } { by apply painted_scene. } { apply (dk_rects _ Hdm). lia. }
    eexists _, m'. split_and!; [done|by eapply painted_trans|]. intros x y Hxy. pose proof Hxy as (Hx & Hy & Hgx & Hgy).
    rewrite Sm' by (cbn; lia). rewrite painted_composition by done. change (dp_gop (put_mem d m)) with (dp_gop d).
    change (dp_mem (put_mem d m)) with m. destruct (covers (damage_at c i) x y) eqn:Ec; [by left|].
    destruct (Sm x y Hxy) as [E|[E Hcov]]; [by left|right]. split; [done|]. intros j Hj.
    destruct (Z.eq_dec j i) as [->|]; [done|apply Hcov; lia].
Qed.

(** Collecting the damage writes nothing into the pixels. *)
Lemma take_damage_mem d p : dp_mem (snd (surface_take_damage d p)) = dp_mem d.
Proof. unfold surface_take_damage. destruct (surface_at d p) as [s|]; [|done]. by case_if. Qed.

Lemma collect_mem c d : 0 <= cp_window_count c -> dp_mem (snd (collect_surface_damage c d)) = dp_mem d.
Proof.
  intros Hn. unfold collect_surface_damage.
  assert (dp_mem (snd (for_range 0 (cp_window_count c) collect_window (c, d))) = dp_mem d) as H.
  { apply (for_range_inv (fun _ st => dp_mem (snd st) = dp_mem d)); [done|done|]. intros i [c1 d1] _ Hst. cbn [snd] in Hst. rewrite <- Hst.
    unfold collect_window. pose proof (take_damage_mem d1 (win_surface (window_at c1 i))) as Ht.
    destruct (surface_take_damage _ _) as [[r|] d2]; [case_if|]; exact Ht. }
  destruct (for_range _ _ _ _) as [c1 d1]. cbn [snd] in H. rewrite <- H. case_if; [|done].
  pose proof (take_damage_mem d1 (cp_panel c1)) as Ht. by destruct (surface_take_damage _ _) as [[r|] d2].
Qed.

(** Presenting paints the pending pixels and no others. *)
Lemma present_view v c d :
  ui_view v c d ->
  let '(b, c', d') := compositor_present c d in
  b = true /\ ui_view (composition c' d') c' d' /\ dp_gop d' = dp_gop d /\ cp_damage_count c' = 0 /\
  (exists dm frames pixels shown, c' = set_statistics (set_damages c dm 0) frames pixels shown) /\
  forall x y, on_screen c d x y ->
    on_screen c' d' x y /\ composition c' d' x y = composition c d x y /\
    (screen (dp_gop d) (dp_mem d') x y = composition c d x y
     \/ screen (dp_gop d) (dp_mem d') x y = screen (dp_gop d) (dp_mem d) x y /\ v x y = composition c d x y).
Proof.
  intros Hui. unfold compositor_present. rewrite (go_usable _ (do_gop _ (ui_display _ _ Hui))). cbn [negb].
  destruct (collect_spec c d Hui) as (U1 & (dm & n & S1) & G1 & C1 & P1). pose proof (collect_mem c d (proj1 (sc_count _ _ (ui_scene _ _ Hui)))) as M1.
  destruct (collect_surface_damage c d) as [c1 d1]. cbn [fst snd] in *.
  pose proof U1 as [Hd1 Hdm1 Hsc1 Hcur1].
  assert (forall x y, on_screen c d x y -> on_screen c1 d1 x y) as Hon by (intros x y; unfold on_screen; by rewrite S1, G1).
  destruct (negb (nz (cp_damage_count c1))) eqn:En.
  - unfold nz in En. b2p. split_and!; [done| |done|done|by subst c1; cbn in En; subst n; eauto|].
    + constructor; [done|destruct Hdm1; by constructor|destruct Hsc1; by constructor|]. intros x y _. by right.
    + intros x y Hxy. split_and!; [by apply Hon|apply C1, Hxy|right]. split; [by rewrite M1|]. rewrite <- (C1 x y) by apply Hxy.
      destruct (Hcur1 x y (Hon x y Hxy)) as [Hp|E]; [|done]. apply P1 in Hp as (i & Hi & _). lia.
  - destruct (present_loop_spec c1 d1 (cp_damage_count c1) Hd1 Hdm1 Hsc1) as (k & m & El & Pm & Sm); [pose proof (dk_count _ Hdm1); lia|].
    cbv zeta in El. rewrite El. clear El.
    set (c2 := set_statistics _ _ _ _).
    assert (forall x y, on_screen c d x y -> composition c2 (put_mem d1 m) x y = composition c1 d1 x y) as C2.
    { intros x y Hxy. change (composition c2 (put_mem d1 m) x y) with (composition c1 (put_mem d1 m) x y).
      apply painted_composition; try done. apply (Hon x y Hxy). }
    split_and!; [done| |done|done|by unfold c2; rewrite S1; eauto|].
    + constructor; [by apply painted_display| | |].
      * destruct Hdm1. constructor; try done. cbn. lia.
      * destruct (painted_scene c1 d1 m Hsc1). by constructor.
      * intros x y _. by right.
    + intros x y Hxy. rewrite C2, C1 by (try done; apply Hxy). split_and!; [by apply Hon|done|].
      change (dp_mem (put_mem d1 m)) with m. rewrite <- G1, <- M1, <- (C1 x y) by apply Hxy.
      destruct (Sm x y (Hon x y Hxy)) as [E|[E Hcov]]; [by left|right]. split; [done|].
      destruct (Hcur1 x y (Hon x y Hxy)) as [Hp|E']; [|done]. apply P1 in Hp as (i & Hi & Hc). by rewrite Hcov in Hc.
Qed.

Lemma present_spec c d :
  ui_ok c d ->
  let '(b, c', d') := compositor_present c d in
  b = true /\ ui_ok c' d' /\ dp_gop d' = dp_gop d /\ cp_damage_count c' = 0 /\
  forall x y, on_screen c d x y ->
    composition c' d' x y = composition c d x y /\ screen (dp_gop d) (dp_mem d') x y = composition c d x y.
Proof.
  intros Hui. pose proof (present_view _ c d Hui) as Hp.   destruct (compositor_present c d) as [[b c'] d'].
  destruct Hp as (-> & Hv & Hg & Hn & (dm & f & p & q & Ec) & Hpx).
  assert (forall x y, on_screen c d x y -> screen (dp_gop d) (dp_mem d') x y = composition c d x y) as Hs.
  { intros x y Hxy. by destruct (Hpx x y Hxy) as (_ & _ & [E|[-> E]]). }
  split_and!; [done| |done|done|].
  - eapply ui_view_ext; [exact Hv|]. intros x y Hxy. assert (on_screen c d x y) as Hxy' by (revert Hxy; unfold on_screen; by rewrite Hg, Ec).
    rewrite Hg. destruct (Hpx x y Hxy') as (_ & -> & _). by apply Hs.
  - intros x y Hxy. split; [apply Hpx, Hxy|by apply Hs].
Qed.

(** ** The user interface as a transition system *)

(** Arguments are 32-bit; a new window or panel shows a surface that is not
    shown yet, and the panel is set once. *)
Inductive ui_step : argus_compositor_t * display -> argus_compositor_t * display -> Prop :=
| step_clear c d p color : ui_step (c, d) (c, surface_clear d p color)
| step_fill c d p x y w h color :
    0 <= x -> 0 <= y -> 0 <= w -> 0 <= h -> ui_step (c, d) (c, surface_fill_rect d p x y w h color)
| step_pixel c d p x y color : 0 <= x -> 0 <= y -> ui_step (c, d) (c, surface_putpixel d p x y color)
| step_scroll c d p x y w h pixels color :
    0 <= x -> 0 <= y -> 0 <= w -> 0 <= h -> 0 <= pixels ->
    ui_step (c, d) (c, surface_scroll_rect_up d p x y w h pixels color)
| step_text c d p text x y scale color : 0 <= scale -> ui_step (c, d) (c, surface_draw_text d p text x y scale color)
| step_add c d p x y : unused c p -> 0 <= x -> 0 <= y -> ui_step (c, d) (snd (compositor_add_window c d p x y), d)
| step_panel c d p y : unused c p -> cp_panel c = 0 -> 0 <= y -> ui_step (c, d) (snd (compositor_set_panel c d p y), d)
| step_move c d id x y : 0 <= id -> 0 <= x -> 0 <= y -> ui_step (c, d) (snd (compositor_move_window c d id x y), d)
| step_raise c d id : 0 <= id -> ui_step (c, d) (snd (compositor_raise_window c d id), d)
| step_visible c d id visible : 0 <= id -> ui_step (c, d) (snd (compositor_set_window_visible c d id visible), d)
| step_damage c d x y w h :
    0 <= x -> 0 <= y -> 0 <= w -> 0 <= h -> ui_step (c, d) (compositor_damage c x y w h, d)
| step_damage_all c d : ui_step (c, d) (compositor_damage_all c, d)
| step_present c d b c' d' : compositor_present c d = (b, c', d') -> ui_step (c, d) (c', d').

(** A drawing operation that does nothing on a surface that is not valid and
    redraws one that is leaves what is shown alone. *)
Lemma draw_view v c d p (f : display -> display) :
  ui_view v c d ->
  (surface_valid d p = false -> f d = d) ->
  (forall s, surface_at d p = Some s -> surface_ok s -> exists s', redraw p s d s' (f d)) ->
  ui_view v c (f d) /\ same_planes d (f d) /\
  forall x y, 0 <= x < gop_width (dp_gop d) -> 0 <= y < gop_height (dp_gop d) ->
    screen (dp_gop d) (dp_mem (f d)) x y = screen (dp_gop d) (dp_mem d) x y.
Proof.
  intros Hui Hno Hyes. destruct (surface_valid d p) eqn:Ev; [|by rewrite Hno; auto using same_planes_refl].
  apply surface_valid_at in Ev as (s & Hs & Hv). pose proof (do_surfaces _ (ui_display _ _ Hui) _ _ Hs Hv) as Hok.
  destruct (Hyes s Hs Hok) as [s' Hr]. pose proof (ui_display _ _ Hui) as Hd. split_and!.
  - by eapply (redraw_step d (f d) p s s').
  - by eapply (redraw_planes d (f d) p s s').
  - intros x y Hx Hy. by eapply (redraw_screen d (f d) p s s').
Qed.

Lemma draw_step c d p (f : display -> display) :
  ui_ok c d ->
  (surface_valid d p = false -> f d = d) ->
  (forall s, surface_at d p = Some s -> surface_ok s -> exists s', redraw p s d s' (f d)) ->
  ui_ok c (f d).
Proof.
  intros Hui Hno Hyes. destruct (draw_view _ c d p f Hui Hno Hyes) as (Hv & Hpl & Hs). unfold ui_ok.
  eapply ui_view_ext; [exact Hv|]. intros x y (? & ? & Hx & Hy). rewrite (sp_gop _ _ Hpl) in Hx, Hy |- *. apply Hs; lia.
Qed.

Ltac invalid_surface :=
  unfold surface_valid, surface_clear, surface_fill_rect, surface_putpixel, surface_scroll_rect_up, off_surface;
  intros Hv; destruct (surface_at _ _); [rewrite Hv|]; done.

Lemma ui_step_ok st st' : ui_step st st' -> ui_ok (fst st) (snd st) -> ui_ok (fst st') (snd st').
Proof.
  intros [] Hui; cbn [fst snd] in *; unfold ui_ok in Hui |- *;
    eauto using add_window_step, set_panel_step, move_step, raise_step, set_visible_step, damage_step, damage_all_step.
  - apply (draw_step c d p (fun d => surface_clear d p color)); [done|invalid_surface|]. intros s Hs Hok. by apply clear_drawn.
  - apply (draw_step c d p (fun d => surface_fill_rect d p x y w h color)); [done|invalid_surface|].
    intros s Hs Hok. by apply fill_rect_drawn.
  - apply (draw_step c d p (fun d => surface_putpixel d p x y color)); [done|invalid_surface|].
    intros s Hs Hok. by apply putpixel_drawn.
  - apply (draw_step c d p (fun d => surface_scroll_rect_up d p x y w h pixels color)); [done|invalid_surface|].
    intros s Hs Hok. destruct (Z.eq_dec pixels 0) as [->|Hne]; [|apply scroll_drawn; done || lia].
    exists s. unfold surface_scroll_rect_up. rewrite Hs, (valid_of_ok s Hok). by apply redraw_refl.
  - apply (draw_step c d p (fun d => surface_draw_text d p text x y scale color)); [done| |].
    + intros Hv. unfold surface_draw_text. by rewrite Hv.
    + intros s Hs Hok. by apply draw_text_redraw.
  - pose proof (present_spec c d Hui) as Hp. rewrite H in Hp. apply Hp.
Qed.

Lemma ui_steps_ok st st' : rtc ui_step st st' -> ui_ok (fst st) (snd st) -> ui_ok (fst st') (snd st').
Proof. induction 1 as [|st st1 st' Hs _ IH]; [done|]. intros Hui. by apply IH, (ui_step_ok st). Qed.

(** The state the desktop starts from. *)
Lemma ui_start c0 d width height work_height background c :
  display_ok d -> 0 <= width <= UINT32_MAX -> 0 <= height <= UINT32_MAX -> 0 <= work_height ->
  0 <= background <= UINT32_MAX ->
  compositor_init c0 width height work_height background = (true, c) -> ui_ok (compositor_damage_all c) d.
Proof.
  intros Hd Hw Hh Hwh Hb. unfold compositor_init. case_if; [done|]. unfold nz in *. b2p. intros [= <-].
  set (c := mk_compositor _ _ _ _ _ _ _ _ _ _ _ _ _ _).
  assert (damage_ok c) as Hdm by (unfold c; constructor; cbn; try done; lia).
  destruct (damage_all_spec c Hdm) as [D1 D2]. constructor; try done.
  - constructor; cbn; try done; lia.
  - intros x y (Hx & Hy & _). left. apply pending_covered. by apply D2.
Qed.

(** C5: Whatever is drawn on surfaces and however windows are added, moved, raised,
    shown and hidden, presenting makes every pixel of the screen show the
    composition of the scene: damage tracking never loses a change. *)
Theorem present_shows_composition c0 d0 width height work_height background c1 c d :
  display_ok d0 -> 0 <= width <= UINT32_MAX -> 0 <= height <= UINT32_MAX -> 0 <= work_height ->
  0 <= background <= UINT32_MAX ->
  compositor_init c0 width height work_height background = (true, c1) ->
  rtc ui_step (compositor_damage_all c1, d0) (c, d) ->
  let '(b, c', d') := compositor_present c d in
  b = true /\ cp_damage_count c' = 0 /\
  forall x y, on_screen c d x y ->
    gop_getpixel (dp_gop d') (dp_mem d') x y = composed_pixel c' d' x y
    /\ composed_pixel c' d' x y = composed_pixel c d x y.
Proof.
  intros Hd Hw Hh Hwh Hb Hi Hrtc.
  pose proof (ui_steps_ok _ _ Hrtc (ui_start _ _ _ _ _ _ _ Hd Hw Hh Hwh Hb Hi)) as Hui. cbn [fst snd] in Hui.
  pose proof (present_spec c d Hui) as Hp. destruct (compositor_present c d) as [[b c'] d'] eqn:Ep.
  destruct Hp as (-> & Hui' & Hg & Hn & Hpx). split_and!; [done|done|]. intros x y Hxy.
  destruct (Hpx x y Hxy) as [E1 E2]. pose proof Hxy as (Hx & Hy & Hgx & Hgy). pose proof (ui_display _ _ Hui') as Hd'.
  assert (cp_width c' = cp_width c /\ cp_height c' = cp_height c) as [Ew Eh].
  { destruct (collect_spec c d Hui) as (_ & (dm & n & S1) & _). unfold compositor_present in Ep.
    destruct (negb _); [by injection Ep as _ <- _|]. destruct (collect_surface_damage c d) as [c2 d2]. cbn in S1. subst c2.
    destruct (negb _); [by injection Ep as <- _|]. destruct (for_range _ _ _ _). by injection Ep as <- _. }
  rewrite (composed_pixel_eq c' d'), (composed_pixel_eq c d); try apply Hui; try apply Hui'; try (rewrite ?Ew, ?Eh; lia).
  rewrite E1. split; [|done]. unfold gop_getpixel. rewrite (go_usable _ (do_gop _ Hd')), Hg. cbn [negb orb].
  destruct (Z.leb_spec (gop_width (dp_gop d)) x), (Z.leb_spec (gop_height (dp_gop d)) y); try lia. exact E2.
Qed.

(** ** The compositor's own validation *)

Lemma validate_windows_true c d i n seen :
  scene_ok c d -> damage_ok c -> 0 <= i -> i + Z.of_nat n <= cp_window_count c ->
  (forall j, i <= j < cp_window_count c -> Z.testbit seen (z_at c j) = false) ->
  validate_windows c d i n seen = true.
Proof.
  intros Hsc [HW HH _ _ _]. pose proof (sc_lengths _ _ Hsc) as [_ Hz]. pose proof (sc_count _ _ Hsc) as Hn.
  assert (forall j, 0 <= j < cp_window_count c -> layers c !! Z.to_nat j = Some (z_at c j)) as Hl.
  { intros j Hj. unfold layers. rewrite lookup_take_lt by lia. apply zget_lookup. lia. }
  assert (NoDup (layers c)) as Hnd.
  { rewrite (sc_layers _ _ Hsc). apply NoDup_alt. intros a b e Ha Hb. apply lookup_lt_Some in Ha as La, Hb as Lb.
    rewrite zrange_length in La, Lb. rewrite zrange_lookup in Ha, Hb by done. simplify_eq. lia. }
  revert i seen. induction n as [|n IH]; intros i seen Hi Hle Hseen; [done|]. cbn [validate_windows].
  pose proof (elem_of_layers c d (z_at c i) Hsc ltac:(eapply list_elem_of_lookup_2, Hl; lia)) as Hid.
  destruct (sc_fits _ _ Hsc (z_at c i) Hid) as (s & Hs & Hok & Hf). pose proof Hok as [_ Hsw _ Hsh _]. pose proof (sc_work _ _ Hsc).
  rewrite nz_land_bit, Hseen by lia. destruct (Z.leb_spec (cp_window_count c) (z_at c i)); [lia|]. cbn [orb].
  unfold surface_valid. rewrite Hs, (valid_of_ok s Hok), (surface_width_at _ _ _ Hs), (surface_height_at _ _ _ Hs).
  rewrite !u32_id by lia. cbn [negb orb].
  destruct (Z.ltb_spec (cp_width c - sf_width s) (win_x (window_at c (z_at c i)))); [lia|].
  destruct (Z.ltb_spec (cp_work_height c - sf_height s) (win_y (window_at c (z_at c i)))); [lia|]. cbn [orb].
  apply IH; [lia|lia|]. intros j Hj. rewrite Z.lor_spec, Hseen by lia. rewrite Z.shiftl_1_l, Z.pow2_bits_eqb by lia.
  apply Z.eqb_neq. intros E. assert (Z.to_nat i = Z.to_nat j); [|lia].
  eapply NoDup_lookup; [exact Hnd|apply Hl; lia|]. rewrite E. apply Hl. lia.
Qed.

Lemma validate_true v c d : ui_view v c d -> compositor_validate c d = true.
Proof.
  intros [Hd Hdm Hsc _]. pose proof Hdm as [HW HH _ Hdc _]. pose proof (sc_count _ _ Hsc). pose proof (sc_work _ _ Hsc).
  unfold compositor_validate, ARGUS_COMPOSITOR_MAX_WINDOWS, ARGUS_COMPOSITOR_MAX_DAMAGE.
  replace (negb (nz (cp_width c)) || _ || _ || _ || _ || _) with false.
  2: { symmetry. unfold nz. rewrite !orb_false_iff, !negb_involutive, !Z.eqb_neq, !Z.ltb_ge. lia. }
  rewrite validate_windows_true by (try done; try lia; intros; apply Z.bits_0). cbn [negb].
  apply negb_true_iff. unfold nz. destruct (Z.eqb_spec (cp_panel c) 0) as [|Hp]; [done|]. cbn [negb andb].
  destruct (sc_panel _ _ Hsc Hp) as (s & Hs & Hok & Hw & Hpy & Hph). pose proof Hok as [_ _ _ Hsh _].
  unfold surface_valid. rewrite Hs, (valid_of_ok s Hok), (surface_width_at _ _ _ Hs), (surface_height_at _ _ _ Hs), Hw, Z.eqb_refl.
  rewrite u32_id by lia. cbn [negb orb]. apply Z.ltb_ge. lia.
Qed.

(** In every state the desktop can reach, [compositor_validate] returns 1: the
    stacking order is a permutation of the windows, and every window and the
    panel lie inside their areas. *)
Theorem compositor_always_valid c0 d0 width height work_height background c1 c d :
  display_ok d0 -> 0 <= width <= UINT32_MAX -> 0 <= height <= UINT32_MAX -> 0 <= work_height ->
  0 <= background <= UINT32_MAX ->
  compositor_init c0 width height work_height background = (true, c1) ->
  rtc ui_step (compositor_damage_all c1, d0) (c, d) ->
  compositor_validate c d = true /\ layers c ≡ₚ zrange 0 (Z.to_nat (cp_window_count c)).
Proof.
  intros Hd Hw Hh Hwh Hb Hi Hrtc.
  pose proof (ui_steps_ok _ _ Hrtc (ui_start _ _ _ _ _ _ _ Hd Hw Hh Hwh Hb Hi)) as Hui. cbn [fst snd] in Hui.
  split; [by eapply validate_true|apply (sc_layers _ _ (ui_scene _ _ Hui))].
Qed.

(** ** Hit testing *)

Lemma window_search_layers c d x y n :
  scene_ok c d -> damage_ok c -> Z.of_nat n <= cp_window_count c ->
  match window_search c d x y n with
  | Some (id, lx, ly) =>
      0 <= id < cp_window_count c /\ win_visible (window_at c id) = true /\
      lx = x - win_x (window_at c id) /\ ly = y - win_y (window_at c id) /\
      forall bg, fold_left (layer c d x y) (take n (cp_z_order c)) bg = surface_getpixel d (win_surface (window_at c id)) lx ly
  | None => forall bg, fold_left (layer c d x y) (take n (cp_z_order c)) bg = bg
  end.
Proof.
  intros Hsc [HW HH _ _ _] Hn. pose proof (sc_lengths _ _ Hsc) as [_ Hz]. pose proof (sc_count _ _ Hsc) as Hc.
  pose proof (sc_work _ _ Hsc). induction n as [|n IH]; [done|]. cbn [window_search].
  assert (cp_z_order c !! n = Some (z_at c (Z.of_nat n))) as Hzn.
  { rewrite <- (Nat2Z.id n) at 1. apply zget_lookup. lia. }
  assert (0 <= z_at c (Z.of_nat n) < cp_window_count c) as Hid.
  { apply (elem_of_layers c d); [done|]. unfold layers. apply list_elem_of_lookup_2 with n.
    rewrite lookup_take_lt by lia. exact Hzn. }
  set (id := z_at c (Z.of_nat n)) in *. destruct (sc_fits _ _ Hsc id Hid) as (s & Hs & Hok & Hf).
  rewrite (inside_window_in d (window_at c id) (cp_width c) (cp_work_height c)) by (try (by apply (sc_fits _ _ Hsc)); lia).
  unfold surface_valid. rewrite Hs, (valid_of_ok s Hok). cbn [negb]. rewrite orb_false_r.
  rewrite (take_S_r _ _ id Hzn). specialize (IH ltac:(lia)).
  destruct (negb (win_visible (window_at c id)) || negb (in_window d (window_at c id) x y)) eqn:E.
  - assert (win_visible (window_at c id) && in_window d (window_at c id) x y = false) as Hskip
      by (by destruct (win_visible _), (in_window _ _ _ _)).
    assert (forall bg, fold_left (layer c d x y) (take n (cp_z_order c) ++ [id]) bg
      = fold_left (layer c d x y) (take n (cp_z_order c)) bg) as Hfold
      by (intros bg; by rewrite layers_skip, app_nil_r).
    destruct (window_search c d x y n) as [[[id' lx] ly]|]; [|intros bg; by rewrite Hfold].
    destruct IH as (? & ? & ? & ? & ?). split_and!; try done; try lia. intros bg. by rewrite Hfold.
  - apply orb_false_iff in E as [E1 E2]. apply negb_false_iff in E1, E2. split_and!; try done; try lia.
    intros bg. rewrite fold_left_app. cbn [fold_left]. unfold layer at 1. by rewrite E1, E2.
Qed.

(** Hit testing agrees with drawing: at a point of the work area below the
    panel's start, [compositor_window_at] names the window whose pixel is
    composed there, with its local coordinates, and reports none exactly where
    the background shows through. *)
Theorem hit_test_agrees c0 d0 width height work_height background c1 c d x y :
  display_ok d0 -> 0 <= width <= UINT32_MAX -> 0 <= height <= UINT32_MAX -> 0 <= work_height ->
  0 <= background <= UINT32_MAX ->
  compositor_init c0 width height work_height background = (true, c1) ->
  rtc ui_step (compositor_damage_all c1, d0) (c, d) ->
  0 <= x < cp_width c -> 0 <= y < cp_work_height c -> cp_panel c = 0 \/ cp_work_height c <= cp_panel_y c ->
  match compositor_window_at c d x y with
  | Some (id, lx, ly) =>
      compositor_window_visible c id = true /\ lx = x - compositor_window_x c id /\ ly = y - compositor_window_y c id /\
      composed_pixel c d x y = surface_getpixel d (win_surface (window_at c id)) lx ly
  | None => composed_pixel c d x y = cp_background c
  end.
Proof.
  intros Hd Hw Hh Hwh Hb Hi Hrtc Hx Hy Hpan.
  pose proof (ui_steps_ok _ _ Hrtc (ui_start _ _ _ _ _ _ _ Hd Hw Hh Hwh Hb Hi)) as [_ Hdm Hsc _]. cbn [fst snd] in *.
  pose proof (sc_work _ _ Hsc) as Hwk. pose proof (sc_count _ _ Hsc).
  assert (composed_pixel c d x y = fold_left (layer c d x y) (layers c) (cp_background c)) as ->.
  { rewrite composed_pixel_eq by (done || lia). unfold composition. destruct (nz (cp_panel c) && _) eqn:E; [|done].
    apply andb_true_iff in E as [E1 E2]. apply in_rect_true in E2. unfold nz in E1. b2p. lia. }
  unfold compositor_window_at. destruct (Z.leb_spec (cp_width c) x), (Z.leb_spec (cp_work_height c) y); try lia. cbn [orb].
  pose proof (window_search_layers c d x y (Z.to_nat (cp_window_count c)) Hsc Hdm ltac:(lia)) as Hs. fold (layers c) in Hs.
  destruct (window_search c d x y _) as [[[id lx] ly]|]; [|apply Hs]. destruct Hs as (Hid & Hv & -> & -> & Hf).
  unfold compositor_window_visible, compositor_window_x, compositor_window_y.
  destruct (Z.ltb_spec id (cp_window_count c)); [|lia]. by rewrite Hv.
Qed.

(** ** A desktop of one window and a panel *)

Definition blank_compositor : argus_compositor_t := mk_compositor 0 0 0 0 [] [] 0 0 0 [] 0 0 0 0.
Definition sample_start : argus_compositor_t := snd (compositor_init blank_compositor 8 6 4 3).
Definition sample_scene : argus_compositor_t * display :=
  let c := compositor_damage_all sample_start in
  let d := sample_display in
  let c := snd (compositor_add_window c d 16 1 0) in
  let c := snd (compositor_set_panel c d 32 4) in
  (c, surface_fill_rect d 16 1 1 2 2 7).

Lemma sample_display_ok : display_ok sample_display.
Proof.
  assert (forall p s, surface_at sample_display p = Some s -> p = 16 /\ s = sample_surface \/ p = 32 /\ s = sample_panel) as Hs.
  { intros p s. unfold surface_at, sample_display. cbn [dp_surfaces]. intros H.
    apply lookup_insert_Some in H as [[<- <-]|[_ H]]; [by left|]. apply lookup_singleton_Some in H as [<- <-]. by right. }
  constructor.
  - constructor; cbn; unfold UINT32_MAX, UINT64_MAX; lia || done.
  - reflexivity.
  - intros p s H _. destruct (Hs p s H) as [[_ ->]|[_ ->]]; constructor; cbn; unfold UINT32_MAX; lia || done.
  - intros p q s t Hne Hp Hq _ _. destruct (Hs p s Hp) as [[-> ->]|[-> ->]], (Hs q t Hq) as [[-> ->]|[-> ->]];
      try done; [left|right]; by vm_compute.
  - intros p s H _. destruct (Hs p s H) as [[_ ->]|[_ ->]]; left; by vm_compute.
Qed.

Lemma sample_unused c p : cp_window_count c <= 1 -> 0 <> p -> win_surface (window_at c 0) <> p -> cp_panel c = 0 -> unused c p.
Proof. intros Hc Hp Hw Hn. split; [congruence|]. intros i Hi. by assert (i = 0) as -> by lia. Qed.

Lemma sample_reached : rtc ui_step (compositor_damage_all sample_start, sample_display) sample_scene.
Proof.
  eapply rtc_l; [apply (step_add _ _ 16 1 0); [apply sample_unused; vm_compute; done|lia|lia]|].
  eapply rtc_l; [apply (step_panel _ _ 32 4); [apply sample_unused; vm_compute; done|vm_compute; reflexivity|lia]|].
  eapply rtc_l; [apply (step_fill _ _ 16 1 1 2 2 7); lia|]. apply rtc_refl.
Qed.

Lemma sample_start_eq : compositor_init blank_compositor 8 6 4 3 = (true, sample_start).
Proof. reflexivity. Qed.

Lemma present_shows_composition_witness :
  let '(b, c', d') := compositor_present (fst sample_scene) (snd sample_scene) in
  b = true /\ gop_getpixel (dp_gop d') (dp_mem d') 2 1 = 7.
Proof.
  pose proof (present_shows_composition blank_compositor sample_display 8 6 4 3 sample_start
    (fst sample_scene) (snd sample_scene) sample_display_ok ltac:(unfold UINT32_MAX; lia) ltac:(unfold UINT32_MAX; lia) ltac:(lia)
    ltac:(unfold UINT32_MAX; lia) sample_start_eq sample_reached) as H.
  destruct (compositor_present _ _) as [[b c'] d']. destruct H as (Hb & _ & Hp). split; [exact Hb|].
  destruct (Hp 2 1) as [E1 E2]; [unfold on_screen; vm_compute; intuition discriminate|].
  rewrite E1, E2. vm_compute. reflexivity.
Defined.

Lemma compositor_always_valid_witness : compositor_validate (fst sample_scene) (snd sample_scene) = true.
Proof.
  apply (compositor_always_valid blank_compositor sample_display 8 6 4 3 sample_start (fst sample_scene) (snd sample_scene)
    sample_display_ok ltac:(unfold UINT32_MAX; lia) ltac:(unfold UINT32_MAX; lia) ltac:(lia) ltac:(unfold UINT32_MAX; lia)
    sample_start_eq sample_reached).
Defined.

Lemma hit_test_agrees_witness :
  composed_pixel (fst sample_scene) (snd sample_scene) 3 2
  = surface_getpixel (snd sample_scene) 16 2 2.
Proof.
  pose proof (hit_test_agrees blank_compositor sample_display 8 6 4 3 sample_start (fst sample_scene) (snd sample_scene) 3 2
    sample_display_ok ltac:(unfold UINT32_MAX; lia) ltac:(unfold UINT32_MAX; lia) ltac:(lia) ltac:(unfold UINT32_MAX; lia)
    sample_start_eq sample_reached ltac:(vm_compute; split; congruence) ltac:(vm_compute; split; congruence)
    ltac:(right; vm_compute; congruence)) as H.
  assert (compositor_window_at (fst sample_scene) (snd sample_scene) 3 2 = Some (0, 2, 2)) as E by (vm_compute; reflexivity).
  rewrite E in H. apply H.
Defined.
