(* ===== verification/Block.v ===== *)
(** * Block devices (src/block.c, src/block.h)

    The checked read through a device descriptor and the built-in FAT32 fixture
    device, whose sectors are synthesised on demand.  A driver's [read] is a
    function of the request and the output buffer; buffers are lists of bytes and
    a null output is [None]. *)

From stdpp Require Import base list gmap numbers.
From Stdlib Require Import ZArith Lia.
From S2P Require Import Prelude Memory.

Open Scope Z_scope.

Definition ARGUS_BLOCK_ABI_VERSION : Z := 1.
Definition ARGUS_BLOCK_NAME_CAPACITY : Z := 24.
Definition ARGUS_BLOCK_OK : Z := 0.
Definition ARGUS_BLOCK_INVALID : Z := -1.
Definition ARGUS_BLOCK_RANGE : Z := -2.
Definition ARGUS_BLOCK_BUFFER_TOO_SMALL : Z := -3.
Definition ARGUS_BLOCK_IO_ERROR : Z := -4.

Definition FIXTURE_SECTOR_SIZE : Z := 512.
Definition FIXTURE_RESERVED_SECTORS : Z := 32.
Definition FIXTURE_FAT_SECTORS : Z := 512.
Definition FIXTURE_DATA_CLUSTERS : Z := 65525.
Definition FIXTURE_TOTAL_SECTORS : Z := FIXTURE_RESERVED_SECTORS + FIXTURE_FAT_SECTORS + FIXTURE_DATA_CLUSTERS.
Definition FIXTURE_FAT_LBA : Z := FIXTURE_RESERVED_SECTORS.
Definition FIXTURE_ROOT_LBA : Z := FIXTURE_RESERVED_SECTORS + FIXTURE_FAT_SECTORS.
Definition FIXTURE_FILE_LBA : Z := FIXTURE_ROOT_LBA + 1.

(** ["ArgusOS FAT32 via Rust\n"] *)
Definition fixture_file : list Z :=
  [65; 114; 103; 117; 115; 79; 83; 32; 70; 65; 84; 51; 50; 32; 118; 105; 97; 32; 82; 117; 115; 116; 10].

(** [argus_block_read_fn_t]: the request, the buffer and its capacity. *)
Definition argus_block_read_fn_t : Type := Z -> Z -> option (list Z) -> Z -> Z * option (list Z).

Record argus_block_device_v1_t := mk_device {
  bd_abi_version : Z;
  bd_struct_size : Z;
  bd_name : list Z;
  bd_sector_size : Z;
  bd_reserved : Z;
  bd_sector_count : Z;
  bd_read : option argus_block_read_fn_t }.

(** ** The fixture's sectors *)

(** The writers work on [output + destination] of the caller's buffer. *)
Definition put (bytes : list Z) (destination offset value : Z) : list Z := zset bytes (destination + offset) (u8 value).
Definition zero_bytes (bytes : list Z) (destination count : Z) : list Z :=
  for_range 0 count (fun i bytes => put bytes destination i 0) bytes.
Definition write_u16 (bytes : list Z) (destination offset value : Z) : list Z :=
  let bytes := put bytes destination offset value in
  put bytes destination (offset + 1) (value >> 8).
Definition write_u32 (bytes : list Z) (destination offset value : Z) : list Z :=
  let bytes := put bytes destination offset value in
  let bytes := put bytes destination (offset + 1) (value >> 8) in
  let bytes := put bytes destination (offset + 2) (value >> 16) in
  put bytes destination (offset + 3) (value >> 24).
Definition copy_literal (bytes : list Z) (destination offset : Z) (text : list Z) : list Z :=
  for_range 0 (Z.of_nat (length text)) (fun i bytes => put bytes destination (offset + i) (zget 0 text i)) bytes.

Definition synthesize_boot_sector (b : list Z) (d : Z) : list Z :=
  let b := put b d 0 0xEB in
  let b := put b d 1 0x58 in
  let b := put b d 2 0x90 in
  let b := copy_literal b d 3 [65; 82; 71; 85; 83; 79; 83; 32] in
  let b := write_u16 b d 11 FIXTURE_SECTOR_SIZE in
  let b := put b d 13 1 in
  let b := write_u16 b d 14 FIXTURE_RESERVED_SECTORS in
  let b := put b d 16 1 in
  let b := write_u16 b d 17 0 in
  let b := write_u16 b d 19 0 in
  let b := put b d 21 0xF8 in
  let b := write_u16 b d 22 0 in
  let b := write_u16 b d 24 63 in
  let b := write_u16 b d 26 255 in
  let b := write_u32 b d 28 0 in
  let b := write_u32 b d 32 FIXTURE_TOTAL_SECTORS in
  let b := write_u32 b d 36 FIXTURE_FAT_SECTORS in
  let b := write_u16 b d 40 0 in
  let b := write_u16 b d 42 0 in
  let b := write_u32 b d 44 2 in
  let b := write_u16 b d 48 1 in
  let b := write_u16 b d 50 6 in
  let b := put b d 64 0x80 in
  let b := put b d 66 0x29 in
  let b := write_u32 b d 67 0xA610F320 in
  let b := copy_literal b d 71 [65; 82; 71; 85; 83; 32; 70; 65; 84; 32; 32] in
  let b := copy_literal b d 82 [70; 65; 84; 51; 50; 32; 32; 32] in
  let b := put b d 510 0x55 in
  put b d 511 0xAA.

Definition synthesize_fsinfo (b : list Z) (d : Z) : list Z :=
  let b := write_u32 b d 0 0x41615252 in
  let b := write_u32 b d 484 0x61417272 in
  let b := write_u32 b d 488 UINT32_MAX in
  let b := write_u32 b d 492 UINT32_MAX in
  write_u32 b d 508 0xAA550000.

Definition synthesize_fat (b : list Z) (d : Z) : list Z :=
  let b := write_u32 b d 0 0x0FFFFFF8 in
  let b := write_u32 b d 4 0x0FFFFFFF in
  let b := write_u32 b d 8 0x0FFFFFFF in
  write_u32 b d 12 0x0FFFFFFF.

Definition synthesize_root (b : list Z) (d : Z) : list Z :=
  let b := copy_literal b d 0 [72; 69; 76; 76; 79; 32; 32; 32; 84; 88; 84] in
  let b := put b d 11 0x20 in
  let b := write_u16 b d 20 0 in
  let b := write_u16 b d 26 3 in
  write_u32 b d 28 (Z.of_nat (length fixture_file)).

(** One sector of the loop in [fixture_read]. *)
Definition fixture_sector (sector : Z) (b : list Z) (d : Z) : list Z :=
  let b := zero_bytes b d FIXTURE_SECTOR_SIZE in
  if (sector =? 0) || (sector =? 6) then synthesize_boot_sector b d
  else if sector =? 1 then synthesize_fsinfo b d
  else if sector =? FIXTURE_FAT_LBA then synthesize_fat b d
  else if sector =? FIXTURE_ROOT_LBA then synthesize_root b d
  else if sector =? FIXTURE_FILE_LBA then copy_literal b d 0 fixture_file
  else b.

Definition fixture_read (first_sector sector_count : Z) (output : option (list Z)) (output_capacity : Z)
    : Z * option (list Z) :=
  match output with
  | None => (ARGUS_BLOCK_INVALID, None)
  | Some output =>
      if negb (nz sector_count) then (ARGUS_BLOCK_INVALID, Some output)
      else if (FIXTURE_TOTAL_SECTORS <=? first_sector) || (FIXTURE_TOTAL_SECTORS - first_sector <? sector_count)
      then (ARGUS_BLOCK_RANGE, Some output)
      else
        let required := u64 (sector_count * FIXTURE_SECTOR_SIZE) in
        if output_capacity <? required then (ARGUS_BLOCK_BUFFER_TOO_SMALL, Some output)
        else (ARGUS_BLOCK_OK, Some (for_range 0 sector_count (fun i output =>
                fixture_sector (u64 (first_sector + i)) output (u64 (i * FIXTURE_SECTOR_SIZE))) output))
  end.

(** ["memory.fat32"], padded with zeros. *)
Definition fixture_name : list Z := [109; 101; 109; 111; 114; 121; 46; 102; 97; 116; 51; 50] ++ replicate 12 0.
Definition fixture_device : argus_block_device_v1_t :=
  mk_device ARGUS_BLOCK_ABI_VERSION 64 fixture_name FIXTURE_SECTOR_SIZE 0 FIXTURE_TOTAL_SECTORS (Some fixture_read).

(** ** Descriptors *)

(** The loop over the name, from character [i]. *)
Fixpoint name_ok (name : list Z) (i : Z) (n : nat) : bool :=
  match n with
  | O => false
  | S n' =>
      let character := u8 (zget 0 name i) in
      if negb (nz character) then i !=? 0
      else if (character <? 32) || (126 <? character) then false
      else name_ok name (i + 1) n'
  end.
Definition valid_name (name : list Z) : bool := name_ok name 0 (Z.to_nat ARGUS_BLOCK_NAME_CAPACITY).

Definition block_device_valid (device : option argus_block_device_v1_t) : bool :=
  match device with
  | None => false
  | Some device =>
      (bd_abi_version device =? ARGUS_BLOCK_ABI_VERSION) && (bd_struct_size device =? 64) &&
      valid_name (bd_name device) && (512 <=? bd_sector_size device) &&
      ((bd_sector_size device & (bd_sector_size device - 1)) =? 0) && nz (bd_sector_count device) &&
      (bd_reserved device =? 0) && match bd_read device with Some _ => true | None => false end
  end.

Definition block_read (device : option argus_block_device_v1_t) (first_sector sector_count : Z)
    (output : option (list Z)) (output_capacity : Z) : Z * option (list Z) :=
  match device with
  | None => (ARGUS_BLOCK_INVALID, output)
  | Some dev =>
      match bd_read dev, output with
      | Some read, Some _ =>
          if negb (block_device_valid device) || negb (nz sector_count) then (ARGUS_BLOCK_INVALID, output)
          else if (bd_sector_count dev <=? first_sector) || (bd_sector_count dev - first_sector <? sector_count)
          then (ARGUS_BLOCK_RANGE, output)
          else if UINT64_MAX / bd_sector_size dev <? sector_count then (ARGUS_BLOCK_INVALID, output)
          else
            let required := u64 (sector_count * bd_sector_size dev) in
            if output_capacity <? required then (ARGUS_BLOCK_BUFFER_TOO_SMALL, output)
            else read first_sector sector_count output output_capacity
      | _, _ => (ARGUS_BLOCK_INVALID, output)
      end
  end.

(** [default_device] is the module's static variable. *)
Definition block_init : bool * option argus_block_device_v1_t :=
  let default_device := if block_device_valid (Some fixture_device) then Some fixture_device else None in
  (match default_device with Some _ => true | None => false end, default_device).

Definition block_use_device (default_device device : option argus_block_device_v1_t)
    : bool * option argus_block_device_v1_t :=
  if negb (block_device_valid device) then (false, default_device) else (true, device).

Definition block_default_device (default_device : option argus_block_device_v1_t) : option argus_block_device_v1_t :=
  if block_device_valid default_device then default_device else None.

(** A read of the self test into its local sector buffer. *)
Definition test_read (device : option argus_block_device_v1_t) (first capacity : Z) (sector : list Z) : Z * list Z :=
  let '(status, out) := block_read device first 1 (Some sector) capacity in (status, default sector out).

Definition block_self_test (default_device : option argus_block_device_v1_t) : bool :=
  let sector := replicate 512 0 in
  let '(status, sector) := test_read (Some fixture_device) 0 512 sector in
  let valid := (status =? ARGUS_BLOCK_OK) && (zget 0 sector 510 =? 0x55) && (zget 0 sector 511 =? 0xAA) in
  let '(status, sector) := test_read (Some fixture_device) FIXTURE_TOTAL_SECTORS 512 sector in
  let valid := (status =? ARGUS_BLOCK_RANGE) && valid in
  let '(status, sector) := test_read (Some fixture_device) FIXTURE_FILE_LBA 511 sector in
  let valid := (status =? ARGUS_BLOCK_BUFFER_TOO_SMALL) && valid in
  let '(status, sector) := test_read (Some fixture_device) FIXTURE_FILE_LBA 512 sector in
  let valid := (status =? ARGUS_BLOCK_OK) && valid in
  let valid := for_range 0 (Z.of_nat (length fixture_file))
                 (fun i valid => (zget 0 sector i =? zget 0 fixture_file i) && valid) valid in
  let valid := block_device_valid default_device && valid in
  match default_device with
  | None => false
  | Some device =>
      let '(status, sector) := test_read default_device 0 512 sector in
      let valid := (status =? ARGUS_BLOCK_OK) && (zget 0 sector 510 =? 0x55) && (zget 0 sector 511 =? 0xAA) && valid in
      let '(status, sector) := test_read default_device (bd_sector_count device) 512 sector in
      let valid := (status =? ARGUS_BLOCK_RANGE) && valid in
      let '(status, sector) := test_read default_device 0 511 sector in
      (status =? ARGUS_BLOCK_BUFFER_TOO_SMALL) && valid
  end.

Example block_self_test_passes : block_self_test (snd block_init) = true.
Proof. vm_compute. reflexivity. Qed.

(** ** The writers are local *)

Lemma length_put b d o v : length (put b d o v) = length b.
Proof. apply zset_length. Qed.
Lemma length_zero_bytes b d n : length (zero_bytes b d n) = length b.
Proof.
  unfold zero_bytes, for_range. induction (zrange _ _) as [|i l IH] in b |- *; [done|]. simpl. by rewrite IH, length_put.
Qed.
Lemma length_copy_literal b d o t : length (copy_literal b d o t) = length b.
Proof.
  unfold copy_literal, for_range. induction (zrange _ _) as [|i l IH] in b |- *; [done|]. simpl. by rewrite IH, length_put.
Qed.
Lemma length_write_u16 b d o v : length (write_u16 b d o v) = length b.
Proof. unfold write_u16. by rewrite !length_put. Qed.
Lemma length_write_u32 b d o v : length (write_u32 b d o v) = length b.
Proof. unfold write_u32. by rewrite !length_put. Qed.

Create Rewrite HintDb writers.
#[export] Hint Rewrite length_put length_zero_bytes length_copy_literal length_write_u16 length_write_u32 : writers.

Section window.
Context (l1 l3 : list Z) (d : Z).
Hypothesis Hd : d = Z.of_nat (length l1).

(** A store inside the middle part of a buffer. *)
Lemma put_window mid o v :
  0 <= o < Z.of_nat (length mid) -> put (l1 ++ mid ++ l3) d o v = l1 ++ put mid 0 o v ++ l3.
Proof.
  intros Ho. unfold put, zset. rewrite insert_app_r_alt by lia. f_equal. rewrite insert_app_l by lia.
  f_equal. f_equal. lia.
Qed.

Lemma put_loop_window (at_ : Z -> Z) (value : Z -> Z) n mid :
  (forall i, 0 <= i < n -> 0 <= at_ i < Z.of_nat (length mid)) -> 0 <= n ->
  for_range 0 n (fun i b => put b d (at_ i) (value i)) (l1 ++ mid ++ l3)
  = l1 ++ for_range 0 n (fun i b => put b 0 (at_ i) (value i)) mid ++ l3.
Proof.
  intros Hat Hn.
  enough (forall k, 0 <= k <= n ->
    for_range 0 k (fun i b => put b d (at_ i) (value i)) (l1 ++ mid ++ l3)
    = l1 ++ for_range 0 k (fun i b => put b 0 (at_ i) (value i)) mid ++ l3
    /\ length (for_range 0 k (fun i b => put b 0 (at_ i) (value i)) mid) = length mid) as H by (apply H; lia).
  intros k Hk. unfold for_range. rewrite Z.sub_0_r. assert (exists j, k = Z.of_nat j) as [j ->] by (exists (Z.to_nat k); lia).
  rewrite Nat2Z.id. induction j as [|j IH]; [done|]. replace (S j) with (j + 1)%nat by lia. rewrite zrange_app. cbn [zrange].
  rewrite !fold_left_app. destruct (IH ltac:(lia)) as [-> IH2]. cbn [fold_left]. rewrite length_put, IH2. split; [|done].
  apply put_window. rewrite IH2. apply Hat. lia.
Qed.

Lemma zero_window mid n :
  0 <= n <= Z.of_nat (length mid) -> zero_bytes (l1 ++ mid ++ l3) d n = l1 ++ zero_bytes mid 0 n ++ l3.
Proof. intros Hn. apply (put_loop_window (fun i => i) (fun _ => 0)); lia. Qed.

Lemma copy_window mid o t :
  0 <= o -> o + Z.of_nat (length t) <= Z.of_nat (length mid) ->
  copy_literal (l1 ++ mid ++ l3) d o t = l1 ++ copy_literal mid 0 o t ++ l3.
Proof. intros Ho Hn. apply (put_loop_window (fun i => o + i) (fun i => zget 0 t i)); lia. Qed.

Lemma u16_window mid o v :
  0 <= o -> o + 2 <= Z.of_nat (length mid) -> write_u16 (l1 ++ mid ++ l3) d o v = l1 ++ write_u16 mid 0 o v ++ l3.
Proof. intros Ho Hn. unfold write_u16. rewrite !put_window by (autorewrite with writers; lia). done. Qed.

Lemma u32_window mid o v :
  0 <= o -> o + 4 <= Z.of_nat (length mid) -> write_u32 (l1 ++ mid ++ l3) d o v = l1 ++ write_u32 mid 0 o v ++ l3.
Proof. intros Ho Hn. unfold write_u32. rewrite !put_window by (autorewrite with writers; lia). done. Qed.

Ltac window_step :=
  first [rewrite put_window by (autorewrite with writers; lia) | rewrite u16_window by (autorewrite with writers; lia)
        | rewrite u32_window by (autorewrite with writers; lia)
        | rewrite copy_window by (autorewrite with writers; cbn [length]; lia)
        | rewrite zero_window by (autorewrite with writers; lia)].

Lemma fixture_sector_window sector mid :
  length mid = 512%nat ->
  fixture_sector sector (l1 ++ mid ++ l3) d = l1 ++ fixture_sector sector mid 0 ++ l3
  /\ length (fixture_sector sector mid 0) = 512%nat.
Proof.
  intros Hm. unfold fixture_sector, FIXTURE_SECTOR_SIZE. cbv zeta.
  rewrite zero_window by lia. set (z := zero_bytes mid 0 512). assert (length z = 512%nat) as Hz by (unfold z; by autorewrite with writers).
  clearbody z.
  repeat case_if; unfold synthesize_boot_sector, synthesize_fsinfo, synthesize_fat, synthesize_root, fixture_file; cbv zeta;
    (split; [repeat window_step; done|by autorewrite with writers]).
Qed.
End window.

(** Zeroing first makes the result independent of what the buffer held. *)
Lemma zero_bytes_all mid n : Z.of_nat (length mid) = n -> zero_bytes mid 0 n = replicate (Z.to_nat n) 0.
Proof.
  intros Hn. unfold zero_bytes. apply list_eq. intros k.
  enough (forall j, 0 <= j -> for_range 0 n (fun i b => put b 0 i 0) mid !! Z.to_nat j
    = if (0 <=? j) && (j <? n) then Some 0 else mid !! Z.to_nat j) as H.
  { rewrite <- (Nat2Z.id k), H by lia. destruct (Z.ltb_spec (Z.of_nat k) n).
    - destruct (Z.leb_spec 0 (Z.of_nat k)); [|lia]. rewrite lookup_replicate_2 by lia. done.
    - rewrite andb_false_r, !lookup_ge_None_2; [done|rewrite length_replicate; lia|lia]. }
  apply (for_range_inv (fun i b => forall j, 0 <= j -> b !! Z.to_nat j = if (0 <=? j) && (j <? i) then Some 0 else mid !! Z.to_nat j)
    0 n (fun i b => put b 0 i 0) mid); [lia| |].
  - intros j Hj. rewrite in_range_false by lia. done.
  - intros i b Hi IH j Hj. unfold put, zset. rewrite Z.add_0_l.
    assert (length b = length mid) as Hlb.
    { destruct (decide (length b = length mid)) as [|Hne]; [done|]. exfalso.
      destruct (decide (length b < length mid)%nat).
      - pose proof (IH (Z.of_nat (length b)) ltac:(lia)) as E. rewrite Nat2Z.id, lookup_ge_None_2 in E by lia.
        case_if_in E; [done|]. symmetry in E. apply lookup_ge_None in E. lia.
      - pose proof (IH (Z.of_nat (length mid)) ltac:(lia)) as E. rewrite Nat2Z.id in E.
        rewrite in_range_false, (lookup_ge_None_2 mid) in E by lia. apply lookup_ge_None in E. lia. }
    destruct (Z.eq_dec i j) as [->|Hne].
    + rewrite list_lookup_insert_eq by lia. rewrite in_range_true by lia. done.
    + rewrite list_lookup_insert_ne, IH by lia.
      destruct (Z.leb_spec 0 j), (Z.ltb_spec j i), (Z.ltb_spec j (i + 1)); done || lia.
Qed.

(** The disk image: what sector [n] holds. *)
Definition fixture_image (sector : Z) : list Z := fixture_sector sector (replicate 512 0) 0.

Lemma fixture_sector_fresh sector mid : length mid = 512%nat -> fixture_sector sector mid 0 = fixture_image sector.
Proof.
  intros Hm. unfold fixture_image, fixture_sector, FIXTURE_SECTOR_SIZE. cbv zeta.
  rewrite !zero_bytes_all by (rewrite ?length_replicate; lia). done.
Qed.

Lemma fixture_image_length sector : length (fixture_image sector) = 512%nat.
Proof. apply (fixture_sector_window [] [] 0 eq_refl sector (replicate 512 0)). apply length_replicate. Qed.

(** ** Reading *)

(** The loop over the sectors of a request. *)
Lemma fixture_loop first count buf :
  0 <= first -> 0 <= count -> first + count <= FIXTURE_TOTAL_SECTORS -> 512 * count <= Z.of_nat (length buf) ->
  for_range 0 count (fun i output => fixture_sector (u64 (first + i)) output (u64 (i * FIXTURE_SECTOR_SIZE))) buf
  = concat (map fixture_image (zrange first (Z.to_nat count))) ++ drop (Z.to_nat (512 * count)) buf
  /\ length (concat (map fixture_image (zrange first (Z.to_nat count)))) = Z.to_nat (512 * count).
Proof.
  intros Hf Hc Ht Hb. unfold for_range. rewrite Z.sub_0_r.
  assert (exists n, count = Z.of_nat n) as [n ->] by (exists (Z.to_nat count); lia). rewrite Nat2Z.id.
  unfold FIXTURE_TOTAL_SECTORS, FIXTURE_RESERVED_SECTORS, FIXTURE_FAT_SECTORS, FIXTURE_DATA_CLUSTERS in Ht.
  induction n as [|n IH]; [by rewrite drop_0|]. replace (S n) with (n + 1)%nat by lia.
  rewrite !zrange_app, fold_left_app, map_app, concat_app. destruct IH as [-> IH2]; [lia|lia|lia|].
  cbn [zrange fold_left map concat]. rewrite app_nil_r, length_app, IH2, fixture_image_length. split; [|lia].
  unfold FIXTURE_SECTOR_SIZE. rewrite !u64_id by (unfold UINT64_MAX; lia). rewrite Z.add_0_l.
  set (pre := concat _) in *. set (rest := drop _ buf).
  assert (length rest = Z.to_nat (Z.of_nat (length buf) - 512 * Z.of_nat n)) as Hr by (unfold rest; rewrite length_drop; lia).
  rewrite <- (take_drop 512 rest) at 1.
  destruct (fixture_sector_window pre (drop 512 rest) (Z.of_nat n * 512) ltac:(lia) (first + Z.of_nat n) (take 512 rest)) as [-> _];
    [rewrite length_take; lia|].
  rewrite fixture_sector_fresh by (rewrite length_take; lia). rewrite <- app_assoc. f_equal. f_equal. unfold rest. rewrite drop_drop.
  f_equal. lia.
Qed.

(** The fixture is a disk: a request inside it fills the buffer with exactly the
    sectors of the fixed image, in order, whatever the buffer held, and leaves
    the rest of the buffer alone; every other request is refused with the code
    for its reason and changes nothing. *)
Theorem fixture_read_exact first count buf capacity :
  0 <= first <= UINT64_MAX -> 0 <= count <= UINT32_MAX -> 0 <= capacity <= Z.of_nat (length buf) ->
  fixture_read first count (Some buf) capacity
  = if count =? 0 then (ARGUS_BLOCK_INVALID, Some buf)
    else if FIXTURE_TOTAL_SECTORS <? first + count then (ARGUS_BLOCK_RANGE, Some buf)
    else if capacity <? 512 * count then (ARGUS_BLOCK_BUFFER_TOO_SMALL, Some buf)
    else (ARGUS_BLOCK_OK, Some (concat (map fixture_image (zrange first (Z.to_nat count))) ++ drop (Z.to_nat (512 * count)) buf)).
Proof.
  intros Hf Hc Hcap. unfold fixture_read, nz. destruct (Z.eqb_spec count 0) as [|Hne]; [done|]. cbn [negb].
  replace ((FIXTURE_TOTAL_SECTORS <=? first) || (FIXTURE_TOTAL_SECTORS - first <? count)) with (FIXTURE_TOTAL_SECTORS <? first + count)
    by (apply eq_true_iff_eq; rewrite orb_true_iff, Z.leb_le, !Z.ltb_lt; lia).
  destruct (Z.ltb_spec FIXTURE_TOTAL_SECTORS (first + count)); [done|]. cbv zeta. unfold FIXTURE_SECTOR_SIZE at 1.
  rewrite u64_id by (unfold UINT64_MAX, UINT32_MAX in *; lia). replace (count * 512) with (512 * count) by lia.
  destruct (Z.ltb_spec capacity (512 * count)); [done|].
  destruct (fixture_loop first count buf) as [-> _]; [lia|lia|lia|lia|done].
Qed.

Lemma fixture_read_exact_witness :
  take 23 (default [] (snd (fixture_read FIXTURE_FILE_LBA 1 (Some (replicate 600 7)) 600))) = fixture_file.
Proof.
  rewrite (fixture_read_exact FIXTURE_FILE_LBA 1 (replicate 600 7) 600).
  - vm_compute. reflexivity.
  - split; discriminate.
  - split; discriminate.
  - rewrite length_replicate. lia.
Defined.

(** A request a driver may rely on: it lies inside the device and its sectors
    fit the buffer. *)
Definition safe_request (dev : argus_block_device_v1_t) (first count capacity : Z) : Prop :=
  0 <= first /\ 0 < count /\ first + count <= bd_sector_count dev /\ count * bd_sector_size dev <= capacity.

Definition with_read (dev : argus_block_device_v1_t) (read : argus_block_read_fn_t) : argus_block_device_v1_t :=
  mk_device (bd_abi_version dev) (bd_struct_size dev) (bd_name dev) (bd_sector_size dev) (bd_reserved dev)
    (bd_sector_count dev) (Some read).

(** [block_read] shields drivers: two drivers that agree on safe requests cannot
    be told apart through it, so no request that is empty, outside the device or
    larger than the buffer, however its arithmetic would wrap, ever reaches a
    driver. *)
Theorem block_read_shields dev read read' first count output capacity :
  (forall f c buf cap, safe_request dev f c cap -> read f c (Some buf) cap = read' f c (Some buf) cap) ->
  0 <= first <= UINT64_MAX -> 0 <= count <= UINT32_MAX -> 0 <= capacity <= UINT64_MAX ->
  0 <= bd_sector_count dev <= UINT64_MAX -> 0 <= bd_sector_size dev <= UINT32_MAX ->
  block_read (Some (with_read dev read)) first count output capacity
  = block_read (Some (with_read dev read')) first count output capacity.
Proof.
  intros Heq Hf Hc Hcap Hn Hs. unfold block_read. cbn [with_read bd_read bd_sector_count bd_sector_size].
  destruct output as [buf|]; [|done].
  change (block_device_valid (Some (with_read dev read'))) with (block_device_valid (Some (with_read dev read))).
  destruct (negb (block_device_valid (Some (with_read dev read))) || negb (nz count)) eqn:E1; [done|].
  destruct ((bd_sector_count dev <=? first) || (bd_sector_count dev - first <? count)) eqn:E2; [done|].
  destruct (UINT64_MAX / bd_sector_size dev <? count) eqn:E3; [done|]. cbv zeta.
  destruct (capacity <? u64 (count * bd_sector_size dev)) eqn:E4; [done|]. b2p.
  apply Heq. assert (count * bd_sector_size dev <= UINT64_MAX) by (unfold UINT32_MAX, UINT64_MAX in *; nia).
  rewrite u64_id in * by lia. unfold safe_request. lia.
Qed.

Lemma block_read_shields_witness :
  block_read (Some (with_read fixture_device fixture_read)) UINT64_MAX 2 (Some []) 0
  = block_read (Some (with_read fixture_device (fun f c b cap =>
      if f + c <=? FIXTURE_TOTAL_SECTORS then fixture_read f c b cap else (0, None)))) UINT64_MAX 2 (Some []) 0.
Proof.
  apply (block_read_shields fixture_device fixture_read (fun f c b cap =>
      if f + c <=? FIXTURE_TOTAL_SECTORS then fixture_read f c b cap else (0, None)) UINT64_MAX 2 (Some []) 0).
  - intros f c buf cap (_ & _ & Hr & _). change (bd_sector_count fixture_device) with FIXTURE_TOTAL_SECTORS in Hr.
    destruct (Z.leb_spec (f + c) FIXTURE_TOTAL_SECTORS); [reflexivity|lia].
  - unfold UINT64_MAX. lia.
  - unfold UINT32_MAX. lia.
  - unfold UINT64_MAX. lia.
  - vm_compute. split; discriminate.
  - vm_compute. split; discriminate.
Defined.
