(* ===== verification/Pci.v ===== *)
(** * PCI configuration, discovery and quarantine (src/pci.c, src/pci.h)

    Configuration space is reached through the address and data ports of the
    machine of Devices.v.  Network functions are quarantined as they are found:
    decoding, bus mastering and every kind of interrupt are switched off and the
    result is read back. *)

From stdpp Require Import base list gmap numbers.
From Stdlib Require Import ZArith Lia.
From S2P Require Import Prelude Memory BootInfo Allocator Pmm Paging Scheduler Devices.

Open Scope Z_scope.

Definition PCI_CONFIG_ADDRESS : Z := 0x0CF8.
Definition PCI_CONFIG_DATA : Z := 0x0CFC.
Definition PCI_ENABLE_BIT : Z := 0x80000000.
Definition PCI_INVALID_VENDOR : Z := 0xFFFF.
Definition PCI_CLASS_MASS_STORAGE : Z := 0x01.
Definition PCI_SUBCLASS_SATA : Z := 0x06.
Definition PCI_PROGIF_AHCI : Z := 0x01.
Definition PCI_CLASS_NETWORK : Z := 0x02.
Definition PCI_COMMAND_IO_SPACE : Z := 1 << 0.
Definition PCI_COMMAND_MEMORY_SPACE : Z := 1 << 1.
Definition PCI_COMMAND_BUS_MASTER : Z := 1 << 2.
Definition PCI_COMMAND_INTERRUPT_DISABLE : Z := 1 << 10.
Definition PCI_STATUS_CAPABILITIES : Z := 1 << 4.
Definition PCI_CAPABILITY_POINTER : Z := 0x34.
Definition PCI_CAPABILITY_MSI : Z := 0x05.
Definition PCI_CAPABILITY_MSIX : Z := 0x11.
Definition PCI_MSI_ENABLE : Z := 1 << 0.
Definition PCI_MSIX_FUNCTION_MASK : Z := 1 << 14.
Definition PCI_MSIX_ENABLE : Z := 1 << 15.
Definition UINT16_MAX : Z := 65535.

Record pci_device_t := mk_pci_device {
  pd_bus : Z;
  pd_device : Z;
  pd_function : Z;
  pd_class_code : Z;
  pd_subclass : Z;
  pd_programming_interface : Z;
  pd_header_type : Z;
  pd_vendor_id : Z;
  pd_device_id : Z }.
Definition pci_device0 : pci_device_t := mk_pci_device 0 0 0 0 0 0 0 0 0.

Record pci_info_t := mk_pci_info {
  device_count : Z;
  ahci_count : Z;
  network_count : Z;
  network_quarantined_count : Z;
  first_ahci : pci_device_t;
  first_network : pci_device_t }.
Definition pci_info0 : pci_info_t := mk_pci_info 0 0 0 0 pci_device0 pci_device0.

Definition config_address (bus device function offset : Z) : Z :=
  Z.lor (Z.lor (Z.lor (Z.lor PCI_ENABLE_BIT (bus << 16)) (device << 11)) (function << 8)) (offset & 0xFC).

Section pci.
Context {D : Type} `{Hardware D}.
Implicit Types hw : D.

Definition read_location hw (bus device function offset : Z) : Z * D :=
  let hw := cpu_out32 hw PCI_CONFIG_ADDRESS (config_address bus device function offset) in
  cpu_in32 hw PCI_CONFIG_DATA.

Definition pci_config_read32 hw (device : pci_device_t) (offset : Z) : Z * D :=
  if nz (offset & 3) then (UINT32_MAX, hw)
  else read_location hw (pd_bus device) (pd_device device) (pd_function device) offset.

Definition config_read8 hw (device : pci_device_t) (offset : Z) : Z * D :=
  let '(value, hw) := pci_config_read32 hw device (offset & 0xFC) in
  (if value =? UINT32_MAX then UINT8_MAX else u8 (value >> ((offset & 3) * 8)), hw).

Definition config_read16 hw (device : pci_device_t) (offset : Z) : Z * D :=
  if nz (offset & 1) then (UINT16_MAX, hw)
  else
    let '(value, hw) := pci_config_read32 hw device (offset & 0xFC) in
    (if value =? UINT32_MAX then UINT16_MAX else u16 (value >> ((offset & 2) * 8)), hw).

Definition config_write16 hw (device : pci_device_t) (offset value : Z) : bool * D :=
  if nz (offset & 1) then (false, hw)
  else
    let hw := cpu_out32 hw PCI_CONFIG_ADDRESS
                (config_address (pd_bus device) (pd_device device) (pd_function device) offset) in
    let hw := cpu_out16 hw (u16 (PCI_CONFIG_DATA + (offset & 2))) value in
    let '(verified, hw) := config_read16 hw device offset in
    (verified =? value, hw).

(** Checking, or switching off, one capability. *)
Definition interrupt_capability hw (device : pci_device_t) (disable : bool) (capability identifier : Z) : bool * D :=
  if identifier =? PCI_CAPABILITY_MSI then
    let '(control, hw) := config_read16 hw device (capability + 2) in
    if control =? UINT16_MAX then (false, hw)
    else if disable then config_write16 hw device (capability + 2) (control & u16 (Z.lnot PCI_MSI_ENABLE))
    else (negb (nz (control & PCI_MSI_ENABLE)), hw)
  else if identifier =? PCI_CAPABILITY_MSIX then
    let '(control, hw) := config_read16 hw device (capability + 2) in
    if control =? UINT16_MAX then (false, hw)
    else if disable
    then config_write16 hw device (capability + 2)
           (Z.lor (control & u16 (Z.lnot PCI_MSIX_ENABLE)) PCI_MSIX_FUNCTION_MASK)
    else ((control & Z.lor PCI_MSIX_ENABLE PCI_MSIX_FUNCTION_MASK) =? PCI_MSIX_FUNCTION_MASK, hw)
  else (true, hw).

(** The walk over the capability list, at most 48 entries. *)
Fixpoint capability_walk (count : nat) hw (device : pci_device_t) (disable : bool) (capability visited : Z) : bool * D :=
  if negb (nz capability) then (true, hw)
  else
    match count with
    | O => (false, hw)
    | S count' =>
        if (capability <? 0x40) || (0xFC <? capability) then (false, hw)
        else
          let bit := 1 << (capability >> 2) in
          if nz (visited & bit) then (false, hw)
          else
            let visited := Z.lor visited bit in
            let '(identifier, hw) := config_read8 hw device capability in
            let '(next, hw) := config_read8 hw device (capability + 1) in
            if (identifier =? UINT8_MAX) || (next =? UINT8_MAX) || nz (next & 3) then (false, hw)
            else
              let '(ok, hw) := interrupt_capability hw device disable capability identifier in
              if negb ok then (false, hw) else capability_walk count' hw device disable next visited
    end.

Definition message_interrupt_state hw (device : pci_device_t) (disable : bool) : bool * D :=
  let '(command_status, hw) := pci_config_read32 hw device 0x04 in
  if command_status =? UINT32_MAX then (false, hw)
  else if negb (nz ((command_status >> 16) & PCI_STATUS_CAPABILITIES)) then (true, hw)
  else
    let '(capability, hw) := config_read8 hw device PCI_CAPABILITY_POINTER in
    if nz (capability & 3) then (false, hw)
    else capability_walk 48 hw device disable capability 0.

Definition pci_device_command hw (device : pci_device_t) : Z * D :=
  let '(command_status, hw) := pci_config_read32 hw device 0x04 in
  (if command_status =? UINT32_MAX then UINT16_MAX else u16 command_status, hw).

Definition PCI_DECODING : Z := Z.lor (Z.lor PCI_COMMAND_IO_SPACE PCI_COMMAND_MEMORY_SPACE) PCI_COMMAND_BUS_MASTER.

Definition pci_device_is_quarantined hw (device : pci_device_t) : bool * D :=
  let '(command, hw) := pci_device_command hw device in
  if (command =? UINT16_MAX) || nz (command & PCI_DECODING) || negb (nz (command & PCI_COMMAND_INTERRUPT_DISABLE))
  then (false, hw)
  else message_interrupt_state hw device false.

Definition pci_quarantine_device hw (device : pci_device_t) : bool * D :=
  let '(command, hw) := pci_device_command hw device in
  if command =? UINT16_MAX then (false, hw)
  else
    let command := Z.lor (command & u16 (Z.lnot PCI_DECODING)) PCI_COMMAND_INTERRUPT_DISABLE in
    let hw := cpu_out32 hw PCI_CONFIG_ADDRESS
                (config_address (pd_bus device) (pd_device device) (pd_function device) 0x04) in
    let hw := cpu_out16 hw PCI_CONFIG_DATA command in
    let '(ok, hw) := message_interrupt_state hw device true in
    if negb ok then (false, hw) else pci_device_is_quarantined hw device.

Definition pci_enable_memory_bus_master hw (device : pci_device_t) : bool * D :=
  let '(command_status, hw) := pci_config_read32 hw device 0x04 in
  if command_status =? UINT32_MAX then (false, hw)
  else
    let wanted := Z.lor PCI_COMMAND_MEMORY_SPACE PCI_COMMAND_BUS_MASTER in
    let command := Z.lor (command_status & 0xFFFF) wanted in
    let hw := cpu_out32 hw PCI_CONFIG_ADDRESS
                (config_address (pd_bus device) (pd_device device) (pd_function device) 0x04) in
    let hw := cpu_out16 hw PCI_CONFIG_DATA (u16 command) in
    let '(verified, hw) := pci_config_read32 hw device 0x04 in
    ((verified & wanted) =? wanted, hw).

Definition record_function hw (discovered : pci_info_t) (bus device function ident : Z) : pci_info_t * D :=
  let '(class_data, hw) := read_location hw bus device function 0x08 in
  let '(header_data, hw) := read_location hw bus device function 0x0C in
  let found := mk_pci_device bus device function (u8 (class_data >> 24)) (u8 (class_data >> 16)) (u8 (class_data >> 8))
                 (u8 (header_data >> 16)) (u16 ident) (u16 (ident >> 16)) in
  let i := mk_pci_info (u32 (device_count discovered + 1)) (ahci_count discovered) (network_count discovered)
             (network_quarantined_count discovered) (first_ahci discovered) (first_network discovered) in
  let i :=
    if (pd_class_code found =? PCI_CLASS_MASS_STORAGE) && (pd_subclass found =? PCI_SUBCLASS_SATA) &&
       (pd_programming_interface found =? PCI_PROGIF_AHCI)
    then mk_pci_info (device_count i) (u32 (ahci_count i + 1)) (network_count i) (network_quarantined_count i)
           (if negb (nz (ahci_count i)) then found else first_ahci i) (first_network i)
    else i in
  if pd_class_code found =? PCI_CLASS_NETWORK then
    let first := if negb (nz (network_count i)) then found else first_network i in
    let '(ok, hw) := pci_quarantine_device hw found in
    (mk_pci_info (device_count i) (ahci_count i) (u32 (network_count i + 1))
       (if ok then u32 (network_quarantined_count i + 1) else network_quarantined_count i) (first_ahci i) first, hw)
  else (i, hw).

(** [(uint16_t)identity && (uint16_t)identity != PCI_INVALID_VENDOR]. *)
Definition present_identity (ident : Z) : bool := nz (u16 ident) && (u16 ident !=? PCI_INVALID_VENDOR).

(** One function of the scan. *)
Definition scan_function (bus device function : Z) (st : pci_info_t * D) : pci_info_t * D :=
  let '(discovered, hw) := st in
  let '(ident, hw) := read_location hw bus device function 0 in
  if present_identity ident then record_function hw discovered bus device function ident else (discovered, hw).

(** One device of the scan: function 0, then the others of a multi-function
    device. *)
Definition scan_device (bus device : Z) (st : pci_info_t * D) : pci_info_t * D :=
  let '(discovered, hw) := st in
  let '(ident, hw) := read_location hw bus device 0 0 in
  if negb (present_identity ident) then (discovered, hw)
  else
    let '(discovered, hw) := record_function hw discovered bus device 0 ident in
    let '(header, hw) := read_location hw bus device 0 0x0C in
    if negb (nz ((header >> 23) & 1)) then (discovered, hw)
    else for_range 1 8 (scan_function bus device) (discovered, hw).

Definition pci_init hw : bool * (pci_info_t * D) :=
  let '(discovered, hw) := for_range 0 256 (fun bus => for_range 0 32 (scan_device bus)) (pci_info0, hw) in
  (nz (device_count discovered), (discovered, hw)).

Definition pci_self_test (discovered : pci_info_t) hw : bool * D :=
  if negb (nz (device_count discovered)) then (false, hw)
  else
    let '(ahci_ok, hw) :=
      if nz (ahci_count discovered) then
        let device := first_ahci discovered in
        let '(ident, hw) := pci_config_read32 hw device 0 in
        let '(class_data, hw) := pci_config_read32 hw device 0x08 in
        ((u16 ident =? pd_vendor_id device) && (u16 (ident >> 16) =? pd_device_id device) &&
         (u8 (class_data >> 24) =? PCI_CLASS_MASS_STORAGE) && (u8 (class_data >> 16) =? PCI_SUBCLASS_SATA) &&
         (u8 (class_data >> 8) =? PCI_PROGIF_AHCI), hw)
      else (true, hw) in
    if negb ahci_ok then (false, hw)
    else if nz (network_count discovered) then
      if network_quarantined_count discovered !=? network_count discovered then (false, hw)
      else
        let device := first_network discovered in
        let '(ident, hw) := pci_config_read32 hw device 0 in
        let '(class_data, hw) := pci_config_read32 hw device 0x08 in
        ((u16 ident =? pd_vendor_id device) && (u16 (ident >> 16) =? pd_device_id device) &&
         (u8 (class_data >> 24) =? PCI_CLASS_NETWORK), hw)
    else (true, hw).

Definition pci_info (discovered : pci_info_t) : option pci_info_t :=
  if nz (device_count discovered) then Some discovered else None.

End pci.

(** ** The bus

    The documented behaviour of the two ports: the address port selects a word
    of configuration space, the data port reads it, and a write to the data port
    changes no other word.  What a write does to the selected word is up to the
    device. *)
Class PciBus (D : Type) `{Hardware D} (config : D -> Z -> Z) (selected : D -> Z) := {
  pb_select : forall hw a, selected (hw_out32 hw PCI_CONFIG_ADDRESS a) = a;
  pb_select_config : forall hw a r, config (hw_out32 hw PCI_CONFIG_ADDRESS a) r = config hw r;
  pb_read : forall hw, fst (hw_in32 hw PCI_CONFIG_DATA) = config hw (selected hw);
  pb_read_config : forall hw r, config (snd (hw_in32 hw PCI_CONFIG_DATA)) r = config hw r;
  pb_write : forall hw p v r, PCI_CONFIG_DATA <= p < PCI_CONFIG_DATA + 4 -> r <> selected hw ->
               config (hw_out16 hw p v) r = config hw r }.

(** ** What quarantine means, for the words [f] of one function *)

Definition byte_of (f : Z -> Z) (offset : Z) : Z :=
  let value := f (offset & 0xFC) in
  if value =? UINT32_MAX then UINT8_MAX else u8 (value >> ((offset & 3) * 8)).
Definition half_of (f : Z -> Z) (offset : Z) : Z :=
  let value := f (offset & 0xFC) in
  if value =? UINT32_MAX then UINT16_MAX else u16 (value >> ((offset & 2) * 8)).

(** The capability list from [capability]. *)
Inductive chain (f : Z -> Z) : Z -> list Z -> Prop :=
| chain_nil : chain f 0 []
| chain_cons capability l :
    0x40 <= capability <= 0xFC -> chain f (byte_of f (capability + 1)) l -> chain f capability (capability :: l).

(** MSI is disabled, MSI-X disabled and masked. *)
Definition interrupts_off (f : Z -> Z) (capability : Z) : Prop :=
  (byte_of f capability = PCI_CAPABILITY_MSI -> half_of f (capability + 2) & PCI_MSI_ENABLE = 0) /\
  (byte_of f capability = PCI_CAPABILITY_MSIX ->
     half_of f (capability + 2) & Z.lor PCI_MSIX_ENABLE PCI_MSIX_FUNCTION_MASK = PCI_MSIX_FUNCTION_MASK).

(** The function decodes no I/O or memory, masters no bus and raises no
    interrupt. *)
Definition isolated (f : Z -> Z) : Prop :=
  u16 (f 4) & PCI_DECODING = 0 /\ u16 (f 4) & PCI_COMMAND_INTERRUPT_DISABLE <> 0 /\
  ((f 4 >> 16) & PCI_STATUS_CAPABILITIES <> 0 ->
   exists l, chain f (byte_of f PCI_CAPABILITY_POINTER) l /\ Forall (interrupts_off f) l).

Lemma chain_ext f g capability l : (forall o, byte_of f o = byte_of g o) -> chain f capability l -> chain g capability l.
Proof.
  intros E Hl. induction Hl as [|cap l Hcap _ IH]; [constructor|]. constructor; [done|]. by rewrite <- E.
Qed.

Lemma isolated_ext f g : (forall o, f (o & 0xFC) = g (o & 0xFC)) -> isolated f -> isolated g.
Proof.
  intros E. assert (forall o, byte_of f o = byte_of g o) as Eb by (intros; unfold byte_of; by rewrite E).
  assert (forall o, half_of f o = half_of g o) as Eh by (intros; unfold half_of; by rewrite E).
  intros (H1 & H2 & H3). pose proof (E 4) as E4. change (4 & 0xFC) with 4 in E4. unfold isolated.
  rewrite <- E4, <- Eb. split_and!; [done|done|].
  intros Hc. destruct (H3 Hc) as (l & Hl & Hf). exists l. split.
  - by apply (chain_ext f g).
  - eapply Forall_impl; [|exact Hf]. intros cap. unfold interrupts_off. by rewrite !Eb, !Eh.
Qed.

Section bus.
Context {D : Type} `{PciBus D config selected}.
Implicit Types hw : D.

(** The words of the function at a location. *)
Definition word hw (bus device function offset : Z) : Z := u32 (config hw (u32 (config_address bus device function offset))).
Definition words_of hw (d : pci_device_t) : Z -> Z := word hw (pd_bus d) (pd_device d) (pd_function d).

(** Reads change nothing. *)
Definition quiet hw hw' : Prop := forall r, config hw' r = config hw r.

Lemma quiet_words hw hw' d o : quiet hw hw' -> words_of hw' d o = words_of hw d o.
Proof. intros Hq. unfold words_of, word. by rewrite Hq. Qed.

Lemma read_location_spec hw bus device function offset :
  fst (read_location hw bus device function offset) = word hw bus device function offset
  /\ quiet hw (snd (read_location hw bus device function offset)).
Proof.
  unfold read_location, cpu_in32, cpu_out32, word. cbv zeta. set (hw1 := hw_out32 _ _ _).
  pose proof (pb_read hw1) as E1. pose proof (pb_read_config hw1) as E2. destruct (hw_in32 hw1 PCI_CONFIG_DATA) as [v hw2].
  cbn [fst snd] in *. split.
  - rewrite E1. unfold hw1. by rewrite pb_select, pb_select_config.
  - intros r. rewrite E2. unfold hw1. apply pb_select_config.
Qed.

Lemma config_read32_spec hw d offset :
  offset & 3 = 0 -> fst (pci_config_read32 hw d offset) = words_of hw d offset /\ quiet hw (snd (pci_config_read32 hw d offset)).
Proof. intros Ho. unfold pci_config_read32. rewrite Ho. apply read_location_spec. Qed.

Lemma land_fc_aligned o : (o & 0xFC) & 3 = 0.
Proof. rewrite <- Z.land_assoc. change (0xFC & 3) with 0. apply Z.land_0_r. Qed.

Lemma config_read8_spec hw d o :
  fst (config_read8 hw d o) = byte_of (words_of hw d) o /\ quiet hw (snd (config_read8 hw d o)).
Proof.
  unfold config_read8, byte_of. destruct (config_read32_spec hw d (o & 0xFC) (land_fc_aligned o)) as [E1 E2].
  destruct (pci_config_read32 _ _ _). cbn [fst snd] in *. by subst.
Qed.

Lemma config_read16_spec hw d o :
  o & 1 = 0 -> fst (config_read16 hw d o) = half_of (words_of hw d) o /\ quiet hw (snd (config_read16 hw d o)).
Proof.
  intros Ho. unfold config_read16, half_of. rewrite Ho. change (nz 0) with false. cbn iota.
  destruct (config_read32_spec hw d (o & 0xFC) (land_fc_aligned o)) as [E1 E2].
  destruct (pci_config_read32 _ _ _). cbn [fst snd] in *. by subst.
Qed.

Lemma quiet_trans hw1 hw2 hw3 : quiet hw1 hw2 -> quiet hw2 hw3 -> quiet hw1 hw3.
Proof. intros H1 H2 r. by rewrite H2. Qed.
Lemma quiet_refl hw : quiet hw hw.
Proof. by intros r. Qed.

Lemma byte_of_quiet hw hw' d o : quiet hw hw' -> byte_of (words_of hw' d) o = byte_of (words_of hw d) o.
Proof. intros Hq. unfold byte_of. by rewrite (quiet_words hw hw'). Qed.
Lemma half_of_quiet hw hw' d o : quiet hw hw' -> half_of (words_of hw' d) o = half_of (words_of hw d) o.
Proof. intros Hq. unfold half_of. by rewrite (quiet_words hw hw'). Qed.

(** A capability offset is a multiple of four below 256. *)
Lemma even_plus_2 capability : capability & 3 = 0 -> (capability + 2) & 1 = 0.
Proof.
  change 3 with (2 ^ 2 - 1). change 1 with (2 ^ 1 - 1). rewrite !land_ones_mod by lia. intros E.
  change (2 ^ 2) with 4 in E. change (2 ^ 1) with 2. Z.to_euclidean_division_equations. lia.
Qed.

(** Checking without disabling reads only, and answers whether the interrupts
    of the capability are off. *)
Lemma interrupt_check hw d capability :
  capability & 3 = 0 ->
  let '(ok, hw') := interrupt_capability hw d false capability (byte_of (words_of hw d) capability) in
  quiet hw hw' /\ (ok = true -> interrupts_off (words_of hw d) capability).
Proof.
  intros Hc. unfold interrupt_capability, interrupts_off.
  destruct (config_read16_spec hw d (capability + 2) (even_plus_2 _ Hc)) as [E1 E2].
  destruct (config_read16 hw d (capability + 2)) as [control hw1]. cbn [fst snd] in *. subst control.
  destruct (Z.eqb_spec (byte_of (words_of hw d) capability) PCI_CAPABILITY_MSI) as [Ei|Hi].
  - case_if; [done|]. split; [done|]. rewrite Ei. unfold nz. intros Hok. b2p. done.
  - destruct (Z.eqb_spec (byte_of (words_of hw d) capability) PCI_CAPABILITY_MSIX) as [Ex|Hx].
    + case_if; [done|]. split; [done|]. intros Hok. b2p. done.
    + split; [apply quiet_refl|]. done.
Qed.

Lemma walk_check n hw d capability visited :
  capability & 3 = 0 ->
  let '(ok, hw') := capability_walk n hw d false capability visited in
  quiet hw hw' /\ (ok = true -> exists l, chain (words_of hw d) capability l /\ Forall (interrupts_off (words_of hw d)) l).
Proof.
  revert hw capability visited. induction n as [|n IH]; intros hw capability visited Hc; cbn [capability_walk]; unfold nz at 1;
    (destruct (Z.eqb_spec capability 0) as [->|Hne]; cbn [negb];
     [split; [apply quiet_refl|intros _; exists []; split; [constructor|constructor]]|]); [split; [apply quiet_refl|done]|].
  case_if; [split; [apply quiet_refl|done]|]. b2p. cbv zeta. case_if; [split; [apply quiet_refl|done]|].
  destruct (config_read8_spec hw d capability) as [E1 Q1]. destruct (config_read8 hw d capability) as [ident hw1].
  destruct (config_read8_spec hw1 d (capability + 1)) as [E2 Q2]. destruct (config_read8 hw1 d (capability + 1)) as [next hw2].
  cbn [fst snd] in *. rewrite (byte_of_quiet hw hw1) in E2 by done. assert (quiet hw hw2) as Q3 by (by eapply quiet_trans).
  case_if; [by split|]. unfold nz in *. b2p. subst ident.
  pose proof (interrupt_check hw2 d capability Hc) as Hcap. rewrite (byte_of_quiet hw hw2) in Hcap by done.
  destruct (interrupt_capability hw2 d false capability _) as [ok hw3]. destruct Hcap as [Q4 Hoff].
  assert (quiet hw hw3) as Q5 by (by eapply quiet_trans). destruct ok; cbn [negb]; [|by split].
  specialize (IH hw3 next (Z.lor visited (1 << (capability >> 2))) ltac:(done)).
  destruct (capability_walk n hw3 d false next _) as [ok hw4]. destruct IH as [Q6 Hl]. split; [by eapply quiet_trans|].
  intros Hok. destruct (Hl Hok) as (l & Hch & Hall).
  exists (capability :: l). split.
  - constructor; [lia|]. rewrite <- E2. eapply chain_ext; [|exact Hch]. intros o. by apply byte_of_quiet.
  - assert (forall cap, interrupts_off (words_of hw3 d) cap -> interrupts_off (words_of hw d) cap) as Himp.
    { intros cap. unfold interrupts_off. by rewrite (byte_of_quiet hw hw3), (half_of_quiet hw hw3). }
    constructor; [|eapply Forall_impl; [exact Himp|exact Hall]].
    assert (interrupts_off (words_of hw2 d) capability) as Hoff2 by auto. revert Hoff2. unfold interrupts_off.
    by rewrite (byte_of_quiet hw hw2), (half_of_quiet hw hw2).
Qed.

Lemma isolated_quiet hw hw' d : quiet hw hw' -> isolated (words_of hw d) -> isolated (words_of hw' d).
Proof. intros Hq. apply isolated_ext. intros o. by rewrite (quiet_words hw hw'). Qed.

Lemma state_check hw d :
  let '(ok, hw') := message_interrupt_state hw d false in
  quiet hw hw' /\
  (ok = true -> (words_of hw d 4 >> 16) & PCI_STATUS_CAPABILITIES <> 0 ->
   exists l, chain (words_of hw d) (byte_of (words_of hw d) PCI_CAPABILITY_POINTER) l
             /\ Forall (interrupts_off (words_of hw d)) l).
Proof.
  unfold message_interrupt_state. destruct (config_read32_spec hw d 4 eq_refl) as [E1 Q1].
  destruct (pci_config_read32 hw d 4) as [cs hw1]. cbn [fst snd] in *. subst cs.
  case_if; [by split|]. case_if; [split; [done|]; unfold nz in *; b2p; by intros|].
  destruct (config_read8_spec hw1 d PCI_CAPABILITY_POINTER) as [E2 Q2].
  destruct (config_read8 hw1 d PCI_CAPABILITY_POINTER) as [cap hw2]. cbn [fst snd] in *.
  rewrite (byte_of_quiet hw hw1) in E2 by done. subst cap.
  assert (quiet hw hw2) as Q3 by (by eapply quiet_trans). case_if; [by split|]. unfold nz in *. b2p.
  pose proof (walk_check 48 hw2 d _ 0 ltac:(eassumption)) as Hw. destruct (capability_walk _ _ _ _ _ _) as [ok hw3].
  destruct Hw as [Q4 Hl]. split; [by eapply quiet_trans|]. intros Hok _. destruct (Hl Hok) as (l & Hch & Hall). exists l. split.
  - eapply chain_ext; [|exact Hch]. intros o. by apply byte_of_quiet.
  - eapply Forall_impl; [|exact Hall]. intros cap. unfold interrupts_off.
    by rewrite (byte_of_quiet hw hw2), (half_of_quiet hw hw2).
Qed.

Lemma quarantined_check hw d :
  let '(ok, hw') := pci_device_is_quarantined hw d in quiet hw hw' /\ (ok = true -> isolated (words_of hw' d)).
Proof.
  unfold pci_device_is_quarantined, pci_device_command. destruct (config_read32_spec hw d 4 eq_refl) as [E1 Q1].
  destruct (pci_config_read32 hw d 4) as [cs hw1]. cbn [fst snd] in *. subst cs.
  case_if; [by split|]. b2p. pose proof (state_check hw1 d) as Hs. destruct (message_interrupt_state hw1 d false) as [ok hw2].
  destruct Hs as [Q2 Hl]. split; [by eapply quiet_trans|]. intros Hok. apply (isolated_quiet hw1 hw2); [done|].
  unfold isolated. rewrite !(quiet_words hw hw1) in * by done. split_and!; [| |by apply Hl].
  all: by destruct (words_of hw d 4 =? UINT32_MAX).
Qed.

(** ** What an operation on one function may change: its command word and the
    words of its capabilities *)

Definition local (d : pci_device_t) hw hw' : Prop := forall r,
  (forall o, o = 4 \/ 0x40 <= o < 256 -> r <> u32 (config_address (pd_bus d) (pd_device d) (pd_function d) o)) ->
  config hw' r = config hw r.

Lemma quiet_local d hw hw' : quiet hw hw' -> local d hw hw'.
Proof. intros Hq r _. apply Hq. Qed.
Lemma local_trans d hw1 hw2 hw3 : local d hw1 hw2 -> local d hw2 hw3 -> local d hw1 hw3.
Proof. intros H1 H2 r Hr. by rewrite H2, H1. Qed.

Lemma land_2_cases o : o & 2 = 0 \/ o & 2 = 2.
Proof.
  destruct (Z.testbit o 1) eqn:E; [right|left]; apply Z.bits_inj'; intros n Hn; rewrite Z.land_spec;
    (destruct (Z.eq_dec n 1) as [->|Hne]; [by rewrite E|]); rewrite ?Z.bits_0;
    change 2 with (2 ^ 1); rewrite Z.pow2_bits_false by lia; apply andb_false_r.
Qed.

Lemma data_out_local hw d o p v :
  o = 4 \/ 0x40 <= o < 256 -> PCI_CONFIG_DATA <= p < PCI_CONFIG_DATA + 4 ->
  local d hw (cpu_out16 (cpu_out32 hw PCI_CONFIG_ADDRESS (config_address (pd_bus d) (pd_device d) (pd_function d) o)) p v).
Proof.
  intros Ho Hp r Hr. unfold cpu_out16, cpu_out32. rewrite pb_write, pb_select_config; [done|done|].
  rewrite pb_select. by apply Hr.
Qed.

Lemma config_write16_local hw d o v : 0x40 <= o < 256 -> o & 1 = 0 -> local d hw (snd (config_write16 hw d o v)).
Proof.
  intros Ho E. unfold config_write16. rewrite E. change (nz 0) with false. cbn iota. cbv zeta. set (hw1 := cpu_out16 _ _ _).
  destruct (config_read16_spec hw1 d o E) as [_ Q]. destruct (config_read16 hw1 d o) as [c hw2]. cbn [fst snd] in *.
  eapply local_trans; [|by apply quiet_local]. apply data_out_local; [lia|]. unfold PCI_CONFIG_DATA, u16.
  destruct (land_2_cases o) as [-> | ->]; done.
Qed.

Lemma interrupt_local hw d capability disable identifier :
  capability & 3 = 0 -> 0x40 <= capability <= 0xFC ->
  local d hw (snd (interrupt_capability hw d disable capability identifier)).
Proof.
  intros Hc Hr. unfold interrupt_capability. pose proof (even_plus_2 _ Hc) as He.
  destruct (config_read16_spec hw d (capability + 2) He) as [_ Q].
  destruct (config_read16 hw d (capability + 2)) as [control hw1]. cbn [fst snd] in *. apply quiet_local with (d := d) in Q.
  assert (forall v, local d hw (snd (config_write16 hw1 d (capability + 2) v))) as Hw.
  { intros v. eapply local_trans; [exact Q|]. apply config_write16_local; [lia|done]. }
  repeat (case_if; cbn [snd]; try done).
Qed.

Lemma walk_local n hw d disable capability visited :
  capability & 3 = 0 -> local d hw (snd (capability_walk n hw d disable capability visited)).
Proof.
  assert (forall hw, local d hw hw) as Hrefl by (intros; apply quiet_local, quiet_refl).
  revert hw capability visited. induction n as [|n IH]; intros hw capability visited Hc; cbn [capability_walk];
    (case_if; [apply Hrefl|]); [apply Hrefl|].
  case_if; [apply Hrefl|]. cbv zeta. case_if; [apply Hrefl|].
  destruct (config_read8_spec hw d capability) as [_ Q1]. destruct (config_read8 hw d capability) as [ident hw1].
  destruct (config_read8_spec hw1 d (capability + 1)) as [_ Q2]. destruct (config_read8 hw1 d (capability + 1)) as [next hw2].
  cbn [fst snd] in *. assert (local d hw hw2) as Q3 by (by eapply quiet_local, quiet_trans).
  case_if; [done|]. b2p. pose proof (interrupt_local hw2 d capability disable ident Hc ltac:(lia)) as Q4.
  destruct (interrupt_capability hw2 d disable capability ident) as [ok hw3]. cbn [snd] in Q4.
  assert (local d hw hw3) as Q5 by (by eapply local_trans). case_if; [done|].
  eapply local_trans; [exact Q5|]. by apply IH.
Qed.

Lemma state_local hw d disable : local d hw (snd (message_interrupt_state hw d disable)).
Proof.
  unfold message_interrupt_state. destruct (config_read32_spec hw d 4 eq_refl) as [_ Q1].
  destruct (pci_config_read32 hw d 4) as [cs hw1]. cbn [fst snd] in *.
  case_if; [by apply quiet_local|]. case_if; [by apply quiet_local|].
  destruct (config_read8_spec hw1 d PCI_CAPABILITY_POINTER) as [_ Q2].
  destruct (config_read8 hw1 d PCI_CAPABILITY_POINTER) as [cap hw2]. cbn [fst snd] in *.
  assert (local d hw hw2) as Q3 by (by eapply quiet_local, quiet_trans). case_if; [done|]. b2p.
  eapply local_trans; [exact Q3|]. by apply walk_local.
Qed.

Lemma quarantine_spec hw d :
  let '(ok, hw') := pci_quarantine_device hw d in local d hw hw' /\ (ok = true -> isolated (words_of hw' d)).
Proof.
  unfold pci_quarantine_device, pci_device_command. destruct (config_read32_spec hw d 4 eq_refl) as [_ Q1].
  destruct (pci_config_read32 hw d 4) as [cs hw1]. cbn [fst snd] in *. apply quiet_local with (d := d) in Q1.
  case_if; [by split|]. cbv zeta. set (c := Z.lor _ _).
  pose proof (data_out_local hw1 d 4 PCI_CONFIG_DATA c ltac:(by left) ltac:(done)) as Q2. set (hw2 := cpu_out16 _ _ _) in *.
  pose proof (state_local hw2 d true) as Q3. destruct (message_interrupt_state hw2 d true) as [ok hw3]. cbn [snd] in Q3.
  assert (local d hw hw3) as Q4 by (do 2 (eapply local_trans; [|eassumption]); done). case_if; [by split|].
  pose proof (quarantined_check hw3 d) as Hq. destruct (pci_device_is_quarantined hw3 d) as [ok' hw4]. destruct Hq as [Q5 Hi].
  split; [|done]. eapply local_trans; [exact Q4|]. by apply quiet_local.
Qed.

(** ** Locations *)

Definition located (bus device function : Z) : Prop := 0 <= bus < 256 /\ 0 <= device < 32 /\ 0 <= function < 8.

Lemma land_fc_range o : 0 <= o & 0xFC < 256.
Proof.
  assert (o & 0xFC = (o mod 256) & 0xFC) as ->.
  { change 256 with (2 ^ 8). rewrite <- land_ones_mod by lia. by rewrite <- Z.land_assoc. }
  assert (zall (fun o => (0 <=? o & 0xFC) && (o & 0xFC <? 256)) 0 256 = true) as Hz by done.
  pose proof (Z.mod_pos_bound o 256 ltac:(lia)). rewrite zall_true in Hz. specialize (Hz (o mod 256) ltac:(lia)). lia.
Qed.

Lemma capability_fc o : 0x40 <= o < 256 -> 0x40 <= o & 0xFC.
Proof.
  assert (zall (fun o => 0x40 <=? o & 0xFC) 0x40 192 = true) as Hz by done.
  rewrite zall_true in Hz. intros Ho. specialize (Hz o ltac:(lia)). lia.
Qed.

Lemma config_address_sum bus device function offset :
  located bus device function ->
  u32 (config_address bus device function offset)
  = 0x80000000 + bus * 65536 + device * 2048 + function * 256 + (offset & 0xFC).
Proof.
  intros (Hb & Hd & Hf). pose proof (land_fc_range offset) as Ho. unfold config_address. rewrite <- !Z.lor_assoc.
  rewrite (lor_add_disjoint (offset & 0xFC) function 8), (lor_add_disjoint _ device 11), (lor_add_disjoint _ bus 16) by lia.
  change PCI_ENABLE_BIT with (1 << 31). rewrite lor_add_disjoint by lia. unfold u32. rewrite Z.mod_small; lia.
Qed.

(** An operation on one function changes no word of another. *)
Lemma local_other hw hw' d bus device function o :
  local d hw hw' -> located (pd_bus d) (pd_device d) (pd_function d) -> located bus device function ->
  (bus, device, function) <> (pd_bus d, pd_device d, pd_function d) ->
  word hw' bus device function o = word hw bus device function o.
Proof.
  intros Hl Hd Hx Hne. unfold word. f_equal. apply Hl. intros o' _. rewrite !config_address_sum by done.
  pose proof (land_fc_range o). pose proof (land_fc_range o'). unfold located in *. intros E. apply Hne.
  assert (bus = pd_bus d /\ device = pd_device d /\ function = pd_function d) as (-> & -> & ->); [|done]. lia.
Qed.

(** The identity, the class and the header type of no function change. *)
Definition header_word (o : Z) : Prop := o = 0 \/ o = 8 \/ o = 0x0C.

Lemma local_header hw hw' d bus device function o :
  local d hw hw' -> located (pd_bus d) (pd_device d) (pd_function d) -> located bus device function -> header_word o ->
  word hw' bus device function o = word hw bus device function o.
Proof.
  intros Hl Hd Hx Ho. unfold word. f_equal. apply Hl. intros o' Ho'. rewrite !config_address_sum by done.
  pose proof (land_fc_range o'). assert (o' & 0xFC = 4 \/ 0x40 <= o' & 0xFC) as Hfc.
  { destruct Ho' as [-> | Ho']; [by left|right; by apply capability_fc]. }
  assert (o & 0xFC = o) as Eo by (destruct Ho as [-> |[-> | ->]]; done). assert (0 <= o < 16 /\ o <> 4) by (unfold header_word in Ho; lia).
  rewrite Eo. unfold located in *. lia.
Qed.

(** ** The scan *)

(** The scan finds a network function at the location. *)
Definition network_function hw (bus device function : Z) : Prop :=
  present_identity (word hw bus device function 0) = true /\
  (function <> 0 -> present_identity (word hw bus device 0 0) = true /\ (word hw bus device 0 0x0C >> 23) & 1 <> 0) /\
  u8 (word hw bus device function 8 >> 24) = PCI_CLASS_NETWORK.

Definition location_index (bus device function : Z) : Z := (bus * 32 + device) * 8 + function.

(** The counters, after the locations below [n] are scanned. *)
Definition scanned (n : Z) (st : pci_info_t * D) : Prop :=
  let '(i, hw) := st in
  0 <= network_quarantined_count i <= network_count i /\ network_count i <= n /\
  (network_quarantined_count i = network_count i ->
   forall bus device function, located bus device function -> location_index bus device function < n ->
     network_function hw bus device function -> isolated (word hw bus device function)).

Lemma network_function_header hw hw' d bus device function :
  local d hw hw' -> located (pd_bus d) (pd_device d) (pd_function d) -> located bus device function ->
  network_function hw' bus device function -> network_function hw bus device function.
Proof.
  intros Hl Hd Hx. unfold network_function. assert (located bus device 0) as Hx0 by (unfold located in *; lia).
  rewrite !(local_header hw hw' d) by (done || unfold header_word; tauto). done.
Qed.

Lemma scanned_quiet n i hw hw' : quiet hw hw' -> scanned n (i, hw) -> scanned n (i, hw').
Proof.
  intros Hq (H1 & H2 & H3). split_and!; [lia..|]. intros E bus device function Hx Hn Hnet.
  assert (forall b d f o, word hw' b d f o = word hw b d f o) as Ew by (intros; unfold word; by rewrite Hq).
  apply (isolated_ext (word hw bus device function)); [by intros|]. apply H3; [done..|].
  unfold network_function in *. by rewrite !Ew in Hnet.
Qed.

(** Locations with no network function are scanned by doing nothing. *)
Lemma scanned_skip n n' i hw :
  n <= n' ->
  (forall bus device function, located bus device function -> n <= location_index bus device function < n' ->
     ~ network_function hw bus device function) ->
  scanned n (i, hw) -> scanned n' (i, hw).
Proof.
  intros Hn Hno (H1 & H2 & H3). split_and!; [lia..|]. intros E bus device function Hx Hi Hnet.
  destruct (Z.lt_ge_cases (location_index bus device function) n); [by apply H3|].
  exfalso. eapply Hno; [exact Hx| |exact Hnet]. lia.
Qed.

Lemma index_inj bus device function bus' device' function' :
  located bus device function -> located bus' device' function' ->
  location_index bus device function = location_index bus' device' function' ->
  (bus, device, function) = (bus', device', function').
Proof.
  unfold located, location_index. intros. assert (bus = bus' /\ device = device' /\ function = function') as (-> & -> & ->); [|done]. lia.
Qed.

Definition headers_kept hw hw' : Prop := forall bus device function o,
  located bus device function -> header_word o -> word hw' bus device function o = word hw bus device function o.

Lemma headers_kept_network hw hw' bus device function :
  headers_kept hw hw' -> located bus device function ->
  network_function hw' bus device function -> network_function hw bus device function.
Proof.
  intros Hk Hx. assert (located bus device 0) by (unfold located in *; lia). unfold network_function, header_word in *.
  rewrite !Hk by (done || unfold header_word; tauto). done.
Qed.

Lemma quiet_headers hw hw' : quiet hw hw' -> headers_kept hw hw'.
Proof. intros Hq b d f o _ _. unfold word. by rewrite Hq. Qed.

Lemma headers_trans hw1 hw2 hw3 : headers_kept hw1 hw2 -> headers_kept hw2 hw3 -> headers_kept hw1 hw3.
Proof. intros H1 H2 b d f o Hx Ho. by rewrite H2, H1. Qed.

(** Quarantining the network function at the next location. *)
Lemma scanned_quarantine d hw i :
  located (pd_bus d) (pd_device d) (pd_function d) ->
  let n := location_index (pd_bus d) (pd_device d) (pd_function d) in
  scanned n (i, hw) ->
  let '(ok, hw') := pci_quarantine_device hw d in
  headers_kept hw hw' /\
  forall i', network_count i' = u32 (network_count i + 1) ->
    network_quarantined_count i' = (if ok then u32 (network_quarantined_count i + 1) else network_quarantined_count i) ->
    scanned (n + 1) (i', hw').
Proof.
  intros Hd n (H1 & H2 & H3). pose proof (quarantine_spec hw d) as Hq. destruct (pci_quarantine_device hw d) as [ok hw'].
  destruct Hq as [Hl Hi]. split; [intros b dv f o Hx Ho; by apply (local_header hw hw' d)|].
  assert (0 <= n < 65536) by (unfold n, location_index, located in *; lia). intros i' En Eq. unfold scanned. rewrite En, Eq. clear En Eq.
  unfold u32. rewrite (Z.mod_small (network_count i + 1)) by lia.
  rewrite (Z.mod_small (network_quarantined_count i + 1)) by lia. split_and!; [destruct ok; lia..|].
  intros E. assert (ok = true) as -> by (destruct ok; [done|lia]). intros bus device function Hx Hn Hnet.
  destruct (Z.eq_dec (location_index bus device function) n) as [En|Hne].
  - apply index_inj in En; [|done..]. injection En as -> -> ->. by apply Hi.
  - assert (forall o, word hw' bus device function o = word hw bus device function o) as Ew.
    { intros o. apply (local_other hw hw' d); [done..|]. intros Heq. apply Hne. unfold n. by injection Heq as -> -> ->. }
    apply (isolated_ext (word hw bus device function)); [by intros|]. apply H3; [lia|done|lia|].
    by apply (network_function_header hw hw' d).
Qed.

Lemma record_scanned bus device function ident i hw :
  located bus device function -> let n := location_index bus device function in
  scanned n (i, hw) ->
  let '(i', hw') := record_function hw i bus device function ident in headers_kept hw hw' /\ scanned (n + 1) (i', hw').
Proof.
  intros Hx n Hs. unfold record_function.
  destruct (read_location_spec hw bus device function 8) as [E1 Q1]. destruct (read_location hw bus device function 8) as [class_data hw1].
  destruct (read_location_spec hw1 bus device function 0x0C) as [E2 Q2].
  destruct (read_location hw1 bus device function 0x0C) as [header_data hw2]. cbn [fst snd] in *. cbv zeta.
  assert (quiet hw hw2) as Q3 by (by eapply quiet_trans). cbn [pd_class_code pd_subclass pd_programming_interface].
  set (found := mk_pci_device _ _ _ _ _ _ _ _ _). set (i1 := if (_ && _)%bool then _ else _).
  assert (network_count i1 = network_count i /\ network_quarantined_count i1 = network_quarantined_count i) as [Ec Eq].
  { unfold i1. by case_if. }
  assert (scanned n (i1, hw2)) as Hs2.
  { apply (scanned_quiet n i1 hw hw2); [done|]. unfold scanned in *. by rewrite Ec, Eq. }
  case_if.
  - pose proof (scanned_quarantine found hw2 i1 Hx Hs2) as Hq. destruct (pci_quarantine_device hw2 found) as [ok hw3].
    destruct Hq as [Hk Hq]. split; [|by apply Hq]. eapply headers_trans; [|exact Hk]. by apply quiet_headers.
  - split; [by apply quiet_headers|]. apply (scanned_skip n); [lia| |done].
    intros b d f Hl Hi. assert (location_index b d f = n) as En by lia. apply index_inj in En; [|done..]. injection En as -> -> ->.
    intros (_ & _ & Hc). unfold word in Hc, E1. rewrite Q3 in Hc. rewrite <- E1 in Hc. b2p. done.
Qed.

Lemma scan_function_scanned bus device function st :
  located bus device function -> let n := location_index bus device function in
  scanned n st -> headers_kept (snd st) (snd (scan_function bus device function st)) /\ scanned (n + 1) (scan_function bus device function st).
Proof.
  intros Hx n Hs. destruct st as [i hw]. unfold scan_function. cbn [snd].
  destruct (read_location_spec hw bus device function 0) as [E1 Q1]. destruct (read_location hw bus device function 0) as [ident hw1].
  cbn [fst snd] in *. apply (scanned_quiet n i hw hw1 Q1) in Hs. case_if.
  - pose proof (record_scanned bus device function ident i hw1 Hx Hs) as Hr. destruct (record_function _ _ _ _ _ _) as [i' hw'].
    destruct Hr as [Hk Hr]. split; [|done]. eapply headers_trans; [|exact Hk]. by apply quiet_headers.
  - split; [by apply quiet_headers|]. apply (scanned_skip n); [lia| |done].
    intros b d f Hl Hi. assert (location_index b d f = n) as En by lia. apply index_inj in En; [|done..]. injection En as -> -> ->.
    intros (Hp & _ & _). unfold word in Hp, E1. rewrite Q1, <- E1 in Hp. congruence.
Qed.

Lemma scan_device_scanned bus device st :
  located bus device 0 -> let n := location_index bus device 0 in scanned n st -> scanned (n + 8) (scan_device bus device st).
Proof.
  intros Hx n Hs. destruct st as [i hw]. unfold scan_device.
  destruct (read_location_spec hw bus device 0 0) as [E1 Q1]. destruct (read_location hw bus device 0 0) as [ident hw1].
  cbn [fst snd] in *. apply (scanned_quiet n i hw hw1 Q1) in Hs. rewrite <- (quiet_headers hw hw1 Q1) in E1 by (done || by left).
  assert (forall b d f, located b d f -> n <= location_index b d f < n + 8 -> b = bus /\ d = device) as Hbd.
  { unfold n, location_index, located in *. lia. }
  case_if.
  { apply (scanned_skip n); [lia| |done]. intros b d f Hl Hi. destruct (Hbd b d f Hl Hi) as [-> ->]. intros (Hp & Hm & _). b2p.
    destruct (Z.eq_dec f 0) as [-> | Hf]; [congruence|]. destruct (Hm Hf). congruence. }
  pose proof (record_scanned bus device 0 ident i hw1 Hx Hs) as Hr. destruct (record_function _ _ _ _ _ _) as [i2 hw2].
  destruct Hr as [Hk2 Hs2]. destruct (read_location_spec hw2 bus device 0 0x0C) as [E3 Q3].
  destruct (read_location hw2 bus device 0 0x0C) as [header hw3]. cbn [fst snd] in *.
  apply (scanned_quiet _ i2 hw2 hw3 Q3) in Hs2. fold n in Hs2.
  rewrite <- (quiet_headers hw2 hw3 Q3) in E3 by (done || (right; by right)). case_if.
  { apply (scanned_skip (n + 1)); [lia| |done]. intros b d f Hl Hi. destruct (Hbd b d f Hl ltac:(lia)) as [-> ->].
    intros (_ & Hm & _). destruct (Hm ltac:(unfold n, location_index in Hi; lia)) as [_ Hbit]. unfold nz in *. b2p. congruence. }
  replace (n + 8) with (location_index bus device 8) by (unfold n, location_index; lia).
  apply (for_range_inv (fun f => scanned (location_index bus device f))); [lia| |].
  { by replace (location_index bus device 1) with (n + 1) by (unfold n, location_index; lia). }
  intros f st Hf Hst.
  replace (location_index bus device (f + 1)) with (location_index bus device f + 1) by (unfold location_index; lia).
  apply scan_function_scanned; [unfold located in *; lia|done].
Qed.

Lemma pci_init_scanned hw : scanned 65536 (snd (pci_init hw)).
Proof.
  unfold pci_init. set (st := for_range _ _ _ _). assert (scanned 65536 st) as Hs; [|by destruct st].
  apply (for_range_inv (fun bus => scanned (bus * 256))); [lia| |].
  { split_and!; cbn [network_count network_quarantined_count pci_info0]; [lia..|]. unfold located, location_index. lia. }
  intros bus st' Hb Hst. replace ((bus + 1) * 256) with (location_index bus 32 0) by (unfold location_index; lia).
  apply (for_range_inv (fun device => scanned (location_index bus device 0))); [lia| |].
  { by replace (location_index bus 0 0) with (bus * 256) by (unfold location_index; lia). }
  intros device st'' Hd Hst''.
  replace (location_index bus (device + 1) 0) with (location_index bus device 0 + 8) by (unfold location_index; lia).
  apply scan_device_scanned; [unfold located; lia|done].
Qed.

(** The self test only reads. *)
Lemma self_test_quiet i hw : quiet hw (snd (pci_self_test i hw)).
Proof.
  unfold pci_self_test. case_if; [apply quiet_refl|].
  assert (forall d (g : Z -> Z -> bool) hw0, quiet hw0 (snd
    (let '(ident, hw) := pci_config_read32 hw0 d 0 in let '(class_data, hw) := pci_config_read32 hw d 8 in (g ident class_data, hw)))) as Hr.
  { intros d g hw0. destruct (config_read32_spec hw0 d 0 eq_refl) as [_ Q1]. destruct (pci_config_read32 hw0 d 0) as [ident hw1].
    destruct (config_read32_spec hw1 d 8 eq_refl) as [_ Q2]. destruct (pci_config_read32 hw1 d 8) as [cl hw2]. cbn [fst snd] in *.
    by eapply quiet_trans. }
  set (st := if nz (ahci_count i) then _ else _).
  assert (quiet hw (snd st)) as Q1 by (unfold st; case_if; [cbv zeta; refine (Hr _ (fun _ _ => _) _)|apply quiet_refl]).
  destruct st as [ok hw1]. cbn [snd] in Q1. case_if; [done|]. case_if; [|done]. case_if; [done|].
  eapply quiet_trans; [exact Q1|]. refine (Hr _ (fun _ _ => _) _).
Qed.

Lemma self_test_counts i hw :
  0 <= network_quarantined_count i <= network_count i -> fst (pci_self_test i hw) = true ->
  network_quarantined_count i = network_count i.
Proof.
  intros Hi. unfold pci_self_test. case_if; [done|]. set (st := if nz (ahci_count i) then _ else _). destruct st as [ok hw1].
  case_if; [done|]. case_if; [|unfold nz in *; b2p; lia]. case_if; [done|]. b2p. done.
Qed.

(** Quarantine is sound: when [pci_quarantine_device] answers yes, the function
    it leaves behind decodes no I/O or memory, masters no bus, has its legacy
    interrupt disabled, and, if it has a capability list, the list is well formed
    and every MSI and MSI-X capability on it is off, whatever the device does with
    the values written to it; and no register of any other function has changed. *)
Theorem quarantine_sound hw d ok hw' :
  located (pd_bus d) (pd_device d) (pd_function d) ->
  pci_quarantine_device hw d = (ok, hw') ->
  (ok = true -> isolated (words_of hw' d)) /\
  (forall bus device function o, located bus device function ->
     (bus, device, function) <> (pd_bus d, pd_device d, pd_function d) ->
     word hw' bus device function o = word hw bus device function o).
Proof.
  intros Hd E. pose proof (quarantine_spec hw d) as Hq. rewrite E in Hq. destruct Hq as [Hl Hi].
  split; [done|]. intros. by apply (local_other hw hw' d).
Qed.

(** C6: A boot whose PCI discovery succeeds and passes its self test has isolated
    every network function the scan can see (function 0, and functions 1 to 7 of a
    multi-function device, on 256 buses of 32 devices): each is still isolated at
    the end, after all the later reads and writes of the scan and of the test. *)
Theorem pci_networks_isolated hw ok i hw1 hw2 bus device function :
  pci_init hw = (ok, (i, hw1)) -> pci_self_test i hw1 = (true, hw2) ->
  located bus device function -> network_function hw2 bus device function ->
  isolated (word hw2 bus device function).
Proof.
  intros Ei Et Hx Hnet. pose proof (pci_init_scanned hw) as Hs. rewrite Ei in Hs. cbn [snd] in Hs.
  pose proof (self_test_quiet i hw1) as Hq. rewrite Et in Hq. cbn [snd] in Hq.
  assert (network_quarantined_count i = network_count i) as Ec.
  { apply (self_test_counts i hw1); [apply Hs|by rewrite Et]. }
  apply (scanned_quiet _ i hw1 hw2 Hq) in Hs. destruct Hs as (_ & _ & Hall). apply Hall; [done..| |done].
  unfold location_index, located in *. lia.
Qed.

End bus.

(** ** A machine with one network card, which has an MSI capability *)

Record backplane := mk_backplane { bp_select : Z; bp_words : Z -> Z }.
#[export] Instance backplane_hardware : Hardware backplane := {
  hw_in8 b _ := (0xFF, b);
  hw_out8 b _ _ := b;
  hw_in32 b p := (if p =? PCI_CONFIG_DATA then bp_words b (bp_select b) else UINT32_MAX, b);
  hw_out16 b p v :=
    let old := bp_words b (bp_select b) in
    let new := if p =? PCI_CONFIG_DATA then (old >> 16 << 16) + v else (v << 16) + u16 old in
    if (PCI_CONFIG_DATA <=? p) && (p <? PCI_CONFIG_DATA + 4)
    then mk_backplane (bp_select b) (fun r => if r =? bp_select b then new else bp_words b r)
    else b;
  hw_out32 b p v := if p =? PCI_CONFIG_ADDRESS then mk_backplane v (bp_words b) else b;
  hw_rdmsr b _ := (0, b);
  hw_wrmsr b _ _ := b;
  hw_load32 b _ := (UINT32_MAX, b);
  hw_store32 b _ _ := b }.

#[export] Instance backplane_bus : PciBus backplane bp_words bp_select.
Proof.
  constructor; [done..|]. intros [a w] p v r Hp Hr. cbn in *. unfold PCI_CONFIG_DATA in *. case_if; [|done]. cbn. case_if; b2p; lia.
Qed.

Definition card_words (r : Z) : Z :=
  let o := r - 0x80001800 in
  if o =? 0 then 0x100E8086
  else if o =? 4 then 0x00100007
  else if o =? 8 then 0x02000000
  else if o =? 0x34 then 0x50
  else if o =? 0x50 then 0x00010005
  else if (0 <=? o) && (o <? 256) then 0 else UINT32_MAX.
Definition sample_backplane : backplane := mk_backplane 0 card_words.
Definition sample_card : pci_device_t := mk_pci_device 0 3 0 2 0 0 0 0x8086 0x100E.

Lemma quarantine_sound_witness :
  fst (pci_quarantine_device sample_backplane sample_card) = true
  /\ isolated (words_of (config := bp_words) (snd (pci_quarantine_device sample_backplane sample_card)) sample_card).
Proof.
  split; [vm_compute; reflexivity|].
  destruct (pci_quarantine_device sample_backplane sample_card) as [ok hw'] eqn:E.
  apply (quarantine_sound sample_backplane sample_card ok hw'); [vm_compute; split_and!; done|exact E|].
  assert (fst (pci_quarantine_device sample_backplane sample_card) = true) as Hf by (vm_compute; reflexivity).
  rewrite E in Hf. exact Hf.
Defined.

Lemma pci_networks_isolated_witness :
  let st := pci_init sample_backplane in
  let final := pci_self_test (fst (snd st)) (snd (snd st)) in
  fst final = true /\ network_count (fst (snd st)) = 1 /\ isolated (word (config := bp_words) (snd final) 0 3 0).
Proof.
  cbv zeta. assert (network_count (fst (snd (pci_init sample_backplane))) = 1) as Hn by (vm_compute; reflexivity).
  assert (fst (pci_self_test (fst (snd (pci_init sample_backplane))) (snd (snd (pci_init sample_backplane)))) = true) as Ht
    by (vm_compute; reflexivity).
  assert (network_function (config := bp_words)
            (snd (pci_self_test (fst (snd (pci_init sample_backplane))) (snd (snd (pci_init sample_backplane))))) 0 3 0) as Hnet.
  { split; [vm_compute; reflexivity|split; [intros Hne; exfalso; apply Hne; reflexivity|vm_compute; reflexivity]]. }
  split; [exact Ht|]. split; [exact Hn|]. destruct (pci_init sample_backplane) as [ok [i hw1]] eqn:Ei. cbn [fst snd] in *.
  destruct (pci_self_test i hw1) as [t hw2] eqn:Et. cbn [fst snd] in *. subst t.
  exact (pci_networks_isolated sample_backplane ok i hw1 hw2 0 3 0 Ei Et ltac:(unfold located; lia) Hnet).
Defined.
