(* ===== verification/Acpi.v ===== *)
(** * ACPI tables (src/acpi.c)

    The kernel finds the interrupt controllers and processors in tables that the
    firmware left in memory.  The definitions read the same bytes of the memory
    of Memory.v as the source; a packed structure's field is a load at its
    offset.  The theorems relate [acpi_init] to a description of the table as a
    list of records, and bound what it reads. *)

From stdpp Require Import base list gmap numbers.
From Stdlib Require Import ZArith Lia.
From S2P Require Import Prelude Memory BootInfo Allocator Pmm Paging.

Open Scope Z_scope.

(** ** The source's definitions *)

(** [sizeof] of the packed structures. *)
Definition RSDP_SIZE : Z := 36.
Definition SDT_HEADER_SIZE : Z := 36.
Definition MADT_SIZE : Z := 44.

(** [rsdp_t] *)
Definition rsdp_revision (m : mem) (rsdp : Z) : Z := mem_get m (rsdp + 15).
Definition rsdp_length (m : mem) (rsdp : Z) : Z := load32 m (rsdp + 20).
Definition rsdp_xsdt_address (m : mem) (rsdp : Z) : Z := load64 m (rsdp + 24).
(** [sdt_header_t] *)
Definition sdt_length (m : mem) (header : Z) : Z := load32 m (header + 4).
(** [madt_t] *)
Definition madt_local_apic_address (m : mem) (madt : Z) : Z := load32 m (madt + 36).
Definition madt_flags (m : mem) (madt : Z) : Z := load32 m (madt + 40).

Definition bytes_equal (m : mem) (a : Z) (b : list Z) (count : Z) : bool :=
  zall (fun i => mem_get m (a + i) =? zget 0 b i) 0 (Z.to_nat count).

Definition checksum_ok (m : mem) (address length : Z) : bool :=
  for_range 0 length (fun i sum => u8 (sum + mem_get m (address + i))) 0 =? 0.

Definition sdt_valid (m : mem) (header : Z) : bool :=
  nz header && (SDT_HEADER_SIZE <=? sdt_length m header) && (sdt_length m header <=? 0x100000) &&
  checksum_ok m header (sdt_length m header).

(** The literals. *)
Definition XSDT_SIGNATURE : list Z := [88; 83; 68; 84].
Definition APIC_SIGNATURE : list Z := [65; 80; 73; 67].
Definition RSDP_SIGNATURE : list Z := [82; 83; 68; 32; 80; 84; 82; 32].

(** [entries[i]] of the XSDT. *)
Definition xsdt_entry (m : mem) (xsdt i : Z) : Z := load64 m (xsdt + SDT_HEADER_SIZE + 8 * i).

Definition find_madt (m : mem) (rsdp : Z) : Z :=
  if (rsdp_revision m rsdp <? 2) || negb (nz (rsdp_xsdt_address m rsdp)) then 0
  else
    let xsdt := rsdp_xsdt_address m rsdp in
    if negb (sdt_valid m xsdt) || negb (bytes_equal m xsdt XSDT_SIGNATURE 4) then 0
    else
      let payload := sdt_length m xsdt - SDT_HEADER_SIZE in
      if nz (payload mod 8) then 0
      else
        let count := payload / 8 in
        match zfind (fun i => sdt_valid m (xsdt_entry m xsdt i) && bytes_equal m (xsdt_entry m xsdt i) APIC_SIGNATURE 4)
                0 (Z.to_nat count) with
        | Some i => xsdt_entry m xsdt i
        | None => 0
        end.

Definition set_controllers (i : acpi_info_t) (lapic ioapic base : Z) : acpi_info_t :=
  mk_acpi lapic ioapic base (acpi_keyboard_gsi i) (acpi_mouse_gsi i) (acpi_enabled_cpu_count i)
    (acpi_interrupt_override_count i) (acpi_madt_flags i) (acpi_keyboard_flags i) (acpi_mouse_flags i).
Definition set_counts (i : acpi_info_t) (cpus overrides : Z) : acpi_info_t :=
  mk_acpi (acpi_local_apic_address i) (acpi_io_apic_address i) (acpi_io_apic_gsi_base i) (acpi_keyboard_gsi i)
    (acpi_mouse_gsi i) cpus overrides (acpi_madt_flags i) (acpi_keyboard_flags i) (acpi_mouse_flags i).
Definition set_keyboard_route (i : acpi_info_t) (gsi flags : Z) : acpi_info_t :=
  mk_acpi (acpi_local_apic_address i) (acpi_io_apic_address i) (acpi_io_apic_gsi_base i) gsi
    (acpi_mouse_gsi i) (acpi_enabled_cpu_count i) (acpi_interrupt_override_count i) (acpi_madt_flags i) flags (acpi_mouse_flags i).
Definition set_mouse_route (i : acpi_info_t) (gsi flags : Z) : acpi_info_t :=
  mk_acpi (acpi_local_apic_address i) (acpi_io_apic_address i) (acpi_io_apic_gsi_base i) (acpi_keyboard_gsi i)
    gsi (acpi_enabled_cpu_count i) (acpi_interrupt_override_count i) (acpi_madt_flags i) (acpi_keyboard_flags i) flags.

(** The effect of the record at [entry] on the result. *)
Definition madt_entry (m : mem) (entry type length : Z) (info : acpi_info_t) : acpi_info_t :=
  if (type =? 0) && (8 <=? length) then
    if nz (load32 m (entry + 4) & 3)
    then set_counts info (u32 (acpi_enabled_cpu_count info + 1)) (acpi_interrupt_override_count info)
    else info
  else if (type =? 1) && (12 <=? length) && negb (nz (acpi_io_apic_address info)) then
    set_controllers info (acpi_local_apic_address info) (load32 m (entry + 4)) (load32 m (entry + 8))
  else if (type =? 2) && (10 <=? length) then
    let info := set_counts info (acpi_enabled_cpu_count info) (u32 (acpi_interrupt_override_count info + 1)) in
    if mem_get m (entry + 2) =? 0 then
      let source := mem_get m (entry + 3) in
      let gsi := load32 m (entry + 4) in
      let flags := mem_load 2 m (entry + 8) in
      if source =? 1 then set_keyboard_route info gsi flags
      else if source =? 12 then set_mouse_route info gsi flags
      else info
    else info
  else if (type =? 5) && (12 <=? length) then
    set_controllers info (load64 m (entry + 4)) (acpi_io_apic_address info) (acpi_io_apic_gsi_base info)
  else info.

(** [while (entry + 2u <= end)]; every round moves [entry] on by two or more, so
    [end - entry] rounds are enough.  [false] is the early [return 0]. *)
Fixpoint madt_walk (fuel : nat) (m : mem) (entry end_ : Z) (info : acpi_info_t) : bool * acpi_info_t :=
  match fuel with
  | O => (true, info)
  | S fuel' =>
      if entry + 2 <=? end_ then
        let type := mem_get m entry in
        let length := mem_get m (entry + 1) in
        if (length <? 2) || (end_ <? entry + length) then (false, info)
        else madt_walk fuel' m (entry + length) end_ (madt_entry m entry type length info)
      else (true, info)
  end.

Definition acpi_info0 : acpi_info_t := mk_acpi 0 0 0 1 12 0 0 0 0 0.

(** The checks on the root pointer. *)
Definition rsdp_accepted (m : mem) (rsdp : Z) : bool :=
  bytes_equal m rsdp RSDP_SIGNATURE 8 && checksum_ok m rsdp 20 && (2 <=? rsdp_revision m rsdp) &&
  (RSDP_SIZE <=? rsdp_length m rsdp) && (rsdp_length m rsdp <=? 4096) && checksum_ok m rsdp (rsdp_length m rsdp).

Definition acpi_init (m : mem) (boot_info : option boot_info_t) : bool * acpi_info_t :=
  match boot_info with
  | None => (false, acpi_info0)
  | Some b =>
      if negb (nz (bi_acpi_rsdp b)) then (false, acpi_info0)
      else
        let rsdp := bi_acpi_rsdp b in
        if negb (rsdp_accepted m rsdp) then (false, acpi_info0)
        else
          let madt := find_madt m rsdp in
          if negb (nz madt) || (sdt_length m madt <? MADT_SIZE) then (false, acpi_info0)
          else
            let info := mk_acpi (madt_local_apic_address m madt) 0 0 1 12 0 0 (madt_flags m madt) 0 0 in
            let '(ok, info) := madt_walk (Z.to_nat (sdt_length m madt)) m (madt + MADT_SIZE)
                                 (madt + sdt_length m madt) info in
            if negb ok then (false, info)
            else (nz (acpi_local_apic_address info) && nz (acpi_enabled_cpu_count info), info)
  end.

(** ** The table as a list of records *)

(** The bytes of memory from [a]. *)
Definition bytes_at (m : mem) (a n : Z) : list Z := map (mem_get m) (zrange a (Z.to_nat n)).

(** A record: its type and the bytes after its length. *)
Record madt_record := mk_record { rec_type : Z; rec_payload : list Z }.
Definition rec_length (r : madt_record) : Z := 2 + Z.of_nat (length (rec_payload r)).
Definition encode_record (r : madt_record) : list Z := rec_type r :: rec_length r :: rec_payload r.
Definition record_wf (r : madt_record) : Prop := rec_length r < 256.

(** The table's bytes are the records, perhaps with one byte left over. *)
Definition table_is (m : mem) (madt : Z) (rs : list madt_record) : Prop :=
  Forall record_wf rs /\ exists tail, (length tail <= 1)%nat /\
    bytes_at m (madt + MADT_SIZE) (sdt_length m madt - MADT_SIZE) = concat (map encode_record rs) ++ tail.

(** *** What a record says *)

(** The little-endian field at an offset of the record. *)
Definition field (r : madt_record) (offset : Z) (n : nat) : Z := le_read (zget 0 (rec_payload r)) (offset - 2) n.

Definition is_enabled_cpu (r : madt_record) : bool :=
  (rec_type r =? 0) && (8 <=? rec_length r) && nz (field r 4 4 & 3).
Definition is_io_apic (r : madt_record) : bool := (rec_type r =? 1) && (12 <=? rec_length r).
Definition is_override (r : madt_record) : bool := (rec_type r =? 2) && (10 <=? rec_length r).
(** An override of the ISA interrupt [source]. *)
Definition overrides (source : Z) (r : madt_record) : bool :=
  is_override r && (field r 2 1 =? 0) && (field r 3 1 =? source).
Definition is_local_apic_address (r : madt_record) : bool := (rec_type r =? 5) && (12 <=? rec_length r).

(** The last record that satisfies [p]. *)
Definition last_such (p : madt_record -> bool) (rs : list madt_record) : option madt_record := find p (reverse rs).
Definition count_such (p : madt_record -> bool) (rs : list madt_record) : Z := Z.of_nat (length (List.filter p rs)).

(** The controller the kernel uses: the first with an address. *)
Definition io_apic_of (rs : list madt_record) : option madt_record :=
  find (fun r => is_io_apic r && nz (field r 4 4)) rs.

(** What the kernel should learn from the table. *)
Definition describes (lapic flags : Z) (rs : list madt_record) (i : acpi_info_t) : Prop :=
  acpi_local_apic_address i = match last_such is_local_apic_address rs with Some r => field r 4 8 | None => lapic end /\
  acpi_io_apic_address i = match io_apic_of rs with Some r => field r 4 4 | None => 0 end /\
  (forall r, io_apic_of rs = Some r -> acpi_io_apic_gsi_base i = field r 8 4) /\
  acpi_enabled_cpu_count i = count_such is_enabled_cpu rs /\
  acpi_interrupt_override_count i = count_such is_override rs /\
  acpi_madt_flags i = flags /\
  (acpi_keyboard_gsi i, acpi_keyboard_flags i)
    = match last_such (overrides 1) rs with Some r => (field r 4 4, field r 8 2) | None => (1, 0) end /\
  (acpi_mouse_gsi i, acpi_mouse_flags i)
    = match last_such (overrides 12) rs with Some r => (field r 4 4, field r 8 2) | None => (12, 0) end.

(** ** Bytes *)

Lemma bytes_at_lookup m a n k : 0 <= k < n -> bytes_at m a n !! Z.to_nat k = Some (mem_get m (a + k)).
Proof.
  intros Hk. unfold bytes_at. rewrite list_lookup_fmap, zrange_lookup by lia. cbn. do 2 f_equal. lia.
Qed.

Lemma bytes_at_length m a n : 0 <= n -> Z.of_nat (length (bytes_at m a n)) = n.
Proof. intros. unfold bytes_at. rewrite length_map, zrange_length. lia. Qed.

Lemma bytes_at_app m a n k : 0 <= k -> 0 <= n -> bytes_at m a (k + n) = bytes_at m a k ++ bytes_at m (a + k) n.
Proof.
  intros. unfold bytes_at. rewrite Z2Nat.inj_add, zrange_app, map_app by lia. do 3 f_equal. lia.
Qed.

Lemma bytes_at_cons m a n : 0 < n -> bytes_at m a n = mem_get m a :: bytes_at m (a + 1) (n - 1).
Proof.
  intros. unfold bytes_at. replace (Z.to_nat n) with (S (Z.to_nat (n - 1))) by lia. done.
Qed.

Lemma le_read_shift f g a b n :
  (forall i, 0 <= i < Z.of_nat n -> f (a + i) = g (b + i)) -> le_read f a n = le_read g b n.
Proof.
  revert a b. induction n as [|n IH]; intros a b E; [done|].
  change (f a + 256 * le_read f (a + 1) n = g b + 256 * le_read g (b + 1) n).
  pose proof (E 0 ltac:(lia)) as E0. rewrite !Z.add_0_r in E0. rewrite E0. do 2 f_equal. apply IH. intros i Hi.
  replace (a + 1 + i) with (a + (1 + i)) by lia. replace (b + 1 + i) with (b + (1 + i)) by lia. apply E. lia.
Qed.

(** A record in memory is read back field by field. *)
Lemma field_load m entry r o n :
  bytes_at m entry (rec_length r) = encode_record r -> 2 <= o -> o + Z.of_nat n <= rec_length r ->
  mem_load n m (entry + o) = field r o n.
Proof.
  intros E Ho Hn. apply le_read_shift. intros i Hi.
  pose proof (bytes_at_lookup m entry (rec_length r) (o + i) ltac:(lia)) as Hl. rewrite E in Hl. unfold encode_record in Hl.
  replace (Z.to_nat (o + i)) with (S (S (Z.to_nat (o - 2 + i)))) in Hl by lia.
  change (rec_payload r !! Z.to_nat (o - 2 + i) = Some (mem_get m (entry + (o + i)))) in Hl.
  unfold zget. rewrite Z.add_assoc in Hl. by rewrite Hl.
Qed.

Lemma get_field m entry r o :
  bytes_at m entry (rec_length r) = encode_record r -> 2 <= o -> o + 1 <= rec_length r -> mem_get m (entry + o) = field r o 1.
Proof.
  intros E Ho Hn. rewrite <- (field_load m entry r o 1 E) by (cbn; lia). change (mem_load 1 m (entry + o)) with (mem_get m (entry + o) + 256 * 0). lia.
Qed.

(** ** One record *)

Lemma last_such_snoc p rs r : last_such p (rs ++ [r]) = if p r then Some r else last_such p rs.
Proof. unfold last_such. by rewrite reverse_snoc. Qed.
Lemma count_such_snoc p rs r : count_such p (rs ++ [r]) = count_such p rs + (if p r then 1 else 0).
Proof. unfold count_such. rewrite List.filter_app, length_app. cbn. destruct (p r); cbn; lia. Qed.
Lemma count_such_le p rs : 0 <= count_such p rs <= Z.of_nat (length rs).
Proof. unfold count_such. pose proof (List.filter_length_le p rs). lia. Qed.
Lemma find_app {A} (p : A -> bool) l1 l2 : find p (l1 ++ l2) = match find p l1 with Some x => Some x | None => find p l2 end.
Proof. induction l1 as [|x l1 IH]; [done|]. cbn. by destruct (p x). Qed.
Lemma io_apic_of_snoc rs r :
  io_apic_of (rs ++ [r])
  = match io_apic_of rs with Some x => Some x | None => if is_io_apic r && nz (field r 4 4) then Some r else None end.
Proof. unfold io_apic_of. by rewrite find_app. Qed.

Lemma io_apic_of_nz rs r : io_apic_of rs = Some r -> nz (field r 4 4) = true.
Proof. intros E. apply find_some in E as [_ E]. by apply andb_true_iff in E as [_ E]. Qed.

(** The record's effect extends the description. *)
Lemma describes_snoc m entry lapic flags rs r i :
  bytes_at m entry (rec_length r) = encode_record r -> Z.of_nat (length rs) < UINT32_MAX ->
  describes lapic flags rs i -> describes lapic flags (rs ++ [r]) (madt_entry m entry (rec_type r) (rec_length r) i).
Proof.
  intros E Hn (H1 & H2 & H3 & H4 & H5 & H6 & H7 & H8). unfold UINT32_MAX in Hn.
  pose proof (count_such_le is_enabled_cpu rs). pose proof (count_such_le is_override rs).
  assert (u32 (acpi_enabled_cpu_count i + 1) = count_such is_enabled_cpu rs + 1) as Ec
    by (rewrite H4; unfold u32; rewrite Z.mod_small; lia).
  assert (u32 (acpi_interrupt_override_count i + 1) = count_such is_override rs + 1) as Eo
    by (rewrite H5; unfold u32; rewrite Z.mod_small; lia).
  unfold describes. rewrite !last_such_snoc, !count_such_snoc, io_apic_of_snoc.
  assert (forall r0, io_apic_of rs = Some r0 -> nz (field r0 4 4) = true) as Hio by (intros; by eapply io_apic_of_nz).
  destruct (io_apic_of rs) as [r0|].
  all: revert H1 H2 H3 H4 H5 H6 H7 H8 H H0 Ec Eo Hio; generalize (last_such is_local_apic_address rs), (last_such (overrides 1) rs),
    (last_such (overrides 12) rs), (count_such is_enabled_cpu rs), (count_such is_override rs); intros.
  all: unfold is_local_apic_address, is_io_apic, is_enabled_cpu, overrides, is_override, madt_entry; rewrite H2.
  all: destruct (Z.eqb_spec (rec_type r) 0) as [T0|T0]; [rewrite T0|];
    [|destruct (Z.eqb_spec (rec_type r) 1) as [T1|T1]; [rewrite T1|];
      [|destruct (Z.eqb_spec (rec_type r) 2) as [T2|T2]; [rewrite T2|];
        [|destruct (Z.eqb_spec (rec_type r) 5) as [T5|T5]]]]; cbn [andb Z.eqb Pos.eqb].
  all: try (destruct (Z.leb_spec 8 (rec_length r)) as [L|L]); try (destruct (Z.leb_spec 12 (rec_length r)) as [L'|L']);
    try (destruct (Z.leb_spec 10 (rec_length r)) as [L''|L'']); cbn [andb].
  all: rewrite ?(get_field m entry r 2 E), ?(get_field m entry r 3 E), ?(field_load m entry r 4 4 E), ?(field_load m entry r 8 4 E),
    ?(field_load m entry r 8 2 E), ?(field_load m entry r 4 8 E) by (cbn; lia).
  all: repeat (case_if; cbn [andb negb]); cbn; split_and!; first [done|lia|congruence|idtac].
  1,2: by rewrite (Hio r0 eq_refl) in Heqb.
  unfold nz in *. by b2p.
Qed.

(** ** The walk *)

Lemma encode_length r : Z.of_nat (length (encode_record r)) = rec_length r.
Proof. unfold encode_record, rec_length. cbn [length]. lia. Qed.

Lemma records_length rs : Z.of_nat (2 * length rs) <= Z.of_nat (length (concat (map encode_record rs))).
Proof.
  induction rs as [|r rs IH]; [done|]. cbn [map concat]. rewrite length_app. pose proof (encode_length r).
  unfold rec_length in *. cbn [length]. lia.
Qed.

(** The record at the start of bytes that begin with its encoding. *)
Lemma first_record m entry n r rest :
  0 <= n -> bytes_at m entry n = encode_record r ++ rest ->
  rec_length r <= n /\ bytes_at m entry (rec_length r) = encode_record r /\ bytes_at m (entry + rec_length r) (n - rec_length r) = rest
  /\ mem_get m entry = rec_type r /\ mem_get m (entry + 1) = rec_length r.
Proof.
  intros Hn E. pose proof (encode_length r) as El. pose proof (bytes_at_length m entry n Hn) as Eb. rewrite E, length_app in Eb.
  assert (2 <= rec_length r) by (unfold rec_length; lia).
  replace n with (rec_length r + (n - rec_length r)) in E by lia. rewrite bytes_at_app in E by lia.
  apply app_inj_1 in E as [E1 E2]; [|pose proof (bytes_at_length m entry (rec_length r)); lia].
  split_and!; [lia|done|done| |]; rewrite bytes_at_cons in E1 by lia; unfold encode_record in E1; injection E1 as Et E1; [done|].
  rewrite bytes_at_cons in E1 by lia. injection E1 as Ell _. done.
Qed.

Section walk.
Context (m : mem) (end_ lapic flags : Z).

Lemma walk_complete rs : forall fuel entry rs0 i tail,
  Forall record_wf rs -> (length tail <= 1)%nat -> entry <= end_ -> end_ - entry <= Z.of_nat fuel ->
  bytes_at m entry (end_ - entry) = concat (map encode_record rs) ++ tail ->
  Z.of_nat (length rs0 + length rs) <= UINT32_MAX -> describes lapic flags rs0 i ->
  exists i', madt_walk fuel m entry end_ i = (true, i') /\ describes lapic flags (rs0 ++ rs) i'.
Proof.
  induction rs as [|r rs IH]; intros fuel entry rs0 i tail Hwf Ht He Hf Hb Hn Hd.
  - exists i. rewrite app_nil_r. split; [|done]. cbn in Hb. pose proof (bytes_at_length m entry (end_ - entry) ltac:(lia)) as El.
    rewrite Hb in El. destruct fuel as [|fuel]; cbn [madt_walk]; [done|]. destruct (Z.leb_spec (entry + 2) end_); [lia|done].
  - cbn [map concat] in Hb. rewrite <- app_assoc in Hb. apply first_record in Hb as (Hle & Hr & Hrest & Et & El); [|lia].
    inversion_clear Hwf as [|? ? Hw Hwf']. unfold record_wf in Hw. assert (2 <= rec_length r) by (unfold rec_length; lia).
    destruct fuel as [|fuel]; [lia|]. cbn [madt_walk]. destruct (Z.leb_spec (entry + 2) end_); [|lia]. cbv zeta.
    rewrite Et, El. destruct (Z.ltb_spec (rec_length r) 2); [lia|]. destruct (Z.ltb_spec end_ (entry + rec_length r)); [lia|]. cbn [orb].
    replace (rs0 ++ r :: rs) with ((rs0 ++ [r]) ++ rs) by by rewrite <- app_assoc.
    apply (IH _ _ _ _ tail); [done|done|lia|lia| | |].
    + by replace (end_ - (entry + rec_length r)) with (end_ - entry - rec_length r) by lia.
    + rewrite length_app. cbn [length] in *. lia.
    + apply describes_snoc; [done| |done]. cbn [length] in Hn. lia.
Qed.

Lemma walk_sound fuel : forall entry i i',
  entry <= end_ -> end_ - entry <= Z.of_nat fuel -> madt_walk fuel m entry end_ i = (true, i') ->
  exists rs tail, Forall record_wf rs /\ (length tail <= 1)%nat /\
    bytes_at m entry (end_ - entry) = concat (map encode_record rs) ++ tail.
Proof.
  induction fuel as [|fuel IH]; intros entry i i' He Hf Hw.
  - exists [], []. split_and!; [constructor|cbn; lia|]. by replace (end_ - entry) with 0 by lia.
  - cbn [madt_walk] in Hw. destruct (Z.leb_spec (entry + 2) end_).
    + cbv zeta in Hw. set (n := mem_get m (entry + 1)) in *.
      destruct (Z.ltb_spec n 2); [done|]. destruct (Z.ltb_spec end_ (entry + n)); [done|]. cbn [orb] in Hw.
      apply IH in Hw as (rs & tail & Hwf & Ht & Hb); [|lia..].
      set (r := mk_record (mem_get m entry) (bytes_at m (entry + 2) (n - 2))).
      pose proof (bytes_at_length m (entry + 2) (n - 2) ltac:(lia)) as Hl. pose proof (mem_get_range m (entry + 1)) as Hr.
      assert (rec_length r = n) as En by (unfold rec_length, r; cbn [rec_payload]; lia).
      exists (r :: rs), tail. split_and!; [constructor; [unfold record_wf; unfold n in *; lia|done]|done|].
      cbn [map concat]. rewrite <- app_assoc, <- Hb. replace (end_ - entry) with (n + (end_ - (entry + n))) by lia.
      rewrite bytes_at_app by lia. f_equal. unfold encode_record. rewrite En.
      rewrite bytes_at_cons by lia. f_equal. rewrite bytes_at_cons by lia. f_equal. unfold r. cbn [rec_payload]. f_equal; lia.
    + exists [], (bytes_at m entry (end_ - entry)). split_and!; [constructor| |done].
      pose proof (bytes_at_length m entry (end_ - entry) ltac:(lia)). lia.
Qed.

End walk.

Lemma find_madt_valid m rsdp : find_madt m rsdp <> 0 -> sdt_valid m (find_madt m rsdp) = true.
Proof.
  unfold find_madt. case_if; [done|]. cbv zeta. case_if; [done|]. case_if; [done|].
  destruct (zfind _ _ _) as [j|] eqn:E; [|done]. apply zfind_Some in E as (_ & Hp & _). intros _. by apply andb_true_iff in Hp as [Hp _].
Qed.

Lemma count_exists p rs : nz (count_such p rs) = existsb p rs.
Proof.
  unfold count_such. induction rs as [|r rs IH]; [done|]. cbn [List.filter existsb]. destruct (p r); cbn [orb]; [|done].
  cbn [length]. unfold nz. destruct (Z.eqb_spec (Z.of_nat (S (length (List.filter p rs)))) 0); [lia|done].
Qed.

(** The state before the first record. *)
Definition madt_start (m : mem) (madt : Z) : acpi_info_t :=
  mk_acpi (madt_local_apic_address m madt) 0 0 1 12 0 0 (madt_flags m madt) 0 0.
Definition walk_table (m : mem) (madt : Z) : bool * acpi_info_t :=
  madt_walk (Z.to_nat (sdt_length m madt)) m (madt + MADT_SIZE) (madt + sdt_length m madt) (madt_start m madt).

Lemma acpi_init_found m b :
  bi_acpi_rsdp b <> 0 -> rsdp_accepted m (bi_acpi_rsdp b) = true ->
  let madt := find_madt m (bi_acpi_rsdp b) in madt <> 0 -> MADT_SIZE <= sdt_length m madt ->
  acpi_init m (Some b)
  = (fst (walk_table m madt) && (nz (acpi_local_apic_address (snd (walk_table m madt))) &&
                                 nz (acpi_enabled_cpu_count (snd (walk_table m madt)))), snd (walk_table m madt)).
Proof.
  intros Hr Ha madt Hm Hl. unfold acpi_init. assert (nz (bi_acpi_rsdp b) = true) as -> by (unfold nz; lia).
  rewrite Ha. cbn [negb]. fold madt. assert (nz madt = true) as -> by (unfold nz; lia).
  destruct (Z.ltb_spec (sdt_length m madt) MADT_SIZE); [lia|]. cbn [negb orb]. fold (madt_start m madt). fold (walk_table m madt).
  destruct (walk_table m madt) as [[] i]; done.
Qed.

Lemma walk_table_exact m madt :
  MADT_SIZE <= sdt_length m madt <= 0x100000 ->
  let '(ok, i) := walk_table m madt in
  (ok = true -> exists rs, table_is m madt rs) /\
  (forall rs, table_is m madt rs -> ok = true /\ describes (madt_local_apic_address m madt) (madt_flags m madt) rs i).
Proof.
  intros Hl. unfold MADT_SIZE in Hl. destruct (walk_table m madt) as [ok i] eqn:E. unfold walk_table in E.
  assert (madt + sdt_length m madt - (madt + MADT_SIZE) = sdt_length m madt - MADT_SIZE) as El by lia. split.
  - intros ->. apply walk_sound in E as (rs & tail & Hwf & Ht & Hb); [|unfold MADT_SIZE; lia..].
    exists rs. split; [done|]. exists tail. by rewrite <- El.
  - intros rs (Hwf & tail & Ht & Hb).
    assert (Z.of_nat (length rs) <= 0x100000) as Hn.
    { pose proof (bytes_at_length m (madt + MADT_SIZE) (sdt_length m madt - MADT_SIZE) ltac:(unfold MADT_SIZE; lia)) as Hbl.
      rewrite Hb, length_app in Hbl. pose proof (records_length rs). unfold MADT_SIZE in Hbl. lia. }
    destruct (walk_complete m (madt + sdt_length m madt) (madt_local_apic_address m madt) (madt_flags m madt) rs
                (Z.to_nat (sdt_length m madt)) (madt + MADT_SIZE) [] (madt_start m madt) tail) as (i' & Ew & Hd);
      [done|done|unfold MADT_SIZE; lia|unfold MADT_SIZE; lia|by rewrite El|cbn [length]; unfold UINT32_MAX; lia
      |by split_and!|].
    rewrite Ew in E. injection E as <- <-. done.
Qed.

(** C38: [acpi_init] decodes the firmware's interrupt table exactly.  When the root
    pointer passes its checks and the table is found, then either the table's
    bytes are a list of records (with at most one byte left over), and the result
    describes that list: the number of enabled processors, the first I/O
    controller that has an address, the last address given for the local
    controller, the last overrides of the keyboard's and the mouse's interrupt,
    and success exactly when there is a local controller and an enabled
    processor; or no list of records has these bytes and the answer is failure. *)
Theorem acpi_init_exact m b :
  bi_acpi_rsdp b <> 0 -> rsdp_accepted m (bi_acpi_rsdp b) = true ->
  let madt := find_madt m (bi_acpi_rsdp b) in
  madt <> 0 -> MADT_SIZE <= sdt_length m madt ->
  (exists rs, table_is m madt rs /\
     describes (madt_local_apic_address m madt) (madt_flags m madt) rs (snd (acpi_init m (Some b))) /\
     fst (acpi_init m (Some b))
       = nz (acpi_local_apic_address (snd (acpi_init m (Some b)))) && existsb is_enabled_cpu rs)
  \/ ((forall rs, ~ table_is m madt rs) /\ fst (acpi_init m (Some b)) = false).
Proof.
  intros Hr Ha madt Hm Hl. assert (sdt_valid m madt = true) as Hv by (by apply find_madt_valid).
  assert (sdt_length m madt <= 0x100000) as Hmax by (unfold sdt_valid in Hv; b2p; lia).
  rewrite (acpi_init_found m b Hr Ha Hm Hl). fold madt. pose proof (walk_table_exact m madt ltac:(lia)) as Hw.
  destruct (walk_table m madt) as [ok i]. destruct Hw as [Hs Hc]. cbn [fst snd]. destruct ok.
  - left. destruct (Hs eq_refl) as [rs Hrs]. destruct (Hc rs Hrs) as [_ Hd]. exists rs. split_and!; [done|done|].
    cbn [andb]. f_equal. destruct Hd as (_ & _ & _ & -> & _). apply count_exists.
  - right. split; [|done]. intros rs Hrs. by destruct (Hc rs Hrs).
Qed.

(** ** What is read *)

(** The bytes of a table: its length field, and, when the length is plausible,
    the table. *)
Definition table_region (m : mem) (header a : Z) : Prop :=
  header + 4 <= a < header + 8 \/
  (SDT_HEADER_SIZE <= sdt_length m header <= 0x100000 /\ header <= a < header + sdt_length m header).

(** The bytes of the tables reachable from the root pointer. *)
Definition acpi_region (m : mem) (rsdp a : Z) : Prop :=
  rsdp <= a < rsdp + RSDP_SIZE \/
  (RSDP_SIZE <= rsdp_length m rsdp <= 4096 /\ rsdp <= a < rsdp + rsdp_length m rsdp) \/
  (rsdp_accepted m rsdp = true /\ rsdp_xsdt_address m rsdp <> 0 /\
   (table_region m (rsdp_xsdt_address m rsdp) a \/
    (sdt_valid m (rsdp_xsdt_address m rsdp) = true /\
     exists i, 0 <= 8 * i < sdt_length m (rsdp_xsdt_address m rsdp) - SDT_HEADER_SIZE /\
       xsdt_entry m (rsdp_xsdt_address m rsdp) i <> 0 /\ table_region m (xsdt_entry m (rsdp_xsdt_address m rsdp) i) a))).

Section reads.
Context (m m' : mem).

Lemma load_same n a : (forall x, a <= x < a + Z.of_nat n -> mem_get m' x = mem_get m x) -> mem_load n m' a = mem_load n m a.
Proof. intros Hx. by apply le_read_ext. Qed.

Lemma zfind_same p q lo n : (forall j, lo <= j < lo + Z.of_nat n -> p j = q j) -> zfind p lo n = zfind q lo n.
Proof.
  revert lo. induction n as [|n IH]; intros lo E; [done|].
  change ((if p lo then Some lo else zfind p (lo + 1) n) = (if q lo then Some lo else zfind q (lo + 1) n)).
  rewrite E by lia. destruct (q lo); [done|]. apply IH. intros. apply E. lia.
Qed.

Lemma bytes_equal_same a b count :
  (forall x, a <= x < a + count -> mem_get m' x = mem_get m x) -> bytes_equal m' a b count = bytes_equal m a b count.
Proof.
  intros Hx. apply eq_true_iff_eq. unfold bytes_equal. rewrite !zall_true.
  split; intros Hz j Hj; specialize (Hz j Hj); rewrite Hx in * by lia; done.
Qed.

Lemma checksum_same a n :
  (forall x, a <= x < a + n -> mem_get m' x = mem_get m x) -> checksum_ok m' a n = checksum_ok m a n.
Proof.
  intros Hx. unfold checksum_ok, for_range. f_equal. rewrite Z.sub_0_r.
  set (z := 0) at 2 4.
  assert (forall j, j ∈ zrange 0 (Z.to_nat n) -> 0 <= j < n) as Hj by (intros j Hj; apply elem_of_zrange in Hj; lia).
  generalize z. induction (zrange 0 (Z.to_nat n)) as [|j l IH]; intros s; [done|]. cbn [fold_left].
  rewrite Hx by (specialize (Hj j ltac:(constructor)); lia). apply IH. intros k Hk. apply Hj. by constructor.
Qed.

Lemma sdt_valid_same header :
  (header <> 0 -> forall x, table_region m header x -> mem_get m' x = mem_get m x) ->
  sdt_valid m' header = sdt_valid m header /\ (header <> 0 -> sdt_length m' header = sdt_length m header).
Proof.
  intros Hx. unfold sdt_valid. unfold nz. destruct (Z.eqb_spec header 0) as [->|Hne]; [by split|]. cbn [negb andb].
  assert (sdt_length m' header = sdt_length m header) as El.
  { apply load_same. intros x Hr. apply Hx; [done|]. left. cbn in Hr. lia. }
  split; [|done]. rewrite El.
  destruct (Z.leb_spec SDT_HEADER_SIZE (sdt_length m header)); [|done]. destruct (Z.leb_spec (sdt_length m header) 0x100000); [|done].
  cbn [andb]. apply checksum_same. intros x Hr. apply Hx; [done|]. right. done.
Qed.

Lemma madt_entry_same entry type len i :
  (forall x, entry <= x < entry + len -> mem_get m' x = mem_get m x) ->
  madt_entry m' entry type len i = madt_entry m entry type len i.
Proof.
  intros Hx. unfold madt_entry.
  destruct (Z.leb_spec 8 len); destruct (Z.leb_spec 12 len); destruct (Z.leb_spec 10 len); rewrite ?andb_false_r; try lia;
    repeat match goal with
    | |- context [mem_load ?n m' ?a] => rewrite (load_same n a) by (intros; apply Hx; cbn in *; lia)
    | |- context [mem_get m' ?a] => rewrite (Hx a) by lia
    end; done.
Qed.

Lemma madt_walk_same fuel entry end_ i :
  (forall x, entry <= x < end_ -> mem_get m' x = mem_get m x) ->
  madt_walk fuel m' entry end_ i = madt_walk fuel m entry end_ i.
Proof.
  revert entry i. induction fuel as [|fuel IH]; intros entry i Hx; [done|]. cbn [madt_walk].
  destruct (Z.leb_spec (entry + 2) end_); [|done]. cbv zeta. rewrite !Hx by lia.
  destruct ((mem_get m (entry + 1) <? 2) || (end_ <? entry + mem_get m (entry + 1))) eqn:E; [done|]. b2p.
  rewrite madt_entry_same by (intros; apply Hx; lia). apply IH. intros. apply Hx. lia.
Qed.

Context (rsdp : Z) (Hsame : forall a, acpi_region m rsdp a -> mem_get m' a = mem_get m a).

Lemma rsdp_same :
  rsdp_accepted m' rsdp = rsdp_accepted m rsdp /\ rsdp_revision m' rsdp = rsdp_revision m rsdp /\
  rsdp_xsdt_address m' rsdp = rsdp_xsdt_address m rsdp.
Proof.
  assert (forall a, rsdp <= a < rsdp + 36 -> mem_get m' a = mem_get m a) as Hfix by (intros; apply Hsame; by left).
  assert (rsdp_revision m' rsdp = rsdp_revision m rsdp) as Er by (apply Hfix; lia).
  assert (rsdp_length m' rsdp = rsdp_length m rsdp) as El by (apply load_same; intros; apply Hfix; cbn in *; lia).
  assert (rsdp_xsdt_address m' rsdp = rsdp_xsdt_address m rsdp) as Ex by (apply load_same; intros; apply Hfix; cbn in *; lia).
  split_and!; [|done|done]. unfold rsdp_accepted. rewrite Er, El.
  rewrite bytes_equal_same, (checksum_same rsdp 20) by (intros; apply Hfix; lia).
  destruct (Z.leb_spec RSDP_SIZE (rsdp_length m rsdp)); [|by rewrite !andb_false_r].
  destruct (Z.leb_spec (rsdp_length m rsdp) 4096); [|by rewrite !andb_false_r].
  rewrite (checksum_same rsdp (rsdp_length m rsdp)); [done|]. intros. apply Hsame. right. left. done.
Qed.

(** A table listed in the XSDT. *)
Definition listed (header : Z) : Prop :=
  sdt_valid m (rsdp_xsdt_address m rsdp) = true /\
  exists i, 0 <= 8 * i < sdt_length m (rsdp_xsdt_address m rsdp) - SDT_HEADER_SIZE /\
    xsdt_entry m (rsdp_xsdt_address m rsdp) i = header.

Lemma listed_same header :
  rsdp_accepted m rsdp = true -> rsdp_xsdt_address m rsdp <> 0 -> listed header -> header <> 0 ->
  forall x, table_region m header x -> mem_get m' x = mem_get m x.
Proof.
  intros Ha Hx (Hv & i & Hi & <-) Hne x Hr. apply Hsame. right. right. split_and!; [done|done|]. right. split; [done|]. eauto.
Qed.

Lemma find_madt_same :
  rsdp_accepted m rsdp = true ->
  find_madt m' rsdp = find_madt m rsdp /\ (find_madt m rsdp <> 0 -> rsdp_xsdt_address m rsdp <> 0 /\ listed (find_madt m rsdp)).
Proof.
  intros Ha. destruct rsdp_same as (_ & Er & Ex). unfold find_madt. rewrite Er, Ex. case_if; [done|]. b2p. cbv zeta.
  set (xsdt := rsdp_xsdt_address m rsdp) in *.
  assert (forall x, table_region m xsdt x -> mem_get m' x = mem_get m x) as Hxs.
  { intros x Hr. apply Hsame. right. right. split_and!; [done|done|]. by left. }
  destruct (sdt_valid_same xsdt ltac:(auto)) as [Ev El]. rewrite Ev, El by done.
  destruct (sdt_valid m xsdt) eqn:Hv; [|done]. cbn [negb orb].
  assert (SDT_HEADER_SIZE <= sdt_length m xsdt <= 0x100000) as Hl by (unfold sdt_valid in Hv; b2p; lia). unfold SDT_HEADER_SIZE in Hl.
  rewrite bytes_equal_same by (intros; apply Hxs; right; unfold SDT_HEADER_SIZE; lia). case_if; [done|]. case_if; [done|].
  assert (forall j, 0 <= j < 0 + Z.of_nat (Z.to_nat ((sdt_length m xsdt - SDT_HEADER_SIZE) / 8)) ->
            xsdt_entry m' xsdt j = xsdt_entry m xsdt j /\ listed (xsdt_entry m xsdt j)) as Hj.
  { intros j Hj. unfold SDT_HEADER_SIZE in Hj. pose proof (Z.mul_div_le (sdt_length m xsdt - 36) 8 ltac:(lia)).
    assert (0 <= (sdt_length m xsdt - 36) / 8) by (apply Z.div_pos; lia). split.
    - apply load_same. intros x Hr. apply Hxs. right. unfold SDT_HEADER_SIZE in *. cbn in Hr. lia.
    - split; [done|]. exists j. split; [unfold SDT_HEADER_SIZE; fold xsdt; lia|done]. }
  rewrite (zfind_same _ (fun i => sdt_valid m (xsdt_entry m xsdt i) && bytes_equal m (xsdt_entry m xsdt i) APIC_SIGNATURE 4)).
  - destruct (zfind _ _ _) as [j|] eqn:Ej; [|done]. apply zfind_Some in Ej as (Hr & _). destruct (Hj j Hr) as [-> Hlj]. done.
  - intros j Hr. destruct (Hj j Hr) as [-> Hlj].
    assert (xsdt_entry m xsdt j <> 0 -> forall x, table_region m (xsdt_entry m xsdt j) x -> mem_get m' x = mem_get m x) as Ht.
    { intros Hne. by apply listed_same. }
    destruct (sdt_valid_same _ Ht) as [-> _]. destruct (sdt_valid m (xsdt_entry m xsdt j)) eqn:Hvj; [|done]. cbn [andb].
    unfold sdt_valid in Hvj. b2p. apply bytes_equal_same. intros x Hr'. apply Ht; [done|]. right. unfold SDT_HEADER_SIZE in *. lia.
Qed.

End reads.

(** [acpi_init] reads only the firmware's tables: two memories that agree on the
    root pointer, on the tables it leads to and on their length fields give the
    same result, whatever the other bytes are.  A table whose length is not
    plausible is not read beyond its length field, and no table is followed
    before its checksum has been found right. *)
Theorem acpi_reads_confined m m' b :
  (forall a, acpi_region m (bi_acpi_rsdp b) a -> mem_get m' a = mem_get m a) ->
  acpi_init m' (Some b) = acpi_init m (Some b).
Proof.
  intros Hsame. destruct (rsdp_same m m' _ Hsame) as (Ea & _ & _). unfold acpi_init. rewrite Ea.
  case_if; [done|]. cbv zeta. destruct (rsdp_accepted m (bi_acpi_rsdp b)) eqn:Ha; [|done]. cbn [negb].
  destruct (find_madt_same m m' _ Hsame Ha) as [-> Hl]. set (madt := find_madt m (bi_acpi_rsdp b)) in *.
  destruct (nz madt) eqn:Hz; [|done]. cbn [negb orb]. unfold nz in Hz. b2p. destruct (Hl Hz) as [Hx Hlisted].
  pose proof (listed_same m m' _ Hsame madt Ha Hx Hlisted Hz) as Ht. destruct (sdt_valid_same m m' madt ltac:(auto)) as [_ El].
  rewrite El by done. destruct (Z.ltb_spec (sdt_length m madt) MADT_SIZE); [done|].
  assert (sdt_valid m madt = true) as Hv by (by apply find_madt_valid).
  assert (forall x, madt <= x < madt + sdt_length m madt -> mem_get m' x = mem_get m x) as Hm.
  { intros x Hr. apply Ht. right. unfold sdt_valid in Hv. b2p. lia. }
  unfold MADT_SIZE in *. unfold madt_local_apic_address, madt_flags.
  rewrite !(load_same m m' 4) by (intros; apply Hm; cbn in *; lia). by rewrite (madt_walk_same m m') by (intros; apply Hm; lia).
Qed.

(** ** A machine with one processor, one I/O controller and an override *)

Definition sample_rsdp : list Z :=
  [82; 83; 68; 32; 80; 84; 82; 32; 89; 65; 65; 65; 65; 65; 65; 2; 0; 0; 0; 0; 36; 0; 0; 0; 0; 32; 0; 0; 0; 0; 0; 0;
   188; 0; 0; 0].
Definition sample_xsdt : list Z :=
  [88; 83; 68; 84; 44; 0; 0; 0; 1; 196; 65; 65; 65; 65; 65; 65; 66; 66; 66; 66; 66; 66; 66; 66; 1; 0; 0; 0; 2; 0; 0;
   0; 3; 0; 0; 0; 0; 48; 0; 0; 0; 0; 0; 0].
Definition sample_madt : list Z :=
  [65; 80; 73; 67; 74; 0; 0; 0; 1; 38; 65; 65; 65; 65; 65; 65; 66; 66; 66; 66; 66; 66; 66; 66; 1; 0; 0; 0; 2; 0; 0; 0;
   3; 0; 0; 0; 0; 0; 224; 254; 1; 0; 0; 0; 0; 8; 0; 0; 1; 0; 0; 0; 1; 12; 0; 0; 0; 0; 192; 254; 0; 0; 0; 0; 2; 10; 0;
   1; 9; 0; 0; 0; 13; 0].
Definition sample_tables : mem :=
  list_to_map (zip (zrange 0x1000 36) sample_rsdp ++ zip (zrange 0x2000 44) sample_xsdt ++ zip (zrange 0x3000 74) sample_madt).
Definition sample_boot : boot_info_t :=
  mk_boot_info ARGUS_BOOT_INFO_MAGIC 1 1 1 (mk_map None 0 0 0 0 0) (mk_framebuffer 0 0 0 0 0 0 0) 0x1000 (mk_range 0 0) (mk_range 0 0)
    (mk_range 0 0) (mk_range 0 0) (mk_range 0 0) (mk_range 0 0) 0 0.

Lemma acpi_init_exact_witness :
  fst (acpi_init sample_tables (Some sample_boot)) = true /\
  exists rs, table_is sample_tables 0x3000 rs /\ existsb is_enabled_cpu rs = true /\
    (acpi_keyboard_gsi (snd (acpi_init sample_tables (Some sample_boot))),
     acpi_keyboard_flags (snd (acpi_init sample_tables (Some sample_boot))))
      = match last_such (overrides 1) rs with Some r => (field r 4 4, field r 8 2) | None => (1, 0) end.
Proof.
  assert (fst (acpi_init sample_tables (Some sample_boot)) = true) as Hok by (vm_compute; reflexivity).
  split; [exact Hok|].
  destruct (acpi_init_exact sample_tables sample_boot) as [(rs & Ht & Hd & Hf)|[_ Hf]].
  - vm_compute. discriminate.
  - vm_compute. reflexivity.
  - vm_compute. discriminate.
  - vm_compute. discriminate.
  - exists rs. rewrite Hok in Hf. symmetry in Hf. apply andb_true_iff in Hf as [_ He].
    assert (find_madt sample_tables (bi_acpi_rsdp sample_boot) = 0x3000) as Em by (vm_compute; reflexivity). rewrite Em in Ht.
    split; [exact Ht|]. split; [exact He|]. destruct Hd as (_ & _ & _ & _ & _ & _ & Hk & _). exact Hk.
  - exfalso. rewrite Hok in Hf. discriminate.
Defined.

Lemma acpi_reads_confined_witness :
  acpi_init (mem_set sample_tables 0x5000 7) (Some sample_boot) = acpi_init sample_tables (Some sample_boot).
Proof.
  apply acpi_reads_confined. intros a Ha. apply mem_get_set_ne. intros <-. change (bi_acpi_rsdp sample_boot) with 0x1000 in Ha.
  assert (rsdp_length sample_tables 0x1000 = 36) as El by (vm_compute; reflexivity).
  assert (rsdp_xsdt_address sample_tables 0x1000 = 0x2000) as Ex by (vm_compute; reflexivity).
  assert (sdt_length sample_tables 0x2000 = 44) as Exl by (vm_compute; reflexivity).
  assert (xsdt_entry sample_tables 0x2000 0 = 0x3000) as Ee by (vm_compute; reflexivity).
  assert (sdt_length sample_tables 0x3000 = 74) as Eml by (vm_compute; reflexivity).
  unfold acpi_region, table_region in Ha. rewrite El, Ex, Exl in Ha. unfold RSDP_SIZE, SDT_HEADER_SIZE in Ha.
  destruct Ha as [Ha|[Ha|(_ & _ & [Ha|(_ & i & Hi & _ & Ha)])]]; [lia|lia|lia|].
  assert (i = 0) as -> by lia. rewrite Ee, Eml in Ha. lia.
Defined.
