(* ===== verification/Module.v ===== *)
(** * Module descriptors (src/module.c, src/module_abi.h, src/ramfs_abi.h,
      src/fat32_abi.h, src/net_abi.h)

    The kernel's Rust components hand it tables of functions.  A function of a
    table is a Rocq function on the component's state and the buffers it is
    given, and [None] where the pointer is null; what the functions do is not
    assumed.  A C string is the list of its bytes; reading past its end gives the
    terminating zero. *)

From stdpp Require Import base list gmap numbers.
From Stdlib Require Import ZArith Lia.
From S2P Require Import Prelude Memory Block.

Open Scope Z_scope.

Definition ARGUS_MODULE_ABI_VERSION : Z := 1.
Definition ARGUS_MODULE_NAME_CAPACITY : Z := 24.
Definition ARGUS_RAMFS_ABI_VERSION : Z := 1.
Definition ARGUS_FAT32_ABI_VERSION : Z := 1.
Definition ARGUS_NET_ABI_VERSION : Z := 1.
Definition ARGUS_NET_MAX_FRAME : Z := 1514.
Definition ARGUS_NET_QUEUE_CAPACITY : Z := 8.

Record argus_module_v1_t := mk_module {
  mo_abi_version : Z;
  mo_struct_size : Z;
  mo_name : list Z;
  mo_checksum : option (option (list Z) -> Z -> Z) }.

(** The results of a function with out-parameters are its status and the new
    values of what the pointers designate. *)
Record argus_ramfs_v1_t (R : Type) := mk_ramfs {
  rf_abi_version : Z;
  rf_struct_size : Z;
  rf_name : list Z;
  rf_state_size : Z;
  rf_state_alignment : Z;
  rf_max_files : Z;
  rf_max_path : Z;
  rf_max_data : Z;
  rf_reserved : Z;
  rf_initialize : option (R -> Z -> Z * R);
  rf_write : option (R -> list Z -> Z -> option (list Z) -> Z -> Z * R);
  rf_read : option (R -> list Z -> Z -> option (list Z) -> Z -> Z -> Z * (option (list Z) * Z));
  rf_entry : option (R -> Z -> list Z -> Z -> Z -> Z -> Z * (list Z * Z * Z));
  rf_remove : option (R -> list Z -> Z -> Z * R) }.
Arguments mk_ramfs {R}.
Arguments rf_abi_version {R}.
Arguments rf_struct_size {R}.
Arguments rf_name {R}.
Arguments rf_state_size {R}.
Arguments rf_state_alignment {R}.
Arguments rf_max_files {R}.
Arguments rf_max_path {R}.
Arguments rf_max_data {R}.
Arguments rf_reserved {R}.
Arguments rf_initialize {R}.
Arguments rf_write {R}.
Arguments rf_read {R}.
Arguments rf_entry {R}.
Arguments rf_remove {R}.

Record argus_fat32_info_v1_t := mk_fat32_info {
  fi_bytes_per_sector : Z;
  fi_sectors_per_cluster : Z;
  fi_fat_count : Z;
  fi_root_cluster : Z;
  fi_total_sectors : Z;
  fi_data_clusters : Z;
  fi_first_data_sector : Z }.

Record argus_fat32_v1_t (F : Type) := mk_fat32 {
  ff_abi_version : Z;
  ff_struct_size : Z;
  ff_name : list Z;
  ff_state_size : Z;
  ff_state_alignment : Z;
  ff_max_path : Z;
  ff_max_read : Z;
  ff_reserved0 : Z;
  ff_reserved1 : Z;
  ff_mount : option (F -> Z -> argus_block_device_v1_t -> Z * F);
  ff_info : option (F -> argus_fat32_info_v1_t -> Z * argus_fat32_info_v1_t);
  ff_entry : option (F -> argus_block_device_v1_t -> Z -> list Z -> Z -> Z -> Z -> Z -> Z * (list Z * Z * Z * Z));
  ff_read : option (F -> argus_block_device_v1_t -> list Z -> Z -> option (list Z) -> Z -> Z -> Z * (option (list Z) * Z)) }.
Arguments mk_fat32 {F}.
Arguments ff_abi_version {F}.
Arguments ff_struct_size {F}.
Arguments ff_name {F}.
Arguments ff_state_size {F}.
Arguments ff_state_alignment {F}.
Arguments ff_max_path {F}.
Arguments ff_max_read {F}.
Arguments ff_reserved0 {F}.
Arguments ff_reserved1 {F}.
Arguments ff_mount {F}.
Arguments ff_info {F}.
Arguments ff_entry {F}.
Arguments ff_read {F}.

(** [inspect] is only ever given null pointers by the C code. *)
Record argus_net_v1_t (N : Type) := mk_net {
  nt_abi_version : Z;
  nt_struct_size : Z;
  nt_name : list Z;
  nt_state_size : Z;
  nt_state_alignment : Z;
  nt_max_frame : Z;
  nt_queue_capacity : Z;
  nt_reserved0 : Z;
  nt_reserved1 : Z;
  nt_initialize : option (N -> Z -> Z * N);
  nt_inspect : option (option (list Z) -> Z -> Z);
  nt_enqueue : option (N -> Z -> list Z -> Z -> Z * N);
  nt_dequeue : option (N -> Z -> list Z -> Z -> Z -> Z * (N * list Z * Z));
  nt_tcp_transition : option (Z -> Z -> Z -> Z * Z);
  nt_self_test : option Z }.
Arguments mk_net {N}.
Arguments nt_abi_version {N}.
Arguments nt_struct_size {N}.
Arguments nt_name {N}.
Arguments nt_state_size {N}.
Arguments nt_state_alignment {N}.
Arguments nt_max_frame {N}.
Arguments nt_queue_capacity {N}.
Arguments nt_reserved0 {N}.
Arguments nt_reserved1 {N}.
Arguments nt_initialize {N}.
Arguments nt_inspect {N}.
Arguments nt_enqueue {N}.
Arguments nt_dequeue {N}.
Arguments nt_tcp_transition {N}.
Arguments nt_self_test {N}.

(** A pointer that is not null. *)
Definition present {A} (p : option A) : bool := match p with Some _ => true | None => false end.

(** The loop of [valid_name] is the one of src/block.c. *)
Definition module_valid_name (name : list Z) : bool := name_ok name 0 (Z.to_nat ARGUS_MODULE_NAME_CAPACITY).

(** [reference_fnv1a] *)
Definition reference_fnv1a (bytes : list Z) (length : Z) : Z :=
  for_range 0 length (fun i hash => u64 (Z.lxor hash (u8 (zget 0 bytes i)) * 1099511628211)) 14695981039346656037.

Section module.
Context {R F N : Type}.
Abbreviation argus_ramfs_v1_t := (argus_ramfs_v1_t R).
Abbreviation argus_fat32_v1_t := (argus_fat32_v1_t F).
Abbreviation argus_net_v1_t := (argus_net_v1_t N).

Definition valid_descriptor (module : option argus_module_v1_t) : bool :=
  match module with
  | None => false
  | Some module =>
      (mo_abi_version module =? ARGUS_MODULE_ABI_VERSION) && (mo_struct_size module =? 40) &&
      module_valid_name (mo_name module) && present (mo_checksum module)
  end.

Definition valid_ramfs_descriptor (module : option argus_ramfs_v1_t) : bool :=
  match module with
  | None => false
  | Some module =>
      (rf_abi_version module =? ARGUS_RAMFS_ABI_VERSION) && (rf_struct_size module =? 96) &&
      module_valid_name (rf_name module) && nz (rf_state_size module) && nz (rf_state_alignment module) &&
      nz (rf_max_files module) && nz (rf_max_path module) && nz (rf_max_data module) && (rf_reserved module =? 0) &&
      present (rf_initialize module) && present (rf_write module) && present (rf_read module) &&
      present (rf_entry module) && present (rf_remove module)
  end.

Definition valid_fat32_descriptor (module : option argus_fat32_v1_t) : bool :=
  match module with
  | None => false
  | Some module =>
      (ff_abi_version module =? ARGUS_FAT32_ABI_VERSION) && (ff_struct_size module =? 88) &&
      module_valid_name (ff_name module) && nz (ff_state_size module) && nz (ff_state_alignment module) &&
      nz (ff_max_path module) && nz (ff_max_read module) && (ff_reserved0 module =? 0) && (ff_reserved1 module =? 0) &&
      present (ff_mount module) && present (ff_info module) && present (ff_entry module) && present (ff_read module)
  end.

Definition valid_net_descriptor (module : option argus_net_v1_t) : bool :=
  match module with
  | None => false
  | Some module =>
      (nt_abi_version module =? ARGUS_NET_ABI_VERSION) && (nt_struct_size module =? 104) &&
      module_valid_name (nt_name module) && nz (nt_state_size module) && nz (nt_state_alignment module) &&
      ((nt_state_alignment module & (nt_state_alignment module - 1)) =? 0) &&
      (nt_max_frame module =? ARGUS_NET_MAX_FRAME) && (nt_queue_capacity module =? ARGUS_NET_QUEUE_CAPACITY) &&
      (nt_reserved0 module =? 0) && (nt_reserved1 module =? 0) &&
      present (nt_initialize module) && present (nt_inspect module) && present (nt_enqueue module) &&
      present (nt_dequeue module) && present (nt_tcp_transition module) && present (nt_self_test module)
  end.

(** The four static pointers of src/module.c. *)
Record module_state := mk_modules {
  checksum_module : option argus_module_v1_t;
  ramfs_module : option argus_ramfs_v1_t;
  fat32_module : option argus_fat32_v1_t;
  net_module : option argus_net_v1_t }.

Definition all_valid (s : module_state) : bool :=
  valid_descriptor (checksum_module s) && valid_ramfs_descriptor (ramfs_module s) &&
  valid_fat32_descriptor (fat32_module s) && valid_net_descriptor (net_module s).

(** The arguments are what the four Rust entry functions return. *)
Definition module_init (entries : module_state) : bool * module_state :=
  if negb (all_valid entries) then (false, mk_modules None None None None) else (true, entries).

Definition probe : list Z :=
  [65; 114; 103; 117; 115; 79; 83; 32; 109; 111; 100; 117; 108; 101; 32; 65; 66; 73; 32; 118; 49].

Definition module_self_test (s : module_state) : bool :=
  if negb (all_valid s) then false
  else
    match checksum_module s, net_module s with
    | Some c, Some n =>
        match mo_checksum c, nt_self_test n with
        | Some checksum, Some self_test =>
            let length := Z.of_nat (length probe) in
            (checksum (Some probe) length =? reference_fnv1a probe length) &&
            (checksum None 0 =? reference_fnv1a [] 0) && (self_test =? 1)
        | _, _ => false
        end
    | _, _ => false
    end.

Definition module_count (s : module_state) : Z :=
  if present (checksum_module s) && present (ramfs_module s) && present (fat32_module s) && present (net_module s) then 4 else 0.

Definition module_name_at (s : module_state) (index : Z) : option (list Z) :=
  if (index =? 0) && present (checksum_module s) then option_map mo_name (checksum_module s)
  else if (index =? 1) && present (ramfs_module s) then option_map rf_name (ramfs_module s)
  else if (index =? 2) && present (fat32_module s) then option_map ff_name (fat32_module s)
  else if (index =? 3) && present (net_module s) then option_map nt_name (net_module s)
  else None.

Definition module_abi_version_at (s : module_state) (index : Z) : Z :=
  if (index =? 0) && present (checksum_module s) then default 0 (option_map mo_abi_version (checksum_module s))
  else if (index =? 1) && present (ramfs_module s) then default 0 (option_map rf_abi_version (ramfs_module s))
  else if (index =? 2) && present (fat32_module s) then default 0 (option_map ff_abi_version (fat32_module s))
  else if (index =? 3) && present (net_module s) then default 0 (option_map nt_abi_version (net_module s))
  else 0.

Definition module_net_descriptor (s : module_state) : option argus_net_v1_t :=
  if valid_net_descriptor (net_module s) then net_module s else None.

(** ** Theorems *)

(** The network descriptor the kernel uses is valid. *)
Lemma module_net_descriptor_valid s d : module_net_descriptor s = Some d -> valid_net_descriptor (Some d) = true.
Proof. unfold module_net_descriptor. case_if; [|done]. by intros <-. Qed.

(** Modules are all there or none is: [module_init] succeeds exactly on four valid
    descriptors, publishes all four then and otherwise none, and the published
    count, names and versions agree with that. *)
Theorem module_init_all_or_nothing entries :
  let '(ok, s) := module_init entries in
  ok = all_valid entries /\ module_count s = (if ok then 4 else 0) /\
  (forall index, is_Some (module_name_at s index) <-> ok = true /\ 0 <= index < 4) /\
  (forall index, module_abi_version_at s index = if ok && (0 <=? index) && (index <? 4) then 1 else 0).
Proof.
  unfold module_init. destruct (all_valid entries) eqn:E; cbn [negb].
  - destruct entries as [[c|] [r|] [f|] [n|]]; unfold all_valid in E; rewrite ?andb_false_r in E; try done. cbn in E. b2p.
    split_and!; [done|done| |]; intros index; unfold module_name_at, module_abi_version_at; cbn.
    + assert (index = 0 \/ index = 1 \/ index = 2 \/ index = 3 \/ ~ 0 <= index < 4) as [->|[->|[->|[->|Hx]]]] by lia;
        [cbn; split; [lia|eauto]..|]. repeat (case_if; [lia|]). split; [by intros []|lia].
    + assert (index = 0 \/ index = 1 \/ index = 2 \/ index = 3 \/ ~ 0 <= index < 4) as [->|[->|[->|[->|Hx]]]] by lia;
        [done..|]. repeat (case_if; [lia|]). destruct (Z.leb_spec 0 index); destruct (Z.ltb_spec index 4); try done; lia.
  - split_and!; [done|done| |]; intros index; unfold module_name_at, module_abi_version_at; cbn; rewrite !andb_false_r;
      [|done]. split; [by intros []|by intros [? _]].
Qed.

End module.
Arguments module_state : clear implicits.
