(* ===== verification/Net.v ===== *)
(** * The network foundation (src/net.c, src/net.h)

    The kernel takes ownership of the first network function, keeps it
    quarantined, checks that it is a modern virtio device and creates the one
    raw-network capability of the system, held by the kernel for the Tor
    transport.  No operation enables DMA or egress. *)

From stdpp Require Import base list gmap numbers.
From Stdlib Require Import ZArith Lia.
From S2P Require Import Prelude Memory Capability Anonymity BootInfo Allocator Pmm Paging Scheduler Devices Block Pci Module.

Open Scope Z_scope.

Definition NET_STATE_STORAGE_BYTES : Z := 32768.
Definition NET_AUTHORITY_PRINCIPAL : Z := 0x4E45542D4B45524E.
Definition PCI_CAPABILITY_VENDOR : Z := 0x09.
Definition VIRTIO_VENDOR_ID : Z := 0x1AF4.
Definition VIRTIO_NET_MODERN_DEVICE_ID : Z := 0x1041.
Definition VIRTIO_PCI_CAP_COMMON_CFG : Z := 1.
Definition VIRTIO_PCI_CAP_NOTIFY_CFG : Z := 2.
Definition VIRTIO_PCI_CAP_ISR_CFG : Z := 3.
Definition VIRTIO_PCI_CAP_DEVICE_CFG : Z := 4.
Definition VIRTIO_COMMON_MIN_BYTES : Z := 56.
Definition VIRTIO_CAP_MIN_BYTES : Z := 16.
Definition VIRTIO_NOTIFY_CAP_MIN_BYTES : Z := 20.

Definition ARGUS_NET_OK : Z := 0.
Definition ARGUS_NET_INVALID : Z := -1.
Definition ARGUS_NET_QUEUE_EMPTY : Z := -7.
Definition ARGUS_NET_STATE_ERROR : Z := -8.
Definition ARGUS_NET_QUEUE_INGRESS : Z := 0.
Definition ARGUS_TCP_STATE_CLOSED : Z := 0.
Definition ARGUS_TCP_STATE_SYN_SENT : Z := 1.
Definition ARGUS_TCP_EVENT_ACTIVE_OPEN : Z := 1.
Definition ARGUS_TCP_EVENT_DATA : Z := 3.

Record net_info_t := mk_net_info {
  ni_device_count : Z;
  ni_vendor_id : Z;
  ni_device_id : Z;
  ni_bus : Z;
  ni_device : Z;
  ni_function : Z;
  ni_present : bool;
  ni_virtio_modern : bool;
  ni_quarantined : bool;
  ni_dma_enabled : bool;
  ni_egress_enabled : bool;
  ni_owner_role : Z;
  ni_core_state_size : Z;
  ni_max_frame : Z;
  ni_queue_capacity : Z }.
Definition net_info0 : net_info_t := mk_net_info 0 0 0 0 0 0 false false false false false 0 0 0 0.

(** [published] after the core's fields are filled in. *)
Definition info_core {N} (core : argus_net_v1_t N) : net_info_t :=
  mk_net_info 0 0 0 0 0 0 false false false false false ARGUS_SECURITY_ROLE_TOR_TRANSPORT
    (nt_state_size core) (nt_max_frame core) (nt_queue_capacity core).
Definition info_count (i : net_info_t) (count : Z) : net_info_t :=
  mk_net_info count (ni_vendor_id i) (ni_device_id i) (ni_bus i) (ni_device i) (ni_function i) (ni_present i)
    (ni_virtio_modern i) (ni_quarantined i) (ni_dma_enabled i) (ni_egress_enabled i) (ni_owner_role i)
    (ni_core_state_size i) (ni_max_frame i) (ni_queue_capacity i).
Definition info_device (i : net_info_t) (d : pci_device_t) (quarantined virtio : bool) : net_info_t :=
  mk_net_info (ni_device_count i) (pd_vendor_id d) (pd_device_id d) (pd_bus d) (pd_device d) (pd_function d) true
    virtio quarantined (ni_dma_enabled i) (ni_egress_enabled i) (ni_owner_role i)
    (ni_core_state_size i) (ni_max_frame i) (ni_queue_capacity i).

(** ** The virtio transport *)

Section virtio.
Context {D : Type} `{Hardware D}.
Implicit Types hw : D.

Definition valid_memory_bar hw (device : pci_device_t) (bar : Z) : bool * D :=
  if 6 <=? bar then (false, hw)
  else
    let offset := u8 (0x10 + bar * 4) in
    let '(value, hw) := pci_config_read32 hw device offset in
    if (value =? UINT32_MAX) || nz (value & 1) then (false, hw)
    else if ((value & 6) =? 4) && (bar =? 5) then (false, hw)
    else (true, hw).

Definition capability_region_valid hw (device : pci_device_t) (capability capability_length type : Z) : bool * D :=
  if (0xF0 <? capability) || (capability_length <? VIRTIO_CAP_MIN_BYTES) then (false, hw)
  else
    let '(bar_data, hw) := pci_config_read32 hw device (capability + 4) in
    let '(offset, hw) := pci_config_read32 hw device (capability + 8) in
    let '(length, hw) := pci_config_read32 hw device (capability + 12) in
    if (bar_data =? UINT32_MAX) || (offset =? UINT32_MAX) || (length =? UINT32_MAX) || negb (nz length) ||
       (UINT32_MAX - length <? offset) then (false, hw)
    else
      let '(bar_ok, hw) := valid_memory_bar hw device (u8 bar_data) in
      if negb bar_ok then (false, hw)
      else if type =? VIRTIO_PCI_CAP_COMMON_CFG then (VIRTIO_COMMON_MIN_BYTES <=? length, hw)
      else if type =? VIRTIO_PCI_CAP_NOTIFY_CFG then
        if (0xEC <? capability) || (capability_length <? VIRTIO_NOTIFY_CAP_MIN_BYTES) || (length <? 2) then (false, hw)
        else
          let '(multiplier, hw) := pci_config_read32 hw device (capability + 16) in
          ((multiplier !=? UINT32_MAX) &&
           (negb (nz multiplier) || (negb (nz (multiplier & 1)) && negb (nz (multiplier & u32 (multiplier - 1))))), hw)
      else if type =? VIRTIO_PCI_CAP_ISR_CFG then (1 <=? length, hw)
      else if type =? VIRTIO_PCI_CAP_DEVICE_CFG then (true, hw)
      else (false, hw).

(** The walk over the capability list: [None] is [return 0], otherwise the types
    [found]. *)
Fixpoint virtio_walk (count : nat) hw (device : pci_device_t) (capability visited found : Z) : option Z * D :=
  if negb (nz capability) then (Some found, hw)
  else
    match count with
    | O => (None, hw)
    | S count' =>
        if (capability <? 0x40) || (0xFC <? capability) then (None, hw)
        else
          let bit := 1 << (capability >> 2) in
          if nz (visited & bit) then (None, hw)
          else
            let visited := Z.lor visited bit in
            let '(header, hw) := pci_config_read32 hw device capability in
            if header =? UINT32_MAX then (None, hw)
            else
              let identifier := u8 header in
              let next := u8 (header >> 8) in
              if nz (next & 3) then (None, hw)
              else
                let length := u8 (header >> 16) in
                let type := u8 (header >> 24) in
                if (identifier =? PCI_CAPABILITY_VENDOR) && (VIRTIO_PCI_CAP_COMMON_CFG <=? type) &&
                   (type <=? VIRTIO_PCI_CAP_DEVICE_CFG)
                then
                  let '(ok, hw) := capability_region_valid hw device capability length type in
                  if negb ok then (None, hw)
                  else virtio_walk count' hw device next visited (Z.lor found (1 << type))
                else virtio_walk count' hw device next visited found
    end.

Definition VIRTIO_REQUIRED : Z :=
  Z.lor (Z.lor (1 << VIRTIO_PCI_CAP_COMMON_CFG) (1 << VIRTIO_PCI_CAP_NOTIFY_CFG)) (1 << VIRTIO_PCI_CAP_ISR_CFG).

Definition virtio_modern_transport_valid hw (device : pci_device_t) : bool * D :=
  if (pd_vendor_id device !=? VIRTIO_VENDOR_ID) || (pd_device_id device !=? VIRTIO_NET_MODERN_DEVICE_ID) ||
     (pd_class_code device !=? 0x02) then (false, hw)
  else
    let '(command_status, hw) := pci_config_read32 hw device 0x04 in
    if (command_status =? UINT32_MAX) || negb (nz ((command_status >> 16) & PCI_STATUS_CAPABILITIES)) then (false, hw)
    else
      let '(capability, hw) := config_read8 hw device PCI_CAPABILITY_POINTER in
      if nz (capability & 3) then (false, hw)
      else
        let '(found, hw) := virtio_walk 48 hw device capability 0 0 in
        match found with
        | None => (false, hw)
        | Some found => ((found & VIRTIO_REQUIRED) =? VIRTIO_REQUIRED, hw)
        end.

End virtio.

Definition device_object (device : pci_device_t) : Z :=
  Z.lor (Z.lor (Z.lor (pd_bus device << 32) (pd_device device << 16)) (pd_function device << 8)) 1.

(** ** The component *)

Record net_state (N : Type) := mk_net_state {
  core : option (argus_net_v1_t N);
  published : net_info_t;
  owned_device : pci_device_t;
  authority : argus_capability_table_t;
  authority_handle : Z;
  authority_object : Z;
  validated : bool;
  state_storage : N }.
Arguments mk_net_state {N}.
Arguments core {N}.
Arguments published {N}.
Arguments owned_device {N}.
Arguments authority {N}.
Arguments authority_handle {N}.
Arguments authority_object {N}.
Arguments validated {N}.
Arguments state_storage {N}.

Definition net_egress_allowed : bool := false.

Section net.
Context {N D : Type} `{Hardware D}.
Implicit Types (s : net_state N) (hw : D).

Definition net_set_published s (i : net_info_t) : net_state N :=
  mk_net_state (core s) i (owned_device s) (authority s) (authority_handle s) (authority_object s) (validated s) (state_storage s).
Definition net_set_device s (i : net_info_t) (d : pci_device_t) : net_state N :=
  mk_net_state (core s) i d (authority s) (authority_handle s) (authority_object s) (validated s) (state_storage s).
Definition net_set_authority s (t : argus_capability_table_t) (handle object : Z) : net_state N :=
  mk_net_state (core s) (published s) (owned_device s) t handle object (validated s) (state_storage s).
Definition net_set_storage s (st : N) : net_state N :=
  mk_net_state (core s) (published s) (owned_device s) (authority s) (authority_handle s) (authority_object s) (validated s) st.
Definition net_set_validated s (v : bool) : net_state N :=
  mk_net_state (core s) (published s) (owned_device s) (authority s) (authority_handle s) (authority_object s) v (state_storage s).

(** The part of [net_init] that looks at the devices, once the core runs. *)
Definition net_init_device s hw (pci : pci_info_t) : bool * net_state N * D :=
  let s := net_set_published s (info_count (published s) (network_count pci)) in
  if negb (nz (network_count pci)) then (true, s, hw)
  else if network_quarantined_count pci !=? network_count pci then (false, s, hw)
  else
    let d := first_network pci in
    let '(quarantined, hw) := pci_quarantine_device hw d in
    let s := net_set_device s (info_device (published s) d quarantined false) d in
    if negb quarantined then (false, s, hw)
    else
      let '(virtio, hw) := virtio_modern_transport_valid hw d in
      let s := net_set_device s (info_device (published s) d quarantined virtio) d in
      if negb virtio then (true, s, hw)
      else if negb (anonymity_capability_allowed ARGUS_SECURITY_ROLE_TOR_TRANSPORT ARGUS_CAPABILITY_RAW_NETWORK
                      ARGUS_CAP_RIGHT_CONNECT) then (false, s, hw)
      else
        let object := device_object d in
        let '(handle, table) := capability_grant (Some (authority s)) ARGUS_CAPABILITY_RAW_NETWORK
                                  ARGUS_CAP_RIGHT_CONNECT object in
        (nz handle, net_set_authority s (default (authority s) table) handle object, hw).

(** [descriptor] is the result of [module_net_descriptor]. *)
Definition net_init (descriptor : option (argus_net_v1_t N)) s hw (pci : option pci_info_t) : bool * net_state N * D :=
  let table := default table0 (capability_table_init (Some (authority s)) NET_AUTHORITY_PRINCIPAL) in
  let s := mk_net_state descriptor net_info0 pci_device0 table 0 0 false (state_storage s) in
  match descriptor with
  | None => (false, s, hw)
  | Some c =>
      if (NET_STATE_STORAGE_BYTES <? nt_state_size c) || (16 <? nt_state_alignment c) then (false, s, hw)
      else
        match nt_initialize c with
        | None => (false, s, hw)
        | Some initialize =>
            let '(status, storage) := initialize (state_storage s) NET_STATE_STORAGE_BYTES in
            let s := net_set_storage s storage in
            if status !=? ARGUS_NET_OK then (false, s, hw)
            else
              let s := net_set_published s (info_core c) in
              match pci with
              | None => (false, s, hw)
              | Some pci => net_init_device s hw pci
              end
        end
  end.

(** The calls of the core's own functions in [run_self_test]. *)
Definition core_self_test s (c : argus_net_v1_t N) : bool * net_state N :=
  match nt_self_test c, nt_initialize c, nt_inspect c, nt_dequeue c, nt_tcp_transition c with
  | Some self_test, Some initialize, Some inspect, Some dequeue, Some tcp_transition =>
      if self_test !=? 1 then (false, s)
      else
        let '(status, storage) := initialize (state_storage s) NET_STATE_STORAGE_BYTES in
        let s := net_set_storage s storage in
        if (status !=? ARGUS_NET_OK) || (inspect None 0 !=? ARGUS_NET_INVALID) || net_egress_allowed ||
           ni_dma_enabled (published s) || ni_egress_enabled (published s) then (false, s)
        else
          let '(status, (storage, _, _)) := dequeue (state_storage s) ARGUS_NET_QUEUE_INGRESS [0] 1 0 in
          let s := net_set_storage s storage in
          if status !=? ARGUS_NET_QUEUE_EMPTY then (false, s)
          else
            let '(status, next) := tcp_transition ARGUS_TCP_STATE_CLOSED ARGUS_TCP_EVENT_ACTIVE_OPEN UINT32_MAX in
            if (status !=? ARGUS_NET_OK) || (next !=? ARGUS_TCP_STATE_SYN_SENT) then (false, s)
            else
              let '(status, next) := tcp_transition ARGUS_TCP_STATE_CLOSED ARGUS_TCP_EVENT_DATA next in
              (status =? ARGUS_NET_STATE_ERROR, s)
  | _, _, _, _, _ => (false, s)
  end.

Definition run_self_test s hw : bool * net_state N * D :=
  match core s with
  | None => (false, s, hw)
  | Some c =>
      let '(ok, s) := core_self_test s c in
      if negb ok then (false, s, hw)
      else if negb (ni_present (published s)) then
        (negb (nz (ni_device_count (published s))) && negb (nz (authority_handle s)), s, hw)
      else if negb (ni_quarantined (published s)) then (false, s, hw)
      else
        let '(quarantined, hw) := pci_device_is_quarantined hw (owned_device s) in
        if negb quarantined then (false, s, hw)
        else if negb (ni_virtio_modern (published s)) then (negb (nz (authority_handle s)), s, hw)
        else
          (nz (authority_handle s) && (capability_count_type (Some (authority s)) ARGUS_CAPABILITY_RAW_NETWORK =? 1) &&
           match capability_resolve (Some (authority s)) (authority_handle s) ARGUS_CAPABILITY_RAW_NETWORK
                   ARGUS_CAP_RIGHT_CONNECT with
           | Some resolved => resolved =? authority_object s
           | None => false
           end, s, hw)
  end.

Definition net_self_test s hw : bool * net_state N * D :=
  let '(ok, s, hw) := run_self_test s hw in (ok, net_set_validated s ok, hw).

Definition net_info s : option net_info_t := match core s with Some _ => Some (published s) | None => None end.

(** "none", "virtio-net" and "unsupported". *)
Definition net_device_name s : list Z :=
  if negb (ni_present (published s)) then [110; 111; 110; 101]
  else if ni_virtio_modern (published s) then [118; 105; 114; 116; 105; 111; 45; 110; 101; 116]
  else [117; 110; 115; 117; 112; 112; 111; 114; 116; 101; 100].
(** The core's name, or "offline". *)
Definition net_core_name s : list Z :=
  match core s with Some c => nt_name c | None => [111; 102; 102; 108; 105; 110; 101] end.

Definition net_foundation_online s : bool :=
  validated s && match core s with Some _ => true | None => false end && negb net_egress_allowed &&
  negb (ni_dma_enabled (published s)) && negb (ni_egress_enabled (published s)) &&
  (negb (ni_present (published s)) || ni_quarantined (published s)).

End net.

(** ** What a valid transport is *)

(** The window a virtio capability of [type] describes lies in a memory region of
    the device, does not wrap around and is large enough. *)
Definition region_valid (f : Z -> Z) (capability type : Z) : Prop :=
  let bar := u8 (f (capability + 4)) in
  let offset := f (capability + 8) in
  let length := f (capability + 12) in
  byte_of f capability = PCI_CAPABILITY_VENDOR /\ byte_of f (capability + 3) = type /\
  VIRTIO_CAP_MIN_BYTES <= byte_of f (capability + 2) /\
  0 < length /\ offset + length <= UINT32_MAX /\
  bar < 6 /\ f (0x10 + bar * 4) & 1 = 0 /\
  (type = VIRTIO_PCI_CAP_COMMON_CFG -> VIRTIO_COMMON_MIN_BYTES <= length) /\
  (type = VIRTIO_PCI_CAP_NOTIFY_CFG -> 2 <= length /\ VIRTIO_NOTIFY_CAP_MIN_BYTES <= byte_of f (capability + 2) /\
     f (capability + 16) & 1 = 0 /\ f (capability + 16) & u32 (f (capability + 16) - 1) = 0).

(** A walk that ends having [found] these types. *)
Definition transport_found (f : Z -> Z) (capability found0 found : Z) : Prop :=
  exists l, chain f capability l /\
    forall type, 1 <= type <= 4 -> Z.testbit found type = true ->
      Z.testbit found0 type = true \/ exists c, c ∈ l /\ region_valid f c type.

Section bus.
Context {D : Type} `{PciBus D config selected}.
Implicit Types hw : D.
Abbreviation word := (word (config := config)).
Abbreviation words_of := (words_of (config := config)).
Abbreviation quiet := (quiet (config := config)).

Lemma read32_get hw d o v hw' :
  o & 3 = 0 -> pci_config_read32 hw d o = (v, hw') -> v = words_of hw d o /\ quiet hw hw'.
Proof. intros Ho E. pose proof (config_read32_spec hw d o Ho) as [E1 E2]. rewrite E in E1, E2. done. Qed.

Lemma words_range hw d o : 0 <= words_of hw d o <= UINT32_MAX.
Proof. unfold words_of, word. apply u32_range. Qed.

(** An aligned offset stays aligned four bytes on. *)
Lemma aligned_mod o : o & 3 = 0 <-> o mod 4 = 0.
Proof. change 3 with (2 ^ 2 - 1). rewrite land_ones_mod by lia. done. Qed.
Lemma aligned_add o k : o & 3 = 0 -> k mod 4 = 0 -> (o + k) & 3 = 0.
Proof. rewrite !aligned_mod. intros. rewrite Z.add_mod, H1, H2 by lia. done. Qed.

Lemma bar_check hw d bar :
  0 <= bar -> let '(ok, hw') := valid_memory_bar hw d bar in
  quiet hw hw' /\ (ok = true -> bar < 6 /\ words_of hw d (0x10 + bar * 4) & 1 = 0).
Proof.
  intros Hb. unfold valid_memory_bar. destruct (Z.leb_spec 6 bar); [by split|].
  assert (u8 (0x10 + bar * 4) = 0x10 + bar * 4) as -> by (unfold u8; rewrite Z.mod_small; lia). cbv zeta.
  destruct (pci_config_read32 hw d (0x10 + bar * 4)) as [v hw1] eqn:E. apply read32_get in E as [-> Q].
  2: { apply aligned_mod. replace (0x10 + bar * 4) with (0 + (4 + bar) * 4) by lia. by rewrite Z_mod_plus_full. }
  case_if; [by split|]. case_if; [by split|]. split; [done|]. intros _. apply orb_false_iff in Heqb as [_ Hz]. unfold nz in Hz. b2p. done.
Qed.

Lemma region_check hw d capability type :
  capability & 3 = 0 -> 0x40 <= capability ->
  byte_of (words_of hw d) capability = PCI_CAPABILITY_VENDOR -> byte_of (words_of hw d) (capability + 3) = type ->
  let '(ok, hw') := capability_region_valid hw d capability (byte_of (words_of hw d) (capability + 2)) type in
  quiet hw hw' /\ (ok = true -> region_valid (words_of hw d) capability type).
Proof.
  intros Hc Hlo Hv Ht. unfold capability_region_valid. case_if; [by split|]. b2p.
  destruct (pci_config_read32 hw d (capability + 4)) as [bar_data hw1] eqn:E1. apply read32_get in E1 as [-> Q1]; [|by apply aligned_add].
  destruct (pci_config_read32 hw1 d (capability + 8)) as [offset hw2] eqn:E2. apply read32_get in E2 as [-> Q2]; [|by apply aligned_add].
  destruct (pci_config_read32 hw2 d (capability + 12)) as [length hw3] eqn:E3. apply read32_get in E3 as [-> Q3]; [|by apply aligned_add].
  assert (quiet hw hw2) as Q12 by (by eapply quiet_trans). assert (quiet hw hw3) as Q13 by (by eapply quiet_trans).
  rewrite (quiet_words hw hw1), (quiet_words hw hw2) by done. case_if; [by split|]. b2p.
  pose proof (words_range hw d (capability + 12)) as Hlen.
  pose proof (bar_check hw3 d (u8 (words_of hw d (capability + 4))) ltac:(apply u8_range)) as Hb.
  destruct (valid_memory_bar hw3 d _) as [bok hw4]. destruct Hb as [Q4 Hb]. assert (quiet hw hw4) as Q14 by (by eapply quiet_trans).
  case_if; [by split|]. b2p. subst bok. destruct (Hb eq_refl) as [Hbar Hmem]. rewrite (quiet_words hw hw3) in Hmem by done.
  assert (forall P : Prop, P -> quiet hw hw4 /\ P) as Hq by (by split).
  destruct (Z.eqb_spec type VIRTIO_PCI_CAP_COMMON_CFG) as [E|N1].
  { apply Hq. intros Hok. unfold region_valid. split_and!; try done; try lia. rewrite E. done. }
  destruct (Z.eqb_spec type VIRTIO_PCI_CAP_NOTIFY_CFG) as [E|N2].
  { case_if; [by split|]. b2p. destruct (pci_config_read32 hw4 d (capability + 16)) as [mult hw5] eqn:E5.
    apply read32_get in E5 as [-> Q5]; [|by apply aligned_add]. rewrite (quiet_words hw hw4) by done.
    split; [by eapply quiet_trans|]. intros Hok. apply andb_true_iff in Hok as [_ Hok]. unfold region_valid.
    split_and!; try done; try lia. intros _. split_and!; [lia|lia|..];
      (apply orb_true_iff in Hok as [Hz|Hz]; unfold nz in Hz; b2p; [rewrite Hz; done|done]). }
  destruct (Z.eqb_spec type VIRTIO_PCI_CAP_ISR_CFG) as [E|N3].
  { apply Hq. intros Hok. unfold region_valid. split_and!; try done; lia. }
  case_if; apply Hq; [|done]. intros _. unfold region_valid. split_and!; try done; lia.
Qed.

Lemma byte_offset capability k :
  capability & 3 = 0 -> 0 <= capability <= 0xFC -> 0 <= k < 4 ->
  (capability + k) & 0xFC = capability /\ (capability + k) & 3 = k.
Proof.
  intros Hc Hr Hk.
  assert (zall (fun c => zall (fun k => nz (c & 3) || (((c + k) & 0xFC =? c) && ((c + k) & 3 =? k))) 0 4) 0 253 = true) as Hz
    by (vm_compute; done).
  rewrite zall_true in Hz. specialize (Hz capability ltac:(lia)). rewrite zall_true in Hz. specialize (Hz k ltac:(lia)).
  rewrite Hc in Hz. change (nz 0) with false in Hz. cbn [orb] in Hz. b2p. lia.
Qed.

Lemma byte_of_header f capability k :
  capability & 3 = 0 -> 0 <= capability <= 0xFC -> 0 <= k < 4 -> f capability <> UINT32_MAX ->
  byte_of f (capability + k) = u8 (f capability >> (k * 8)).
Proof.
  intros Hc Hr Hk Hf. unfold byte_of. destruct (byte_offset capability k Hc Hr Hk) as [-> ->].
  by rewrite (proj2 (Z.eqb_neq _ _) Hf).
Qed.

Lemma region_valid_quiet hw hw' d c type : quiet hw hw' -> region_valid (words_of hw' d) c type -> region_valid (words_of hw d) c type.
Proof. intros Hq. unfold region_valid. by rewrite !(quiet_words hw hw'), !(byte_of_quiet hw hw') by done. Qed.

Lemma transport_found_quiet hw hw' d c a b :
  quiet hw hw' -> transport_found (words_of hw' d) c a b -> transport_found (words_of hw d) c a b.
Proof.
  intros Hq (l & Hl & Hr). exists l. split.
  - eapply chain_ext; [|exact Hl]. intros o. by apply byte_of_quiet.
  - intros type Ht Hb. destruct (Hr type Ht Hb) as [?|(x & Hx & Hv)]; [by left|right]. exists x. split; [done|].
    by apply (region_valid_quiet hw hw').
Qed.

Lemma transport_found_cons hw d capability a b c :
  0x40 <= capability <= 0xFC -> transport_found (words_of hw d) (byte_of (words_of hw d) (capability + 1)) b c ->
  (forall type, 1 <= type <= 4 -> Z.testbit b type = true ->
     Z.testbit a type = true \/ region_valid (words_of hw d) capability type) ->
  transport_found (words_of hw d) capability a c.
Proof.
  intros Hc (l & Hl & Hr) Hab. exists (capability :: l). split; [by constructor|]. intros type Ht Hb.
  destruct (Hr type Ht Hb) as [Hb'|(x & Hx & Hv)].
  - destruct (Hab type Ht Hb') as [?|?]; [by left|right]. exists capability. split; [by left|done].
  - right. exists x. split; [by right|done].
Qed.

Lemma virtio_walk_check n hw d capability visited found :
  capability & 3 = 0 ->
  let '(r, hw') := virtio_walk n hw d capability visited found in
  quiet hw hw' /\ (forall out, r = Some out -> transport_found (words_of hw d) capability found out).
Proof.
  revert hw capability visited found. induction n as [|n IH]; intros hw capability visited found Hc; cbn [virtio_walk]; unfold nz at 1;
    (destruct (Z.eqb_spec capability 0) as [->|Hne]; cbn [negb];
     [split; [apply quiet_refl|intros out [= <-]; exists []; split; [constructor|by left]]|]); [by split|].
  case_if; [by split|]. b2p. cbv zeta. case_if; [by split|].
  destruct (pci_config_read32 hw d capability) as [header hw1] eqn:E. apply read32_get in E as [-> Q1]; [|done].
  case_if; [by split|]. case_if; [by split|]. unfold nz in *. b2p.
  set (f := words_of hw d) in *. assert (f capability <> UINT32_MAX) as Hf by done.
  assert (forall k, 0 <= k < 4 -> byte_of f (capability + k) = u8 (f capability >> (k * 8))) as Hbyte.
  { intros k Hk. apply byte_of_header; [done|lia|done|done]. }
  pose proof (Hbyte 1 ltac:(lia)) as E1. change (1 * 8) with 8 in E1. pose proof (Hbyte 2 ltac:(lia)) as E2. change (2 * 8) with 16 in E2.
  pose proof (Hbyte 3 ltac:(lia)) as E3. change (3 * 8) with 24 in E3.
  pose proof (Hbyte 0 ltac:(lia)) as E0. rewrite Z.add_0_r in E0. change (0 * 8) with 0 in E0. rewrite Z.shiftr_0_r in E0.
  rewrite <- E0, <- E1, <- E2, <- E3.
  case_if.
  - apply andb_true_iff in Heqb2 as [Hb ?]. apply andb_true_iff in Hb as [Hid ?]. b2p.
    pose proof (region_check hw1 d capability (byte_of f (capability + 3)) Hc ltac:(lia)) as Hreg.
    rewrite !(byte_of_quiet hw hw1) in Hreg by done. specialize (Hreg Hid eq_refl). fold f in Hreg.
    destruct (capability_region_valid hw1 d capability _ _) as [ok hw2]. destruct Hreg as [Q2 Hreg].
    assert (quiet hw hw2) as Q12 by (by eapply quiet_trans). case_if; [by split|]. b2p. subst ok.
    specialize (IH hw2 (byte_of f (capability + 1)) (Z.lor visited (1 << (capability >> 2)))
                  (Z.lor found (1 << byte_of f (capability + 3))) ltac:(by rewrite E1)).
    destruct (virtio_walk n hw2 d _ _ _) as [r hw3]. destruct IH as [Q3 IH]. split; [by eapply quiet_trans|].
    intros out Hout. eapply transport_found_cons; [lia|apply (transport_found_quiet hw hw2); [done|by apply IH]|].
    intros type Ht Hbit. rewrite Z.lor_spec in Hbit. apply orb_true_iff in Hbit as [?|Hbit]; [by left|right].
    rewrite Z.shiftl_1_l in Hbit.
    destruct (Z.eq_dec type (byte_of f (capability + 3))) as [-> |Hx].
    + apply (region_valid_quiet hw hw1); [done|]. by apply Hreg.
    + rewrite Z.pow2_bits_false in Hbit by done. done.
  - specialize (IH hw1 (byte_of f (capability + 1)) (Z.lor visited (1 << (capability >> 2))) found ltac:(by rewrite E1)).
    destruct (virtio_walk n hw1 d _ _ _) as [r hw3]. destruct IH as [Q3 IH]. split; [by eapply quiet_trans|].
    intros out Hout. eapply transport_found_cons; [lia|apply (transport_found_quiet hw hw1); [done|by apply IH]|]. by left.
Qed.

(** The device's identity, and its three configuration windows. *)
Definition modern_transport (f : Z -> Z) (d : pci_device_t) : Prop :=
  pd_vendor_id d = VIRTIO_VENDOR_ID /\ pd_device_id d = VIRTIO_NET_MODERN_DEVICE_ID /\ pd_class_code d = PCI_CLASS_NETWORK /\
  exists l, chain f (byte_of f PCI_CAPABILITY_POINTER) l /\
    forall type, type = VIRTIO_PCI_CAP_COMMON_CFG \/ type = VIRTIO_PCI_CAP_NOTIFY_CFG \/ type = VIRTIO_PCI_CAP_ISR_CFG ->
      exists c, c ∈ l /\ region_valid f c type.

Lemma virtio_spec hw d :
  let '(ok, hw') := virtio_modern_transport_valid hw d in
  quiet hw hw' /\ (ok = true -> modern_transport (words_of hw d) d).
Proof.
  unfold virtio_modern_transport_valid. case_if; [by split|]. b2p.
  destruct (pci_config_read32 hw d 4) as [cs hw1] eqn:E. apply read32_get in E as [-> Q1]; [|done]. case_if; [by split|].
  destruct (config_read8_spec hw1 d PCI_CAPABILITY_POINTER) as [E2 Q2].
  destruct (config_read8 hw1 d PCI_CAPABILITY_POINTER) as [cap hw2]. cbn [fst snd] in *.
  rewrite (byte_of_quiet hw hw1) in E2 by done. assert (quiet hw hw2) as Q12 by (by eapply quiet_trans). case_if; [by split|].
  unfold nz in *. b2p. pose proof (virtio_walk_check 48 hw2 d cap 0 0 ltac:(done)) as Hw.
  destruct (virtio_walk 48 hw2 d cap 0 0) as [[found|] hw3]; destruct Hw as [Q3 Hw]; [|split; [by eapply quiet_trans|done]].
  split; [by eapply quiet_trans|]. intros Hok. b2p. specialize (Hw found eq_refl).
  apply (transport_found_quiet hw hw2) in Hw; [|done]. destruct Hw as (l & Hl & Hr). subst cap.
  split_and!; [done|done|done|]. exists l. split; [done|]. intros type Ht.
  destruct (Hr type) as [Hb|?]; [destruct Ht as [-> |[-> | ->]]; done| |by rewrite Z.bits_0 in Hb|done].
  assert (Z.testbit (found & VIRTIO_REQUIRED) type = true) as Hbit.
  { rewrite Hok. destruct Ht as [-> |[-> | ->]]; done. }
  rewrite Z.land_spec in Hbit. by apply andb_true_iff in Hbit as [? _].
Qed.

(** ** The authority *)

(** The table of a fresh authority, and with the one capability. *)
Definition authority_start (t : argus_capability_table_t) : argus_capability_table_t :=
  default table0 (capability_table_init (Some t) NET_AUTHORITY_PRINCIPAL).

Lemma authority_start_spec t :
  table_ok (authority_start t) /\ principal (authority_start t) = NET_AUTHORITY_PRINCIPAL /\
  forall slot, 0 <= slot < 16 -> entry_type (get_entry (authority_start t) slot) = ARGUS_CAPABILITY_NONE.
Proof.
  unfold authority_start. destruct (capability_table_init (Some t) NET_AUTHORITY_PRINCIPAL) as [t'|] eqn:E; [|done]. cbn [default].
  pose proof (cap_init_ok _ _ _ E). apply cap_init_char in E as (Hp & _ & He). split_and!; [done|done|].
  intros slot Hs. by rewrite He.
Qed.

(** Nothing resolves in a table, except for empty slots. *)
Definition no_authority (t : argus_capability_table_t) : Prop :=
  forall h type rights o, type <> ARGUS_CAPABILITY_NONE -> capability_resolve (Some t) h type rights = Some o -> False.
(** One handle resolves, to the object, as the right to connect. *)
Definition sole_authority (t : argus_capability_table_t) (handle object : Z) : Prop :=
  capability_resolve (Some t) handle ARGUS_CAPABILITY_RAW_NETWORK ARGUS_CAP_RIGHT_CONNECT = Some object /\
  forall h type rights o, type <> ARGUS_CAPABILITY_NONE -> capability_resolve (Some t) h type rights = Some o ->
    h = handle /\ type = ARGUS_CAPABILITY_RAW_NETWORK /\ o = object /\ ARGUS_CAP_RIGHT_CONNECT & rights = rights.

Lemma authority_start_none t : no_authority (authority_start t).
Proof.
  destruct (authority_start_spec t) as (Hok & Hp & He). intros h type rights o Ht Hr.
  apply resolve_char in Hr as (slot & Hs & _ & Ety & _); [|done|by rewrite Hp]. rewrite He in Ety by done. congruence.
Qed.

Lemma authority_grant t object :
  let '(handle, t') := capability_grant (Some (authority_start t)) ARGUS_CAPABILITY_RAW_NETWORK ARGUS_CAP_RIGHT_CONNECT object in
  handle <> 0 /\ sole_authority (default (authority_start t) t') handle object.
Proof.
  destruct (authority_start_spec t) as (Hok & Hp & He). set (t0 := authority_start t) in *. rewrite grant_char.
  destruct (decide (grant_ok t0 ARGUS_CAPABILITY_RAW_NETWORK ARGUS_CAP_RIGHT_CONNECT)) as [Hg|Hg].
  2: { exfalso. apply Hg. unfold grant_ok. rewrite Hp. split_and!; done. }
  destruct (free_slot t0) as [slot|] eqn:Ef.
  2: { exfalso. unfold free_slot in Ef. rewrite zfind_None in Ef. specialize (Ef 0 ltac:(unfold ARGUS_CAPABILITY_MAX; lia)).
       rewrite He in Ef by lia. done. }
  apply free_slot_range in Ef as [Hs _]. cbv zeta. set (e := mk_entry _ _ _ _). cbn [default from_option id].
  pose proof (get_entry_ok t0 slot Hok Hs) as [Hgen _ _ _ _].
  assert (entry_ok e) as Hek by (constructor; cbn; try done; lia).
  assert (table_ok (Capability.set_entry t0 slot e)) as Hok' by (by apply set_entry_ok).
  assert (get_entry (Capability.set_entry t0 slot e) slot = e) as Eg by (by apply get_set_entry_eq).
  assert (principal (Capability.set_entry t0 slot e) <> 0) as Hp' by (change (principal t0 <> 0); by rewrite Hp).
  split; [pose proof (make_handle_nonzero slot e Hs ltac:(change (0 <= entry_generation (get_entry t0 slot) <= UINT32_MAX); lia) ltac:(by unfold e)); lia|]. split.
  - apply resolve_char; [done|done|]. exists slot. rewrite Eg. done.
  - intros h type rights o Ht Hr. apply resolve_char in Hr as (slot' & Hs' & Hh & Ety & Hri & Ho); [|done|done].
    destruct (Z.eq_dec slot' slot) as [->|Hne]; [rewrite Eg in *; cbn in *; subst; done|].
    rewrite get_set_entry_ne in Ety by lia. rewrite He in Ety by done. congruence.
Qed.

Section net_init.
Context {N : Type}.
Implicit Types s : net_state N.

(** No packet can leave. *)
Definition closed (i : net_info_t) : Prop := ni_dma_enabled i = false /\ ni_egress_enabled i = false.

(** Either there is no authority over the network, or the owned device is an
    isolated modern transport and the authority is the one capability for it. *)
Definition authority_confined s hw : Prop :=
  (authority_handle s = 0 /\ no_authority (authority s)) \/
  (ni_present (published s) = true /\ ni_virtio_modern (published s) = true /\
   modern_transport (words_of hw (owned_device s)) (owned_device s) /\ isolated (words_of hw (owned_device s)) /\
   authority_object s = device_object (owned_device s) /\
   sole_authority (authority s) (authority_handle s) (device_object (owned_device s))).

Lemma modern_transport_quiet hw hw' d : quiet hw hw' -> modern_transport (words_of hw d) d -> modern_transport (words_of hw' d) d.
Proof.
  intros Hq (H1 & H2 & H3 & l & Hl & Hr). assert (quiet hw' hw) as Hq' by (intros r; by rewrite Hq). split_and!; [done..|].
  exists l. rewrite (byte_of_quiet hw hw') by done. split.
  - eapply chain_ext; [|exact Hl]. intros o. by apply byte_of_quiet.
  - intros type Ht. destruct (Hr type Ht) as (c & Hc & Hv). exists c. split; [done|]. by apply (region_valid_quiet hw' hw).
Qed.

Lemma authority_confined_quiet s hw hw' : quiet hw hw' -> authority_confined s hw -> authority_confined s hw'.
Proof.
  intros Hq [?|(H1 & H2 & H3 & H4 & H5)]; [by left|right]. split_and!; [done|done| | |apply H5|apply H5].
  - by apply (modern_transport_quiet hw).
  - by apply (isolated_quiet hw).
Qed.

Lemma net_init_device_spec s hw pci :
  located (pd_bus (first_network pci)) (pd_device (first_network pci)) (pd_function (first_network pci)) ->
  closed (published s) -> ni_present (published s) = false -> authority_handle s = 0 ->
  (exists t, authority s = authority_start t) ->
  let '(ok, s', hw') := net_init_device s hw pci in
  closed (published s') /\ authority_confined s' hw' /\ core s' = core s /\ validated s' = validated s /\
  (ok = true -> ni_present (published s') = true -> isolated (words_of hw' (owned_device s'))) /\
  (forall bus device function o, located bus device function ->
     (bus, device, function)
       <> (pd_bus (first_network pci), pd_device (first_network pci), pd_function (first_network pci)) ->
     word hw' bus device function o = word hw bus device function o).
Proof.
  intros Hloc Hcl Hpr Hh [t Ht]. pose proof (authority_start_none t) as Hnone. rewrite <- Ht in Hnone. unfold net_init_device.
  assert (authority_confined (net_set_published s (info_count (published s) (network_count pci))) hw) as Hac by (by left).
  case_if; [split_and!; try done; cbn; congruence|].
  case_if; [split_and!; done|]. cbv zeta. set (d := first_network pci) in *.
  pose proof (quarantine_spec hw d) as Hq. destruct (pci_quarantine_device hw d) as [q hw1]. destruct Hq as [Hl Hi].
  assert (forall bus device function o, located bus device function ->
            (bus, device, function) <> (pd_bus d, pd_device d, pd_function d) ->
            word hw1 bus device function o = word hw bus device function o) as Hother by (intros; by apply (local_other hw hw1 d)).
  destruct q; cbn [negb].
  2: { split_and!; try done. by left. }
  specialize (Hi eq_refl). pose proof (virtio_spec hw1 d) as Hv. destruct (virtio_modern_transport_valid hw1 d) as [v hw2].
  destruct Hv as [Q Hv]. assert (isolated (words_of hw2 d)) as Hi2 by (by apply (isolated_quiet hw1)).
  assert (forall bus device function o, located bus device function ->
            (bus, device, function) <> (pd_bus d, pd_device d, pd_function d) ->
            word hw2 bus device function o = word hw bus device function o) as Hother2.
  { intros. rewrite <- Hother by done. unfold Pci.word. by rewrite Q. }
  destruct v; cbn [negb].
  2: { split_and!; try done. by left. }
  case_if; [done|]. clear Heqb1. pose proof (authority_grant t (device_object d)) as Hg. rewrite <- Ht in Hg.
  change (authority (net_set_device _ _ _)) with (authority s).
  destruct (capability_grant (Some (authority s)) _ _ _) as [handle t']. destruct Hg as [Hnz Hsole].
  split_and!; try done. right. split_and!; try done.
  apply (modern_transport_quiet hw1); [done|by apply Hv].
Qed.

Lemma net_init_spec descriptor s hw pci :
  (forall i, pci = Some i ->
     located (pd_bus (first_network i)) (pd_device (first_network i)) (pd_function (first_network i))) ->
  let '(ok, s', hw') := net_init descriptor s hw pci in
  closed (published s') /\ net_foundation_online s' = false /\ authority_confined s' hw' /\
  (ok = true -> ni_present (published s') = true -> isolated (words_of hw' (owned_device s'))) /\
  (forall bus device function o, located bus device function ->
     (forall i, pci = Some i -> (bus, device, function)
       <> (pd_bus (first_network i), pd_device (first_network i), pd_function (first_network i))) ->
     word hw' bus device function o = word hw bus device function o).
Proof.
  intros Hloc. unfold net_init. fold (authority_start (authority s)). cbv zeta.
  pose proof (authority_start_none (authority s)) as Hnone.
  destruct descriptor as [c|]; [|split_and!; try done; by left].
  case_if; [split_and!; try done; by left|].
  destruct (nt_initialize c) as [initialize|]; [|split_and!; try done; by left].
  destruct (initialize _ _) as [status storage]. case_if; [split_and!; try done; by left|].
  destruct pci as [i|]; [|split_and!; try done; by left].
  pose proof (net_init_device_spec (net_set_published (net_set_storage (mk_net_state (Some c) net_info0 pci_device0
    (authority_start (authority s)) 0 0 false (state_storage s)) storage) (info_core c)) hw i (Hloc i eq_refl)) as Hd.
  specialize (Hd ltac:(done) ltac:(done) ltac:(done) ltac:(by exists (authority s))).
  destruct (net_init_device _ hw i) as [[ok s'] hw']. destruct Hd as (H1 & H2 & H3 & H4 & H5 & H6).
  split_and!; [done| |done|done|].
  - unfold net_foundation_online. by rewrite H4.
  - intros. apply H6; auto.
Qed.

(** The self test changes neither the device's registers nor the authority. *)
Lemma core_self_test_keeps s c :
  let s' := snd (core_self_test s c) in
  published s' = published s /\ owned_device s' = owned_device s /\ authority s' = authority s /\
  authority_handle s' = authority_handle s /\ authority_object s' = authority_object s /\ core s' = core s.
Proof.
  unfold core_self_test. destruct (nt_self_test c), (nt_initialize c) as [f|], (nt_inspect c), (nt_dequeue c) as [g|], (nt_tcp_transition c) as [h|];
    try (by split_and!). case_if; [by split_and!|]. destruct (f _ _) as [st sto]. case_if; [by split_and!|].
  destruct (g _ _ _ _ _) as [st2 [[sto2 ?] ?]]. case_if; [by split_and!|]. destruct (h _ _ _) as [st3 nx]. case_if; [by split_and!|].
  destruct (h _ _ _). by split_and!.
Qed.

Lemma run_self_test_spec s hw :
  let '(ok, s', hw') := run_self_test s hw in
  quiet hw hw' /\ published s' = published s /\ owned_device s' = owned_device s /\ authority s' = authority s /\
  authority_handle s' = authority_handle s /\ authority_object s' = authority_object s /\ core s' = core s /\
  (ok = true -> ni_present (published s) = true -> isolated (words_of hw' (owned_device s))).
Proof.
  unfold run_self_test. destruct (core s) as [c|] eqn:Ec; [|by split_and!].
  pose proof (core_self_test_keeps s c) as Hk. destruct (core_self_test s c) as [ok s1]. cbn [snd] in Hk.
  destruct Hk as (H1 & H2 & H3 & H4 & H5 & H6). rewrite Ec in H6. destruct ok; cbn [negb]; [|by split_and!]. rewrite H1, H2.
  case_if; [split_and!; try done; b2p; congruence|]. case_if; [by split_and!|].
  pose proof (quarantined_check hw (owned_device s)) as Hq. destruct (pci_device_is_quarantined hw (owned_device s)) as [q hw1].
  destruct Hq as [Q Hi]. destruct q; cbn [negb]; [|by split_and!]. specialize (Hi eq_refl). case_if; by split_and!.
Qed.

(** A network foundation that reports itself online is safe: after [net_init]
    and [net_self_test], if [net_foundation_online] answers yes then DMA and egress
    are off, a device that is present is isolated in the machine's current state,
    and the authority over it is confined as after start-up. *)
Theorem net_online_isolated descriptor s hw pci ok s1 hw1 tested s2 hw2 :
  (forall i, pci = Some i ->
     located (pd_bus (first_network i)) (pd_device (first_network i)) (pd_function (first_network i))) ->
  net_init descriptor s hw pci = (ok, s1, hw1) -> net_self_test s1 hw1 = (tested, s2, hw2) ->
  net_foundation_online s2 = true ->
  closed (published s2) /\ authority_confined s2 hw2 /\
  (ni_present (published s2) = true -> isolated (words_of hw2 (owned_device s2))).
Proof.
  intros Hloc Ei Et Hon. pose proof (net_init_spec descriptor s hw pci Hloc) as Hi. rewrite Ei in Hi.
  destruct Hi as (Hcl & _ & Hac & _). unfold net_self_test in Et. pose proof (run_self_test_spec s1 hw1) as Ht.
  destruct (run_self_test s1 hw1) as [[t s'] hw']. destruct Ht as (Q & Ep & Eo & Ea & Eh & Eob & _ & Hiso).
  injection Et as <- <- <-. unfold net_foundation_online in Hon. cbn [validated net_set_validated] in Hon.
  assert (t = true) as -> by (by destruct t). split_and!.
  - cbn. by rewrite Ep.
  - apply (authority_confined_quiet _ hw1 hw' Q). unfold authority_confined in *. cbn. by rewrite Ep, Eo, Ea, Eh, Eob.
  - cbn. rewrite Ep, Eo. auto.
Qed.

(** Network start-up is confined.  Whatever the core module and the device do,
    after [net_init] DMA and egress are off and the component is not yet online;
    either no capability exists for the network, or the device is a modern
    virtio transport with its three windows valid, isolated, and exactly one
    handle resolves, to the object of that device with the right to connect;
    success with a device present means that the device is isolated; and no
    register of any other PCI function has changed. *)
Theorem net_init_confined descriptor s hw pci :
  (forall i, pci = Some i ->
     located (pd_bus (first_network i)) (pd_device (first_network i)) (pd_function (first_network i))) ->
  let '(ok, s', hw') := net_init descriptor s hw pci in
  closed (published s') /\ net_foundation_online s' = false /\ authority_confined s' hw' /\
  (ok = true -> ni_present (published s') = true -> isolated (words_of hw' (owned_device s'))) /\
  (forall bus device function o, located bus device function ->
     (forall i, pci = Some i -> (bus, device, function)
       <> (pd_bus (first_network i), pd_device (first_network i), pd_function (first_network i))) ->
     word hw' bus device function o = word hw bus device function o).
Proof. intros Hloc. by apply net_init_spec. Qed.

End net_init.
End bus.

(** ** A machine with a virtio network card *)

Definition virtio_words (r : Z) : Z :=
  let o := r - 0x80001800 in
  if o =? 0 then 0x10411AF4
  else if o =? 4 then 0x00100007
  else if o =? 8 then 0x02000000
  else if o =? 0x10 then 0xFE000000
  else if o =? 0x34 then 0x40
  else if o =? 0x40 then 0x01105009
  else if o =? 0x4C then 0x1000
  else if o =? 0x50 then 0x02146409
  else if o =? 0x58 then 0x1000
  else if o =? 0x5C then 0x1000
  else if o =? 0x60 then 4
  else if o =? 0x64 then 0x03100009
  else if o =? 0x6C then 0x2000
  else if o =? 0x70 then 4
  else if (0 <=? o) && (o <? 256) then 0 else UINT32_MAX.
Definition virtio_backplane : backplane := mk_backplane 0 virtio_words.
Definition virtio_card : pci_device_t := mk_pci_device 0 3 0 2 0 0 0 VIRTIO_VENDOR_ID VIRTIO_NET_MODERN_DEVICE_ID.
Definition virtio_pci : pci_info_t := mk_pci_info 1 0 1 1 pci_device0 virtio_card.

(** A core that accepts everything the start-up and the self test ask. *)
Definition sample_core : argus_net_v1_t unit :=
  mk_net 1 104 [110; 101; 116] 16 8 1514 8 0 0 (Some (fun s _ => (0, s))) (Some (fun _ _ => -1))
    (Some (fun s _ _ _ => (0, s))) (Some (fun s _ o _ l => (-7, (s, o, l))))
    (Some (fun _ event next => if event =? 1 then (0, 1) else (-8, next))) (Some 1).
Definition net_start : net_state unit := mk_net_state None net_info0 pci_device0 table0 0 0 false tt.
Abbreviation sample_net := (net_init (Some sample_core) net_start virtio_backplane (Some virtio_pci)).
Abbreviation sample_net_tested := (net_self_test (snd (fst sample_net)) (snd sample_net)).

Lemma virtio_pci_located i :
  Some virtio_pci = Some i ->
  located (pd_bus (first_network i)) (pd_device (first_network i)) (pd_function (first_network i)).
Proof. intros [= <-]. unfold located. cbn. lia. Qed.

Lemma sample_net_facts :
  authority_handle (snd (fst sample_net)) <> 0 /\ fst (fst sample_net) = true /\
  ni_present (published (snd (fst sample_net))) = true /\ owned_device (snd (fst sample_net)) = virtio_card.
Proof. vm_compute. repeat split. discriminate. Qed.

Lemma sample_net_tested_facts :
  net_foundation_online (snd (fst sample_net_tested)) = true /\
  ni_present (published (snd (fst sample_net_tested))) = true /\ owned_device (snd (fst sample_net_tested)) = virtio_card.
Proof. vm_compute. repeat split. Qed.

Lemma net_init_confined_witness :
  authority_handle (snd (fst sample_net)) <> 0 /\
  authority_confined (config := bp_words) (snd (fst sample_net)) (snd sample_net) /\
  isolated (words_of (config := bp_words) (snd sample_net) virtio_card).
Proof.
  pose proof sample_net_facts as (Hh & Hok & Hp & Ho).
  pose proof (net_init_confined (Some sample_core) net_start virtio_backplane (Some virtio_pci) virtio_pci_located) as Hc.
  destruct (net_init (Some sample_core) net_start virtio_backplane (Some virtio_pci)) as [[ok s] hw].
  cbn [fst snd] in *. destruct Hc as (_ & _ & Hc & Hi & _).
  split; [exact Hh|]. split; [exact Hc|]. rewrite <- Ho. exact (Hi Hok Hp).
Defined.

Lemma net_online_isolated_witness :
  net_foundation_online (snd (fst sample_net_tested)) = true /\
  isolated (words_of (config := bp_words) (snd sample_net_tested) virtio_card).
Proof.
  pose proof sample_net_tested_facts as (Hon & Hp & Ho).
  destruct sample_net as [[ok s1] hw1] eqn:E1. cbn [fst snd] in *.
  destruct (net_self_test s1 hw1) as [[t s2] hw2] eqn:E2. cbn [fst snd] in *.
  destruct (net_online_isolated (Some sample_core) net_start virtio_backplane (Some virtio_pci) ok s1 hw1 t s2 hw2
              virtio_pci_located E1 E2 Hon) as (_ & _ & Hi).
  split; [exact Hon|]. rewrite <- Ho. exact (Hi Hp).
Defined.
