(* ===== verification/Files.v ===== *)
(** * The file-system wrappers (src/ramfs.c, src/fat32.c)

    Both files bound and terminate the strings that cross into the Rust file
    systems of Module.v.  A path is a C string: the list of its bytes, with the
    terminating zero after the last. *)

From Stdlib Require Import String Ascii.
From stdpp Require Import base list gmap numbers.
From Stdlib Require Import ZArith Lia.
From S2P Require Import Prelude Memory Block Module.

Open Scope Z_scope.

(** The bytes of a literal. *)
Definition text (s : string) : list Z := map (fun c => Z.of_nat (nat_of_ascii c)) (list_ascii_of_string s).

Definition ARGUS_RAMFS_MAX_FILES : Z := 16.
Definition ARGUS_RAMFS_MAX_PATH : Z := 48.
Definition ARGUS_RAMFS_MAX_DATA : Z := 1024.
Definition ARGUS_RAMFS_OK : Z := 0.
Definition ARGUS_RAMFS_NOT_FOUND : Z := -1.
Definition ARGUS_RAMFS_INVALID : Z := -2.
Definition ARGUS_RAMFS_NO_SPACE : Z := -3.
Definition ARGUS_RAMFS_BUFFER_TOO_SMALL : Z := -4.
Definition RAMFS_STATE_CAPACITY : Z := 32768.
Definition RAMFS_STATE_ALIGNMENT : Z := 16.

Definition ARGUS_FAT32_MAX_PATH : Z := 48.
Definition ARGUS_FAT32_MAX_READ : Z := 4096.
Definition ARGUS_FAT32_OK : Z := 0.
Definition ARGUS_FAT32_NOT_FOUND : Z := -1.
Definition ARGUS_FAT32_INVALID : Z := -2.
Definition ARGUS_FAT32_CORRUPT : Z := -4.
Definition ARGUS_FAT32_BUFFER_TOO_SMALL : Z := -6.
Definition FAT32_STATE_CAPACITY : Z := 256.
Definition FAT32_STATE_ALIGNMENT : Z := 16.

(** [while (count <= maximum && text[count]) ++count;] from [count]; the loop runs
    at most [maximum + 1] times. *)
Fixpoint length_loop (fuel : nat) (text : list Z) (maximum count : Z) : Z :=
  match fuel with
  | O => count
  | S fuel' =>
      if (count <=? maximum) && nz (u8 (zget 0 text count)) then length_loop fuel' text maximum (count + 1) else count
  end.
Definition bounded_length (text : option (list Z)) (maximum : Z) : option Z :=
  match text with
  | None => None
  | Some text =>
      let count := length_loop (Z.to_nat (maximum + 1)) text maximum 0 in
      if maximum <? count then None else Some count
  end.

(** ** src/ramfs.c *)

Section ramfs.
Context {R : Type}.

Record ramfs_state := mk_ramfs_state { filesystem : option (argus_ramfs_v1_t R); ramfs_storage : R }.
Implicit Types s : ramfs_state.

Definition ramfs_valid_descriptor (descriptor : option (argus_ramfs_v1_t R)) : bool :=
  match descriptor with
  | None => false
  | Some d =>
      (rf_abi_version d =? ARGUS_RAMFS_ABI_VERSION) && (rf_struct_size d =? 96) && module_valid_name (rf_name d) &&
      nz (rf_state_size d) && (rf_state_size d <=? RAMFS_STATE_CAPACITY) && nz (rf_state_alignment d) &&
      ((rf_state_alignment d & (rf_state_alignment d - 1)) =? 0) && (rf_state_alignment d <=? RAMFS_STATE_ALIGNMENT) &&
      (rf_max_files d =? ARGUS_RAMFS_MAX_FILES) && (rf_max_path d =? ARGUS_RAMFS_MAX_PATH) &&
      (rf_max_data d =? ARGUS_RAMFS_MAX_DATA) && (rf_reserved d =? 0) && present (rf_initialize d) &&
      present (rf_write d) && present (rf_read d) && present (rf_entry d) && present (rf_remove d)
  end.

Definition reset_filesystem s : bool * ramfs_state :=
  match filesystem s with
  | None => (false, s)
  | Some d =>
      match rf_initialize d with
      | None => (false, s)
      | Some initialize =>
          let '(status, storage) := initialize (ramfs_storage s) RAMFS_STATE_CAPACITY in
          (status =? ARGUS_RAMFS_OK, mk_ramfs_state (filesystem s) storage)
      end
  end.

(** [entry] is the result of [argus_rust_ramfs_entry]. *)
Definition ramfs_init (entry : option (argus_ramfs_v1_t R)) s : bool * ramfs_state :=
  if negb (ramfs_valid_descriptor entry) then (false, mk_ramfs_state None (ramfs_storage s))
  else reset_filesystem (mk_ramfs_state entry (ramfs_storage s)).

Definition ramfs_write s (path data : option (list Z)) (length : Z) : Z * ramfs_state :=
  match filesystem s, path with
  | Some d, Some p =>
      match bounded_length path (rf_max_path d), rf_write d with
      | Some path_length, Some write =>
          let '(status, storage) := write (ramfs_storage s) p path_length data length in
          (status, mk_ramfs_state (filesystem s) storage)
      | _, _ => (ARGUS_RAMFS_INVALID, s)
      end
  | _, _ => (ARGUS_RAMFS_INVALID, s)
  end.

(** [length] is the value behind the out-parameter. *)
Definition ramfs_read s (path output : option (list Z)) (capacity length : Z) : Z * (option (list Z) * Z) :=
  match filesystem s, path with
  | Some d, Some p =>
      match bounded_length path (rf_max_path d), rf_read d with
      | Some path_length, Some read => read (ramfs_storage s) p path_length output capacity length
      | _, _ => (ARGUS_RAMFS_INVALID, (output, length))
      end
  | _, _ => (ARGUS_RAMFS_INVALID, (output, length))
  end.

Definition ramfs_entry s (index : Z) (path : option (list Z)) (capacity path_length data_length : Z)
    : Z * (option (list Z) * Z * Z) :=
  match filesystem s, path with
  | Some d, Some p =>
      match rf_entry d with
      | Some entry =>
          if negb (nz capacity) then (ARGUS_RAMFS_INVALID, (path, path_length, data_length))
          else
            let '(status, (p, path_length, data_length)) :=
              entry (ramfs_storage s) index p (capacity - 1) path_length data_length in
            if status =? ARGUS_RAMFS_OK then
              if capacity <=? path_length then (ARGUS_RAMFS_INVALID, (Some p, path_length, data_length))
              else (status, (Some (zset p path_length 0), path_length, data_length))
            else (status, (Some p, path_length, data_length))
      | None => (ARGUS_RAMFS_INVALID, (path, path_length, data_length))
      end
  | _, _ => (ARGUS_RAMFS_INVALID, (path, path_length, data_length))
  end.

Definition ramfs_remove s (path : option (list Z)) : Z * ramfs_state :=
  match filesystem s, path with
  | Some d, Some p =>
      match bounded_length path (rf_max_path d), rf_remove d with
      | Some path_length, Some remove =>
          let '(status, storage) := remove (ramfs_storage s) p path_length in
          (status, mk_ramfs_state (filesystem s) storage)
      | _, _ => (ARGUS_RAMFS_INVALID, s)
      end
  | _, _ => (ARGUS_RAMFS_INVALID, s)
  end.

(** [while (count < max_files && entry(count) == OK) ++count;], at most
    [max_files] rounds.  The buffer and the two lengths are locals. *)
Fixpoint file_count_loop (fuel : nat) (d : argus_ramfs_v1_t R) (storage : R) (path : list Z) (path_length data_length count : Z) : Z :=
  match fuel with
  | O => count
  | S fuel' =>
      match rf_entry d with
      | None => count
      | Some entry =>
          if count <? rf_max_files d then
            let '(status, (path, path_length, data_length)) :=
              entry storage count path ARGUS_RAMFS_MAX_PATH path_length data_length in
            if status =? ARGUS_RAMFS_OK then file_count_loop fuel' d storage path path_length data_length (count + 1) else count
          else count
      end
  end.
Definition ramfs_file_count s : Z :=
  match filesystem s with
  | None => 0
  | Some d => file_count_loop (Z.to_nat (rf_max_files d)) d (ramfs_storage s) (replicate 48 0) 0 0 0
  end.

Definition seed_filesystem s : bool * ramfs_state :=
  let readme := text "ArgusOS Rust RAMFS" ++ [10] in
  let motd := text "memory-safe files, bounded by design" ++ [10] in
  let '(status, s) := ramfs_write s (Some (text "/README")) (Some readme) 19 in
  if status !=? ARGUS_RAMFS_OK then (false, s)
  else let '(status, s) := ramfs_write s (Some (text "/etc/motd")) (Some motd) 37 in (status =? ARGUS_RAMFS_OK, s).

(** A write compared with the expected status. *)
Definition write_gives s (path : string) (data : list Z) (expected : Z) : bool * ramfs_state :=
  let '(status, s) := ramfs_write s (Some (text path)) (Some data) (Z.of_nat (length data)) in (status =? expected, s).

(** The loop that fills the file system: files /f0 to /fF, one byte each. *)
Definition fill_files (st : bool * ramfs_state) : bool * ramfs_state :=
  for_range 0 ARGUS_RAMFS_MAX_FILES (fun i '(valid, s) =>
    let '(status, s) := ramfs_write s (Some [47; 102; zget 0 (text "0123456789ABCDEF") i]) (Some [u8 (0x40 + i)]) 1 in
    ((status =? ARGUS_RAMFS_OK) && valid, s)) st.

(** The loop over the entries; the buffer and the lengths are locals. *)
Definition list_files s (valid : bool) : bool * (list Z * Z * Z) :=
  for_range 0 ARGUS_RAMFS_MAX_FILES (fun i '(valid, (path, pl, dl)) =>
    let '(status, (path', pl, dl)) := ramfs_entry s i (Some path) (ARGUS_RAMFS_MAX_PATH + 1) pl dl in
    ((status =? ARGUS_RAMFS_OK) && nz pl && valid, (default path path', pl, dl))) (valid, (replicate 49 0, 0, 0)).

Definition ramfs_self_test s : bool * ramfs_state :=
  let '(ok, s) := reset_filesystem s in
  if negb ok then (false, s)
  else
    (* three && in a row: a later write happens only when the earlier one was refused as expected *)
    let '(valid, s) := write_gives s "relative" [120] ARGUS_RAMFS_INVALID in
    let '(valid, s) := if valid then write_gives s "/bad//path" [120] ARGUS_RAMFS_INVALID else (false, s) in
    let '(valid, s) := if valid then write_gives s "/../escape" [120] ARGUS_RAMFS_INVALID else (false, s) in
    let '(valid, s) := fill_files (valid, s) in
    let valid := (ramfs_file_count s =? ARGUS_RAMFS_MAX_FILES) && valid in
    let '(r, s) := write_gives s "/overflow" [120] ARGUS_RAMFS_NO_SPACE in
    let valid := r && valid in
    let '(r, s) := write_gives s "/fA" [0x4A; 0x5A] ARGUS_RAMFS_OK in
    let valid := r && (ramfs_file_count s =? ARGUS_RAMFS_MAX_FILES) && valid in
    let '(status, (output, n)) := ramfs_read s (Some (text "/fA")) (Some [0; 0]) 1 0 in
    let valid := (status =? ARGUS_RAMFS_BUFFER_TOO_SMALL) && (n =? 2) && valid in
    let '(status, (output, n)) := ramfs_read s (Some (text "/fA")) output 2 n in
    let valid := (status =? ARGUS_RAMFS_OK) && (zget 0 (default [] output) 0 =? 0x4A) &&
                 (zget 0 (default [] output) 1 =? 0x5A) && (n =? 2) && valid in
    let '(status, s) := ramfs_remove s (Some (text "/f0")) in
    let '(r, s) := if status =? ARGUS_RAMFS_OK
                   then let '(status, s) := ramfs_remove s (Some (text "/f0")) in (status =? ARGUS_RAMFS_NOT_FOUND, s)
                   else (false, s) in
    let valid := r && valid in
    let '(r, s) := write_gives s "/replacement" [111; 107] ARGUS_RAMFS_OK in
    let valid := r && valid in
    let '(valid, (path, pl, dl)) := list_files s valid in
    let '(status, _) := ramfs_entry s ARGUS_RAMFS_MAX_FILES (Some path) (ARGUS_RAMFS_MAX_PATH + 1) pl dl in
    let valid := (status =? ARGUS_RAMFS_NOT_FOUND) && valid in
    let '(reset, s) := reset_filesystem s in
    let '(seeded, s) := if reset then seed_filesystem s else (false, s) in
    (valid && seeded && (ramfs_file_count s =? 2), s).

Definition ramfs_capacity s : Z := match filesystem s with Some d => rf_max_files d | None => 0 end.
Definition ramfs_max_file_size s : Z := match filesystem s with Some d => rf_max_data d | None => 0 end.
Definition ramfs_descriptor s : option (argus_ramfs_v1_t R) := filesystem s.

End ramfs.
Arguments ramfs_state : clear implicits.

(** ** src/fat32.c *)

Section fat32.
Context {F : Type}.

Record fat32_state := mk_fat32_state {
  reader : option (argus_fat32_v1_t F);
  mounted_device : option argus_block_device_v1_t;
  fat32_storage : F }.
Implicit Types s : fat32_state.

Definition fat32_valid_descriptor (descriptor : option (argus_fat32_v1_t F)) : bool :=
  match descriptor with
  | None => false
  | Some d =>
      (ff_abi_version d =? ARGUS_FAT32_ABI_VERSION) && (ff_struct_size d =? 88) && module_valid_name (ff_name d) &&
      nz (ff_state_size d) && (ff_state_size d <=? FAT32_STATE_CAPACITY) && nz (ff_state_alignment d) &&
      ((ff_state_alignment d & (ff_state_alignment d - 1)) =? 0) && (ff_state_alignment d <=? FAT32_STATE_ALIGNMENT) &&
      (ff_max_path d =? ARGUS_FAT32_MAX_PATH) && (ff_max_read d =? ARGUS_FAT32_MAX_READ) &&
      (ff_reserved0 d =? 0) && (ff_reserved1 d =? 0) && present (ff_mount d) && present (ff_info d) &&
      present (ff_entry d) && present (ff_read d)
  end.

(** [entry] is the result of [argus_rust_fat32_entry]. *)
Definition fat32_init (entry : option (argus_fat32_v1_t F)) s (device : option argus_block_device_v1_t) : bool * fat32_state :=
  let failed := mk_fat32_state None None (fat32_storage s) in
  match entry, device with
  | Some d, Some dev =>
      match ff_mount d with
      | Some mount =>
          if negb (block_device_valid device) || negb (fat32_valid_descriptor entry) then (false, failed)
          else
            let '(status, storage) := mount (fat32_storage s) FAT32_STATE_CAPACITY dev in
            if status !=? ARGUS_FAT32_OK then (false, mk_fat32_state None None storage)
            else (true, mk_fat32_state entry device storage)
      | None => (false, failed)
      end
  | _, _ => (false, failed)
  end.

Definition fat32_info s (info : argus_fat32_info_v1_t) : Z * argus_fat32_info_v1_t :=
  match reader s, mounted_device s with
  | Some d, Some _ => match ff_info d with Some get => get (fat32_storage s) info | None => (ARGUS_FAT32_INVALID, info) end
  | _, _ => (ARGUS_FAT32_INVALID, info)
  end.

Definition fat32_entry s (index : Z) (path : option (list Z)) (path_capacity path_length file_size attributes : Z)
    : Z * (option (list Z) * Z * Z * Z) :=
  match reader s, mounted_device s, path with
  | Some d, Some device, Some p =>
      match ff_entry d with
      | Some entry =>
          if negb (nz path_capacity) then (ARGUS_FAT32_INVALID, (path, path_length, file_size, attributes))
          else
            let '(status, (p, path_length, file_size, attributes)) :=
              entry (fat32_storage s) device index p (path_capacity - 1) path_length file_size attributes in
            if status =? ARGUS_FAT32_OK then
              if path_capacity <=? path_length then (ARGUS_FAT32_CORRUPT, (Some p, path_length, file_size, attributes))
              else (status, (Some (zset p path_length 0), path_length, file_size, attributes))
            else (status, (Some p, path_length, file_size, attributes))
      | None => (ARGUS_FAT32_INVALID, (path, path_length, file_size, attributes))
      end
  | _, _, _ => (ARGUS_FAT32_INVALID, (path, path_length, file_size, attributes))
  end.

Definition fat32_read s (path output : option (list Z)) (output_capacity output_length : Z) : Z * (option (list Z) * Z) :=
  match reader s, mounted_device s, path with
  | Some d, Some device, Some p =>
      match bounded_length path (ff_max_path d), ff_read d with
      | Some path_length, Some read => read (fat32_storage s) device p path_length output output_capacity output_length
      | _, _ => (ARGUS_FAT32_INVALID, (output, output_length))
      end
  | _, _, _ => (ARGUS_FAT32_INVALID, (output, output_length))
  end.

(** The loop that advances both pointers over equal characters, from index [i]; at
    most one round per byte of [left]. *)
Fixpoint strings_equal_loop (fuel : nat) (left right : list Z) (i : Z) : bool :=
  let done_ := negb (nz (zget 0 left i)) && negb (nz (zget 0 right i)) in
  match fuel with
  | O => done_
  | S fuel' =>
      if nz (zget 0 left i) && nz (zget 0 right i) && (zget 0 left i =? zget 0 right i)
      then strings_equal_loop fuel' left right (i + 1)
      else done_
  end.
Definition strings_equal (left right : list Z) : bool := strings_equal_loop (length left) left right 0.

(** The loop over at most 128 entries: [found_hello], [reached_end] and [valid]. *)
Fixpoint scan_entries (fuel : nat) s (index : Z) (path : list Z) (pl fs at_ : Z) (found_hello valid : bool) : bool * bool * bool :=
  match fuel with
  | O => (found_hello, false, valid)
  | S fuel' =>
      let '(status, (path', pl, fs, at_)) := fat32_entry s index (Some path) (ARGUS_FAT32_MAX_PATH + 1) pl fs at_ in
      let path := default path path' in
      if status =? ARGUS_FAT32_NOT_FOUND then (found_hello, true, valid)
      else if (status !=? ARGUS_FAT32_OK) || (pl <? 2) || (ARGUS_FAT32_MAX_PATH <? pl) then (found_hello, false, false)
      else
        let found_hello := if strings_equal path (text "/HELLO.TXT")
                           then (pl =? 10) && (fs =? 23) && negb (nz (at_ & 0x10)) else found_hello in
        scan_entries fuel' s (index + 1) path pl fs at_ found_hello valid
  end.

Definition expected_file : list Z := text "ArgusOS FAT32 via Rust" ++ [10].

(** The volume's parameters are those of a FAT32 volume on the device. *)
Definition volume_valid (v : argus_fat32_info_v1_t) (device : argus_block_device_v1_t) : bool :=
  (fi_bytes_per_sector v =? 512) && nz (fi_sectors_per_cluster v) && (fi_sectors_per_cluster v <=? 128) &&
  ((fi_sectors_per_cluster v & (fi_sectors_per_cluster v - 1)) =? 0) && ((fi_fat_count v =? 1) || (fi_fat_count v =? 2)) &&
  (2 <=? fi_root_cluster v) && nz (fi_total_sectors v) && (fi_total_sectors v <=? bd_sector_count device) &&
  (65525 <=? fi_data_clusters v) && (fi_first_data_sector v <? fi_total_sectors v).

(** Locals the source leaves uninitialised start at zero. *)
Definition fat32_self_test s : bool :=
  match reader s, mounted_device s with
  | Some _, Some device =>
      let '(status, volume) := fat32_info s (mk_fat32_info 0 0 0 0 0 0 0) in
      let valid := (status =? ARGUS_FAT32_OK) && volume_valid volume device in
      let '(found_hello, reached_end, valid) := scan_entries 128 s 0 (replicate 49 0) 0 0 0 false valid in
      let valid := found_hello && reached_end && valid in
      let size := Z.of_nat (length expected_file) in
      let '(status, (output, n)) := fat32_read s (Some (text "/HELLO.TXT")) (Some (replicate 23 0)) 0 0 in
      let valid := (status =? ARGUS_FAT32_BUFFER_TOO_SMALL) && (n =? size) && valid in
      let '(status, (output, n)) := fat32_read s (Some (text "/hello.txt")) output size n in
      let valid := (status =? ARGUS_FAT32_OK) && (n =? size) && valid in
      let valid := for_range 0 size (fun i valid => (zget 0 (default [] output) i =? zget 0 expected_file i) && valid) valid in
      let '(status1, (output, n)) := fat32_read s (Some (text "HELLO.TXT")) output size n in
      let '(status2, (output, n)) := fat32_read s (Some (text "/DIR/FILE")) output size n in
      let '(status3, _) := fat32_read s (Some (text "/MISSING.TXT")) output size n in
      (status1 =? ARGUS_FAT32_INVALID) && (status2 =? ARGUS_FAT32_INVALID) && (status3 =? ARGUS_FAT32_NOT_FOUND) && valid
  | _, _ => false
  end.

Definition fat32_descriptor s : option (argus_fat32_v1_t F) := reader s.

End fat32.
Arguments fat32_state : clear implicits.

(** ** Strings *)

Lemma length_loop_spec text maximum n : forall fuel count,
  (forall i, count <= i < count + n -> nz (u8 (zget 0 text i)) = true) -> 0 <= n ->
  (nz (u8 (zget 0 text (count + n))) = false \/ maximum < count + n) -> count + n <= maximum + 1 ->
  n <= Z.of_nat fuel -> length_loop fuel text maximum count = count + n.
Proof.
  intros fuel. revert n. induction fuel as [|fuel IH]; intros n count Hnz Hn Hend Hmax Hf; cbn [length_loop].
  - lia.
  - destruct (Z.eq_dec n 0) as [->|Hne].
    + rewrite Z.add_0_r in *. destruct Hend as [->|Hend]; [by rewrite andb_false_r|].
      destruct (Z.leb_spec count maximum); [lia|done].
    + rewrite (Hnz count) by lia. destruct (Z.leb_spec count maximum); [|lia]. cbn [andb].
      replace (count + n) with ((count + 1) + (n - 1)) in * by lia. apply IH; [|lia|done|lia|lia].
      intros i Hi. apply Hnz. lia.
Qed.

(** The first zero of a string within [maximum], if any. *)
Lemma first_zero text maximum : 0 <= maximum ->
  (exists n, 0 <= n <= maximum /\ u8 (zget 0 text n) = 0 /\ forall i, 0 <= i < n -> u8 (zget 0 text i) <> 0)
  \/ (forall i, 0 <= i <= maximum -> u8 (zget 0 text i) <> 0).
Proof.
  intros Hm. destruct (zfind (fun i => u8 (zget 0 text i) =? 0) 0 (Z.to_nat (maximum + 1))) as [n|] eqn:E.
  - apply zfind_Some in E as (Hr & Hz & Hf). left. exists n. b2p. split_and!; [lia|lia|done|]. intros i Hi. specialize (Hf i ltac:(lia)). by b2p.
  - rewrite zfind_None in E. right. intros i Hi. specialize (E i ltac:(lia)). by b2p.
Qed.

(** [bounded_length] is the string's length when that is at most [maximum], and
    fails exactly on longer strings; it looks at no byte after index [maximum]. *)
Theorem bounded_length_exact text maximum :
  0 <= maximum ->
  match bounded_length (Some text) maximum with
  | Some n => 0 <= n <= maximum /\ u8 (zget 0 text n) = 0 /\ forall i, 0 <= i < n -> u8 (zget 0 text i) <> 0
  | None => forall i, 0 <= i <= maximum -> u8 (zget 0 text i) <> 0
  end.
Proof.
  intros Hm. unfold bounded_length. cbv zeta. destruct (first_zero text maximum Hm) as [(n & Hn & Hz & Hf)|Hf].
  - rewrite (length_loop_spec text maximum n); [|intros; unfold nz; specialize (Hf i); lia|lia|left; by rewrite Z.add_0_l, Hz|lia|lia].
    rewrite Z.add_0_l. destruct (Z.ltb_spec maximum n); [lia|]. done.
  - rewrite (length_loop_spec text maximum (maximum + 1)); [|intros; unfold nz; specialize (Hf i); lia|lia|right; lia|lia|lia].
    rewrite Z.add_0_l. destruct (Z.ltb_spec maximum (maximum + 1)); [done|lia].
Qed.

(** A directory entry's name is always terminated inside the caller's buffer.
    Whatever the file system answers, provided it does not change the size of the
    buffer, [fat32_entry] keeps the buffer's size, and a successful answer leaves a
    length below the capacity with a zero at that position. *)
Theorem fat32_entry_terminated {F} (s : fat32_state F) index p capacity pl fs at_ status p' pl' fs' at' :
  (forall d entry dev i q c a b e, reader s = Some d -> ff_entry d = Some entry ->
     length (fst (fst (fst (snd (entry (fat32_storage s) dev i q c a b e))))) = length q /\
     0 <= snd (fst (fst (snd (entry (fat32_storage s) dev i q c a b e))))) ->
  Z.of_nat (length p) = capacity ->
  fat32_entry s index (Some p) capacity pl fs at_ = (status, (Some p', pl', fs', at')) ->
  length p' = length p /\ (status = ARGUS_FAT32_OK -> 0 <= pl' < capacity /\ zget 1 p' pl' = 0).
Proof.
  intros Hc Hcap. unfold fat32_entry. destruct (reader s) as [d|] eqn:Er; [|by intros [= <- <- <- <- <-]].
  destruct (mounted_device s) as [dev|]; [|by intros [= <- <- <- <- <-]].
  destruct (ff_entry d) as [entry|] eqn:Ee; [|by intros [= <- <- <- <- <-]].
  case_if; [by intros [= <- <- <- <- <-]|].
  specialize (Hc d entry dev index p (capacity - 1) pl fs at_ eq_refl Ee).
  destruct (entry _ _ _ _ _ _ _ _) as [st [[[q l] f] a]]. cbn [fst snd] in Hc. destruct Hc as [Hl Hl0].
  case_if; [|intros [= <- <- <- <- <-]; b2p; done].
  destruct (Z.leb_spec capacity l); intros [= <- <- <- <- <-]; [done|]. split; [by rewrite zset_length|].
  intros _. split; [lia|]. apply zget_zset_eq. lia.
Qed.

(** A reader that lists one file. *)
Definition sample_reader : argus_fat32_v1_t unit :=
  mk_fat32 1 88 (text "fat32") 16 8 48 4096 0 0 (Some (fun s _ _ => (0, s))) (Some (fun _ i => (0, i)))
    (Some (fun _ _ index path _ pl fs at_ =>
       if index =? 0 then (0, (zset (zset path 0 47) 1 65, 2, 23, 0x20)) else (-1, (path, 0, 0, 0))))
    (Some (fun _ _ _ _ output _ n => (-1, (output, n)))).
Definition sample_fat32 : fat32_state unit := mk_fat32_state (Some sample_reader) (Some fixture_device) tt.

Lemma fat32_entry_terminated_witness :
  exists p, fat32_entry sample_fat32 0 (Some (replicate 4 7)) 4 0 0 0 = (0, (Some p, 2, 23, 0x20)) /\ zget 1 p 2 = 0.
Proof.
  exists [47; 65; 0; 7]. split; [reflexivity|].
  refine (proj2 (proj2 (fat32_entry_terminated sample_fat32 0 (replicate 4 7) 4 0 0 0 0 [47; 65; 0; 7] 2 23 0x20 _ _ _) _)).
  - intros d entry dev i q c a b e Hd He. injection Hd as <-. injection He as <-. cbn beta.
    destruct (i =? 0); cbn [fst snd]; [|split; [reflexivity|lia]]. split; [|lia]. rewrite !zset_length. reflexivity.
  - reflexivity.
  - reflexivity.
  - reflexivity.
Defined.
