(* ===== verification/Console.v ===== *)
(** * The text console (src/console.c)

    The console draws text in a region of the framebuffer or of a surface, or
    passes it to the firmware's text output when there is no framebuffer.  What
    it sends there is the log [cw_text] of protocol calls.  The module's static
    variables are [console_t]; [target_surface] is an address, 0 the null
    pointer.  Characters are bytes.

    The main theorem relates the pixels of the region to an abstract terminal, a
    grid of characters with a cursor. *)

From stdpp Require Import base list gmap numbers.
From Stdlib Require Import ZArith Lia.
From S2P Require Import Prelude Memory Heap Raster Gop Surface.

Open Scope Z_scope.

(** Calls of [EFI_SIMPLE_TEXT_OUTPUT_PROTOCOL]. *)
Inductive text_call :=
| OutputString (text : list Z)
| SetAttribute (attribute : Z)
| ClearScreen.

Record console_t := mk_console {
  fallback_out : bool;
  framebuffer_mode : bool;
  con_fg : Z;
  con_bg : Z;
  cursor_x : Z;
  cursor_y : Z;
  con_scale : Z;
  cell_w : Z;
  cell_h : Z;
  region_x : Z;
  region_y : Z;
  region_w : Z;
  region_h : Z;
  target_surface : Z }.

Definition con_cursor (c : console_t) (x y : Z) : console_t :=
  mk_console (fallback_out c) (framebuffer_mode c) (con_fg c) (con_bg c) x y (con_scale c) (cell_w c) (cell_h c)
    (region_x c) (region_y c) (region_w c) (region_h c) (target_surface c).
Definition con_region (c : console_t) (target x y w h : Z) : console_t :=
  mk_console (fallback_out c) (framebuffer_mode c) (con_fg c) (con_bg c) (cursor_x c) (cursor_y c) (con_scale c)
    (cell_w c) (cell_h c) x y w h target.
Definition con_colors (c : console_t) (fg bg : Z) : console_t :=
  mk_console (fallback_out c) (framebuffer_mode c) fg bg (cursor_x c) (cursor_y c) (con_scale c) (cell_w c) (cell_h c)
    (region_x c) (region_y c) (region_w c) (region_h c) (target_surface c).
Definition con_mode (c : console_t) (out mode : bool) (target : Z) : console_t :=
  mk_console out mode (con_fg c) (con_bg c) (cursor_x c) (cursor_y c) (con_scale c) (cell_w c) (cell_h c)
    (region_x c) (region_y c) (region_w c) (region_h c) target.
Definition con_cells (c : console_t) (scale w h : Z) : console_t :=
  mk_console (fallback_out c) (framebuffer_mode c) (con_fg c) (con_bg c) (cursor_x c) (cursor_y c) scale w h
    (region_x c) (region_y c) (region_w c) (region_h c) (target_surface c).

Record console_world := mk_cworld { cw_con : console_t; cw_display : display; cw_text : list text_call }.
Definition put_con (w : console_world) (c : console_t) : console_world := mk_cworld c (cw_display w) (cw_text w).
Definition put_display (w : console_world) (d : display) : console_world := mk_cworld (cw_con w) d (cw_text w).
Definition firmware_call (w : console_world) (t : text_call) : console_world :=
  mk_cworld (cw_con w) (cw_display w) (cw_text w ++ [t]).

Definition palette : list (Z * Z * Z) :=
  [(0,0,0); (0,0,170); (0,170,0); (0,170,170);
   (170,0,0); (170,0,170); (170,85,0); (170,170,170);
   (85,85,85); (85,85,255); (85,255,85); (85,255,255);
   (255,85,85); (255,85,255); (255,255,85); (255,255,255)].

Definition fallback_char (w : console_world) (c : Z) : console_world :=
  if negb (fallback_out (cw_con w)) then w
  else if c =? 10 then firmware_call (firmware_call w (OutputString [13; 0])) (OutputString [10; 0])
  else firmware_call w (OutputString [u8 c; 0]).

(** [if (target_surface) surface_... else gop_...] *)
Definition target_fill (c : console_t) (d : display) (x y w h color : Z) : display :=
  if nz (target_surface c) then surface_fill_rect d (target_surface c) x y w h color
  else put_mem d (gop_fill_rect (dp_gop d) (dp_mem d) x y w h color).
Definition target_scroll (c : console_t) (d : display) : display :=
  if nz (target_surface c)
  then surface_scroll_rect_up d (target_surface c) (region_x c) (region_y c) (region_w c) (region_h c) (cell_h c) (con_bg c)
  else put_mem d (gop_scroll_rect_up (dp_gop d) (dp_mem d) (region_x c) (region_y c) (region_w c) (region_h c)
                    (cell_h c) (con_bg c)).

Definition draw_glyph (con : console_t) (d : display) (c x y : Z) : display :=
  let d := target_fill con d x y (cell_w con) (cell_h con) (con_bg con) in
  for_range 0 7 (fun row d =>
    let bits := font5x7_row c row in
    for_range 0 5 (fun col d =>
      if nz (bits & (1 << (4 - col)))
      then target_fill con d (u32 (x + u32 (col * con_scale con))) (u32 (y + u32 (row * con_scale con)))
             (con_scale con) (con_scale con) (con_fg con)
      else d) d) d.

Definition ensure_cursor_visible (w : console_world) : console_world :=
  let c := cw_con w in
  let c := if u32 (region_x c + region_w c) <? u32 (cursor_x c + cell_w c)
           then con_cursor c (region_x c) (u32 (cursor_y c + cell_h c)) else c in
  if u32 (region_y c + region_h c) <? u32 (cursor_y c + cell_h c)
  then mk_cworld (con_cursor c (cursor_x c) (u32 (u32 (region_y c + region_h c) - cell_h c)))
         (target_scroll c (cw_display w)) (cw_text w)
  else put_con w c.

Definition console_set_color (w : console_world) (index : Z) : console_world :=
  let index := index & 15 in
  let c := cw_con w in
  if negb (framebuffer_mode c) then
    if fallback_out c then firmware_call w (SetAttribute index) else w
  else
    let '(r, g, b) := zget (0, 0, 0) palette index in
    put_con w (con_colors c (gop_rgb (dp_gop (cw_display w)) r g b) (con_bg c)).

(** [out]: the system table has a text output; [located]: the graphics mode. *)
Definition console_init (w : console_world) (out : bool) (located : option gop_mode) : bool * console_world :=
  let c := cw_con w in
  let '(mode, g) := gop_init (dp_gop (cw_display w)) located in
  let d := mk_display (dp_surfaces (cw_display w)) g (dp_heap (cw_display w)) in
  let c := con_mode c out mode 0 in
  if negb mode then (false, mk_cworld c d (cw_text w))
  else
    let scale := if (800 <=? gop_width g) && (600 <=? gop_height g) then 2 else 1 in
    let c := con_cells c scale (6 * scale) (9 * scale) in
    if (gop_width g <? cell_w c) || (gop_height g <? cell_h c)
    then (false, mk_cworld (con_mode c out false 0) d (cw_text w))
    else
      let c := con_cursor (con_region c 0 0 0 (gop_width g) (gop_height g)) 0 0 in
      let c := con_colors c (con_fg c) (gop_rgb g 0 0 0) in
      let w := console_set_color (mk_cworld c d (cw_text w)) 10 in
      (true, put_display w (put_mem d (gop_fill g (dp_mem d) (con_bg (cw_con w))))).

Definition console_uses_framebuffer (w : console_world) : bool := framebuffer_mode (cw_con w).

Definition console_clear (w : console_world) : console_world :=
  let c := con_cursor (cw_con w) (region_x (cw_con w)) (region_y (cw_con w)) in
  let w := put_con w c in
  if negb (framebuffer_mode c) then
    if fallback_out c then firmware_call w ClearScreen else w
  else put_display w (target_fill c (cw_display w) (region_x c) (region_y c) (region_w c) (region_h c) (con_bg c)).

(** The cursor after a backspace. *)
Definition backspace (c : console_t) : console_t :=
  if u32 (region_x c + cell_w c) <=? cursor_x c then con_cursor c (cursor_x c - cell_w c) (cursor_y c)
  else if u32 (region_y c + cell_h c) <=? cursor_y c then
    let x := u32 (region_x c + u32 (region_w c / cell_w c * cell_w c)) in
    con_cursor c (if u32 (region_x c + cell_w c) <=? x then x - cell_w c else x) (cursor_y c - cell_h c)
  else c.

(** [console_putc] of a character other than a tab. *)
Definition put_char (w : console_world) (c : Z) : console_world :=
  let con := cw_con w in
  if negb (framebuffer_mode con) then fallback_char w c
  else if c =? 13 then put_con w (con_cursor con (region_x con) (cursor_y con))
  else if c =? 10 then
    ensure_cursor_visible (put_con w (con_cursor con (region_x con) (u32 (cursor_y con + cell_h con))))
  else if c =? 8 then
    let con := backspace con in
    mk_cworld con (target_fill con (cw_display w) (cursor_x con) (cursor_y con) (cell_w con) (cell_h con) (con_bg con))
      (cw_text w)
  else
    let w := ensure_cursor_visible w in
    let con := cw_con w in
    let d := draw_glyph con (cw_display w) c (cursor_x con) (cursor_y con) in
    ensure_cursor_visible
      (mk_cworld (con_cursor con (u32 (cursor_x con + cell_w con)) (cursor_y con)) d (cw_text w)).

(** A tab in a framebuffer console is four spaces. *)
Definition console_putc (w : console_world) (c : Z) : console_world :=
  if framebuffer_mode (cw_con w) && (c =? 9) then for_range 0 4 (fun _ w => put_char w 32) w
  else put_char w c.

(** The text up to its terminating zero. *)
Fixpoint console_write (w : console_world) (s : list Z) : console_world :=
  match s with
  | [] => w
  | c :: s' => if c =? 0 then w else console_write (console_putc w c) s'
  end.

Fixpoint console_write16 (w : console_world) (s : list Z) : console_world :=
  match s with
  | [] => w
  | c :: s' => if c =? 0 then w else console_write16 (console_putc w (if c <? 128 then c else 63)) s'
  end.

(** The tail [console_set_region] and [console_set_surface_region] share. *)
Definition enter_region (w : console_world) (target x y width height : Z) (fg bg : Z * Z * Z) : bool * console_world :=
  let c := cw_con w in
  let c := con_region c target x y (width - width mod cell_w c) (height - height mod cell_h c) in
  if (region_w c <? cell_w c) || (region_h c <? cell_h c) then (false, put_con w c)
  else
    let g := dp_gop (cw_display w) in
    let c := con_colors c (gop_rgb g fg.1.1 fg.1.2 fg.2) (gop_rgb g bg.1.1 bg.1.2 bg.2) in
    (true, console_clear (put_con w c)).

Definition console_set_region (w : console_world) (x y width height : Z) (fg bg : Z * Z * Z) : bool * console_world :=
  let c := cw_con w in
  if negb (framebuffer_mode c) then (false, w)
  else
    let g := dp_gop (cw_display w) in
    if (gop_width g <=? x) || (gop_height g <=? y) || (gop_width g - x <? width) || (gop_height g - y <? height) ||
       (width <? cell_w c) || (height <? cell_h c)
    then (false, w)
    else enter_region w 0 x y width height fg bg.

Definition console_set_surface_region (w : console_world) (surface x y width height : Z) (fg bg : Z * Z * Z)
    : bool * console_world :=
  let c := cw_con w in
  match surface_at (cw_display w) surface with
  | None => (false, w)
  | Some s =>
      if negb (framebuffer_mode c) || negb (valid_fields s) || (sf_width s <=? x) || (sf_height s <=? y) ||
         (sf_width s - x <? width) || (sf_height s - y <? height) || (width <? cell_w c) || (height <? cell_h c)
      then (false, w)
      else enter_region w surface x y width height fg bg
  end.

(** The plane the console draws on, the screen in the form of a surface. *)
Definition screen_plane (g : argus_gop_t) : argus_surface_t :=
  mk_surface (gop_fb g) (gop_width g) (gop_height g) (gop_pitch_pixels g) false rect0.
Definition target_plane (c : console_t) (d : display) : argus_surface_t :=
  if nz (target_surface c) then default surface0 (surface_at d (target_surface c)) else screen_plane (dp_gop d).

Definition console_move_region (w : console_world) (x y : Z) : bool * console_world :=
  let c := cw_con w in
  if negb (framebuffer_mode c) then (false, w)
  else
    let target_width := sf_width (target_plane c (cw_display w)) in
    let target_height := sf_height (target_plane c (cw_display w)) in
    if (target_width <=? x) || (target_height <=? y) || (target_width - x <? region_w c) ||
       (target_height - y <? region_h c)
    then (false, w)
    else
      let cursor_offset_x := u32 (cursor_x c - region_x c) in
      let cursor_offset_y := u32 (cursor_y c - region_y c) in
      let c := con_region c (target_surface c) x y (region_w c) (region_h c) in
      (true, put_con w (con_cursor c (u32 (x + cursor_offset_x)) (u32 (y + cursor_offset_y)))).

(** ** Painting the target plane

    [repainted c d d' f]: drawing took [d] to [d'], touching nothing but the plane
    of the console's target, whose pixels are now [f]. *)

Definition target_ok (c : console_t) (d : display) : Prop :=
  gop_ok (dp_gop d) /\
  (target_surface c <> 0 -> exists s, surface_at d (target_surface c) = Some s /\ surface_ok s).

Definition same_plane (s s' : argus_surface_t) : Prop :=
  sf_pixels s' = sf_pixels s /\ sf_width s' = sf_width s /\ sf_height s' = sf_height s /\ sf_stride s' = sf_stride s.

Record repainted (c : console_t) (d d' : display) (f : Z -> Z -> Z) : Prop := {
  pt_gop : dp_gop d' = dp_gop d;
  pt_plane : same_plane (target_plane c d) (target_plane c d');
  pt_others : forall q, q <> target_surface c -> surface_at d' q = surface_at d q;
  pt_ok : target_ok c d';
  pt_pixel : forall x y, on_surface (target_plane c d) x y -> surface_pixel (dp_mem d') (target_plane c d) x y = f x y;
  pt_outside : forall a, ~ surface_byte (target_plane c d) a -> mem_get (dp_mem d') a = mem_get (dp_mem d) a }.

Lemma repainted_refl c d : target_ok c d -> repainted c d d (surface_pixel (dp_mem d) (target_plane c d)).
Proof. by constructor. Qed.

Lemma repainted_ext c d d' f g :
  repainted c d d' f -> (forall x y, on_surface (target_plane c d) x y -> f x y = g x y) -> repainted c d d' g.
Proof. intros [] Hfg. constructor; try done. intros x y Hon. rewrite <- Hfg by done. auto. Qed.

Lemma same_plane_pixel s s' m x y : same_plane s s' -> surface_pixel m s' x y = surface_pixel m s x y.
Proof. intros (A & _ & _ & D). unfold surface_pixel. by rewrite A, D. Qed.
Lemma same_plane_on s s' x y : same_plane s s' -> on_surface s' x y <-> on_surface s x y.
Proof. intros (_ & B & C & _). unfold on_surface. by rewrite B, C. Qed.
Lemma same_plane_byte s s' a : same_plane s s' -> surface_byte s' a <-> surface_byte s a.
Proof. intros (A & _ & C & D). unfold surface_byte. by rewrite A, C, D. Qed.

Lemma repainted_trans c d d1 d2 f1 f2 : repainted c d d1 f1 -> repainted c d1 d2 f2 -> repainted c d d2 f2.
Proof.
  intros P1 P2. pose proof (pt_plane _ _ _ _ P1) as S. constructor.
  - rewrite (pt_gop _ _ _ _ P2). apply P1.
  - destruct (pt_plane _ _ _ _ P2) as (A & B & C & D), S as (A' & B' & C' & D'). unfold same_plane. by rewrite A, B, C, D.
  - intros q Hq. rewrite (pt_others _ _ _ _ P2) by done. by apply P1.
  - apply P2.
  - intros x y Hon. rewrite <- (same_plane_pixel _ _ _ _ _ S). apply P2. by apply (same_plane_on _ _ _ _ S).
  - intros a Ha. rewrite (pt_outside _ _ _ _ P2); [by apply P1|]. by rewrite (same_plane_byte _ _ _ S).
Qed.

(** A colour where [p] holds, the old pixel elsewhere. *)
Definition over (c : console_t) (d : display) (p : Z -> Z -> bool) (f : Z -> Z -> Z) (x y : Z) : Z :=
  if p x y then f x y else surface_pixel (dp_mem d) (target_plane c d) x y.

Lemma drawn_painted c d d' s f :
  target_surface c <> 0 -> gop_ok (dp_gop d) -> surface_at d (target_surface c) = Some s ->
  drawn (target_surface c) s d d' f -> repainted c d d' f.
Proof.
  intros Ht Hg Hs [[s' R] F].
  assert (target_plane c d = s) as Hp by (unfold target_plane, nz; destruct (Z.eqb_spec (target_surface c) 0); [done|cbn; by rewrite Hs]).
  assert (target_plane c d' = s') as Hp'.
  { unfold target_plane, nz. destruct (Z.eqb_spec (target_surface c) 0); [done|]. cbn. by rewrite (redraw_at _ _ _ _ _ R). }
  constructor; rewrite ?Hp, ?Hp'; try done.
  - apply R.
  - apply R.
  - intros q Hq. by eapply redraw_others.
  - split; [by rewrite (rd_gop _ _ _ _ _ R)|]. intros _. exists s'. split; [by eapply redraw_at|apply R].
  - apply R.
Qed.

Lemma screen_painted c d m f :
  target_surface c = 0 -> gop_ok (dp_gop d) ->
  same_outside (gop_fb (dp_gop d)) (gop_pitch_pixels (dp_gop d)) 0 (gop_height (dp_gop d)) (dp_mem d) m ->
  (forall x y, 0 <= x < gop_width (dp_gop d) -> 0 <= y < gop_height (dp_gop d) -> screen (dp_gop d) m x y = f x y) ->
  repainted c d (put_mem d m) f.
Proof.
  intros Ht Hg Hout Hf.
  assert (forall d, target_plane c d = screen_plane (dp_gop d)) as Hp by (intros; unfold target_plane; by rewrite Ht).
  constructor; rewrite ?Hp; try done.
  intros x y [Hx Hy]. by apply Hf.
Qed.

Lemma target_fill_painted c d x y w h color :
  target_ok c d -> 0 <= x -> 0 <= y -> 0 <= w -> 0 <= h ->
  repainted c d (target_fill c d x y w h color) (over c d (in_rect x y w h) (fun _ _ => u32 color)).
Proof.
  intros [Hg Hs] Hx Hy Hw Hh. unfold target_fill, nz. destruct (Z.eqb_spec (target_surface c) 0) as [E|E]; cbn [negb].
  - destruct (gop_fill_rect_spec (dp_gop d) (dp_mem d) x y w h color Hg Hx Hy Hw Hh) as [F1 F2].
    apply screen_painted; [done..|]. intros px py Hpx Hpy. rewrite F2 by done. unfold over, target_plane. by rewrite E.
  - destruct (Hs E) as (s & Hat & Hok). eapply repainted_ext.
    + eapply drawn_painted; [done..|]. by apply fill_rect_drawn.
    + intros px py _. unfold over, target_plane, nz. destruct (Z.eqb_spec (target_surface c) 0); [done|]. cbn. by rewrite Hat.
Qed.

Lemma gop_scroll_spec g m x y w h pixels color :
  gop_ok g -> 0 <= x -> 0 <= y -> 0 <= w -> 0 <= h -> 0 < pixels ->
  let m' := gop_scroll_rect_up g m x y w h pixels color in
  same_outside (gop_fb g) (gop_pitch_pixels g) 0 (gop_height g) m m' /\
  forall px py, 0 <= px < gop_width g -> 0 <= py < gop_height g ->
    screen g m' px py = if in_rect x y w h px py
                        then if py + pixels <? Z.min (y + h) (gop_height g) then screen g m px (py + pixels) else u32 color
                        else screen g m px py.
Proof.
  intros Hg Hx Hy Hw Hh Hp. pose proof Hg as [Hu Hgw Hgp Hgh _ _ _]. unfold gop_scroll_rect_up. rewrite Hu.
  replace (nz pixels) with true by (unfold nz; destruct (Z.eqb_spec pixels 0); [lia|done]). cbn [negb orb]. cbv zeta. match goal with |- context [if ?b then _ else _] => destruct b eqn:Eo end.
  { split; [auto with argus|]. intros px py Hpx Hpy. destruct (in_rect x y w h px py) eqn:E; [|done].
    apply in_rect_true in E. apply orb_true_iff in Eo as [Eo|Eo]; b2p; lia. }
  b2p. set (w' := if _ : bool then _ else w). set (h' := if _ : bool then _ else h).
  assert (0 <= w' <= w /\ x + w' <= gop_width g /\ (w' < w -> x + w' = gop_width g)) as Hw'
    by (unfold w'; case_if; b2p; lia).
  assert (0 <= h' <= h /\ y + h' <= gop_height g /\ Z.min (y + h) (gop_height g) = y + h') as (Hh' & Hyh & Hmin)
    by (unfold h'; case_if; b2p; lia).
  clearbody w' h'. rewrite Hmin.
  assert (forall px py, 0 <= px < gop_width g -> 0 <= py < gop_height g ->
    in_rect x y w h px py = in_rect x y w' h' px py) as Hin.
  { intros px py Hpx Hpy. apply eq_true_iff_eq. rewrite !in_rect_true. lia. }
  match goal with |- context [if ?b then _ else _] => destruct b eqn:Ee end.
  { apply empty_true in Ee. split; [auto with argus|]. intros px py Hpx Hpy. rewrite Hin by done.
    destruct (in_rect x y w' h' px py) eqn:E; [apply in_rect_true in E; lia|done]. }
  b2p. destruct (Z.leb_spec h' pixels).
  { destruct (gop_fill_rect_spec g m x y w' h' color) as [F1 F2]; [done|lia..|]. split; [done|]. intros px py Hpx Hpy.
    rewrite F2, Hin by done. destruct (in_rect x y w' h' px py) eqn:E; [|done]. apply in_rect_true in E.
    destruct (Z.ltb_spec (py + pixels) (y + h')); [lia|done]. }
  destruct (scroll_rows_spec m (gop_fb g) (gop_pitch_pixels g) x y w' (h' - pixels) pixels) as [S1 S2]; try lia.
  set (m1 := scroll_rows _ _ _ _ _ _ _ _) in *. rewrite u32_id by lia.
  destruct (gop_fill_rect_spec g m1 x (y + (h' - pixels)) w' pixels color) as [F1 F2]; [done|lia..|]. split.
  - eapply same_outside_trans; [|exact F1]. eapply same_outside_wider; [| | |exact S1]; lia.
  - intros px py Hpx Hpy. rewrite F2, Hin by done. unfold screen at 1. rewrite S2 by lia. fold (screen g m px (py + pixels)).
    fold (screen g m px py).
    destruct (in_rect x (y + (h' - pixels)) w' pixels px py) eqn:E1, (in_rect x y w' (h' - pixels) px py) eqn:E2,
      (in_rect x y w' h' px py) eqn:E3, (Z.ltb_spec (py + pixels) (y + h')); try done;
      rewrite ?in_rect_true, ?in_rect_false in *; lia.
Qed.

Lemma target_scroll_painted c d :
  target_ok c d -> 0 <= region_x c -> 0 <= region_y c -> 0 <= region_w c -> 0 < cell_h c -> 0 <= region_h c ->
  region_y c + region_h c <= sf_height (target_plane c d) ->
  repainted c d (target_scroll c d)
    (over c d (in_rect (region_x c) (region_y c) (region_w c) (region_h c)) (fun x y =>
       if y + cell_h c <? region_y c + region_h c then surface_pixel (dp_mem d) (target_plane c d) x (y + cell_h c)
       else u32 (con_bg c))).
Proof.
  intros [Hg Hs] Hx Hy Hw Hc Hh Hin. unfold target_scroll, nz. revert Hin. unfold target_plane at 1.
  destruct (Z.eqb_spec (target_surface c) 0) as [E|E]; cbn [negb].
  - rewrite E. change (nz 0) with false. cbn iota. intros Hin. cbn in Hin.
    destruct (gop_scroll_spec (dp_gop d) (dp_mem d) (region_x c) (region_y c) (region_w c) (region_h c) (cell_h c) (con_bg c))
      as [F1 F2]; try done. apply screen_painted; [done..|]. intros px py Hpx Hpy. rewrite F2 by done.
    unfold over, target_plane. rewrite E. change (nz 0) with false. cbn iota. by rewrite Z.min_l by done.
  - destruct (Hs E) as (s & Hat & Hok). unfold nz at 1. destruct (Z.eqb_spec (target_surface c) 0); [done|]. cbn [negb].
    rewrite Hat. intros Hin. cbn in Hin. eapply repainted_ext.
    + eapply drawn_painted; [done..|]. by apply scroll_drawn.
    + intros px py _. unfold over, target_plane, nz. destruct (Z.eqb_spec (target_surface c) 0); [done|]. cbn. rewrite Hat.
      cbn. by rewrite Z.min_l by done.
Qed.

(** ** The console invariant

    The region lies on the target, and the cell at the cursor lies in the region.
    The margin on the size of the target keeps the 32-bit sums of the source
    from wrapping around. *)
Record console_fits (c : console_t) (d : display) : Prop := {
  co_mode : framebuffer_mode c = true;
  co_scale : con_scale c = 1 \/ con_scale c = 2;
  co_cell : cell_w c = 6 * con_scale c /\ cell_h c = 9 * con_scale c;
  co_target : target_ok c d;
  co_size : sf_width (target_plane c d) <= UINT32_MAX - 36 /\ sf_height (target_plane c d) <= UINT32_MAX - 36;
  co_region_x : 0 <= region_x c /\ region_x c + region_w c <= sf_width (target_plane c d);
  co_region_y : 0 <= region_y c /\ region_y c + region_h c <= sf_height (target_plane c d) }.

Record console_ok (c : console_t) (d : display) : Prop := {
  co_fits : console_fits c d;
  co_cursor_x : region_x c <= cursor_x c /\ cursor_x c + cell_w c <= region_x c + region_w c;
  co_cursor_y : region_y c <= cursor_y c /\ cursor_y c + cell_h c <= region_y c + region_h c }.

Definition in_region (c : console_t) : Z -> Z -> bool := in_rect (region_x c) (region_y c) (region_w c) (region_h c).

(** Painting keeps the invariant. *)
Lemma repainted_fits c d d' f : console_fits c d -> repainted c d d' f -> console_fits c d'.
Proof.
  intros [] P. destruct (pt_plane _ _ _ _ P) as (A & B & C & D).
  constructor; rewrite ?B, ?C; try done. apply P.
Qed.

(** Whether the glyph of [c] has a dot in column [i], row [j] of its cell. *)
Definition dot (c i j : Z) : bool := (i <? 5) && (j <? 7) && nz (font5x7_row c j & (1 << (4 - i))).

(** The colour of the pixel [(i, j)] of a cell that shows [c]. *)
Definition glyph_pixel (con : console_t) (fg c i j : Z) : Z :=
  if dot c (i / con_scale con) (j / con_scale con) then u32 fg else u32 (con_bg con).

Definition dots_before (c row col i j : Z) : bool := ((j <? row) || ((j =? row) && (i <? col))) && dot c i j.

Lemma div_eq_iff e s q : 0 < s -> e / s = q <-> q * s <= e < q * s + s.
Proof.
  intros Hs. split; [intros <-; pose proof (Z.div_mod e s); pose proof (Z.mod_pos_bound e s); lia|].
  intros H. symmetry. apply (Z.div_unique_pos e s q (e - q * s)); lia.
Qed.

Lemma dot_square scale x y col row px py :
  scale = 1 \/ scale = 2 -> 0 <= col -> 0 <= row ->
  in_rect (x + col * scale) (y + row * scale) scale scale px py
  = ((px - x) / scale =? col) && ((py - y) / scale =? row).
Proof.
  intros Hs Hc Hr. apply eq_true_iff_eq. rewrite in_rect_true, andb_true_iff, !Z.eqb_eq, !div_eq_iff by lia. lia.
Qed.

Lemma dots_before_next c row col i j :
  0 <= col < 5 -> 0 <= row < 7 ->
  dots_before c row (col + 1) i j
  = if (i =? col) && (j =? row) && nz (font5x7_row c row & (1 << (4 - col))) then true else dots_before c row col i j.
Proof.
  intros Hc Hr. unfold dots_before, dot.
  destruct (Z.eqb_spec i col) as [->|], (Z.eqb_spec j row) as [->|]; cbn [andb].
  - rewrite (proj2 (Z.ltb_ge row row)), (proj2 (Z.ltb_lt col (col + 1))), (proj2 (Z.ltb_ge col col)),
      (proj2 (Z.ltb_lt col 5)), (proj2 (Z.ltb_lt row 7)) by lia. cbn. by destruct (nz _).
  - done.
  - by replace (i <? col + 1) with (i <? col) by (apply eq_true_iff_eq; rewrite !Z.ltb_lt; lia).
  - done.
Qed.

Lemma draw_glyph_painted con d c x y :
  console_fits con d -> 0 <= x -> x + cell_w con <= region_x con + region_w con ->
  0 <= y -> y + cell_h con <= region_y con + region_h con ->
  repainted con d (draw_glyph con d c x y)
    (over con d (in_rect x y (cell_w con) (cell_h con)) (fun px py => glyph_pixel con (con_fg con) c (px - x) (py - y))).
Proof.
  intros Hok Hx Hxw Hy Hyh. destruct Hok as [_ Hs [Hcw Hch] Ht [HW HH] [_ HX] [_ HY]]. unfold draw_glyph. cbv zeta.
  set (s := con_scale con) in *.
  set (P := fun row col d' => repainted con d d' (over con d (in_rect x y (cell_w con) (cell_h con)) (fun px py =>
    if dots_before c row col ((px - x) / s) ((py - y) / s) then u32 (con_fg con) else u32 (con_bg con)))).
  assert (forall row d', P row 5 d' -> P (row + 1) 0 d') as Hrow.
  { intros row d' HP. eapply repainted_ext; [exact HP|]. intros px py _. unfold over.
    destruct (in_rect x y _ _ px py) eqn:Er; [|done]. apply in_rect_true in Er.
    replace (dots_before c (row + 1) 0 ((px - x) / s) ((py - y) / s))
      with (dots_before c row 5 ((px - x) / s) ((py - y) / s)); [done|].
    unfold dots_before, dot. apply eq_true_iff_eq.
    rewrite !andb_true_iff, !orb_true_iff, !andb_true_iff, !Z.ltb_lt, !Z.eqb_eq.
    assert (0 <= (px - x) / s) by (apply Z.div_pos; lia). intuition lia. }
  assert (P 7 0 (for_range 0 7 (fun row d => for_range 0 5 (fun col d =>
      if nz (font5x7_row c row & (1 << (4 - col)))
      then target_fill con d (u32 (x + u32 (col * s))) (u32 (y + u32 (row * s))) s s (con_fg con) else d) d)
      (target_fill con d x y (cell_w con) (cell_h con) (con_bg con)))) as HP.
  { apply (for_range_inv (fun row d' => P row 0 d')); [lia| |].
    - eapply repainted_ext; [apply target_fill_painted; [done|lia..]|]. intros px py _. unfold over.
      destruct (in_rect x y _ _ px py) eqn:Er; [|done]. apply in_rect_true in Er. unfold dots_before.
      assert (0 <= (px - x) / s) by (apply Z.div_pos; lia). assert (0 <= (py - y) / s) by (apply Z.div_pos; lia).
      rewrite (proj2 (Z.ltb_ge ((py - y) / s) 0)), (proj2 (Z.ltb_ge ((px - x) / s) 0)) by lia.
      by rewrite andb_false_r.
    - intros row d1 Hr HP. apply Hrow. apply (for_range_inv (fun col d' => P row col d')); [lia|done|].
      intros col d2 Hc HP2. destruct (nz (font5x7_row c row & (1 << (4 - col)))) eqn:Eb.
      + assert (0 <= col * s /\ col * s + s <= cell_w con /\ 0 <= row * s /\ row * s + s <= cell_h con)
          by (rewrite Hcw, Hch; destruct Hs as [-> | ->]; lia).
        rewrite (u32_id (col * s)), (u32_id (row * s)) by lia. rewrite !u32_id by lia.
        eapply repainted_ext; [eapply repainted_trans; [exact HP2|]; apply target_fill_painted; [apply HP2|lia..]|].
        intros px py Hon. unfold over at 1. rewrite dot_square by (try done; lia).
        rewrite (same_plane_pixel _ _ _ _ _ (pt_plane _ _ _ _ HP2)), (pt_pixel _ _ _ _ HP2) by done. unfold over.
        rewrite dots_before_next, Eb, andb_true_r by lia.
        destruct (in_rect x y (cell_w con) (cell_h con) px py) eqn:E1; destruct (_ && _) eqn:E2; try done.
        apply in_rect_false in E1. apply andb_true_iff in E2 as [E2 E3].
        apply Z.eqb_eq in E2, E3. apply div_eq_iff in E2, E3; [|lia..]. exfalso. apply E1. destruct Hs as [E|E]; rewrite E in *; lia.
      + eapply repainted_ext; [exact HP2|]. intros px py _. unfold over. case_if; [|done].
        rewrite dots_before_next, Eb, andb_false_r by lia. done. }
  eapply repainted_ext; [exact HP|]. intros px py _. unfold over.
  destruct (in_rect x y _ _ px py) eqn:Er; [|done]. apply in_rect_true in Er. unfold glyph_pixel. fold s.
  replace (dots_before c 7 0 ((px - x) / s) ((py - y) / s)) with (dot c ((px - x) / s) ((py - y) / s)); [done|].
  unfold dots_before, dot. apply eq_true_iff_eq.
  rewrite !andb_true_iff, !orb_true_iff, !andb_true_iff, !Z.ltb_lt, !Z.eqb_eq. intuition lia.
Qed.

(** What an operation of the console leaves alone. *)
Record frame (c : console_t) (d d' : display) : Prop := {
  fr_gop : dp_gop d' = dp_gop d;
  fr_plane : same_plane (target_plane c d) (target_plane c d');
  fr_others : forall q, q <> target_surface c -> surface_at d' q = surface_at d q;
  fr_pixel : forall x y, on_surface (target_plane c d) x y -> in_region c x y = false ->
               surface_pixel (dp_mem d') (target_plane c d) x y = surface_pixel (dp_mem d) (target_plane c d) x y;
  fr_outside : forall a, ~ surface_byte (target_plane c d) a -> mem_get (dp_mem d') a = mem_get (dp_mem d) a }.

Lemma frame_refl c d : frame c d d.
Proof. by constructor. Qed.

Lemma frame_trans c d d1 d2 : frame c d d1 -> frame c d1 d2 -> frame c d d2.
Proof.
  intros F1 F2. pose proof (fr_plane _ _ _ F1) as S. constructor.
  - rewrite (fr_gop _ _ _ F2). apply F1.
  - destruct (fr_plane _ _ _ F2) as (A & B & C & D), S as (A' & B' & C' & D'). unfold same_plane. by rewrite A, B, C, D.
  - intros q Hq. rewrite (fr_others _ _ _ F2) by done. by apply F1.
  - intros x y Hon Hr. transitivity (surface_pixel (dp_mem d1) (target_plane c d) x y); [|by apply F1].
    rewrite <- !(same_plane_pixel _ _ _ _ _ S). apply F2; [by apply (same_plane_on _ _ _ _ S)|done].
  - intros a Ha. rewrite (fr_outside _ _ _ F2); [by apply F1|]. by rewrite (same_plane_byte _ _ _ S).
Qed.

Lemma repainted_frame c d d' p f :
  repainted c d d' (over c d p f) -> (forall x y, p x y = true -> in_region c x y = true) -> frame c d d'.
Proof.
  intros [] Hp. constructor; try done. intros x y Hon Hr. rewrite pt_pixel0 by done. unfold over.
  destruct (p x y) eqn:E; [|done]. by rewrite (Hp _ _ E) in Hr.
Qed.

(** ** The abstract terminal *)

(** A cell is blank or shows a character in a colour; cells are indexed by column
    and row. *)
Record grid := mk_grid { gr_cell : Z -> Z -> option (Z * Z); gr_x : Z; gr_y : Z }.

Section grid.
Context (cols rows fg : Z).

Definition grid_scroll (cell : Z -> Z -> option (Z * Z)) (x y : Z) : option (Z * Z) :=
  if y + 1 <? rows then cell x (y + 1) else None.
Definition grid_set (cell : Z -> Z -> option (Z * Z)) (x y : Z) (v : option (Z * Z)) (i j : Z) : option (Z * Z) :=
  if (i =? x) && (j =? y) then v else cell i j.

(** Past the last column the cursor goes to the next row; past the last row the
    text moves up. *)
Definition grid_settle (g : grid) : grid :=
  let '(x, y) := if cols <=? gr_x g then (0, gr_y g + 1) else (gr_x g, gr_y g) in
  if rows <=? y then mk_grid (grid_scroll (gr_cell g)) x (rows - 1) else mk_grid (gr_cell g) x y.

Definition grid_char (g : grid) (c : Z) : grid :=
  if c =? 13 then mk_grid (gr_cell g) 0 (gr_y g)
  else if c =? 10 then grid_settle (mk_grid (gr_cell g) 0 (gr_y g + 1))
  else if c =? 8 then
    let '(x, y) := if 0 <? gr_x g then (gr_x g - 1, gr_y g)
                   else if 0 <? gr_y g then (cols - 1, gr_y g - 1) else (gr_x g, gr_y g) in
    mk_grid (grid_set (gr_cell g) x y None) x y
  else grid_settle (mk_grid (grid_set (gr_cell g) (gr_x g) (gr_y g) (Some (c, fg))) (gr_x g + 1) (gr_y g)).

Definition grid_putc (g : grid) (c : Z) : grid :=
  if c =? 9 then grid_char (grid_char (grid_char (grid_char g 32) 32) 32) 32 else grid_char g c.

Fixpoint grid_write (g : grid) (s : list Z) : grid :=
  match s with
  | [] => g
  | c :: s' => if c =? 0 then g else grid_write (grid_putc g c) s'
  end.
End grid.

(** ** The region shows the terminal *)

Definition con_cols (c : console_t) : Z := region_w c / cell_w c.
Definition con_rows (c : console_t) : Z := region_h c / cell_h c.

Definition cell_pixel (c : console_t) (v : option (Z * Z)) (i j : Z) : Z :=
  match v with None => u32 (con_bg c) | Some (ch, fg) => glyph_pixel c fg ch i j end.

(** The pixel of the region that shows the cells. *)
Definition grid_pixel (c : console_t) (cell : Z -> Z -> option (Z * Z)) (x y : Z) : Z :=
  let i := x - region_x c in
  let j := y - region_y c in
  cell_pixel c (cell (i / cell_w c) (j / cell_h c)) (i mod cell_w c) (j mod cell_h c).

Record displays (c : console_t) (d : display) (cell : Z -> Z -> option (Z * Z)) : Prop := {
  ds_fits : console_fits c d;
  ds_cols : region_w c = con_cols c * cell_w c /\ 0 < con_cols c;
  ds_rows : region_h c = con_rows c * cell_h c /\ 0 < con_rows c;
  ds_cells : forall x y, in_region c x y = true ->
               surface_pixel (dp_mem d) (target_plane c d) x y = grid_pixel c cell x y }.

Definition cursor_at (c : console_t) (x y : Z) : Prop :=
  cursor_x c = region_x c + x * cell_w c /\ cursor_y c = region_y c + y * cell_h c.

(** The console shows the terminal [g]. *)
Record shows (c : console_t) (d : display) (g : grid) : Prop := {
  sh_displays : displays c d (gr_cell g);
  sh_cursor : cursor_at c (gr_x g) (gr_y g);
  sh_x : 0 <= gr_x g < con_cols c;
  sh_y : 0 <= gr_y g < con_rows c }.

Lemma on_region c d x y : console_fits c d -> in_region c x y = true -> on_surface (target_plane c d) x y.
Proof. intros [] H. apply in_rect_true in H. unfold on_surface. lia. Qed.

(** Painting part of the region with what the new cells show. *)
Lemma repainted_displays c d d' p f cell cell' :
  displays c d cell -> repainted c d d' (over c d p f) ->
  (forall x y, in_region c x y = true ->
     if p x y then f x y = grid_pixel c cell' x y else grid_pixel c cell x y = grid_pixel c cell' x y) ->
  displays c d' cell'.
Proof.
  intros [Hf Hc Hr Hd] P Hnew. constructor; [by eapply repainted_fits|done|done|].
  intros x y Hin. rewrite (same_plane_pixel _ _ _ _ _ (pt_plane _ _ _ _ P)), (pt_pixel _ _ _ _ P) by (by eapply on_region).
  unfold over. specialize (Hnew x y Hin). destruct (p x y); [done|]. by rewrite Hd.
Qed.

(** Cell arithmetic: the cell of a pixel. *)
Lemma cell_rect c d cell col row px py :
  displays c d cell -> 0 <= col < con_cols c -> 0 <= row < con_rows c -> in_region c px py = true ->
  in_rect (region_x c + col * cell_w c) (region_y c + row * cell_h c) (cell_w c) (cell_h c) px py
  = ((px - region_x c) / cell_w c =? col) && ((py - region_y c) / cell_h c =? row).
Proof.
  intros [[_ Hs [Hw Hh] _ _ _ _] _ _ _] Hc Hr _. apply eq_true_iff_eq.
  rewrite in_rect_true, andb_true_iff, !Z.eqb_eq, !div_eq_iff by lia. lia.
Qed.

Lemma in_cell_region c d cell col row px py :
  displays c d cell -> 0 <= col < con_cols c -> 0 <= row < con_rows c ->
  in_rect (region_x c + col * cell_w c) (region_y c + row * cell_h c) (cell_w c) (cell_h c) px py = true ->
  in_region c px py = true.
Proof.
  intros [[_ Hs [Hw Hh] _ _ _ _] [Hcols _] [Hrows _] _] Hc Hr. unfold in_region. rewrite !in_rect_true, Hcols, Hrows. nia.
Qed.

(** Painting one cell. *)
Lemma displays_set c d d' cell col row v f :
  displays c d cell -> 0 <= col < con_cols c -> 0 <= row < con_rows c ->
  let x := region_x c + col * cell_w c in let y := region_y c + row * cell_h c in
  repainted c d d' (over c d (in_rect x y (cell_w c) (cell_h c)) f) ->
  (forall px py, in_rect x y (cell_w c) (cell_h c) px py = true -> f px py = cell_pixel c v (px - x) (py - y)) ->
  displays c d' (grid_set cell col row v) /\ frame c d d'.
Proof.
  intros Hd Hc Hr x y P Hf. split.
  - eapply repainted_displays; [exact Hd|exact P|]. intros px py Hin. cbv beta.
    pose proof (cell_rect c d cell col row px py Hd Hc Hr Hin) as E. fold x y in E.
    destruct (in_rect x y _ _ px py) eqn:Er; unfold grid_pixel, grid_set; rewrite <- E; [|done].
    symmetry in E. apply andb_true_iff in E as [E1 E2]. apply Z.eqb_eq in E1, E2.
    rewrite Hf by done.
    pose proof (Z.div_mod (px - region_x c) (cell_w c)). pose proof (Z.div_mod (py - region_y c) (cell_h c)).
    destruct Hd as [[_ Hs [Hw Hh] _ _ _ _] _ _ _]. rewrite E1, E2 in *. f_equal; lia.
  - eapply repainted_frame; [exact P|]. intros px py. by eapply in_cell_region.
Qed.

(** Moving the text up. *)
Lemma displays_scroll c d cell :
  displays c d cell -> displays c (target_scroll c d) (grid_scroll (con_rows c) cell) /\ frame c d (target_scroll c d).
Proof.
  intros Hd. pose proof Hd as [[Hm Hs [Hw Hh] Ht Hz Hx Hy] [Hcw Hc0] [Hrh Hr0] Hcells].
  pose proof (target_scroll_painted c d Ht) as P. specialize (P ltac:(lia) ltac:(lia) ltac:(nia) ltac:(lia) ltac:(nia) ltac:(lia)).
  split; [|eapply repainted_frame; [exact P|done]].
  eapply repainted_displays; [exact Hd|exact P|]. intros px py Hin. cbv beta. fold (in_region c). rewrite Hin.
  pose proof Hin as Hin'. apply in_rect_true in Hin'. unfold grid_pixel at 1, grid_scroll.
  assert (((py - region_y c) / cell_h c + 1 <? con_rows c) = (py + cell_h c <? region_y c + region_h c)) as ->.
  { apply eq_true_iff_eq. rewrite !Z.ltb_lt.
    pose proof (Z.div_mod (py - region_y c) (cell_h c)). pose proof (Z.mod_pos_bound (py - region_y c) (cell_h c)). nia. }
  destruct (Z.ltb_spec (py + cell_h c) (region_y c + region_h c)); [|done].
  rewrite Hcells by (apply in_rect_true; lia). unfold grid_pixel.
  replace (py + cell_h c - region_y c) with (py - region_y c + 1 * cell_h c) by lia.
  by rewrite Z.div_add, Z.mod_add by lia.
Qed.

(** ** Moving the cursor *)

Lemma displays_cursor c d cell x y : displays c d cell -> displays (con_cursor c x y) d cell.
Proof. intros [[] ? ? ?]. by constructor; [constructor|..]. Qed.

Lemma con_cols_cursor c x y : con_cols (con_cursor c x y) = con_cols c.
Proof. done. Qed.
Lemma con_rows_cursor c x y : con_rows (con_cursor c x y) = con_rows c.
Proof. done. Qed.

Lemma frame_cursor c x y d d' : frame (con_cursor c x y) d d' -> frame c d d'.
Proof. by intros []; constructor. Qed.

(** The step from [w] to [w'] changed the cursor and the region's pixels only,
    and left the console showing [g]. *)
Record advanced (w w' : console_world) (g : grid) : Prop := {
  ad_con : exists x y, cw_con w' = con_cursor (cw_con w) x y;
  ad_shows : shows (cw_con w') (cw_display w') g;
  ad_frame : frame (cw_con w) (cw_display w) (cw_display w');
  ad_text : cw_text w' = cw_text w }.

Lemma advanced_trans w w1 w2 g1 g2 : advanced w w1 g1 -> advanced w1 w2 g2 -> advanced w w2 g2.
Proof.
  intros [[x1 [y1 E1]] S1 F1 T1] [[x2 [y2 E2]] S2 F2 T2]. constructor.
  - exists x2, y2. by rewrite E2, E1.
  - done.
  - eapply frame_trans; [exact F1|]. rewrite E1 in F2. by eapply frame_cursor.
  - by rewrite T2.
Qed.

Lemma shows_cursor c d cell x y gx gy :
  displays c d cell -> x = region_x c + gx * cell_w c -> y = region_y c + gy * cell_h c ->
  0 <= gx < con_cols c -> 0 <= gy < con_rows c -> shows (con_cursor c x y) d (mk_grid cell gx gy).
Proof. intros Hd -> -> Hx Hy. constructor; cbn; [by apply displays_cursor|done|done|done]. Qed.

Lemma settle_spec w w0 cell x y :
  displays (cw_con w) (cw_display w) cell -> cursor_at (cw_con w) x y ->
  0 <= x <= con_cols (cw_con w) -> 0 <= y -> y + b2z (con_cols (cw_con w) <=? x) <= con_rows (cw_con w) ->
  (exists a b, cw_con w = con_cursor (cw_con w0) a b) -> frame (cw_con w0) (cw_display w0) (cw_display w) ->
  cw_text w = cw_text w0 ->
  advanced w0 (ensure_cursor_visible w) (grid_settle (con_cols (cw_con w)) (con_rows (cw_con w)) (mk_grid cell x y)).
Proof.
  destruct w as [c d t], w0 as [c0 d0 t0]. cbn [cw_con cw_display cw_text]. intros Hd [Hcx Hcy] Hx Hy Hrow (a0 & b0 & E0) F0 ->.
  pose proof Hd as [[Hm Hs [Hw Hh] Ht [HW HH] [HX1 HX2] [HY1 HY2]] [Hcw Hc0] [Hrh Hr0] _].
  assert (0 <= x * cell_w c <= region_w c) by (rewrite Hcw; nia).
  assert (0 <= y * cell_h c <= region_h c) by (rewrite Hrh; unfold b2z in Hrow; destruct (_ <=? x); nia).
  unfold ensure_cursor_visible. cbn [cw_con cw_display cw_text]. cbv zeta.
  assert ((u32 (region_x c + region_w c) <? u32 (cursor_x c + cell_w c)) = (con_cols c <=? x)) as ->.
  { rewrite !u32_id by lia. apply eq_true_iff_eq. rewrite Z.ltb_lt, Z.leb_le, Hcx, Hcw. nia. }
  set (x' := if con_cols c <=? x then 0 else x). set (y' := if con_cols c <=? x then y + 1 else y).
  assert (grid_settle (con_cols c) (con_rows c) (mk_grid cell x y)
          = if con_rows c <=? y' then mk_grid (grid_scroll (con_rows c) cell) x' (con_rows c - 1) else mk_grid cell x' y')
    as -> by (unfold grid_settle, x', y'; cbn; by destruct (con_cols c <=? x)).
  set (c' := if con_cols c <=? x then _ else c).
  assert (c' = con_cursor c (region_x c + x' * cell_w c) (region_y c + y' * cell_h c)) as ->.
  { unfold c', x', y'. destruct (con_cols c <=? x).
    - rewrite u32_id, Hcy by lia. f_equal; lia.
    - rewrite <- Hcx, <- Hcy. by destruct c. }
  assert (0 <= x' < con_cols c) as Hx' by (unfold x'; destruct (Z.leb_spec (con_cols c) x); lia).
  assert (0 <= y' <= con_rows c) as Hy' by (unfold y', b2z in *; destruct (_ <=? x); lia).
  assert (forall a b, exists a' b', con_cursor c a b = con_cursor c0 a' b') as HE by (intros; rewrite E0; by eexists _, _).
  clearbody x' y'. cbn [con_cursor region_y region_h cursor_y cell_h cursor_x].
  assert (0 <= y' * cell_h c <= region_h c) by (rewrite Hrh; nia).
  assert ((u32 (region_y c + region_h c) <? u32 (region_y c + y' * cell_h c + cell_h c)) = (con_rows c <=? y')) as ->.
  { rewrite !u32_id by lia. apply eq_true_iff_eq. rewrite Z.ltb_lt, Z.leb_le, Hrh. nia. }
  destruct (Z.leb_spec (con_rows c) y').
  - destruct (displays_scroll c d cell Hd) as [D F]. constructor; cbn [cw_con cw_display cw_text]; [apply HE| |  |done].
    + rewrite (u32_id (region_y c + region_h c)) by lia. rewrite u32_id by nia.
      change (con_cursor (con_cursor c ?a ?b) ?x ?y) with (con_cursor c x y).
      apply shows_cursor; [done|done|nia|done|lia].
    + eapply frame_trans; [exact F0|]. apply (frame_cursor c0 a0 b0). rewrite <- E0. exact F.
  - constructor; cbn [put_con cw_con cw_display cw_text]; [apply HE|apply shows_cursor; [done|done|done|done|lia]|done|done].
Qed.

(** The cursor's cell is inside the region. *)
Lemma shows_ok c d g : shows c d g -> console_ok c d.
Proof.
  intros [[Hf [Hc _] [Hr _] _] [Hx Hy] Hgx Hgy]. pose proof Hf as [_ Hs [Hw Hh] _ _ _ _].
  constructor; [done|rewrite Hx, Hc; nia|rewrite Hy, Hr; nia].
Qed.

(** With the cursor in the region nothing moves. *)
Lemma ensure_visible_idle w : console_ok (cw_con w) (cw_display w) -> ensure_cursor_visible w = w.
Proof.
  destruct w as [c d t]. cbn. intros [[_ Hs [Hw Hh] _ [HW HH] [HX1 HX2] [HY1 HY2]] Hx Hy]. unfold ensure_cursor_visible. cbn.
  replace (u32 (region_x c + region_w c) <? u32 (cursor_x c + cell_w c)) with false
    by (symmetry; apply Z.ltb_ge; rewrite !u32_id by lia; lia).
  replace (u32 (region_y c + region_h c) <? u32 (cursor_y c + cell_h c)) with false
    by (symmetry; apply Z.ltb_ge; rewrite !u32_id by lia; lia).
  done.
Qed.

Definition grid_step (c : console_t) : grid -> Z -> grid := grid_char (con_cols c) (con_rows c) (con_fg c).

Lemma backspace_spec c d g :
  shows c d g ->
  exists x y, (if 0 <? gr_x g then (gr_x g - 1, gr_y g)
               else if 0 <? gr_y g then (con_cols c - 1, gr_y g - 1) else (gr_x g, gr_y g)) = (x, y)
    /\ backspace c = con_cursor c (region_x c + x * cell_w c) (region_y c + y * cell_h c)
    /\ 0 <= x < con_cols c /\ 0 <= y < con_rows c.
Proof.
  intros [[[_ Hs [Hw Hh] _ [HW HH] [HX1 HX2] [HY1 HY2]] [Hc Hc0] [Hr Hr0] _] [Hx Hy] Hgx Hgy]. unfold backspace.
  assert (cell_w c <= region_w c /\ cell_h c <= region_h c) by (rewrite Hc, Hr; nia).
  rewrite !(u32_id (region_x c + cell_w c)), !(u32_id (region_y c + cell_h c)) by lia.
  fold (con_cols c). rewrite <- Hc, (u32_id (region_w c)), (u32_id (region_x c + region_w c)) by lia.
  assert ((region_x c + cell_w c <=? cursor_x c) = (0 <? gr_x g)) as ->
    by (apply eq_true_iff_eq; rewrite Z.leb_le, Z.ltb_lt, Hx; nia).
  assert ((region_y c + cell_h c <=? cursor_y c) = (0 <? gr_y g)) as ->
    by (apply eq_true_iff_eq; rewrite Z.leb_le, Z.ltb_lt, Hy; nia).
  rewrite (proj2 (Z.leb_le (region_x c + cell_w c) _)) by lia.
  destruct (Z.ltb_spec 0 (gr_x g)); [|destruct (Z.ltb_spec 0 (gr_y g))]; eexists _, _; split_and!; try done; try lia.
  - f_equal; lia.
  - f_equal; lia.
  - rewrite <- Hx, <- Hy. by destruct c.
Qed.

Lemma put_char_spec w g c :
  shows (cw_con w) (cw_display w) g -> advanced w (put_char w c) (grid_step (cw_con w) g c).
Proof.
  intros Hsh. pose proof (shows_ok _ _ _ Hsh) as Hok. pose proof Hsh as [Hd [Hx Hy] Hgx Hgy].
  pose proof Hok as [Hf Hcx Hcy]. pose proof Hf as [Hm Hs [Hw Hh] Ht [HW HH] [HX1 HX2] [HY1 HY2]].
  unfold put_char, grid_step, grid_char. rewrite Hm. cbn [negb].
  destruct (Z.eqb_spec c 13).
  { constructor; cbn [put_con cw_con cw_display cw_text]; [by eexists _, _| |apply frame_refl|done].
    apply shows_cursor; [done|lia|done|lia|done]. }
  destruct (Z.eqb_spec c 10).
  { set (w1 := put_con w _). apply (settle_spec w1 w (gr_cell g) 0 (gr_y g + 1)); subst w1; cbn [put_con cw_con cw_display cw_text];
      [by apply displays_cursor| | | | |by eexists _, _|apply frame_refl|done].
    - split; cbn; [lia|]. rewrite u32_id, Hy by lia. lia.
    - rewrite con_cols_cursor. lia.
    - lia.
    - rewrite con_cols_cursor, con_rows_cursor, (proj2 (Z.leb_gt _ _)) by lia. cbn [b2z]. lia. }
  destruct (Z.eqb_spec c 8).
  { destruct (backspace_spec _ _ _ Hsh) as (x & y & -> & -> & Hx' & Hy'). cbv zeta.
    set (c' := con_cursor (cw_con w) _ _). pose proof (displays_cursor _ _ _ (cursor_x c') (cursor_y c') Hd) as Hd'.
    destruct (displays_set c' (cw_display w) (target_fill c' (cw_display w) (cursor_x c') (cursor_y c') (cell_w c') (cell_h c')
      (con_bg c')) (gr_cell g) x y None (fun _ _ => u32 (con_bg c')) Hd' Hx' Hy') as [D F].
    - apply target_fill_painted; [done|cbn; nia..].
    - done.
    - constructor; cbn [cw_con cw_display cw_text]; [by eexists _, _| |by eapply frame_cursor|done].
      by constructor. }
  rewrite (ensure_visible_idle w Hok). cbv zeta.
  destruct (displays_set (cw_con w) (cw_display w) (draw_glyph (cw_con w) (cw_display w) c (cursor_x (cw_con w))
    (cursor_y (cw_con w))) (gr_cell g) (gr_x g) (gr_y g) (Some (c, con_fg (cw_con w)))
    (fun px py => glyph_pixel (cw_con w) (con_fg (cw_con w)) c (px - cursor_x (cw_con w)) (py - cursor_y (cw_con w)))
    Hd Hgx Hgy) as [D F].
  - rewrite <- Hx, <- Hy. apply draw_glyph_painted; [done|lia..].
  - intros px py _. by rewrite Hx, Hy.
  - set (w1 := mk_cworld _ _ _). apply (settle_spec w1 w _ (gr_x g + 1) (gr_y g)); subst w1; cbn [cw_con cw_display cw_text];
      [by apply displays_cursor| | | | |by eexists _, _|done|done].
    + split; cbn; [|done]. rewrite u32_id, Hx by lia. lia.
    + rewrite con_cols_cursor. lia.
    + lia.
    + rewrite con_cols_cursor, con_rows_cursor. unfold b2z. case_if; lia.
Qed.

(** ** Writing text *)

Lemma advanced_cols w w' g : advanced w w' g ->
  con_cols (cw_con w') = con_cols (cw_con w) /\ con_rows (cw_con w') = con_rows (cw_con w) /\
  con_fg (cw_con w') = con_fg (cw_con w).
Proof. intros [(x & y & ->) _ _ _]. done. Qed.

Definition grid_type (c : console_t) : grid -> Z -> grid := grid_putc (con_cols c) (con_rows c) (con_fg c).

Lemma put_char_again w w1 g1 c :
  advanced w w1 g1 -> advanced w (put_char w1 c) (grid_step (cw_con w) g1 c).
Proof.
  intros A. eapply advanced_trans; [exact A|]. destruct (advanced_cols _ _ _ A) as (E1 & E2 & E3).
  unfold grid_step. rewrite <- E1, <- E2, <- E3. apply put_char_spec, A.
Qed.

Lemma console_putc_spec w g c :
  shows (cw_con w) (cw_display w) g -> advanced w (console_putc w c) (grid_type (cw_con w) g c).
Proof.
  intros Hsh. unfold console_putc, grid_type, grid_putc.
  rewrite (co_mode _ _ (co_fits _ _ (shows_ok _ _ _ Hsh))). cbn [andb].
  destruct (Z.eqb_spec c 9); [|by apply put_char_spec].
  change (for_range 0 4 (fun _ w => put_char w 32) w) with (put_char (put_char (put_char (put_char w 32) 32) 32) 32).
  do 3 apply put_char_again. by apply put_char_spec.
Qed.

(** A region just entered shows an empty terminal. *)
Record console_ready (c : console_t) (d : display) : Prop := {
  rd_mode : framebuffer_mode c = true;
  rd_scale : con_scale c = 1 \/ con_scale c = 2;
  rd_cell : cell_w c = 6 * con_scale c /\ cell_h c = 9 * con_scale c;
  rd_screen : gop_ok (dp_gop d) }.

Definition blank : grid := mk_grid (fun _ _ => None) 0 0.

Lemma round_down n k : 0 < k -> k <= n ->
  n - n mod k = n / k * k /\ 0 < n / k /\ k <= n - n mod k <= n /\ (n - n mod k) / k = n / k.
Proof.
  intros Hk Hn. pose proof (Z.div_mod n k). pose proof (Z.mod_pos_bound n k).
  assert (0 < n / k) by (apply Z.div_str_pos; lia).
  assert (n - n mod k = n / k * k) as E by lia. rewrite E, Z.div_mul by lia. nia.
Qed.

Lemma enter_region_shows w target x y width height fg bg :
  console_ready (cw_con w) (cw_display w) ->
  let p := target_plane (con_mode (cw_con w) false false target) (cw_display w) in
  (target <> 0 -> exists s, surface_at (cw_display w) target = Some s /\ surface_ok s) ->
  sf_width p <= UINT32_MAX - 36 -> sf_height p <= UINT32_MAX - 36 ->
  0 <= x -> 0 <= y -> x + width <= sf_width p -> y + height <= sf_height p ->
  cell_w (cw_con w) <= width -> cell_h (cw_con w) <= height ->
  exists w', enter_region w target x y width height fg bg = (true, w') /\ shows (cw_con w') (cw_display w') blank.
Proof.
  intros [Hm Hs [Hw Hh] Hg] p Ht HW HH Hx Hy Hxw Hyh Hcw Hch. unfold enter_region. cbv zeta.
  destruct (round_down width (cell_w (cw_con w))) as (A1 & A2 & A3 & A4); [lia..|].
  destruct (round_down height (cell_h (cw_con w))) as (B1 & B2 & B3 & B4); [lia..|].
  set (rw := width - _) in *. set (rh := height - _) in *. cbn [con_region region_w region_h cell_w cell_h].
  rewrite (proj2 (Z.ltb_ge _ _)), (proj2 (Z.ltb_ge rh _)) by lia. cbn [orb].
  set (c1 := con_colors _ _ _). eexists. split; [reflexivity|].
  unfold console_clear. cbn [put_con cw_con cw_display].
  set (c2 := con_cursor c1 _ _). change (framebuffer_mode c2) with (framebuffer_mode (cw_con w)). rewrite Hm. cbn [negb].
  cbn [put_display put_con cw_con cw_display].
  assert (console_fits c2 (cw_display w)) as Hf.
  { constructor; cbn; try done; change (target_plane c2 (cw_display w)) with p; lia. }
  pose proof (target_fill_painted c2 (cw_display w) (region_x c2) (region_y c2) (region_w c2) (region_h c2) (con_bg c2)
    (co_target _ _ Hf)) as P. cbn [c2 c1 con_cursor con_colors con_region region_x region_y region_w region_h] in P.
  specialize (P Hx Hy ltac:(lia) ltac:(lia)).
  assert (con_cols c2 = width / cell_w (cw_con w) /\ con_rows c2 = height / cell_h (cw_con w)) as [EC ER]
    by (unfold con_cols, con_rows; cbn; fold rw rh; done).
  constructor; [constructor|..]; cbn [blank gr_cell gr_x gr_y].
  - by eapply repainted_fits.
  - rewrite EC. split; [by cbn|done].
  - rewrite ER. split; [by cbn|done].
  - intros px py Hin. rewrite (same_plane_pixel _ _ _ _ _ (pt_plane _ _ _ _ P)), (pt_pixel _ _ _ _ P) by (by eapply on_region).
    unfold over. change (in_rect x y rw rh px py) with (in_region c2 px py). by rewrite Hin.
  - split; cbn; lia.
  - rewrite EC. lia.
  - rewrite ER. lia.
Qed.

Lemma set_surface_region_shows w surface s x y width height fg bg w' :
  console_ready (cw_con w) (cw_display w) -> surface <> 0 ->
  surface_at (cw_display w) surface = Some s -> surface_ok s ->
  sf_width s <= UINT32_MAX - 36 -> sf_height s <= UINT32_MAX - 36 -> 0 <= x -> 0 <= y ->
  console_set_surface_region w surface x y width height fg bg = (true, w') -> shows (cw_con w') (cw_display w') blank.
Proof.
  intros Hr Hn Hat Hok HW HH Hx Hy. unfold console_set_surface_region. cbv zeta. rewrite Hat, (rd_mode _ _ Hr), (valid_of_ok s Hok).
  cbn [negb orb]. case_if; [done|]. b2p. intros E.
  assert (target_plane (con_mode (cw_con w) false false surface) (cw_display w) = s) as Hp.
  { unfold target_plane, nz. cbn [con_mode target_surface]. destruct (Z.eqb_spec surface 0); [done|]. cbn [negb]. by rewrite Hat. }
  destruct (enter_region_shows w surface x y width height fg bg Hr) as (w1 & E1 & S1); rewrite ?Hp; try lia; [by eauto|].
  congruence.
Qed.

Lemma set_region_shows w x y width height fg bg w' :
  console_ready (cw_con w) (cw_display w) ->
  gop_width (dp_gop (cw_display w)) <= UINT32_MAX - 36 -> gop_height (dp_gop (cw_display w)) <= UINT32_MAX - 36 ->
  0 <= x -> 0 <= y ->
  console_set_region w x y width height fg bg = (true, w') -> shows (cw_con w') (cw_display w') blank.
Proof.
  intros Hr HW HH Hx Hy. unfold console_set_region. cbv zeta. rewrite (rd_mode _ _ Hr).
  cbn [negb orb]. case_if; [done|]. b2p. intros E.
  destruct (enter_region_shows w 0 x y width height fg bg Hr) as (w1 & E1 & S1); cbn; try lia.
  congruence.
Qed.

(** C33: Text written to a console region shows exactly what an abstract terminal would
    show: every pixel of the region is the dot or background of the character
    that line feeds, carriage returns, tabs, backspaces, wrapping and scrolling
    put in its cell; the cursor's cell stays inside the region; no pixel of the
    target outside the region, no other surface and no byte outside the target
    changes; and nothing is sent to the firmware. *)
Theorem console_refines_terminal s : forall w g,
  shows (cw_con w) (cw_display w) g ->
  let w' := console_write w s in
  shows (cw_con w') (cw_display w') (grid_write (con_cols (cw_con w)) (con_rows (cw_con w)) (con_fg (cw_con w)) g s)
  /\ console_ok (cw_con w') (cw_display w')
  /\ frame (cw_con w) (cw_display w) (cw_display w')
  /\ cw_text w' = cw_text w.
Proof.
  assert (forall w g, shows (cw_con w) (cw_display w) g -> forall w0, advanced w0 w g ->
    advanced w0 (console_write w s)
      (grid_write (con_cols (cw_con w0)) (con_rows (cw_con w0)) (con_fg (cw_con w0)) g s)) as H.
  { induction s as [|c s IH]; intros w g Hsh w0 A; cbn [console_write grid_write]; [done|].
    destruct (c =? 0); [done|]. destruct (advanced_cols _ _ _ A) as (E1 & E2 & E3).
    pose proof (console_putc_spec w g c Hsh) as P. unfold grid_type in P. rewrite E1, E2, E3 in P.
    apply IH; [apply P|]. by eapply advanced_trans. }
  intros w g Hsh w'. assert (advanced w w g) as A0.
  { constructor; [|done|apply frame_refl|done]. exists (cursor_x (cw_con w)), (cursor_y (cw_con w)). by destruct w as [[]]. }
  destruct (H w g Hsh w A0) as [_ S F T]. split_and!; try done. by eapply shows_ok.
Qed.

(** A console of three columns and two rows. *)
Definition sample_window : argus_surface_t := mk_surface 0x800000 20 19 20 false rect0.
Definition sample_console : console_world :=
  mk_cworld (mk_console true true 0 0 0 0 1 6 9 0 0 0 0 0)
    (mk_display {[ 1 := sample_window ]} sample_gop (dp_heap sample_display)) [].
Definition sample_region : bool * console_world :=
  console_set_surface_region sample_console 1 1 0 19 18 (0xc9, 0xc8, 0xb5) (0x17, 0x1a, 0x17).

Lemma sample_region_true : fst sample_region = true.
Proof. vm_compute. reflexivity. Qed.
Lemma sample_region_size :
  con_cols (cw_con (snd sample_region)) = 3 /\ con_rows (cw_con (snd sample_region)) = 2.
Proof. vm_compute. done. Qed.

Lemma sample_region_eq : sample_region = (true, snd sample_region).
Proof. rewrite <- sample_region_true. apply surjective_pairing. Qed.

Lemma sample_region_shows : shows (cw_con (snd sample_region)) (cw_display (snd sample_region)) blank.
Proof.
  assert (gop_ok sample_gop) as Hg by (constructor; cbn; unfold UINT32_MAX, UINT64_MAX; lia || done).
  assert (surface_ok sample_window) as Hs by (constructor; cbn; unfold UINT32_MAX; lia || done).
  apply (set_surface_region_shows sample_console 1 sample_window 1 0 19 18 (0xc9, 0xc8, 0xb5) (0x17, 0x1a, 0x17)).
  - constructor; [reflexivity|left; reflexivity|split; reflexivity|exact Hg].
  - lia.
  - reflexivity.
  - exact Hs.
  - cbn. unfold UINT32_MAX. lia.
  - cbn. unfold UINT32_MAX. lia.
  - lia.
  - lia.
  - exact sample_region_eq.
Qed.

Lemma console_refines_terminal_witness :
  let w := snd sample_region in
  let w' := console_write w [65; 66; 10; 67; 8; 9; 68] in
  shows (cw_con w') (cw_display w') (grid_write 3 2 (con_fg (cw_con w)) blank [65; 66; 10; 67; 8; 9; 68])
  /\ console_ok (cw_con w') (cw_display w') /\ frame (cw_con w) (cw_display w) (cw_display w') /\ cw_text w' = cw_text w.
Proof.
  cbv zeta. pose proof (console_refines_terminal [65; 66; 10; 67; 8; 9; 68] (snd sample_region) blank sample_region_shows) as H.
  cbv zeta in H. rewrite (proj1 sample_region_size), (proj2 sample_region_size) in H. exact H.
Defined.
