(* ===== verification/Kconsole.v ===== *)
(** * Kernel text output (src/kconsole.c, output side of src/serial.c)

    Kernel messages go to the framebuffer console and to the serial port.
    [serial_putc] polls the line-status register without a bound; the polling
    loop takes the number of polls it may make as fuel and is [None] when they
    are used up.  [Uart] states what the port promises: it becomes ready within
    [patience] polls, polling sends nothing and a write to the data register
    sends one byte. *)

From stdpp Require Import base list gmap numbers strings.
From Stdlib Require Import ZArith Lia.
From S2P Require Import Prelude Memory Devices Files Console.

Open Scope Z_scope.

Section kconsole.
Context {D : Type} `{Hardware D}.
Implicit Types hw : D.

(** ** Serial output *)

(** [while ((cpu_in8(COM1_PORT + 5u) & 0x20u) == 0u) {}] *)
Fixpoint serial_wait (fuel : nat) hw : option D :=
  match fuel with
  | O => None
  | S fuel' =>
      let '(status, hw) := cpu_in8 hw (COM1_PORT + 5) in
      if (status & 0x20) =? 0 then serial_wait fuel' hw else Some hw
  end.

Definition serial_send (fuel : nat) hw (c : Z) : option D :=
  hw ← serial_wait fuel hw; Some (cpu_out8 hw COM1_PORT c).

Definition serial_putc (fuel : nat) (uart_available : bool) hw (c : Z) : option D :=
  if negb uart_available then Some hw
  else
    hw ← (if c =? 10 then serial_send fuel hw 13 else Some hw);
    serial_send fuel hw c.

(** The text up to its terminating zero. *)
Fixpoint serial_write (fuel : nat) (uart_available : bool) hw (s : list Z) : option D :=
  match s with
  | [] => Some hw
  | c :: s' =>
      if c =? 0 then Some hw
      else hw ← serial_putc fuel uart_available hw c; serial_write fuel uart_available hw s'
  end.

Definition hex_digits : list Z := text "0123456789ABCDEF".
(** [hex[(value >> shift) & 0xFu]] for [shift] = 60, 56, ..., 0. *)
Definition hex_text (value : Z) : list Z :=
  map (fun i => zget 0 hex_digits ((value >> (60 - 4 * i)) & 0xF)) (zrange 0 16).

Fixpoint serial_put_all (fuel : nat) (uart_available : bool) hw (s : list Z) : option D :=
  match s with
  | [] => Some hw
  | c :: s' => hw ← serial_putc fuel uart_available hw c; serial_put_all fuel uart_available hw s'
  end.

Definition serial_write_hex64 (fuel : nat) (uart_available : bool) hw (value : Z) : option D :=
  hw ← serial_write fuel uart_available hw (text "0x");
  serial_put_all fuel uart_available hw (hex_text value).

(** ** The kernel console *)

Record kworld := mk_kworld { kw_console : console_world; kw_uart : bool; kw_hw : D }.

Definition kconsole_clear (fuel : nat) (k : kworld) : option kworld :=
  let c := if console_uses_framebuffer (kw_console k) then console_clear (kw_console k) else kw_console k in
  hw ← serial_write fuel (kw_uart k) (kw_hw k) ([27] ++ text "[2J" ++ [27] ++ text "[H");
  Some (mk_kworld c (kw_uart k) hw).

Definition kconsole_putc (fuel : nat) (k : kworld) (c : Z) : option kworld :=
  let con := if console_uses_framebuffer (kw_console k) then console_putc (kw_console k) c else kw_console k in
  hw ← serial_putc fuel (kw_uart k) (kw_hw k) c;
  Some (mk_kworld con (kw_uart k) hw).

Fixpoint kconsole_write (fuel : nat) (k : kworld) (s : list Z) : option kworld :=
  match s with
  | [] => Some k
  | c :: s' => if c =? 0 then Some k else k ← kconsole_putc fuel k c; kconsole_write fuel k s'
  end.

(** Characters put one after the other. *)
Fixpoint put_all (fuel : nat) (k : kworld) (s : list Z) : option kworld :=
  match s with
  | [] => Some k
  | c :: s' => k ← kconsole_putc fuel k c; put_all fuel k s'
  end.

(** [while (value) { buffer[used++] = '0' + value % 10u; value /= 10u; }]: a
    64-bit value has at most twenty digits. *)
Fixpoint dec_loop (n : nat) (value : Z) (buffer : list Z) (used : Z) : list Z * Z :=
  match n with
  | O => (buffer, used)
  | S n' => if nz value then dec_loop n' (value / 10) (zset buffer used (48 + value mod 10)) (used + 1) else (buffer, used)
  end.

(** [while (used) kconsole_putc(buffer[--used]);] *)
Fixpoint dec_emit (fuel : nat) (k : kworld) (buffer : list Z) (used : nat) : option kworld :=
  match used with
  | O => Some k
  | S used' => k ← kconsole_putc fuel k (zget 0 buffer (Z.of_nat used')); dec_emit fuel k buffer used'
  end.

Definition kconsole_write_dec (fuel : nat) (k : kworld) (value : Z) : option kworld :=
  if negb (nz value) then kconsole_putc fuel k 48
  else
    let '(buffer, used) := dec_loop 20 value (replicate 21 0) 0 in
    dec_emit fuel k buffer (Z.to_nat used).

Definition kconsole_write_hex (fuel : nat) (k : kworld) (value : Z) : option kworld :=
  k ← kconsole_write fuel k (text "0x");
  put_all fuel k (hex_text value).

(** ** What reaches the wire *)

Fixpoint polled (k : nat) hw : D :=
  match k with O => hw | S k' => polled k' (snd (cpu_in8 hw (COM1_PORT + 5))) end.

Class Uart (patience : nat) (wire : D -> list Z) := {
  uart_poll : forall hw, wire (snd (hw_in8 hw (COM1_PORT + 5))) = wire hw;
  uart_send : forall hw v, wire (hw_out8 hw COM1_PORT v) = wire hw ++ [v];
  uart_ready : forall hw, exists k, (k < patience)%nat /\ fst (cpu_in8 (polled k hw) (COM1_PORT + 5)) & 0x20 <> 0 }.

Context (patience : nat) (wire : D -> list Z) `{!Uart patience wire}.

Lemma cpu_in8_wire hw : wire (snd (cpu_in8 hw (COM1_PORT + 5))) = wire hw.
Proof. unfold cpu_in8. pose proof (uart_poll hw) as E. by destruct (hw_in8 _ _). Qed.

Lemma serial_wait_polled k n hw :
  (k < n)%nat -> fst (cpu_in8 (polled k hw) (COM1_PORT + 5)) & 0x20 <> 0 ->
  exists hw', serial_wait n hw = Some hw' /\ wire hw' = wire hw.
Proof.
  revert n hw. induction k as [|k IH]; intros [|n] hw Hk; try lia; cbn [polled serial_wait];
    pose proof (cpu_in8_wire hw) as Hw; destruct (cpu_in8 hw (COM1_PORT + 5)) as [status hw1]; cbn in Hw |- *; intros Hr.
  - rewrite (proj2 (Z.eqb_neq _ _) Hr). eauto.
  - destruct (_ =? 0); [|eauto]. destruct (IH n hw1) as (hw' & E & W); [lia|done|]. exists hw'. by rewrite E, W.
Qed.

Lemma serial_send_spec hw c : exists hw', serial_send patience hw c = Some hw' /\ wire hw' = wire hw ++ [u8 c].
Proof.
  destruct (uart_ready hw) as (k & Hk & Hr). destruct (serial_wait_polled k patience hw Hk Hr) as (hw' & E & W).
  unfold serial_send. rewrite E. cbn. eexists. split; [done|]. unfold cpu_out8. by rewrite uart_send, W.
Qed.

(** The bytes one character sends. *)
Definition wire_char (uart_available : bool) (c : Z) : list Z :=
  if uart_available then if c =? 10 then [13; 10] else [u8 c] else [].

Lemma serial_putc_spec uart hw c :
  exists hw', serial_putc patience uart hw c = Some hw' /\ wire hw' = wire hw ++ wire_char uart c.
Proof.
  unfold serial_putc, wire_char. destruct uart; cbn [negb]; [|exists hw; by rewrite app_nil_r].
  destruct (Z.eqb_spec c 10) as [->|].
  - destruct (serial_send_spec hw 13) as (h1 & E1 & W1), (serial_send_spec h1 10) as (h2 & E2 & W2).
    exists h2. rewrite E1. cbn. rewrite E2, W2, W1, <- app_assoc. done.
  - cbn. apply serial_send_spec.
Qed.

(** The characters of a C string. *)
Fixpoint cstring (s : list Z) : list Z :=
  match s with [] => [] | c :: s' => if c =? 0 then [] else c :: cstring s' end.

(** The effect of characters on the kernel console: the text on the screen and
    the bytes on the wire. *)
Record typed (k : kworld) (s : list Z) (k' : kworld) : Prop := {
  ty_wire : wire (kw_hw k') = wire (kw_hw k) ++ flat_map (wire_char (kw_uart k)) s;
  ty_uart : kw_uart k' = kw_uart k;
  ty_console : kw_console k' = if console_uses_framebuffer (kw_console k)
                               then fold_left console_putc s (kw_console k) else kw_console k }.

Lemma settled_mode w : framebuffer_mode (cw_con (ensure_cursor_visible w)) = framebuffer_mode (cw_con w).
Proof. unfold ensure_cursor_visible. cbv zeta. by do 2 case_if. Qed.

Lemma putc_mode w c : console_uses_framebuffer (console_putc w c) = console_uses_framebuffer w.
Proof.
  assert (forall w c, framebuffer_mode (cw_con (put_char w c)) = framebuffer_mode (cw_con w)) as Hc.
  { clear. intros w c. unfold put_char, fallback_char, backspace. cbv zeta.
    repeat case_if; try done; rewrite settled_mode; cbn [cw_con con_cursor framebuffer_mode put_con]; by rewrite ?settled_mode. }
  unfold console_uses_framebuffer, console_putc. case_if; [|apply Hc].
  change (for_range 0 4 _ w) with (put_char (put_char (put_char (put_char w 32) 32) 32) 32). by rewrite !Hc.
Qed.

Lemma typing_mode s w : console_uses_framebuffer (fold_left console_putc s w) = console_uses_framebuffer w.
Proof. revert w. induction s as [|c s IH]; intros w; [done|]. cbn [fold_left]. by rewrite IH, putc_mode. Qed.

Lemma kconsole_putc_spec k c : exists k', kconsole_putc patience k c = Some k' /\ typed k [c] k'.
Proof.
  unfold kconsole_putc. cbv zeta. destruct (serial_putc_spec (kw_uart k) (kw_hw k) c) as (hw' & E & W). rewrite E. cbn.
  eexists. split; [done|]. constructor; cbn; [by rewrite app_nil_r|done|done].
Qed.

Lemma typed_nil k : typed k [] k.
Proof. constructor; cbn; [by rewrite app_nil_r|done|by case_if]. Qed.

Lemma typed_app k s k1 t k2 : typed k s k1 -> typed k1 t k2 -> typed k (s ++ t) k2.
Proof.
  intros [W1 U1 C1] [W2 U2 C2].
  assert (console_uses_framebuffer (kw_console k1) = console_uses_framebuffer (kw_console k)) as M.
  { rewrite C1. destruct (console_uses_framebuffer (kw_console k)) eqn:E; [|done]. by rewrite typing_mode. }
  constructor.
  - by rewrite W2, W1, U1, flat_map_app, app_assoc.
  - by rewrite U2.
  - rewrite C2, M, C1. case_if; [|done]. by rewrite fold_left_app.
Qed.

Lemma put_all_spec k s : exists k', put_all patience k s = Some k' /\ typed k s k'.
Proof.
  revert k. induction s as [|c s IH]; intros k; cbn [put_all]; [eauto using typed_nil|].
  destruct (kconsole_putc_spec k c) as (k1 & E1 & T1), (IH k1) as (k2 & E2 & T2). rewrite E1. cbn. exists k2.
  split; [done|]. by apply (typed_app k [c] k1).
Qed.

Lemma kconsole_write_all n k s : kconsole_write n k s = put_all n k (cstring s).
Proof.
  revert k. induction s as [|c s IH]; intros k; cbn; [done|]. case_if; [done|]. cbn.
  destruct (kconsole_putc n k c); cbn; [apply IH|done].
Qed.

(** ** Numbers *)

(** The value a string of decimal or hexadecimal digits denotes. *)
Definition digits_value (base : Z) (digit : Z -> Z) (s : list Z) : Z := fold_left (fun a c => base * a + digit c) s 0.
Definition dec_digit (c : Z) : Z := c - 48.
Definition hex_digit (c : Z) : Z := if c <=? 57 then c - 48 else c - 55.

Lemma digits_value_app base digit a s : forall t,
  fold_left (fun a c => base * a + digit c) (s ++ t) a
  = fold_left (fun a c => base * a + digit c) s a * base ^ Z.of_nat (length t) + digits_value base digit t.
Proof.
  revert a. intros a t. rewrite fold_left_app. generalize (fold_left (fun a c => base * a + digit c) s a) as v. clear a.
  unfold digits_value. induction t as [|c t IH] using rev_ind; intros v; [cbn; lia|].
  rewrite !fold_left_app, length_app, Nat.add_1_r, Nat2Z.inj_succ, Z.pow_succ_r by lia. cbn. rewrite IH. lia.
Qed.

Lemma digits_value_cons base digit c t :
  digits_value base digit (c :: t) = digit c * base ^ Z.of_nat (length t) + digits_value base digit t.
Proof. pose proof (digits_value_app base digit 0 [c] t) as E. cbn in E. unfold digits_value at 1. cbn [fold_left]. rewrite E. ring. Qed.

(** The characters [dec_emit] puts. *)
Fixpoint emitted (buffer : list Z) (used : nat) : list Z :=
  match used with O => [] | S used' => zget 0 buffer (Z.of_nat used') :: emitted buffer used' end.

Lemma dec_emit_all n k buffer used : dec_emit n k buffer used = put_all n k (emitted buffer used).
Proof.
  revert k. induction used as [|u IH]; intros k; cbn; [done|]. destruct (kconsole_putc n k _); cbn; [apply IH|done].
Qed.

Lemma emitted_set buffer u v : (u <= length buffer)%nat -> forall n, (n <= u)%nat ->
  emitted (zset buffer (Z.of_nat u) v) n = emitted buffer n.
Proof.
  intros Hu. induction n as [|n IH]; intros Hn; [done|]. cbn [emitted]. rewrite zget_zset_ne, IH by lia. done.
Qed.

Lemma emitted_length buffer n : length (emitted buffer n) = n.
Proof. induction n as [|n IH]; cbn; [done|by rewrite IH]. Qed.

(** What the loop leaves in the buffer: [used] digits whose value, followed by
    those already there, is the number. *)
Lemma dec_loop_spec n : forall value buffer used,
  0 <= value < 10 ^ Z.of_nat n -> (used + n <= length buffer)%nat ->
  exists buffer' used', dec_loop n value buffer (Z.of_nat used) = (buffer', Z.of_nat used')
    /\ (used <= used' <= used + n)%nat
    /\ digits_value 10 dec_digit (emitted buffer' used')
       = value * 10 ^ Z.of_nat used + digits_value 10 dec_digit (emitted buffer used)
    /\ (Forall (fun c => 48 <= c <= 57) (emitted buffer used) -> Forall (fun c => 48 <= c <= 57) (emitted buffer' used'))
    /\ (value <> 0 -> head (emitted buffer' used') <> Some 48).
Proof.
  induction n as [|n IH]; intros value buffer used Hv Hl; cbn [dec_loop].
  { exists buffer, used. cbn in Hv. assert (value = 0) as -> by lia. split_and!; try done; lia. }
  unfold nz. destruct (Z.eqb_spec value 0) as [->|Hnz]; cbn [negb].
  { exists buffer, used. split_and!; try done; lia. }
  assert (0 <= value / 10 < 10 ^ Z.of_nat n) as Hq.
  { rewrite Nat2Z.inj_succ, Z.pow_succ_r in Hv by lia.
    pose proof (Z.div_pos value 10). split; [lia|]. apply Z.div_lt_upper_bound; lia. }
  pose proof (Z.mod_pos_bound value 10). set (b1 := zset buffer (Z.of_nat used) (48 + value mod 10)).
  assert (emitted b1 (S used) = (48 + value mod 10) :: emitted buffer used) as Eb.
  { cbn [emitted]. unfold b1. rewrite zget_zset_eq by lia. by rewrite emitted_set by lia. }
  replace (Z.of_nat used + 1) with (Z.of_nat (S used)) by lia.
  destruct (IH (value / 10) b1 (S used) Hq) as (b2 & u2 & E & Hu & Hd & Hf & Hh).
  { unfold b1. rewrite zset_length. lia. }
  exists b2, u2. rewrite Eb in Hd, Hf. rewrite digits_value_cons, emitted_length in Hd. split_and!; try done; try lia.
  - rewrite Hd. unfold dec_digit. rewrite Nat2Z.inj_succ, Z.pow_succ_r by lia. pose proof (Z.div_mod value 10). nia.
  - intros Hb. apply Hf. by constructor; [lia|].
  - intros _. destruct (Z.eq_dec (value / 10) 0) as [Ez|]; [|by apply Hh].
    assert ((b2, Z.of_nat u2) = (b1, Z.of_nat (S used))) as [= -> Eu].
    { rewrite <- E, Ez. by destruct n. }
    assert (u2 = S used) as -> by lia. rewrite Eb. cbn. intros [= ?]. pose proof (Z.div_mod value 10). lia.
Qed.

(** A kernel message is written to the end on any serial port that becomes ready
    within [patience] polls: every character up to the terminating zero goes to
    the framebuffer console, if there is one, and to the wire, each line feed
    preceded by a carriage return. *)
Theorem kconsole_write_delivers k s :
  exists k', kconsole_write patience k s = Some k' /\ typed k (cstring s) k'.
Proof. rewrite kconsole_write_all. apply put_all_spec. Qed.

(** [kconsole_write_dec] puts the decimal digits of any 64-bit number: reading
    them back gives the number, there is no leading zero unless it is 0, and
    they fit the 21-byte buffer. *)
Theorem kconsole_write_dec_exact k value :
  0 <= value <= UINT64_MAX ->
  exists digits k', kconsole_write_dec patience k value = Some k' /\ typed k digits k'
    /\ digits_value 10 dec_digit digits = value
    /\ Forall (fun c => 48 <= c <= 57) digits
    /\ (value <> 0 -> head digits <> Some 48)
    /\ (0 < length digits <= 20)%nat.
Proof.
  intros Hv. unfold kconsole_write_dec, nz. destruct (Z.eqb_spec value 0) as [->|Hnz]; cbn [negb].
  { destruct (kconsole_putc_spec k 48) as (k' & E & T). exists [48], k'. split_and!; try done; [|cbn; lia..].
    by constructor. }
  destruct (dec_loop_spec 20 value (replicate 21 0) 0) as (b & u & E & Hu & Hd & Hf & Hh).
  { unfold UINT64_MAX in Hv. change (10 ^ Z.of_nat 20) with 100000000000000000000. lia. }
  { cbn. lia. }
  change (Z.of_nat 0) with 0 in E. rewrite E, Nat2Z.id, dec_emit_all.
  destruct (put_all_spec k (emitted b u)) as (k' & Ek & T). exists (emitted b u), k'. rewrite emitted_length.
  split_and!; try done; try lia.
  - rewrite Hd. cbn. lia.
  - by apply Hf.
  - destruct u; [|lia]. cbn in Hd. unfold digits_value in Hd. cbn in Hd. lia.
Qed.

Lemma hex_digit_char d : 0 <= d < 16 -> hex_digit (zget 0 hex_digits d) = d.
Proof.
  intros Hd. apply Z.eqb_eq. apply (zall_true (fun i => hex_digit (zget 0 hex_digits i) =? i) 0 16); [done|lia].
Qed.

(** The sixteen digits of [kconsole_write_hex] denote the number. *)
Lemma hex_text_value value : 0 <= value <= UINT64_MAX -> digits_value 16 hex_digit (hex_text value) = value.
Proof.
  intros Hv. unfold hex_text, digits_value.
  assert (forall n : nat, (n <= 16)%nat ->
    fold_left (fun a c => 16 * a + hex_digit c)
      (map (fun i => zget 0 hex_digits ((value >> (60 - 4 * i)) & 0xF)) (zrange 0 n)) 0
    = value >> (64 - 4 * Z.of_nat n)) as Hn.
  { induction n as [|n IH]; intros Hn.
    - change (64 - 4 * Z.of_nat 0) with 64. rewrite Z.shiftr_div_pow2 by lia. symmetry. apply Z.div_small.
      change (2 ^ 64) with (UINT64_MAX + 1). lia.
    - replace (S n) with (n + 1)%nat by lia. rewrite zrange_app, map_app, fold_left_app, IH by lia. cbn [zrange map fold_left].
      change 0xF with (2 ^ 4 - 1). rewrite land_ones_mod by lia. rewrite hex_digit_char by (by apply Z.mod_pos_bound).
      replace (64 - 4 * Z.of_nat n) with ((60 - 4 * (0 + Z.of_nat n)) + 4) by lia.
      rewrite <- Z.shiftr_shiftr, (Z.shiftr_div_pow2 _ 4) by lia.
      replace (64 - 4 * Z.of_nat (n + 1)) with (60 - 4 * (0 + Z.of_nat n)) by lia. change (2 ^ 4) with 16.
      pose proof (Z.div_mod (value >> (60 - 4 * (0 + Z.of_nat n))) 16). lia. }
  rewrite (Hn 16%nat) by lia. change (64 - 4 * Z.of_nat 16) with 0. apply Z.shiftr_0_r.
Qed.

(** [kconsole_write_hex] puts 0x and the number's sixteen hexadecimal digits. *)
Theorem kconsole_write_hex_exact k value :
  0 <= value <= UINT64_MAX ->
  exists digits k', kconsole_write_hex patience k value = Some k' /\ typed k ([48; 120] ++ digits) k'
    /\ digits_value 16 hex_digit digits = value /\ length digits = 16%nat.
Proof.
  intros Hv. unfold kconsole_write_hex. rewrite kconsole_write_all.
  destruct (put_all_spec k (cstring (text "0x"))) as (k1 & E1 & T1), (put_all_spec k1 (hex_text value)) as (k2 & E2 & T2).
  exists (hex_text value), k2. rewrite E1. cbn [mbind option_bind]. rewrite E2. split_and!; try done.
  - by apply (typed_app k (cstring (text "0x")) k1).
  - by apply hex_text_value.
Qed.
End kconsole.

#[global] Arguments kworld D : clear implicits.

(** ** A serial port

    A port that is busy for one poll after each byte; the bytes sent are kept. *)
Record port := mk_port { port_busy : bool; port_sent : list Z }.

#[export] Instance port_hardware : Hardware port := {|
  hw_in8 p a := if a =? COM1_PORT + 5 then (if port_busy p then 0 else 0x60, mk_port false (port_sent p)) else (0, p);
  hw_out8 p a v := if a =? COM1_PORT then mk_port true (port_sent p ++ [v]) else p;
  hw_in32 p _ := (0, p);
  hw_out16 p _ _ := p;
  hw_out32 p _ _ := p;
  hw_rdmsr p _ := (0, p);
  hw_wrmsr p _ _ := p;
  hw_load32 p _ := (0, p);
  hw_store32 p _ _ := p |}.

#[export] Instance port_uart : Uart 2 port_sent.
Proof.
  constructor; [done|done|]. intros hw. exists 1%nat. split; [lia|done].
Defined.

Definition sample_kworld : kworld port := mk_kworld sample_console true (mk_port true []).

Lemma kconsole_write_delivers_witness :
  exists k', kconsole_write 2 sample_kworld [72; 105; 10; 0; 33] = Some k' /\ typed port_sent sample_kworld [72; 105; 10] k'.
Proof. exact (kconsole_write_delivers 2 port_sent sample_kworld [72; 105; 10; 0; 33]). Defined.

Lemma kconsole_write_dec_exact_witness :
  exists digits k', kconsole_write_dec 2 sample_kworld UINT64_MAX = Some k' /\ typed port_sent sample_kworld digits k'
    /\ digits_value 10 dec_digit digits = UINT64_MAX.
Proof.
  destruct (kconsole_write_dec_exact 2 port_sent sample_kworld UINT64_MAX) as (digits & k' & H1 & H2 & H3 & _).
  - unfold UINT64_MAX. lia.
  - exists digits, k'. split; [exact H1|]. split; [exact H2|exact H3].
Defined.
