(* ===== verification/Runtime.v ===== *)
(** * The applications' runtime (src/user/app_runtime.cpp)

    A user program draws into its surface, 320 by 224 bytes of palette indices at a
    fixed address, and talks to the kernel by system calls.  Its memory is the byte
    memory it sees; the kernel behind [syscall] is the interface [System], and
    [SystemSpec] states what the programs rely on. *)

From stdpp Require Import base list gmap numbers strings.
From Stdlib Require Import ZArith Lia.
From S2P Require Import Prelude Memory Capability Process Syscall Raster Files.

Open Scope Z_scope.

Definition ARGUS_APP_COLOR_TERMINAL : Z := 0.
Definition ARGUS_APP_COLOR_TEXT : Z := 1.
Definition ARGUS_APP_COLOR_CHROME : Z := 2.
Definition ARGUS_APP_COLOR_TITLE : Z := 3.
Definition ARGUS_APP_COLOR_LCD : Z := 4.
Definition ARGUS_APP_COLOR_LCD_INK : Z := 5.
Definition ARGUS_APP_COLOR_FIELD : Z := 6.
Definition ARGUS_APP_COLOR_HIGHLIGHT : Z := 7.

(** ** Glyphs *)

(** Each entry is a character and its seven rows. *)
Definition kGlyphs : list (Z * list Z) :=
  [(48, [0x0E; 0x11; 0x13; 0x15; 0x19; 0x11; 0x0E]); (49, [0x04; 0x0C; 0x04; 0x04; 0x04; 0x04; 0x0E]);
   (50, [0x0E; 0x11; 0x01; 0x02; 0x04; 0x08; 0x1F]); (51, [0x1E; 0x01; 0x01; 0x0E; 0x01; 0x01; 0x1E]);
   (52, [0x02; 0x06; 0x0A; 0x12; 0x1F; 0x02; 0x02]); (53, [0x1F; 0x10; 0x10; 0x1E; 0x01; 0x01; 0x1E]);
   (54, [0x0E; 0x10; 0x10; 0x1E; 0x11; 0x11; 0x0E]); (55, [0x1F; 0x01; 0x02; 0x04; 0x08; 0x08; 0x08]);
   (56, [0x0E; 0x11; 0x11; 0x0E; 0x11; 0x11; 0x0E]); (57, [0x0E; 0x11; 0x11; 0x0F; 0x01; 0x01; 0x0E]);
   (65, [0x0E; 0x11; 0x11; 0x1F; 0x11; 0x11; 0x11]); (66, [0x1E; 0x11; 0x11; 0x1E; 0x11; 0x11; 0x1E]);
   (67, [0x0F; 0x10; 0x10; 0x10; 0x10; 0x10; 0x0F]); (68, [0x1E; 0x11; 0x11; 0x11; 0x11; 0x11; 0x1E]);
   (69, [0x1F; 0x10; 0x10; 0x1E; 0x10; 0x10; 0x1F]); (70, [0x1F; 0x10; 0x10; 0x1E; 0x10; 0x10; 0x10]);
   (71, [0x0F; 0x10; 0x10; 0x17; 0x11; 0x11; 0x0F]); (72, [0x11; 0x11; 0x11; 0x1F; 0x11; 0x11; 0x11]);
   (73, [0x0E; 0x04; 0x04; 0x04; 0x04; 0x04; 0x0E]); (74, [0x01; 0x01; 0x01; 0x01; 0x11; 0x11; 0x0E]);
   (75, [0x11; 0x12; 0x14; 0x18; 0x14; 0x12; 0x11]); (76, [0x10; 0x10; 0x10; 0x10; 0x10; 0x10; 0x1F]);
   (77, [0x11; 0x1B; 0x15; 0x15; 0x11; 0x11; 0x11]); (78, [0x11; 0x19; 0x15; 0x13; 0x11; 0x11; 0x11]);
   (79, [0x0E; 0x11; 0x11; 0x11; 0x11; 0x11; 0x0E]); (80, [0x1E; 0x11; 0x11; 0x1E; 0x10; 0x10; 0x10]);
   (81, [0x0E; 0x11; 0x11; 0x11; 0x15; 0x12; 0x0D]); (82, [0x1E; 0x11; 0x11; 0x1E; 0x14; 0x12; 0x11]);
   (83, [0x0F; 0x10; 0x10; 0x0E; 0x01; 0x01; 0x1E]); (84, [0x1F; 0x04; 0x04; 0x04; 0x04; 0x04; 0x04]);
   (85, [0x11; 0x11; 0x11; 0x11; 0x11; 0x11; 0x0E]); (86, [0x11; 0x11; 0x11; 0x11; 0x11; 0x0A; 0x04]);
   (87, [0x11; 0x11; 0x11; 0x15; 0x15; 0x15; 0x0A]); (88, [0x11; 0x11; 0x0A; 0x04; 0x0A; 0x11; 0x11]);
   (89, [0x11; 0x11; 0x0A; 0x04; 0x04; 0x04; 0x04]); (90, [0x1F; 0x01; 0x02; 0x04; 0x08; 0x10; 0x1F]);
   (46, [0; 0; 0; 0; 0; 0x0C; 0x0C]); (44, [0; 0; 0; 0; 0x0C; 0x04; 0x08]);
   (58, [0; 0x0C; 0x0C; 0; 0x0C; 0x0C; 0]); (59, [0; 0x0C; 0x0C; 0; 0x0C; 0x04; 0x08]);
   (45, [0; 0; 0; 0x1F; 0; 0; 0]); (95, [0; 0; 0; 0; 0; 0; 0x1F]);
   (43, [0; 0x04; 0x04; 0x1F; 0x04; 0x04; 0]); (61, [0; 0; 0x1F; 0; 0x1F; 0; 0]);
   (47, [0x01; 0x02; 0x02; 0x04; 0x08; 0x08; 0x10]); (92, [0x10; 0x08; 0x08; 0x04; 0x02; 0x02; 0x01]);
   (40, [0x02; 0x04; 0x08; 0x08; 0x08; 0x04; 0x02]); (41, [0x08; 0x04; 0x02; 0x02; 0x02; 0x04; 0x08]);
   (91, [0x0E; 0x08; 0x08; 0x08; 0x08; 0x08; 0x0E]); (93, [0x0E; 0x02; 0x02; 0x02; 0x02; 0x02; 0x0E]);
   (60, [0x02; 0x04; 0x08; 0x10; 0x08; 0x04; 0x02]); (62, [0x08; 0x04; 0x02; 0x01; 0x02; 0x04; 0x08]);
   (33, [0x04; 0x04; 0x04; 0x04; 0x04; 0; 0x04]); (63, [0x0E; 0x11; 0x01; 0x02; 0x04; 0; 0x04]);
   (35, [0x0A; 0x0A; 0x1F; 0x0A; 0x1F; 0x0A; 0x0A]); (42, [0; 0x0A; 0x04; 0x1F; 0x04; 0x0A; 0]);
   (64, [0x0E; 0x11; 0x17; 0x15; 0x17; 0x10; 0x0E]); (37, [0x19; 0x19; 0x02; 0x04; 0x08; 0x13; 0x13]);
   (38, [0x0C; 0x12; 0x14; 0x08; 0x15; 0x12; 0x0D]); (124, [0x04; 0x04; 0x04; 0x04; 0x04; 0x04; 0x04]);
   (39, [0x04; 0x04; 0x08; 0; 0; 0; 0]); (34, [0x0A; 0x0A; 0x14; 0; 0; 0; 0])].

Definition glyph_row (character row : Z) : Z :=
  if 7 <=? row then 0
  else
    let character := if (97 <=? character) && (character <=? 122) then character - 97 + 65 else character in
    if character =? 32 then 0
    else
      match List.find (fun glyph => glyph.1 =? character) kGlyphs with
      | Some glyph => zget 0 glyph.2 row
      | None => if (row =? 0) || (row =? 6) then 0x1F else 0x11
      end.

(** ** Drawing *)

(** [surface()[index] = color] *)
Definition surface_set (m : mem) (index color : Z) : mem := mem_set m (ARGUS_APP_SURFACE_ADDRESS + index) color.

Definition clear (color : Z) (m : mem) : mem :=
  for_range 0 ARGUS_APP_SURFACE_BYTES (fun index m => surface_set m index color) m.

Definition draw_pixel (x y color : Z) (m : mem) : mem :=
  if (ARGUS_APP_SURFACE_WIDTH <=? x) || (ARGUS_APP_SURFACE_HEIGHT <=? y) then m
  else surface_set m (u32 (u32 (y * ARGUS_APP_SURFACE_STRIDE) + x)) color.

Definition rect (x y width height color : Z) (m : mem) : mem :=
  if (ARGUS_APP_SURFACE_WIDTH <=? x) || (ARGUS_APP_SURFACE_HEIGHT <=? y) then m
  else
    let width := if ARGUS_APP_SURFACE_WIDTH - x <? width then ARGUS_APP_SURFACE_WIDTH - x else width in
    let height := if ARGUS_APP_SURFACE_HEIGHT - y <? height then ARGUS_APP_SURFACE_HEIGHT - y else height in
    for_range 0 height (fun row m =>
      for_range 0 width (fun column m =>
        surface_set m (u32 (u32 (u32 (u32 (y + row) * ARGUS_APP_SURFACE_STRIDE) + x) + column)) color) m) m.

Definition draw_frame (x y width height color : Z) (m : mem) : mem :=
  if negb (nz width) || negb (nz height) then m
  else
    let m := rect x y width 1 color m in
    let m := rect x (u32 (u32 (y + height) - 1)) width 1 color m in
    let m := rect x y 1 height color m in
    rect (u32 (u32 (x + width) - 1)) y 1 height color m.

Definition draw_char (character x y scale color : Z) (m : mem) : mem :=
  for_range 0 7 (fun row m =>
    let bits := glyph_row character row in
    for_range 0 5 (fun column m =>
      if nz (bits & (1 << (4 - column)))
      then rect (u32 (x + u32 (column * scale))) (u32 (y + u32 (row * scale))) scale scale color m else m) m) m.

(** The loop over the characters up to the terminating zero. *)
Fixpoint draw_string (value : list Z) (x y scale color : Z) (m : mem) : mem :=
  match value with
  | [] => m
  | character :: value' =>
      if character =? 0 then m
      else
        let m := draw_char character x y scale color m in
        let x := u32 (x + u32 (6 * scale)) in
        if ARGUS_APP_SURFACE_WIDTH <=? x then m else draw_string value' x y scale color m
  end.

Definition draw_text (value : option (list Z)) (x y scale color : Z) (m : mem) : mem :=
  match value with
  | Some value => if negb (nz scale) then m else draw_string value x y scale color m
  | None => m
  end.

Fixpoint string_width (value : list Z) (scale width : Z) : Z :=
  match value with
  | [] => width
  | character :: value' => if character =? 0 then width else string_width value' scale (u32 (width + u32 (6 * scale)))
  end.
Definition app_text_width (value : option (list Z)) (scale : Z) : Z :=
  match value with Some value => string_width value scale 0 | None => 0 end.

(** ** Numbers *)

(** [do { reverse[used++] = '0' + value % 10u; value /= 10u; } while (...)]; the
    array has 21 elements. *)
Fixpoint reverse_loop (n : nat) (value : Z) (reverse : list Z) (used : Z) : list Z * Z :=
  match n with
  | O => (reverse, used)
  | S n' =>
      let reverse := zset reverse used (48 + value mod 10) in
      let value := value / 10 in
      let used := used + 1 in
      if nz value && (used <? 21) then reverse_loop n' value reverse used else (reverse, used)
  end.

(** [output] is the array the pointer is into and [at_] the pointer's index in it. *)
Definition unsigned_decimal (value : Z) (output : list Z) (at_ capacity : Z) : list Z :=
  if capacity <? 2 then output
  else
    let '(reverse, used) := reverse_loop 21 value (replicate 21 0) 0 in
    let amount := if used <? capacity - 1 then used else capacity - 1 in
    let output := for_range 0 amount (fun index output => zset output (at_ + index) (zget 0 reverse (used - index - 1))) output in
    zset output (at_ + amount) 0.

Definition signed_decimal (value : Z) (output : list Z) (capacity : Z) : list Z :=
  if capacity <? 2 then output
  else if 0 <=? value then unsigned_decimal value output 0 capacity
  else
    let output := zset output 0 45 in
    let magnitude := u64 (- (value + 1) + 1) in
    unsigned_decimal magnitude output 1 (capacity - 1).

(** ** System calls *)

(** [sys_call u m rax rdi rsi rdx]: the kernel [u] sees the caller's memory and
    leaves it alone in the calls made here; calls with fewer arguments do not look
    at the other registers. *)
Class System (U : Type) := { sys_call : U -> mem -> Z -> Z -> Z -> Z -> Z * U }.

Section program.
Context {U : Type} `{System U}.

Definition syscall0 (u : U) (m : mem) (number : Z) : Z * U := sys_call u m number 0 0 0.
Definition syscall1 (u : U) (m : mem) (number first : Z) : Z * U := sys_call u m number first 0 0.
Definition syscall2 (u : U) (m : mem) (number first second : Z) : Z * U := sys_call u m number first second 0.
Definition syscall3 (u : U) (m : mem) (number first second third : Z) : Z * U := sys_call u m number first second third.

Definition capability (u : U) (m : mem) (type rights : Z) : Z * U :=
  syscall2 u m ARGUS_SYSCALL_CAPABILITY_QUERY type rights.

Definition pid (u : U) (m : mem) : Z * U := syscall0 u m ARGUS_SYSCALL_GETPID.
Definition ticks (u : U) (m : mem) : Z * U :=
  let '(handle, u) := capability u m ARGUS_CAPABILITY_CLOCK ARGUS_CAP_RIGHT_READ in
  syscall1 u m ARGUS_SYSCALL_CLOCK_TICKS handle.
Definition input_poll (u : U) (m : mem) : Z * U :=
  let '(handle, u) := capability u m ARGUS_CAPABILITY_INPUT ARGUS_CAP_RIGHT_READ in
  syscall1 u m ARGUS_SYSCALL_INPUT_POLL handle.
Definition app_yield (u : U) (m : mem) : U := snd (syscall0 u m ARGUS_SYSCALL_YIELD).
Definition wait_until (u : U) (m : mem) (deadline : Z) : U :=
  let '(handle, u) := capability u m ARGUS_CAPABILITY_INPUT ARGUS_CAP_RIGHT_WAIT in
  snd (syscall2 u m ARGUS_SYSCALL_EVENT_WAIT handle deadline).
Definition wait_for_input (u : U) (m : mem) : U := wait_until u m UINT64_MAX.

(** [request] is the address of the local structure. *)
Definition app_present (request : Z) (u : U) (m : mem) (sequence : Z) : bool * U * mem :=
  let m := store32 m request ARGUS_APP_PRESENT_MAGIC in
  let m := store32 m (request + 4) ARGUS_APP_ABI_VERSION in
  let m := store32 m (request + 8) sequence in
  let m := store32 m (request + 12) 0 in
  let '(handle, u) := capability u m ARGUS_CAPABILITY_SURFACE ARGUS_CAP_RIGHT_PRESENT in
  let '(result, u) := syscall3 u m ARGUS_SYSCALL_APP_PRESENT request 16 handle in
  (result =? 0, u, m).

(** ** The programs' main loop *)

(** [exit] makes its call and never returns. *)
Definition app_exit (u : U) (m : mem) (status : Z) : U := snd (syscall1 u m ARGUS_SYSCALL_EXIT status).

Record running_app (St : Type) := mk_running { rn_state : St; rn_sequence : Z; rn_system : U; rn_memory : mem }.
Arguments mk_running {St}.
Arguments rn_state {St}.
Arguments rn_sequence {St}.
Arguments rn_system {St}.
Arguments rn_memory {St}.

Inductive app_outcome (St : Type) :=
| Exited (status : Z) (u : U)
| Running (r : running_app St).
Arguments Exited {St}.
Arguments Running {St}.

Section loop.
Context {St : Type} (input : St -> Z -> St) (draw : St -> mem -> St * mem) (dirty : St -> bool) (initial : St).
Context (request : Z).

(** [for (;;) { key = input_poll(); if (!key) break; input(key); }]: the keys may keep
    coming, so the polls are counted. *)
Fixpoint poll_keys (fuel : nat) (st : St) (u : U) (m : mem) : option (St * U) :=
  match fuel with
  | O => None
  | S fuel' =>
      let '(key, u) := input_poll u m in
      if negb (nz key) then Some (st, u) else poll_keys fuel' (input st key) u m
  end.

(** [draw(); present(++sequence)], with the result of [present]. *)
Definition show (r : running_app St) : bool * running_app St :=
  let '(st, m) := draw (rn_state r) (rn_memory r) in
  let sequence := u32 (rn_sequence r + 1) in
  let '(ok, u, m) := app_present request (rn_system r) m sequence in
  (ok, mk_running st sequence u m).

Definition argus_user_start (process : Z) (u : U) (m : mem) : app_outcome St :=
  if negb (nz process) then Exited 1 (app_exit u m 1)
  else
    let '(own, u) := pid u m in
    if own !=? process then Exited 1 (app_exit u m 1)
    else
      let '(ok, r) := show (mk_running initial 0 u m) in
      if negb ok then Exited 2 (app_exit (rn_system r) (rn_memory r) 2) else Running r.

(** One turn of the outer loop. *)
Definition app_round (fuel : nat) (r : running_app St) : option (running_app St) :=
  '(st, u) ← poll_keys fuel (rn_state r) (rn_system r) (rn_memory r);
  let r := mk_running st (rn_sequence r) u (rn_memory r) in
  let r := if dirty st then snd (show r) else r in
  Some (mk_running (rn_state r) (rn_sequence r) (wait_for_input (rn_system r) (rn_memory r)) (rn_memory r)).
End loop.
End program.
Arguments mk_running {U St}.
Arguments rn_state {U St}.
Arguments rn_sequence {U St}.
Arguments rn_system {U St}.
Arguments rn_memory {U St}.
Arguments Exited {U St}.
Arguments Running {U St}.

(** ** What drawing changes *)

Definition in_app_surface (a : Z) : Prop :=
  ARGUS_APP_SURFACE_ADDRESS <= a < ARGUS_APP_SURFACE_ADDRESS + ARGUS_APP_SURFACE_BYTES.

(** Only bytes of the surface change, and those that do are palette indices. *)
Definition paints (m m' : mem) : Prop :=
  forall a, mem_get m' a = mem_get m a \/ in_app_surface a /\ mem_get m' a < ARGUS_APP_PALETTE_COUNT.

Lemma paints_refl m : paints m m.
Proof. intros a. by left. Qed.
Lemma paints_trans m1 m2 m3 : paints m1 m2 -> paints m2 m3 -> paints m1 m3.
Proof. intros H1 H2 a. destruct (H2 a) as [->|?]; [apply H1|by right]. Qed.

Lemma paints_loop lo hi (body : Z -> mem -> mem) m :
  (forall i m, lo <= i < hi -> paints m (body i m)) -> paints m (for_range lo hi body m).
Proof.
  intros Hb. destruct (Z_le_gt_dec hi lo); [rewrite for_range_empty by lia; apply paints_refl|].
  apply (for_range_inv (fun _ => paints m)); [lia|apply paints_refl|]. intros i m' Hi Hm. eapply paints_trans; [exact Hm|by apply Hb].
Qed.

Lemma paints_set m index color :
  0 <= index < ARGUS_APP_SURFACE_BYTES -> 0 <= color < ARGUS_APP_PALETTE_COUNT -> paints m (surface_set m index color).
Proof.
  intros Hi Hc a. unfold surface_set. rewrite mem_get_set. case_if; b2p; [right|by left].
  split; [unfold in_app_surface; lia|]. rewrite u8_id by (unfold ARGUS_APP_PALETTE_COUNT in *; lia). lia.
Qed.

(** The byte of the surface at (x, y). *)
Definition surface_get (m : mem) (x y : Z) : Z := mem_get m (ARGUS_APP_SURFACE_ADDRESS + (y * ARGUS_APP_SURFACE_STRIDE + x)).
Definition on_app_surface (x y : Z) : Prop := 0 <= x < ARGUS_APP_SURFACE_WIDTH /\ 0 <= y < ARGUS_APP_SURFACE_HEIGHT.

Lemma surface_index x y : on_app_surface x y -> 0 <= y * ARGUS_APP_SURFACE_STRIDE + x < ARGUS_APP_SURFACE_BYTES.
Proof. unfold on_app_surface, ARGUS_APP_SURFACE_STRIDE, ARGUS_APP_SURFACE_WIDTH, ARGUS_APP_SURFACE_HEIGHT, ARGUS_APP_SURFACE_BYTES. lia. Qed.

Lemma surface_get_set m x y color px py :
  on_app_surface x y -> on_app_surface px py ->
  surface_get (surface_set m (y * ARGUS_APP_SURFACE_STRIDE + x) color) px py
  = if (px =? x) && (py =? y) then u8 color else surface_get m px py.
Proof.
  intros H1 H2. unfold surface_get, surface_set. rewrite mem_get_set.
  unfold on_app_surface, ARGUS_APP_SURFACE_STRIDE, ARGUS_APP_SURFACE_WIDTH, ARGUS_APP_SURFACE_HEIGHT in *.
  destruct (Z.eqb_spec px x), (Z.eqb_spec py y); cbn [andb]; subst; case_if; b2p; done || lia.
Qed.

(** [rect] fills the part of the rectangle that is on the surface. *)
Lemma rect_exact x y width height color m :
  0 <= x -> 0 <= y -> 0 <= width -> 0 <= height ->
  let m' := rect x y width height color m in
  (forall px py, on_app_surface px py ->
     surface_get m' px py = if in_rect x y width height px py then u8 color else surface_get m px py) /\
  forall a, ~ in_app_surface a -> mem_get m' a = mem_get m a.
Proof.
  intros Hx Hy Hw Hh. unfold rect. destruct (_ || _) eqn:Eo.
  { split; [|done]. intros px py Hp. replace (in_rect _ _ _ _ _ _) with false; [done|]. symmetry. apply in_rect_false.
    unfold on_app_surface in Hp. apply orb_true_iff in Eo. destruct Eo; b2p; lia. }
  apply orb_false_iff in Eo as [Ex Ey]. b2p. cbv zeta.
  set (W := if _ <? width then _ else width). set (H := if _ <? height then _ else height).
  assert (0 <= W /\ x + W <= ARGUS_APP_SURFACE_WIDTH /\ 0 <= H /\ y + H <= ARGUS_APP_SURFACE_HEIGHT /\
    forall px py, on_app_surface px py -> in_rect x y width height px py = in_rect 0 0 W H (px - x) (py - y)) as (HW & HxW & HH & HyH & Hin).
  { unfold W, H, on_app_surface. repeat case_if; b2p; (split_and!; [lia..|]); intros px py Hp; apply eq_true_iff_eq; rewrite !in_rect_true; lia. }
  pose (I := fun (done : Z -> Z -> bool) m' =>
    (forall px py, on_app_surface px py -> surface_get m' px py = if done (px - x) (py - y) then u8 color else surface_get m px py) /\
    forall a, ~ in_app_surface a -> mem_get m' a = mem_get m a).
  assert (I (in_rect 0 0 W H) (for_range 0 H (fun row m => for_range 0 W (fun column m =>
    surface_set m (u32 (u32 (u32 (u32 (y + row) * ARGUS_APP_SURFACE_STRIDE) + x) + column)) color) m) m)) as [A B].
  { apply (scan_inv I W H (fun row column m => surface_set m (u32 (u32 (u32 (u32 (y + row) * ARGUS_APP_SURFACE_STRIDE) + x) + column)) color)); [done|done| | |].
    - intros f g m' Hfg [A B]. split; [|done]. intros px py Hp. rewrite <- Hfg. by apply A.
    - by split.
    - intros c r dn m' Hc Hr Hdn [A B]. assert (on_app_surface (x + c) (y + r)) as Hp by (unfold on_app_surface; lia).
      replace (u32 _) with ((y + r) * ARGUS_APP_SURFACE_STRIDE + (x + c)).
      2: { unfold ARGUS_APP_SURFACE_STRIDE, ARGUS_APP_SURFACE_WIDTH, ARGUS_APP_SURFACE_HEIGHT in *. rewrite (u32_id (y + r)) by (unfold UINT32_MAX; lia).
           rewrite (u32_id ((y + r) * 320)), (u32_id ((y + r) * 320 + x)), u32_id by (unfold UINT32_MAX; lia). lia. }
      split.
      + intros px py Hq. rewrite surface_get_set by done. rewrite A by done.
        destruct (Z.eqb_spec px (x + c)), (Z.eqb_spec (px - x) c), (Z.eqb_spec py (y + r)), (Z.eqb_spec (py - y) r); try lia; cbn [andb];
          rewrite ?orb_true_r, ?orb_false_r; done.
      + intros a Ha. unfold surface_set. rewrite mem_get_set_ne; [by apply B|]. intros <-. apply Ha. pose proof (surface_index _ _ Hp). unfold in_app_surface. lia. }
  split; [|done]. intros px py Hp. rewrite A, Hin by done. done.
Qed.

(** An address of the surface is a pixel. *)
Lemma surface_coords a : in_app_surface a -> exists x y, on_app_surface x y /\ a = ARGUS_APP_SURFACE_ADDRESS + (y * ARGUS_APP_SURFACE_STRIDE + x).
Proof.
  unfold in_app_surface, on_app_surface, ARGUS_APP_SURFACE_STRIDE, ARGUS_APP_SURFACE_WIDTH, ARGUS_APP_SURFACE_HEIGHT, ARGUS_APP_SURFACE_BYTES.
  intros Ha. set (i := a - ARGUS_APP_SURFACE_ADDRESS). exists (i mod 320), (i / 320).
  pose proof (Z.div_mod i 320). pose proof (Z.mod_pos_bound i 320). unfold i in *. split_and!; lia.
Qed.

Lemma paints_rect x y width height color m :
  0 <= x -> 0 <= y -> 0 <= width -> 0 <= height -> 0 <= color < ARGUS_APP_PALETTE_COUNT -> paints m (rect x y width height color m).
Proof.
  intros Hx Hy Hw Hh Hc a. destruct (rect_exact x y width height color m Hx Hy Hw Hh) as [A B]. cbv zeta in A, B.
  destruct (decide (in_app_surface a)) as [Ha|Ha]; [|by left; apply B].
  destruct (surface_coords a Ha) as (px & py & Hp & ->). specialize (A px py Hp). unfold surface_get in A. rewrite A.
  destruct (in_rect _ _ _ _ _ _); [right|by left]. split; [done|]. rewrite u8_id; [lia|]. unfold ARGUS_APP_PALETTE_COUNT in *. lia.
Qed.

Lemma paints_frame x y width height color m :
  0 <= x -> 0 <= y -> 0 <= width -> 0 <= height -> 0 <= color < ARGUS_APP_PALETTE_COUNT -> paints m (draw_frame x y width height color m).
Proof.
  intros. unfold draw_frame. case_if; [apply paints_refl|]. cbv zeta.
  repeat (eapply paints_trans; [|apply paints_rect; try apply u32_nonneg; done || lia]). apply paints_refl.
Qed.

Lemma paints_char character x y scale color m :
  0 <= scale -> 0 <= color < ARGUS_APP_PALETTE_COUNT -> paints m (draw_char character x y scale color m).
Proof.
  intros. apply paints_loop. intros row m1 _. apply paints_loop. intros column m2 _.
  case_if; [apply paints_rect; try apply u32_nonneg; done|apply paints_refl].
Qed.

Lemma paints_string value : forall x y scale color m,
  0 <= scale -> 0 <= color < ARGUS_APP_PALETTE_COUNT -> paints m (draw_string value x y scale color m).
Proof.
  induction value as [|c value IH]; intros x y scale color m Hs Hc; [apply paints_refl|]. cbn [draw_string].
  case_if; [apply paints_refl|]. case_if; [by apply paints_char|]. eapply paints_trans; [by apply paints_char|by apply IH].
Qed.

Lemma paints_text value x y scale color m :
  0 <= scale -> 0 <= color < ARGUS_APP_PALETTE_COUNT -> paints m (draw_text value x y scale color m).
Proof. intros. unfold draw_text. destruct value; [|apply paints_refl]. case_if; [apply paints_refl|by apply paints_string]. Qed.

Lemma paints_clear color m : 0 <= color < ARGUS_APP_PALETTE_COUNT -> paints m (clear color m).
Proof. intros. unfold clear. apply paints_loop. intros i m1 Hi. by apply paints_set. Qed.

(** Every byte of the surface is a palette index. *)
Definition palette_ok (m : mem) : Prop := forall a, in_app_surface a -> mem_get m a < ARGUS_APP_PALETTE_COUNT.

Lemma paints_palette m m' : paints m m' -> palette_ok m -> palette_ok m'.
Proof. intros Hp Hm a Ha. destruct (Hp a) as [->|[_ ?]]; [by apply Hm|done]. Qed.

Lemma clear_palette color m : 0 <= color < ARGUS_APP_PALETTE_COUNT -> palette_ok (clear color m).
Proof.
  intros Hc. unfold clear.
  pose (I := fun i (m' : mem) => forall a, ARGUS_APP_SURFACE_ADDRESS <= a < ARGUS_APP_SURFACE_ADDRESS + i -> mem_get m' a = color).
  assert (I ARGUS_APP_SURFACE_BYTES (for_range 0 ARGUS_APP_SURFACE_BYTES (fun index m => surface_set m index color) m)) as Hall.
  { apply for_range_inv; [done|intros a Ha; lia|]. intros i m' Hi Hm a Ha. unfold surface_set. rewrite mem_get_set. case_if; b2p.
    - apply u8_id. unfold ARGUS_APP_PALETTE_COUNT in *. lia.
    - apply Hm. lia. }
  intros a Ha. rewrite (Hall a Ha). lia.
Qed.

(** A frame: cleared and drawn on. *)
Definition frame_ok (m m' : mem) : Prop := palette_ok m' /\ forall a, ~ in_app_surface a -> mem_get m' a = mem_get m a.

Lemma drawn_frame color m m0 m' : 0 <= color < ARGUS_APP_PALETTE_COUNT -> m0 = clear color m -> paints m0 m' -> frame_ok m m'.
Proof.
  intros Hc -> Hp. split; [eapply paints_palette; [exact Hp|by apply clear_palette]|]. intros a Ha.
  destruct (Hp a) as [-> |[? _]]; [|done]. by destruct (paints_clear color m Hc a) as [|[? _]].
Qed.

(** Such a frame in the application's physical pages passes the kernel's check. *)
Lemma frame_accepted m m' (physical : mem) (p : process_t) :
  frame_ok m m' -> pm_surface_physical (pr_memory p) <> 0 ->
  (forall i, 0 <= i < ARGUS_APP_SURFACE_BYTES ->
     mem_get physical (pm_surface_physical (pr_memory p) + i) = mem_get m' (ARGUS_APP_SURFACE_ADDRESS + i)) ->
  app_surface_valid physical p = true.
Proof.
  intros [Hp _] H0 Hm. unfold app_surface_valid. apply andb_true_iff. split; [unfold nz; by apply negb_true_iff, Z.eqb_neq|].
  apply zall_true. intros i Hi. assert (0 <= i < ARGUS_APP_SURFACE_BYTES) as Hi' by (unfold ARGUS_APP_SURFACE_BYTES in *; lia).
  apply Z.ltb_lt. rewrite Hm by done. apply Hp. unfold in_app_surface. lia.
Qed.

(** Draw step by step. *)
Ltac paint_steps :=
  repeat match goal with
  | |- paints ?m ?m => apply paints_refl
  | |- paints _ (draw_text ?t ?x ?y ?s ?c ?m) =>
      apply (paints_trans _ m); [|apply (paints_text t x y s c m); [lia|done]]
  | |- paints _ (rect ?x ?y ?w ?h ?c ?m) =>
      apply (paints_trans _ m); [|apply (paints_rect x y w h c m); [first [lia|apply u32_nonneg]..|done]]
  | |- paints _ (draw_frame ?x ?y ?w ?h ?c ?m) =>
      apply (paints_trans _ m); [|apply (paints_frame x y w h c m); [first [lia|apply u32_nonneg]..|done]]
  end.
