(* ===== verification/Calculator.v ===== *)
(** * The calculator (src/user/calculator.cpp)

    The class [Calculator] with its keys, its arithmetic and its picture.  Signed
    64-bit arithmetic is reduced with [s64], so that an overflow would show. *)

From stdpp Require Import base list gmap numbers strings.
From Stdlib Require Import ZArith Lia.
From S2P Require Import Prelude Memory Process Files Runtime.

Open Scope Z_scope.

Definition s64 (x : Z) : Z := (x + 2 ^ 63) mod 2 ^ 64 - 2 ^ 63.

Definition kLimit : Z := 999999999.

Record Calculator := mk_calculator {
  current_ : Z; accumulator_ : Z; pending_ : Z; entering_ : bool; has_accumulator_ : bool; error_ : bool; calc_dirty_ : bool }.

Definition calculator0 : Calculator := mk_calculator 0 0 0 true false false true.

Definition calc_clear (c : Calculator) : Calculator := mk_calculator 0 0 0 true false false true.

(** The result and whether there was an error. *)
Definition operate (c : Calculator) : Z * bool :=
  if pending_ c =? 43 then (s64 (accumulator_ c + current_ c), error_ c)
  else if pending_ c =? 45 then (s64 (accumulator_ c - current_ c), error_ c)
  else if pending_ c =? 42 then (s64 (accumulator_ c * current_ c), error_ c)
  else if pending_ c =? 47 then
    if negb (nz (current_ c)) then (accumulator_ c, true) else (s64 (Z.quot (accumulator_ c) (current_ c)), error_ c)
  else (accumulator_ c, error_ c).

Definition commit (c : Calculator) : Calculator :=
  if negb (has_accumulator_ c) then
    mk_calculator (current_ c) (current_ c) (pending_ c) (entering_ c) true (error_ c) (calc_dirty_ c)
  else if negb (nz (pending_ c)) || negb (entering_ c) then c
  else
    let '(result, error) := operate c in
    let error := if (kLimit <? result) || (result <? - kLimit) then true else error in
    if error then mk_calculator 0 0 (pending_ c) (entering_ c) false error (calc_dirty_ c)
    else mk_calculator result result (pending_ c) (entering_ c) (has_accumulator_ c) error (calc_dirty_ c).

Definition calc_input (c : Calculator) (key : Z) : Calculator :=
  if (48 <=? key) && (key <=? 57) then
    let digit := key - 48 in
    let current := if negb (entering_ c) then 0 else current_ c in
    let current := if current <=? Z.quot (kLimit - digit) 10 then s64 (s64 (current * 10) + digit) else current in
    mk_calculator current (accumulator_ c) (pending_ c) true (has_accumulator_ c) false true
  else if key =? 8 then
    mk_calculator (Z.quot (current_ c) 10) (accumulator_ c) (pending_ c) (entering_ c) (has_accumulator_ c) (error_ c) true
  else if (key =? 99) || (key =? 67) then calc_clear c
  else if (key =? 43) || (key =? 45) || (key =? 42) || (key =? 47) then
    let c := commit c in
    mk_calculator (current_ c) (accumulator_ c) key false (has_accumulator_ c) (error_ c) true
  else if (key =? 61) || (key =? 10) || (key =? 13) then
    let c := commit c in
    mk_calculator (current_ c) (accumulator_ c) 0 false (has_accumulator_ c) (error_ c) true
  else c.

Definition calc_dirty (c : Calculator) : bool := calc_dirty_ c.

(** [char number[24]] before [signed_decimal] has filled it: its contents do not
    matter, they are never read. *)
Definition calc_number (c : Calculator) : list Z := signed_decimal (current_ c) (replicate 24 0) 24.

Definition calc_display (c : Calculator) (m : mem) : mem :=
  if error_ c then draw_text (Some (text "ERROR")) 266 52 1 ARGUS_APP_COLOR_LCD_INK m
  else
    let number := calc_number c in
    let width := app_text_width (Some number) 2 in
    let x := if u32 (width + 18) <? 304 then 304 - width else 14 in
    draw_text (Some number) x 51 2 ARGUS_APP_COLOR_LCD_INK m.

Definition calc_keys : list (list Z) := [text "789/"; text "456*"; text "123-"; text "C0=+"].

Definition calc_button (row column : Z) (m : mem) : mem :=
  let x := u32 (8 + u32 (column * 77)) in
  let y := u32 (90 + u32 (row * 31)) in
  let m := rect x y 72 26 ARGUS_APP_COLOR_CHROME m in
  let m := draw_frame x y 72 26 ARGUS_APP_COLOR_HIGHLIGHT m in
  draw_text (Some [zget 0 (zget [] calc_keys row) column; 0]) (u32 (x + 33)) (u32 (y + 9)) 1 ARGUS_APP_COLOR_TERMINAL m.

Definition calc_draw (c : Calculator) (m : mem) : Calculator * mem :=
  let m := clear ARGUS_APP_COLOR_TERMINAL m in
  let m := draw_text (Some (text "KEYBOARD CALCULATOR")) 8 8 1 ARGUS_APP_COLOR_TEXT m in
  let m := draw_text (Some (text "C CLEAR   BACKSPACE DELETE")) 8 20 1 ARGUS_APP_COLOR_TEXT m in
  let m := rect 8 38 304 42 ARGUS_APP_COLOR_LCD m in
  let m := draw_frame 8 38 304 42 ARGUS_APP_COLOR_LCD_INK m in
  let m := calc_display c m in
  let m := if nz (pending_ c) then draw_text (Some [pending_ c; 0]) 16 52 1 ARGUS_APP_COLOR_LCD_INK m else m in
  let m := for_range 0 4 (fun row m => for_range 0 4 (fun column m => calc_button row column m) m) m in
  (mk_calculator (current_ c) (accumulator_ c) (pending_ c) (entering_ c) (has_accumulator_ c) (error_ c) false, m).

Definition calc_run (keys : list Z) (c : Calculator) : Calculator := fold_left calc_input keys c.

(** ** No overflow *)

Lemma s64_id x : - 2 ^ 63 <= x < 2 ^ 63 -> s64 x = x.
Proof. intros. unfold s64. rewrite Z.mod_small by lia. lia. Qed.

Definition in_limit (x : Z) : Prop := - kLimit <= x <= kLimit.

Record calc_ok (c : Calculator) : Prop := {
  ck_current : in_limit (current_ c);
  ck_accumulator : in_limit (accumulator_ c);
  ck_entering : entering_ c = true -> 0 <= current_ c }.

(** What the operations make of operands within the limit. *)
Definition exact_result (op a b : Z) : option Z :=
  if op =? 43 then Some (a + b) else if op =? 45 then Some (a - b) else if op =? 42 then Some (a * b)
  else if op =? 47 then (if b =? 0 then None else Some (Z.quot a b)) else Some a.

Lemma quot_limit a b : in_limit a -> in_limit (Z.quot a b).
Proof.
  unfold in_limit, kLimit. intros Ha. destruct (Z.eq_dec b 0) as [-> |Hb]; [replace (Z.quot a 0) with 0 by (by destruct a); lia|].
  pose proof (Z.quot_abs a b Hb). pose proof (Z.quot_le_upper_bound (Z.abs a) (Z.abs b) 999999999 ltac:(lia) ltac:(nia)). lia.
Qed.

Lemma operate_exact c : calc_ok c ->
  operate c = match exact_result (pending_ c) (accumulator_ c) (current_ c) with
              | Some r => (r, error_ c)
              | None => (accumulator_ c, true)
              end.
Proof.
  intros [Hc Ha _]. pose proof (quot_limit _ (current_ c) Ha) as Hq. unfold in_limit, kLimit in *. unfold operate, exact_result, nz. repeat case_if; b2p; try done;
    try (rewrite s64_id by nia; done).
Qed.

Lemma commit_ok c : calc_ok c -> in_limit (current_ (commit c)) /\ in_limit (accumulator_ (commit c)).
Proof.
  intros [Hc Ha _]. unfold commit. destruct (negb (has_accumulator_ c)); [done|]. destruct (negb (nz _) || _); [done|].
  destruct (operate c) as [result error]. destruct ((kLimit <? result) || (result <? - kLimit)) eqn:El.
  - split; cbn; unfold in_limit, kLimit; lia.
  - apply orb_false_iff in El as [E1 E2]. rewrite Z.ltb_ge in E1, E2. destruct error; split; cbn; unfold in_limit; unfold kLimit in *; lia.
Qed.

Lemma typed_digit current digit :
  0 <= current -> 0 <= digit <= 9 -> current <= Z.quot (kLimit - digit) 10 ->
  s64 (s64 (current * 10) + digit) = current * 10 + digit /\ 0 <= current * 10 + digit <= kLimit.
Proof.
  unfold kLimit. intros Hc Hd Hle. rewrite Z.quot_div_nonneg in Hle by lia.
  pose proof (Z.div_mod (999999999 - digit) 10). pose proof (Z.mod_pos_bound (999999999 - digit) 10).
  rewrite (s64_id (current * 10)) by lia. rewrite s64_id by lia. split; [done|lia].
Qed.

Lemma calc_input_ok c key : calc_ok c -> calc_ok (calc_input c key).
Proof.
  intros Hok. pose proof Hok as [Hc Ha He]. unfold calc_input. cbv zeta. case_if.
  { b2p. set (current := if negb (entering_ c) then 0 else current_ c).
    assert (0 <= current <= kLimit) as Hcur.
    { unfold current. destruct (entering_ c); cbn; [specialize (He eq_refl); unfold in_limit in Hc; lia|unfold kLimit; lia]. }
    case_if; b2p; [destruct (typed_digit current (key - 48)) as [-> Hd]; try lia|]; constructor; cbn; try done; unfold in_limit, kLimit in *; lia. }
  case_if.
  { constructor; cbn; [by apply quot_limit|done|]. intros E. apply Z.quot_pos; [by apply He|lia]. }
  case_if; [constructor; cbn; unfold in_limit, kLimit; lia|].
  destruct (commit_ok c Hok) as [H1 H2]. case_if; [by constructor|]. case_if; [by constructor|done].
Qed.

Lemma calc_run_ok keys : forall c, calc_ok c -> calc_ok (calc_run keys c).
Proof. induction keys as [|k keys IH]; intros c Hc; [done|]. apply IH. by apply calc_input_ok. Qed.

Lemma calculator0_ok : calc_ok calculator0.
Proof. constructor; cbn; unfold in_limit, kLimit; lia. Qed.

(** C27: No sequence of keys makes the calculator's signed arithmetic overflow: both
    numbers stay within nine digits, so that the sum, the difference, the product and
    the quotient of the operands, and the number with a digit appended, are computed
    exactly in 64 bits. *)
Theorem calculator_never_overflows keys :
  let c := calc_run keys calculator0 in
  - kLimit <= current_ c <= kLimit /\ - kLimit <= accumulator_ c <= kLimit /\
  operate c = match exact_result (pending_ c) (accumulator_ c) (current_ c) with
              | Some r => (r, error_ c)
              | None => (accumulator_ c, true)
              end /\
  forall digit, 0 <= digit <= 9 -> s64 (s64 (current_ c * 10) + digit) = current_ c * 10 + digit.
Proof.
  intros c. assert (calc_ok c) as Hok by (apply calc_run_ok, calculator0_ok). pose proof Hok as [Hc Ha _].
  split_and!; try done; [by apply Hc|by apply Hc|by apply Ha|by apply Ha|by apply operate_exact|].
  intros digit Hd. unfold in_limit, kLimit in *. rewrite (s64_id (current_ c * 10)) by lia. apply s64_id. lia.
Qed.

(** ** Evaluation *)

(** The number a row of digits spells. *)
Definition number_of (digits : list Z) : Z := fold_left (fun v d => v * 10 + d) digits 0.
Definition digit_keys (digits : list Z) : list Z := map (fun d => 48 + d) digits.
Definition is_number (digits : list Z) : Prop :=
  digits <> [] /\ Forall (fun d => 0 <= d <= 9) digits /\ number_of digits <= kLimit.

(** One operation, within the limit. *)
Definition checked (op a b : Z) : option Z :=
  match exact_result op a b with
  | Some r => if (kLimit <? r) || (r <? - kLimit) then None else Some r
  | None => None
  end.

Definition is_operator (op : Z) : Prop := op = 43 \/ op = 45 \/ op = 42 \/ op = 47.

(** Left to right, as on a calculator without precedence. *)
Definition evaluate (first : Z) (rest : list (Z * list Z)) : option Z :=
  fold_left (fun acc e => a ← acc; checked e.1 a (number_of e.2)) rest (Some first).

Definition expression_keys (first : list Z) (rest : list (Z * list Z)) : list Z :=
  digit_keys first ++ concat (map (fun e => e.1 :: digit_keys e.2) rest).

Lemma number_of_snoc digits d : number_of (digits ++ [d]) = number_of digits * 10 + d.
Proof. unfold number_of. by rewrite fold_left_app. Qed.

Lemma number_of_nonneg digits : Forall (fun d => 0 <= d <= 9) digits -> 0 <= number_of digits.
Proof.
  induction digits as [|d digits IH] using rev_ind; intros H; [done|]. apply Forall_app in H as [H1 H2].
  rewrite number_of_snoc. apply Forall_inv in H2. cbv beta in H2. specialize (IH H1). lia.
Qed.

(** Typing a number, over whatever was there or from nothing. *)
Lemma type_number digits c :
  is_number digits -> (entering_ c = true -> current_ c = 0) ->
  calc_run (digit_keys digits) c
  = mk_calculator (number_of digits) (accumulator_ c) (pending_ c) true (has_accumulator_ c) false true.
Proof.
  intros (Hne & Hd & Hl) He. induction digits as [|d digits IH] using rev_ind; [done|]. clear Hne.
  apply Forall_app in Hd as [Hd Hd1]. apply Forall_inv in Hd1. cbv beta in Hd1. rewrite number_of_snoc in *. pose proof (number_of_nonneg _ Hd).
  unfold calc_run, digit_keys in *. rewrite map_app, fold_left_app. cbn [map fold_left].
  assert (number_of digits <= Z.quot (kLimit - d) 10) as Hq.
  { unfold kLimit in *. rewrite Z.quot_div_nonneg by lia. apply Z.div_le_lower_bound; lia. }
  assert (calc_input (fold_left calc_input (map (fun d => 48 + d) digits) c) (48 + d)
    = let cur := number_of digits in
      mk_calculator (if cur <=? Z.quot (kLimit - d) 10 then s64 (s64 (cur * 10) + d) else cur) (accumulator_ c) (pending_ c) true (has_accumulator_ c) false true) as ->.
  { assert (forall c', calc_input c' (48 + d) = let cur := if negb (entering_ c') then 0 else current_ c' in
      mk_calculator (if cur <=? Z.quot (kLimit - d) 10 then s64 (s64 (cur * 10) + d) else cur) (accumulator_ c') (pending_ c') true (has_accumulator_ c') false true) as Hin.
    { intros c'. unfold calc_input. destruct (Z.leb_spec 48 (48 + d)), (Z.leb_spec (48 + d) 57); try lia. cbn [andb]. by replace (48 + d - 48) with d by lia. }
    rewrite Hin. destruct (decide (digits = [])) as [-> |Hne].
    - cbn. destruct (entering_ c) eqn:Ee; cbn; [by rewrite He|done].
    - rewrite (IH Hne Hd ltac:(lia)). done. }
  cbv zeta. destruct (Z.leb_spec (number_of digits) (Z.quot (kLimit - d) 10)); [|lia].
  by destruct (typed_digit (number_of digits) d) as [-> _].
Qed.

(** A number has been typed; what the expression so far is worth. *)
Definition entered (c : Calculator) : Prop :=
  calc_ok c /\ entering_ c = true /\ error_ c = false /\ (has_accumulator_ c = true -> is_operator (pending_ c)).
Definition worth (c : Calculator) : option Z :=
  if has_accumulator_ c then checked (pending_ c) (accumulator_ c) (current_ c) else Some (current_ c).

Lemma commit_entered c : entered c ->
  commit c = match worth c with
             | Some v => mk_calculator v v (pending_ c) true true false (calc_dirty_ c)
             | None => mk_calculator 0 0 (pending_ c) true false true (calc_dirty_ c)
             end.
Proof.
  intros (Hok & He & Hr & Hop). unfold commit, worth, checked. rewrite He, Hr. destruct (has_accumulator_ c) eqn:Eh; cbn [negb]; [|done].
  assert (nz (pending_ c) = true) as -> by (destruct (Hop eq_refl) as [-> |[-> |[-> | ->]]]; done). cbn [negb orb].
  rewrite (operate_exact c Hok), Hr. destruct (exact_result _ _ _) as [r|]; [|by destruct (_ || _)]. by destruct (_ || _).
Qed.

(** The keys that evaluate: an operator, or [=], Enter and Return. *)
Definition evaluating (key pending : Z) : Prop :=
  is_operator key /\ pending = key \/ (key = 61 \/ key = 10 \/ key = 13) /\ pending = 0.

Lemma evaluating_input c key pending : evaluating key pending ->
  calc_input c key = mk_calculator (current_ (commit c)) (accumulator_ (commit c)) pending false (has_accumulator_ (commit c)) (error_ (commit c)) true.
Proof. intros [[[-> |[-> |[-> | ->]]] ->]|[[-> |[-> | ->]] ->]]; done. Qed.

Lemma evaluating_key c key pending : entered c -> evaluating key pending ->
  calc_input c key = match worth c with
                     | Some v => mk_calculator v v pending false true false true
                     | None => mk_calculator 0 0 pending false false true true
                     end.
Proof.
  intros He Hk. rewrite (evaluating_input c key pending Hk), (commit_entered c He).
  by destruct (worth c).
Qed.

(** The next operator and number of an expression. *)
Lemma next_operand c op digits v :
  entered c -> worth c = Some v -> is_operator op -> is_number digits ->
  let c' := calc_run (op :: digit_keys digits) c in
  entered c' /\ worth c' = checked op v (number_of digits).
Proof.
  intros He Hv Hop Hn c'.
  assert (c' = mk_calculator (number_of digits) v op true true false true) as Ec.
  { unfold c'. change (calc_run (op :: digit_keys digits) c) with (calc_run (digit_keys digits) (calc_input c op)).
    rewrite (evaluating_key c op op He (or_introl (conj Hop eq_refl))), Hv. by rewrite type_number. }
  split; [|by rewrite Ec]. split_and!; rewrite Ec; try done.
  rewrite <- Ec. apply calc_run_ok, He.
Qed.

Lemma run_app a b c : calc_run (a ++ b) c = calc_run b (calc_run a c).
Proof. apply fold_left_app. Qed.

Lemma expression_entered rest : forall c v,
  entered c -> worth c = Some v -> Forall (fun e => is_operator e.1 /\ is_number e.2) rest ->
  forall w, fold_left (fun acc e => a ← acc; checked e.1 a (number_of e.2)) rest (Some v) = Some w ->
  entered (calc_run (concat (map (fun e => e.1 :: digit_keys e.2) rest)) c) /\
  worth (calc_run (concat (map (fun e => e.1 :: digit_keys e.2) rest)) c) = Some w.
Proof.
  induction rest as [|[op digits] rest IH]; intros c v He Hv Hall w Hw.
  { injection Hw as <-. done. }
  apply Forall_cons in Hall as [[Hop Hn] Hall]. cbn [map concat fst snd] in *. rewrite run_app.
  destruct (next_operand c op digits v He Hv Hop Hn) as [He' Hw']. cbn [fold_left fst snd] in Hw.
  destruct (checked op v (number_of digits)) as [v'|] eqn:Ec.
  - eapply IH; [exact He'|by rewrite Hw'|done|]. by cbn in Hw; rewrite Ec in Hw.
  - exfalso. cbn in Hw. rewrite Ec in Hw. clear -Hw. induction rest; [done|]. by apply IHrest.
Qed.

Lemma first_entered first : is_number first ->
  entered (calc_run (digit_keys first) calculator0) /\ worth (calc_run (digit_keys first) calculator0) = Some (number_of first).
Proof.
  intros Hn. split; [split_and!|]; [apply calc_run_ok, calculator0_ok|..]; by rewrite type_number.
Qed.

Lemma expression_worth first rest v :
  is_number first -> Forall (fun e => is_operator e.1 /\ is_number e.2) rest -> evaluate (number_of first) rest = Some v ->
  entered (calc_run (expression_keys first rest) calculator0) /\ worth (calc_run (expression_keys first rest) calculator0) = Some v.
Proof.
  intros Hn Hall Hv. unfold expression_keys. rewrite run_app. destruct (first_entered first Hn) as [He Hw].
  by eapply expression_entered.
Qed.

Lemma expression_snoc first before op digits :
  expression_keys first (before ++ [(op, digits)]) = expression_keys first before ++ op :: digit_keys digits.
Proof. unfold expression_keys. rewrite map_app, concat_app. cbn. by rewrite app_nil_r, app_assoc. Qed.

Lemma run_one key c : calc_run [key] c = calc_input c key.
Proof. done. Qed.

(** C28: The calculator computes: from a fresh state, a number, any chain of operators and
    numbers and [=] leave the value of the expression, evaluated from left to right
    with division rounded towards zero, on the display; a chain whose last operation
    divides by zero or exceeds nine digits leaves the error. *)
Theorem calculator_evaluates first rest :
  is_number first -> Forall (fun e => is_operator e.1 /\ is_number e.2) rest ->
  let c := calc_run (expression_keys first rest ++ [61]) calculator0 in
  (forall v, evaluate (number_of first) rest = Some v -> error_ c = false /\ current_ c = v) /\
  (forall before op digits v, rest = before ++ [(op, digits)] -> evaluate (number_of first) before = Some v ->
     checked op v (number_of digits) = None -> error_ c = true).
Proof.
  intros Hn Hall c. split.
  - intros v Hv. destruct (expression_worth first rest v Hn Hall Hv) as [He Hw]. unfold c. rewrite run_app, run_one, (evaluating_key _ 61 0 He) by (right; auto). by rewrite Hw.
  - intros before op digits v -> Hv Hc. apply Forall_app in Hall as [Hb He]. apply Forall_inv in He as [Hop Hd]. cbn [fst snd] in *.
    destruct (expression_worth first before v Hn Hb Hv) as [He Hw]. destruct (next_operand _ op digits v He Hw Hop Hd) as [He' Hw'].
    unfold c. rewrite expression_snoc, !run_app, run_one.
    rewrite (evaluating_key _ 61 0 He') by (right; auto). by rewrite Hw', Hc.
Qed.

(** After [=] the calculator does not start afresh: the next expression's first number
    is discarded and its operator is applied to the previous result. *)
Theorem calculator_reuses_result v first op second :
  in_limit v -> is_number first -> is_operator op -> is_number second ->
  let c := calc_run (digit_keys first ++ op :: digit_keys second ++ [61]) (mk_calculator v v 0 false true false true) in
  match checked op v (number_of second) with
  | Some r => error_ c = false /\ current_ c = r
  | None => error_ c = true
  end.
Proof.
  intros Hv Hf Hop Hs c. unfold c. rewrite run_app, type_number by done.
  change (calc_run (op :: digit_keys second ++ [61]) ?x) with (calc_run (digit_keys second ++ [61]) (calc_input x op)).
  rewrite (evaluating_input _ op op) by (left; done). cbn. rewrite run_app, type_number by done. cbn [accumulator_ pending_ has_accumulator_].
  rewrite run_one, (evaluating_key _ 61 0); [|split_and!; try done|by right; auto].
  - unfold worth. cbn. by destruct (checked _ _ _).
  - destruct Hs as (_ & Hd & Hl). pose proof (number_of_nonneg _ Hd). constructor; cbn; unfold in_limit, kLimit in *; lia.
Qed.

(** ** The picture *)

Lemma string_width_nonneg value : forall scale width, 0 <= width -> 0 <= string_width value scale width.
Proof. induction value as [|c value IH]; intros scale width Hw; [done|]. cbn. case_if; [done|]. apply IH, u32_nonneg. Qed.

#[local] Opaque clear rect draw_text draw_frame.

Lemma calc_draw_frame c m : frame_ok m (snd (calc_draw c m)).
Proof.
  unfold calc_draw. cbv zeta. cbn [snd]. assert (0 <= ARGUS_APP_COLOR_TERMINAL < ARGUS_APP_PALETTE_COUNT) as Hcolor by done.
  remember (clear ARGUS_APP_COLOR_TERMINAL m) as m0 eqn:E0.
  refine (drawn_frame ARGUS_APP_COLOR_TERMINAL m m0 _ Hcolor E0 _). clear E0.
  match goal with |- paints _ (for_range 0 4 _ ?m1) => apply (paints_trans _ m1) end.
  2: { apply paints_loop; intros row m1 _; apply paints_loop; intros column m2 _. unfold calc_button. cbv zeta. paint_steps. }
  assert (forall m', paints m' (calc_display c m')) as Hd by (intros m'; unfold calc_display; cbv zeta; case_if; paint_steps).
  case_if; paint_steps; (eapply paints_trans; [|apply Hd]); paint_steps.
Qed.

(** ** Witnesses *)

Lemma calculator_evaluates_witness :
  let c := calc_run (expression_keys [1; 2] [(43, [3]); (42, [4]); (47, [7])] ++ [61]) calculator0 in
  error_ c = false /\ current_ c = 8.
Proof.
  pose proof (calculator_evaluates [1; 2] [(43, [3]); (42, [4]); (47, [7])]) as H.
  assert (forall d, In d [[1; 2]; [3]; [4]; [7]] -> is_number d) as Hn.
  { intros d Hd. repeat destruct Hd as [<-|Hd]; try done;
      (split; [discriminate|split; [repeat constructor; lia|unfold number_of, kLimit; cbn; lia]]). }
  destruct H as [H _].
  - apply Hn. cbn. auto.
  - repeat (apply Forall_cons_2; [split; cbn [fst snd]; [unfold is_operator; tauto|apply Hn; cbn; tauto]|]). apply Forall_nil_2.
  - apply H. reflexivity.
Defined.

(** 2 + 2 = 4, then 3 + 4 = 8. *)
Lemma calculator_reuses_result_witness :
  let c := calc_run (digit_keys [3] ++ 43 :: digit_keys [4] ++ [61]) (calc_run (text "2+2=") calculator0) in
  error_ c = false /\ current_ c = 8.
Proof.
  apply (calculator_reuses_result 4 [3] 43 [4]).
  - unfold in_limit, kLimit. lia.
  - split; [discriminate|split; [repeat constructor; lia|unfold number_of, kLimit; cbn; lia]].
  - left. reflexivity.
  - split; [discriminate|split; [repeat constructor; lia|unfold number_of, kLimit; cbn; lia]].
Defined.
