(* ===== verification/Notes.v ===== *)
(** * The notes (src/user/notes.cpp)

    The class [Notes]: a buffer of 512 characters that keys extend and shorten, and
    its picture. *)

From stdpp Require Import base list gmap numbers strings.
From Stdlib Require Import ZArith Lia.
From S2P Require Import Prelude Memory Process Files Runtime.

Open Scope Z_scope.

Definition kCapacity : Z := 512.
Definition kColumns : Z := 48.
Definition kRows : Z := 17.

Record Notes := mk_notes { content_ : list Z; length_ : Z; notes_dirty_ : bool }.

Definition notes0 : Notes := mk_notes (replicate (Z.to_nat kCapacity) 0) 0 true.

Definition notes_input (n : Notes) (key : Z) : Notes :=
  if key =? 8 then mk_notes (content_ n) (if nz (length_ n) then length_ n - 1 else length_ n) true
  else
    let key := if key =? 13 then 10 else key in
    if ((key =? 10) || (32 <=? key) && (key <=? 126)) && (length_ n <? kCapacity)
    then mk_notes (zset (content_ n) (length_ n) key) (u32 (length_ n + 1)) true
    else n.

Definition notes_dirty (n : Notes) : bool := notes_dirty_ n.

(** The loop over the characters, with the row and the column of the next. *)
Fixpoint notes_characters (count : nat) (index : Z) (n : Notes) (row column : Z) (m : mem) : Z * Z * mem :=
  match count with
  | O => (row, column, m)
  | S count' =>
      if negb (row <? kRows) then (row, column, m)
      else
        let character := zget 0 (content_ n) index in
        if character =? 10 then notes_characters count' (index + 1) n (u32 (row + 1)) 0 m
        else
          let m := draw_text (Some [character; 0]) (u32 (8 + u32 (column * 6))) (u32 (34 + u32 (row * 10))) 1 ARGUS_APP_COLOR_TEXT m in
          let column := u32 (column + 1) in
          if column =? kColumns then notes_characters count' (index + 1) n (u32 (row + 1)) 0 m
          else notes_characters count' (index + 1) n row column m
  end.

Definition notes_draw (n : Notes) (m : mem) : Notes * mem :=
  let m := clear ARGUS_APP_COLOR_TERMINAL m in
  let m := rect 0 0 ARGUS_APP_SURFACE_WIDTH 24 ARGUS_APP_COLOR_CHROME m in
  let m := draw_text (Some (text "NOTES")) 8 8 1 ARGUS_APP_COLOR_TERMINAL m in
  let m := draw_text (Some (text "VOLATILE MEMORY")) 220 8 1 ARGUS_APP_COLOR_TERMINAL m in
  let '(row, column, m) := notes_characters (Z.to_nat (length_ n)) 0 n 0 0 m in
  let m := if row <? kRows
           then rect (u32 (8 + u32 (column * 6))) (u32 (u32 (34 + u32 (row * 10)) + 7)) 5 1 ARGUS_APP_COLOR_TEXT m else m in
  let count := unsigned_decimal (length_ n) (replicate 12 0) 0 12 in
  let m := draw_text (Some count) 8 211 1 ARGUS_APP_COLOR_TEXT m in
  let m := draw_text (Some (text "/ 512 BYTES")) (u32 (8 + app_text_width (Some count) 1)) 211 1 ARGUS_APP_COLOR_TEXT m in
  (mk_notes (content_ n) (length_ n) false, m).

(** ** The text *)

Definition notes_text (n : Notes) : list Z := take (Z.to_nat (length_ n)) (content_ n).

(** What a key means to the text. *)
Definition edit (t : list Z) (key : Z) : list Z :=
  if key =? 8 then removelast t
  else
    let key := if key =? 13 then 10 else key in
    if ((key =? 10) || (32 <=? key) && (key <=? 126)) && (Z.of_nat (length t) <? kCapacity) then t ++ [key] else t.

Record notes_ok (n : Notes) : Prop := {
  nk_content : length (content_ n) = Z.to_nat kCapacity;
  nk_length : 0 <= length_ n <= kCapacity }.

Lemma notes_text_length n : notes_ok n -> Z.of_nat (length (notes_text n)) = length_ n.
Proof. intros [Hc Hl]. unfold notes_text. rewrite length_take, Hc. lia. Qed.

Lemma removelast_take {A} (l : list A) k : (k <= length l)%nat -> removelast (take k l) = take (k - 1) l.
Proof.
  intros Hk. destruct k as [|k]; [done|]. rewrite removelast_firstn_len. change (firstn ?a ?b) with (take a b).
  rewrite length_take, take_take. f_equal. lia.
Qed.

Lemma notes_input_edit n key : notes_ok n -> notes_ok (notes_input n key) /\ notes_text (notes_input n key) = edit (notes_text n) key.
Proof.
  intros Hn. pose proof (notes_text_length n Hn) as Ht. destruct Hn as [Hc Hl]. unfold notes_input, edit. rewrite Ht.
  destruct (key =? 8).
  - split.
    + constructor; cbn; [done|]. unfold nz. case_if; b2p; lia.
    + unfold notes_text. cbn. rewrite removelast_take by lia. f_equal. unfold nz. case_if; b2p; lia.
  - cbv zeta. set (k := if key =? 13 then 10 else key). destruct (_ && _) eqn:E; [|done]. apply andb_true_iff in E as [_ E]. b2p.
    rewrite u32_id by (unfold kCapacity, UINT32_MAX in *; lia). split.
    + constructor; cbn; [by rewrite zset_length|lia].
    + unfold notes_text, zset. cbn. replace (Z.to_nat (length_ n + 1)) with (S (Z.to_nat (length_ n))) by lia.
      rewrite (take_S_r _ _ k) by (apply list_lookup_insert_eq; lia). by rewrite take_insert_ge by lia.
Qed.

(** C29: The notes editor is the text it shows: after any sequence of keys the buffer holds
    exactly the text that typing the printable keys and line feeds and deleting
    with backspace gives, up to 512 characters, and no store leaves the buffer. *)
Theorem notes_refine_text keys :
  let n := fold_left notes_input keys notes0 in
  notes_text n = fold_left edit keys [] /\ length (content_ n) = Z.to_nat kCapacity /\ 0 <= length_ n <= kCapacity.
Proof.
  assert (forall n, notes_ok n -> notes_ok (fold_left notes_input keys n) /\
    notes_text (fold_left notes_input keys n) = fold_left edit keys (notes_text n)) as Hall.
  { induction keys as [|k keys IH]; intros n Hn; [done|]. destruct (notes_input_edit n k Hn) as [Hn' Ht]. cbn [fold_left]. rewrite <- Ht. by apply IH. }
  destruct (Hall notes0) as [[Hc Hl] Ht]; [constructor; [done|cbn; unfold kCapacity; lia]|].
  split; [exact Ht|done].
Qed.

(** ** The picture *)

Lemma paints_characters count : forall index n row column m,
  paints m (snd (notes_characters count index n row column m)).
Proof.
  induction count as [|count IH]; intros index n row column m; [apply paints_refl|]. cbn [notes_characters].
  case_if; [apply paints_refl|]. cbv zeta. case_if; [apply IH|].
  match goal with |- context [draw_text ?t ?x ?y ?s ?c m] => apply (paints_trans _ (draw_text t x y s c m)); [apply paints_text; [lia|done]|] end.
  case_if; apply IH.
Qed.

#[local] Opaque clear rect draw_text draw_frame.

Lemma notes_draw_frame n m : frame_ok m (snd (notes_draw n m)).
Proof.
  unfold notes_draw. cbv zeta. assert (0 <= ARGUS_APP_COLOR_TERMINAL < ARGUS_APP_PALETTE_COUNT) as Hcolor by done.
  remember (clear ARGUS_APP_COLOR_TERMINAL m) as m0 eqn:E0.
  set (m1 := draw_text _ _ _ _ _ (draw_text _ _ _ _ _ _)). pose proof (paints_characters (Z.to_nat (length_ n)) 0 n 0 0 m1) as Hc.
  destruct (notes_characters _ _ _ _ _ _) as [[row column] m2]. cbn [snd] in *.
  refine (drawn_frame ARGUS_APP_COLOR_TERMINAL m m0 _ Hcolor E0 _). clear E0.
  case_if; paint_steps; (eapply paints_trans; [|exact Hc]); unfold m1, ARGUS_APP_SURFACE_WIDTH; paint_steps.
Qed.
