(* ===== verification/Snake.v ===== *)
(** * The snake game (src/user/snake.cpp)

    The class [SnakeGame]: the body in two arrays of 96 bytes, moved in place, the
    pseudo-random food, the picture and the main loop with its clock. *)

From stdpp Require Import base list gmap numbers strings relations.
From Stdlib Require Import ZArith Lia.
From S2P Require Import Prelude Memory Process Files Ps2 Runtime.

Open Scope Z_scope.

Definition ARGUS_SNAKE_GRID_WIDTH : Z := 20.
Definition ARGUS_SNAKE_GRID_HEIGHT : Z := 14.
Definition ARGUS_SNAKE_CELL_COUNT : Z := ARGUS_SNAKE_GRID_WIDTH * ARGUS_SNAKE_GRID_HEIGHT.
Definition ARGUS_SNAKE_MAX_LENGTH : Z := 96.
Definition ARGUS_SNAKE_STATE_PLAYING : Z := 1.
Definition ARGUS_SNAKE_STATE_GAME_OVER : Z := 2.
Definition kStepTicks : Z := 12.
Definition kUp : Z := 0.
Definition kRight : Z := 1.
Definition kDown : Z := 2.
Definition kLeft : Z := 3.

Record SnakeGame := mk_snake {
  body_x_ : list Z; body_y_ : list Z; random_state_ : Z; snake_state_ : Z; score_ : Z; snake_length_ : Z;
  direction_ : Z; pending_direction_ : Z; food_x_ : Z; food_y_ : Z; snake_dirty_ : bool }.

Definition opposite (first second : Z) : bool := ((first + 2) & 3) =? second.

(** [random]: the new state is the result. *)
Definition xorshift (s : Z) : Z :=
  let s := Z.lxor s (u32 (s << 13)) in
  let s := Z.lxor s (s >> 17) in
  Z.lxor s (u32 (s << 5)).

Definition occupied (g : SnakeGame) (x y count : Z) : bool :=
  match zfind (fun index => (zget 0 (body_x_ g) index =? x) && (zget 0 (body_y_ g) index =? y)) 0 (Z.to_nat count) with
  | Some _ => true
  | None => false
  end.

Definition set_food (g : SnakeGame) (random x y : Z) : SnakeGame :=
  mk_snake (body_x_ g) (body_y_ g) random (snake_state_ g) (score_ g) (snake_length_ g) (direction_ g) (pending_direction_ g) x y (snake_dirty_ g).

(** The attempts of [place_food]; [random] is [random_state_]. *)
Fixpoint food_attempts (n : nat) (g : SnakeGame) (random : Z) : SnakeGame :=
  match n with
  | O => set_food g random 0 0
  | S n' =>
      let random := xorshift random in
      let position := random mod ARGUS_SNAKE_CELL_COUNT in
      let x := u8 (position mod ARGUS_SNAKE_GRID_WIDTH) in
      let y := u8 (position / ARGUS_SNAKE_GRID_WIDTH) in
      if negb (occupied g x y (snake_length_ g)) then set_food g random x y else food_attempts n' g random
  end.
Definition place_food (g : SnakeGame) : SnakeGame := food_attempts (Z.to_nat ARGUS_SNAKE_CELL_COUNT) g (random_state_ g).

Definition set_snake_dirty (g : SnakeGame) : SnakeGame :=
  mk_snake (body_x_ g) (body_y_ g) (random_state_ g) (snake_state_ g) (score_ g) (snake_length_ g) (direction_ g) (pending_direction_ g)
    (food_x_ g) (food_y_ g) true.

(** [reset] up to the call of [place_food]. *)
Definition reset_body (g : SnakeGame) : SnakeGame :=
  let center_x := ARGUS_SNAKE_GRID_WIDTH / 2 in
  let center_y := ARGUS_SNAKE_GRID_HEIGHT / 2 in
  let '(bx, by_) := for_range 0 4 (fun index b => (zset b.1 index (u8 (center_x - index)), zset b.2 index center_y)) (body_x_ g, body_y_ g) in
  mk_snake bx by_ (random_state_ g) ARGUS_SNAKE_STATE_PLAYING 0 4 kRight kRight (food_x_ g) (food_y_ g) (snake_dirty_ g).

Definition snake_reset (g : SnakeGame) : SnakeGame := set_snake_dirty (place_food (reset_body g)).

(** The constructor. *)
Definition snake_new (seed : Z) : SnakeGame :=
  snake_reset (mk_snake (replicate 96 0) (replicate 96 0) (if nz seed then seed else 1) ARGUS_SNAKE_STATE_PLAYING 0 0 kRight kRight 0 0 false).

Definition key_direction (g : SnakeGame) (key : Z) : Z :=
  if (key =? 119) || (key =? 87) || (key =? ARGUS_KEY_UP) then kUp
  else if (key =? 115) || (key =? 83) || (key =? ARGUS_KEY_DOWN) then kDown
  else if (key =? 97) || (key =? 65) || (key =? ARGUS_KEY_LEFT) then kLeft
  else if (key =? 100) || (key =? 68) || (key =? ARGUS_KEY_RIGHT) then kRight
  else direction_ g.

Definition snake_input (g : SnakeGame) (key : Z) : SnakeGame :=
  if (key =? 114) || (key =? 82) then snake_reset g
  else
    let next := key_direction g key in
    if negb (opposite (direction_ g) next)
    then mk_snake (body_x_ g) (body_y_ g) (random_state_ g) (snake_state_ g) (score_ g) (snake_length_ g) (direction_ g) next
           (food_x_ g) (food_y_ g) (snake_dirty_ g)
    else g.

(** [for (index = new_length - 1; index > 0; --index)] on one of the arrays. *)
Fixpoint shift_body (index : nat) (length_ : Z) (b : list Z) : list Z :=
  match index with
  | O => b
  | S index' =>
      let source := Z.of_nat index' in
      let source := if length_ <=? source then length_ - 1 else source in
      shift_body index' length_ (zset b (Z.of_nat index) (zget 0 b source))
  end.

Definition next_cell (direction x y : Z) : Z * Z :=
  if direction =? kUp then (x, y - 1) else if direction =? kDown then (x, y + 1)
  else if direction =? kLeft then (x - 1, y) else (x + 1, y).

Definition snake_step (g : SnakeGame) : SnakeGame :=
  if snake_state_ g !=? ARGUS_SNAKE_STATE_PLAYING then g
  else
    let direction := pending_direction_ g in
    let len := snake_length_ g in
    let '(next_x, next_y) := next_cell direction (zget 0 (body_x_ g) 0) (zget 0 (body_y_ g) 0) in
    if (next_x <? 0) || (next_y <? 0) || (ARGUS_SNAKE_GRID_WIDTH <=? next_x) || (ARGUS_SNAKE_GRID_HEIGHT <=? next_y) ||
       occupied g (u8 next_x) (u8 next_y) (u32 (len - 1))
    then mk_snake (body_x_ g) (body_y_ g) (random_state_ g) ARGUS_SNAKE_STATE_GAME_OVER (score_ g) len direction (pending_direction_ g)
           (food_x_ g) (food_y_ g) true
    else
      let ate := (u8 next_x =? food_x_ g) && (u8 next_y =? food_y_ g) in
      let new_length := if ate && (len <? ARGUS_SNAKE_MAX_LENGTH) then u32 (len + 1) else len in
      let bx := zset (shift_body (Z.to_nat (u32 (new_length - 1))) len (body_x_ g)) 0 (u8 next_x) in
      let by_ := zset (shift_body (Z.to_nat (u32 (new_length - 1))) len (body_y_ g)) 0 (u8 next_y) in
      let g' := mk_snake bx by_ (random_state_ g) (snake_state_ g) (if ate then u32 (score_ g + 1) else score_ g) new_length direction
                  (pending_direction_ g) (food_x_ g) (food_y_ g) (snake_dirty_ g) in
      let g' := if ate then place_food g' else g' in
      set_snake_dirty g'.

Definition snake_dirty (g : SnakeGame) : bool := snake_dirty_ g.

Definition snake_cell : Z := 10.
Definition board_width : Z := ARGUS_SNAKE_GRID_WIDTH * snake_cell + 2.
Definition board_height : Z := ARGUS_SNAKE_GRID_HEIGHT * snake_cell + 2.
Definition board_x : Z := (ARGUS_APP_SURFACE_WIDTH - board_width) / 2.
Definition board_y : Z := 42.

Definition draw_segment (g : SnakeGame) (index : Z) (m : mem) : mem :=
  let x := u32 (board_x + 1 + zget 0 (body_x_ g) index * snake_cell) in
  let y := u32 (board_y + 1 + zget 0 (body_y_ g) index * snake_cell) in
  let inset := if index =? 0 then 1 else 2 in
  rect (u32 (x + inset)) (u32 (y + inset)) (snake_cell - inset * 2) (snake_cell - inset * 2) ARGUS_APP_COLOR_LCD_INK m.

Definition game_over_message : list Z := text "GAME OVER   R RESET".

Definition draw_game_over (m : mem) : mem :=
  let width := app_text_width (Some game_over_message) 1 in
  let x := u32 (ARGUS_APP_SURFACE_WIDTH - width) / 2 in
  let m := rect (u32 (x - 5)) 106 (u32 (width + 10)) 15 ARGUS_APP_COLOR_LCD m in
  let m := draw_frame (u32 (x - 5)) 106 (u32 (width + 10)) 15 ARGUS_APP_COLOR_LCD_INK m in
  draw_text (Some game_over_message) x 110 1 ARGUS_APP_COLOR_LCD_INK m.

Definition snake_draw (g : SnakeGame) (m : mem) : SnakeGame * mem :=
  let m := clear ARGUS_APP_COLOR_LCD m in
  let m := draw_text (Some (text "SCORE")) 8 8 1 ARGUS_APP_COLOR_LCD_INK m in
  let m := draw_text (Some (unsigned_decimal (score_ g) (replicate 12 0) 0 12)) 50 8 1 ARGUS_APP_COLOR_LCD_INK m in
  let m := draw_text (Some (text "ARROWS OR WASD   R RESET")) 166 8 1 ARGUS_APP_COLOR_LCD_INK m in
  let m := draw_frame board_x board_y board_width board_height ARGUS_APP_COLOR_LCD_INK m in
  let m := for_range 0 (snake_length_ g) (draw_segment g) m in
  let food_x := u32 (board_x + 1 + food_x_ g * snake_cell) in
  let food_y := u32 (board_y + 1 + food_y_ g * snake_cell) in
  let m := draw_frame (u32 (food_x + 2)) (u32 (food_y + 2)) (snake_cell - 4) (snake_cell - 4) ARGUS_APP_COLOR_LCD_INK m in
  let m := if snake_state_ g =? ARGUS_SNAKE_STATE_GAME_OVER then draw_game_over m else m in
  (mk_snake (body_x_ g) (body_y_ g) (random_state_ g) (snake_state_ g) (score_ g) (snake_length_ g) (direction_ g) (pending_direction_ g)
     (food_x_ g) (food_y_ g) false, m).

(** ** The main loop *)

Section program.
Context {U : Type} `{System U} (request : Z).

(** The running game and [previous_step]. *)
Definition snake_start (process : Z) (u : U) (m : mem) : app_outcome SnakeGame * Z :=
  if negb (nz process) then (Exited 1 (app_exit u m 1), 0)
  else
    let '(own, u) := pid u m in
    if own !=? process then (Exited 1 (app_exit u m 1), 0)
    else
      let '(now, u) := ticks u m in
      let game := snake_new (u32 (Z.lxor now (u64 (process * 0x9E3779B9)))) in
      let '(ok, r) := show snake_draw request (mk_running game 0 u m) in
      (if negb ok then Exited 2 (app_exit (rn_system r) (rn_memory r) 2) else Running r, now).

(** One turn of the loop; [fuel] bounds the keys polled. *)
Definition snake_round (fuel : nat) (r : running_app SnakeGame) (previous_step : Z) : option (running_app SnakeGame * Z) :=
  match poll_keys snake_input fuel (rn_state r) (rn_system r) (rn_memory r) with
  | None => None
  | Some (game, u) =>
      let '(now, u) := ticks u (rn_memory r) in
      let '(game, previous_step) :=
        if kStepTicks <=? u64 (now - previous_step) then (snake_step game, now) else (game, previous_step) in
      let r := mk_running game (rn_sequence r) u (rn_memory r) in
      let r := if snake_dirty game then snd (show snake_draw request r) else r in
      let u := wait_until (rn_system r) (rn_memory r) (u64 (previous_step + kStepTicks)) in
      Some (mk_running (rn_state r) (rn_sequence r) u (rn_memory r), previous_step)
  end.
End program.

(** ** The body *)

Definition cell_at (g : SnakeGame) (i : Z) : Z * Z := (zget 0 (body_x_ g) i, zget 0 (body_y_ g) i).
Definition snake_cells (g : SnakeGame) : list (Z * Z) := map (cell_at g) (zrange 0 (Z.to_nat (snake_length_ g))).
Definition in_grid (c : Z * Z) : Prop := 0 <= c.1 < ARGUS_SNAKE_GRID_WIDTH /\ 0 <= c.2 < ARGUS_SNAKE_GRID_HEIGHT.

Lemma shift_get n len b j :
  (Z.of_nat n < Z.of_nat (length b)) -> Z.of_nat n <= len -> 0 <= j ->
  zget 0 (shift_body n len b) j = if (1 <=? j) && (j <=? Z.of_nat n) then zget 0 b (j - 1) else zget 0 b j.
Proof.
  revert b. induction n as [|n IH]; intros b Hb Hl Hj.
  { cbn [shift_body]. destruct (Z.leb_spec 1 j), (Z.leb_spec j (Z.of_nat 0)); cbn [andb]; done || lia. }
  cbn [shift_body]. destruct (Z.leb_spec len (Z.of_nat n)); [lia|]. rewrite IH by (rewrite ?zset_length; lia).
  destruct (Z.leb_spec 1 j); cbn [andb].
  - destruct (Z.leb_spec j (Z.of_nat n)), (Z.leb_spec j (Z.of_nat (S n))); try lia.
    + by rewrite zget_zset_ne by lia.
    + assert (j = Z.of_nat (S n)) as -> by lia. rewrite zget_zset_eq by lia. f_equal. lia.
    + by rewrite zget_zset_ne by lia.
  - by rewrite zget_zset_ne by lia.
Qed.

Lemma shift_length n len b : length (shift_body n len b) = length b.
Proof. revert b. induction n as [|n IH]; intros b; [done|]. cbn. by rewrite IH, zset_length. Qed.

Lemma occupied_true g x y count : 0 <= count -> occupied g x y count = true <-> exists i, 0 <= i < count /\ cell_at g i = (x, y).
Proof.
  intros Hc. unfold occupied. destruct (zfind _ _ _) as [i|] eqn:E.
  - apply zfind_Some in E as (Hi & Hp & _). split; [|done]. intros _. exists i. split; [lia|]. unfold cell_at. b2p. by subst.
  - split; [done|]. intros (i & Hi & Hce). apply (proj1 (zfind_None _ _ _)) with (j := i) in E; [|lia].
    unfold cell_at in Hce. injection Hce as <- <-. by rewrite !Z.eqb_refl in E.
Qed.

(** What [place_food] leaves alone, and where the food can be. *)
Definition same_snake (g g' : SnakeGame) : Prop :=
  body_x_ g' = body_x_ g /\ body_y_ g' = body_y_ g /\ snake_state_ g' = snake_state_ g /\ score_ g' = score_ g /\
  snake_length_ g' = snake_length_ g /\ direction_ g' = direction_ g /\ pending_direction_ g' = pending_direction_ g.

Lemma place_food_spec g : same_snake g (place_food g) /\ in_grid (food_x_ (place_food g), food_y_ (place_food g)).
Proof.
  unfold place_food. generalize (random_state_ g) as random. induction (Z.to_nat ARGUS_SNAKE_CELL_COUNT) as [|n IH]; intros random.
  { split; [done|]. unfold in_grid, ARGUS_SNAKE_GRID_WIDTH, ARGUS_SNAKE_GRID_HEIGHT. cbn. lia. }
  cbn [food_attempts]. case_if; [|apply IH]. split; [done|]. clear. cbn [set_food food_x_ food_y_].
  set (p := xorshift random mod ARGUS_SNAKE_CELL_COUNT).
  pose proof (Z.mod_pos_bound (xorshift random) ARGUS_SNAKE_CELL_COUNT ltac:(done)) as Hp. fold p in Hp.
  unfold in_grid, ARGUS_SNAKE_CELL_COUNT, ARGUS_SNAKE_GRID_WIDTH, ARGUS_SNAKE_GRID_HEIGHT in *. cbn [fst snd].
  pose proof (Z.div_mod p 20). pose proof (Z.mod_pos_bound p 20). rewrite !u8_id by lia. lia.
Qed.

Lemma same_snake_cells g g' : same_snake g g' -> snake_cells g' = snake_cells g.
Proof. intros (Ex & Ey & _ & _ & El & _). unfold snake_cells, cell_at. by rewrite Ex, Ey, El. Qed.

(** ** The invariant *)

Definition head_ahead (g : SnakeGame) : Z * Z := next_cell (pending_direction_ g) (zget 0 (body_x_ g) 0) (zget 0 (body_y_ g) 0).

Record snake_ok (g : SnakeGame) : Prop := {
  so_arrays : length (body_x_ g) = 96%nat /\ length (body_y_ g) = 96%nat;
  so_length : 4 <= snake_length_ g <= ARGUS_SNAKE_MAX_LENGTH;
  so_grid : forall i, 0 <= i < snake_length_ g -> in_grid (cell_at g i);
  so_chain : forall i, 0 <= i < snake_length_ g - 1 -> exists d, 0 <= d <= 3 /\ cell_at g i = next_cell d (cell_at g (i + 1)).1 (cell_at g (i + 1)).2;
  so_directions : 0 <= direction_ g <= 3 /\ 0 <= pending_direction_ g <= 3;
  so_turn : opposite (direction_ g) (pending_direction_ g) = false;
  so_heading : snake_state_ g = ARGUS_SNAKE_STATE_PLAYING -> cell_at g 0 = next_cell (direction_ g) (cell_at g 1).1 (cell_at g 1).2;
  so_food : in_grid (food_x_ g, food_y_ g) }.

(** The parts [place_food] and the dirty flag do not touch. *)
Lemma same_snake_ok g g' : same_snake g g' -> in_grid (food_x_ g', food_y_ g') -> snake_ok g -> snake_ok g'.
Proof.
  intros (Ex & Ey & Es & _ & El & Ed & Ep) Hf [].
  assert (forall i, cell_at g' i = cell_at g i) as Hc by (intros i; unfold cell_at; by rewrite Ex, Ey).
  constructor; rewrite ?Ex, ?Ey, ?El, ?Ed, ?Ep, ?Es; try done; intros; rewrite ?Hc; auto.
Qed.

Lemma four_sets (b : list Z) v0 v1 v2 v3 : length b = 96%nat -> let b' := zset (zset (zset (zset b 0 v0) 1 v1) 2 v2) 3 v3 in
  zget 0 b' 0 = v0 /\ zget 0 b' 1 = v1 /\ zget 0 b' 2 = v2 /\ zget 0 b' 3 = v3.
Proof.
  intros Hb b'. unfold b'.
  split_and!; repeat first [rewrite zget_zset_eq by (rewrite ?zset_length; lia); reflexivity | rewrite zget_zset_ne by lia].
Qed.

Lemma reset_body_is g : reset_body g =
  mk_snake (zset (zset (zset (zset (body_x_ g) 0 10) 1 9) 2 8) 3 7) (zset (zset (zset (zset (body_y_ g) 0 7) 1 7) 2 7) 3 7)
    (random_state_ g) ARGUS_SNAKE_STATE_PLAYING 0 4 kRight kRight (food_x_ g) (food_y_ g) (snake_dirty_ g).
Proof. reflexivity. Qed.

Lemma reset_cell g i : length (body_x_ g) = 96%nat -> length (body_y_ g) = 96%nat -> 0 <= i < 4 -> cell_at (reset_body g) i = (10 - i, 7).
Proof.
  intros Hx Hy Hi. rewrite reset_body_is. unfold cell_at. cbn [body_x_ body_y_].
  destruct (four_sets (body_x_ g) 10 9 8 7 Hx) as (A0 & A1 & A2 & A3). destruct (four_sets (body_y_ g) 7 7 7 7 Hy) as (B0 & B1 & B2 & B3).
  assert (i = 0 \/ i = 1 \/ i = 2 \/ i = 3) as [-> | [-> | [-> | ->]]] by lia; by f_equal.
Qed.

Lemma reset_body_ok g : length (body_x_ g) = 96%nat -> length (body_y_ g) = 96%nat -> in_grid (food_x_ g, food_y_ g) -> snake_ok (reset_body g).
Proof.
  intros Hx Hy Hf. pose proof (fun i => reset_cell g i Hx Hy) as Hcell. pose proof (reset_body_is g) as Eg.
  constructor; try (rewrite Eg; done).
  - rewrite Eg. cbn [body_x_ body_y_]. by rewrite !zset_length.
  - intros i Hi. rewrite Eg in Hi. cbn in Hi. rewrite Hcell by lia. unfold in_grid, ARGUS_SNAKE_GRID_WIDTH, ARGUS_SNAKE_GRID_HEIGHT. cbn. lia.
  - intros i Hi. rewrite Eg in Hi. cbn in Hi. exists kRight. split; [done|]. rewrite !Hcell by lia. cbn. f_equal. lia.
  - intros _. rewrite !Hcell by lia. by rewrite Eg.
Qed.

Lemma placed_ok g : snake_ok g -> snake_ok (set_snake_dirty (place_food g)).
Proof.
  intros Hok. destruct (place_food_spec g) as [Hs Hf]. by apply (same_snake_ok g).
Qed.

Lemma reset_ok g : length (body_x_ g) = 96%nat -> length (body_y_ g) = 96%nat -> in_grid (food_x_ g, food_y_ g) -> snake_ok (snake_reset g).
Proof. intros. apply placed_ok. by apply reset_body_ok. Qed.

Lemma next_cell_cases d x y : 0 <= d <= 3 ->
  d = 0 /\ next_cell d x y = (x, y - 1) \/ d = 1 /\ next_cell d x y = (x + 1, y) \/
  d = 2 /\ next_cell d x y = (x, y + 1) \/ d = 3 /\ next_cell d x y = (x - 1, y).
Proof. intros Hd. assert (d = 0 \/ d = 1 \/ d = 2 \/ d = 3) as [-> | [-> | [-> | ->]]] by lia; cbn; tauto. Qed.

Lemma snake_input_ok g key : snake_ok g -> snake_ok (snake_input g key).
Proof.
  intros Hok. unfold snake_input. case_if; [apply reset_ok; apply Hok|]. cbv zeta.
  destruct (opposite _ _) eqn:Eo; [done|]. cbn [negb]. pose proof Hok as [? ? ? ? [Hd Hp] ? ? ?]. constructor; try done. split; [done|].
  cbn. unfold key_direction, kUp, kDown, kLeft, kRight. repeat case_if; lia.
Qed.

(** ** One step *)

(** The game over condition, on the list of cells: the wall, or a cell of the
    body other than its last. *)
Definition blocked (g : SnakeGame) : bool :=
  let '(x, y) := head_ahead g in
  (x <? 0) || (y <? 0) || (ARGUS_SNAKE_GRID_WIDTH <=? x) || (ARGUS_SNAKE_GRID_HEIGHT <=? y) || occupied g (u8 x) (u8 y) (u32 (snake_length_ g - 1)).

Definition eats (g : SnakeGame) : bool := bool_decide (head_ahead g = (food_x_ g, food_y_ g)).
Definition grown_length (g : SnakeGame) : Z := if eats g && (snake_length_ g <? ARGUS_SNAKE_MAX_LENGTH) then snake_length_ g + 1 else snake_length_ g.

Lemma step_over g : snake_state_ g = ARGUS_SNAKE_STATE_PLAYING -> blocked g = true ->
  snake_step g = mk_snake (body_x_ g) (body_y_ g) (random_state_ g) ARGUS_SNAKE_STATE_GAME_OVER (score_ g) (snake_length_ g)
    (pending_direction_ g) (pending_direction_ g) (food_x_ g) (food_y_ g) true.
Proof.
  intros Hs Hb. unfold snake_step. rewrite Hs, Z.eqb_refl. cbn [negb]. unfold blocked, head_ahead in Hb. cbv zeta.
  destruct (next_cell _ _ _) as [x y]. by rewrite Hb.
Qed.

Lemma free_ahead g : blocked g = false -> in_grid (head_ahead g) /\ occupied g (head_ahead g).1 (head_ahead g).2 (u32 (snake_length_ g - 1)) = false.
Proof.
  unfold blocked, in_grid, ARGUS_SNAKE_GRID_WIDTH, ARGUS_SNAKE_GRID_HEIGHT. destruct (head_ahead g) as [x y]. cbn [fst snd]. intros Hb.
  repeat (apply orb_false_iff in Hb as [Hb ?]). b2p. rewrite !u8_id in * by lia. split; [lia|done].
Qed.

(** The new body, before the next food is placed. *)
Definition moved (g : SnakeGame) : SnakeGame :=
  let n := Z.to_nat (grown_length g - 1) in
  mk_snake (zset (shift_body n (snake_length_ g) (body_x_ g)) 0 (head_ahead g).1) (zset (shift_body n (snake_length_ g) (body_y_ g)) 0 (head_ahead g).2)
    (random_state_ g) (snake_state_ g) (if eats g then u32 (score_ g + 1) else score_ g) (grown_length g) (pending_direction_ g)
    (pending_direction_ g) (food_x_ g) (food_y_ g) (snake_dirty_ g).

Lemma grown_bounds g : snake_ok g -> 4 <= snake_length_ g <= grown_length g /\ grown_length g <= snake_length_ g + 1 /\ grown_length g <= 96.
Proof.
  intros Hok. pose proof (so_length _ Hok). unfold grown_length, ARGUS_SNAKE_MAX_LENGTH in *.
  destruct (eats g), (Z.ltb_spec (snake_length_ g) 96); cbn [andb]; lia.
Qed.

Lemma step_free g : snake_ok g -> snake_state_ g = ARGUS_SNAKE_STATE_PLAYING -> blocked g = false ->
  snake_step g = set_snake_dirty (if eats g then place_food (moved g) else moved g).
Proof.
  intros Hok Hs Hb. destruct (free_ahead g Hb) as [Hgrid _]. pose proof (grown_bounds _ Hok) as Hlen.
  unfold snake_step. rewrite Hs, Z.eqb_refl. cbn [negb]. cbv zeta. unfold moved. unfold blocked in Hb.
  fold (head_ahead g).
  assert (eats g = ((head_ahead g).1 =? food_x_ g) && ((head_ahead g).2 =? food_y_ g)) as Ee.
  { unfold eats. destruct (head_ahead g) as [x y]. cbn [fst snd]. case_bool_decide as H; [injection H as -> ->; by rewrite !Z.eqb_refl|].
    symmetry. apply andb_false_iff. destruct (Z.eqb_spec x (food_x_ g)), (Z.eqb_spec y (food_y_ g)); [|tauto..]. congruence. }
  unfold in_grid, ARGUS_SNAKE_GRID_WIDTH, ARGUS_SNAKE_GRID_HEIGHT in Hgrid. unfold grown_length in *.
  destruct (head_ahead g) as [x y]. cbn [fst snd] in *. rewrite Hb. rewrite !u8_id by lia. rewrite <- Ee.
  destruct (eats g), (snake_length_ g <? ARGUS_SNAKE_MAX_LENGTH); cbn [andb] in *;
    rewrite ?(u32_id (snake_length_ g + 1)), u32_id by (unfold UINT32_MAX; lia); by rewrite Hs.
Qed.

(** Where every cell of the new body comes from. *)
Lemma moved_cells g : snake_ok g ->
  length (body_x_ (moved g)) = 96%nat /\ length (body_y_ (moved g)) = 96%nat /\ cell_at (moved g) 0 = head_ahead g /\
  forall i, 1 <= i < grown_length g -> cell_at (moved g) i = cell_at g (i - 1).
Proof.
  intros Hok. pose proof (so_arrays _ Hok) as [Hx Hy]. pose proof (grown_bounds _ Hok) as Hlen. unfold moved, cell_at. cbn [body_x_ body_y_].
  rewrite !zset_length, !shift_length. split_and!; [done..| |].
  - rewrite !zget_zset_eq by (rewrite shift_length; lia). by destruct (head_ahead g).
  - intros i Hi. rewrite !zget_zset_ne by lia. rewrite !shift_get by lia.
    destruct (Z.leb_spec 1 i), (Z.leb_spec i (Z.of_nat (Z.to_nat (grown_length g - 1)))); cbn [andb]; done || lia.
Qed.

Lemma opposite_self d : opposite d d = false.
Proof.
  unfold opposite. apply Z.eqb_neq. change 3 with (Z.ones 2). rewrite Z.land_ones by lia. change (2 ^ 2) with 4. intros H.
  pose proof (Z.mod_pos_bound (d + 2) 4). pose proof (Z.div_mod (d + 2) 4). lia.
Qed.

Lemma moved_ok g : snake_ok g -> blocked g = false -> snake_ok (moved g).
Proof.
  intros Hok Hb. destruct (free_ahead g Hb) as [Hgrid _]. pose proof (grown_bounds _ Hok) as Hlen.
  destruct (moved_cells g Hok) as (Hx & Hy & H0 & Hi). pose proof Hok as [_ _ Hg Hch [Hd Hp] _ _ Hf].
  assert (exists d, 0 <= d <= 3 /\ d = pending_direction_ g) as (d & Hd3 & Ed) by eauto.
  assert (cell_at (moved g) 0 = next_cell (pending_direction_ g) (cell_at (moved g) 1).1 (cell_at (moved g) 1).2) as Hhead by (rewrite H0, Hi by lia; done).
  constructor; cbn [moved snake_length_ direction_ pending_direction_ food_x_ food_y_]; try done.
  - unfold ARGUS_SNAKE_MAX_LENGTH. lia.
  - intros i Hr. destruct (decide (i = 0)) as [-> | Hn]; [by rewrite H0|]. rewrite Hi by lia. apply Hg. lia.
  - intros i Hr. destruct (decide (i = 0)) as [-> | Hn]; [by exists (pending_direction_ g)|].
    rewrite !Hi by lia. destruct (Hch (i - 1)) as (e & He & E); [lia|]. exists e. split; [done|]. replace (i + 1 - 1) with (i - 1 + 1) by lia. done.
  - apply opposite_self.
Qed.

Lemma snake_step_ok g : snake_ok g -> snake_ok (snake_step g).
Proof.
  intros Hok. destruct (Z.eq_dec (snake_state_ g) ARGUS_SNAKE_STATE_PLAYING) as [Hs|Hs].
  2: { unfold snake_step. apply Z.eqb_neq in Hs. by rewrite Hs. }
  destruct (blocked g) eqn:Hb.
  - rewrite step_over by done. pose proof Hok as [? ? ? ? [Hd Hp] ? ? ?]. constructor; try done. apply opposite_self.
  - rewrite step_free by done. pose proof (moved_ok g Hok Hb) as Hm. destruct (eats g); [by apply placed_ok|].
    apply (same_snake_ok (moved g)); [done| |done]. apply Hm.
Qed.

(** ** The game on a list of cells *)

#[export] Instance in_grid_dec c : Decision (in_grid c) := ltac:(unfold in_grid; apply _).

(** One step of a game whose snake is a list of cells, the head first: [None] is
    the end of the game. *)
Definition advance (direction : Z) (cells : list (Z * Z)) (food : Z * Z) : option (list (Z * Z)) :=
  match cells with
  | [] => None
  | head :: _ =>
      let next := next_cell direction head.1 head.2 in
      let rest := take (length cells - 1) cells in
      if bool_decide (in_grid next) && negb (bool_decide (next ∈ rest))
      then Some (next :: (if bool_decide (next = food) && (length cells <? 96)%nat then cells else rest))
      else None
  end.

Lemma cells_length g : length (snake_cells g) = Z.to_nat (snake_length_ g).
Proof. unfold snake_cells. by rewrite length_map, zrange_length. Qed.

Lemma cells_lookup g k : (k < Z.to_nat (snake_length_ g))%nat -> snake_cells g !! k = Some (cell_at g (Z.of_nat k)).
Proof. intros Hk. unfold snake_cells. change (map ?f ?l) with (f <$> l). by rewrite list_lookup_fmap, zrange_lookup. Qed.

Lemma cells_elem g n c : 0 <= n <= snake_length_ g -> c ∈ take (Z.to_nat n) (snake_cells g) <-> exists i, 0 <= i < n /\ cell_at g i = c.
Proof.
  intros Hn. rewrite list_elem_of_lookup. split.
  - intros (k & Hk). apply lookup_take_Some in Hk as [Hk Hlt]. rewrite cells_lookup in Hk by lia. injection Hk as <-.
    exists (Z.of_nat k). split; [lia|done].
  - intros (i & Hi & <-). exists (Z.to_nat i). rewrite lookup_take_lt by lia. rewrite cells_lookup by lia. by rewrite Z2Nat.id by lia.
Qed.

Lemma moved_list g : snake_ok g -> snake_cells (moved g) = head_ahead g :: take (Z.to_nat (grown_length g - 1)) (snake_cells g).
Proof.
  intros Hok. pose proof (grown_bounds _ Hok) as Hlen. destruct (moved_cells g Hok) as (_ & _ & H0 & Hi). apply list_eq. intros k.
  change (snake_length_ (moved g)) with (grown_length g) in *.
  destruct (decide (k < Z.to_nat (grown_length g))%nat) as [Hk|Hk].
  - rewrite cells_lookup by (change (snake_length_ (moved g)) with (grown_length g); lia).
    destruct k as [|k]; [change (Z.of_nat 0) with 0; by rewrite H0|]. rewrite Hi by lia. rewrite lookup_cons.
    rewrite lookup_take_lt, cells_lookup by lia. f_equal. f_equal. lia.
  - rewrite !lookup_ge_None_2; [done| |].
    + cbn. rewrite length_take, cells_length. lia.
    + rewrite cells_length. change (snake_length_ (moved g)) with (grown_length g). lia.
Qed.

(** The guard of the step is that of [advance], and so is the new body. *)
Lemma advance_moves g : snake_ok g ->
  advance (pending_direction_ g) (snake_cells g) (food_x_ g, food_y_ g) = if blocked g then None else Some (snake_cells (moved g)).
Proof.
  intros Hok. pose proof (so_length _ Hok) as Hl. pose proof (grown_bounds _ Hok) as Hlen. unfold ARGUS_SNAKE_MAX_LENGTH in Hl.
  pose proof (cells_lookup g 0 ltac:(lia)) as H0. pose proof (cells_length g) as Hcl. unfold advance.
  destruct (snake_cells g) as [|head tail] eqn:Ec; [done|]. injection H0 as Hh. rewrite <- Ec in *. cbv zeta.
  assert (next_cell (pending_direction_ g) head.1 head.2 = head_ahead g) as -> by (rewrite Hh; done).
  replace (length (snake_cells g) - 1)%nat with (Z.to_nat (snake_length_ g - 1)) by lia.
  destruct (blocked g) eqn:Hb.
  - unfold blocked in Hb. destruct (head_ahead g) as [x y] eqn:Eh.
    destruct (decide (in_grid (x, y))) as [Hg|Hg]; [|by rewrite bool_decide_eq_false_2]. rewrite bool_decide_eq_true_2 by done. cbn [andb].
    unfold in_grid, ARGUS_SNAKE_GRID_WIDTH, ARGUS_SNAKE_GRID_HEIGHT in *. cbn [fst snd] in Hg.
    destruct (Z.ltb_spec x 0), (Z.ltb_spec y 0), (Z.leb_spec 20 x), (Z.leb_spec 14 y); try lia. cbn [orb] in Hb.
    rewrite !u8_id, u32_id in Hb by (unfold UINT32_MAX; lia). apply occupied_true in Hb; [|lia].
    rewrite bool_decide_eq_true_2; [done|]. apply cells_elem; [lia|done].
  - destruct (free_ahead g Hb) as [Hg Ho]. rewrite u32_id in Ho by (unfold UINT32_MAX; lia). rewrite bool_decide_eq_true_2 by done.
    rewrite bool_decide_eq_false_2.
    2: { intros Hin. apply cells_elem in Hin; [|lia]. rewrite (surjective_pairing (head_ahead g)) in Hin.
         apply occupied_true in Hin; [congruence|lia]. }
    cbn [andb negb]. f_equal. rewrite moved_list by done. f_equal. fold (eats g). unfold grown_length, ARGUS_SNAKE_MAX_LENGTH.
    destruct (eats g); cbn [andb]; [|done]. destruct (Nat.ltb_spec (length (snake_cells g)) 96), (Z.ltb_spec (snake_length_ g) 96); try lia.
    + rewrite take_ge by lia. done.
    + done.
Qed.

(** ** Games *)

(** What the main loop does to a game: a key of the queue, or a step of the clock. *)
Inductive snake_event := Key (key : Z) | Tick.
Definition snake_do (g : SnakeGame) (e : snake_event) : SnakeGame :=
  match e with Key key => snake_input g key | Tick => snake_step g end.
Definition snake_game (seed : Z) (es : list snake_event) : SnakeGame := fold_left snake_do es (snake_new seed).

Lemma snake_new_ok seed : snake_ok (snake_new seed).
Proof. apply reset_ok; [done..|]. unfold in_grid, ARGUS_SNAKE_GRID_WIDTH, ARGUS_SNAKE_GRID_HEIGHT. cbn [food_x_ food_y_ fst snd]. lia. Qed.

Lemma snake_do_ok g e : snake_ok g -> snake_ok (snake_do g e).
Proof. destruct e; [apply snake_input_ok|apply snake_step_ok]. Qed.

Lemma snake_game_ok seed es : snake_ok (snake_game seed es).
Proof. unfold snake_game. generalize (snake_new_ok seed). generalize (snake_new seed). induction es; intros g Hg; [done|]. cbn. by apply IHes, snake_do_ok. Qed.

(** The cell ahead is never the one behind the head. *)
Lemma ahead_not_neck g : snake_ok g -> snake_state_ g = ARGUS_SNAKE_STATE_PLAYING -> head_ahead g <> cell_at g 1.
Proof.
  intros Hok Hs. pose proof (so_heading _ Hok Hs) as Hh. destruct (so_directions _ Hok) as [Hd Hp]. pose proof (so_turn _ Hok) as Ht.
  unfold head_ahead. change (zget 0 (body_x_ g) 0) with (cell_at g 0).1. change (zget 0 (body_y_ g) 0) with (cell_at g 0).2. rewrite Hh.
  destruct (cell_at g 1) as [x y]. cbn [fst snd].
  destruct (next_cell_cases _ x y Hd) as [[E ->]|[[E ->]|[[E ->]|[E ->]]]]; cbn [fst snd];
    match goal with |- next_cell ?d ?a ?b <> _ => destruct (next_cell_cases d a b Hp) as [[F ->]|[[F ->]|[[F ->]|[F ->]]]] end;
    rewrite E, F in Ht; try discriminate Ht; intros H; injection H; lia.
Qed.

(** C26: In every game, from any seed and after any keys and clock steps, the snake
    is 4 to 96 cells long, all of them on the 20 by 14 board and each a neighbour of
    the one before it; the food is on the board; and as long as the game runs the
    cell ahead of the head is never the cell behind it, whatever keys were pressed
    between two steps. *)
Theorem snake_invariant seed es :
  let g := snake_game seed es in
  Z.of_nat (length (snake_cells g)) = snake_length_ g /\ 4 <= snake_length_ g <= ARGUS_SNAKE_MAX_LENGTH /\
  Forall in_grid (snake_cells g) /\
  (forall i c c', snake_cells g !! i = Some c -> snake_cells g !! S i = Some c' -> exists d, 0 <= d <= 3 /\ c = next_cell d c'.1 c'.2) /\
  in_grid (food_x_ g, food_y_ g) /\
  (snake_state_ g = ARGUS_SNAKE_STATE_PLAYING -> Some (head_ahead g) <> snake_cells g !! 1%nat).
Proof.
  intros g. pose proof (snake_game_ok seed es) as Hok. fold g in Hok. pose proof (so_length _ Hok) as Hl. split_and!; try done; try lia.
  - rewrite cells_length. lia.
  - apply Forall_lookup. intros i c Hi. pose proof (lookup_lt_Some _ _ _ Hi) as Hlt. rewrite cells_length in Hlt.
    rewrite cells_lookup in Hi by done. injection Hi as <-. apply (so_grid _ Hok). lia.
  - intros i c c' Hc Hc'. pose proof (lookup_lt_Some _ _ _ Hc') as Hlt. rewrite cells_length in Hlt. rewrite cells_lookup in Hc, Hc' by lia.
    injection Hc as <-. injection Hc' as <-. rewrite Nat2Z.inj_succ. apply (so_chain _ Hok). lia.
  - apply (so_food _ Hok).
  - intros Hs. rewrite cells_lookup by lia. intros H. injection H. by apply ahead_not_neck.
Qed.

(** C25: A step of the clock in a running game is one step of the game on the list of
    cells: the arrays moved in place hold the next head followed by the old cells,
    all of them when the food was eaten and the snake can grow and all but the last
    otherwise; the score counts the food eaten, which is only moved when it is; and
    the game ends, with the snake where it was, when the next cell is a wall or a
    cell of the body other than its last. *)
Theorem snake_step_refines seed es :
  let g := snake_game seed es in let g' := snake_step g in
  snake_state_ g = ARGUS_SNAKE_STATE_PLAYING ->
  match advance (pending_direction_ g) (snake_cells g) (food_x_ g, food_y_ g) with
  | None => snake_cells g' = snake_cells g /\ snake_state_ g' = ARGUS_SNAKE_STATE_GAME_OVER /\ score_ g' = score_ g
  | Some cells =>
      snake_cells g' = cells /\ snake_state_ g' = ARGUS_SNAKE_STATE_PLAYING /\
      if bool_decide (head cells = Some (food_x_ g, food_y_ g)) then score_ g' = u32 (score_ g + 1)
      else score_ g' = score_ g /\ (food_x_ g', food_y_ g') = (food_x_ g, food_y_ g)
  end.
Proof.
  intros g g' Hs. pose proof (snake_game_ok seed es) as Hok. fold g in Hok. unfold g'. rewrite advance_moves by done. destruct (blocked g) eqn:Hb.
  { rewrite step_over by done. done. }
  rewrite step_free by done. rewrite moved_list by done. cbn [head]. rewrite <- moved_list by done.
  destruct (place_food_spec (moved g)) as [Hsame _]. pose proof (same_snake_cells _ _ Hsame) as Ec. destruct Hsame as (_ & _ & Es & Esc & _).
  assert (eats g = bool_decide (Some (head_ahead g) = Some (food_x_ g, food_y_ g))) as <-.
  { apply bool_decide_ext. split; congruence. }
  destruct (eats g) eqn:Ee.
  - split_and!; [exact Ec| |].
    + transitivity (snake_state_ (moved g)); [exact Es|done].
    + transitivity (score_ (moved g)); [exact Esc|]. cbn [moved score_]. by rewrite Ee.
  - split_and!; [done..| |done]. cbn [moved score_ set_snake_dirty]. by rewrite Ee.
Qed.

Lemma snake_step_refines_witness :
  let g := snake_game 1 [Tick; Key 119] in snake_state_ g = ARGUS_SNAKE_STATE_PLAYING /\ snake_cells (snake_step g) = [(11, 6); (11, 7); (10, 7); (9, 7)].
Proof.
  split; [vm_compute; reflexivity|].
  pose proof (snake_step_refines 1 [Tick; Key 119] ltac:(vm_compute; reflexivity)) as H. cbv zeta in H.
  set (r := advance _ _ _) in H. assert (r = Some [(11, 6); (11, 7); (10, 7); (9, 7)]) as Er by (vm_compute; reflexivity).
  rewrite Er in H. exact (proj1 H).
Defined.

(** ** The snake does not run through itself *)

Definition fallback_free (g : SnakeGame) : Prop := (food_x_ g, food_y_ g) = (0, 0) -> (0, 0) ∉ snake_cells g.
Definition food_free (g : SnakeGame) : Prop := (food_x_ g, food_y_ g) ∉ snake_cells g.

(** The food is placed off the snake, or in the corner. *)
Lemma place_food_free g : 0 <= snake_length_ g -> food_free (place_food g) \/ (food_x_ (place_food g), food_y_ (place_food g)) = (0, 0).
Proof.
  intros Hl. destruct (place_food_spec g) as [Hs _]. apply same_snake_cells in Hs. unfold food_free. rewrite Hs. clear Hs. unfold place_food.
  generalize (random_state_ g) as random. induction (Z.to_nat ARGUS_SNAKE_CELL_COUNT) as [|n IH]; intros random; [by right|].
  cbn [food_attempts]. destruct (occupied g _ _ _) eqn:Ho; cbn [negb]; [apply IH|]. left. cbn [set_food food_x_ food_y_]. intros Hin.
  rewrite <- (take_ge (snake_cells g) (Z.to_nat (snake_length_ g))) in Hin by (rewrite cells_length; lia).
  apply cells_elem in Hin; [|lia]. apply occupied_true in Hin; [congruence|lia].
Qed.

(** The states of a game, one before each event and the last. *)
Fixpoint snake_states (g : SnakeGame) (es : list snake_event) : list SnakeGame :=
  g :: match es with [] => [] | e :: es' => snake_states (snake_do g e) es' end.

Definition apart (g : SnakeGame) : Prop := NoDup (snake_cells g) /\ (food_free g \/ (food_x_ g, food_y_ g) = (0, 0)).

Lemma placed_apart g : 0 <= snake_length_ g -> NoDup (snake_cells g) -> apart (set_snake_dirty (place_food g)).
Proof.
  intros Hl Hn. split; [|exact (place_food_free g Hl)]. destruct (place_food_spec g) as [Hs _]. apply same_snake_cells in Hs.
  change (NoDup (snake_cells (place_food g))). by rewrite Hs.
Qed.

Lemma reset_apart g : length (body_x_ g) = 96%nat -> length (body_y_ g) = 96%nat -> apart (snake_reset g).
Proof.
  intros Hx Hy. apply placed_apart; [done|].
  assert (snake_cells (reset_body g) = [(10, 7); (9, 7); (8, 7); (7, 7)]) as ->.
  { unfold snake_cells. rewrite reset_body_is at 2. cbn [snake_length_]. change (zrange 0 (Z.to_nat 4)) with [0; 1; 2; 3]. cbn [map].
    by rewrite !reset_cell by (done || lia). }
  repeat constructor; set_solver.
Qed.

Lemma moved_apart g : snake_ok g -> blocked g = false -> NoDup (snake_cells g) -> food_free g -> NoDup (snake_cells (moved g)) /\ (eats g = false -> food_free (moved g)).
Proof.
  intros Hok Hb Hn Hf. pose proof (grown_bounds _ Hok) as Hlen. destruct (free_ahead g Hb) as [_ Ho].
  rewrite u32_id in Ho by (unfold UINT32_MAX; lia). unfold food_free. rewrite moved_list by done. cbn [moved food_x_ food_y_]. split.
  - apply NoDup_cons. split; [|by eapply sublist_NoDup, sublist_take].
    unfold grown_length. destruct (eats g) eqn:Ee; cbn [andb].
    + apply bool_decide_eq_true in Ee. rewrite Ee. intros Hin. apply Hf. apply elem_of_take in Hin as (k & Hk & _). by apply list_elem_of_lookup_2 in Hk.
    + intros Hin. apply cells_elem in Hin; [|lia]. rewrite (surjective_pairing (head_ahead g)) in Hin. apply occupied_true in Hin; [congruence|lia].
  - intros Ee Hin. apply bool_decide_eq_false in Ee. apply elem_of_cons in Hin as [Hin|Hin]; [congruence|].
    apply Hf. apply elem_of_take in Hin as (k & Hk & _). by apply list_elem_of_lookup_2 in Hk.
Qed.

Lemma snake_do_apart g e : snake_ok g -> fallback_free g -> apart g -> apart (snake_do g e).
Proof.
  intros Hok Hfb [Hn Hf]. assert (food_free g) as Hff.
  { destruct Hf as [Hf|Hf]; [done|]. unfold food_free. rewrite Hf. by apply Hfb. }
  destruct (so_arrays _ Hok) as [Hx Hy]. destruct e as [key|]; cbn [snake_do].
  - unfold snake_input. case_if; [by apply reset_apart|]. cbv zeta. destruct (opposite _ _); cbn [negb]; (split; [done|by left]).
  - destruct (Z.eq_dec (snake_state_ g) ARGUS_SNAKE_STATE_PLAYING) as [Hs|Hs].
    2: { unfold snake_step. apply Z.eqb_neq in Hs. rewrite Hs. by split; [|left]. }
    destruct (blocked g) eqn:Hb; [rewrite step_over by done; by split; [|left]|]. rewrite step_free by done.
    destruct (moved_apart g Hok Hb Hn Hff) as [Hm Hfm]. pose proof (grown_bounds _ Hok). destruct (eats g).
    + apply placed_apart; [cbn [moved snake_length_]; lia|done].
    + split; [exact Hm|left; exact (Hfm eq_refl)].
Qed.

(** In every game, as long as the corner, where the food goes when no free cell was
    drawn, is not taken as its place while the snake lies there, the snake never has
    two parts on one cell: the check that leaves the last cell out is enough also
    when the snake grows. *)
Theorem snake_never_overlaps seed es :
  Forall fallback_free (snake_states (snake_new seed) es) -> NoDup (snake_cells (snake_game seed es)).
Proof.
  unfold snake_game. pose proof (snake_new_ok seed) as Hok. assert (apart (snake_new seed)) as Ha by by apply reset_apart.
  revert Hok Ha. generalize (snake_new seed) as g. induction es as [|e es IH]; intros g Hok Ha Hall; [apply Ha|].
  cbn [snake_states] in Hall. apply Forall_cons in Hall as [H0 Hall]. cbn [fold_left].
  apply IH; [by apply snake_do_ok|by apply snake_do_apart|done].
Qed.

Lemma snake_never_overlaps_witness : NoDup (snake_cells (snake_game 1 [Tick; Key 119; Tick; Tick])).
Proof.
  apply (snake_never_overlaps 1 [Tick; Key 119; Tick; Tick]).
  repeat constructor; intros H; exfalso; revert H; vm_compute; discriminate.
Defined.

(** ** The picture *)

#[local] Opaque clear rect draw_text draw_frame.

Lemma paints_segments g n m : paints m (for_range 0 n (draw_segment g) m).
Proof.
  apply paints_loop. intros i m1 _. unfold draw_segment. cbv zeta. unfold snake_cell.
  destruct (i =? 0); apply paints_rect; (apply u32_nonneg || lia || done).
Qed.

Lemma snake_draw_frame g m : frame_ok m (snd (snake_draw g m)).
Proof.
  unfold snake_draw. cbv zeta. cbn [snd]. assert (0 <= ARGUS_APP_COLOR_LCD < ARGUS_APP_PALETTE_COUNT) as Hcolor by done.
  remember (clear ARGUS_APP_COLOR_LCD m) as m0 eqn:E0.
  set (m1 := draw_frame board_x board_y board_width board_height _ _). set (m2 := for_range 0 (snake_length_ g) (draw_segment g) m1).
  refine (drawn_frame ARGUS_APP_COLOR_LCD m m0 _ Hcolor E0 _). clear E0.
  assert (paints m0 m1) as H1 by (unfold m1; change board_x with 59; change board_y with 42; change board_width with 202; change board_height with 142; paint_steps).
  assert (paints m0 m2) as H2 by (eapply paints_trans; [exact H1|apply paints_segments]).
  unfold snake_cell. case_if; unfold draw_game_over; cbv zeta; paint_steps; exact H2.
Qed.
