(* ===== verification/Programs.v ===== *)
(** * The user programs in the kernel

    What the main loop of src/user/calculator.cpp and src/user/notes.cpp
    ([app_round]) does with the keys waiting for it, and that every picture the
    three programs draw passes the check the kernel makes before it shows one. *)

From stdpp Require Import base list gmap numbers strings.
From Stdlib Require Import ZArith Lia.
From S2P Require Import Prelude Memory Process Syscall Runtime Calculator Notes Snake.

Open Scope Z_scope.

(** ** Polling *)

Section polling.
Context {U St : Type} `{System U}.
Context (input : St -> Z -> St) (draw : St -> mem -> St * mem) (dirty : St -> bool) (request : Z).

(** [queued m u keys u']: the system [u] answers the polls with [keys], then with no key. *)
Inductive queued (m : mem) : U -> list Z -> U -> Prop :=
| queued_none u u' : input_poll u m = (0, u') -> queued m u [] u'
| queued_key u u1 key keys u' : input_poll u m = (key, u1) -> key <> 0 -> queued m u1 keys u' -> queued m u (key :: keys) u'.

Lemma poll_keys_queued m u keys u' : queued m u keys u' ->
  forall fuel st, (length keys < fuel)%nat -> poll_keys input fuel st u m = Some (fold_left input keys st, u').
Proof.
  induction 1 as [u u' E|u u1 key keys u' E Hk Hq IH]; intros [|fuel] st Hf; cbn [length] in Hf; try lia; cbn [poll_keys]; rewrite E.
  - done.
  - replace (nz key) with true by (symmetry; by apply negb_true_iff, Z.eqb_neq). cbn [negb fold_left]. apply IH. lia.
Qed.

(** [present] writes its request and nothing else. *)
Lemma app_present_memory u m sequence :
  forall a, a < request \/ request + 16 <= a -> mem_get (snd (app_present request u m sequence)) a = mem_get m a.
Proof.
  intros a Ha. unfold app_present. destruct (capability _ _ _ _) as [handle u1]. destruct (syscall3 _ _ _ _ _ _) as [result u2]. cbn [snd].
  by rewrite !mem_get_store_ne by lia.
Qed.

(** A turn of the main loop feeds the program every key waiting for it, in their
    order and each once, however many they are, and then, if the picture is out of
    date, draws it once and presents it under the next sequence number; memory other
    than the picture and the request is left alone. *)
Theorem app_round_takes_all_keys m u keys u' fuel st sequence :
  queued m u keys u' -> (length keys < fuel)%nat ->
  let st' := fold_left input keys st in
  exists r', app_round input draw dirty request fuel (mk_running st sequence u m) = Some r' /\
    if dirty st'
    then rn_state r' = fst (draw st' m) /\ rn_sequence r' = u32 (sequence + 1) /\
         forall a, a < request \/ request + 16 <= a -> mem_get (rn_memory r') a = mem_get (snd (draw st' m)) a
    else rn_state r' = st' /\ rn_sequence r' = sequence /\ rn_memory r' = m.
Proof.
  intros Hq Hf st'. unfold app_round. cbn [rn_state rn_system rn_memory rn_sequence]. rewrite (poll_keys_queued _ _ _ _ Hq) by done. cbn [mbind option_bind].
  fold st'. destruct (dirty st'); (eexists; split; [reflexivity|]); [|done]. unfold show. cbn [rn_state rn_system rn_memory rn_sequence].
  destruct (draw st' m) as [st2 m2]. cbn [fst snd]. pose proof (app_present_memory u' m2 (u32 (sequence + 1))) as Hp.
  destruct (app_present _ _ _ _) as [[ok u2] m3]. done.
Qed.

End polling.

(** A system with a queue of keys: it knows its process and grants everything. *)
Definition key_queue : Type := Z * list Z.
#[export] Instance key_queue_system : System key_queue := {
  sys_call u m number first second third :=
    if number =? ARGUS_SYSCALL_INPUT_POLL then (hd 0 u.2, (u.1, tl u.2))
    else if number =? ARGUS_SYSCALL_GETPID then (u.1, u)
    else (0, u) }.

Lemma app_round_takes_all_keys_witness :
  exists r', app_round notes_input notes_draw notes_dirty 0 4 (mk_running notes0 1 (7, [72; 105]) ∅) = Some r' /\
    notes_text (rn_state r') = [72; 105] /\ rn_sequence r' = 2.
Proof.
  destruct (app_round_takes_all_keys notes_input notes_draw notes_dirty 0 ∅ (7, [72; 105]) [72; 105] (7, []) 4 notes0 1) as (r' & E & H).
  - eapply queued_key; [reflexivity|done|]. eapply queued_key; [reflexivity|done|]. apply queued_none. reflexivity.
  - cbn. lia.
  - exists r'. split; [exact E|]. cbv zeta in H.
    assert (notes_dirty (fold_left notes_input [72; 105] notes0) = true) as Hd by (vm_compute; reflexivity). rewrite Hd in H.
    destruct H as (Hs & Hq & _). split; [|exact Hq]. rewrite Hs. unfold notes_draw. cbv zeta. destruct (notes_characters _ _ _ _ _ _) as [[row column] m2].
    destruct (row <? kRows); vm_compute; reflexivity.
Defined.

(** ** What the kernel sees *)

(** The surface a running program leaves in memory passes [app_surface_valid],
    wherever its physical pages are. *)
Definition surface_acceptable (m : mem) : Prop :=
  forall (physical : mem) (p : process_t), pm_surface_physical (pr_memory p) <> 0 ->
    (forall i, 0 <= i < ARGUS_APP_SURFACE_BYTES ->
       mem_get physical (pm_surface_physical (pr_memory p) + i) = mem_get m (ARGUS_APP_SURFACE_ADDRESS + i)) ->
    app_surface_valid physical p = true.

Definition request_off_surface (request : Z) : Prop :=
  request + 16 <= ARGUS_APP_SURFACE_ADDRESS \/ ARGUS_APP_SURFACE_ADDRESS + ARGUS_APP_SURFACE_BYTES <= request.

Lemma palette_acceptable m : palette_ok m -> surface_acceptable m.
Proof. intros Hm physical p. by apply (frame_accepted m m). Qed.

Section frames.
Context {U St : Type} `{System U}.
Context (input : St -> Z -> St) (draw : St -> mem -> St * mem) (dirty : St -> bool) (initial : St) (request : Z).
Context (Hdraw : forall st m, frame_ok m (snd (draw st m))) (Hoff : request_off_surface request).

Lemma show_palette (r : running_app St) : palette_ok (rn_memory (snd (show draw request r))).
Proof using Hdraw Hoff.
  unfold show. pose proof (Hdraw (rn_state r) (rn_memory r)) as [Hp _]. destruct (draw _ _) as [st m]. cbn [snd] in Hp.
  pose proof (app_present_memory request (rn_system r) m (u32 (rn_sequence r + 1))) as Hm. destruct (app_present _ _ _ _) as [[ok u] m'].
  cbn [snd rn_memory] in *. intros a Ha. rewrite Hm; [by apply Hp|]. unfold request_off_surface, in_app_surface in *. lia.
Qed.

Lemma start_palette process u m r : argus_user_start draw initial request process u m = Running r -> palette_ok (rn_memory r).
Proof using Hdraw Hoff.
  unfold argus_user_start. case_if; [done|]. destruct (pid u m) as [own u1]. case_if; [done|].
  pose proof (show_palette (mk_running initial 0 u1 m)) as Hs. destruct (show _ _ _) as [ok r1]. case_if; [done|]. intros [= <-]. exact Hs.
Qed.

Lemma round_palette fuel r r' : app_round input draw dirty request fuel r = Some r' -> palette_ok (rn_memory r) -> palette_ok (rn_memory r').
Proof using Hdraw Hoff.
  unfold app_round. destruct (poll_keys _ _ _ _ _) as [[st u]|]; [|done]. cbn [mbind option_bind].
  intros [= <-] Hr. cbn [rn_memory]. case_if; [apply show_palette|exact Hr].
Qed.

(** Turns of the main loop, each with the number of polls it may make. *)
Definition app_rounds (fuels : list nat) (r : running_app St) : option (running_app St) :=
  foldl (fun o fuel => r ← o; app_round input draw dirty request fuel r) (Some r) fuels.

Lemma rounds_palette fuels : forall r r', app_rounds fuels r = Some r' -> palette_ok (rn_memory r) -> palette_ok (rn_memory r').
Proof using Hdraw Hoff.
  unfold app_rounds. induction fuels as [|fuel fuels IH] using rev_ind; intros r r'; [by intros [= <-]|].
  rewrite foldl_app. cbn [foldl]. destruct (foldl _ _ fuels) as [r1|] eqn:E; [|done]. cbn [mbind option_bind]. intros Er Hr.
  eapply round_palette; [exact Er|]. by eapply IH.
Qed.
End frames.

Section snake_frames.
Context {U : Type} `{System U} (request : Z) (Hoff : request_off_surface request).

Definition snake_rounds (fuels : list nat) (r : running_app SnakeGame) (previous_step : Z) : option (running_app SnakeGame * Z) :=
  foldl (fun o fuel => '(r, t) ← o; snake_round request fuel r t) (Some (r, previous_step)) fuels.

Lemma snake_start_palette process u m r t : snake_start request process u m = (Running r, t) -> palette_ok (rn_memory r).
Proof using Hoff.
  unfold snake_start. case_if; [done|]. destruct (pid u m) as [own u1]. case_if; [done|]. destruct (ticks u1 m) as [now u2]. cbv zeta.
  pose proof (show_palette snake_draw request snake_draw_frame Hoff (mk_running (snake_new (u32 (Z.lxor now (u64 (process * 0x9E3779B9))))) 0 u2 m)) as Hs.
  destruct (show _ _ _) as [ok r1]. case_if; [done|]. intros [= <- _]. exact Hs.
Qed.

Lemma snake_round_palette fuel r t r' t' : snake_round request fuel r t = Some (r', t') -> palette_ok (rn_memory r) -> palette_ok (rn_memory r').
Proof using Hoff.
  unfold snake_round. destruct (poll_keys _ _ _ _ _) as [[game u]|]; [|done]. destruct (ticks _ _) as [now u1].
  intros Hs Hr. destruct (_ <=? _); injection Hs as <- _; cbn [rn_memory];
    (case_if; [apply (show_palette _ _ snake_draw_frame Hoff)|exact Hr]).
Qed.

Lemma snake_rounds_palette fuels : forall r t r' t', snake_rounds fuels r t = Some (r', t') -> palette_ok (rn_memory r) -> palette_ok (rn_memory r').
Proof using Hoff.
  unfold snake_rounds. induction fuels as [|fuel fuels IH] using rev_ind; intros r t r' t'; [by intros [= <- _]|].
  rewrite foldl_app. cbn [foldl]. destruct (foldl _ _ fuels) as [[r1 t1]|] eqn:E; [|done]. cbn [mbind option_bind]. intros Er Hr.
  eapply snake_round_palette; [exact Er|]. by eapply IH.
Qed.
End snake_frames.

(** C17: From its first picture on, whatever system it runs on and whatever keys and
    clock readings it gets, each of the three programs leaves in its surface a
    picture that the kernel's check accepts, after start-up and after every turn of
    its main loop: every byte is an index of the palette. *)
Theorem programs_always_acceptable {U : Type} `{System U} request process (u : U) m :
  request_off_surface request ->
  (forall r fuels r', argus_user_start calc_draw calculator0 request process u m = Running r ->
     app_rounds calc_input calc_draw calc_dirty request fuels r = Some r' -> surface_acceptable (rn_memory r')) /\
  (forall r fuels r', argus_user_start notes_draw notes0 request process u m = Running r ->
     app_rounds notes_input notes_draw notes_dirty request fuels r = Some r' -> surface_acceptable (rn_memory r')) /\
  (forall r t fuels r' t', snake_start request process u m = (Running r, t) ->
     snake_rounds request fuels r t = Some (r', t') -> surface_acceptable (rn_memory r')).
Proof.
  intros Hoff. split_and!.
  - intros r fuels r' Hs Hr. apply palette_acceptable.
    eapply rounds_palette; [apply calc_draw_frame|exact Hoff|exact Hr|]. eapply start_palette; [apply calc_draw_frame|exact Hoff|exact Hs].
  - intros r fuels r' Hs Hr. apply palette_acceptable.
    eapply rounds_palette; [apply notes_draw_frame|exact Hoff|exact Hr|]. eapply start_palette; [apply notes_draw_frame|exact Hoff|exact Hs].
  - intros r t fuels r' t' Hs Hr. apply palette_acceptable. eapply snake_rounds_palette; [exact Hoff|exact Hr|]. by eapply snake_start_palette.
Qed.

#[local] Opaque calc_draw notes_draw snake_draw.

Lemma programs_always_acceptable_witness :
  exists r r', argus_user_start calc_draw calculator0 0 7 (7, [53]) ∅ = Running r /\
    app_rounds calc_input calc_draw calc_dirty 0 [3%nat] r = Some r' /\ surface_acceptable (rn_memory r').
Proof.
  assert (request_off_surface 0) as Hoff by (left; vm_compute; discriminate).
  destruct (programs_always_acceptable 0 7 (7, [53]) ∅ Hoff) as [Hc _].
  eexists _, _. split_and!; [reflexivity|reflexivity|]. eapply (Hc _ [3%nat]); reflexivity.
Defined.
