(* ===== verification/Arch.v ===== *)
(** * Descriptor tables and system-call entry (src/arch.c, src/cpu.S)

    The global descriptor table, the interrupt descriptor table and the task state
    segment as the code fills them, the registers of the processor that point at
    them, and the model-specific registers of the system call.  The specification
    side decodes the tables the way the processor does. *)

From stdpp Require Import base list gmap numbers strings.
From Stdlib Require Import ZArith Lia Btauto.
From coqutil Require Import Z.bitblast.
From S2P Require Import Prelude Memory Devices Process Syscall Scheduler Ps2.

Open Scope Z_scope.

Definition DOUBLE_FAULT_STACK_BYTES : Z := 16384.
Definition USER_DATA_SELECTOR : Z := 0x18.
Definition USER_CODE_SELECTOR : Z := 0x20.
Definition TSS_SELECTOR : Z := 0x28.
Definition IA32_EFER_MSR : Z := 0xC0000080.
Definition IA32_STAR_MSR : Z := 0xC0000081.
Definition IA32_LSTAR_MSR : Z := 0xC0000082.
Definition IA32_FMASK_MSR : Z := 0xC0000084.
Definition EFER_SYSCALL_ENABLE : Z := 1 << 0.
Definition RFLAGS_INTERRUPT_ENABLE : Z := 1 << 9.
Definition RFLAGS_DIRECTION : Z := 1 << 10.

Record descriptor_table_pointer_t := mk_pointer { dt_limit : Z; dt_base : Z }.

Record idt_gate_t := mk_gate {
  offset_low : Z; selector : Z; gate_ist : Z; type_attributes : Z; offset_middle : Z; offset_high : Z; gate_reserved : Z }.
Definition gate0 : idt_gate_t := mk_gate 0 0 0 0 0 0 0.

Record task_state_segment_t := mk_tss {
  tss_reserved0 : Z; tss_rsp : list Z; tss_reserved1 : Z; tss_ist : list Z; tss_reserved2 : Z; tss_reserved3 : Z; io_map_base : Z }.
Definition tss0 : task_state_segment_t := mk_tss 0 (replicate 3 0) 0 (replicate 7 0) 0 0 0.
Definition sizeof_tss : Z := 104.

(** The static data, and [syscall_kernel_rsp] of cpu.S. *)
Record arch_state := mk_arch {
  gdt : list Z; idt : list idt_gate_t; interrupt_handlers : list Z; tss : task_state_segment_t; syscall_kernel_rsp : Z }.
Definition arch0 : arch_state := mk_arch (replicate 7 0) (replicate 256 gate0) (replicate 256 0) tss0 0.

(** Where the linker put the data and the entry points. *)
Record arch_addresses := mk_addresses {
  at_gdt : Z; at_idt : Z; at_tss : Z; at_double_fault_stack : Z; isr_stub_table : list Z; at_syscall_entry : Z }.

Section arch.
Context {D : Type} `{Hardware D}.
Context (adr : arch_addresses).

(** The registers the tables are loaded into, and the rest of the hardware. *)
Record cpu_state := mk_cpu {
  gdtr : descriptor_table_pointer_t; idtr : descriptor_table_pointer_t; code_selector : Z; data_selector : Z; task_register : Z; cpu_hw : D }.

(** cpu.S *)
Definition arch_load_gdt (p : descriptor_table_pointer_t) (c : cpu_state) : cpu_state :=
  mk_cpu p (idtr c) 0x08 0x10 (task_register c) (cpu_hw c).
Definition arch_load_idt (p : descriptor_table_pointer_t) (c : cpu_state) : cpu_state :=
  mk_cpu (gdtr c) p (code_selector c) (data_selector c) (task_register c) (cpu_hw c).
(** [ltr] also marks the descriptor it loads busy, in the table. *)
Definition arch_load_task_register (s : arch_state) (c : cpu_state) : arch_state * cpu_state :=
  (mk_arch (zset (gdt s) 5 (Z.lor (zget 0 (gdt s) 5) (1 << 41))) (idt s) (interrupt_handlers s) (tss s) (syscall_kernel_rsp s),
   mk_cpu (gdtr c) (idtr c) (code_selector c) (data_selector c) 0x28 (cpu_hw c)).
Definition arch_read_task_register (c : cpu_state) : Z := u16 (task_register c).

Definition gate_for (address ist : Z) : idt_gate_t :=
  mk_gate (u16 address) 0x08 (ist & 7) 0x8E (u16 (address >> 16)) (u32 (address >> 32)) 0.
Definition set_idt_gate (vector handler ist : Z) (gates : list idt_gate_t) : list idt_gate_t := zset gates vector (gate_for handler ist).

Definition tss_descriptor (base limit : Z) : Z :=
  Z.lor (Z.lor (Z.lor (Z.lor (limit & 0xFFFF) ((base & 0xFFFFFF) << 16)) (0x89 << 40)) (((limit >> 16) & 0xF) << 48)) (((base >> 24) & 0xFF) << 56).

Definition initialize_tss (s : arch_state) : arch_state :=
  let t := mk_tss 0 (replicate 3 0) 0 (zset (replicate 7 0) 0 (u64 (at_double_fault_stack adr + DOUBLE_FAULT_STACK_BYTES))) 0 0 (u16 sizeof_tss) in
  let base := at_tss adr in
  let limit := sizeof_tss - 1 in
  mk_arch (zset (zset (gdt s) 5 (u64 (tss_descriptor base limit))) 6 (base >> 32)) (idt s) (interrupt_handlers s) t (syscall_kernel_rsp s).

Definition arch_init (s : arch_state) (c : cpu_state) : bool * arch_state * cpu_state :=
  let g := zset (gdt s) 0 0 in
  let g := zset g 1 0x00AF9A000000FFFF in
  let g := zset g 2 0x00CF92000000FFFF in
  let g := zset g 3 0x00CFF2000000FFFF in
  let g := zset g 4 0x00AFFA000000FFFF in
  let s := initialize_tss (mk_arch g (idt s) (interrupt_handlers s) (tss s) (syscall_kernel_rsp s)) in
  let c := arch_load_gdt (mk_pointer (u16 (7 * 8 - 1)) (at_gdt adr)) c in
  let '(s, c) := arch_load_task_register s c in
  let '(handlers, gates) := for_range 0 256 (fun i hg => (zset hg.1 i 0, zset hg.2 i gate0)) (interrupt_handlers s, idt s) in
  let gates := for_range 0 32 (fun vector gates => set_idt_gate vector (zget 0 (isr_stub_table adr) vector) (if vector =? 8 then 1 else 0) gates) gates in
  let gates := set_idt_gate ARGUS_APIC_TIMER_VECTOR (zget 0 (isr_stub_table adr) 32) 0 gates in
  let gates := set_idt_gate ARGUS_PS2_KEYBOARD_VECTOR (zget 0 (isr_stub_table adr) 33) 0 gates in
  let gates := set_idt_gate ARGUS_PS2_MOUSE_VECTOR (zget 0 (isr_stub_table adr) 34) 0 gates in
  let gates := set_idt_gate ARGUS_APIC_SPURIOUS_VECTOR (zget 0 (isr_stub_table adr) 35) 0 gates in
  let c := arch_load_idt (mk_pointer (u16 (256 * 16 - 1)) (at_idt adr)) c in
  let hw := cpu_out8 (cpu_hw c) 0x21 0xFF in
  let hw := cpu_out8 hw 0xA1 0xFF in
  let c := mk_cpu (gdtr c) (idtr c) (code_selector c) (data_selector c) (task_register c) hw in
  (arch_read_task_register c =? TSS_SELECTOR, mk_arch (gdt s) gates handlers (tss s) (syscall_kernel_rsp s), c).

Definition arch_syscall_init (s : arch_state) (hw : D) (kernel_stack_top : Z) : bool * arch_state * D :=
  if negb (nz kernel_stack_top) || nz (kernel_stack_top & 0xF) then (false, s, hw)
  else
    let t := tss s in
    let t := mk_tss (tss_reserved0 t) (zset (tss_rsp t) 0 kernel_stack_top) (tss_reserved1 t) (tss_ist t) (tss_reserved2 t) (tss_reserved3 t) (io_map_base t) in
    let s := mk_arch (gdt s) (idt s) (interrupt_handlers s) t kernel_stack_top in
    let '(efer, hw) := cpu_rdmsr hw IA32_EFER_MSR in
    let hw := cpu_wrmsr hw IA32_EFER_MSR (Z.lor efer EFER_SYSCALL_ENABLE) in
    let hw := cpu_wrmsr hw IA32_STAR_MSR (Z.lor (u64 ((USER_DATA_SELECTOR - 8) << 48)) (0x08 << 32)) in
    let hw := cpu_wrmsr hw IA32_LSTAR_MSR (at_syscall_entry adr) in
    let hw := cpu_wrmsr hw IA32_FMASK_MSR (Z.lor RFLAGS_INTERRUPT_ENABLE RFLAGS_DIRECTION) in
    let '(efer, hw) := cpu_rdmsr hw IA32_EFER_MSR in
    (nz (efer & EFER_SYSCALL_ENABLE) && (USER_CODE_SELECTOR =? USER_DATA_SELECTOR + 8), s, hw).

(** The gate of vector 14 is made not present; the store that follows faults. *)
Definition arch_trigger_double_fault (s : arch_state) : arch_state :=
  let g := zget gate0 (idt s) 14 in
  mk_arch (gdt s)
    (zset (idt s) 14 (mk_gate (offset_low g) (selector g) (gate_ist g) (type_attributes g & 0x7F) (offset_middle g) (offset_high g) (gate_reserved g)))
    (interrupt_handlers s) (tss s) (syscall_kernel_rsp s).

(** [address] is that of a local variable. *)
Definition arch_on_double_fault_ist (address : Z) : bool :=
  (at_double_fault_stack adr <=? address) && (address <? u64 (at_double_fault_stack adr + DOUBLE_FAULT_STACK_BYTES)).

(** ** The tables as the processor reads them *)

(** Where an interrupt goes: the code segment and the address of the handler, and the
    entry of the interrupt stack table; [None] if the gate is not present. *)
Definition gate_offset (g : idt_gate_t) : Z := Z.lor (offset_low g) (Z.lor (offset_middle g << 16) (offset_high g << 32)).
Definition interrupt_entry (gates : list idt_gate_t) (vector : Z) : option (Z * Z * Z) :=
  let g := zget gate0 gates vector in
  if Z.testbit (type_attributes g) 7 && (type_attributes g & 0xF =? 0xE) then Some (selector g, gate_offset g, gate_ist g) else None.
(** The privilege from which a program may call the gate. *)
Definition gate_privilege (g : idt_gate_t) : Z := (type_attributes g >> 5) & 3.

Inductive segment := Code (privilege : Z) (long : bool) | Data (privilege : Z) | NotPresent.
Definition descriptor_segment (d : Z) : segment :=
  if negb (Z.testbit d 47 && Z.testbit d 44) then NotPresent
  else if Z.testbit d 43 then Code ((d >> 45) & 3) (Z.testbit d 53) else Data ((d >> 45) & 3).
(** A selector names the descriptor of its upper bits. *)
Definition segment_at (table : list Z) (sel : Z) : segment := descriptor_segment (zget 0 table (sel >> 3)).

Definition system_base (low high : Z) : Z := Z.lor (Z.lor ((low >> 16) & 0xFFFFFF) (((low >> 56) & 0xFF) << 24)) (high << 32).
Definition system_limit (low : Z) : Z := Z.lor (low & 0xFFFF) (((low >> 48) & 0xF) << 16).

Lemma gate_for_offset address ist : 0 <= address <= UINT64_MAX -> gate_offset (gate_for address ist) = address.
Proof.
  intros Ha. unfold gate_offset, gate_for, u16, u32, UINT64_MAX in *. cbn [offset_low offset_middle offset_high].
  change 65536 with (2 ^ 16). change 4294967296 with (2 ^ 32). rewrite <- (Z.mod_small address (2 ^ 64)) at 4 by lia. Z.bitblast.
Qed.

(** Five fields in a word, and the bit the processor sets in one of them. *)
Definition packed (a b t c d e : Z) : Z :=
  Z.lor (Z.lor (Z.lor (Z.lor (Z.lor (a mod 2 ^ 16) ((b mod 2 ^ 24) << 16)) ((t mod 2 ^ 8) << 40)) ((c mod 2 ^ 4) << 48)) ((d mod 2 ^ 8) << 56)) ((e mod 2 ^ 1) << 41).

Ltac fields :=
  try unfold packed; Z.bitblast;
  repeat match goal with |- context [Z.testbit ?x ?i] => rewrite (Z.testbit_neg_r x i) by lia end; btauto.

Lemma packed_a a b t c d e : packed a b t c d e & Z.ones 16 = a mod 2 ^ 16.
Proof. fields. Qed.
Lemma packed_b a b t c d e : (packed a b t c d e >> 16) & Z.ones 24 = b mod 2 ^ 24.
Proof. fields. Qed.
Lemma packed_c a b t c d e : (packed a b t c d e >> 48) & Z.ones 4 = c mod 2 ^ 4.
Proof. fields. Qed.
Lemma packed_d a b t c d e : (packed a b t c d e >> 56) & Z.ones 8 = d mod 2 ^ 8.
Proof. fields. Qed.

Lemma tss_descriptor_packed base limit :
  tss_descriptor base limit = packed limit base 0x89 (limit >> 16) (base >> 24) 0 /\
  u64 (tss_descriptor base limit) = tss_descriptor base limit /\
  Z.lor (u64 (tss_descriptor base limit)) (1 << 41) = packed limit base 0x89 (limit >> 16) (base >> 24) 1.
Proof.
  assert (tss_descriptor base limit = packed limit base 0x89 (limit >> 16) (base >> 24) 0) as E.
  { unfold tss_descriptor, packed. change 0xFFFF with (Z.ones 16). change 0xFFFFFF with (Z.ones 24). change 0xFF with (Z.ones 8). change 0xF with (Z.ones 4).
    rewrite !Z.land_ones by lia. change (0 mod 2 ^ 1 << 41) with 0. by rewrite Z.lor_0_r. }
  assert (u64 (tss_descriptor base limit) = tss_descriptor base limit) as Eu.
  { rewrite E. unfold u64. change 18446744073709551616 with (2 ^ 64). generalize 0x89 as type. intros type. fields. }
  split_and!; [done|done|]. rewrite Eu, E. unfold packed. change (0 mod 2 ^ 1 << 41) with 0. by rewrite Z.lor_0_r.
Qed.

(** The descriptor of the task state segment, once loaded, names its base and limit. *)
Lemma tss_descriptor_decodes base limit : 0 <= base <= UINT64_MAX -> 0 <= limit < 2 ^ 20 ->
  let low := Z.lor (u64 (tss_descriptor base limit)) (1 << 41) in system_base low (base >> 32) = base /\ system_limit low = limit.
Proof.
  intros Hb Hl low. unfold low. destruct (tss_descriptor_packed base limit) as (_ & _ & ->). unfold system_base, system_limit.
  change 0xFFFF with (Z.ones 16). change 0xFFFFFF with (Z.ones 24). change 0xFF with (Z.ones 8). change 0xF with (Z.ones 4).
  rewrite packed_a, packed_b, packed_c, packed_d. unfold UINT64_MAX in Hb. split.
  - fields.
  - rewrite <- (Z.mod_small limit (2 ^ 20)) at 3 by lia. fields.
Qed.

(** ** The interrupt descriptor table *)

(** The stub of a vector. *)
Definition stub_of (vector : Z) : option Z :=
  if vector <? 32 then Some vector
  else if vector =? ARGUS_APIC_TIMER_VECTOR then Some 32
  else if vector =? ARGUS_PS2_KEYBOARD_VECTOR then Some 33
  else if vector =? ARGUS_PS2_MOUSE_VECTOR then Some 34
  else if vector =? ARGUS_APIC_SPURIOUS_VECTOR then Some 35
  else None.

Definition expected_gate (vector : Z) : idt_gate_t :=
  match stub_of vector with
  | Some stub => gate_for (zget 0 (isr_stub_table adr) stub) (if vector =? 8 then 1 else 0)
  | None => gate0
  end.

Lemma zget_zset {A} (d : A) l i j v : 0 <= i < Z.of_nat (length l) -> 0 <= j -> zget d (zset l i v) j = if i =? j then v else zget d l j.
Proof. intros Hi Hj. destruct (Z.eqb_spec i j) as [<-|Hn]; [by apply zget_zset_eq|apply zget_zset_ne; lia]. Qed.

(** Every entry of a table set by a loop. *)
Lemma loop_sets {A} (d : A) (f : Z -> A) n l j :
  0 <= n <= Z.of_nat (length l) -> 0 <= j ->
  length (for_range 0 n (fun i l => zset l i (f i)) l) = length l /\
  zget d (for_range 0 n (fun i l => zset l i (f i)) l) j = if j <? n then f j else zget d l j.
Proof.
  intros Hn Hj.
  apply (for_range_inv (fun k l' => length l' = length l /\ zget d l' j = if j <? k then f j else zget d l j)); [lia| |].
  - split; [done|]. destruct (Z.ltb_spec j 0); [lia|done].
  - intros i l' Hi [El Eg]. split; [by rewrite zset_length|]. rewrite zget_zset by lia. rewrite Eg.
    destruct (Z.eqb_spec i j) as [->|Hn']; [destruct (Z.ltb_spec j (j + 1)); [done|lia]|].
    destruct (Z.ltb_spec j i), (Z.ltb_spec j (i + 1)); done || lia.
Qed.

Lemma loop_pair {A B} n (f : Z -> A -> A) (g : Z -> B -> B) a b :
  for_range 0 n (fun i p => (f i p.1, g i p.2)) (a, b) = (for_range 0 n f a, for_range 0 n g b).
Proof. unfold for_range. generalize (zrange 0 (Z.to_nat (n - 0))) as l. intros l. revert a b. induction l; intros; [done|]. cbn [fold_left fst snd]. by rewrite IHl. Qed.

Ltac init_unfold :=
  unfold arch_init, arch_load_task_register, initialize_tss; cbv zeta; cbn [gdt idt interrupt_handlers tss syscall_kernel_rsp];
  rewrite (loop_pair 256 (fun i h => zset h i 0) (fun i g => zset g i gate0)).

Lemma arch_init_gates s c : length (idt s) = 256%nat -> length (interrupt_handlers s) = 256%nat ->
  let s' := (arch_init s c).1.2 in
  (forall v, 0 <= v < 256 -> zget gate0 (idt s') v = expected_gate v) /\ (forall v, 0 <= v < 256 -> zget 0 (interrupt_handlers s') v = 0) /\
  length (idt s') = 256%nat.
Proof.
  intros Hi Hh. init_unfold. cbn [fst snd idt interrupt_handlers].
  set (cleared := for_range 0 256 (fun i g => zset g i gate0) (idt s)).
  assert (forall v, 0 <= v -> length cleared = 256%nat /\ (v < 256 -> zget gate0 cleared v = gate0)) as Hc.
  { intros v Hv. destruct (loop_sets gate0 (fun _ => gate0) 256 (idt s) v) as [El Eg]; [lia|lia|]. split; [unfold cleared; lia|].
    intros Hlt. unfold cleared. rewrite Eg. by destruct (Z.ltb_spec v 256); [|lia]. }
  split_and!.
  - intros v Hv. destruct (Hc v) as [Hcl Hcv]; [lia|]. specialize (Hcv ltac:(lia)). unfold set_idt_gate.
    destruct (loop_sets gate0 (fun v => gate_for (zget 0 (isr_stub_table adr) v) (if v =? 8 then 1 else 0)) 32 cleared v) as [El Eg]; [lia|lia|].
    set (filled := for_range 0 32 _ cleared) in *. rewrite !zget_zset by (rewrite ?zset_length; unfold ARGUS_APIC_TIMER_VECTOR, ARGUS_PS2_KEYBOARD_VECTOR, ARGUS_PS2_MOUSE_VECTOR, ARGUS_APIC_SPURIOUS_VECTOR; lia).
    rewrite Eg, Hcv. unfold expected_gate, stub_of.
    unfold ARGUS_APIC_TIMER_VECTOR, ARGUS_PS2_KEYBOARD_VECTOR, ARGUS_PS2_MOUSE_VECTOR, ARGUS_APIC_SPURIOUS_VECTOR in *.
    rewrite !(Z.eqb_sym _ v).
    destruct (Z.eqb_spec v 0xFF) as [->|]; [done|]. destruct (Z.eqb_spec v 0x42) as [->|]; [done|]. destruct (Z.eqb_spec v 0x41) as [->|]; [done|].
    destruct (Z.eqb_spec v 0x40) as [->|]; [done|]. by destruct (v <? 32).
  - intros v Hv. destruct (loop_sets 0 (fun _ => 0) 256 (interrupt_handlers s) v) as [_ Eg]; [lia|lia|]. rewrite Eg.
    by destruct (Z.ltb_spec v 256); [|lia].
  - unfold set_idt_gate. rewrite !zset_length. destruct (Hc 0) as [Hcl _]; [lia|].
    destruct (loop_sets gate0 (fun v => gate_for (zget 0 (isr_stub_table adr) v) (if v =? 8 then 1 else 0)) 32 cleared 0) as [El _]; [lia|lia|]. lia.
Qed.

Lemma arch_init_gdt s c : length (gdt s) = 7%nat ->
  gdt (arch_init s c).1.2 =
    [0; 0x00AF9A000000FFFF; 0x00CF92000000FFFF; 0x00CFF2000000FFFF; 0x00AFFA000000FFFF;
     Z.lor (u64 (tss_descriptor (at_tss adr) (sizeof_tss - 1))) (1 << 41); at_tss adr >> 32].
Proof.
  intros Hg. init_unfold. cbn [fst snd gdt].
  destruct (gdt s) as [|g0 [|g1 [|g2 [|g3 [|g4 [|g5 [|g6 [|]]]]]]]]; try discriminate Hg. reflexivity.
Qed.

Definition u64_address (a : Z) : Prop := 0 <= a <= UINT64_MAX.

(** The double fault test: with its gate gone, a page fault has nowhere to go. *)
Lemma trigger_entry s v : length (idt s) = 256%nat -> 0 <= v < 256 ->
  interrupt_entry (idt (arch_trigger_double_fault s)) v = if v =? 14 then None else interrupt_entry (idt s) v.
Proof.
  intros Hl Hv. unfold interrupt_entry, arch_trigger_double_fault. cbn [idt]. rewrite zget_zset by lia. rewrite Z.eqb_sym.
  destruct (v =? 14); [|done]. cbn [type_attributes]. rewrite Z.land_spec. change (Z.testbit 0x7F 7) with false. by rewrite andb_false_r.
Qed.

(** C23: After [arch_init], whatever the tables held, the processor has them loaded and
    takes every exception to its own stub, in the kernel's 64-bit code segment and
    behind a gate no program can call; the double fault alone switches to the first
    entry of the interrupt stack table, the top of its own stack; the timer, the
    keyboard, the mouse and the spurious vector have their stubs, no other vector is
    present and no handler is registered; the segments of the kernel and of programs
    have their privileges, and the task register names a descriptor that decodes to
    the task state segment.  After [arch_trigger_double_fault] a page fault has no gate
    and the double fault keeps its own. *)
Theorem arch_init_tables s c :
  length (gdt s) = 7%nat -> length (idt s) = 256%nat -> length (interrupt_handlers s) = 256%nat ->
  u64_address (at_tss adr) -> Forall u64_address (isr_stub_table adr) ->
  0 <= at_double_fault_stack adr <= UINT64_MAX - DOUBLE_FAULT_STACK_BYTES ->
  let '(ok, s', c') := arch_init s c in
  ok = true /\
  (forall v, 0 <= v < 256 -> interrupt_entry (idt s') v =
     match stub_of v with Some stub => Some (code_selector c', zget 0 (isr_stub_table adr) stub, if v =? 8 then 1 else 0) | None => None end) /\
  (forall v, 0 <= v < 256 -> gate_privilege (zget gate0 (idt s') v) = 0 /\ zget 0 (interrupt_handlers s') v = 0) /\
  zget 0 (tss_ist (tss s')) 0 = at_double_fault_stack adr + DOUBLE_FAULT_STACK_BYTES /\
  segment_at (gdt s') (code_selector c') = Code 0 true /\ segment_at (gdt s') (data_selector c') = Data 0 /\
  segment_at (gdt s') USER_CODE_SELECTOR = Code 3 true /\ segment_at (gdt s') USER_DATA_SELECTOR = Data 3 /\
  system_base (zget 0 (gdt s') (task_register c' >> 3)) (zget 0 (gdt s') ((task_register c' >> 3) + 1)) = at_tss adr /\
  system_limit (zget 0 (gdt s') (task_register c' >> 3)) = sizeof_tss - 1 /\
  gdtr c' = mk_pointer 55 (at_gdt adr) /\ idtr c' = mk_pointer 4095 (at_idt adr) /\
  let gates := idt (arch_trigger_double_fault s') in interrupt_entry gates 14 = None /\ interrupt_entry gates 8 = interrupt_entry (idt s') 8.
Proof.
  intros Hg Hi Hh Ht Hst Hds. destruct (arch_init_gates s c Hi Hh) as (Egates & Ehandlers & Elength). pose proof (arch_init_gdt s c Hg) as Eg.
  assert ((arch_init s c).1.1 = true /\ tss (arch_init s c).1.2 = mk_tss 0 (replicate 3 0) 0 (zset (replicate 7 0) 0 (u64 (at_double_fault_stack adr + DOUBLE_FAULT_STACK_BYTES))) 0 0 (u16 sizeof_tss)
    /\ code_selector (arch_init s c).2 = 8 /\ data_selector (arch_init s c).2 = 0x10 /\ task_register (arch_init s c).2 = 0x28
    /\ gdtr (arch_init s c).2 = mk_pointer 55 (at_gdt adr) /\ idtr (arch_init s c).2 = mk_pointer 4095 (at_idt adr)) as (Eok & Et & Ec & Ed & Er & Egd & Eid).
  { init_unfold. done. }
  destruct (arch_init s c) as [[ok s'] c']. cbn [fst snd] in *. cbv zeta in *. rewrite Eok, Et, Ec, Ed, Er, Eg.
  pose proof (trigger_entry s' 14) as E14. pose proof (trigger_entry s' 8) as E8.
  assert (forall stub, u64_address (zget 0 (isr_stub_table adr) stub)) as Hstub.
  { intros stub. unfold zget. destruct (isr_stub_table adr !! Z.to_nat stub) as [a|] eqn:E; [|done].
    cbn. by apply (Forall_lookup_1 _ _ _ _ Hst E). }
  destruct (tss_descriptor_decodes (at_tss adr) (sizeof_tss - 1) Ht ltac:(done)) as [Eb El]. cbv zeta in Eb, El.
  split_and!; try done.
  - intros v Hv. unfold interrupt_entry. rewrite Egates by done. unfold expected_gate. destruct (stub_of v) as [stub|]; [|done].
    cbv zeta. cbn [type_attributes gate_for selector gate_ist]. change (Z.testbit 0x8E 7 && (0x8E & 0xF =? 0xE)) with true. cbv iota.
    rewrite gate_for_offset by apply Hstub. by destruct (v =? 8).
  - intros v Hv. split; [|by apply Ehandlers]. rewrite Egates by done. unfold expected_gate. by destruct (stub_of v).
  - cbn [tss_ist]. rewrite zget_zset_eq by done. unfold u64. apply Z.mod_small. unfold UINT64_MAX, DOUBLE_FAULT_STACK_BYTES in *. lia.
  - by rewrite E14 by (done || lia).
  - by rewrite E8 by (done || lia).
Qed.

(** ** System calls *)

(** The model-specific registers hold what is written to them. *)
Class MsrFile (msr : D -> Z -> Z) := {
  msr_read : forall hw a, hw_rdmsr hw a = (msr hw a, hw);
  msr_write : forall hw a v b, msr (hw_wrmsr hw a v) b = if b =? a then v else msr hw b }.

(** The selectors [syscall] and [sysretq] load, from the STAR register. *)
Definition syscall_code (star : Z) : Z := (star >> 32) & 0xFFFC.
Definition syscall_stack (star : Z) : Z := u16 (star >> 32) + 8.
Definition sysret_code (star : Z) : Z := Z.lor (u16 (star >> 48) + 16) 3.
Definition sysret_stack (star : Z) : Z := Z.lor (u16 (star >> 48) + 8) 3.

Context (msr : D -> Z -> Z) `{!MsrFile msr}.

Lemma rdmsr_msr hw a : cpu_rdmsr hw a = (u64 (msr hw a), hw).
Proof using MsrFile0. unfold cpu_rdmsr. by rewrite msr_read. Qed.
Lemma wrmsr_msr hw a v b : msr (cpu_wrmsr hw a v) b = if b =? a then u64 v else msr hw b.
Proof using MsrFile0. unfold cpu_wrmsr. apply msr_write. Qed.

(** [arch_syscall_init] refuses a kernel stack that is null or not aligned to
    16 bytes, and then changes nothing; otherwise it succeeds, with the same stack
    for interrupts and system calls; system calls enter at [syscall_entry] in the
    kernel's segments with interrupts off and the direction flag clear, and return
    to the 64-bit code and the data segment of programs. *)
Theorem arch_syscall_init_exact s c hw top :
  length (gdt s) = 7%nat -> length (tss_rsp (tss s)) = 3%nat -> u64_address top -> u64_address (at_syscall_entry adr) ->
  let '(ok, s', hw') := arch_syscall_init s hw top in
  ok = (negb (top =? 0) && (top mod 16 =? 0)) /\
  if ok
  then zget 0 (tss_rsp (tss s')) 0 = top /\ syscall_kernel_rsp s' = top /\ gdt s' = gdt s /\ idt s' = idt s /\
       Z.testbit (msr hw' IA32_EFER_MSR) 0 = true /\ msr hw' IA32_LSTAR_MSR = at_syscall_entry adr /\
       Z.testbit (msr hw' IA32_FMASK_MSR) 9 = true /\ Z.testbit (msr hw' IA32_FMASK_MSR) 10 = true /\
       let star := msr hw' IA32_STAR_MSR in
       let table := gdt (arch_init s c).1.2 in
       segment_at table (syscall_code star) = Code 0 true /\ segment_at table (syscall_stack star) = Data 0 /\
       segment_at table (sysret_code star) = Code 3 true /\ segment_at table (sysret_stack star) = Data 3 /\
       sysret_code star = Z.lor USER_CODE_SELECTOR 3 /\ sysret_stack star = Z.lor USER_DATA_SELECTOR 3
  else s' = s /\ hw' = hw.
Proof using MsrFile0.
  intros Hg Hr Ht He. unfold arch_syscall_init. change 0xF with (Z.ones 4). rewrite Z.land_ones by lia. change (2 ^ 4) with 16. unfold nz.
  destruct (top =? 0); cbn [negb orb andb]; [done|]. destruct (top mod 16 =? 0); cbn [negb]; [|done].
  rewrite rdmsr_msr. cbv zeta. rewrite rdmsr_msr. rewrite !wrmsr_msr. change (USER_CODE_SELECTOR =? USER_DATA_SELECTOR + 8) with true. cbn -[u64 Z.lor Z.land segment_at arch_init gdt].
  assert (Z.testbit (u64 (Z.lor (u64 (msr hw IA32_EFER_MSR)) EFER_SYSCALL_ENABLE)) 0 = true) as Hen.
  { unfold u64. change 18446744073709551616 with (2 ^ 64). rewrite Z.mod_pow2_bits_low by lia. rewrite Z.lor_spec. change (Z.testbit EFER_SYSCALL_ENABLE 0) with true. by rewrite orb_true_r. }
  set (efer := u64 (Z.lor _ EFER_SYSCALL_ENABLE)) in *. rewrite (u64_id efer) by apply u64_range.
  assert ((efer & EFER_SYSCALL_ENABLE =? 0) = false) as ->.
  { pose proof (nz_land_bit efer 0 ltac:(lia)) as E. rewrite Hen in E. by apply negb_true_iff in E. }
  cbn [negb andb]. rewrite (u64_id (at_syscall_entry adr)) by apply He. rewrite arch_init_gdt by done.
  split_and!; first [reflexivity | exact Hen | apply zget_zset_eq; lia].
Qed.

End arch.

(** ** A processor *)

(** The registers of a processor with nothing attached. *)
Definition msr_board : Type := list (Z * Z).
Definition msr_at (b : msr_board) (a : Z) : Z := default 0 (list_find (fun p => p.1 = a) b ≫= fun r => Some r.2.2).
#[export] Instance msr_hardware : Hardware msr_board := {|
  hw_in8 b _ := (0xFF, b); hw_out8 b _ _ := b; hw_in32 b _ := (UINT32_MAX, b); hw_out16 b _ _ := b; hw_out32 b _ _ := b;
  hw_rdmsr b a := (msr_at b a, b);
  hw_wrmsr b a v := (a, v) :: b;
  hw_load32 b _ := (0, b); hw_store32 b _ _ := b |}.
#[export] Instance msr_board_file : MsrFile msr_at.
Proof.
  constructor; [done|]. intros hw a v b. unfold msr_at. cbn [hw_wrmsr msr_hardware list_find]. cbn [fst].
  destruct (Z.eqb_spec b a) as [->|Hn]; [by rewrite decide_True|]. rewrite decide_False by done.
  destruct (list_find _ hw) as [[i p]|]; done.
Qed.

Definition sample_addresses : arch_addresses := mk_addresses 0x200000 0x201000 0x202000 0x203000 (map (fun i => 0x100000 + 16 * i) (zrange 0 36)) 0x110000.
Definition sample_cpu : cpu_state (D := msr_board) := mk_cpu (mk_pointer 0 0) (mk_pointer 0 0) 0 0 0 [].

Lemma arch_init_tables_witness :
  let '(ok, s', c') := arch_init sample_addresses arch0 sample_cpu in
  ok = true /\ interrupt_entry (idt s') 8 = Some (8, 0x100080, 1).
Proof.
  pose proof (arch_init_tables sample_addresses arch0 sample_cpu eq_refl eq_refl eq_refl) as H.
  destruct (arch_init sample_addresses arch0 sample_cpu) as [[ok s'] c'] eqn:E.
  destruct H as (Hok & He & _ & _ & _ & _ & _ & _ & _ & _ & _ & _ & _).
  - split; vm_compute; discriminate.
  - apply Forall_forall. intros a Ha. apply list_elem_of_In, in_map_iff in Ha as (i & <- & Hi). apply list_elem_of_In, elem_of_zrange in Hi.
    unfold u64_address, UINT64_MAX. lia.
  - split; vm_compute; discriminate.
  - split; [exact Hok|]. rewrite He by lia. replace (code_selector c') with 8; [reflexivity|].
    change c' with (snd (ok, s', c')). rewrite <- E. reflexivity.
Defined.

Lemma arch_syscall_init_exact_witness :
  let '(ok, s', hw') := arch_syscall_init sample_addresses arch0 [] 0x300000 in
  ok = true /\ syscall_kernel_rsp s' = 0x300000 /\ sysret_code (msr_at hw' IA32_STAR_MSR) = 0x23.
Proof.
  pose proof (arch_syscall_init_exact sample_addresses msr_at arch0 sample_cpu [] 0x300000 eq_refl eq_refl) as H.
  destruct (arch_syscall_init _ _ _ _) as [[ok s'] hw'].
  destruct H as [Hok H]; [split; vm_compute; discriminate..|]. change (_ && _) with true in Hok. rewrite Hok in H.
  destruct H as (_ & Hr & _ & _ & _ & _ & _ & _ & H). cbv zeta in H. destruct H as (_ & _ & _ & _ & Hs & _).
  split_and!; [exact Hok|exact Hr|]. rewrite Hs. reflexivity.
Defined.
