(* ===== verification/Shell.v ===== *)
(** * The kernel shell (src/kernel_shell.c)

    The command interpreter and the main loop of the kernel.  The shell calls
    nearly every other component; [K.kcall] lists the functions it calls, each with
    the type of its result (out-parameters are part of the result), and [Kernel]
    is a machine that answers them.  Commands are programs in a state monad over
    such a machine. *)

From stdpp Require Import base list gmap numbers strings.
From Stdlib Require Import ZArith Lia.
From S2P Require Import Prelude Memory Anonymity BootInfo Paging Process Scheduler Pci Module Net Files.

Open Scope Z_scope.

(** A string of the source, with its escapes. *)
Fixpoint unescape (t : list Z) : list Z :=
  match t with
  | 92 :: 110 :: t' => 10 :: unescape t'
  | 92 :: 98 :: t' => 8 :: unescape t'
  | c :: t' => c :: unescape t'
  | [] => []
  end.
Definition c_string (s : string) : list Z := unescape (text s).

(** The text a pointer to characters stands for. *)
Fixpoint c_str (t : list Z) : list Z :=
  match t with [] => [] | c :: t' => if c =? 0 then [] else c :: c_str t' end.

(** ** Text *)

(** A pointer into a string is the rest of it; past the end there are zeros. *)
Fixpoint strings_equal (a b : list Z) : bool :=
  match a, b with
  | x :: a', y :: b' =>
      if nz x && nz y && (x =? y) then strings_equal a' b' else (x =? 0) && (y =? 0)
  | _, _ => (hd 0 a =? 0) && (hd 0 b =? 0)
  end.

Fixpoint starts_with (t prefix : list Z) : bool :=
  match prefix with
  | [] => true
  | p :: prefix' =>
      if p =? 0 then true
      else if hd 0 t !=? p then false else starts_with (tl t) prefix'
  end.

Fixpoint parse_digits (t : list Z) (value : Z) : option Z :=
  match t with
  | [] => Some value
  | c :: t' =>
      if c =? 0 then Some value
      else if (c <? 48) || (57 <? c) then None
      else
        let digit := c - 48 in
        if (UINT64_MAX - digit) / 10 <? value then None
        else parse_digits t' (u64 (u64 (value * 10) + digit))
  end.
Definition parse_u64 (t : list Z) : option Z := if hd 0 t =? 0 then None else parse_digits t 0.

Definition app_id_from_name (name : list Z) : Z :=
  if strings_equal name (text "snake") then ARGUS_APP_ID_SNAKE
  else if strings_equal name (text "calc") || strings_equal name (text "calculator") then ARGUS_APP_ID_CALCULATOR
  else if strings_equal name (text "notes") then ARGUS_APP_ID_NOTES
  else 0.

Definition process_state_name (state : argus_process_state_t) : list Z :=
  match state with
  | ARGUS_PROCESS_READY => text "ready"
  | ARGUS_PROCESS_RUNNING => text "running"
  | ARGUS_PROCESS_BLOCKED => text "waiting"
  | ARGUS_PROCESS_EXITED => text "exited"
  | ARGUS_PROCESS_FAULTED => text "faulted"
  | _ => text "stopped"
  end.

(** ** The functions the shell calls

    Strings are passed as their text, without the terminating zero, and the bytes
    of a file as the bytes themselves. *)

Module K.
Inductive kcall : Type -> Type :=
(* kconsole.h, serial.h *)
| kconsole_write (s : list Z) : kcall unit
| kconsole_putc (c : Z) : kcall unit
| kconsole_write_dec (value : Z) : kcall unit
| kconsole_write_hex (value : Z) : kcall unit
| kconsole_clear : kcall unit
| serial_write (s : list Z) : kcall unit
(* pmm.h, heap.h, and the bytes of an allocation *)
| pmm_managed_pages : kcall Z
| pmm_free_pages : kcall Z
| pmm_self_test : kcall bool
| heap_total_bytes : kcall Z
| heap_used_bytes : kcall Z
| heap_free_bytes : kcall Z
| heap_self_test : kcall bool
| kmalloc (size : Z) : kcall Z
| kfree (allocation : Z) : kcall bool
| store_byte (address value : Z) : kcall unit
| load_byte (address : Z) : kcall Z
(* module.h *)
| module_count : kcall Z
| module_name_at (index : Z) : kcall (list Z)
| module_abi_version_at (index : Z) : kcall Z
(* process.h *)
| process_count : kcall Z
| process_completed_count : kcall Z
| process_syscall_count : kcall Z
| process_yield_count : kcall Z
| process_context_switch_count : kcall Z
| process_fault_count : kcall Z
| process_preemption_count : kcall Z
| process_wait_count : kcall Z
| process_wakeup_count : kcall Z
| process_raw_network_capability_count : kcall Z
| process_anonymous_stream_capability_count : kcall Z
| process_network_denial_count : kcall Z
| process_address_space_isolated : kcall bool
| process_scheduler_online : kcall bool
| process_security_boundaries_online : kcall bool
| process_app_count : kcall Z
| process_app_online (app_id : Z) : kcall bool
| process_app_input_count (app_id : Z) : kcall Z
| process_app_surface (app_id : Z) : kcall (option Z)
| process_app_start (app_id : Z) : kcall bool
| process_app_stop (app_id : Z) : kcall bool
| process_app_restart (app_id : Z) : kcall bool
| process_app_status (app_id : Z) : kcall (option argus_process_app_status_t)
| process_run_ready_once : kcall bool
(* anonymity.h, net.h *)
| anonymity_transport_state : kcall Z
| anonymity_transport_state_name : kcall (list Z)
| anonymity_clearnet_allowed : kcall bool
| anonymity_local_dns_allowed : kcall bool
| net_info : kcall (option net_info_t)
| net_foundation_online : kcall bool
| net_egress_allowed : kcall bool
| net_device_name : kcall (list Z)
| net_core_name : kcall (list Z)
(* ramfs.h, fat32.h: the status, the buffer and the lengths *)
| ramfs_descriptor_name : kcall (option (list Z))
| ramfs_file_count : kcall Z
| ramfs_capacity : kcall Z
| ramfs_max_file_size : kcall Z
| ramfs_entry (index capacity : Z) : kcall (Z * (list Z * Z))
| ramfs_read (path : list Z) (capacity : Z) : kcall (Z * (list Z * Z))
| ramfs_write (path data : list Z) (length : Z) : kcall Z
| ramfs_remove (path : list Z) : kcall Z
| fat32_info : kcall (Z * argus_fat32_info_v1_t)
| fat32_entry (index capacity : Z) : kcall (Z * (list Z * Z * Z))
| fat32_read (path : list Z) (capacity : Z) : kcall (Z * (list Z * Z))
(* pci.h, ahci.h, block.h *)
| pci_info : kcall (option pci_info_t)
| ahci_info : kcall (option (Z * Z * Z * Z * bool))
| block_default_device : kcall (option (list Z * Z * Z))
(* apic.h, input.h *)
| apic_timer_ticks : kcall Z
| input_has_serial : kcall bool
| input_has_keyboard : kcall bool
| input_keyboard_uses_irq : kcall bool
| input_dropped_keys : kcall Z
| input_has_pointer : kcall bool
| input_pointer_uses_irq : kcall bool
| input_pointer_packets : kcall Z
| input_dropped_pointer_events : kcall Z
| input_serial_getc_nonblocking : kcall Z
| input_keyboard_getc_nonblocking : kcall Z
| input_pointer_event_nonblocking : kcall (option (Z * Z * Z))
(* desktop.h *)
| desktop_init : kcall bool
| desktop_present : kcall bool
| desktop_redraw : kcall bool
| desktop_refresh_apps : kcall unit
| desktop_tick (ticks : Z) : kcall unit
| desktop_key_event (key : Z) : kcall bool
| desktop_pointer_event (dx dy buttons : Z) : kcall unit
| desktop_pointer_hide : kcall unit
| desktop_pointer_set_enabled (enabled : bool) : kcall unit
| desktop_focus_app (name : list Z) : kcall bool
| desktop_surface_count : kcall Z
| desktop_visible_window_count : kcall Z
| desktop_active_app : kcall (list Z)
| desktop_single_window_mode : kcall bool
| desktop_compositor_frames : kcall Z
| desktop_compositor_valid : kcall bool
| desktop_pointer_x : kcall Z
| desktop_pointer_y : kcall Z
| desktop_pointer_confined : kcall bool
| desktop_window_x : kcall Z
| desktop_window_y : kcall Z
| desktop_drag_moves : kcall Z
| desktop_damage_pixels : kcall Z
| desktop_last_damage_count : kcall Z
(* cpu.S: [int3] traps, and the answer is the instruction pointer the trap reports *)
| cpu_trigger_breakpoint : kcall Z
(* kernel.c: what it prints; it does not return *)
| kernel_exception_panic (vector error_code instruction_pointer fault_address : Z) : kcall unit
| cpu_wait_for_interrupt : kcall unit.
End K.

Class Kernel (M : Type) := { answer : forall {T}, K.kcall T -> M -> T * M }.

(** A command returns, or stops the processor. *)
Inductive command_outcome (A : Type) := Returned (a : A) | HaltedForever.
Arguments Returned {A}.
Arguments HaltedForever {A}.

Section shell.
Context {M : Type} `{Kernel M}.

Definition shell (A : Type) : Type := M -> command_outcome A * M.
#[export] Instance shell_ret : MRet shell := fun A a m => (Returned a, m).
#[export] Instance shell_bind : MBind shell := fun A B f c m =>
  match c m with (Returned a, m) => f a m | (HaltedForever, m) => (HaltedForever, m) end.

Definition call {T} (c : K.kcall T) : shell T := fun m => let '(v, m) := answer c m in (Returned v, m).
Definition cpu_halt_forever : shell unit := fun m => (HaltedForever, m).

Definition write (s : string) : shell unit := call (K.kconsole_write (c_string s)).
Definition write_text (t : list Z) : shell unit := call (K.kconsole_write (c_str t)).
Definition write_dec (value : Z) : shell unit := call (K.kconsole_write_dec value).
Definition write_hex (value : Z) : shell unit := call (K.kconsole_write_hex value).
Definition putc (c : Z) : shell unit := call (K.kconsole_putc c).
(** [kconsole_write(condition ? yes : no)] *)
Definition write_if (condition : bool) (yes no : string) : shell unit := write (if condition then yes else no).

(** [cpu_trigger_breakpoint()]: the trap enters [interrupt_dispatch] (src/arch.c) in
    kernel mode on vector 3, which has no error code and no registered handler; it
    ends in [kernel_exception_panic] and does not come back. *)
Definition breakpoint : shell unit :=
  rip ← call K.cpu_trigger_breakpoint;
  call (K.kernel_exception_panic 3 0 rip 0);;
  cpu_halt_forever.

(** ** Status commands *)

Definition help_lines : list string :=
  ["\nKernel commands:\n";
   "  help         command list\n";
   "  status       kernel/platform summary\n";
   "  mem          physical-page statistics\n";
   "  heap         heap statistics\n";
   "  heaptest     rerun allocator checks\n";
   "  memtest      rerun PMM + heap hardening tests\n";
   "  alloc N      allocate, verify, and free N bytes\n";
   "  modules      validated kernel modules\n";
   "  processes    user process and scheduler state\n";
   "  security     capability and anonymity policy\n";
   "  network      quarantined NIC and Rust packet core\n";
   "  snake        C++ user game state\n";
   "  userapps     ring-3 application state\n";
   "  appstart N   start snake, calc, or notes\n";
   "  appstop N    stop snake, calc, or notes\n";
   "  apprestart N restart snake, calc, or notes\n";
   "  fs           Rust RAMFS statistics\n";
   "  ls           list RAMFS files\n";
   "  cat PATH     print a RAMFS file\n";
   "  write P TEXT create or replace a RAMFS file\n";
   "  rm PATH      remove a RAMFS file\n";
   "  pci          PCI discovery summary\n";
   "  ahci         SATA controller statistics\n";
   "  disks        block-device statistics\n";
   "  fatinfo      mounted FAT32 geometry\n";
   "  fatls        list FAT32 root files\n";
   "  fatcat PATH  print a FAT32 root file\n";
   "  ticks        local-APIC timer ticks\n";
   "  input        native input backends\n";
   "  irqtest      confirm IRQ keyboard command delivery\n";
   "  apps         surfaces and active application\n";
   "  focus NAME   focus an installed desktop application\n";
   "  ui           pointer and compositor state\n";
   "  desktop      redraw the framebuffer desktop\n";
   "  clear        clear framebuffer/terminal\n";
   "  echo TEXT    print text\n";
   "  fault        trigger breakpoint diagnostics\n";
   "  halt         stop the CPU\n\n"]%string.

Fixpoint write_lines (lines : list string) : shell unit :=
  match lines with [] => mret tt | l :: lines' => write l;; write_lines lines' end.
Definition print_help : shell unit := write_lines help_lines.

Definition print_status (boot_info : boot_info_t) (acpi : acpi_info_t) (paging : paging_info_t) : shell unit :=
  write "\nArgusOS kernel v0.22\n";;
  write "Boot Services: exited\nCPUs: ";;
  write_dec (acpi_enabled_cpu_count acpi);;
  write "\nCR3: ";;
  write_hex (pi_root_table paging);;
  write "\nNX: ";;
  write_if (pi_nx_enabled paging) "enabled" "unavailable";;
  write "\nStack guard: ";;
  write_hex (pi_stack_guard_page paging);;
  write "\nFramebuffer: ";;
  (if nz (fb_usable (bi_framebuffer boot_info)) then
     write_dec (fb_width (bi_framebuffer boot_info));;
     putc 120;;
     write_dec (fb_height (bi_framebuffer boot_info))
   else write "unavailable");;
  write "\nSTATUS_OK\n".

(** [for (i = index; n more; ++i) body(i);] *)
Fixpoint shell_loop (n : nat) (index : Z) (body : Z -> shell unit) : shell unit :=
  match n with O => mret tt | S n' => body index;; shell_loop n' (index + 1) body end.

Definition print_module (i : Z) : shell unit :=
  write "  ";;
  name ← call (K.module_name_at i);
  write_text name;;
  write " (ABI ";;
  version ← call (K.module_abi_version_at i);
  write_dec version;;
  write ")\n".

Definition print_modules : shell unit :=
  count ← call K.module_count;
  write "Loaded modules: ";;
  write_dec count;;
  write "\n";;
  shell_loop (Z.to_nat count) 0 print_module;;
  write "MODULES_OK\n".

Definition print_snake_status : shell unit :=
  online ← call (K.process_app_online ARGUS_APP_ID_SNAKE);
  surface ← (if (online : bool) then call (K.process_app_surface ARGUS_APP_ID_SNAKE) else mret None);
  match surface with
  | None => write "Snake user app: unavailable\nSNAKE_FRAME_FAIL\n"
  | Some sequence =>
      write "Snake user app: C++ ring 3\nFrame: ";;
      write_dec sequence;;
      write "\nInputs delivered: ";;
      inputs ← call (K.process_app_input_count ARGUS_APP_ID_SNAKE);
      write_dec inputs;;
      inputs ← call (K.process_app_input_count ARGUS_APP_ID_SNAKE);
      write_if (nz inputs) "\nSNAKE_INPUT_OK\n" "\nSNAKE_INPUT_IDLE\n";;
      write "CPP_USER_APP_OK\nSNAKE_FRAME_OK\n"
  end.

Definition print_user_apps : shell unit :=
  write "User applications: ";;
  count ← call K.process_app_count;
  write_dec count;;
  write "\nSnake: ";;
  online ← call (K.process_app_online ARGUS_APP_ID_SNAKE);
  write_if online "online" "offline";;
  write "\nCalculator: ";;
  online ← call (K.process_app_online ARGUS_APP_ID_CALCULATOR);
  write_if online "online" "offline";;
  write "\nNotes: ";;
  online ← call (K.process_app_online ARGUS_APP_ID_NOTES);
  write_if online "online" "offline";;
  write "\nCalculator inputs: ";;
  inputs ← call (K.process_app_input_count ARGUS_APP_ID_CALCULATOR);
  write_dec inputs;;
  inputs ← call (K.process_app_input_count ARGUS_APP_ID_CALCULATOR);
  write_if (nz inputs) "\nCALCULATOR_INPUT_OK" "\nCALCULATOR_INPUT_IDLE";;
  write "\nNotes inputs: ";;
  inputs ← call (K.process_app_input_count ARGUS_APP_ID_NOTES);
  write_dec inputs;;
  inputs ← call (K.process_app_input_count ARGUS_APP_ID_NOTES);
  write_if (nz inputs) "\nNOTES_INPUT_OK" "\nNOTES_INPUT_IDLE";;
  write "\nAPP_SURFACE_ABI_OK\nUSER_APPS_OK\n".

(** [a && b] of two calls: the second is made only if the first held. *)
Definition call_and (a b : shell bool) : shell bool := x ← a; if (x : bool) then b else mret false.
Definition call_not (a : shell bool) : shell bool := x ← a; mret (negb x).

Definition print_security_status : shell unit :=
  write "Security boundary: ";;
  online ← call K.process_security_boundaries_online;
  write_if online "online" "invalid";;
  write "\nCapability policy: default deny";;
  write "\nAnonymous transport: ";;
  name ← call K.anonymity_transport_state_name;
  write_text name;;
  write " (fail closed)";;
  write "\nClearnet: ";;
  clearnet ← call K.anonymity_clearnet_allowed;
  write_if clearnet "allowed" "denied";;
  write "\nLocal DNS: ";;
  dns ← call K.anonymity_local_dns_allowed;
  write_if dns "allowed" "denied";;
  write "\nProcess raw network capabilities: ";;
  n ← call K.process_raw_network_capability_count;
  write_dec n;;
  write "\nProcess anonymous stream capabilities: ";;
  n ← call K.process_anonymous_stream_capability_count;
  write_dec n;;
  write "\nDenied connection attempts: ";;
  n ← call K.process_network_denial_count;
  write_dec n;;
  write "\nNetwork egress: ";;
  egress ← call K.net_egress_allowed;
  write_if egress "allowed" "disabled";;
  ok ← call_and (call K.process_security_boundaries_online)
         (call_and (state ← call K.anonymity_transport_state; mret (state =? ARGUS_ANON_TRANSPORT_OFFLINE))
         (call_and (call_not (call K.anonymity_clearnet_allowed))
         (call_and (call_not (call K.anonymity_local_dns_allowed))
         (call_and (call K.net_foundation_online) (call_not (call K.net_egress_allowed))))));
  write_if ok "\nSECURITY_POLICY_OK\n" "\nSECURITY_POLICY_FAIL\n".

Definition print_network_status : shell unit :=
  info ← call K.net_info;
  match info with
  | None => write "Network foundation: unavailable\nNETWORK_FOUNDATION_FAIL\n"
  | Some info =>
      write "Network foundation: ";;
      online ← call K.net_foundation_online;
      write_if online "online" "invalid";;
      write "\nDiscovered NICs: ";;
      write_dec (ni_device_count info);;
      write "\nDevice: ";;
      name ← call K.net_device_name;
      write_text name;;
      (if ni_present info then
         write "\nBDF: ";;
         write_hex (ni_bus info);;
         putc 58;;
         write_hex (ni_device info);;
         putc 46;;
         write_dec (ni_function info);;
         write "\nVendor/device: ";;
         write_hex (ni_vendor_id info);;
         putc 47;;
         write_hex (ni_device_id info)
       else mret tt);;
      write "\nOwner: ";;
      write_if (ni_present info && ni_virtio_modern info) "Tor transport reservation" "none";;
      write "\nPCI state: ";;
      write (if negb (ni_present info) then "absent" else if ni_quarantined info then "quarantined" else "not quarantined");;
      write "\nDMA: ";;
      write_if (ni_dma_enabled info) "enabled" "disabled";;
      write "\nNIC interrupts: ";;
      write_if (ni_quarantined info) "disabled" "not isolated";;
      write "\nEgress: ";;
      egress ← call K.net_egress_allowed;
      write_if egress "allowed" "disabled";;
      write "\nRust core: ";;
      name ← call K.net_core_name;
      write_text name;;
      write "\nMaximum frame: ";;
      write_dec (ni_max_frame info);;
      write " bytes\nQueue capacity: ";;
      write_dec (ni_queue_capacity info);;
      write " frames per direction";;
      ok ← call_and (call K.net_foundation_online) (call_not (call K.net_egress_allowed));
      write_if ok "\nNETWORK_FOUNDATION_OK\n" "\nNETWORK_FOUNDATION_FAIL\n"
  end.

(** ** Applications *)

Definition app_lifecycle (name : list Z) (operation : Z) : shell unit :=
  let app_id := app_id_from_name name in
  if negb (nz app_id) then write "usage: appstart, appstop, or apprestart snake|calc|notes\n"
  else
    result ← (if operation =? 1 then call (K.process_app_start app_id)
              else if operation =? 2 then call (K.process_app_stop app_id)
              else call (K.process_app_restart app_id));
    if negb result then write "APP_LIFECYCLE_FAIL\n"
    else
      call K.desktop_refresh_apps;;
      status ← call (K.process_app_status app_id);
      match status with
      | None => write "APP_LIFECYCLE_FAIL\n"
      | Some status =>
          write "App state: ";;
          write_text (process_state_name (st_state status));;
          (if nz (st_pid status) then write "\nPID: ";; write_dec (st_pid status) else mret tt);;
          (if bool_decide (st_state status = ARGUS_PROCESS_FAULTED) then
             write "\nFault vector: ";;
             write_dec (fault_vector (st_fault status));;
             write "\nFault RIP: ";;
             write_hex (fault_rip (st_fault status))
           else mret tt);;
          write "\nAPP_LIFECYCLE_OK\n"
      end.

(** ** Files *)

Definition print_ramfs_error (status : Z) : shell unit :=
  write "RAMFS error: ";;
  (if status =? ARGUS_RAMFS_NOT_FOUND then write "not found"
   else if status =? ARGUS_RAMFS_INVALID then write "invalid path or argument"
   else if status =? ARGUS_RAMFS_NO_SPACE then write "capacity exhausted"
   else if status =? ARGUS_RAMFS_BUFFER_TOO_SMALL then write "buffer too small"
   else write "ABI failure");;
  write "\n".

Definition print_ramfs_status : shell unit :=
  name ← call K.ramfs_descriptor_name;
  write "Driver: ";;
  write_text (default (text "unavailable") name);;
  write "\nFiles: ";;
  n ← call K.ramfs_file_count;
  write_dec n;;
  write " / ";;
  n ← call K.ramfs_capacity;
  write_dec n;;
  write "\nMaximum file bytes: ";;
  n ← call K.ramfs_max_file_size;
  write_dec n;;
  write "\nRAMFS_STATUS_OK\n".

(** The loop of [list_ramfs] and what follows it; an error returns. *)
Fixpoint list_ramfs_from (n : nat) (index : Z) : shell unit :=
  match n with
  | O => write "RAMFS_LIST_OK\n"
  | S n' =>
      r ← call (K.ramfs_entry index (ARGUS_RAMFS_MAX_PATH + 1));
      let '(status, (path, data_length)) := r : Z * (list Z * Z) in
      if status !=? ARGUS_RAMFS_OK then print_ramfs_error status
      else
        write_text path;;
        write "  ";;
        write_dec data_length;;
        write " bytes\n";;
        list_ramfs_from n' (index + 1)
  end.
Definition list_ramfs : shell unit := count ← call K.ramfs_file_count; list_ramfs_from (Z.to_nat count) 0.

(** What [cat] shows of a byte. *)
Definition shown_byte (byte : Z) : Z :=
  if (byte =? 10) || (byte =? 9) || ((32 <=? byte) && (byte <=? 126)) then byte else 46.

Definition show_file (data : list Z) (length : Z) : shell unit :=
  shell_loop (Z.to_nat length) 0 (fun index => putc (shown_byte (u8 (zget 0 data index))));;
  (if negb (nz length) || (u8 (zget 0 data (length - 1)) !=? 10) then putc 10 else mret tt).

Definition cat_ramfs (path : list Z) : shell unit :=
  r ← call (K.ramfs_read (c_str path) ARGUS_RAMFS_MAX_DATA);
  let '(status, (data, length)) := r : Z * (list Z * Z) in
  if status !=? ARGUS_RAMFS_OK then print_ramfs_error status
  else show_file data length;; write "RAMFS_CAT_OK\n".

(** The characters before the first space or the end. *)
Fixpoint word_length (t : list Z) : nat :=
  match t with [] => O | c :: t' => if (c =? 0) || (c =? 32) then O else S (word_length t') end.

(** [while (length <= ARGUS_RAMFS_MAX_DATA && data[length]) ++length;]: the text, counted
    up to [n] characters. *)
Fixpoint data_length (n : nat) (data : list Z) : Z :=
  match n, data with
  | S n', c :: data' => if c =? 0 then 0 else 1 + data_length n' data'
  | _, _ => 0
  end.

(** The zero put in place of the space ends the path; the buffer is written anew
    before it is read again. *)
Definition write_ramfs (arguments : list Z) : shell unit :=
  let separator := word_length arguments in
  if (Nat.eqb separator 0) || (nth separator arguments 0 =? 0) then write "usage: write PATH TEXT\n"
  else
    let path := take separator arguments in
    let data := drop (S separator) arguments in
    let length := data_length (Z.to_nat (ARGUS_RAMFS_MAX_DATA + 1)) data in
    status ← (if ARGUS_RAMFS_MAX_DATA <? length then mret ARGUS_RAMFS_NO_SPACE else call (K.ramfs_write path (take (Z.to_nat length) data) length));
    if status =? ARGUS_RAMFS_OK then call K.desktop_refresh_apps;; write "RAMFS_WRITE_OK\n" else print_ramfs_error status.

Definition remove_ramfs (path : list Z) : shell unit :=
  status ← call (K.ramfs_remove (c_str path));
  if status =? ARGUS_RAMFS_OK then call K.desktop_refresh_apps;; write "RAMFS_REMOVE_OK\n" else print_ramfs_error status.

Definition ARGUS_FAT32_UNSUPPORTED : Z := -3.
Definition ARGUS_FAT32_IO_ERROR : Z := -5.

Definition print_fat32_error (status : Z) : shell unit :=
  write "FAT32 error: ";;
  (if status =? ARGUS_FAT32_NOT_FOUND then write "not found"
   else if status =? ARGUS_FAT32_INVALID then write "invalid path or argument"
   else if status =? ARGUS_FAT32_UNSUPPORTED then write "unsupported feature"
   else if status =? ARGUS_FAT32_CORRUPT then write "corrupt filesystem"
   else if status =? ARGUS_FAT32_IO_ERROR then write "block I/O failure"
   else if status =? ARGUS_FAT32_BUFFER_TOO_SMALL then write "file too large"
   else write "ABI failure");;
  write "\n".

(** ** Devices *)

Definition print_pci : shell unit :=
  info ← call K.pci_info;
  match info with
  | None => write "PCI unavailable.\n"
  | Some info =>
      write "PCI functions: ";;
      write_dec (device_count info);;
      write "\nAHCI controllers: ";;
      write_dec (ahci_count info);;
      write "\nNetwork controllers: ";;
      write_dec (network_count info);;
      write "\nQuarantined network controllers: ";;
      write_dec (network_quarantined_count info);;
      (if nz (ahci_count info) then
         write "\nFirst AHCI BDF: ";;
         write_hex (pd_bus (first_ahci info));;
         putc 58;;
         write_hex (pd_device (first_ahci info));;
         putc 46;;
         write_dec (pd_function (first_ahci info));;
         write "\nVendor/device: ";;
         write_hex (pd_vendor_id (first_ahci info));;
         putc 47;;
         write_hex (pd_device_id (first_ahci info))
       else mret tt);;
      write "\nPCI_STATUS_OK\n"
  end.

(** The fields it uses of the controller's description: the register base, the
    version, the port, the sectors and the DMA width. *)
Definition print_ahci : shell unit :=
  info ← call K.ahci_info;
  match info with
  | None => write "AHCI unavailable.\n"
  | Some (abar, version, port, sector_count, supports_64bit_dma) =>
      write "ABAR: ";;
      write_hex abar;;
      write "\nVersion: ";;
      write_hex version;;
      write "\nPort: ";;
      write_dec port;;
      write "\nSectors: ";;
      write_dec sector_count;;
      write "\n64-bit DMA: ";;
      write_if supports_64bit_dma "yes" "no";;
      write "\nAHCI_STATUS_OK\n"
  end.

(** The name, the sector size and the number of sectors. *)
Definition print_disks : shell unit :=
  device ← call K.block_default_device;
  match device with
  | None => write "No block device.\n"
  | Some (name, sector_size, sector_count) =>
      write "Device: ";;
      write_text name;;
      write "\nSector bytes: ";;
      write_dec sector_size;;
      write "\nSectors: ";;
      write_dec sector_count;;
      write "\nBLOCK_STATUS_OK\n"
  end.

Definition print_fat32_info : shell unit :=
  r ← call K.fat32_info;
  let '(status, info) := r : Z * argus_fat32_info_v1_t in
  if status !=? ARGUS_FAT32_OK then print_fat32_error status
  else
    write "Bytes/sector: ";;
    write_dec (fi_bytes_per_sector info);;
    write "\nSectors/cluster: ";;
    write_dec (fi_sectors_per_cluster info);;
    write "\nData clusters: ";;
    write_dec (fi_data_clusters info);;
    write "\nRoot cluster: ";;
    write_dec (fi_root_cluster info);;
    write "\nFAT32_STATUS_OK\n".

(** The loop of [list_fat32] and what follows it. *)
Fixpoint list_fat32_from (n : nat) (index : Z) : shell unit :=
  match n with
  | O => write "FAT32 error: root listing limit reached\n"
  | S n' =>
      r ← call (K.fat32_entry index (ARGUS_FAT32_MAX_PATH + 1));
      let '(status, (path, file_size, attributes)) := r : Z * (list Z * Z * Z) in
      if status =? ARGUS_FAT32_NOT_FOUND then write "FAT32_LIST_OK\n"
      else if status !=? ARGUS_FAT32_OK then print_fat32_error status
      else
        write_text path;;
        write "  ";;
        write_dec file_size;;
        write_if (nz (attributes & 0x10)) " bytes [dir]\n" " bytes\n";;
        list_fat32_from n' (index + 1)
  end.
Definition list_fat32 : shell unit := list_fat32_from 128 0.

Definition cat_fat32 (path : list Z) : shell unit :=
  r ← call (K.fat32_read (c_str path) ARGUS_FAT32_MAX_READ);
  let '(status, (data, length)) := r : Z * (list Z * Z) in
  if status !=? ARGUS_FAT32_OK then print_fat32_error status
  else show_file data length;; write "FAT32_CAT_OK\n".

(** ** Memory *)

Definition print_memory : shell unit :=
  write "Managed pages: ";;
  n ← call K.pmm_managed_pages;
  write_dec n;;
  write "\nFree pages: ";;
  n ← call K.pmm_free_pages;
  write_dec n;;
  write "\n".

Definition print_heap : shell unit :=
  write "Heap capacity: ";;
  n ← call K.heap_total_bytes;
  write_dec n;;
  write " bytes\nHeap used: ";;
  n ← call K.heap_used_bytes;
  write_dec n;;
  write " bytes\nHeap free: ";;
  n ← call K.heap_free_bytes;
  write_dec n;;
  write " bytes\nHEAP_STATUS_OK\n".

Definition allocation_probe (argument : list Z) : shell unit :=
  match parse_u64 argument with
  | None => write "usage: alloc BYTES\n"
  | Some size =>
      if negb (nz size) then write "usage: alloc BYTES\n"
      else
        allocation ← call (K.kmalloc size);
        if negb (nz allocation) then write "allocation failed\n"
        else
          call (K.store_byte allocation 0xA6);;
          call (K.store_byte (allocation + (size - 1)) 0x5A);;
          first ← call (K.load_byte allocation);
          valid ← (if first =? 0xA6 then last ← call (K.load_byte (allocation + (size - 1))); mret (last =? 0x5A) else mret false);
          write "Allocation: ";;
          write_hex allocation;;
          write "\n";;
          freed ← call (K.kfree allocation);
          write_if (freed && valid) "ALLOC_OK\n" "ALLOC_CORRUPTION\n"
  end.

(** ** The commands *)

Definition print_processes : shell unit :=
  write "Processes: ";;
  n ← call K.process_count;
  write_dec n;;
  write "\nCompleted: ";;
  n ← call K.process_completed_count;
  write_dec n;;
  write "\nSyscalls: ";;
  n ← call K.process_syscall_count;
  write_dec n;;
  write "\nYields: ";;
  n ← call K.process_yield_count;
  write_dec n;;
  write "\nContext switches: ";;
  n ← call K.process_context_switch_count;
  write_dec n;;
  write "\nContained faults: ";;
  n ← call K.process_fault_count;
  write_dec n;;
  write "\nTimer preemptions: ";;
  n ← call K.process_preemption_count;
  write_dec n;;
  write "\nEvent waits: ";;
  n ← call K.process_wait_count;
  write_dec n;;
  write "\nEvent wakeups: ";;
  n ← call K.process_wakeup_count;
  write_dec n;;
  write "\nAddress spaces: ";;
  isolated ← call K.process_address_space_isolated;
  write_if isolated "isolated" "invalid";;
  write "\nC++ apps: ";;
  n ← call K.process_app_count;
  write_dec n;;
  write " (ring 3)";;
  online ← call K.process_scheduler_online;
  write_if online "\nUSERSPACE_STATUS_OK\n" "\nUSERSPACE_STATUS_FAIL\n".

Definition print_input : shell unit :=
  write "COM1: ";;
  serial ← call K.input_has_serial;
  write_if serial "online" "unavailable";;
  write "\nPS/2 keyboard: ";;
  keyboard ← call K.input_has_keyboard;
  write_if keyboard "online" "unavailable";;
  write "\nPS/2 mode: ";;
  irq ← call K.input_keyboard_uses_irq;
  write_if irq "I/O APIC IRQ" "polling fallback";;
  write "\nDropped keys: ";;
  n ← call K.input_dropped_keys;
  write_dec n;;
  write "\nPS/2 mouse: ";;
  pointer ← call K.input_has_pointer;
  write_if pointer "online" "unavailable";;
  write "\nMouse mode: ";;
  pointer ← call K.input_has_pointer;
  (if negb pointer then write "unavailable"
   else irq ← call K.input_pointer_uses_irq; write_if irq "I/O APIC IRQ" "polling fallback");;
  write "\nMouse packets: ";;
  n ← call K.input_pointer_packets;
  write_dec n;;
  write "\nDropped mouse events: ";;
  n ← call K.input_dropped_pointer_events;
  write_dec n;;
  write "\n".

Definition print_apps : shell unit :=
  write "Surfaces: ";;
  n ← call K.desktop_surface_count;
  write_dec n;;
  write "\nVisible windows: ";;
  n ← call K.desktop_visible_window_count;
  write_dec n;;
  write "\nActive app: ";;
  name ← call K.desktop_active_app;
  write_text name;;
  write "\nSingle-window mode: ";;
  single ← call K.desktop_single_window_mode;
  write_if single "enforced" "invalid";;
  write "\nCompositor frames: ";;
  n ← call K.desktop_compositor_frames;
  write_dec n;;
  valid ← call K.desktop_compositor_valid;
  write_if valid "\nSINGLE_WINDOW_DESKTOP_OK\nCOMPOSITOR_APPS_OK\n" "\nCOMPOSITOR_INVALID\n".

Definition print_ui : shell unit :=
  write "Pointer: ";;
  pointer ← call K.input_has_pointer;
  write_if pointer "online" "unavailable";;
  write "\nPointer position: ";;
  n ← call K.desktop_pointer_x;
  write_dec n;;
  putc 44;;
  n ← call K.desktop_pointer_y;
  write_dec n;;
  confined ← call K.desktop_pointer_confined;
  write_if confined "\nPOINTER_CONFINEMENT_OK" "\nPOINTER_CONFINEMENT_FAIL";;
  write "\nWindow position: ";;
  n ← call K.desktop_window_x;
  write_dec n;;
  putc 44;;
  n ← call K.desktop_window_y;
  write_dec n;;
  write "\nWindow moves: ";;
  n ← call K.desktop_drag_moves;
  write_dec n;;
  n ← call K.desktop_drag_moves;
  write_if (nz n) "\nDESKTOP_DRAG_OK\n" "\nDESKTOP_POINTER_IDLE\n";;
  write "Active app: ";;
  name ← call K.desktop_active_app;
  write_text name;;
  write "\nCompositor frames: ";;
  n ← call K.desktop_compositor_frames;
  write_dec n;;
  write "\nDamage pixels: ";;
  n ← call K.desktop_damage_pixels;
  write_dec n;;
  write "\nLast damage rects: ";;
  n ← call K.desktop_last_damage_count;
  write_dec n;;
  ok ← call_and (call K.desktop_compositor_valid) (n ← call K.desktop_damage_pixels; mret (nz n));
  write_if ok "\nCOMPOSITOR_DAMAGE_OK\n" "\nCOMPOSITOR_DAMAGE_FAIL\n".

(** The comparisons of [execute_command] in their order, each with what it runs. *)
Inductive pattern := Exactly (name : string) | Prefix (name : string).
Definition matches (line : list Z) (p : pattern) : bool :=
  match p with Exactly name => strings_equal line (text name) | Prefix name => starts_with line (text name) end.

Definition command_table (line : list Z) (boot_info : boot_info_t) (acpi : acpi_info_t) (paging : paging_info_t) : list (pattern * shell unit) :=
  [(Exactly "help", print_help);
   (Exactly "status", print_status boot_info acpi paging);
   (Exactly "mem", print_memory);
   (Exactly "heap", print_heap);
   (Exactly "heaptest", ok ← call K.heap_self_test; write_if ok "HEAP_SELF_TEST_PASS\n" "HEAP_SELF_TEST_FAIL\n");
   (Exactly "memtest", ok ← call_and (call K.pmm_self_test) (call K.heap_self_test);
      write_if ok "ALLOCATOR_HARDENING_PASS\n" "ALLOCATOR_HARDENING_FAIL\n");
   (Prefix "alloc ", allocation_probe (drop 6 line));
   (Exactly "modules", print_modules);
   (Exactly "processes", print_processes);
   (Exactly "snake", print_snake_status);
   (Exactly "userapps", print_user_apps);
   (Exactly "security", print_security_status);
   (Exactly "network", print_network_status);
   (Prefix "appstart ", app_lifecycle (drop 9 line) 1);
   (Prefix "appstop ", app_lifecycle (drop 8 line) 2);
   (Prefix "apprestart ", app_lifecycle (drop 11 line) 3);
   (Exactly "fs", print_ramfs_status);
   (Exactly "ls", list_ramfs);
   (Prefix "cat ", cat_ramfs (drop 4 line));
   (Prefix "write ", write_ramfs (drop 6 line));
   (Prefix "rm ", remove_ramfs (drop 3 line));
   (Exactly "pci", print_pci);
   (Exactly "ahci", print_ahci);
   (Exactly "disks", print_disks);
   (Exactly "fatinfo", print_fat32_info);
   (Exactly "fatls", list_fat32);
   (Prefix "fatcat ", cat_fat32 (drop 7 line));
   (Exactly "ticks", write "APIC ticks: ";; n ← call K.apic_timer_ticks; write_dec n;; write "\n");
   (Exactly "input", print_input);
   (Exactly "irqtest", irq ← call K.input_keyboard_uses_irq; write_if irq "PS2_IRQ_INPUT_OK\n" "PS2_IRQ_INPUT_UNAVAILABLE\n");
   (Exactly "apps", print_apps);
   (Prefix "focus ", ok ← call (K.desktop_focus_app (c_str (drop 6 line)));
      write_if ok "APP_FOCUS_OK\n" "usage: focus console|system|files|apps|snake|calc|notes\n");
   (Exactly "ui", print_ui);
   (Exactly "desktop", ok ← call K.desktop_redraw; write_if ok "DESKTOP_UI_REDRAWN\n" "DESKTOP_UI_UNAVAILABLE\n");
   (Exactly "clear", call K.kconsole_clear);
   (Prefix "echo ", write_text (drop 5 line);; write "\n");
   (Exactly "fault", breakpoint);
   (Exactly "halt", write "Halting ArgusOS.\n";; cpu_halt_forever)]%string.

Definition execute_command (line : list Z) (boot_info : boot_info_t) (acpi : acpi_info_t) (paging : paging_info_t) : shell unit :=
  if hd 0 line =? 0 then mret tt
  else
    match List.find (fun c => matches line (fst c)) (command_table line boot_info acpi paging) with
    | Some (_, run) => run
    | None => write "Unknown kernel command. Type 'help'.\n"
    end.

(** ** The main loop *)

(** [line] and [used]. *)
Record editor := mk_editor { ed_line : list Z; ed_used : Z }.
Definition LINE_SIZE : Z := 128.

Definition serial (s : string) : shell unit := call (K.serial_write (c_string s)).
Definition serial_if (condition : bool) (yes no : string) : shell unit := serial (if condition then yes else no).

(** [kernel_shell_run] up to its loop. *)
Definition shell_start : shell unit :=
  desktop_online ← call K.desktop_init;
  enabled ← (if (desktop_online : bool) then call K.input_has_pointer else mret false);
  call (K.desktop_pointer_set_enabled enabled);;
  serial_if desktop_online "DESKTOP_UI_ONLINE\n" "DESKTOP_UI_UNAVAILABLE\n";;
  (if (desktop_online : bool) then
     serial "SURFACE_SELF_TEST_PASS\n";;
     serial "COMPOSITOR_ONLINE\n";;
     serial "DESKTOP_APPS_ONLINE\n";;
     ok ← call_and (n ← call K.desktop_visible_window_count; mret (n =? 0)) (call K.desktop_single_window_mode);
     serial_if ok "CLEAN_DESKTOP_ONLINE\nSINGLE_WINDOW_DESKTOP_PASS\n" "DESKTOP_VISIBILITY_FAIL\n";;
     confined ← call K.desktop_pointer_confined;
     serial_if confined "POINTER_CONFINEMENT_PASS\n" "POINTER_CONFINEMENT_FAIL\n";;
     serial "WINDOW_CONTROLS_ONLINE\n";;
     online ← call (K.process_app_online ARGUS_APP_ID_SNAKE);
     serial_if online "SNAKE_APP_ONLINE\n" "SNAKE_APP_UNAVAILABLE\n";;
     online ← call (K.process_app_online ARGUS_APP_ID_CALCULATOR);
     serial_if online "CALCULATOR_APP_ONLINE\n" "CALCULATOR_APP_UNAVAILABLE\n";;
     online ← call (K.process_app_online ARGUS_APP_ID_NOTES);
     serial_if online "NOTES_APP_ONLINE\n" "NOTES_APP_UNAVAILABLE\n";;
     serial "APPLICATION_LAUNCHER_ONLINE\n"
   else mret tt);;
  irq ← call K.input_keyboard_uses_irq;
  serial_if irq "PS2_IRQ_ONLINE\n" "PS2_POLLING_FALLBACK\n";;
  pointer ← call K.input_has_pointer;
  (if negb pointer then serial "PS2_MOUSE_UNAVAILABLE\n"
   else irq ← call K.input_pointer_uses_irq; serial_if irq "PS2_MOUSE_IRQ_ONLINE\n" "PS2_MOUSE_POLLING_FALLBACK\n");;
  serial "KERNEL_SHELL_READY\n";;
  write "argus-kernel> ";;
  _ ← call K.desktop_present;
  mret tt.

(** [process_run_ready_once(); desktop_tick(apic_timer_ticks());] *)
Definition run_and_tick : shell unit :=
  _ ← call K.process_run_ready_once;
  ticks ← call K.apic_timer_ticks;
  call (K.desktop_tick ticks).

(** A character of the line. *)
Definition shell_char (execute : list Z -> shell unit) (value : Z) (e : editor) : shell editor :=
  let c := u8 value in
  let line := ed_line e in
  let used := ed_used e in
  if (c =? 13) || (c =? 10) then
    let line := zset line used 0 in
    write "\n";;
    execute line;;
    write "argus-kernel> ";;
    mret (mk_editor line 0)
  else if c =? 8 then
    if nz used then write "\b \b";; mret (mk_editor line (u32 (used - 1))) else mret e
  else if c =? 9 then
    if u32 (used + 1) <? LINE_SIZE then putc 32;; mret (mk_editor (zset line used 32) (u32 (used + 1))) else mret e
  else if (32 <=? c) && (c <=? 126) && (u32 (used + 1) <? LINE_SIZE) then
    putc c;; mret (mk_editor (zset line used c) (u32 (used + 1)))
  else mret e.

(** One turn of the loop. *)
Definition shell_turn (execute : list Z -> shell unit) (e : editor) : shell editor :=
  value ← call K.input_serial_getc_nonblocking;
  keyboard ← (if value <? 0 then
      keyboard_value ← call K.input_keyboard_getc_nonblocking;
      taken ← (if 0 <=? keyboard_value then call (K.desktop_key_event (u8 keyboard_value)) else mret false);
      mret (if (taken : bool) then None else Some keyboard_value)
    else mret (Some value));
  match keyboard with
  | None => run_and_tick;; mret e
  | Some value =>
      if value <? 0 then
        event ← call K.input_pointer_event_nonblocking;
        match event with
        | Some (dx, dy, buttons) => call (K.desktop_pointer_event dx dy buttons);; run_and_tick;; mret e
        | None => run_and_tick;; call K.cpu_wait_for_interrupt;; mret e
        end
      else
        call K.desktop_pointer_hide;;
        e' ← shell_char execute value e;
        run_and_tick;;
        _ ← call K.desktop_present;
        mret e'
  end.

Fixpoint shell_turns (n : nat) (execute : list Z -> shell unit) (e : editor) : shell editor :=
  match n with O => mret e | S n' => e ← shell_turn execute e; shell_turns n' execute e end.

Definition editor0 (line : list Z) : editor := mk_editor line 0.

(** [kernel_shell_run] for [n] turns; [line] is what the stack held. *)
Definition kernel_shell_run (n : nat) (line : list Z) (boot_info : boot_info_t) (acpi : acpi_info_t) (paging : paging_info_t) : shell editor :=
  shell_start;; shell_turns n (fun line => execute_command line boot_info acpi paging) (editor0 line).

End shell.
