(* ===== verification/ShellSpec.v ===== *)
(** * What the kernel shell does

    The text functions against their meaning, what a command can call ([within]),
    the line editor against a list of characters, and the main loop's schedule. *)

From stdpp Require Import base list gmap numbers strings.
From Stdlib Require Import ZArith Lia.
From S2P Require Import Prelude Memory BootInfo Paging Process Scheduler Pci Module Net Files Kconsole Shell.

Open Scope Z_scope.

(** ** Text *)

Lemma c_str_id t : c_str (c_str t) = c_str t.
Proof. induction t as [|c t IH]; [done|]. cbn [c_str]. destruct (c =? 0) eqn:E; [done|]. cbn [c_str]. by rewrite E, IH. Qed.

Lemma hd_c_str t : hd 0 (c_str t) = hd 0 t.
Proof. destruct t as [|c t]; [done|]. cbn [c_str]. by destruct (Z.eqb_spec c 0). Qed.

Lemma strings_equal_spec a b : strings_equal a b = bool_decide (c_str a = c_str b).
Proof.
  revert b. induction a as [|x a IH]; intros [|y b]; cbn [strings_equal c_str hd].
  - done.
  - destruct (Z.eqb_spec y 0); by cbn.
  - destruct (Z.eqb_spec x 0); by cbn.
  - unfold nz. destruct (Z.eqb_spec x 0) as [->|Hx], (Z.eqb_spec y 0) as [->|Hy]; cbn [negb andb]; try done.
    destruct (Z.eqb_spec x y) as [->|Hn].
    + rewrite IH. apply bool_decide_ext. split; congruence.
    + symmetry. apply bool_decide_eq_false. congruence.
Qed.

Lemma starts_with_spec t prefix : Forall (fun c => c <> 0) prefix -> starts_with t prefix = bool_decide (take (length prefix) (c_str t) = prefix).
Proof.
  intros Hp. revert t. induction Hp as [|p prefix Hp _ IH]; intros t; [done|]. cbn [starts_with length take].
  destruct (Z.eqb_spec p 0); [done|]. destruct t as [|c t].
  { cbn [hd tl c_str]. destruct (Z.eqb_spec 0 p); [congruence|]. symmetry. by apply bool_decide_eq_false. }
  cbn [hd tl c_str]. destruct (Z.eqb_spec c p) as [->|Hc]; cbn [negb].
  - destruct (Z.eqb_spec p 0); [done|]. rewrite IH. apply bool_decide_ext. cbn [take]. split; [by intros ->|by intros [= ->]].
  - symmetry. apply bool_decide_eq_false. destruct (c =? 0); cbn [take]; congruence.
Qed.

(** ** Numbers *)

Definition is_digit (c : Z) : Prop := 48 <= c <= 57.
Definition decimal_from (value : Z) (s : list Z) : Z := fold_left (fun a c => 10 * a + dec_digit c) s value.

Lemma decimal_from_mono s : forall value, 0 <= value -> Forall is_digit s -> value <= decimal_from value s.
Proof.
  induction s as [|c s IH]; intros value Hv Hs; [done|]. apply Forall_cons in Hs as [Hc Hs]. cbn [decimal_from fold_left]. unfold is_digit, dec_digit in *.
  etransitivity; [|apply IH; [lia|done]]. lia.
Qed.

Lemma parse_digits_spec t : forall value, 0 <= value <= UINT64_MAX -> forall v,
  parse_digits t value = Some v <-> Forall is_digit (c_str t) /\ v = decimal_from value (c_str t) /\ v <= UINT64_MAX.
Proof.
  induction t as [|c t IH]; intros value Hv v; cbn [parse_digits c_str].
  { split; [intros [= <-]; split_and!; [constructor|done|lia]|]. intros (_ & -> & _). done. }
  destruct (Z.eqb_spec c 0); [split; [intros [= <-]; split_and!; [constructor|done|lia]|intros (_ & -> & _); done]|].
  destruct ((c <? 48) || (57 <? c)) eqn:Ed.
  { split; [done|]. intros (Hf & _). apply Forall_cons in Hf as [Hc _]. unfold is_digit in Hc. apply orb_true_iff in Ed. destruct Ed; b2p; lia. }
  apply orb_false_iff in Ed as [E1 E2]. b2p. cbv zeta. set (digit := c - 48).
  assert (0 <= digit <= 9) as Hd by (unfold digit; lia).
  assert (((UINT64_MAX - digit) / 10 <? value) = (UINT64_MAX <? value * 10 + digit)) as ->.
  { pose proof (Z.div_mod (UINT64_MAX - digit) 10). pose proof (Z.mod_pos_bound (UINT64_MAX - digit) 10).
    apply eq_true_iff_eq. rewrite !Z.ltb_lt. lia. }
  assert (decimal_from value (c :: c_str t) = decimal_from (value * 10 + digit) (c_str t)) as ->.
  { unfold decimal_from. cbn [fold_left]. f_equal. unfold dec_digit, digit. lia. }
  destruct (Z.ltb_spec UINT64_MAX (value * 10 + digit)) as [Hov|Hok].
  - split; [done|]. intros (Hf & -> & Hm). apply Forall_cons in Hf as [_ Hf]. pose proof (decimal_from_mono (c_str t) (value * 10 + digit) ltac:(lia) Hf). unfold UINT64_MAX in *. lia.
  - rewrite (u64_id (value * 10)), u64_id by lia. rewrite IH by lia. split.
    + intros (Hf & -> & Hm). split_and!; [|done|done]. constructor; [unfold is_digit, digit in *; lia|done].
    + intros (Hf & -> & Hm). apply Forall_cons in Hf as [_ Hf]. done.
Qed.

(** [parse_u64] accepts exactly the non-empty strings of decimal digits whose
    value fits 64 bits, and returns that value. *)
Theorem parse_u64_exact t v :
  parse_u64 t = Some v <-> c_str t <> [] /\ Forall is_digit (c_str t) /\ v = digits_value 10 dec_digit (c_str t) /\ v <= UINT64_MAX.
Proof.
  unfold parse_u64. rewrite <- hd_c_str. destruct (c_str t) as [|c s] eqn:Et; cbn [hd].
  - cbn. split; [done|]. by intros [? _].
  - assert (c <> 0) as Hc. { destruct t as [|x t]; [done|]. cbn [c_str] in Et. destruct (Z.eqb_spec x 0); congruence. }
    destruct (Z.eqb_spec c 0); [done|]. rewrite parse_digits_spec by (unfold UINT64_MAX; lia). rewrite Et.
    split; [by intros (? & ? & ?)|by intros (? & ? & ? & ?)].
Qed.

(** ** What a command can call *)

Definition calls : Type := forall T, K.kcall T -> Prop.

Section within.
Context {M : Type} `{Kernel M}.

(** [within P c]: the only effects of [c] are those of calls in [P]; a relation kept
    by these calls is kept by [c]. *)
Definition within (P : calls) {A} (c : shell (M := M) A) : Prop :=
  forall (R : M -> M -> Prop), (forall m, R m m) -> (forall m1 m2 m3, R m1 m2 -> R m2 m3 -> R m1 m3) ->
    (forall T (k : K.kcall T) m, P T k -> R m (snd (answer k m))) -> forall m, R m (snd (c m)).

Lemma within_ret P A (a : A) : within P (mret a).
Proof. intros R Hr _ _ m. apply Hr. Qed.
Lemma within_halt P : within P cpu_halt_forever.
Proof. intros R Hr _ _ m. apply Hr. Qed.
Lemma within_bind P A B (c : shell A) (f : A -> shell B) : within P c -> (forall a, within P (f a)) -> within P (mbind f c).
Proof.
  intros Hc Hf R Hr Ht Hk m. unfold mbind, shell_bind. pose proof (Hc R Hr Ht Hk m) as H1. destruct (c m) as [[a|] m1]; [|done].
  eapply Ht; [exact H1|]. by apply Hf.
Qed.
Lemma within_call (P : calls) T (k : K.kcall T) : P T k -> within P (call k).
Proof. intros HP R Hr Ht Hk m. unfold call. pose proof (Hk T k m HP) as H1. by destruct (answer k m). Qed.

Lemma within_loop P n body : (forall i, within P (body i)) -> forall i, within P (shell_loop n i body).
Proof. intros Hb. induction n as [|n IH]; intros i; cbn [shell_loop]; [apply within_ret|]. apply within_bind; [apply Hb|intros _; apply IH]. Qed.
Lemma within_lines (P : calls) lines : (forall l, P _ (K.kconsole_write (c_string l))) -> within P (write_lines lines).
Proof. intros Hl. induction lines as [|l lines IH]; cbn [write_lines]; [apply within_ret|]. apply within_bind; [by apply within_call|done]. Qed.
Lemma within_and P a b : within P a -> within P b -> within P (call_and a b).
Proof. intros Ha Hb. apply within_bind; [done|]. intros x. destruct x; [done|apply within_ret]. Qed.
Lemma within_not P a : within P a -> within P (call_not a).
Proof. intros Ha. apply within_bind; [done|]. intros x. apply within_ret. Qed.

End within.

(** Step through a command, leaving the calls it makes. *)
Ltac within_step :=
  match goal with
  | |- within _ (mbind _ _) => apply within_bind; [|intros ?]
  | |- within _ (mret _) => apply within_ret
  | |- within _ (call _) => apply within_call
  | |- within _ (putc _) => apply within_call
  | |- within _ (write_text _) => apply within_call
  | |- within _ (write_dec _) => apply within_call
  | |- within _ (write_hex _) => apply within_call
  | |- within _ (call_and _ _) => apply within_and
  | |- within _ (call_not _) => apply within_not
  | |- within _ (shell_loop _ _ _) => apply within_loop; intros ?
  | |- within _ cpu_halt_forever => apply within_halt
  | |- within _ (match ?x with _ => _ end) => destruct x
  | |- within _ (let '_ := ?x in _) => destruct x
  end.

(** *** Reading files *)

Definition safe_char (c : Z) : Prop := c = 10 \/ c = 9 \/ 32 <= c <= 126.

(** Reads of a file, and console output of printable characters. *)
Definition reading (T : Type) (k : K.kcall T) : Prop :=
  match k with
  | K.ramfs_read _ _ | K.fat32_read _ _ => True
  | K.kconsole_putc c => safe_char c
  | K.kconsole_write s => Forall safe_char s
  | _ => False
  end.

Lemma shown_printable byte : safe_char (shown_byte byte).
Proof.
  unfold shown_byte, safe_char.
  destruct (Z.eqb_spec byte 10), (Z.eqb_spec byte 9), (Z.leb_spec 32 byte), (Z.leb_spec byte 126); cbn [andb orb]; lia.
Qed.

Section reading.
Context {M : Type} `{Kernel M}.

(** A message of the source. *)
Lemma reading_message s : forallb (fun c => (c =? 10) || (c =? 9) || (32 <=? c) && (c <=? 126)) (c_string s) = true -> within reading (write (M := M) s).
Proof.
  intros Hs. apply within_call. cbn. apply Forall_forall. intros c Hc. rewrite forallb_forall in Hs. apply list_elem_of_In in Hc. apply Hs in Hc.
  unfold safe_char.
  destruct (Z.eqb_spec c 10), (Z.eqb_spec c 9), (Z.leb_spec 32 c), (Z.leb_spec c 126); cbn [andb orb] in Hc; try discriminate Hc; lia.
Qed.

Lemma reading_show data length : within reading (show_file (M := M) data length).
Proof.
  unfold show_file. repeat within_step; first [apply shown_printable | cbn; unfold safe_char; lia].
Qed.

Lemma reading_ramfs_error status : within reading (print_ramfs_error (M := M) status).
Proof. unfold print_ramfs_error. repeat within_step; by apply reading_message. Qed.
Lemma reading_fat32_error status : within reading (print_fat32_error (M := M) status).
Proof. unfold print_fat32_error. repeat within_step; by apply reading_message. Qed.

(** C20: Whatever a file holds, reading it with [cat] or [fatcat] does nothing but read
    the file and put printable characters, newlines and tabs on the console: no
    escape sequence in a file reaches the terminal, and nothing else of the system
    changes. *)
Theorem cat_is_printable path : within reading (cat_ramfs (M := M) path) /\ within reading (cat_fat32 (M := M) path).
Proof.
  split.
  - unfold cat_ramfs. apply within_bind; [apply within_call; exact I|]. intros [status [data length]].
    case_if; [apply reading_ramfs_error|]. apply within_bind; [apply reading_show|intros _]. apply reading_message. reflexivity.
  - unfold cat_fat32. apply within_bind; [apply within_call; exact I|]. intros [status [data length]].
    case_if; [apply reading_fat32_error|]. apply within_bind; [apply reading_show|intros _]. apply reading_message. reflexivity.
Qed.
End reading.

(** *** The scheduler is the main loop's *)

(** Every call but the two the main loop makes in each turn. *)
Definition unscheduled (T : Type) (k : K.kcall T) : Prop :=
  match k with K.process_run_ready_once | K.desktop_tick _ => False | _ => True end.

Ltac unscheduled := repeat first [within_step | apply within_call]; exact I.

Section schedule.
Context {M : Type} `{Kernel M}.

Lemma list_ramfs_unscheduled n : forall index, within unscheduled (list_ramfs_from (M := M) n index).
Proof. induction n as [|n IH]; intros index; cbn [list_ramfs_from]; [unscheduled|]. unfold print_ramfs_error. repeat first [apply IH|within_step|apply within_call]; exact I. Qed.
Lemma list_fat32_unscheduled n : forall index, within unscheduled (list_fat32_from (M := M) n index).
Proof. induction n as [|n IH]; intros index; cbn [list_fat32_from]; [unscheduled|]. unfold print_fat32_error. repeat first [apply IH|within_step|apply within_call]; exact I. Qed.

Lemma commands_unscheduled line boot_info acpi paging : Forall (fun c => within (M := M) unscheduled (snd c)) (command_table line boot_info acpi paging).
Proof.
  unfold command_table. repeat apply Forall_cons_2; [..|apply Forall_nil_2]; cbn [snd].
  - apply within_lines. done.
  - unfold print_status. unscheduled.
  - unfold print_memory. unscheduled.
  - unfold print_heap. unscheduled.
  - unscheduled.
  - unscheduled.
  - unfold allocation_probe. unscheduled.
  - unfold print_modules, print_module. unscheduled.
  - unfold print_processes. unscheduled.
  - unfold print_snake_status. unscheduled.
  - unfold print_user_apps. unscheduled.
  - unfold print_security_status. unscheduled.
  - unfold print_network_status. unscheduled.
  - unfold app_lifecycle. unscheduled.
  - unfold app_lifecycle. unscheduled.
  - unfold app_lifecycle. unscheduled.
  - unfold print_ramfs_status. unscheduled.
  - unfold list_ramfs. within_step; [unscheduled|apply list_ramfs_unscheduled].
  - unfold cat_ramfs, show_file, print_ramfs_error. unscheduled.
  - unfold write_ramfs, print_ramfs_error. unscheduled.
  - unfold remove_ramfs, print_ramfs_error. unscheduled.
  - unfold print_pci. unscheduled.
  - unfold print_ahci. unscheduled.
  - unfold print_disks. unscheduled.
  - unfold print_fat32_info, print_fat32_error. unscheduled.
  - apply list_fat32_unscheduled.
  - unfold cat_fat32, show_file, print_fat32_error. unscheduled.
  - unscheduled.
  - unfold print_input. unscheduled.
  - unscheduled.
  - unfold print_apps. unscheduled.
  - unscheduled.
  - unfold print_ui. unscheduled.
  - unscheduled.
  - unscheduled.
  - unscheduled.
  - unfold breakpoint. unscheduled.
  - unscheduled.
Qed.

Lemma execute_unscheduled line boot_info acpi paging : within (M := M) unscheduled (execute_command line boot_info acpi paging).
Proof.
  unfold execute_command. case_if; [apply within_ret|]. pose proof (commands_unscheduled line boot_info acpi paging) as Hall.
  destruct (List.find _ _) as [[p run]|] eqn:E; [|unscheduled]. apply find_some in E as [Hin _].
  rewrite Forall_forall in Hall. apply (Hall (p, run)). by apply list_elem_of_In.
Qed.

(** Counters of the two calls. *)
Class Counters (runs frames : M -> Z) := {
  count_run : forall m, let m' := snd (answer K.process_run_ready_once m) in runs m' = runs m + 1 /\ frames m' = frames m;
  count_tick : forall t m, let m' := snd (answer (K.desktop_tick t) m) in runs m' = runs m /\ frames m' = frames m + 1;
  count_other : forall T (k : K.kcall T) m, unscheduled T k -> let m' := snd (answer k m) in runs m' = runs m /\ frames m' = frames m }.

Context (runs frames : M -> Z) `{!Counters runs frames}.

Definition scheduled_by (d : Z) (m m' : M) : Prop := runs m' = runs m + d /\ frames m' = frames m + d.

(** [c] returns and does [d] turns of the scheduler. *)
Definition runs_to {A} (d : Z) (c : shell (M := M) A) : Prop := forall m, exists a m', c m = (Returned a, m') /\ scheduled_by d m m'.
(** [c] does [d] turns, or stops before it does any. *)
Definition adds {A} (d : Z) (c : shell (M := M) A) : Prop :=
  forall m, match c m with (Returned _, m') => scheduled_by d m m' | (HaltedForever, m') => scheduled_by 0 m m' end.

Lemma runs_adds A d (c : shell A) : runs_to d c -> adds d c.
Proof. intros Hc m. destruct (Hc m) as (a & m' & -> & Hm). exact Hm. Qed.
Lemma within_adds A (c : shell A) : within unscheduled c -> adds 0 c.
Proof using Counters0.
  intros Hc m. assert (scheduled_by 0 m (snd (c m))) as Hm.
  { apply (Hc (scheduled_by 0)); [intros ?; split; lia| |].
    - unfold scheduled_by. intros ? ? ? [] []. split; lia.
    - intros T k m1 HP. destruct (count_other T k m1 HP) as [E1 E2]. split; lia. }
  by destruct (c m) as [[a|] m'].
Qed.
Lemma runs_ret A (a : A) : runs_to 0 (mret a).
Proof. intros m. exists a, m. split; [done|split; lia]. Qed.
Lemma runs_call T (k : K.kcall T) : unscheduled T k -> runs_to 0 (call k).
Proof using Counters0.
  intros HP m. unfold call. destruct (count_other T k m HP) as [E1 E2]. cbv zeta in *. destruct (answer k m) as [v m'].
  exists v, m'. split; [done|]. cbn [snd] in *. split; lia.
Qed.
Lemma runs_bind A B d1 d2 (c : shell A) (f : A -> shell B) : runs_to d1 c -> (forall a, runs_to d2 (f a)) -> runs_to (d1 + d2) (mbind f c).
Proof.
  intros Hc Hf m. destruct (Hc m) as (a & m1 & E1 & A1). destruct (Hf a m1) as (b & m2 & E2 & A2). exists b, m2.
  unfold mbind, shell_bind. rewrite E1. split; [done|]. unfold scheduled_by in *. lia.
Qed.
Lemma adds_bind A B d (c : shell A) (f : A -> shell B) : adds 0 c -> (forall a, adds d (f a)) -> adds d (mbind f c).
Proof.
  intros Hc Hf m. unfold mbind, shell_bind. specialize (Hc m). destruct (c m) as [[a|] m1]; [|done]. specialize (Hf a m1).
  unfold scheduled_by in *. destruct (f a m1) as [[b|] m2]; lia.
Qed.

Lemma run_and_tick_once : runs_to 1 run_and_tick.
Proof using Counters0.
  intros m. unfold run_and_tick, mbind, shell_bind, call.
  destruct (count_run m) as [R1 F1]. destruct (answer K.process_run_ready_once m) as [ok m1]. cbn [snd] in *.
  destruct (count_other _ K.apic_timer_ticks m1 I) as [R2 F2]. destruct (answer K.apic_timer_ticks m1) as [t m2]. cbn [snd] in *.
  destruct (count_tick t m2) as [R3 F3]. destruct (answer (K.desktop_tick t) m2) as [u m3]. cbn [snd] in *.
  exists u, m3. split; [done|]. split; lia.
Qed.

Lemma shell_char_adds execute value e : (forall line, within unscheduled (execute line)) -> adds 0 (shell_char execute value e).
Proof using Counters0.
  intros He. apply within_adds. unfold shell_char. cbv zeta.
  repeat first [apply He | within_step | apply within_call]; exact I.
Qed.

(** Use up the trailing calls of a turn. *)
Lemma turn_tail A (a : A) : runs_to 1 (run_and_tick;; mret a).
Proof using Counters0. change 1 with (1 + 0) at 1. apply runs_bind; [apply run_and_tick_once|]. intros _. apply runs_ret. Qed.

Lemma shell_turn_adds execute e : (forall line, within unscheduled (execute line)) -> adds 1 (shell_turn execute e).
Proof using Counters0.
  intros He. unfold shell_turn. apply adds_bind; [apply within_adds; unscheduled|]. intros value.
  apply adds_bind; [apply within_adds; unscheduled|]. intros [v|]; [|apply runs_adds, turn_tail]. case_if.
  - apply adds_bind; [apply within_adds; unscheduled|]. intros [[[dx dy] buttons]|].
    + apply adds_bind; [apply within_adds; unscheduled|]. intros _. apply runs_adds, turn_tail.
    + apply runs_adds. change 1 with (1 + (0 + 0)). apply runs_bind; [apply run_and_tick_once|]. intros _.
      apply runs_bind; [by apply runs_call|]. intros _. apply runs_ret.
  - apply adds_bind; [apply within_adds; unscheduled|]. intros _. apply adds_bind; [by apply shell_char_adds|]. intros e'.
    apply runs_adds. change 1 with (1 + (0 + 0)). apply runs_bind; [apply run_and_tick_once|]. intros _.
    apply runs_bind; [by apply runs_call|]. intros _. apply runs_ret.
Qed.

(** C18: Every turn of the main loop runs the ready processes once and ticks the
    desktop once, whatever input it finds and whatever command it executes, so that
    neither a user at the keyboard nor one at the mouse nor a long stream of serial
    characters keeps the programs from running; only a command that stops the
    processor ends this. *)
Theorem shell_schedules_every_turn n boot_info acpi paging e m :
  match shell_turns n (fun line => execute_command line boot_info acpi paging) e m with
  | (Returned _, m') => runs m' = runs m + Z.of_nat n /\ frames m' = frames m + Z.of_nat n
  | (HaltedForever, m') => exists k, 0 <= k < Z.of_nat n /\ runs m' = runs m + k /\ frames m' = frames m + k
  end.
Proof using Counters0.
  revert e m. induction n as [|n IH]; intros e m; cbn [shell_turns]; [cbn; lia|]. unfold mbind, shell_bind.
  pose proof (shell_turn_adds (fun line => execute_command line boot_info acpi paging) e (fun line => execute_unscheduled line boot_info acpi paging) m) as Ht.
  destruct (shell_turn _ e m) as [[e'|] m1].
  - specialize (IH e' m1). unfold scheduled_by in Ht. destruct (shell_turns n _ e' m1) as [[e2|] m2]; [lia|].
    destruct IH as (k & Hk & R & F). exists (k + 1). lia.
  - exists 0. unfold scheduled_by in Ht. lia.
Qed.
End schedule.

(** ** Only the text of a line matters *)

Lemma strings_equal_c_str a b : strings_equal (c_str a) b = strings_equal a b.
Proof. by rewrite !strings_equal_spec, c_str_id. Qed.

Lemma starts_with_c_str t prefix : starts_with (c_str t) prefix = starts_with t prefix.
Proof.
  revert t. induction prefix as [|p prefix IH]; intros t; [done|]. cbn [starts_with]. destruct (Z.eqb_spec p 0); [done|]. rewrite hd_c_str.
  destruct (Z.eqb_spec (hd 0 t) p) as [Hp|]; [|done]. cbn [negb]. destruct t as [|c t]; [done|]. cbn [hd tl c_str] in *.
  destruct (Z.eqb_spec c 0); [congruence|]. cbn [tl]. apply IH.
Qed.

Lemma matches_c_str line p : matches (c_str line) p = matches line p.
Proof. destruct p; [apply strings_equal_c_str|apply starts_with_c_str]. Qed.

(** After a prefix without zeros, the rest of the text is the text of the rest. *)
Lemma drop_c_str prefix : Forall (fun c => c <> 0) prefix -> forall t, starts_with t prefix = true -> drop (length prefix) (c_str t) = c_str (drop (length prefix) t).
Proof.
  induction 1 as [|p prefix Hp _ IH]; intros t Ht; [done|]. cbn [starts_with length] in *.
  destruct (Z.eqb_spec p 0); [done|]. destruct (Z.eqb_spec (hd 0 t) p) as [E|]; [|done]. cbn [negb] in Ht.
  destruct t as [|c t]; [cbn in E; congruence|]. cbn [hd tl c_str] in *. destruct (Z.eqb_spec c 0); [congruence|]. cbn [drop]. by apply IH.
Qed.

Lemma parse_digits_c_str t : forall value, parse_digits (c_str t) value = parse_digits t value.
Proof.
  induction t as [|c t IH]; intros value; [done|]. cbn [c_str parse_digits]. destruct (c =? 0) eqn:E; [done|].
  cbn [parse_digits]. rewrite E. by destruct (_ || _); [|destruct (_ <? _)].
Qed.
Lemma parse_u64_c_str t : parse_u64 (c_str t) = parse_u64 t.
Proof. unfold parse_u64. by rewrite hd_c_str, parse_digits_c_str. Qed.

Lemma app_id_c_str t : app_id_from_name (c_str t) = app_id_from_name t.
Proof. unfold app_id_from_name. by rewrite !strings_equal_c_str. Qed.

Lemma word_c_str t : word_length (c_str t) = word_length t /\ take (word_length t) (c_str t) = take (word_length t) t /\
  nth (word_length t) (c_str t) 0 = nth (word_length t) t 0 /\
  (nth (word_length t) t 0 <> 0 -> drop (S (word_length t)) (c_str t) = c_str (drop (S (word_length t)) t)).
Proof.
  induction t as [|c t IH]; [done|]. cbn [c_str word_length]. destruct (Z.eqb_spec c 0) as [->|Hc]; cbn [orb]; [done|].
  cbn [word_length]. destruct (Z.eqb_spec c 0); [done|]. destruct (Z.eqb_spec c 32); cbn [orb]; [done|].
  destruct IH as (E1 & E2 & E3 & E4). rewrite E1. cbn [take nth drop]. split_and!; [done|by rewrite E2|done|exact E4].
Qed.

Lemma data_length_c_str n : forall t, data_length n (c_str t) = data_length n t /\ take (Z.to_nat (data_length n t)) (c_str t) = take (Z.to_nat (data_length n t)) t /\ 0 <= data_length n t.
Proof.
  induction n as [|n IH]; intros [|c t]; [done..|]. cbn [c_str data_length]. destruct (c =? 0) eqn:E; [done|].
  cbn [data_length]. rewrite E. destruct (IH t) as (E1 & E2 & E3). rewrite E1.
  replace (Z.to_nat (1 + data_length n t)) with (S (Z.to_nat (data_length n t))) by lia. cbn [take]. rewrite E2. split_and!; done || lia.
Qed.

Section text_only.
Context {M : Type} `{Kernel M}.
Context (boot_info : boot_info_t) (acpi : acpi_info_t) (paging : paging_info_t).

Lemma write_ramfs_c_str t : write_ramfs (M := M) (c_str t) = write_ramfs t.
Proof.
  unfold write_ramfs. destruct (word_c_str t) as (E1 & E2 & E3 & E4). rewrite E1, E2, E3.
  destruct (Nat.eqb (word_length t) 0 || _) eqn:E; [done|]. apply orb_false_iff in E as [_ E]. apply Z.eqb_neq in E. rewrite E4 by done.
  destruct (data_length_c_str (Z.to_nat (ARGUS_RAMFS_MAX_DATA + 1)) (drop (S (word_length t)) t)) as (F1 & F2 & _). cbv zeta. by rewrite F1, F2.
Qed.

(** The command a line selects, from either table. *)
Lemma find_same line (t1 t2 : list (pattern * shell (M := M) unit)) :
  Forall2 (fun c1 c2 => fst c1 = fst c2 /\ (matches line (fst c1) = true -> snd c1 = snd c2)) t1 t2 ->
  snd <$> List.find (fun c => matches line (fst c)) t1 = snd <$> List.find (fun c => matches line (fst c)) t2.
Proof.
  induction 1 as [|[p1 r1] [p2 r2] t1 t2 [Hp Hr] _ IH]; [done|]. cbn [List.find fst snd] in *. subst p2.
  destruct (matches line p1); [|done]. cbn. by rewrite Hr.
Qed.

(** A command of the table on the rest of the line. *)
Lemma argument_c_str {A} (f : list Z -> A) name line :
  forallb (fun c => negb (c =? 0)) (text name) = true -> (forall t, f (c_str t) = f t) ->
  starts_with line (text name) = true -> f (drop (length (text name)) line) = f (drop (length (text name)) (c_str line)).
Proof.
  intros Hn Hf Hs. rewrite drop_c_str by (done || (apply Forall_forall; intros c Hc; rewrite forallb_forall in Hn; apply list_elem_of_In, Hn in Hc;
    apply negb_true_iff, Z.eqb_neq in Hc; done)). by rewrite Hf.
Qed.

Lemma tables_same line : Forall2 (fun c1 c2 => fst c1 = fst c2 /\ (matches line (fst c1) = true -> snd c1 = snd c2))
  (command_table (M := M) line boot_info acpi paging) (command_table (c_str line) boot_info acpi paging).
Proof.
  unfold command_table. repeat apply Forall2_cons_2; [..|apply Forall2_nil_2]; (split; [reflexivity|]); cbn [fst snd matches]; try reflexivity.
  - apply (argument_c_str allocation_probe "alloc "); [reflexivity|]. intros t. unfold allocation_probe. by rewrite parse_u64_c_str.
  - apply (argument_c_str (fun t => app_lifecycle t 1) "appstart "); [reflexivity|]. intros t. unfold app_lifecycle. by rewrite app_id_c_str.
  - apply (argument_c_str (fun t => app_lifecycle t 2) "appstop "); [reflexivity|]. intros t. unfold app_lifecycle. by rewrite app_id_c_str.
  - apply (argument_c_str (fun t => app_lifecycle t 3) "apprestart "); [reflexivity|]. intros t. unfold app_lifecycle. by rewrite app_id_c_str.
  - apply (argument_c_str cat_ramfs "cat "); [reflexivity|]. intros t. unfold cat_ramfs. by rewrite c_str_id.
  - apply (argument_c_str write_ramfs "write "); [reflexivity|]. apply write_ramfs_c_str.
  - apply (argument_c_str remove_ramfs "rm "); [reflexivity|]. intros t. unfold remove_ramfs. by rewrite c_str_id.
  - apply (argument_c_str cat_fat32 "fatcat "); [reflexivity|]. intros t. unfold cat_fat32. by rewrite c_str_id.
  - apply (argument_c_str (fun t => ok ← call (K.desktop_focus_app (c_str t));
      write_if ok "APP_FOCUS_OK\n" "usage: focus console|system|files|apps|snake|calc|notes\n") "focus "); [reflexivity|]. intros t. by rewrite c_str_id.
  - apply (argument_c_str (fun t => write_text t;; write "\n") "echo "); [reflexivity|]. intros t. unfold write_text. by rewrite c_str_id.
Qed.

Lemma execute_c_str line : execute_command (M := M) (c_str line) boot_info acpi paging = execute_command line boot_info acpi paging.
Proof.
  unfold execute_command. rewrite hd_c_str. case_if; [done|].
  pose proof (find_same line _ _ (tables_same line)) as E.
  assert (List.find (fun c => matches (c_str line) (fst c)) (command_table (M := M) (c_str line) boot_info acpi paging)
    = List.find (fun c => matches line (fst c)) (command_table (c_str line) boot_info acpi paging)) as ->.
  { generalize (command_table (M := M) (c_str line) boot_info acpi paging) as table. intros table.
    induction table as [|[p r] table IH]; [done|]. cbn [List.find fst]. by rewrite matches_c_str, IH. }
  destruct (List.find _ (command_table line boot_info acpi paging)) as [[p1 r1]|], (List.find _ (command_table (c_str line) boot_info acpi paging)) as [[p2 r2]|];
    cbn in E; congruence.
Qed.
End text_only.

(** ** The line editor *)

(** The line as a list of characters; at most 127 are kept. *)
Definition typed_char {M : Type} `{Kernel M} (execute : list Z -> shell (M := M) unit) (value : Z) (t : list Z) : shell (M := M) (list Z) :=
  let c := u8 value in
  if (c =? 13) || (c =? 10) then write "\n";; execute t;; write "argus-kernel> ";; mret []
  else if c =? 8 then match t with [] => mret [] | _ => write "\b \b";; mret (take (length t - 1) t) end
  else
    let c := if c =? 9 then 32 else c in
    if (32 <=? c) && (c <=? 126) && (length t <? 127)%nat then putc c;; mret (t ++ [c]) else mret t.

Section editor.
Context {M : Type} `{Kernel M}.
Context (execute : list Z -> shell (M := M) unit) (Hexecute : forall line, execute (c_str line) = execute line).

Fixpoint feed_chars (values : list Z) (e : editor) : shell (M := M) editor :=
  match values with [] => mret e | v :: values' => e ← shell_char execute v e; feed_chars values' e end.
Fixpoint typed_feed (values : list Z) (t : list Z) : shell (M := M) (list Z) :=
  match values with [] => mret t | v :: values' => t ← typed_char execute v t; typed_feed values' t end.

Record holds (e : editor) (t : list Z) : Prop := {
  ho_line : length (ed_line e) = 128%nat;
  ho_used : ed_used e = Z.of_nat (length t);
  ho_room : (length t <= 127)%nat;
  ho_text : take (length t) (ed_line e) = t;
  ho_zero : Forall (fun c => c <> 0) t }.

Lemma c_str_app t rest : Forall (fun c => c <> 0) t -> c_str (t ++ rest) = t ++ c_str rest.
Proof. induction 1 as [|c t Hc _ IH]; [done|]. cbn [app c_str]. destruct (Z.eqb_spec c 0); [done|]. by rewrite IH. Qed.

Lemma insert_at_end {A} (l : list A) n x : (n < length l)%nat -> take (S n) (<[n:=x]> l) = take n l ++ [x] /\ <[n:=x]> l = take n l ++ x :: drop (S n) l.
Proof.
  intros Hn. rewrite (insert_take_drop _ _ _ Hn). split; [|done]. rewrite take_app. rewrite length_take, Nat.min_l by lia.
  replace (S n - n)%nat with 1%nat by lia. cbn [take]. rewrite take_take. by replace (S n `min` n)%nat with n by lia.
Qed.

(** The line handed to [execute], and an added character. *)
Lemma holds_ended e t : holds e t -> c_str (zset (ed_line e) (ed_used e) 0) = t.
Proof.
  intros []. unfold zset. rewrite ho_used0, Nat2Z.id. destruct (insert_at_end (ed_line e) (length t) 0) as [_ ->]; [lia|].
  rewrite ho_text0, c_str_app by done. cbn. by rewrite app_nil_r.
Qed.

Lemma holds_added e t c : holds e t -> (length t < 127)%nat -> c <> 0 -> holds (mk_editor (zset (ed_line e) (ed_used e) c) (ed_used e + 1)) (t ++ [c]).
Proof.
  intros [] Hr Hc. constructor; cbn [ed_line ed_used]; rewrite ?length_app; cbn [length]; [by rewrite zset_length|lia|lia| |by apply Forall_app_2; [|repeat constructor]].
  unfold zset. rewrite ho_used0, Nat2Z.id. replace (length t + 1)%nat with (S (length t)) by lia.
  destruct (insert_at_end (ed_line e) (length t) c) as [-> _]; [lia|]. by rewrite ho_text0.
Qed.

Lemma holds_removed e t : holds e t -> holds (mk_editor (ed_line e) (ed_used e - 1)) (take (length t - 1) t) \/ t = [].
Proof.
  intros []. destruct t as [|c t]; [by right|left]. set (t' := c :: t) in *.
  assert (length (take (length t' - 1) t') = (length t' - 1)%nat) as El by (rewrite length_take; lia).
  constructor; cbn [ed_line ed_used]; rewrite ?El; [done|unfold t' in *; cbn [length] in *; lia|lia| |by apply Forall_take].
  rewrite <- ho_text0 at 3. rewrite take_take. f_equal. lia.
Qed.

(** Same machine, and the editor holds the text. *)
Definition agree (r : command_outcome editor * M) (s : command_outcome (list Z) * M) : Prop :=
  snd r = snd s /\ match fst r, fst s with Returned e, Returned t => holds e t | HaltedForever, HaltedForever => True | _, _ => False end.

Lemma agree_bind {A} (c : shell (M := M) A) f g m : (forall a m, agree (f a m) (g a m)) -> agree (mbind f c m) (mbind g c m).
Proof. intros Hf. unfold mbind, shell_bind. destruct (c m) as [[a|] m1]; [apply Hf|done]. Qed.

Lemma shell_char_agrees value e t m : holds e t -> agree (shell_char execute value e m) (typed_char execute value t m).
Proof using Hexecute.
  intros He. pose proof He as [Hl Hu Hr Ht Hz]. unfold shell_char, typed_char. cbv zeta. set (c := u8 value). destruct ((c =? 13) || (c =? 10)).
  { apply agree_bind. intros _ m1. rewrite <- (holds_ended e t He), Hexecute. apply agree_bind. intros _ m2. apply agree_bind. intros _ m3.
    split; [done|]. constructor; cbn [ed_line ed_used length]; [by rewrite zset_length|lia|lia|done|done]. }
  assert (u32 (ed_used e + 1) = ed_used e + 1) as Eu by (apply u32_id; unfold UINT32_MAX; lia). rewrite Eu. unfold LINE_SIZE.
  assert ((ed_used e + 1 <? 128) = (length t <? 127)%nat) as -> by (apply eq_true_iff_eq; rewrite Z.ltb_lt, Nat.ltb_lt; lia).
  destruct (Z.eqb_spec c 8) as [->|].
  { unfold nz. rewrite Hu. destruct (holds_removed e t He) as [Hd | ->]; [|done]. destruct t as [|c0 t]; [done|].
    assert ((Z.of_nat (length (c0 :: t)) =? 0) = false) as -> by (apply Z.eqb_neq; cbn [length]; lia). cbn [negb].
    apply agree_bind. intros _ m1. split; [done|]. cbn [fst]. rewrite Hu in Hd. rewrite u32_id by (unfold UINT32_MAX; cbn [length] in *; lia). exact Hd. }
  destruct (Z.eqb_spec c 9) as [->|].
  - change ((32 <=? 32) && (32 <=? 126)) with true. cbn [andb]. destruct (Nat.ltb_spec (length t) 127); [|done].
    apply agree_bind. intros _ m1. split; [done|]. by apply holds_added.
  - destruct ((32 <=? c) && (c <=? 126)) eqn:Ep; cbn [andb]; [|done]. apply andb_true_iff in Ep as [E1 E2]. b2p.
    destruct (Nat.ltb_spec (length t) 127); [|done]. apply agree_bind. intros _ m1. split; [done|]. apply holds_added; [done|lia|lia].
Qed.

Lemma feed_agrees values : forall e t m, holds e t -> agree (feed_chars values e m) (typed_feed values t m).
Proof using Hexecute.
  induction values as [|v values IH]; intros e t m He; [by split|]. cbn [feed_chars typed_feed]. unfold mbind, shell_bind.
  destruct (shell_char_agrees v e t m He) as [Em Eo]. destruct (shell_char execute v e m) as [[e1|] m1], (typed_char execute v t m) as [[t1|] m2]; cbn [fst snd] in *; try done.
  subst m2. by apply IH.
Qed.
End editor.

(** C19: The shell's line editor, over its 128-byte buffer and whatever that held
    before, is the editor of a list of characters: printable characters and tabs,
    as spaces, are added while there is room, a backspace removes the last, other
    characters are ignored and the end of a line executes the text typed; the
    machine goes through the same states, the buffer holds the text, and it is
    never full, so that its terminating zero fits. *)
Theorem shell_line_editor {M : Type} `{Kernel M} boot_info acpi paging line values m :
  length line = 128%nat ->
  let execute := fun line => execute_command (M := M) line boot_info acpi paging in
  let '(r, m1) := feed_chars execute values (editor0 line) m in
  let '(s, m2) := typed_feed execute values [] m in
  m1 = m2 /\ match r, s with
             | Returned e, Returned t => take (length t) (ed_line e) = t /\ ed_used e = Z.of_nat (length t) /\ ed_used e < LINE_SIZE /\ length (ed_line e) = 128%nat
             | HaltedForever, HaltedForever => True
             | _, _ => False
             end.
Proof.
  intros Hl execute. assert (holds (editor0 line) []) as H0 by (constructor; cbn; done || lia).
  pose proof (feed_agrees execute (fun line => execute_c_str boot_info acpi paging line) values (editor0 line) [] m H0) as [Em Eo].
  destruct (feed_chars _ _ _ _) as [r m1], (typed_feed _ _ _ _) as [s m2]. cbn [fst snd] in *. split; [done|].
  destruct r as [e|], s as [t|]; try done. destruct Eo. unfold LINE_SIZE. split_and!; [done|done|lia|done].
Qed.

(** ** The allocation probe *)

Section probe.
Context {M : Type} `{Kernel M}.

(** A memory that keeps what is stored in it. *)
Class Bytes (byte : M -> Z -> Z) := {
  bytes_load : forall m a, answer (K.load_byte a) m = (byte m a, m);
  bytes_store : forall m a v b, byte (snd (answer (K.store_byte a v) m)) b = if b =? a then v else byte m b }.
Context (byte : M -> Z -> Z) `{!Bytes byte}.
Definition verdict (sound : bool) : list Z := if sound then c_string "ALLOC_OK\n" else c_string "ALLOC_CORRUPTION\n".

(** On a memory that works, the [alloc] command of an allocation that succeeds
    writes its two bytes, frees the block and reports success exactly if [kfree]
    took the block back and more than one byte was asked for: for a single byte the
    two probes are the same byte, and the command reports corruption of a memory
    that is sound. *)
Theorem allocation_probe_verdict argument size m a m1 :
  parse_u64 argument = Some size -> size <> 0 -> answer (K.kmalloc size) m = (a, m1) -> a <> 0 ->
  exists m2 m3 freed, answer (K.kfree a) m2 = (freed, m3) /\
    allocation_probe argument m = (Returned tt, snd (answer (K.kconsole_write (verdict (freed && negb (size =? 1)))) m3)).
Proof using Bytes0.
  intros Hp Hs Hk Ha. unfold allocation_probe. rewrite Hp. unfold nz. apply Z.eqb_neq in Hs. rewrite Hs. cbn [negb].
  unfold mbind, shell_bind, call at 1. rewrite Hk. apply Z.eqb_neq in Ha. rewrite Ha. cbn [negb]. unfold call.
  pose proof (bytes_store m1 a 0xA6) as S1. destruct (answer (K.store_byte a 0xA6) m1) as [u1 ma]. cbn [snd] in S1.
  pose proof (bytes_store ma (a + (size - 1)) 0x5A) as S2. destruct (answer (K.store_byte (a + (size - 1)) 0x5A) ma) as [u2 mb]. cbn [snd] in S2.
  rewrite bytes_load, S2, S1, Z.eqb_refl.
  assert ((a =? a + (size - 1)) = (size =? 1)) as -> by (apply eq_true_iff_eq; rewrite !Z.eqb_eq; lia).
  assert (forall (b : bool) m0, exists m2 m3 freed, answer (K.kfree a) m2 = (freed, m3) /\
    (let '(o, m) := write "Allocation: " m0 in
     match o with Returned _ => (write_hex a;; write "\n";; freed ← call (K.kfree a); write_if (freed && b) "ALLOC_OK\n" "ALLOC_CORRUPTION\n") m | HaltedForever => (HaltedForever, m) end)
    = (Returned tt, snd (answer (K.kconsole_write (verdict (freed && b))) m3))) as Htail.
  { intros b m0. unfold write, write_hex, write_if, mbind, shell_bind, call.
    destruct (answer _ m0) as [u3 m5]. destruct (answer (K.kconsole_write_hex a) m5) as [u4 m6]. destruct (answer _ m6) as [u5 m7].
    destruct (answer (K.kfree a) m7) as [freed m8] eqn:Ef. exists m7, m8, freed. split; [done|]. unfold write, call, verdict.
    destruct (freed && b); destruct (answer _ m8) as [[] m9]; reflexivity. }
  destruct (size =? 1) eqn:E1.
  - destruct (Htail false mb) as (m2 & m3 & freed & Ef & Et). exists m2, m3, freed. split; [done|]. exact Et.
  - cbn [negb]. change (0xA6 =? 0xA6) with true. cbv beta iota. rewrite bytes_load, S2, Z.eqb_refl.
    destruct (Htail true mb) as (m2 & m3 & freed & Ef & Et). exists m2, m3, freed. split; [done|]. exact Et.
Qed.
End probe.

(** ** A machine *)

(** A machine with a screen, a memory, a queue of serial input and the two counters;
    everything else answers with nothing. *)
Record shell_machine := mk_shell_machine { mc_screen : list Z; mc_bytes : list (Z * Z); mc_serial : list Z; mc_runs : Z; mc_ticks : Z }.

Definition no_answer {T} (k : K.kcall T) : T.
Proof.
  destruct k; first [exact tt | exact false | exact 0 | exact None | exact [] | exact (-1, ([], 0)) | exact (-1, ([], 0, 0)) | exact (-1, mk_fat32_info 0 0 0 0 0 0 0)].
Defined.

Definition machine_byte (m : shell_machine) (a : Z) : Z := default 0 (list_find (fun p => p.1 = a) (mc_bytes m) ≫= fun r => Some r.2.2).
Definition show_text (m : shell_machine) (s : list Z) : shell_machine := mk_shell_machine (mc_screen m ++ s) (mc_bytes m) (mc_serial m) (mc_runs m) (mc_ticks m).

Definition machine_answer {T} (k : K.kcall T) : shell_machine -> T * shell_machine :=
  match k in K.kcall T return shell_machine -> T * shell_machine with
  | K.kconsole_write s => fun m => (tt, show_text m s)
  | K.kconsole_putc c => fun m => (tt, show_text m [c])
  | K.kmalloc size => fun m => (0x1000, m)
  | K.kfree a => fun m => (true, m)
  | K.store_byte a v => fun m => (tt, mk_shell_machine (mc_screen m) ((a, v) :: mc_bytes m) (mc_serial m) (mc_runs m) (mc_ticks m))
  | K.load_byte a => fun m => (machine_byte m a, m)
  | K.process_run_ready_once => fun m => (false, mk_shell_machine (mc_screen m) (mc_bytes m) (mc_serial m) (mc_runs m + 1) (mc_ticks m))
  | K.desktop_tick t => fun m => (tt, mk_shell_machine (mc_screen m) (mc_bytes m) (mc_serial m) (mc_runs m) (mc_ticks m + 1))
  | K.input_serial_getc_nonblocking => fun m =>
      (hd (-1) (mc_serial m), mk_shell_machine (mc_screen m) (mc_bytes m) (tl (mc_serial m)) (mc_runs m) (mc_ticks m))
  | K.input_keyboard_getc_nonblocking => fun m => (-1, m)
  | k => fun m => (no_answer k, m)
  end.
#[export] Instance machine_kernel : Kernel shell_machine := {| answer T k := machine_answer k |}.

#[export] Instance machine_counters : Counters mc_runs mc_ticks.
Proof.
  constructor; [done|done|]. intros T k m HP. destruct k; try done; destruct HP.
Qed.

#[export] Instance machine_bytes : Bytes machine_byte.
Proof.
  constructor; [done|]. intros m a v b. unfold machine_byte. cbn [answer machine_kernel machine_answer snd mc_bytes list_find fst].
  destruct (Z.eqb_spec b a) as [->|Hn]; [by rewrite decide_True|]. rewrite decide_False by done. destruct (list_find _ (mc_bytes m)) as [[i p]|]; done.
Qed.

Definition quiet_machine (serial : list Z) : shell_machine := mk_shell_machine [] [] serial 0 0.
Definition sample_paging : paging_info_t := mk_paging 0 0 0 0 true.
Definition shell_acpi : acpi_info_t := mk_acpi 0 0 0 0 0 1 0 0 0 0.
Definition shell_boot : boot_info_t :=
  mk_boot_info 0 0 1 0 (mk_map None 0 0 0 0 0) (mk_framebuffer 0 0 0 0 0 0 0) 0 (mk_range 0 0) (mk_range 0 0) (mk_range 0 0) (mk_range 0 0) (mk_range 0 0) (mk_range 0 0) 0 0.

Lemma shell_schedules_every_turn_witness :
  let r := shell_turns 5 (fun line => execute_command line shell_boot shell_acpi sample_paging) (editor0 (replicate 128 0)) (quiet_machine (text "mem" ++ [13])) in
  fst r = Returned (mk_editor (text "mem" ++ replicate 125 0) 0) /\ mc_runs (snd r) = 5.
Proof.
  intros r. pose proof (shell_schedules_every_turn mc_runs mc_ticks 5 shell_boot shell_acpi sample_paging (editor0 (replicate 128 0)) (quiet_machine (text "mem" ++ [13]))) as Hs.
  fold r in Hs. assert (fst r = Returned (mk_editor (text "mem" ++ replicate 125 0) 0)) as E by (vm_compute; reflexivity).
  split; [exact E|]. destruct r as [o m']. cbn [fst snd] in *. rewrite E in Hs. exact (proj1 Hs).
Defined.

Lemma shell_line_editor_witness :
  exists e m, feed_chars (fun line => execute_command (M := shell_machine) line shell_boot shell_acpi sample_paging) [104; 9; 105; 8] (editor0 (replicate 128 255)) (quiet_machine []) = (Returned e, m) /\
    take 2 (ed_line e) = [104; 32] /\ ed_used e = 2.
Proof.
  pose proof (shell_line_editor (M := shell_machine) shell_boot shell_acpi sample_paging (replicate 128 255) [104; 9; 105; 8] (quiet_machine []) eq_refl) as Hs.
  cbv zeta in Hs. destruct (feed_chars _ _ _ _) as [o m] eqn:Ef.
  destruct (typed_feed _ _ _ _) as [s m2] eqn:Et. destruct Hs as [Em Ho].
  assert (s = Returned [104; 32]) as -> by (change s with (fst (s, m2)); rewrite <- Et; vm_compute; reflexivity).
  destruct o as [e|]; [|destruct Ho]. destruct Ho as (Ht & Hu & _). exists e, m. split_and!; [reflexivity|exact Ht|exact Hu].
Defined.

Lemma allocation_probe_verdict_witness :
  exists m', allocation_probe (text "1") (quiet_machine []) = (Returned tt, m') /\
    mc_screen m' = c_string "Allocation: " ++ c_string "\n" ++ c_string "ALLOC_CORRUPTION\n".
Proof.
  destruct (allocation_probe_verdict machine_byte (text "1") 1 (quiet_machine []) 0x1000 (quiet_machine [])) as (m2 & m3 & freed & Ef & E);
    [reflexivity|discriminate|reflexivity|discriminate|].
  eexists. split; [exact E|]. transitivity (mc_screen (snd (allocation_probe (text "1") (quiet_machine [])))); [by rewrite E|]. reflexivity.
Defined.
