(* ===== verification/Boot.v ===== *)
(** * The boot handoff (src/uefi_memory.c, src/boot.c)

    The loader's last act: it takes the firmware's memory map, allocates the boot
    record, the kernel stack and the page bitmaps, fills the record in and leaves
    boot services.  The firmware is a type [F] of states with one operation per
    boot service the code calls ([Firmware]); [FirmwareSpec] states what the UEFI
    specification promises of them, in terms of the live pool buffers, the live
    page ranges and the number of calls of ExitBootServices.  The results show
    that the loader leaks nothing when it returns to the firmware, that it never
    returns once it has tried to exit, and that the record it hands over is one
    the page allocator accepts. *)

From stdpp Require Import base list gmap numbers strings.
From Stdlib Require Import ZArith Lia.
From S2P Require Import Prelude Memory BootInfo Pmm Gop Surface Devices Files Console Kconsole.

Open Scope Z_scope.

Definition EFIERR (code : Z) : Z := Z.lor 0x8000000000000000 code.
Definition EFI_SUCCESS : Z := 0.
Definition EFI_INVALID_PARAMETER : Z := EFIERR 2.
Definition EFI_BAD_BUFFER_SIZE : Z := EFIERR 4.
Definition EFI_BUFFER_TOO_SMALL : Z := EFIERR 5.
Definition EFI_OUT_OF_RESOURCES : Z := EFIERR 9.
Definition EFI_NOT_FOUND : Z := EFIERR 14.

Definition EfiLoaderCode : Z := 1.
Definition EfiLoaderData : Z := 2.
Definition EfiUnusableMemory : Z := 8.
Definition EfiACPIMemoryNVS : Z := 10.
Definition EfiPersistentMemory : Z := 14.
Definition AllocateAnyPages : Z := 0.

(** [sizeof(EFI_MEMORY_DESCRIPTOR)] *)
Definition EFI_MEMORY_DESCRIPTOR_SIZE : Z := 40.

Record EFI_GUID := mk_guid { Data1 : Z; Data2 : Z; Data3 : Z; Data4 : list Z }.
Definition EFI_LOADED_IMAGE_PROTOCOL_GUID : EFI_GUID :=
  mk_guid 0x5b1b31a1 0x9562 0x11d2 [0x8e;0x3f;0x00;0xa0;0xc9;0x69;0x72;0x3b].
Definition EFI_ACPI_TABLE_GUID : EFI_GUID :=
  mk_guid 0xeb9d2d30 0x2d88 0x11d3 [0x9a;0x16;0x00;0x90;0x27;0x3f;0xc1;0x4d].
Definition EFI_ACPI_20_TABLE_GUID : EFI_GUID :=
  mk_guid 0x8868e871 0xe4f1 0x11d3 [0xbc;0x22;0x00;0x80;0xc7;0x3c;0x88;0x81].

Record EFI_CONFIGURATION_TABLE := mk_table { VendorGuid : EFI_GUID; VendorTable : Z }.
(** The fields of the loaded-image protocol the loader reads. *)
Record EFI_LOADED_IMAGE_PROTOCOL := mk_image { ImageBase : Z; ImageSize : Z }.

(** The status and the values of the four out-parameters of GetMemoryMap. *)
Record map_reply := mk_reply {
  mr_status : Z;
  mr_size : Z;
  mr_key : Z;
  mr_descriptor_size : Z;
  mr_descriptor_version : Z }.

(** The boot services.  Allocations answer a status and an address;
    [fw_bytes f a n] is the [n] bytes of memory at [a]. *)
Class Firmware (F : Type) := {
  GetMemoryMap : F -> Z -> Z -> map_reply * F;
  AllocatePool : F -> Z -> Z -> Z * Z * F;
  FreePool : F -> Z -> F;
  AllocatePages : F -> Z -> Z -> Z -> Z * Z * F;
  FreePages : F -> Z -> Z -> F;
  HandleProtocol : F -> Z -> EFI_GUID -> Z * option EFI_LOADED_IMAGE_PROTOCOL * F;
  ExitBootServices : F -> Z -> Z -> Z * F;
  fw_bytes : F -> Z -> Z -> list Z }.

(** The memory map with the address of its buffer. *)
Record uefi_map := mk_uefi_map { um_buffer : Z; um_map : memory_map_t }.
Definition map0 : uefi_map := mk_uefi_map 0 (mk_map None 0 0 0 0 0).

Section boot.
Context {F : Type} `{Firmware F}.
Implicit Types f : F.

(** ** src/uefi_memory.c *)

(** The attempts that are left, with the size last required. *)
Fixpoint acquire_attempts (attempts : nat) f (required descriptor_size : Z) : Z * uefi_map * F :=
  match attempts with
  | O => (EFI_BUFFER_TOO_SMALL, map0, f)
  | S attempts' =>
      if (UINT64_MAX - required) / 8 <? descriptor_size then (EFI_OUT_OF_RESOURCES, map0, f)
      else
        let capacity := u64 (required + u64 (descriptor_size * 8)) in
        let '(status, buffer, f) := AllocatePool f EfiLoaderData capacity in
        if status !=? EFI_SUCCESS then (status, map0, f)
        else
          let '(r, f) := GetMemoryMap f capacity buffer in
          if mr_status r =? EFI_SUCCESS then
            if (mr_descriptor_size r <? EFI_MEMORY_DESCRIPTOR_SIZE) || (mr_size r mod mr_descriptor_size r !=? 0)
            then (EFI_BAD_BUFFER_SIZE, map0, FreePool f buffer)
            else (EFI_SUCCESS,
                  mk_uefi_map buffer (mk_map (Some (fw_bytes f buffer (mr_size r))) (mr_size r) capacity (mr_key r)
                    (mr_descriptor_size r) (mr_descriptor_version r)), f)
          else
            let f := FreePool f buffer in
            if mr_status r !=? EFI_BUFFER_TOO_SMALL then (mr_status r, map0, f)
            else acquire_attempts attempts' f (mr_size r) (mr_descriptor_size r)
  end.

Definition uefi_memory_map_acquire f : Z * uefi_map * F :=
  let '(r, f) := GetMemoryMap f 0 0 in
  if mr_status r !=? EFI_BUFFER_TOO_SMALL then (mr_status r, map0, f)
  else if mr_descriptor_size r <? EFI_MEMORY_DESCRIPTOR_SIZE then (EFI_BAD_BUFFER_SIZE, map0, f)
  else acquire_attempts 4 f (mr_size r) (mr_descriptor_size r).

Definition uefi_memory_map_release f (map : uefi_map) : uefi_map * F :=
  if nz (um_buffer map)
  then (mk_uefi_map 0 (mk_map None 0 0 (map_key (um_map map)) (map_descriptor_size (um_map map))
          (map_descriptor_version (um_map map))), FreePool f (um_buffer map))
  else (map, f).

(** ** src/boot.c *)

Definition KERNEL_STACK_PAGES : Z := 16.
Definition KERNEL_STACK_ALLOCATION_PAGES : Z := KERNEL_STACK_PAGES + 1.
Definition ARGUS_BOOT_INFO_VERSION : Z := 2.

Definition guid_equal (a b : EFI_GUID) : bool :=
  if (Data1 a !=? Data1 b) || (Data2 a !=? Data2 b) || (Data3 a !=? Data3 b) then false
  else zall (fun i => zget 0 (Data4 a) i =? zget 0 (Data4 b) i) 0 8.

Fixpoint find_rsdp (tables : list EFI_CONFIGURATION_TABLE) (legacy : Z) : Z :=
  match tables with
  | [] => legacy
  | entry :: tables' =>
      if guid_equal (VendorGuid entry) EFI_ACPI_20_TABLE_GUID then VendorTable entry
      else find_rsdp tables' (if guid_equal (VendorGuid entry) EFI_ACPI_TABLE_GUID then VendorTable entry else legacy)
  end.
Definition find_acpi_rsdp (tables : list EFI_CONFIGURATION_TABLE) : Z := find_rsdp tables 0.

Definition range0 : physical_range_t := mk_range 0 0.

Definition allocate_pages f (pages : Z) : Z * physical_range_t * F :=
  let '(status, address, f) := AllocatePages f AllocateAnyPages EfiLoaderData pages in
  if status !=? EFI_SUCCESS then (status, range0, f)
  else (EFI_SUCCESS, mk_range address (u64 (pages * ARGUS_PAGE_SIZE)), f).

Definition memory_type_needs_tracking (type : Z) : bool :=
  ((EfiLoaderCode <=? type) && (type <=? EfiACPIMemoryNVS) && (type !=? EfiUnusableMemory)) ||
  (type =? EfiPersistentMemory).

(** One descriptor of the loop. *)
Definition track (highest : Z) (descriptor : efi_memory_descriptor) : Z :=
  if memory_type_needs_tracking (md_type descriptor) &&
     (md_number_of_pages descriptor <=? (UINT64_MAX - md_physical_start descriptor) / ARGUS_PAGE_SIZE)
  then
    let range_end := u64 (md_physical_start descriptor + u64 (md_number_of_pages descriptor * ARGUS_PAGE_SIZE)) in
    let end_page := range_end / ARGUS_PAGE_SIZE in
    if highest <? end_page then end_page else highest
  else highest.
Definition highest_tracked_page (map : memory_map_t) : Z := fold_left track (map_descriptors map) 0.

Definition format_code (f : EFI_GRAPHICS_PIXEL_FORMAT) : Z :=
  match f with
  | PixelRedGreenBlueReserved8BitPerColor => 0
  | PixelBlueGreenRedReserved8BitPerColor => 1
  | PixelBitMask => 2
  | PixelBltOnly => 3
  | PixelFormatMax => 4
  end.

(** [gop] is the framebuffer when the console uses it.  (The channel masks are
    copied too; the record has no field for them, as nothing reads them later.) *)
Definition capture_framebuffer (gop : option argus_gop_t) : framebuffer_info_t :=
  match gop with
  | None => mk_framebuffer 0 0 0 0 0 0 0
  | Some g => mk_framebuffer (gop_fb_base g) (gop_fb_size g) (gop_width g) (gop_height g) (gop_pitch_pixels g)
                (format_code (gop_format g)) 1
  end.

Definition free_range f (range : physical_range_t) : F :=
  if nz (range_base range) && nz (range_size range)
  then FreePages f (range_base range) (range_size range / ARGUS_PAGE_SIZE) else f.

(** The record in the zeroed page. *)
Definition prepare_allocations f (page_count : Z) : Z * option boot_info_t * F :=
  let bytes_per_bitmap := u64 (page_count + 7) / 8 in
  if UINT64_MAX / 2 <? bytes_per_bitmap then (EFI_OUT_OF_RESOURCES, None, f)
  else
    let bitmap_storage_bytes := u64 (bytes_per_bitmap * 2) in
    let bitmap_pages := u64 (u64 (bitmap_storage_bytes + ARGUS_PAGE_SIZE) - 1) / ARGUS_PAGE_SIZE in
    let '(status, info_range, f) := allocate_pages f 1 in
    if status !=? EFI_SUCCESS then (status, None, f)
    else
      let '(status, stack_range, f) := allocate_pages f KERNEL_STACK_ALLOCATION_PAGES in
      if status !=? EFI_SUCCESS then (status, None, free_range f info_range)
      else
        let '(status, bitmap_range, f) := allocate_pages f bitmap_pages in
        if status !=? EFI_SUCCESS then (status, None, free_range (free_range f stack_range) info_range)
        else
          (EFI_SUCCESS,
           Some (mk_boot_info ARGUS_BOOT_INFO_MAGIC ARGUS_BOOT_INFO_VERSION 0 0 (um_map map0)
                   (capture_framebuffer None) 0 range0 info_range stack_range
                   (mk_range (range_base stack_range) ARGUS_PAGE_SIZE) bitmap_range range0 page_count bytes_per_bitmap),
           f).

(** The fields [boot_kernel] fills in before the handoff. *)
Definition describe_machine (info : boot_info_t) (image : EFI_LOADED_IMAGE_PROTOCOL) (self_test rsdp : Z)
    (fb : framebuffer_info_t) : boot_info_t :=
  mk_boot_info (bi_magic info) (bi_version info) (bi_boot_services_exited info) self_test (bi_memory_map info) fb rsdp
    (mk_range (ImageBase image) (ImageSize image)) (bi_boot_info_storage info) (bi_kernel_stack info)
    (bi_kernel_stack_guard info) (bi_pmm_bitmap_storage info) (bi_memory_map_storage info) (bi_pmm_page_count info)
    (bi_pmm_bitmap_bytes info).
Definition describe_map (info : boot_info_t) (map : uefi_map) : boot_info_t :=
  mk_boot_info (bi_magic info) (bi_version info) (bi_boot_services_exited info) (bi_kernel_self_test info) (um_map map)
    (bi_framebuffer info) (bi_acpi_rsdp info) (bi_kernel_image info) (bi_boot_info_storage info) (bi_kernel_stack info)
    (bi_kernel_stack_guard info) (bi_pmm_bitmap_storage info) (mk_range (um_buffer map) (map_capacity (um_map map)))
    (bi_pmm_page_count info) (bi_pmm_bitmap_bytes info).
Definition mark_exited (info : boot_info_t) : boot_info_t :=
  mk_boot_info (bi_magic info) (bi_version info) 1 (bi_kernel_self_test info) (bi_memory_map info)
    (bi_framebuffer info) (bi_acpi_rsdp info) (bi_kernel_image info) (bi_boot_info_storage info) (bi_kernel_stack info)
    (bi_kernel_stack_guard info) (bi_pmm_bitmap_storage info) (bi_memory_map_storage info)
    (bi_pmm_page_count info) (bi_pmm_bitmap_bytes info).

(** How the loader ends: it returns a status to its caller, halts the machine, or
    enters [kernel_main] on the new stack. *)
Inductive boot_outcome :=
| Returned (status : Z)
| Halted (status : Z)
| Entered (stack_top : Z) (info : boot_info_t).

Context {D : Type} `{Hardware D}.
Implicit Types hw : D.

Definition halt_after_handoff_failure (fuel : nat) (uart : bool) f hw (status : Z) : option (boot_outcome * F * D) :=
  hw ← serial_write fuel uart hw (text "EXIT_BOOT_SERVICES_FAILED: ");
  hw ← serial_write_hex64 fuel uart hw status;
  hw ← serial_write fuel uart hw [10];
  Some (Halted status, f, hw).

(** The loop of [boot_kernel]; [status] is the last status of ExitBootServices. *)
Fixpoint handoff_attempts (attempts : nat) (first : bool) (fuel : nat) (uart : bool) (image : Z) (info : boot_info_t)
    f hw (status : Z) : option (boot_outcome * F * D) :=
  match attempts with
  | O => halt_after_handoff_failure fuel uart f hw status
  | S attempts' =>
      let '(status, final_map, f) := uefi_memory_map_acquire f in
      if status !=? EFI_SUCCESS then
        if negb first then halt_after_handoff_failure fuel uart f hw status
        else
          let f := free_range f (bi_pmm_bitmap_storage info) in
          let f := free_range f (bi_kernel_stack info) in
          let f := free_range f (bi_boot_info_storage info) in
          Some (Returned status, f, hw)
      else
        let info := describe_map info final_map in
        let '(status, f) := ExitBootServices f image (map_key (um_map final_map)) in
        if status =? EFI_SUCCESS then
          Some (Entered (u64 (range_base (bi_kernel_stack info) + range_size (bi_kernel_stack info))) (mark_exited info), f, hw)
        else if status !=? EFI_INVALID_PARAMETER then halt_after_handoff_failure fuel uart f hw status
        else
          let '(_, f) := uefi_memory_map_release f final_map in
          handoff_attempts attempts' false fuel uart image info f hw status
  end.

(** [tables]: the system table's configuration tables; [gop]: the framebuffer in
    use; [fuel]: polls of the serial port per byte. *)
Definition boot_kernel (fuel : nat) (image kernel_self_test : Z) (tables : list EFI_CONFIGURATION_TABLE)
    (gop : option argus_gop_t) f hw : option (boot_outcome * F * D) :=
  let '(status, interface, f) := HandleProtocol f image EFI_LOADED_IMAGE_PROTOCOL_GUID in
  match (if status =? EFI_SUCCESS then interface else None) with
  | None => Some (Returned (if status !=? EFI_SUCCESS then status else EFI_NOT_FOUND), f, hw)
  | Some loaded_image =>
      let '(status, preliminary_map, f) := uefi_memory_map_acquire f in
      if status !=? EFI_SUCCESS then Some (Returned status, f, hw)
      else
        let page_count := highest_tracked_page (um_map preliminary_map) in
        let '(_, f) := uefi_memory_map_release f preliminary_map in
        if negb (nz page_count) then Some (Returned EFI_NOT_FOUND, f, hw)
        else
          let '(status, info, f) := prepare_allocations f page_count in
          match info with
          | None => Some (Returned status, f, hw)
          | Some info =>
              let info := describe_machine info loaded_image kernel_self_test (find_acpi_rsdp tables)
                            (capture_framebuffer gop) in
              let '(uart, hw) := serial_init hw in
              hw ← serial_write fuel uart hw (text "ARGUS_HANDOFF_BEGIN" ++ [10]);
              handoff_attempts 4 true fuel uart image info f hw EFI_SUCCESS
          end
  end.
End boot.

(** ** What the firmware promises *)

Definition word64 (x : Z) : Prop := 0 <= x <= UINT64_MAX.

(** [pools]: the live pool buffers; [pages]: the live page ranges, as base and
    number of pages; [exits]: the calls of ExitBootServices so far. *)
Class FirmwareSpec (F : Type) `{Firmware F} (pools : F -> gset Z) (pages : F -> gset (Z * Z)) (exits : F -> Z) := {
  (** A map is not returned without a buffer; what is returned fits the buffer. *)
  fs_probe : forall f, mr_status (fst (GetMemoryMap f 0 0)) <> EFI_SUCCESS;
  fs_map : forall f size buffer, let '(r, f') := GetMemoryMap f size buffer in
    word64 (mr_size r) /\ word64 (mr_descriptor_size r) /\ (mr_status r = EFI_SUCCESS -> mr_size r <= size)
    /\ pools f' = pools f /\ pages f' = pages f /\ exits f' = exits f;
  fs_pool : forall f type size, let '(status, buffer, f') := AllocatePool f type size in
    pages f' = pages f /\ exits f' = exits f /\
    (status <> EFI_SUCCESS -> pools f' = pools f) /\
    (status = EFI_SUCCESS -> 0 < buffer <= UINT64_MAX /\ (buffer ∉ pools f) /\ pools f' = {[ buffer ]} ∪ pools f);
  fs_free_pool : forall f buffer, let f' := FreePool f buffer in
    pages f' = pages f /\ exits f' = exits f /\ pools f' = pools f ∖ {[ buffer ]};
  fs_pages : forall f how type n, let '(status, base, f') := AllocatePages f how type n in
    pools f' = pools f /\ exits f' = exits f /\
    (status <> EFI_SUCCESS -> pages f' = pages f) /\
    (status = EFI_SUCCESS -> 0 < base /\ base + n * ARGUS_PAGE_SIZE <= UINT64_MAX /\ ((base, n) ∉ pages f)
                             /\ pages f' = {[ (base, n) ]} ∪ pages f);
  fs_free_pages : forall f base n, let f' := FreePages f base n in
    pools f' = pools f /\ exits f' = exits f /\ pages f' = pages f ∖ {[ (base, n) ]};
  fs_protocol : forall f image guid, let '(status, interface, f') := HandleProtocol f image guid in
    pools f' = pools f /\ pages f' = pages f /\ exits f' = exits f /\
    (forall i, interface = Some i -> word64 (ImageBase i) /\ word64 (ImageSize i));
  fs_exit : forall f image key, exits (snd (ExitBootServices f image key)) = exits f + 1;
  fs_bytes : forall f address n, Forall (fun b => 0 <= b < 256) (fw_bytes f address n) }.

Section boot_theory.
Context {F : Type} `{Firmware F} (pools : F -> gset Z) (pages : F -> gset (Z * Z)) (exits : F -> Z).
Context `{!FirmwareSpec F pools pages exits}.
Implicit Types f : F.

(** The loader holds what it held. *)
Definition balanced (f f' : F) : Prop := pools f' = pools f /\ pages f' = pages f /\ exits f' = exits f.

Lemma balanced_refl f : balanced f f.
Proof. done. Qed.
Lemma balanced_trans f f1 f2 : balanced f f1 -> balanced f1 f2 -> balanced f f2.
Proof. intros (A & B & C) (A' & B' & C'). unfold balanced. by rewrite A', B', C', A, B, C. Qed.

(** A map that was acquired: its buffer is the one pool that is new. *)
Definition acquired (f : F) (map : uefi_map) (f' : F) : Prop :=
  0 < um_buffer map <= UINT64_MAX /\ (um_buffer map ∉ pools f) /\ pools f' = {[ um_buffer map ]} ∪ pools f
  /\ pages f' = pages f /\ exits f' = exits f
  /\ (exists bytes, map_buffer (um_map map) = Some bytes /\ Forall (fun b => 0 <= b < 256) bytes)
  /\ EFI_MEMORY_DESCRIPTOR_SIZE <= map_descriptor_size (um_map map)
  /\ map_size (um_map map) mod map_descriptor_size (um_map map) = 0
  /\ 0 <= map_size (um_map map) <= map_capacity (um_map map) /\ map_capacity (um_map map) <= UINT64_MAX.

Definition acquire_result (f : F) (r : Z * uefi_map * F) : Prop :=
  let '(status, map, f') := r in
  (status = EFI_SUCCESS /\ acquired f map f') \/ (status <> EFI_SUCCESS /\ map = map0 /\ balanced f f').

Lemma acquire_result_from f f1 r : balanced f f1 -> acquire_result f1 r -> acquire_result f r.
Proof.
  destruct r as [[status map] f']. intros B [[Hs A]|(Hs & Hm & B')]; [left|right].
  - split; [done|]. destruct B as (P & Q & R), A as (A1 & A2 & A3 & A4 & A5 & A6). unfold acquired.
    rewrite <- P, <- Q, <- R. done.
  - split_and!; [done|done|]. by eapply balanced_trans.
Qed.

(** A buffer allocated and freed again. *)
Lemma pool_round_trip f f1 f2 buffer :
  buffer ∉ pools f -> pools f1 = {[ buffer ]} ∪ pools f -> pages f1 = pages f -> exits f1 = exits f ->
  balanced f1 f2 -> balanced f (FreePool f2 buffer).
Proof.
  intros Hn A B C (A' & B' & C'). destruct (fs_free_pool f2 buffer) as (P & E & L). unfold balanced.
  rewrite P, E, L, A', B', C', A, B, C. split_and!; try done. set_solver.
Qed.

Lemma acquire_attempts_spec n : forall f required descriptor_size,
  word64 required -> word64 descriptor_size -> acquire_result f (acquire_attempts n f required descriptor_size).
Proof.
  induction n as [|n IH]; intros f required ds Hr Hd; cbn [acquire_attempts]; [by right|].
  case_if; [by right|]. cbv zeta. set (capacity := u64 _).
  pose proof (fs_pool f EfiLoaderData capacity) as Hp. destruct (AllocatePool f EfiLoaderData capacity) as [[status buffer] f1].
  destruct Hp as (P1 & E1 & Hfail & Hok). case_if; b2p; [right; unfold balanced; by auto|]. destruct Hok as (Hb & Hn & L1); [done|].
  pose proof (fs_map f1 capacity buffer) as Hm. destruct (GetMemoryMap f1 capacity buffer) as [r f2].
  destruct Hm as (W1 & W2 & Hsz & B2). assert (balanced f (FreePool f2 buffer)) as Hback by (by eapply pool_round_trip).
  case_if; b2p.
  - case_if; [by right|]. b2p. left. split; [done|]. destruct B2 as (A & B & C). unfold acquired. cbn.
    rewrite A, B, C, L1, P1, E1. pose proof (u64_range (required + u64 (ds * 8))) as Hc. fold capacity in Hc.
    specialize (Hsz ltac:(done)). destruct W1. split_and!; try done; try lia.
    eexists. split; [done|]. apply fs_bytes.
  - case_if; b2p; [by right|]. eapply acquire_result_from; [exact Hback|]. by apply IH.
Qed.

Lemma acquire_spec f : acquire_result f (uefi_memory_map_acquire f).
Proof.
  unfold uefi_memory_map_acquire. pose proof (fs_map f 0 0) as Hm. pose proof (fs_probe f) as Hp.
  destruct (GetMemoryMap f 0 0) as [r f1]. cbn in Hp. destruct Hm as (W1 & W2 & _ & B).
  case_if; b2p; [by right|]. case_if; [by right|]. eapply acquire_result_from; [exact B|]. by apply acquire_attempts_spec.
Qed.

Lemma release_spec f map f1 f2 :
  acquired f map f1 -> balanced f1 f2 -> balanced f (snd (uefi_memory_map_release f2 map)).
Proof.
  intros (A1 & A2 & A3 & A4 & A5 & _) B. unfold uefi_memory_map_release.
  destruct (nz (um_buffer map)) eqn:E; [|b2p; lia]. by eapply pool_round_trip.
Qed.

(** [uefi_memory_map_acquire] ends after at most four attempts with either a
    complete map in exactly one new pool buffer, whose size is a whole number
    of descriptors at least as long as the structure the kernel reads, or an
    error and every buffer it allocated on the way freed again; releasing an
    acquired map gives the buffer back. *)
Theorem uefi_memory_map_acquire_balanced f :
  acquire_result f (uefi_memory_map_acquire f) /\
  forall map f1, uefi_memory_map_acquire f = (EFI_SUCCESS, map, f1) ->
    balanced f (snd (uefi_memory_map_release f1 map)).
Proof.
  pose proof (acquire_spec f) as H1. split; [done|]. intros map f1 E. rewrite E in H1.
  destruct H1 as [[_ A]|[? _]]; [|done]. eapply release_spec; [exact A|apply balanced_refl].
Qed.

(** ** The pages of the handoff *)

(** The boot record, the stack and the bitmaps, held in page ranges [i], [s] and
    [b] that were not live before. *)
Record holding (f : F) (info : boot_info_t) (f' : F) : Prop := {
  ho_same : pools f' = pools f /\ exits f' = exits f;
  ho_pages : exists i s b n : Z,
    bi_boot_info_storage info = mk_range i (1 * ARGUS_PAGE_SIZE)
    /\ bi_kernel_stack info = mk_range s (KERNEL_STACK_ALLOCATION_PAGES * ARGUS_PAGE_SIZE)
    /\ bi_pmm_bitmap_storage info = mk_range b (n * ARGUS_PAGE_SIZE)
    /\ 0 < i /\ 0 < s /\ 0 < b /\ 0 < n
    /\ i + ARGUS_PAGE_SIZE <= UINT64_MAX
    /\ s + KERNEL_STACK_ALLOCATION_PAGES * ARGUS_PAGE_SIZE <= UINT64_MAX /\ b + n * ARGUS_PAGE_SIZE <= UINT64_MAX
    /\ 2 * bi_pmm_bitmap_bytes info <= n * ARGUS_PAGE_SIZE
    /\ ((i, 1) ∉ pages f) /\ ((s, KERNEL_STACK_ALLOCATION_PAGES) ∉ ({[ (i, 1) ]} ∪ pages f))
    /\ ((b, n) ∉ ({[ (s, KERNEL_STACK_ALLOCATION_PAGES) ]} ∪ ({[ (i, 1) ]} ∪ pages f)))
    /\ pages f' = {[ (b, n) ]} ∪ ({[ (s, KERNEL_STACK_ALLOCATION_PAGES) ]} ∪ ({[ (i, 1) ]} ∪ pages f)) }.

(** What the record says before the memory map is final. *)
Record prepared (info : boot_info_t) : Prop := {
  pr_magic : bi_magic info = ARGUS_BOOT_INFO_MAGIC;
  pr_count : 0 < bi_pmm_page_count info <= 8 * bi_pmm_bitmap_bytes info;
  pr_address : bi_pmm_page_count info * ARGUS_PAGE_SIZE <= UINT64_MAX;
  pr_guard : bi_kernel_stack_guard info = mk_range (range_base (bi_kernel_stack info)) ARGUS_PAGE_SIZE }.

Lemma allocate_pages_spec f n :
  0 < n -> n * ARGUS_PAGE_SIZE <= UINT64_MAX ->
  let '(status, range, f') := allocate_pages f n in
  pools f' = pools f /\ exits f' = exits f /\
  ((status <> EFI_SUCCESS /\ range = range0 /\ pages f' = pages f) \/
   (status = EFI_SUCCESS /\ exists base, range = mk_range base (n * ARGUS_PAGE_SIZE) /\ 0 < base
      /\ base + n * ARGUS_PAGE_SIZE <= UINT64_MAX /\ ((base, n) ∉ pages f) /\ pages f' = {[ (base, n) ]} ∪ pages f)).
Proof.
  intros Hn Hb. unfold allocate_pages. pose proof (fs_pages f AllocateAnyPages EfiLoaderData n) as Hp.
  destruct (AllocatePages _ _ _ _) as [[status base] f1]. destruct Hp as (P & E & Hfail & Hok). case_if; b2p.
  - split_and!; try done. left. by auto.
  - split_and!; try done. right. destruct Hok as (A & B & C & D'); [done|]. split; [done|]. exists base.
    rewrite u64_id by (unfold ARGUS_PAGE_SIZE in *; lia). done.
Qed.

Lemma free_range_live f base n :
  0 < base -> 0 < n ->
  let f' := free_range f (mk_range base (n * ARGUS_PAGE_SIZE)) in
  pools f' = pools f /\ exits f' = exits f /\ pages f' = pages f ∖ {[ (base, n) ]}.
Proof.
  intros Hb Hn. unfold free_range. cbn [range_base range_size].
  destruct (nz base && nz (n * ARGUS_PAGE_SIZE)) eqn:E.
  - rewrite Z.div_mul by done. apply fs_free_pages.
  - unfold ARGUS_PAGE_SIZE in *. apply andb_false_iff in E as [E|E]; b2p; lia.
Qed.

Lemma bitmap_arithmetic page_count :
  0 < page_count -> page_count * ARGUS_PAGE_SIZE <= UINT64_MAX ->
  let bytes := u64 (page_count + 7) / 8 in
  let n := u64 (u64 (u64 (bytes * 2) + ARGUS_PAGE_SIZE) - 1) / ARGUS_PAGE_SIZE in
  bytes <= UINT64_MAX / 2 /\ page_count <= 8 * bytes /\ 0 < n /\ 2 * bytes <= n * ARGUS_PAGE_SIZE
  /\ n * ARGUS_PAGE_SIZE <= UINT64_MAX.
Proof.
  unfold ARGUS_PAGE_SIZE, UINT64_MAX. intros Hp Hb. cbv zeta. rewrite (u64_id (page_count + 7)) by (unfold UINT64_MAX; lia).
  set (bytes := (page_count + 7) / 8).
  assert (page_count <= 8 * bytes <= page_count + 7) as Hby.
  { unfold bytes. pose proof (Z.div_mod (page_count + 7) 8). pose proof (Z.mod_pos_bound (page_count + 7) 8). lia. }
  rewrite (u64_id (bytes * 2)), (u64_id (bytes * 2 + 4096)), (u64_id (bytes * 2 + 4096 - 1)) by (unfold UINT64_MAX; lia).
  set (n := (bytes * 2 + 4096 - 1) / 4096).
  assert (bytes * 2 <= 4096 * n <= bytes * 2 + 4095) as Hn.
  { unfold n. pose proof (Z.div_mod (bytes * 2 + 4096 - 1) 4096). pose proof (Z.mod_pos_bound (bytes * 2 + 4096 - 1) 4096). lia. }
  change (18446744073709551615 / 2) with 9223372036854775807. lia.
Qed.

Lemma prepare_spec f page_count :
  0 < page_count -> page_count * ARGUS_PAGE_SIZE <= UINT64_MAX ->
  let '(status, info, f') := prepare_allocations f page_count in
  match info with
  | None => status <> EFI_SUCCESS /\ balanced f f'
  | Some info => holding f info f' /\ prepared info
  end.
Proof.
  intros Hp Hb. unfold prepare_allocations. cbv zeta.
  destruct (bitmap_arithmetic page_count Hp Hb) as (B1 & B2 & B3 & B4 & B5).
  set (bytes := u64 (page_count + 7) / 8) in *. set (n := u64 (u64 (u64 (bytes * 2) + ARGUS_PAGE_SIZE) - 1) / ARGUS_PAGE_SIZE) in *.
  rewrite (proj2 (Z.ltb_ge _ _)) by done.
  pose proof (allocate_pages_spec f 1 ltac:(lia) ltac:(done)) as H1.
  destruct (allocate_pages f 1) as [[s1 r1] f1]. destruct H1 as (P1 & E1 & H1). case_if; b2p.
  { destruct H1 as [(Hs & _ & Hg)|[? _]]; [|done]. by repeat split. }
  destruct H1 as [[? _]|(_ & i & -> & Hi & Hie & Hin & Hpi)]; [done|].
  pose proof (allocate_pages_spec f1 KERNEL_STACK_ALLOCATION_PAGES ltac:(done) ltac:(done)) as H2.
  destruct (allocate_pages f1 KERNEL_STACK_ALLOCATION_PAGES) as [[s2 r2] f2]. destruct H2 as (P2 & E2 & H2). case_if; b2p.
  { destruct H2 as [(Hs & _ & Hg)|[? _]]; [|done]. split; [done|].
    destruct (free_range_live f2 i 1 Hi) as (A & B & C); [lia|]. unfold balanced.
    rewrite A, B, C, P2, E2, Hg, P1, E1, Hpi. split_and!; try done. set_solver. }
  destruct H2 as [[? _]|(_ & s & -> & Hs & Hse & Hsn & Hps)]; [done|]. rewrite Hpi in Hsn, Hps.
  pose proof (allocate_pages_spec f2 n B3 B5) as H3.
  destruct (allocate_pages f2 n) as [[s3 r3] f3]. destruct H3 as (P3 & E3 & H3). case_if; b2p.
  { destruct H3 as [(Hf & _ & Hg)|[? _]]; [|done]. split; [done|].
    destruct (free_range_live f3 s KERNEL_STACK_ALLOCATION_PAGES Hs) as (A & B & C); [done|].
    destruct (free_range_live (free_range f3 (mk_range s (KERNEL_STACK_ALLOCATION_PAGES * ARGUS_PAGE_SIZE))) i 1 Hi) as (A' & B' & C'); [lia|].
    unfold balanced. rewrite A', B', C', A, B, C, P3, E3, Hg, P2, E2, Hps, P1, E1. split_and!; try done. set_solver. }
  destruct H3 as [[? _]|(_ & b & -> & Hb' & Hbe & Hbn & Hpb)]; [done|]. rewrite Hps in Hbn, Hpb.
  split; constructor; cbn; try done; try lia.
  - by rewrite P3, E3, P2, E2.
  - exists i, s, b, n. split_and!; try done; lia.
Qed.

(** Giving the three ranges back. *)
Lemma holding_release f info f1 f2 :
  holding f info f1 -> balanced f1 f2 ->
  balanced f (free_range (free_range (free_range f2 (bi_pmm_bitmap_storage info)) (bi_kernel_stack info))
                (bi_boot_info_storage info)).
Proof.
  intros [[P E] (i & s & b & n & -> & -> & -> & Hi & Hs & Hb & Hn & _ & _ & _ & _ & Fi & Fs & Fb & Hp)] (A & B & C).
  destruct (free_range_live f2 b n Hb Hn) as (A1 & B1 & C1). cbv zeta in *.
  set (f3 := free_range f2 _) in *. destruct (free_range_live f3 s KERNEL_STACK_ALLOCATION_PAGES Hs) as (A2 & B2 & C2); [done|].
  set (f4 := free_range f3 _) in *. destruct (free_range_live f4 i 1 Hi) as (A3 & B3 & C3); [lia|].
  unfold balanced. rewrite A3, B3, C3, A2, B2, C2, A1, B1, C1, A, B, C, P, E, Hp. split_and!; try done. set_solver.
Qed.

Lemma highest_tracked_bound (map : memory_map_t) :
  match map_buffer map with Some bytes => Forall (fun b => 0 <= b < 256) bytes | None => True end ->
  0 <= highest_tracked_page map /\ highest_tracked_page map * ARGUS_PAGE_SIZE <= UINT64_MAX.
Proof.
  intros Hb. unfold highest_tracked_page.
  assert (Forall (fun d => 0 <= md_physical_start d <= UINT64_MAX /\ 0 <= md_number_of_pages d <= UINT64_MAX)
    (map_descriptors map)) as Hd.
  { unfold map_descriptors. destruct (map_buffer map); [by apply walk_descriptors_bound|constructor]. }
  assert (forall h, 0 <= h /\ h * ARGUS_PAGE_SIZE <= UINT64_MAX ->
    0 <= fold_left track (map_descriptors map) h /\ fold_left track (map_descriptors map) h * ARGUS_PAGE_SIZE <= UINT64_MAX)
    as Hf; [|by apply Hf].
  induction (map_descriptors map) as [|d l IH]; intros h Hh; [done|]. cbn [fold_left].
  inversion_clear Hd as [|? ? Hd1 Hd2]. apply IH; [done|]. unfold track. cbv zeta. case_if; [|done]. case_if; [|done].
  pose proof (u64_range (md_physical_start d + u64 (md_number_of_pages d * ARGUS_PAGE_SIZE))) as Hr. set (e := u64 _) in *.
  unfold ARGUS_PAGE_SIZE in *. pose proof (Z.div_mod e 4096). pose proof (Z.mod_pos_bound e 4096).
  pose proof (Z.div_pos e 4096). lia.
Qed.

(** ** The handoff *)

Context {D : Type} `{Hardware D} (patience : nat) (wire : D -> list Z) `{!Uart patience wire}.
Implicit Types hw : D.

Lemma serial_write_total uart hw s : exists hw', serial_write patience uart hw s = Some hw'.
Proof.
  revert hw. induction s as [|c s IH]; intros hw; cbn; [eauto|]. case_if; [eauto|].
  destruct (serial_putc_spec patience wire uart hw c) as (hw1 & -> & _). cbn. apply IH.
Qed.

Lemma serial_put_all_total uart hw s : exists hw', serial_put_all patience uart hw s = Some hw'.
Proof.
  revert hw. induction s as [|c s IH]; intros hw; cbn; [eauto|].
  destruct (serial_putc_spec patience wire uart hw c) as (hw1 & -> & _). cbn. apply IH.
Qed.

Lemma halt_total uart f hw status :
  exists hw', halt_after_handoff_failure patience uart f hw status = Some (Halted status, f, hw').
Proof.
  unfold halt_after_handoff_failure, serial_write_hex64.
  destruct (serial_write_total uart hw (text "EXIT_BOOT_SERVICES_FAILED: ")) as [h1 ->].
  change (mbind ?k (Some h1)) with (k h1). cbv beta.
  destruct (serial_write_total uart h1 (text "0x")) as [h2 ->]. change (mbind ?k (Some h2)) with (k h2). cbv beta.
  destruct (serial_put_all_total uart h2 (hex_text status)) as [h3 ->]. change (mbind ?k (Some h3)) with (k h3). cbv beta.
  destruct (serial_write_total uart h3 [10]) as [h4 ->]. by exists h4.
Qed.

(** The outcomes, relative to the firmware the loader started on and the record
    it prepared. *)
Definition handoff_ok (f0 : F) (info : boot_info_t) (o : boot_outcome) (f : F) : Prop :=
  match o with
  | Returned status => status <> EFI_SUCCESS /\ balanced f0 f
  | Halted _ => exits f0 < exits f
  | Entered stack_top info' =>
      exits f0 < exits f
      /\ stack_top = range_base (bi_kernel_stack info) + range_size (bi_kernel_stack info)
      /\ exists map g g', acquired g map g' /\ info' = mark_exited (describe_map info map)
  end.

Lemma handoff_attempts_spec n : forall (first : bool) uart image f0 info f hw status,
  (if first then holding f0 info f else exits f0 < exits f) -> (first = true -> (0 < n)%nat) ->
  word64 (range_base (bi_kernel_stack info) + range_size (bi_kernel_stack info)) ->
  exists o f' hw', handoff_attempts n first patience uart image info f hw status = Some (o, f', hw')
    /\ handoff_ok f0 info o f'.
Proof.
  induction n as [|n IH]; intros first uart image f0 info f hw status Hst Hn Hstack; cbn [handoff_attempts].
  { destruct first; [specialize (Hn eq_refl); lia|]. destruct (halt_total uart f hw status) as [hw' ->].
    by eexists _, _, _. }
  assert (exits f0 <= exits f) as Hle by (destruct first; [destruct Hst as [[_ ->] _]|]; lia).
  pose proof (acquire_spec f) as Ha. destruct (uefi_memory_map_acquire f) as [[s1 map] f1]. cbv beta iota.
  destruct Ha as [[-> A]|(Hs & _ & B)].
  - cbn [Z.eqb negb EFI_SUCCESS]. pose proof (fs_exit f1 image (map_key (um_map map))) as He.
    destruct (ExitBootServices f1 image (map_key (um_map map))) as [s2 f2]. cbn [snd] in He.
    pose proof A as (_ & _ & _ & _ & Ae & _). assert (exits f0 < exits f2) as Hlt by lia.
    cbv beta iota. destruct (s2 =? EFI_SUCCESS) eqn:E2.
    { eexists _, _, _. split; [reflexivity|]. split; [done|]. split; [by apply u64_id|]. by exists map, f, f1. }
    destruct (negb (s2 =? EFI_INVALID_PARAMETER)).
    { destruct (halt_total uart f2 hw s2) as [hw' ->]. by eexists _, _, _. }
    assert (exits (snd (uefi_memory_map_release f2 map)) = exits f2) as Hrel.
    { unfold uefi_memory_map_release. case_if; [|done]. apply (fs_free_pool f2 (um_buffer map)). }
    destruct (uefi_memory_map_release f2 map) as [m3 f3]. cbn [snd] in Hrel.
    destruct (IH false uart image f0 (describe_map info map) f3 hw s2) as (o & f' & hw' & E & O); [lia|done|done|].
    exists o, f', hw'. split; [done|]. destruct o; try done.
  - rewrite (proj2 (Z.eqb_neq _ _) Hs). cbn [negb]. destruct first; cbn [negb].
    + eexists _, _, _. split; [reflexivity|]. split; [done|]. by eapply holding_release.
    + destruct (halt_total uart f1 hw s1) as [hw' ->]. eexists _, _, _. split; [reflexivity|].
      cbn. destruct B as (_ & _ & ->). done.
Qed.

(** What the machine tells the loader has the width of its registers. *)
Definition tables_wf (tables : list EFI_CONFIGURATION_TABLE) : Prop := Forall (fun t => word64 (VendorTable t)) tables.
Definition gop_wf (gop : option argus_gop_t) : Prop :=
  match gop with Some g => word64 (gop_fb_base g) /\ word64 (gop_fb_size g) | None => True end.

Lemma find_rsdp_word tables legacy : tables_wf tables -> word64 legacy -> word64 (find_rsdp tables legacy).
Proof.
  revert legacy. induction tables as [|t tables IH]; intros legacy Ht Hl; cbn; [done|].
  inversion_clear Ht. case_if; [done|]. apply IH; [done|]. by case_if.
Qed.

Lemma handed_over_accepted f0 f1 info image self_test tables gop map g g' :
  holding f0 info f1 -> prepared info -> tables_wf tables -> gop_wf gop -> word64 (ImageBase image) ->
  word64 (ImageSize image) -> acquired g map g' ->
  let info' := mark_exited (describe_map (describe_machine info image self_test (find_acpi_rsdp tables)
                              (capture_framebuffer gop)) map) in
  boot_info_accepted info' /\ boot_info_wf info'.
Proof.
  intros [_ (i & s & b & n & Ei & Es & Eb & Hi & Hs & Hb & Hn & Hie & Hse & Hbe & Hbits & _)] [Hm Hc Ha Hg] Ht Hgop Hib His
    (Hbuf & _ & _ & _ & _ & (bytes & Hbytes & Hall) & Hds & Hmod & Hsz & Hcap) info'.
  unfold EFI_MEMORY_DESCRIPTOR_SIZE, ARGUS_PAGE_SIZE, KERNEL_STACK_ALLOCATION_PAGES, KERNEL_STACK_PAGES in *. split.
  - unfold boot_info_accepted. cbn. rewrite Hbytes, Eb. cbn. split_and!; try done; try lia.
  - constructor; cbn [info' mark_exited describe_map describe_machine bi_memory_map bi_pmm_page_count bi_pmm_bitmap_bytes];
      [by rewrite Hbytes| |lia|done].
    unfold reserved_ranges. cbn [info' mark_exited describe_map describe_machine bi_kernel_image bi_boot_info_storage
      bi_kernel_stack bi_pmm_bitmap_storage bi_memory_map_storage bi_framebuffer bi_acpi_rsdp].
    rewrite Ei, Es, Eb. apply Forall_app_2.
    + assert (range_wf (mk_range (fb_base (capture_framebuffer gop)) (fb_size (capture_framebuffer gop)))) as Hfb
        by (destruct gop; [apply Hgop|by cbn]).
      unfold word64 in *. repeat (apply Forall_cons_2; [first [exact Hfb | unfold range_wf; cbn; unfold UINT64_MAX in *; lia]|]).
      apply Forall_nil_2.
    + assert (word64 (find_acpi_rsdp tables)) as Hr by (by apply find_rsdp_word).
      case_if; [|constructor]. apply Forall_cons_2; [|apply Forall_nil_2]. split; [exact Hr|done].
Qed.

Definition boot_ok (f0 : F) (o : boot_outcome) (f : F) : Prop :=
  match o with
  | Returned status => status <> EFI_SUCCESS /\ balanced f0 f
  | Halted _ => exits f0 < exits f
  | Entered stack_top info =>
      exits f0 < exits f
      /\ stack_top = range_base (bi_kernel_stack info) + range_size (bi_kernel_stack info)
      /\ bi_kernel_stack_guard info = mk_range (range_base (bi_kernel_stack info)) ARGUS_PAGE_SIZE
      /\ boot_info_accepted info /\ boot_info_wf info
  end.

Lemma handoff_boot_ok f f1 f2 info image self_test tables gop o f' :
  balanced f f1 -> holding f1 info f2 -> prepared info -> tables_wf tables -> gop_wf gop ->
  word64 (ImageBase image) -> word64 (ImageSize image) ->
  handoff_ok f1 (describe_machine info image self_test (find_acpi_rsdp tables) (capture_framebuffer gop)) o f' ->
  boot_ok f o f'.
Proof.
  intros B Hh Hp Ht Hg Hb Hs. destruct o as [status|status|top info']; cbn [handoff_ok boot_ok].
  - intros [? B']. split; [done|]. by eapply balanced_trans.
  - destruct B as (_ & _ & ->). done.
  - intros (He & Htop & map & g & g' & A & ->). destruct B as (_ & _ & B). rewrite <- B. split_and!; try done.
    + apply Hp.
    + eapply handed_over_accepted; eauto.
    + eapply handed_over_accepted; eauto.
Qed.

Lemma boot_kernel_spec image self_test tables gop f hw :
  tables_wf tables -> gop_wf gop ->
  exists o f' hw', boot_kernel patience image self_test tables gop f hw = Some (o, f', hw') /\ boot_ok f o f'.
Proof.
  intros Ht Hg. unfold boot_kernel. pose proof (fs_protocol f image EFI_LOADED_IMAGE_PROTOCOL_GUID) as Hp.
  destruct (HandleProtocol f image EFI_LOADED_IMAGE_PROTOCOL_GUID) as [[s0 interface] f0].
  destruct Hp as (P0 & G0 & E0 & Hi). assert (balanced f f0) as B0 by (by repeat split). clear P0 G0 E0.
  destruct (Z.eqb_spec s0 EFI_SUCCESS) as [->|Hs0]; [|by eexists _, _, _].
  destruct interface as [im|]; [|by eexists _, _, _]. destruct (Hi im eq_refl) as [Hib His].
  pose proof (acquire_spec f0) as Ha. destruct (uefi_memory_map_acquire f0) as [[s1 map] f1]. cbv beta iota.
  destruct Ha as [[-> A]|(Hs & _ & B1)].
  2:{ rewrite (proj2 (Z.eqb_neq _ _) Hs). eexists _, _, _. split; [reflexivity|]. split; [done|]. by eapply balanced_trans. }
  cbn [Z.eqb negb EFI_SUCCESS]. cbv zeta.
  destruct (highest_tracked_bound (um_map map)) as [H1 H2].
  { destruct A as (_ & _ & _ & _ & _ & (bytes & -> & Hall) & _). done. }
  pose proof (release_spec f0 map f1 f1 A (balanced_refl f1)) as B1.
  destruct (uefi_memory_map_release f1 map) as [m2 f2]. cbn [snd] in B1. cbv beta iota.
  assert (balanced f f2) as B2 by (by eapply balanced_trans).
  destruct (nz (highest_tracked_page (um_map map))) eqn:Ez; cbn [negb].
  2:{ eexists _, _, _. split; [reflexivity|]. done. }
  b2p. pose proof (prepare_spec f2 (highest_tracked_page (um_map map)) ltac:(lia) H2) as H3.
  destruct (prepare_allocations f2 (highest_tracked_page (um_map map))) as [[s3 [info|]] f3].
  2:{ destruct H3 as [Hs3 B3]. eexists _, _, _. split; [reflexivity|]. split; [done|]. by eapply balanced_trans. }
  destruct H3 as [Hh Hpr]. destruct (serial_init hw) as [uart hw1].
  destruct (serial_write_total uart hw1 (text "ARGUS_HANDOFF_BEGIN" ++ [10])) as [hw2 ->].
  change (mbind ?k (Some hw2)) with (k hw2). cbv beta.
  set (info' := describe_machine info im self_test (find_acpi_rsdp tables) (capture_framebuffer gop)).
  destruct (handoff_attempts_spec 4 true uart image f2 info' f3 hw2 EFI_SUCCESS) as (o & f' & hw' & E & O).
  - destruct Hh as [Hsame Hpages]. by constructor.
  - lia.
  - cbn. destruct Hh as [_ (i & s & b & n & _ & Es & _ & Hi' & Hs' & _ & _ & _ & Hse & _)]. rewrite Es. cbn.
    unfold word64, ARGUS_PAGE_SIZE, KERNEL_STACK_ALLOCATION_PAGES, KERNEL_STACK_PAGES in *. lia.
  - exists o, f', hw'. split; [done|]. by eapply handoff_boot_ok.
Qed.

(** C30: The loader always comes to an end, in one of three ways.  If it returns to
    its caller it reports an error, every pool buffer and page range it took is
    given back and ExitBootServices has not been called; it halts only after a
    call of ExitBootServices; and it enters the kernel with the guard page at
    the bottom of the stack, whose top it passes, and with a boot record the page
    allocator accepts. *)
Theorem boot_kernel_outcomes image self_test tables gop f hw :
  tables_wf tables -> gop_wf gop ->
  exists o f' hw', boot_kernel patience image self_test tables gop f hw = Some (o, f', hw') /\ boot_ok f o f'.
Proof. apply boot_kernel_spec. Qed.
End boot_theory.

(** ** A firmware

    A machine of 512 pages of conventional memory whose allocator hands out
    addresses upwards; the first [fm_stale] calls of ExitBootServices find the
    key out of date. *)
Record firm := mk_firm {
  fm_pools : gset Z;
  fm_pages : gset (Z * Z);
  fm_exits : Z;
  fm_next : Z;
  fm_stale : nat }.

Definition firm_alloc (f : firm) (n : Z) : bool :=
  (0 <? fm_next f) && (fm_next f + n * ARGUS_PAGE_SIZE <=? 0x1000000) && (0 <=? n) &&
  bool_decide (fm_next f ∉ fm_pools f) && bool_decide ((fm_next f, n) ∉ fm_pages f).

#[export] Instance firm_firmware : Firmware firm := {|
  GetMemoryMap f size buffer :=
    (mk_reply (if (buffer =? 0) || (size <? 40) then EFI_BUFFER_TOO_SMALL else EFI_SUCCESS) 40 (fm_exits f) 40 1, f);
  AllocatePool f _ _ :=
    if firm_alloc f 1
    then (EFI_SUCCESS, fm_next f, mk_firm ({[ fm_next f ]} ∪ fm_pools f) (fm_pages f) (fm_exits f) (fm_next f + ARGUS_PAGE_SIZE) (fm_stale f))
    else (EFI_OUT_OF_RESOURCES, 0, f);
  FreePool f a := mk_firm (fm_pools f ∖ {[ a ]}) (fm_pages f) (fm_exits f) (fm_next f) (fm_stale f);
  AllocatePages f _ _ n :=
    if firm_alloc f n
    then (EFI_SUCCESS, fm_next f,
          mk_firm (fm_pools f) ({[ (fm_next f, n) ]} ∪ fm_pages f) (fm_exits f) (fm_next f + n * ARGUS_PAGE_SIZE) (fm_stale f))
    else (EFI_OUT_OF_RESOURCES, 0, f);
  FreePages f base n := mk_firm (fm_pools f) (fm_pages f ∖ {[ (base, n) ]}) (fm_exits f) (fm_next f) (fm_stale f);
  HandleProtocol f _ _ := (EFI_SUCCESS, Some (mk_image 0x110000 0x8000), f);
  ExitBootServices f _ _ :=
    (match fm_stale f with O => EFI_SUCCESS | S _ => EFI_INVALID_PARAMETER end,
     mk_firm (fm_pools f) (fm_pages f) (fm_exits f + 1) (fm_next f) (pred (fm_stale f)));
  fw_bytes _ _ _ := sample_descriptor 7 0 512 |}.

Lemma firm_alloc_true f n : firm_alloc f n = true ->
  0 < fm_next f /\ fm_next f + n * ARGUS_PAGE_SIZE <= 0x1000000 /\ 0 <= n
  /\ (fm_next f ∉ fm_pools f) /\ ((fm_next f, n) ∉ fm_pages f).
Proof.
  unfold firm_alloc. rewrite !andb_true_iff, !bool_decide_eq_true, Z.ltb_lt, !Z.leb_le. tauto.
Qed.

#[export] Instance firm_spec : FirmwareSpec firm fm_pools fm_pages fm_exits.
Proof.
  constructor.
  - intros f. done.
  - intros f size buffer. cbn. split_and!; try done. destruct (_ || _) eqn:E; [done|]. intros _. b2p. done.
  - intros f type size. cbn. destruct (firm_alloc f 1) eqn:E; [|done]. apply firm_alloc_true in E as (A & B & C & D & E).
    split_and!; try done. intros _. unfold ARGUS_PAGE_SIZE, UINT64_MAX in *. split_and!; try done; lia.
  - done.
  - intros f how type n. cbn. destruct (firm_alloc f n) eqn:E; [|done]. apply firm_alloc_true in E as (A & B & C & D & E).
    split_and!; try done. intros _. unfold UINT64_MAX. split_and!; try done; lia.
  - done.
  - intros f image guid. cbn. split_and!; try done; by intros i [= <-].
  - done.
  - intros f address n. apply (bool_decide_unpack _). vm_compute. exact I.
Defined.

Definition sample_firm : firm := mk_firm ∅ ∅ 0 0x120000 1.
Definition sample_port : port := mk_port false [].
Definition sample_tables : list EFI_CONFIGURATION_TABLE := [mk_table EFI_ACPI_TABLE_GUID 0xE0000; mk_table EFI_ACPI_20_TABLE_GUID 0xF0000].
Definition sample_boot : option (boot_outcome * firm * port) := boot_kernel 2 1 0 sample_tables (Some sample_gop) sample_firm sample_port.

(** The second attempt succeeds and the kernel is entered. *)
Lemma sample_boot_enters :
  match sample_boot with Some (Entered top info, f, _) => bi_acpi_rsdp info = 0xF0000 /\ fm_exits f = 2 | _ => False end.
Proof. vm_compute. done. Qed.

Lemma sample_tables_wf : tables_wf sample_tables.
Proof. repeat constructor; cbn; unfold UINT64_MAX; lia. Qed.
Lemma sample_gop_wf : gop_wf (Some sample_gop).
Proof. split; split; cbn; unfold UINT64_MAX; lia. Qed.

Lemma uefi_memory_map_acquire_balanced_witness :
  acquire_result fm_pools fm_pages fm_exits sample_firm (uefi_memory_map_acquire sample_firm).
Proof. exact (proj1 (uefi_memory_map_acquire_balanced fm_pools fm_pages fm_exits sample_firm)). Defined.

Lemma boot_kernel_outcomes_witness :
  exists o f' hw', sample_boot = Some (o, f', hw') /\ boot_ok fm_pools fm_pages fm_exits sample_firm o f'.
Proof.
  exact (boot_kernel_outcomes fm_pools fm_pages fm_exits 2 port_sent 1 0 sample_tables (Some sample_gop) sample_firm sample_port
           sample_tables_wf sample_gop_wf).
Defined.
