(* ===== verification/SelfTest.v ===== *)
(** * The page allocator's self test (pmm_self_test of src/pmm.c)

    The kernel stops when its page allocator fails this test.  On an allocator that
    satisfies its invariant the test gives every page back, and it succeeds exactly
    when sixteen pages are free and two of them are adjacent beyond the first eight. *)

From stdpp Require Import base list gmap numbers sorting.
From Stdlib Require Import ZArith Lia.
From S2P Require Import Prelude BootInfo Allocator Pmm.

Open Scope Z_scope.

(** ** One page at a time *)

(** The allocator [s] is consistent, with [F] the free pages and [L] the pages in use. *)
Definition manages (s : pmm_state) (F L : gset Z) : Prop := pmm_ok s /\ free_set s = F /\ live_set s = L.

Lemma manages_ok s : pmm_ok s -> manages s (free_set s) (live_set s).
Proof. done. Qed.

Lemma manages_free_count s F L : manages s F L -> free_count s = Z.of_nat (size F).
Proof.
  intros ([Hc _] & <- & _). unfold free_set. rewrite zcount_size by apply (pc_count _ Hc). apply (pc_free _ Hc).
Qed.

Lemma manages_validate s F L : manages s F L -> pmm_validate s = true.
Proof. intros ([Hc _] & _). by apply pmm_validate_ok. Qed.

Lemma page_run_1 p : page_run p 1 = {[p]}.
Proof. apply set_eq. intros q. rewrite elem_of_page_run. set_solver by lia. Qed.

Lemma alloc_run s F L n :
  manages s F L -> 0 < n ->
  (pmm_alloc_pages s n = (0, s) /\ forall p, ~ page_run p n ⊆ F) \/
  (exists p s', pmm_alloc_pages s n = (p * ARGUS_PAGE_SIZE, s') /\ 0 < p /\ page_run p n ⊆ F
     /\ (forall q, q < p -> ~ page_run q n ⊆ F) /\ manages s' (F ∖ page_run p n) (L ∪ page_run p n)).
Proof.
  intros (Hok & <- & <-) Hn. pose proof (pmm_alloc_first_fit s n Hok ltac:(lia)) as H.
  pose proof (alloc_pages_spec s n Hok ltac:(lia)) as H'. destruct (pmm_alloc_pages s n) as [a s'].
  destruct H as (H0 & H1 & H2). destruct (Z.eq_dec a 0) as [->|Ha].
  - left. destruct (H1 eq_refl). split; [done|]. destruct (proj1 H0 eq_refl); [lia|done].
  - right. destruct (H2 Ha) as (p & -> & Hs & Hf & Hok' & HF & HL & _). exists p, s'. split_and!; try done.
    destruct H' as [[? _]|(p' & E & Hp & _)]; [done|]. unfold ARGUS_PAGE_SIZE in E. lia.
Qed.

Lemma release_run s F L p n :
  manages s F L -> 0 <= p -> 0 < n -> page_run p n ⊆ L ->
  exists s', pmm_release_pages s (p * ARGUS_PAGE_SIZE) n = (true, s') /\ manages s' (F ∪ page_run p n) (L ∖ page_run p n).
Proof.
  intros (Hok & <- & <-) Hp Hn Hs.
  pose proof (pmm_release_exact s (p * ARGUS_PAGE_SIZE) n Hok ltac:(unfold ARGUS_PAGE_SIZE; lia) ltac:(lia)) as H.
  destruct (pmm_release_pages s (p * ARGUS_PAGE_SIZE) n) as [b s']. cbv zeta in H.
  unfold ARGUS_PAGE_SIZE in H. rewrite Z.div_mul, Z.mod_mul in H by done. destruct H as (H0 & _ & H2).
  rewrite (proj2 H0) in * by done. exists s'. split; [done|]. by destruct (H2 eq_refl) as (? & ? & ? & _).
Qed.

Lemma release_refused s F L a n :
  manages s F L -> 0 <= a -> 0 <= n -> ~ (a mod ARGUS_PAGE_SIZE = 0 /\ 0 < n /\ page_run (a / ARGUS_PAGE_SIZE) n ⊆ L) ->
  pmm_release_pages s a n = (false, s).
Proof.
  intros (Hok & <- & <-) Ha Hn Hr. pose proof (pmm_release_exact s a n Hok Ha Hn) as H.
  destruct (pmm_release_pages s a n) as [b s']. cbv zeta in H. destruct H as (H0 & H1 & _).
  destruct b; [by apply proj1 in H0; destruct Hr; auto|]. by rewrite H1.
Qed.

Lemma live_in_range s F L p : manages s F L -> p ∈ L -> 0 <= p < page_count s.
Proof. intros (_ & _ & <-) [H _]%elem_of_page_set. done. Qed.

Lemma alloc_one s F L :
  manages s F L -> F ≢ ∅ ->
  exists p s', pmm_alloc_page s = (p * ARGUS_PAGE_SIZE, s') /\ 0 < p /\ p ∈ F /\ (forall q, q ∈ F -> p <= q)
    /\ manages s' (F ∖ {[p]}) (L ∪ {[p]}).
Proof.
  intros Hm Hne. destruct (alloc_run s F L 1 Hm) as [[_ Hn]|(p & s' & E & Hp & Hin & Hlow & Hm')]; [lia| |].
  - destruct Hne. intros q. split; [|set_solver]. intros Hq. exfalso. apply (Hn q). rewrite page_run_1. set_solver.
  - rewrite page_run_1 in *. exists p, s'. split_and!; try done; [set_solver|]. intros q Hq.
    destruct (Z.le_gt_cases p q); [done|]. destruct (Hlow q); [lia|]. rewrite page_run_1. set_solver.
Qed.

Lemma free_one s F L p :
  manages s F L -> p ∈ L -> exists s', pmm_free_page s (p * ARGUS_PAGE_SIZE) = (true, s') /\ manages s' (F ∪ {[p]}) (L ∖ {[p]}).
Proof.
  intros Hm Hp. pose proof (live_in_range _ _ _ _ Hm Hp). rewrite <- page_run_1.
  apply release_run; [done|lia|lia|]. rewrite page_run_1. set_solver.
Qed.

(** ** The two loops *)

(** The first [n] rounds of the allocating loop take the [n] lowest free pages. *)
Definition took (F L : gset Z) (ps : list Z) (acc : pmm_state * bool * list Z * list bool) : Prop :=
  exists s, acc = (s, true, map (fun p => p * ARGUS_PAGE_SIZE) ps ++ replicate (8 - length ps) 0,
                   map (fun _ => true) ps ++ replicate (8 - length ps) false)
    /\ manages s (F ∖ list_to_set ps) (L ∪ list_to_set ps)
    /\ StronglySorted Z.lt ps /\ (forall p q, p ∈ ps -> q ∈ F -> q ∉ ps -> p < q) /\ (forall p, p ∈ ps -> 0 < p /\ p ∈ F).

Lemma sorted_snoc ps p : StronglySorted Z.lt ps -> (forall q, q ∈ ps -> q < p) -> StronglySorted Z.lt (ps ++ [p]).
Proof.
  induction ps as [|x ps IH]; intros Hs Hl; cbn [app]; [repeat constructor|]. apply StronglySorted_inv in Hs as [Hs Hx].
  constructor; [apply IH; [done|]; intros; apply Hl; set_solver|]. apply Forall_app. split; [done|].
  constructor; [apply Hl; set_solver|done].
Qed.

Lemma took_one F L ps acc :
  took F L ps acc -> (length ps < 8)%nat -> F ∖ list_to_set ps ≢ ∅ ->
  exists p, took F L (ps ++ [p]) (self_test_alloc acc (Z.of_nat (length ps))).
Proof.
  intros (s & -> & Hm & Hs & Hlow & Hin) Hl Hne. destruct (alloc_one _ _ _ Hm Hne) as (p & s' & E & Hp & HpF & Hmin & Hm').
  assert (p ∈ F /\ p ∉ ps) as [HF Hps] by set_solver.
  assert (forall q, q ∈ ps -> q < p) as Hlt by (intros q Hq; by apply Hlow).
  exists p. exists s'. unfold self_test_alloc. rewrite E.
  assert (nz (p * ARGUS_PAGE_SIZE) = true) as -> by (unfold nz, ARGUS_PAGE_SIZE; destruct (Z.eqb_spec (p * 4096) 0); [lia|done]).
  split.
  - cbn [andb]. rewrite !map_app, length_app. cbn [map length].
    assert (forall A B (f : A -> B) (l : list A) d v, (length l < 8)%nat ->
      zset (map f l ++ replicate (8 - length l) d) (Z.of_nat (length l)) v = (map f l ++ [v]) ++ replicate (8 - (length l + 1)) d) as Hset.
    { intros A B f l d v Hll. unfold zset. rewrite Nat2Z.id, insert_app_r_alt by (rewrite length_map; lia).
      rewrite length_map, Nat.sub_diag. replace (8 - length l)%nat with (S (8 - (length l + 1))) by lia. cbn. by rewrite <- app_assoc. }
    rewrite !Hset by done. do 3 f_equal. apply (for_range_inv (fun _ v => v = true)); [lia|done|].
    intros i v Hi ->. unfold zget. rewrite <- app_assoc, lookup_app_l, list_lookup_fmap by (rewrite length_map; lia).
    destruct (lookup_lt_is_Some_2 ps (Z.to_nat i)) as [q Hq]; [lia|]. rewrite Hq. cbn.
    apply list_elem_of_lookup_2, Hlt in Hq. destruct (Z.eqb_spec (p * ARGUS_PAGE_SIZE) (q * ARGUS_PAGE_SIZE)); [|done].
    unfold ARGUS_PAGE_SIZE in *. lia.
  - split_and!.
    + rewrite list_to_set_app_L. change (list_to_set [p]) with ({[p]} ∪ ∅ : gset Z). rewrite (right_id_L ∅ (∪)).
      replace (F ∖ (list_to_set ps ∪ {[p]})) with (F ∖ list_to_set ps ∖ {[p]}) by set_solver.
      replace (L ∪ (list_to_set ps ∪ {[p]})) with (L ∪ list_to_set ps ∪ {[p]}) by set_solver. done.
    + by apply sorted_snoc.
    + intros x q Hx Hq Hn. apply elem_of_app in Hx as [Hx|Hx]; [apply Hlow; set_solver|].
      apply list_elem_of_singleton in Hx as ->. assert (p <= q) by (apply Hmin; set_solver). assert (p <> q) by set_solver. lia.
    + intros x Hx. apply elem_of_app in Hx as [Hx|Hx]; [auto|]. by apply list_elem_of_singleton in Hx as ->.
Qed.

Lemma took_many F L s n :
  manages s F L -> (n <= 8)%nat -> (n <= size F)%nat ->
  exists ps, length ps = n /\ took F L ps (fold_left self_test_alloc (zrange 0 n) (s, true, replicate 8 0, replicate 8 false)).
Proof.
  intros Hm. induction n as [|n IH]; intros Hn Hs.
  { exists []. split; [done|]. exists s. cbn. replace (F ∖ ∅) with F by set_solver. replace (L ∪ ∅) with L by set_solver.
    split_and!; try done; [constructor|set_solver|set_solver]. }
  destruct IH as (ps & El & Ht); [lia|lia|].
  assert (zrange 0 (S n) = zrange 0 n ++ [Z.of_nat n]) as -> by (replace (S n) with (n + 1)%nat by lia; rewrite zrange_app; reflexivity).
  rewrite fold_left_app. cbn [fold_left].
  destruct (took_one _ _ _ _ Ht) as (p & Hp); [lia| |rewrite El in Hp; exists (ps ++ [p]); split; [rewrite length_app; cbn; lia|done]].
  intros He. assert (size F <= size (list_to_set (C := gset Z) ps))%nat as Hc by (apply subseteq_size; set_solver).
  rewrite size_list_to_set in Hc; [lia|]. destruct Ht as (_ & _ & _ & Hsort & _). clear -Hsort.
  induction Hsort as [|x l _ IH Hx]; constructor; [|done]. intros Hin. rewrite Forall_forall in Hx. specialize (Hx x Hin). lia.
Qed.

(** The pages the freeing loop gives back: those of [idxs] that are held. *)
Definition given_back (ps : list Z) (held : list bool) (idxs : list Z) : list Z :=
  omap (fun i => if zget false held i then ps !! Z.to_nat i else None) idxs.

Lemma free_loop ps idxs : forall held s F L v,
  manages s F L -> length held = length ps -> base.NoDup ps -> base.NoDup idxs -> Forall (fun i => 0 <= i < Z.of_nat (length ps)) idxs ->
  (forall p, p ∈ given_back ps held idxs -> p ∈ L) ->
  exists s', fold_left self_test_free idxs (s, v, map (fun p => p * ARGUS_PAGE_SIZE) ps, held)
      = (s', v, map (fun p => p * ARGUS_PAGE_SIZE) ps, fold_left (fun h i => zset h i false) idxs held)
    /\ manages s' (F ∪ list_to_set (given_back ps held idxs)) (L ∖ list_to_set (given_back ps held idxs)).
Proof.
  induction idxs as [|i idxs IH]; intros held s F L v Hm Hl Hps Hd Hr Hin.
  { exists s. split; [done|]. cbn. rewrite (right_id_L ∅ (∪)). by replace (L ∖ ∅) with L by set_solver. }
  apply NoDup_cons in Hd as [Hi Hd]. apply Forall_cons in Hr as [Hir Hr]. cbn [fold_left].
  assert (given_back ps (zset held i false) idxs = given_back ps held idxs) as Hg.
  { unfold given_back. apply list_omap_ext. apply Forall2_same_length_lookup_2; [done|]. intros k x y Ex Ey. rewrite Ex in Ey. injection Ey as <-.
    apply list_elem_of_lookup_2 in Ex. rewrite Forall_forall in Hr. specialize (Hr x Ex). rewrite zget_zset_ne; [done|lia|lia|set_solver]. }
  destruct (lookup_lt_is_Some_2 ps (Z.to_nat i)) as [p Hp]; [lia|].
  unfold self_test_free at 2. destruct (zget false held i) eqn:Eh.
  - assert (given_back ps held (i :: idxs) = p :: given_back ps held idxs) as Hc by (unfold given_back; cbn; by rewrite Eh, Hp).
    rewrite Hc in *. assert (zget 0 (map (fun p => p * ARGUS_PAGE_SIZE) ps) i = p * ARGUS_PAGE_SIZE) as ->
      by (unfold zget; by rewrite list_lookup_fmap, Hp).
    destruct (free_one s F L p Hm) as (s1 & E & Hm1); [apply Hin; set_solver|]. rewrite E. cbn [andb].
    destruct (IH (zset held i false) s1 (F ∪ {[p]}) (L ∖ {[p]}) v) as (s2 & E2 & Hm2); [done|by rewrite zset_length|done|done|done| |].
    { rewrite Hg. intros q Hq. apply elem_of_difference. split; [apply Hin; set_solver|]. intros ->%elem_of_singleton.
      unfold given_back in Hq. apply list_elem_of_omap in Hq as (j & Hj & Ej). destruct (zget false held j); [|done].
      rewrite Forall_forall in Hr. specialize (Hr j Hj). assert (Z.to_nat i = Z.to_nat j) by (exact (NoDup_lookup ps _ _ p Hps Hp Ej)). assert (i = j) as <- by lia. done. }
    exists s2. split; [exact E2|]. rewrite Hg in Hm2. cbn [list_to_set].
    replace (F ∪ ({[p]} ∪ list_to_set (given_back ps held idxs))) with (F ∪ {[p]} ∪ list_to_set (given_back ps held idxs)) by set_solver.
    replace (L ∖ ({[p]} ∪ list_to_set (given_back ps held idxs))) with (L ∖ {[p]} ∖ list_to_set (given_back ps held idxs)) by set_solver. done.
  - assert (given_back ps held (i :: idxs) = given_back ps held idxs) as Hc by (unfold given_back; cbn; by rewrite Eh).
    rewrite Hc in *. assert (zset held i false = held) as -> by (rewrite <- Eh; apply zset_zget). by apply IH.
Qed.

(** ** The verdict *)

(** Two adjacent free pages above eight others. *)
Definition pair_beyond (F : gset Z) (p : Z) : Prop :=
  page_run p 2 ⊆ F /\ (8 <= size (filter (fun q => (q < p)%Z) F))%nat.

Lemma page_run_2 p (F : gset Z) : page_run p 2 ⊆ F <-> p ∈ F /\ p + 1 ∈ F.
Proof.
  split; [intros H; split; apply H, elem_of_page_run; lia|]. intros [H1 H2] q Hq%elem_of_page_run.
  assert (q = p \/ q = p + 1) as [->| ->] by lia; done.
Qed.

Section verdict.
Context (F : gset Z) (p0 p1 p2 p3 p4 p5 p6 p7 : Z).
Abbreviation ps := [p0; p1; p2; p3; p4; p5; p6; p7].
Abbreviation odds := [p1; p3; p5; p7].
Hypothesis Hsort : StronglySorted Z.lt ps.
Hypothesis Hlow : forall p q, p ∈ ps -> q ∈ F -> q ∉ ps -> p < q.
Hypothesis HF : forall p, p ∈ ps -> 0 < p /\ p ∈ F.

Lemma ps_chain : p0 < p1 /\ p1 < p2 /\ p2 < p3 /\ p3 < p4 /\ p4 < p5 /\ p5 < p6 /\ p6 < p7.
Proof using Hsort.
  clear -Hsort. repeat (apply StronglySorted_inv in Hsort; let Hx := fresh in destruct Hsort as [Hsort Hx]; try apply Forall_inv in Hx). lia.
Qed.

Lemma ps_NoDup : base.NoDup ps.
Proof using Hsort. pose proof ps_chain. repeat (apply NoDup_cons; split; [rewrite ?elem_of_cons, elem_of_nil; lia|]). apply NoDup_nil_2. Qed.

(** A pair that avoids the four pages still held lies above all eight. *)
Lemma pair_above p : page_run p 2 ⊆ F ∖ list_to_set odds -> p ∉ ps /\ pair_beyond F p.
Proof using Hsort Hlow HF.
  rewrite page_run_2. intros [H1 H2]. pose proof ps_chain as Hc.
  assert (p ∉ ps) as Hp.
  { intros Hin. apply elem_of_difference in H1 as [_ H1], H2 as [H2 H2']. rewrite elem_of_list_to_set in H1, H2'.
    assert (p7 < p + 1 \/ p + 1 ∈ ps) as Hx by (destruct (decide (p + 1 ∈ ps)); [by right|left; apply Hlow; [by repeat constructor|done|done]]).
    clear Hlow HF Hsort H2. rewrite ?elem_of_cons, ?elem_of_nil in Hin. rewrite ?elem_of_cons, ?elem_of_nil in Hx.
    rewrite ?elem_of_cons, ?elem_of_nil in H1. rewrite ?elem_of_cons, ?elem_of_nil in H2'. lia. }
  split; [done|]. split; [apply page_run_2; set_solver|].
  change 8%nat with (length ps). rewrite <- (size_list_to_set (C := gset Z)) by apply ps_NoDup. apply subseteq_size.
  intros x Hx%elem_of_list_to_set. apply elem_of_filter. split; [|by apply HF]. apply Hlow; [done|set_solver|done].
Qed.

Lemma beyond_above p : pair_beyond F p -> page_run p 2 ⊆ F ∖ list_to_set odds.
Proof using Hsort Hlow HF.
  intros [H1 H2]. apply page_run_2 in H1 as [Hp Hp1].
  assert (p ∉ ps) as Hn.
  { intros Hin. assert (filter (fun q => q < p) F ⊆ list_to_set ps ∖ {[p]}) as Hs.
    { intros x [Hx HxF]%elem_of_filter. apply elem_of_difference. split; [|set_solver by lia]. apply elem_of_list_to_set.
      destruct (decide (x ∈ ps)); [done|]. assert (p < x) by by apply Hlow. lia. }
    apply subseteq_size in Hs. rewrite size_difference, size_list_to_set, size_singleton in Hs; [cbn in Hs; lia|apply ps_NoDup|]. set_solver. }
  apply page_run_2. assert (p + 1 ∉ ps) by (intros Hin; assert (p + 1 < p) by (by apply Hlow); lia).
  assert (forall x, x ∉ ps -> x ∉ odds) as Ho by (intros x; rewrite !not_elem_of_cons; tauto).
  rewrite !elem_of_difference, !elem_of_list_to_set. auto.
Qed.
End verdict.

(** The three releases that must be refused. *)
Lemma bad_releases s F L :
  manages s F L ->
  pmm_release_pages s 0 0 = (false, s) /\ pmm_free_page s 1 = (false, s)
  /\ pmm_free_page s (u64 (page_count s * ARGUS_PAGE_SIZE)) = (false, s).
Proof.
  intros Hm. split_and!; [eapply release_refused; eauto; lia| |].
  - eapply release_refused; eauto; [lia|lia|]. intros [H _]. done.
  - pose proof Hm as ([Hc _] & _). pose proof (pc_count _ Hc). pose proof (pc_address _ Hc).
    rewrite u64_id by (unfold ARGUS_PAGE_SIZE in *; lia).
    eapply release_refused; eauto; [unfold ARGUS_PAGE_SIZE; lia|lia|]. unfold ARGUS_PAGE_SIZE. rewrite Z.div_mul by done. intros (_ & _ & Hr).
    assert (page_count s ∈ L) as Hl by (apply Hr, elem_of_page_run; lia). pose proof (live_in_range _ _ _ _ Hm Hl). lia.
Qed.

(** The probe at the end: a page is taken, given back, and refused the second time. *)
Lemma double_free_refused s F L :
  manages s F L -> F ## L -> F ≢ ∅ ->
  exists p s1 s2, pmm_alloc_page s = (p * ARGUS_PAGE_SIZE, s1) /\ 0 < p /\ pmm_free_page s1 (p * ARGUS_PAGE_SIZE) = (true, s2)
    /\ pmm_free_page s2 (p * ARGUS_PAGE_SIZE) = (false, s2) /\ manages s2 F L.
Proof.
  intros Hm Hd Hne. destruct (alloc_one _ _ _ Hm Hne) as (p & s1 & E1 & Hp & HpF & _ & Hm1).
  destruct (free_one _ _ _ p Hm1) as (s2 & E2 & Hm2); [set_solver|].
  assert (F ∖ {[p]} ∪ {[p]} = F) as E by (apply set_eq; intros x; destruct (decide (x = p)); set_solver).
  assert ((L ∪ {[p]}) ∖ {[p]} = L) as E' by set_solver. rewrite E, E' in Hm2.
  exists p, s1, s2. split_and!; try done. eapply release_refused; [done|unfold ARGUS_PAGE_SIZE; lia|lia|].
  unfold ARGUS_PAGE_SIZE. rewrite Z.div_mul, page_run_1 by done. set_solver.
Qed.

Lemma nz_page p : 0 < p -> nz (p * ARGUS_PAGE_SIZE) = true.
Proof. intros. unfold nz, ARGUS_PAGE_SIZE. destruct (Z.eqb_spec (p * 4096) 0); [lia|done]. Qed.

(** The end of the test, from the state in which four pages are still held. *)
Lemma last_stage F L p0 p1 p2 p3 p4 p5 p6 p7 v s3 :
  let ps := [p0; p1; p2; p3; p4; p5; p6; p7] in let odds := [p1; p3; p5; p7] in
  base.NoDup ps -> F ## L -> (forall p, p ∈ ps -> p ∈ F) -> manages s3 (F ∖ list_to_set odds) (L ∪ list_to_set odds) ->
  exists s4 p s5 s6 held,
    fold_left self_test_free (zrange 0 8)
      (s3, v, map (fun p => p * ARGUS_PAGE_SIZE) ps, [false; true; false; true; false; true; false; true])
    = (s4, v, map (fun p => p * ARGUS_PAGE_SIZE) ps, held)
    /\ pmm_alloc_page s4 = (p * ARGUS_PAGE_SIZE, s5) /\ 0 < p /\ pmm_free_page s5 (p * ARGUS_PAGE_SIZE) = (true, s6)
    /\ pmm_free_page s6 (p * ARGUS_PAGE_SIZE) = (false, s6) /\ manages s6 F L.
Proof.
  intros ps odds Hnd Hd HF Hm.
  destruct (free_loop ps (zrange 0 8) [false; true; false; true; false; true; false; true] s3 _ _ v Hm) as (s4 & E4 & Hm4); [done|done| | | |].
  { apply (bool_decide_unpack _). by vm_compute. }
  { apply (bool_decide_unpack _). by vm_compute. }
  { intros p Hp. apply elem_of_union. by right; apply elem_of_list_to_set. }
  change (given_back ps _ _) with odds in Hm4.
  assert (forall p, p ∈ odds -> p ∈ F) as Ho by (intros p Hp; apply HF; unfold odds, ps in *; set_solver).
  assert (F ∖ list_to_set odds ∪ list_to_set odds = F) as E
    by (apply set_eq; intros x; destruct (decide (x ∈ odds)) as [Hx|]; [pose proof (Ho x Hx)|]; set_solver).
  assert ((L ∪ list_to_set odds) ∖ list_to_set odds = L) as E' by (apply set_eq; intros x; specialize (Ho x); set_solver).
  rewrite E, E' in Hm4. destruct (double_free_refused _ _ _ Hm4 Hd) as (p & s5 & s6 & H1 & H2 & H3 & H4 & H5).
  { assert (p0 ∈ F) by (apply HF; unfold ps; set_solver). set_solver. }
  by exists s4, p, s5, s6, (fold_left (fun h i => zset h i false) (zrange 0 8) [false; true; false; true; false; true; false; true]).
Qed.

(** The pages that four of the eight went back to. *)
Lemma evens_back (F L : gset Z) p0 p1 p2 p3 p4 p5 p6 p7 :
  let ps := [p0; p1; p2; p3; p4; p5; p6; p7] in let odds := [p1; p3; p5; p7] in
  StronglySorted Z.lt ps -> F ## L -> (forall p, p ∈ ps -> 0 < p /\ p ∈ F) ->
  F ∖ list_to_set ps ∪ list_to_set [p0; p2; p4; p6] = F ∖ list_to_set odds
  /\ (L ∪ list_to_set ps) ∖ list_to_set [p0; p2; p4; p6] = L ∪ list_to_set odds.
Proof.
  intros ps odds Hsort Hd HF.
  assert (forall x, x ∈ ps <-> x ∈ [p0; p2; p4; p6] \/ x ∈ odds) as Hps by (intros x; unfold ps, odds; rewrite !elem_of_cons, elem_of_nil; tauto).
  assert (forall x, x ∈ [p0; p2; p4; p6] -> x ∉ odds) as Hev.
  { intros x. pose proof (ps_chain _ _ _ _ _ _ _ _ Hsort). unfold odds. rewrite !elem_of_cons, elem_of_nil. lia. }
  split; apply set_eq; intros x; specialize (Hev x); specialize (Hd x); pose proof (HF x) as Hx; rewrite Hps in Hx.
  - rewrite elem_of_union, !elem_of_difference, !elem_of_list_to_set, Hps. destruct (decide (x ∈ [p0; p2; p4; p6])); tauto.
  - rewrite elem_of_difference, !elem_of_union, !elem_of_list_to_set, Hps. destruct (decide (x ∈ [p0; p2; p4; p6])); tauto.
Qed.

(** The test when sixteen pages are free, its first and its last stage done: what
    remains is the request for a pair of pages, the comparison of its address and its
    release. *)
Lemma self_test_stages s F L :
  manages s F L -> F ## L -> 16 <= free_count s ->
  exists p0 p1 p2 p3 p4 p5 p6 p7 s2,
    let ps := [p0; p1; p2; p3; p4; p5; p6; p7] in let odds := [p1; p3; p5; p7] in
    StronglySorted Z.lt ps /\ (forall p q, p ∈ ps -> q ∈ F -> q ∉ ps -> p < q) /\ (forall p, p ∈ ps -> 0 < p /\ p ∈ F)
    /\ manages s2 (F ∖ list_to_set odds) (L ∪ list_to_set odds)
    /\ forall valid run s3 s4 v,
         pmm_alloc_pages s2 2 = (run, s3) ->
         fold_left (fun v i => if run =? zget 0 (map (fun p => p * ARGUS_PAGE_SIZE) ps) i then false else v) [0; 2; 4; 6] (nz run) = v ->
         (if nz run then let '(r, s) := pmm_release_pages s3 run 2 in (r && v, s) else (v, s3)) = (valid, s4) ->
         manages s4 (F ∖ list_to_set odds) (L ∪ list_to_set odds) ->
         exists s', pmm_self_test s = (valid, s') /\ manages s' F L.
Proof.
  intros Hm Hd Hge. pose proof (manages_free_count _ _ _ Hm) as Hfc.
  destruct (took_many F L s 8 Hm) as (ps & Hl & s1 & E1 & Hm1 & Hsort & Hlow & HF); [lia|lia|].
  destruct ps as [|p0 [|p1 [|p2 [|p3 [|p4 [|p5 [|p6 [|p7 [|]]]]]]]]]; try discriminate Hl. clear Hl.
  pose proof (ps_NoDup _ _ _ _ _ _ _ _ Hsort) as Hnd. destruct (evens_back F L _ _ _ _ _ _ _ _ Hsort Hd HF) as [EF EL].
  set (ps := [p0; p1; p2; p3; p4; p5; p6; p7]) in *.
  destruct (free_loop ps [0; 2; 4; 6] (map (fun _ => true) ps) s1 _ _ true Hm1) as (s2 & E2 & Hm2); [done|done| | | |].
  { apply (bool_decide_unpack _). by vm_compute. }
  { apply (bool_decide_unpack _). by vm_compute. }
  { intros p Hp. apply elem_of_union. right. apply elem_of_list_to_set. cbn in Hp. unfold ps. set_solver. }
  change (given_back ps _ _) with [p0; p2; p4; p6] in Hm2. rewrite EF, EL in Hm2.
  exists p0, p1, p2, p3, p4, p5, p6, p7, s2. cbv zeta. fold ps. split_and!; try done.
  intros valid run s3 s4 v Er Ev Ex Hm4. unfold pmm_self_test. rewrite (manages_validate _ _ _ Hm). cbn [negb orb].
  destruct (Z.ltb_spec (free_count s) 16) as [?|_]; [lia|]. cbn [orb].
  destruct (bad_releases _ _ _ Hm) as (B1 & B2 & B3).
  rewrite B1. cbn [negb]. rewrite B2. cbn [negb andb]. rewrite B3. cbn [negb andb].
  change [0; 1; 2; 3; 4; 5; 6; 7] with (zrange 0 8). rewrite E1. cbn [length Nat.sub replicate]. rewrite !app_nil_r, E2.
  rewrite Er, (manages_validate _ _ _ Hm2). cbn [andb]. rewrite andb_true_r, Ev, Ex.
  change (fold_left _ [0; 2; 4; 6] (map (fun _ => true) ps)) with [false; true; false; true; false; true; false; true].
  destruct (last_stage F L p0 p1 p2 p3 p4 p5 p6 p7 valid s4 Hnd Hd) as (s5 & p & s6 & s7 & held & E5 & E6 & Hp & E7 & H7 & Hm7);
    [intros; by apply HF|done|]. fold ps in E5. rewrite E5, E6, (nz_page p Hp), E7, H7.
  cbn [negb andb]. rewrite (manages_validate _ _ _ Hm7), (manages_free_count _ _ _ Hm7), Hfc, Z.eqb_refl.
  cbn [andb]. rewrite !andb_true_r. by exists s7.
Qed.

(** The self test gives back every page it takes, and succeeds exactly when sixteen
    pages are free and two adjacent ones lie above the eight lowest. *)
Theorem pmm_self_test_exact s :
  pmm_ok s ->
  let '(valid, s') := pmm_self_test s in
  manages s' (free_set s) (live_set s) /\
  (valid = true <-> 16 <= free_count s /\ exists p, pair_beyond (free_set s) p).
Proof.
  intros Hok. pose proof (manages_ok s Hok) as Hm.
  assert (free_set s ## live_set s) as Hd by exact (@pa_disjoint pmm_state pmm_allocator pmm_allocator_laws s Hok).
  revert Hm Hd. generalize (free_set s) as F, (live_set s) as L. intros F L Hm Hd.
  destruct (Z.le_gt_cases 16 (free_count s)) as [Hge|Hlt].
  2: { unfold pmm_self_test. rewrite (proj2 (Z.ltb_lt _ _) Hlt). cbn [orb]. split; [done|]. split; [done|lia]. }
  destruct (self_test_stages s F L Hm Hd Hge) as (p0 & p1 & p2 & p3 & p4 & p5 & p6 & p7 & s2 & Hsort & Hlow & HF & Hm2 & Hend).
  destruct (alloc_run _ _ _ 2 Hm2) as [[E Hno]|(p & s3 & E & Hp & Hrun & _ & Hm3)]; [lia| |].
  - destruct (Hend false 0 s2 s2 false E) as (s' & -> & Hm'); [cbn [fold_left]; by repeat case_if|done|done|]. split; [done|]. split; [done|].
    intros [_ [p Hp]]. destruct (Hno p). exact (beyond_above _ _ _ _ _ _ _ _ _ Hsort Hlow HF p Hp).
  - destruct (pair_above _ _ _ _ _ _ _ _ _ Hsort Hlow HF p Hrun) as [Hnp Hpair].
    destruct (release_run _ _ _ p 2 Hm3) as (s4 & E4 & Hm4); [lia|lia|set_solver|].
    destruct (Hend true (p * ARGUS_PAGE_SIZE) s3 s4 true E) as (s' & -> & Hm'); [| | |split; [done|]; split; [by eauto|done]].
    + assert (forall q, q ∈ [p0; p1; p2; p3; p4; p5; p6; p7] -> (p * ARGUS_PAGE_SIZE =? q * ARGUS_PAGE_SIZE) = false) as Hne.
      { intros q Hq. apply Z.eqb_neq. intros Eq. apply Hnp. assert (p = q) as -> by (unfold ARGUS_PAGE_SIZE in Eq; lia). done. }
      rewrite (nz_page p Hp). cbn [fold_left].
      change (zget 0 _ 0) with (p0 * ARGUS_PAGE_SIZE). change (zget 0 _ 2) with (p2 * ARGUS_PAGE_SIZE).
      change (zget 0 _ 4) with (p4 * ARGUS_PAGE_SIZE). change (zget 0 _ 6) with (p6 * ARGUS_PAGE_SIZE).
      rewrite !Hne by (repeat constructor). done.
    + by rewrite (nz_page p Hp), E4.
    + assert (F ∖ list_to_set [p1; p3; p5; p7] ∖ page_run p 2 ∪ page_run p 2 = F ∖ list_to_set [p1; p3; p5; p7]) as EF
        by (apply set_eq; intros x; destruct (decide (x ∈ page_run p 2)) as [Hx|]; [specialize (Hrun x Hx)|]; set_solver).
      assert ((L ∪ list_to_set [p1; p3; p5; p7] ∪ page_run p 2) ∖ page_run p 2 = L ∪ list_to_set [p1; p3; p5; p7]) as EL.
      { apply set_eq. intros x. specialize (Hrun x). specialize (Hd x). rewrite elem_of_difference in Hrun. set_solver. }
      by rewrite EF, EL in Hm4.
Qed.
