(* ===== verification/KernelMain.v ===== *)
(** * Kernel start-up (src/kernel.c)

    [kernel_main] brings the components up in their order, prints what it finds and
    panics when a check fails; it ends in the shell, and so the model returns what
    it would call [kernel_shell_run] with.  [B.bcall] lists the functions it calls;
    programs are in the monad of the shell. *)

From stdpp Require Import base list gmap numbers strings.
From Stdlib Require Import ZArith Lia.
From S2P Require Import Prelude Memory BootInfo Paging Process Pci Net Files Kconsole Boot Shell.

Open Scope Z_scope.

Module B.
Inductive bcall : Type -> Type :=
| kconsole_clear : bcall unit
| kconsole_write (s : list Z) : bcall unit
| kconsole_putc (c : Z) : bcall unit
(* the components, in the order they come up *)
| pmm_init (boot_info : boot_info_t) : bcall bool
| pmm_managed_pages : bcall Z
| pmm_free_pages : bcall Z
| pmm_self_test : bcall bool
| acpi_init (boot_info : boot_info_t) : bcall (option acpi_info_t)
| paging_init (boot_info : boot_info_t) (acpi : acpi_info_t) : bcall (option paging_info_t)
| heap_init (pages : Z) : bcall bool
| heap_self_test : bcall bool
| heap_total_bytes : bcall Z
| module_init : bcall bool
| module_count : bcall Z
| module_name_at (index : Z) : bcall (list Z)
| module_self_test : bcall bool
| ramfs_init : bcall bool
| ramfs_capacity : bcall Z
| ramfs_max_file_size : bcall Z
| ramfs_self_test : bcall bool
| block_init : bcall bool
| pci_init : bcall bool
| pci_self_test : bcall bool
| pci_info : bcall pci_info_t
| net_init (pci : pci_info_t) : bcall bool
| net_self_test : bcall bool
| net_info : bcall (option net_info_t)
| net_device_name : bcall (list Z)
| net_core_name : bcall (list Z)
| ahci_init (device : pci_device_t) (paging : paging_info_t) : bcall bool
| ahci_self_test : bcall bool
| block_use_ahci_device : bcall bool
| ahci_port_and_sectors : bcall (Z * Z)
| block_default_device : bcall (option (list Z * Z))
| block_self_test : bcall bool
| fat32_init : bcall bool
| fat32_descriptor_name : bcall (list Z)
| fat32_self_test : bcall bool
| arch_init : bcall bool
(* the traps of the self tests: [int3] always traps, a store does when the page is
   not mapped; the answer is what the trap reports, its instruction pointer and for
   a page fault the error code before it; [None] is a store that goes through *)
| cpu_trigger_breakpoint : bcall Z
| store_byte (address value : Z) : bcall (option (Z * Z))
| arch_trigger_double_fault (unmapped_address : Z) : bcall (option Z)
| process_init (paging : paging_info_t) : bcall bool
| apic_init (acpi : acpi_info_t) : bcall bool
| input_init (acpi : acpi_info_t) : bcall unit
| arch_enable_interrupts : bcall unit
| apic_timer_ticks : bcall Z
| cpu_pause : bcall unit
| process_run_self_test : bcall bool
| process_security_boundaries_online : bcall bool
| net_foundation_online : bcall bool
| arch_on_double_fault_ist : bcall bool.
End B.

Class Platform (M : Type) := { perform : forall {T}, B.bcall T -> M -> T * M }.

Section kernel.
Context {M : Type} `{Platform M}.

Definition request {T} (c : B.bcall T) : shell (M := M) T := fun m => let '(v, m) := perform c m in (Returned v, m).
Definition halt {A} : shell (M := M) A := fun m => (HaltedForever, m).

Definition kputc (c : Z) : shell unit := request (B.kconsole_putc c).
Definition kprint (s : string) : shell unit := request (B.kconsole_write (c_string s)).
Definition kprint_text (t : list Z) : shell unit := request (B.kconsole_write (c_str t)).

(** [while (used) kputc(buffer[--used]);] *)
Fixpoint kput_back (buffer : list Z) (used : nat) : shell unit :=
  match used with O => mret tt | S used' => kputc (zget 0 buffer (Z.of_nat used'));; kput_back buffer used' end.
Definition kprint_dec (value : Z) : shell unit :=
  if negb (nz value) then kputc 48
  else let '(buffer, used) := dec_loop 20 value (replicate 21 0) 0 in kput_back buffer (Z.to_nat used).

Fixpoint kput_all (t : list Z) : shell unit := match t with [] => mret tt | c :: t' => kputc c;; kput_all t' end.
Definition kprint_hex (value : Z) : shell unit := kprint "0x";; kput_all (hex_text value).

Definition panic {A} (reason : string) : shell A :=
  kprint "\nKERNEL_PANIC: ";;
  kprint reason;;
  kprint "\n";;
  halt.

(** [expected_guard_fault] is the kernel's variable of that name. *)
Definition kernel_exception_panic {A} (expected_guard_fault vector error_code instruction_pointer fault_address : Z) : shell A :=
  kprint "\nKERNEL_EXCEPTION\nVector: ";;
  kprint_dec vector;;
  kprint "\nError: ";;
  kprint_hex error_code;;
  kprint "\nRIP: ";;
  kprint_hex instruction_pointer;;
  (if vector =? 14 then kprint "\nFault address: ";; kprint_hex fault_address else mret tt);;
  kprint "\n";;
  (if (vector =? 14) && (fault_address =? expected_guard_fault) then kprint "STACK_GUARD_FAULT_CAUGHT\n" else mret tt);;
  (if vector =? 8 then
     on_ist ← request B.arch_on_double_fault_ist;
     kprint (if (on_ist : bool) then "DOUBLE_FAULT_IST_ACTIVE\n" else "DOUBLE_FAULT_IST_MISSING\n")
   else mret tt);;
  halt.

(** [interrupt_dispatch] (src/arch.c) for an exception taken in kernel mode, where no
    vector below 32 has a registered handler; [cr2] is the address of a page fault. *)
Definition kernel_trap {A} (expected_guard_fault vector error_code rip cr2 : Z) : shell A :=
  let fault_address := if vector =? 14 then cr2 else 0 in
  kernel_exception_panic expected_guard_fault vector error_code rip fault_address.

(** [if (!check) panic(reason);] *)
Definition require (check : shell bool) (reason : string) : shell unit :=
  ok ← check; if (ok : bool) then mret tt else panic reason.

Definition ARGUS_SELF_TEST_BREAKPOINT : Z := 1.
Definition ARGUS_SELF_TEST_STACK_GUARD : Z := 2.
Definition ARGUS_SELF_TEST_DOUBLE_FAULT : Z := 3.

(** The boot information, up to the call of [pmm_init]. *)
Definition check_boot_info (boot_info : option boot_info_t) : shell boot_info_t :=
  match boot_info with
  | None => panic "invalid boot information"
  | Some boot_info =>
      (if (bi_magic boot_info !=? ARGUS_BOOT_INFO_MAGIC) || (bi_version boot_info !=? ARGUS_BOOT_INFO_VERSION)
       then panic "invalid boot information" else mret tt);;
      (if negb (nz (bi_boot_services_exited boot_info)) then panic "firmware handoff incomplete" else mret tt);;
      (if ARGUS_SELF_TEST_DOUBLE_FAULT <? bi_kernel_self_test boot_info then panic "invalid kernel self-test request" else mret tt);;
      kprint "BOOT_SERVICES_EXITED\n";;
      kprint "Kernel image: ";;
      kprint_hex (range_base (bi_kernel_image boot_info));;
      kprint " + ";;
      kprint_dec (range_size (bi_kernel_image boot_info));;
      kprint " bytes\nMemory descriptors: ";;
      kprint_dec (map_size (bi_memory_map boot_info) / map_descriptor_size (bi_memory_map boot_info));;
      kprint "\nACPI RSDP: ";;
      kprint_hex (bi_acpi_rsdp boot_info);;
      kprint "\n";;
      mret boot_info
  end.

(** The page allocator, up to the call of [acpi_init]. *)
Definition start_pages (boot_info : boot_info_t) : shell unit :=
  require (request (B.pmm_init boot_info)) "physical memory manager initialization failed";;
  kprint "Managed physical pages: ";;
  n ← request B.pmm_managed_pages;
  kprint_dec n;;
  kprint "\nFree physical pages: ";;
  n ← request B.pmm_free_pages;
  kprint_dec n;;
  kprint "\n";;
  require (request B.pmm_self_test) "physical memory allocator self-test failed";;
  kprint "PMM_SELF_TEST_PASS\n".

Definition start_memory (boot_info : boot_info_t) : shell (acpi_info_t * paging_info_t) :=
  start_pages boot_info;;
  acpi ← request (B.acpi_init boot_info);
  match acpi with
  | None => panic "ACPI XSDT/MADT discovery failed"
  | Some acpi =>
      kprint "ACPI_MADT_ONLINE\nDetected CPUs: ";;
      kprint_dec (acpi_enabled_cpu_count acpi);;
      kprint "\nLocal APIC: ";;
      kprint_hex (acpi_local_apic_address acpi);;
      kprint "\nI/O APIC: ";;
      kprint_hex (acpi_io_apic_address acpi);;
      kprint "\nInterrupt overrides: ";;
      kprint_dec (acpi_interrupt_override_count acpi);;
      kprint "\n";;
      paging ← request (B.paging_init boot_info acpi);
      match paging with
      | None => panic "kernel page-table construction failed"
      | Some paging =>
          kprint "PAGING_ONLINE\nCR3: ";;
          kprint_hex (pi_root_table paging);;
          kprint "\nIdentity-mapped MiB: ";;
          kprint_dec (pi_mapped_bytes paging / (1024 * 1024));;
          kprint "\nPage-table pages: ";;
          kprint_dec (pi_table_pages paging);;
          kprint "\nNX: ";;
          kprint (if pi_nx_enabled paging then "enabled\n" else "unavailable\n");;
          kprint "Stack guard: ";;
          kprint_hex (pi_stack_guard_page paging);;
          kprint "\nSTACK_GUARD_ONLINE\n";;
          require (request (B.heap_init 2048)) "kernel heap initialization failed";;
          require (request B.heap_self_test) "kernel heap self-test failed";;
          kprint "HEAP_SELF_TEST_PASS\nHeap capacity: ";;
          n ← request B.heap_total_bytes;
          kprint_dec n;;
          kprint " bytes\n";;
          kprint "ALLOCATOR_HARDENING_PASS\n";;
          mret (acpi, paging)
      end
  end.

Definition start_modules : shell unit :=
  require (request B.module_init) "module ABI validation failed";;
  kprint "MODULE_ABI_V1_ONLINE\nRust components: ";;
  n ← request B.module_count;
  kprint_dec n;;
  kprint "\nChecksum module: ";;
  name ← request (B.module_name_at 0);
  kprint_text name;;
  kprint "\n";;
  require (request B.module_self_test) "Rust module self-test failed";;
  kprint "RUST_MODULE_SELF_TEST_PASS\n";;
  require (request B.ramfs_init) "Rust RAMFS ABI initialization failed";;
  kprint "RAMFS_ABI_V1_ONLINE\nRAMFS capacity: ";;
  n ← request B.ramfs_capacity;
  kprint_dec n;;
  kprint " files x ";;
  n ← request B.ramfs_max_file_size;
  kprint_dec n;;
  kprint " bytes\n";;
  require (request B.ramfs_self_test) "Rust RAMFS self-test failed";;
  kprint "RUST_RAMFS_SELF_TEST_PASS\n".

Definition start_network (pci : pci_info_t) : shell unit :=
  require (call_and (request (B.net_init pci)) (request B.net_self_test)) "network foundation self-test failed";;
  network ← request B.net_info;
  match network with
  | None => panic "network foundation unavailable"
  | Some network =>
      kprint "NETWORK_DEVICE_BOUNDARY_ONLINE\nNetwork device: ";;
      name ← request B.net_device_name;
      kprint_text name;;
      kprint "\nNetwork core: ";;
      name ← request B.net_core_name;
      kprint_text name;;
      kprint "\nPacket bytes: ";;
      kprint_dec (ni_max_frame network);;
      kprint "\nQueue capacity: ";;
      kprint_dec (ni_queue_capacity network);;
      kprint " frames per direction\n";;
      (if ni_present network then
         kprint (if ni_quarantined network then "NIC_QUARANTINED\n" else "NIC_QUARANTINE_FAILED\n");;
         kprint (if ni_virtio_modern network then "VIRTIO_NET_TRANSPORT_VALID\n" else "NETWORK_DEVICE_UNSUPPORTED\n")
       else kprint "NETWORK_DEVICE_ABSENT\n");;
      kprint "RUST_NETWORK_CORE_ONLINE\n";;
      kprint "PACKET_PARSER_NEGATIVE_TESTS_PASS\n";;
      kprint "BOUNDED_PACKET_QUEUES_PASS\n";;
      kprint "TCP_STATE_CORE_PASS\n";;
      kprint "NETWORK_EGRESS_DISABLED\n"
  end.

Definition start_storage (pci : pci_info_t) (paging : paging_info_t) : shell unit :=
  sata ← (if nz (ahci_count pci) then
      call_and (request (B.ahci_init (first_ahci pci) paging)) (call_and (request B.ahci_self_test) (request B.block_use_ahci_device))
    else mret false);
  (if (sata : bool) then
     storage ← request B.ahci_port_and_sectors;
     kprint "AHCI_SATA_ONLINE\nAHCI port: ";;
     kprint_dec (fst storage);;
     kprint "\nAHCI sectors: ";;
     kprint_dec (snd storage);;
     kprint "\nAHCI_IDENTIFY_PASS\n"
   else kprint "AHCI unavailable; using memory fixture.\n");;
  device ← request B.block_default_device;
  match device with
  | None => panic "block-device self-test failed"
  | Some (name, sectors) =>
      require (request B.block_self_test) "block-device self-test failed";;
      kprint "BLOCK_DEVICE_ONLINE\nBlock device: ";;
      kprint_text name;;
      kprint " (";;
      kprint_dec sectors;;
      kprint " sectors)\nBLOCK_DEVICE_SELF_TEST_PASS\n";;
      require (request B.fat32_init) "Rust FAT32 mount failed";;
      kprint "FAT32_ABI_V1_ONLINE\nFAT32 reader: ";;
      name ← request B.fat32_descriptor_name;
      kprint_text name;;
      kprint "\n";;
      require (request B.fat32_self_test) "Rust FAT32 self-test failed";;
      kprint "RUST_FAT32_SELF_TEST_PASS\n"
  end.

(** Block devices, PCI, network and storage. *)
Definition start_devices (paging : paging_info_t) : shell unit :=
  require (request B.block_init) "block-device initialization failed";;
  require (call_and (request B.pci_init) (request B.pci_self_test)) "PCI discovery failed";;
  pci ← request B.pci_info;
  kprint "PCI_DISCOVERY_ONLINE\nPCI functions: ";;
  kprint_dec (device_count pci);;
  kprint "\nAHCI controllers: ";;
  kprint_dec (ahci_count pci);;
  kprint "\nNetwork controllers: ";;
  kprint_dec (network_count pci);;
  kprint "\nQuarantined network controllers: ";;
  kprint_dec (network_quarantined_count pci);;
  kprint "\nPCI_SELF_TEST_PASS\n";;
  start_network pci;;
  start_storage pci paging.

(** The traps a self-test asks for; none of them comes back.  A store to the guard
    page is a page fault when the page is not mapped, with the page's address in CR2;
    after [arch_trigger_double_fault] has taken the gate of the page fault away, it
    is a double fault, whose error code is 0.  [expected_guard_fault] has just been
    set to [stack_guard_page]. *)
Definition exception_self_test (self_test stack_guard_page : Z) : shell unit :=
  if self_test =? ARGUS_SELF_TEST_BREAKPOINT then
    kprint "EXCEPTION_SELF_TEST_BEGIN\n";;
    rip ← request B.cpu_trigger_breakpoint;
    kernel_trap stack_guard_page 3 0 rip 0
  else if self_test =? ARGUS_SELF_TEST_STACK_GUARD then
    kprint "STACK_GUARD_SELF_TEST_BEGIN\n";;
    fault ← request (B.store_byte stack_guard_page 0xA5);
    match fault with
    | Some (error_code, rip) => kernel_trap stack_guard_page 14 error_code rip stack_guard_page
    | None => panic "stack guard page remained mapped"
    end
  else if self_test =? ARGUS_SELF_TEST_DOUBLE_FAULT then
    kprint "DOUBLE_FAULT_SELF_TEST_BEGIN\n";;
    fault ← request (B.arch_trigger_double_fault stack_guard_page);
    match fault with
    | Some rip => kernel_trap stack_guard_page 8 0 rip 0
    | None => halt (* [for (;;) {}] of [arch_trigger_double_fault] *)
    end
  else mret tt.

(** [for (spins = 0; spins < 200000000u && !apic_timer_ticks(); ++spins) cpu_pause();] *)
Fixpoint spin_for_tick (spins : nat) : shell unit :=
  match spins with
  | O => mret tt
  | S spins' => ticks ← request B.apic_timer_ticks; if negb (nz ticks) then request B.cpu_pause;; spin_for_tick spins' else mret tt
  end.

Definition online_lines : list string :=
  ["USER_RING3_ONLINE\n"; "SYSCALL_SYSRET_ONLINE\n"; "USER_ADDRESS_SPACE_ISOLATION_PASS\n"; "ELF_LOADER_HARDENING_PASS\n";
   "USER_FAULT_CONTAINMENT_PASS\n"; "TIMER_PREEMPTION_PASS\n"; "BLOCKING_EVENT_WAIT_ONLINE\n"; "PREEMPTIVE_SCHEDULER_PASS\n";
   "CAPABILITY_HANDLES_PASS\n"; "BOUNDED_IPC_PASS\n"; "ANONYMITY_FAIL_CLOSED_PASS\n"; "USER_PROCESS_SELF_TEST_PASS\n";
   "CPP_USERSPACE_ONLINE\n"; "APP_SURFACE_ABI_V1_ONLINE\n"; "SNAKE_USER_APP_ONLINE\n"; "CALCULATOR_USER_APP_ONLINE\n"; "NOTES_USER_APP_ONLINE\n";
   "Argus-owned stack active. Entering native kernel shell.\n"]%string.
Fixpoint kprint_lines (lines : list string) : shell unit := match lines with [] => mret tt | l :: lines' => kprint l;; kprint_lines lines' end.

Definition start_processes (spins : nat) (boot_info : boot_info_t) (acpi : acpi_info_t) (paging : paging_info_t) : shell unit :=
  require (request B.arch_init) "TSS/IDT initialization failed";;
  kprint "GDT_IDT_ONLINE\n";;
  kprint "DOUBLE_FAULT_IST_ONLINE\n";;
  exception_self_test (bi_kernel_self_test boot_info) (pi_stack_guard_page paging);;
  require (request (B.process_init paging)) "user process initialization failed";;
  require (request (B.apic_init acpi)) "local APIC initialization failed";;
  kprint "LOCAL_APIC_ONLINE\n";;
  request (B.input_init acpi);;
  request B.arch_enable_interrupts;;
  spin_for_tick spins;;
  require (ticks ← request B.apic_timer_ticks; mret (nz ticks)) "local APIC timer did not fire";;
  kprint "APIC_TIMER_TICK\n";;
  require (request B.process_run_self_test) "user process self-test failed";;
  require (call_and (request B.process_security_boundaries_online) (request B.net_foundation_online)) "security boundary self-test failed";;
  kprint_lines online_lines.

(** The arguments of the final call of [kernel_shell_run]. *)
Definition kernel_main (spins : nat) (boot_info : option boot_info_t) : shell (boot_info_t * acpi_info_t * paging_info_t) :=
  request B.kconsole_clear;;
  kprint "ArgusOS kernel v0.22\n";;
  kprint "ARGUS_KERNEL_ONLINE\n";;
  boot_info ← check_boot_info boot_info;
  found ← start_memory boot_info;
  let '(acpi, paging) := found : acpi_info_t * paging_info_t in
  start_modules;;
  start_devices paging;;
  start_processes spins boot_info acpi paging;;
  mret (boot_info, acpi, paging).

End kernel.

(** ** Steps that cannot fail *)

(** On a platform whose console calls change the machine within [Q], printing returns
    and changes it within [Q]. *)
Section returns.
Context {M : Type} `{Platform M} (Q : M -> M -> Prop) `{!PreOrder Q}.
Definition within_console : Prop :=
  (forall s m, Q m (snd (perform (B.kconsole_write s) m))) /\ (forall c m, Q m (snd (perform (B.kconsole_putc c) m))).
Hypothesis Hconsole : within_console.

Definition returns {A} (c : shell (M := M) A) (a : A) : Prop := forall m, exists m', c m = (Returned a, m') /\ Q m m'.

Lemma returns_ret A (a : A) : returns (mret a) a.
Proof using PreOrder0. intros m. by exists m. Qed.
Lemma returns_bind A B (c : shell A) (f : A -> shell B) a b : returns c a -> returns (f a) b -> returns (mbind f c) b.
Proof using PreOrder0.
  intros Hc Hf m. destruct (Hc m) as (m1 & E1 & Q1). destruct (Hf m1) as (m2 & E2 & Q2). exists m2. unfold mbind, shell_bind. rewrite E1.
  split; [done|]. by transitivity m1.
Qed.

Lemma returns_print s : returns (kprint s) tt.
Proof using Hconsole.
  intros m. pose proof (proj1 Hconsole (c_string s) m) as Hq. unfold kprint, request. destruct (perform _ m) as [[] m']. by exists m'.
Qed.
Lemma returns_text t : returns (kprint_text t) tt.
Proof using Hconsole.
  intros m. pose proof (proj1 Hconsole (c_str t) m) as Hq. unfold kprint_text, request. destruct (perform _ m) as [[] m']. by exists m'.
Qed.
Lemma returns_putc c : returns (kputc c) tt.
Proof using Hconsole.
  intros m. pose proof (proj2 Hconsole c m) as Hq. unfold kputc, request. destruct (perform _ m) as [[] m']. by exists m'.
Qed.
Lemma returns_all t : returns (kput_all t) tt.
Proof using Hconsole PreOrder0. induction t as [|c t IH]; cbn [kput_all]; [apply returns_ret|]. by eapply returns_bind; [apply returns_putc|]. Qed.
Lemma returns_back buffer n : returns (kput_back buffer n) tt.
Proof using Hconsole PreOrder0. induction n as [|n IH]; cbn [kput_back]; [apply returns_ret|]. by eapply returns_bind; [apply returns_putc|]. Qed.
Lemma returns_dec v : returns (kprint_dec v) tt.
Proof using Hconsole PreOrder0. unfold kprint_dec. case_if; [apply returns_putc|]. destruct (dec_loop _ _ _ _). apply returns_back. Qed.
Lemma returns_hex v : returns (kprint_hex v) tt.
Proof using Hconsole PreOrder0. eapply returns_bind; [apply returns_print|apply returns_all]. Qed.
Lemma returns_lines lines : returns (kprint_lines lines) tt.
Proof using Hconsole PreOrder0. induction lines as [|l lines IH]; cbn [kprint_lines]; [apply returns_ret|]. by eapply returns_bind; [apply returns_print|]. Qed.
End returns.

(** ** The checks of start-up *)

(** A check, and the last words of the kernel when it fails. *)
Definition check : Type := bool * list Z.

(** The last words of the first check that fails. *)
Fixpoint first_failure (checks : list check) : option (list Z) :=
  match checks with [] => None | (ok, words) :: checks' => if (ok : bool) then first_failure checks' else Some words end.

Lemma first_failure_app checks1 checks2 : first_failure (checks1 ++ checks2) = None -> first_failure checks1 = None /\ first_failure checks2 = None.
Proof. induction checks1 as [|[[] r] checks1 IH]; [done| |done]. exact IH. Qed.

Definition panic_text (reason : string) : list Z := c_string "\nKERNEL_PANIC: " ++ c_string reason ++ c_string "\n".
(** [if (!ok) panic(reason);] *)
Definition or_panic (ok : bool) (reason : string) : check := (ok, panic_text reason).

(** The digits [kprint_dec] and [kprint_hex] put on the console. *)
Fixpoint back_text (buffer : list Z) (used : nat) : list Z :=
  match used with O => [] | S used' => zget 0 buffer (Z.of_nat used') :: back_text buffer used' end.
Definition dec_text (value : Z) : list Z :=
  if negb (nz value) then [48]
  else let '(buffer, used) := dec_loop 20 value (replicate 21 0) 0 in back_text buffer (Z.to_nat used).

Example dec_text_vectors : dec_text 3 = [51] /\ dec_text 14 = [49; 52] /\ dec_text 8 = [56].
Proof. by vm_compute. Qed.

(** What [kernel_exception_panic] prints. *)
Definition exception_text (expected_guard_fault : Z) (on_ist : bool) (vector error_code rip fault_address : Z) : list Z :=
  c_string "\nKERNEL_EXCEPTION\nVector: " ++ dec_text vector ++ c_string "\nError: " ++ (c_string "0x" ++ hex_text error_code)
  ++ c_string "\nRIP: " ++ (c_string "0x" ++ hex_text rip)
  ++ (if vector =? 14 then c_string "\nFault address: " ++ (c_string "0x" ++ hex_text fault_address) else [])
  ++ c_string "\n"
  ++ (if (vector =? 14) && (fault_address =? expected_guard_fault) then c_string "STACK_GUARD_FAULT_CAUGHT\n" else [])
  ++ (if vector =? 8 then c_string (if on_ist then "DOUBLE_FAULT_IST_ACTIVE\n" else "DOUBLE_FAULT_IST_MISSING\n") else []).

Section judged.
Context {M : Type} `{Platform M}.

(** A platform whose components answer the same way each time, and a screen. *)
Class Steady (says : forall T, B.bcall T -> T) (screen : M -> list Z) := {
  steady_answer : forall T (k : B.bcall T) m, fst (perform k m) = says T k;
  steady_screen : forall s m, screen (snd (perform (B.kconsole_write s) m)) = screen m ++ s;
  steady_putc : forall c m, screen (snd (perform (B.kconsole_putc c) m)) = screen m ++ [c];
  steady_asked : forall m, screen (snd (perform B.arch_on_double_fault_ist m)) = screen m;
  steady_tried : forall address m, screen (snd (perform (B.arch_trigger_double_fault address) m)) = screen m }.
Context (says : forall T, B.bcall T -> T) (screen : M -> list Z) `{!Steady says screen}.

Definition anything : M -> M -> Prop := fun _ _ => True.
Instance anything_preorder : PreOrder anything.
Proof. by split. Qed.
Lemma anything_console : within_console anything.
Proof. done. Qed.
Definition passes {A} (c : shell (M := M) A) (a : A) : Prop := returns anything c a.
(** [c] stops, with these last words on the console. *)
Definition stops {A} (c : shell (M := M) A) (words : list Z) : Prop :=
  forall m, exists m' before, c m = (HaltedForever, m') /\ screen m' = before ++ words.
Definition judged {A} (c : shell (M := M) A) (checks : list check) (a : A) : Prop :=
  match first_failure checks with Some words => stops c words | None => passes c a end.

Lemma passes_request T (k : B.bcall T) : passes (request k) (says T k).
Proof using Steady0. intros m. unfold request. rewrite <- (steady_answer T k m). destruct (perform k m) as [v m']. by exists m'. Qed.
Lemma passes_bind A B (c : shell A) (f : A -> shell B) a b : passes c a -> passes (f a) b -> passes (mbind f c) b.
Proof. apply returns_bind, _. Qed.
Lemma passes_ret A (a : A) : passes (mret a) a.
Proof. by apply returns_ret. Qed.
Lemma passes_print s : passes (kprint s) tt.
Proof. by apply returns_print. Qed.
Lemma passes_text t : passes (kprint_text t) tt.
Proof. by apply returns_text. Qed.
Lemma passes_dec v : passes (kprint_dec v) tt.
Proof. by apply returns_dec. Qed.
Lemma passes_hex v : passes (kprint_hex v) tt.
Proof. by apply returns_hex. Qed.
Lemma passes_lines lines : passes (kprint_lines lines) tt.
Proof. by apply returns_lines. Qed.
Lemma passes_and c1 c2 b1 b2 : passes c1 b1 -> passes c2 b2 -> passes (call_and c1 c2) (b1 && b2).
Proof. intros H1 H2. eapply passes_bind; [exact H1|]. destruct b1; [exact H2|apply passes_ret]. Qed.
Lemma passes_spin n : passes (spin_for_tick n) tt.
Proof using Steady0.
  induction n as [|n IH]; cbn [spin_for_tick]; [apply passes_ret|]. eapply passes_bind; [apply passes_request|]. case_if; [|apply passes_ret].
  eapply passes_bind; [apply passes_request|exact IH].
Qed.

Lemma panic_stops_with A reason : stops (panic (A := A) reason) (panic_text reason).
Proof using Steady0.
  intros m. unfold panic, mbind, shell_bind, kprint, request, halt.
  pose proof (steady_screen (c_string "\nKERNEL_PANIC: ") m) as S1. destruct (perform _ m) as [u1 m1]. cbn [snd] in S1.
  pose proof (steady_screen (c_string reason) m1) as S2. destruct (perform _ m1) as [u2 m2]. cbn [snd] in S2.
  pose proof (steady_screen (c_string "\n") m2) as S3. destruct (perform _ m2) as [u3 m3]. cbn [snd] in S3.
  exists m3, (screen m). split; [done|]. rewrite S3, S2, S1. unfold panic_text. by rewrite <- !app_assoc.
Qed.

Lemma judged_pass A (c : shell A) a : passes c a -> judged c [] a.
Proof. done. Qed.
(** A step that cannot fail, then the rest. *)
Lemma judged_step A B (c : shell A) (f : A -> shell B) a checks b : passes c a -> judged (f a) checks b -> judged (mbind f c) checks b.
Proof.
  intros Hc. unfold judged. destruct (first_failure checks) as [words|]; [|by apply passes_bind].
  intros Hf m. destruct (Hc m) as (m1 & E1 & _). destruct (Hf m1) as (m2 & before & E2 & Hs). exists m2, before. unfold mbind, shell_bind. by rewrite E1.
Qed.
Lemma judged_bind A B (c : shell A) (f : A -> shell B) a checks1 checks2 b :
  judged c checks1 a -> (first_failure checks1 = None -> judged (f a) checks2 b) -> judged (mbind f c) (checks1 ++ checks2) b.
Proof.
  unfold judged at 1 3. intros Hc Hf. assert (first_failure (checks1 ++ checks2) = match first_failure checks1 with Some r => Some r | None => first_failure checks2 end) as ->.
  { induction checks1 as [|[[] r] checks1 IH]; [done| |done]. cbn in *. by apply IH. }
  destruct (first_failure checks1) as [words|].
  - intros m. destruct (Hc m) as (m1 & before & E1 & Hs). exists m1, before. unfold mbind, shell_bind. by rewrite E1.
  - by apply (judged_step A B c f a checks2 b Hc (Hf eq_refl)).
Qed.
Lemma judged_require (c : shell bool) b reason : passes c b -> judged (require c reason) [or_panic b reason] tt.
Proof using Steady0.
  intros Hc. unfold require. apply (judged_step _ _ c _ b); [done|]. destruct b; unfold judged; cbn [first_failure]; [apply passes_ret|apply panic_stops_with].
Qed.
Lemma judged_guard (fails : bool) reason : judged (if fails then panic reason else mret tt) [or_panic (negb fails) reason] tt.
Proof using Steady0. destruct fails; unfold judged; cbn [first_failure negb]; [apply panic_stops_with|apply passes_ret]. Qed.
Lemma judged_unless (ok : bool) reason : judged (if negb ok then panic reason else mret tt) [or_panic ok reason] tt.
Proof using Steady0. destruct ok; unfold judged; cbn [first_failure negb]; [apply passes_ret|apply panic_stops_with]. Qed.
Lemma judged_option A X (o : option X) (f : X -> shell A) reason checks a :
  (forall x, o = Some x -> judged (f x) checks a) ->
  judged (match o with None => panic reason | Some x => f x end) (or_panic (bool_decide (is_Some o)) reason :: checks) a.
Proof using Steady0.
  intros Hf. destruct o as [x|]; unfold judged; cbn [first_failure].
  - rewrite bool_decide_eq_true_2 by eauto. by apply Hf.
  - rewrite bool_decide_eq_false_2 by (by intros [? ?]). apply panic_stops_with.
Qed.

Ltac boot_step :=
  match goal with
  | |- judged (mbind _ (kprint _)) _ _ => eapply judged_step; [apply passes_print|]
  | |- judged (mbind _ (kprint_text _)) _ _ => eapply judged_step; [apply passes_text|]
  | |- judged (mbind _ (kprint_dec _)) _ _ => eapply judged_step; [apply passes_dec|]
  | |- judged (mbind _ (kprint_hex _)) _ _ => eapply judged_step; [apply passes_hex|]
  | |- judged (mbind _ (request _)) _ _ => eapply judged_step; [apply passes_request|]
  | |- judged (mbind _ (require _ _)) (?x :: ?rest) _ =>
      change (x :: rest) with ([x] ++ rest); eapply judged_bind; [apply judged_require|intros _]
  | |- judged (mbind _ (if negb _ then panic _ else mret tt)) (?x :: ?rest) _ =>
      change (x :: rest) with ([x] ++ rest); eapply judged_bind; [apply judged_unless|intros _]
  | |- judged (mbind _ (if _ then panic _ else mret tt)) (?x :: ?rest) _ =>
      change (x :: rest) with ([x] ++ rest); eapply judged_bind; [apply judged_guard|intros _]
  | |- passes (request _) _ => apply passes_request
  | |- passes (call_and _ _) _ => apply passes_and
  | |- passes (mret _) _ => apply passes_ret
  | |- passes (kprint _) _ => apply passes_print
  | |- passes (kprint_text _) _ => apply passes_text
  | |- passes (kprint_dec _) _ => apply passes_dec
  | |- passes (kprint_hex _) _ => apply passes_hex
  | |- passes (kprint_lines _) _ => apply passes_lines
  | |- passes (mbind _ _) _ => eapply passes_bind
  | |- passes (if ?b then _ else _) _ => destruct b
  | |- judged _ [] _ => apply judged_pass
  end.

(** ** What start-up checks, in order *)

Definition valid_header (bi : boot_info_t) : bool :=
  (bi_magic bi =? ARGUS_BOOT_INFO_MAGIC) && (bi_version bi =? ARGUS_BOOT_INFO_VERSION).
Definition found_acpi (bi : boot_info_t) : option acpi_info_t := says _ (B.acpi_init bi).
Definition found_paging (bi : boot_info_t) : option paging_info_t := acpi ← found_acpi bi; says _ (B.paging_init bi acpi).
Definition with_found {X} (o : option X) (p : X -> bool) : bool := match o with Some x => p x | None => false end.

Definition handoff_checks (bi : boot_info_t) : list check :=
  [or_panic (valid_header bi) "invalid boot information";
   or_panic (nz (bi_boot_services_exited bi)) "firmware handoff incomplete";
   or_panic ((bi_kernel_self_test bi <=? ARGUS_SELF_TEST_DOUBLE_FAULT)%Z) "invalid kernel self-test request"]%string.
Definition memory_checks (bi : boot_info_t) : list check :=
  [or_panic (says _ (B.pmm_init bi)) "physical memory manager initialization failed";
   or_panic (says _ B.pmm_self_test) "physical memory allocator self-test failed";
   or_panic (bool_decide (is_Some (found_acpi bi))) "ACPI XSDT/MADT discovery failed";
   or_panic (bool_decide (is_Some (found_paging bi))) "kernel page-table construction failed";
   or_panic (says _ (B.heap_init 2048)) "kernel heap initialization failed";
   or_panic (says _ B.heap_self_test) "kernel heap self-test failed"]%string.
Definition module_checks : list check :=
  [or_panic (says _ B.module_init) "module ABI validation failed";
   or_panic (says _ B.module_self_test) "Rust module self-test failed";
   or_panic (says _ B.ramfs_init) "Rust RAMFS ABI initialization failed";
   or_panic (says _ B.ramfs_self_test) "Rust RAMFS self-test failed"]%string.
Definition device_checks : list check :=
  [or_panic (says _ B.block_init) "block-device initialization failed";
   or_panic (says _ B.pci_init && says _ B.pci_self_test) "PCI discovery failed";
   or_panic (says _ (B.net_init (says _ B.pci_info)) && says _ B.net_self_test) "network foundation self-test failed";
   or_panic (bool_decide (is_Some (says _ B.net_info))) "network foundation unavailable";
   or_panic (bool_decide (is_Some (says _ B.block_default_device))) "block-device self-test failed";
   or_panic (says _ B.block_self_test) "block-device self-test failed";
   or_panic (says _ B.fat32_init) "Rust FAT32 mount failed";
   or_panic (says _ B.fat32_self_test) "Rust FAT32 self-test failed"]%string.
(** A self test that was asked for never lets start-up go on: the kernel's last
    words are those of the trap. *)
Definition self_test_checks (bi : boot_info_t) (page : Z) : list check :=
  let trap := exception_text page (says _ B.arch_on_double_fault_ist) in
  [(negb (bi_kernel_self_test bi =? ARGUS_SELF_TEST_BREAKPOINT), trap 3 0 (says _ B.cpu_trigger_breakpoint) 0);
   (negb (bi_kernel_self_test bi =? ARGUS_SELF_TEST_STACK_GUARD),
    match says _ (B.store_byte page 0xA5) with
    | Some (error_code, rip) => trap 14 error_code rip page
    | None => panic_text "stack guard page remained mapped"
    end);
   (negb (bi_kernel_self_test bi =? ARGUS_SELF_TEST_DOUBLE_FAULT),
    match says _ (B.arch_trigger_double_fault page) with
    | Some rip => trap 8 0 rip 0
    | None => c_string "DOUBLE_FAULT_SELF_TEST_BEGIN\n"
    end)].
Definition guard_page (bi : boot_info_t) : Z := match found_paging bi with Some paging => pi_stack_guard_page paging | None => 0 end.
Definition process_checks (bi : boot_info_t) : list check :=
  [or_panic (says _ B.arch_init) "TSS/IDT initialization failed"]%string ++ self_test_checks bi (guard_page bi) ++
  [or_panic (with_found (found_paging bi) (fun paging => says _ (B.process_init paging))) "user process initialization failed";
   or_panic (with_found (found_acpi bi) (fun acpi => says _ (B.apic_init acpi))) "local APIC initialization failed";
   or_panic (nz (says _ B.apic_timer_ticks)) "local APIC timer did not fire";
   or_panic (says _ B.process_run_self_test) "user process self-test failed";
   or_panic (says _ B.process_security_boundaries_online && says _ B.net_foundation_online) "security boundary self-test failed"]%string.
Definition boot_checks (bi : boot_info_t) : list check :=
  handoff_checks bi ++ memory_checks bi ++ module_checks ++ device_checks ++ process_checks bi.

Lemma judged_handoff bi : judged (check_boot_info (Some bi)) (handoff_checks bi) bi.
Proof using Steady0.
  unfold check_boot_info, handoff_checks, valid_header.
  replace ((bi_magic bi =? ARGUS_BOOT_INFO_MAGIC) && (bi_version bi =? ARGUS_BOOT_INFO_VERSION))
    with (negb ((bi_magic bi !=? ARGUS_BOOT_INFO_MAGIC) || (bi_version bi !=? ARGUS_BOOT_INFO_VERSION))) by (by rewrite negb_orb, !negb_involutive).
  rewrite Z.leb_antisym. repeat boot_step.
Qed.

Lemma judged_pages bi :
  judged (start_pages bi) [or_panic (says _ (B.pmm_init bi)) "physical memory manager initialization failed";
    or_panic (says _ B.pmm_self_test) "physical memory allocator self-test failed"] tt.
Proof using Steady0. unfold start_pages. repeat boot_step. Qed.

Lemma judged_memory bi acpi paging :
  (forall x, found_acpi bi = Some x -> x = acpi) -> (forall x, found_paging bi = Some x -> x = paging) -> judged (start_memory bi) (memory_checks bi) (acpi, paging).
Proof using Steady0.
  intros Ha Hp. unfold start_memory, memory_checks.
  match goal with |- judged _ (?a :: ?b :: ?rest) _ => change (a :: b :: rest) with ([a; b] ++ rest) end.
  eapply judged_bind; [apply judged_pages|intros _]. repeat boot_step. fold (found_acpi bi). apply judged_option. intros x Hx. repeat boot_step.
  assert (says _ (B.paging_init bi x) = found_paging bi) as -> by (unfold found_paging; by rewrite Hx).
  apply judged_option. intros y Hy. rewrite (Ha x Hx), (Hp y Hy). repeat boot_step.
Qed.

Lemma judged_modules : judged start_modules module_checks tt.
Proof using Steady0. unfold start_modules, module_checks. repeat boot_step. Qed.

Lemma judged_network pci :
  judged (start_network pci) [or_panic (says _ (B.net_init pci) && says _ B.net_self_test) "network foundation self-test failed";
    or_panic (bool_decide (is_Some (says _ B.net_info))) "network foundation unavailable"] tt.
Proof using Steady0.
  unfold start_network. repeat boot_step. apply judged_option. intros network _. repeat boot_step.
Qed.

Lemma judged_storage pci paging :
  judged (start_storage pci paging)
    [or_panic (bool_decide (is_Some (says _ B.block_default_device))) "block-device self-test failed";
     or_panic (says _ B.block_self_test) "block-device self-test failed";
     or_panic (says _ B.fat32_init) "Rust FAT32 mount failed";
     or_panic (says _ B.fat32_self_test) "Rust FAT32 self-test failed"] tt.
Proof using Steady0.
  unfold start_storage.
  assert (exists b, passes (if nz (ahci_count pci) then call_and (request (B.ahci_init (first_ahci pci) paging)) (call_and (request B.ahci_self_test) (request B.block_use_ahci_device))
   else mret false) b) as (sata & Hs) by (case_if; eexists; repeat boot_step).
  eapply judged_step; [exact Hs|]. eapply judged_step.
  { instantiate (1 := tt). destruct sata; [|apply passes_print]. eapply passes_bind; [apply passes_request|].
    repeat (eapply passes_bind; [first [apply passes_print|apply passes_dec]|]). apply passes_print. }
  repeat boot_step. apply judged_option. intros [name sectors] _. repeat boot_step.
Qed.

Lemma judged_devices paging : judged (start_devices paging) device_checks tt.
Proof using Steady0.
  unfold start_devices, device_checks. repeat boot_step. set (pci := says _ B.pci_info).
  match goal with |- judged _ (?a :: ?b :: ?rest) _ => change (a :: b :: rest) with ([a; b] ++ rest) end.
  eapply judged_bind; [apply judged_network|]. intros _. apply judged_storage.
Qed.

(** Printing, with what appears on the screen. *)
Definition puts (c : shell (M := M) unit) (t : list Z) : Prop :=
  forall m, exists m', c m = (Returned tt, m') /\ screen m' = screen m ++ t.

Lemma puts_ret : puts (mret tt) [].
Proof. intros m. exists m. by rewrite app_nil_r. Qed.
Lemma puts_print s : puts (kprint s) (c_string s).
Proof using Steady0.
  intros m. unfold kprint, request. pose proof (steady_screen (c_string s) m) as Hs. destruct (perform _ m) as [[] m']. by exists m'.
Qed.
Lemma puts_putc c : puts (kputc c) [c].
Proof using Steady0. intros m. unfold kputc, request. pose proof (steady_putc c m) as Hs. destruct (perform _ m) as [[] m']. by exists m'. Qed.
Lemma puts_then c1 c2 t1 t2 : puts c1 t1 -> puts c2 t2 -> puts (c1;; c2) (t1 ++ t2).
Proof.
  intros H1 H2 m. destruct (H1 m) as (m1 & E1 & S1). destruct (H2 m1) as (m2 & E2 & S2). exists m2.
  unfold mbind, shell_bind. rewrite E1, E2, S2, S1, app_assoc. done.
Qed.
Lemma puts_all t : puts (kput_all t) t.
Proof using Steady0. induction t as [|c t IH]; cbn [kput_all]; [apply puts_ret|]. apply (puts_then _ _ [c] t); [apply puts_putc|done]. Qed.
Lemma puts_back buffer n : puts (kput_back buffer n) (back_text buffer n).
Proof using Steady0.
  induction n as [|n IH]; cbn [kput_back back_text]; [apply puts_ret|]. apply (puts_then _ _ [_] (back_text buffer n)); [apply puts_putc|done].
Qed.
Lemma puts_dec v : puts (kprint_dec v) (dec_text v).
Proof using Steady0. unfold kprint_dec, dec_text. case_if; [apply puts_putc|]. destruct (dec_loop _ _ _ _). apply puts_back. Qed.
Lemma puts_hex v : puts (kprint_hex v) (c_string "0x" ++ hex_text v).
Proof using Steady0. apply puts_then; [apply puts_print|apply puts_all]. Qed.

Lemma stops_then A (c : shell unit) (d : shell A) t words :
  puts c t -> (forall m, exists m', d m = (HaltedForever, m') /\ screen m' = screen m ++ words) ->
  forall m, exists m', (c;; d) m = (HaltedForever, m') /\ screen m' = screen m ++ t ++ words.
Proof.
  intros Hc Hd m. destruct (Hc m) as (m1 & E1 & S1). destruct (Hd m1) as (m2 & E2 & S2). exists m2.
  unfold mbind, shell_bind. rewrite E1, E2, S2, S1, app_assoc. done.
Qed.

Lemma exception_prints A guard vector error rip address m :
  exists m', kernel_exception_panic (A := A) guard vector error rip address m = (HaltedForever, m')
    /\ screen m' = screen m ++ exception_text guard (says _ B.arch_on_double_fault_ist) vector error rip address.
Proof using Steady0.
  revert m. unfold kernel_exception_panic, exception_text.
  do 2 (apply stops_then; [first [apply puts_print|apply puts_dec]|]).
  do 4 (apply stops_then; [first [apply puts_print|apply puts_hex]|]).
  apply stops_then; [case_if; [apply puts_then; [apply puts_print|apply puts_hex]|apply puts_ret]|].
  apply stops_then; [apply puts_print|]. apply stops_then; [case_if; [apply puts_print|apply puts_ret]|].
  intros m. rewrite <- (app_nil_r (if vector =? 8 then _ else _)). revert m. apply stops_then.
  - case_if; [|apply puts_ret]. intros m. unfold mbind, shell_bind, request.
    pose proof (steady_asked m) as Ha. pose proof (steady_answer _ B.arch_on_double_fault_ist m) as Hv.
    destruct (perform B.arch_on_double_fault_ist m) as [v m1]. cbn [fst snd] in *. subst v. rewrite <- Ha. apply puts_print.
  - intros m. exists m. by rewrite app_nil_r.
Qed.

Lemma trap_stops A guard vector error rip cr2 address :
  address = (if vector =? 14 then cr2 else 0) ->
  stops (kernel_trap (A := A) guard vector error rip cr2)
    (exception_text guard (says _ B.arch_on_double_fault_ist) vector error rip address).
Proof using Steady0.
  intros -> m. unfold kernel_trap. cbv zeta.
  destruct (exception_prints A guard vector error rip (if vector =? 14 then cr2 else 0) m) as (m' & E & Hs). by exists m', (screen m).
Qed.

Lemma judged_self_test bi page : judged (exception_self_test (bi_kernel_self_test bi) page) (self_test_checks bi page) tt.
Proof using Steady0.
  unfold exception_self_test, self_test_checks. cbv zeta. set (n := bi_kernel_self_test bi).
  destruct (n =? ARGUS_SELF_TEST_BREAKPOINT); [|destruct (n =? ARGUS_SELF_TEST_STACK_GUARD); [|destruct (n =? ARGUS_SELF_TEST_DOUBLE_FAULT)]];
    cbn [negb].
  - repeat boot_step. unfold judged. cbn [first_failure]. by apply trap_stops.
  - repeat boot_step. unfold judged. cbn [first_failure].
    destruct (says _ (B.store_byte page 165)) as [[error rip]|]; [by apply trap_stops|apply panic_stops_with].
  - unfold judged. cbn [first_failure]. intros m. destruct (puts_print "DOUBLE_FAULT_SELF_TEST_BEGIN\n" m) as (m1 & E1 & S1).
    unfold mbind at 1, shell_bind at 1. rewrite E1. unfold mbind, shell_bind, request.
    pose proof (steady_answer _ (B.arch_trigger_double_fault page) m1) as Hv. pose proof (steady_tried page m1) as Hs.
    destruct (perform (B.arch_trigger_double_fault page) m1) as [v m2]. cbn [fst snd] in *. subst v.
    destruct (says _ (B.arch_trigger_double_fault page)) as [rip|]; [by apply trap_stops|]. exists m2, (screen m). by rewrite Hs, S1.
  - apply passes_ret.
Qed.

Lemma judged_processes spins bi acpi paging :
  found_acpi bi = Some acpi -> found_paging bi = Some paging ->
  judged (start_processes spins bi acpi paging) (process_checks bi) tt.
Proof using Steady0.
  intros Ha Hp. unfold start_processes, process_checks, guard_page. rewrite Ha, Hp. cbn [with_found app]. repeat boot_step.
  eapply judged_bind; [apply judged_self_test|]. intros _. repeat boot_step.
  eapply judged_step; [apply passes_spin|]. repeat boot_step.
Qed.

Lemma found_after_memory bi : first_failure (memory_checks bi) = None -> exists acpi paging, found_acpi bi = Some acpi /\ found_paging bi = Some paging.
Proof.
  unfold memory_checks. cbn [first_failure]. destruct (says _ (B.pmm_init bi)), (says _ B.pmm_self_test); try discriminate.
  destruct (found_acpi bi) as [acpi|], (found_paging bi) as [paging|]; eauto; discriminate.
Qed.

Lemma judged_kernel_main spins bi acpi paging :
  (forall x, found_acpi bi = Some x -> x = acpi) -> (forall x, found_paging bi = Some x -> x = paging) ->
  judged (kernel_main spins (Some bi)) (boot_checks bi) (bi, acpi, paging).
Proof using Steady0.
  intros Ha Hp. unfold kernel_main, boot_checks. repeat boot_step.
  eapply judged_bind; [apply judged_handoff|intros _]. eapply judged_bind; [by apply judged_memory|intros Hm].
  destruct (found_after_memory bi Hm) as (a & p & Ea & Ep). rewrite (Ha a Ea) in Ea. rewrite (Hp p Ep) in Ep.
  eapply judged_bind; [apply judged_modules|intros _]. eapply judged_bind; [apply judged_devices|intros _].
  rewrite <- (app_nil_r (process_checks bi)). eapply judged_bind; [by apply judged_processes|intros _]. apply judged_pass, passes_ret.
Qed.

(** C21: On a platform whose components give steady answers, start-up with boot
    information makes its checks in their order.  It enters the shell exactly if
    all of them hold and no self test was asked for, with the tables it
    discovered.  Otherwise it stops: at the first check that fails, the last words
    on the console being the panic message of that check; or in the self test,
    the last words being the exception report of its trap: vector 3 for the
    breakpoint, vector 14 at the guard page (or the panic message, when the page is
    mapped after all), vector 8 for the double fault. *)
Theorem kernel_main_checks spins bi m :
  match first_failure (boot_checks bi) with
  | Some words => exists m' before, kernel_main spins (Some bi) m = (HaltedForever, m') /\ screen m' = before ++ words
  | None => exists acpi paging m', found_acpi bi = Some acpi /\ found_paging bi = Some paging /\ kernel_main spins (Some bi) m = (Returned (bi, acpi, paging), m')
  end.
Proof using Steady0.
  set (acpi := default (mk_acpi 0 0 0 0 0 0 0 0 0 0) (found_acpi bi)). set (paging := default (mk_paging 0 0 0 0 false) (found_paging bi)).
  assert (judged (kernel_main spins (Some bi)) (boot_checks bi) (bi, acpi, paging)) as Hj.
  { apply judged_kernel_main; [unfold acpi|unfold paging]; by intros x ->. }
  unfold judged in Hj. destruct (first_failure (boot_checks bi)) as [words|] eqn:E; [exact (Hj m)|]. destruct (Hj m) as (m' & Em & _).
  destruct (found_after_memory bi) as (a & p & Ea & Ep).
  { unfold boot_checks in E. by apply first_failure_app in E as [_ [E _]%first_failure_app]. }
  exists a, p, m'. split_and!; [done|done|]. rewrite Em. unfold acpi, paging. by rewrite Ea, Ep.
Qed.
End judged.

(** ** A platform *)

(** Every component comes up, but for those of a list of failures; the guard page is
    not mapped. *)
Definition sample_pci : pci_info_t := pci_info0.
Definition good_answer {T} (k : B.bcall T) : T.
Proof.
  destruct k; first [exact tt | exact true | exact 1 | exact [65] | exact sample_pci | exact (1, 1)
    | exact (Some (mk_acpi 0 0 0 0 0 1 0 0 0 0)) | exact (Some (mk_paging 0x1000 0 1 0x2000 true)) | exact (Some net_info0) | exact (Some ([65], 1))
    | exact (Some (2, 0x100200)) | exact (Some 0x100300)].
Defined.
Definition failing_answer {T} (k : B.bcall T) : T :=
  match k in B.bcall T return T with
  | B.fat32_init => false
  | k => good_answer k
  end.
#[export] Instance screen_platform : Platform (list Z) := {|
  perform T k m := (failing_answer k, match k with B.kconsole_write s => m ++ s | B.kconsole_putc c => m ++ [c] | _ => m end) |}.
#[export] Instance screen_steady : Steady (fun T k => failing_answer k) (fun m : list Z => m).
Proof. constructor; done. Qed.

Definition start_boot_info : boot_info_t :=
  mk_boot_info ARGUS_BOOT_INFO_MAGIC ARGUS_BOOT_INFO_VERSION 1 0 (mk_map None 48 48 0 48 1) (mk_framebuffer 0 0 0 0 0 0 0) 0x1000
    (mk_range 0x100000 0x8000) (mk_range 0 0) (mk_range 0 0) (mk_range 0 0) (mk_range 0 0) (mk_range 0 0) 0 0.

Lemma kernel_main_checks_witness :
  exists m' before, kernel_main 5 (Some start_boot_info) [] = (HaltedForever, m') /\ m' = before ++ panic_text "Rust FAT32 mount failed".
Proof. exact (kernel_main_checks (fun T k => failing_answer k) (fun m : list Z => m) 5 start_boot_info []). Defined.

(** The three self tests on a platform where everything comes up and the guard page is
    not mapped: the reports the boot tests of the repository look for. *)
Definition good_platform : Platform (list Z) := {|
  perform T k m := (good_answer k, match k with B.kconsole_write s => m ++ s | B.kconsole_putc c => m ++ [c] | _ => m end) |}.
Definition self_test_info (n : Z) : boot_info_t :=
  mk_boot_info ARGUS_BOOT_INFO_MAGIC ARGUS_BOOT_INFO_VERSION 1 n (mk_map None 48 48 0 48 1) (mk_framebuffer 0 0 0 0 0 0 0) 0x1000
    (mk_range 0x100000 0x8000) (mk_range 0 0) (mk_range 0 0) (mk_range 0 0) (mk_range 0 0) (mk_range 0 0) 0 0.
Definition self_test_words (n : Z) (words : list Z) : bool :=
  match @kernel_main (list Z) good_platform 5 (Some (self_test_info n)) [] with
  | (HaltedForever, seen) => bool_decide (drop (length seen - length words) seen = words)
  | _ => false
  end.
Example self_tests_report :
  self_test_words 1 (c_string "EXCEPTION_SELF_TEST_BEGIN\n" ++ exception_text 0x2000 true 3 0 1 0) = true
  /\ self_test_words 2 (c_string "STACK_GUARD_SELF_TEST_BEGIN\n" ++ exception_text 0x2000 true 14 2 0x100200 0x2000) = true
  /\ self_test_words 3 (c_string "DOUBLE_FAULT_SELF_TEST_BEGIN\n" ++ exception_text 0x2000 true 8 0 0x100300 0) = true.
Proof. by vm_compute. Qed.
