(* ===== verification/StartOrder.v ===== *)
(** * The order of start-up

    KernelMain.v describes the outcome of kernel_main (src/kernel.c) when every
    component gives a fixed answer.  Here the components are arbitrary: a log records
    the calls that bring them up and test them, with the answers given in that run,
    and the shell is reached only through the complete log. *)

From stdpp Require Import base list numbers strings.
From Stdlib Require Import ZArith Lia.
From S2P Require Import Prelude BootInfo Paging Pci Net Boot Shell KernelMain.

Open Scope Z_scope.

(** ** The log *)

Definition entry : Type := bool * string.

(** What a call adds to the log: whether it succeeded, and its name. *)
Definition report {T} (k : B.bcall T) : T -> list entry :=
  match k in B.bcall T return T -> list entry with
  | B.pmm_init _ => fun v => [(v, "pmm_init")]
  | B.pmm_self_test => fun v => [(v, "pmm_self_test")]
  | B.acpi_init _ => fun v => [(bool_decide (is_Some v), "acpi_init")]
  | B.paging_init _ _ => fun v => [(bool_decide (is_Some v), "paging_init")]
  | B.heap_init _ => fun v => [(v, "heap_init")]
  | B.heap_self_test => fun v => [(v, "heap_self_test")]
  | B.module_init => fun v => [(v, "module_init")]
  | B.module_self_test => fun v => [(v, "module_self_test")]
  | B.ramfs_init => fun v => [(v, "ramfs_init")]
  | B.ramfs_self_test => fun v => [(v, "ramfs_self_test")]
  | B.block_init => fun v => [(v, "block_init")]
  | B.pci_init => fun v => [(v, "pci_init")]
  | B.pci_self_test => fun v => [(v, "pci_self_test")]
  | B.net_init _ => fun v => [(v, "net_init")]
  | B.net_self_test => fun v => [(v, "net_self_test")]
  | B.net_info => fun v => [(bool_decide (is_Some v), "net_info")]
  | B.block_default_device => fun v => [(bool_decide (is_Some v), "block_default_device")]
  | B.block_self_test => fun v => [(v, "block_self_test")]
  | B.fat32_init => fun v => [(v, "fat32_init")]
  | B.fat32_self_test => fun v => [(v, "fat32_self_test")]
  | B.arch_init => fun v => [(v, "arch_init")]
  | B.process_init _ => fun v => [(v, "process_init")]
  | B.apic_init _ => fun v => [(v, "apic_init")]
  | B.input_init _ => fun _ => [(true, "input_init")]
  | B.arch_enable_interrupts => fun _ => [(true, "arch_enable_interrupts")]
  | B.process_run_self_test => fun v => [(v, "process_run_self_test")]
  | B.process_security_boundaries_online => fun v => [(v, "process_security_boundaries_online")]
  | B.net_foundation_online => fun v => [(v, "net_foundation_online")]
  | _ => fun _ => []
  end%string.

(** The log of a start-up that reaches the shell. *)
Definition memory_order : list string := ["pmm_init"; "pmm_self_test"; "acpi_init"; "paging_init"; "heap_init"; "heap_self_test"]%string.
Definition module_order : list string := ["module_init"; "module_self_test"; "ramfs_init"; "ramfs_self_test"]%string.
Definition device_order : list string :=
  ["block_init"; "pci_init"; "pci_self_test"; "net_init"; "net_self_test"; "net_info"; "block_default_device"; "block_self_test"; "fat32_init"; "fat32_self_test"]%string.
Definition process_order : list string :=
  ["arch_init"; "process_init"; "apic_init"; "input_init"; "arch_enable_interrupts"; "process_run_self_test"; "process_security_boundaries_online"; "net_foundation_online"]%string.
Definition start_order : list string := memory_order ++ module_order ++ device_order ++ process_order.

Section order.
Context {M : Type} `{Platform M}.

#[export] Instance logging_platform : Platform (M * list entry) := {|
  perform T k m := let '(v, m') := perform k (fst m) in (v, (m', snd m ++ report k v)) |}.

(** [c] makes the calls of [order]: all of them, each with success, when it returns;
    the first few, each but the last with success, when it stops. *)
Definition follows {A} (c : shell (M := M * list entry) A) (order : list string) : Prop :=
  forall m log, exists o m' done, c (m, log) = (o, (m', log ++ done)) /\
    match o with
    | Shell.Returned _ => map snd done = order /\ Forall (fun e => fst e = true) done
    | HaltedForever => (exists rest, order = map snd done ++ rest) /\ Forall (fun e => fst e = true) (removelast done)
    end.

Lemma follows_ret A (a : A) : follows (mret a) [].
Proof. intros m log. exists (Shell.Returned a), m, []. rewrite app_nil_r. by repeat constructor. Qed.

Lemma follows_halt A order : follows (halt (A := A)) order.
Proof. intros m log. exists HaltedForever, m, []. rewrite app_nil_r. split; [done|]. by split; [exists order|constructor]. Qed.

Lemma follows_bind A B (c : shell A) (f : A -> shell B) order1 order2 :
  follows c order1 -> (forall a, follows (f a) order2) -> follows (mbind f c) (order1 ++ order2).
Proof.
  intros Hc Hf m log. destruct (Hc m log) as (o & m1 & done1 & E1 & H1). unfold mbind, shell_bind. rewrite E1. destruct o as [a|].
  - destruct H1 as [<- Hok]. destruct (Hf a m1 (log ++ done1)) as (o & m2 & done2 & E2 & H2).
    exists o, m2, (done1 ++ done2). rewrite E2, app_assoc. split; [done|]. rewrite map_app. destruct o as [b|].
    + destruct H2 as [<- Hok2]. split; [done|]. by apply Forall_app.
    + destruct H2 as [[rest ->] Hok2]. split; [exists rest; by rewrite app_assoc|].
      destruct done2 as [|e done2]; [rewrite app_nil_r|rewrite removelast_app by done; by apply Forall_app].
      clear -Hok. induction Hok as [|x l Hx Hl IH]; [constructor|]. destruct l; [constructor|by constructor].
  - destruct H1 as [[rest ->] Hok]. exists HaltedForever, m1, done1. split; [done|]. split; [|done]. exists (rest ++ order2). by rewrite app_assoc.
Qed.

(** A call that is not logged. *)
Lemma follows_request A T (k : B.bcall T) (f : T -> shell A) order :
  (forall v, report k v = []) -> (forall v, follows (f v) order) -> follows (mbind f (request k)) order.
Proof.
  intros Hk Hf m log. unfold mbind, shell_bind, request. cbn [perform logging_platform fst snd]. destruct (perform k m) as [v m1].
  rewrite Hk. rewrite app_nil_r. apply Hf.
Qed.

(** A call whose failure stops the kernel. *)
Lemma follows_answer A T (k : B.bcall T) (f : T -> shell A) (ok : T -> bool) name order :
  (forall v, report k v = [(ok v, name)]) -> (forall v, ok v = true -> follows (f v) order) ->
  (forall v, ok v = false -> follows (f v) []  /\ forall m, exists m', f v m = (HaltedForever, m')) ->
  follows (mbind f (request k)) (name :: order).
Proof.
  intros Hk Hf Hfail m log. unfold mbind, shell_bind, request. cbn [perform logging_platform fst snd]. destruct (perform k m) as [v m1].
  rewrite Hk. destruct (ok v) eqn:Ev.
  - destruct (Hf v Ev m1 (log ++ [(true, name)])) as (o & m2 & done & -> & Hd). exists o, m2, ((true, name) :: done).
    rewrite <- app_assoc. split; [done|]. destruct o.
    + destruct Hd as [<- Hd]. split; [done|]. by constructor.
    + destruct Hd as [[rest ->] Hd]. split; [by exists rest|]. destruct done; [constructor|by constructor].
  - destruct (Hfail v Ev) as [Hq Hh]. destruct (Hq m1 (log ++ [(false, name)])) as (o & m2 & done & E & Hd). destruct (Hh (m1, log ++ [(false, name)])) as (m3 & E3).
    rewrite E in E3. injection E3 as -> <-. destruct Hd as [[rest Hr] _]. symmetry in Hr. apply app_eq_nil in Hr as [Hr ->]. apply map_eq_nil in Hr as ->.
    exists HaltedForever, m2, [(false, name)]. rewrite E, <- app_assoc. split; [done|]. split; [by exists order|constructor].
Qed.

(** Printing is not logged. *)
Definition same_log (m m' : M * list entry) : Prop := snd m' = snd m.
#[local] Instance same_log_preorder : PreOrder same_log.
Proof. split; [by intros ?|]. intros x y z E1 E2. unfold same_log in *. congruence. Qed.
Lemma log_console : within_console same_log.
Proof. split; intros x [m log]; cbn; destruct (perform _ m); cbn; apply app_nil_r. Qed.
Lemma follows_returns A (c : shell A) a : returns same_log c a -> follows c [].
Proof.
  intros Hc m log. destruct (Hc (m, log)) as ([m' log'] & E & Hq). unfold same_log in Hq. cbn in Hq. subst log'.
  exists (Shell.Returned a), m', []. rewrite app_nil_r. split; [done|]. by repeat constructor.
Qed.
(** A step that prints, then the rest. *)
Lemma follows_then A B (c : shell A) (f : A -> shell B) a order : returns same_log c a -> (forall a, follows (f a) order) -> follows (mbind f c) order.
Proof. intros Hc Hf. apply (follows_bind _ _ c f [] order); [by eapply follows_returns|done]. Qed.

Lemma panic_follows A reason order : follows (panic (A := A) reason) order.
Proof.
  unfold panic. do 3 (eapply follows_then; [apply (returns_print _ log_console)|intros _]). apply follows_halt.
Qed.
Lemma panic_stops A reason (m : M * list entry) : exists m', panic (A := A) reason m = (HaltedForever, m').
Proof. unfold panic, mbind, shell_bind, kprint, request, halt. repeat destruct (perform _ _). eauto. Qed.

Lemma follows_require (k : B.bcall bool) why name : (forall v, report k v = [(v, name)]) -> follows (require (request k) why) [name].
Proof.
  intros Hk. apply (follows_answer _ _ k _ (fun v => v)); [done| |].
  - intros v ->. apply follows_ret.
  - intros v ->. split; [apply panic_follows|apply panic_stops].
Qed.

Lemma follows_require_both (k1 k2 : B.bcall bool) why name1 name2 :
  (forall v, report k1 v = [(v, name1)]) -> (forall v, report k2 v = [(v, name2)]) ->
  follows (require (call_and (request k1) (request k2)) why) [name1; name2].
Proof.
  intros H1 H2. assert (follows (b ← request k1; if b : bool then require (request k2) why else panic why) [name1; name2]) as Hf.
  { apply (follows_answer _ _ k1 _ (fun v => v)); [done| |].
    - intros v ->. by apply follows_require.
    - intros v ->. split; [apply panic_follows|apply panic_stops]. }
  intros m log. destruct (Hf m log) as (o & m' & done & E & Hd). exists o, m', done. split; [|done]. rewrite <- E.
  unfold require, call_and, mbind, shell_bind, request. destruct (perform k1 (m, log)) as [[] m1]; done.
Qed.

Lemma follows_found A X (k : B.bcall (option X)) (f : X -> shell A) why name order :
  (forall v, report k v = [(bool_decide (is_Some v), name)]) -> (forall x, follows (f x) order) ->
  follows (found ← request k; match found with None => panic why | Some x => f x end) (name :: order).
Proof.
  intros Hk Hf. apply (follows_answer _ _ k _ (fun v => bool_decide (is_Some v))); [done| |].
  - intros [x|]; [by intros _|]. intros Hs%bool_decide_eq_true_1. by destruct Hs.
  - intros [x|]; [by intros Hs%bool_decide_eq_false_1; destruct Hs|]. intros _. split; [apply panic_follows|apply panic_stops].
Qed.

Ltac order_step :=
  lazymatch goal with
  | |- follows (mbind _ (kprint _)) _ => eapply follows_then; [apply (returns_print _ log_console)|intros _]
  | |- follows (mbind _ (kprint_text _)) _ => eapply follows_then; [apply (returns_text _ log_console)|intros _]
  | |- follows (mbind _ (kprint_dec _)) _ => eapply follows_then; [apply (returns_dec _ log_console)|intros _]
  | |- follows (mbind _ (kprint_hex _)) _ => eapply follows_then; [apply (returns_hex _ log_console)|intros _]
  | |- follows (mbind _ (require (request _) _)) (?x :: ?rest) =>
      change (x :: rest) with ([x] ++ rest); apply follows_bind; [by apply follows_require|intros _]
  | |- follows (mbind _ (require (call_and (request _) (request _)) _)) (?x :: ?y :: ?rest) =>
      change (x :: y :: rest) with ([x; y] ++ rest); apply follows_bind; [by apply follows_require_both|intros _]
  | |- follows (mbind (fun found => match found with None => panic _ | Some _ => _ end) (request _)) (_ :: _) => apply follows_found; [done|intros ?]
  | |- follows (mbind _ (request _)) _ => apply follows_request; [done|intros ?]
  | |- follows (require (request _) _) [_] => by apply follows_require
  | |- follows (kprint _) [] => eapply follows_returns, (returns_print _ log_console)
  | |- follows (kprint_lines _) [] => eapply follows_returns, (returns_lines _ log_console); apply _
  | |- follows (mret _) [] => apply follows_ret
  | |- follows (panic _) _ => apply panic_follows
  | |- follows halt _ => apply follows_halt
  | |- follows (if ?b then _ else _) _ => destruct b
  | |- follows (match ?x with Some _ => _ | None => _ end) _ => destruct x
  end.

Lemma trap_follows A guard vector error rip cr2 order : follows (kernel_trap (A := A) guard vector error rip cr2) order.
Proof.
  unfold kernel_trap, kernel_exception_panic. cbv zeta. do 6 order_step.
  match goal with |- follows _ ?order => apply (follows_bind _ _ _ _ [] order) end; [repeat order_step|intros _].
  { eapply follows_returns, (returns_hex _ log_console). }
  order_step. match goal with |- follows _ ?order => apply (follows_bind _ _ _ _ [] order) end; [repeat order_step|intros _].
  match goal with |- follows _ ?order => apply (follows_bind _ _ _ _ [] order) end; [repeat order_step|intros _]. order_step.
Qed.

Lemma order_handoff boot_info : follows (check_boot_info boot_info) [].
Proof.
  unfold check_boot_info. destruct boot_info as [bi|]; [|order_step].
  do 3 (change ([] : list string) with ([] ++ [] : list string); apply follows_bind; [repeat order_step|intros _]). repeat order_step.
Qed.

Lemma order_memory bi : follows (start_memory bi) memory_order.
Proof.
  unfold start_memory, memory_order. change (?a :: ?b :: ?rest) with ([a; b] ++ rest). apply follows_bind; [unfold start_pages; repeat order_step|intros _].
  repeat order_step.
Qed.

Lemma order_modules : follows start_modules module_order.
Proof. unfold start_modules, module_order. repeat order_step. Qed.

Lemma order_network pci : follows (start_network pci) ["net_init"; "net_self_test"; "net_info"]%string.
Proof.
  unfold start_network. repeat order_step.
  change ([] : list string) with ([] ++ [] : list string). apply follows_bind; [repeat order_step|intros _]. repeat order_step.
Qed.

(** The disk is optional: its calls are not logged. *)
Lemma order_sata pci paging :
  follows (if nz (ahci_count pci) then
      call_and (request (B.ahci_init (first_ahci pci) paging)) (call_and (request B.ahci_self_test) (request B.block_use_ahci_device))
    else mret false) [].
Proof.
  case_if; [|order_step]. unfold call_and. repeat order_step.
  intros m log. unfold request. cbn. destruct (perform _ m) as [v m']. exists (Shell.Returned v), m', []. by repeat constructor.
Qed.

Lemma order_storage pci paging : follows (start_storage pci paging) ["block_default_device"; "block_self_test"; "fat32_init"; "fat32_self_test"]%string.
Proof.
  unfold start_storage. match goal with |- follows _ ?order => change order with ([] ++ [] ++ order) end.
  apply follows_bind; [apply order_sata|]. intros sata. apply follows_bind; [repeat order_step|intros _].
  apply follows_found; [done|]. intros [name sectors]. repeat order_step.
Qed.

Lemma order_devices paging : follows (start_devices paging) device_order.
Proof.
  unfold start_devices, device_order. repeat order_step.
  match goal with |- follows _ (?a :: ?b :: ?c :: ?rest) => change (a :: b :: c :: rest) with ([a; b; c] ++ rest) end.
  apply follows_bind; [apply order_network|]. intros _. apply order_storage.
Qed.

Lemma order_spin spins : follows (spin_for_tick spins) [].
Proof. induction spins as [|n IH]; cbn [spin_for_tick]; repeat order_step. exact IH. Qed.

Lemma order_processes spins bi acpi paging : follows (start_processes spins bi acpi paging) process_order.
Proof.
  unfold start_processes, process_order. repeat order_step.
  match goal with |- follows _ ?order => apply (follows_bind _ _ _ _ [] order) end.
  { unfold exception_self_test. repeat order_step; try (case_match); repeat order_step; apply trap_follows. }
  intros _. repeat order_step.
  do 2 (apply (follows_answer _ _ _ _ (fun _ => true)); [done|intros ? _|done]).
  match goal with |- follows _ ?order => apply (follows_bind _ _ _ _ [] order); [apply order_spin|intros _] end.
  match goal with |- follows _ ?order => apply (follows_bind _ _ _ _ [] order); [|intros _; repeat order_step] end.
  unfold require. match goal with |- follows _ ?order => apply (follows_bind _ _ _ _ [] order) end; [|intros ok]; repeat order_step.
Qed.

(** C22: Start-up of arbitrary components.  kernel_main calls the components in one fixed
    order, page allocator before page tables before heap, the network's quarantine
    before storage, descriptor tables before processes, interrupts last.  It enters
    the shell only if it has made every call and each succeeded; when it stops, it
    has made the first few, and each but the last succeeded. *)
Theorem kernel_main_order spins boot_info (m : M) :
  let '(o, (_, log)) := kernel_main spins boot_info (m, [] : list entry) in
  match o with
  | Shell.Returned _ => map snd log = start_order /\ Forall (fun e => fst e = true) log
  | HaltedForever => (exists rest, start_order = map snd log ++ rest) /\ Forall (fun e => fst e = true) (removelast log)
  end.
Proof.
  assert (follows (kernel_main spins boot_info) start_order) as Hf.
  { unfold kernel_main. repeat order_step. match goal with |- follows _ ?order => apply (follows_bind _ _ _ _ [] order); [apply order_handoff|intros bi] end.
    apply follows_bind; [apply order_memory|]. intros [acpi paging].
    apply follows_bind; [apply order_modules|intros _]. apply follows_bind; [apply order_devices|intros _].
    rewrite <- (app_nil_r process_order). apply follows_bind; [apply order_processes|intros _]. order_step. }
  destruct (Hf m []) as (o & m' & done & -> & Hd). exact Hd.
Qed.
End order.
