(* ===== verification/Handover.v ===== *)
(** * From the loader to the kernel's page allocator

    The record that boot_kernel (src/boot.c, Boot.v) hands over, read by kernel_main
    (src/kernel.c, KernelMain.v) on a platform whose page allocator is the one of
    src/pmm.c (Pmm.v): the kernel accepts the record, and its allocator starts and
    passes its self test (SelfTest.v) when there is memory enough. *)

From stdpp Require Import base list gmap numbers strings.
From Stdlib Require Import ZArith Lia.
From S2P Require Import Prelude BootInfo Allocator Pmm Devices Kconsole Gop Surface Boot SelfTest Shell KernelMain.

Open Scope Z_scope.

(** ** The header of the record *)

Section header.
Context {F D : Type} `{Firmware F} `{Hardware D}.

Lemma halt_not_entered fuel uart (f : F) (hw : D) status top info f' hw' :
  halt_after_handoff_failure fuel uart f hw status <> Some (Entered top info, f', hw').
Proof.
  unfold halt_after_handoff_failure. destruct (serial_write fuel uart hw _) as [hw1|]; [|done]. cbn [mbind option_bind].
  destruct (serial_write_hex64 fuel uart hw1 _) as [hw2|]; [|done]. cbn [mbind option_bind]. by destruct (serial_write fuel uart hw2 _).
Qed.

Lemma attempts_keep_header n : forall first fuel uart image info (f : F) (hw : D) status top info' f' hw',
  handoff_attempts n first fuel uart image info f hw status = Some (Entered top info', f', hw') ->
  bi_version info' = bi_version info /\ bi_kernel_self_test info' = bi_kernel_self_test info.
Proof.
  induction n as [|n IH]; intros first fuel uart image info f hw status top info' f' hw'; cbn [handoff_attempts].
  { intros E. by apply halt_not_entered in E. }
  destruct (uefi_memory_map_acquire f) as [[s1 map] f1]. case_if.
  { case_if; [|done]. intros E. by apply halt_not_entered in E. }
  destruct (ExitBootServices f1 image _) as [s2 f2]. case_if; [by intros [= _ <- _ _]|].
  case_if; [intros E; by apply halt_not_entered in E|].
  destruct (uefi_memory_map_release f2 map) as [m3 f3]. intros E. by apply IH in E.
Qed.

Lemma entered_header fuel image self_test tables gop (f : F) (hw : D) top info f' hw' :
  boot_kernel fuel image self_test tables gop f hw = Some (Entered top info, f', hw') ->
  bi_version info = ARGUS_BOOT_INFO_VERSION /\ bi_kernel_self_test info = self_test.
Proof.
  unfold boot_kernel. destruct (HandleProtocol f image _) as [[s0 interface] f0].
  destruct (if s0 =? EFI_SUCCESS then interface else None) as [loaded|]; [|done].
  destruct (uefi_memory_map_acquire f0) as [[s1 map] f1]. case_if; [done|].
  destruct (uefi_memory_map_release f1 map) as [m2 f2]. case_if; [done|].
  unfold prepare_allocations. case_if; [done|].
  destruct (allocate_pages f2 1) as [[s3 r3] f3]. case_if; [done|].
  destruct (allocate_pages f3 _) as [[s4 r4] f4]. case_if; [done|].
  destruct (allocate_pages f4 _) as [[s5 r5] f5]. case_if; [done|].
  destruct (serial_init hw) as [uart hw1]. destruct (serial_write fuel uart hw1 _) as [hw2|]; [|done]. cbn [mbind option_bind].
  intros E. by apply attempts_keep_header in E.
Qed.
End header.

(** ** A platform with the page allocator of pmm.c *)

Section pages.
Context {R : Type} `{Platform R}.

(** The calls of the page allocator go to its model, all others to [R]. *)
Definition perform_pages {T} (k : B.bcall T) : pmm_state * R -> T * (pmm_state * R) :=
  match k in B.bcall T return pmm_state * R -> T * (pmm_state * R) with
  | B.pmm_init boot_info => fun m => let '(b, s) := pmm_init (fst m) (Some boot_info) in (b, (s, snd m))
  | B.pmm_managed_pages => fun m => (pmm_managed_pages (fst m), m)
  | B.pmm_free_pages => fun m => (pmm_free_pages (fst m), m)
  | B.pmm_self_test => fun m => let '(b, s) := pmm_self_test (fst m) in (b, (s, snd m))
  | k => fun m => let '(v, r) := perform k (snd m) in (v, (fst m, r))
  end.
#[export] Instance pages_platform : Platform (pmm_state * R) := {| perform T := perform_pages |}.

Definition same_pages (m m' : pmm_state * R) : Prop := fst m' = fst m.
#[export] Instance same_pages_preorder : PreOrder same_pages.
Proof. split; [by intros ?|]. intros x y z E1 E2. unfold same_pages in *. congruence. Qed.

Lemma pages_console : within_console same_pages.
Proof. split; intros x [s r]; cbn; by destruct (perform _ r). Qed.

Ltac print_step :=
  lazymatch goal with
  | |- returns _ (kprint _) _ => apply (returns_print _ pages_console)
  | |- returns _ (kprint_hex _) _ => apply (returns_hex _ pages_console)
  | |- returns _ (kprint_dec _) _ => apply (returns_dec _ pages_console)
  | |- returns _ (mret _) _ => apply returns_ret, _
  | |- returns _ (mbind _ _) _ => eapply returns_bind; [apply _| |]
  end.

(** The hand-over checks of [kernel_main]. *)
Lemma check_boot_info_passes bi :
  bi_magic bi = ARGUS_BOOT_INFO_MAGIC -> bi_version bi = ARGUS_BOOT_INFO_VERSION -> bi_boot_services_exited bi <> 0 ->
  bi_kernel_self_test bi <= ARGUS_SELF_TEST_DOUBLE_FAULT -> returns same_pages (check_boot_info (Some bi)) bi.
Proof.
  intros Hm Hv He Ht. unfold check_boot_info. rewrite Hm, Hv, !Z.eqb_refl. cbn [negb orb].
  unfold nz. rewrite (proj2 (Z.eqb_neq _ _) He), (proj2 (Z.ltb_ge _ _) Ht). cbn [negb].
  repeat print_step.
Qed.

(** A step that cannot fail, then the rest. *)
Lemma after_step A B (c : shell A) (f : A -> shell B) a s r :
  returns same_pages c a -> exists r', mbind f c (s, r) = f a (s, r').
Proof.
  intros Hc. destruct (Hc (s, r)) as ([s' r'] & E & Hq). unfold same_pages in Hq. cbn in Hq. subst s'.
  exists r'. unfold mbind, shell_bind. by rewrite E.
Qed.

Lemma panic_halts A reason (s : pmm_state) r : exists r', panic (A := A) reason (s, r) = (HaltedForever, (s, r')).
Proof.
  unfold panic. destruct (after_step _ _ _ (fun _ => kprint reason;; kprint "\n";; halt (A := A)) tt s r
    (returns_print _ pages_console "\nKERNEL_PANIC: ")) as (r1 & ->).
  destruct (after_step _ _ _ (fun _ => kprint "\n";; halt (A := A)) tt s r1 (returns_print _ pages_console reason)) as (r2 & ->).
  destruct (after_step _ _ _ (fun _ => halt (A := A)) tt s r2 (returns_print _ pages_console "\n")) as (r3 & ->). by exists r3.
Qed.

Lemma after_require A (k : B.bcall bool) reason (f : unit -> shell A) s r b s1 :
  perform k (s, r) = (b, (s1, r)) ->
  exists r', mbind f (require (request k) reason) (s, r) = if b : bool then f tt (s1, r') else (HaltedForever, (s1, r')).
Proof.
  intros E. unfold require, mbind, shell_bind, request. rewrite E. destruct b; [by exists r|].
  destruct (panic_halts unit reason s1 r) as (r' & ->). by exists r'.
Qed.

(** Sixteen pages free, and two adjacent ones above the eight lowest. *)
Definition memory_enough (s : pmm_state) : Prop := 16 <= free_count s /\ exists p, pair_beyond (free_set s) p.

Lemma start_pages_spec bi s0 r :
  boot_info_wf bi -> boot_info_accepted bi ->
  let s := snd (pmm_init s0 (Some bi)) in
  exists o s' r', start_pages bi (s0, r) = (o, (s', r')) /\
    match o with
    | Shell.Returned _ => memory_enough s /\ manages s' (free_set s) (live_set s)
    | HaltedForever => ~ memory_enough s
    end.
Proof.
  intros Hwf Ha. pose proof (pmm_init_spec s0 bi Hwf Ha) as Hi. unfold start_pages.
  destruct (pmm_init s0 (Some bi)) as [b s] eqn:Ei. cbn [snd]. destruct Hi as (Hok & _ & _ & Hb & _).
  match goal with |- context [mbind ?f (require (request (B.pmm_init bi)) ?why)] =>
    destruct (after_require _ (B.pmm_init bi) why f s0 r b s) as (r1 & E1); [by cbn [perform pages_platform perform_pages fst snd]; rewrite Ei|] end.
  rewrite E1. clear E1. destruct b.
  2: { eexists _, s, r1. split; [reflexivity|]. intros [Hf _]. pose proof (pc_bounds s (proj1 Hok)). unfold nz in Hb. destruct (Z.eqb_spec (managed_count s) 0); [lia|done]. }
  repeat match goal with
  | |- context [mbind ?f ?c (s, ?r0)] =>
      lazymatch c with
      | require _ _ => fail
      | kprint _ => destruct (after_step _ _ c f tt s r0 (returns_print _ pages_console _)) as (? & ->)
      | kprint_dec _ => destruct (after_step _ _ c f tt s r0 (returns_dec _ pages_console _)) as (? & ->)
      | request B.pmm_managed_pages => change (mbind f c (s, r0)) with (f (pmm_managed_pages s) (s, r0)); cbv beta
      | request B.pmm_free_pages => change (mbind f c (s, r0)) with (f (pmm_free_pages s) (s, r0)); cbv beta
      end
  end.
  pose proof (pmm_self_test_exact s Hok) as Ht. destruct (pmm_self_test s) as [b s'] eqn:Et. destruct Ht as [Hm Hv].
  match goal with |- context [mbind ?f (require (request B.pmm_self_test) ?why) (s, ?r0)] =>
    destruct (after_require _ B.pmm_self_test why f s r0 b s') as (r2 & E2); [by cbn [perform pages_platform perform_pages fst snd]; rewrite Et|] end.
  rewrite E2. destruct b.
  - destruct (returns_print _ pages_console "PMM_SELF_TEST_PASS\n" (s', r2)) as ([s2 r3] & -> & Hq). unfold same_pages in Hq. cbn in Hq. subst s2.
    exists (Shell.Returned tt), s', r3. split; [done|]. split; [by apply Hv|done].
  - exists HaltedForever, s', r2. split; [done|]. intros Hy. by apply Hv in Hy.
Qed.
End pages.

(** ** The hand-over *)

Section handover.
Context {F : Type} `{Firmware F} (pools : F -> gset Z) (pages : F -> gset (Z * Z)) (exits : F -> Z) `{!FirmwareSpec F pools pages exits}.
Context {D : Type} `{Hardware D} (patience : nat) (wire : D -> list Z) `{!Uart patience wire}.
Context {R : Type} `{Platform R}.

(** C34: The kernel accepts what the loader hands it.  When boot_kernel enters
    kernel_main, kernel_main's checks of the record succeed; pmm_init on the record
    gives a consistent allocator that can hand out no page of the boot record, the
    stack, the bitmaps, the memory map, the kernel image or the framebuffer; and
    kernel_main goes on past the allocator's self test, with every page of the
    allocator as pmm_init left it, exactly when sixteen pages are free and two
    adjacent ones lie above the eight lowest.  Otherwise it stops. *)
Theorem handover_starts_allocator image self_test tables gop f hw stack_top info f' hw' s0 (r : R) :
  tables_wf tables -> gop_wf gop -> self_test <= ARGUS_SELF_TEST_DOUBLE_FAULT ->
  boot_kernel patience image self_test tables gop f hw = Some (Entered stack_top info, f', hw') ->
  let s := snd (pmm_init s0 (Some info)) in
  pmm_ok s
  /\ (forall q range, range ∈ reserved_ranges info -> range_covers range q = true -> q ∉ free_set s /\ q ∉ live_set s)
  /\ exists r1 o s' r2,
       check_boot_info (Some info) (s0, r) = (Shell.Returned info, (s0, r1))
       /\ start_pages info (s0, r1) = (o, (s', r2))
       /\ match o with
          | Shell.Returned _ => memory_enough s /\ manages s' (free_set s) (live_set s)
          | HaltedForever => ~ memory_enough s
          end.
Proof using FirmwareSpec0 Uart0.
  intros Ht Hg Hself E. destruct (boot_kernel_spec pools pages exits patience wire image self_test tables gop f hw Ht Hg) as (o & f1 & hw1 & E1 & O).
  rewrite E in E1. injection E1 as <- <- <-. destruct O as (_ & _ & _ & Hacc & Hwf).
  destruct (entered_header _ _ _ _ _ _ _ _ _ _ _ E) as [Hv Hs]. pose proof (pmm_init_spec s0 info Hwf Hacc) as Hi.
  pose proof (start_pages_spec (R := R) info s0) as Hp. cbv zeta in *.
  destruct (check_boot_info_passes (R := R) info (proj1 Hacc) Hv (proj1 (proj2 Hacc)) ltac:(lia) (s0, r)) as ([s1 r1] & Ec & Eq).
  unfold same_pages in Eq. cbn in Eq. subst s1. destruct (Hp r1 Hwf Hacc) as (o & s' & r2 & Es & Ho).
  destruct (pmm_init s0 (Some info)) as [b s]. cbn [snd] in *. destruct Hi as (Hok & _ & _ & _ & Hu).
  split_and!; [done| |by exists r1, o, s', r2].
  intros q range Hr Hc. assert (0 <= q < page_count s -> usable s q = false) as Hq.
  { intros Hq. rewrite Hu by done. apply andb_false_iff. right. apply negb_false_iff, existsb_exists. exists range. by rewrite <- list_elem_of_In. }
  split; intros [Hb Hf]%elem_of_page_set; unfold is_free in Hf; by rewrite Hq in Hf.
Qed.
End handover.

(** ** Witness *)

(** On the machine of Boot.v the kernel gets past the self test. *)
Definition sample_info : boot_info_t :=
  match sample_boot with Some (Entered _ info, _, _) => info | _ => start_boot_info end.

Lemma handover_starts_allocator_witness :
  exists r1 s' r2, check_boot_info (Some sample_info) (pmm0, []) = (Shell.Returned sample_info, (pmm0, r1))
    /\ start_pages sample_info (pmm0, r1) = (Shell.Returned tt, (s', r2)).
Proof.
  pose proof sample_boot_enters as He. destruct sample_boot as [[[[|status|top info] f] hw]|] eqn:E; try contradiction.
  assert (info = sample_info) as Ei by (unfold sample_info; rewrite E; reflexivity).
  pose proof (handover_starts_allocator fm_pools fm_pages fm_exits 2 port_sent 1 0 sample_tables (Some sample_gop) sample_firm sample_port
    top info f hw pmm0 ([] : list Z) sample_tables_wf sample_gop_wf ltac:(discriminate) E) as (Hok & _ & r1 & o & s' & r2 & Ec & Es & Ho).
  rewrite Ei in Hok, Ec, Es, Ho. exists r1, s', r2. split; [exact Ec|].
  assert (memory_enough (snd (pmm_init pmm0 (Some sample_info)))) as Hy.
  { pose proof (pmm_self_test_exact _ Hok) as Ht.
    assert (fst (pmm_self_test (snd (pmm_init pmm0 (Some sample_info)))) = true) as Et by (vm_compute; reflexivity).
    destruct (pmm_self_test _) as [b s2]. exact (proj1 (proj2 Ht) Et). }
  destruct o as [[]|]; [exact Es|contradiction].
Defined.
