(* ===== verification/Monitor.v ===== *)
(** * The UEFI monitor (src/main.c)

    The program UEFI starts: a command line on firmware services, from which the
    kernel is booted.  [U.ucall] lists what it calls, of the firmware and of the
    other components; programs are in the monad of the kernel shell. *)

From stdpp Require Import base list gmap numbers strings.
From Stdlib Require Import ZArith Lia.
From S2P Require Import Prelude Memory BootInfo Gop Files Kconsole Boot Shell ShellSpec.

Open Scope Z_scope.

Definition ARGUS_SELF_TEST_NONE : Z := 0.
Definition EFI_TEXT_LIGHTGREEN : Z := 10.
Definition EFI_RESET_COLD : Z := 0.
Definition EFI_RESET_SHUTDOWN : Z := 2.

Record EFI_TIME := mk_time { t_Year : Z; t_Month : Z; t_Day : Z; t_Hour : Z; t_Minute : Z; t_Second : Z }.

Module U.
Inductive ucall : Type -> Type :=
(* console.h, serial.h, gop.h *)
| console_init : ucall unit
| console_write16 (s : list Z) : ucall unit
| console_write (s : list Z) : ucall unit
| console_putc (c : Z) : ucall unit
| console_clear : ucall unit
| console_set_color (color : Z) : ucall unit
| console_uses_framebuffer : ucall bool
| gop_info : ucall argus_gop_t
| serial_init : ucall unit
| serial_write (s : list Z) : ucall unit
| serial_putc (c : Z) : ucall unit
| serial_getc_nonblocking : ucall Z
(* boot.h, uefi_memory.h *)
| boot_kernel (kernel_self_test : Z) : ucall Z
| uefi_memory_map_acquire : ucall (Z * memory_map_t)
| uefi_memory_map_release (map : memory_map_t) : ucall unit
(* the firmware: statuses, and the character of a key *)
| SetWatchdogTimer : ucall (option Z)
| ReadKeyStroke : ucall (Z * Z)
| Stall (microseconds : Z) : ucall unit
| GetTime : ucall (Z * EFI_TIME)
| ResetSystem (kind : Z) : ucall unit
| FirmwareVendor : ucall (list Z)
| FirmwareRevision : ucall Z
(* cpu.S *)
| cpu_vendor : ucall (list Z)
| cpu_cpuid1 : ucall (Z * Z)
| cpu_read_tsc : ucall Z.
End U.

Class FirmwareMachine (M : Type) := { invoke : forall {T}, U.ucall T -> M -> T * M }.

Section monitor.
Context {M : Type} `{FirmwareMachine M}.

Definition invoking {T} (c : U.ucall T) : shell (M := M) T := fun m => let '(v, m) := invoke c m in (Returned v, m).

(** ** Output *)

Fixpoint serial_narrow (s : list Z) : shell (M := M) unit :=
  match s with
  | [] => mret tt
  | c :: s' => if c =? 0 then mret tt else invoking (U.serial_putc (if c <? 128 then c else 63));; serial_narrow s'
  end.
Definition print16 (s : list Z) : shell (M := M) unit := invoking (U.console_write16 s);; serial_narrow s.

Definition print_text (s : list Z) : shell (M := M) unit := invoking (U.console_write (c_str s));; invoking (U.serial_write (c_str s)).
Definition print (s : string) : shell (M := M) unit := print_text (c_string s).
Definition putc_ascii (c : Z) : shell (M := M) unit := invoking (U.console_putc c);; invoking (U.serial_putc c).

Fixpoint put_reversed (b : list Z) (i : nat) : shell (M := M) unit :=
  match i with O => mret tt | S i' => putc_ascii (zget 0 b (Z.of_nat i'));; put_reversed b i' end.
Definition print_dec_u64 (v : Z) : shell (M := M) unit :=
  if negb (nz v) then putc_ascii 48 else let '(b, i) := dec_loop 21 v (replicate 21 0) 0 in put_reversed b (Z.to_nat i).

Fixpoint put_string (t : list Z) : shell (M := M) unit := match t with [] => mret tt | c :: t' => putc_ascii c;; put_string t' end.
(** The digit at each shift, from the highest. *)
Definition print_hex_u64 (v digits : Z) : shell (M := M) unit :=
  put_string (map (fun i => zget 0 hex_digits ((v >> (4 * (digits - 1 - i))) & 0xF)) (zrange 0 (Z.to_nat digits))).

Fixpoint parse_digits32 (t : list Z) (v : Z) : option Z :=
  match t with
  | [] => Some v
  | c :: t' =>
      if c =? 0 then Some v
      else if (c <? 48) || (57 <? c) then None
      else
        let digit := c - 48 in
        if (UINT32_MAX - digit) / 10 <? v then None else parse_digits32 t' (u32 (u32 (v * 10) + digit))
  end.
Definition parse_u32 (t : list Z) : option Z := if hd 0 t =? 0 then None else parse_digits32 t 0.

(** ** Input *)

(** [read_line]: [n] characters are in [dst]; [polls] bounds the rounds of the loop. *)
Fixpoint read_line (polls : nat) (dst : list Z) (n cap : Z) : shell (M := M) (option (list Z)) :=
  match polls with
  | O => mret None
  | S polls' =>
      serial_value ← invoking U.serial_getc_nonblocking;
      key ← (if serial_value <? 0 then invoking U.ReadKeyStroke else mret (EFI_SUCCESS, 0));
      let '(status, unicode) := key : Z * Z in
      if (serial_value <? 0) && (status !=? EFI_SUCCESS) then invoking (U.Stall 1000);; read_line polls' dst n cap
      else
        let ch := if 0 <=? serial_value then u8 serial_value else u16 unicode in
        if (ch =? 13) || (ch =? 10) then mret (Some (zset dst n 0))
        else if ch =? 8 then
          if nz n then print "\b \b";; read_line polls' dst (u32 (n - 1)) cap else read_line polls' dst n cap
        else if (32 <=? ch) && (ch <=? 126) && (u32 (n + 1) <? cap) then putc_ascii ch;; read_line polls' (zset dst n ch) (u32 (n + 1)) cap
        else read_line polls' dst n cap
  end.

(** ** Commands *)

Definition memory_type_name (t : Z) : string :=
  nth (Z.to_nat t) ["Reserved"; "LoaderCode"; "LoaderData"; "BootSvcCode"; "BootSvcData"; "RuntimeCode"; "RuntimeData"; "Conventional";
    "Unusable"; "ACPIReclaim"; "ACPINVS"; "MMIO"; "MMIOPort"; "PAL"; "Persistent"] "Other".

Definition count_pages (counts : Z * Z) (d : efi_memory_descriptor) : Z * Z :=
  let '(conventional_pages, ramlike_pages) := counts in
  (if md_type d =? EfiConventionalMemory then u64 (conventional_pages + md_number_of_pages d) else conventional_pages,
   if (1 <=? md_type d) && (md_type d <=? 10) && (md_type d !=? 8) then u64 (ramlike_pages + md_number_of_pages d) else ramlike_pages).

(** The failure both commands report. *)
Definition map_failed (s : Z) : shell (M := M) unit := print "GetMemoryMap failed: 0x";; print_hex_u64 s 16;; print "\n".

Definition cmd_mem : shell (M := M) unit :=
  acquired ← invoking U.uefi_memory_map_acquire;
  let '(s, map) := acquired : Z * memory_map_t in
  if s !=? EFI_SUCCESS then map_failed s
  else
    let '(conventional_pages, ramlike_pages) := fold_left count_pages (map_descriptors map) (0, 0) in
    print "Currently conventional/usable: ";;
    print_dec_u64 (u64 (conventional_pages * 4096) / (1024 * 1024));;
    print " MiB\nRAM-like pages in UEFI map: ";;
    print_dec_u64 (u64 (ramlike_pages * 4096) / (1024 * 1024));;
    print " MiB\nDescriptors: ";;
    print_dec_u64 (map_size map / map_descriptor_size map);;
    print "\n";;
    invoking (U.uefi_memory_map_release map).

Definition print_descriptor (d : efi_memory_descriptor) : shell (M := M) unit :=
  let name := memory_type_name (md_type d) in
  print name;;
  put_string (replicate (13 - length (c_string name)) 32);;
  print "0x";; print_hex_u64 (md_physical_start d) 16;;
  print "  ";; print_dec_u64 (md_number_of_pages d);;
  print "\n".
Fixpoint print_descriptors (ds : list efi_memory_descriptor) : shell (M := M) unit :=
  match ds with [] => mret tt | d :: ds' => print_descriptor d;; print_descriptors ds' end.

Definition cmd_memmap : shell (M := M) unit :=
  acquired ← invoking U.uefi_memory_map_acquire;
  let '(s, map) := acquired : Z * memory_map_t in
  if s !=? EFI_SUCCESS then map_failed s
  else
    print "TYPE          START               PAGES\n";;
    print "-------------------------------------------\n";;
    print_descriptors (take 32 (map_descriptors map));;
    (if (32 <? length (map_descriptors map))%nat then print "... truncated to first 32 descriptors\n" else mret tt);;
    invoking (U.uefi_memory_map_release map).

(** [if (v < 10) putc_ascii('0'); print_dec_u64(v);] *)
Definition two_digits (v : Z) : shell (M := M) unit := (if v <? 10 then putc_ascii 48 else mret tt);; print_dec_u64 v.

Definition cmd_time : shell (M := M) unit :=
  r ← invoking U.GetTime;
  let '(s, t) := r : Z * EFI_TIME in
  if s !=? EFI_SUCCESS then print "UEFI GetTime failed.\n"
  else
    print_dec_u64 (t_Year t);; putc_ascii 45;;
    two_digits (t_Month t);; putc_ascii 45;;
    two_digits (t_Day t);; putc_ascii 32;;
    two_digits (t_Hour t);; putc_ascii 58;;
    two_digits (t_Minute t);; putc_ascii 58;;
    two_digits (t_Second t);;
    print "\n".

Definition feature (word bit : Z) (name : string) : shell (M := M) unit := if nz (word & (1 << bit)) then print name else mret tt.

Definition cmd_cpu : shell (M := M) unit :=
  vendor ← invoking U.cpu_vendor;
  r ← invoking U.cpu_cpuid1;
  let '(ecx, edx) := r : Z * Z in
  print "CPU vendor: ";; print_text vendor;; print "\n";;
  print "CPUID.1 ECX: 0x";; print_hex_u64 ecx 8;; print "\n";;
  print "CPUID.1 EDX: 0x";; print_hex_u64 edx 8;; print "\n";;
  print "Features: ";;
  feature edx 25 "SSE ";;
  feature edx 26 "SSE2 ";;
  feature ecx 0 "SSE3 ";;
  feature ecx 9 "SSSE3 ";;
  feature ecx 19 "SSE4.1 ";;
  feature ecx 20 "SSE4.2 ";;
  feature ecx 28 "AVX ";;
  print "\n".

Definition pixel_format_name (f : EFI_GRAPHICS_PIXEL_FORMAT) : string :=
  match f with
  | PixelRedGreenBlueReserved8BitPerColor => "RGBR8"
  | PixelBlueGreenRedReserved8BitPerColor => "BGRR8"
  | PixelBitMask => "BITMASK"
  | PixelBltOnly => "BLT-ONLY"
  | PixelFormatMax => "UNKNOWN"
  end.

Definition cmd_video : shell (M := M) unit :=
  framebuffer ← invoking U.console_uses_framebuffer;
  if negb framebuffer then print "GOP linear framebuffer unavailable; using UEFI text fallback.\n"
  else
    g ← invoking U.gop_info;
    print "Resolution: ";; print_dec_u64 (gop_width g);; putc_ascii 120;; print_dec_u64 (gop_height g);; print "\n";;
    print "Pixels/scanline: ";; print_dec_u64 (gop_pitch_pixels g);; print "\n";;
    print "Pixel format: ";; print (pixel_format_name (gop_format g));; print "\n";;
    print "Framebuffer: 0x";; print_hex_u64 (gop_fb_base g) 16;; print "\n";;
    print "Framebuffer bytes: ";; print_dec_u64 (gop_fb_size g);; print "\n".

Fixpoint print_all (lines : list string) : shell (M := M) unit := match lines with [] => mret tt | l :: lines' => print l;; print_all lines' end.

Definition help : shell (M := M) unit := print_all
  ["\nCommands:\n";
   "  help       command list\n";
   "  about      what this stage is\n";
   "  clear      clear Argus console\n";
   "  firmware   firmware vendor/revision\n";
   "  video      framebuffer/GOP information\n";
   "  cpu        CPUID vendor + feature bits\n";
   "  tsc        read x86 RDTSC counter\n";
   "  time       firmware real-time clock\n";
   "  mem        summarize UEFI memory map\n";
   "  memmap     first 32 memory descriptors\n";
   "  boot       leave firmware and enter the Argus kernel\n";
   "  bootfault  test breakpoint exception diagnostics\n";
   "  bootguard  test the unmapped kernel-stack guard page\n";
   "  bootdouble test the IST-backed double-fault path\n";
   "  color N    foreground color 0..15\n";
   "  echo TEXT  print text\n";
   "  reboot     cold reboot\n";
   "  shutdown   firmware power-off request\n";
   "  exit       return to firmware\n\n"]%string.

Definition about : shell (M := M) unit := print_all
  ["\nArgusOS UEFI Study Monitor v0.22\n";
   "x86-64 PE/COFF executable loaded directly by UEFI.\n";
   "No libc, no host OS. CPU inspection is done in assembly.\n";
   "GOP framebuffer output is owned by Argus when available.\n";
   "The boot command enters an Argus-owned memory and interrupt environment.\n";
   "The post-firmware kernel provides native serial/PS2 input and a heap.\n";
   "Python owns host tests; bounded no_std Rust components use checked ABIs.\n";
   "Allocator invariants, guarded stacks, and IRQ input are enforced.\n";
   "Stage K now includes retained surfaces and small system applications.\n\n"]%string.

Definition boot_self_test (line : list Z) : Z :=
  if strings_equal line (text "bootfault") then 1
  else if strings_equal line (text "bootguard") then 2
  else if strings_equal line (text "bootdouble") then 3
  else ARGUS_SELF_TEST_NONE.

(** A command of the monitor; the result tells whether to leave it. *)
Definition monitor_command (line : list Z) : shell (M := M) bool :=
  if hd 0 line =? 0 then mret false
  else if strings_equal line (text "help") then help;; mret false
  else if strings_equal line (text "about") then about;; mret false
  else if strings_equal line (text "clear") then invoking U.console_clear;; mret false
  else if strings_equal line (text "firmware") then
    print "Firmware: ";;
    vendor ← invoking U.FirmwareVendor;
    print16 vendor;;
    print "\nRevision: 0x";; revision ← invoking U.FirmwareRevision; print_hex_u64 revision 8;; print "\n";; mret false
  else if strings_equal line (text "video") then cmd_video;; mret false
  else if strings_equal line (text "cpu") then cmd_cpu;; mret false
  else if strings_equal line (text "tsc") then
    print "TSC: 0x";; tsc ← invoking U.cpu_read_tsc; print_hex_u64 tsc 16;; print "\n";; mret false
  else if strings_equal line (text "time") then cmd_time;; mret false
  else if strings_equal line (text "mem") then cmd_mem;; mret false
  else if strings_equal line (text "memmap") then cmd_memmap;; mret false
  else if strings_equal line (text "boot") || strings_equal line (text "bootfault") ||
          strings_equal line (text "bootguard") || strings_equal line (text "bootdouble") then
    print "Preparing Argus kernel handoff...\n";;
    status ← invoking (U.boot_kernel (boot_self_test line));
    print "Kernel handoff preparation failed: 0x";;
    print_hex_u64 status 16;;
    print "\n";; mret false
  else if starts_with line (text "echo ") then print_text (drop 5 line);; print "\n";; mret false
  else if starts_with line (text "color ") then
    match parse_u32 (drop 6 line) with
    | Some c => if c <=? 15 then invoking (U.console_set_color c);; mret false else print "usage: color 0..15\n";; mret false
    | None => print "usage: color 0..15\n";; mret false
    end
  else if strings_equal line (text "reboot") then print "Rebooting...\n";; invoking (U.ResetSystem EFI_RESET_COLD);; mret false
  else if strings_equal line (text "shutdown") then print "Requesting power off...\n";; invoking (U.ResetSystem EFI_RESET_SHUTDOWN);; mret false
  else if strings_equal line (text "exit") then print "Returning to firmware.\n";; mret true
  else print "Unknown command. Type 'help'.\n";; mret false.

(** [efi_main] up to its loop. *)
Definition monitor_start : shell (M := M) unit :=
  invoking U.serial_init;;
  watchdog ← invoking U.SetWatchdogTimer;
  let watchdog_status := default EFI_SUCCESS watchdog in
  invoking U.console_init;;
  invoking (U.console_set_color EFI_TEXT_LIGHTGREEN);;
  invoking U.console_clear;;
  print "ArgusOS UEFI Study Monitor v0.22\n";;
  (if watchdog_status !=? EFI_SUCCESS then
     print "Warning: could not disable firmware watchdog: 0x";;
     print_hex_u64 watchdog_status 16;;
     print "\n"
   else mret tt);;
  framebuffer ← invoking U.console_uses_framebuffer;
  print (if (framebuffer : bool) then "Argus framebuffer console online. Type 'help'.\n\n" else "GOP unavailable; UEFI text fallback active. Type 'help'.\n\n").

(** One turn of the loop on [linebuf]: [None] if the polls ran out, else the line
    read and whether the monitor returns. *)
Definition monitor_turn (polls : nat) (linebuf : list Z) : shell (M := M) (option (list Z * bool)) :=
  print "argus64> ";;
  line ← read_line polls linebuf 0 LINE_SIZE;
  match line with
  | None => mret None
  | Some line => print "\n";; leave ← monitor_command line; mret (Some (line, leave))
  end.

(** The status returned to the firmware, once a command ends the monitor. *)
Fixpoint monitor_turns (turns polls : nat) (linebuf : list Z) : shell (M := M) (option Z) :=
  match turns with
  | O => mret None
  | S turns' =>
      r ← monitor_turn polls linebuf;
      match r with
      | None => mret None
      | Some (linebuf, leave) => if (leave : bool) then mret (Some EFI_SUCCESS) else monitor_turns turns' polls linebuf
      end
  end.
Definition efi_main (turns polls : nat) : shell (M := M) (option Z) := monitor_start;; monitor_turns turns polls (replicate 128 0).

End monitor.

(** ** Reading a line *)

(** The line as a list of characters; at most 127 are kept. *)
Definition edit_line (t : list Z) (c : Z) : list Z :=
  if c =? 8 then take (length t - 1) t
  else if (32 <=? c) && (c <=? 126) && (length t <? 127)%nat then t ++ [c] else t.

(** What a round of the loop finds: a character on the serial line, a key of the
    firmware's keyboard (its UTF-16 character), or nothing. *)
Inductive poll := Serial (c : Z) | Key (u : Z) | Idle.
Definition poll_char (p : poll) : option Z := match p with Serial c => Some c | Key u => Some u | Idle => None end.
Definition poll_wf (p : poll) : Prop := match p with Serial c => 0 <= c < 256 | Key u => 0 <= u < 65536 | Idle => True end.
(** The end of a line, from either device. *)
Definition line_end (p : poll) : Prop := poll_char p = Some 13 \/ poll_char p = Some 10.

(** Output and waiting. *)
Definition echoing (T : Type) (k : U.ucall T) : Prop :=
  match k with U.console_write _ | U.console_putc _ | U.serial_write _ | U.serial_putc _ | U.Stall _ => True | _ => False end.

Section reading_line.
Context {M : Type} `{FirmwareMachine M}.

(** The two input devices: what they will deliver, round by round, which output and
    waiting do not consume.  A negative value means that no character is on the
    serial line, a status other than [EFI_SUCCESS] that no key was pressed. *)
Class ConsoleInput (pending : M -> list poll) := {
  input_serial : forall m, let '(v, m') := invoke U.serial_getc_nonblocking m in
    match pending m with Serial c :: rest => v = c /\ pending m' = rest | _ => v < 0 /\ pending m' = pending m end;
  input_key : forall m, let '((status, unicode), m') := invoke U.ReadKeyStroke m in
    match pending m with
    | Key u :: rest => status = EFI_SUCCESS /\ unicode = u /\ pending m' = rest
    | Idle :: rest => status <> EFI_SUCCESS /\ pending m' = rest
    | _ => status <> EFI_SUCCESS /\ pending m' = pending m
    end;
  input_kept : forall T (k : U.ucall T) m, echoing T k -> pending (snd (invoke k m)) = pending m }.
Context (pending : M -> list poll) `{!ConsoleInput pending}.

(** [c] returns and keeps the waiting characters. *)
Definition echoes (c : shell (M := M) unit) : Prop := forall m, exists m', c m = (Returned tt, m') /\ pending m' = pending m.

Lemma echoes_call (k : U.ucall unit) : echoing unit k -> echoes (invoking k).
Proof using ConsoleInput0. intros Hk m. unfold invoking. pose proof (input_kept _ k m Hk) as E. destruct (invoke k m) as [[] m']. by exists m'. Qed.
Lemma echoes_bind c1 c2 : echoes c1 -> echoes c2 -> echoes (c1;; c2).
Proof.
  intros H1 H2 m. destruct (H1 m) as (m1 & E1 & P1). destruct (H2 m1) as (m2 & E2 & P2). exists m2. unfold mbind, shell_bind. rewrite E1.
  split; [done|congruence].
Qed.
Lemma echoes_print s : echoes (print s).
Proof using ConsoleInput0. apply echoes_bind; by apply echoes_call. Qed.
Lemma echoes_putc c : echoes (putc_ascii c).
Proof using ConsoleInput0. apply echoes_bind; by apply echoes_call. Qed.

(** What the loop does with a character. *)
Definition read_char (polls : nat) (dst : list Z) (n cap c : Z) : shell (M := M) (option (list Z)) :=
  if (c =? 13) || (c =? 10) then mret (Some (zset dst n 0))
  else if c =? 8 then if nz n then print "\b \b";; read_line polls dst (u32 (n - 1)) cap else read_line polls dst n cap
  else if (32 <=? c) && (c <=? 126) && (u32 (n + 1) <? cap) then putc_ascii c;; read_line polls (zset dst n c) (u32 (n + 1)) cap
  else read_line polls dst n cap.

(** One round. *)
Lemma read_line_poll polls dst n cap m p rest : pending m = p :: rest -> poll_wf p ->
  exists m1, pending m1 = rest /\
    read_line (S polls) dst n cap m = match poll_char p with Some c => read_char polls dst n cap c | None => read_line polls dst n cap end m1.
Proof using ConsoleInput0.
  intros Hp Hw. cbn [read_line]. unfold mbind at 1, shell_bind at 1, invoking at 1. pose proof (input_serial m) as Hn.
  destruct (invoke U.serial_getc_nonblocking m) as [v m1]. rewrite Hp in Hn.
  assert (forall A (k : Z * Z -> shell A), (key ← invoking U.ReadKeyStroke; k key) m1 = let '(key, m2) := invoke U.ReadKeyStroke m1 in k key m2) as Hkey.
  { intros A k. unfold mbind, shell_bind, invoking. by destruct (invoke U.ReadKeyStroke m1). }
  pose proof (input_key m1) as Hk. destruct p as [c|u|]; cbn [poll_char poll_wf] in *; destruct Hn as [Hv Hm].
  - subst v. exists m1. split; [done|]. destruct (Z.ltb_spec c 0); [lia|]. destruct (Z.leb_spec 0 c); [|lia].
    unfold mbind at 1, shell_bind at 1. cbn [mret shell_ret andb]. by rewrite u8_id by lia.
  - destruct (Z.ltb_spec v 0); [|lia]. destruct (Z.leb_spec 0 v); [lia|]. rewrite Hkey. destruct (invoke U.ReadKeyStroke m1) as [[status unicode] m2].
    rewrite Hm, ?Hp in Hk. destruct Hk as (-> & -> & Hm2). exists m2. split; [done|]. cbn [andb]. change (EFI_SUCCESS !=? EFI_SUCCESS) with false. cbv iota.
    by rewrite u16_id by lia.
  - destruct (Z.ltb_spec v 0); [|lia]. rewrite Hkey. destruct (invoke U.ReadKeyStroke m1) as [[status unicode] m2].
    rewrite Hm, ?Hp in Hk. destruct Hk as [Hs Hm2]. apply Z.eqb_neq in Hs. cbn [andb]. rewrite Hs. cbn [negb].
    destruct (echoes_call (U.Stall 1000) I m2) as (m3 & E3 & P3). exists m3. split; [congruence|]. unfold mbind, shell_bind. by rewrite E3.
Qed.

(** A step of the loop that echoes. *)
Lemma echo_then {A} (c : shell (M := M) unit) (k : shell (M := M) A) m : echoes c -> exists m', (c;; k) m = k m' /\ pending m' = pending m.
Proof. intros Hc. destruct (Hc m) as (m' & E & P). exists m'. unfold mbind, shell_bind. by rewrite E. Qed.

Lemma read_char_holds polls dst n t m c rest (P : list Z -> M -> Prop) :
  c <> 13 -> c <> 10 -> holds (mk_editor dst n) t -> pending m = rest ->
  (forall dst n m, holds (mk_editor dst n) (edit_line t c) -> pending m = rest ->
     exists line m', read_line polls dst n LINE_SIZE m = (Returned (Some line), m') /\ P line m') ->
  exists line m', read_char polls dst n LINE_SIZE c m = (Returned (Some line), m') /\ P line m'.
Proof using ConsoleInput0.
  intros H13 H10 Hh Hm IH. unfold read_char. destruct (Z.eqb_spec c 13); [done|]. destruct (Z.eqb_spec c 10); [done|]. cbn [orb].
  unfold edit_line in IH. pose proof Hh as [Hd Hn Hr _ _]. cbn [ed_line ed_used] in *.
  assert (u32 (n + 1) = n + 1) as -> by (apply u32_id; unfold UINT32_MAX; lia).
  assert ((n + 1 <? LINE_SIZE) = (length t <? 127)%nat) as -> by (unfold LINE_SIZE; apply eq_true_iff_eq; rewrite Z.ltb_lt, Nat.ltb_lt; lia).
  destruct (Z.eqb_spec c 8) as [->|].
  - destruct (holds_removed _ _ Hh) as [Hrem | ->].
    + destruct (Z.eq_dec n 0) as [->|Hn0]; [destruct t; [by apply IH|cbn in Hn; lia]|].
      replace (nz n) with true by (symmetry; by apply negb_true_iff, Z.eqb_neq).
      destruct (echo_then (print "\b \b") (read_line polls dst (u32 (n - 1)) LINE_SIZE) m (echoes_print _)) as (m2 & -> & Hm2).
      rewrite u32_id by (unfold UINT32_MAX; lia). apply IH; [exact Hrem|congruence].
    + cbn in Hn. subst n. by apply IH.
  - destruct ((32 <=? c) && (c <=? 126)) eqn:Ep; cbn [andb] in *; [|by apply IH].
    destruct (Nat.ltb_spec (length t) 127); [|by apply IH].
    destruct (echo_then (putc_ascii c) (read_line polls (zset dst n c) (n + 1) LINE_SIZE) m (echoes_putc _)) as (m2 & -> & Hm2).
    apply IH; [|congruence]. apply andb_true_iff in Ep as [E1 E2]. b2p. apply (holds_added _ _ c Hh); lia.
Qed.

Lemma read_line_holds ps : forall polls dst n t m e rest,
  Forall (fun p => poll_wf p /\ ~ line_end p) ps -> poll_wf e -> line_end e ->
  holds (mk_editor dst n) t -> pending m = ps ++ e :: rest -> (length ps < polls)%nat ->
  exists line m', read_line polls dst n LINE_SIZE m = (Returned (Some line), m') /\
    (c_str line = fold_left edit_line (omap poll_char ps) t /\ length line = 128%nat /\ pending m' = rest).
Proof using ConsoleInput0.
  induction ps as [|p ps IH]; intros [|polls] dst n t m e rest Hps He Hend Hh Hp Hl; cbn [length app] in *; try lia.
  - destruct (read_line_poll polls dst n LINE_SIZE m e rest Hp He) as (m1 & Hm1 & E). rewrite E. exists (zset dst n 0), m1.
    split; [by destruct Hend as [-> | ->]|]. split_and!; [|by rewrite zset_length; apply Hh|done]. exact (holds_ended _ _ Hh).
  - apply Forall_cons in Hps as [[Hw Hn] Hps]. destruct (read_line_poll polls dst n LINE_SIZE m p _ Hp Hw) as (m1 & Hm1 & E). rewrite E. clear E.
    cbn [omap list_omap]. unfold line_end in Hn. destruct (poll_char p) as [c|] eqn:Ec.
    + cbn [fold_left]. apply (read_char_holds polls dst n t m1 c (ps ++ e :: rest)); try done; [naive_solver|naive_solver|].
      intros dst' n' m' Hh' Hm'. by apply (IH polls dst' n' _ m' e rest); [done..|lia].
    + by apply (IH polls dst n t m1 e rest); [done..|lia].
Qed.

(** C24: [read_line] returns at the end of a line, for every line, from whichever
    device its characters come, the serial line or the firmware's keyboard in any
    mixture, with idle rounds anywhere between them, and whether it ends in a
    carriage return or a line feed.  Given a round for each character and each idle
    poll, it has in its buffer the text typed, edited by its backspaces, cut at
    127 characters and without any other character, with the zero inside the
    buffer; and the characters after the line are still waiting. *)
Theorem read_line_exact ps e polls dst m rest :
  Forall (fun p => poll_wf p /\ ~ line_end p) ps -> poll_wf e -> line_end e ->
  length dst = 128%nat -> pending m = ps ++ e :: rest -> (length ps < polls)%nat ->
  exists line m', read_line polls dst 0 LINE_SIZE m = (Returned (Some line), m') /\
    c_str line = fold_left edit_line (omap poll_char ps) [] /\ length line = 128%nat /\ pending m' = rest.
Proof using ConsoleInput0.
  intros Hps He Hend Hd Hp Hl. apply (read_line_holds ps polls dst 0 [] m e rest); try done. constructor; cbn; done || lia.
Qed.
End reading_line.

(** A firmware with a serial line and a keyboard. *)
Definition no_reply {T} (k : U.ucall T) : T.
Proof.
  destruct k; first [exact tt | exact false | exact 0 | exact [] | exact None | exact (0, 0) | exact (1, mk_map None 0 0 0 0 0) | exact (1, mk_time 0 0 0 0 0 0)
    | exact (mk_gop 0 0 0 0 PixelBltOnly (mk_masks 0 0 0 0) 0 0 false)].
Defined.
#[export] Instance typing_machine : FirmwareMachine (list poll) := {|
  invoke T k := match k in U.ucall T return list poll -> T * list poll with
    | U.serial_getc_nonblocking => fun m => match m with Serial c :: rest => (c, rest) | _ => (-1, m) end
    | U.ReadKeyStroke => fun m => match m with Key u :: rest => ((EFI_SUCCESS, u), rest) | Idle :: rest => ((6, 0), rest) | _ => ((6, 0), m) end
    | k => fun m => (no_reply k, m)
    end |}.
#[export] Instance typing_input : ConsoleInput (fun m : list poll => m).
Proof.
  constructor.
  - intros [|[c|u|] m]; cbn; try done; split; done || lia.
  - intros [|[c|u|] m]; cbn; split_and!; done.
  - intros T k m Hk. destruct k; done.
Qed.

(** A line typed on both devices, with pauses, a correction and a line feed at its
    end. *)
Definition typed_line : list poll :=
  [Idle; Serial 98; Serial 120; Idle; Key 111; Key 0x2603; Key 111; Serial 8; Idle; Idle; Key 111; Serial 116].

Lemma read_line_exact_witness :
  exists line m', read_line 20 (replicate 128 255) 0 LINE_SIZE (typed_line ++ Key 10 :: [Serial 109]) = (Returned (Some line), m') /\
    c_str line = text "bxoot" /\ m' = [Serial 109].
Proof.
  destruct (read_line_exact (fun m : list poll => m) typed_line (Key 10) 20 (replicate 128 255) (typed_line ++ Key 10 :: [Serial 109]) [Serial 109])
    as (line & m' & E & Ec & _ & Em); [| | |reflexivity|reflexivity|cbn; lia|].
  - unfold typed_line, line_end. repeat constructor; cbn; try lia; intros [?|?]; discriminate.
  - cbn. lia.
  - right. reflexivity.
  - exists line, m'. split; [exact E|]. split; [|exact Em]. rewrite Ec. reflexivity.
Defined.
