(* ===== verification/Ahci.v ===== *)
(** * The AHCI disk driver (src/ahci.c, src/ahci.h)

    The controller reads its command list from memory and writes the sectors it
    reads into memory.  The device is a type [D] with the I/O primitives of
    [Hardware] for its PCI configuration space and, in the class [Hba], accesses
    to its memory-mapped registers: an access may let the device run, so it
    takes and returns the machine's memory.  Device registers and memory are
    touched in the order of the source; the memory fences order accesses that
    are already in order here.

    [AhciPort] is the documented behaviour of a port with a disk that works: it
    decodes the command list it was given, and within a bounded number of
    register reads stores the sector and clears the command's bit.  At any time
    it may also post received FISes and the transferred byte count to memory. *)

From stdpp Require Import base list gmap numbers strings.
From Stdlib Require Import ZArith Lia.
From S2P Require Import Prelude Memory BootInfo Allocator Pmm Paging Devices Pci Block Files.

Open Scope Z_scope.

Definition AHCI_HBA_CAP : Z := 0x00.
Definition AHCI_HBA_GHC : Z := 0x04.
Definition AHCI_HBA_PI : Z := 0x0C.
Definition AHCI_HBA_VS : Z := 0x10.
Definition AHCI_HBA_CAP2 : Z := 0x24.
Definition AHCI_HBA_BOHC : Z := 0x28.
Definition AHCI_PORT_BASE : Z := 0x100.
Definition AHCI_PORT_SIZE : Z := 0x80.

Definition AHCI_PORT_CLB : Z := 0x00.
Definition AHCI_PORT_CLBU : Z := 0x04.
Definition AHCI_PORT_FB : Z := 0x08.
Definition AHCI_PORT_FBU : Z := 0x0C.
Definition AHCI_PORT_IS : Z := 0x10.
Definition AHCI_PORT_IE : Z := 0x14.
Definition AHCI_PORT_CMD : Z := 0x18.
Definition AHCI_PORT_TFD : Z := 0x20.
Definition AHCI_PORT_SIG : Z := 0x24.
Definition AHCI_PORT_SSTS : Z := 0x28.
Definition AHCI_PORT_SERR : Z := 0x30.
Definition AHCI_PORT_SACT : Z := 0x34.
Definition AHCI_PORT_CI : Z := 0x38.

Definition AHCI_GHC_IE : Z := 1 << 1.
Definition AHCI_GHC_AE : Z := 1 << 31.
Definition AHCI_CAP_S64A : Z := 1 << 31.
Definition AHCI_CAP2_BOH : Z := 1 << 0.
Definition AHCI_BOHC_BOS : Z := 1 << 0.
Definition AHCI_BOHC_OOS : Z := 1 << 1.
Definition AHCI_BOHC_BB : Z := 1 << 4.

Definition AHCI_PORT_CMD_ST : Z := 1 << 0.
Definition AHCI_PORT_CMD_FRE : Z := 1 << 4.
Definition AHCI_PORT_CMD_FR : Z := 1 << 14.
Definition AHCI_PORT_CMD_CR : Z := 1 << 15.
Definition AHCI_PORT_TFD_DRQ : Z := 1 << 3.
Definition AHCI_PORT_TFD_BSY : Z := 1 << 7.
Definition AHCI_PORT_IS_TFES : Z := 1 << 30.
Definition AHCI_SATA_SIGNATURE : Z := 0x101.

Definition ATA_IDENTIFY_DEVICE : Z := 0xEC.
Definition ATA_READ_DMA_EXT : Z := 0x25.
Definition FIS_TYPE_REG_H2D : Z := 0x27.

Definition AHCI_COMMAND_LIST_OFFSET : Z := 0.
Definition AHCI_RECEIVED_FIS_OFFSET : Z := 1024.
Definition AHCI_COMMAND_TABLE_OFFSET : Z := 1280.
Definition AHCI_PRDT_OFFSET : Z := 128.
Definition AHCI_DMA_PAGES : Z := 2.
Definition AHCI_DATA_PAGE_OFFSET : Z := ARGUS_PAGE_SIZE.
Definition AHCI_TIMEOUT : Z := 10000000.
Definition AHCI_MAX_READ_SECTORS : Z := 128.

Record ahci_state_t := mk_ahci {
  ac_abar : Z;
  ac_port : Z;
  ac_command_memory : Z;
  ac_data_buffer : Z;
  ac_command_physical : Z;
  ac_data_physical : Z;
  ac_sector_count : Z;
  ac_port_number : Z;
  ac_supports_64bit_dma : bool;
  ac_online : bool }.
Definition ahci0 : ahci_state_t := mk_ahci 0 0 0 0 0 0 0 0 false false.

Record ahci_info_t := mk_ahci_info {
  ai_abar : Z;
  ai_sector_count : Z;
  ai_version : Z;
  ai_implemented_ports : Z;
  ai_port : Z;
  ai_supports_64bit_dma : bool;
  ai_initialized : bool }.
Definition ahci_info0 : ahci_info_t := mk_ahci_info 0 0 0 0 0 false false.

(** Register accesses, with the memory the device shares. *)
Class Hba (D : Type) := {
  hba_read : D -> mem -> Z -> Z * D * mem;
  hba_write : D -> mem -> Z -> Z -> D * mem }.

(** The driver's variables, the machine and the device.  [aw_sectors] is the sector
    count of the block-device descriptor, whose other fields are constants, and
    [None] while the descriptor is all zeros. *)
Record ahci_world (S D : Type) := mk_aworld {
  aw_controller : ahci_state_t;
  aw_info : ahci_info_t;
  aw_sectors : option Z;
  aw_machine : machine S;
  aw_hw : D }.
Arguments mk_aworld {S D}.
Arguments aw_controller {S D}.
Arguments aw_info {S D}.
Arguments aw_sectors {S D}.
Arguments aw_machine {S D}.
Arguments aw_hw {S D}.

Section ahci.
Context {S D : Type} `{PageAllocator S} `{Hardware D} `{Hba D}.
Implicit Types w : ahci_world S D.

Definition aw_mem w : mem := mc_mem (aw_machine w).
Definition set_controller w (c : ahci_state_t) : ahci_world S D :=
  mk_aworld c (aw_info w) (aw_sectors w) (aw_machine w) (aw_hw w).
Definition set_machine w (mc : machine S) : ahci_world S D :=
  mk_aworld (aw_controller w) (aw_info w) (aw_sectors w) mc (aw_hw w).
Definition set_hw w (hw : D) : ahci_world S D :=
  mk_aworld (aw_controller w) (aw_info w) (aw_sectors w) (aw_machine w) hw.
Definition set_memory w (m : mem) : ahci_world S D := set_machine w (with_memory (aw_machine w) m).

Definition mmio_read w (base offset : Z) : Z * ahci_world S D :=
  let '(v, hw, m) := hba_read (aw_hw w) (aw_mem w) (base + offset) in
  (u32 v, set_memory (set_hw w hw) m).
Definition mmio_write w (base offset value : Z) : ahci_world S D :=
  let '(hw, m) := hba_write (aw_hw w) (aw_mem w) (base + offset) (u32 value) in
  set_memory (set_hw w hw) m.

(** [zero_bytes] on memory. *)
Definition zero_memory (m : mem) (bytes count : Z) : mem := for_range 0 count (fun i m => mem_set m (bytes + i) 0) m.

Definition read_u16 (m : mem) (bytes word : Z) : Z :=
  let offset := u32 (word * 2) in
  u16 (Z.lor (mem_get m (bytes + offset)) (mem_get m (bytes + (offset + 1)) << 8)).

Fixpoint wait_loop (attempts : nat) w (base offset mask : Z) : bool * ahci_world S D :=
  match attempts with
  | O => (false, w)
  | Datatypes.S attempts' =>
      let '(v, w) := mmio_read w base offset in
      if negb (nz (v & mask)) then (true, w) else wait_loop attempts' w base offset mask
  end.
Definition wait_clear w (base offset mask : Z) : bool * ahci_world S D :=
  wait_loop (Z.to_nat AHCI_TIMEOUT) w base offset mask.

Definition claim_controller w (abar : Z) : bool * ahci_world S D :=
  let '(capabilities, w) := mmio_read w abar AHCI_HBA_CAP2 in
  if negb (nz (capabilities & AHCI_CAP2_BOH)) then (true, w)
  else
    let '(ownership, w) := mmio_read w abar AHCI_HBA_BOHC in
    let w := mmio_write w abar AHCI_HBA_BOHC (Z.lor ownership AHCI_BOHC_OOS) in
    wait_clear w abar AHCI_HBA_BOHC (Z.lor AHCI_BOHC_BOS AHCI_BOHC_BB).

(** [~mask] of a 32-bit constant. *)
Definition not32 (mask : Z) : Z := UINT32_MAX - mask.

Definition stop_port w (port : Z) : bool * ahci_world S D :=
  let '(command, w) := mmio_read w port AHCI_PORT_CMD in
  let w := mmio_write w port AHCI_PORT_CMD (command & not32 AHCI_PORT_CMD_ST) in
  let '(ok, w) := wait_clear w port AHCI_PORT_CMD AHCI_PORT_CMD_CR in
  if negb ok then (false, w)
  else
    let '(command, w) := mmio_read w port AHCI_PORT_CMD in
    let w := mmio_write w port AHCI_PORT_CMD (command & not32 AHCI_PORT_CMD_FRE) in
    wait_clear w port AHCI_PORT_CMD AHCI_PORT_CMD_FR.

Definition start_port w (port : Z) : ahci_world S D :=
  let '(command, w) := mmio_read w port AHCI_PORT_CMD in
  let command := Z.lor command AHCI_PORT_CMD_FRE in
  let w := mmio_write w port AHCI_PORT_CMD command in
  mmio_write w port AHCI_PORT_CMD (Z.lor command AHCI_PORT_CMD_ST).

Definition sata_port_present w (port : Z) : bool * ahci_world S D :=
  let '(status, w) := mmio_read w port AHCI_PORT_SSTS in
  let detection := status & 0x0F in
  let power := (status >> 8) & 0x0F in
  if (detection =? 3) && (power =? 1) then
    let '(signature, w) := mmio_read w port AHCI_PORT_SIG in
    (signature =? AHCI_SATA_SIGNATURE, w)
  else (false, w).

(** The command header, table and scatter list of [issue_command]. *)
Definition write_command (c : ahci_state_t) (m : mem) (command lba sector_count : Z) : mem :=
  let header := ac_command_memory c + AHCI_COMMAND_LIST_OFFSET in
  let table := ac_command_memory c + AHCI_COMMAND_TABLE_OFFSET in
  let m := zero_memory m header 32 in
  let m := zero_memory m table 256 in
  let m := store32 m header (Z.lor 5 (1 << 16)) in
  let table_physical := u64 (ac_command_physical c + AHCI_COMMAND_TABLE_OFFSET) in
  let m := store32 m (header + 4 * 2) (u32 table_physical) in
  let m := store32 m (header + 4 * 3) (u32 (table_physical >> 32)) in
  let m := mem_set m (table + 0) FIS_TYPE_REG_H2D in
  let m := mem_set m (table + 1) 0x80 in
  let m := mem_set m (table + 2) command in
  let m :=
    if command =? ATA_READ_DMA_EXT then
      let m := mem_set m (table + 4) lba in
      let m := mem_set m (table + 5) (lba >> 8) in
      let m := mem_set m (table + 6) (lba >> 16) in
      let m := mem_set m (table + 7) 0x40 in
      let m := mem_set m (table + 8) (lba >> 24) in
      let m := mem_set m (table + 9) (lba >> 32) in
      let m := mem_set m (table + 10) (lba >> 40) in
      let m := mem_set m (table + 12) sector_count in
      mem_set m (table + 13) (sector_count >> 8)
    else m in
  let prdt := table + AHCI_PRDT_OFFSET in
  let m := store32 m prdt (u32 (ac_data_physical c)) in
  let m := store32 m (prdt + 4) (u32 (ac_data_physical c >> 32)) in
  let m := store32 m (prdt + 8) 0 in
  store32 m (prdt + 12) 511.

(** Polling for the end of the command. *)
Fixpoint completion_loop (attempts : nat) w (port : Z) : bool * ahci_world S D :=
  match attempts with
  | O => (false, w)
  | Datatypes.S attempts' =>
      let '(interrupt_status, w) := mmio_read w port AHCI_PORT_IS in
      if nz (interrupt_status & AHCI_PORT_IS_TFES) then (false, w)
      else
        let '(issued, w) := mmio_read w port AHCI_PORT_CI in
        if negb (nz (issued & 1)) then
          let '(tfd, w) := mmio_read w port AHCI_PORT_TFD in
          (negb (nz (tfd & 1)), w)
        else completion_loop attempts' w port
  end.

Definition issue_command w (command lba sector_count : Z) : bool * ahci_world S D :=
  let c := aw_controller w in
  if negb (ac_online c) && (command !=? ATA_IDENTIFY_DEVICE) then (false, w)
  else
    let port := ac_port c in
    let '(ready, w) := wait_clear w port AHCI_PORT_TFD (Z.lor AHCI_PORT_TFD_BSY AHCI_PORT_TFD_DRQ) in
    if negb ready then (false, w)
    else
      let '(active, w) := mmio_read w port AHCI_PORT_SACT in
      if nz (active & 1) then (false, w)
      else
        let '(issued, w) := mmio_read w port AHCI_PORT_CI in
        if nz (issued & 1) then (false, w)
        else
          let w := set_memory w (write_command c (aw_mem w) command lba sector_count) in
          let w := mmio_write w port AHCI_PORT_IS UINT32_MAX in
          let w := mmio_write w port AHCI_PORT_SERR UINT32_MAX in
          let w := mmio_write w port AHCI_PORT_CI 1 in
          completion_loop (Z.to_nat AHCI_TIMEOUT) w port.

(** What the identify data say of the disk; 0 when it cannot be used. *)
Definition identified_sectors (m : mem) (buffer : Z) : Z :=
  let capabilities := read_u16 m buffer 83 in
  if (capabilities & 0xC400) !=? 0x4400 then 0
  else
    let sectors := Z.lor (Z.lor (Z.lor (read_u16 m buffer 100) (read_u16 m buffer 101 << 16))
                            (read_u16 m buffer 102 << 32)) (read_u16 m buffer 103 << 48) in
    if negb (nz sectors) || (1 << 48 <? sectors) then 0
    else
      let sector_size_info := read_u16 m buffer 106 in
      if ((sector_size_info & 0xC000) =? 0x4000) && nz (sector_size_info & (1 << 12)) then
        let logical_words := Z.lor (read_u16 m buffer 117) (read_u16 m buffer 118 << 16) in
        if logical_words !=? 256 then 0 else sectors
      else sectors.

Definition identify_sector_count w : Z * ahci_world S D :=
  let buffer := ac_data_buffer (aw_controller w) in
  let w := set_memory w (zero_memory (aw_mem w) buffer 512) in
  let '(ok, w) := issue_command w ATA_IDENTIFY_DEVICE 0 0 in
  if negb ok then (0, w) else (identified_sectors (aw_mem w) buffer, w).

(** [copy_bytes(output + index * 512u, controller.data_buffer, 512u)] *)
Definition copy_sector (m : mem) (buffer : Z) (output : list Z) (index : Z) : list Z :=
  for_range 0 512 (fun i output => zset output (index * 512 + i) (mem_get m (buffer + i))) output.

(** The controller after a command has failed. *)
Definition set_offline w : ahci_world S D :=
  let c := aw_controller w in
  set_controller w (mk_ahci (ac_abar c) (ac_port c) (ac_command_memory c) (ac_data_buffer c) (ac_command_physical c)
    (ac_data_physical c) (ac_sector_count c) (ac_port_number c) (ac_supports_64bit_dma c) false).

(** The loop over the sectors, from [index], [count] of them left. *)
Fixpoint read_loop (count : nat) w (first_sector index : Z) (output : list Z) : Z * list Z * ahci_world S D :=
  match count with
  | O => (ARGUS_BLOCK_OK, output, w)
  | Datatypes.S count' =>
      let '(ok, w) := issue_command w ATA_READ_DMA_EXT (u64 (first_sector + index)) 1 in
      if negb ok then
        let w := set_offline w in
        (ARGUS_BLOCK_IO_ERROR, output, snd (stop_port w (ac_port (aw_controller w))))
      else read_loop count' w first_sector (index + 1)
             (copy_sector (aw_mem w) (ac_data_buffer (aw_controller w)) output index)
  end.

(** The context is the driver's own controller. *)
Definition ahci_read w (first_sector sector_count : Z) (output : option (list Z)) (output_capacity : Z)
    : Z * option (list Z) * ahci_world S D :=
  match output with
  | None => (ARGUS_BLOCK_INVALID, output, w)
  | Some bytes =>
      let c := aw_controller w in
      if negb (nz sector_count) || (AHCI_MAX_READ_SECTORS <? sector_count) then (ARGUS_BLOCK_INVALID, output, w)
      else if negb (ac_online c) then (ARGUS_BLOCK_IO_ERROR, output, w)
      else if (ac_sector_count c <=? first_sector) || (ac_sector_count c - first_sector <? sector_count)
      then (ARGUS_BLOCK_RANGE, output, w)
      else if output_capacity <? u64 (sector_count * 512) then (ARGUS_BLOCK_BUFFER_TOO_SMALL, output, w)
      else
        let '(status, bytes, w) := read_loop (Z.to_nat sector_count) w first_sector 0 bytes in
        (status, Some bytes, w)
  end.

Definition release_pages w (address : Z) : ahci_world S D :=
  let mc := aw_machine w in
  set_machine w (with_pa mc (snd (pa_release (mc_pa mc) address AHCI_DMA_PAGES))).

Definition release_dma w : ahci_world S D :=
  let c := aw_controller w in
  let w := if nz (ac_command_physical c) then release_pages w (ac_command_physical c) else w in
  set_controller w ahci0.

(** The first implemented port with a SATA disk, from port [candidate]. *)
Fixpoint find_port (count : nat) w (abar implemented candidate : Z) : option (Z * Z) * ahci_world S D :=
  match count with
  | O => (None, w)
  | Datatypes.S count' =>
      if negb (nz (implemented & (1 << candidate))) then find_port count' w abar implemented (candidate + 1)
      else
        let candidate_port := abar + AHCI_PORT_BASE + candidate * AHCI_PORT_SIZE in
        let '(present, w) := sata_port_present w candidate_port in
        if present then (Some (candidate, candidate_port), w)
        else find_port count' w abar implemented (candidate + 1)
  end.

Definition ABAR_BYTES : Z := AHCI_PORT_BASE + 32 * AHCI_PORT_SIZE.

(** The conditions on the base address register. *)
Definition abar_rejected (paging_info : paging_info_t) (bar : Z) : bool :=
  let abar_address := bar & 0xFFFFFFF0 in
  (bar =? UINT32_MAX) || nz (bar & 1) || ((bar & 6) =? 4) || negb (nz abar_address) ||
  (pi_mapped_bytes paging_info <=? abar_address) || (pi_mapped_bytes paging_info - abar_address <? ABAR_BYTES).

(** The port is given its command list and started. *)
Definition program_port w (port dma : Z) : ahci_world S D :=
  let w := mmio_write w port AHCI_PORT_CLB (u32 dma) in
  let w := mmio_write w port AHCI_PORT_CLBU (u32 (dma >> 32)) in
  let fis := u64 (dma + AHCI_RECEIVED_FIS_OFFSET) in
  let w := mmio_write w port AHCI_PORT_FB (u32 fis) in
  let w := mmio_write w port AHCI_PORT_FBU (u32 (fis >> 32)) in
  let w := mmio_write w port AHCI_PORT_IE 0 in
  let w := mmio_write w port AHCI_PORT_IS UINT32_MAX in
  let w := mmio_write w port AHCI_PORT_SERR UINT32_MAX in
  start_port w port.

(** From the port on: memory for its commands, identification, publication. *)
Definition ahci_attach w (abar implemented port_number port : Z) : bool * ahci_world S D :=
  let mc := aw_machine w in
  let '(dma, pa) := pa_alloc (mc_pa mc) AHCI_DMA_PAGES in
  let w := set_machine w (with_pa mc pa) in
  if negb (nz dma) then (false, w)
  else
    let '(capabilities, w) := mmio_read w abar AHCI_HBA_CAP in
    let supports_64bit := nz (capabilities & AHCI_CAP_S64A) in
    if negb supports_64bit && (UINT32_MAX - AHCI_DMA_PAGES * ARGUS_PAGE_SIZE <? dma)
    then (false, release_pages w dma)
    else
      let w := set_memory w (zero_memory (aw_mem w) dma (AHCI_DMA_PAGES * ARGUS_PAGE_SIZE)) in
      let data := u64 (dma + AHCI_DATA_PAGE_OFFSET) in
      let w := set_controller w (mk_ahci abar port dma data dma data 0 (u8 port_number) supports_64bit false) in
      let w := program_port w port dma in
      let '(sectors, w) := identify_sector_count w in
      if negb (nz sectors) then
        let '(_, w) := stop_port w port in
        (false, release_dma w)
      else
        let c := mk_ahci abar port dma data dma data sectors (u8 port_number) supports_64bit true in
        let w := mk_aworld c (aw_info w) (Some sectors) (aw_machine w) (aw_hw w) in
        let '(version, w) := mmio_read w abar AHCI_HBA_VS in
        let info := mk_ahci_info abar sectors version implemented (u8 port_number) supports_64bit true in
        (true, mk_aworld (aw_controller w) info (aw_sectors w) (aw_machine w) (aw_hw w)).

(** The descriptor, with the driver's [read] as seen from the world [w]. *)
Definition ahci_name : list Z := text "ahci0" ++ replicate 19 0.
Definition ahci_descriptor w : argus_block_device_v1_t :=
  match aw_sectors w with
  | None => mk_device 0 0 (replicate 24 0) 0 0 0 None
  | Some sectors =>
      mk_device ARGUS_BLOCK_ABI_VERSION 64 ahci_name 512 0 sectors
        (Some (fun first count output capacity => let '(status, output, _) := ahci_read w first count output capacity in
                                                  (status, output)))
  end.

Definition ahci_init w (pci_device : option pci_device_t) (paging_info : option paging_info_t) : bool * ahci_world S D :=
  let w := mk_aworld ahci0 ahci_info0 None (aw_machine w) (aw_hw w) in
  match pci_device, paging_info with
  | Some device, Some paging =>
      if (pd_class_code device !=? 0x01) || (pd_subclass device !=? 0x06) || (pd_programming_interface device !=? 0x01)
      then (false, w)
      else
        let '(bar, hw) := pci_config_read32 (aw_hw w) device 0x24 in
        let w := set_hw w hw in
        if abar_rejected paging bar then (false, w)
        else
          let abar := bar & 0xFFFFFFF0 in
          let '(marked, mc) := paging_mark_mmio (aw_machine w) (Some paging) abar ABAR_BYTES in
          let w := set_machine w mc in
          if negb marked then (false, w)
          else
            let '(enabled, hw) := pci_enable_memory_bus_master (aw_hw w) device in
            let w := set_hw w hw in
            if negb enabled then (false, w)
            else
              let '(claimed, w) := claim_controller w abar in
              if negb claimed then (false, w)
              else
                let '(global_control, w) := mmio_read w abar AHCI_HBA_GHC in
                let w := mmio_write w abar AHCI_HBA_GHC (Z.lor global_control AHCI_GHC_AE & not32 AHCI_GHC_IE) in
                let '(implemented, w) := mmio_read w abar AHCI_HBA_PI in
                let '(found, w) := find_port 32 w abar implemented 0 in
                match found with
                | None => (false, w)
                | Some (port_number, port) =>
                    let '(stopped, w) := stop_port w port in
                    if negb stopped then (false, w)
                    else
                      let '(attached, w) := ahci_attach w abar implemented port_number port in
                      (attached && block_device_valid (Some (ahci_descriptor w)), w)
                end
  | _, _ => (false, w)
  end.

(** [block_read] (src/block.c) through the descriptor. *)
Definition ahci_block_read w (first_sector sector_count : Z) (output : option (list Z)) (output_capacity : Z)
    : Z * option (list Z) * ahci_world S D :=
  let device := ahci_descriptor w in
  match bd_read device, output with
  | Some _, Some _ =>
      if negb (block_device_valid (Some device)) || negb (nz sector_count) then (ARGUS_BLOCK_INVALID, output, w)
      else if (bd_sector_count device <=? first_sector) || (bd_sector_count device - first_sector <? sector_count)
      then (ARGUS_BLOCK_RANGE, output, w)
      else if UINT64_MAX / bd_sector_size device <? sector_count then (ARGUS_BLOCK_INVALID, output, w)
      else if output_capacity <? u64 (sector_count * bd_sector_size device) then (ARGUS_BLOCK_BUFFER_TOO_SMALL, output, w)
      else ahci_read w first_sector sector_count output output_capacity
  | _, _ => (ARGUS_BLOCK_INVALID, output, w)
  end.

Definition ahci_self_test w : bool * ahci_world S D :=
  if negb (ac_online (aw_controller w)) || negb (block_device_valid (Some (ahci_descriptor w))) then (false, w)
  else
    let '(status, output, w) := ahci_block_read w 0 1 (Some (replicate 512 0)) 512 in
    let sector := default [] output in
    ((status =? ARGUS_BLOCK_OK) && (zget 0 sector 510 =? 0x55) && (zget 0 sector 511 =? 0xAA), w).

Definition ahci_info w : option ahci_info_t :=
  if ai_initialized (aw_info w) && ac_online (aw_controller w) then Some (aw_info w) else None.

Definition ahci_block_device w : option argus_block_device_v1_t :=
  if ac_online (aw_controller w) && block_device_valid (Some (ahci_descriptor w)) then Some (ahci_descriptor w) else None.
End ahci.

(** ** The driver's own state under register accesses

    The device may change memory and itself at any access, but not the driver's
    variables or the page allocator. *)

Section any_device.
Context {S D : Type} `{PageAllocatorLaws S} `{Hardware D} `{Hba D}.
Implicit Types w : ahci_world S D.

Definition aw_pa w : S := mc_pa (aw_machine w).

Record kept (w w' : ahci_world S D) : Prop := {
  kp_controller : aw_controller w' = aw_controller w;
  kp_info : aw_info w' = aw_info w;
  kp_sectors : aw_sectors w' = aw_sectors w;
  kp_pa : aw_pa w' = aw_pa w }.

Lemma kept_refl w : kept w w.
Proof. done. Qed.
Lemma ahci_kept_trans w w1 w2 : kept w w1 -> kept w1 w2 -> kept w w2.
Proof. intros [] []. constructor; congruence. Qed.
#[local] Hint Resolve kept_refl : core.

Lemma mmio_read_kept w base offset : kept w (snd (mmio_read w base offset)).
Proof. unfold mmio_read. by destruct (hba_read _ _ _) as [[v hw] m]. Qed.
Lemma mmio_write_kept w base offset value : kept w (mmio_write w base offset value).
Proof. unfold mmio_write. by destruct (hba_write _ _ _ _) as [hw m]. Qed.
Lemma set_memory_kept w m : kept w (set_memory w m).
Proof. done. Qed.

(** Follow a chain of accesses. *)
Lemma kept_read {A} w base offset (k : Z -> ahci_world S D -> A) (P : A -> Prop) :
  (forall v w1, kept w w1 -> P (k v w1)) -> P (let '(v, w1) := mmio_read w base offset in k v w1).
Proof. intros Hk. pose proof (mmio_read_kept w base offset) as Hr. destruct (mmio_read w base offset). by apply Hk. Qed.

Lemma wait_clear_kept w base offset mask : kept w (snd (wait_clear w base offset mask)).
Proof.
  unfold wait_clear. generalize (Z.to_nat AHCI_TIMEOUT) as n. intros n. revert w. induction n as [|n IH]; intros w; [done|].
  cbn [wait_loop]. apply (kept_read w base offset). intros v w1 Hk. case_if; [done|]. eapply ahci_kept_trans; [exact Hk|apply IH].
Qed.

Lemma completion_kept n w port : kept w (snd (completion_loop n w port)).
Proof.
  revert w. induction n as [|n IH]; intros w; [done|]. cbn [completion_loop].
  apply (kept_read w). intros v w1 H1'. case_if; [done|]. apply (kept_read w1). intros v2 w2 H2'. case_if.
  - apply (kept_read w2). intros v3 w3 H3'. eauto using ahci_kept_trans.
  - eauto using ahci_kept_trans.
Qed.

Lemma stop_port_kept w port : kept w (snd (stop_port w port)).
Proof.
  unfold stop_port. apply (kept_read w). intros v w1 H1'. pose proof (mmio_write_kept w1 port AHCI_PORT_CMD (v & not32 AHCI_PORT_CMD_ST)) as H2'.
  set (w2 := mmio_write w1 _ _ _) in *. pose proof (wait_clear_kept w2 port AHCI_PORT_CMD AHCI_PORT_CMD_CR) as H3'.
  destruct (wait_clear w2 _ _ _) as [ok w3]. cbn [snd] in H3'. case_if; [eauto using ahci_kept_trans|].
  apply (kept_read w3). intros v4 w4 H4'. eapply ahci_kept_trans; [|apply wait_clear_kept].
  eapply ahci_kept_trans; [|apply mmio_write_kept]. eauto using ahci_kept_trans.
Qed.

Lemma start_port_kept w port : kept w (start_port w port).
Proof.
  unfold start_port. apply (kept_read w). intros v w1 H1'. cbv zeta.
  eapply ahci_kept_trans; [|apply mmio_write_kept]. eapply ahci_kept_trans; [|apply mmio_write_kept]. done.
Qed.

Lemma claim_kept w abar : kept w (snd (claim_controller w abar)).
Proof.
  unfold claim_controller. apply (kept_read w). intros v w1 H1'. case_if; [done|].
  apply (kept_read w1). intros v2 w2 H2'. eapply ahci_kept_trans; [|apply wait_clear_kept].
  eapply ahci_kept_trans; [|apply mmio_write_kept]. eauto using ahci_kept_trans.
Qed.

Lemma sata_present_kept w port : kept w (snd (sata_port_present w port)).
Proof.
  unfold sata_port_present. apply (kept_read w). intros v w1 H1'. cbv zeta. case_if; [|done].
  apply (kept_read w1). intros v2 w2 H2'. eauto using ahci_kept_trans.
Qed.

Lemma find_port_kept n w abar implemented candidate : kept w (snd (find_port n w abar implemented candidate)).
Proof.
  revert w candidate. induction n as [|n IH]; intros w candidate; [done|]. cbn [find_port]. case_if; [apply IH|]. cbv zeta.
  pose proof (sata_present_kept w (abar + AHCI_PORT_BASE + candidate * AHCI_PORT_SIZE)) as Hs.
  destruct (sata_port_present w _) as [present w1]. case_if; [done|]. eapply ahci_kept_trans; [exact Hs|apply IH].
Qed.

Lemma issue_command_kept w command lba count : kept w (snd (issue_command w command lba count)).
Proof.
  unfold issue_command. cbv zeta. case_if; [done|].
  pose proof (wait_clear_kept w (ac_port (aw_controller w)) AHCI_PORT_TFD (Z.lor AHCI_PORT_TFD_BSY AHCI_PORT_TFD_DRQ)) as H1'.
  destruct (wait_clear w _ _ _) as [ready w1]. cbn [snd] in H1'. case_if; [done|].
  apply (kept_read w1). intros v2 w2 H2'. case_if; [eauto using ahci_kept_trans|].
  apply (kept_read w2). intros v3 w3 H3'. case_if; [eauto using ahci_kept_trans|].
  eapply ahci_kept_trans; [|apply completion_kept]. do 3 (eapply ahci_kept_trans; [|apply mmio_write_kept]).
  eapply ahci_kept_trans; [|apply set_memory_kept]. eauto using ahci_kept_trans.
Qed.

Lemma identify_kept w : kept w (snd (identify_sector_count w)).
Proof.
  unfold identify_sector_count. cbv zeta. set (w0 := set_memory w _).
  pose proof (issue_command_kept w0 ATA_IDENTIFY_DEVICE 0 0) as Hi. destruct (issue_command w0 _ _ _) as [ok w1].
  cbn [snd] in Hi. assert (kept w w1) by (eapply ahci_kept_trans; [apply set_memory_kept|exact Hi]). by case_if.
Qed.

Lemma program_port_kept w port dma : kept w (program_port w port dma).
Proof.
  unfold program_port. cbv zeta. eapply ahci_kept_trans; [|apply start_port_kept].
  repeat (eapply ahci_kept_trans; [|apply mmio_write_kept]). done.
Qed.

Lemma identified_range m buffer : 0 <= identified_sectors m buffer <= 1 << 48.
Proof.
  assert (forall word, 0 <= read_u16 m buffer word) as Hr by (intros; apply u16_range).
  assert (0 <= Z.lor (Z.lor (Z.lor (read_u16 m buffer 100) (read_u16 m buffer 101 << 16)) (read_u16 m buffer 102 << 32))
    (read_u16 m buffer 103 << 48)) as Hl by (rewrite !Z.lor_nonneg, !Z.shiftl_nonneg; auto).
  unfold identified_sectors. cbv zeta. case_if; [done|]. case_if; [done|]. b2p.
  case_if; [case_if; [done|]|]; lia.
Qed.

Lemma identify_range w : 0 <= fst (identify_sector_count w) <= 1 << 48.
Proof.
  unfold identify_sector_count. cbv zeta. destruct (issue_command _ _ _ _) as [ok w1].
  case_if; [done|apply identified_range].
Qed.

(** ** Pages

    [attached w w']: the driver holds two pages more than before, for its commands
    and for data, and is online with the sector count it publishes. *)
Definition attached (w w' : ahci_world S D) : Prop :=
  let c := aw_controller w' in
  exists p, 0 < p /\ page_run p 2 ⊆ pa_free (aw_pa w) /\ pa_live (aw_pa w') = pa_live (aw_pa w) ∪ page_run p 2
    /\ pa_free (aw_pa w') = pa_free (aw_pa w) ∖ page_run p 2
    /\ ac_command_physical c = p * ARGUS_PAGE_SIZE /\ ac_command_memory c = ac_command_physical c
    /\ ac_data_physical c = (p + 1) * ARGUS_PAGE_SIZE /\ ac_data_buffer c = ac_data_physical c
    /\ (p + 2) * ARGUS_PAGE_SIZE <= UINT64_MAX
    /\ (ac_supports_64bit_dma c = false -> (p + 2) * ARGUS_PAGE_SIZE <= UINT32_MAX)
    /\ ac_online c = true /\ 0 < ac_sector_count c <= 1 << 48 /\ aw_sectors w' = Some (ac_sector_count c)
    /\ ai_initialized (aw_info w') = true /\ ai_sector_count (aw_info w') = ac_sector_count c.

Definition unattached (w w' : ahci_world S D) : Prop :=
  pa_live (aw_pa w') = pa_live (aw_pa w) /\ pa_free (aw_pa w') = pa_free (aw_pa w).

Definition attach_result (w : ahci_world S D) (r : bool * ahci_world S D) : Prop :=
  pa_ok (aw_pa (snd r)) /\ if fst r then attached w (snd r) else unattached w (snd r).

Lemma unattached_kept w w' : pa_ok (aw_pa w) -> kept w w' -> pa_ok (aw_pa w') /\ unattached w w'.
Proof. intros Hok [_ _ _ E]. unfold unattached. rewrite E. done. Qed.

Lemma release_pages_pa w address : aw_pa (release_pages w address) = snd (pa_release (aw_pa w) address AHCI_DMA_PAGES).
Proof. done. Qed.

Lemma attach_spec w abar implemented port_number port :
  pa_ok (aw_pa w) -> attach_result w (ahci_attach w abar implemented port_number port).
Proof.
  intros Hok. unfold ahci_attach. cbv zeta. pose proof (pa_alloc_spec (aw_pa w) AHCI_DMA_PAGES Hok ltac:(done)) as Ha.
  fold (aw_pa w). destruct (pa_alloc (aw_pa w) AHCI_DMA_PAGES) as [dma pa] eqn:Ealloc.
  set (w1 := set_machine w (with_pa (aw_machine w) pa)). change (aw_pa w1) with pa in *.
  destruct Ha as [(-> & -> & _)|(p & -> & Hp & _ & Hmax & Hsub & Hok' & Hf & Hl)]; [by cbn|].
  unfold nz at 1. destruct (Z.eqb_spec (p * ARGUS_PAGE_SIZE) 0); [unfold ARGUS_PAGE_SIZE in *; lia|]. cbn [negb].
  destruct (pa_alloc_release (aw_pa w) AHCI_DMA_PAGES _ _ Hok ltac:(done) Ealloc) as (pa2 & Er & Hok2 & Hf2 & Hl2); [done|].
  assert (forall w2, aw_pa w2 = pa -> pa_ok (aw_pa (release_pages w2 (p * ARGUS_PAGE_SIZE)))
    /\ unattached w (release_pages w2 (p * ARGUS_PAGE_SIZE))) as Hback.
  { intros w2 E2. unfold unattached. rewrite release_pages_pa, E2, Er. done. }
  apply (kept_read w1). intros v w2 Hk2. case_if; [apply Hback, Hk2|].
  set (data := u64 (p * ARGUS_PAGE_SIZE + AHCI_DATA_PAGE_OFFSET)). set (w64 := nz (v & AHCI_CAP_S64A)) in *.
  set (w3 := set_controller _ _).
  pose proof (program_port_kept w3 port (p * ARGUS_PAGE_SIZE)) as Hk4. set (w4 := program_port w3 _ _) in *.
  pose proof (identify_kept w4) as Hk5. pose proof (identify_range w4) as Hr5.
  destruct (identify_sector_count w4) as [sectors w5]. cbn [fst snd] in Hk5, Hr5.
  assert (kept w3 w5) as Hk by (eauto using ahci_kept_trans).
  assert (aw_pa w5 = pa) as Hpa by (destruct Hk as [_ _ _ ->]; apply Hk2).
  destruct (nz sectors) eqn:Es; cbn [negb].
  - b2p. set (w6 := mk_aworld _ _ _ _ _). apply (kept_read w6). intros version w7 Hk7. cbn [fst snd].
    assert (aw_pa w7 = pa) as Hpa7 by (rewrite (kp_pa _ _ Hk7); exact Hpa). split.
    + change (pa_ok (aw_pa w7)). by rewrite Hpa7.
    + cbn [fst snd]. exists p. set (w8 := mk_aworld _ _ _ _ _). assert (aw_pa w8 = pa) as -> by exact Hpa7.
      cbn [w8 aw_controller aw_sectors aw_info]. rewrite (kp_sectors _ _ Hk7), (kp_controller _ _ Hk7). cbn.
      unfold data, AHCI_DATA_PAGE_OFFSET, ARGUS_PAGE_SIZE, AHCI_DMA_PAGES in *. rewrite u64_id by lia.
      split_and!; try done; try lia. intros E64. rewrite E64 in *. cbn [negb andb] in *. b2p. lia.
  - pose proof (stop_port_kept w5 port) as Hk6. destruct (stop_port w5 port) as [ok w6]. cbn [snd] in Hk6. cbn [fst snd].
    unfold release_dma. cbv zeta. rewrite (kp_controller _ _ Hk6), (kp_controller _ _ Hk). cbn [w3 set_controller aw_controller ac_command_physical].
    unfold nz. destruct (Z.eqb_spec (p * ARGUS_PAGE_SIZE) 0); [done|]. cbn [negb]. apply Hback. by rewrite (kp_pa _ _ Hk6).
Qed.

Lemma mark_mmio_pa (mc : machine S) info physical size : mc_pa (snd (paging_mark_mmio mc info physical size)) = mc_pa mc.
Proof.
  unfold paging_mark_mmio. destruct info; [|done]. case_if; [done|]. cbv zeta. destruct (mark_from _ _ _ _) as [ok m]. by case_if.
Qed.

Lemma descriptor_valid w : (exists n, aw_sectors w = Some n /\ 0 < n) -> block_device_valid (Some (ahci_descriptor w)) = true.
Proof.
  intros (n & E & Hn). unfold ahci_descriptor. rewrite E. unfold block_device_valid. cbn [bd_abi_version bd_struct_size bd_name
    bd_sector_size bd_sector_count bd_reserved bd_read]. replace (nz n) with true; [done|]. unfold nz.
  destruct (Z.eqb_spec n 0); [lia|done].
Qed.

Lemma attach_result_from w w1 r : aw_pa w1 = aw_pa w -> attach_result w1 r -> attach_result w r.
Proof. intros E [H1' H2']. split; [done|]. destruct (fst r); unfold attached, unattached in *; rewrite E in H2'; done. Qed.

(** C31: Whatever the controller does, [ahci_init] either fails and leaves the page
    allocator with the pages it had, or succeeds holding exactly two more pages,
    within 4 GiB when the controller cannot address more, with the controller
    online, the data page after the command page and a sector count of at most
    2^48 published. *)
Theorem ahci_init_pages w pci_device paging_info :
  pa_ok (aw_pa w) ->
  let '(ok, w') := ahci_init w pci_device paging_info in
  pa_ok (aw_pa w') /\ if ok then attached w w' else unattached w w'.
Proof.
  intros Hok. enough (attach_result w (ahci_init w pci_device paging_info)) as Hr by (by destruct (ahci_init _ _ _)).
  unfold ahci_init. cbv zeta. set (w0 := mk_aworld ahci0 ahci_info0 None _ _).
  assert (forall w', aw_pa w' = aw_pa w -> attach_result w (false, w')) as Hfail.
  { intros w' E. unfold attach_result, unattached. cbn [fst snd]. by rewrite E. }
  destruct pci_device as [device|]; [|by apply Hfail]. destruct paging_info as [paging|]; [|by apply Hfail].
  case_if; [by apply Hfail|]. destruct (pci_config_read32 (aw_hw w0) device 0x24) as [bar hw].
  case_if; [by apply Hfail|]. pose proof (mark_mmio_pa (aw_machine w0) (Some paging) (bar & 0xFFFFFFF0) ABAR_BYTES) as Hm.
  change (aw_machine (set_hw w0 hw)) with (aw_machine w0).
  destruct (paging_mark_mmio (aw_machine w0) _ _ _) as [marked mc]. cbn [snd] in Hm.
  set (w1 := set_machine (set_hw w0 hw) mc). assert (aw_pa w1 = aw_pa w) as E1 by done.
  destruct marked; cbn [negb]; [|by apply Hfail].
  destruct (pci_enable_memory_bus_master (aw_hw w1) device) as [enabled hw2]. set (w2 := set_hw w1 hw2).
  destruct enabled; cbn [negb]; [|by apply Hfail].
  pose proof (claim_kept w2 (bar & 0xFFFFFFF0)) as K3. destruct (claim_controller w2 _) as [claimed w3]. cbn [snd] in K3.
  assert (aw_pa w3 = aw_pa w) as E3 by (rewrite (kp_pa _ _ K3); done).
  destruct claimed; cbn [negb]; [|by apply Hfail].
  apply (kept_read w3). intros v4 w4 K4. pose proof (mmio_write_kept w4 (bar & 0xFFFFFFF0) AHCI_HBA_GHC
    (Z.lor v4 AHCI_GHC_AE & not32 AHCI_GHC_IE)) as K5. set (w5 := mmio_write w4 _ _ _) in *.
  apply (kept_read w5). intros implemented w6 K6. pose proof (find_port_kept 32 w6 (bar & 0xFFFFFFF0) implemented 0) as K7.
  destruct (find_port 32 w6 _ _ _) as [found w7]. cbn [snd] in K7.
  assert (aw_pa w7 = aw_pa w) as E7 by (rewrite (kp_pa _ _ K7), (kp_pa _ _ K6), (kp_pa _ _ K5), (kp_pa _ _ K4); done).
  destruct found as [[port_number port]|]; [|by apply Hfail].
  pose proof (stop_port_kept w7 port) as K8. destruct (stop_port w7 port) as [stopped w8]. cbn [snd] in K8.
  assert (aw_pa w8 = aw_pa w) as E8 by (rewrite (kp_pa _ _ K8); done). destruct stopped; cbn [negb]; [|by apply Hfail].
  pose proof (attach_spec w8 (bar & 0xFFFFFFF0) implemented port_number port ltac:(by rewrite E8)) as Ha.
  apply (attach_result_from w w8 _ E8) in Ha. destruct (ahci_attach w8 _ _ _ _) as [[|] w9]; [|done].
  rewrite descriptor_valid; [done|]. destruct Ha as [_ (p & Ha)]. cbn [fst snd] in Ha. exists (ac_sector_count (aw_controller w9)).
  tauto.
Qed.

(** ** Failed commands *)

Lemma read_loop_offline n w first index output status out w' :
  read_loop n w first index output = (status, out, w') ->
  status = ARGUS_BLOCK_OK \/ (status = ARGUS_BLOCK_IO_ERROR /\ ac_online (aw_controller w') = false).
Proof.
  revert w index output. induction n as [|n IH]; intros w index output; cbn [read_loop]; [intros [= <- _ _]; by left|].
  destruct (issue_command w _ _ _) as [ok w1]. case_if; [|apply IH]. cbv zeta. intros [= <- _ <-]. right. split; [done|].
  by rewrite (kp_controller _ _ (stop_port_kept _ _)).
Qed.

Lemma ahci_read_offline w first count output capacity :
  ac_online (aw_controller w) = false ->
  let '(status, out, w') := ahci_read w first count output capacity in status <> ARGUS_BLOCK_OK /\ out = output /\ w' = w.
Proof.
  intros Hoff. unfold ahci_read. destruct output as [bytes|]; [|done]. cbv zeta. case_if; [done|]. by rewrite Hoff.
Qed.

(** C36: A command that fails or times out takes the controller off line for good: the
    read reports an I/O error, the descriptor is withdrawn, and every later read
    is refused without touching a device register, memory or the caller's
    buffer. *)
Theorem ahci_read_failure_is_final w first count output capacity out w' :
  ahci_read w first count output capacity = (ARGUS_BLOCK_IO_ERROR, out, w') ->
  ac_online (aw_controller w') = false /\ ahci_block_device w' = None /\ ahci_info w' = None
  /\ forall first' count' output' capacity',
       let '(status, out', w2) := ahci_read w' first' count' output' capacity' in
       status <> ARGUS_BLOCK_OK /\ out' = output' /\ w2 = w'.
Proof.
  intros E. assert (ac_online (aw_controller w') = false) as Hoff.
  { revert E. unfold ahci_read. destruct output as [bytes|]; [|done]. cbv zeta. case_if; [done|].
    destruct (ac_online (aw_controller w)) eqn:Eon; cbn [negb]; [|by intros [= _ <-]].
    case_if; [done|]. case_if; [done|]. destruct (read_loop _ _ _ _ _) as [[status bytes'] w1] eqn:El.
    intros [= -> _ <-]. apply read_loop_offline in El as [?|[_ ?]]; done. }
  split; [done|]. unfold ahci_block_device, ahci_info. rewrite Hoff, andb_false_r. split; [done|]. split; [done|].
  intros. by apply ahci_read_offline.
Qed.
End any_device.

(** ** A working disk *)

(** The address of the command table of slot 0 of the list at [list]. *)
Definition slot_table (m : mem) (list : Z) : Z := load32 m (list + 8) + 2 ^ 32 * load32 m (list + 12).

(** The command in slot 0 of the list at [list], as the controller reads it: the
    sector and the address of the data, for a read of one 512-byte sector. *)
Definition decode_command (m : mem) (list : Z) : option (Z * Z) :=
  let table := slot_table m list in
  let prdt := table + AHCI_PRDT_OFFSET in
  let byte i := mem_get m (table + i) in
  if (load32 m list =? 0x10005) && (byte 0 =? FIS_TYPE_REG_H2D) && (byte 1 =? 0x80) && (byte 2 =? ATA_READ_DMA_EXT) &&
     (byte 7 =? 0x40) && (byte 12 + 256 * byte 13 =? 1) && (load32 m (prdt + 12) =? 511)
  then Some (byte 4 + 256 * byte 5 + 256 ^ 2 * byte 6 + 256 ^ 3 * byte 8 + 256 ^ 4 * byte 9 + 256 ^ 5 * byte 10,
             load32 m prdt + 2 ^ 32 * load32 m (prdt + 4))
  else None.

(** The bytes at [a] onwards. *)
Fixpoint store_bytes (m : mem) (a : Z) (bytes : list Z) : mem :=
  match bytes with [] => m | b :: bytes' => store_bytes (mem_set m a b) (a + 1) bytes' end.

(** The bits of a status register that are clear when the port is idle. *)
Definition idle_mask (offset : Z) : Z :=
  if offset =? AHCI_PORT_TFD then Z.lor (Z.lor AHCI_PORT_TFD_BSY AHCI_PORT_TFD_DRQ) 1
  else if offset =? AHCI_PORT_IS then AHCI_PORT_IS_TFES else 1.
Definition status_register (offset : Z) : Prop :=
  offset = AHCI_PORT_TFD \/ offset = AHCI_PORT_IS \/ offset = AHCI_PORT_SACT \/ offset = AHCI_PORT_CI.

(** Memory changed at most in [area]. *)
Definition changes_only (area : Z -> Prop) (m m' : mem) : Prop := forall x, ~ area x -> mem_get m' x = mem_get m x.

(** What a running port posts of its own accord: the 256 bytes of received FISes
    at [fis] (a device may send a register or set-device-bits FIS at any time) and
    the byte count PRDBC, the second word of the header of slot 0. *)
Definition posted (list fis x : Z) : Prop := fis <= x < fis + 256 \/ list + 4 <= x < list + 8.

(** The data of one sector. *)
Definition transfer (data x : Z) : Prop := data <= x < data + 512.

(** [command_list] and [fis_base]: the PxCLB and PxFB the port was programmed with.
    [engine]: the command in progress, the sector, where its data go and how many
    register reads it lasts, at most [patience].  At every access the port may
    have posted FISes and byte counts, and while a command is in progress any part
    of its data; when it completes the data are the sector, except where the port
    posts over them. *)
Class AhciPort (D : Type) `{Hba D} (port : Z) (patience : nat) (command_list fis_base : D -> Z)
    (engine : D -> option (Z * Z * nat)) (disk : Z -> list Z) := {
  ap_idle : forall hw m offset, engine hw = None -> status_register offset ->
    let '(v, hw', m') := hba_read hw m (port + offset) in
    u32 v & idle_mask offset = 0 /\ changes_only (posted (command_list hw) (fis_base hw)) m m'
    /\ engine hw' = None /\ command_list hw' = command_list hw /\ fis_base hw' = fis_base hw;
  ap_busy : forall hw m offset lba data k, engine hw = Some (lba, data, S k) -> status_register offset ->
    let '(v, hw', m') := hba_read hw m (port + offset) in
    (offset = AHCI_PORT_IS -> u32 v & AHCI_PORT_IS_TFES = 0) /\ (offset = AHCI_PORT_CI -> u32 v & 1 = 1)
    /\ changes_only (fun x => posted (command_list hw) (fis_base hw) x \/ transfer data x) m m'
    /\ engine hw' = Some (lba, data, k) /\ command_list hw' = command_list hw /\ fis_base hw' = fis_base hw;
  ap_done : forall hw m offset lba data, engine hw = Some (lba, data, O) -> status_register offset ->
    let '(v, hw', m') := hba_read hw m (port + offset) in
    u32 v & idle_mask offset = 0
    /\ changes_only (fun x => posted (command_list hw) (fis_base hw) x \/ transfer data x) m m'
    /\ (forall i, 0 <= i < 512 -> ~ posted (command_list hw) (fis_base hw) (data + i) ->
          mem_get m' (data + i) = zget 0 (disk lba) i)
    /\ engine hw' = None /\ command_list hw' = command_list hw /\ fis_base hw' = fis_base hw;
  ap_clear : forall hw m offset v, engine hw = None -> offset = AHCI_PORT_IS \/ offset = AHCI_PORT_SERR ->
    let '(hw', m') := hba_write hw m (port + offset) v in
    changes_only (posted (command_list hw) (fis_base hw)) m m'
    /\ engine hw' = None /\ command_list hw' = command_list hw /\ fis_base hw' = fis_base hw;
  ap_issue : forall hw m lba data, engine hw = None -> decode_command m (command_list hw) = Some (lba, data) ->
    let '(hw', m') := hba_write hw m (port + AHCI_PORT_CI) 1 in
    changes_only (fun x => posted (command_list hw) (fis_base hw) x \/ transfer data x) m m'
    /\ (exists k, (k < patience)%nat /\ engine hw' = Some (lba, data, k))
    /\ command_list hw' = command_list hw /\ fis_base hw' = fis_base hw;
  ap_sector : forall lba, length (disk lba) = 512%nat }.

(** Reading back what was stored. *)
Ltac memory_step :=
  first [ rewrite mem_load_store_ne by (unfold AHCI_PRDT_OFFSET; lia)
        | rewrite mem_load_set_ne by (unfold AHCI_PRDT_OFFSET; lia)
        | rewrite mem_get_store_ne by (unfold AHCI_PRDT_OFFSET; lia)
        | rewrite mem_get_set_ne by lia
        | rewrite mem_get_set_eq
        | rewrite load32_store32 by (apply u32_range || (unfold UINT32_MAX; lia)) ].

Lemma load32_agrees m m' a : (forall i, a <= i < a + 4 -> mem_get m' i = mem_get m i) -> load32 m' a = load32 m a.
Proof. intros Hi. apply le_read_ext. exact Hi. Qed.

Lemma split_word x : 0 <= x <= UINT64_MAX -> u32 x + 2 ^ 32 * u32 (x >> 32) = x.
Proof.
  intros Hx. unfold u32. change 4294967296 with (2 ^ 32). rewrite Z.shiftr_div_pow2 by lia.
  assert (0 <= x / 2 ^ 32 < 2 ^ 32) as Hq.
  { split; [apply Z.div_pos; lia|]. apply Z.div_lt_upper_bound; [lia|]. unfold UINT64_MAX in Hx. lia. }
  rewrite (Z.mod_small (x / 2 ^ 32)) by done. pose proof (Z.div_mod x (2 ^ 32)). lia.
Qed.

Lemma split_lba lba :
  0 <= lba < 2 ^ 48 ->
  u8 lba + 256 * u8 (lba >> 8) + 256 ^ 2 * u8 (lba >> 16) + 256 ^ 3 * u8 (lba >> 24) + 256 ^ 4 * u8 (lba >> 32)
  + 256 ^ 5 * u8 (lba >> 40) = lba.
Proof.
  intros Hl. unfold u8. rewrite !Z.shiftr_div_pow2 by lia.
  replace (2 ^ 16) with (2 ^ 8 * 2 ^ 8) by done. replace (2 ^ 24) with (2 ^ 8 * 2 ^ 8 * 2 ^ 8) by done.
  replace (2 ^ 32) with (2 ^ 8 * 2 ^ 8 * 2 ^ 8 * 2 ^ 8) by done. replace (2 ^ 40) with (2 ^ 8 * 2 ^ 8 * 2 ^ 8 * 2 ^ 8 * 2 ^ 8) by done.
  rewrite <- !Z.div_div by lia. change (2 ^ 8) with 256.
  set (q1 := lba / 256). set (q2 := q1 / 256). set (q3 := q2 / 256). set (q4 := q3 / 256). set (q5 := q4 / 256).
  pose proof (Z.div_mod lba 256 ltac:(lia)) as E0. fold q1 in E0. pose proof (Z.div_mod q1 256 ltac:(lia)) as E1. fold q2 in E1.
  pose proof (Z.div_mod q2 256 ltac:(lia)) as E2. fold q3 in E2. pose proof (Z.div_mod q3 256 ltac:(lia)) as E3. fold q4 in E3.
  pose proof (Z.div_mod q4 256 ltac:(lia)) as E4. fold q5 in E4.
  assert (q5 mod 256 = q5) as E5.
  { apply Z.mod_small. pose proof (Z.mod_pos_bound lba 256). pose proof (Z.mod_pos_bound q1 256). pose proof (Z.mod_pos_bound q2 256).
    pose proof (Z.mod_pos_bound q3 256). pose proof (Z.mod_pos_bound q4 256). lia. }
  rewrite E5. lia.
Qed.

(** The controller reads two parts of the header and the command table. *)
Lemma decode_command_agrees m m' list :
  (forall x, list <= x < list + 4 \/ list + 8 <= x < list + 16
             \/ slot_table m list <= x < slot_table m list + 144 -> mem_get m' x = mem_get m x) ->
  decode_command m' list = decode_command m list.
Proof.
  intros Hx. assert (slot_table m' list = slot_table m list) as Et.
  { unfold slot_table. f_equal; [|f_equal]; apply load32_agrees; intros i Hi; apply Hx; lia. }
  unfold decode_command. rewrite Et. cbv zeta. unfold AHCI_PRDT_OFFSET.
  rewrite !(load32_agrees m m') by (intros; apply Hx; lia). rewrite !Hx by lia. done.
Qed.

Lemma write_command_decoded c m lba :
  ac_command_memory c = ac_command_physical c -> 0 < ac_command_physical c ->
  ac_command_physical c + 2 * ARGUS_PAGE_SIZE <= UINT64_MAX ->
  0 <= ac_data_physical c <= UINT64_MAX -> 0 <= lba < 2 ^ 48 ->
  let m' := write_command c m ATA_READ_DMA_EXT lba 1 in
  slot_table m' (ac_command_physical c) = ac_command_physical c + AHCI_COMMAND_TABLE_OFFSET
  /\ decode_command m' (ac_command_physical c) = Some (lba, ac_data_physical c).
Proof.
  intros Hc Hp Hmax Hd Hlba. cbv zeta. unfold decode_command, slot_table, write_command. rewrite Hc.
  unfold AHCI_COMMAND_LIST_OFFSET, AHCI_COMMAND_TABLE_OFFSET, ARGUS_PAGE_SIZE in *. cbv zeta.
  set (dma := ac_command_physical c) in *. set (data := ac_data_physical c) in *. rewrite !Z.add_0_r.
  change (ATA_READ_DMA_EXT =? ATA_READ_DMA_EXT) with true. cbn iota.
  change (4 * 2) with 8. change (4 * 3) with 12. change (Z.lor 5 (1 << 16)) with 0x10005.
  set (t := u64 (dma + 1280)). assert (t = dma + 1280) as Et by (apply u64_id; lia).
  match goal with |- context [load32 ?mm (dma + 8)] => set (m' := mm) end.
  assert (load32 m' (dma + 8) = u32 t) as L2 by (unfold m'; repeat memory_step; done).
  assert (load32 m' (dma + 12) = u32 (t >> 32)) as L3 by (unfold m'; repeat memory_step; done).
  assert (load32 m' dma = 0x10005) as L0 by (unfold m'; repeat memory_step; done).
  rewrite L2, L3, L0, split_word by lia. rewrite Et. split; [done|].
  assert (load32 m' (dma + 1280 + AHCI_PRDT_OFFSET) = u32 data) as P0 by (unfold m'; repeat memory_step; done).
  assert (load32 m' (dma + 1280 + AHCI_PRDT_OFFSET + 4) = u32 (data >> 32)) as P1 by (unfold m'; repeat memory_step; done).
  assert (load32 m' (dma + 1280 + AHCI_PRDT_OFFSET + 12) = 511) as P3 by (unfold m'; repeat memory_step; done).
  rewrite P0, P1, P3, split_word by done. unfold m'. repeat memory_step.
  rewrite split_lba by done. done.
Qed.

Lemma zero_memory_get m bytes count x :
  0 <= count -> mem_get (zero_memory m bytes count) x = if (bytes <=? x) && (x <? bytes + count) then 0 else mem_get m x.
Proof.
  intros Hc. pose proof (memset_get m bytes 0 count x Hc) as E. unfold memset in E. exact E.
Qed.

Lemma write_command_outside c m command lba count x :
  x < ac_command_memory c \/ ac_command_memory c + ARGUS_PAGE_SIZE <= x ->
  mem_get (write_command c m command lba count) x = mem_get m x.
Proof.
  intros Hx. unfold write_command, AHCI_COMMAND_LIST_OFFSET, AHCI_COMMAND_TABLE_OFFSET, ARGUS_PAGE_SIZE in *. cbv zeta.
  destruct (command =? ATA_READ_DMA_EXT); repeat memory_step; rewrite !zero_memory_get by lia;
    do 2 (case_if; [b2p; lia|]); done.
Qed.

Lemma store_bytes_get bytes : forall m a x,
  mem_get (store_bytes m a bytes) x
  = if (a <=? x) && (x <? a + Z.of_nat (length bytes)) then u8 (zget 0 bytes (x - a)) else mem_get m x.
Proof.
  induction bytes as [|b bytes IH]; intros m a x; cbn [store_bytes length].
  - destruct (_ && _) eqn:E; [b2p; lia|done].
  - rewrite IH, mem_get_set. destruct (Z.eqb_spec a x) as [->|Hne].
    + rewrite (proj2 (Z.leb_gt (x + 1) x)), Z.leb_refl, Z.sub_diag by lia. cbn [andb].
      rewrite (proj2 (Z.ltb_lt x (x + Z.of_nat (S (length bytes))))) by lia. done.
    + replace ((a <=? x) && (x <? a + Z.of_nat (S (length bytes))))
        with ((a + 1 <=? x) && (x <? a + 1 + Z.of_nat (length bytes)))
        by (apply eq_true_iff_eq; rewrite !andb_true_iff, !Z.leb_le, !Z.ltb_lt; lia).
      destruct (_ && _) eqn:E; [|done]. b2p. unfold zget. replace (Z.to_nat (x - a)) with (S (Z.to_nat (x - (a + 1)))) by lia. done.
Qed.

(** Copying a sector into the caller's buffer. *)
Lemma copy_sector_window m buffer l1 mid l3 bytes index :
  Z.of_nat (length l1) = index * 512 -> length mid = 512%nat -> length bytes = 512%nat -> 0 <= index ->
  (forall i, 0 <= i < 512 -> mem_get m (buffer + i) = zget 0 bytes i) ->
  copy_sector m buffer (l1 ++ mid ++ l3) index = l1 ++ bytes ++ l3.
Proof.
  intros H1 Hm Hb Hi Hg. unfold copy_sector.
  assert (for_range 0 512 (fun i output => zset output (index * 512 + i) (mem_get m (buffer + i))) (l1 ++ mid ++ l3)
    = l1 ++ (take (Z.to_nat 512) bytes ++ drop (Z.to_nat 512) mid) ++ l3) as ->.
  { apply (for_range_inv (fun i output => output = l1 ++ (take (Z.to_nat i) bytes ++ drop (Z.to_nat i) mid) ++ l3)); [lia|done|].
    intros i output Hr ->. unfold zset. rewrite insert_app_r_alt by lia. f_equal.
    replace (Z.to_nat (index * 512 + i) - length l1)%nat with (Z.to_nat i) by lia.
    assert (length (take (Z.to_nat i) bytes) = Z.to_nat i) as Ht by (rewrite length_take; lia).
    rewrite <- app_assoc, insert_app_r_alt by lia. rewrite Ht, Nat.sub_diag, Hg by lia.
    destruct (drop (Z.to_nat i) mid) as [|x rest] eqn:Ed; [apply (f_equal length) in Ed; rewrite length_drop in Ed; cbn in Ed; lia|].
    replace (Z.to_nat (i + 1)) with (Datatypes.S (Z.to_nat i)) by lia.
    rewrite (take_S_r _ _ (zget 0 bytes i)) by (apply zget_lookup; lia). rewrite <- !app_assoc. f_equal. cbn. f_equal.
    assert (rest = drop (Datatypes.S (Z.to_nat i)) mid) as -> by (rewrite <- Nat.add_1_r, <- drop_drop, Ed; done). done. }
  rewrite take_ge, drop_ge by lia. by rewrite app_nil_r.
Qed.

Section working_disk.
Context {S D : Type} `{PageAllocatorLaws S} `{Hardware D} `{Hba D}.
Context (port : Z) (patience : nat) (command_list fis_base : D -> Z) (engine : D -> option (Z * Z * nat)) (disk : Z -> list Z).
Context `{!AhciPort D port patience command_list fis_base engine disk}.
Hypothesis Hpatience : (patience <= Z.to_nat AHCI_TIMEOUT)%nat.
Implicit Types w : ahci_world S D.

(** The bytes the port of [w] posts, and with a transfer to [data] in progress. *)
Definition posted_by w : Z -> Prop := posted (command_list (aw_hw w)) (fis_base (aw_hw w)).
Definition moved_by w (data x : Z) : Prop := posted_by w x \/ transfer data x.

(** The world after an access: the same driver, memory changed at most in [area],
    and a device in the state [e]. *)
Record stepped w w' (area : Z -> Prop) (e : option (Z * Z * nat)) : Prop := {
  st_kept : kept w w';
  st_mem : changes_only area (aw_mem w) (aw_mem w');
  st_engine : engine (aw_hw w') = e;
  st_list : command_list (aw_hw w') = command_list (aw_hw w);
  st_fis : fis_base (aw_hw w') = fis_base (aw_hw w) }.

Lemma stepped_trans w w1 w2 area e1 e2 : stepped w w1 area e1 -> stepped w1 w2 area e2 -> stepped w w2 area e2.
Proof.
  intros [K1 M1 E1 L1 F1] [K2 M2 E2 L2 F2]. constructor; [by eapply ahci_kept_trans| |done|congruence|congruence].
  intros x Hx. rewrite M2, M1 by done. done.
Qed.

Lemma stepped_weaken w w' (area area' : Z -> Prop) e : (forall x, area x -> area' x) -> stepped w w' area e -> stepped w w' area' e.
Proof. intros Ha []. constructor; try done. intros x Hx. auto. Qed.

(** The port posts to the same bytes after a step. *)
Lemma stepped_posts w w' area e : stepped w w' area e -> posted_by w' = posted_by w.
Proof. intros [_ _ _ El Ef]. unfold posted_by. by rewrite El, Ef. Qed.

Lemma posts_moved w data x : posted_by w x -> moved_by w data x.
Proof. by left. Qed.

(** Two steps of an idle port. *)
Lemma idle_twice w w1 w2 e1 e2 : stepped w w1 (posted_by w) e1 -> stepped w1 w2 (posted_by w1) e2 -> stepped w w2 (posted_by w) e2.
Proof. intros S1 S2. rewrite (stepped_posts _ _ _ _ S1) in S2. eauto using stepped_trans. Qed.

(** A step with the transfer to [data] in progress, and one before or after it. *)
Lemma moved_twice w w1 w2 data e1 e2 :
  stepped w w1 (moved_by w data) e1 -> stepped w1 w2 (moved_by w1 data) e2 -> stepped w w2 (moved_by w data) e2.
Proof.
  intros S1 S2. eapply stepped_trans; [done|]. eapply stepped_weaken; [|done]. intros x. unfold moved_by.
  by rewrite (stepped_posts _ _ _ _ S1).
Qed.

Lemma moved_idle w w' data e : stepped w w' (posted_by w) e -> stepped w w' (moved_by w data) e.
Proof. apply stepped_weaken. intros x. apply posts_moved. Qed.

Lemma idle_read w offset :
  engine (aw_hw w) = None -> status_register offset ->
  exists v w', mmio_read w port offset = (v, w') /\ v & idle_mask offset = 0 /\ stepped w w' (posted_by w) None.
Proof.
  intros He Ho. pose proof (ap_idle (aw_hw w) (aw_mem w) offset He Ho) as Hi. unfold mmio_read.
  destruct (hba_read _ _ _) as [[v hw] m]. destruct Hi as (A & Hm & B & C & E). eexists _, _. split; [done|]. split; [done|]. done.
Qed.

(** The sector [lba] is in place at [data]. *)
Definition delivered w (lba data : Z) : Prop :=
  forall i, 0 <= i < 512 -> ~ posted_by w (data + i) -> mem_get (aw_mem w) (data + i) = zget 0 (disk lba) i.

Lemma delivered_idle w w' lba data e : stepped w w' (posted_by w) e -> delivered w lba data -> delivered w' lba data.
Proof. intros S1 Hd i Hi Hp. rewrite (stepped_posts _ _ _ _ S1) in Hp. rewrite (st_mem _ _ _ _ S1) by done. auto. Qed.

Lemma busy_read w offset lba data k :
  engine (aw_hw w) = Some (lba, data, k) -> offset = AHCI_PORT_IS \/ offset = AHCI_PORT_CI ->
  exists v w', mmio_read w port offset = (v, w') /\ (offset = AHCI_PORT_IS -> v & AHCI_PORT_IS_TFES = 0) /\
    match k with
    | O => v & idle_mask offset = 0 /\ stepped w w' (moved_by w data) None /\ delivered w' lba data
    | Datatypes.S k' => (offset = AHCI_PORT_CI -> v & 1 = 1) /\ stepped w w' (moved_by w data) (Some (lba, data, k'))
    end.
Proof.
  intros He Ho. assert (status_register offset) as Hs by (unfold status_register; tauto). unfold mmio_read. destruct k as [|k].
  - pose proof (ap_done (aw_hw w) (aw_mem w) offset lba data He Hs) as Hi. destruct (hba_read _ _ _) as [[v hw] m].
    destruct Hi as (A & Hm & Hg & B & C & E). eexists _, _. split; [done|]. split; [by intros ->|]. split; [done|]. split; [done|].
    intros i Hi. unfold posted_by. cbn. rewrite C, E. by apply Hg.
  - pose proof (ap_busy (aw_hw w) (aw_mem w) offset lba data k He Hs) as Hi. destruct (hba_read _ _ _) as [[v hw] m].
    destruct Hi as (A & B & Hm & C & E & F). eexists _, _. split; [done|]. split; [done|]. done.
Qed.

Lemma idle_wait w offset mask :
  engine (aw_hw w) = None -> status_register offset -> (forall v, v & idle_mask offset = 0 -> v & mask = 0) ->
  exists w', wait_clear w port offset mask = (true, w') /\ stepped w w' (posted_by w) None.
Proof.
  intros He Ho Hmask. unfold wait_clear. assert (exists n, Z.to_nat AHCI_TIMEOUT = Datatypes.S n) as [n ->].
  { exists (Z.to_nat (AHCI_TIMEOUT - 1)). unfold AHCI_TIMEOUT. lia. }
  cbn [wait_loop]. destruct (idle_read w offset He Ho) as (v & w' & -> & Hv & Hs). rewrite (Hmask v Hv). by exists w'.
Qed.

(** The task file of an idle port shows no error. *)
Lemma idle_no_error w :
  engine (aw_hw w) = None ->
  exists v w', mmio_read w port AHCI_PORT_TFD = (v, w') /\ v & 1 = 0 /\ stepped w w' (posted_by w) None.
Proof.
  intros He. destruct (idle_read w AHCI_PORT_TFD He) as (v & w' & E & Hv & Hs); [by left|]. exists v, w'. split_and!; try done.
  apply Z.bits_inj'. intros i Hi. pose proof (f_equal (fun z => Z.testbit z i) Hv) as Hb. cbv beta in Hb.
  change (idle_mask AHCI_PORT_TFD) with (Z.lor (Z.lor AHCI_PORT_TFD_BSY AHCI_PORT_TFD_DRQ) 1) in Hb.
  rewrite Z.bits_0, Z.land_spec, Z.lor_spec in Hb. rewrite Z.bits_0, Z.land_spec.
  apply andb_false_iff in Hb as [->|Hb]; [done|]. apply orb_false_iff in Hb as [_ ->]. apply andb_false_r.
Qed.

(** The last look at the task file of a command whose data are in place. *)
Lemma completion_checked w w1 lba data :
  stepped w w1 (moved_by w data) None -> delivered w1 lba data ->
  exists v w', mmio_read w1 port AHCI_PORT_TFD = (v, w') /\ v & 1 = 0
    /\ stepped w w' (moved_by w data) None /\ delivered w' lba data.
Proof.
  intros S1 Hd. destruct (idle_no_error w1 (st_engine _ _ _ _ S1)) as (v & w' & E & Hv & S2). exists v, w'. split_and!; try done.
  - eapply moved_twice; [done|]. by apply moved_idle.
  - by eapply delivered_idle.
Qed.

Lemma command_completes n : forall w lba data k,
  (k < n)%nat -> engine (aw_hw w) = Some (lba, data, k) ->
  exists w', completion_loop n w port = (true, w') /\ stepped w w' (moved_by w data) None /\ delivered w' lba data.
Proof.
  induction n as [|n IH]; intros w lba data k Hk He; [lia|]. cbn [completion_loop].
  destruct (busy_read w AHCI_PORT_IS lba data k He) as (v1 & w1 & -> & Hv1 & H1'); [by left|]. rewrite (Hv1 eq_refl).
  cbn [nz Z.eqb negb]. destruct k as [|k].
  - destruct H1' as (_ & S1 & D1). destruct (idle_read w1 AHCI_PORT_CI (st_engine _ _ _ _ S1)) as (v2 & w2 & -> & Hv2 & S2); [right; right; by right|].
    change (idle_mask AHCI_PORT_CI) with 1 in Hv2. rewrite Hv2. cbn [nz Z.eqb negb].
    destruct (completion_checked w w2 lba data) as (v3 & w3 & -> & -> & S3 & D3);
      [eauto using moved_twice, moved_idle|eauto using delivered_idle|]. by exists w3.
  - destruct H1' as [_ S1]. destruct (busy_read w1 AHCI_PORT_CI lba data k (st_engine _ _ _ _ S1)) as (v2 & w2 & -> & _ & H2'); [by right|].
    destruct k as [|k]; [destruct H2' as (Hv2 & S2 & D2)|destruct H2' as (Hv2 & S2)].
    + change (idle_mask AHCI_PORT_CI) with 1 in Hv2. rewrite Hv2. cbn [nz Z.eqb negb].
      destruct (completion_checked w w2 lba data) as (v3 & w3 & -> & -> & S3 & D3); [eauto using moved_twice|done|]. by exists w3.
    + rewrite (Hv2 eq_refl). cbn [nz Z.eqb negb].
      destruct (IH w2 lba data k ltac:(lia) (st_engine _ _ _ _ S2)) as (w3 & -> & S3 & D3). exists w3.
      eauto using moved_twice.
Qed.

Lemma idle_write w offset value :
  engine (aw_hw w) = None -> offset = AHCI_PORT_IS \/ offset = AHCI_PORT_SERR ->
  stepped w (mmio_write w port offset value) (posted_by w) None.
Proof.
  intros He Ho. pose proof (ap_clear (aw_hw w) (aw_mem w) offset (u32 value) He Ho) as Hi. unfold mmio_write.
  destruct (hba_write _ _ _ _) as [hw m]. destruct Hi as (Hm & A & B & C). done.
Qed.

(** The driver on line, its port idle and programmed with its command page. *)
Record disk_ready w : Prop := {
  dr_online : ac_online (aw_controller w) = true;
  dr_port : ac_port (aw_controller w) = port;
  dr_memory : ac_command_memory (aw_controller w) = ac_command_physical (aw_controller w);
  dr_pages : 0 < ac_command_physical (aw_controller w)
             /\ ac_command_physical (aw_controller w) + 2 * ARGUS_PAGE_SIZE <= UINT64_MAX;
  dr_data : ac_data_physical (aw_controller w) = ac_command_physical (aw_controller w) + ARGUS_PAGE_SIZE
            /\ ac_data_buffer (aw_controller w) = ac_data_physical (aw_controller w);
  dr_idle : engine (aw_hw w) = None;
  dr_list : command_list (aw_hw w) = ac_command_physical (aw_controller w);
  dr_fis : fis_base (aw_hw w) = ac_command_physical (aw_controller w) + AHCI_RECEIVED_FIS_OFFSET }.

Lemma stepped_ready w w' area : disk_ready w -> stepped w w' area None -> disk_ready w'.
Proof. intros [] [[Hc _ _ _] _ He Hl Hf]. constructor; rewrite ?Hc, ?He, ?Hl, ?Hf; done. Qed.

(** Up to the command: the port is found idle. *)
Lemma port_found_idle w :
  engine (aw_hw w) = None ->
  exists w1 v2 w2 v3 w3, wait_clear w port AHCI_PORT_TFD (Z.lor AHCI_PORT_TFD_BSY AHCI_PORT_TFD_DRQ) = (true, w1)
    /\ mmio_read w1 port AHCI_PORT_SACT = (v2, w2) /\ v2 & 1 = 0 /\ mmio_read w2 port AHCI_PORT_CI = (v3, w3) /\ v3 & 1 = 0
    /\ stepped w w3 (posted_by w) None.
Proof.
  intros Hi. destruct (idle_wait w AHCI_PORT_TFD (Z.lor AHCI_PORT_TFD_BSY AHCI_PORT_TFD_DRQ) Hi) as (w1 & E1 & S1); [by left| |].
  { intros v Hv. change (idle_mask AHCI_PORT_TFD) with (Z.lor (Z.lor AHCI_PORT_TFD_BSY AHCI_PORT_TFD_DRQ) 1) in Hv.
    rewrite Z.land_lor_distr_r in Hv. by apply Z.lor_eq_0_iff in Hv as [Hv _]. }
  destruct (idle_read w1 AHCI_PORT_SACT (st_engine _ _ _ _ S1)) as (v2 & w2 & E2 & Hv2 & S2); [right; right; by left|].
  destruct (idle_read w2 AHCI_PORT_CI (st_engine _ _ _ _ S2)) as (v3 & w3 & E3 & Hv3 & S3); [right; right; by right|].
  exists w1, v2, w2, v3, w3. split_and!; try done. eauto using idle_twice.
Qed.

(** The command survives what the port posts before it is issued. *)
Lemma command_survives c m lba m' :
  ac_command_memory c = ac_command_physical c -> 0 < ac_command_physical c ->
  ac_command_physical c + 2 * ARGUS_PAGE_SIZE <= UINT64_MAX ->
  0 <= ac_data_physical c <= UINT64_MAX -> 0 <= lba < 2 ^ 48 ->
  changes_only (posted (ac_command_physical c) (ac_command_physical c + AHCI_RECEIVED_FIS_OFFSET))
    (write_command c m ATA_READ_DMA_EXT lba 1) m' ->
  decode_command m' (ac_command_physical c) = Some (lba, ac_data_physical c).
Proof.
  intros Hm Hp Hmax Hd Hlba Hc. destruct (write_command_decoded c m lba Hm Hp Hmax Hd Hlba) as [Et Ed].
  rewrite <- Ed. apply decode_command_agrees. rewrite Et. intros x Hx. apply Hc.
  unfold posted, AHCI_RECEIVED_FIS_OFFSET, AHCI_COMMAND_TABLE_OFFSET in *. lia.
Qed.

(** The command page, and one sector of data. *)
Definition command_area w (x : Z) : Prop :=
  ac_command_physical (aw_controller w) <= x < ac_command_physical (aw_controller w) + ARGUS_PAGE_SIZE
  \/ transfer (ac_data_physical (aw_controller w)) x.

Lemma moved_in_area w x : disk_ready w -> moved_by w (ac_data_physical (aw_controller w)) x -> command_area w x.
Proof.
  intros Hr. unfold moved_by, posted_by, posted, command_area. rewrite (dr_list _ Hr), (dr_fis _ Hr).
  unfold AHCI_RECEIVED_FIS_OFFSET, ARGUS_PAGE_SIZE. intros [?|?]; [left; lia|by right].
Qed.

(** The driver fills in the command. *)
Lemma command_written w w3 lba :
  disk_ready w -> stepped w w3 (posted_by w) None ->
  stepped w (set_memory w3 (write_command (aw_controller w) (aw_mem w3) ATA_READ_DMA_EXT lba 1)) (command_area w) None.
Proof.
  intros Hr [[] Hm He Hl Hf]. constructor; try done. intros x Hx.
  change (aw_mem (set_memory w3 ?m)) with m.
  rewrite write_command_outside by (rewrite (dr_memory _ Hr); unfold command_area in Hx; lia). apply Hm. intros Hp. apply Hx.
  apply moved_in_area; [done|]. by left.
Qed.

Lemma issue_read_exact w lba :
  disk_ready w -> 0 <= lba < 2 ^ 48 ->
  exists w', issue_command w ATA_READ_DMA_EXT lba 1 = (true, w')
    /\ stepped w w' (command_area w) None /\ delivered w' lba (ac_data_physical (aw_controller w)).
Proof.
  intros Hr Hlba. pose proof Hr as [Hon Hp Hm [Hp1 Hp2] [Hd Hb] Hi Hl Hf]. unfold issue_command. cbv zeta. rewrite Hon, Hp. cbn [negb andb].
  destruct (port_found_idle w Hi) as (w1 & v2 & w2 & v3 & w3 & -> & -> & -> & -> & -> & T3). cbn [nz Z.eqb negb].
  pose proof (command_written w w3 lba Hr T3) as T4. set (w4 := set_memory w3 _) in *.
  pose proof (idle_write w4 AHCI_PORT_IS UINT32_MAX (st_engine _ _ _ _ T4) ltac:(by left)) as S5. set (w5 := mmio_write w4 _ _ _) in *.
  pose proof (idle_write w5 AHCI_PORT_SERR UINT32_MAX (st_engine _ _ _ _ S5) ltac:(by right)) as S6. set (w6 := mmio_write w5 _ _ _) in *.
  pose proof (idle_twice _ _ _ _ _ S5 S6) as T6. clear S5 S6.
  assert (posted_by w4 = posted_by w) as P4 by (by apply (stepped_posts _ _ _ _ T4)).
  pose proof (ap_issue (aw_hw w6) (aw_mem w6) lba (ac_data_physical (aw_controller w)) (st_engine _ _ _ _ T6)) as Hiss.
  specialize (Hiss ltac:(rewrite (st_list _ _ _ _ T6), (st_list _ _ _ _ T4), Hl; apply (command_survives _ (aw_mem w3)); try done;
    try (unfold ARGUS_PAGE_SIZE in *; lia); rewrite <- Hf, <- Hl at 1; fold (posted_by w); rewrite <- P4; apply T6)).
  unfold mmio_write at 1. change (u32 1) with 1.
  destruct (hba_write (aw_hw w6) (aw_mem w6) (port + AHCI_PORT_CI) 1) as [hw7 m7].
  destruct Hiss as (M7 & (k & Hk & He7) & Hl7 & Hf7). set (w7 := set_memory (set_hw w6 hw7) m7).
  destruct (command_completes (Z.to_nat AHCI_TIMEOUT) w7 lba (ac_data_physical (aw_controller w)) k) as (w8 & -> & S8 & D8); [lia|done|].
  exists w8. split; [done|]. split; [|done].
  assert (stepped w6 w7 (moved_by w6 (ac_data_physical (aw_controller w))) (Some (lba, ac_data_physical (aw_controller w), k))) as S7
    by done.
  pose proof (moved_twice _ _ _ _ _ _ (moved_idle _ _ _ _ T6) (moved_twice _ _ _ _ _ _ S7 S8)) as T8.
  eapply stepped_trans; [exact T4|]. eapply stepped_weaken; [|exact T8]. intros x. unfold moved_by. rewrite P4. by apply moved_in_area.
Qed.

(** Memory outside the driver's two pages. *)
Definition outside_pages w (x : Z) : Prop :=
  x < ac_command_physical (aw_controller w) \/ ac_command_physical (aw_controller w) + 2 * ARGUS_PAGE_SIZE <= x.

Lemma read_loop_exact n : forall w first index pre rest,
  disk_ready w -> 0 <= first -> 0 <= index -> first + index + Z.of_nat n <= 2 ^ 48 ->
  Z.of_nat (length pre) = index * 512 -> Z.of_nat n * 512 <= Z.of_nat (length rest) ->
  exists w', read_loop n w first index (pre ++ rest)
             = (ARGUS_BLOCK_OK, pre ++ concat (map disk (zrange (first + index) n)) ++ drop (n * 512) rest, w')
    /\ disk_ready w' /\ kept w w' /\ forall x, outside_pages w x -> mem_get (aw_mem w') x = mem_get (aw_mem w) x.
Proof.
  induction n as [|n IH]; intros w first index pre rest Hr Hf Hx Hmax Hpre Hrest; [by exists w|].
  cbn [read_loop]. rewrite u64_id by (unfold UINT64_MAX; lia).
  destruct (issue_read_exact w (first + index) Hr ltac:(lia)) as (w1 & -> & S1 & D1). cbn [negb].
  pose proof (stepped_ready _ _ _ Hr S1) as Hr1. pose proof (ap_sector (first + index)) as Hlen.
  pose proof Hr as [_ _ Hm [Hp1 Hp2] [Hd Hb] _ _ _]. rewrite (kp_controller _ _ (st_kept _ _ _ _ S1)), Hb.
  assert (exists mid rest', rest = mid ++ rest' /\ length mid = 512%nat) as (mid & rest' & -> & Hmid).
  { exists (take 512 rest), (drop 512 rest). rewrite take_drop, length_take. split; [done|lia]. }
  rewrite length_app in Hrest.
  assert (forall i, 0 <= i < 512 -> mem_get (aw_mem w1) (ac_data_physical (aw_controller w) + i) = zget 0 (disk (first + index)) i) as Hg.
  { intros i Hi. apply D1; [done|]. rewrite (stepped_posts _ _ _ _ S1). unfold posted_by, posted. rewrite (dr_list _ Hr), (dr_fis _ Hr), Hd.
    unfold AHCI_RECEIVED_FIS_OFFSET, ARGUS_PAGE_SIZE. lia. }
  rewrite (copy_sector_window _ _ pre mid rest' (disk (first + index)) index Hpre Hmid Hlen Hx Hg).
  destruct (IH w1 first (index + 1) (pre ++ disk (first + index)) rest') as (w2 & E2 & Hr2 & K2 & O2); try done; try lia.
  { rewrite length_app. lia. }
  rewrite app_assoc, E2. exists w2. split_and!; try done.
  - f_equal. f_equal. cbn [zrange map concat]. rewrite <- !app_assoc. f_equal. f_equal. rewrite Z.add_assoc. f_equal.
    replace (Datatypes.S n * 512)%nat with (512 + n * 512)%nat by lia. rewrite <- drop_drop, drop_app_length' by done. done.
  - eapply ahci_kept_trans; [apply S1|done].
  - intros x Ho. rewrite O2 by (unfold outside_pages in *; rewrite (kp_controller _ _ (st_kept _ _ _ _ S1)); done).
    apply S1. unfold outside_pages, command_area, transfer, ARGUS_PAGE_SIZE in *. lia.
Qed.

(** C35: On a disk that completes its commands within the driver's time limit, every
    read within the device succeeds: the caller's buffer holds the requested
    sectors in order followed by what it held before, the controller is ready
    for the next command, and no byte of memory outside the driver's two pages
    has changed.  The port may at every register access post received FISes at
    the address it was given and the byte count in the command header, and move
    any part of the data while the command runs. *)
Theorem ahci_read_exact w first count output capacity :
  disk_ready w -> ac_sector_count (aw_controller w) <= 2 ^ 48 ->
  0 < count <= AHCI_MAX_READ_SECTORS -> 0 <= first -> first + count <= ac_sector_count (aw_controller w) ->
  count * 512 <= capacity -> count * 512 <= Z.of_nat (length output) ->
  exists w', ahci_read w first count (Some output) capacity
      = (ARGUS_BLOCK_OK,
         Some (concat (map disk (zrange first (Z.to_nat count))) ++ drop (Z.to_nat (count * 512)) output), w')
    /\ disk_ready w' /\ aw_pa w' = aw_pa w
    /\ forall x, outside_pages w x -> mem_get (aw_mem w') x = mem_get (aw_mem w) x.
Proof.
  intros Hr Hs Hc Hf Hrange Hcap Hlen. unfold ahci_read, AHCI_MAX_READ_SECTORS in *. cbv zeta. rewrite (dr_online _ Hr). cbn [negb].
  unfold nz. destruct (Z.eqb_spec count 0); [lia|]. cbn [negb orb]. rewrite (proj2 (Z.ltb_ge 128 count)) by lia.
  rewrite (proj2 (Z.leb_gt _ first)), (proj2 (Z.ltb_ge _ count)) by lia. cbn [orb].
  rewrite u64_id, (proj2 (Z.ltb_ge capacity _)) by (unfold UINT64_MAX; lia).
  destruct (read_loop_exact (Z.to_nat count) w first 0 [] output Hr Hf) as (w' & E & Hr' & K & O); try (cbn; lia).
  change ([] ++ output) with output in E. rewrite E. rewrite Z.add_0_r. exists w'.
  replace (Z.to_nat (count * 512)) with (Z.to_nat count * 512)%nat by lia. split_and!; try done. apply K.
Qed.
End working_disk.

(** ** A disk

    Sector [n] holds the byte [n mod 256]; a command lasts three register reads,
    and at its end the drive posts the device-to-host FIS and the byte count. *)
Record drive := mk_drive { dv_list : Z; dv_fis : Z; dv_engine : option (Z * Z * nat) }.
Definition drive_disk (lba : Z) : list Z := replicate 512 (lba mod 256).
Definition drive_port : Z := 0x40000100.

Definition drive_busy (offset : Z) : Z := if offset =? AHCI_PORT_CI then 1 else 0.
Definition d2h_fis : list Z := [0x34; 0x40; 0x50; 0; 0; 0; 0; 0x40; 0; 0; 0; 0; 1; 0; 0; 0; 0; 0; 0; 0].
Definition drive_post (d : drive) (m : mem) : mem :=
  store_bytes (store_bytes m (dv_list d + 4) [0; 2; 0; 0]) (dv_fis d + 64) d2h_fis.

#[export] Instance drive_hba : Hba drive := {|
  hba_read d m a :=
    match dv_engine d with
    | None => (0, d, m)
    | Some (lba, data, S k) => (drive_busy (a - drive_port), mk_drive (dv_list d) (dv_fis d) (Some (lba, data, k)), m)
    | Some (lba, data, O) => (0, mk_drive (dv_list d) (dv_fis d) None, drive_post d (store_bytes m data (drive_disk lba)))
    end;
  hba_write d m a v :=
    if a =? drive_port + AHCI_PORT_CI then
      match decode_command m (dv_list d) with
      | Some (lba, data) => (mk_drive (dv_list d) (dv_fis d) (Some (lba, data, 3%nat)), m)
      | None => (d, m)
      end
    else (d, m) |}.

#[export] Instance drive_hardware : Hardware drive := {|
  hw_in8 d _ := (0, d);
  hw_out8 d _ _ := d;
  hw_in32 d _ := (0, d);
  hw_out16 d _ _ := d;
  hw_out32 d _ _ := d;
  hw_rdmsr d _ := (0, d);
  hw_wrmsr d _ _ := d;
  hw_load32 d _ := (0, d);
  hw_store32 d _ _ := d |}.

Lemma store_bytes_outside m a bytes x : ~ (a <= x < a + Z.of_nat (length bytes)) -> mem_get (store_bytes m a bytes) x = mem_get m x.
Proof. intros Hx. rewrite store_bytes_get. case_if; [b2p; lia|done]. Qed.

Lemma drive_post_only d m : changes_only (posted (dv_list d) (dv_fis d)) m (drive_post d m).
Proof. intros x Hx. unfold drive_post, posted in *. rewrite !store_bytes_outside by (cbn; lia). done. Qed.

Lemma drive_disk_length lba : length (drive_disk lba) = 512%nat.
Proof. apply length_replicate. Qed.

Lemma drive_sector m data lba i : 0 <= i < 512 -> mem_get (store_bytes m data (drive_disk lba)) (data + i) = zget 0 (drive_disk lba) i.
Proof.
  intros Hi. rewrite store_bytes_get, drive_disk_length. destruct (_ && _) eqn:Ein; [|apply andb_false_iff in Ein as [Ein|Ein]; b2p; lia]. replace (data + i - data) with i by lia.
  apply u8_id. apply (zget_Forall (fun b => 0 <= b < 256)); [|rewrite drive_disk_length; lia].
  apply Forall_replicate, Z.mod_pos_bound. lia.
Qed.

#[export] Instance drive_ahci : AhciPort drive drive_port 4 dv_list dv_fis dv_engine drive_disk.
Proof.
  constructor.
  - intros hw m offset E _. cbn. rewrite E. done.
  - intros hw m offset lba data k E _. cbn. rewrite E. replace (drive_port + offset - drive_port) with offset by lia.
    split_and!; try done; by intros ->.
  - intros hw m offset lba data E _. cbn [hba_read drive_hba]. rewrite E. split_and!; try done.
    + intros x Hx. rewrite drive_post_only by tauto. apply store_bytes_outside. rewrite drive_disk_length. unfold transfer in Hx. lia.
    + intros i Hi Hp. rewrite drive_post_only by done. by apply drive_sector.
  - intros hw m offset v E [-> | ->]; done.
  - intros hw m lba data E Hd. cbn [hba_write drive_hba]. rewrite Z.eqb_refl, Hd. split_and!; try done. exists 3%nat. split; [lia|done].
  - apply drive_disk_length.
Defined.

Definition sample_machine : machine pmm_state := mk_machine sample_pmm ∅ 0 0 true true.
Definition sample_controller (online : bool) : ahci_state_t :=
  mk_ahci 0x40000000 drive_port 0x150000 0x151000 0x150000 0x151000 1000 0 true online.
Definition sample_drive (online : bool) : ahci_world pmm_state drive :=
  mk_aworld (sample_controller online) ahci_info0 (Some 1000) sample_machine (mk_drive 0x150000 0x150400 None).

Lemma ahci_read_exact_witness :
  exists w', ahci_read (sample_drive true) 7 2 (Some (replicate 1100 9)) 1100
    = (ARGUS_BLOCK_OK, Some (concat (map drive_disk (zrange 7 2)) ++ drop 1024 (replicate 1100 9)), w').
Proof.
  destruct (ahci_read_exact drive_port 4 dv_list dv_fis dv_engine drive_disk ltac:(unfold AHCI_TIMEOUT; lia) (sample_drive true) 7 2
    (replicate 1100 9) 1100) as (w' & E & _).
  - constructor; cbn; try done.
  - cbn. lia.
  - unfold AHCI_MAX_READ_SECTORS. lia.
  - lia.
  - cbn. lia.
  - lia.
  - rewrite length_replicate. lia.
  - exists w'. exact E.
Defined.

(** A drive that answers every command with a task file error. *)
Inductive bad_drive := mk_bad_drive.
#[export] Instance bad_drive_hba : Hba bad_drive := {|
  hba_read d m a := (if a =? drive_port + AHCI_PORT_IS then AHCI_PORT_IS_TFES else 0, d, m);
  hba_write d m _ _ := (d, m) |}.
#[export] Instance bad_drive_hardware : Hardware bad_drive := {|
  hw_in8 d _ := (0, d);
  hw_out8 d _ _ := d;
  hw_in32 d _ := (0, d);
  hw_out16 d _ _ := d;
  hw_out32 d _ _ := d;
  hw_rdmsr d _ := (0, d);
  hw_wrmsr d _ _ := d;
  hw_load32 d _ := (0, d);
  hw_store32 d _ _ := d |}.

Definition sample_bad_drive : ahci_world pmm_state bad_drive :=
  mk_aworld (sample_controller true) ahci_info0 (Some 1000) sample_machine mk_bad_drive.
Definition failed_read : Z * option (list Z) * ahci_world pmm_state bad_drive :=
  ahci_read sample_bad_drive 7 1 (Some (replicate 512 9)) 512.

Lemma ahci_read_failure_is_final_witness :
  ahci_block_device sample_bad_drive <> None /\ ahci_block_device failed_read.2 = None.
Proof.
  destruct (ahci_read_failure_is_final sample_bad_drive 7 1 (Some (replicate 512 9)) 512 failed_read.1.2 failed_read.2) as (_ & H & _).
  - fold failed_read. assert (failed_read.1.1 = ARGUS_BLOCK_IO_ERROR) as <- by (vm_compute; reflexivity).
    generalize failed_read. intros [[status out] w]. reflexivity.
  - split; [discriminate|exact H].
Defined.

Lemma ahci_init_pages_witness :
  let '(ok, w') := ahci_init (sample_drive false) (Some (mk_pci_device 0 31 2 1 6 1 0 0x8086 0x2922))
                     (Some (mk_paging 0x1000 0x100000000 0 0 true)) in
  pa_ok (aw_pa w') /\ if ok then attached (sample_drive false) w' else unattached (sample_drive false) w'.
Proof.
  exact (ahci_init_pages (sample_drive false) (Some (mk_pci_device 0 31 2 1 6 1 0 0x8086 0x2922))
           (Some (mk_paging 0x1000 0x100000000 0 0 true)) sample_pmm_ok).
Defined.
