(* ===== verification/Desktop.v ===== *)
(** * The desktop (src/desktop.c)

    Seven application windows and a panel on the compositor of Compositor.v, the
    pointer drawn over them, and the rules that say which window is shown.  The
    statics of desktop.c are [desktop_t], in one record per group; [world] adds the
    compositor, the console with its display and the rest of the kernel as the
    desktop sees it, the class [Services].  Drawing routines map displays to
    displays; an application is its index in [apps]. *)

From Stdlib Require Import String.
From stdpp Require Import base list gmap numbers.
From Stdlib Require Import ZArith Lia.
From S2P Require Import Prelude Memory Heap Raster Gop Surface Compositor Process Ps2 Files Console.

Open Scope Z_scope.

Definition POINTER_WIDTH : Z := 12.
Definition POINTER_HEIGHT : Z := 16.
Definition APP_COUNT : Z := 7.
Definition APP_CONSOLE : Z := 0.
Definition APP_SYSTEM : Z := 1.
Definition APP_FILES : Z := 2.
Definition APP_APPLICATIONS : Z := 3.
Definition APP_SNAKE : Z := 4.
Definition APP_CALCULATOR : Z := 5.
Definition APP_NOTES : Z := 6.
Definition APP_NONE : Z := UINT32_MAX.
Definition LAUNCHER_ENTRY_COUNT : Z := 6.

Record desktop_colors_t := mk_colors {
  col_field : Z; col_chrome : Z; col_highlight : Z; col_shadow : Z; col_terminal : Z;
  col_terminal_text : Z; col_title : Z; col_ink : Z; col_game_field : Z; col_game_ink : Z }.

(** The constant fields of [apps]: title, task and user application id. *)
Definition apps : list (list Z * list Z * Z) :=
  [(text "KERNEL CONSOLE", text "CONSOLE", 0);
   (text "SYSTEM", text "SYSTEM", 0);
   (text "FILES", text "FILES", 0);
   (text "APPLICATIONS", text "APPS", 0);
   (text "SNAKE", text "SNAKE", ARGUS_APP_ID_SNAKE);
   (text "CALCULATOR", text "CALC", ARGUS_APP_ID_CALCULATOR);
   (text "NOTES", text "NOTES", ARGUS_APP_ID_NOTES)].
Definition app_title (i : Z) : list Z := (zget ([], [], 0) apps i).1.1.
Definition app_task (i : Z) : list Z := (zget ([], [], 0) apps i).1.2.
Definition user_app_id (i : Z) : Z := (zget ([], [], 0) apps i).2.

Definition pointer_outer : list Z :=
  [0x800; 0xC00; 0xE00; 0xF00; 0xF80; 0xFC0; 0xFE0; 0xFF0; 0xFF8; 0xFC0; 0xDC0; 0x8E0; 0x060; 0x070; 0x030; 0x000].
Definition pointer_inner : list Z :=
  [0x000; 0x400; 0x600; 0x700; 0x780; 0x7C0; 0x7E0; 0x7F0; 0x7C0; 0x780; 0x4C0; 0x040; 0x020; 0x020; 0x000; 0x000].

Definition launcher_targets : list Z := [APP_CONSOLE; APP_SYSTEM; APP_FILES; APP_SNAKE; APP_CALCULATOR; APP_NOTES].

(** What [desktop_init] fixes: [colors], [scale], the heights and the
    [compositor_id] of every application. *)
Record layout_t := mk_layout {
  colors : desktop_colors_t; scale : Z; panel_height : Z; title_height : Z; compositor_ids : list Z }.
(** Where the panel's two buttons are. *)
Record tasks_t := mk_tasks {
  launcher_task_x : Z; launcher_task_width : Z; active_task_x : Z; active_task_width : Z }.
Record drag_t := mk_drag {
  dragging : bool; dragged_app : Z; drag_offset_x : Z; drag_offset_y : Z; drag_moves : Z }.
Record pointer_t := mk_pointer {
  pointer_enabled : bool; pointer_visible : bool; pointer_initialized : bool;
  pointer_x : Z; pointer_y : Z; pointer_buttons : Z;
  pointer_saved : list Z; pointer_saved_width : Z; pointer_saved_height : Z }.
Record desktop_t := mk_desktop {
  dk_layout : layout_t; dk_tasks : tasks_t; dk_drag : drag_t; dk_pointer : pointer_t;
  active_app : Z; desktop_online : bool; system_tick_bucket : Z; app_sequences : list Z; launcher_selection : Z }.

Definition set_layout (k : desktop_t) l := mk_desktop l (dk_tasks k) (dk_drag k) (dk_pointer k)
  (active_app k) (desktop_online k) (system_tick_bucket k) (app_sequences k) (launcher_selection k).
Definition set_tasks (k : desktop_t) t := mk_desktop (dk_layout k) t (dk_drag k) (dk_pointer k)
  (active_app k) (desktop_online k) (system_tick_bucket k) (app_sequences k) (launcher_selection k).
Definition set_drag (k : desktop_t) g := mk_desktop (dk_layout k) (dk_tasks k) g (dk_pointer k)
  (active_app k) (desktop_online k) (system_tick_bucket k) (app_sequences k) (launcher_selection k).
Definition set_pointer (k : desktop_t) p := mk_desktop (dk_layout k) (dk_tasks k) (dk_drag k) p
  (active_app k) (desktop_online k) (system_tick_bucket k) (app_sequences k) (launcher_selection k).
Definition set_active_app (k : desktop_t) a := mk_desktop (dk_layout k) (dk_tasks k) (dk_drag k) (dk_pointer k)
  a (desktop_online k) (system_tick_bucket k) (app_sequences k) (launcher_selection k).
Definition set_online (k : desktop_t) o := mk_desktop (dk_layout k) (dk_tasks k) (dk_drag k) (dk_pointer k)
  (active_app k) o (system_tick_bucket k) (app_sequences k) (launcher_selection k).
Definition set_bucket (k : desktop_t) b := mk_desktop (dk_layout k) (dk_tasks k) (dk_drag k) (dk_pointer k)
  (active_app k) (desktop_online k) b (app_sequences k) (launcher_selection k).
Definition set_sequence (k : desktop_t) id v := mk_desktop (dk_layout k) (dk_tasks k) (dk_drag k) (dk_pointer k)
  (active_app k) (desktop_online k) (system_tick_bucket k) (zset (app_sequences k) id v) (launcher_selection k).
Definition set_selection (k : desktop_t) n := mk_desktop (dk_layout k) (dk_tasks k) (dk_drag k) (dk_pointer k)
  (active_app k) (desktop_online k) (system_tick_bucket k) (app_sequences k) n.
Definition set_dragging (k : desktop_t) (b : bool) := set_drag k
  (mk_drag b (dragged_app (dk_drag k)) (drag_offset_x (dk_drag k)) (drag_offset_y (dk_drag k)) (drag_moves (dk_drag k))).
Definition set_ids (k : desktop_t) ids := set_layout k (mk_layout (colors (dk_layout k)) (scale (dk_layout k))
  (panel_height (dk_layout k)) (title_height (dk_layout k)) ids).

(** What the desktop asks of the rest of the kernel.  [svc_byte] reads the memory
    [process_app_surface]'s pointer is into; the two file queries give the path as
    a C string.  Queries leave the kernel alone; the [process_app] operations that
    change it return its new state. *)
Class Services (K : Type) := {
  svc_free_pages : K -> Z;
  svc_timer_ticks : K -> Z;
  svc_has_keyboard : K -> bool;
  svc_keyboard_uses_irq : K -> bool;
  svc_has_pointer : K -> bool;
  svc_pointer_uses_irq : K -> bool;
  svc_boundaries_online : K -> bool;
  svc_transport_state_name : K -> list Z;
  svc_clearnet_allowed : K -> bool;
  svc_quarantined : K -> bool;
  svc_ramfs_file_count : K -> Z;
  svc_ramfs_entry : K -> Z -> option (list Z * Z);
  svc_fat32_entry : K -> Z -> Z * list Z * Z * Z;
  svc_app_surface : K -> Z -> option (Z * Z);
  svc_app_state : K -> Z -> option argus_process_state_t;
  svc_app_online : K -> Z -> bool;
  svc_app_start : K -> Z -> bool * K;
  svc_app_stop : K -> Z -> bool * K;
  svc_app_set_active : K -> Z -> K;
  svc_app_input : K -> Z -> Z -> bool * K;
  svc_byte : K -> Z -> Z }.

Fixpoint text_length (t : list Z) : Z :=
  match t with
  | [] => 0
  | c :: t' => if c =? 0 then 0 else u32 (text_length t' + 1)
  end.
Definition text_width (t : list Z) (text_scale : Z) : Z := u32 (u32 (text_length t * 6) * text_scale).

Definition load_colors (g : argus_gop_t) : desktop_colors_t :=
  mk_colors (gop_rgb g 0x4c 0x51 0x48) (gop_rgb g 0xb8 0xb4 0xa5) (gop_rgb g 0xd3 0xd0 0xc2) (gop_rgb g 0x6e 0x6c 0x64)
    (gop_rgb g 0x17 0x1a 0x17) (gop_rgb g 0xc9 0xc8 0xb5) (gop_rgb g 0x4e 0x58 0x69) (gop_rgb g 0x24 0x27 0x24)
    (gop_rgb g 0x91 0x94 0x78) (gop_rgb g 0x2b 0x2e 0x27).

Definition content_x : Z := 7.

Section Render.
Context {K : Type} `{Services K}.
(** The addresses of [apps[i].surface] and of [panel_surface], and what a read past
    the end of [palette] finds on the stack. *)
Context (app_surface : Z -> Z) (panel_surface : Z) (stray : Z -> Z).

Section Theme.
Context (l : layout_t).

Definition content_y : Z := u32 (title_height l + 8).
Definition title_button_size : Z := u32 (title_height l - 6).
Definition close_button_x (d : display) (app_index : Z) : Z :=
  u32 (u32 (surface_width d (app_surface app_index) - 6) - title_button_size).
Definition minimize_button_x (d : display) (app_index : Z) : Z :=
  u32 (u32 (close_button_x d app_index - 3) - title_button_size).
Definition content_width (d : display) (app_index : Z) : Z := u32 (surface_width d (app_surface app_index) - 14).
Definition content_height (d : display) (app_index : Z) : Z :=
  u32 (u32 (surface_height d (app_surface app_index) - title_height l) - 15).

Definition draw_bevel_edges (surface x y width height : Z) (raised : bool) (d : display) : display :=
  if (width <? 2) || (height <? 2) then d
  else
    let top_left := if raised then col_highlight (colors l) else col_shadow (colors l) in
    let bottom_right := if raised then col_shadow (colors l) else col_highlight (colors l) in
    let d := surface_fill_rect d surface x y width 1 top_left in
    let d := surface_fill_rect d surface x y 1 height top_left in
    let d := surface_fill_rect d surface x (u32 (u32 (y + height) - 1)) width 1 bottom_right in
    surface_fill_rect d surface (u32 (u32 (x + width) - 1)) y 1 height bottom_right.

Definition draw_bevel (surface x y width height fill : Z) (raised : bool) (d : display) : display :=
  draw_bevel_edges surface x y width height raised (surface_fill_rect d surface x y width height fill).

Definition draw_title_button (surface x : Z) (label : list Z) (d : display) : display :=
  let size := title_button_size in
  let glyph_width := u32 (5 * scale l) in
  let glyph_height := u32 (7 * scale l) in
  let d := draw_bevel surface x 6 size size (col_chrome (colors l)) true d in
  surface_draw_text d surface label (u32 (x + u32 (size - glyph_width) / 2)) (u32 (6 + u32 (size - glyph_height) / 2))
    (scale l) (col_ink (colors l)).

Definition render_chrome (active_app app_index : Z) (d : display) : display :=
  let surface := app_surface app_index in
  let width := surface_width d surface in
  let height := surface_height d surface in
  let chrome := col_chrome (colors l) in
  let outer_content_y := u32 (title_height l + 5) in
  let outer_content_height := u32 (u32 (height - title_height l) - 9) in
  let d := surface_fill_rect d surface 0 0 width outer_content_y chrome in
  let d := surface_fill_rect d surface 0 outer_content_y 4 outer_content_height chrome in
  let d := surface_fill_rect d surface (u32 (width - 4)) outer_content_y 4 outer_content_height chrome in
  let d := surface_fill_rect d surface 0 (u32 (height - 4)) width 4 chrome in
  let d := draw_bevel_edges surface 0 0 width height true d in
  let d := draw_bevel_edges surface 4 outer_content_y (u32 (width - 8)) outer_content_height false d in
  let d := surface_fill_rect d surface 3 3 (u32 (width - 6)) (title_height l)
             (if app_index =? active_app then col_title (colors l) else col_shadow (colors l)) in
  let d := surface_draw_text d surface (app_title app_index) 7 5 (scale l) (col_terminal_text (colors l)) in
  let d := draw_title_button surface (minimize_button_x d app_index) (text "_") d in
  draw_title_button surface (close_button_x d app_index) (text "X") d.

(** The digits of [value], least significant first; a 64-bit value has at most
    twenty. *)
Fixpoint decimal_digits (fuel : nat) (value : Z) : list Z :=
  match fuel with
  | O => []
  | S fuel' => if nz value then (48 + value mod 10) :: decimal_digits fuel' (value / 10) else []
  end.
Definition decimal_text (value : Z) : list Z :=
  if negb (nz value) then [48] else rev (decimal_digits 20 value).

Definition draw_decimal (surface value x y color : Z) (d : display) : Z * display :=
  let output := decimal_text value in
  (Z.of_nat (length output), surface_draw_text d surface output x y (scale l) color).

(** [x + n * 6u * scale] *)
Definition after_columns (x n : Z) : Z := u32 (x + u32 (u32 (n * 6) * scale l)).
Definition draw_label (surface : Z) (t : list Z) (x y : Z) (d : display) : display :=
  surface_draw_text d surface t x y (scale l) (col_terminal_text (colors l)).

Definition draw_pair (surface : Z) (label value : list Z) (y : Z) (d : display) : display :=
  let x := u32 (content_x + 8) in
  let value_x := after_columns x 12 in
  draw_label surface value value_x y (draw_label surface label x y d).

(** [unit] is [None] for a null pointer. *)
Definition draw_pair_number (surface : Z) (label : list Z) (value : Z) (unit : option (list Z)) (y : Z) (d : display) : display :=
  let x := u32 (content_x + 8) in
  let value_x := after_columns x 12 in
  let d := draw_label surface label x y d in
  let '(digits, d) := draw_decimal surface value value_x y (col_terminal_text (colors l)) d in
  match unit with
  | Some u => draw_label surface u (after_columns value_x (u32 (digits + 1))) y d
  | None => d
  end.

Definition keyboard_state (k : K) : list Z :=
  if negb (svc_has_keyboard k) then text "OFF" else if svc_keyboard_uses_irq k then text "IRQ" else text "POLL".
Definition pointer_state (k : K) : list Z :=
  if negb (svc_has_pointer k) then text "OFF" else if svc_pointer_uses_irq k then text "IRQ" else text "POLL".

(** [row += line] *)
Definition next_row (row : Z) : Z := u32 (row + u32 (9 * scale l)).

(** The rows of the system window: a label with a text, or with a number and its
    unit, read when the row is drawn. *)
Definition row_value : Type := display -> list Z + Z * option (list Z).
Fixpoint draw_rows (surface : Z) (rows : list (list Z * row_value)) (row : Z) (d : display) : display :=
  match rows with
  | [] => d
  | (label, value) :: rows' =>
      let d := match value d with
               | inl t => draw_pair surface label t row d
               | inr (n, unit) => draw_pair_number surface label n unit row d
               end in
      draw_rows surface rows' (next_row row) d
  end.
Definition system_rows (k : K) : list (list Z * row_value) :=
  [(text "FREE PAGES", fun _ => inr (svc_free_pages k, None));
   (text "HEAP USED", fun d => inr (heap_used_bytes (dp_heap d) / 1024, Some (text "K")));
   (text "HEAP FREE", fun d => inr (heap_free_bytes (dp_heap d) / 1024, Some (text "K")));
   (text "APIC TICKS", fun _ => inr (svc_timer_ticks k, None));
   (text "KEYBOARD", fun _ => inl (keyboard_state k));
   (text "POINTER", fun _ => inl (pointer_state k));
   (text "SECURITY", fun _ => inl (if svc_boundaries_online k then text "DEFAULT DENY" else text "INVALID"));
   (text "ANON NET", fun _ => inl (svc_transport_state_name k));
   (text "CLEARNET", fun _ => inl (if svc_clearnet_allowed k then text "ALLOWED" else text "DENIED"));
   (text "NIC", fun _ => inl (if svc_quarantined k then text "QUARANTINED" else text "OFFLINE"))].

(** The terminal-coloured background of an application's content. *)
Definition clear_content (app_index : Z) (d : display) : display :=
  surface_fill_rect d (app_surface app_index) content_x content_y (content_width d app_index) (content_height d app_index)
    (col_terminal (colors l)).

Definition render_system (k : K) (d : display) : display :=
  let d := clear_content APP_SYSTEM d in
  draw_rows (app_surface APP_SYSTEM) (system_rows k) (u32 (content_y + 8)) d.

(** [kind] is [None] for a null pointer. *)
Definition draw_file_entry (surface : Z) (path : list Z) (size : Z) (kind : option (list Z)) (y : Z) (d : display) : display :=
  let x := u32 (content_x + 8) in
  let value_x := after_columns x 20 in
  let d := draw_label surface path x y d in
  match kind with
  | Some t => draw_label surface t value_x y d
  | None =>
      let '(digits, d) := draw_decimal surface size value_x y (col_terminal_text (colors l)) d in
      draw_label surface (text "B") (after_columns value_x (u32 (digits + 1))) y d
  end.

(** The loop over the first [count] files of the RAM file system. *)
Definition draw_ramfs (k : K) (surface count : Z) (st : Z * display) : Z * display :=
  for_range 0 count (fun index '(row, d) =>
    match svc_ramfs_entry k index with
    | None => (row, d)
    | Some (path, size) => (next_row row, draw_file_entry surface path size None row d)
    end) st.

(** The loop over at most [n] directory entries from [index]; the result counts
    the rows drawn. *)
Fixpoint draw_fat32 (n : nat) (k : K) (surface index row entries : Z) (d : display) : Z * Z * display :=
  match n with
  | O => (row, entries, d)
  | S n' =>
      let '(status, path, size, attributes) := svc_fat32_entry k index in
      if status =? ARGUS_FAT32_NOT_FOUND then (row, entries, d)
      else if status !=? ARGUS_FAT32_OK then draw_fat32 n' k surface (index + 1) row entries d
      else
        draw_fat32 n' k surface (index + 1) (next_row row) (entries + 1)
          (draw_file_entry surface path size (if nz (attributes & 0x10) then Some (text "DIR") else None) row d)
  end.

Definition render_files (k : K) (d : display) : display :=
  let surface := app_surface APP_FILES in
  let x := u32 (content_x + 8) in
  let line := u32 (9 * scale l) in
  let d := clear_content APP_FILES d in
  let row := u32 (content_y + 8) in
  let d := draw_label surface (text "RAMFS") x row d in
  let row := next_row row in
  let ramfs_count := if 5 <? svc_ramfs_file_count k then 5 else svc_ramfs_file_count k in
  let '(row, d) := draw_ramfs k surface ramfs_count (row, d) in
  let '(row, d) := if negb (nz ramfs_count) then (next_row row, draw_label surface (text "EMPTY") x row d) else (row, d) in
  let row := u32 (row + line / 2) in
  let d := draw_label surface (text "FAT32") x row d in
  let row := next_row row in
  let '(row, fat_entries, d) := draw_fat32 5 k surface 0 row 0 d in
  if negb (nz fat_entries) then draw_label surface (text "UNAVAILABLE") x row d else d.

(** [palette[index]], past the end too. *)
Definition app_palette : list Z :=
  let c := colors l in
  [col_terminal c; col_terminal_text c; col_chrome c; col_title c; col_game_field c; col_game_ink c; col_field c; col_highlight c].
Definition palette_read (index : Z) : Z :=
  if index <? ARGUS_APP_PALETTE_COUNT then zget 0 app_palette index else stray index.

(** The copy of the application's pixels, from [source], into the content. *)
Definition copy_app_pixels (k : K) (source : Z) (s : argus_surface_t) (m : mem) : mem :=
  for_range 0 ARGUS_APP_SURFACE_HEIGHT (fun row m =>
    for_range 0 ARGUS_APP_SURFACE_WIDTH (fun column m =>
      store32 m (pixel_address (sf_pixels s) (sf_stride s) (content_x + column) (u32 (content_y + row)))
        (palette_read (svc_byte k (source + row * ARGUS_APP_SURFACE_STRIDE + column)))) m) m.

Definition app_message (k : K) (app_id : Z) : list Z :=
  match svc_app_state k app_id with
  | Some ARGUS_PROCESS_UNUSED => text "STOPPED"
  | Some ARGUS_PROCESS_FAULTED => text "FAULTED"
  | Some ARGUS_PROCESS_EXITED => text "EXITED"
  | _ => text "UNAVAILABLE"
  end.

(** The result is the new [app_sequences] entry and the display. *)
Definition render_user_app (k : K) (app_index : Z) (d : display) : Z * display :=
  let surface := app_surface app_index in
  let app_id := user_app_id app_index in
  match svc_app_surface k app_id with
  | None =>
      let d := clear_content app_index d in
      let d := draw_label surface (app_message k app_id) (u32 (content_x + 8)) (u32 (content_y + 8)) d in
      (0, surface_mark_dirty d surface content_x content_y (content_width d app_index) (content_height d app_index))
  | Some (source, sequence) =>
      let d := match surface_at d surface with
               | Some s => put_mem d (copy_app_pixels k source s (dp_mem d))
               | None => d
               end in
      (sequence, surface_mark_dirty d surface content_x content_y ARGUS_APP_SURFACE_WIDTH ARGUS_APP_SURFACE_HEIGHT)
  end.

Definition launcher_row (launcher_selection row row_y : Z) (d : display) : display :=
  let surface := app_surface APP_APPLICATIONS in
  let target := zget 0 launcher_targets row in
  let width := content_width d APP_APPLICATIONS in
  let background := if row =? launcher_selection then col_chrome (colors l) else col_terminal (colors l) in
  let foreground := if row =? launcher_selection then col_ink (colors l) else col_terminal_text (colors l) in
  let d := surface_fill_rect d surface (u32 (content_x + 8)) row_y (u32 (width - 16)) (u32 (11 * scale l)) background in
  let y := u32 (row_y + u32 (2 * scale l)) in
  let d := surface_draw_text d surface (app_title target) (u32 (content_x + 14)) y (scale l) foreground in
  surface_draw_text d surface (if nz (user_app_id target) then text "C++ USER" else text "KERNEL")
    (u32 (u32 (content_x + width) - u32 (11 * 6 * scale l))) y (scale l) foreground.

Definition render_applications (launcher_selection : Z) (d : display) : display :=
  let surface := app_surface APP_APPLICATIONS in
  let d := clear_content APP_APPLICATIONS d in
  let d := draw_label surface (text "UP DOWN   ENTER OPEN   ESC CLOSE") (u32 (content_x + 8)) (u32 (content_y + 8)) d in
  let row_height := u32 (11 * scale l) in
  snd (for_range 0 LAUNCHER_ENTRY_COUNT (fun row '(row_y, d) =>
         (u32 (row_y + u32 (row_height + u32 (2 * scale l))), launcher_row launcher_selection row row_y d))
       (u32 (content_y + u32 (22 * scale l)), d)).

Definition panel_text (x : Z) (t : list Z) (d : display) : display :=
  surface_draw_text d panel_surface t (u32 (x + 8)) (u32 (panel_height l - u32 (7 * scale l)) / 2) (scale l) (col_ink (colors l)).

Definition render_panel (active_app : Z) (d : display) : tasks_t * display :=
  let d := surface_clear d panel_surface (col_chrome (colors l)) in
  let width := surface_width d panel_surface in
  let d := surface_fill_rect d panel_surface 0 0 width 1 (col_highlight (colors l)) in
  let d := surface_fill_rect d panel_surface 0 (u32 (surface_height d panel_surface - 1)) width 1 (col_shadow (colors l)) in
  let height := u32 (panel_height l - 8) in
  let launcher_x := 4 in
  let launcher_width := u32 (text_width (text "APPS") (scale l) + 16) in
  let d := draw_bevel panel_surface launcher_x 4 launcher_width height (col_chrome (colors l))
             (active_app !=? APP_APPLICATIONS) d in
  let d := panel_text launcher_x (text "APPS") d in
  if (active_app !=? APP_NONE) && (active_app !=? APP_APPLICATIONS) then
    let active_x := u32 (u32 (launcher_x + launcher_width) + 4) in
    let active_width := u32 (text_width (app_task active_app) (scale l) + 16) in
    let d := draw_bevel panel_surface active_x 4 active_width height (col_chrome (colors l)) false d in
    (mk_tasks launcher_x launcher_width active_x active_width, panel_text active_x (app_task active_app) d)
  else (mk_tasks launcher_x launcher_width 0 0, d).

End Theme.

(** ** The state and its operations *)

Record world := mk_world {
  w_desktop : desktop_t; w_compositor : argus_compositor_t; w_console : console_world; w_kernel : K }.
Definition w_display (w : world) : display := cw_display (w_console w).
Definition w_layout (w : world) : layout_t := dk_layout (w_desktop w).
Definition with_desktop (w : world) (k : desktop_t) : world := mk_world k (w_compositor w) (w_console w) (w_kernel w).
Definition with_compositor (w : world) (c : argus_compositor_t) : world := mk_world (w_desktop w) c (w_console w) (w_kernel w).
Definition with_console (w : world) (c : console_world) : world := mk_world (w_desktop w) (w_compositor w) c (w_kernel w).
Definition with_display (w : world) (d : display) : world := with_console w (put_display (w_console w) d).
Definition with_kernel (w : world) (k : K) : world := mk_world (w_desktop w) (w_compositor w) (w_console w) k.

(** [compositor_present(&compositor)] *)
Definition present (w : world) : bool * world :=
  let '(ok, c, d) := compositor_present (w_compositor w) (w_display w) in
  (ok, with_display (with_compositor w c) d).
(** [compositor_set_window_visible(&compositor, apps[app_index].compositor_id, visible)] *)
Definition compositor_id (w : world) (app_index : Z) : Z := zget 0 (compositor_ids (w_layout w)) app_index.
Definition set_visible (w : world) (app_index visible : Z) : bool * world :=
  let '(ok, c) := compositor_set_window_visible (w_compositor w) (w_display w) (compositor_id w app_index) visible in
  (ok, with_compositor w c).

(** The drawing routines on the world. *)
Definition do_chrome (w : world) (app_index : Z) : world :=
  with_display w (render_chrome (w_layout w) (active_app (w_desktop w)) app_index (w_display w)).
Definition do_system (w : world) : world := with_display w (render_system (w_layout w) (w_kernel w) (w_display w)).
Definition do_files (w : world) : world := with_display w (render_files (w_layout w) (w_kernel w) (w_display w)).
Definition do_applications (w : world) : world :=
  with_display w (render_applications (w_layout w) (launcher_selection (w_desktop w)) (w_display w)).
Definition do_user_app (w : world) (app_index : Z) : world :=
  let '(sequence, d) := render_user_app (w_layout w) (w_kernel w) app_index (w_display w) in
  with_display (with_desktop w (set_sequence (w_desktop w) (user_app_id app_index) sequence)) d.
Definition do_panel (w : world) : world :=
  let '(tasks, d) := render_panel (w_layout w) (active_app (w_desktop w)) (w_display w) in
  with_display (with_desktop w (set_tasks (w_desktop w) tasks)) d.

Definition render_app_content (w : world) (app_index : Z) : world :=
  if app_index =? APP_SYSTEM then do_system w
  else if app_index =? APP_FILES then do_files w
  else if app_index =? APP_APPLICATIONS then do_applications w
  else if (APP_SNAKE <=? app_index) && (app_index <=? APP_NOTES) then do_user_app w app_index
  else w.

Definition hide_active_app (w : world) (close_process : bool) : bool * world :=
  let previous := active_app (w_desktop w) in
  if previous =? APP_NONE then (true, w)
  else
    let app_id := user_app_id previous in
    let '(ok, w) := set_visible w previous 0 in
    if negb ok then (false, w)
    else
      let w := with_desktop w (set_dragging (set_active_app (w_desktop w) APP_NONE) false) in
      let w := with_kernel w (svc_app_set_active (w_kernel w) 0) in
      let '(stopped, w) :=
        if close_process && nz app_id
        then let '(b, k) := svc_app_stop (w_kernel w) app_id in (b, with_kernel w k)
        else (true, w) in
      if negb stopped then (false, w)
      else
        let w := if nz app_id && close_process then with_desktop w (set_sequence (w_desktop w) app_id 0) else w in
        let w := do_panel w in
        (compositor_visible_window_count (w_compositor w) =? 0, w).

Definition activate_app (w : world) (app_index : Z) : bool * world :=
  if APP_COUNT <=? app_index then (false, w)
  else
    let previous := active_app (w_desktop w) in
    let app_id := user_app_id app_index in
    let '(started, w) :=
      if nz app_id && negb (svc_app_online (w_kernel w) app_id)
      then let '(b, k) := svc_app_start (w_kernel w) app_id in (b, with_kernel w k)
      else (true, w) in
    if negb started then (false, w)
    else
      let '(hidden, w) :=
        if (previous !=? APP_NONE) && (previous !=? app_index) then set_visible w previous 0 else (true, w) in
      if negb hidden then (false, w)
      else
        let w := with_desktop w (set_active_app (w_desktop w) app_index) in
        let w := with_kernel w (svc_app_set_active (w_kernel w) app_id) in
        let w := do_chrome w app_index in
        let w := render_app_content w app_index in
        let '(shown, w) := set_visible w app_index 1 in
        if negb shown then (false, w)
        else
          let '(raised, c) := compositor_raise_window (w_compositor w) (w_display w) (compositor_id w app_index) in
          let w := with_compositor w c in
          if negb raised then (false, w)
          else
            let w := do_panel w in
            (compositor_visible_window_count (w_compositor w) =? 1, w).

(** ** The pointer *)

Definition clamp_pointer_coordinate (value maximum : Z) : Z :=
  if value <? 0 then 0 else if maximum <? value then maximum else u32 value.

Definition set_pointer_visible (p : pointer_t) (visible : bool) : pointer_t :=
  mk_pointer (pointer_enabled p) visible (pointer_initialized p) (pointer_x p) (pointer_y p) (pointer_buttons p)
    (pointer_saved p) (pointer_saved_width p) (pointer_saved_height p).
Definition set_pointer_saved (p : pointer_t) (saved : list Z) (width height : Z) : pointer_t :=
  mk_pointer (pointer_enabled p) (pointer_visible p) (pointer_initialized p) (pointer_x p) (pointer_y p) (pointer_buttons p)
    saved width height.
Definition set_pointer_at (p : pointer_t) (x y : Z) : pointer_t :=
  mk_pointer (pointer_enabled p) (pointer_visible p) (pointer_initialized p) x y (pointer_buttons p)
    (pointer_saved p) (pointer_saved_width p) (pointer_saved_height p).
Definition set_pointer_buttons (p : pointer_t) (buttons : Z) : pointer_t :=
  mk_pointer (pointer_enabled p) (pointer_visible p) (pointer_initialized p) (pointer_x p) (pointer_y p) buttons
    (pointer_saved p) (pointer_saved_width p) (pointer_saved_height p).
Definition set_pointer_enabled (p : pointer_t) (enabled : bool) : pointer_t :=
  mk_pointer enabled (pointer_visible p) (pointer_initialized p) (pointer_x p) (pointer_y p) (pointer_buttons p)
    (pointer_saved p) (pointer_saved_width p) (pointer_saved_height p).

(** The colour of the pointer's pixel, if it has one there. *)
Definition pointer_dot (c : desktop_colors_t) (x y : Z) : option Z :=
  let bit := u16 (1 << (11 - x)) in
  if nz (zget 0 pointer_outer y & bit)
  then Some (if nz (zget 0 pointer_inner y & bit) then col_highlight c else col_ink c)
  else None.

(** Saving what is under the pointer and drawing it. *)
Definition draw_pointer (c : desktop_colors_t) (g : argus_gop_t) (px py width height : Z) (st : list Z * mem) : list Z * mem :=
  for_range 0 height (fun y st =>
    for_range 0 width (fun x '(saved, m) =>
      (zset saved (y * POINTER_WIDTH + x) (gop_getpixel g m (u32 (px + x)) (u32 (py + y))),
       match pointer_dot c x y with
       | Some color => gop_putpixel g m (u32 (px + x)) (u32 (py + y)) color
       | None => m
       end)) st) st.

Definition desktop_pointer_show (w : world) : world :=
  let p := dk_pointer (w_desktop w) in
  if negb (pointer_enabled p) || pointer_visible p || negb (pointer_initialized p) ||
     negb (console_uses_framebuffer (w_console w))
  then w
  else
    let g := dp_gop (w_display w) in
    let width := minimum POINTER_WIDTH (u32 (gop_width g - pointer_x p)) in
    let height := minimum POINTER_HEIGHT (u32 (gop_height g - pointer_y p)) in
    let '(saved, m) := draw_pointer (colors (w_layout w)) g (pointer_x p) (pointer_y p) width height
                         (pointer_saved p, dp_mem (w_display w)) in
    with_display (with_desktop w (set_pointer (w_desktop w) (set_pointer_visible (set_pointer_saved p saved width height) true)))
      (put_mem (w_display w) m).

Definition desktop_pointer_hide (w : world) : world :=
  let p := dk_pointer (w_desktop w) in
  if negb (pointer_visible p) then w
  else
    let g := dp_gop (w_display w) in
    let m := for_range 0 (pointer_saved_height p) (fun y m =>
               for_range 0 (pointer_saved_width p) (fun x m =>
                 gop_putpixel g m (u32 (pointer_x p + x)) (u32 (pointer_y p + y))
                   (zget 0 (pointer_saved p) (y * POINTER_WIDTH + x))) m) (dp_mem (w_display w)) in
    with_display (with_desktop w (set_pointer (w_desktop w) (set_pointer_visible p false))) (put_mem (w_display w) m).

Definition desktop_pointer_set_enabled (w : world) (enabled : bool) : world :=
  let w := if negb enabled then desktop_pointer_hide w else w in
  with_desktop w (set_pointer (w_desktop w) (set_pointer_enabled (dk_pointer (w_desktop w)) enabled)).

(** ** Where the pointer is *)

Definition panel_app_at (w : world) (x y : Z) : option Z :=
  let c := w_compositor w in
  let t := dk_tasks (w_desktop w) in
  let a := active_app (w_desktop w) in
  if (y <? cp_panel_y c) || (cp_height c <=? y) then None
  else
    let local_y := y - cp_panel_y c in
    if (local_y <? 4) || (u32 (panel_height (w_layout w) - 4) <=? local_y) then None
    else if (launcher_task_x t <=? x) && (x <? u32 (launcher_task_x t + launcher_task_width t)) then Some APP_APPLICATIONS
    else if (a !=? APP_NONE) && (a !=? APP_APPLICATIONS) && (active_task_x t <=? x) &&
            (x <? u32 (active_task_x t + active_task_width t)) then Some a
    else None.

Definition title_button_at (w : world) (local_x local_y button_x : Z) : bool :=
  let size := title_button_size (w_layout w) in
  (button_x <=? local_x) && (local_x <? u32 (button_x + size)) && (6 <=? local_y) && (local_y <? u32 (6 + size)).

Definition launcher_entry_at (w : world) (local_x local_y : Z) : option Z :=
  let s := scale (w_layout w) in
  let start_x := u32 (content_x + 8) in
  let start_y := u32 (content_y (w_layout w) + u32 (22 * s)) in
  let row_height := u32 (11 * s) in
  let pitch := u32 (row_height + u32 (2 * s)) in
  if (local_x <? start_x) || (local_y <? start_y) ||
     (u32 (u32 (surface_width (w_display w) (app_surface APP_APPLICATIONS) - content_x) - 8) <=? local_x)
  then None
  else
    let candidate := (local_y - start_y) / pitch in
    if (LAUNCHER_ENTRY_COUNT <=? candidate) || (row_height <=? (local_y - start_y) mod pitch) then None
    else Some candidate.

(** ** Events *)

(** The click on a window: activation, the title buttons, the launcher's entries
    and the start of a drag. *)
Definition click_window (w : world) (app_index local_x local_y : Z) : world :=
  let w := snd (activate_app w app_index) in
  let d := w_display w in
  if title_button_at w local_x local_y (close_button_x (w_layout w) d app_index) then snd (hide_active_app w true)
  else if title_button_at w local_x local_y (minimize_button_x (w_layout w) d app_index) then snd (hide_active_app w false)
  else
    match (if app_index =? APP_APPLICATIONS then launcher_entry_at w local_x local_y else None) with
    | Some launcher_entry =>
        let w := with_desktop w (set_selection (w_desktop w) launcher_entry) in
        snd (activate_app w (zget 0 launcher_targets launcher_entry))
    | None =>
        if (3 <=? local_x) && (local_x <? u32 (surface_width d (app_surface app_index) - 3)) && (3 <=? local_y) &&
           (local_y <? u32 (3 + title_height (w_layout w)))
        then with_desktop w (set_drag (w_desktop w)
               (mk_drag true app_index local_x local_y (drag_moves (dk_drag (w_desktop w)))))
        else w
    end.

Definition left_press (w : world) : world :=
  let p := dk_pointer (w_desktop w) in
  match panel_app_at w (pointer_x p) (pointer_y p) with
  | Some app_index =>
      let w := if app_index =? active_app (w_desktop w) then snd (hide_active_app w false) else snd (activate_app w app_index) in
      with_desktop w (set_dragging (w_desktop w) false)
  | None =>
      match compositor_window_at (w_compositor w) (w_display w) (pointer_x p) (pointer_y p) with
      | None => w
      | Some (window_id, local_x, local_y) =>
          match zfind (fun app_index => compositor_id w app_index =? window_id) 0 (Z.to_nat APP_COUNT) with
          | None => w
          | Some app_index => click_window w app_index local_x local_y
          end
      end
  end.

Definition drag_step (w : world) : world :=
  let p := dk_pointer (w_desktop w) in
  let g := dk_drag (w_desktop w) in
  let new_x := if drag_offset_x g <? pointer_x p then pointer_x p - drag_offset_x g else 0 in
  let new_y := if drag_offset_y g <? pointer_y p then pointer_y p - drag_offset_y g else 0 in
  let window_id := compositor_id w (dragged_app g) in
  let old_x := compositor_window_x (w_compositor w) window_id in
  let old_y := compositor_window_y (w_compositor w) window_id in
  let '(moved, c) := compositor_move_window (w_compositor w) (w_display w) window_id new_x new_y in
  let w := with_compositor w c in
  if moved && ((old_x !=? compositor_window_x c window_id) || (old_y !=? compositor_window_y c window_id))
  then with_desktop w (set_drag (w_desktop w) (mk_drag (dragging g) (dragged_app g) (drag_offset_x g) (drag_offset_y g)
                         (u64 (drag_moves g + 1))))
  else w.

Definition desktop_pointer_event (w : world) (dx dy buttons : Z) : world :=
  if negb (pointer_enabled (dk_pointer (w_desktop w))) || negb (desktop_online (w_desktop w)) then w
  else
    let g := dp_gop (w_display w) in
    let w := desktop_pointer_hide w in
    let p := dk_pointer (w_desktop w) in
    let left_pressed := nz (buttons & 1) && negb (nz (pointer_buttons p & 1)) in
    let p := set_pointer_at p (clamp_pointer_coordinate (pointer_x p + dx) (u32 (gop_width g - POINTER_WIDTH)))
               (clamp_pointer_coordinate (pointer_y p + dy) (u32 (gop_height g - POINTER_HEIGHT))) in
    let w := with_desktop w (set_pointer (w_desktop w) p) in
    let w := if left_pressed then left_press w else w in
    let w := if dragging (dk_drag (w_desktop w)) && nz (buttons & 1) then drag_step w else w in
    let w := if negb (nz (buttons & 1)) then with_desktop w (set_dragging (w_desktop w) false) else w in
    let w := with_desktop w (set_pointer (w_desktop w) (set_pointer_buttons (dk_pointer (w_desktop w)) buttons)) in
    desktop_pointer_show (snd (present w)).

(** [render_chrome] of every window, for [desktop_init] after clearing it. *)
Definition render_chromes (clear : bool) (w : world) : world :=
  for_range 0 APP_COUNT (fun i w =>
    let w := if clear then with_display w (surface_clear (w_display w) (app_surface i) (col_terminal (colors (w_layout w)))) else w in
    do_chrome w i) w.
(** The calls from [render_system] to [render_user_app(APP_NOTES)]. *)
Definition render_contents (w : world) : world :=
  do_user_app (do_user_app (do_user_app (do_applications (do_files (do_system w))) APP_SNAKE) APP_CALCULATOR) APP_NOTES.

Definition desktop_redraw (w : world) : bool * world :=
  if negb (desktop_online (w_desktop w)) then (false, w)
  else
    let w := do_panel (render_contents (render_chromes false w)) in
    let w := with_compositor w (compositor_damage_all (w_compositor w)) in
    (compositor_validate (w_compositor w) (w_display w), w).

Definition desktop_present (w : world) : bool * world :=
  if negb (desktop_online (w_desktop w)) then (false, w)
  else
    let '(result, w) := present (desktop_pointer_hide w) in
    (result, desktop_pointer_show w).

Definition desktop_refresh_apps (w : world) : world :=
  if negb (desktop_online (w_desktop w)) then w else render_contents w.

Definition desktop_tick (w : world) (ticks : Z) : world :=
  if negb (desktop_online (w_desktop w)) then w
  else
    let k := w_desktop w in
    let bucket := ticks / 100 in
    let app_id := user_app_id (active_app k) in
    let app_changed :=
      (APP_SNAKE <=? active_app k) && (active_app k <=? APP_NOTES) &&
      match svc_app_surface (w_kernel w) app_id with
      | Some (_, sequence) => sequence !=? zget 0 (app_sequences k) app_id
      | None => nz (zget 0 (app_sequences k) app_id)
      end in
    let system_changed := (active_app k =? APP_SYSTEM) && (bucket !=? system_tick_bucket k) in
    if negb app_changed && negb system_changed then w
    else
      let w := desktop_pointer_hide w in
      let w := if system_changed then do_system (with_desktop w (set_bucket (w_desktop w) bucket)) else w in
      let w := if app_changed then do_user_app w (active_app (w_desktop w)) else w in
      desktop_pointer_show (snd (present w)).

(** [name] is [None] for a null pointer. *)
Definition app_named (name : list Z) : option Z :=
  if strings_equal name (text "console") then Some APP_CONSOLE
  else if strings_equal name (text "system") then Some APP_SYSTEM
  else if strings_equal name (text "files") then Some APP_FILES
  else if strings_equal name (text "apps") || strings_equal name (text "applications") then Some APP_APPLICATIONS
  else if strings_equal name (text "snake") then Some APP_SNAKE
  else if strings_equal name (text "calc") || strings_equal name (text "calculator") then Some APP_CALCULATOR
  else if strings_equal name (text "notes") then Some APP_NOTES
  else None.

Definition desktop_focus_app (w : world) (name : option (list Z)) : bool * world :=
  match name with
  | Some n =>
      if negb (desktop_online (w_desktop w)) then (false, w)
      else match app_named n with Some app_index => activate_app w app_index | None => (false, w) end
  | None => (false, w)
  end.

(** The keys the launcher takes while it is shown. *)
Definition launcher_key (w : world) (key : Z) : world :=
  let selection := launcher_selection (w_desktop w) in
  let open w := snd (present (snd (activate_app w (zget 0 launcher_targets (launcher_selection (w_desktop w)))))) in
  let select n := snd (present (do_applications (with_desktop w (set_selection (w_desktop w) n)))) in
  if (49 <=? key) && (key <=? 54) then open (with_desktop w (set_selection (w_desktop w) (key - 49)))
  else if key =? ARGUS_KEY_UP then select (if nz selection then selection - 1 else LAUNCHER_ENTRY_COUNT - 1)
  else if key =? ARGUS_KEY_DOWN then select (u32 (selection + 1) mod LAUNCHER_ENTRY_COUNT)
  else if (key =? 10) || (key =? 13) then open w
  else w.

Definition desktop_key_event (w : world) (key : Z) : bool * world :=
  if negb (desktop_online (w_desktop w)) then (false, w)
  else
    let a := active_app (w_desktop w) in
    if key =? 9 then
      let w := if a =? APP_APPLICATIONS then snd (hide_active_app w false) else snd (activate_app w APP_APPLICATIONS) in
      (true, snd (present w))
    else if key =? ARGUS_KEY_ESCAPE then
      if a =? APP_NONE then (true, w)
      else
        let '(hidden, w) := hide_active_app w false in
        if negb hidden then (true, w) else (true, snd (present w))
    else if a =? APP_APPLICATIONS then (true, launcher_key w key)
    else if a =? APP_NONE then (false, w)
    else
      let app_id := user_app_id a in
      if negb (nz app_id) then (a !=? APP_CONSOLE, w)
      else (true, with_kernel w (snd (svc_app_input (w_kernel w) app_id key))).

(** ** Initialisation *)

Definition destroy_surfaces (d : display) : display :=
  surface_destroy (for_range 0 APP_COUNT (fun i d => surface_destroy d (app_surface i)) d) panel_surface.

(** [surface_init(...) && ...], in the order of the list. *)
Fixpoint init_surfaces (l : list (Z * Z * Z)) (d : display) : bool * display :=
  match l with
  | [] => (true, d)
  | (surface, width, height) :: l' =>
      let '(ok, d) := surface_init d surface width height in
      if ok then init_surfaces l' d else (false, d)
  end.

(** The sizes of the eight surfaces, [None] where the screen is too small. *)
Definition surface_sizes (l : layout_t) (width work_height : Z) : option (list (Z * Z * Z)) :=
  let console_width := if 1000 <=? width then 720 else u32 (width * 3) / 5 in
  let console_height := if 680 <=? work_height then 560 else u32 (work_height * 3) / 4 in
  let utility_width := if 700 <=? width then 400 else u32 (width - 24) in
  let system_height := minimum 238 (u32 (work_height - 24)) in
  let files_height := minimum 320 (u32 (work_height - 24)) in
  let applications_height := minimum (if scale l =? 2 then 244 else 160) (u32 (work_height - 24)) in
  let user_width := ARGUS_APP_SURFACE_WIDTH + 14 in
  let user_height := u32 (title_height l + ARGUS_APP_SURFACE_HEIGHT + 15) in
  let console_width := minimum console_width (u32 (width - 24)) in
  let console_height := minimum console_height (u32 (work_height - 24)) in
  if (console_width <? 320) || (console_height <? 200) || (utility_width <? 280) || (system_height <? 160) ||
     (files_height <? 200) || (applications_height <? (if scale l =? 2 then 220 else 140)) ||
     (u32 (width - 24) <? user_width) || (u32 (work_height - 24) <? user_height)
  then None
  else Some [(app_surface APP_CONSOLE, console_width, console_height); (app_surface APP_SYSTEM, utility_width, system_height);
             (app_surface APP_FILES, utility_width, files_height);
             (app_surface APP_APPLICATIONS, utility_width, applications_height);
             (app_surface APP_SNAKE, user_width, user_height); (app_surface APP_CALCULATOR, user_width, user_height);
             (app_surface APP_NOTES, user_width, user_height); (panel_surface, width, panel_height l)].

Definition initialize_surfaces (l : layout_t) (width work_height : Z) (d : display) : bool * display :=
  match surface_sizes l width work_height with
  | None => (false, d)
  | Some sizes =>
      let '(ok, d) := init_surfaces sizes d in
      if ok then (true, d) else (false, destroy_surfaces d)
  end.

(** [compositor_add_window(...) && ...] for the windows [(app_index, x, y)]; the
    ids are written as they are given out. *)
Fixpoint add_windows (ws : list (Z * Z * Z)) (d : display) (ids : list Z) (c : argus_compositor_t)
    : bool * list Z * argus_compositor_t :=
  match ws with
  | [] => (true, ids, c)
  | (i, x, y) :: ws' =>
      let '(id, c) := compositor_add_window c d (app_surface i) x y in
      match id with
      | Some id => add_windows ws' d (zset ids i id) c
      | None => (false, ids, c)
      end
  end.

(** [compositor_set_window_visible(..., 0)] for the applications from [i] on. *)
Fixpoint hide_windows (n : nat) (d : display) (ids : list Z) (i : Z) (c : argus_compositor_t) : bool * argus_compositor_t :=
  match n with
  | O => (true, c)
  | S n' =>
      let '(ok, c) := compositor_set_window_visible c d (zget 0 ids i) 0 in
      if ok then hide_windows n' d ids (i + 1) c else (false, c)
  end.

Definition window_places (d : display) (width work_height : Z) : list (Z * Z * Z) :=
  let right_margin := if 700 <=? width then 32 else 12 in
  let utility_x := u32 (u32 (width - surface_width d (app_surface APP_SYSTEM)) - right_margin) in
  let console_x := if 900 <=? width then 40 else 12 in
  let console_y := if 650 <=? work_height then 96 else 32 in
  let system_y := if 300 <=? work_height then 40 else 8 in
  let files_y := u32 (u32 (system_y + surface_height d (app_surface APP_SYSTEM)) + 24) in
  let user_x := u32 (width - surface_width d (app_surface APP_SNAKE)) / 2 in
  let user_y := if 500 <=? work_height then 72 else 12 in
  let applications_x := if 900 <=? width then 72 else 20 in
  let applications_y := if 500 <=? work_height then 64 else 12 in
  let lowest := u32 (work_height - surface_height d (app_surface APP_FILES)) in
  let files_y := if lowest <? files_y then lowest else files_y in
  [(APP_CONSOLE, console_x, console_y); (APP_SYSTEM, utility_x, system_y); (APP_FILES, utility_x, files_y);
   (APP_APPLICATIONS, applications_x, applications_y); (APP_SNAKE, user_x, user_y);
   (APP_CALCULATOR, u32 (user_x + 24), u32 (user_y + 20));
   (APP_NOTES, (if 24 <? user_x then user_x - 24 else 0), u32 (user_y + 40))].

Definition initialize_compositor (l : layout_t) (work_height : Z) (d : display) (c : argus_compositor_t)
    : bool * list Z * argus_compositor_t :=
  let g := dp_gop d in
  let ids := compositor_ids l in
  let '(ok, c) := compositor_init c (gop_width g) (gop_height g) work_height (col_field (colors l)) in
  if negb ok then (false, ids, c)
  else
    let '(ok, ids, c) := add_windows (window_places d (gop_width g) work_height) d ids c in
    if negb ok then (false, ids, c)
    else
      let '(ok, c) := compositor_set_panel c d panel_surface work_height in
      if negb ok then (false, ids, c)
      else
        let '(ok, c) := hide_windows (Z.to_nat APP_COUNT) d ids 0 c in
        (ok && (compositor_visible_window_count c =? 0), ids, c).

(** The assignments before the surfaces are made. *)
Definition reset_desktop (k : desktop_t) (g : argus_gop_t) : desktop_t :=
  let large := (800 <=? gop_width g) && (600 <=? gop_height g) in
  let p := dk_pointer k in
  let dr := dk_drag k in
  mk_desktop
    (mk_layout (load_colors g) (if large then 2 else 1) (if large then 32 else 24) (if large then 24 else 16)
       (compositor_ids (dk_layout k)))
    (dk_tasks k)
    (mk_drag false (dragged_app dr) (drag_offset_x dr) (drag_offset_y dr) 0)
    (mk_pointer false false false (pointer_x p) (pointer_y p) 0 (pointer_saved p) (pointer_saved_width p) (pointer_saved_height p))
    APP_NONE false UINT64_MAX (replicate (Z.to_nat (ARGUS_APP_ID_NOTES + 1)) 0) 0.

Definition abandon (w : world) : bool * world := (false, with_display w (destroy_surfaces (w_display w))).

(** [test] is the address of the local surface of [surface_self_test]. *)
Definition desktop_init (test : Z) (w : world) : bool * world :=
  if negb (console_uses_framebuffer (w_console w)) then (false, w)
  else
    let '(tested, d) := surface_self_test (w_display w) test in
    let w := with_display w d in
    let g := dp_gop d in
    if negb tested || negb (gop_usable g) || (gop_width g <? 640) || (gop_height g <? 400) then (false, w)
    else
      let w := with_desktop w (reset_desktop (w_desktop w) g) in
      let work_height := u32 (gop_height g - panel_height (w_layout w)) in
      let '(ok, d) := initialize_surfaces (w_layout w) (gop_width g) work_height (w_display w) in
      let w := with_display w d in
      if negb ok then abandon w
      else
        let '(ok, ids, c) := initialize_compositor (w_layout w) work_height (w_display w) (w_compositor w) in
        let w := with_compositor (with_desktop w (set_ids (w_desktop w) ids)) c in
        if negb ok then abandon w
        else if compositor_visible_window_count (w_compositor w) !=? 0 then abandon w
        else
          let w := do_panel (render_contents (render_chromes true w)) in
          let d := w_display w in
          let l := w_layout w in
          let '(ok, con) := console_set_surface_region (w_console w) (app_surface APP_CONSOLE) content_x (content_y l)
                              (content_width d APP_CONSOLE) (content_height l d APP_CONSOLE)
                              (0xc9, 0xc8, 0xb5) (0x17, 0x1a, 0x17) in
          let w := with_console w con in
          if negb ok then abandon w
          else
            let w := with_compositor w (compositor_damage_all (w_compositor w)) in
            let '(ok, w) := if compositor_validate (w_compositor w) (w_display w) then present w else (false, w) in
            if negb ok then
              abandon (with_console w (snd (console_set_region (w_console w) 0 0 (gop_width g) (gop_height g)
                                              (0xc9, 0xc8, 0xb5) (0x17, 0x1a, 0x17))))
            else
              let p := dk_pointer (w_desktop w) in
              let p := mk_pointer (pointer_enabled p) (pointer_visible p) true (gop_width g / 2) (work_height / 2)
                         (pointer_buttons p) (pointer_saved p) (pointer_saved_width p) (pointer_saved_height p) in
              (true, with_desktop w (set_online (set_pointer (w_desktop w) p) true)).

(** ** Queries *)

Definition desktop_drag_moves (w : world) : Z := drag_moves (dk_drag (w_desktop w)).
Definition desktop_pointer_x (w : world) : Z := pointer_x (dk_pointer (w_desktop w)).
Definition desktop_pointer_y (w : world) : Z := pointer_y (dk_pointer (w_desktop w)).
Definition desktop_window_x (w : world) : Z :=
  if desktop_online (w_desktop w) && (active_app (w_desktop w) !=? APP_NONE)
  then compositor_window_x (w_compositor w) (compositor_id w (active_app (w_desktop w))) else 0.
Definition desktop_window_y (w : world) : Z :=
  if desktop_online (w_desktop w) && (active_app (w_desktop w) !=? APP_NONE)
  then compositor_window_y (w_compositor w) (compositor_id w (active_app (w_desktop w))) else 0.
Definition desktop_surface_count (w : world) : Z := if desktop_online (w_desktop w) then APP_COUNT else 0.
Definition desktop_visible_window_count (w : world) : Z :=
  if desktop_online (w_desktop w) then compositor_visible_window_count (w_compositor w) else 0.
Definition desktop_active_app (w : world) : list Z :=
  if negb (desktop_online (w_desktop w)) then text "UNAVAILABLE"
  else if active_app (w_desktop w) =? APP_NONE then text "DESKTOP" else app_title (active_app (w_desktop w)).
Definition desktop_single_window_mode (w : world) : bool :=
  if negb (desktop_online (w_desktop w)) then false
  else
    let visible := compositor_visible_window_count (w_compositor w) in
    let a := active_app (w_desktop w) in
    (visible <=? 1) &&
    ((a =? APP_NONE) && (visible =? 0) ||
     (a <? APP_COUNT) && (visible =? 1) && compositor_window_visible (w_compositor w) (compositor_id w a)).
Definition desktop_pointer_confined (w : world) : bool :=
  let p := dk_pointer (w_desktop w) in
  let g := dp_gop (w_display w) in
  if negb (desktop_online (w_desktop w)) || negb (pointer_initialized p) then false
  else (pointer_x p <=? u32 (gop_width g - POINTER_WIDTH)) && (pointer_y p <=? u32 (gop_height g - POINTER_HEIGHT)).
Definition desktop_compositor_frames (w : world) : Z := cp_frame_count (w_compositor w).
Definition desktop_damage_pixels (w : world) : Z := cp_damage_pixels (w_compositor w).
Definition desktop_last_damage_count (w : world) : Z := cp_last_damage_count (w_compositor w).
Definition desktop_compositor_valid (w : world) : bool :=
  desktop_online (w_desktop w) && compositor_validate (w_compositor w) (w_display w) &&
  desktop_single_window_mode w && desktop_pointer_confined w.

End Render.
