(* ===== verification/Session.v ===== *)
(** * Correctness of the desktop

    Theorems on Desktop.v: the desktop's own validation holds in every state it
    can reach from [desktop_init], what is presented is the composition with the
    pointer on top, except for the pixels that a key event with the pointer shown
    leaves stale, and an application's content shows its pixels. *)

From stdpp Require Import base list gmap numbers relations.
From Stdlib Require Import ZArith Lia.
From S2P Require Import Prelude Memory Heap Raster Gop Surface Compositor Composition Process Files Console Desktop.

Open Scope Z_scope.

(** ** Drawing *)

(** The dimensions of a surface are unsigned. *)
Definition dims_ok (d : display) : Prop :=
  forall p s, surface_at d p = Some s -> 0 <= sf_width s /\ 0 <= sf_height s.

(** [d'] is [d] with something drawn on surfaces: the planes are where they were,
    every change is in a surface's damage, and the framebuffer is untouched. *)
Definition draws (d d' : display) : Prop :=
  dims_ok d -> forall v c, ui_view v c d ->
  ui_view v c d' /\ same_planes d d' /\
  forall x y, 0 <= x < gop_width (dp_gop d) -> 0 <= y < gop_height (dp_gop d) ->
    screen (dp_gop d) (dp_mem d') x y = screen (dp_gop d) (dp_mem d) x y.

Lemma same_planes_dims_ok d d' : same_planes d d' -> dims_ok d -> dims_ok d'.
Proof. intros Hp Hd p s Hs. destruct (sp_from _ _ Hp p s Hs) as (u & Hu & _ & -> & -> & _). by apply (Hd p u). Qed.

Lemma dims_width d p : dims_ok d -> 0 <= surface_width d p.
Proof. intros Hd. unfold surface_width. destruct (surface_at d p) as [s|] eqn:E; [apply (Hd p s E)|lia]. Qed.
Lemma dims_height d p : dims_ok d -> 0 <= surface_height d p.
Proof. intros Hd. unfold surface_height. destruct (surface_at d p) as [s|] eqn:E; [apply (Hd p s E)|lia]. Qed.

Lemma draws_refl d : draws d d.
Proof. intros _ v c Hv. split_and!; try done. apply same_planes_refl. Qed.

Lemma draws_trans d1 d2 d3 : draws d1 d2 -> draws d2 d3 -> draws d1 d3.
Proof.
  intros H1 H2 Hd v c Hv. destruct (H1 Hd v c Hv) as (V1 & P1 & S1).
  destruct (H2 (same_planes_dims_ok _ _ P1 Hd) v c V1) as (V2 & P2 & S2). rewrite (sp_gop _ _ P1) in S2.
  split_and!; [done|by eapply same_planes_trans|]. intros x y Hx Hy. by rewrite S2, S1.
Qed.

(** The dimensions may be assumed unsigned while a drawing is analysed. *)
Lemma draws_dims d d' : (dims_ok d -> draws d d') -> draws d d'.
Proof. intros H Hd. by apply H. Qed.

Lemma draws_step d1 d2 d3 : draws d1 d2 -> (dims_ok d2 -> draws d2 d3) -> draws d1 d3.
Proof. intros H1 H2. eapply draws_trans; [exact H1|]. by apply draws_dims. Qed.

(** A view of the display before the drawing may be assumed too. *)
Lemma draws_valid d d' : (display_ok d -> draws d d') -> draws d d'.
Proof. intros H Hd v c Hv. apply H; [apply (ui_display _ _ Hv)|done|done]. Qed.

Lemma draws_surface d p (f : display -> display) :
  (surface_valid d p = false -> f d = d) ->
  (forall s, surface_at d p = Some s -> surface_ok s -> exists s', redraw p s d s' (f d)) -> draws d (f d).
Proof. intros Hno Hyes _ v c Hv. by eapply draw_view. Qed.

Lemma draws_clear d p color : draws d (surface_clear d p color).
Proof.
  apply (draws_surface d p (fun d => surface_clear d p color)); [invalid_surface|]. intros s Hs Hok. by apply clear_drawn.
Qed.

Lemma draws_fill d p x y w h color :
  0 <= x -> 0 <= y -> 0 <= w -> 0 <= h -> draws d (surface_fill_rect d p x y w h color).
Proof.
  intros. apply (draws_surface d p (fun d => surface_fill_rect d p x y w h color)); [invalid_surface|].
  intros s Hs Hok. by apply fill_rect_drawn.
Qed.

Lemma draws_text d p t x y scale color : 0 <= scale -> draws d (surface_draw_text d p t x y scale color).
Proof.
  intros. apply (draws_surface d p (fun d => surface_draw_text d p t x y scale color)).
  - intros Hv. unfold surface_draw_text. by rewrite Hv.
  - intros s Hs Hok. by apply draw_text_redraw.
Qed.

(** Stores inside a rectangle of the surface, followed by its marking. *)
Lemma draws_marked d p m x y w h :
  0 <= x -> 0 <= y -> 0 < w -> 0 < h -> x < surface_width d p -> y < surface_height d p ->
  (forall s, surface_at d p = Some s -> surface_ok s ->
     same_outside (sf_pixels s) (sf_stride s) 0 (sf_height s) (dp_mem d) m /\
     forall px py, on_surface s px py -> in_rect x y w h px py = false ->
       surface_pixel m s px py = surface_pixel (dp_mem d) s px py) ->
  surface_valid d p = true -> draws d (surface_mark_dirty (put_mem d m) p x y w h).
Proof.
  intros Hx Hy Hw Hh Hxw Hyh Hm Hv. apply (draws_surface d p (fun d => surface_mark_dirty (put_mem d m) p x y w h)).
  - by rewrite Hv.
  - intros s Hs Hok. destruct (Hm s Hs Hok) as [Hout Hpx]. rewrite (surface_width_at d p s Hs) in Hxw.
    rewrite (surface_height_at d p s Hs) in Hyh.
    destruct (mark_redraw p s d m x y w h) as (s' & Hr & _); unfold on_surface; try done; try lia. by exists s'.
Qed.

Lemma put_mem_id d : put_mem d (dp_mem d) = d.
Proof. by destruct d as [? ? []]. Qed.

Lemma draws_mark d p x y w h :
  0 <= x -> 0 <= y -> 0 <= w -> 0 <= h -> draws d (surface_mark_dirty d p x y w h).
Proof.
  intros Hx Hy Hw Hh. apply draws_valid. intros Hd. destruct (surface_valid d p) eqn:Hv.
  2: { replace (surface_mark_dirty d p x y w h) with d; [apply draws_refl|]. unfold surface_valid in Hv. unfold surface_mark_dirty, off_surface.
       destruct (surface_at d p); [by rewrite Hv|done]. }
  pose proof Hv as Hv'. apply surface_valid_at in Hv' as (s & Hs & Hvs). pose proof (do_surfaces _ Hd _ _ Hs Hvs) as Hok.
  assert (0 < w /\ 0 < h /\ x < sf_width s /\ y < sf_height s \/ surface_mark_dirty d p x y w h = d) as [Hin| ->]; [| |apply draws_refl].
  { unfold surface_mark_dirty. rewrite Hs. destruct (off_surface s x y) eqn:Eo; [by right|].
    apply off_surface_false in Eo as [? ?]; [|done..]. cbv zeta. rewrite !minimum_min.
    destruct (negb (nz (Z.min w _)) || _) eqn:En; [by right|left]. unfold nz in En. b2p. lia. }
  rewrite <- (put_mem_id d) at 2. apply draws_marked; try done; try lia.
  - rewrite (surface_width_at d p s Hs). lia.
  - rewrite (surface_height_at d p s Hs). lia.
Qed.

Lemma draws_if (b : bool) d d1 d2 : draws d d1 -> draws d d2 -> draws d (if b then d1 else d2).
Proof. by destruct b. Qed.

Lemma draws_for_range lo hi (body : Z -> display -> display) d :
  (forall i d, draws d (body i d)) -> draws d (for_range lo hi body d).
Proof.
  intros Hb. destruct (Z.le_gt_cases lo hi).
  - apply (for_range_inv (fun _ => draws d)); [done|apply draws_refl|]. intros i d' _ Hd. by eapply draws_trans.
  - by rewrite for_range_empty by lia; apply draws_refl.
Qed.

(** ** Row by row *)


Ltac nonneg := solve [lia | apply u32_nonneg | by apply dims_width | by apply dims_height].

(** Peels the drawing calls off a display, the last one first. *)
Ltac draw_steps :=
  repeat first
    [ assumption
    | apply draws_refl
    | eapply draws_trans; [|apply draws_fill; nonneg]
    | eapply draws_trans; [|apply draws_text; nonneg]
    | eapply draws_trans; [|apply draws_clear]
    | eapply draws_trans; [|apply draws_mark; nonneg]
    | apply draws_if ].

(** The two layouts of [desktop_init]. *)
Definition layout_ok (l : layout_t) : Prop :=
  scale l = 2 /\ panel_height l = 32 /\ title_height l = 24 \/ scale l = 1 /\ panel_height l = 24 /\ title_height l = 16.

Section Rendering.
Context {K : Type} `{Services K}.
Context (app_surface : Z -> Z) (panel_surface : Z) (stray : Z -> Z).
Context (l : layout_t) (Hl : layout_ok l).

Let scale_nonneg : 0 <= scale l.
Proof. destruct Hl; lia. Qed.
Let title_nonneg : 0 <= title_height l.
Proof. destruct Hl; lia. Qed.

Lemma bevel_edges_draws p x y w h raised d d0 :
  0 <= x -> 0 <= y -> 0 <= w -> 0 <= h -> draws d0 d -> draws d0 (draw_bevel_edges l p x y w h raised d).
Proof. intros. unfold draw_bevel_edges. cbv zeta. draw_steps. Qed.

Lemma bevel_draws p x y w h fill raised d d0 :
  0 <= x -> 0 <= y -> 0 <= w -> 0 <= h -> draws d0 d -> draws d0 (draw_bevel l p x y w h fill raised d).
Proof. intros. apply bevel_edges_draws; try done. draw_steps. Qed.

Lemma title_button_draws p x label d d0 : 0 <= x -> draws d0 d -> draws d0 (draw_title_button l p x label d).
Proof. intros. unfold draw_title_button. cbv zeta. draw_steps. Qed.

Lemma chrome_draws active app_index d : draws d (render_chrome app_surface l active app_index d).
Proof.
  apply draws_dims. intros Hd. unfold render_chrome. cbv zeta.
  apply title_button_draws; [nonneg|]. apply title_button_draws; [nonneg|]. draw_steps.
Qed.

Lemma label_draws p t x y d d0 : draws d0 d -> draws d0 (draw_label l p t x y d).
Proof. intros. unfold draw_label. draw_steps. Qed.

Lemma rows_draws p rows d d0 : forall row, draws d0 d -> draws d0 (draw_rows l p rows row d).
Proof.
  revert d. induction rows as [|[label value] rows IH]; intros d row Hd; [done|]. cbn [draw_rows]. apply IH.
  unfold draw_pair, draw_pair_number, draw_decimal. cbv zeta.
  destruct (value d) as [t|[n [u|]]]; repeat apply label_draws; draw_steps.
Qed.

Lemma content_draws app_index d d0 : draws d0 d -> draws d0 (clear_content app_surface l app_index d).
Proof. intros. unfold clear_content, content_x, content_y, content_width, content_height. draw_steps. Qed.

Lemma system_draws k d : draws d (render_system app_surface l k d).
Proof. apply rows_draws, content_draws, draws_refl. Qed.

Lemma file_entry_draws p path size kind y d d0 : draws d0 d -> draws d0 (draw_file_entry l p path size kind y d).
Proof.
  intros. unfold draw_file_entry, draw_decimal. cbv zeta. destruct kind; repeat apply label_draws; draw_steps.
Qed.

Lemma ramfs_draws k p count st d0 : draws d0 (snd st) -> draws d0 (snd (draw_ramfs l k p count st)).
Proof.
  intros Hd. unfold draw_ramfs. destruct (Z.le_gt_cases 0 count); [|by rewrite for_range_empty by lia].
  apply (for_range_inv (fun _ st => draws d0 (snd st))); [done|done|]. intros i [row d] _ Hi. cbn [snd] in *.
  destruct (svc_ramfs_entry k i) as [[path size]|]; [|done]. by apply file_entry_draws.
Qed.

Lemma fat32_draws k p n d0 : forall index row entries d,
  draws d0 d -> draws d0 (snd (draw_fat32 l n k p index row entries d)).
Proof.
  induction n as [|n IH]; intros index row entries d Hd; [done|]. cbn [draw_fat32].
  destruct (svc_fat32_entry k index) as [[[status path] size] attributes]. case_if; [done|].
  case_if; [by apply IH|]. by apply IH, file_entry_draws.
Qed.

Lemma files_draws k d : draws d (render_files app_surface l k d).
Proof.
  unfold render_files. cbv zeta. set (count := if 5 <? _ then _ else _).
  pose proof (ramfs_draws k (app_surface APP_FILES) count) as Hr.
  destruct (draw_ramfs l k (app_surface APP_FILES) count _) as [row1 d1] eqn:E1.
  assert (draws d d1) as H1 by (change d1 with (snd (row1, d1)); rewrite <- E1; apply Hr, label_draws, content_draws, draws_refl).
  destruct (if negb (nz count) then _ else _) as [row2 d2] eqn:E2.
  assert (draws d d2) as H2 by (destruct (negb (nz count)); injection E2 as _ <-; [by apply label_draws|done]).
  pose proof (fat32_draws k (app_surface APP_FILES) 5 d 0 (next_row l (u32 (row2 + u32 (9 * scale l) / 2))) 0) as Hf.
  destruct (draw_fat32 l 5 k (app_surface APP_FILES) 0 _ 0 _) as [[row3 entries] d3] eqn:E3.
  assert (draws d d3) as H3 by (change d3 with (snd (row3, entries, d3)); rewrite <- E3; by apply Hf, label_draws).
  case_if; [by apply label_draws|done].
Qed.

Lemma launcher_row_draws selection row row_y d d0 :
  0 <= row_y -> draws d0 d -> draws d0 (launcher_row app_surface l selection row row_y d).
Proof. intros. unfold launcher_row. cbv zeta. draw_steps. Qed.

Lemma applications_draws selection d : draws d (render_applications app_surface l selection d).
Proof.
  unfold render_applications. cbv zeta. unfold LAUNCHER_ENTRY_COUNT.
  assert (forall st, 0 <= st.1 -> draws d st.2 ->
    let st' := for_range 0 6 (fun row '(row_y, d) => (u32 (row_y + u32 (u32 (11 * scale l) + u32 (2 * scale l))),
                 launcher_row app_surface l selection row row_y d)) st in 0 <= st'.1 /\ draws d st'.2) as Hloop.
  { intros st H1 H2. apply (for_range_inv (fun _ st => 0 <= st.1 /\ draws d st.2)); [lia|done|].
    intros i [row_y d'] _ [Hy Hd]. cbn in *. split; [apply u32_nonneg|by apply launcher_row_draws]. }
  apply Hloop; cbn; [apply u32_nonneg|]. apply label_draws, content_draws, draws_refl.
Qed.

Lemma panel_draws active d : draws d (snd (render_panel panel_surface l active d)).
Proof.
  unfold render_panel, panel_text. set (d1 := surface_clear d panel_surface (col_chrome (colors l))). cbv zeta.
  apply (draws_step d d1); [apply draws_clear|]. intros Hd.
  case_if; cbn [snd]; draw_steps.
Qed.

(** *** An application's pixels *)

Lemma content_y_eq : content_y l = title_height l + 8.
Proof. unfold content_y. rewrite u32_id by (unfold UINT32_MAX; destruct Hl; lia). done. Qed.

(** The colour [render_user_app] gives the cell (x, y) of the content. *)
Definition app_color (k : K) (source x y : Z) : Z :=
  u32 (palette_read stray l (svc_byte k (source + y * ARGUS_APP_SURFACE_STRIDE + x))).

Lemma copy_app_pixels_spec k source s m :
  surface_ok s -> content_x + ARGUS_APP_SURFACE_WIDTH <= sf_width s -> content_y l + ARGUS_APP_SURFACE_HEIGHT <= sf_height s ->
  let m' := copy_app_pixels stray l k source s m in
  same_outside (sf_pixels s) (sf_stride s) 0 (sf_height s) m m' /\
  forall px py, on_surface s px py ->
    surface_pixel m' s px py
    = if in_rect content_x (content_y l) ARGUS_APP_SURFACE_WIDTH ARGUS_APP_SURFACE_HEIGHT px py
      then app_color k source (px - content_x) (py - content_y l) else surface_pixel m s px py.
Proof.
  intros Hok Hw Hh. pose proof Hok as [_ Hsw Hss Hsh _]. rewrite content_y_eq in *. unfold content_x in *.
  assert (forall j, 0 <= j < ARGUS_APP_SURFACE_HEIGHT -> u32 (title_height l + 8 + j) = title_height l + 8 + j) as Hrow.
  { unfold ARGUS_APP_SURFACE_HEIGHT. intros j Hj. apply u32_id. unfold UINT32_MAX. destruct Hl; lia. }
  pose (I := fun (done : Z -> Z -> bool) m' => same_outside (sf_pixels s) (sf_stride s) 0 (sf_height s) m m' /\
    forall px py, on_surface s px py -> surface_pixel m' s px py
      = if done (px - 7) (py - (title_height l + 8)) then app_color k source (px - 7) (py - (title_height l + 8))
        else surface_pixel m s px py).
  assert (I (in_rect 0 0 ARGUS_APP_SURFACE_WIDTH ARGUS_APP_SURFACE_HEIGHT) (copy_app_pixels stray l k source s m)) as [Hout Hpx].
  { unfold copy_app_pixels. rewrite content_y_eq. unfold content_x.
    apply (scan_inv I ARGUS_APP_SURFACE_WIDTH ARGUS_APP_SURFACE_HEIGHT
      (fun row column m => store32 m (pixel_address (sf_pixels s) (sf_stride s) (7 + column) (u32 (title_height l + 8 + row)))
        (palette_read stray l (svc_byte k (source + row * ARGUS_APP_SURFACE_STRIDE + column))))); [done|done| | |].
    - intros f g m' Hfg [A B]. split; [done|]. intros px py Hp. rewrite <- Hfg. by apply B.
    - split; [apply same_outside_refl|done].
    - intros x y dn m' Hx Hy Hdn [A B]. rewrite Hrow by done. split.
      + eapply same_outside_trans; [exact A|]. apply same_outside_store; lia.
      + intros px py Hp. unfold surface_pixel in *. rewrite pixel_store by (destruct Hp; lia).
        destruct (Z.eqb_spec (px - 7) x) as [E1|E1], (Z.eqb_spec px (7 + x)) as [E2|E2]; try lia; cbn [andb];
          [|rewrite orb_false_r; by apply B].
        destruct (Z.eqb_spec (py - (title_height l + 8)) y) as [E3|E3], (Z.eqb_spec py (title_height l + 8 + y)) as [E4|E4];
          try lia; cbn [andb]; [|rewrite orb_false_r; by apply B].
        rewrite orb_true_r. unfold app_color. by rewrite E1, E3. }
  split; [done|]. intros px py Hp. rewrite Hpx by done.
  replace (in_rect 0 0 ARGUS_APP_SURFACE_WIDTH ARGUS_APP_SURFACE_HEIGHT (px - 7) (py - (title_height l + 8)))
    with (in_rect 7 (title_height l + 8) ARGUS_APP_SURFACE_WIDTH ARGUS_APP_SURFACE_HEIGHT px py); [done|].
  apply eq_true_iff_eq. rewrite !in_rect_true. lia.
Qed.

(** Damage is no pixel. *)
Lemma mark_dirty_getpixel d p x y w h q px py :
  surface_getpixel (surface_mark_dirty d p x y w h) q px py = surface_getpixel d q px py.
Proof.
  unfold surface_mark_dirty. destruct (surface_at d p) as [s|] eqn:Es; [|done]. repeat (case_if; [done|]). cbv zeta.
  assert (forall b r, surface_getpixel (put_surface d p (set_damage s b r)) q px py = surface_getpixel d q px py) as Hset.
  { intros b r. unfold surface_getpixel, surface_at, put_surface in *. cbn. destruct (Z.eq_dec q p) as [->|Hne].
    - by rewrite lookup_insert_eq, Es.
    - by rewrite lookup_insert_ne. }
  repeat (case_if; [done|]). apply Hset.
Qed.

Lemma getpixel_at d p s x y :
  surface_at d p = Some s -> surface_ok s -> 0 <= x < sf_width s -> 0 <= y < sf_height s ->
  surface_getpixel d p x y = surface_pixel (dp_mem d) s x y.
Proof.
  intros Hs Hok Hx Hy. unfold surface_getpixel, off_surface. rewrite Hs, (valid_of_ok s Hok). cbn [negb orb].
  destruct (Z.leb_spec (sf_width s) x), (Z.leb_spec (sf_height s) y); done || lia.
Qed.

Lemma user_app_draws k app_index d :
  surface_width d (app_surface app_index) = ARGUS_APP_SURFACE_WIDTH + 14 ->
  surface_height d (app_surface app_index) = title_height l + ARGUS_APP_SURFACE_HEIGHT + 15 ->
  surface_valid d (app_surface app_index) = true ->
  draws d (snd (render_user_app app_surface stray l k app_index d)).
Proof.
  intros Hw Hh Hv. apply draws_valid. intros Hd. unfold render_user_app. cbv zeta.
  destruct (svc_app_surface k (user_app_id app_index)) as [[source sequence]|]; cbn [snd].
  - destruct (surface_at d (app_surface app_index)) as [s|] eqn:Es.
    2: { unfold surface_width in Hw. by rewrite Es in Hw. }
    pose proof Hw as Hw'. pose proof Hh as Hh'. rewrite (surface_width_at _ _ _ Es) in Hw'. rewrite (surface_height_at _ _ _ Es) in Hh'.
    unfold ARGUS_APP_SURFACE_WIDTH, ARGUS_APP_SURFACE_HEIGHT in *.
    unfold surface_valid in Hv. rewrite Es in Hv. pose proof (do_surfaces _ Hd _ _ Es Hv) as Hok.
    destruct (copy_app_pixels_spec k source s (dp_mem d) Hok) as [Hout Hpx];
      [unfold content_x, ARGUS_APP_SURFACE_WIDTH; lia|rewrite content_y_eq; unfold ARGUS_APP_SURFACE_HEIGHT; lia|].
    apply draws_marked; rewrite ?Hw, ?Hh, ?content_y_eq; unfold content_x; try lia.
    + intros s' Hs' _. rewrite Es in Hs'. injection Hs' as <-. split; [done|]. intros px py Hp Hin. rewrite Hpx by done.
      unfold content_x, ARGUS_APP_SURFACE_WIDTH, ARGUS_APP_SURFACE_HEIGHT. by rewrite content_y_eq, Hin.
    + unfold surface_valid. by rewrite Es.
  - unfold content_x, content_width, content_height. 
    eapply draws_trans; [|apply draws_mark; rewrite ?content_y_eq; nonneg]. by apply label_draws, content_draws, draws_refl.
Qed.
End Rendering.

(** C37: What the desktop shows of an application is what the application drew:
    [render_user_app] gives every pixel of the window's content the palette colour
    of the byte the application has there, whatever its other bytes are, and no
    pixel of the title bar, the borders or the buttons changes.  A byte past the
    eight colours of the palette spoils its own pixel only, which shows what lies
    in memory behind the palette ([stray]). *)
Theorem render_user_app_exact {K : Type} `{Services K} app_surface stray l k app_index d s source sequence :
  layout_ok l -> svc_app_surface k (user_app_id app_index) = Some (source, sequence) ->
  surface_at d (app_surface app_index) = Some s -> surface_ok s ->
  sf_width s = ARGUS_APP_SURFACE_WIDTH + 14 -> sf_height s = title_height l + ARGUS_APP_SURFACE_HEIGHT + 15 ->
  let '(shown, d') := render_user_app app_surface stray l k app_index d in
  shown = sequence /\
  forall x y, 0 <= x < sf_width s -> 0 <= y < sf_height s ->
    surface_getpixel d' (app_surface app_index) x y
    = if in_rect content_x (content_y l) ARGUS_APP_SURFACE_WIDTH ARGUS_APP_SURFACE_HEIGHT x y
      then
        let byte := svc_byte k (source + ((y - content_y l) * ARGUS_APP_SURFACE_STRIDE + (x - content_x))) in
        u32 (if byte <? ARGUS_APP_PALETTE_COUNT then zget 0 (app_palette l) byte else stray byte)
      else surface_getpixel d (app_surface app_index) x y.
Proof.
  intros Hl Ha Hs Hok Hw Hh.
  destruct (copy_app_pixels_spec stray l Hl k source s (dp_mem d) Hok) as [_ Hpx].
  { rewrite Hw. unfold content_x. lia. } { rewrite Hh, (content_y_eq l Hl). lia. }
  unfold render_user_app. rewrite Ha, Hs. cbv zeta. revert Hpx. generalize (copy_app_pixels stray l k source s (dp_mem d)) as m. intros m Hpx.
  split; [done|]. intros x y Hx Hy. rewrite mark_dirty_getpixel, (getpixel_at _ _ s), (getpixel_at d _ s) by done.
  change (dp_mem (put_mem d m)) with m. rewrite (Hpx x y (conj Hx Hy)).
  destruct (in_rect _ _ _ _ x y) eqn:Ein; [|done].
  unfold app_color, palette_read. by rewrite <- Z.add_assoc.
Qed.

(** ** The pointer on the framebuffer *)

Section Pointer.
Context (g : argus_gop_t) (Hg : gop_ok g) (px py width height : Z).
Context (Hx : 0 <= px) (Hxw : px + width <= gop_width g) (Hy : 0 <= py) (Hyh : py + height <= gop_height g).
Context (Hw : 0 <= width <= POINTER_WIDTH) (Hh : 0 <= height <= POINTER_HEIGHT).

Let in_screen x y := 0 <= x < gop_width g /\ 0 <= y < gop_height g.
Let fb_only (m m' : mem) := same_outside (gop_fb g) (gop_pitch_pixels g) 0 (gop_height g) m m'.

Let coordinates x y : 0 <= x < width -> 0 <= y < height -> u32 (px + x) = px + x /\ u32 (py + y) = py + y.
Proof. pose proof Hg as [_ ? ? ? _ _ _]. intros. split; apply u32_id; lia. Qed.

Lemma shift_rect x y :
  in_rect 0 0 width height (x - px) (y - py) = in_rect px py width height x y.
Proof. apply eq_true_iff_eq. rewrite !in_rect_true. lia. Qed.

Lemma draw_pointer_spec c saved m :
  length saved = Z.to_nat (POINTER_WIDTH * POINTER_HEIGHT) ->
  let '(saved', m') := draw_pointer c g px py width height (saved, m) in
  length saved' = length saved /\ fb_only m m' /\
  (forall x y, in_screen x y -> screen g m' x y =
     match (if in_rect px py width height x y then pointer_dot c (x - px) (y - py) else None) with
     | Some color => u32 color
     | None => screen g m x y
     end) /\
  (forall x y, 0 <= x < width -> 0 <= y < height -> zget 0 saved' (y * POINTER_WIDTH + x) = screen g m (px + x) (py + y)).
Proof.
  intros Hs. unfold POINTER_WIDTH, POINTER_HEIGHT in *.
  pose (I := fun (dn : Z -> Z -> bool) (st : list Z * mem) => length st.1 = length saved /\ fb_only m st.2 /\
    (forall x y, in_screen x y -> screen g st.2 x y =
       match (if dn (x - px) (y - py) then pointer_dot c (x - px) (y - py) else None) with
       | Some color => u32 color | None => screen g m x y end) /\
    (forall x y, 0 <= x < width -> 0 <= y < height -> dn x y = true -> zget 0 st.1 (y * 12 + x) = screen g m (px + x) (py + y))).
  assert (I (in_rect 0 0 width height) (draw_pointer c g px py width height (saved, m))) as HI.
  { apply (scan_inv I width height (fun y x st => let '(saved, m) := st in
      (zset saved (y * 12 + x) (gop_getpixel g m (u32 (px + x)) (u32 (py + y))),
       match pointer_dot c x y with Some color => gop_putpixel g m (u32 (px + x)) (u32 (py + y)) color | None => m end)));
      [lia|lia| | |].
    - intros f f' st Hf (A & B & C & D). split_and!; [done|done| |].
      + intros x y Hxy. rewrite <- Hf. by apply C.
      + intros x y ? ? ?. apply D; [done|done|]. by rewrite Hf.
    - split_and!; [done|apply same_outside_refl|done|done].
    - intros x y dn [sv m'] Hx0 Hy0 Hdn (A & B & C & D). cbn [fst snd] in *. destruct (coordinates x y Hx0 Hy0) as [-> ->].
      assert (in_screen (px + x) (py + y)) as Hin by (unfold in_screen; lia).
      assert (screen g m' (px + x) (py + y) = screen g m (px + x) (py + y)) as Hold.
      { rewrite C by done. replace (px + x - px) with x by lia. replace (py + y - py) with y by lia. by rewrite Hdn. }
      assert (forall a b, in_screen a b -> (a - px =? x) && (b - py =? y) = (a =? px + x) && (b =? py + y)) as Hsame.
      { intros a b _. apply eq_true_iff_eq. rewrite !andb_true_iff, !Z.eqb_eq. lia. }
      unfold I. cbn [fst snd]. split_and!.
      + by rewrite zset_length.
      + destruct (pointer_dot c x y); [|done]. eapply same_outside_trans; [exact B|]. apply (gop_putpixel_spec g m'); [done|apply Hin|apply Hin].
      + intros a b Hab. rewrite Hsame by done. destruct ((a =? px + x) && (b =? py + y)) eqn:E.
        * b2p. subst. rewrite orb_true_r. replace (px + x - px) with x by lia. replace (py + y - py) with y by lia.
          destruct (pointer_dot c x y) as [col|]; [|done].
          destruct (gop_putpixel_spec g m' (px + x) (py + y) col Hg) as [_ Q]; [apply Hin..|].
          rewrite Q by apply Hin. by rewrite !Z.eqb_refl.
        * rewrite orb_false_r. rewrite <- C by done. destruct (pointer_dot c x y) as [col|]; [|done].
          destruct (gop_putpixel_spec g m' (px + x) (py + y) col Hg) as [_ Q]; [apply Hin..|].
          rewrite Q by apply Hab. by rewrite E.
      + intros a b Ha Hb Hdab. destruct (Z.eq_dec (b * 12 + a) (y * 12 + x)) as [E|E].
        * assert (b = y /\ a = x) as [-> ->] by lia. rewrite zget_zset_eq by lia. rewrite <- Hold.
          unfold gop_getpixel. rewrite (go_usable _ Hg). destruct Hin. cbn [negb orb].
          destruct (Z.leb_spec (gop_width g) (px + x)), (Z.leb_spec (gop_height g) (py + y)); (done || lia).
        * rewrite zget_zset_ne by lia. apply D; [done|done|]. destruct (dn a b); [done|]. cbn in Hdab. b2p. subst. lia. }
  destruct (draw_pointer c g px py width height (saved, m)) as [saved' m']. destruct HI as (A & B & C & D). cbn [fst snd] in *.
  split_and!; [done|done| |].
  - intros x y Hxy. rewrite C by done. by rewrite shift_rect.
  - intros x y H1 H2. apply D; [done|done|]. apply in_rect_true. lia.
Qed.

Lemma undraw_pointer_spec saved m :
  let m' := for_range 0 height (fun y m => for_range 0 width (fun x m =>
              gop_putpixel g m (u32 (px + x)) (u32 (py + y)) (zget 0 saved (y * POINTER_WIDTH + x))) m) m in
  fb_only m m' /\
  forall x y, in_screen x y -> screen g m' x y =
    if in_rect px py width height x y then u32 (zget 0 saved ((y - py) * POINTER_WIDTH + (x - px))) else screen g m x y.
Proof.
  pose (I := fun (dn : Z -> Z -> bool) (m' : mem) => fb_only m m' /\ forall x y, in_screen x y -> screen g m' x y =
    if dn (x - px) (y - py) then u32 (zget 0 saved ((y - py) * POINTER_WIDTH + (x - px))) else screen g m x y).
  enough (I (in_rect 0 0 width height) (for_range 0 height (fun y m => for_range 0 width (fun x m =>
              gop_putpixel g m (u32 (px + x)) (u32 (py + y)) (zget 0 saved (y * POINTER_WIDTH + x))) m) m)) as [A B].
  { split; [done|]. intros x y Hxy. rewrite B by done. by rewrite shift_rect. }
  apply (scan_inv I width height (fun y x m => gop_putpixel g m (u32 (px + x)) (u32 (py + y)) (zget 0 saved (y * POINTER_WIDTH + x))));
    [lia|lia| | |].
  - intros f f' m' Hf [A B]. split; [done|]. intros x y Hxy. rewrite <- Hf. by apply B.
  - split; [apply same_outside_refl|done].
  - intros x y dn m' Hx0 Hy0 Hdn [A B]. destruct (coordinates x y Hx0 Hy0) as [-> ->].
    assert (in_screen (px + x) (py + y)) as Hin by (unfold in_screen; lia).
    destruct (gop_putpixel_spec g m' (px + x) (py + y) (zget 0 saved (y * POINTER_WIDTH + x)) Hg) as [P Q]; [apply Hin..|].
    split; [by eapply same_outside_trans|]. intros a b Hab. rewrite Q by apply Hab.
    destruct ((a =? px + x) && (b =? py + y)) eqn:E.
    + b2p. subst. replace (px + x - px) with x by lia. replace (py + y - py) with y by lia.
      rewrite !Z.eqb_refl. by rewrite orb_true_r.
    + rewrite B by done. replace ((a - px =? x) && (b - py =? y)) with false; [by rewrite orb_false_r|].
      symmetry. apply andb_false_iff in E. rewrite !Z.eqb_neq in E. apply andb_false_iff. rewrite !Z.eqb_neq. lia.
Qed.

End Pointer.

(** ** Presenting keeps the planes *)

Lemma put_mem_planes d m : same_planes d (put_mem d m).
Proof. constructor; [done| |done]. intros q t Ht. by exists t. Qed.

Lemma take_damage_planes d p : same_planes d (snd (surface_take_damage d p)).
Proof.
  unfold surface_take_damage. destruct (surface_at d p) as [s|] eqn:Es; [|apply same_planes_refl].
  case_if; [apply same_planes_refl|]. by apply calmed_planes.
Qed.

Lemma collect_window_planes id st : same_planes (snd st) (snd (collect_window id st)).
Proof.
  destruct st as [c d]. unfold collect_window. pose proof (take_damage_planes d (win_surface (window_at c id))) as Ht.
  destruct (surface_take_damage _ _) as [[r|] d']; [case_if|]; exact Ht.
Qed.

Lemma collect_planes c d : same_planes d (snd (collect_surface_damage c d)).
Proof.
  unfold collect_surface_damage.
  pose proof (for_range_rel (fun st st' => same_planes (snd st) (snd st')) 0 (cp_window_count c) collect_window (c, d)
    ltac:(intros; apply same_planes_refl) ltac:(intros ? ? ?; apply same_planes_trans) collect_window_planes) as Hl.
  destruct (for_range _ _ _ _) as [c1 d1]. cbn [snd] in Hl. case_if; [|done].
  pose proof (take_damage_planes d1 (cp_panel c1)) as Ht.
  destruct (surface_take_damage _ _) as [[r|] d2]; exact (same_planes_trans _ _ _ Hl Ht).
Qed.

Lemma present_rect_planes c r d : same_planes d (present_rect c r d).
Proof.
  unfold present_rect. apply for_range_rel; [apply same_planes_refl|apply same_planes_trans|]. intros y d1.
  apply for_range_rel; [apply same_planes_refl|apply same_planes_trans|]. intros x d2. apply put_mem_planes.
Qed.

Lemma present_planes c d : same_planes d (snd (compositor_present c d)).
Proof.
  unfold compositor_present. case_if; [apply same_planes_refl|]. pose proof (collect_planes c d) as Hc.
  destruct (collect_surface_damage c d) as [c1 d1]. case_if; [exact Hc|]. cbn [snd] in Hc.
  pose proof (for_range_rel (fun st st' : Z * display => same_planes (snd st) (snd st')) 0 (cp_damage_count c1)
    (fun i '(pixels, d) => (u64 (pixels + u64 (rect_width (damage_at c1 i) * rect_height (damage_at c1 i))), present_rect c1 (damage_at c1 i) d))
    (0, d1) ltac:(intros; apply same_planes_refl) ltac:(intros ? ? ?; apply same_planes_trans)
    ltac:(intros i [px d2]; apply present_rect_planes)) as Hl.
  cbv zeta. destruct (for_range _ _ _ _) as [pixels d2]. exact (same_planes_trans _ _ _ Hc Hl).
Qed.

(** ** Arranging windows *)

Lemma compositor_damage_frame c x y w h : exists dm n, compositor_damage c x y w h = set_damages c dm n.
Proof.
  unfold compositor_damage, compositor_damage_all. assert (c = set_damages c (cp_damage c) (cp_damage_count c)) as Hc by (by destruct c).
  case_if; [eauto|]. cbv zeta. case_if; [eauto|]. destruct (zfind _ _ _); [eauto|]. case_if; eauto.
Qed.

(** [c'] has the windows and the screen of [c], their visibility and position
    apart. *)
Record rearranged (c c' : argus_compositor_t) : Prop := {
  ra_width : cp_width c' = cp_width c;
  ra_height : cp_height c' = cp_height c;
  ra_work : cp_work_height c' = cp_work_height c;
  ra_panel : cp_panel c' = cp_panel c /\ cp_panel_y c' = cp_panel_y c;
  ra_count : cp_window_count c' = cp_window_count c;
  ra_surfaces : forall i, 0 <= i < cp_window_count c -> win_surface (window_at c' i) = win_surface (window_at c i) }.

Lemma rearranged_refl c : rearranged c c.
Proof. by constructor. Qed.
Lemma rearranged_trans c1 c2 c3 : rearranged c1 c2 -> rearranged c2 c3 -> rearranged c1 c3.
Proof.
  intros [A B C [D D'] E F] [A' B' C' [G G'] E' F']. constructor; try congruence; [split; congruence|].
  intros i Hi. rewrite F' by (by rewrite E). by apply F.
Qed.

Lemma set_visible_rearranges c d id visible :
  0 <= id < cp_window_count c -> (cp_window_count c <= Z.of_nat (length (cp_windows c))) ->
  let '(ok, c') := compositor_set_window_visible c d id visible in
  ok = true /\ rearranged c c' /\
  forall i, 0 <= i < cp_window_count c ->
    win_visible (window_at c' i) = if i =? id then nz visible else win_visible (window_at c i).
Proof.
  intros Hid Hl. unfold compositor_set_window_visible. destruct (Z.leb_spec (cp_window_count c) id); [lia|]. cbv zeta.
  destruct (Bool.eqb _ _) eqn:E.
  - apply Bool.eqb_prop in E. split_and!; [done|apply rearranged_refl|]. intros i Hi.
    destruct (Z.eqb_spec i id) as [->|]; [done|done].
  - unfold damage_window. destruct (compositor_damage_frame c (win_x (window_at c id)) (win_y (window_at c id))
      (surface_width d (win_surface (window_at c id))) (surface_height d (win_surface (window_at c id)))) as (dm & n & ->).
    assert (forall i, 0 <= i < cp_window_count c -> window_at (set_windows (set_damages c dm n) (zset (cp_windows (set_damages c dm n)) id
       (mk_window (win_surface (window_at c id)) (win_x (window_at c id)) (win_y (window_at c id)) (nz visible)))
       (cp_z_order (set_damages c dm n)) (cp_window_count (set_damages c dm n))) i
       = if i =? id then mk_window (win_surface (window_at c id)) (win_x (window_at c id)) (win_y (window_at c id)) (nz visible)
         else window_at c i) as Hw.
    { intros i Hi. unfold window_at at 1. cbn [cp_windows set_windows set_damages]. destruct (Z.eqb_spec i id) as [->|].
      - by rewrite zget_zset_eq by lia.
      - by rewrite zget_zset_ne by lia. }
    split_and!; [done| |].
    + constructor; try done. intros i Hi. rewrite Hw by done. by destruct (Z.eqb_spec i id) as [->|].
    + intros i Hi. rewrite Hw by done. by destruct (i =? id).
Qed.

Lemma raise_rearranges c d id :
  (exists i, 0 <= i < cp_window_count c /\ z_at c i = id) -> 0 <= id < cp_window_count c ->
  let '(ok, c') := compositor_raise_window c d id in
  ok = true /\ rearranged c c' /\ forall i, win_visible (window_at c' i) = win_visible (window_at c i).
Proof.
  intros (j & Hj & Hz) Hid. unfold compositor_raise_window. destruct (Z.leb_spec (cp_window_count c) id); [lia|].
  destruct (zfind _ _ _) as [position|] eqn:Ef.
  2: { pose proof (proj1 (zfind_None _ _ _) Ef j ltac:(lia)) as Hn. cbn in Hn. by rewrite Hz, Z.eqb_refl in Hn. }
  case_if; [split_and!; [done|apply rearranged_refl|done]|]. cbv zeta. unfold damage_window. set (z := zset _ _ _).
  match goal with |- context [compositor_damage ?a ?x ?y ?w ?h] => destruct (compositor_damage_frame a x y w h) as (dm & n & ->) end.
  split_and!; [done|by constructor|done].
Qed.

Lemma move_rearranges c d id x y :
  0 <= id -> cp_window_count c <= Z.of_nat (length (cp_windows c)) ->
  let '(_, c') := compositor_move_window c d id x y in
  rearranged c c' /\ forall i, 0 <= i < cp_window_count c -> win_visible (window_at c' i) = win_visible (window_at c i).
Proof.
  intros Hid Hl. unfold compositor_move_window. destruct (Z.leb_spec (cp_window_count c) id); [split; [apply rearranged_refl|done]|].
  cbv zeta. case_if; [split; [apply rearranged_refl|done]|]. case_if; [split; [apply rearranged_refl|done]|].
  unfold damage_window. set (x' := if _ <? x then _ else _). set (y' := if _ <? y then _ else _).
  match goal with |- context [set_windows (compositor_damage ?a ?x ?y ?w ?h)] => destruct (compositor_damage_frame a x y w h) as (dm & n & E) end.
  rewrite E. match goal with |- context [compositor_damage ?a ?x ?y ?w ?h] => destruct (compositor_damage_frame a x y w h) as (dm' & n' & ->) end.
  set (c2 := set_damages (set_windows _ _ _ _) _ _).
  assert (forall i, 0 <= i < cp_window_count c -> window_at c2 i
     = if i =? id then mk_window (win_surface (window_at c id)) x' y' (win_visible (window_at c id)) else window_at c i) as Hw.
  { intros i Hi. unfold window_at at 1. cbn [cp_windows set_windows set_damages c2]. destruct (Z.eqb_spec i id) as [->|].
    - by rewrite zget_zset_eq by lia.
    - by rewrite zget_zset_ne by lia. }
  split; [constructor; try done|]; intros i Hi; rewrite Hw by done; by destruct (Z.eqb_spec i id) as [->|].
Qed.

(** ** The session: the desktop's invariant *)

Section Session.
Context {K : Type} `{Services K}.
Context (app_surface : Z -> Z) (panel_surface : Z) (stray : Z -> Z).

#[local] Abbreviation world := (@world K).

(** The pointer is on the screen, and what it saved is a whole pointer. *)
Record pointer_ok (g : argus_gop_t) (p : pointer_t) : Prop := {
  po_initialized : pointer_initialized p = true;
  po_x : 0 <= pointer_x p <= gop_width g - POINTER_WIDTH;
  po_y : 0 <= pointer_y p <= gop_height g - POINTER_HEIGHT;
  po_length : length (pointer_saved p) = Z.to_nat (POINTER_WIDTH * POINTER_HEIGHT);
  po_saved : pointer_visible p = true ->
    pointer_saved_width p = POINTER_WIDTH /\ pointer_saved_height p = POINTER_HEIGHT }.

(** The console draws on a surface, in a region whose bounds do not wrap around. *)
Record printable (c : console_t) : Prop := {
  pr_mode : framebuffer_mode c = true;
  pr_target : target_surface c <> 0;
  pr_scale : 0 <= con_scale c;
  pr_cursor : 0 <= cursor_x c /\ 0 <= cursor_y c;
  pr_cell : 0 <= cell_w c /\ 0 <= cell_h c;
  pr_region : 0 <= region_w c /\ 0 <= region_h c;
  pr_x : 0 <= region_x c /\ region_x c + cell_w c <= UINT32_MAX;
  pr_y : 0 <= region_y c /\ region_y c + cell_h c <= UINT32_MAX }.

(** [v] is what the screen is taken to show and [vis] says which windows are
    visible. *)
Record session (v : Z -> Z -> Z) (vis : Z -> bool) (w : world) : Prop := {
  se_view : ui_view v (w_compositor w) (w_display w);
  se_dims : dims_ok (w_display w);
  se_layout : layout_ok (w_layout w);
  se_ids : forall i, 0 <= i < APP_COUNT -> compositor_id w i = i;
  se_ids_nonneg : forall i, 0 <= compositor_id w i;
  se_count : cp_window_count (w_compositor w) = APP_COUNT;
  se_windows : forall i, 0 <= i < APP_COUNT -> win_surface (window_at (w_compositor w) i) = app_surface i;
  se_visible : forall i, 0 <= i < APP_COUNT -> win_visible (window_at (w_compositor w) i) = vis i;
  se_active : active_app (w_desktop w) = APP_NONE \/ 0 <= active_app (w_desktop w) < APP_COUNT;
  se_user : forall i, APP_SNAKE <= i <= APP_NOTES ->
    surface_width (w_display w) (app_surface i) = ARGUS_APP_SURFACE_WIDTH + 14 /\
    surface_height (w_display w) (app_surface i) = title_height (w_layout w) + ARGUS_APP_SURFACE_HEIGHT + 15;
  se_screen : cp_width (w_compositor w) = gop_width (dp_gop (w_display w)) /\
              cp_height (w_compositor w) = gop_height (dp_gop (w_display w)) /\
              640 <= gop_width (dp_gop (w_display w)) /\ 400 <= gop_height (dp_gop (w_display w));
  se_selection : 0 <= launcher_selection (w_desktop w) < LAUNCHER_ENTRY_COUNT;
  se_pointer : desktop_online (w_desktop w) = true -> pointer_ok (dp_gop (w_display w)) (dk_pointer (w_desktop w));
  se_console : desktop_online (w_desktop w) = true -> printable (cw_con (w_console w)) }.

(** The framebuffer, the pointer and the sizes of the surfaces are as they were. *)
Definition quiet (w w' : world) : Prop :=
  dp_gop (w_display w') = dp_gop (w_display w) /\ desktop_online (w_desktop w') = desktop_online (w_desktop w) /\
  dk_pointer (w_desktop w') = dk_pointer (w_desktop w) /\
  (forall p, surface_width (w_display w') p = surface_width (w_display w) p /\
             surface_height (w_display w') p = surface_height (w_display w) p) /\
  forall x y, 0 <= x < gop_width (dp_gop (w_display w)) -> 0 <= y < gop_height (dp_gop (w_display w)) ->
    screen (dp_gop (w_display w)) (dp_mem (w_display w')) x y = screen (dp_gop (w_display w)) (dp_mem (w_display w)) x y.

Lemma quiet_world_refl w : quiet w w.
Proof. done. Qed.
Lemma quiet_world_trans w1 w2 w3 : quiet w1 w2 -> quiet w2 w3 -> quiet w1 w3.
Proof. 
  intros (G1 & O1 & P1 & D1 & S1) (G2 & O2 & P2 & D2 & S2). rewrite G1 in *. split_and!; [done|congruence|congruence| |].
  - intros p. destruct (D1 p) as [<- <-]. apply D2.
  - intros. by rewrite S2, S1.
Qed.

(** The window that is shown is the active one. *)
Definition shown (w : world) (i : Z) : bool := i =? active_app (w_desktop w).
Definition desk (v : Z -> Z -> Z) (w : world) : Prop := session v (shown w) w.

Lemma session_vis v vis vis' w :
  session v vis w -> (forall i, 0 <= i < APP_COUNT -> vis' i = vis i) -> session v vis' w.
Proof. intros [] Hv. constructor; try done. intros i Hi. rewrite Hv by done. auto. Qed.

(** A step of the desktop that keeps the session, whatever is shown. *)
Definition keeps_session (vis : Z -> bool) (w : world) (vis' : Z -> bool) (w' : world) : Prop :=
  forall v, session v vis w -> session v vis' w' /\ quiet w w'.

Lemma keeps_trans vis1 w1 vis2 w2 vis3 w3 :
  keeps_session vis1 w1 vis2 w2 -> keeps_session vis2 w2 vis3 w3 -> keeps_session vis1 w1 vis3 w3.
Proof.
  intros H1 H2 v Hs. destruct (H1 v Hs) as [Hs1 Q1]. destruct (H2 v Hs1) as [Hs2 Q2]. split; [done|by eapply quiet_world_trans].
Qed.

(** The invariant may be assumed while a step is analysed. *)
Lemma keeps_assume vis w vis' w' :
  ((exists v, session v vis w) -> keeps_session vis w vis' w') -> keeps_session vis w vis' w'.
Proof. intros Hk v Hs. apply Hk; [by exists v|done]. Qed.

(** Drawing, through the console or not. *)
Lemma keeps_console vis w con :
  draws (w_display w) (cw_display con) ->
  (desktop_online (w_desktop w) = true -> printable (cw_con (w_console w)) -> printable (cw_con con)) ->
  keeps_session vis w vis (with_console w con).
Proof.
  intros Hd Hc v Hs. pose proof Hs as []. destruct (Hd se_dims0 v _ se_view0) as (V & P & S).
  pose proof (sp_gop _ _ P) as Hg. split; [|split_and!; try done; intros p; by apply same_planes_dims].
  constructor; try done; change (w_display (with_console w con)) with (cw_display con); rewrite ?Hg; try done.
  - by eapply same_planes_dims_ok.
  - intros i Hi. destruct (same_planes_dims _ _ P (app_surface i)) as [-> ->]. by apply se_user0.
  - intros Ho. apply Hc; [done|by apply se_console0].
Qed.

Lemma keeps_draw vis w d' : draws (w_display w) d' -> keeps_session vis w vis (with_display w d').
Proof. intros Hd. by apply keeps_console. Qed.

(** The desktop's own variables, the pointer apart. *)
Lemma keeps_desktop vis w k :
  dk_layout k = dk_layout (w_desktop w) -> dk_pointer k = dk_pointer (w_desktop w) ->
  (active_app k = APP_NONE \/ 0 <= active_app k < APP_COUNT) -> 0 <= launcher_selection k < LAUNCHER_ENTRY_COUNT ->
  desktop_online k = desktop_online (w_desktop w) -> keeps_session vis w vis (with_desktop w k).
Proof.
  intros Hl Hp Ha Hn Ho v []. split; [|split_and!; done].
  constructor; try done; unfold compositor_id, w_layout in *; cbn [w_desktop with_desktop];
    change (w_display (with_desktop w k)) with (w_display w); rewrite ?Hl, ?Hp, ?Ho; done.
Qed.

Lemma keeps_kernel vis w k : keeps_session vis w vis (with_kernel w k).
Proof. intros v []. split; [by constructor|done]. Qed.

(** A new arrangement of the windows. *)
Lemma keeps_arrange vis vis' w c :
  (forall v, ui_view v (w_compositor w) (w_display w) -> ui_view v c (w_display w)) -> rearranged (w_compositor w) c ->
  (cp_window_count (w_compositor w) = APP_COUNT ->
   (forall i, 0 <= i < APP_COUNT -> win_visible (window_at (w_compositor w) i) = vis i) ->
   forall i, 0 <= i < APP_COUNT -> win_visible (window_at c i) = vis' i) ->
  keeps_session vis w vis' (with_compositor w c).
Proof.
  intros Hv [A B C D E F] Hvis v []. split; [|split_and!; done].
  constructor; try done; cbn [w_compositor with_compositor]; rewrite ?A, ?B, ?E; try done.
  - by apply Hv.
  - intros i Hi. rewrite F by (rewrite se_count0; done). by apply se_windows0.
  - by apply Hvis.
Qed.

Lemma session_lengths v vis w : session v vis w -> cp_window_count (w_compositor w) <= Z.of_nat (length (cp_windows (w_compositor w))).
Proof. intros []. destruct (sc_lengths _ _ (ui_scene _ _ se_view0)) as [-> _]. rewrite se_count0. unfold APP_COUNT. lia. Qed.

(** ** The operations *)

#[local] Abbreviation do_user_app := (do_user_app app_surface stray).
#[local] Abbreviation do_panel := (do_panel panel_surface).
#[local] Abbreviation hide_active_app := (hide_active_app panel_surface).
#[local] Abbreviation activate_app := (activate_app app_surface panel_surface stray).

Lemma keeps_set_visible vis w i b :
  0 <= i < APP_COUNT -> (exists v, session v vis w) ->
  exists w', set_visible w i b = (true, w') /\ keeps_session vis w (fun j => if j =? i then nz b else vis j) w'
    /\ w_desktop w' = w_desktop w /\ w_kernel w' = w_kernel w.
Proof.
  intros Hi [v0 Hs]. pose proof Hs as []. unfold set_visible. rewrite se_ids0 by done.
  pose proof (set_visible_rearranges (w_compositor w) (w_display w) i b) as Hr. rewrite se_count0 in Hr.
  specialize (Hr Hi). rewrite <- se_count0 in Hr at 1. specialize (Hr (session_lengths _ _ _ Hs)).
  pose proof (fun v => set_visible_step (v := v) (w_compositor w) (w_display w) i b) as Hv.
  destruct (compositor_set_window_visible _ _ _ _) as [ok c]. destruct Hr as (-> & Hr & Hvis).
  eexists. split_and!; [done| |done|done]. apply keeps_arrange; [|done|].
  - intros v Hw. apply Hv; [done|lia].
  - intros _ Hold j Hj. rewrite Hvis by done. by rewrite Hold.
Qed.

Lemma keeps_chrome vis w i : keeps_session vis w vis (do_chrome app_surface w i).
Proof. intros v Hs. eapply keeps_draw; [|exact Hs]. apply chrome_draws, Hs. Qed.
Lemma keeps_system vis w : keeps_session vis w vis (do_system app_surface w).
Proof. intros v Hs. eapply keeps_draw; [|exact Hs]. apply system_draws, Hs. Qed.
Lemma keeps_files vis w : keeps_session vis w vis (do_files app_surface w).
Proof. intros v Hs. eapply keeps_draw; [|exact Hs]. apply files_draws, Hs. Qed.
Lemma keeps_applications vis w : keeps_session vis w vis (do_applications app_surface w).
Proof. intros v Hs. eapply keeps_draw; [|exact Hs]. apply applications_draws, Hs. Qed.

Lemma keeps_panel vis w : keeps_session vis w vis (do_panel w).
Proof.
  intros v Hs. unfold Desktop.do_panel.
  pose proof (panel_draws panel_surface (w_layout w) (se_layout _ _ _ Hs) (active_app (w_desktop w)) (w_display w)) as Hp.
  destruct (render_panel _ _ _ _) as [tasks d]. cbn [snd] in Hp. revert v Hs.
  eapply keeps_trans; [|by apply keeps_draw]. intros v Hs. eapply keeps_desktop; [..|exact Hs]; try done; apply Hs.
Qed.

Lemma app_window_valid v vis w i : session v vis w -> 0 <= i < APP_COUNT -> surface_valid (w_display w) (app_surface i) = true.
Proof.
  intros [] Hi. destruct (sc_fits _ _ (ui_scene _ _ se_view0) i) as (s & Hs & Hok & _); [by rewrite se_count0|].
  rewrite se_windows0 in Hs by done. unfold surface_valid. rewrite Hs. by apply valid_of_ok.
Qed.

Lemma keeps_user_app vis w i : APP_SNAKE <= i <= APP_NOTES -> keeps_session vis w vis (do_user_app w i).
Proof.
  intros Hi v Hs. unfold Desktop.do_user_app. destruct (se_user _ _ _ Hs i Hi) as [Hw Hh].
  pose proof (user_app_draws app_surface stray (w_layout w) (se_layout _ _ _ Hs) (w_kernel w) i (w_display w) Hw Hh) as Hd.
  specialize (Hd (app_window_valid _ _ _ i Hs ltac:(unfold APP_SNAKE, APP_NOTES, APP_COUNT in *; lia))).
  destruct (render_user_app _ _ _ _ _ _) as [sequence d]. cbn [snd] in Hd. revert v Hs.
  eapply keeps_trans; [|by apply keeps_draw]. intros v Hs. eapply keeps_desktop; [..|exact Hs]; try done; apply Hs.
Qed.

Lemma keeps_content vis w i : keeps_session vis w vis (render_app_content app_surface stray w i).
Proof.
  unfold render_app_content. repeat case_if; auto using keeps_system, keeps_files, keeps_applications.
  - b2p. apply keeps_user_app. lia.
  - intros v Hs. split; [done|apply quiet_world_refl].
Qed.

(** Rendering leaves the desktop's variables but the two it writes. *)
Definition same_desktop (w w' : world) : Prop :=
  active_app (w_desktop w') = active_app (w_desktop w) /\ dk_drag (w_desktop w') = dk_drag (w_desktop w) /\
  launcher_selection (w_desktop w') = launcher_selection (w_desktop w).

Lemma panel_same w : same_desktop w (do_panel w).
Proof. unfold Desktop.do_panel. by destruct (render_panel _ _ _ _). Qed.
Lemma user_app_same w i : same_desktop w (do_user_app w i).
Proof. unfold Desktop.do_user_app. by destruct (render_user_app _ _ _ _ _ _). Qed.
Lemma content_same w i : same_desktop w (render_app_content app_surface stray w i).
Proof. unfold render_app_content. repeat case_if; try done. apply user_app_same. Qed.

(** A desktop operation takes one state in which the active window is the visible
    one to another, leaving the framebuffer and the pointer. *)
Definition keeps_desk (w w' : world) : Prop := keeps_session (shown w) w (shown w') w'.

Lemma keeps_desk_trans w1 w2 w3 : keeps_desk w1 w2 -> keeps_desk w2 w3 -> keeps_desk w1 w3.
Proof. apply keeps_trans. Qed.
Lemma keeps_desk_refl w : keeps_desk w w.
Proof. intros v Hs. split; [done|apply quiet_world_refl]. Qed.

Lemma keeps_shown w w' vis :
  keeps_session (shown w) w vis w' -> (forall i, 0 <= i < APP_COUNT -> shown w' i = vis i) -> keeps_desk w w'.
Proof. intros Hk Hv v Hs. destruct (Hk v Hs) as [Hs' Q]. split; [by eapply session_vis|done]. Qed.

Lemma keeps_same w w' : same_desktop w w' -> keeps_session (shown w) w (shown w) w' -> keeps_desk w w'.
Proof. intros (Ha & _) Hk. eapply keeps_shown; [exact Hk|]. intros i _. unfold shown. by rewrite Ha. Qed.

Lemma hide_keeps w close : keeps_desk w (snd (hide_active_app w close)).
Proof.
  apply keeps_assume. intros [v0 Hs0]. unfold Desktop.hide_active_app.
  destruct (Z.eqb_spec (active_app (w_desktop w)) APP_NONE) as [|Hne]; [apply keeps_desk_refl|].
  assert (0 <= active_app (w_desktop w) < APP_COUNT) as Ha by (destruct (se_active _ _ _ Hs0); done).
  set (app_id := user_app_id _). set (previous := active_app (w_desktop w)) in *.
  destruct (keeps_set_visible (shown w) w previous 0 Ha (ex_intro _ v0 Hs0)) as (w1 & -> & K1 & D1 & _). cbn [negb].
  set (w2 := with_kernel _ _).
  assert (forall i, 0 <= i < APP_COUNT -> shown w2 i = (if i =? previous then nz 0 else shown w i)) as Hsh.
  { intros i Hi. unfold shown, w2, previous. cbn. destruct (Z.eqb_spec i APP_NONE); [unfold APP_NONE, UINT32_MAX, APP_COUNT in *; lia|].
    destruct (Z.eqb_spec i (active_app (w_desktop w))); done. }
  assert (keeps_desk w w2) as K2.
  { eapply keeps_shown; [|exact Hsh]. eapply keeps_trans; [exact K1|]. eapply keeps_trans; [|apply keeps_kernel].
    intros v Hs. eapply keeps_desktop; [..|exact Hs]; try done; [by left|apply Hs]. }
  assert (forall w3, (w3 = w2 \/ exists k, w3 = with_kernel w2 k) -> keeps_desk w w3) as K3.
  { intros w3 [->|[k ->]]; [done|]. eapply keeps_desk_trans; [exact K2|]. apply keeps_same; [done|apply keeps_kernel]. }
  destruct (if close && nz app_id then _ else _) as [stopped w3] eqn:E3.
  assert (keeps_desk w w3) as K4.
  { apply K3. destruct (close && nz app_id); [|injection E3 as _ <-; by left].
    destruct (svc_app_stop _ _) as [b k]. injection E3 as _ <-. right. by exists k. }
  destruct stopped; [|exact K4]. cbn [negb]. cbv zeta. cbn [snd].
  set (w4 := if nz app_id && close then _ else _).
  assert (keeps_desk w w4) as K5.
  { unfold w4. case_if; [|done]. eapply keeps_desk_trans; [exact K4|]. apply keeps_same; [done|].
    intros v Hs. eapply keeps_desktop; [..|exact Hs]; try done; apply Hs. }
  eapply keeps_desk_trans; [exact K5|]. apply keeps_same; [apply panel_same|apply keeps_panel].
Qed.

Lemma layer_of v vis w i : session v vis w -> 0 <= i < APP_COUNT ->
  exists j, 0 <= j < cp_window_count (w_compositor w) /\ z_at (w_compositor w) j = i.
Proof.
  intros [] Hi. pose proof (ui_scene _ _ se_view0) as Hsc. pose proof (sc_lengths _ _ Hsc) as [_ Hz].
  assert (i ∈ layers (w_compositor w)) as Hin.
  { rewrite (sc_layers _ _ Hsc), se_count0. apply elem_of_zrange. unfold APP_COUNT in *. lia. }
  apply list_elem_of_lookup in Hin as [j Hj]. unfold layers in Hj. apply lookup_take_Some in Hj as [Hj Hlt].
  exists (Z.of_nat j). split; [lia|]. unfold z_at, zget. by rewrite Nat2Z.id, Hj.
Qed.

Lemma keeps_raise vis w i :
  0 <= i < APP_COUNT -> (exists v, session v vis w) ->
  exists c, compositor_raise_window (w_compositor w) (w_display w) (compositor_id w i) = (true, c) /\
    keeps_session vis w vis (with_compositor w c).
Proof.
  intros Hi [v Hs]. rewrite (se_ids _ _ _ Hs) by done.
  pose proof (raise_rearranges (w_compositor w) (w_display w) i (layer_of _ _ _ _ Hs Hi)) as Hr.
  rewrite (se_count _ _ _ Hs) in Hr. specialize (Hr Hi).
  pose proof (fun v => raise_step (v := v) (w_compositor w) (w_display w) i) as Hv.
  destruct (compositor_raise_window _ _ _) as [raised c]. destruct Hr as (-> & Hr & Hvis).
  exists c. split; [done|]. apply keeps_arrange; [intros v' Hw; apply Hv; [done|lia]|done|]. intros _ Hold j Hj. rewrite Hvis. by apply Hold.
Qed.

(** The window shown before another is activated disappears. *)
Lemma keeps_switch active w app_index :
  (active = APP_NONE \/ 0 <= active < APP_COUNT) -> (exists v, session v (fun i => i =? active) w) ->
  exists w', (if (active !=? APP_NONE) && (active !=? app_index) then set_visible w active 0 else (true, w)) = (true, w')
    /\ keeps_session (fun i => i =? active) w (fun i => (i =? active) && (active =? app_index)) w'
    /\ w_desktop w' = w_desktop w.
Proof.
  intros Ha Hs. assert (forall vis, (forall i, 0 <= i < APP_COUNT -> vis i = (i =? active)) ->
    keeps_session (fun i => i =? active) w vis w) as Hstay.
  { intros vis Hv v Hv'. split; [by eapply session_vis|apply quiet_world_refl]. }
  destruct (Z.eqb_spec active APP_NONE) as [En|En]; cbn [negb andb].
  - exists w. split_and!; [done| |done]. apply Hstay. intros i Hi.
    destruct (Z.eqb_spec i active); [unfold APP_NONE, UINT32_MAX, APP_COUNT in *; lia|done].
  - destruct (Z.eqb_spec active app_index) as [Ei|Ei]; cbn [negb].
    + exists w. split_and!; [done| |done]. apply Hstay. intros i _. by rewrite andb_true_r.
    + destruct (keeps_set_visible _ w active 0 ltac:(by destruct Ha) Hs) as (w' & E & K1 & D1 & _).
      exists w'. split_and!; [done| |done]. intros v Hv. destruct (K1 v Hv) as [Hs' Q]. split; [|done].
      eapply session_vis; [exact Hs'|]. intros i _. cbn. rewrite andb_false_r. by destruct (i =? active).
Qed.

Lemma activate_keeps w app_index : 0 <= app_index -> keeps_desk w (snd (activate_app w app_index)).
Proof.
  intros Hi. apply keeps_assume. intros [v0 Hs0]. unfold Desktop.activate_app.
  destruct (Z.leb_spec APP_COUNT app_index) as [|Hlt]; [apply keeps_desk_refl|]. cbv zeta.
  set (app_id := user_app_id app_index). set (previous := active_app (w_desktop w)).
  destruct (if nz app_id && negb _ then _ else _) as [started w1] eqn:E1.
  assert (keeps_session (shown w) w (shown w) w1 /\ w_desktop w1 = w_desktop w) as [K1 D1].
  { destruct (nz app_id && _); [|injection E1 as _ <-; split; [apply keeps_desk_refl|done]].
    destruct (svc_app_start _ _) as [b k]. injection E1 as _ <-. split; [apply keeps_kernel|done]. }
  assert (exists v, session v (shown w) w1) as Hs1 by (exists v0; by apply K1).
  destruct started; [|eapply keeps_shown; [exact K1|]; intros i _; unfold shown; cbn [snd negb]; by rewrite D1]. cbn [negb].
  destruct (keeps_switch previous w1 app_index (se_active _ _ _ Hs0) Hs1) as (w2 & -> & K2 & D2).
  set (vis := fun i => (i =? previous) && (previous =? app_index)) in *.
  cbn [negb]. set (w3 := with_kernel _ _). set (w5 := render_app_content _ _ _ _).
  assert (keeps_session vis w2 vis w5 /\ active_app (w_desktop w5) = app_index) as [K5 D5].
  { split.
    - eapply keeps_trans; [|apply keeps_content]. eapply keeps_trans; [|apply keeps_chrome].
      eapply keeps_trans; [|apply keeps_kernel]. intros v Hs. eapply keeps_desktop; [..|exact Hs]; try done; [right; cbn; lia|apply Hs].
    - unfold w5. destruct (content_same (do_chrome app_surface w3 app_index) app_index) as (-> & _). done. }
  assert (exists v, session v vis w5) as Hs5 by (destruct Hs1 as [v Hv]; exists v; by apply K5, K2).
  destruct (keeps_set_visible vis w5 app_index 1 (conj Hi Hlt) Hs5) as (w6 & -> & K6 & D6 & _). cbn [negb].
  destruct (keeps_raise (fun j => if j =? app_index then nz 1 else vis j) w6 app_index (conj Hi Hlt)) as (c & -> & K7);
    [destruct Hs5 as [v Hv]; exists v; by apply K6|]. cbn [negb snd]. set (w7 := with_compositor w6 c) in *.
  eapply keeps_shown.
  - eapply keeps_trans; [exact K1|]. eapply keeps_trans; [exact K2|]. eapply keeps_trans; [exact K5|].
    eapply keeps_trans; [exact K6|]. eapply keeps_trans; [exact K7|apply keeps_panel].
  - intros i Hr. unfold shown. destruct (panel_same w7) as (-> & _). change (w_desktop w7) with (w_desktop w6). rewrite D6, D5.
    destruct (Z.eqb_spec i app_index) as [|Hn]; [done|]. unfold vis.
    destruct (Z.eqb_spec i previous) as [->|]; [|done]. destruct (Z.eqb_spec previous app_index); done.
Qed.

#[local] Abbreviation left_press := (left_press app_surface panel_surface stray).
#[local] Abbreviation click_window := (click_window app_surface panel_surface stray).

Lemma keeps_desktop_same w k :
  dk_layout k = dk_layout (w_desktop w) -> dk_pointer k = dk_pointer (w_desktop w) ->
  active_app k = active_app (w_desktop w) ->
  (0 <= launcher_selection (w_desktop w) < LAUNCHER_ENTRY_COUNT -> 0 <= launcher_selection k < LAUNCHER_ENTRY_COUNT) ->
  desktop_online k = desktop_online (w_desktop w) -> keeps_desk w (with_desktop w k).
Proof.
  intros Hl Hp Ha Hn Ho. eapply (keeps_shown _ _ (shown w)); [|intros i _; unfold shown; cbn; by rewrite Ha].
  intros v Hs. eapply keeps_desktop; [done|done| | |done|exact Hs]; [rewrite Ha|apply Hn]; apply Hs.
Qed.

Lemma launcher_target_range i : 0 <= zget 0 launcher_targets i.
Proof.
  assert (Forall (fun x => 0 <= x) launcher_targets) as Hf by (by repeat constructor).
  unfold zget. destruct (launcher_targets !! Z.to_nat i) eqn:E; [|done]. exact (Forall_lookup_1 _ _ _ _ Hf E).
Qed.

Lemma launcher_entry_range (w : world) local_x local_y entry :
  layout_ok (w_layout w) -> launcher_entry_at app_surface w local_x local_y = Some entry -> 0 <= entry < LAUNCHER_ENTRY_COUNT.
Proof.
  intros Hl. unfold launcher_entry_at. cbv zeta.
  replace (u32 (u32 (11 * scale (w_layout w)) + u32 (2 * scale (w_layout w)))) with (13 * scale (w_layout w)).
  2: { rewrite !(u32_id (_ * _)) by (unfold UINT32_MAX; destruct Hl; lia). rewrite u32_id by (unfold UINT32_MAX; destruct Hl; lia). lia. }
  case_if; [done|]. case_if; [done|]. intros [= <-]. rewrite !orb_false_iff in *. destruct_and!. b2p. split; [|done].
  apply Z.div_pos; [lia|]. destruct Hl; lia.
Qed.

Lemma click_keeps w app_index local_x local_y : 0 <= app_index -> keeps_desk w (click_window w app_index local_x local_y).
Proof.
  intros Hi. unfold Desktop.click_window. cbv zeta. eapply keeps_desk_trans; [by apply activate_keeps|].
  set (w1 := snd (activate_app w app_index)). apply keeps_assume. intros [v Hs]. case_if; [apply hide_keeps|]. case_if; [apply hide_keeps|].
  destruct (if app_index =? APP_APPLICATIONS then _ else _) as [entry|] eqn:E.
  - eapply keeps_desk_trans; [|apply activate_keeps, launcher_target_range]. apply keeps_desktop_same; try done.
    intros _. destruct (app_index =? APP_APPLICATIONS); [|done]. eapply launcher_entry_range; [apply Hs|exact E].
  - case_if; [|apply keeps_desk_refl]. by apply keeps_desktop_same.
Qed.

Lemma left_press_keeps w : keeps_desk w (left_press w).
Proof.
  unfold Desktop.left_press. cbv zeta. destruct (panel_app_at w _ _) as [app_index|] eqn:Ep.
  - eapply keeps_desk_trans; [|by apply keeps_desktop_same]. case_if; [apply hide_keeps|]. apply keeps_assume. intros [v Hs].
    apply activate_keeps. unfold panel_app_at in Ep. cbv zeta in Ep. repeat case_if_in Ep; try done; injection Ep as <-; [done|].
    destruct (se_active _ _ _ Hs) as [E|E]; [|lia]. by rewrite E in *.
  - destruct (compositor_window_at _ _ _ _) as [[[id lx] ly]|]; [|apply keeps_desk_refl].
    destruct (zfind _ _ _) as [app_index|] eqn:Ef; [|apply keeps_desk_refl]. apply zfind_Some in Ef as ((Hr & _) & _). by apply click_keeps.
Qed.

Lemma drag_keeps w : keeps_desk w (drag_step w).
Proof.
  apply keeps_assume. intros [v Hs]. unfold drag_step. cbv zeta. set (new_x := if _ <? pointer_x _ then _ else _).
  set (new_y := if _ <? pointer_y _ then _ else _). set (id := compositor_id w _).
  assert (0 <= id /\ 0 <= new_x /\ 0 <= new_y) as (Hid & Hnx & Hny).
  { split; [apply Hs|]. unfold new_x, new_y. split; case_if; b2p; lia. }
  pose proof (move_rearranges (w_compositor w) (w_display w) id new_x new_y Hid (session_lengths _ _ _ Hs)) as Hr.
  pose proof (fun v => move_step (v := v) (w_compositor w) (w_display w) id new_x new_y) as Hv.
  destruct (compositor_move_window _ _ _ _ _) as [moved c]. destruct Hr as [Hr Hvis].
  assert (keeps_desk w (with_compositor w c)) as Hk.
  { apply keeps_arrange; [intros v' Hv'; by apply Hv|done|]. intros Hc Hold i Hi. rewrite Hvis by (by rewrite Hc). by apply Hold. }
  case_if; [|done]. eapply keeps_desk_trans; [exact Hk|]. by apply keeps_desktop_same.
Qed.

(** ** The pointer and presenting *)

Definition in_screen (w : world) (x y : Z) : Prop :=
  0 <= x < gop_width (dp_gop (w_display w)) /\ 0 <= y < gop_height (dp_gop (w_display w)).
Definition pixels (w : world) : Z -> Z -> Z := screen (dp_gop (w_display w)) (dp_mem (w_display w)).
Definition under_pointer (p : pointer_t) (x y : Z) : bool :=
  pointer_visible p && in_rect (pointer_x p) (pointer_y p) (pointer_saved_width p) (pointer_saved_height p) x y.

Definition composed (w : world) : Z -> Z -> Z := composition (w_compositor w) (w_display w).

(** What the screen shows, or would if the pointer were hidden. *)
Definition behind (w : world) (x y : Z) : Z :=
  let p := dk_pointer (w_desktop w) in
  if under_pointer p x y then u32 (zget 0 (pointer_saved p) ((y - pointer_y p) * POINTER_WIDTH + (x - pointer_x p)))
  else pixels w x y.

Lemma quiet_behind w w' x y : quiet w w' -> in_screen w x y -> behind w' x y = behind w x y.
Proof. intros (G & _ & P & _ & S) [Hx Hy]. unfold behind, pixels. rewrite P, G. by rewrite S. Qed.

Lemma on_screen_in v vis w x y : session v vis w -> (on_screen (w_compositor w) (w_display w) x y <-> in_screen w x y).
Proof. intros []. destruct se_screen0 as (Hw & Hh & _). unfold on_screen, in_screen. rewrite Hw, Hh. lia. Qed.

(** What is shown may be replaced by what agrees with it on the screen. *)
Lemma session_ext v v' vis w :
  session v vis w -> (forall x y, in_screen w x y -> v' x y = v x y) -> session v' vis w.
Proof.
  intros Hs Hv. pose proof Hs as []. constructor; try done. eapply ui_view_ext; [exact se_view0|].
  intros x y Hxy. apply Hv. by eapply on_screen_in.
Qed.

Lemma pending_repaint c d m x y : pending c d x y -> pending c (put_mem d m) x y.
Proof. intros []; [by apply pending_covered|by eapply pending_window|by apply pending_panel]. Qed.

(** Painting the framebuffer alone. *)
Lemma repaint_session v vis w p m :
  session v vis w -> painted (w_display w) m -> pointer_ok (dp_gop (w_display w)) p ->
  session v vis (with_display (with_desktop w (set_pointer (w_desktop w) p)) (put_mem (w_display w) m)).
Proof.
  intros [] Hm Hp. constructor; try done. pose proof se_view0 as [Hd Hdm Hsc Hcur]. constructor.
  - by apply painted_display.
  - done.
  - by apply painted_scene.
  - intros x y Hxy. destruct (Hcur x y Hxy) as [Hpe|E]; [left; by apply pending_repaint|right]. rewrite E. symmetry. apply painted_composition; try done. apply Hxy.
Qed.

Lemma hide_session v vis w :
  session v vis w -> desktop_online (w_desktop w) = true ->
  let w' := desktop_pointer_hide w in
  session v vis w' /\ pointer_visible (dk_pointer (w_desktop w')) = false /\
  dp_gop (w_display w') = dp_gop (w_display w) /\ active_app (w_desktop w') = active_app (w_desktop w) /\
  desktop_online (w_desktop w') = true /\
  forall x y, in_screen w x y -> pixels w' x y = behind w x y.
Proof.
  intros Hs Ho. pose proof (se_pointer _ _ _ Hs Ho) as [A B C D E]. unfold desktop_pointer_hide, behind, under_pointer. cbv zeta.
  set (p := dk_pointer (w_desktop w)) in *. destruct (pointer_visible p) eqn:Ev; cbn [negb].
  2: { split_and!; done. }
  destruct (E eq_refl) as [Hw Hh]. pose proof (do_gop _ (ui_display _ _ (se_view _ _ _ Hs))) as Hg.
  destruct (undraw_pointer_spec (dp_gop (w_display w)) Hg (pointer_x p) (pointer_y p) (pointer_saved_width p) (pointer_saved_height p))
    with (saved := pointer_saved p) (m := dp_mem (w_display w)) as [Hout Hpx]; [lia|lia|lia|lia|rewrite Hw; unfold POINTER_WIDTH; lia|rewrite Hh; unfold POINTER_HEIGHT; lia|].
  split_and!; [|done|done|done|done|].
  - apply repaint_session; [done|exact Hout|]. constructor; done.
  - intros x y Hxy. apply (Hpx x y Hxy).
Qed.

Lemma show_session v vis w :
  session v vis w -> desktop_online (w_desktop w) = true ->
  let w' := desktop_pointer_show w in
  session v vis w' /\ dp_gop (w_display w') = dp_gop (w_display w) /\ active_app (w_desktop w') = active_app (w_desktop w) /\
  desktop_online (w_desktop w') = true /\
  (forall x y, in_screen w x y -> behind w' x y = behind w x y) /\
  (forall x y, in_screen w x y -> composed w' x y = composed w x y) /\
  (pointer_visible (dk_pointer (w_desktop w)) = false -> forall x y, in_screen w x y ->
     pixels w' x y = match (if under_pointer (dk_pointer (w_desktop w')) x y
                            then pointer_dot (colors (w_layout w)) (x - desktop_pointer_x w) (y - desktop_pointer_y w) else None) with
                     | Some color => u32 color
                     | None => pixels w x y
                     end).
Proof.
  intros Hs Ho. pose proof (se_pointer _ _ _ Hs Ho) as [A B C D E]. unfold desktop_pointer_show. cbv zeta.
  unfold POINTER_WIDTH, POINTER_HEIGHT in B, C. set (p := dk_pointer (w_desktop w)) in *. case_if.
  { split_and!; try done. intros Hv x y _. unfold under_pointer. fold p. by rewrite Hv. }
  rewrite !orb_false_iff in *. destruct_and!.
  pose proof (do_gop _ (ui_display _ _ (se_view _ _ _ Hs))) as Hg. pose proof Hg as [_ Hgw Hgp Hgh _ _ _].
  set (g := dp_gop (w_display w)) in *.
  replace (minimum POINTER_WIDTH (u32 (gop_width g - pointer_x p))) with POINTER_WIDTH
    by (rewrite minimum_min, u32_id by lia; unfold POINTER_WIDTH; lia).
  replace (minimum POINTER_HEIGHT (u32 (gop_height g - pointer_y p))) with POINTER_HEIGHT
    by (rewrite minimum_min, u32_id by lia; unfold POINTER_HEIGHT; lia).
  pose proof (draw_pointer_spec g Hg (pointer_x p) (pointer_y p) POINTER_WIDTH POINTER_HEIGHT) as Hdraw.
  unfold POINTER_WIDTH, POINTER_HEIGHT in Hdraw. specialize (Hdraw ltac:(lia) ltac:(lia) ltac:(lia) ltac:(lia) ltac:(lia) ltac:(lia)
    (colors (w_layout w)) (pointer_saved p) (dp_mem (w_display w)) D).
  unfold POINTER_WIDTH, POINTER_HEIGHT.
  destruct (draw_pointer _ _ _ _ _ _ _) as [saved m]. destruct Hdraw as (Hl & Hout & Hpx & Hsv). split_and!; try done.
  - apply repaint_session; [done|exact Hout|]. constructor; cbn; try done. by rewrite Hl.
  - intros x y Hxy. unfold behind, under_pointer, pixels. cbn [w_desktop with_display with_console with_desktop dk_pointer set_pointer
      set_pointer_visible set_pointer_saved pointer_visible pointer_x pointer_y pointer_saved pointer_saved_width pointer_saved_height].
    fold p. destruct (pointer_visible p) eqn:Ev; [done|]. cbn [andb].
    change (dp_mem (w_display _)) with m at 1. change (dp_gop (w_display _)) with g at 1.
    destruct (in_rect (pointer_x p) (pointer_y p) 12 16 x y) eqn:Ein.
    + apply in_rect_true in Ein as [Hx Hy]. rewrite Hsv by lia. unfold screen, pixel. rewrite load32_u32.
      by replace (pointer_x p + (x - pointer_x p)) with x by lia; replace (pointer_y p + (y - pointer_y p)) with y by lia.
    + change (screen g m x y = screen g (dp_mem (w_display w)) x y). rewrite Hpx by done. by rewrite Ein.
  - intros x y Hxy. pose proof (se_view _ _ _ Hs) as [Hd _ Hsc _]. apply painted_composition; try done.
    apply (on_screen_in _ _ _ _ _ Hs) in Hxy. apply Hxy.
Qed.

(** Presenting brings the screen to the composition, except where it took what is
    shown to be the composition already. *)
Lemma present_session v vis w :
  session v vis w ->
  exists w', present w = (true, w') /\ session (composed w') vis w' /\
    w_desktop w' = w_desktop w /\ dp_gop (w_display w') = dp_gop (w_display w) /\
    forall x y, in_screen w x y -> composed w' x y = composed w x y /\
      (pixels w' x y = composed w x y \/ pixels w' x y = pixels w x y /\ v x y = composed w x y).
Proof.
  intros Hs. pose proof Hs as []. unfold present. pose proof (present_view v _ _ se_view0) as Hp.
  pose proof (present_planes (w_compositor w) (w_display w)) as Hpl.
  destruct (compositor_present _ _) as [[ok c] d]. cbn [snd] in Hpl. destruct Hp as (-> & Hv & Hg & Hn & (dm & f & px & q & Ec) & Hpx).
  eexists. split; [done|]. split_and!; try done.
  - constructor; try done; cbn [w_compositor with_compositor with_display with_console w_display w_console cw_display put_display];
      rewrite ?Hg; try (by rewrite Ec).
    + by eapply same_planes_dims_ok.
    + intros i Hi. destruct (same_planes_dims _ _ Hpl (app_surface i)) as [-> ->]. by apply se_user0.
  - intros x y Hxy. apply (on_screen_in _ _ _ _ _ Hs) in Hxy. destruct (Hpx x y Hxy) as (_ & E & S). split; [exact E|].
    change (pixels (with_display (with_compositor w c) d) x y) with (screen (dp_gop d) (dp_mem d) x y). rewrite Hg. exact S.
Qed.

(** ** Every event keeps the invariant *)

(** Behind the pointer the screen shows the composition, or is about to, except
    where [stale] says that it may not.  The pixels that can go stale are those
    under a pointer that is shown while a key has the compositor present: the
    picture saved behind the pointer is then an old one. *)
Definition tracks (stale : Z -> Z -> Prop) (w : world) : Prop :=
  desktop_online (w_desktop w) = true /\
  exists v, desk v w /\ forall x y, in_screen w x y -> ~ stale x y -> v x y = behind w x y.

Definition pointer_hidden (w : world) : Prop := pointer_visible (dk_pointer (w_desktop w)) = false.

(** No pixel, and the pixels under the pointer as well. *)
Definition nowhere : Z -> Z -> Prop := fun _ _ => False.
Definition spoiled (stale : Z -> Z -> Prop) (w : world) : Z -> Z -> Prop :=
  fun x y => stale x y \/ under_pointer (dk_pointer (w_desktop w)) x y = true.

Lemma tracks_session e w : tracks e w -> exists v, desk v w.
Proof. intros (_ & v & Hv & _). by exists v. Qed.

Lemma tracks_online e w : tracks e w -> desktop_online (w_desktop w) = true.
Proof. by intros []. Qed.

Lemma tracks_mono (e e' : Z -> Z -> Prop) w : (forall x y, e x y -> e' x y) -> tracks e w -> tracks e' w.
Proof. intros He (Ho & v & Hv & Hb). split; [done|]. exists v. split; [done|]. intros x y Hxy Hn. apply Hb; [done|]. auto. Qed.

Lemma hidden_pointer w (e : Z -> Z -> Prop) :
  pointer_hidden w -> forall x y, under_pointer (dk_pointer (w_desktop w)) x y = true -> e x y.
Proof. intros Hh x y. unfold under_pointer. rewrite Hh. done. Qed.

Lemma tracks_keeps e w w' : keeps_desk w w' -> tracks e w -> tracks e w'.
Proof.
  intros Hk (Ho & v & Hv & Hb). destruct (Hk v Hv) as [Hv' Q]. pose proof Q as (G & E & _). split; [by rewrite E|].
  exists v. split; [done|]. intros x y Hxy Hn. assert (in_screen w x y) as Hxy' by (unfold in_screen in *; by rewrite G in Hxy).
  rewrite (quiet_behind w w') by done. by apply Hb.
Qed.

Lemma keeps_hidden w w' : keeps_desk w w' -> (exists v, desk v w) -> pointer_hidden w -> pointer_hidden w'.
Proof. intros Hk [v Hs] Hh. destruct (Hk v Hs) as [_ (_ & _ & Hp & _)]. unfold pointer_hidden. by rewrite Hp. Qed.

(** A step after which the same windows are shown and nothing seems different. *)
Lemma tracks_step e w w' :
  (forall v, session v (shown w) w -> session v (shown w) w') -> active_app (w_desktop w') = active_app (w_desktop w) ->
  dp_gop (w_display w') = dp_gop (w_display w) -> desktop_online (w_desktop w') = true ->
  (forall x y, in_screen w x y -> behind w' x y = behind w x y) -> tracks e w -> tracks e w'.
Proof.
  intros Hs Ha Hg Ho Hb (_ & v & Hv & Ht). split; [done|]. exists v. split.
  - eapply session_vis; [by apply Hs|]. intros; unfold shown; by rewrite Ha.
  - intros x y Hxy Hn. assert (in_screen w x y) as Hxy' by (unfold in_screen in *; by rewrite Hg in Hxy).
    rewrite Hb by done. by apply Ht.
Qed.

Lemma tracks_hide e w : tracks e w -> tracks e (desktop_pointer_hide w) /\ pointer_hidden (desktop_pointer_hide w).
Proof.
  intros Ht. pose proof (tracks_online e w Ht) as Ho. destruct (tracks_session e w Ht) as [v Hv].
  destruct (hide_session v (shown w) w Hv Ho) as (_ & Hh & Hg & Ha & Ho' & Hp).
  split; [|done]. revert Ht. apply tracks_step; [intros v' Hs; by apply hide_session|done|done|done|].
  intros x y Hxy. unfold behind at 1, under_pointer. cbv zeta. rewrite Hh. cbn [andb]. by apply Hp.
Qed.

Lemma tracks_show e w : tracks e w -> tracks e (desktop_pointer_show w).
Proof.
  intros Ht. pose proof (tracks_online e w Ht) as Ho. destruct (tracks_session e w Ht) as [v Hv].
  destruct (show_session v (shown w) w Hv Ho) as (_ & Hg & Ha & Ho' & Hb & _ & _).
  revert Ht. apply tracks_step; [intros v' Hs; by apply show_session|done|done|done|]. intros x y Hxy. by apply Hb.
Qed.

Lemma tracks_present (e : Z -> Z -> Prop) w :
  tracks e w -> (forall x y, under_pointer (dk_pointer (w_desktop w)) x y = true -> e x y) ->
  tracks e (snd (present w)) /\ fst (present w) = true /\ w_desktop (snd (present w)) = w_desktop w /\
  (forall x y, in_screen w x y -> ~ e x y -> pixels (snd (present w)) x y = composed (snd (present w)) x y).
Proof.
  intros (Ho & v & Hv & Hb) Hh. destruct (present_session _ _ w Hv) as (w' & -> & Hs & Hd & Hg & Hpx). cbn [fst snd].
  assert (forall x y, ~ e x y -> under_pointer (dk_pointer (w_desktop w)) x y = false) as Hu.
  { intros x y Hn. destruct (under_pointer _ x y) eqn:E; [|done]. by destruct Hn; apply Hh. }
  assert (forall x y, in_screen w x y -> ~ e x y -> pixels w' x y = composed w' x y) as Heq.
  { intros x y Hxy Hn. destruct (Hpx x y Hxy) as [-> [E|[-> E]]]; [done|]. rewrite <- E, Hb by done.
    unfold behind. by rewrite (Hu x y Hn). }
  split_and!; [|done|done|done]. split; [by rewrite Hd|]. exists (composed w'). split.
  - eapply session_vis; [exact Hs|intros; unfold shown; by rewrite Hd].
  - intros x y Hxy Hn. unfold behind. cbv zeta. rewrite Hd, (Hu x y Hn). symmetry. apply Heq; [|done].
    unfold in_screen in *. by rewrite Hg in Hxy.
Qed.

(** Moving a hidden pointer and the buttons it remembers. *)
Lemma tracks_pointer e w p :
  tracks e w -> pointer_hidden w -> pointer_visible p = false -> pointer_ok (dp_gop (w_display w)) p ->
  tracks e (with_desktop w (set_pointer (w_desktop w) p)).
Proof.
  intros Ht Hh Hv Hp. pose proof (tracks_online e w Ht) as Ho. revert Ht. apply tracks_step; [|done|done|done|].
  - intros v []. by constructor.
  - intros x y Hxy. unfold behind, under_pointer. cbv zeta. rewrite Hh. cbn [w_desktop with_desktop dk_pointer set_pointer].
    by rewrite Hv.
Qed.

Lemma clamp_range value maximum : 0 <= maximum <= UINT32_MAX -> 0 <= clamp_pointer_coordinate value maximum <= maximum.
Proof. intros Hm. unfold clamp_pointer_coordinate. case_if; [lia|]. case_if; b2p; [lia|]. rewrite u32_id by lia. lia. Qed.

(** Away from the stale pixels the screen is the composition with the pointer, if
    it is shown, on top. *)
Definition displayed (stale : Z -> Z -> Prop) (w : world) : Prop := forall x y, in_screen w x y -> ~ stale x y ->
  pixels w x y = match (if under_pointer (dk_pointer (w_desktop w)) x y
                        then pointer_dot (colors (w_layout w)) (x - desktop_pointer_x w) (y - desktop_pointer_y w) else None) with
                 | Some color => u32 color
                 | None => composed w x y
                 end.

Lemma show_position (w : world) :
  let w' := desktop_pointer_show w in
  w_layout w' = w_layout w /\ desktop_pointer_x w' = desktop_pointer_x w /\ desktop_pointer_y w' = desktop_pointer_y w.
Proof. unfold desktop_pointer_show. case_if; [done|]. cbv zeta. by destruct (draw_pointer _ _ _ _ _ _ _). Qed.

(** Presenting and showing the pointer, the end of every exact update. *)
Lemma present_show e w :
  tracks e w -> pointer_hidden w ->
  tracks e (desktop_pointer_show (snd (present w))) /\ displayed e (desktop_pointer_show (snd (present w))).
Proof.
  intros Ht Hh. destruct (tracks_present e w Ht (hidden_pointer w e Hh)) as (Ht' & _ & Hd & Hpx). split; [by apply tracks_show|].
  destruct (tracks_session e _ Ht') as [v Hv]. destruct (tracks_session e _ Ht) as [v0 Hv0].
  destruct (show_session v _ _ Hv (tracks_online e _ Ht')) as (_ & Hg & _ & _ & _ & Hc & Hp). set (w' := snd (present w)) in *.
  assert (dp_gop (w_display w') = dp_gop (w_display w)) as Hg'.
  { destruct (present_session v0 _ w Hv0) as (w2 & E & _ & _ & Hg' & _). unfold w'. by rewrite E. }
  assert (pointer_hidden w') as Hh' by (unfold pointer_hidden; by rewrite Hd).
  intros x y Hxy Hn. assert (in_screen w' x y) as Hxy' by (unfold in_screen in *; by rewrite Hg in Hxy).
  rewrite Hp by done. rewrite Hpx by (try done; unfold in_screen in *; by rewrite <- Hg'). rewrite Hc by done.
  by destruct (show_position w') as (-> & -> & ->).
Qed.

Lemma pointer_event_tracks e w dx dy buttons :
  tracks e w -> tracks e (desktop_pointer_event app_surface panel_surface stray w dx dy buttons).
Proof.
  intros Ht. unfold desktop_pointer_event. case_if; [done|]. cbv zeta.
  destruct (tracks_hide e w Ht) as [Ht1 Hh1].
  assert (dp_gop (w_display (desktop_pointer_hide w)) = dp_gop (w_display w)) as Hg
    by (destruct (tracks_session e w Ht) as [v Hs]; apply (hide_session v (shown w)); [done|by eapply tracks_online]).
  set (w1 := desktop_pointer_hide w) in *. clear Ht.
  set (p2 := set_pointer_at _ _ _).
  assert (tracks e (with_desktop w1 (set_pointer (w_desktop w1) p2))) as Ht2.
  { apply tracks_pointer; [done|done|done|]. destruct (tracks_session e w1 Ht1) as [v Hs].
    pose proof (se_pointer _ _ _ Hs (tracks_online e w1 Ht1)) as [A B C D E]. pose proof (do_gop _ (ui_display _ _ (se_view _ _ _ Hs))) as [_ ? ? ? _ _ _].
    destruct (se_screen _ _ _ Hs) as (_ & _ & ? & ?). unfold POINTER_WIDTH, POINTER_HEIGHT in *.
    constructor; cbn [set_pointer_at p2 pointer_initialized pointer_x pointer_y pointer_saved pointer_visible
      pointer_saved_width pointer_saved_height]; try done; unfold POINTER_WIDTH, POINTER_HEIGHT;
      rewrite <- Hg, u32_id by lia; apply clamp_range; lia. }
  set (w2 := with_desktop w1 _) in *.
  set (w3 := if _ && _ then left_press w2 else w2). assert (keeps_desk w2 w3) as K3 by (unfold w3; case_if; [apply left_press_keeps|apply keeps_desk_refl]).
  set (w4 := if _ && _ then drag_step w3 else w3). assert (keeps_desk w3 w4) as K4 by (unfold w4; case_if; [apply drag_keeps|apply keeps_desk_refl]).
  set (w5 := if negb _ then _ else w4). assert (keeps_desk w4 w5) as K5
    by (unfold w5; case_if; [by apply keeps_desktop_same|apply keeps_desk_refl]).
  assert (keeps_desk w2 w5) as Kw by (eapply keeps_desk_trans; [exact K3|]; by eapply keeps_desk_trans).
  pose proof (tracks_keeps e _ _ Kw Ht2) as Ht5. pose proof (keeps_hidden _ _ Kw (tracks_session e _ Ht2)) as Hh5. specialize (Hh5 Hh1).
  apply present_show; [|done]. apply tracks_pointer; [done|done|done|].
  destruct (tracks_session e w5 Ht5) as [v Hs]. by destruct (se_pointer _ _ _ Hs (tracks_online e w5 Ht5)).
Qed.

(** ** Printing *)

Definition prints (cw cw' : console_world) : Prop :=
  printable (cw_con cw) -> printable (cw_con cw') /\ draws (cw_display cw) (cw_display cw').

Lemma prints_trans cw1 cw2 cw3 : prints cw1 cw2 -> prints cw2 cw3 -> prints cw1 cw3.
Proof. intros H1 H2 Hp. destruct (H1 Hp) as [P1 D1]. destruct (H2 P1) as [P2 D2]. split; [done|by eapply draws_trans]. Qed.

Lemma draws_scroll d p x y w h px color :
  0 <= x -> 0 <= y -> 0 <= w -> 0 <= h -> 0 <= px -> draws d (surface_scroll_rect_up d p x y w h px color).
Proof.
  intros. apply (draws_surface d p (fun d => surface_scroll_rect_up d p x y w h px color)); [invalid_surface|].
  intros s Hs Hok. destruct (Z.eq_dec px 0) as [->|Hne]; [|apply scroll_drawn; done || lia].
  exists s. unfold surface_scroll_rect_up. rewrite Hs, (valid_of_ok s Hok). by apply redraw_refl.
Qed.

Lemma target_fill_draws c d x y w h color :
  target_surface c <> 0 -> 0 <= x -> 0 <= y -> 0 <= w -> 0 <= h -> draws d (target_fill c d x y w h color).
Proof. intros Ht. intros. unfold target_fill, nz. destruct (Z.eqb_spec (target_surface c) 0); [done|]. by apply draws_fill. Qed.

Lemma printable_cursor c x y : printable c -> 0 <= x -> 0 <= y -> printable (con_cursor c x y).
Proof. intros [] ? ?. by constructor. Qed.

Lemma ensure_prints cw : prints cw (ensure_cursor_visible cw).
Proof.
  intros Hp. unfold ensure_cursor_visible. cbv zeta.
  set (c := if (_ : bool) then con_cursor (cw_con cw) _ _ else cw_con cw). assert (printable c) as Hc.
  { unfold c. case_if; [|done]. apply printable_cursor; [done|apply Hp|nonneg]. }
  case_if; [|by split; [|apply draws_refl]]. split; cbn [cw_con cw_display].
  - apply printable_cursor; [done|apply Hc|nonneg].
  - unfold target_scroll, nz. destruct Hc. destruct (Z.eqb_spec (target_surface c) 0); [done|]. apply draws_scroll; lia.
Qed.

Lemma glyph_draws con d c x y : printable con -> 0 <= x -> 0 <= y -> draws d (draw_glyph con d c x y).
Proof.
  intros Hp Hx Hy. pose proof Hp as []. unfold draw_glyph. cbv zeta. 
  apply (draws_trans d (target_fill con d x y (cell_w con) (cell_h con) (con_bg con))); [apply target_fill_draws; done || lia|].
  apply draws_for_range. intros row d1. apply draws_for_range. intros col d2. case_if; [|apply draws_refl].
  apply target_fill_draws; try done; nonneg.
Qed.

Lemma backspace_printable c : printable c -> printable (backspace c).
Proof.
  intros Hp. pose proof Hp as [_ _ _ [Cx Cy] [Ww Wh] _ [Rx Rx'] [Ry Ry']]. unfold backspace. rewrite !u32_id by lia. cbv zeta. case_if; b2p.
  - apply printable_cursor; [done|lia|lia].
  - case_if; [|done]. b2p. apply printable_cursor; [done| |lia].
    pose proof (u32_nonneg (region_x c + u32 (region_w c / cell_w c * cell_w c))). case_if; b2p; lia.
Qed.

Lemma put_char_prints cw c : prints cw (put_char cw c).
Proof.
  intros Hp. unfold put_char. cbv zeta. rewrite (pr_mode _ Hp). cbn [negb]. case_if.
  { split; [|apply draws_refl]. apply printable_cursor; [done|apply Hp..]. }
  case_if.
  { eapply (prints_trans cw (put_con cw _)); [|apply ensure_prints|done]. intros _. split; [|apply draws_refl].
    apply printable_cursor; [done|apply Hp|nonneg]. }
  case_if.
  { pose proof (backspace_printable _ Hp) as Hb. split; [done|]. destruct Hb. apply target_fill_draws; done || lia. }
  eapply prints_trans; [apply ensure_prints| |done]. clear Hp. set (cw1 := ensure_cursor_visible cw).
  eapply prints_trans; [|apply ensure_prints]. intros Hp. split; cbn [cw_con cw_display].
  - apply printable_cursor; [done|nonneg|apply Hp].
  - apply glyph_draws; [done|apply Hp..].
Qed.

Lemma putc_prints cw c : prints cw (console_putc cw c).
Proof.
  unfold console_putc. case_if; [|apply put_char_prints].
  apply (for_range_rel prints); [|apply prints_trans|intros; apply put_char_prints]. intros cw' Hp. split; [done|apply draws_refl].
Qed.

Lemma putc_keeps w c :
  desktop_online (w_desktop w) = true -> keeps_desk w (with_console w (console_putc (w_console w) c)).
Proof.
  intros Ho. apply keeps_assume. intros [v Hs]. destruct (putc_prints (w_console w) c (se_console _ _ _ Hs Ho)) as [Hp Hd].
  by apply keeps_console.
Qed.

Lemma clear_prints cw : prints cw (console_clear cw).
Proof.
  intros Hp. pose proof Hp as []. unfold console_clear. cbv zeta.
  change (framebuffer_mode (con_cursor _ _ _)) with (framebuffer_mode (cw_con cw)). rewrite pr_mode0. cbn [negb]. split.
  - apply printable_cursor; [done|lia|lia].
  - apply target_fill_draws; try done; cbn [con_cursor region_x region_y region_w region_h]; lia.
Qed.

(** [kconsole_clear] of the shell's [clear]. *)
Lemma clear_keeps w :
  desktop_online (w_desktop w) = true -> keeps_desk w (with_console w (console_clear (w_console w))).
Proof.
  intros Ho. apply keeps_assume. intros [v Hs]. destruct (clear_prints (w_console w) (se_console _ _ _ Hs Ho)) as [Hp Hd].
  by apply keeps_console.
Qed.

(** ** The other events *)

Lemma same_keeps w w' : same_desktop w w' -> (forall vis, keeps_session vis w vis w') -> keeps_desk w w'.
Proof. intros Hs Hk. by apply keeps_same. Qed.

Lemma draw_keeps w d : draws (w_display w) d -> keeps_desk w (with_display w d).
Proof. intros Hd. by apply keeps_same; [|apply keeps_draw]. Qed.

Lemma chrome_keeps w i : keeps_desk w (do_chrome app_surface w i).
Proof. by apply same_keeps; [|intros; apply keeps_chrome]. Qed.
Lemma system_keeps w : keeps_desk w (do_system app_surface w).
Proof. by apply same_keeps; [|intros; apply keeps_system]. Qed.
Lemma files_keeps w : keeps_desk w (do_files app_surface w).
Proof. by apply same_keeps; [|intros; apply keeps_files]. Qed.
Lemma applications_keeps w : keeps_desk w (do_applications app_surface w).
Proof. by apply same_keeps; [|intros; apply keeps_applications]. Qed.
Lemma user_app_keeps w i : APP_SNAKE <= i <= APP_NOTES -> keeps_desk w (do_user_app w i).
Proof. intros Hi. apply same_keeps; [apply user_app_same|intros; by apply keeps_user_app]. Qed.
Lemma panel_keeps w : keeps_desk w (do_panel w).
Proof. apply same_keeps; [apply panel_same|intros; apply keeps_panel]. Qed.

Lemma chromes_keep clear w : keeps_desk w (render_chromes app_surface clear w).
Proof.
  apply (for_range_rel keeps_desk); [apply keeps_desk_refl|apply keeps_desk_trans|]. intros i w1. cbv zeta.
  eapply keeps_desk_trans; [|apply chrome_keeps]. destruct clear; [|apply keeps_desk_refl]. apply draw_keeps, draws_clear.
Qed.

Lemma contents_keep w : keeps_desk w (render_contents app_surface stray w).
Proof.
  unfold render_contents. do 3 (eapply keeps_desk_trans; [|by apply user_app_keeps]).
  eapply keeps_desk_trans; [|apply applications_keeps]. eapply keeps_desk_trans; [apply system_keeps|apply files_keeps].
Qed.

Lemma damage_all_keeps w : keeps_desk w (with_compositor w (compositor_damage_all (w_compositor w))).
Proof. apply keeps_arrange; [intros v; apply damage_all_step|by constructor|auto]. Qed.

Lemma redraw_keeps w : keeps_desk w (snd (desktop_redraw app_surface panel_surface stray w)).
Proof.
  unfold desktop_redraw. case_if; [apply keeps_desk_refl|]. cbv zeta. cbn [snd].
  eapply keeps_desk_trans; [apply chromes_keep|]. eapply keeps_desk_trans; [apply contents_keep|].
  eapply keeps_desk_trans; [|apply damage_all_keeps]. apply panel_keeps.
Qed.

(** With the whole screen damaged it does not matter what is shown. *)
Lemma damage_all_any v v' vis (w : world) :
  session v vis w -> session v' vis (with_compositor w (compositor_damage_all (w_compositor w))).
Proof.
  intros Hs. pose proof (damage_all_step (v := v) _ _ (se_view _ _ _ Hs)) as V. pose proof Hs as []. constructor; try done.
  pose proof V as [A B C _]. constructor; try done. intros x y (Hx & Hy & _). left. apply pending_covered.
  destruct (damage_all_spec (w_compositor w) (ui_damage _ _ se_view0)) as [_ D]. by apply D.
Qed.

Lemma redraw_tracks e w : tracks e w -> tracks nowhere (snd (desktop_redraw app_surface panel_surface stray w)).
Proof.
  intros Ht. pose proof (redraw_keeps w) as Hk. pose proof (tracks_keeps e _ _ Hk Ht) as Ht'. revert Hk Ht'.
  unfold desktop_redraw. rewrite (tracks_online e w Ht). cbn [negb]. cbv zeta. cbn [snd]. set (w1 := do_panel _). intros Hk Ht'.
  split; [by eapply tracks_online|]. eexists (behind _). split; [|done].
  destruct (tracks_session e _ Ht) as [v Hv].
  assert (keeps_desk w w1) as K1.
  { unfold w1. eapply keeps_desk_trans; [apply chromes_keep|]. eapply keeps_desk_trans; [apply contents_keep|apply panel_keeps]. }
  destruct (K1 v Hv) as [Hv1 _]. exact (damage_all_any v _ (shown w1) w1 Hv1).
Qed.

Lemma system_tick_keeps w bucket : keeps_desk w (do_system app_surface (with_desktop w (set_bucket (w_desktop w) bucket))).
Proof. eapply keeps_desk_trans; [|apply system_keeps]. by apply keeps_desktop_same. Qed.

Lemma tick_tracks e w ticks : tracks e w -> tracks e (desktop_tick app_surface stray w ticks).
Proof.
  intros Ht. unfold desktop_tick. case_if; [done|]. cbv zeta. case_if; [done|].
  set (changed := (APP_SNAKE <=? _) && _ && _) in *. set (system := (_ =? APP_SYSTEM) && _) in *.
  destruct (tracks_hide e w Ht) as [Ht1 Hh1].
  assert (active_app (w_desktop (desktop_pointer_hide w)) = active_app (w_desktop w)) as Ha
    by (destruct (tracks_session e w Ht) as [v Hs]; apply (hide_session v (shown w)); [done|by eapply tracks_online]).
  set (w1 := desktop_pointer_hide w) in *. set (w2 := if system then _ else _).
  assert (keeps_desk w1 w2 /\ active_app (w_desktop w2) = active_app (w_desktop w)) as [K2 A2].
  { unfold w2. destruct system; [|split; [apply keeps_desk_refl|done]]. split; [apply system_tick_keeps|done]. }
  set (w3 := if changed then _ else _). assert (keeps_desk w1 w3) as K3.
  { unfold w3. destruct changed eqn:Ec; [|done]. eapply keeps_desk_trans; [exact K2|]. apply user_app_keeps. rewrite A2. unfold changed in Ec. b2p. lia. }
  pose proof (tracks_keeps e _ _ K3 Ht1) as Ht3. apply present_show; [done|].
  by apply (keeps_hidden _ _ K3 (tracks_session e _ Ht1)).
Qed.

Lemma focus_keeps w name : keeps_desk w (snd (desktop_focus_app app_surface panel_surface stray w name)).
Proof.
  unfold desktop_focus_app. destruct name as [n|]; [|apply keeps_desk_refl]. case_if; [apply keeps_desk_refl|].
  destruct (app_named n) as [i|] eqn:E; [|apply keeps_desk_refl]. apply activate_keeps. unfold app_named in E.
  repeat case_if_in E; simplify_eq; done.
Qed.

(** A key changes the desktop and may have the compositor present it, the pointer
    shown or not. *)
Definition after_key (w w' : world) : Prop := exists w1, keeps_desk w w1 /\ (w' = w1 \/ w' = snd (present w1)).

Lemma after_keep w w' : keeps_desk w w' -> after_key w w'.
Proof. intros Hk. exists w'. auto. Qed.
Lemma after_present w w' : keeps_desk w w' -> after_key w (snd (present w')).
Proof. intros Hk. exists w'. auto. Qed.

Lemma launcher_key_after e w key : tracks e w -> after_key w (launcher_key app_surface panel_surface stray w key).
Proof.
  intros Ht. destruct (tracks_session e w Ht) as [v Hs]. pose proof (se_selection _ _ _ Hs) as Hsel.
  assert (forall n, 0 <= n < LAUNCHER_ENTRY_COUNT -> keeps_desk w (with_desktop w (set_selection (w_desktop w) n))) as Hset
    by (intros n Hn; by apply keeps_desktop_same).
  unfold launcher_key. cbv zeta. unfold LAUNCHER_ENTRY_COUNT in *.
  repeat case_if; (apply after_present || apply after_keep, keeps_desk_refl); b2p.
  - eapply keeps_desk_trans; [|apply activate_keeps, launcher_target_range]. apply Hset; lia.
  - eapply keeps_desk_trans; [|apply applications_keeps]. apply Hset; lia.
  - eapply keeps_desk_trans; [|apply applications_keeps]. apply Hset; lia.
  - eapply keeps_desk_trans; [|apply applications_keeps]. apply Hset, Z.mod_pos_bound; lia.
  - apply activate_keeps, launcher_target_range.
Qed.

Lemma key_after e w key : tracks e w -> after_key w (snd (desktop_key_event app_surface panel_surface stray w key)).
Proof.
  intros Ht. pose proof (after_keep w w (keeps_desk_refl w)) as Hrefl. unfold desktop_key_event. case_if; [done|]. cbv zeta. case_if.
  { cbn [snd]. apply after_present. case_if; [apply hide_keeps|by apply activate_keeps]. }
  case_if.
  { case_if; [done|]. pose proof (hide_keeps w false) as Hk. destruct (hide_active_app w false) as [hidden w']. cbn [snd] in Hk.
    destruct hidden; cbn [negb snd]; [by apply after_present|by apply after_keep]. }
  case_if; [by eapply launcher_key_after|]. case_if; [done|]. case_if; [done|]. cbn [snd].
  apply after_keep, same_keeps; [done|intros; apply keeps_kernel].
Qed.

Lemma key_tracks e w key :
  tracks e w -> tracks (spoiled e w) (snd (desktop_key_event app_surface panel_surface stray w key)).
Proof.
  intros Ht. assert (tracks (spoiled e w) w) as Ht0 by (eapply tracks_mono; [|exact Ht]; by left).
  destruct (key_after e w key Ht) as (w' & Hk & [-> | ->]); [by eapply tracks_keeps|].
  apply tracks_present; [by eapply tracks_keeps|]. destruct (tracks_session e w Ht) as [v Hv].
  destruct (Hk v Hv) as [_ (_ & _ & Hp & _)]. rewrite Hp. by right.
Qed.

(** So the picture saved behind the pointer is the one from before the key. *)
Lemma key_restores e w key x y :
  let w' := snd (desktop_key_event app_surface panel_surface stray w key) in
  tracks e w -> under_pointer (dk_pointer (w_desktop w)) x y = true -> in_screen w x y ->
  pixels (desktop_pointer_hide w') x y = behind w x y /\ pixels (desktop_pointer_hide w) x y = behind w x y.
Proof.
  intros w' Ht Hu Hxy.
  pose proof (key_tracks e w key Ht) as Ht'. fold w' in Ht'.
  assert (dk_pointer (w_desktop w') = dk_pointer (w_desktop w) /\ in_screen w' x y) as (Hp & Hxy').
  { destruct (tracks_session e w Ht) as [v Hv].
    destruct (key_after e w key Ht) as (w1 & Hk & Hw'). fold w' in Hw'. destruct (Hk v Hv) as [Hs1 (Hg & _ & Hp & _)].
    destruct (present_session v _ w1 Hs1) as (w2 & E & _ & Hd & Hg2 & _).
    destruct Hw' as [Hw' |Hw']; rewrite ?E in Hw'; cbn [snd] in Hw'; rewrite Hw' in *; split_and!; try done; try congruence;
      unfold in_screen in *; by rewrite ?Hg2, Hg. }
  destruct (tracks_session _ _ Ht) as [v Hv]. destruct (tracks_session _ _ Ht') as [v' Hv'].
  destruct (hide_session v _ w Hv (tracks_online _ _ Ht)) as (_ & _ & _ & _ & _ & H1).
  destruct (hide_session v' _ w' Hv' (tracks_online _ _ Ht')) as (_ & _ & _ & _ & _ & H2).
  rewrite H1, H2 by done. unfold behind. by rewrite Hp, Hu.
Qed.

Lemma set_enabled_tracks e w enabled : tracks e w -> tracks e (desktop_pointer_set_enabled w enabled).
Proof.
  intros Ht. unfold desktop_pointer_set_enabled. cbv zeta. set (w1 := if negb enabled then _ else _).
  assert (tracks e w1) as Ht1 by (unfold w1; case_if; [by apply tracks_hide|done]).
  pose proof (tracks_online e _ Ht1) as Ho. revert Ht1. apply tracks_step; try done. intros v Hs. pose proof Hs as [].
  destruct (se_pointer0 Ho). constructor; try done.
Qed.

(** What happens to the desktop: its own operations, printing and clearing by the
    shell, and whatever the rest of the kernel does meanwhile, in any order.  Each
    step carries the pixels that may be stale: a key spoils those under the
    pointer if it is shown, redrawing the desktop leaves none. *)
Inductive desktop_step : world * (Z -> Z -> Prop) -> world * (Z -> Z -> Prop) -> Prop :=
| desk_pointer w e dx dy buttons :
    desktop_step (w, e) (desktop_pointer_event app_surface panel_surface stray w dx dy buttons, e)
| desk_key w e key :
    desktop_step (w, e) (snd (desktop_key_event app_surface panel_surface stray w key), spoiled e w)
| desk_tick w e ticks : desktop_step (w, e) (desktop_tick app_surface stray w ticks, e)
| desk_focus w e name : desktop_step (w, e) (snd (desktop_focus_app app_surface panel_surface stray w name), e)
| desk_redraw w e : desktop_step (w, e) (snd (desktop_redraw app_surface panel_surface stray w), nowhere)
| desk_present w e : desktop_step (w, e) (snd (desktop_present w), e)
| desk_refresh w e : desktop_step (w, e) (desktop_refresh_apps app_surface stray w, e)
| desk_enable w e enabled : desktop_step (w, e) (desktop_pointer_set_enabled w enabled, e)
| desk_show w e : desktop_step (w, e) (desktop_pointer_show w, e)
| desk_hide w e : desktop_step (w, e) (desktop_pointer_hide w, e)
| desk_print w e c : desktop_step (w, e) (with_console w (console_putc (w_console w) c), e)
| desk_clear w e : desktop_step (w, e) (with_console w (console_clear (w_console w)), e)
| desk_kernel w e k : desktop_step (w, e) (with_kernel w k, e).

Lemma desktop_present_tracks e w : tracks e w ->
  tracks e (snd (desktop_present w)) /\ displayed e (snd (desktop_present w)) /\ fst (desktop_present w) = true.
Proof.
  intros Ht. unfold desktop_present. rewrite (tracks_online e w Ht). cbn [negb].
  destruct (tracks_hide e w Ht) as [Ht1 Hh1]. pose proof (present_show e _ Ht1 Hh1) as [Hp Hd].
  destruct (tracks_present e _ Ht1 (hidden_pointer _ e Hh1)) as (_ & Hok & _).
  by destruct (present (desktop_pointer_hide w)) as [ok w'].
Qed.

Lemma desktop_step_tracks p p' : desktop_step p p' -> tracks (snd p) (fst p) -> tracks (snd p') (fst p').
Proof.
  intros [] Ht; cbn [fst snd] in *; eauto using pointer_event_tracks, key_tracks, tick_tracks, set_enabled_tracks, tracks_show, redraw_tracks.
  - eapply tracks_keeps; [apply focus_keeps|done].
  - by apply desktop_present_tracks.
  - unfold desktop_refresh_apps. case_if; [done|]. eapply tracks_keeps; [apply contents_keep|done].
  - by apply tracks_hide.
  - eapply tracks_keeps; [apply putc_keeps; by eapply tracks_online|done].
  - eapply tracks_keeps; [apply clear_keeps; by eapply tracks_online|done].
  - eapply tracks_keeps; [|exact Ht]. apply same_keeps; [done|intros; apply keeps_kernel].
Qed.

Lemma desktop_steps_track p p' : rtc desktop_step p p' -> tracks (snd p) (fst p) -> tracks (snd p') (fst p').
Proof. induction 1 as [|p1 p2 p3 Hs _ IH]; [done|]. intros Ht. by apply IH, (desktop_step_tracks p1). Qed.

(** ** The desktop's own validation *)

Lemma visible_count v w : desk v w ->
  compositor_visible_window_count (w_compositor w) = if active_app (w_desktop w) =? APP_NONE then 0 else 1.
Proof.
  intros Hs. unfold compositor_visible_window_count. rewrite (se_count _ _ _ Hs).
  rewrite (zcount_ext _ (shown w)).
  2: { intros i Hi. apply (se_visible _ _ _ Hs). unfold APP_COUNT in *. lia. }
  unfold shown, APP_COUNT, APP_NONE, UINT32_MAX in *. destruct (se_active _ _ _ Hs) as [->|Ha]; [done|].
  unfold APP_COUNT in Ha. assert (active_app (w_desktop w) ∈ [0;1;2;3;4;5;6]) as Hin by (set_unfold; lia).
  set (a := active_app (w_desktop w)) in *. clearbody a. clear Ha Hs. set_unfold in Hin. by destruct_or!; subst.
Qed.

Lemma desk_valid v w : desk v w -> desktop_online (w_desktop w) = true -> desktop_compositor_valid w = true.
Proof.
  intros Hs Ho. unfold desktop_compositor_valid. rewrite Ho, (validate_true v _ _ (se_view _ _ _ Hs)). cbn [andb].
  apply andb_true_iff. split.
  - unfold desktop_single_window_mode. rewrite Ho, (visible_count v w Hs). cbn [negb]. cbv zeta.
    destruct (Z.eqb_spec (active_app (w_desktop w)) APP_NONE) as [|Hne]; [done|]. cbn.
    destruct (se_active _ _ _ Hs) as [|Ha]; [done|]. destruct (Z.ltb_spec (active_app (w_desktop w)) APP_COUNT); [|lia]. cbn.
    unfold compositor_window_visible. rewrite (se_ids _ _ _ Hs) by done. rewrite (se_count _ _ _ Hs), (se_visible _ _ _ Hs) by done.
    unfold shown. rewrite Z.eqb_refl. apply andb_true_iff. split; [by apply Z.ltb_lt|done].
  - unfold desktop_pointer_confined. destruct (se_pointer _ _ _ Hs Ho) as [A B C _ _]. rewrite Ho, A. cbn [negb orb].
    cbv zeta. pose proof (do_gop _ (ui_display _ _ (se_view _ _ _ Hs))) as [_ ? ? ? _ _ _].
    destruct (se_screen _ _ _ Hs) as (_ & _ & ? & ?). unfold POINTER_WIDTH, POINTER_HEIGHT in *.
    rewrite !u32_id by lia. apply andb_true_iff. rewrite !Z.leb_le. lia.
Qed.

End Session.

(** ** Witness: an application whose surface is of one colour *)

#[local] Instance drawing_services : Services unit := {|
  svc_free_pages := fun _ => 0; svc_timer_ticks := fun _ => 0; svc_has_keyboard := fun _ => true;
  svc_keyboard_uses_irq := fun _ => true; svc_has_pointer := fun _ => true; svc_pointer_uses_irq := fun _ => true;
  svc_boundaries_online := fun _ => true; svc_transport_state_name := fun _ => []; svc_clearnet_allowed := fun _ => false;
  svc_quarantined := fun _ => true; svc_ramfs_file_count := fun _ => 0; svc_ramfs_entry := fun _ _ => None;
  svc_fat32_entry := fun _ _ => (-1, [], 0, 0); svc_app_surface := fun _ _ => Some (0x500000, 9); svc_app_state := fun _ _ => None;
  svc_app_online := fun _ _ => true; svc_app_start := fun k _ => (true, k); svc_app_stop := fun k _ => (true, k);
  svc_app_set_active := fun k _ => k; svc_app_input := fun k _ _ => (true, k); svc_byte := fun _ _ => 3 |}.

Definition drawing_layout : layout_t := mk_layout (mk_colors 1 2 3 4 5 6 7 8 9 10) 1 24 16 (replicate 7 0).
Definition drawing_surface : argus_surface_t := mk_surface 0x800000 334 255 334 false rect0.
Definition drawing_display : display := mk_display {[ 104 := drawing_surface ]} sample_gop (dp_heap sample_display).

Lemma render_user_app_exact_witness :
  let '(shown, d') := render_user_app (fun i => 100 + i) (fun _ => 0) drawing_layout tt APP_SNAKE drawing_display in
  shown = 9 /\ surface_getpixel d' 104 7 24 = u32 (col_title (colors drawing_layout)).
Proof.
  assert (surface_ok drawing_surface) as Hok by (constructor; cbn; unfold UINT32_MAX; lia || done).
  pose proof (render_user_app_exact (fun i => 100 + i) (fun _ => 0) drawing_layout tt APP_SNAKE drawing_display drawing_surface 0x500000 9) as Ht.
  revert Ht. generalize (render_user_app (fun i => 100 + i) (fun _ => 0) drawing_layout tt APP_SNAKE drawing_display). intros [shown d'] Ht.
  destruct Ht as [Hn Hpx].
  - right. split; [reflexivity|]. split; reflexivity.
  - reflexivity.
  - reflexivity.
  - exact Hok.
  - reflexivity.
  - reflexivity.
  - split; [exact Hn|]. apply (Hpx 7 24); cbn; lia.
Defined.
