(* ===== verification/Startup.v ===== *)
(** * Starting the desktop

    [desktop_init] of Desktop.v from the state the kernel leaves it: the heap of
    Heap.v gives the eight surfaces their planes, the compositor takes their
    windows, and the invariant of Session.v holds from then on. *)

From stdpp Require Import base list gmap numbers relations.
From Stdlib Require Import ZArith Lia.
From S2P Require Import Prelude Memory Heap Raster Gop Surface Compositor Composition Process Files Console Desktop Session.

Open Scope Z_scope.

(** ** Surfaces on the heap *)

(** Every surface in use has its plane in an allocation of its own, and the
    framebuffer is not in the heap. *)
Record backed (d : display) (bs : list block) : Prop := {
  bk_gop : gop_ok (dp_gop d);
  bk_null : surface_at d 0 = None;
  bk_rep : rep (dp_heap d) bs;
  bk_screen : heap_base (dp_heap d) + heap_size (dp_heap d) <= gop_fb (dp_gop d)
    \/ gop_fb (dp_gop d) + 4 * (gop_pitch_pixels (dp_gop d) * gop_height (dp_gop d)) <= heap_base (dp_heap d);
  bk_surfaces : forall p s, surface_at d p = Some s -> s = surface0 \/ surface_ok s /\
    exists n, In (sf_pixels s, n) (used_blocks (heap_base (dp_heap d)) bs) /\ 4 * (sf_stride s * sf_height s) <= n;
  bk_distinct : forall p q s t, p <> q -> surface_at d p = Some s -> surface_at d q = Some t ->
    sf_pixels s = sf_pixels t -> sf_pixels s = 0 }.

Lemma used_apart h bs p n q k :
  rep h bs -> In (p, n) (used_blocks (heap_base h) bs) -> In (q, k) (used_blocks (heap_base h) bs) -> p <> q ->
  p + n <= q \/ q + k <= p.
Proof.
  intros Hr Hp Hq Hne. destruct (used_blocks_sorted (heap_base h) bs (rep_wf _ _ Hr)) as [_ HF].
  destruct (ForallOrdPairs_In HF _ _ Hp Hq) as [E|[E|E]]; cbn in *; [|lia|lia]. by injection E as -> _.
Qed.

(** An allocation lies in the heap. *)
Lemma used_bounds h bs p n :
  rep h bs -> In (p, n) (used_blocks (heap_base h) bs) -> heap_base h < p /\ p + n <= heap_base h + heap_size h.
Proof.
  intros Hr Hin. apply used_blocks_in in Hin as (l & b & r & -> & _ & -> & ->). pose proof (rep_wf _ _ Hr) as Hw.
  apply Forall_app in Hw as [Hl Hbr]. pose proof (Forall_inv_tail Hbr) as Hr'. pose proof (rep_end _ _ Hr) as He.
  rewrite blocks_end_app, blocks_end_cons in He. pose proof (blocks_end_ge (heap_base h) l Hl).
  pose proof (blocks_end_ge (block_end (blocks_end (heap_base h) l) b) r Hr'). unfold block_end, HEADER in *. lia.
Qed.

Lemma backed_valid d bs p s : backed d bs -> surface_at d p = Some s -> valid_fields s = true -> surface_ok s /\
  exists n, In (sf_pixels s, n) (used_blocks (heap_base (dp_heap d)) bs) /\ 4 * (sf_stride s * sf_height s) <= n.
Proof. intros Hb Hs Hv. destruct (bk_surfaces _ _ Hb p s Hs) as [->|?]; [done|done]. Qed.

Lemma backed_display d bs : backed d bs -> display_ok d.
Proof.
  intros Hb. pose proof (bk_rep _ _ Hb) as Hr. constructor; try apply Hb.
  - intros p s Hs Hv. by eapply backed_valid.
  - intros p q s t Hpq Hs Ht Hvs Hvt. destruct (backed_valid d bs p s Hb Hs Hvs) as (Os & n & Is & Ls).
    destruct (backed_valid d bs q t Hb Ht Hvt) as (Ot & k & It & Lt). unfold plane_end.
    assert (sf_pixels s <> sf_pixels t).
    { intros E. pose proof (bk_distinct _ _ Hb p q s t Hpq Hs Ht E). pose proof (so_pixels _ Os). lia. }
    pose proof (used_apart _ _ _ _ _ _ Hr Is It). lia.
  - intros p s Hs Hv. destruct (backed_valid d bs p s Hb Hs Hv) as (Os & n & Is & Ls).
    pose proof (used_bounds _ _ _ _ Hr Is). pose proof (bk_screen _ _ Hb). unfold plane_end. lia.
Qed.

Lemma backed_dims d bs : backed d bs -> dims_ok d.
Proof. intros Hb p s Hs. destruct (bk_surfaces _ _ Hb p s Hs) as [->|[[_ ? _ ? _] _]]; [done|lia]. Qed.

(** Replacing one surface, and the heap. *)
Lemma backed_put d bs d' bs' p s :
  backed d bs -> p <> 0 -> dp_gop d' = dp_gop d -> dp_surfaces d' = <[p := s]> (dp_surfaces d) ->
  heap_base (dp_heap d') = heap_base (dp_heap d) -> heap_size (dp_heap d') = heap_size (dp_heap d) -> rep (dp_heap d') bs' ->
  (forall q t n, q <> p -> surface_at d q = Some t -> sf_pixels t <> 0 -> In (sf_pixels t, n) (used_blocks (heap_base (dp_heap d)) bs) ->
     In (sf_pixels t, n) (used_blocks (heap_base (dp_heap d)) bs') /\ sf_pixels t <> sf_pixels s) ->
  (s = surface0 \/ surface_ok s /\
     exists n, In (sf_pixels s, n) (used_blocks (heap_base (dp_heap d)) bs') /\ 4 * (sf_stride s * sf_height s) <= n) ->
  backed d' bs'.
Proof.
  intros Hb Hp Hg Hss Hhb Hhs Hr Hold Hnew.
  assert (forall q, surface_at d' q = if Z.eqb q p then Some s else surface_at d q) as Hat.
  { intros q. unfold surface_at. rewrite Hss. destruct (Z.eqb_spec q p) as [->|]; [apply lookup_insert_eq|by rewrite lookup_insert_ne]. }
  assert (forall q t, q <> p -> surface_at d q = Some t -> sf_pixels t = sf_pixels s -> sf_pixels t = 0) as Hapart.
  { intros q t Hq Ht E. destruct (bk_surfaces _ _ Hb q t Ht) as [->|(Ot & n & It & _)]; [done|]. exfalso.
    destruct (Hold q t n Hq Ht ltac:(pose proof (so_pixels _ Ot); lia) It) as [_ Hne]. done. }
  constructor; rewrite ?Hg, ?Hhb, ?Hhs; try apply Hb; try done.
  - rewrite Hat. destruct (Z.eqb_spec 0 p); [lia|apply Hb].
  - intros q t. rewrite Hat. destruct (Z.eqb_spec q p) as [->|Hq]; [by intros [= <-]|]. intros Ht.
    destruct (bk_surfaces _ _ Hb q t Ht) as [->|(Ot & n & It & Lt)]; [by left|right]. split; [done|]. exists n. split; [|done].
    apply (Hold q t n Hq Ht); [pose proof (so_pixels _ Ot); lia|done].
  - intros q q' t t' Hqq. rewrite !Hat. destruct (Z.eqb_spec q p) as [->|Hq], (Z.eqb_spec q' p) as [->|Hq']; [done| | |].
    + intros [= <-] Ht' E. rewrite E. by eapply Hapart.
    + intros Ht [= <-] E. by eapply Hapart.
    + intros Ht Ht' E. by eapply (bk_distinct _ _ Hb q q').
Qed.

(** What [kmalloc] adds to the allocations. *)
Lemma kmalloc_used h bs n :
  rep h bs -> 0 < n <= UINT64_MAX ->
  kmalloc h n = (0, h) /\ abs_kmalloc (heap_base h) n bs = None \/
  exists p m bs' k, kmalloc h n = (p, with_mem h m) /\ rep (with_mem h m) bs' /\ n <= k /\
    abs_kmalloc (heap_base h) n bs = Some (p, bs') /\
    used_blocks (heap_base h) bs' ≡ₚ (p, k) :: used_blocks (heap_base h) bs.
Proof.
  intros Hr Hn. pose proof (kmalloc_spec h bs n Hr ltac:(lia)) as Hk. unfold abs_kmalloc in *.
  destruct (Z.eqb_spec n 0); [lia|]. destruct (abs_malloc _ _ _) as [[p bs']|] eqn:Ea; [right|by left].
  destruct Hk as (m & E & Hr' & _). destruct (abs_malloc_used _ _ _ _ _ Ea) as (k & Hk & Hp). exists p, m, bs', k. split_and!; try done.
  pose proof (Z.div_mod (n + 15) 16). pose proof (Z.mod_pos_bound (n + 15) 16). lia.
Qed.

(** A block is not allocated twice. *)
Lemma used_fresh h bs p k l q n :
  rep h bs -> used_blocks (heap_base h) bs ≡ₚ (p, k) :: l -> In (q, n) l -> 0 < k -> 0 < n -> q <> p.
Proof.
  intros Hr Hp Hin Hk Hn ->. destruct (used_blocks_sorted (heap_base h) bs (rep_wf _ _ Hr)) as [_ HF].
  assert (ForallOrdPairs (fun a o : Z * Z => fst a + snd a <= fst o \/ fst o + snd o <= fst a) ((p, k) :: l)) as HR.
  { eapply pairwise_perm; [intros; lia|exact Hp|]. clear -HF. induction HF as [|a r Ha _ IH]; constructor; [|done].
    eapply Forall_impl; [exact Ha|]. cbn. intros; lia. }
  inversion_clear HR as [|? ? H1 _]. rewrite List.Forall_forall in H1. specialize (H1 _ Hin). cbn in H1. lia.
Qed.

Lemma used_size_pos h bs p n : rep h bs -> In (p, n) (used_blocks (heap_base h) bs) -> 0 < n.
Proof.
  intros Hr Hin. apply used_blocks_in in Hin as (l & b & r & -> & _ & _ & ->). pose proof (rep_wf _ _ Hr) as Hw.
  apply Forall_app in Hw as [_ Hw]. by destruct (Forall_inv Hw).
Qed.

Lemma init_backed d bs p s0 w h :
  backed d bs -> surface_at d p = Some s0 -> 0 < w <= UINT32_MAX -> 0 < h <= UINT32_MAX ->
  surface_init d p w h = (false, d) /\
    (4 * (w * h) <= UINT64_MAX -> abs_kmalloc (heap_base (dp_heap d)) (w * h * 4) bs = None) \/
  exists px bs' d' s, surface_init d p w h = (true, d') /\ backed d' bs' /\ dp_gop d' = dp_gop d /\
    heap_base (dp_heap d') = heap_base (dp_heap d) /\ sf_pixels s = px /\
    abs_kmalloc (heap_base (dp_heap d)) (w * h * 4) bs = Some (px, bs') /\
    dp_surfaces d' = <[p := s]> (dp_surfaces d) /\ surface_ok s /\ sf_width s = w /\ sf_height s = h /\ sf_dirty s = false.
Proof.
  intros Hb Hs Hw Hh. pose proof (bk_rep _ _ Hb) as Hr. unfold surface_init. rewrite Hs. unfold nz.
  destruct (Z.eqb_spec w 0); [lia|]. destruct (Z.eqb_spec h 0); [lia|]. cbn [negb orb]. cbv zeta.
  rewrite (u64_id (w * h)) by (unfold UINT32_MAX, UINT64_MAX in *; nia).
  destruct (Z.ltb_spec (UINT64_MAX / 4) (w * h)) as [Hbig|Hle].
  { left. split; [done|]. intros Hfit. pose proof (Z.div_le_lower_bound UINT64_MAX 4 (w * h)). lia. }
  assert (4 * (w * h) <= UINT64_MAX) as Hfit.
  { pose proof (Z.mul_div_le UINT64_MAX 4). lia. }
  rewrite u64_id by lia. destruct (kmalloc_used _ bs (w * h * 4) Hr ltac:(nia)) as [[-> Hnone]|(px & m & bs' & k & -> & Hr' & Hk & Habs & Hp)].
  { cbn [Z.eqb negb]. left. split; [by destruct d|done]. }
  assert (In (px, k) (used_blocks (heap_base (dp_heap d)) bs')) as Hin by (eapply Permutation_in; [symmetry; exact Hp|by left]).
  pose proof (used_bounds _ _ _ _ Hr' Hin) as [Hlo Hhi]. cbn in Hlo. pose proof (proj1 (rep_base _ _ Hr)) as Hbase.
  destruct (Z.eqb_spec px 0); [lia|]. cbn [negb]. right.
  assert (surface_ok (mk_surface px w h w false rect0)) as Hok by (constructor; cbn; try done; lia).
  exists px, bs', (put_surface (put_heap d (with_mem (dp_heap d) m)) p (mk_surface px w h w false rect0)), (mk_surface px w h w false rect0).
  split_and!; try done.
  eapply backed_put; [exact Hb|intros E0; by rewrite E0, (bk_null _ _ Hb) in Hs|done|done|done|done|exact Hr'| |].
  - intros q t n' Hq Ht Hne It. split; [eapply Permutation_in; [symmetry; exact Hp|by right]|]. cbn. intros E.
    eapply (used_fresh _ _ px k _ (sf_pixels t) n' Hr'); [exact Hp|exact It|nia|exact (used_size_pos _ _ _ _ Hr It)|done].
  - right. split; [done|]. exists k. cbn. split; [done|lia].
Qed.

(** Drawing stays inside the allocations. *)
Lemma redraw_backed d bs p s s' d' :
  backed d bs -> surface_at d p = Some s -> surface_ok s -> redraw p s d s' d' -> backed d' bs.
Proof.
  intros Hb Hs Hok Hr. destruct (backed_valid d bs p s Hb Hs (valid_of_ok s Hok)) as (_ & n & Hin & Hn).
  pose proof Hr as [Hg Hh Hss (P1 & P2 & P3 & P4) Ho _ _ Hout].
  eapply backed_put; [exact Hb|intros E0; by rewrite E0, (bk_null _ _ Hb) in Hs|done|exact Hss|by rewrite Hh|by rewrite Hh| | |].
  - rewrite Hh. destruct (bk_rep _ _ Hb) as [B M F N W E S]. constructor; try done. cbn. eapply seg_frame; [done| |exact S].
    intros a _ Ha. apply Hout. intros Hrow. apply Ha. eapply used_live; [exact Hin|]. unfold in_rows, pixel_address in Hrow. nia.
  - intros q t k Hq Ht Hne It. split; [done|]. rewrite P1. intros E. apply Hne. by eapply (bk_distinct _ _ Hb q p).
  - right. split; [done|]. exists n. by rewrite P1, P3, P4.
Qed.

Lemma calm_backed d bs p s :
  backed d bs -> surface_at d p = Some s -> surface_ok s -> backed (put_surface d p (set_damage s false rect0)) bs.
Proof.
  intros Hb Hs Hok. destruct (backed_valid d bs p s Hb Hs (valid_of_ok s Hok)) as (_ & n & Hin & Hn).
  eapply backed_put; [exact Hb|intros E0; by rewrite E0, (bk_null _ _ Hb) in Hs|done|done|done|done|apply Hb| |].
  - intros q t k Hq Ht Hne It. split; [done|]. cbn. intros E. apply Hne. by eapply (bk_distinct _ _ Hb q p).
  - right. split; [|by exists n]. destruct Hok. by constructor.
Qed.

Lemma destroy_used d l b r p s :
  backed d (l ++ b :: r) -> surface_at d p = Some s -> surface_ok s -> bl_free b = false ->
  sf_pixels s = blocks_end (heap_base (dp_heap d)) l + HEADER ->
  let d' := surface_destroy d p in
  backed d' (abs_free l b r) /\ dp_gop d' = dp_gop d /\ dp_surfaces d' = <[p := surface0]> (dp_surfaces d).
Proof.
  intros Hb Hs Hok Hfree Hpx. cbv zeta. unfold surface_destroy. rewrite Hs.
  pose proof (so_pixels _ Hok). unfold nz. destruct (Z.eqb_spec (sf_pixels s) 0); [lia|]. cbn [negb].
  destruct (kfree_spec _ l b r (bk_rep _ _ Hb) Hfree) as (m & E & Hr & _). rewrite Hpx, E. cbn [snd]. split_and!; [|done|done].
  pose proof (abs_free_used (heap_base (dp_heap d)) l b r Hfree) as Hu.
  eapply (backed_put _ _ _ _ p surface0); [exact Hb|intros E0; by rewrite E0, (bk_null _ _ Hb) in Hs|done|done|done|done|exact Hr| |by left].
  intros q t k Hq Ht Hne It. split; [|done]. apply (Permutation_in _ Hu) in It. destruct It as [[= E' _]|It]; [|done].
  exfalso. apply Hne. eapply (bk_distinct _ _ Hb q p t s); try done. by rewrite Hpx.
Qed.

Lemma destroy_backed d bs p s :
  backed d bs -> surface_at d p = Some s ->
  exists bs', let d' := surface_destroy d p in
    backed d' bs' /\ dp_gop d' = dp_gop d /\ dp_surfaces d' = <[p := surface0]> (dp_surfaces d).
Proof.
  intros Hb Hs. destruct (bk_surfaces _ _ Hb p s Hs) as [->|(Hok & n & Hin & _)].
  - exists bs. cbv zeta. unfold surface_destroy. rewrite Hs. split_and!; [|done|done].
    eapply backed_put; [exact Hb|intros E0; by rewrite E0, (bk_null _ _ Hb) in Hs|done|done|done|done|apply Hb|by intros; split|by left].
  - apply used_blocks_in in Hin as (l & b & r & -> & Hfree & Hpx & _). exists (abs_free l b r). by eapply destroy_used.
Qed.

(** ** The self test and the eight surfaces *)

(** [d'] is [d] with a surface in use at [p]. *)
Definition trial (d : display) (p : Z) (bs : list block) (px : Z) (d' : display) : Prop :=
  exists s, backed d' bs /\ sf_pixels s = px /\ heap_base (dp_heap d') = heap_base (dp_heap d) /\ surface_ok s /\ dp_gop d' = dp_gop d /\ dp_surfaces d' = <[p := s]> (dp_surfaces d).

Lemma trial_at d p bs px d' : trial d p bs px d' -> exists s, surface_at d' p = Some s /\ surface_ok s /\ sf_pixels s = px.
Proof. intros (s & _ & Hpx & _ & Hok & _ & Hs). exists s. split; [|done]. unfold surface_at. rewrite Hs. apply lookup_insert_eq. Qed.

Lemma trial_drawn d p bs px d1 (f : display -> display) :
  trial d p bs px d1 -> (forall s, surface_at d1 p = Some s -> surface_ok s -> exists s', redraw p s d1 s' (f d1)) ->
  trial d p bs px (f d1).
Proof.
  intros Ht Hf. destruct (trial_at d p bs px d1 Ht) as (s & Hs & Hok & Hpx). destruct (Hf s Hs Hok) as [s' Hr].
  destruct Ht as (s1 & Hb & _ & Hhb & _ & Hg & Hss). exists s'. destruct (rd_plane _ _ _ _ _ Hr) as (A & _). split_and!.
  - by eapply redraw_backed.
  - congruence.
  - by rewrite (rd_heap _ _ _ _ _ Hr).
  - apply (rd_ok _ _ _ _ _ Hr).
  - by rewrite (rd_gop _ _ _ _ _ Hr).
  - rewrite (rd_surfaces _ _ _ _ _ Hr), Hss. by rewrite insert_insert_eq.
Qed.

Lemma trial_taken d p bs px d1 : trial d p bs px d1 -> trial d p bs px (snd (surface_take_damage d1 p)).
Proof.
  intros Ht. destruct (trial_at d p bs px d1 Ht) as (s & Hs & Hok & Hpx). rewrite (take_damage_eq d1 p s Hs Hok).
  destruct (sf_dirty s); [|done]. destruct Ht as (s1 & Hb & _ & Hhb & _ & Hg & Hss). exists (set_damage s false rect0). split_and!; try done.
  - by apply calm_backed.
  - destruct Hok. by constructor.
  - cbn. rewrite Hss. by rewrite insert_insert_eq.
Qed.

(** The drawing calls of the self test. *)
Definition test_drawn (d : display) (test : Z) : display :=
  surface_scroll_rect_up (surface_fill_rect (surface_clear d test 0x11) test 2 2 3 3 0x22) test 2 2 3 3 1 0x33.

Lemma test_drawn_trial d p bs px d1 : trial d p bs px d1 -> trial d p bs px (test_drawn d1 p).
Proof.
  intros T1. unfold test_drawn. set (d2 := surface_clear d1 p 0x11).
  assert (trial d p bs px d2) as T2 by (apply (trial_drawn d p bs px d1 (fun d => surface_clear d p 0x11)); [done|intros; by apply clear_drawn]).
  set (d3 := surface_fill_rect d2 p 2 2 3 3 0x22).
  assert (trial d p bs px d3) as T3
    by (apply (trial_drawn d p bs px d2 (fun d => surface_fill_rect d p 2 2 3 3 0x22)); [done|intros; by apply fill_rect_drawn]).
  apply (trial_drawn d p bs px d3 (fun d => surface_scroll_rect_up d p 2 2 3 3 1 0x33)); [done|intros; by apply scroll_drawn].
Qed.

(** Whatever it finds, the self test leaves the display as it was. *)
Lemma self_test_backed d bs test :
  backed d bs -> test <> 0 -> (forall s, surface_at d test = Some s -> s = surface0) ->
  exists bs', let d' := snd (surface_self_test d test) in
    backed d' bs' /\ dp_gop d' = dp_gop d /\ dp_surfaces d' = <[test := surface0]> (dp_surfaces d).
Proof.
  intros Hb H0 Hfree. unfold surface_self_test. set (d0 := put_surface d test surface0).
  assert (backed d0 bs) as Hb0.
  { eapply (backed_put d bs d0 bs test surface0); try done; [apply Hb|by left]. }
  assert (surface_at d0 test = Some surface0) as Hs0 by apply lookup_insert_eq.
  destruct (init_backed d0 bs test surface0 8 8 Hb0 Hs0) as [[-> _]|(px & bs1 & d1 & s & -> & Hb1 & Hg1 & Hhb1 & Hpx1 & _ & Hss1 & Hok1 & _)];
    [done|done| |].
  { exists bs. done. }
  cbn [negb]. assert (trial d test bs1 px d1) as T1.
  { exists s. split_and!; try done. rewrite Hss1. cbn. by rewrite insert_insert_eq. }
  pose proof (test_drawn_trial d test bs1 px d1 T1) as T4. unfold test_drawn in T4. cbv zeta. set (d4 := surface_scroll_rect_up _ _ _ _ _ _ _ _) in *.
  pose proof (trial_taken d test bs1 px d4 T4) as T5. destruct (surface_take_damage d4 test) as [taken d5]. cbn [snd] in T5.
  pose proof (trial_taken d test bs1 px d5 T5) as T6. destruct (surface_take_damage d5 test) as [again d6]. cbn [snd] in *.
  destruct (trial_at d test bs1 px d6 T6) as (s6 & Hs6 & _). destruct T6 as (s6' & Hb6 & _ & _ & _ & Hg6 & Hss6).
  destruct (destroy_backed d6 bs1 test s6 Hb6 Hs6) as (bs7 & Hb7 & Hg7 & Hss7).
  exists bs7. split_and!; [done|by rewrite Hg7|]. rewrite Hss7, Hss6. by rewrite insert_insert_eq.
Qed.

(** ** The self test passes *)

(** An 8 by 8 surface at [p] whose pixels are [f] and which is all damaged. *)
Definition square (p : Z) (f : Z -> Z -> Z) (d : display) : Prop :=
  exists s, surface_at d p = Some s /\ surface_ok s /\ sf_width s = 8 /\ sf_height s = 8 /\
    (forall x y, 0 <= x < 8 -> 0 <= y < 8 -> surface_pixel (dp_mem d) s x y = f x y /\ damaged s x y = true).

Lemma square_getpixel p f d x y : square p f d -> 0 <= x < 8 -> 0 <= y < 8 -> surface_getpixel d p x y = f x y.
Proof.
  intros (s & Hs & Hok & Hw & Hh & Hf) Hx Hy. rewrite (getpixel_pixel d p s) by (done || lia). rewrite Hw, Hh.
  destruct (in_rect 0 0 8 8 x y) eqn:E; [by apply Hf|]. apply in_rect_false in E. lia.
Qed.

(** Drawing on a damaged square. *)
Lemma square_drawn p f g d d' :
  square p f d -> (forall s, surface_at d p = Some s -> surface_ok s -> sf_width s = 8 -> sf_height s = 8 -> exists h, drawn p s d d' h /\
     forall x y, 0 <= x < 8 -> 0 <= y < 8 -> (forall a b, 0 <= a < 8 -> 0 <= b < 8 -> surface_pixel (dp_mem d) s a b = f a b) -> h x y = g x y) ->
  square p g d'.
Proof.
  intros (s & Hs & Hok & Hw & Hh & Hf) Hd. destruct (Hd s Hs Hok Hw Hh) as (h & [[s' Hr] Hpx] & Hg).
  pose proof (rd_plane _ _ _ _ _ Hr) as (A & B & C & D). exists s'. split_and!; [by eapply redraw_at|apply (rd_ok _ _ _ _ _ Hr)|congruence|congruence|].
  intros x y Hx Hy. split.
  - unfold surface_pixel. rewrite A, D. change (surface_pixel (dp_mem d') s x y = g x y).
    rewrite Hpx by (unfold on_surface; lia). apply Hg; [done|done|]. intros. by apply Hf.
  - apply (rd_grows _ _ _ _ _ Hr). by apply Hf.
Qed.

(** The damage of a square that is all damaged is the square. *)
Lemma square_damage p f d :
  square p f d -> exists s, surface_at d p = Some s /\ surface_ok s /\ sf_dirty s = true /\ sf_damage s = mk_rect 0 0 8 8.
Proof.
  intros (s & Hs & Hok & Hw & Hh & Hf). exists s. destruct (Hf 0 0) as [_ H00]; [lia|lia|]. destruct (Hf 7 7) as [_ H77]; [lia|lia|].
  unfold damaged in H00, H77. apply andb_true_iff in H00 as [Hd H00]. apply andb_true_iff in H77 as [_ H77].
  apply covers_true in H00, H77. destruct (so_damage _ Hok Hd) as (? & ? & ? & ? & ? & ?). split_and!; try done.
  destruct (sf_damage s) as [x y w h]. cbn in *. f_equal; lia.
Qed.

Lemma cleared_square d p s color :
  surface_at d p = Some s -> surface_ok s -> sf_width s = 8 -> sf_height s = 8 -> sf_dirty s = false ->
  square p (fun _ _ => u32 color) (surface_clear d p color).
Proof.
  intros Hs Hok Hw Hh Hd. destruct (clear_drawn d p s color Hs Hok) as [[s' Hr] Hpx].
  pose proof (rd_plane _ _ _ _ _ Hr) as (A & B & C & D). exists s'. split_and!; [by eapply redraw_at|apply (rd_ok _ _ _ _ _ Hr)|congruence|congruence|].
  intros x y Hx Hy. split.
  - unfold surface_pixel. rewrite A, D. apply Hpx. unfold on_surface. lia.
  - assert (surface_at (surface_clear d p color) p = Some (set_damage s true (mk_rect 0 0 (sf_width s) (sf_height s)))) as E.
    { unfold surface_clear. rewrite Hs, (valid_of_ok s Hok). cbn [negb]. cbv zeta. set (m := for_range _ _ _ _). unfold surface_mark_dirty.
      change (surface_at (put_mem d m) p) with (surface_at d p). rewrite Hs. unfold off_surface. rewrite (valid_of_ok s Hok), Hw, Hh, Hd.
      apply lookup_insert_eq. }
    pose proof (redraw_at _ _ _ _ _ Hr) as E'. rewrite E in E'. injection E' as <-. unfold damaged. cbn. rewrite Hw, Hh.
    apply covers_true. cbn. lia.
Qed.

(** The pixels the calls leave. *)
Definition test_pixel (x y : Z) : Z :=
  if in_rect 2 2 3 3 x y then if y + 1 <? 5 then 0x22 else 0x33 else 0x11.

Lemma test_drawn_square d p s :
  surface_at d p = Some s -> surface_ok s -> sf_width s = 8 -> sf_height s = 8 -> sf_dirty s = false ->
  let d2 := surface_clear d p 0x11 in
  let d3 := surface_fill_rect d2 p 2 2 3 3 0x22 in
  square p (fun x y => if in_rect 2 2 3 3 x y then 0x22 else 0x11) d3 /\ square p test_pixel (test_drawn d p).
Proof.
  intros Hs Hok Hw Hh Hd d2 d3. pose proof (cleared_square d p s 0x11 Hs Hok Hw Hh Hd) as Q2. fold d2 in Q2.
  assert (square p (fun x y => if in_rect 2 2 3 3 x y then 0x22 else 0x11) d3) as Q3.
  { eapply square_drawn; [exact Q2|]. intros s2 Hs2 Hok2 Hw2 Hh2. eexists. split; [by apply fill_rect_drawn|].
    intros x y Hx Hy Hp. cbn. destruct (in_rect 2 2 3 3 x y); [done|]. by rewrite Hp. }
  split; [done|]. eapply square_drawn; [exact Q3|]. intros s3 Hs3 Hok3 Hw3 Hh3. eexists. split; [by apply scroll_drawn|].
  intros x y Hx Hy Hp. cbv beta. unfold test_pixel. destruct (in_rect 2 2 3 3 x y) eqn:Ein; [|by rewrite Hp by lia; rewrite Ein].
  rewrite Hh3. change (Z.min (2 + 3) 8) with 5. destruct (Z.ltb_spec (y + 1) 5); [|done]. apply in_rect_true in Ein. rewrite Hp by lia.
  assert (in_rect 2 2 3 3 x (y + 1) = true) as -> by (apply in_rect_true; lia). done.
Qed.

(** First fit on a heap whose only free block is the last. *)
Lemma kmalloc_last base n l N :
  Forall (fun b => bl_free b = false) l -> 0 < n -> n + 63 <= N ->
  exists k, n <= k <= n + 15 /\
    abs_kmalloc base n (l ++ [mk_block N true])
    = Some (blocks_end base l + HEADER, (l ++ [mk_block k false]) ++ [mk_block (N - k - HEADER) true]).
Proof.
  intros Hl Hn HN. unfold abs_kmalloc. destruct (Z.eqb_spec n 0); [lia|]. set (k := (n + 15) / 16 * 16).
  assert (n <= k <= n + 15) as Hk by (unfold k; pose proof (Z.div_mod (n + 15) 16); pose proof (Z.mod_pos_bound (n + 15) 16); lia).
  exists k. split; [done|]. clearbody k. revert base. induction Hl as [|b l Hb Hl IH]; intros base.
  - cbn [app abs_malloc bl_free bl_size andb]. destruct (Z.leb_spec k N); [|lia]. unfold HEADER, HEAP_ALIGNMENT in *.
    destruct (Z.leb_spec (k + 32 + 16) N); [done|lia].
  - cbn [app abs_malloc]. rewrite Hb. cbn [andb]. by rewrite IH, blocks_end_cons.
Qed.

Lemma self_test_passes d N test :
  backed d [mk_block N true] -> 512 <= N -> test <> 0 -> (forall s, surface_at d test = Some s -> s = surface0) ->
  exists d', surface_self_test d test = (true, d') /\ backed d' [mk_block N true] /\ dp_gop d' = dp_gop d /\
    dp_surfaces d' = <[test := surface0]> (dp_surfaces d).
Proof.
  intros Hb HN H0 Hfree. unfold surface_self_test. set (d0 := put_surface d test surface0).
  assert (backed d0 [mk_block N true]) as Hb0.
  { eapply (backed_put d _ d0 _ test surface0); try done; [apply Hb|by left]. }
  assert (surface_at d0 test = Some surface0) as Hs0 by apply lookup_insert_eq.
  destruct (kmalloc_last (heap_base (dp_heap d0)) 256 [] N) as (k & Hk & Ek); [constructor|lia|lia|]. cbn [app] in Ek.
  destruct (init_backed d0 _ test surface0 8 8 Hb0 Hs0) as [[_ Hno]|(px & bs1 & d1 & s & -> & Hb1 & Hg1 & Hhb1 & Hpx1 & Ea & Hss1 & Hok1 & Hsw & Hsh & Hsd)];
    [done|done| |].
  { change (8 * 8 * 4) with 256 in Hno. rewrite Ek in Hno. discriminate Hno. done. }
  change (8 * 8 * 4) with 256 in Ea. rewrite Ek in Ea. injection Ea as <- <-.
  cbn [negb]. set (bs1 := [mk_block k false; mk_block (N - k - HEADER) true]) in *.
  assert (trial d test bs1 (blocks_end (heap_base (dp_heap d0)) [] + HEADER) d1) as T1.
  { exists s. split_and!; try done. rewrite Hss1. cbn. by rewrite insert_insert_eq. }
  assert (surface_at d1 test = Some s) as Hs1 by (unfold surface_at; rewrite Hss1; apply lookup_insert_eq).
  destruct (test_drawn_square d1 test s Hs1 Hok1 Hsw Hsh Hsd) as [Q3 Q4].
  pose proof (test_drawn_trial d test bs1 _ d1 T1) as T4. unfold test_drawn in Q4, T4. cbv zeta.
  rewrite !(square_getpixel test _ _ _ _ Q3) by lia.
  set (d4 := surface_scroll_rect_up _ _ _ _ _ _ _ _) in *. rewrite (square_getpixel test _ _ _ _ Q4) by lia.
  destruct (square_damage test _ d4 Q4) as (s4 & Hs4 & Hok4 & Hdirty & Hdm).
  pose proof (trial_taken d test bs1 _ d4 T4) as T5. rewrite (take_damage_eq d4 test s4 Hs4 Hok4), Hdirty, Hdm in *. cbn [snd] in T5.
  set (d5 := calmed d4 test s4) in *.
  assert (surface_at d5 test = Some (set_damage s4 false rect0)) as Hs5 by apply lookup_insert_eq.
  assert (surface_ok (set_damage s4 false rect0)) as Hok5 by (destruct Hok4; by constructor).
  rewrite (take_damage_eq d5 test _ Hs5 Hok5). cbn [sf_dirty set_damage].
  destruct (trial_at d test bs1 _ d5 T5) as (s5 & Hs5' & _ & Hpx5). rewrite Hs5 in Hs5'. injection Hs5' as <-.
  destruct T5 as (s5' & Hb5 & _ & Hhb5 & _ & Hg5 & Hss5).
  destruct (destroy_used d5 [] (mk_block k false) [mk_block (N - k - HEADER) true] test _ Hb5 Hs5 Hok5) as (Hb7 & Hg7 & Hss7);
    [done|by rewrite Hhb5|].
  eexists. split; [reflexivity|]. split_and!; [|by rewrite Hg7|rewrite Hss7, Hss5; by rewrite insert_insert_eq].
  cbn in Hb7. by replace (k + HEADER + (N - k - HEADER)) with N in Hb7 by lia.
Qed.


(** The surfaces are made one after the other. *)
Definition sized (d : display) (e : Z * Z * Z) : Prop :=
  exists s, surface_at d e.1.1 = Some s /\ surface_ok s /\ sf_width s = e.1.2 /\ sf_height s = e.2.

Lemma init_surfaces_backed l : forall d bs,
  backed d bs -> NoDup (map (fun e => e.1.1) l) ->
  Forall (fun e => 0 < e.1.2 <= UINT32_MAX /\ 0 < e.2 <= UINT32_MAX /\ exists s, surface_at d e.1.1 = Some s) l ->
  forall d', init_surfaces l d = (true, d') ->
  exists bs', backed d' bs' /\ dp_gop d' = dp_gop d /\ Forall (sized d') l /\
    forall q, ~ In q (map (fun e => e.1.1) l) -> surface_at d' q = surface_at d q.
Proof.
  induction l as [|[[p w] h] l IH]; intros d bs Hb Hnd Hl d' Hi.
  { injection Hi as <-. exists bs. split_and!; [done|done|constructor|done]. }
  cbn [map fst snd] in Hnd. apply NoDup_cons in Hnd as [Hp Hnd]. apply Forall_cons in Hl as [(Hw & Hh & s & Hs) Hl]. cbn [fst snd] in *.
  cbn [init_surfaces] in Hi. destruct (init_backed d bs p s w h Hb Hs Hw Hh) as [[E _]|(px & bs1 & d1 & s1 & E & Hb1 & Hg1 & _ & _ & _ & Hss1 & Hok1 & Hsw & Hsh & _)];
    rewrite E in Hi; [done|]. rewrite list_elem_of_In in Hp.
  assert (forall q, q <> p -> surface_at d1 q = surface_at d q) as Hoth.
  { intros q Hq. unfold surface_at. rewrite Hss1. by rewrite lookup_insert_ne. }
  assert (surface_at d1 p = Some s1) as Hs1 by (unfold surface_at; rewrite Hss1; apply lookup_insert_eq).
  destruct (IH d1 bs1 Hb1 Hnd) with (d' := d') as (bs2 & Hb2 & Hg2 & Hsz & Ho2); [|done|].
  { rewrite List.Forall_forall in Hl |- *. intros e He. destruct (Hl e He) as (Hew & Heh & s2 & Hs2). refine (conj Hew (conj Heh _)).
    destruct (Z.eq_dec e.1.1 p) as [E1|Hne]; [rewrite E1; by exists s1|]. exists s2. by rewrite Hoth. }
  exists bs2. split_and!; [done|by rewrite Hg2| |].
  - constructor; [|done]. exists s1. split_and!; try done. change (surface_at d' p = Some s1). by rewrite Ho2.
  - intros q Hq. rewrite Ho2, Hoth; [done| |]; intros Hq'; apply Hq; [left; cbn; by symmetry|by right].
Qed.

(** ** The windows *)

Section Windows.
Context (app_surface : Z -> Z) (panel_surface : Z).
(** The surfaces are different objects, none of them at the null address. *)
Context (Hinj : forall i j, 0 <= i < APP_COUNT -> 0 <= j < APP_COUNT -> app_surface i = app_surface j -> i = j).
Context (Hpanel : forall i, 0 <= i < APP_COUNT -> app_surface i <> panel_surface).
Context (Hnull : panel_surface <> 0 /\ forall i, 0 <= i < APP_COUNT -> app_surface i <> 0).

(** The first [k] windows, in the order of the applications, with their ids. *)
Record placed (v : Z -> Z -> Z) (d : display) (k : Z) (ids : list Z) (c : argus_compositor_t) : Prop := {
  pl_view : ui_view v c d;
  pl_count : cp_window_count c = k;
  pl_windows : forall i, 0 <= i < k -> win_surface (window_at c i) = app_surface i;
  pl_length : length ids = Z.to_nat APP_COUNT;
  pl_ids : forall i, 0 <= i < k -> zget 0 ids i = i;
  pl_range : Forall (fun x => 0 <= x) ids }.

Lemma add_window_effect c d p x y id c' :
  compositor_add_window c d p x y = (Some id, c') -> length (cp_windows c) = 8%nat -> 0 <= cp_window_count c ->
  id = cp_window_count c /\ cp_window_count c' = cp_window_count c + 1 /\
  cp_width c' = cp_width c /\ cp_height c' = cp_height c /\ cp_work_height c' = cp_work_height c /\ cp_panel c' = cp_panel c /\
  forall i, 0 <= i <= cp_window_count c ->
    win_surface (window_at c' i) = if i =? cp_window_count c then p else win_surface (window_at c i).
Proof.
  intros E Hl Hc. unfold compositor_add_window in E. destruct (_ || _ || _ || _) eqn:Eg in E; [done|]. cbv zeta in E.
  rewrite !orb_false_iff in Eg. destruct Eg as [[[_ Eg] _] _]. unfold ARGUS_COMPOSITOR_MAX_WINDOWS in Eg. b2p. injection E as <- <-.
  match goal with |- context [compositor_damage ?a ?x ?y ?w ?h] => destruct (compositor_damage_frame a x y w h) as (dm & n & ->) end.
  cbn [cp_window_count cp_width cp_height cp_work_height cp_panel set_damages set_windows]. rewrite u32_id by (unfold UINT32_MAX; lia).
  split_and!; try done. intros i Hi. unfold window_at at 1. cbn [cp_windows set_damages set_windows].
  destruct (Z.eqb_spec i (cp_window_count c)) as [->|]; [by rewrite zget_zset_eq by lia|by rewrite zget_zset_ne by lia].
Qed.

(** The screen the windows are placed on, before it has a panel. *)
Definition same_area (c c' : argus_compositor_t) : Prop :=
  cp_width c' = cp_width c /\ cp_height c' = cp_height c /\ cp_work_height c' = cp_work_height c /\ cp_panel c' = cp_panel c.

Lemma add_window_placed v d k ids c x y id c' :
  placed v d k ids c -> cp_panel c = 0 -> 0 <= k < APP_COUNT -> 0 <= x -> 0 <= y ->
  compositor_add_window c d (app_surface k) x y = (Some id, c') -> placed v d (k + 1) (zset ids k id) c' /\ same_area c c'.
Proof.
  intros [V C W L I R] H0 Hk Hx Hy Ea. destruct (sc_lengths _ _ (ui_scene _ _ V)) as [Hl _].
  destruct (add_window_effect _ _ _ _ _ _ _ Ea Hl) as (-> & C1 & W1 & H1 & K1 & P1 & S1); [lia|]. rewrite C in *.
  split; [|done]. constructor.
  - pose proof (add_window_step (v := v) c d (app_surface k) x y V) as Hstep. rewrite Ea in Hstep. apply Hstep; [|done|done].
    split; [rewrite H0; apply Hnull; lia|]. rewrite C. intros i Hi Heq. rewrite W in Heq by done.
    pose proof (Hinj i k ltac:(lia) ltac:(lia) Heq). lia.
  - done.
  - intros i Hi. rewrite S1 by lia. destruct (Z.eqb_spec i k) as [->|]; [done|apply W; lia].
  - by rewrite zset_length.
  - intros i Hi. destruct (Z.eq_dec i k) as [->|]; [rewrite zget_zset_eq by (unfold APP_COUNT in *; lia); done|].
    rewrite zget_zset_ne by lia. apply I. lia.
  - apply zset_Forall; [done|lia].
Qed.

(** The list of windows from the [k]th on. *)
Definition from_window (k : Z) (ws : list (Z * Z * Z)) : Prop :=
  k + Z.of_nat (length ws) = APP_COUNT /\ forall n e, ws !! n = Some e -> e.1.1 = k + Z.of_nat n /\ 0 <= e.1.2 /\ 0 <= e.2.

Lemma from_window_cons k i x y ws :
  from_window k ((i, x, y) :: ws) -> i = k /\ 0 <= x /\ 0 <= y /\ k < APP_COUNT /\ from_window (k + 1) ws.
Proof.
  intros [Hl Hw]. destruct (Hw 0%nat _ eq_refl) as (Hi & Hx & Hy). cbn in *. split_and!; try lia. split; [lia|].
  intros n e He. destruct (Hw (S n) e He) as (? & ? & ?). split_and!; lia.
Qed.

Lemma add_windows_placed v d ws : forall k ids c,
  placed v d k ids c -> cp_panel c = 0 -> 0 <= k -> from_window k ws ->
  forall ids' c', add_windows app_surface ws d ids c = (true, ids', c') -> placed v d APP_COUNT ids' c' /\ same_area c c'.
Proof.
  induction ws as [|[[i x] y] ws IH]; intros k ids c Hp H0 Hk Hws ids' c' E.
  { destruct Hws as [Hlen _]. cbn in Hlen. injection E as <- <-. by replace APP_COUNT with k by lia. }
  apply from_window_cons in Hws as (-> & Hx & Hy & Hlt & Hws). cbn [add_windows] in E.
  destruct (compositor_add_window c d (app_surface k) x y) as [[id|] c1] eqn:Ea; [|done].
  destruct (add_window_placed v d k ids c x y id c1 Hp H0 (conj Hk Hlt) Hx Hy Ea) as [Hp1 (A1 & A2 & A3 & A4)].
  destruct (IH (k + 1) _ c1 Hp1) with (ids' := ids') (c' := c') as [Hp2 (B1 & B2 & B3 & B4)]; [by rewrite A4|lia|done|done|].
  split; [done|]. unfold same_area. split_and!; congruence.
Qed.

(** A window that fits is added. *)
Definition all_fit (d : display) (c : argus_compositor_t) : Prop := forall i, 0 <= i < APP_COUNT ->
  surface_valid d (app_surface i) = true /\ surface_width d (app_surface i) <= cp_width c /\
  surface_height d (app_surface i) <= cp_work_height c.

Lemma add_windows_succeed v d ws : forall k ids c,
  placed v d k ids c -> cp_panel c = 0 -> 0 <= k -> from_window k ws -> all_fit d c ->
  exists ids' c', add_windows app_surface ws d ids c = (true, ids', c').
Proof.
  induction ws as [|[[i x] y] ws IH]; intros k ids c Hp H0 Hk Hws Hfit; [by eexists _, _|].
  apply from_window_cons in Hws as (-> & Hx & Hy & Hlt & Hws). cbn [add_windows].
  destruct (Hfit k (conj Hk Hlt)) as (Hv & Hw & Hh).
  destruct (compositor_add_window c d (app_surface k) x y) as [[id|] c1] eqn:Ea.
  - destruct (add_window_placed v d k ids c x y id c1 Hp H0 (conj Hk Hlt) Hx Hy Ea) as [Hp1 (A1 & A2 & A3 & A4)].
    apply (IH (k + 1) _ c1 Hp1); [by rewrite A4|lia|done|]. intros j Hj. rewrite A1, A3. by apply Hfit.
  - exfalso. unfold compositor_add_window in Ea. rewrite Hv, (pl_count _ _ _ _ _ Hp) in Ea. unfold ARGUS_COMPOSITOR_MAX_WINDOWS in Ea.
    destruct (Z.leb_spec 8 k); [unfold APP_COUNT in *; lia|]. destruct (Z.ltb_spec (cp_width c) (surface_width d (app_surface k))); [lia|].
    by destruct (Z.ltb_spec (cp_work_height c) (surface_height d (app_surface k))); [lia|].
Qed.

Lemma set_panel_effect c d p y c' :
  compositor_set_panel c d p y = (true, c') ->
  cp_window_count c' = cp_window_count c /\ cp_windows c' = cp_windows c /\ cp_width c' = cp_width c /\ cp_height c' = cp_height c.
Proof.
  unfold compositor_set_panel. case_if; [done|]. intros [= <-].
  match goal with |- context [compositor_damage ?a ?x ?y ?w ?h] => destruct (compositor_damage_frame a x y w h) as (dm & n & ->) end. done.
Qed.

(** Every window is hidden. *)
Lemma hide_windows_placed v d ids n : forall i c,
  placed v d APP_COUNT ids c -> 0 <= i -> i + Z.of_nat n = APP_COUNT ->
  (forall j, 0 <= j < i -> win_visible (window_at c j) = false) ->
  forall ok c', hide_windows n d ids i c = (ok, c') ->
  ok = true /\ placed v d APP_COUNT ids c' /\ rearranged c c' /\ forall j, 0 <= j < APP_COUNT -> win_visible (window_at c' j) = false.
Proof.
  induction n as [|n IH]; intros i c Hp Hi Hn Hh ok c' E.
  { injection E as <- <-. split_and!; [done|done|apply rearranged_refl|]. intros j Hj. apply Hh. lia. }
  cbn [hide_windows] in E. pose proof Hp as [V C W L I R]. rewrite I in E by lia.
  pose proof (set_visible_rearranges c d i 0) as Hr. pose proof (set_visible_step (v := v) c d i 0 V Hi) as V1.
  destruct (compositor_set_window_visible c d i 0) as [b c1]. cbn [snd] in V1.
  destruct Hr as (-> & Hr & Hv); [lia|destruct (sc_lengths _ _ (ui_scene _ _ V)) as [-> _]; rewrite C; unfold APP_COUNT; lia|].
  destruct (IH (i + 1) c1) with (ok := ok) (c' := c') as (O & A & B & D); try done; try lia.
  - constructor; try done; [by rewrite (ra_count _ _ Hr)|]. intros j Hj. rewrite (ra_surfaces _ _ Hr) by lia. by apply W.
  - intros j Hj. rewrite Hv by lia. destruct (Z.eqb_spec j i); [done|apply Hh; lia].
  - split_and!; [done|done|by eapply rearranged_trans|done].
Qed.

Lemma fresh_view d c0 width height work background c :
  display_ok d -> 0 <= width <= UINT32_MAX -> 0 <= height <= UINT32_MAX -> 0 <= work -> 0 <= background <= UINT32_MAX ->
  compositor_init c0 width height work background = (true, c) -> ui_view (composition c d) c d.
Proof.
  intros Hd Hw Hh Hwh Hb. unfold compositor_init. case_if; [done|]. unfold nz in *. b2p. intros [= <-].
  constructor; [done| | |intros x y _; by right]; constructor; cbn; try done; lia.
Qed.

(** ** Colours and sizes *)

Lemma lor_u32 a b : 0 <= a <= UINT32_MAX -> 0 <= b <= UINT32_MAX -> 0 <= Z.lor a b <= UINT32_MAX.
Proof.
  intros Ha Hb. split; [apply Z.lor_nonneg; lia|]. change UINT32_MAX with (Z.ones 32) in *.
  assert (Z.lor a b = Z.land (Z.lor a b) (Z.ones 32)) as ->.
  { rewrite Z.land_lor_distr_l, !Z.land_ones, !Z.mod_small by (change (2 ^ 32) with (Z.ones 32 + 1); lia). done. }
  rewrite Z.land_ones by lia. pose proof (Z.mod_pos_bound (Z.lor a b) (2 ^ 32)). change (Z.ones 32) with (2 ^ 32 - 1). lia.
Qed.

Lemma land_u32 a b : 0 <= a <= UINT32_MAX -> 0 <= Z.land a b <= UINT32_MAX.
Proof.
  intros Ha. change UINT32_MAX with (Z.ones 32) in *.
  assert (Z.land a b = Z.land (Z.land a b) (Z.ones 32)) as ->.
  { rewrite <- (Z.land_assoc a b), (Z.land_comm b), Z.land_assoc, (Z.land_ones a), Z.mod_small
      by (change (2 ^ 32) with (Z.ones 32 + 1); lia). done. }
  rewrite Z.land_ones by lia. pose proof (Z.mod_pos_bound (Z.land a b) (2 ^ 32)). change (Z.ones 32) with (2 ^ 32 - 1). lia.
Qed.

Lemma scale_range v mask : 0 <= scale_to_mask v mask <= UINT32_MAX.
Proof. unfold scale_to_mask. case_if; [done|]. cbv zeta. apply land_u32, u32_range. Qed.

Lemma rgb_range g r gr b : 0 <= r < 256 -> 0 <= gr < 256 -> 0 <= b < 256 -> 0 <= gop_rgb g r gr b <= UINT32_MAX.
Proof.
  intros Hr Hg Hb. unfold gop_rgb. destruct (gop_format g); try done;
    repeat apply lor_u32; try apply scale_range; rewrite ?Z.shiftl_mul_pow2 by lia; unfold UINT32_MAX; lia.
Qed.

Lemma sizes_wf l width work sizes :
  layout_ok l -> 640 <= width <= UINT32_MAX -> 0 < work <= UINT32_MAX ->
  surface_sizes app_surface panel_surface l width work = Some sizes ->
  map (fun e => e.1.1) sizes = map app_surface (zrange 0 7) ++ [panel_surface] /\
  Forall (fun e => 0 < e.1.2 <= UINT32_MAX /\ 0 < e.2 <= UINT32_MAX) sizes /\
  forall i, APP_SNAKE <= i <= APP_NOTES ->
    In (app_surface i, ARGUS_APP_SURFACE_WIDTH + 14, title_height l + ARGUS_APP_SURFACE_HEIGHT + 15) sizes.
Proof.
  intros Hl Hw Hk. unfold surface_sizes. rewrite !minimum_min. cbv zeta.
  rewrite (u32_id (title_height l + ARGUS_APP_SURFACE_HEIGHT + 15)) by (unfold ARGUS_APP_SURFACE_HEIGHT, UINT32_MAX; destruct Hl; lia).
  set (cw := Z.min (if 1000 <=? width then _ else _) _). set (ch := Z.min (if 680 <=? work then _ else _) _).
  set (uw := if 700 <=? width then _ else _). set (sh := Z.min 238 _). set (fh := Z.min 320 _). set (ah := Z.min (if scale l =? 2 then 244 else 160) _).
  assert (forall x, u32 x <= UINT32_MAX) as Hu by (intros; apply u32_range).
  assert (cw <= UINT32_MAX /\ ch <= UINT32_MAX /\ uw <= UINT32_MAX /\ sh <= UINT32_MAX /\ fh <= UINT32_MAX /\ ah <= UINT32_MAX) as Hmax.
  { unfold cw, ch, uw, sh, fh, ah. pose proof (Hu (width - 24)). pose proof (Hu (work - 24)).
    split_and!; try lia. destruct (700 <=? width); [done|lia]. }
  destruct (_ || _) eqn:Eg; [done|]. intros [= <-]. rewrite !orb_false_iff in Eg.
  destruct Eg as [[[[[[[E1 E2] E3] E4] E5] E6] _] _]. b2p.
  assert (0 < ah) by (destruct (scale l =? 2); lia).
  split_and!; [done| |].
  - destruct Hl as [(_ & Hp & Ht)|(_ & Hp & Ht)]; rewrite Hp, Ht; unfold ARGUS_APP_SURFACE_WIDTH, ARGUS_APP_SURFACE_HEIGHT;
      repeat (apply Forall_cons_2; [cbn [fst snd]; unfold UINT32_MAX in *; lia|]); apply Forall_nil_2.
  - unfold APP_SNAKE, APP_NOTES. intros i Hi. assert (i = 4 \/ i = 5 \/ i = 6) as [ -> | [ -> | -> ] ] by lia; cbn; auto 8.
Qed.

(** ** [desktop_init] *)

Context {K : Type} `{Services K}.
Context (stray : Z -> Z).
#[local] Abbreviation world := (@world K).
#[local] Abbreviation session := (session app_surface).
#[local] Abbreviation desk := (desk app_surface).
#[local] Abbreviation tracks := (tracks app_surface).
#[local] Abbreviation keeps_desk := (keeps_desk app_surface).

(** The state in which the kernel calls [desktop_init]: the heap holds the display's
    planes, the statics of desktop.c are there, the stack has room for the self
    test's surface, and the console has been set up by [console_init]. *)
Record start_ok (test : Z) (w : world) : Prop := {
  st_backed : exists bs, backed (w_display w) bs;
  st_statics : forall p, In p (map app_surface (zrange 0 7) ++ [panel_surface]) -> exists s, surface_at (w_display w) p = Some s;
  st_test : test <> 0 /\ ~ In test (map app_surface (zrange 0 7) ++ [panel_surface]);
  st_stack : forall s, surface_at (w_display w) test = Some s -> s = surface0;
  st_ids : length (compositor_ids (w_layout w)) = Z.to_nat APP_COUNT /\ Forall (fun x => 0 <= x) (compositor_ids (w_layout w));
  st_saved : length (pointer_saved (dk_pointer (w_desktop w))) = Z.to_nat (POINTER_WIDTH * POINTER_HEIGHT);
  st_cells : con_scale (cw_con (w_console w)) = 1 \/ con_scale (cw_con (w_console w)) = 2;
  st_cell : cell_w (cw_con (w_console w)) = 6 * con_scale (cw_con (w_console w)) /\
            cell_h (cw_con (w_console w)) = 9 * con_scale (cw_con (w_console w)) }.

Lemma reset_layout k g : layout_ok (dk_layout (reset_desktop k g)).
Proof. unfold reset_desktop, layout_ok. cbv zeta. cbn. destruct (_ && _); auto. Qed.

Lemma surfaces_NoDup : NoDup (map app_surface (zrange 0 7) ++ [panel_surface]).
Proof.
  unfold APP_COUNT in *. assert (forall i, In i (zrange 0 7) -> 0 <= i < 7) as Hr
    by (intros i Hi; apply list_elem_of_In, elem_of_zrange in Hi; lia).
  apply NoDup_app. split_and!.
  - apply NoDup_fmap_2_strong; [|apply NoDup_alt; intros a b e Ha Hb; apply lookup_lt_Some in Ha as La, Hb as Lb;
      rewrite zrange_length in La, Lb; rewrite zrange_lookup in Ha, Hb by done; simplify_eq; lia].
    intros i j Hi Hj E. apply Hinj; [apply Hr; by apply list_elem_of_In|apply Hr; by apply list_elem_of_In|done].
  - intros p Hp Hq. apply list_elem_of_In, in_map_iff in Hp as (i & <- & Hi). apply list_elem_of_singleton in Hq.
    by apply (Hpanel i (Hr i Hi)).
  - apply NoDup_singleton.
Qed.

Lemma initialize_surfaces_backed l width work d bs d' :
  layout_ok l -> 640 <= width <= UINT32_MAX -> 0 < work <= UINT32_MAX -> backed d bs ->
  (forall p, In p (map app_surface (zrange 0 7) ++ [panel_surface]) -> exists s, surface_at d p = Some s) ->
  initialize_surfaces app_surface panel_surface l width work d = (true, d') ->
  exists bs', backed d' bs' /\ dp_gop d' = dp_gop d /\
    forall i, APP_SNAKE <= i <= APP_NOTES ->
      surface_width d' (app_surface i) = ARGUS_APP_SURFACE_WIDTH + 14 /\
      surface_height d' (app_surface i) = title_height l + ARGUS_APP_SURFACE_HEIGHT + 15.
Proof.
  intros Hl Hw Hk Hb Hst. unfold initialize_surfaces. destruct (surface_sizes _ _ _ _ _) as [sizes|] eqn:Es; [|done].
  destruct (sizes_wf l width work sizes Hl Hw Hk Es) as (Hmap & Hwf & Huser).
  destruct (init_surfaces sizes d) as [ok d1] eqn:Ei. destruct ok; [|done]. intros [= <-].
  destruct (init_surfaces_backed sizes d bs Hb) with (d' := d1) as (bs' & Hb' & Hg & Hsz & _); [by rewrite Hmap; apply surfaces_NoDup| |done|].
  { rewrite List.Forall_forall in Hwf |- *. intros e He. destruct (Hwf e He) as [A B]. refine (conj A (conj B _)).
    apply Hst. rewrite <- Hmap. by apply (in_map (fun e => e.1.1)). }
  exists bs'. split_and!; [done|done|]. intros i Hi. rewrite List.Forall_forall in Hsz.
  destruct (Hsz _ (Huser i Hi)) as (s & Hs & _ & Hsw & Hsh). cbn [fst snd] in *.
  by rewrite (surface_width_at _ _ _ Hs), (surface_height_at _ _ _ Hs).
Qed.

Lemma window_places_wf d width work : from_window 0 (window_places app_surface d width work).
Proof.
  split; [done|]. intros n e He. unfold window_places in He. cbv zeta in He.
  destruct n as [|[|[|[|[|[|[|n]]]]]]]; [injection He as <-; cbn [fst snd]; (split; [done|])..|done]; split;
    try apply u32_nonneg; try (apply Z.div_pos; [apply u32_nonneg|lia]); repeat case_if; try apply u32_nonneg; b2p; try lia.
Qed.

Lemma initialize_compositor_placed l work d c0 ids' c :
  display_ok d -> 0 <= work -> 0 <= col_field (colors l) <= UINT32_MAX ->
  length (compositor_ids l) = Z.to_nat APP_COUNT -> Forall (fun x => 0 <= x) (compositor_ids l) ->
  initialize_compositor app_surface panel_surface l work d c0 = (true, ids', c) ->
  exists v, placed v d APP_COUNT ids' c /\ cp_width c = gop_width (dp_gop d) /\ cp_height c = gop_height (dp_gop d) /\
    forall i, 0 <= i < APP_COUNT -> win_visible (window_at c i) = false.
Proof.
  intros Hd Hwk Hbg Hil Hir. unfold initialize_compositor. cbv zeta. pose proof (do_gop _ Hd) as [_ Hgw Hgp Hgh _ _ _].
  destruct (compositor_init _ _ _ _ _) as [ok c1] eqn:E1. destruct ok; [|done]. cbn [negb].
  pose proof (fresh_view d c0 (gop_width (dp_gop d)) (gop_height (dp_gop d)) work (col_field (colors l)) c1 Hd ltac:(lia) ltac:(lia) Hwk Hbg E1) as V1.
  assert (cp_window_count c1 = 0 /\ cp_panel c1 = 0 /\ cp_width c1 = gop_width (dp_gop d) /\ cp_height c1 = gop_height (dp_gop d))
    as (N1 & P1 & W1 & H1) by (unfold compositor_init in E1; case_if_in E1; [done|]; by injection E1 as <-).
  destruct (add_windows _ _ _ _ _) as [[ok ids2] c2] eqn:E2. destruct ok; [|done]. cbn [negb].
  destruct (add_windows_placed (composition c1 d) d (window_places app_surface d (gop_width (dp_gop d)) work) 0 (compositor_ids l) c1)
    with (ids' := ids2) (c' := c2) as [Pl2 (W2 & H2 & K2 & P2)]; try done.
  { constructor; try done; intros; lia. }
  { apply window_places_wf. }
  destruct (compositor_set_panel _ _ _ _) as [ok c3] eqn:E3. destruct ok; [|done]. cbn [negb].
  destruct (set_panel_effect _ _ _ _ _ E3) as (N3 & S3 & W3 & H3).
  assert (placed (composition c1 d) d APP_COUNT ids2 c3) as Pl3.
  { destruct Pl2 as [V2 N2 S2 L2 I2 R2]. constructor; try done; [|by rewrite N3|intros i Hi; unfold window_at; rewrite S3; by apply S2].
    pose proof (set_panel_step (v := composition c1 d) c2 d panel_surface work V2) as Hs. rewrite E3 in Hs.
    apply Hs; [|congruence|done]. split; [by rewrite P2, P1; apply Hnull|]. rewrite N2. intros i Hi. rewrite S2 by done. by apply Hpanel. }
  destruct (hide_windows _ _ _ _ _) as [ok c4] eqn:E4. intros [= Hok <- <-].
  destruct (hide_windows_placed (composition c1 d) d ids2 (Z.to_nat APP_COUNT) 0 c3) with (ok := ok) (c' := c4) as (_ & Pl4 & R4 & V4);
    try done; [lia|]. exists (composition c1 d). split_and!; [done| | |done].
  - rewrite (ra_width _ _ R4). congruence.
  - rewrite (ra_height _ _ R4). congruence.
Qed.

(** ** It succeeds *)

(** A bound on the heap bytes the surfaces take: the rounding, the headers and a last
    block that is split. *)
Definition surface_bytes (sizes : list (Z * Z * Z)) : Z :=
  foldr (fun e total => 4 * (e.1.2 * e.2) + 63 + total) 0 sizes.

Lemma surface_bytes_nonneg sizes : Forall (fun e => 0 < e.1.2 <= UINT32_MAX /\ 0 < e.2 <= UINT32_MAX) sizes -> 0 <= surface_bytes sizes.
Proof.
  induction 1 as [|e l [H1 H2] _ IH]; [done|].
  change (surface_bytes (e :: l)) with (4 * (e.1.2 * e.2) + 63 + surface_bytes l). nia.
Qed.

Lemma init_surfaces_succeed l : forall d used N,
  backed d (used ++ [mk_block N true]) -> Forall (fun b => bl_free b = false) used ->
  Forall (fun e => 0 < e.1.2 <= UINT32_MAX /\ 0 < e.2 <= UINT32_MAX) l ->
  Forall (fun e => exists s, surface_at d e.1.1 = Some s) l ->
  surface_bytes l <= N -> N <= UINT64_MAX -> exists d', init_surfaces l d = (true, d').
Proof.
  induction l as [|[[p w] h] l IH]; intros d used N Hb Hu Hsz Hst HN HNm; [by exists d|]. cbn [init_surfaces].
  apply Forall_cons in Hsz as [[Hw Hh] Hsz]. apply Forall_cons in Hst as [[s Hs] Hst]. cbn [fst snd surface_bytes foldr] in *.
  change (foldr (fun (e : Z * Z * Z) (total : Z) => 4 * (e.1.2 * e.2) + 63 + total) 0 l) with (surface_bytes l) in HN.
  pose proof (surface_bytes_nonneg l Hsz) as Hrest.
  destruct (kmalloc_last (heap_base (dp_heap d)) (w * h * 4) used N Hu) as (k & Hk & Ek); [nia|nia|].
  destruct (init_backed d _ p s w h Hb Hs Hw Hh) as [[_ Hno]|(px & bs1 & d1 & s1 & -> & Hb1 & _ & _ & _ & Ea & Hss1 & _)].
  { rewrite Ek in Hno. discriminate Hno. nia. }
  rewrite Ek in Ea. injection Ea as _ <-. eapply IH; [exact Hb1| |done| |unfold HEADER; lia|unfold HEADER; lia].
  - apply Forall_app. split; [done|]. by repeat constructor.
  - eapply Forall_impl; [exact Hst|]. intros e [t Ht]. unfold surface_at in *. rewrite Hss1.
    destruct (Z.eq_dec e.1.1 p) as [->|Hne]; [exists s1; apply lookup_insert_eq|]. exists t. by rewrite lookup_insert_ne.
Qed.

(** Every screen of at least 640 by 400 has room for the windows. *)
Lemma sizes_exist k g :
  let l := dk_layout (reset_desktop k g) in
  let work := u32 (gop_height g - panel_height l) in
  640 <= gop_width g <= UINT32_MAX -> 400 <= gop_height g <= UINT32_MAX ->
  exists cw ch uw sh fh ah,
    surface_sizes app_surface panel_surface l (gop_width g) work
    = Some [(app_surface APP_CONSOLE, cw, ch); (app_surface APP_SYSTEM, uw, sh); (app_surface APP_FILES, uw, fh);
            (app_surface APP_APPLICATIONS, uw, ah); (app_surface APP_SNAKE, 334, title_height l + 239);
            (app_surface APP_CALCULATOR, 334, title_height l + 239); (app_surface APP_NOTES, 334, title_height l + 239);
            (panel_surface, gop_width g, panel_height l)]
    /\ 320 <= cw /\ 200 <= ch /\ cw <= gop_width g /\ ch <= work /\ uw <= gop_width g /\ sh <= work /\ fh <= work /\ ah <= work
    /\ 334 <= gop_width g /\ title_height l + 239 <= work /\ work = gop_height g - panel_height l.
Proof.
  intros l work Hw Hh. set (large := (800 <=? gop_width g) && (600 <=? gop_height g)).
  assert (scale l = (if large then 2 else 1) /\ panel_height l = (if large then 32 else 24) /\ title_height l = if large then 24 else 16)
    as (Hs & Hp & Ht) by (unfold l, reset_desktop; cbn; done).
  assert (large = true -> 600 <= gop_height g) as Hlarge by (unfold large; intros; b2p; lia).
  assert (work = gop_height g - panel_height l) as Hwork by (unfold work; apply u32_id; destruct large; lia).
  assert (368 <= work) as Hwork' by (rewrite Hwork, Hp; destruct large; lia).
  clearbody work. clearbody l. unfold surface_sizes. rewrite !minimum_min, Hs, Ht. unfold ARGUS_APP_SURFACE_WIDTH, ARGUS_APP_SURFACE_HEIGHT.
  rewrite (u32_id (gop_width g - 24)), (u32_id (work - 24)) by (destruct large; lia). cbv zeta.
  rewrite (u32_id ((if large then 24 else 16) + 224 + 15)) by (unfold UINT32_MAX; destruct large; lia).
  set (cw := Z.min (if 1000 <=? gop_width g then _ else _) _). set (ch := Z.min (if 680 <=? work then _ else _) _).
  set (uw := if 700 <=? gop_width g then _ else _).
  assert (320 <= cw <= gop_width g - 24) as Hcw.
  { unfold cw. destruct (Z.leb_spec 1000 (gop_width g)); [lia|]. rewrite u32_id by (unfold UINT32_MAX; lia).
    pose proof (Z.div_mod (gop_width g * 3) 5). pose proof (Z.mod_pos_bound (gop_width g * 3) 5). lia. }
  assert (200 <= ch <= work - 24) as Hch.
  { unfold ch. destruct (Z.leb_spec 680 work); [lia|]. rewrite u32_id by (unfold UINT32_MAX; lia).
    pose proof (Z.div_mod (work * 3) 4). pose proof (Z.mod_pos_bound (work * 3) 4). destruct large; lia. }
  assert (400 <= uw <= gop_width g) as Huw by (unfold uw; destruct (Z.leb_spec 700 (gop_width g)); lia).
  match goal with |- context [if ?b then None else _] => assert (b = false) as -> end.
  { rewrite !orb_false_iff, !Z.ltb_ge. destruct large; [specialize (Hlarge eq_refl)|]; cbn; (split_and!; lia). }
  exists cw, ch, uw, (Z.min 238 (work - 24)), (Z.min 320 (work - 24)), (Z.min (if (if large then 2 else 1) =? 2 then 244 else 160) (work - 24)).
  split; [|destruct large; [specialize (Hlarge eq_refl)|]; cbn; split_and!; lia]. by destruct large; rewrite Hp.
Qed.

(** The compositor takes windows that fit. *)
Lemma initialize_compositor_succeeds l work d c0 :
  display_ok d -> 0 < work < gop_height (dp_gop d) -> 0 <= col_field (colors l) <= UINT32_MAX ->
  length (compositor_ids l) = Z.to_nat APP_COUNT -> Forall (fun x => 0 <= x) (compositor_ids l) ->
  (forall i, 0 <= i < APP_COUNT -> surface_valid d (app_surface i) = true /\
     surface_width d (app_surface i) <= gop_width (dp_gop d) /\ surface_height d (app_surface i) <= work) ->
  surface_valid d panel_surface = true -> surface_width d panel_surface = gop_width (dp_gop d) ->
  surface_height d panel_surface <= gop_height (dp_gop d) - work ->
  exists ids' c, initialize_compositor app_surface panel_surface l work d c0 = (true, ids', c).
Proof.
  intros Hd Hwk Hbg Hil Hir Hfit Hpv Hpw Hph. unfold initialize_compositor. cbv zeta. pose proof (do_gop _ Hd) as [_ Hgw Hgp Hgh _ _ _].
  destruct (compositor_init _ _ _ _ _) as [ok c1] eqn:E1.
  assert (ok = true /\ cp_window_count c1 = 0 /\ cp_panel c1 = 0 /\ cp_width c1 = gop_width (dp_gop d) /\ cp_height c1 = gop_height (dp_gop d)
    /\ cp_work_height c1 = work) as (-> & N1 & P1 & W1 & H1 & K1).
  { unfold compositor_init, nz in E1. destruct (Z.eqb_spec (gop_width (dp_gop d)) 0); [lia|].
    destruct (Z.eqb_spec (gop_height (dp_gop d)) 0); [lia|]. destruct (Z.eqb_spec work 0); [lia|].
    destruct (Z.ltb_spec (gop_height (dp_gop d)) work); [lia|]. by injection E1 as <- <-. }
  cbn [negb]. pose proof (fresh_view d c0 (gop_width (dp_gop d)) (gop_height (dp_gop d)) work (col_field (colors l)) c1 Hd ltac:(lia) ltac:(lia) ltac:(lia) Hbg E1) as V1.
  set (v := composition c1 d). assert (placed v d 0 (compositor_ids l) c1) as Pl1 by (constructor; try done; intros; lia).
  destruct (add_windows_succeed v d _ 0 _ c1 Pl1 P1 ltac:(lia) (window_places_wf d (gop_width (dp_gop d)) work)) as (ids2 & c2 & E2).
  { intros i Hi. rewrite W1, K1. by apply Hfit. }
  rewrite E2. cbn [negb]. destruct (add_windows_placed v d _ 0 _ c1 Pl1 P1 ltac:(lia) (window_places_wf d _ _) _ _ E2) as [Pl2 (W2 & H2 & K2 & P2)].
  destruct (compositor_set_panel c2 d panel_surface work) as [ok c3] eqn:E3.
  assert (ok = true) as ->.
  { unfold compositor_set_panel in E3. rewrite Hpv, Hpw, W2, W1, Z.eqb_refl, H2, H1 in E3. cbn [negb orb] in E3.
    destruct (Z.leb_spec (gop_height (dp_gop d)) work); [lia|].
    destruct (Z.ltb_spec (gop_height (dp_gop d) - work) (surface_height d panel_surface)); [lia|]. by injection E3 as <- _. }
  cbn [negb]. destruct (set_panel_effect _ _ _ _ _ E3) as (N3 & S3 & _).
  assert (placed v d APP_COUNT ids2 c3) as Pl3.
  { destruct Pl2 as [V2 N2 S2 L2 I2 R2]. constructor; try done; [|by rewrite N3|intros i Hi; unfold window_at; rewrite S3; by apply S2].
    pose proof (set_panel_step (v := v) c2 d panel_surface work V2) as Hs. rewrite E3 in Hs.
    apply Hs; [|congruence|lia]. split; [by rewrite P2, P1; apply Hnull|]. rewrite N2. intros i Hi. rewrite S2 by done. by apply Hpanel. }
  destruct (hide_windows _ _ _ _ _) as [ok c4] eqn:E4.
  destruct (hide_windows_placed v d ids2 (Z.to_nat APP_COUNT) 0 c3) with (ok := ok) (c' := c4) as (-> & Pl4 & _ & V4); try done; [lia|].
  exists ids2, c4. f_equal. f_equal. apply Z.eqb_eq. unfold compositor_visible_window_count. rewrite (pl_count _ _ _ _ _ Pl4).
  apply zcount_none. intros j Hj. apply V4. unfold APP_COUNT in *. lia.
Qed.

(** The console moves into its window. *)
Lemma surface_region_prints cw p x y width height fg bg con :
  console_set_surface_region cw p x y width height fg bg = (true, con) -> p <> 0 ->
  (con_scale (cw_con cw) = 1 \/ con_scale (cw_con cw) = 2) ->
  cell_w (cw_con cw) = 6 * con_scale (cw_con cw) -> cell_h (cw_con cw) = 9 * con_scale (cw_con cw) ->
  0 <= x <= 100 -> 0 <= y <= 100 -> 0 <= width -> 0 <= height ->
  printable (cw_con con) /\ draws (cw_display cw) (cw_display con).
Proof.
  intros E Hp Hs Hcw Hch Hx Hy Hw Hh. unfold console_set_surface_region in E. destruct (surface_at _ _) as [s|]; [|done].
  destruct (_ || _) eqn:Eg in E; [done|]. rewrite !orb_false_iff in Eg. destruct Eg as [[[[[[[Em _] _] _] _] _] _] _].
  apply negb_false_iff in Em. unfold enter_region in E. cbv zeta in E. destruct (_ || _) in E; [done|]. injection E as <-.
  unfold console_clear. cbv zeta. cbn [cw_con put_con con_colors con_region con_cursor framebuffer_mode]. rewrite Em. cbn [negb].
  cbn [cw_con put_con put_display cw_display con_cursor con_colors con_region region_x region_y region_w region_h con_bg target_surface].
  pose proof (Z.mod_le width (cell_w (cw_con cw)) Hw ltac:(lia)). pose proof (Z.mod_le height (cell_h (cw_con cw)) Hh ltac:(lia)).
  split.
  - constructor; cbn; try done; try lia; unfold UINT32_MAX; lia.
  - apply target_fill_draws; [done|lia..].
Qed.

(** The surfaces and the windows are there; the desktop is not online yet. *)
Lemma staged_desk v (w : world) ids c g :
  let w' := with_compositor (with_desktop w (set_ids (w_desktop w) ids)) c in
  dp_gop (w_display w) = g -> dims_ok (w_display w) -> layout_ok (w_layout w) -> active_app (w_desktop w) = APP_NONE ->
  desktop_online (w_desktop w) = false -> launcher_selection (w_desktop w) = 0 ->
  placed v (w_display w) APP_COUNT ids c -> cp_width c = gop_width g -> cp_height c = gop_height g ->
  640 <= gop_width g -> 400 <= gop_height g ->
  (forall i, 0 <= i < APP_COUNT -> win_visible (window_at c i) = false) ->
  (forall i, APP_SNAKE <= i <= APP_NOTES ->
     surface_width (w_display w) (app_surface i) = ARGUS_APP_SURFACE_WIDTH + 14 /\
     surface_height (w_display w) (app_surface i) = title_height (w_layout w) + ARGUS_APP_SURFACE_HEIGHT + 15) ->
  desk v w'.
Proof.
  intros w' Hg Hd Hl Ha Ho Hn [V C W L I R] Hcw Hch Hw Hh Hvis Hu. subst g.
  constructor; try done; cbn [w' w_desktop with_compositor with_desktop active_app set_ids set_layout launcher_selection desktop_online]; rewrite ?Ha, ?Ho, ?Hn; try done.
  - intros i. unfold compositor_id, w_layout. cbn. unfold zget. destruct (ids !! Z.to_nat i) eqn:E; [|done].
    exact (Forall_lookup_1 _ _ _ _ R E).
  - intros i Hi. unfold shown. cbn [w' w_desktop with_compositor with_desktop active_app set_ids set_layout w_compositor]. rewrite Ha, Hvis by done.
    symmetry. apply Z.eqb_neq. unfold APP_NONE, UINT32_MAX, APP_COUNT in *. lia.
  - by left.
Qed.

(** From the staged windows to the desktop online. *)
Lemma finish_init v (w5 : world) g con w' :
  let w6 := do_panel panel_surface (render_contents app_surface stray (render_chromes app_surface true w5)) in
  let w7 := with_console w6 con in
  let w8 := with_compositor w7 (compositor_damage_all (w_compositor w7)) in
  desk v w5 -> desktop_online (w_desktop w5) = false -> pointer_hidden w5 -> dp_gop (w_display w5) = g ->
  length (pointer_saved (dk_pointer (w_desktop w5))) = Z.to_nat (POINTER_WIDTH * POINTER_HEIGHT) ->
  printable (cw_con con) -> draws (w_display w6) (cw_display con) ->
  present w8 = (true, w') ->
  forall work, 32 <= work <= gop_height g - 16 ->
  let p := dk_pointer (w_desktop w') in
  tracks nowhere (with_desktop w' (set_online (set_pointer (w_desktop w')
    (mk_pointer (pointer_enabled p) (pointer_visible p) true (gop_width g / 2) (work / 2)
       (pointer_buttons p) (pointer_saved p) (pointer_saved_width p) (pointer_saved_height p))) true)).
Proof.
  intros w6 w7 w8 Hs5 Ho5 Hh5 Hg5 Hsv Hpr Hdr Hp work Hwork p.
  assert (keeps_desk w5 w6) as K6.
  { eapply keeps_desk_trans; [apply chromes_keep|]. eapply keeps_desk_trans; [apply contents_keep|apply panel_keeps]. }
  destruct (K6 v Hs5) as [Hs6 (G6 & O6 & P6 & _)]. rewrite Ho5 in O6.
  assert (keeps_desk w6 w7) as K7.
  { unfold w7. apply keeps_console; [done|]. intros Ho. by rewrite O6 in Ho. }
  destruct (K7 v Hs6) as [Hs7 (G7 & O7 & P7 & _)].
  pose proof (damage_all_any app_surface v (pixels w8) (shown w7) w7 Hs7) as Hs8. fold w8 in Hs8.
  destruct (present_session app_surface (pixels w8) (shown w7) w8 Hs8) as (w9 & E9 & Hs9 & D9 & G9 & Hpx).
  rewrite Hp in E9. injection E9 as <-.
  assert (dk_pointer (w_desktop w') = dk_pointer (w_desktop w5)) as Hpe by (rewrite D9; cbn; by rewrite P6).
  assert (dp_gop (w_display w') = g) as Hg by (rewrite G9; change (dp_gop (w_display w8)) with (dp_gop (w_display w7)); by rewrite G7, G6).
  assert (cw_con (w_console w') = cw_con con) as Hcon
    by (unfold present in Hp; destruct (compositor_present _ _) as [[ok c] d]; by injection Hp as _ <-).
  assert (forall x y, in_screen w8 x y -> pixels w' x y = composed w' x y) as Hexact.
  { intros x y Hxy. by destruct (Hpx x y Hxy) as [-> [E|[-> E]]]. }
  destruct (se_screen _ _ _ _ Hs9) as (_ & _ & Hw & Hh). rewrite Hg in Hw, Hh.
  split; [done|]. exists (composed w'). split.
  - pose proof Hs9 as []. constructor; try done.
    + intros i Hi. unfold shown. cbn. rewrite D9. apply (se_visible i Hi).
    + intros _. pose proof (Z.div_mod (gop_width g) 2). pose proof (Z.mod_pos_bound (gop_width g) 2).
      pose proof (Z.div_mod work 2). pose proof (Z.mod_pos_bound work 2).
      constructor; cbn; unfold POINTER_WIDTH, POINTER_HEIGHT in *; change (w_display _) with (w_display w'); rewrite ?Hg; try lia.
      * unfold p. by rewrite Hpe.
      * intros Hv. unfold p in Hv. rewrite Hpe in Hv. unfold pointer_hidden in Hh5. by rewrite Hv in Hh5.
    + intros _. change (printable (cw_con (w_console w'))). by rewrite Hcon.
  - intros x y Hxy _. unfold behind, under_pointer. cbn. unfold p. rewrite Hpe, Hh5. cbn. symmetry. apply Hexact.
    unfold in_screen in *. change (w_display (with_desktop _ _)) with (w_display w') in Hxy. by rewrite G9 in Hxy.
Qed.

(** Rendering changes neither the layout nor the console. *)
Definition same_setup (w w' : world) : Prop := w_layout w' = w_layout w /\ cw_con (w_console w') = cw_con (w_console w).

Lemma rendered_setup w : same_setup w (do_panel panel_surface (render_contents app_surface stray (render_chromes app_surface true w))).
Proof.
  assert (forall w1 w2 w3, same_setup w1 w2 -> same_setup w2 w3 -> same_setup w1 w3) as Ht
    by (intros w1 w2 w3 [A B] [C D]; split; congruence).
  assert (forall w i, same_setup w (do_user_app app_surface stray w i)) as Hu
    by (intros w1 i; unfold do_user_app; by destruct (render_user_app _ _ _ _ _ _)).
  assert (forall w, same_setup w (do_panel panel_surface w)) as Hp by (intros w1; unfold do_panel; by destruct (render_panel _ _ _ _)).
  assert (forall w d, same_setup w (with_display w d)) as Hd by done.
  eapply Ht; [|apply Hp]. unfold render_contents. do 3 (eapply Ht; [|apply Hu]). do 3 (eapply Ht; [|apply Hd]).
  apply (for_range_rel same_setup); [done|done|]. intros i w1. cbv zeta. eapply Ht; [|apply Hd]. apply Hd.
Qed.

Lemma init_tracks test w w' :
  start_ok test w -> desktop_init app_surface panel_surface stray test w = (true, w') -> tracks nowhere w'.
Proof.
  intros [[bs Hb] Hst [Ht0 Htest] Hstack [Hil Hir] Hsaved Hcells [Hcw Hch]]. unfold desktop_init. case_if; [done|].
  destruct (self_test_backed _ bs test Hb Ht0 Hstack) as (bs1 & Hb1 & Hg1 & Hss1).
  destruct (surface_self_test (w_display w) test) as [tested d1]. cbn [snd] in *. cbv zeta.
  destruct (_ || _) eqn:Eg; [done|]. rewrite !orb_false_iff in Eg. destruct Eg as [[_ Egw] Egh]. b2p.
  set (g := dp_gop d1) in *. set (w2 := with_desktop (with_display w d1) _).
  assert (layout_ok (w_layout w2)) as Hl by apply reset_layout. pose proof (bk_gop _ _ Hb1) as Hgok. pose proof Hgok as [_ Hgw Hgp Hgh _ _ _].
  set (work := u32 (gop_height g - panel_height (w_layout w2))).
  assert (368 <= work <= gop_height g - 24) as Hwork.
  { unfold work. rewrite u32_id by (unfold g in *; destruct Hl as [(_ & -> & _)|(_ & -> & _)]; lia).
    unfold g in *. destruct Hl as [(_ & -> & _)|(_ & -> & _)]; lia. }
  destruct (initialize_surfaces _ _ _ _ _ _) as [ok d3] eqn:E3. destruct ok; [|done]. cbn [negb].
  destruct (initialize_surfaces_backed (w_layout w2) (gop_width g) work d1 bs1 d3) as (bs3 & Hb3 & Hg3 & Hu3); try done; [unfold g in *; lia|unfold g in *; lia| |].
  { intros p Hp. unfold surface_at. rewrite Hss1. destruct (Z.eq_dec p test) as [->|Hne]; [done|].
    rewrite lookup_insert_ne by done. by apply Hst. }
  destruct (initialize_compositor _ _ _ _ _ _) as [[ok ids] c] eqn:E4. destruct ok; [|done]. cbn [negb].
  destruct (initialize_compositor_placed (w_layout w2) work d3 (w_compositor w) ids c) as (v & Hpl & Hcpw & Hcph & Hvis); try done;
    [by eapply backed_display|lia|apply rgb_range; lia|].
  destruct (negb _) eqn:Ev; [done|]. clear Ev.
  set (w5 := with_compositor (with_desktop (with_display w2 d3) _) c).
  assert (desk v w5) as Hs5.
  { apply (staged_desk v (with_display w2 d3) ids c g); try done; [by eapply backed_dims|by rewrite Hcpw, Hg3|by rewrite Hcph, Hg3]. }
  set (w6 := do_panel _ _). destruct (console_set_surface_region _ _ _ _ _ _ _ _) as [ok con] eqn:E6. destruct ok; [|done]. cbn [negb].
  assert (layout_ok (w_layout w5)) as Hl5 by exact Hl. destruct (rendered_setup w5) as [Hl6 Hcon6]. fold w6 in Hl6, Hcon6. change (cw_con (w_console w5)) with (cw_con (w_console w)) in Hcon6.
  destruct (surface_region_prints _ _ _ _ _ _ _ _ _ E6) as [Hpr Hdr]; rewrite ?Hcon6; try done;
    [by apply Hnull|rewrite Hl6, (content_y_eq _ Hl5); destruct Hl5; lia|apply u32_nonneg|apply u32_nonneg|].
  set (w8 := with_compositor (with_console w6 con) _).
  destruct (if compositor_validate _ _ then present w8 else _) as [ok w9] eqn:E8. destruct ok; [|done]. cbn [negb].
  destruct (compositor_validate _ _); [|done]. intros [= <-].
  eapply (finish_init v w5 g con w9); try done. lia.
Qed.

Lemma surface_region_succeeds cw p s x y width height fg bg :
  framebuffer_mode (cw_con cw) = true -> surface_at (cw_display cw) p = Some s -> valid_fields s = true ->
  x < sf_width s -> y < sf_height s -> width <= sf_width s - x -> height <= sf_height s - y ->
  0 < cell_w (cw_con cw) <= width -> 0 < cell_h (cw_con cw) <= height ->
  exists con, console_set_surface_region cw p x y width height fg bg = (true, con).
Proof.
  intros Hm Hs Hv Hx Hy Hw Hh Hcw Hch. unfold console_set_surface_region. rewrite Hs, Hm, Hv. cbn [negb orb].
  replace (_ || _) with false by (symmetry; rewrite !orb_false_iff, !Z.leb_gt, !Z.ltb_ge; lia).
  unfold enter_region. cbv zeta. cbn [region_w region_h con_region cell_w cell_h].
  assert (forall a b, 0 < a <= b -> a <= b - b mod a) as Hfit.
  { intros a b Hab. pose proof (Z.div_mod b a). pose proof (Z.mod_pos_bound b a). assert (1 <= b / a) by (apply Z.div_le_lower_bound; lia). nia. }
  pose proof (Hfit _ _ Hcw). pose proof (Hfit _ _ Hch).
  replace (_ || _) with false by (symmetry; rewrite orb_false_iff, !Z.ltb_ge; lia). by eexists.
Qed.

(** The heap bytes the desktop needs on a framebuffer. *)
Definition desktop_bytes (k : desktop_t) (g : argus_gop_t) : Z :=
  let l := dk_layout (reset_desktop k g) in
  Z.max 512 (from_option surface_bytes 0
    (surface_sizes app_surface panel_surface l (gop_width g) (u32 (gop_height g - panel_height l)))).

(** The surfaces fit, in the heap and on the screen. *)
Lemma surfaces_made k d N :
  let g := dp_gop d in
  let l := dk_layout (reset_desktop k g) in
  let work := u32 (gop_height g - panel_height l) in
  backed d [mk_block N true] -> 640 <= gop_width g -> 400 <= gop_height g -> desktop_bytes k g <= N -> N <= UINT64_MAX ->
  (forall p, In p (map app_surface (zrange 0 7) ++ [panel_surface]) -> exists s, surface_at d p = Some s) ->
  exists d', initialize_surfaces app_surface panel_surface l (gop_width g) work d = (true, d') /\
    work = gop_height g - panel_height l /\
    (forall i, 0 <= i < APP_COUNT -> surface_valid d' (app_surface i) = true /\
       surface_width d' (app_surface i) <= gop_width g /\ surface_height d' (app_surface i) <= work) /\
    surface_valid d' panel_surface = true /\ surface_width d' panel_surface = gop_width g /\
    surface_height d' panel_surface = panel_height l /\
    320 <= surface_width d' (app_surface APP_CONSOLE) /\ 200 <= surface_height d' (app_surface APP_CONSOLE).
Proof.
  intros g l work Hb Hgw Hgh HN HN64 Hst. pose proof (bk_gop _ _ Hb) as [_ Hw Hp Hh _ _ _]. fold g in Hw, Hp, Hh.
  destruct (sizes_exist k g) as (cw & ch & uw & sh & fh & ah & Es & E1 & E2 & E3 & E4 & E5 & E6 & E7 & E8 & E9 & E10 & Ework); [lia|lia|].
  fold l work in Es, E1, E2, E3, E4, E5, E6, E7, E8, E9, E10, Ework.
  assert (layout_ok l) as Hl by apply reset_layout. assert (0 < work <= UINT32_MAX) as Hwk by (destruct Hl; lia).
  destruct (sizes_wf l (gop_width g) work _ Hl ltac:(lia) Hwk Es) as (Hmap & Hwf & _).
  unfold desktop_bytes in HN. fold l work in HN. rewrite Es in HN. cbn [from_option] in HN.
  unfold initialize_surfaces. rewrite Es. clearbody work. revert Es Hmap Hwf HN. set (sizes := [_; _; _; _; _; _; _; _]). intros Es Hmap Hwf HN.
  assert (forall e, e ∈ sizes -> exists s, surface_at d e.1.1 = Some s) as Hslot.
  { intros e He. apply Hst. rewrite <- Hmap. apply (in_map (fun e => e.1.1)). by apply list_elem_of_In. }
  destruct (init_surfaces_succeed sizes d [] N Hb) as (d' & Ei); try done; [by apply Forall_forall|lia|].
  rewrite Ei. exists d'. split; [done|]. split; [done|].
  destruct (init_surfaces_backed sizes d _ Hb) with (d' := d') as (bs' & _ & _ & Hsz & _); [rewrite Hmap; apply surfaces_NoDup| |done|].
  { apply Forall_forall. intros e He. rewrite Forall_forall in Hwf. destruct (Hwf e He). auto. }
  assert (forall p a b, (p, a, b) ∈ sizes -> surface_valid d' p = true /\ surface_width d' p = a /\ surface_height d' p = b) as Hdim.
  { intros p a b He. rewrite Forall_forall in Hsz. destruct (Hsz _ He) as (s & Hs & Hok & Ha & Hb'). cbn [fst snd] in *.
    rewrite (surface_width_at _ _ _ Hs), (surface_height_at _ _ _ Hs). split_and!; try done. unfold surface_valid. rewrite Hs. by apply valid_of_ok. }
  assert (forall n p a b, sizes !! n = Some (p, a, b) -> surface_valid d' p = true /\ surface_width d' p = a /\ surface_height d' p = b) as Hat.
  { intros n p a b He. apply Hdim. by apply list_elem_of_lookup_2 in He. }
  destruct (Hat 7%nat _ _ _ eq_refl) as (V7 & -> & ->). destruct (Hat 0%nat _ _ _ eq_refl) as (V0 & W0 & H0).
  rewrite W0, H0. split_and!; try done. unfold APP_COUNT. intros i Hi.
  assert (i = 0 \/ i = 1 \/ i = 2 \/ i = 3 \/ i = 4 \/ i = 5 \/ i = 6) as [ -> | [ -> | [ -> | [ -> | [ -> | [ -> | -> ]]]]]] by lia.
  1: destruct (Hat 0%nat _ _ _ eq_refl) as (V & W & T). 2: destruct (Hat 1%nat _ _ _ eq_refl) as (V & W & T).
  3: destruct (Hat 2%nat _ _ _ eq_refl) as (V & W & T). 4: destruct (Hat 3%nat _ _ _ eq_refl) as (V & W & T).
  5: destruct (Hat 4%nat _ _ _ eq_refl) as (V & W & T). 6: destruct (Hat 5%nat _ _ _ eq_refl) as (V & W & T).
  7: destruct (Hat 6%nat _ _ _ eq_refl) as (V & W & T).
  all: unfold APP_CONSOLE, APP_SYSTEM, APP_FILES, APP_APPLICATIONS, APP_SNAKE, APP_CALCULATOR, APP_NOTES in V, W, T;
    rewrite V, W, T; (split; [done|lia]).
Qed.

(** With the windows in place, the console's window takes the console and the first
    frame is presented. *)
Lemma staged_succeeds v (w5 : world) :
  let w6 := do_panel panel_surface (render_contents app_surface stray (render_chromes app_surface true w5)) in
  desk v w5 -> desktop_online (w_desktop w5) = false -> console_uses_framebuffer (w_console w5) = true ->
  (con_scale (cw_con (w_console w5)) = 1 \/ con_scale (cw_con (w_console w5)) = 2) ->
  cell_w (cw_con (w_console w5)) = 6 * con_scale (cw_con (w_console w5)) ->
  cell_h (cw_con (w_console w5)) = 9 * con_scale (cw_con (w_console w5)) ->
  320 <= surface_width (w_display w5) (app_surface APP_CONSOLE) -> 200 <= surface_height (w_display w5) (app_surface APP_CONSOLE) ->
  exists con w',
    console_set_surface_region (w_console w6) (app_surface APP_CONSOLE) content_x (content_y (w_layout w6))
      (content_width app_surface (w_display w6) APP_CONSOLE) (content_height app_surface (w_layout w6) (w_display w6) APP_CONSOLE)
      (0xc9, 0xc8, 0xb5) (0x17, 0x1a, 0x17) = (true, con) /\
    let w7 := with_console w6 con in
    let w8 := with_compositor w7 (compositor_damage_all (w_compositor w7)) in
    compositor_validate (w_compositor w8) (w_display w8) = true /\ present w8 = (true, w').
Proof.
  intros w6 Hs5 Ho5 Hfb Hcs Hcw Hch Hw Hh.
  assert (keeps_desk w5 w6) as K6.
  { eapply keeps_desk_trans; [apply chromes_keep|]. eapply keeps_desk_trans; [apply contents_keep|apply panel_keeps]. }
  destruct (K6 v Hs5) as [Hs6 (_ & O6 & _ & D6 & _)]. destruct (rendered_setup w5) as [Hl6 Hcon6]. fold w6 in Hl6, Hcon6.
  destruct (D6 (app_surface APP_CONSOLE)) as [W6 H6]. rewrite <- W6 in Hw. rewrite <- H6 in Hh.
  pose proof (app_window_valid _ _ _ _ APP_CONSOLE Hs6 ltac:(unfold APP_CONSOLE, APP_COUNT; lia)) as Hv.
  apply surface_valid_at in Hv as (s & Hs & Hvs). pose proof (do_surfaces _ (ui_display _ _ (se_view _ _ _ _ Hs6)) _ _ Hs Hvs) as [_ Hsw Hss Hsh _].
  pose proof (se_layout _ _ _ _ Hs6) as Hl. 
  rewrite (surface_width_at _ _ _ Hs) in Hw. rewrite (surface_height_at _ _ _ Hs) in Hh.
  unfold content_width, content_height. rewrite (content_y_eq _ Hl), (surface_width_at _ _ _ Hs), (surface_height_at _ _ _ Hs).
  rewrite !u32_id by (rewrite ?u32_id; destruct Hl; lia).
  edestruct (surface_region_succeeds (w_console w6) (app_surface APP_CONSOLE) s content_x (title_height (w_layout w6) + 8)
    (sf_width s - 14) (sf_height s - title_height (w_layout w6) - 15)) as [con E]; rewrite ?Hcon6; try done; unfold content_x; try (destruct Hl; lia).
  exists con. unfold content_x in *. rewrite E. cbv zeta. set (w7 := with_console w6 con).
  destruct (surface_region_prints _ _ _ _ _ _ _ _ _ E) as [Hpr Hdr]; rewrite ?Hcon6; try done; try (destruct Hl; lia); [by apply Hnull|].
  assert (keeps_desk w6 w7) as K7.
  { apply keeps_console; [done|]. intros Ho. rewrite O6, Ho5 in Ho. done. }
  destruct (K7 v Hs6) as [Hs7 _]. pose proof (damage_all_any app_surface v v (shown w7) w7 Hs7) as Hs8.
  destruct (present_session app_surface _ _ _ Hs8) as (w9 & E9 & _). exists w9. split_and!; [done| |done].
  exact (validate_true v _ _ (se_view _ _ _ _ Hs8)).
Qed.

Lemma init_succeeds test w N :
  start_ok test w -> backed (w_display w) [mk_block N true] -> console_uses_framebuffer (w_console w) = true ->
  640 <= gop_width (dp_gop (w_display w)) -> 400 <= gop_height (dp_gop (w_display w)) ->
  desktop_bytes (w_desktop w) (dp_gop (w_display w)) <= N -> N <= UINT64_MAX ->
  exists w', desktop_init app_surface panel_surface stray test w = (true, w').
Proof.
  intros [_ Hst [Ht0 Htest] Hstack [Hil Hir] Hsaved Hcells [Hcw Hch]] Hb Hfb Hgw Hgh HN HN64. unfold desktop_init. rewrite Hfb. cbn [negb].
  destruct (self_test_passes _ N test Hb) as (d1 & -> & Hb1 & Hg1 & Hss1); try done; [unfold desktop_bytes in HN; lia|].
  cbn [negb]. cbv zeta. rewrite Hg1. set (g := dp_gop (w_display w)) in *. pose proof (bk_gop _ _ Hb) as Hgok. fold g in Hgok. pose proof Hgok as [Hus Hw Hp Hh _ _ _].
  rewrite Hus. destruct (Z.ltb_spec (gop_width g) 640); [lia|]. destruct (Z.ltb_spec (gop_height g) 400); [lia|]. cbn [negb orb].
  set (w2 := with_desktop (with_display w d1) _). set (work := u32 (gop_height g - panel_height (w_layout w2))).
  assert (layout_ok (w_layout w2)) as Hl by apply reset_layout.
  assert (forall p, In p (map app_surface (zrange 0 7) ++ [panel_surface]) -> exists s, surface_at d1 p = Some s) as Hst1.
  { intros p Hin. unfold surface_at. rewrite Hss1. destruct (Z.eq_dec p test) as [->|Hne]; [done|]. rewrite lookup_insert_ne by done. by apply Hst. }
  destruct (surfaces_made (w_desktop w) d1 N) as (d3 & E3 & Hwork & Hfit & Hpv & Hpw & Hph & Hc1 & Hc2); rewrite ?Hg1; try done.
  rewrite Hg1 in *. fold g in E3, Hwork, Hfit, Hpw, Hph.
  change (dk_layout (reset_desktop (w_desktop w) g)) with (w_layout w2) in *. change (w_display w2) with d1. fold work in E3, Hwork, Hfit. rewrite E3. cbn [negb].
  assert (368 <= work <= gop_height g - 24) as Hwk by (destruct Hl; lia).
  destruct (initialize_surfaces_backed (w_layout w2) (gop_width g) work d1 [mk_block N true] d3) as (bs3 & Hb3 & Hg3 & Hu3); try done; [lia|lia|].
  rewrite Hg1 in Hg3.
  destruct (initialize_compositor_succeeds (w_layout w2) work d3 (w_compositor w)) as (ids & c & E4); rewrite ?Hg3; fold g; try done;
    [by eapply backed_display|lia|apply rgb_range; lia|lia|].
  change (w_display (with_display w2 d3)) with d3. change (w_layout (with_display w2 d3)) with (w_layout w2).
  change (w_compositor (with_display w2 d3)) with (w_compositor w). rewrite E4. cbn [negb].
  destruct (initialize_compositor_placed (w_layout w2) work d3 (w_compositor w) ids c) as (v & Hpl & Hcpw & Hcph & Hvis); try done;
    [by eapply backed_display|lia|apply rgb_range; lia|].
  set (w5 := with_compositor (with_desktop (with_display w2 d3) _) c).
  assert (compositor_visible_window_count (w_compositor w5) = 0) as ->.
  { unfold compositor_visible_window_count. change (w_compositor w5) with c. rewrite (pl_count _ _ _ _ _ Hpl).
    apply zcount_none. intros j Hj. apply Hvis. unfold APP_COUNT in *. lia. }
  change (0 !=? 0) with false. cbv iota.
  assert (desk v w5) as Hs5.
  { apply (staged_desk v (with_display w2 d3) ids c g); try done; [by eapply backed_dims|by rewrite Hcpw, Hg3|by rewrite Hcph, Hg3]. }
  destruct (staged_succeeds v w5) as (con & w9 & E6 & Ev & E9); try done. cbv zeta in Ev, E9. rewrite E6. cbn [negb]. cbv iota.
  rewrite Ev, E9. by eexists.
Qed.

End Windows.

(** ** The desktop from its start on *)

(** [apps[i].surface] and [panel] are eight objects. *)
Definition statics_apart (app_surface : Z -> Z) (panel_surface : Z) : Prop :=
  (forall i j, 0 <= i < APP_COUNT -> 0 <= j < APP_COUNT -> app_surface i = app_surface j -> i = j) /\
  (forall i, 0 <= i < APP_COUNT -> app_surface i <> panel_surface) /\
  (panel_surface <> 0 /\ forall i, 0 <= i < APP_COUNT -> app_surface i <> 0).

(** The states the desktop reaches after a successful [desktop_init], with the
    pixels that may be stale: those that were under a shown pointer at a key event
    since the desktop was last redrawn. *)
Definition reached {K : Type} `{Services K} (app_surface : Z -> Z) (panel_surface : Z) (stray : Z -> Z)
    (test : Z) (w : world) (stale : Z -> Z -> Prop) : Prop :=
  exists w0 w1, start_ok app_surface panel_surface test w0 /\
    desktop_init app_surface panel_surface stray test w0 = (true, w1) /\
    rtc (desktop_step app_surface panel_surface stray) (w1, nowhere) (w, stale).

Section Reached.
Context {K : Type} `{Services K} (app_surface : Z -> Z) (panel_surface : Z) (stray : Z -> Z).
Context (Hst : statics_apart app_surface panel_surface).

Lemma reached_tracks test w stale : reached app_surface panel_surface stray test w stale -> tracks app_surface stale w.
Proof.
  destruct Hst as (Hinj & Hpan & Hnull). intros (w0 & w1 & H0 & H1 & H2).
  apply (desktop_steps_track app_surface panel_surface) in H2; try done.
  exact (init_tracks app_surface panel_surface Hinj Hpan Hnull stray test w0 w1 H0 H1).
Qed.

(** It is known which pixels are stale. *)
Lemma reached_stale_dec test w stale : reached app_surface panel_surface stray test w stale ->
  forall x y, stale x y \/ ~ stale x y.
Proof.
  intros (w0 & w1 & _ & _ & Hs) x y.
  assert (forall p p', rtc (desktop_step app_surface panel_surface stray) p p' ->
            snd p x y \/ ~ snd p x y -> snd p' x y \/ ~ snd p' x y) as Hdec.
  { clear. induction 1 as [|p1 p2 p3 Hs _ IH]; [done|]. intros Hd. apply IH. destruct Hs; cbn [fst snd] in *; try done.
    - unfold spoiled. destruct (under_pointer _ x y); [by left; right|]. destruct Hd; [by left; left|right]. by intros [?|?].
    - right. intros []. }
  apply (Hdec _ _ Hs). right. intros [].
Qed.

(** An enabled pointer is shown. *)
Lemma show_visible e (w : @world K) :
  tracks app_surface e w -> pointer_enabled (dk_pointer (w_desktop w)) = true ->
  pointer_visible (dk_pointer (w_desktop (desktop_pointer_show w))) = true.
Proof.
  intros Ht He. destruct (tracks_session _ _ _ Ht) as [v Hs]. pose proof (tracks_online _ _ _ Ht) as Ho.
  pose proof (po_initialized _ _ (se_pointer _ _ _ _ Hs Ho)) as Hi. pose proof (pr_mode _ (se_console _ _ _ _ Hs Ho)) as Hm.
  unfold desktop_pointer_show, console_uses_framebuffer. rewrite He, Hi, Hm. cbn [negb]. destruct (pointer_visible (dk_pointer (w_desktop w))) eqn:Ev; [done|].
  cbn [orb]. cbv iota zeta. destruct (draw_pointer _ _ _ _ _ _ _) as [saved m]. done.
Qed.
End Reached.

(** C15: Whatever the pointer, the keyboard, the timer, the console, the applications and
    the kernel's services do after [desktop_init] has succeeded, the desktop stays in
    the state its own check accepts: the compositor's windows, z order, panel and
    damage are consistent, exactly the active application's window is visible, and
    the whole pointer is on the screen. *)
Theorem desktop_always_valid {K : Type} `{Services K} app_surface panel_surface stray test (w : world) stale :
  statics_apart app_surface panel_surface -> reached app_surface panel_surface stray test w stale ->
  desktop_compositor_valid w = true.
Proof.
  intros Hst Hr. pose proof (reached_tracks _ _ _ Hst _ _ _ Hr) as Ht. destruct (tracks_session _ _ _ Ht) as [v Hv].
  eapply desk_valid; [exact Hv|by eapply tracks_online].
Qed.

(** C16: [desktop_present] brings the screen up to date.  After any history of the
    desktop it succeeds, and every pixel of the framebuffer is then the pointer's
    dot where the pointer has one, and elsewhere the pixel the compositor composes
    from the panel, the visible window and the background, with one exception:
    the pixels that were under the shown pointer at a key event since the desktop
    was last redrawn may be stale (see [key_event_restores_old_picture]). *)
Theorem desktop_present_exact {K : Type} `{Services K} app_surface panel_surface stray test (w : world) stale x y :
  statics_apart app_surface panel_surface -> reached app_surface panel_surface stray test w stale ->
  let w' := snd (desktop_present w) in
  let g := dp_gop (w_display w') in
  0 <= x < gop_width g -> 0 <= y < gop_height g ->
  fst (desktop_present w) = true /\
  (stale x y \/
   gop_getpixel g (dp_mem (w_display w')) x y
   = match (if under_pointer (dk_pointer (w_desktop w')) x y
            then pointer_dot (colors (w_layout w')) (x - desktop_pointer_x w') (y - desktop_pointer_y w') else None) with
     | Some color => u32 color
     | None => composed_pixel (w_compositor w') (w_display w') x y
     end).
Proof.
  intros Hst Hr w' g Hx Hy. pose proof (reached_tracks _ _ _ Hst _ _ _ Hr) as Ht.
  destruct (desktop_present_tracks app_surface stale w Ht) as ((_ & v & Hs & _) & Hd & Hok). fold w' in Hs, Hd.
  split; [exact Hok|]. destruct (reached_stale_dec _ _ _ _ _ _ Hr x y) as [He|He]; [by left|right].
  pose proof (ui_display _ _ (se_view _ _ _ _ Hs)) as Hdo. destruct (se_screen _ _ _ _ Hs) as (Ew & Eh & _).
  rewrite composed_pixel_eq by (try apply (se_view _ _ _ _ Hs); by rewrite ?Ew, ?Eh). fold (composed w').
  rewrite <- (Hd x y (conj Hx Hy) He).
  unfold gop_getpixel, g. rewrite (go_usable _ (do_gop _ Hdo)). cbn [negb orb]. fold g.
  destruct (Z.leb_spec (gop_width g) x), (Z.leb_spec (gop_height g) y); done || lia.
Qed.

(** Showing the pointer and hiding it again leaves every pixel of the screen as it
    was: the picture behind the pointer is saved and put back exactly, at the
    screen's edges too. *)
Theorem pointer_show_hide {K : Type} `{Services K} app_surface panel_surface stray test (w : world) stale x y :
  statics_apart app_surface panel_surface -> reached app_surface panel_surface stray test w stale ->
  pointer_visible (dk_pointer (w_desktop w)) = false ->
  let g := dp_gop (w_display w) in
  0 <= x < gop_width g -> 0 <= y < gop_height g ->
  let w' := desktop_pointer_hide (desktop_pointer_show w) in
  gop_getpixel (dp_gop (w_display w')) (dp_mem (w_display w')) x y = gop_getpixel g (dp_mem (w_display w)) x y.
Proof.
  intros Hst Hr Hh g Hx Hy w'. pose proof (reached_tracks _ _ _ Hst _ _ _ Hr) as Ht. destruct (tracks_session _ _ _ Ht) as [v Hv].
  destruct (show_session app_surface v _ w Hv (tracks_online _ _ _ Ht)) as (Hs1 & Hg1 & Ha1 & Ho1 & Hb1 & _).
  destruct (hide_session app_surface v _ _ Hs1 Ho1) as (_ & _ & Hg2 & _ & _ & Hp). fold w' in Hg2, Hp.
  assert (screen g (dp_mem (w_display w')) x y = screen g (dp_mem (w_display w)) x y) as E.
  { specialize (Hp x y). unfold in_screen in Hp. rewrite Hg1 in Hp. specialize (Hp (conj Hx Hy)). rewrite (Hb1 x y (conj Hx Hy)) in Hp.
    unfold behind, under_pointer, pixels in Hp. rewrite Hh in Hp. cbn [andb] in Hp. by rewrite Hg2, Hg1 in Hp. }
  rewrite Hg2, Hg1. fold g. unfold gop_getpixel. case_if; [done|]. exact E.
Qed.

(** C32: [desktop_init] succeeds whenever it can: with a framebuffer of at least 640 by
    400 pixels behind the console and a heap with room for the eight surfaces, every
    allocation, window and region it asks for is granted and the first frame is
    presented, so the desktop comes online. *)
Theorem desktop_init_succeeds {K : Type} `{Services K} app_surface panel_surface stray test (w : world) N :
  statics_apart app_surface panel_surface -> start_ok app_surface panel_surface test w ->
  backed (w_display w) [mk_block N true] -> console_uses_framebuffer (w_console w) = true ->
  640 <= gop_width (dp_gop (w_display w)) -> 400 <= gop_height (dp_gop (w_display w)) ->
  desktop_bytes app_surface panel_surface (w_desktop w) (dp_gop (w_display w)) <= N -> N <= UINT64_MAX ->
  exists w', desktop_init app_surface panel_surface stray test w = (true, w') /\ desktop_online (w_desktop w') = true.
Proof.
  intros (Hinj & Hpan & Hnull) H0 Hb Hfb Hw Hh HN HN64.
  destruct (init_succeeds app_surface panel_surface Hinj Hpan Hnull stray test w N) as [w' E]; try done.
  exists w'. split; [done|]. by destruct (init_tracks app_surface panel_surface Hinj Hpan Hnull stray test w w' H0 E).
Qed.

(** A key event that changes the windows while the pointer is shown does not bring
    the saved picture behind the pointer up to date: when the pointer is hidden
    next, every pixel under it goes back to what was there before the key. *)
Theorem key_event_restores_old_picture {K : Type} `{Services K} app_surface panel_surface stray test (w : world) stale key x y :
  statics_apart app_surface panel_surface -> reached app_surface panel_surface stray test w stale ->
  under_pointer (dk_pointer (w_desktop w)) x y = true ->
  0 <= x < gop_width (dp_gop (w_display w)) -> 0 <= y < gop_height (dp_gop (w_display w)) ->
  let restored w := screen (dp_gop (w_display (desktop_pointer_hide w))) (dp_mem (w_display (desktop_pointer_hide w))) x y in
  restored (snd (desktop_key_event app_surface panel_surface stray w key)) = restored w.
Proof.
  intros Hst Hr Hu Hx Hy restored. pose proof (reached_tracks _ _ _ Hst _ _ _ Hr) as Ht.
  destruct (key_restores app_surface panel_surface stray stale w key x y Ht Hu (conj Hx Hy)) as [E1 E2].
  unfold restored, pixels in *. by rewrite E1, E2.
Qed.

(** ** Witnesses: a screen of 640 by 400 pixels and a heap of four megabytes *)

#[local] Existing Instance drawing_services.

Definition wide_base : Z := 0x1000000.
Definition wide_size : Z := 0x400000.
Definition wide_heap : heap_state :=
  mk_heap wide_base wide_size wide_base
    (set_free (set_magic (set_next (set_previous (set_size ∅ wide_base (wide_size - HEADER)) wide_base 0) wide_base 0)
       wide_base HEAP_BLOCK_MAGIC) wide_base 1).
Definition wide_gop : argus_gop_t :=
  mk_gop 0x4000000 640 400 640 PixelBlueGreenRedReserved8BitPerColor (mk_masks 0 0 0 0) 0x4000000 0x100000 true.
Definition wide_surface (i : Z) : Z := 100 + i.
Definition wide_panel : Z := 200.
Definition wide_display : display :=
  mk_display (list_to_map (map (fun p => (p, surface0)) (map wide_surface (zrange 0 7) ++ [wide_panel]))) wide_gop wide_heap.
Definition wide_layout : layout_t := mk_layout (mk_colors 0 0 0 0 0 0 0 0 0 0) 1 24 16 (replicate 7 0).
Definition wide_pointer : pointer_t :=
  mk_pointer false false false 0 0 0 (replicate (Z.to_nat (POINTER_WIDTH * POINTER_HEIGHT)) 0) 0 0.
Definition wide_world : world :=
  mk_world (mk_desktop wide_layout (mk_tasks 0 0 0 0) (mk_drag false 0 0 0 0) wide_pointer APP_NONE false 0 [] 0)
    (mk_compositor 0 0 0 0 [] [] 0 0 0 [] 0 0 0 0)
    (mk_cworld (mk_console false true 0 0 0 0 1 6 9 0 0 640 400 0) wide_display []) tt.

Lemma wide_apart : statics_apart wide_surface wide_panel.
Proof. unfold statics_apart, wide_surface, wide_panel, APP_COUNT. split_and!; intros; lia. Qed.

Lemma wide_rep : rep wide_heap [mk_block (wide_size - HEADER) true].
Proof.
  unfold wide_heap, wide_base, wide_size, HEADER. constructor; cbn [heap_base heap_size first_block heap_mem];
    [done|done|done|done|by constructor|done|]. split; [|done]. unfold header, HEADER. fields. cbn [bl_size bl_free]. split_and!; load_stores; done.
Qed.

Lemma wide_slot p : In p (map wide_surface (zrange 0 7) ++ [wide_panel]) -> surface_at wide_display p = Some surface0.
Proof.
  unfold wide_display, surface_at. cbn [dp_surfaces]. intros Hin. apply elem_of_list_to_map_1'; [|by apply list_elem_of_In, in_map_iff; exists p].
  intros y Hy. apply list_elem_of_In, in_map_iff in Hy as (q & [= _ <-] & _). done.
Qed.
Lemma wide_slots p s : surface_at wide_display p = Some s -> s = surface0.
Proof.
  unfold wide_display, surface_at. cbn [dp_surfaces]. intros Hs. apply elem_of_list_to_map_2 in Hs.
  by apply list_elem_of_In, in_map_iff in Hs as (q & [= _ <-] & _).
Qed.

Lemma wide_backed : backed wide_display [mk_block (wide_size - HEADER) true].
Proof.
  constructor.
  - constructor; cbn; unfold UINT32_MAX, UINT64_MAX; lia || done.
  - done.
  - apply wide_rep.
  - left. cbn. unfold wide_base, wide_size. lia.
  - intros p s Hs. left. by eapply wide_slots.
  - intros p q s t _ Hs _ _. by rewrite (wide_slots p s Hs).
Qed.

Lemma wide_start : start_ok wide_surface wide_panel 300 wide_world.
Proof.
  constructor; try done.
  - by exists [mk_block (wide_size - HEADER) true]; apply wide_backed.
  - intros p Hp. exists surface0. by apply wide_slot.
  - split; [lia|]. cbn. unfold wide_surface, wide_panel. lia.
  - split; [done|]. cbn. repeat constructor; lia.
  - by left.
Qed.

Lemma wide_room : desktop_bytes wide_surface wide_panel (w_desktop wide_world) (dp_gop (w_display wide_world)) <= wide_size - HEADER.
Proof. vm_compute. discriminate. Qed.

Lemma desktop_init_succeeds_witness :
  exists w', desktop_init wide_surface wide_panel (fun _ => 0) 300 wide_world = (true, w') /\ desktop_online (w_desktop w') = true.
Proof.
  apply (desktop_init_succeeds wide_surface wide_panel (fun _ => 0) 300 wide_world (wide_size - HEADER)).
  - exact wide_apart.
  - exact wide_start.
  - exact wide_backed.
  - reflexivity.
  - cbn. lia.
  - cbn. lia.
  - exact wide_room.
  - unfold wide_size, HEADER, UINT64_MAX. lia.
Defined.

(** The pointer is enabled and shown, a key comes while it is shown, and it is
    hidden again. *)
Lemma wide_reached : exists w stale, reached wide_surface wide_panel (fun _ => 0) 300 w stale /\ pointer_hidden w /\
  pointer_enabled (dk_pointer (w_desktop w)) = true.
Proof.
  destruct wide_apart as (Hinj & Hpan & Hnull).
  destruct (init_succeeds wide_surface wide_panel Hinj Hpan Hnull (fun _ => 0) 300 wide_world (wide_size - HEADER)) as [w E];
    [exact wide_start|exact wide_backed|done|cbn; lia|cbn; lia|exact wide_room|unfold wide_size, HEADER, UINT64_MAX; lia|].
  set (w2 := desktop_pointer_show (desktop_pointer_set_enabled w true)).
  set (w3 := snd (desktop_key_event wide_surface wide_panel (fun _ => 0) w2 9)).
  exists (desktop_pointer_set_enabled (desktop_pointer_hide w3) true), (spoiled nowhere w2).
  split_and!; [| |done].
  - exists wide_world, w. split_and!; [exact wide_start|exact E|]. eapply rtc_l; [apply desk_enable|].
    eapply rtc_l; [apply desk_show|]. eapply rtc_l; [apply desk_key|]. eapply rtc_l; [apply desk_hide|].
    apply rtc_once, desk_enable.
  - generalize w3. intros w4. unfold pointer_hidden, desktop_pointer_set_enabled, desktop_pointer_hide. cbv zeta.
    cbn [negb]. case_if; [by apply negb_true_iff|done].
Qed.

Lemma desktop_always_valid_witness : exists w : @world unit, desktop_compositor_valid w = true.
Proof.
  destruct wide_reached as (w & stale & Hr & _). exists w.
  exact (desktop_always_valid wide_surface wide_panel (fun _ => 0) 300 w stale wide_apart Hr).
Defined.

Lemma desktop_present_exact_witness : exists w : @world unit, fst (desktop_present w) = true.
Proof.
  destruct wide_reached as (w & stale & Hr & _). exists w.
  assert (reached wide_surface wide_panel (fun _ => 0) 300 (snd (desktop_present w)) stale) as Hr'.
  { destruct Hr as (w0 & w1 & A & B & C). exists w0, w1. split_and!; [exact A|exact B|]. eapply rtc_r; [exact C|apply desk_present]. }
  destruct (reached_tracks _ _ _ wide_apart _ _ _ Hr') as (_ & v & Hs & _). destruct (se_screen _ _ _ _ Hs) as (_ & _ & Hw & Hh).
  apply (desktop_present_exact wide_surface wide_panel (fun _ => 0) 300 w stale 0 0 wide_apart Hr); lia.
Defined.

Lemma pointer_show_hide_witness : exists w : @world unit,
  pointer_visible (dk_pointer (w_desktop (desktop_pointer_show w))) = true /\
  gop_getpixel (dp_gop (w_display (desktop_pointer_hide (desktop_pointer_show w))))
    (dp_mem (w_display (desktop_pointer_hide (desktop_pointer_show w)))) 3 5
  = gop_getpixel (dp_gop (w_display w)) (dp_mem (w_display w)) 3 5.
Proof.
  destruct wide_reached as (w & stale & Hr & Hh & He). exists w. pose proof (reached_tracks _ _ _ wide_apart _ _ _ Hr) as Ht.
  split; [exact (show_visible _ _ _ Ht He)|].
  destruct (tracks_session _ _ _ Ht) as [v Hs]. destruct (se_screen _ _ _ _ Hs) as (_ & _ & Hgw & Hgh).
  apply (pointer_show_hide wide_surface wide_panel (fun _ => 0) 300 w stale 3 5 wide_apart Hr Hh); lia.
Defined.
